(* ===== verification/_CoqProject ===== *)
-Q . S2P
Prelude.v
CStr.v
Align.v
BurstQueue.v
Ring.v
RingSpec.v
RingConc.v
RingReg.v
RingGroup.v
KvArgs.v
EthTable.v
EthStats.v
EthDev.v
EthRing.v
EthRingArgs.v
Vhost.v
VhostConc.v
Platform.v
Session.v
Secondary.v
SecSession.v
GuestPrimary.v
NfvOld.v
PanelPrimary.v
RingPlatform.v
Mempool.v
MempoolInit.v
Primary.v
PrimaryMain.v
SecMemcpy.v
SecMemcpyApp.v
ShmPages.v
ShmFiles.v
HostShmem.v
ShmCmdline.v
EalShmem.v
Malloc.v
MallocFit.v
MallocInv.v
MallocOps.v
MallocHeap.v
MallocAlloc.v
MallocInit.v
RteMalloc.v
MallocSafe.v
Memzone.v
MemzoneSafe.v
MemCalls.v
RingMemory.v
Mbuf.v
MbufInv.v
MbufOps.v
MbufClone.v
MbufData.v
MbufCalls.v
MbufPool.v
MbufConc.v
VirtQueue.v
VirtMem.v
VirtRx.v
VirtTx.v
VirtDeq.v
VirtMrg.v
VirtCheck.v
VirtDev.v
VirtUser.v
VirtAbs.v
VirtList.v
VirtPairs.v
VirtRemove.v
VirtStep.v
VirtHandle.v
VirtLife.v
VirtFds.v
VirtPmd.v
VirtSession.v
VirtFdset.v
VirtEvents.v
