(* ===== verification/Prelude.v ===== *)
(** * Verification of the Soft Patch Panel

    The Soft Patch Panel (SPP) moves packets between Ethernet ports of the DPDK
    2.2.0 it is shipped with. A primary process creates a pool of packet
    buffers, one ring per client and the physical ports. Secondary processes
    make ports of these rings (and of vhost devices), keep a table that patches
    input ports to output ports, change it on text commands of a controller,
    and move packets along it in an endless loop. The primary process also
    describes its memory in files, so that processes in guests can attach to it.
    The sources are in
    [src/dpdk-2.2.0]; paths below are relative to it, and [pp/] is
    [examples/multi_process/patch_panel/].

    ** The parts and their models

    - [Prelude.v] (this file): fixed-width integers, C arrays ([load], [store]
      are [None] outside the array), record updates, lists, tactics and hints.
    - [CStr.v], [Align.v]: what the programs use of the C string library, and
      the alignment macros of [rte_common.h].
    - [BurstQueue.v]: the class of queues a driver or a pool is built on.
    - [Ring.v]: [lib/librte_ring/rte_ring.h] and the initialisation of
      [rte_ring.c], as one thread runs them. The record [rte_ring] has the four
      free-running 32-bit indexes and the table; there is one definition per C
      function, and the copying macros are written out.
    - [RingSpec.v]: the ring refines a bounded FIFO queue, and is an instance
      of [BurstQueue].
    - [RingConc.v]: the four enqueue and dequeue routines of any number of
      threads, interleaved at every access to the ring (a step relation).
    - [RingReg.v]: [rte_ring_create], [rte_ring_lookup], [rte_ring_free] and
      the names of [pp/shared/common.h]. [RingGroup.v]: groups of rings with
      numbered names, made by one process and looked up by others.
    - [KvArgs.v]: [lib/librte_kvargs/rte_kvargs.c], device arguments.
    - [EthTable.v], [EthDev.v]: [lib/librte_ether/rte_ethdev.c]. The state is
      the device arrays and [nb_ports], the functions are in a state monad with
      undefined behaviour, drivers are arbitrary records of functions.
    - [EthRing.v]: [drivers/net/ring/rte_eth_ring.c], over [BurstQueue];
      [EthRingArgs.v] is its part for EAL arguments ([rte_pmd_ring_devinit]).
      [EthStats.v] has the counters the drivers have in common.
    - [Vhost.v]: [drivers/net/vhost/rte_eth_vhost.c], ports that are sockets for
      guests, as one thread runs it. [VhostConc.v]: the flags that keep polling
      lcores and the thread of the callbacks apart, as a step relation on a
      machine with or without store buffers.
    - [Platform.v]: the class of calls the applications make, and what they
      rely on.
    - [Secondary.v]: [pp/nfv_py/nfv_py.c] and [pp/sec_zerocpy/sec_zerocpy.c]:
      arguments, start-up, patch table, every command, the packet loop, and a
      patch command interleaved with the loop.
    - [Session.v]: the loop of [main] in all applications, which connects to the
      controller, receives messages and sends replies, over any reaction to a
      message; [SecSession.v] puts the commands of [Secondary.v] into it.
    - [GuestPrimary.v]: [pp/vm_py/main.c] and [pp/pri_lvl3/main.c], the programs
      in a guest, on the table and the loop of [Secondary.v]. [NfvOld.v]:
      [pp/nfv/nfv.c], the predecessor of [nfv_py]. [PanelPrimary.v]:
      [pp/patch_panel/main.c], the first primary: its prompt, and the main thread
      and the thread of a client as a step relation.
    - [RingPlatform.v]: the instance of [Platform] made of the models of the
      ring library, the port table and the ring driver.
    - [Mempool.v], [MempoolInit.v]: [lib/librte_mempool/rte_mempool.h] and
      [rte_mempool.c]: objects taken and returned, over [BurstQueue]; layout
      and creation of pools.
    - [Primary.v]: [pp/pri_lvl1/args.c] and, of [init.c], the pool, the rings
      of the clients and the initialisation of a port. [PrimaryMain.v]: the wait
      for the links of [init.c], and the commands and the sums of the statistics
      of [main.c].
    - [SecMemcpy.v], [SecMemcpyApp.v]: [pp/sec_memcpy/sec_memcpy.c]: the
      copying of packets, and the program around it, over the commands of
      [Secondary.v].
    - [ShmPages.v], [ShmFiles.v], [HostShmem.v], [ShmCmdline.v]:
      [lib/librte_hostshmem/rte_hostshmem.c], and the part of
      [pp/pri_lvl1/init.c] that uses it. The state is the array of
      configurations; the four passes of [build_config] are in the first two
      files.
    - [EalShmem.v]: [lib/librte_eal/linuxapp/eal/eal_hostshmem.c], the process
      that attaches: the mapping of the pages and the discovery of the objects.
    - [Malloc.v]: [malloc_elem.c] and [malloc_heap.c] of
      [lib/librte_eal/common]; a state [mem] has the headers of the blocks by
      address, the free lists and the statistics of the heaps. [MallocFit.v],
      [MallocInv.v], [MallocOps.v], [MallocHeap.v], [MallocAlloc.v] and
      [MallocInit.v] have where a request fits, the invariant, that each
      operation keeps it, the search, allocation, and the start from the memory
      segments.
    - [RteMalloc.v], [MallocSafe.v]: [rte_malloc.c]. [Memzone.v],
      [MemzoneSafe.v]: [eal_common_memzone.c]. [MemCalls.v]: any sequence of
      calls of both. [RingMemory.v]: rings in zones of this allocator.
    - [Mbuf.v]: [lib/librte_mbuf/rte_mbuf.h] and [rte_mbuf.c]; buffers by
      address, pools by address. [MbufInv.v], [MbufOps.v], [MbufClone.v],
      [MbufData.v], [MbufCalls.v], [MbufPool.v]: the invariant of counts, pools
      and attached buffers, the operations, clones, the data of a buffer, any
      sequence of calls, and the pools. [MbufConc.v]: the reference count
      updated by several threads.
    - [VirtQueue.v]: [lib/librte_vhost/vhost_rxtx.c] and the inline functions of
      [rte_virtio_net.h]; the state [vworld] has memory byte by byte, the rings
      shared with the guest, the queues and the packet buffers. [VirtMem.v]:
      copies and addresses of the guest. [VirtRx.v], [VirtMrg.v]: packets to the
      guest, in one chain each or in mergeable buffers; [VirtTx.v], [VirtDeq.v]:
      packets from the guest. [VirtCheck.v]: concrete queues.
    - [VirtDev.v]: [lib/librte_vhost/virtio-net.c], the linked list of devices
      and what messages do to them; the state [vstate] has list entries, queues
      and mappings by address, the descriptors closed and ranges unmapped so far,
      and the state of the application, which is told of devices by the class
      [notify_ops]. [VirtUser.v]: [vhost_user/virtio-net-user.c] and the messages
      of [vhost-net-user.c]. [VirtAbs.v], [VirtList.v], [VirtPairs.v],
      [VirtRemove.v], [VirtStep.v], [VirtHandle.v]: an abstract state of devices
      by address, rules for the functions on it, the laws of [notify_ops], and
      the effect of every message as a function. [VirtLife.v], [VirtFds.v]: any
      sequence of connections, messages and disconnections. [VirtPmd.v]: the
      driver of [Vhost.v] is an instance of [notify_ops]. [VirtSession.v]:
      concrete guests.
    - [VirtFdset.v], [VirtEvents.v]: [vhost_user/fd_man.c] and the sockets of
      [vhost-net-user.c]: the table of descriptors, and the session thread and
      the callers that add and remove sockets as a step relation.

    ** What the theorems show

    - Rings: on one thread every operation is total, stays in the tables and is
      that of a FIFO queue, for all index values including those about to wrap
      ([ring_fifo]); the observers, watermark and initialisation are exact. With
      any number of concurrent calls of at least one object each completed call
      took effect once, at one moment between call and return, and returns what
      it did ([ring_linearizable]), no slot is written while another call holds
      it, and some call can always proceed.
      Names and rings correspond ([ring_create_lookup]).
    - Ports: the device table refines a table of names, for names shorter than 32
      characters ([eth_table_refines]); a call touches its own port only, and
      from a secondary process or on a port that is not there it is refused
      without a change ([ethdev_guarded]); a started
      port cannot be reconfigured. Ports made of one ring are connected
      ([ring_ports_connected]), their counters are exact, and
      [rte_eth_from_rings] either makes the port or changes nothing. A ring
      device of the EAL command line is one device in all processes
      ([ring_device_shared]); its arguments are parsed as a reference parser
      does ([kvargs_parse_spec], [kvargs_roundtrip]).
    - The vhost library: the list is a map from handles
      ([vhost_device_handles]); whatever well-formed messages guests send
      ([msg_ok]: the code checks little of them), the structures stay sound
      ([vhost_sessions_safe]) and, when the system calls succeed, no descriptor
      is lost or closed twice ([vhost_fds_accounted]); with the driver as
      application, ports use only devices that are there ([vhost_ports_live]).
      The event loop calls no callback with a context that is gone, unless the
      system reuses a number that is still in the table ([fdset_contexts_safe]).
    - Vhost ports: making one ([from_vhost_correct]), and a guest that connects
      and leaves ([vhost_connect]). On a machine that performs stores at once no
      lcore uses a device that is gone ([vhost_device_safe]) and
      [destroy_device] does not wait for ever ([vhost_wait_ends]); with the
      store buffers of x86 the first is false ([vhost_tso_race]).
    - Shared memory, with at most 32 huge pages: what the primary application
      shares is what it has, byte by byte ([hostshmem_init_shares]), a process
      that attaches sees it at the same addresses and finds the pool and the
      rings, if every page has a file of its own ([attach_sees_shared]), and the
      command line for a guest is complete when it fits ([cmdline_correct]).
    - Applications: the patch table stays consistent after all commands that are
      completed, and every message but [add] with sound text is
      ([patch_table_invariant]; the code does not check its messages); a pass of the loop follows it
      ([forward_follows_table]) and, on ports made of rings, implements a
      specification on the contents of the rings ([forward_refines]) that loses
      and duplicates no packet ([forward_conserves]). The commands [add ring]
      and [patch] do what their text says and nothing else
      ([add_ring_command], [patch_command]). Which patches are safe while packets
      flow is [patch_race_safe]. The primary and the secondary processes agree
      on the rings ([shm_rings_shared]). The conversation with the controller
      follows a protocol whatever the network does ([session_protocol]), and the
      patch table is consistent throughout ([nfv_main_table]). In a guest
      the table is consistent too and a turn of the loop follows it
      ([guest_table_invariant], [guest_forward_safe]); in the older program a
      change is made beside the traffic ([nfv_edit_isolated]); the first primary
      sends nothing that was not typed ([panel_sends_accepted]). The wait for the
      links ends ([link_wait_ends]); the statistics add up
      ([stats_display_sums]). The copying application copies the first segment of
      each packet exactly and returns what it received to the pool of the first
      buffer ([memcpy_port_copies]), and but for one command is
      [sec_zerocpy] ([memcpy_other_messages]).
    - Pools: no object is handed out twice or lost, whatever the lcores do
      ([mempool_ownership]); a created pool has all its objects, disjoint and
      inside its memory ([mempool_create_ok]).
    - Memory: whatever calls come with requests that stay below the addresses of
      the memory segments, blocks and zones in use are disjoint and inside their
      segments and the calls return ([memory_calls_safe]); when all
      is given back the heaps are as they were ([memory_all_returned]); a
      request fails only if nothing fits ([heap_alloc_exact]); zones are found
      by name ([zone_reserve_lookup]); [realloc_contents]; the rings of the
      clients are disjoint in it ([client_rings_memory]).
    - Buffers: reference counts are exact and no buffer is lost
      ([mbuf_calls_safe]), also with several threads ([refcnt_last_frees]); a
      clone shares the bytes and freeing it restores all ([mbuf_clone_shares]);
      data stays in its buffer ([mbuf_room]); the pool of the primary is ready
      for all this ([primary_pool_ready]).
    - Guests: a burst to a guest puts exactly the bytes of the packets for which
      there is room into the buffers the guest has made available
      ([rx_burst_delivers], [merge_burst_delivers], the latter for entries of one
      descriptor), a burst from a guest makes packets of exactly its
      bytes ([dequeue_burst_receives]); no other memory changes, and the indexes
      and the used ring tell the guest so.
    - Defects are theorems too, at concrete inputs: [ring_zero_count],
      [ring_zero_objects_spin], [port_by_name_prefix],
      [long_port_name_twice], [release_unused_count], [kvargs_doubled_comma],
      [malloc_wild_block], [stale_rings_run],
      [from_rings_tx_overflow], [status_reply_overflows], [patch_race_crash],
      [vhost_tso_race], [one_file_no_path], [stale_cache_entry],
      [cmdline_overflow], [obj_init_keeps_lock], [obj_init_unused_zones],
      [devinit_no_list], the last part of [spp_names_distinct],
      [realloc_padded_short], [malloc_huge_granted], [calloc_wraps],
      [realloc_zero_keeps], [long_name_twice], [dump_stops_at_hole],
      [free_buffer_linked], [gpa_touching_regions], [merge_chain_id],
      [merge_empty_segment], [secure_len_overruns], [dequeue_empty_descriptor],
      [dequeue_short_descriptor], [dequeue_reads_host],
      [reset_owner_leaks_memory], [failed_table_leaks_and_runs],
      [poll_mode_never_runs], [messages_unchecked], [pair_out_of_order],
      [late_pair_no_header], [second_guest_cut_off],
      [reused_number_freed_context], [large_descriptor_overruns],
      [missing_path_compared], [vm_del_crashes], [add_pool_unknown],
      [nfv_positions_equal], [nfv_first_message_overruns], [command_overtaken],
      [panel_unchecked].

    ** Conventions

    A C integer is a [Z], and an operation that may leave its type is followed
    by the conversion to it ([u8], [u16], [u32], [u64]). A definition is [None]
    where the C code would access memory out of bounds, call NULL or not
    terminate; the theorems that describe a call say that it is [Some]. Loops
    that are not structural have fuel: the number of bits of a mask (64), of
    ports (32), of requested entries; the compare-and-set loop of a ring never
    repeats on one thread; [optimize_object_size] and [get_gcd] have fuel from
    their arguments, the tokenizer the length of its text, the passes over the
    pages the 4096 entries of their array, and the theorems show it is enough.
    Allocations, lists of
    names, the process type and the operating system are inputs. Debug checks
    and statistics of the libraries are compiled out, as in the configuration
    of the repository. Log output is left out. Memory in [RingConc.v] is
    sequentially consistent. [qsort] is the merge sort of glibc. Files, their
    locks and [/proc/self/maps] are inputs. A pool contains its ring instead of
    a pointer to it (nothing else uses that ring). A port is in one process; the rings are
    shared. NULL is 0. A structure behind a pointer is in a map from addresses;
    an address that is not in it is not mapped. The lock of a heap, of the zones
    or of a pool makes a call one step. The fuel of a call on packets is the
    number of its segments, that of a copy loop of the vhost library the
    descriptors and segments (or the bytes) of a packet; the theorems have it as
    a lower bound. A queue shared with a guest is used by one core, and the
    guest adds nothing during a call. In the vhost library, what an allocation,
    [mmap], [recvmsg] or [accept] returns is an input, walks of the list of
    devices have its length as fuel, and a context is never given the address of
    one that was freed.

    ** Not modelled

    The primary applications [pri_lvl2], [main_py] and [ivshmem_py], which are
    [pri_lvl1] with small changes; of the modelled ones the order of the steps in
    [init()] and the printed output; the programs [l2fwd] and [client];
    the start of threads; of [librte_vhost] the character device of CUSE and the
    system calls on sockets; opening and locking the files
    of the shared memory, and [map_all_segments] and [cleanup_segments] of
    [eal_hostshmem.c], which never run; the calls of [rte_ethdev.c] that only
    hand their arguments to the driver; functions that only print; the Python
    controller; the rest of DPDK and qemu. *)
From stdpp Require Export base list numbers option gmap strings.
From Stdlib Require Export ZArith Lia.

#[export] Set Default Goal Selector "!".

Declare Scope spp_scope.
Delimit Scope spp_scope with spp.
Open Scope Z_scope.
Open Scope spp_scope.

(** ** Fixed-width integers

    A C integer is a [Z]; every operation that may leave the range of its
    type is followed by the conversion to that type. *)

Definition u8 (x : Z) : Z := x mod 2 ^ 8.
Definition u16 (x : Z) : Z := x mod 2 ^ 16.
Definition u32 (x : Z) : Z := x mod 2 ^ 32.
Definition u64 (x : Z) : Z := x mod 2 ^ 64.
Definition i32 (x : Z) : Z := (x + 2 ^ 31) mod 2 ^ 32 - 2 ^ 31.

Definition is_u8 (x : Z) : Prop := 0 <= x < 2 ^ 8.
Definition is_u16 (x : Z) : Prop := 0 <= x < 2 ^ 16.
Definition is_u32 (x : Z) : Prop := 0 <= x < 2 ^ 32.
Definition is_u64 (x : Z) : Prop := 0 <= x < 2 ^ 64.

(** [errno] values the modelled code returns (Linux, x86_64). *)
Definition ENOENT : Z := 2.
Definition ENOMEM : Z := 12.
Definition EBUSY : Z := 16.
Definition EEXIST : Z := 17.
Definition ENODEV : Z := 19.
Definition EINVAL : Z := 22.
Definition ENOSPC : Z := 28.
Definition ENOTSUP : Z := 95.
Definition ENOBUFS : Z := 105.
Definition EDQUOT : Z := 122.

(** C truth values. *)
Definition c_bool (b : bool) : Z := if b then 1 else 0.

Lemma u8_range x : is_u8 (u8 x).
Proof. apply Z.mod_pos_bound; lia. Qed.
Lemma u16_range x : is_u16 (u16 x).
Proof. apply Z.mod_pos_bound; lia. Qed.
Lemma u32_range x : is_u32 (u32 x).
Proof. apply Z.mod_pos_bound; lia. Qed.
Lemma u64_range x : is_u64 (u64 x).
Proof. apply Z.mod_pos_bound; lia. Qed.
Lemma u8_small x : is_u8 x → u8 x = x.
Proof. intros; by apply Z.mod_small. Qed.
Lemma u16_small x : is_u16 x → u16 x = x.
Proof. intros; by apply Z.mod_small. Qed.
Lemma u32_small x : is_u32 x → u32 x = x.
Proof. intros; by apply Z.mod_small. Qed.
Lemma u64_small x : is_u64 x → u64 x = x.
Proof. intros; by apply Z.mod_small. Qed.

Lemma u32_idemp x : u32 (u32 x) = u32 x.
Proof. apply u32_small, u32_range. Qed.
Lemma u32_add_l x y : u32 (u32 x + y) = u32 (x + y).
Proof. apply Zplus_mod_idemp_l. Qed.
Lemma u32_add_r x y : u32 (x + u32 y) = u32 (x + y).
Proof. apply Zplus_mod_idemp_r. Qed.
Lemma u32_sub_l x y : u32 (u32 x - y) = u32 (x - y).
Proof. apply Zminus_mod_idemp_l. Qed.
Lemma u32_sub_r x y : u32 (x - u32 y) = u32 (x - y).
Proof. apply Zminus_mod_idemp_r. Qed.

(** Two 32-bit images of numbers that are less than [2^32] apart coincide
    only for equal numbers: what makes index comparison modulo [2^32] exact. *)
Lemma u32_inj_near x y : 0 <= y - x < 2 ^ 32 → u32 x = u32 y → x = y.
Proof.
  intros Hd He.
  assert (Hz : u32 (y - x) = 0).
  { unfold u32 in *. rewrite Zminus_mod, He, Z.sub_diag. done. }
  rewrite u32_small in Hz by done. lia.
Qed.

(** The low [k] bits of a 32-bit index do not depend on its wrap-around. *)
Lemma u32_mod_pow2 x k : 0 <= k <= 32 → u32 x mod 2 ^ k = x mod 2 ^ k.
Proof.
  intros Hk. unfold u32. apply Z.mod_mod_divide.
  exists (2 ^ (32 - k)). rewrite <- Z.pow_add_r by lia. f_equal; lia.
Qed.

Lemma land_mask x k : 0 <= k → Z.land x (2 ^ k - 1) = x mod 2 ^ k.
Proof. intros. rewrite Z.sub_1_r, <- Z.ones_equiv. by apply Z.land_ones. Qed.

(** [x & (x - 1)] is 0 exactly for powers of two. *)
Lemma land_pred_pow2 x : 0 < x → Z.land (x - 1) x = 0 → ∃ k, 0 <= k ∧ x = 2 ^ k.
Proof.
  intros Hx H. exists (Z.log2 x). split; [apply Z.log2_nonneg|].
  destruct (Z.log2_spec x ltac:(lia)) as [Hlo Hhi].
  destruct (Z.eq_dec x (2 ^ Z.log2 x)) as [|Hne]; [done|exfalso].
  assert (Hl : Z.log2 (x - 1) = Z.log2 x) by (apply Z.log2_unique; [apply Z.log2_nonneg|lia]).
  assert (Z.testbit (Z.land (x - 1) x) (Z.log2 x) = true) as Hb.
  { rewrite Z.land_spec, Z.bit_log2 by lia. rewrite <- Hl, Z.bit_log2; [done|].
    pose proof (Z.pow_pos_nonneg 2 (Z.log2 x) ltac:(lia) (Z.log2_nonneg x)). lia. }
  rewrite H, Z.bits_0 in Hb. done.
Qed.
Lemma land_pred_pow2_0 k : 0 <= k → Z.land (2 ^ k) (2 ^ k - 1) = 0.
Proof. intros Hk. rewrite land_mask by done. apply Z.mod_same. pose proof (Z.pow_pos_nonneg 2 k). lia. Qed.

Lemma i32_small x : - 2 ^ 31 <= x < 2 ^ 31 → i32 x = x.
Proof. intros. unfold i32. rewrite Z.mod_small; lia. Qed.

Create HintDb spp.
#[export] Hint Resolve u8_range u16_range u32_range u64_range : spp.
Create Rewrite HintDb u32.
#[export] Hint Rewrite u32_idemp u32_add_l u32_add_r u32_sub_l u32_sub_r : u32.

(** ** C arrays

    An array is the list of its cells. An access outside of it is
    undefined behaviour, which the model reports as [None]. *)

Section arrays.
Context {A : Type}.
Implicit Types (t : list A) (i : Z) (x : A).

Definition load t i : option A := if decide (0 <= i) then t !! Z.to_nat i else None.
Definition store t i x : option (list A) :=
  if decide (0 <= i < Z.of_nat (length t)) then Some (<[Z.to_nat i := x]> t) else None.

Lemma load_in t i : 0 <= i < Z.of_nat (length t) → ∃ x, load t i = Some x ∧ t !! Z.to_nat i = Some x.
Proof.
  intros Hi. unfold load. rewrite decide_True by lia.
  destruct (lookup_lt_is_Some_2 t (Z.to_nat i)) as [x Hx]; [lia|]. eauto.
Qed.
Lemma load_nat t (k : nat) : load t (Z.of_nat k) = t !! k.
Proof. unfold load. rewrite decide_True by lia. by rewrite Nat2Z.id. Qed.
Lemma load_out t i : i < 0 ∨ Z.of_nat (length t) <= i → load t i = None.
Proof.
  intros Hi. unfold load. case_decide; [|done]. apply lookup_ge_None_2. lia.
Qed.
Lemma store_in t i x : 0 <= i < Z.of_nat (length t) → store t i x = Some (<[Z.to_nat i := x]> t).
Proof. intros. unfold store. by rewrite decide_True. Qed.
Lemma store_out t i x : i < 0 ∨ Z.of_nat (length t) <= i → store t i x = None.
Proof. intros. unfold store. rewrite decide_False by lia. done. Qed.
Lemma store_length t i x t' : store t i x = Some t' → length t' = length t.
Proof. unfold store. case_decide; intros [= <-]. apply length_insert. Qed.
Lemma load_Some t i x : load t i = Some x → 0 <= i ∧ t !! Z.to_nat i = Some x.
Proof. unfold load. case_decide; naive_solver. Qed.
Lemma store_Some t i x t' : store t i x = Some t' → 0 <= i < Z.of_nat (length t) ∧ t' = <[Z.to_nat i := x]> t.
Proof. unfold store. case_decide; intros [= <-]. done. Qed.
End arrays.

Lemma elem_of_concat {A} (x : A) ls : x ∈ concat ls ↔ ∃ l, l ∈ ls ∧ x ∈ l.
Proof. rewrite !list_elem_of_In, in_concat. by setoid_rewrite list_elem_of_In. Qed.

(** ** Loops

    [while fuel cond body s] runs [while (cond) body] from [s]. [None] is an
    undefined access in the body, or more than [fuel] iterations;
    [while_total] is the rule that excludes both. *)

Section loops.
Context {S : Type}.

Fixpoint while (fuel : nat) (cond : S → bool) (body : S → option S) (s : S) : option S :=
  if cond s then
    match fuel with
    | O => None
    | Datatypes.S f => body s ≫= while f cond body
    end
  else Some s.

Lemma while_done fuel cond body s : cond s = false → while fuel cond body s = Some s.
Proof. destruct fuel; simpl; by intros ->. Qed.

Lemma while_total (I : S → Prop) (m : S → nat) cond body :
  (∀ s, I s → cond s = true → ∃ s', body s = Some s' ∧ I s' ∧ (m s' < m s)%nat) →
  ∀ fuel s, I s → (m s <= fuel)%nat →
  ∃ s', while fuel cond body s = Some s' ∧ I s' ∧ cond s' = false.
Proof.
  intros Hstep fuel. induction fuel as [|f IH]; intros s Hs Hm; simpl.
  all: destruct (cond s) eqn:Hc; [|eauto].
  all: destruct (Hstep s Hs Hc) as (s' & Hb & Hs' & Hlt).
  - lia.
  - rewrite Hb. simpl. apply IH; [done|lia].
Qed.
End loops.

(** ** Structures

    [r <| f := v |>] is the C assignment [r.f = v] on a record value. A record
    type is [Updatable] when its expansion into constructor and fields is
    given; the update of a field abstracts the field in that expansion. *)

Class Updatable (R : Type) := expand : R → R.
Class Field {R T : Type} (f : R → T) := alter_field : (T → T) → R → R.

Ltac make_field :=
  match goal with
  | |- @Field ?R ?T ?f =>
      let e := eval cbv beta delta [expand] in (expand : R → R) in
      let e := eval hnf in e in
      match eval pattern f in e with
      | ?g _ => exact (λ (h : T → T), g (λ r : R, h (f r)))
      end
  end.
#[export] Hint Extern 1 (Field _) => make_field : typeclass_instances.

Notation "r <| f := v |>" := (alter_field (f := f) (λ _, v) r)
  (at level 1, left associativity, format "r  <| f  :=  v |>") : spp_scope.

(** ** Tactics *)

(** Case analysis on every test of the goal, arithmetic ones reflected. *)
Ltac tests :=
  repeat match goal with
  | |- context [if decide ?P then _ else _] => case_decide
  | |- context [if Z.eqb ?a ?b then _ else _] => destruct (Z.eqb_spec a b)
  | |- context [if Z.ltb ?a ?b then _ else _] => destruct (Z.ltb_spec a b)
  | |- context [if Z.leb ?a ?b then _ else _] => destruct (Z.leb_spec a b)
  end.

(** Splits the binds of an option computation known to succeed. *)
Ltac binds :=
  repeat match goal with
  | H : _ ≫= _ = Some _ |- _ => apply bind_Some in H as (? & ? & H)
  | H : Some _ = Some _ |- _ => injection H as H
  | p : _ * _ |- _ => destruct p
  end; simpl in *.
