(* ===== verification/CStr.v ===== *)
(** * The part of the C string library the patch panel uses

    A C string is a [string] without its terminating NUL. [strtok],
    [strtoul], [atoi], [snprintf] with one [%u]/[%d] argument, and GNU
    [getopt_long] for short options, as glibc implements them. *)
From S2P Require Import Prelude.
From stdpp Require Export pretty.
From Stdlib Require Import Ascii.
Open Scope Z_scope.

Implicit Types (s delim : string) (c : ascii).

(** ** Truncation: [snprintf(buf, size, "%s", s)] keeps [size - 1] characters. *)
Definition snprintf (size : Z) (s : string) : string :=
  if decide (size <= 0) then "" else String.substring 0 (Z.to_nat (size - 1)) s.

Definition strlen (s : string) : Z := Z.of_nat (String.length s).

(** ** Decimal output *)
Definition fmt_u (n : Z) : string := pretty (Z.to_N (u32 n)).
Definition fmt_d (n : Z) : string := pretty (i32 n).

(** ** Hexadecimal output, [%lx] *)
Definition hex_digit (d : Z) : ascii := ascii_of_N (Z.to_N (if d <? 10 then 48 + d else 87 + d)).
(** [n] before [s]; [fuel] bounds the digits. *)
Fixpoint hex (fuel : nat) (n : Z) (s : string) : string :=
  match fuel with
  | O => s
  | S f => let s := String (hex_digit (n mod 16)) s in if n / 16 =? 0 then s else hex f (n / 16) s
  end.
Definition fmt_lx (n : Z) : string := hex 16 (u64 n) "".

(** ** Characters *)
Definition code (c : ascii) : Z := Z.of_N (N_of_ascii c).
Definition is_space (c : ascii) : bool :=
  (code c =? 32) || ((9 <=? code c) && (code c <=? 13)).

(** The value of [c] as a digit in base up to 36; 99 when it is none. *)
Definition digit_val (c : ascii) : Z :=
  let k := code c in
  if (48 <=? k) && (k <=? 57) then k - 48
  else if (97 <=? k) && (k <=? 122) then k - 87
  else if (65 <=? k) && (k <=? 90) then k - 55
  else 99.

Fixpoint skip_space (s : string) : string :=
  match s with
  | String c s' => if is_space c then skip_space s' else s
  | EmptyString => s
  end.

(** The digits at the front of [s]: how many, their value, the rest. *)
Fixpoint digits (base : Z) (acc : Z) (cnt : nat) (s : string) : nat * Z * string :=
  match s with
  | String c s' =>
      if digit_val c <? base then digits base (acc * base + digit_val c) (S cnt) s'
      else (cnt, acc, s)
  | EmptyString => (cnt, acc, s)
  end.

(** ** [strtoul] and [strtol]: the magnitude, the sign and the end pointer *)
Definition strip_sign (s : string) : bool * string :=
  match s with
  | String c s' =>
      if code c =? 45 then (true, s') else if code c =? 43 then (false, s') else (false, s)
  | EmptyString => (false, s)
  end.

Definition strip_0x (base : Z) (s : string) : string :=
  if base =? 16 then
    match s with
    | String c0 (String c1 (String c2 s')) =>
        if (code c0 =? 48) && ((code c1 =? 120) || (code c1 =? 88)) && (digit_val c2 <? 16)
        then String c2 s' else s
    | _ => s
    end
  else s.

(** [None] for the number when there are no digits: the end is then [s]. *)
Definition strto_mag (base : Z) (s : string) : option (bool * Z) * string :=
  let '(neg, s1) := strip_sign (skip_space s) in
  let '(cnt, v, rest) := digits base 0 0 (strip_0x base s1) in
  match cnt with
  | O => (None, s)
  | S _ => (Some (neg, v), rest)
  end.

Definition ULONG_MAX : Z := 2 ^ 64 - 1.

Definition strtoul (s : string) (base : Z) : Z * string :=
  match strto_mag base s with
  | (None, e) => (0, e)
  | (Some (neg, v), e) =>
      (if ULONG_MAX <? v then ULONG_MAX else if neg : bool then u64 (- v) else v, e)
  end.

Definition strtol (s : string) (base : Z) : Z * string :=
  match strto_mag base s with
  | (None, e) => (0, e)
  | (Some (neg, v), e) =>
      let w := if neg : bool then - v else v in
      (Z.max (- 2 ^ 63) (Z.min (2 ^ 63 - 1) w), e)
  end.

Lemma digit_val_nonneg c : 0 <= digit_val c.
Proof. unfold digit_val. repeat case_match; lia. Qed.
Lemma digits_nonneg base acc cnt s : 0 <= base → 0 <= acc → 0 <= snd (fst (digits base acc cnt s)).
Proof.
  intros Hb. revert acc cnt. induction s as [|c s IH]; intros acc cnt Ha; simpl; [done|].
  destruct (digit_val c <? base); [|done]. apply IH. pose proof (digit_val_nonneg c). nia.
Qed.
Lemma strtoul_range s base : 0 <= base → is_u64 (fst (strtoul s base)).
Proof.
  intros Hb. unfold strtoul, strto_mag. destruct (strip_sign (skip_space s)) as [neg s1].
  pose proof (digits_nonneg base 0 0 (strip_0x base s1) Hb ltac:(lia)) as Hv.
  destruct (digits base 0 0 (strip_0x base s1)) as [[cnt v] rest]. simpl in Hv. unfold is_u64, ULONG_MAX.
  destruct cnt; simpl; [lia|]. destruct (Z.ltb_spec (2 ^ 64 - 1) v); simpl; [lia|]. destruct neg; simpl; [apply u64_range|lia].
Qed.

Definition atoi (s : string) : Z := i32 (fst (strtol s 10)).

(** ** [strtok] *)
Definition is_delim (delim : string) (c : ascii) : bool :=
  existsb (Ascii.eqb c) (String.list_ascii_of_string delim).

Fixpoint skip_delims (delim s : string) : string :=
  match s with
  | String c s' => if is_delim delim c then skip_delims delim s' else s
  | EmptyString => s
  end.

Fixpoint span_token (delim s : string) : string * string :=
  match s with
  | String c s' =>
      if is_delim delim c then (EmptyString, s')
      else let '(t, r) := span_token delim s' in (String c t, r)
  | EmptyString => (EmptyString, EmptyString)
  end.

(** One call of [strtok]: the token and the saved position, or [NULL]. *)
Definition strtok (delim s : string) : option (string * string) :=
  match skip_delims delim s with
  | EmptyString => None
  | s' => Some (span_token delim s')
  end.

(** [token_list[i] = strtok(...)] until [NULL]. *)
Fixpoint tokenize_fuel (fuel : nat) (delim s : string) : list string :=
  match fuel with
  | O => []
  | S f =>
    match strtok delim s with
    | None => []
    | Some (t, r) => t :: tokenize_fuel f delim r
    end
  end.
Definition tokenize (delim s : string) : list string :=
  tokenize_fuel (S (String.length s)) delim s.

Definition strcmp_eq (a b : string) : bool := String.eqb a b.
Definition strncmp_eq (a b : string) (n : nat) : bool :=
  String.eqb (String.substring 0 n a) (String.substring 0 n b).

(** [strchr], and [strstr] for one character: the string from its first [c]
    on; and the characters before it. *)
Fixpoint strchr (c : ascii) (s : string) : option string :=
  match s with
  | EmptyString => None
  | String d s' => if Ascii.eqb d c then Some s else strchr c s'
  end.
Fixpoint before (c : ascii) (s : string) : option string :=
  match s with
  | EmptyString => None
  | String d s' => if Ascii.eqb d c then Some "" else t ← before c s'; Some (String d t)
  end.

(** ** [getopt_long] with short options and no long ones

    The sequence of values it returns until [EOF], each with [optarg]. A
    letter of [opts] takes an argument when a colon follows it; the argument
    is the rest of the word or the next word. ['?'] is an unknown letter, a
    missing argument or a long option. Words that are no options are skipped
    (GNU permutation), and ["--"] ends the options. *)
Inductive opt_event := Opt (c : ascii) (optarg : string) | OptErr.

Fixpoint takes_arg (opts : string) (c : ascii) : option bool :=
  match opts with
  | String o rest =>
      if Ascii.eqb o c then
        Some (match rest with String d _ => code d =? 58 | EmptyString => false end)
      else takes_arg rest c
  | EmptyString => None
  end.

Fixpoint getopt_word (opts w : string) (next : list string) : list opt_event * list string :=
  match w with
  | EmptyString => ([], next)
  | String c rest =>
      match (if code c =? 58 then None else takes_arg opts c) with
      | None => let '(es, nx) := getopt_word opts rest next in (OptErr :: es, nx)
      | Some false => let '(es, nx) := getopt_word opts rest next in (Opt c "" :: es, nx)
      | Some true =>
          match rest with
          | EmptyString =>
              match next with
              | a :: nx => ([Opt c a], nx)
              | [] => ([OptErr], [])
              end
          | _ => ([Opt c rest], next)
          end
      end
  end.

Fixpoint getopt_long_fuel (fuel : nat) (opts : string) (argv : list string) : list opt_event :=
  match fuel, argv with
  | O, _ | _, [] => []
  | S f, w :: rest =>
      match w with
      | String d w' =>
          if code d =? 45 then
            match w' with
            | EmptyString => getopt_long_fuel f opts rest
            | String d' w'' =>
                if code d' =? 45 then
                  match w'' with
                  | EmptyString => []
                  | _ => OptErr :: getopt_long_fuel f opts rest
                  end
                else
                  let '(es, nx) := getopt_word opts w' rest in es ++ getopt_long_fuel f opts nx
            end
          else getopt_long_fuel f opts rest
      | EmptyString => getopt_long_fuel f opts rest
      end
  end.
Definition getopt_long (opts : string) (argv : list string) : list opt_event :=
  getopt_long_fuel (S (length argv)) opts argv.

(** ** Lemmas *)

Lemma substring_all s n : (String.length s <= n)%nat → String.substring 0 n s = s.
Proof.
  revert n. induction s as [|c s IH]; intros [|n] Hn; simpl in *; try done; [lia|].
  f_equal. apply IH. lia.
Qed.

Lemma snprintf_fits size s : strlen s < size → snprintf size s = s.
Proof.
  unfold snprintf, strlen. intros H. rewrite decide_False by lia. apply substring_all. lia.
Qed.

Lemma substring_short s n : (String.length (String.substring 0 n s) <= n)%nat.
Proof. revert n. induction s as [|c s IH]; intros [|n]; cbn; [lia..|]. pose proof (IH n). lia. Qed.
Lemma snprintf_short size s : 0 < size → strlen (snprintf size s) < size.
Proof.
  intros Hs. unfold snprintf, strlen. rewrite decide_False by lia. pose proof (substring_short s (Z.to_nat (size - 1))). lia.
Qed.
Lemma span_token_shorter delim s : (String.length (snd (span_token delim s)) <= String.length s)%nat.
Proof.
  induction s as [|c s IH]; simpl; [done|].
  destruct (is_delim delim c); simpl; [lia|].
  destruct (span_token delim s); simpl in *; lia.
Qed.

Lemma skip_delims_shorter delim s : (String.length (skip_delims delim s) <= String.length s)%nat.
Proof. induction s as [|c s IH]; simpl; [done|]. destruct (is_delim delim c); simpl; lia. Qed.

(** A token leaves a strictly shorter string, so the loop over [strtok] ends. *)
Lemma strtok_shorter delim s t r : strtok delim s = Some (t, r) → (String.length r < String.length s)%nat.
Proof.
  unfold strtok. pose proof (skip_delims_shorter delim s) as Hs.
  assert (Hd : ∀ c s', skip_delims delim s = String c s' → is_delim delim c = false).
  { clear. induction s as [|c s IH]; simpl; intros c' s'; [done|].
    destruct (is_delim delim c) eqn:E; [apply IH|intros [= <- <-]; done]. }
  destruct (skip_delims delim s) as [|c s'] eqn:E; intros H; simplify_eq.
  specialize (Hd _ _ eq_refl). simpl in H, Hs. rewrite Hd in H.
  pose proof (span_token_shorter delim s'). destruct (span_token delim s'). simplify_eq. simpl in *. lia.
Qed.

Lemma string_app_assoc (a b t : string) : a +:+ b +:+ t = (a +:+ b) +:+ t.
Proof. induction a as [|x a IH]; [done|]. exact (f_equal (String x) IH). Qed.
Lemma list_ascii_app (a b : string) : String.list_ascii_of_string (a +:+ b) = String.list_ascii_of_string a ++ String.list_ascii_of_string b.
Proof. induction a as [|x a IH]; [done|]. exact (f_equal (cons x) IH). Qed.

(** Hexadecimal numbers are read back. *)
Lemma hex_app fuel n s t : hex fuel n s +:+ t = hex fuel n (s +:+ t).
Proof. revert n s. induction fuel as [|f IH]; intros n s; cbn; [done|]. case_match; [done|]. by rewrite IH. Qed.
Definition hex_digits : string := "0123456789abcdef".
Lemma hex_digit_in d : 0 <= d < 16 → is_delim hex_digits (hex_digit d) = true ∧ digit_val (hex_digit d) = d.
Proof.
  intros Hd. assert (d ∈ seqZ 0 16) as Hin%list_elem_of_In by (apply elem_of_seqZ; lia).
  assert (forallb (λ d, is_delim hex_digits (hex_digit d) && (digit_val (hex_digit d) =? d)) (seqZ 0 16) = true) as Hall by (by vm_compute).
  by apply (proj1 (forallb_forall _ _) Hall), andb_true_iff in Hin as [? ?%Z.eqb_eq].
Qed.
Lemma hex_is_prefix fuel n s : 0 <= n → ∃ t, hex fuel n s = t +:+ s ∧ ∀ c, c ∈ String.list_ascii_of_string t → is_delim hex_digits c = true.
Proof.
  revert n s. induction fuel as [|f IH]; intros n s Hn; cbn; [exists ""; split; [done|]; intros c Hc; by apply elem_of_nil in Hc|].
  pose proof (Z.mod_pos_bound n 16 ltac:(lia)). destruct (hex_digit_in (n mod 16)) as [Hd _]; [lia|]. case_match.
  - exists (String (hex_digit (n mod 16)) ""). split; [done|]. by intros c ->%list_elem_of_singleton.
  - destruct (IH (n / 16) (String (hex_digit (n mod 16)) s)) as (t & -> & Ht); [apply Z.div_pos; lia|].
    exists (t +:+ String (hex_digit (n mod 16)) ""). split; [by rewrite <- string_app_assoc|].
    intros c. rewrite list_ascii_app. intros [Hc| ->%list_elem_of_singleton]%elem_of_app; [by apply Ht|done].
Qed.
Lemma digits_hex fuel n s acc cnt : 0 <= n < 16 ^ Z.of_nat fuel → (0 < fuel)%nat →
  ∃ k, digits 16 acc cnt (hex fuel n s) = digits 16 (acc * 16 ^ Z.of_nat (S k) + n) (cnt + S k) s.
Proof.
  revert n s. induction fuel as [|f IH]; intros n s Hn Hf; [lia|]. cbn [hex].
  pose proof (Z.mod_pos_bound n 16 ltac:(lia)). pose proof (Z.div_mod n 16 ltac:(lia)). destruct (hex_digit_in (n mod 16)) as [_ Hd]; [lia|].
  assert (∀ a k, digits 16 a k (String (hex_digit (n mod 16)) s) = digits 16 (a * 16 + n mod 16) (S k) s) as Hstep.
  { intros a k. cbn [digits]. rewrite Hd. by destruct (Z.ltb_spec (n mod 16) 16); [|lia]. }
  destruct (Z.eqb_spec (n / 16) 0) as [E|E].
  - exists 0%nat. rewrite Hstep, Nat.add_1_r. do 2 f_equal. lia.
  - rewrite Nat2Z.inj_succ, Z.pow_succ_r in Hn by lia. assert (0 < n / 16 < 16 ^ Z.of_nat f) as Hlt.
    { split; [pose proof (Z.div_pos n 16); lia|]. apply Z.div_lt_upper_bound; lia. }
    destruct (IH (n / 16) (String (hex_digit (n mod 16)) s)) as (k & ->); [lia|destruct f; [cbn in Hlt|]; lia|].
    exists (S k). rewrite Hstep. f_equal; [|lia]. rewrite (Nat2Z.inj_succ (S k)), Z.pow_succ_r by lia. lia.
Qed.

(** No sign, space or prefix is taken off a hexadecimal number that ends at
    [c]. *)
Lemma hex_digit_cases c : is_delim hex_digits c = true →
  is_space c = false ∧ (code c =? 45) = false ∧ (code c =? 43) = false ∧ (code c =? 120) = false ∧ (code c =? 88) = false ∧ digit_val c <? 16 = true.
Proof.
  intros Hc. apply existsb_exists in Hc as (d & Hd%list_elem_of_In & ->%Ascii.eqb_eq). revert d Hd. apply Forall_forall. by repeat constructor.
Qed.
Lemma strto_mag_lx n c r : is_u64 n → digit_val c <? 16 = false → (code c =? 120) = false → (code c =? 88) = false →
  strto_mag 16 (fmt_lx n +:+ String c r) = (Some (false, n), String c r).
Proof.
  intros Hn Hd Hx HX. unfold fmt_lx. rewrite u64_small, hex_app by done. change ("" +:+ String c r) with (String c r).
  destruct (digits_hex 16 n (String c r) 0 0 ltac:(unfold is_u64 in Hn; lia) ltac:(lia)) as [k Hk].
  destruct (hex_is_prefix 16 n (String c r)) as (t & Ht & Hall); [unfold is_u64 in Hn; lia|]. rewrite Ht in *.
  assert (digits 16 (0 * 16 ^ Z.of_nat (S k) + n) (0 + S k) (String c r) = (S k, n, String c r)) as E by (cbn [digits]; rewrite Hd; do 2 f_equal; lia).
  rewrite E in Hk. unfold strto_mag. destruct t as [|c0 t]; [change ("" +:+ String c r) with (String c r) in Hk; cbn [digits] in Hk; by rewrite Hd in Hk|].
  destruct (hex_digit_cases c0) as (Hs & Hm & Hp & _ & _ & H0); [apply Hall; left|].
  change (String c0 t +:+ String c r) with (String c0 (t +:+ String c r)) in *. cbn [skip_space]. rewrite Hs. cbn [strip_sign]. rewrite Hm, Hp.
  assert (strip_0x 16 (String c0 (t +:+ String c r)) = String c0 (t +:+ String c r)) as ->.
  { unfold strip_0x. cbn [Z.eqb Pos.eqb]. destruct t as [|c1 t].
    - change ("" +:+ String c r) with (String c r). destruct r as [|c2 r]; [done|]. by rewrite Hx, HX, andb_false_r.
    - destruct (hex_digit_cases c1) as (_ & _ & _ & Hx1 & HX1 & _); [apply Hall; right; left|].
      change (String c1 t +:+ String c r) with (String c1 (t +:+ String c r)).
      destruct (t +:+ String c r); [done|]. by rewrite Hx1, HX1, andb_false_r. }
  by rewrite Hk.
Qed.

(** Finding a character. *)
Fixpoint lacks (c : ascii) (s : string) : bool :=
  match s with EmptyString => true | String d s => negb (Ascii.eqb d c) && lacks c s end.
Lemma strchr_lacks c s t : lacks c s = true → strchr c (s +:+ t) = strchr c t.
Proof.
  induction s as [|d s IH]; [done|]. intros [Hd%negb_true_iff Hs]%andb_true_iff.
  change (String d s +:+ t) with (String d (s +:+ t)). cbn [strchr]. rewrite Hd. by apply IH.
Qed.
Lemma before_lacks c s t : lacks c s = true → before c (s +:+ String c t) = Some s.
Proof.
  induction s as [|d s IH]; [intros _; change ("" +:+ String c t) with (String c t); cbn [before]; by rewrite Ascii.eqb_refl|].
  intros [Hd%negb_true_iff Hs]%andb_true_iff.
  change (String d s +:+ String c t) with (String d (s +:+ String c t)). cbn [before]. rewrite Hd, IH by done. done.
Qed.

(** Lengths. *)
Lemma strlen_app (s t : string) : strlen (s +:+ t) = strlen s + strlen t.
Proof. unfold strlen. induction s as [|c s IH]; [done|]. change (String c s +:+ t) with (String c (s +:+ t)). cbn [String.length]. lia. Qed.
Lemma strlen_nonneg (s : string) : 0 <= strlen s.
Proof. unfold strlen. lia. Qed.
Lemma string_app_nil (s : string) : s +:+ "" = s.
Proof. induction s as [|c s IH]; [done|]. exact (f_equal (String c) IH). Qed.
