(* ===== verification/Align.v ===== *)
(** * Alignment macros

    [lib/librte_eal/common/include/rte_common.h]: rounding to a multiple of a
    power of two, and to the next power of two. *)
From S2P Require Import Prelude.
Open Scope Z_scope.

(** [w] is the width of the type of [val]. *)
Definition RTE_ALIGN_FLOOR (w : Z → Z) (val align : Z) : Z := Z.land val (w (Z.lnot (w (align - 1)))).
Definition RTE_ALIGN_CEIL (w : Z → Z) (val align : Z) : Z := RTE_ALIGN_FLOOR w (w (val + w (align - 1))) align.

Definition rte_align32pow2 (x : Z) : Z :=
  let x := u32 (x - 1) in
  let x := Z.lor x (Z.shiftr x 1) in
  let x := Z.lor x (Z.shiftr x 2) in
  let x := Z.lor x (Z.shiftr x 4) in
  let x := Z.lor x (Z.shiftr x 8) in
  let x := Z.lor x (Z.shiftr x 16) in
  u32 (x + 1).

Definition rte_align64pow2 (v : Z) : Z :=
  let v := u64 (v - 1) in
  let v := Z.lor v (Z.shiftr v 1) in
  let v := Z.lor v (Z.shiftr v 2) in
  let v := Z.lor v (Z.shiftr v 4) in
  let v := Z.lor v (Z.shiftr v 8) in
  let v := Z.lor v (Z.shiftr v 16) in
  let v := Z.lor v (Z.shiftr v 32) in
  u64 (v + 1).

Lemma land_high x b k : 0 <= k → Z.land x (Z.shiftl b k) = Z.shiftl (Z.land (Z.shiftr x k) b) k.
Proof.
  intros Hk. apply Z.bits_inj'. intros n Hn. rewrite Z.land_spec, !Z.shiftl_spec by done.
  destruct (Z.ltb_spec n k).
  - rewrite !(Z.testbit_neg_r _ (n - k)) by lia. apply andb_false_r.
  - rewrite Z.land_spec, Z.shiftr_spec by lia. do 2 f_equal. lia.
Qed.

Lemma align_floor_spec (N k x : Z) : 0 <= k <= N → 0 <= x < 2 ^ N →
  RTE_ALIGN_FLOOR (λ x, x mod 2 ^ N) x (2 ^ k) = x / 2 ^ k * 2 ^ k.
Proof.
  intros Hk Hlt. pose proof (Z.pow_pos_nonneg 2 k ltac:(lia) ltac:(lia)). pose proof (Z.pow_le_mono_r 2 k N ltac:(lia) ltac:(lia)).
  unfold RTE_ALIGN_FLOOR. rewrite (Z.mod_small (2 ^ k - 1)) by lia.
  assert (Z.lnot (2 ^ k - 1) mod 2 ^ N = Z.shiftl (Z.ones (N - k)) k) as ->.
  { assert (2 ^ (N - k) * 2 ^ k = 2 ^ N) as Hp by (rewrite <- Z.pow_add_r by lia; f_equal; lia).
    pose proof (Z.pow_le_mono_r 2 k N ltac:(lia) ltac:(lia)). rewrite Z.shiftl_mul_pow2, Z.ones_equiv by lia.
    unfold Z.lnot, Z.pred. symmetry. apply (Z.mod_unique_pos _ _ (-1)); lia. }
  rewrite land_high by lia. rewrite Z.land_ones, Z.shiftr_div_pow2, Z.shiftl_mul_pow2 by lia. f_equal.
  apply Z.mod_small. split; [apply Z.div_pos; lia|]. apply Z.div_lt_upper_bound; [lia|].
  rewrite <- Z.pow_add_r by lia. replace (k + (N - k)) with N by lia. lia.
Qed.
Lemma align_ceil_spec (N k val : Z) : 0 <= k <= N → 0 <= val → val + (2 ^ k - 1) < 2 ^ N →
  RTE_ALIGN_CEIL (λ x, x mod 2 ^ N) val (2 ^ k) = (val + (2 ^ k - 1)) / 2 ^ k * 2 ^ k.
Proof.
  intros Hk Hv Hlt. pose proof (Z.pow_pos_nonneg 2 k ltac:(lia) ltac:(lia)). unfold RTE_ALIGN_CEIL.
  rewrite (Z.mod_small (2 ^ k - 1)), (Z.mod_small (val + _)) by lia. apply align_floor_spec; lia.
Qed.

Lemma align_ceil_bounds (N k val : Z) : 0 <= k <= N → 0 <= val → val + (2 ^ k - 1) < 2 ^ N →
  let r := RTE_ALIGN_CEIL (λ x, x mod 2 ^ N) val (2 ^ k) in val <= r < val + 2 ^ k ∧ r mod 2 ^ k = 0.
Proof.
  intros Hk Hv Hlt r. pose proof (Z.pow_pos_nonneg 2 k ltac:(lia) ltac:(lia)). unfold r. rewrite align_ceil_spec by done.
  split; [|apply Z.mod_mul; lia]. pose proof (Z.div_mod (val + (2 ^ k - 1)) (2 ^ k) ltac:(lia)).
  pose proof (Z.mod_pos_bound (val + (2 ^ k - 1)) (2 ^ k) ltac:(lia)). lia.
Qed.

(** The next power of two. *)
Lemma smear_bits x k i : 0 <= x → 0 <= k → 0 <= i →
  Z.testbit (Z.lor x (Z.shiftr x k)) i = Z.testbit x i || Z.testbit x (i + k).
Proof. intros. by rewrite Z.lor_spec, Z.shiftr_spec. Qed.
Lemma smear_double x k b : (∀ i, 0 <= i → Z.testbit x i = true ↔ ∃ d, 0 <= d < k ∧ Z.testbit b (i + d) = true) →
  0 <= x → 0 < k → 0 <= Z.lor x (Z.shiftr x k) ∧
  ∀ i, 0 <= i → Z.testbit (Z.lor x (Z.shiftr x k)) i = true ↔ ∃ d, 0 <= d < 2 * k ∧ Z.testbit b (i + d) = true.
Proof.
  intros Hx H0 Hk. split; [apply Z.lor_nonneg; split; [done|by apply Z.shiftr_nonneg]|].
  intros i Hi. rewrite smear_bits, orb_true_iff, !Hx by lia. split.
  - intros [(d & ? & ?)|(d & ? & ?)]; [exists d; split; [lia|done]|exists (k + d); split; [lia|]]. by rewrite Z.add_assoc.
  - intros (d & Hd & ?). destruct (decide (d < k)); [left; exists d; split; [lia|done]|right; exists (d - k); split; [lia|]].
    by replace (i + k + (d - k)) with (i + d) by lia.
Qed.

(** All bits below the highest one are set once the distances covered reach it. *)
Lemma smear_full x b k : 0 < b → Z.log2 b < k → (∀ i, 0 <= i → Z.testbit x i = true ↔ ∃ d, 0 <= d < k ∧ Z.testbit b (i + d) = true) →
  x = 2 ^ (Z.log2 b + 1) - 1.
Proof.
  intros Hb Hk Hx. pose proof (Z.log2_nonneg b). rewrite Z.sub_1_r, <- Z.ones_equiv. apply Z.bits_inj'. intros i Hi.
  rewrite Z.testbit_ones_nonneg by lia. apply eq_bool_prop_intro. rewrite !Is_true_true, Hx, Z.ltb_lt by done. split.
  - intros (d & Hd & Ht). destruct (decide (i < Z.log2 b + 1)); [done|]. rewrite Z.bits_above_log2 in Ht; [done|lia|lia].
  - intros Hlt. exists (Z.log2 b - i). split; [lia|]. replace (i + (Z.log2 b - i)) with (Z.log2 b) by lia. by apply Z.bit_log2.
Qed.
Lemma smear_once b i : 0 <= i → Z.testbit b i = true ↔ ∃ d, 0 <= d < 1 ∧ Z.testbit b (i + d) = true.
Proof.
  intros Hi. split; [intros H; exists 0; by rewrite Z.add_0_r|]. intros (d & Hd & H).
  by replace d with 0 in H by lia; rewrite Z.add_0_r in H.
Qed.
(** The power of two above [x - 1]. *)
Lemma pow2_above x n : 2 <= x <= 2 ^ n → Z.log2 (x - 1) + 1 <= n ∧ x <= 2 ^ (Z.log2 (x - 1) + 1) < 2 * x.
Proof.
  intros Hx. destruct (Z.log2_spec (x - 1) ltac:(lia)) as [Hlo Hhi]. pose proof (Z.log2_nonneg (x - 1)) as H0.
  assert (Z.log2 (x - 1) < n) by (apply (Z.pow_lt_mono_r_iff 2); [lia| |lia]; destruct (decide (0 <= n)); [done|]; rewrite (Z.pow_neg_r 2 n) in Hx; lia).
  replace (Z.log2 (x - 1) + 1) with (Z.succ (Z.log2 (x - 1))) by lia. rewrite Z.pow_succ_r in * by lia. lia.
Qed.

Lemma align32pow2_spec x : 1 <= x <= 2 ^ 31 → ∃ k, 0 <= k <= 31 ∧ rte_align32pow2 x = 2 ^ k ∧ x <= 2 ^ k < 2 * x.
Proof.
  intros Hx. unfold rte_align32pow2. rewrite (u32_small (x - 1)) by (unfold is_u32; lia).
  destruct (decide (x = 1)) as [->|Hx1]; [exists 0; vm_compute; split_and!; done|]. set (b := x - 1).
  destruct (smear_double b 1 b (smear_once b)) as [G2 H2]; [lia|lia|]. set (x2 := Z.lor b _) in *.
  destruct (smear_double x2 2 b H2) as [G3 H3]; [lia|lia|]. set (x3 := Z.lor x2 _) in *.
  destruct (smear_double x3 4 b H3) as [G4 H4]; [lia|lia|]. set (x4 := Z.lor x3 _) in *.
  destruct (smear_double x4 8 b H4) as [G5 H5]; [lia|lia|]. set (x5 := Z.lor x4 _) in *.
  destruct (smear_double x5 16 b H5) as [G6 H6]; [lia|lia|]. set (x6 := Z.lor x5 _) in *.
  destruct (pow2_above x 31) as [Hm Hp]; [lia|]. fold b in Hm, Hp. pose proof (Z.log2_nonneg b).
  rewrite (smear_full x6 b (2 * 16) ltac:(lia) ltac:(lia) H6). exists (Z.log2 b + 1). rewrite Z.sub_add, u32_small; [split_and!; lia|].
  unfold is_u32. lia.
Qed.

Lemma align64pow2_spec x : 1 <= x <= 2 ^ 63 → ∃ k, 0 <= k <= 63 ∧ rte_align64pow2 x = 2 ^ k ∧ x <= 2 ^ k < 2 * x.
Proof.
  intros Hx. unfold rte_align64pow2. rewrite (u64_small (x - 1)) by (unfold is_u64; lia).
  destruct (decide (x = 1)) as [->|Hx1]; [exists 0; vm_compute; split_and!; done|]. set (b := x - 1).
  destruct (smear_double b 1 b (smear_once b)) as [G2 H2]; [lia|lia|]. set (x2 := Z.lor b _) in *.
  destruct (smear_double x2 2 b H2) as [G3 H3]; [lia|lia|]. set (x3 := Z.lor x2 _) in *.
  destruct (smear_double x3 4 b H3) as [G4 H4]; [lia|lia|]. set (x4 := Z.lor x3 _) in *.
  destruct (smear_double x4 8 b H4) as [G5 H5]; [lia|lia|]. set (x5 := Z.lor x4 _) in *.
  destruct (smear_double x5 16 b H5) as [G6 H6]; [lia|lia|]. set (x6 := Z.lor x5 _) in *.
  destruct (smear_double x6 32 b H6) as [G7 H7]; [lia|lia|]. set (x7 := Z.lor x6 _) in *.
  destruct (pow2_above x 63) as [Hm Hp]; [lia|]. fold b in Hm, Hp. pose proof (Z.log2_nonneg b).
  rewrite (smear_full x7 b (2 * 32) ltac:(lia) ltac:(lia) H7). exists (Z.log2 b + 1). rewrite Z.sub_add, u64_small; [split_and!; lia|].
  unfold is_u64. lia.
Qed.
