(* ===== verification/BurstQueue.v ===== *)
(** * What a ring promises to the components built on it

    The ring poll-mode driver and the memory pool use a ring only through its
    burst and bulk operations and its flags. [BurstQueue Q A] is that
    contract: a type [Q] of queues of [A] objects, a relation to the abstract
    contents, and the laws of the operations. [RingSpec.v] shows that
    [rte_ring] satisfies it. *)
From S2P Require Import Prelude.

Class BurstQueue (Q A : Type) := {
  bq_rep : Q → Z → list A → Prop;
  bq_flags : Q → Z;
  bq_enqueue_burst : Q → list A → Z → option (Z * Q);
  bq_dequeue_burst : Q → list A → Z → option (Z * list A * Q);
  (** The flag chooses the multi- or the single-producer (consumer) code. *)
  bq_enqueue_bulk : bool → Q → list A → Z → option (Z * Q);
  bq_dequeue_bulk : bool → Q → list A → Z → option (Z * list A * Q);
  bq_count : Q → Z;

  bq_cap : ∀ s cap q, bq_rep s cap q → Z.of_nat (length q) <= cap < 2 ^ 28;

  bq_count_ok : ∀ s cap q, bq_rep s cap q → bq_count s = Z.of_nat (length q);

  (** A burst takes what there is room for; the low 28 bits count it. *)
  bq_enqueue_burst_ok : ∀ s cap q obj n,
    bq_rep s cap q → 0 <= n <= Z.of_nat (length obj) →
    let m := Z.min n (cap - Z.of_nat (length q)) in
    ∃ ret s', bq_enqueue_burst s obj n = Some (ret, s') ∧ (ret = m ∨ ret = m + 2 ^ 31) ∧
      bq_rep s' cap (q ++ take (Z.to_nat m) obj) ∧ bq_flags s' = bq_flags s;

  bq_dequeue_burst_ok : ∀ s cap q tbl n,
    bq_rep s cap q → 0 <= n <= Z.of_nat (length tbl) →
    let m := Z.min n (Z.of_nat (length q)) in
    ∃ s', bq_dequeue_burst s tbl n = Some (m, take (Z.to_nat m) q ++ drop (Z.to_nat m) tbl, s') ∧
      bq_rep s' cap (drop (Z.to_nat m) q) ∧ bq_flags s' = bq_flags s;

  (** A bulk operation is all or nothing. *)
  bq_enqueue_bulk_ok : ∀ multi s cap q obj n,
    bq_rep s cap q → 0 <= n <= Z.of_nat (length obj) →
    if n <=? cap - Z.of_nat (length q) then
      ∃ ret s', bq_enqueue_bulk multi s obj n = Some (ret, s') ∧ (ret = 0 ∨ ret = - EDQUOT) ∧
        bq_rep s' cap (q ++ take (Z.to_nat n) obj) ∧ bq_flags s' = bq_flags s
    else bq_enqueue_bulk multi s obj n = Some (- ENOBUFS, s);

  bq_dequeue_bulk_ok : ∀ multi s cap q tbl n,
    bq_rep s cap q → 0 <= n <= Z.of_nat (length tbl) →
    if n <=? Z.of_nat (length q) then
      ∃ s', bq_dequeue_bulk multi s tbl n = Some (0, take (Z.to_nat n) q ++ drop (Z.to_nat n) tbl, s') ∧
        bq_rep s' cap (drop (Z.to_nat n) q) ∧ bq_flags s' = bq_flags s
    else bq_dequeue_bulk multi s tbl n = Some (- ENOENT, tbl, s) }.
