(* ===== verification/Ring.v ===== *)
(** * librte_ring: the lock-free ring, as one thread runs it

    Models [lib/librte_ring/rte_ring.h] and the initialisation functions of
    [rte_ring.c] (dpdk-2.2.0). A ring has four free-running 32-bit indexes and
    a table of object pointers; an operation returns the C return value and
    the new ring, or [None] when it would access memory outside the ring's or
    the caller's table, or would spin for ever. [A] is the type of the
    [void *] objects. The debug statistics are compiled out
    ([CONFIG_RTE_LIBRTE_RING_DEBUG=n]). What several threads do to one ring is
    in [RingConc.v]. *)
From S2P Require Import Prelude CStr.

Inductive rte_ring_queue_behavior := RTE_RING_QUEUE_FIXED | RTE_RING_QUEUE_VARIABLE.

#[export] Instance behavior_eq_dec : EqDecision rte_ring_queue_behavior.
Proof. solve_decision. Defined.

Record prod := Prod {
  watermark : Z; sp_enqueue : Z; prod_size : Z; prod_mask : Z; prod_head : Z; prod_tail : Z }.
Record cons := Cons {
  sc_dequeue : Z; cons_size : Z; cons_mask : Z; cons_head : Z; cons_tail : Z }.

Record rte_ring (A : Type) := Rte_ring {
  rname : string; rflags : Z; rmemzone : option Z; rprod : prod; rcons : cons; rtable : list A }.
Arguments Rte_ring {A}.
Arguments rname {A}.
Arguments rflags {A}.
Arguments rmemzone {A}.
Arguments rprod {A}.
Arguments rcons {A}.
Arguments rtable {A}.

Definition RTE_RING_NAMESIZE : Z := 32.
Definition RING_F_SP_ENQ : Z := 1.
Definition RING_F_SC_DEQ : Z := 2.
Definition RTE_RING_QUOT_EXCEED : Z := 2 ^ 31.
Definition RTE_RING_SZ_MASK : Z := 268435455.

(** Assignments to the volatile fields. *)
Definition set_prod_head (p : prod) (v : Z) : prod :=
  Prod (watermark p) (sp_enqueue p) (prod_size p) (prod_mask p) v (prod_tail p).
Definition set_prod_tail (p : prod) (v : Z) : prod :=
  Prod (watermark p) (sp_enqueue p) (prod_size p) (prod_mask p) (prod_head p) v.
Definition set_watermark (p : prod) (v : Z) : prod :=
  Prod v (sp_enqueue p) (prod_size p) (prod_mask p) (prod_head p) (prod_tail p).
Definition set_cons_head (c : cons) (v : Z) : cons :=
  Cons (sc_dequeue c) (cons_size c) (cons_mask c) v (cons_tail c).
Definition set_cons_tail (c : cons) (v : Z) : cons :=
  Cons (sc_dequeue c) (cons_size c) (cons_mask c) (cons_head c) v.

(** ** The copy macros *)

(** [ENQUEUE_PTRS] and [DEQUEUE_PTRS] have one control structure, around a
    different assignment: [body i idx] is the assignment between
    [obj_table[i]] and [r->ring[idx]], acting on the table it writes. *)
Section ptrs.
Context {M : Type} (body : Z → Z → M → option M).

(** The loop unrolled by four, for a range that does not wrap. *)
Definition ptrs_quads (n idx : Z) (m : M) : option (Z * Z * M) :=
  while (Z.to_nat n)
    (λ '(i, _, _), i <? Z.land n (u32 (Z.lnot 3)))
    (λ '(i, idx, m),
      m ← body i idx m;
      m ← body (u32 (i + 1)) (u32 (idx + 1)) m;
      m ← body (u32 (i + 2)) (u32 (idx + 2)) m;
      m ← body (u32 (i + 3)) (u32 (idx + 3)) m;
      Some (u32 (i + 4), u32 (idx + 4), m))
    (0, idx, m).

(** The [switch (n & 0x3)] with its fall-through cases. *)
Definition ptrs_switch (n : Z) (s : Z * Z * M) : option M :=
  let one := λ '(i, idx, m), m ← body i idx m; Some (u32 (i + 1), u32 (idx + 1), m) in
  let k := Z.land n 3 in
  s ← (if k =? 3 then one s else Some s);
  s ← (if (k =? 3) || (k =? 2) then one s else Some s);
  s ← (if (k =? 3) || (k =? 2) || (k =? 1) then one s else Some s);
  Some (snd s).

(** The two loops for a range that wraps at the end of the table. *)
Definition ptrs_wrapped (n idx size : Z) (m : M) : option M :=
  '(i, _, m) ← while (Z.to_nat size)
    (λ '(_, idx, _), idx <? size)
    (λ '(i, idx, m), m ← body i idx m; Some (u32 (i + 1), u32 (idx + 1), m))
    (0, idx, m);
  '(_, _, m) ← while (Z.to_nat n)
    (λ '(i, _, _), i <? n)
    (λ '(i, idx, m), m ← body i idx m; Some (u32 (i + 1), u32 (idx + 1), m))
    (i, 0, m);
  Some m.

Definition PTRS (n head mask size : Z) (m : M) : option M :=
  let idx := Z.land head mask in
  if u32 (idx + n) <? size then s ← ptrs_quads n idx m; ptrs_switch n s
  else ptrs_wrapped n idx size m.
End ptrs.

Section ops.
Context {A : Type}.
Implicit Types (r : rte_ring A) (obj_table : list A) (n : Z).

Definition ENQUEUE_PTRS (r : rte_ring A) (obj_table : list A) (n head mask : Z) : option (list A) :=
  PTRS (λ i idx tbl, x ← load obj_table i; store tbl idx x) n head mask
       (prod_size (rprod r)) (rtable r).

Definition DEQUEUE_PTRS (r : rte_ring A) (obj_table : list A) (n head mask : Z) : option (list A) :=
  PTRS (λ i idx tbl, x ← load (rtable r) idx; store tbl i x) n head mask
       (cons_size (rcons r)) obj_table.

(** The return value of an enqueue: [-EDQUOT], or the count flagged with
    [RTE_RING_QUOT_EXCEED], above the watermark. *)
Definition enqueue_ret (mask free_entries n wm : Z) (behavior : rte_ring_queue_behavior) : Z :=
  if wm <? u32 (u32 (mask + 1) - free_entries + n) then
    match behavior with
    | RTE_RING_QUEUE_FIXED => - EDQUOT
    | RTE_RING_QUEUE_VARIABLE => i32 (Z.lor n RTE_RING_QUOT_EXCEED)
    end
  else
    match behavior with
    | RTE_RING_QUEUE_FIXED => 0
    | RTE_RING_QUEUE_VARIABLE => n
    end.

Definition rte_ring_sp_do_enqueue (r : rte_ring A) (obj_table : list A) (n : Z)
    (behavior : rte_ring_queue_behavior) : option (Z * rte_ring A) :=
  let mask := prod_mask (rprod r) in
  let head := prod_head (rprod r) in
  let tail := cons_tail (rcons r) in
  let free_entries := u32 (mask + tail - head) in
  let go n :=
    let next := u32 (head + n) in
    let p := set_prod_head (rprod r) next in
    tbl ← ENQUEUE_PTRS r obj_table n head mask;
    let ret := enqueue_ret mask free_entries n (watermark p) behavior in
    Some (ret, Rte_ring (rname r) (rflags r) (rmemzone r) (set_prod_tail p next) (rcons r) tbl) in
  if free_entries <? n then
    match behavior with
    | RTE_RING_QUEUE_FIXED => Some (- ENOBUFS, r)
    | RTE_RING_QUEUE_VARIABLE =>
        if free_entries =? 0 then Some (0, r) else go free_entries
    end
  else go n.

Definition rte_ring_sc_do_dequeue (r : rte_ring A) (obj_table : list A) (n : Z)
    (behavior : rte_ring_queue_behavior) : option (Z * list A * rte_ring A) :=
  let mask := prod_mask (rprod r) in
  let head := cons_head (rcons r) in
  let tail := prod_tail (rprod r) in
  let entries := u32 (tail - head) in
  let go n :=
    let next := u32 (head + n) in
    let c := set_cons_head (rcons r) next in
    tbl ← DEQUEUE_PTRS r obj_table n head mask;
    Some (match behavior with RTE_RING_QUEUE_FIXED => 0 | RTE_RING_QUEUE_VARIABLE => n end, tbl,
          Rte_ring (rname r) (rflags r) (rmemzone r) (rprod r) (set_cons_tail c next) (rtable r)) in
  if entries <? n then
    match behavior with
    | RTE_RING_QUEUE_FIXED => Some (- ENOENT, obj_table, r)
    | RTE_RING_QUEUE_VARIABLE =>
        if entries =? 0 then Some (0, obj_table, r) else go entries
    end
  else go n.

(** [rte_atomic32_cmpset]: the new contents of the cell, and the success flag. *)
Definition rte_atomic32_cmpset (dst exp src : Z) : Z * bool :=
  if dst =? exp then (src, true) else (dst, false).

(** The [do ... while (success == 0)] loop of the multi-producer enqueue:
    an early return value, or the reserved head, count and free entries. *)
Fixpoint mp_move_head (fuel : nat) r (max : Z) (behavior : rte_ring_queue_behavior)
    : option (Z + rte_ring A * Z * Z * Z) :=
  match fuel with
  | O => None
  | S fuel =>
    let head := prod_head (rprod r) in
    let tail := cons_tail (rcons r) in
    let free_entries := u32 (prod_mask (rprod r) + tail - head) in
    let attempt n :=
      let '(h, success) := rte_atomic32_cmpset (prod_head (rprod r)) head (u32 (head + n)) in
      if success then
        Some (inr (Rte_ring (rname r) (rflags r) (rmemzone r) (set_prod_head (rprod r) h)
                            (rcons r) (rtable r), head, n, free_entries))
      else mp_move_head fuel r max behavior in
    if free_entries <? max then
      match behavior with
      | RTE_RING_QUEUE_FIXED => Some (inl (- ENOBUFS))
      | RTE_RING_QUEUE_VARIABLE =>
          if free_entries =? 0 then Some (inl 0) else attempt free_entries
      end
    else attempt max
  end.

Definition rte_ring_mp_do_enqueue (fuel : nat) (r : rte_ring A) (obj_table : list A) (n : Z)
    (behavior : rte_ring_queue_behavior) : option (Z * rte_ring A) :=
  let mask := prod_mask (rprod r) in
  mv ← mp_move_head fuel r n behavior;
  match mv with
  | inl ret => Some (ret, r)
  | inr (r, head, n, free_entries) =>
    tbl ← ENQUEUE_PTRS r obj_table n head mask;
    let ret := enqueue_ret mask free_entries n (watermark (rprod r)) behavior in
    p ← while fuel (λ p, negb (prod_tail p =? head)) Some (rprod r);
    Some (ret, Rte_ring (rname r) (rflags r) (rmemzone r)
                        (set_prod_tail p (u32 (head + n))) (rcons r) tbl)
  end.

Fixpoint mc_move_head (fuel : nat) r (max : Z) (behavior : rte_ring_queue_behavior)
    : option (Z + rte_ring A * Z * Z) :=
  match fuel with
  | O => None
  | S fuel =>
    let head := cons_head (rcons r) in
    let tail := prod_tail (rprod r) in
    let entries := u32 (tail - head) in
    let attempt n :=
      let '(h, success) := rte_atomic32_cmpset (cons_head (rcons r)) head (u32 (head + n)) in
      if success then
        Some (inr (Rte_ring (rname r) (rflags r) (rmemzone r) (rprod r)
                            (set_cons_head (rcons r) h) (rtable r), head, n))
      else mc_move_head fuel r max behavior in
    if entries <? max then
      match behavior with
      | RTE_RING_QUEUE_FIXED => Some (inl (- ENOENT))
      | RTE_RING_QUEUE_VARIABLE =>
          if entries =? 0 then Some (inl 0) else attempt entries
      end
    else attempt max
  end.

Definition rte_ring_mc_do_dequeue (fuel : nat) (r : rte_ring A) (obj_table : list A) (n : Z)
    (behavior : rte_ring_queue_behavior) : option (Z * list A * rte_ring A) :=
  let mask := prod_mask (rprod r) in
  mv ← mc_move_head fuel r n behavior;
  match mv with
  | inl ret => Some (ret, obj_table, r)
  | inr (r, head, n) =>
    tbl ← DEQUEUE_PTRS r obj_table n head mask;
    c ← while fuel (λ c, negb (cons_tail c =? head)) Some (rcons r);
    Some (match behavior with RTE_RING_QUEUE_FIXED => 0 | RTE_RING_QUEUE_VARIABLE => n end, tbl,
          Rte_ring (rname r) (rflags r) (rmemzone r) (rprod r)
                   (set_cons_tail c (u32 (head + n))) (rtable r))
  end.

(** ** Bulk, single and burst operations

    Nothing interferes with a single thread, so its first compare-and-set
    succeeds and its wait for [tail] is over at once: one attempt is enough
    fuel ([mp_enqueue_eq_sp] and [mc_dequeue_eq_sc] in [RingSpec.v]). *)
Definition attempts : nat := 1.

Definition rte_ring_mp_enqueue_bulk r obj_table n :=
  rte_ring_mp_do_enqueue attempts r obj_table n RTE_RING_QUEUE_FIXED.
Definition rte_ring_sp_enqueue_bulk r obj_table n :=
  rte_ring_sp_do_enqueue r obj_table n RTE_RING_QUEUE_FIXED.
Definition rte_ring_enqueue_bulk r obj_table n :=
  if negb (sp_enqueue (rprod r) =? 0) then rte_ring_sp_enqueue_bulk r obj_table n
  else rte_ring_mp_enqueue_bulk r obj_table n.
Definition rte_ring_mp_enqueue r (obj : A) := rte_ring_mp_enqueue_bulk r [obj] 1.
Definition rte_ring_sp_enqueue r (obj : A) := rte_ring_sp_enqueue_bulk r [obj] 1.
Definition rte_ring_enqueue r (obj : A) :=
  if negb (sp_enqueue (rprod r) =? 0) then rte_ring_sp_enqueue r obj
  else rte_ring_mp_enqueue r obj.

Definition rte_ring_mc_dequeue_bulk r obj_table n :=
  rte_ring_mc_do_dequeue attempts r obj_table n RTE_RING_QUEUE_FIXED.
Definition rte_ring_sc_dequeue_bulk r obj_table n :=
  rte_ring_sc_do_dequeue r obj_table n RTE_RING_QUEUE_FIXED.
Definition rte_ring_dequeue_bulk r obj_table n :=
  if negb (sc_dequeue (rcons r) =? 0) then rte_ring_sc_dequeue_bulk r obj_table n
  else rte_ring_mc_dequeue_bulk r obj_table n.
(** [obj_p] is the cell the object is stored to. *)
Definition rte_ring_mc_dequeue r (obj_p : A) := rte_ring_mc_dequeue_bulk r [obj_p] 1.
Definition rte_ring_sc_dequeue r (obj_p : A) := rte_ring_sc_dequeue_bulk r [obj_p] 1.
Definition rte_ring_dequeue r (obj_p : A) :=
  if negb (sc_dequeue (rcons r) =? 0) then rte_ring_sc_dequeue r obj_p
  else rte_ring_mc_dequeue r obj_p.

(** The burst functions return the [int] result as an [unsigned]. *)
Definition ret_unsigned (o : option (Z * rte_ring A)) : option (Z * rte_ring A) :=
  '(ret, r) ← o; Some (u32 ret, r).
Definition ret_unsigned_tbl (o : option (Z * list A * rte_ring A)) :=
  '(ret, t, r) ← o; Some (u32 ret, t, r).
Definition rte_ring_mp_enqueue_burst r obj_table n :=
  ret_unsigned (rte_ring_mp_do_enqueue attempts r obj_table n RTE_RING_QUEUE_VARIABLE).
Definition rte_ring_sp_enqueue_burst r obj_table n :=
  ret_unsigned (rte_ring_sp_do_enqueue r obj_table n RTE_RING_QUEUE_VARIABLE).
Definition rte_ring_enqueue_burst r obj_table n :=
  if negb (sp_enqueue (rprod r) =? 0) then rte_ring_sp_enqueue_burst r obj_table n
  else rte_ring_mp_enqueue_burst r obj_table n.
Definition rte_ring_mc_dequeue_burst r obj_table n :=
  ret_unsigned_tbl (rte_ring_mc_do_dequeue attempts r obj_table n RTE_RING_QUEUE_VARIABLE).
Definition rte_ring_sc_dequeue_burst r obj_table n :=
  ret_unsigned_tbl (rte_ring_sc_do_dequeue r obj_table n RTE_RING_QUEUE_VARIABLE).
Definition rte_ring_dequeue_burst r obj_table n :=
  if negb (sc_dequeue (rcons r) =? 0) then rte_ring_sc_dequeue_burst r obj_table n
  else rte_ring_mc_dequeue_burst r obj_table n.

(** ** Observers *)
Definition rte_ring_full r : Z :=
  c_bool (Z.land (u32 (cons_tail (rcons r) - prod_tail (rprod r) - 1)) (prod_mask (rprod r)) =? 0).
Definition rte_ring_empty r : Z := c_bool (cons_tail (rcons r) =? prod_tail (rprod r)).
Definition rte_ring_count r : Z :=
  Z.land (u32 (prod_tail (rprod r) - cons_tail (rcons r))) (prod_mask (rprod r)).
Definition rte_ring_free_count r : Z :=
  Z.land (u32 (cons_tail (rcons r) - prod_tail (rprod r) - 1)) (prod_mask (rprod r)).

(** ** Initialisation (rte_ring.c) *)
Definition POWEROF2 (x : Z) : bool := Z.land (u32 (x - 1)) x =? 0.

Definition sizeof_rte_ring : Z := 128.
Definition sizeof_ptr : Z := 8.
Definition RTE_CACHE_LINE_SIZE : Z := 64.
Definition RTE_ALIGN (v align : Z) : Z := Z.land (v + (align - 1)) (Z.lnot (align - 1)).

Definition rte_ring_get_memsize (count : Z) : Z :=
  if negb (POWEROF2 count) || (RTE_RING_SZ_MASK <? count) then - EINVAL
  else RTE_ALIGN (sizeof_rte_ring + count * sizeof_ptr) RTE_CACHE_LINE_SIZE.

(** [table] is what the memory after the structure holds: it is not cleared. *)
Definition rte_ring_init (table : list A) (name : string) (count flags : Z) : rte_ring A :=
  {| rname := snprintf RTE_RING_NAMESIZE name;
     rflags := flags;
     rmemzone := None;
     rprod := Prod count (c_bool (negb (Z.land flags RING_F_SP_ENQ =? 0)))
                   count (u32 (count - 1)) 0 0;
     rcons := Cons (c_bool (negb (Z.land flags RING_F_SC_DEQ =? 0)))
                   count (u32 (count - 1)) 0 0;
     rtable := table |}.

Definition rte_ring_set_water_mark r (count : Z) : Z * rte_ring A :=
  if prod_size (rprod r) <=? count then (- EINVAL, r)
  else
    let count := if count =? 0 then prod_size (rprod r) else count in
    (0, Rte_ring (rname r) (rflags r) (rmemzone r) (set_watermark (rprod r) count)
                 (rcons r) (rtable r)).
End ops.

(** ** The copy macros against a plain loop *)

Section run.
Context {M : Type} (body : Z → Z → M → option M).

(** [k] assignments, for [i], [i+1], ..., between [obj_table[i]] and
    [ring[pos i]]. *)
Fixpoint run (pos : Z → Z) (i : Z) (k : nat) (m : M) : option M :=
  match k with
  | O => Some m
  | S k => body i (pos i) m ≫= run pos (i + 1) k
  end.

Lemma run_app pos i a b m : run pos i (a + b) m = run pos i a m ≫= run pos (i + Z.of_nat a) b.
Proof.
  revert i m. induction a as [|a IH]; intros i m; simpl.
  - by rewrite Z.add_0_r.
  - destruct (body i (pos i) m); simpl; [|done]. rewrite IH.
    by replace (i + 1 + Z.of_nat a) with (i + Z.of_nat (S a)) by lia.
Qed.

Lemma run_ext pos pos' i k m :
  (∀ j, i <= j < i + Z.of_nat k → pos j = pos' j) → run pos i k m = run pos' i k m.
Proof.
  revert i m. induction k as [|k IH]; intros i m H; simpl; [done|].
  rewrite H by lia. destruct (body i (pos' i) m); simpl; [|done]. apply IH. intros. apply H. lia.
Qed.

Lemma while_S {S} f (cond : S → bool) b s :
  cond s = true → while (Datatypes.S f) cond b s = b s ≫= while f cond b.
Proof. simpl. by intros ->. Qed.

(** The single-step loop [for (; cond; i++, idx++)]. *)
Lemma while_singles (cond : Z * Z * M → bool) k : ∀ fuel i idx m,
  (k <= fuel)%nat →
  (∀ j m', 0 <= j < Z.of_nat k → cond (i + j, idx + j, m') = true) →
  (∀ m', cond (i + Z.of_nat k, idx + Z.of_nat k, m') = false) →
  0 <= i → 0 <= idx → i + Z.of_nat k < 2 ^ 32 → idx + Z.of_nat k < 2 ^ 32 →
  while fuel cond (λ '(i, idx, m), m ← body i idx m; Some (u32 (i + 1), u32 (idx + 1), m)) (i, idx, m)
  = m ← run (λ j, idx + (j - i)) i k m; Some (i + Z.of_nat k, idx + Z.of_nat k, m).
Proof.
  induction k as [|k IH]; intros fuel i idx m Hf Hc Hn Hi Hx Hi' Hx'.
  - specialize (Hn m). rewrite while_done by (by rewrite !Z.add_0_r in *).
    simpl. by rewrite !Z.add_0_r.
  - destruct fuel as [|f]; [lia|].
    pose proof (Hc 0 m ltac:(lia)) as Hc0. rewrite !Z.add_0_r in Hc0.
    rewrite while_S by done. simpl run.
    replace (idx + (i - i)) with idx by lia.
    destruct (body i idx m) as [m'|]; simpl; [|done].
    rewrite !u32_small by (unfold is_u32; lia).
    rewrite IH; [| lia | | | lia..].
    + rewrite (run_ext _ (λ j, idx + (j - i)) (i + 1)) by (intros; lia).
      destruct (run _ _ _ m'); simpl; [|done]. do 3 f_equal; lia.
    + intros j m'' Hj. replace (i + 1 + j) with (i + (1 + j)) by lia.
      replace (idx + 1 + j) with (idx + (1 + j)) by lia. apply Hc. lia.
    + intros m''. replace (i + 1 + Z.of_nat k) with (i + Z.of_nat (S k)) by lia.
      replace (idx + 1 + Z.of_nat k) with (idx + Z.of_nat (S k)) by lia. apply Hn.
Qed.

Lemma land_not3 n : is_u32 n → Z.land n (u32 (Z.lnot 3)) = 4 * (n / 4).
Proof.
  intros Hn. change (u32 (Z.lnot 3)) with (Z.land (Z.ones 32) (Z.lnot (Z.ones 2))).
  rewrite Z.land_assoc, Z.land_ones by lia.
  rewrite (Z.mod_small n) by (unfold is_u32 in Hn; lia).
  rewrite <- Z.ldiff_land, Z.ldiff_ones_r by lia.
  rewrite Z.shiftl_mul_pow2, Z.shiftr_div_pow2 by lia. change (2 ^ 2) with 4. lia.
Qed.

Lemma land_3 n : Z.land n 3 = n mod 4.
Proof. change 3 with (Z.ones 2). by rewrite Z.land_ones by lia. Qed.

Lemma run_4 pos i m :
  (m ← body i (pos i) m;
   m ← body (i + 1) (pos (i + 1)) m;
   m ← body (i + 2) (pos (i + 2)) m;
   body (i + 3) (pos (i + 3)) m) = run pos i 4 m.
Proof.
  simpl. replace (i + 1 + 1) with (i + 2) by lia. replace (i + 2 + 1) with (i + 3) by lia.
  repeat match goal with
    |- context [body ?a ?b ?c] => destruct (body a b c); simpl; [|done] end.
  done.
Qed.

Lemma while_quads lim q : ∀ fuel i idx m,
  (q <= fuel)%nat → i + 4 * Z.of_nat q = lim →
  0 <= i → 0 <= idx → lim < 2 ^ 32 → idx + 4 * Z.of_nat q < 2 ^ 32 →
  while fuel (λ '(i, _, _), i <? lim)
    (λ '(i, idx, m),
      m ← body i idx m;
      m ← body (u32 (i + 1)) (u32 (idx + 1)) m;
      m ← body (u32 (i + 2)) (u32 (idx + 2)) m;
      m ← body (u32 (i + 3)) (u32 (idx + 3)) m;
      Some (u32 (i + 4), u32 (idx + 4), m)) (i, idx, m)
  = m ← run (λ j, idx + (j - i)) i (4 * q) m; Some (lim, idx + 4 * Z.of_nat q, m).
Proof.
  induction q as [|q IH]; intros fuel i idx m Hf Hl Hi Hx Hl' Hx'.
  - rewrite while_done by (apply Z.ltb_ge; lia). simpl. do 3 f_equal; lia.
  - destruct fuel as [|f]; [lia|].
    rewrite while_S by (apply Z.ltb_lt; lia). cbv beta iota.
    rewrite !u32_small by (unfold is_u32; lia).
    replace (4 * S q)%nat with (4 + 4 * q)%nat by lia.
    rewrite run_app, <- run_4. cbv beta.
    replace (idx + (i - i)) with idx by lia.
    replace (idx + (i + 1 - i)) with (idx + 1) by lia.
    replace (idx + (i + 2 - i)) with (idx + 2) by lia.
    replace (idx + (i + 3 - i)) with (idx + 3) by lia.
    repeat match goal with
      |- context [body ?a ?b ?c] => destruct (body a b c); simpl; [|done] end.
    rewrite IH by lia.
    rewrite (run_ext _ (λ j, idx + (j - i)) (i + 4)) by (intros; lia).
    change (Z.of_nat 4) with 4.
    replace (q + (q + (q + (q + 0))))%nat with (4 * q)%nat by lia.
    destruct (run _ (i + 4) (4 * q) _); simpl; [|done]. do 3 f_equal; lia.
Qed.

Lemma ptrs_switch_run n i idx m :
  0 <= i → 0 <= idx → i + 3 < 2 ^ 32 → idx + 3 < 2 ^ 32 →
  ptrs_switch body n (i, idx, m) = run (λ j, idx + (j - i)) i (Z.to_nat (n mod 4)) m.
Proof.
  intros Hi Hx Hi' Hx'. unfold ptrs_switch. rewrite land_3.
  pose proof (Z.mod_pos_bound n 4 ltac:(lia)) as Hm.
  assert (n mod 4 = 0 ∨ n mod 4 = 1 ∨ n mod 4 = 2 ∨ n mod 4 = 3) as [->|[->|[->| ->]]] by lia.
  all: simpl; try done.
  all: replace (idx + (i - i)) with idx by lia.
  all: destruct (body i idx m); simpl; try done.
  all: rewrite (u32_small (i + 1)), (u32_small (idx + 1)) by (unfold is_u32; lia).
  all: replace (idx + (i + 1 - i)) with (idx + 1) by lia.
  all: destruct (body (i + 1) (idx + 1) _); simpl; try done.
  rewrite (u32_small (i + 1 + 1)), (u32_small (idx + 1 + 1)) by (unfold is_u32; lia).
  replace (idx + (i + 1 + 1 - i)) with (idx + 1 + 1) by lia.
  by destruct (body (i + 1 + 1) (idx + 1 + 1) _).
Qed.

Lemma ptrs_straight n idx m :
  0 <= n → 0 <= idx → idx + n + 3 < 2 ^ 32 →
  (s ← ptrs_quads body n idx m; ptrs_switch body n s) = run (λ j, idx + j) 0 (Z.to_nat n) m.
Proof.
  intros Hn Hx Hb. unfold ptrs_quads. rewrite land_not3 by (unfold is_u32; lia).
  pose proof (Z.div_mod n 4 ltac:(lia)) as Hdm. pose proof (Z.mod_pos_bound n 4 ltac:(lia)) as Hm.
  assert (Hq : 0 <= n / 4) by (apply Z.div_pos; lia).
  rewrite (while_quads _ (Z.to_nat (n / 4))) by lia.
  replace (Z.to_nat n) with (4 * Z.to_nat (n / 4) + Z.to_nat (n mod 4))%nat by lia.
  rewrite run_app. rewrite (run_ext (λ j, idx + (j - 0)) (λ j, idx + j) 0) by (intros; lia).
  destruct (run _ 0 _ m) as [m'|]; cbn [mbind option_bind]; [|done].
  rewrite ptrs_switch_run by lia.
  replace (0 + Z.of_nat (4 * Z.to_nat (n / 4))) with (4 * (n / 4)) by lia.
  apply run_ext. intros; lia.
Qed.

Lemma ptrs_wrapped_run n idx size m :
  0 <= idx < size → size <= idx + n → n <= size → size < 2 ^ 31 →
  ptrs_wrapped body n idx size m
  = run (λ j, if idx + j <? size then idx + j else idx + j - size) 0 (Z.to_nat n) m.
Proof.
  intros Hx Hn Hns Hs. unfold ptrs_wrapped.
  rewrite (while_singles _ (Z.to_nat (size - idx))); [| lia | | | lia..].
  2: { intros j ? Hj. apply Z.ltb_lt. lia. }
  2: { intros ?. apply Z.ltb_ge. lia. }
  set (pos := λ j, if idx + j <? size then idx + j else idx + j - size).
  replace (run pos 0 (Z.to_nat n) m)
    with (run pos 0 (Z.to_nat (size - idx) + Z.to_nat (idx + n - size)) m) by (f_equal; lia).
  rewrite run_app.
  rewrite (run_ext (λ j, idx + (j - 0)) pos 0) by (intros; unfold pos; tests; lia).
  destruct (run _ 0 _ m) as [m'|]; cbn [mbind option_bind]; [|done].
  rewrite (while_singles _ (Z.to_nat (idx + n - size))); [| lia | | | lia..].
  2: { intros j ? Hj. apply Z.ltb_lt. lia. }
  2: { intros ?. apply Z.ltb_ge. lia. }
  rewrite (run_ext _ pos (0 + _)) by (intros; unfold pos; tests; lia).
  by destruct (run _ _ _ m').
Qed.

(** The unrolled and split copies are the loop
    [for (i = 0; i < n; i++)] over the slots [(head + i) mod size]. *)
Lemma PTRS_run n head mask k m :
  0 <= k <= 30 → mask = 2 ^ k - 1 → 0 <= n <= 2 ^ k →
  PTRS body n head mask (2 ^ k) m = run (λ j, (head + j) mod 2 ^ k) 0 (Z.to_nat n) m.
Proof.
  intros Hk -> Hn. unfold PTRS.
  rewrite land_mask by lia.
  pose proof (Z.pow_pos_nonneg 2 k ltac:(lia) ltac:(lia)) as Hs.
  pose proof (Z.mod_pos_bound head (2 ^ k) Hs) as Hi.
  assert (Hle : 2 ^ k <= 2 ^ 30) by (apply Z.pow_le_mono_r; lia).
  change (2 ^ 30) with 1073741824 in Hle.
  assert (Hpos : ∀ j, 0 <= j < n →
    (head + j) mod 2 ^ k =
    if head mod 2 ^ k + j <? 2 ^ k then head mod 2 ^ k + j else head mod 2 ^ k + j - 2 ^ k).
  { intros j Hj. rewrite <- Zplus_mod_idemp_l. tests.
    - apply Z.mod_small. lia.
    - rewrite <- (Z.mod_small (head mod 2 ^ k + j - 2 ^ k) (2 ^ k)) by lia.
      rewrite <- (Z_mod_plus_full (head mod 2 ^ k + j) (-1) (2 ^ k)). f_equal; lia. }
  rewrite u32_small by (unfold is_u32; lia). tests.
  - rewrite ptrs_straight by lia. apply run_ext. intros j Hj. rewrite Hpos by lia. tests; lia.
  - rewrite ptrs_wrapped_run by lia. apply run_ext. intros j Hj. by rewrite Hpos by lia.
Qed.
End run.
