(* ===== verification/RingSpec.v ===== *)
(** * librte_ring refines a bounded FIFO queue

    The abstract queue is a list and a capacity; [ring_rep r k q] says that
    the ring [r] of [2^k] slots, with no operation in progress, holds the
    list [q]. Every operation of [Ring.v] is shown to be total and memory safe
    on such a ring and to act on [q] as the abstract queue does, whatever the
    values of the wrapping 32-bit indexes. *)
From S2P Require Import Prelude CStr BurstQueue Ring.

(** ** The abstract queue *)

(** An enqueue of [n] objects on [used] ones: the return value, and how many
    objects are appended. *)
Definition spec_enqueue (cap wm used n : Z) (behavior : rte_ring_queue_behavior) : Z * Z :=
  let ret m :=
    if used + m <? wm then
      match behavior with RTE_RING_QUEUE_FIXED => 0 | RTE_RING_QUEUE_VARIABLE => m end
    else
      match behavior with RTE_RING_QUEUE_FIXED => - EDQUOT | RTE_RING_QUEUE_VARIABLE => m - 2 ^ 31 end in
  if n <=? cap - used then (ret n, n)
  else match behavior with
       | RTE_RING_QUEUE_FIXED => (- ENOBUFS, 0)
       | RTE_RING_QUEUE_VARIABLE => if used =? cap then (0, 0) else (ret (cap - used), cap - used)
       end.

(** A dequeue of [n] objects from [used] ones: the return value, and how many
    objects are removed. *)
Definition spec_dequeue (used n : Z) (behavior : rte_ring_queue_behavior) : Z * Z :=
  match behavior with
  | RTE_RING_QUEUE_FIXED => if n <=? used then (0, n) else (- ENOENT, 0)
  | RTE_RING_QUEUE_VARIABLE => (Z.min n used, Z.min n used)
  end.

(** ** The representation *)

Record ring_ok {A} (r : rte_ring A) (k : Z) : Prop := {
  ok_k : 0 <= k <= 27;
  ok_psize : prod_size (rprod r) = 2 ^ k;
  ok_csize : cons_size (rcons r) = 2 ^ k;
  ok_pmask : prod_mask (rprod r) = 2 ^ k - 1;
  ok_cmask : cons_mask (rcons r) = 2 ^ k - 1;
  ok_table : Z.of_nat (length (rtable r)) = 2 ^ k;
  ok_watermark : 0 < watermark (rprod r) <= 2 ^ k;
  ok_ptail : is_u32 (prod_tail (rprod r));
  ok_ctail : is_u32 (cons_tail (rcons r));
  ok_prod_quiet : prod_head (rprod r) = prod_tail (rprod r);
  ok_cons_quiet : cons_head (rcons r) = cons_tail (rcons r) }.

Record ring_rep {A} (r : rte_ring A) (k : Z) (q : list A) : Prop := {
  rep_ok : ring_ok r k;
  rep_len : u32 (prod_tail (rprod r) - cons_tail (rcons r)) = Z.of_nat (length q);
  rep_cap : Z.of_nat (length q) < 2 ^ k;
  rep_slots : ∀ j x, q !! j = Some x →
    rtable r !! Z.to_nat ((cons_tail (rcons r) + Z.of_nat j) mod 2 ^ k) = Some x }.

(** What no enqueue or dequeue changes. *)
Definition same_config {A} (r r' : rte_ring A) : Prop :=
  rname r' = rname r ∧ rflags r' = rflags r ∧ rmemzone r' = rmemzone r ∧
  sp_enqueue (rprod r') = sp_enqueue (rprod r) ∧ sc_dequeue (rcons r') = sc_dequeue (rcons r) ∧
  watermark (rprod r') = watermark (rprod r).

#[export] Instance same_config_equiv {A} : Equivalence (@same_config A).
Proof.
  split.
  - done.
  - unfold same_config. intros x y H. destruct_and!. by split_and!.
  - unfold same_config. intros x y z H1 H2. destruct_and!. split_and!; congruence.
Qed.

(** ** Arithmetic of slots *)

Lemma pow2_bounds k : 0 <= k <= 27 → 0 < 2 ^ k <= 134217728.
Proof.
  intros Hk. split; [apply Z.pow_pos_nonneg; lia|].
  change 134217728 with (2 ^ 27). apply Z.pow_le_mono_r; lia.
Qed.

Lemma slot_inj size c a b :
  0 < size → (c + a) mod size = (c + b) mod size → - size < a - b < size → a = b.
Proof.
  intros Hs He Hd.
  pose proof (Z.div_mod (c + a) size ltac:(lia)) as E1.
  pose proof (Z.div_mod (c + b) size ltac:(lia)) as E2. rewrite He in E1.
  assert (size * ((c + a) / size - (c + b) / size) = a - b) by lia.
  assert ((c + a) / size - (c + b) / size = 0); [|lia].
  destruct (Z.lt_trichotomy ((c + a) / size - (c + b) / size) 0) as [?|[?|?]]; [nia|done|nia].
Qed.

(** ** What the copies do *)

Section copies.
Context {A : Type}.
Implicit Types (tbl obj xs : list A).

(** Copy into the ring: [obj[i..i+k)] lands on the slots [pos i, ...],
    nothing else changes. *)
Lemma run_enqueue obj pos k : ∀ i tbl,
  0 <= i → i + Z.of_nat k <= Z.of_nat (length obj) →
  (∀ j, i <= j < i + Z.of_nat k → 0 <= pos j < Z.of_nat (length tbl)) →
  (∀ a b, i <= a < i + Z.of_nat k → i <= b < i + Z.of_nat k → pos a = pos b → a = b) →
  ∃ tbl', run (λ i idx t, x ← load obj i; store t idx x) pos i k tbl = Some tbl' ∧
    length tbl' = length tbl ∧
    (∀ j, i <= j < i + Z.of_nat k → tbl' !! Z.to_nat (pos j) = obj !! Z.to_nat j) ∧
    (∀ p, (∀ j, i <= j < i + Z.of_nat k → p ≠ Z.to_nat (pos j)) → tbl' !! p = tbl !! p).
Proof.
  induction k as [|k IH]; intros i tbl Hi Ho Hp Hinj; simpl.
  { exists tbl. split_and!; try done. intros; lia. }
  destruct (load_in obj i) as (x & Hx & Hx'); [lia|]. rewrite Hx. simpl.
  rewrite store_in by (apply Hp; lia). simpl.
  destruct (IH (i + 1) (<[Z.to_nat (pos i):=x]> tbl)) as (tbl' & Hr & Hl & Hin & Hout);
    [lia | lia | rewrite length_insert; intros; apply Hp; lia | intros; apply Hinj; lia |].
  exists tbl'. rewrite length_insert in Hl. split_and!; [done|done|..].
  - intros j Hj. destruct (decide (j = i)) as [->|]; [|apply Hin; lia].
    rewrite Hout.
    + rewrite list_lookup_insert_eq by (specialize (Hp i ltac:(lia)); lia). done.
    + intros j' Hj' E. assert (pos i = pos j') as E'.
      { pose proof (Hp i ltac:(lia)). pose proof (Hp j' ltac:(lia)). lia. }
      apply Hinj in E'; lia.
  - intros p Hne. rewrite Hout by (intros; apply Hne; lia).
    apply list_lookup_insert_ne. intros <-. by apply (Hne i); [lia|].
Qed.

(** Copy out of the ring: the slots [pos i, ...] land on [tbl[i..i+k)]. *)
Lemma run_dequeue ring pos xs : ∀ i tbl,
  0 <= i → i + Z.of_nat (length xs) <= Z.of_nat (length tbl) →
  (∀ j x, xs !! j = Some x → 0 <= pos (i + Z.of_nat j) ∧
          ring !! Z.to_nat (pos (i + Z.of_nat j)) = Some x) →
  run (λ i idx t, x ← load ring idx; store t i x) pos i (length xs) tbl
  = Some (take (Z.to_nat i) tbl ++ xs ++ drop (Z.to_nat i + length xs) tbl).
Proof.
  induction xs as [|x xs IH]; intros i tbl Hi Hb Hs; cbn [run length].
  { rewrite Nat.add_0_r. simpl. by rewrite take_drop. }
  destruct (Hs 0%nat x eq_refl) as [Hp Hr]. rewrite Z.add_0_r in *.
  assert (load ring (pos i) = Some x) as -> by (unfold load; by rewrite decide_True).
  cbn [mbind option_bind].
  rewrite store_in by (simpl in Hb; lia). cbn [mbind option_bind].
  rewrite IH; [| lia | rewrite length_insert; simpl in Hb; lia |].
  - f_equal. simpl in Hb. replace (Z.to_nat (i + 1)) with (S (Z.to_nat i)) by lia.
    rewrite (take_S_r _ _ x) by (apply list_lookup_insert_eq; lia).
    rewrite take_insert_ge by lia.
    rewrite <- app_assoc. simpl. do 2 f_equal. rewrite drop_insert_lt by lia. f_equal. f_equal. lia.
  - intros j y Hj. specialize (Hs (S j) y Hj).
    by replace (i + 1 + Z.of_nat j) with (i + Z.of_nat (S j)) by lia.
Qed.
End copies.

(** ** Refinement *)

Section refinement.
Context {A : Type}.
Implicit Types (r : rte_ring A) (q obj : list A).

Lemma rep_ptail r k q : ring_rep r k q →
  prod_tail (rprod r) = u32 (cons_tail (rcons r) + Z.of_nat (length q)).
Proof.
  intros [Hok Hl _ _]. rewrite <- Hl, u32_add_r.
  replace (_ + (_ - _)) with (prod_tail (rprod r)) by lia.
  symmetry. apply u32_small, Hok.
Qed.

Lemma ptail_slot r k q j : ring_rep r k q →
  (prod_tail (rprod r) + j) mod 2 ^ k = (cons_tail (rcons r) + (Z.of_nat (length q) + j)) mod 2 ^ k.
Proof.
  intros Hr. pose proof (ok_k _ _ (rep_ok _ _ _ Hr)) as Hk.
  rewrite (rep_ptail _ _ _ Hr), <- Zplus_mod_idemp_l, u32_mod_pow2 by lia.
  rewrite Zplus_mod_idemp_l. f_equal. lia.
Qed.

Lemma rep_free r k q : ring_rep r k q →
  u32 (prod_mask (rprod r) + cons_tail (rcons r) - prod_head (rprod r)) = 2 ^ k - 1 - Z.of_nat (length q).
Proof.
  intros Hr. pose proof (rep_ok _ _ _ Hr) as Hok. pose proof (rep_cap _ _ _ Hr) as Hc.
  rewrite (ok_pmask _ _ Hok), (ok_prod_quiet _ _ Hok), (rep_ptail _ _ _ Hr), u32_sub_r.
  replace (_ - _) with (2 ^ k - 1 - Z.of_nat (length q)) by lia.
  apply u32_small. pose proof (pow2_bounds k (ok_k _ _ Hok)). unfold is_u32. lia.
Qed.

Lemma rep_entries r k q : ring_rep r k q →
  u32 (prod_tail (rprod r) - cons_head (rcons r)) = Z.of_nat (length q).
Proof. intros Hr. rewrite (ok_cons_quiet _ _ (rep_ok _ _ _ Hr)). apply (rep_len _ _ _ Hr). Qed.

Lemma enqueue_ret_spec k used n wm behavior :
  0 <= k <= 27 → 0 <= used → 0 <= n → used + n < 2 ^ k →
  enqueue_ret (2 ^ k - 1) (2 ^ k - 1 - used) n wm behavior =
  if used + n <? wm then
    match behavior with RTE_RING_QUEUE_FIXED => 0 | RTE_RING_QUEUE_VARIABLE => n end
  else
    match behavior with RTE_RING_QUEUE_FIXED => - EDQUOT | RTE_RING_QUEUE_VARIABLE => n - 2 ^ 31 end.
Proof.
  intros Hk Hu Hn Hb. pose proof (pow2_bounds k Hk). unfold enqueue_ret.
  rewrite (u32_small (_ + 1)) by (unfold is_u32; lia).
  rewrite u32_small by (unfold is_u32; lia).
  replace (Z.lor n RTE_RING_QUOT_EXCEED) with (n + 2 ^ 31).
  - replace (i32 (n + 2 ^ 31)) with (n - 2 ^ 31) by (unfold i32; Z.to_euclidean_division_equations; lia).
    tests; try done; lia.
  - unfold RTE_RING_QUOT_EXCEED. rewrite <- Z.add_lor_land.
    replace (Z.land n (2 ^ 31)) with 0; [lia|].
    symmetry. apply Z.bits_inj'. intros i Hi. rewrite Z.land_spec, Z.bits_0.
    rewrite Z.pow2_bits_eqb by lia. destruct (Z.eqb_spec 31 i) as [<-|]; [|apply andb_false_r].
    rewrite andb_true_r. apply Z.testbit_false; [lia|]. rewrite Z.div_small by lia. done.
Qed.

(** The ring after [n] objects of [obj] were stored behind [q]. *)
Definition enqueued r n tbl : rte_ring A :=
  Rte_ring (rname r) (rflags r) (rmemzone r)
    (set_prod_tail (set_prod_head (rprod r) (u32 (prod_head (rprod r) + n)))
                   (u32 (prod_head (rprod r) + n))) (rcons r) tbl.

Lemma enqueue_copy r k q obj n :
  ring_rep r k q → 0 <= n <= Z.of_nat (length obj) → Z.of_nat (length q) + n < 2 ^ k →
  ∃ tbl, ENQUEUE_PTRS r obj n (prod_head (rprod r)) (prod_mask (rprod r)) = Some tbl ∧
         ring_rep (enqueued r n tbl) k (q ++ take (Z.to_nat n) obj).
Proof.
  intros Hr Hn Hb. pose proof (rep_ok _ _ _ Hr) as Hok. pose proof (pow2_bounds k (ok_k _ _ Hok)) as Hp.
  pose proof (ok_k _ _ Hok) as Hk.
  unfold ENQUEUE_PTRS. rewrite (ok_psize _ _ Hok), PTRS_run; [|lia|apply Hok|lia].
  rewrite (ok_prod_quiet _ _ Hok).
  edestruct (run_enqueue obj (λ j, (prod_tail (rprod r) + j) mod 2 ^ k) (Z.to_nat n) 0 (rtable r))
    as (tbl & -> & Hl & Hin & Hout); [lia | lia | | |].
  { intros j _. rewrite (ok_table _ _ Hok). apply Z.mod_pos_bound. lia. }
  { intros a b Ha Hb' E. apply slot_inj in E; lia. }
  assert (Hlen : length (q ++ take (Z.to_nat n) obj) = (length q + Z.to_nat n)%nat)
    by (rewrite length_app, length_take; lia).
  exists tbl. split; [done|]. split.
  - destruct Hok; split; simpl; try done; try apply u32_range. rewrite Hl. done.
  - simpl. rewrite (ok_prod_quiet _ _ Hok), (rep_ptail _ _ _ Hr), u32_add_l, u32_sub_l, Hlen.
    rewrite u32_small; [lia|]. unfold is_u32. lia.
  - rewrite Hlen. lia.
  - simpl. intros j x Hj. apply lookup_app_Some in Hj as [Hj|[Hge Hj]].
    + rewrite Hout; [by apply (rep_slots _ _ _ Hr)|].
      apply lookup_lt_Some in Hj. intros j' Hj' E. rewrite (ptail_slot _ _ _ _ Hr) in E.
      apply Z2Nat.inj in E; try (apply Z.mod_pos_bound; lia). apply slot_inj in E; lia.
    + apply lookup_take_Some in Hj as [Hj Hlt].
      specialize (Hin (Z.of_nat j - Z.of_nat (length q)) ltac:(lia)).
      cbv beta in Hin. rewrite (ptail_slot _ _ _ _ Hr) in Hin.
      replace (Z.of_nat (length q) + (Z.of_nat j - Z.of_nat (length q))) with (Z.of_nat j) in Hin by lia.
      rewrite Hin, <- Hj. f_equal. lia.
Qed.

(** A single-producer enqueue never touches memory outside the tables,
    returns what the bounded queue returns, and appends what it accepts. *)
Lemma sp_do_enqueue_rep r k q obj n behavior :
  ring_rep r k q → 0 <= n <= Z.of_nat (length obj) →
  ∃ ret m r', spec_enqueue (2 ^ k - 1) (watermark (rprod r)) (Z.of_nat (length q)) n behavior = (ret, m) ∧
    rte_ring_sp_do_enqueue r obj n behavior = Some (ret, r') ∧
    ring_rep r' k (q ++ take (Z.to_nat m) obj) ∧ same_config r r'.
Proof.
  intros Hr Hn. pose proof (rep_ok _ _ _ Hr) as Hok. pose proof (rep_cap _ _ _ Hr) as Hc.
  unfold rte_ring_sp_do_enqueue, spec_enqueue. rewrite (rep_free _ _ _ Hr), (ok_pmask _ _ Hok).
  assert (Hgo : ∀ m, 0 <= m <= Z.of_nat (length obj) → Z.of_nat (length q) + m < 2 ^ k →
    ∃ r', (tbl ← ENQUEUE_PTRS r obj m (prod_head (rprod r)) (2 ^ k - 1);
           Some (enqueue_ret (2 ^ k - 1) (2 ^ k - 1 - Z.of_nat (length q)) m (watermark (rprod r)) behavior,
                 enqueued r m tbl)) =
          Some (enqueue_ret (2 ^ k - 1) (2 ^ k - 1 - Z.of_nat (length q)) m (watermark (rprod r)) behavior, r') ∧
          ring_rep r' k (q ++ take (Z.to_nat m) obj) ∧ same_config r r').
  { intros m Hm Hb. destruct (enqueue_copy r k q obj m Hr Hm Hb) as (tbl & E & Hrep).
    rewrite <- (ok_pmask _ _ Hok), E. simpl. eexists. split; [done|]. split; [done|]. by split_and!. }
  assert (Hsame : ring_rep r k (q ++ take (Z.to_nat 0) obj) ∧ same_config r r)
    by (simpl; rewrite app_nil_r; done).
  destruct (Z.ltb_spec (2 ^ k - 1 - Z.of_nat (length q)) n) as [Hlt|Hge].
  - rewrite (proj2 (Z.leb_gt _ _)) by lia.
    destruct behavior; [do 3 eexists; split; [done|split; [done|apply Hsame]]|].
    replace (Z.of_nat (length q) =? 2 ^ k - 1) with (2 ^ k - 1 - Z.of_nat (length q) =? 0)
      by (apply Bool.eq_iff_eq_true; rewrite !Z.eqb_eq; lia).
    destruct (Z.eqb_spec (2 ^ k - 1 - Z.of_nat (length q)) 0);
      [do 3 eexists; split; [done|split; [done|apply Hsame]]|].
    destruct (Hgo (2 ^ k - 1 - Z.of_nat (length q))) as (r' & E & Hrest); [lia|lia|].
    do 3 eexists. split; [done|split; [etransitivity; [exact E|]|exact Hrest]].
    rewrite enqueue_ret_spec by (try apply Hok; lia). done.
  - rewrite (proj2 (Z.leb_le _ _)) by lia.
    destruct (Hgo n) as (r' & E & Hrest); [lia|lia|].
    do 3 eexists. split; [done|split; [etransitivity; [exact E|]|exact Hrest]].
    rewrite enqueue_ret_spec by (try apply Hok; lia). done.
Qed.

(** The ring after [n] objects were taken. *)
Definition dequeued r n : rte_ring A :=
  Rte_ring (rname r) (rflags r) (rmemzone r) (rprod r)
    (set_cons_tail (set_cons_head (rcons r) (u32 (cons_head (rcons r) + n)))
                   (u32 (cons_head (rcons r) + n))) (rtable r).

Lemma dequeue_copy r k q tbl n :
  ring_rep r k q → 0 <= n <= Z.of_nat (length q) → n <= Z.of_nat (length tbl) →
  DEQUEUE_PTRS r tbl n (cons_head (rcons r)) (prod_mask (rprod r))
    = Some (take (Z.to_nat n) q ++ drop (Z.to_nat n) tbl) ∧
  ring_rep (dequeued r n) k (drop (Z.to_nat n) q).
Proof.
  intros Hr Hn Hb. pose proof (rep_ok _ _ _ Hr) as Hok. pose proof (pow2_bounds k (ok_k _ _ Hok)) as Hp.
  pose proof (ok_k _ _ Hok) as Hk. pose proof (rep_cap _ _ _ Hr) as Hc. split.
  - unfold DEQUEUE_PTRS. rewrite (ok_csize _ _ Hok), PTRS_run; [|lia|apply Hok|lia].
    assert (Hl : length (take (Z.to_nat n) q) = Z.to_nat n) by (rewrite length_take; lia).
    rewrite <- Hl at 1. rewrite run_dequeue; [by rewrite Hl | lia | lia |].
    intros j x Hj. split; [apply Z.mod_pos_bound; lia|].
    rewrite (ok_cons_quiet _ _ Hok), Z.add_0_l. apply lookup_take_Some in Hj as [Hj _].
    by apply (rep_slots _ _ _ Hr).
  - split; simpl.
    + destruct Hok; split; simpl; try done; apply u32_range.
    + rewrite (ok_cons_quiet _ _ Hok), (rep_ptail _ _ _ Hr), u32_sub_l, u32_sub_r, length_drop.
      rewrite u32_small; [lia|]. unfold is_u32. lia.
    + rewrite length_drop. lia.
    + intros j x Hj. rewrite lookup_drop in Hj. rewrite (ok_cons_quiet _ _ Hok).
      rewrite <- Zplus_mod_idemp_l, u32_mod_pow2, Zplus_mod_idemp_l by lia.
      apply (rep_slots _ _ _ Hr) in Hj. rewrite <- Hj. do 3 f_equal. lia.
Qed.

(** A single-consumer dequeue fills the front of the caller's table with
    the oldest objects and leaves the rest of it alone. *)
Lemma sc_do_dequeue_rep r k q tbl n behavior :
  ring_rep r k q → 0 <= n <= Z.of_nat (length tbl) →
  ∃ ret m r', spec_dequeue (Z.of_nat (length q)) n behavior = (ret, m) ∧
    rte_ring_sc_do_dequeue r tbl n behavior
      = Some (ret, take (Z.to_nat m) q ++ drop (Z.to_nat m) tbl, r') ∧
    ring_rep r' k (drop (Z.to_nat m) q) ∧ same_config r r'.
Proof.
  intros Hr Hn. unfold rte_ring_sc_do_dequeue, spec_dequeue. rewrite (rep_entries _ _ _ Hr).
  assert (Hgo : ∀ m, 0 <= m <= Z.of_nat (length q) → m <= Z.of_nat (length tbl) →
    ∃ r', (t ← DEQUEUE_PTRS r tbl m (cons_head (rcons r)) (prod_mask (rprod r));
           Some (match behavior with RTE_RING_QUEUE_FIXED => 0 | RTE_RING_QUEUE_VARIABLE => m end,
                 t, dequeued r m)) =
          Some (match behavior with RTE_RING_QUEUE_FIXED => 0 | RTE_RING_QUEUE_VARIABLE => m end,
                take (Z.to_nat m) q ++ drop (Z.to_nat m) tbl, r') ∧
          ring_rep r' k (drop (Z.to_nat m) q) ∧ same_config r r').
  { intros m Hm Hb. destruct (dequeue_copy r k q tbl m Hr Hm Hb) as (-> & Hrep).
    eexists. split; [done|]. split; [exact Hrep|]. by split_and!. }
  destruct (Z.ltb_spec (Z.of_nat (length q)) n) as [Hlt|Hge].
  - destruct behavior; [rewrite (proj2 (Z.leb_gt _ _)) by lia; by do 3 eexists|].
    rewrite Z.min_r by lia. destruct (Z.eqb_spec (Z.of_nat (length q)) 0) as [E|].
    + rewrite E. by do 3 eexists.
    + destruct (Hgo (Z.of_nat (length q))) as (r' & E & Hrest); [lia|lia|].
      do 3 eexists. split; [done|split; [exact E|exact Hrest]].
  - destruct (Hgo n) as (r' & E & Hrest); [lia|lia|].
    destruct behavior; [rewrite (proj2 (Z.leb_le _ _)) by lia|rewrite Z.min_l by lia].
    all: do 3 eexists; split; [done|split; [exact E|exact Hrest]].
Qed.

(** With nobody else on the ring, the multi-producer enqueue is the
    single-producer one: the compare-and-set succeeds, the wait is empty. *)
Lemma mp_enqueue_eq_sp fuel r obj n behavior :
  prod_head (rprod r) = prod_tail (rprod r) →
  rte_ring_mp_do_enqueue (S fuel) r obj n behavior = rte_ring_sp_do_enqueue r obj n behavior.
Proof.
  intros Hq. unfold rte_ring_mp_do_enqueue, rte_ring_sp_do_enqueue, rte_atomic32_cmpset.
  assert (Hspin : ∀ v, while (S fuel) (λ p, negb (prod_tail p =? prod_head (rprod r))) Some
                         (set_prod_head (rprod r) v) = Some (set_prod_head (rprod r) v)).
  { intros v. apply while_done. simpl. rewrite Hq, Z.eqb_refl. done. }
  cbn [mp_move_head]. unfold rte_atomic32_cmpset. rewrite !Z.eqb_refl.
  destruct (_ <? n), behavior; try destruct (_ =? 0); cbn [mbind option_bind]; try done.
  all: unfold ENQUEUE_PTRS; cbn [rprod rtable prod_size set_prod_head].
  all: destruct (PTRS _ _ _ _ _ _); cbn [mbind option_bind]; [|done].
  all: rewrite Hspin; done.
Qed.

Lemma mc_dequeue_eq_sc fuel r tbl n behavior :
  cons_head (rcons r) = cons_tail (rcons r) →
  rte_ring_mc_do_dequeue (S fuel) r tbl n behavior = rte_ring_sc_do_dequeue r tbl n behavior.
Proof.
  intros Hq. unfold rte_ring_mc_do_dequeue, rte_ring_sc_do_dequeue.
  assert (Hspin : ∀ v, while (S fuel) (λ c, negb (cons_tail c =? cons_head (rcons r))) Some
                         (set_cons_head (rcons r) v) = Some (set_cons_head (rcons r) v)).
  { intros v. apply while_done. simpl. rewrite Hq, Z.eqb_refl. done. }
  cbn [mc_move_head]. unfold rte_atomic32_cmpset. rewrite !Z.eqb_refl.
  destruct (_ <? n), behavior; try destruct (_ =? 0); cbn [mbind option_bind]; try done.
  all: unfold DEQUEUE_PTRS; cbn [rcons rtable cons_size set_cons_head].
  all: destruct (PTRS _ _ _ _ _ _); cbn [mbind option_bind]; [|done].
  all: rewrite Hspin; done.
Qed.
End refinement.

(** ** The public operations *)

Section public.
Context {A : Type}.
Implicit Types (r : rte_ring A) (q obj tbl : list A).

Lemma enqueue_bulk_eq r k q obj n : ring_rep r k q →
  rte_ring_enqueue_bulk r obj n = rte_ring_sp_do_enqueue r obj n RTE_RING_QUEUE_FIXED.
Proof.
  intros Hr. unfold rte_ring_enqueue_bulk, rte_ring_sp_enqueue_bulk, rte_ring_mp_enqueue_bulk, attempts.
  rewrite mp_enqueue_eq_sp by apply Hr. by destruct (negb _).
Qed.
Lemma enqueue_burst_eq r k q obj n : ring_rep r k q →
  rte_ring_enqueue_burst r obj n = ret_unsigned (rte_ring_sp_do_enqueue r obj n RTE_RING_QUEUE_VARIABLE).
Proof.
  intros Hr. unfold rte_ring_enqueue_burst, rte_ring_sp_enqueue_burst, rte_ring_mp_enqueue_burst, attempts.
  rewrite mp_enqueue_eq_sp by apply Hr. by destruct (negb _).
Qed.
Lemma dequeue_bulk_eq r k q tbl n : ring_rep r k q →
  rte_ring_dequeue_bulk r tbl n = rte_ring_sc_do_dequeue r tbl n RTE_RING_QUEUE_FIXED.
Proof.
  intros Hr. unfold rte_ring_dequeue_bulk, rte_ring_sc_dequeue_bulk, rte_ring_mc_dequeue_bulk, attempts.
  rewrite mc_dequeue_eq_sc by apply Hr. by destruct (negb _).
Qed.
Lemma dequeue_burst_eq r k q tbl n : ring_rep r k q →
  rte_ring_dequeue_burst r tbl n = ret_unsigned_tbl (rte_ring_sc_do_dequeue r tbl n RTE_RING_QUEUE_VARIABLE).
Proof.
  intros Hr. unfold rte_ring_dequeue_burst, rte_ring_sc_dequeue_burst, rte_ring_mc_dequeue_burst, attempts.
  rewrite mc_dequeue_eq_sc by apply Hr. by destruct (negb _).
Qed.

(** The enqueue functions, in the terms of the abstract queue. *)
Lemma enqueue_bulk_rep r k q obj n :
  ring_rep r k q → 0 <= n <= Z.of_nat (length obj) →
  ∃ ret m r', spec_enqueue (2 ^ k - 1) (watermark (rprod r)) (Z.of_nat (length q)) n RTE_RING_QUEUE_FIXED
              = (ret, m) ∧
    rte_ring_enqueue_bulk r obj n = Some (ret, r') ∧
    ring_rep r' k (q ++ take (Z.to_nat m) obj) ∧ same_config r r'.
Proof. intros Hr Hn. rewrite (enqueue_bulk_eq _ _ _ _ _ Hr). by apply sp_do_enqueue_rep. Qed.

(** A burst enqueue accepts as many objects as there is room for, and the
    low 28 bits of its result ([RTE_RING_SZ_MASK]) count them. *)
Lemma enqueue_burst_rep r k q obj n :
  ring_rep r k q → 0 <= n <= Z.of_nat (length obj) →
  let m := Z.min n (2 ^ k - 1 - Z.of_nat (length q)) in
  ∃ ret r', rte_ring_enqueue_burst r obj n = Some (ret, r') ∧
    (ret = m ∨ ret = m + 2 ^ 31) ∧
    ring_rep r' k (q ++ take (Z.to_nat m) obj) ∧ same_config r r'.
Proof.
  intros Hr Hn m. rewrite (enqueue_burst_eq _ _ _ _ _ Hr).
  destruct (sp_do_enqueue_rep r k q obj n RTE_RING_QUEUE_VARIABLE Hr Hn) as (ret & m' & r' & E & -> & Hr' & Hc).
  pose proof (pow2_bounds k (ok_k _ _ (rep_ok _ _ _ Hr))). pose proof (rep_cap _ _ _ Hr).
  assert (0 <= m < 2 ^ 28) by lia.
  assert (m' = m ∧ (u32 ret = m ∨ u32 ret = m + 2 ^ 31)) as [-> Hret].
  { unfold spec_enqueue in E. revert E. tests; intros [= <- <-]; (split; [lia|]).
    all: try (left; rewrite u32_small by (unfold is_u32; lia); lia).
    all: right; unfold u32; rewrite <- (Z_mod_plus_full _ 1), Z.mod_small; lia. }
  simpl. eauto 10.
Qed.

Lemma dequeue_bulk_rep r k q tbl n :
  ring_rep r k q → 0 <= n <= Z.of_nat (length tbl) →
  ∃ ret m r', spec_dequeue (Z.of_nat (length q)) n RTE_RING_QUEUE_FIXED = (ret, m) ∧
    rte_ring_dequeue_bulk r tbl n = Some (ret, take (Z.to_nat m) q ++ drop (Z.to_nat m) tbl, r') ∧
    ring_rep r' k (drop (Z.to_nat m) q) ∧ same_config r r'.
Proof. intros Hr Hn. rewrite (dequeue_bulk_eq _ _ _ _ _ Hr). by apply sc_do_dequeue_rep. Qed.

Lemma dequeue_burst_rep r k q tbl n :
  ring_rep r k q → 0 <= n <= Z.of_nat (length tbl) →
  let m := Z.min n (Z.of_nat (length q)) in
  ∃ r', rte_ring_dequeue_burst r tbl n
        = Some (m, take (Z.to_nat m) q ++ drop (Z.to_nat m) tbl, r') ∧
    ring_rep r' k (drop (Z.to_nat m) q) ∧ same_config r r'.
Proof.
  intros Hr Hn m. rewrite (dequeue_burst_eq _ _ _ _ _ Hr).
  destruct (sc_do_dequeue_rep r k q tbl n RTE_RING_QUEUE_VARIABLE Hr Hn) as (ret & m' & r' & E & -> & Hr' & Hc).
  unfold spec_dequeue in E. injection E as <- <-. simpl.
  pose proof (pow2_bounds k (ok_k _ _ (rep_ok _ _ _ Hr))). pose proof (rep_cap _ _ _ Hr).
  rewrite u32_small by (unfold is_u32; lia). eauto.
Qed.

(** ** Programs over one ring

    [run_op] runs one call and reports the objects the ring accepted and
    the objects the caller received. *)
Inductive ring_op :=
  | Enqueue_bulk (obj : list A) | Enqueue_burst (obj : list A)
  | Dequeue_bulk (tbl : list A) | Dequeue_burst (tbl : list A).

Definition run_op (r : rte_ring A) (o : ring_op) : option (list A * list A * rte_ring A) :=
  match o with
  | Enqueue_bulk obj =>
      '(ret, r') ← rte_ring_enqueue_bulk r obj (Z.of_nat (length obj));
      Some (if ret =? - ENOBUFS then [] else obj, [], r')
  | Enqueue_burst obj =>
      '(ret, r') ← rte_ring_enqueue_burst r obj (Z.of_nat (length obj));
      Some (take (Z.to_nat (Z.land ret RTE_RING_SZ_MASK)) obj, [], r')
  | Dequeue_bulk tbl =>
      '(ret, tbl', r') ← rte_ring_dequeue_bulk r tbl (Z.of_nat (length tbl));
      Some ([], if ret =? 0 then tbl' else [], r')
  | Dequeue_burst tbl =>
      '(ret, tbl', r') ← rte_ring_dequeue_burst r tbl (Z.of_nat (length tbl));
      Some ([], take (Z.to_nat ret) tbl', r')
  end.

Fixpoint run_ops (r : rte_ring A) (os : list ring_op) : option (list A * list A * rte_ring A) :=
  match os with
  | [] => Some ([], [], r)
  | o :: os =>
      '(ins, outs, r) ← run_op r o;
      '(ins', outs', r) ← run_ops r os;
      Some (ins ++ ins', outs ++ outs', r)
  end.

Lemma land_quota m : 0 <= m < 2 ^ 28 →
  Z.land m RTE_RING_SZ_MASK = m ∧ Z.land (m + 2 ^ 31) RTE_RING_SZ_MASK = m.
Proof.
  intros Hm. change RTE_RING_SZ_MASK with (Z.ones 28). rewrite !Z.land_ones by lia.
  split; [apply Z.mod_small; lia|].
  replace (m + 2 ^ 31) with (m + 8 * 2 ^ 28) by lia. rewrite Z_mod_plus_full. apply Z.mod_small. lia.
Qed.

Lemma run_op_rep r k q o : ring_rep r k q →
  ∃ ins outs r' q', run_op r o = Some (ins, outs, r') ∧ ring_rep r' k q' ∧ same_config r r' ∧
    q ++ ins = outs ++ q'.
Proof.
  intros Hr. pose proof (rep_cap _ _ _ Hr) as Hcap.
  pose proof (pow2_bounds k (ok_k _ _ (rep_ok _ _ _ Hr))) as Hp.
  destruct o as [obj|obj|tbl|tbl]; simpl.
  - destruct (enqueue_bulk_rep r k q obj (Z.of_nat (length obj)) Hr) as (ret & m & r' & E & -> & Hr' & Hc); [lia|].
    simpl. do 4 eexists. split; [done|]. split; [exact Hr'|]. split; [done|]. simpl. f_equal.
    unfold spec_enqueue in E. revert E. unfold ENOBUFS, EDQUOT.
    repeat case_match; intros [= <- <-]; tests; rewrite ?Nat2Z.id, ?firstn_all; done || lia.
  - destruct (enqueue_burst_rep r k q obj (Z.of_nat (length obj)) Hr) as (ret & r' & -> & Hret & Hr' & Hc); [lia|].
    simpl. do 4 eexists. split; [done|]. split; [exact Hr'|]. split; [done|]. simpl. f_equal.
    destruct (land_quota (Z.min (Z.of_nat (length obj)) (2 ^ k - 1 - Z.of_nat (length q)))) as [H1 H2]; [lia|].
    by destruct Hret as [-> | ->]; rewrite ?H1, ?H2.
  - destruct (dequeue_bulk_rep r k q tbl (Z.of_nat (length tbl)) Hr) as (ret & m & r' & E & -> & Hr' & Hc); [lia|].
    simpl. do 4 eexists. split; [done|]. split; [exact Hr'|]. split; [done|].
    rewrite app_nil_r. unfold spec_dequeue in E.
    destruct (Z.leb_spec (Z.of_nat (length tbl)) (Z.of_nat (length q))); injection E as <- <-; simpl; [|done].
    by rewrite Nat2Z.id, drop_all, app_nil_r, take_drop.
  - destruct (dequeue_burst_rep r k q tbl (Z.of_nat (length tbl)) Hr) as (r' & -> & Hr' & Hc); [lia|].
    simpl. do 4 eexists. split; [done|]. split; [exact Hr'|]. split; [done|].
    rewrite app_nil_r. rewrite take_app_le by (rewrite length_take; lia).
    rewrite take_take, Nat.min_id. by rewrite take_drop.
Qed.

(** C6: whatever sequence of bulk and burst enqueues and dequeues runs on a
    ring, single- or multi-producer/consumer, every call returns, no call
    touches memory outside the tables, and the objects dequeued followed by
    those still in the ring are the initial contents followed by the objects
    accepted: nothing is lost, duplicated or reordered, however often the
    32-bit indexes wrap. *)
Theorem ring_fifo r k q os : ring_rep r k q →
  ∃ ins outs r' q', run_ops r os = Some (ins, outs, r') ∧ ring_rep r' k q' ∧ same_config r r' ∧
    q ++ ins = outs ++ q'.
Proof.
  revert r q. induction os as [|o os IH]; intros r q Hr; simpl.
  { exists [], [], r, q. by rewrite app_nil_r. }
  destruct (run_op_rep r k q o Hr) as (ins & outs & r1 & q1 & -> & H1 & Hc1 & E1). simpl.
  destruct (IH r1 q1 H1) as (ins' & outs' & r2 & q2 & -> & H2 & Hc2 & E2). simpl.
  do 4 eexists. split; [done|]. split; [done|]. split; [by etransitivity|].
  by rewrite app_assoc, E1, <- app_assoc, E2, app_assoc.
Qed.
End public.

(** ** Creation, observers and the water mark *)

Lemma POWEROF2_pow x : 0 < x < 2 ^ 32 → POWEROF2 x = true → ∃ k, 0 <= k ∧ x = 2 ^ k.
Proof.
  intros Hx. unfold POWEROF2. rewrite Z.eqb_eq, u32_small by (unfold is_u32; lia). apply land_pred_pow2. lia.
Qed.

Lemma memsize_accepts count : 0 < count < 2 ^ 32 → 0 <= rte_ring_get_memsize count →
  ∃ k, 0 <= k <= 27 ∧ count = 2 ^ k.
Proof.
  intros Hc. unfold rte_ring_get_memsize.
  destruct (POWEROF2 count) eqn:Hp; simpl; [|unfold EINVAL; lia].
  destruct (Z.ltb_spec RTE_RING_SZ_MASK count); [unfold EINVAL; lia|]. intros _.
  destruct (POWEROF2_pow count Hc Hp) as (k & Hk & ->). exists k. split; [|done].
  split; [done|]. apply Z.lt_succ_r. apply (Z.pow_lt_mono_r_iff 2); [lia|lia|].
  unfold RTE_RING_SZ_MASK in *. change (2 ^ Z.succ 27) with 268435456. lia.
Qed.

Section creation.
Context {A : Type}.
Implicit Types (r : rte_ring A) (q obj tbl : list A).

Lemma init_rep k (table : list A) name flags :
  0 <= k <= 27 → Z.of_nat (length table) = 2 ^ k →
  ring_rep (rte_ring_init table name (2 ^ k) flags) k [].
Proof.
  intros Hk Ht. pose proof (pow2_bounds k Hk). split; simpl; try done; [|lia].
  split; simpl; try done; try lia; rewrite u32_small by (unfold is_u32; lia); done.
Qed.

(** every size [rte_ring_get_memsize] accepts, other than 0, is a power
    of two, and [rte_ring_init] then makes an empty ring of capacity
    [count - 1] whose operations are single-producer or single-consumer as
    the flags ask, whatever the memory held. *)
Theorem ring_init_ok (table : list A) name count flags :
  0 < count < 2 ^ 32 → 0 <= rte_ring_get_memsize count → Z.of_nat (length table) = count →
  ∃ k, count = 2 ^ k ∧ ring_rep (rte_ring_init table name count flags) k [] ∧
    (sp_enqueue (rprod (rte_ring_init table name count flags)) = 0 ↔ Z.land flags RING_F_SP_ENQ = 0) ∧
    (sc_dequeue (rcons (rte_ring_init table name count flags)) = 0 ↔ Z.land flags RING_F_SC_DEQ = 0).
Proof.
  intros Hc Hm Ht. destruct (memsize_accepts count Hc Hm) as (k & Hk & ->).
  exists k. split; [done|]. split; [by apply init_rep|]. unfold rte_ring_init, c_bool. simpl.
  destruct (Z.eqb_spec (Z.land flags RING_F_SP_ENQ) 0), (Z.eqb_spec (Z.land flags RING_F_SC_DEQ) 0).
  all: simpl; lia.
Qed.

(** [rte_ring_get_memsize] takes 0 for a power of two; the ring that
    [rte_ring_init] then makes has no slot but a free count of [2^32 - 1],
    and enqueueing one object on it writes outside the table. *)
Theorem ring_zero_count name flags (x : A) :
  rte_ring_get_memsize 0 = sizeof_rte_ring ∧
  rte_ring_free_count (rte_ring_init [] name 0 flags : rte_ring A) = 2 ^ 32 - 1 ∧
  rte_ring_enqueue_bulk (rte_ring_init [] name 0 flags) [x] 1 = None.
Proof.
  split; [done|]. split; [done|].
  unfold rte_ring_enqueue_bulk. simpl sp_enqueue.
  by destruct (negb (Z.land flags RING_F_SP_ENQ =? 0)).
Qed.

Lemma ring_count_rep r k q : ring_rep r k q → rte_ring_count r = Z.of_nat (length q).
Proof.
  intros Hr. pose proof (rep_ok _ _ _ Hr) as Hok. pose proof (ok_k _ _ Hok). pose proof (rep_cap _ _ _ Hr).
  unfold rte_ring_count. rewrite (ok_pmask _ _ Hok), land_mask, (rep_len _ _ _ Hr) by lia. apply Z.mod_small. lia.
Qed.

(** on a ring holding [q] the observers agree with it: the entry count
    is its length, the free count the rest of the capacity, and the full and
    empty tests are exact. *)
Theorem ring_observers r k q : ring_rep r k q →
  rte_ring_count r = Z.of_nat (length q) ∧
  rte_ring_free_count r = 2 ^ k - 1 - Z.of_nat (length q) ∧
  (rte_ring_empty r = 1 ↔ q = []) ∧
  (rte_ring_full r = 1 ↔ Z.of_nat (length q) = 2 ^ k - 1).
Proof.
  intros Hr. pose proof (rep_ok _ _ _ Hr) as Hok. pose proof (rep_cap _ _ _ Hr) as Hc.
  pose proof (pow2_bounds k (ok_k _ _ Hok)) as Hp. pose proof (ok_k _ _ Hok) as Hk.
  assert (Hfree : Z.land (u32 (cons_tail (rcons r) - prod_tail (rprod r) - 1)) (prod_mask (rprod r))
                  = 2 ^ k - 1 - Z.of_nat (length q)).
  { rewrite (ok_pmask _ _ Hok), land_mask by lia.
    rewrite u32_mod_pow2 by lia.
    replace (cons_tail (rcons r) - prod_tail (rprod r) - 1)
      with (- (1 + (prod_tail (rprod r) - cons_tail (rcons r)))) by lia.
    rewrite <- (u32_mod_pow2 _ k) by lia. unfold u32.
    rewrite <- Z.sub_0_l, <- Zminus_mod_idemp_r. fold (u32 (1 + (prod_tail (rprod r) - cons_tail (rcons r)))).
    rewrite <- u32_add_r, (rep_len _ _ _ Hr), u32_small by (unfold is_u32; lia).
    fold (u32 (0 - (1 + Z.of_nat (length q)))). rewrite u32_mod_pow2 by lia.
    rewrite <- (Z_mod_plus_full _ 1), Z.mod_small; lia. }
  unfold rte_ring_free_count, rte_ring_empty, rte_ring_full. rewrite Hfree.
  split_and!; [by eapply ring_count_rep|done|..].
  - pose proof (rep_len _ _ _ Hr) as Hl. unfold c_bool. tests.
    + split; [intros _|done]. replace (_ - _) with 0 in Hl by lia. by destruct q.
    + split; [done|]. intros ->. pose proof (rep_ptail _ _ _ Hr) as E. simpl in E.
      rewrite Z.add_0_r, u32_small in E by apply Hok. lia.
  - unfold c_bool. tests; split; lia.
Qed.
End creation.

(** ** The ring as a [BurstQueue] *)

(** A failing bulk operation leaves the ring as it was. *)
Lemma enqueue_bulk_fails {A} (r : rte_ring A) k q obj n :
  ring_rep r k q → 0 <= n <= Z.of_nat (length obj) → 2 ^ k - 1 - Z.of_nat (length q) < n →
  rte_ring_enqueue_bulk r obj n = Some (- ENOBUFS, r).
Proof.
  intros Hr Hn Hlt. rewrite (enqueue_bulk_eq _ _ _ _ _ Hr). unfold rte_ring_sp_do_enqueue.
  rewrite (rep_free _ _ _ Hr), (proj2 (Z.ltb_lt _ _)) by lia. done.
Qed.
Lemma dequeue_bulk_fails {A} (r : rte_ring A) k q tbl n :
  ring_rep r k q → 0 <= n <= Z.of_nat (length tbl) → Z.of_nat (length q) < n →
  rte_ring_dequeue_bulk r tbl n = Some (- ENOENT, tbl, r).
Proof.
  intros Hr Hn Hlt. rewrite (dequeue_bulk_eq _ _ _ _ _ Hr). unfold rte_ring_sc_do_dequeue.
  rewrite (rep_entries _ _ _ Hr), (proj2 (Z.ltb_lt _ _)) by lia. done.
Qed.

(** In a ring at rest the multi- and the single-thread code do the same. *)
Definition enqueue_bulk_by {A} (multi : bool) (r : rte_ring A) (obj : list A) (n : Z) : option (Z * rte_ring A) :=
  if multi then rte_ring_mp_enqueue_bulk r obj n else rte_ring_sp_enqueue_bulk r obj n.
Definition dequeue_bulk_by {A} (multi : bool) (r : rte_ring A) (tbl : list A) (n : Z) : option (Z * list A * rte_ring A) :=
  if multi then rte_ring_mc_dequeue_bulk r tbl n else rte_ring_sc_dequeue_bulk r tbl n.
Lemma enqueue_bulk_by_eq {A} multi (r : rte_ring A) k q obj n : ring_rep r k q →
  enqueue_bulk_by multi r obj n = rte_ring_enqueue_bulk r obj n.
Proof.
  intros Hr. rewrite (enqueue_bulk_eq _ _ _ _ _ Hr). unfold enqueue_bulk_by, rte_ring_mp_enqueue_bulk, attempts.
  destruct multi; [by rewrite mp_enqueue_eq_sp by apply Hr|done].
Qed.
Lemma dequeue_bulk_by_eq {A} multi (r : rte_ring A) k q tbl n : ring_rep r k q →
  dequeue_bulk_by multi r tbl n = rte_ring_dequeue_bulk r tbl n.
Proof.
  intros Hr. rewrite (dequeue_bulk_eq _ _ _ _ _ Hr). unfold dequeue_bulk_by, rte_ring_mc_dequeue_bulk, attempts.
  destruct multi; [by rewrite mc_dequeue_eq_sc by apply Hr|done].
Qed.

#[export] Instance ring_queue {A} : BurstQueue (rte_ring A) A.
Proof.
  refine {| bq_rep r cap q := ∃ k, cap = 2 ^ k - 1 ∧ ring_rep r k q;
            bq_flags := rflags;
            bq_enqueue_burst := rte_ring_enqueue_burst; bq_dequeue_burst := rte_ring_dequeue_burst;
            bq_enqueue_bulk := enqueue_bulk_by; bq_dequeue_bulk := dequeue_bulk_by;
            bq_count := rte_ring_count |}.
  - intros s cap q (k & -> & Hr). pose proof (rep_cap _ _ _ Hr).
    pose proof (pow2_bounds k (ok_k _ _ (rep_ok _ _ _ Hr))). lia.
  - intros s cap q (k & _ & Hr). by eapply ring_count_rep.
  - intros s cap q obj n (k & -> & Hr) Hn m.
    destruct (enqueue_burst_rep s k q obj n Hr Hn) as (ret & s' & E & Hret & Hr' & Hc).
    exists ret, s'. split; [done|]. split; [done|]. split; [by exists k|apply Hc].
  - intros s cap q tbl n (k & -> & Hr) Hn m.
    destruct (dequeue_burst_rep s k q tbl n Hr Hn) as (s' & E & Hr' & Hc).
    exists s'. split; [done|]. split; [by exists k|apply Hc].
  - intros multi s cap q obj n (k & -> & Hr) Hn. rewrite (enqueue_bulk_by_eq _ _ k q) by done.
    destruct (enqueue_bulk_rep s k q obj n Hr Hn) as (ret & m & s' & E & E' & Hr' & Hc).
    unfold spec_enqueue in E. destruct (Z.leb_spec n (2 ^ k - 1 - Z.of_nat (length q))).
    + exists ret, s'. split; [done|]. injection E as <- <-.
      split; [case_match; auto|]. split; [by exists k|apply Hc].
    + by eapply enqueue_bulk_fails.
  - intros multi s cap q tbl n (k & -> & Hr) Hn. rewrite (dequeue_bulk_by_eq _ _ k q) by done.
    destruct (dequeue_bulk_rep s k q tbl n Hr Hn) as (ret & m & s' & E & E' & Hr' & Hc).
    unfold spec_dequeue in E. destruct (Z.leb_spec n (Z.of_nat (length q))).
    + injection E as <- <-. exists s'. split; [done|]. split; [by exists k|apply Hc].
    + by eapply dequeue_bulk_fails.
Defined.

(** ** The water mark *)

Section watermarks.
Context {A : Type}.
Implicit Types (r : rte_ring A) (q obj : list A).

(** [rte_ring_set_water_mark] refuses a count of the ring's size or more
    and otherwise keeps the contents; afterwards a bulk enqueue that fits
    reports [-EDQUOT] exactly when the entries reach the count, and never
    after a count of 0. *)
Theorem ring_water_mark r k q count obj n :
  ring_rep r k q → 0 <= count → 0 <= n <= Z.of_nat (length obj) →
  n <= 2 ^ k - 1 - Z.of_nat (length q) →
  let '(ret, r') := rte_ring_set_water_mark r count in
  (2 ^ k <= count → ret = - EINVAL ∧ r' = r) ∧
  (count < 2 ^ k → ret = 0 ∧ ring_rep r' k q ∧
     ∃ ret' r'', rte_ring_enqueue_bulk r' obj n = Some (ret', r'') ∧
       ring_rep r'' k (q ++ take (Z.to_nat n) obj) ∧
       ret' = if (0 <? count) && (count <=? Z.of_nat (length q) + n) then - EDQUOT else 0).
Proof.
  intros Hr Hc Hn Hfit. pose proof (rep_ok _ _ _ Hr) as Hok. unfold rte_ring_set_water_mark.
  rewrite (ok_psize _ _ Hok). destruct (Z.leb_spec (2 ^ k) count); [split; [done|lia]|].
  split; [lia|]. intros _. split; [done|].
  set (wm := if count =? 0 then 2 ^ k else count).
  pose proof (pow2_bounds k (ok_k _ _ Hok)). pose proof (rep_cap _ _ _ Hr).
  set (r' := Rte_ring _ _ _ _ _ _).
  assert (Hr' : ring_rep r' k q).
  { destruct Hr as [Hok' ? ? ?]. split; simpl; try done. destruct Hok'. split; simpl; try done.
    unfold wm. tests; lia. }
  split; [done|].
  destruct (enqueue_bulk_rep r' k q obj n Hr' Hn) as (ret & m & r'' & E & E' & Hr'' & _).
  exists ret, r''. split; [done|]. unfold spec_enqueue in E. rewrite (proj2 (Z.leb_le _ _)) in E by lia.
  injection E as <- <-. split; [done|]. simpl. unfold wm. destruct (Z.eqb_spec count 0) as [->|].
  - simpl. tests; [done|lia].
  - destruct (Z.ltb_spec 0 count), (Z.leb_spec count (Z.of_nat (length q) + n)); simpl; tests; done || lia.
Qed.
End watermarks.

(** ** Witnesses: a ring whose indexes are about to wrap *)

Definition wrap_ring : rte_ring Z :=
  {| rname := "MProc_Ring_0"; rflags := 3; rmemzone := Some 0;
     rprod := Prod 4 1 4 3 (2 ^ 32 - 1) (2 ^ 32 - 1);
     rcons := Cons 1 4 3 (2 ^ 32 - 2) (2 ^ 32 - 2);
     rtable := [0; 0; 7; 0] |}.

Lemma wrap_ring_rep : ring_rep wrap_ring 2 [7].
Proof.
  split; [by split|done..|]. intros [|[|j]] x; simpl; intros [= <-]. done.
Qed.

Lemma ring_fifo_witness : ∃ ins outs r' q',
  run_ops wrap_ring [Enqueue_burst [1; 2; 3]; Dequeue_burst [0; 0]] = Some (ins, outs, r') ∧
  ring_rep r' 2 q' ∧ same_config wrap_ring r' ∧ [7] ++ ins = outs ++ q'.
Proof. apply (ring_fifo wrap_ring 2 [7]). exact wrap_ring_rep. Defined.

Lemma ring_init_ok_witness : ∃ k, 8 = 2 ^ k ∧
  ring_rep (rte_ring_init (replicate 8 0) "HSM_Ring_0" 8 3) k [] ∧
  (sp_enqueue (rprod (rte_ring_init (replicate 8 0) "HSM_Ring_0" 8 3)) = 0 ↔ Z.land 3 RING_F_SP_ENQ = 0) ∧
  (sc_dequeue (rcons (rte_ring_init (replicate 8 0) "HSM_Ring_0" 8 3)) = 0 ↔ Z.land 3 RING_F_SC_DEQ = 0).
Proof. apply (ring_init_ok (replicate 8 0) "HSM_Ring_0" 8 3); [lia|vm_compute; congruence|reflexivity]. Defined.

Lemma ring_observers_witness :
  rte_ring_count wrap_ring = 1 ∧ rte_ring_free_count wrap_ring = 2 ^ 2 - 1 - 1 ∧
  (rte_ring_empty wrap_ring = 1 ↔ [7] = []) ∧ (rte_ring_full wrap_ring = 1 ↔ 1 = 2 ^ 2 - 1).
Proof. apply (ring_observers wrap_ring 2 [7]). exact wrap_ring_rep. Defined.

Lemma ring_water_mark_witness :
  let '(ret, r') := rte_ring_set_water_mark wrap_ring 2 in
  (2 ^ 2 <= 2 → ret = - EINVAL ∧ r' = wrap_ring) ∧
  (2 < 2 ^ 2 → ret = 0 ∧ ring_rep r' 2 [7] ∧
     ∃ ret' r'', rte_ring_enqueue_bulk r' [1] 1 = Some (ret', r'') ∧
       ring_rep r'' 2 ([7] ++ take (Z.to_nat 1) [1]) ∧
       ret' = if (0 <? 2) && (2 <=? Z.of_nat (length [7]) + 1) then - EDQUOT else 0).
Proof. apply (ring_water_mark wrap_ring 2 [7] 2 [1] 1); [exact wrap_ring_rep|simpl; lia..]. Defined.
