(* ===== verification/RingConc.v ===== *)
(** * librte_ring under concurrency

    Producers and consumers on one ring, interleaved at the level of single
    accesses to the shared structure, as the two multi-process peers of a
    patch run them: [__rte_ring_mp_do_enqueue], [__rte_ring_sp_do_enqueue],
    [__rte_ring_mc_do_dequeue] and [__rte_ring_sc_do_dequeue]
    ([lib/librte_ring/rte_ring.h]). Memory is sequentially consistent, as the
    barriers and the x86 ordering of loads and of stores make it for these
    accesses. The copy of a burst is one access per slot, in the order
    [PTRS_run] shows the copy macros to have.

    The head and tail counters of the model are unwrapped; the memory cell
    holds their image under [u32], and every test and every computation of the
    code is made on that image. The log of reserved objects and the events are
    auxiliary too: no step looks at them. *)
From S2P Require Import Prelude CStr BurstQueue Ring RingSpec.

Section ring.
Context {A : Type}.
(** The ring has [2^k] slots and a water mark; [sp] and [sc] are its flags. *)
Variables (k wm : Z) (sp sc : bool).

Definition size : Z := 2 ^ k.
Definition mask : Z := size - 1.
Definition slot (p : Z) : nat := Z.to_nat (p mod size).

(** ** Threads

    A thread runs one call; its state is its program counter with the local
    variables that are live there. *)
Inductive tstate :=
  (* enqueue: at the loop head; [prod_head] read; before the compare-and-set;
     [i] objects stored; waiting for [prod.tail]; before its store; returned *)
  | PStart (obj : list A) (max : Z) (b : rte_ring_queue_behavior)
  | PHead (obj : list A) (max : Z) (b : rte_ring_queue_behavior) (h : Z)
  | PCas (obj : list A) (max : Z) (b : rte_ring_queue_behavior) (h n free : Z)
  | PCopy (obj : list A) (b : rte_ring_queue_behavior) (h n free i : Z)
  | PWait (obj : list A) (b : rte_ring_queue_behavior) (h n ret : Z)
  | PPublish (obj : list A) (b : rte_ring_queue_behavior) (h n ret : Z)
  | PDone (ret n : Z) (obj : list A)
  (* dequeue, likewise; [n] of [PDone] and [CDone] is the number of objects moved *)
  | CStart (tbl : list A) (max : Z) (b : rte_ring_queue_behavior)
  | CHead (tbl : list A) (max : Z) (b : rte_ring_queue_behavior) (h : Z)
  | CCas (tbl : list A) (max : Z) (b : rte_ring_queue_behavior) (h n : Z)
  | CCopy (tbl : list A) (b : rte_ring_queue_behavior) (h n i : Z)
  | CWait (tbl : list A) (b : rte_ring_queue_behavior) (h n : Z)
  | CPublish (tbl : list A) (b : rte_ring_queue_behavior) (h n : Z)
  | CDone (ret n : Z) (tbl : list A).

Record state := St {
  ph : Z; pt : Z; ch : Z; ct : Z;      (* producer and consumer head and tail *)
  slots : list A; log : list A;        (* r->ring, and the objects reserved so far *)
  threads : gmap nat tstate }.

(** What a step does to the abstract queue. *)
Inductive event :=
  | Tau
  | Enq (t : nat) (xs : list A) | EnqFail (t : nat) (n : Z)
  | Deq (t : nat) (xs : list A) | DeqFail (t : nat) (n : Z).

(** The test for room, and the test for entries: an early return value, or
    the number of objects to move. *)
Definition p_decide (free max : Z) (b : rte_ring_queue_behavior) : Z + Z :=
  if free <? max then
    match b with
    | RTE_RING_QUEUE_FIXED => inl (- ENOBUFS)
    | RTE_RING_QUEUE_VARIABLE => if free =? 0 then inl 0 else inr free
    end
  else inr max.
Definition c_decide (entries max : Z) (b : rte_ring_queue_behavior) : Z + Z :=
  if entries <? max then
    match b with
    | RTE_RING_QUEUE_FIXED => inl (- ENOENT)
    | RTE_RING_QUEUE_VARIABLE => if entries =? 0 then inl 0 else inr entries
    end
  else inr max.

(** The least number of objects a call asks for. *)
Definition needed (max : Z) (b : rte_ring_queue_behavior) : Z :=
  match b with RTE_RING_QUEUE_FIXED => max | RTE_RING_QUEUE_VARIABLE => 1 end.

Inductive step : state → event → state → Prop :=
  (* prod_head = r->prod.head *)
  | step_phead ph pt ch ct sl lg th t obj max b :
      th !! t = Some (PStart obj max b) →
      step (St ph pt ch ct sl lg th) Tau (St ph pt ch ct sl lg (<[t := PHead obj max b ph]> th))
  (* cons_tail = r->cons.tail; free_entries = mask + cons_tail - prod_head; the test *)
  | step_pfull ph pt ch ct sl lg th t obj max b h ret :
      th !! t = Some (PHead obj max b h) →
      p_decide (u32 (mask + u32 ct - u32 h)) max b = inl ret →
      step (St ph pt ch ct sl lg th) (EnqFail t (needed max b)) (St ph pt ch ct sl lg (<[t := PDone ret 0 obj]> th))
  | step_proom ph pt ch ct sl lg th t obj max b h n :
      th !! t = Some (PHead obj max b h) →
      p_decide (u32 (mask + u32 ct - u32 h)) max b = inr n →
      step (St ph pt ch ct sl lg th) Tau
           (St ph pt ch ct sl lg (<[t := PCas obj max b h n (u32 (mask + u32 ct - u32 h))]> th))
  (* rte_atomic32_cmpset(&r->prod.head, prod_head, prod_next) *)
  | step_pcas_ok ph pt ch ct sl lg th t obj max b h n free :
      sp = false → th !! t = Some (PCas obj max b h n free) → u32 ph = u32 h →
      step (St ph pt ch ct sl lg th) Tau
           (St (ph + n) pt ch ct sl (lg ++ take (Z.to_nat n) obj) (<[t := PCopy obj b h n free 0]> th))
  | step_pcas_fail ph pt ch ct sl lg th t obj max b h n free :
      sp = false → th !! t = Some (PCas obj max b h n free) → u32 ph ≠ u32 h →
      step (St ph pt ch ct sl lg th) Tau (St ph pt ch ct sl lg (<[t := PStart obj max b]> th))
  (* single producer: r->prod.head = prod_next *)
  | step_pstore ph pt ch ct sl lg th t obj max b h n free :
      sp = true → th !! t = Some (PCas obj max b h n free) →
      step (St ph pt ch ct sl lg th) Tau
           (St (h + n) pt ch ct sl (take (Z.to_nat h) lg ++ take (Z.to_nat n) obj)
               (<[t := PCopy obj b h n free 0]> th))
  (* r->ring[(prod_head + i) & mask] = obj_table[i] *)
  | step_pcopy ph pt ch ct sl lg th t obj b h n free i x :
      th !! t = Some (PCopy obj b h n free i) → i < n → obj !! Z.to_nat i = Some x →
      (slot (u32 h + i) < length sl)%nat →
      step (St ph pt ch ct sl lg th) Tau
           (St ph pt ch ct (<[slot (u32 h + i) := x]> sl) lg (<[t := PCopy obj b h n free (i + 1)]> th))
  (* the return value; the multi-producer code goes on to wait *)
  | step_pcopied ph pt ch ct sl lg th t obj b h n free i :
      th !! t = Some (PCopy obj b h n free i) → n <= i →
      step (St ph pt ch ct sl lg th) Tau
           (St ph pt ch ct sl lg
              (<[t := (if sp then PPublish else PWait) obj b h n (enqueue_ret mask free n wm b)]> th))
  (* while (r->prod.tail != prod_head) *)
  | step_pspin ph pt ch ct sl lg th t obj b h n ret :
      th !! t = Some (PWait obj b h n ret) → u32 pt ≠ u32 h →
      step (St ph pt ch ct sl lg th) Tau (St ph pt ch ct sl lg th)
  | step_pturn ph pt ch ct sl lg th t obj b h n ret :
      th !! t = Some (PWait obj b h n ret) → u32 pt = u32 h →
      step (St ph pt ch ct sl lg th) Tau (St ph pt ch ct sl lg (<[t := PPublish obj b h n ret]> th))
  (* r->prod.tail = prod_next *)
  | step_ppublish ph pt ch ct sl lg th t obj b h n ret :
      th !! t = Some (PPublish obj b h n ret) →
      step (St ph pt ch ct sl lg th) (Enq t (take (Z.to_nat n) obj))
           (St ph (h + n) ch ct sl lg (<[t := PDone ret n obj]> th))

  (* cons_head = r->cons.head *)
  | step_chead ph pt ch ct sl lg th t tbl max b :
      th !! t = Some (CStart tbl max b) →
      step (St ph pt ch ct sl lg th) Tau (St ph pt ch ct sl lg (<[t := CHead tbl max b ch]> th))
  (* prod_tail = r->prod.tail; entries = prod_tail - cons_head; the test *)
  | step_cempty ph pt ch ct sl lg th t tbl max b h ret :
      th !! t = Some (CHead tbl max b h) →
      c_decide (u32 (u32 pt - u32 h)) max b = inl ret →
      step (St ph pt ch ct sl lg th) (DeqFail t (needed max b))
           (St ph pt ch ct sl lg (<[t := CDone ret 0 tbl]> th))
  | step_cfound ph pt ch ct sl lg th t tbl max b h n :
      th !! t = Some (CHead tbl max b h) →
      c_decide (u32 (u32 pt - u32 h)) max b = inr n →
      step (St ph pt ch ct sl lg th) Tau (St ph pt ch ct sl lg (<[t := CCas tbl max b h n]> th))
  (* rte_atomic32_cmpset(&r->cons.head, cons_head, cons_next) *)
  | step_ccas_ok ph pt ch ct sl lg th t tbl max b h n :
      sc = false → th !! t = Some (CCas tbl max b h n) → u32 ch = u32 h →
      step (St ph pt ch ct sl lg th) (Deq t (take (Z.to_nat n) (drop (Z.to_nat ch) lg)))
           (St ph pt (ch + n) ct sl lg (<[t := CCopy tbl b h n 0]> th))
  | step_ccas_fail ph pt ch ct sl lg th t tbl max b h n :
      sc = false → th !! t = Some (CCas tbl max b h n) → u32 ch ≠ u32 h →
      step (St ph pt ch ct sl lg th) Tau (St ph pt ch ct sl lg (<[t := CStart tbl max b]> th))
  (* single consumer: r->cons.head = cons_next *)
  | step_cstore ph pt ch ct sl lg th t tbl max b h n :
      sc = true → th !! t = Some (CCas tbl max b h n) →
      step (St ph pt ch ct sl lg th) (Deq t (take (Z.to_nat n) (drop (Z.to_nat ch) lg)))
           (St ph pt (h + n) ct sl lg (<[t := CCopy tbl b h n 0]> th))
  (* obj_table[i] = r->ring[(cons_head + i) & mask] *)
  | step_ccopy ph pt ch ct sl lg th t tbl b h n i x :
      th !! t = Some (CCopy tbl b h n i) → i < n → sl !! slot (u32 h + i) = Some x →
      (Z.to_nat i < length tbl)%nat →
      step (St ph pt ch ct sl lg th) Tau
           (St ph pt ch ct sl lg (<[t := CCopy (<[Z.to_nat i := x]> tbl) b h n (i + 1)]> th))
  | step_ccopied ph pt ch ct sl lg th t tbl b h n i :
      th !! t = Some (CCopy tbl b h n i) → n <= i →
      step (St ph pt ch ct sl lg th) Tau
           (St ph pt ch ct sl lg (<[t := (if sc then CPublish else CWait) tbl b h n]> th))
  (* while (r->cons.tail != cons_head) *)
  | step_cspin ph pt ch ct sl lg th t tbl b h n :
      th !! t = Some (CWait tbl b h n) → u32 ct ≠ u32 h →
      step (St ph pt ch ct sl lg th) Tau (St ph pt ch ct sl lg th)
  | step_cturn ph pt ch ct sl lg th t tbl b h n :
      th !! t = Some (CWait tbl b h n) → u32 ct = u32 h →
      step (St ph pt ch ct sl lg th) Tau (St ph pt ch ct sl lg (<[t := CPublish tbl b h n]> th))
  (* r->cons.tail = cons_next *)
  | step_cpublish ph pt ch ct sl lg th t tbl b h n :
      th !! t = Some (CPublish tbl b h n) →
      step (St ph pt ch ct sl lg th) Tau
           (St ph pt ch (h + n) sl lg
              (<[t := CDone (match b with RTE_RING_QUEUE_FIXED => 0 | RTE_RING_QUEUE_VARIABLE => n end)
                            n tbl]> th)).

(** ** Executions *)

(** Where a call is between reading a head index and moving it, and the slots
    a call has reserved. *)
Definition p_loop (st : tstate) : option Z :=
  match st with PHead _ _ _ h | PCas _ _ _ h _ _ => Some h | _ => None end.
Definition c_loop (st : tstate) : option Z :=
  match st with CHead _ _ _ h | CCas _ _ _ h _ => Some h | _ => None end.
Definition p_resv (st : tstate) : option (Z * Z) :=
  match st with PCopy _ _ h n _ _ | PWait _ _ h n _ | PPublish _ _ h n _ => Some (h, n) | _ => None end.
Definition c_resv (st : tstate) : option (Z * Z) :=
  match st with CCopy _ _ h n _ | CWait _ _ h n | CPublish _ _ h n => Some (h, n) | _ => None end.
Definition p_active (st : tstate) : Prop := is_Some (p_loop st) ∨ is_Some (p_resv st).
Definition c_active (st : tstate) : Prop := is_Some (c_loop st) ∨ is_Some (c_resv st).

(** What the callers and the scheduler owe the ring. No call sleeps between
    reading a head index and moving it while [2^31] objects go by (the
    compare-and-set on a 32-bit index could not tell); and a ring created
    single-producer (single-consumer) has one producer (consumer) at a time. *)
Record used_properly (s : state) : Prop := {
  p_fresh : ∀ t st h, threads s !! t = Some st → p_loop st = Some h → ph s - h < 2 ^ 31;
  c_fresh : ∀ t st h, threads s !! t = Some st → c_loop st = Some h → ch s - h < 2 ^ 31;
  p_single : sp = true → ∀ t t' st st', threads s !! t = Some st → threads s !! t' = Some st' →
    p_active st → p_active st' → t = t';
  c_single : sc = true → ∀ t t' st st', threads s !! t = Some st → threads s !! t' = Some st' →
    c_active st → c_active st' → t = t' }.

(** Threads start with a table of the objects they move, at least one. *)
Definition starting (st : tstate) : Prop :=
  match st with
  | PStart l max _ | CStart l max _ => 0 < max <= Z.of_nat (length l)
  | _ => False
  end.

(** The calls that are made, by thread. *)
Variable (calls : gmap nat tstate).

Inductive exec : state → list event → Prop :=
  | exec_init sl :
      Z.of_nat (length sl) = size → (∀ t st, calls !! t = Some st → starting st) →
      exec (St 0 0 0 0 sl [] calls) []
  | exec_step s tr e s' :
      exec s tr → step s e s' → used_properly s' → exec s' (tr ++ [e]).

(** ** The invariant *)

Hypothesis Hk : 0 <= k <= 27.

Lemma size_bounds : 0 < size <= 134217728.
Proof. apply pow2_bounds, Hk. Qed.

Lemma slot_u32 h i : slot (u32 h + i) = slot (h + i).
Proof.
  unfold slot, size. rewrite <- (Zplus_mod_idemp_l (u32 h)), u32_mod_pow2 by lia.
  by rewrite Zplus_mod_idemp_l.
Qed.

Lemma slot_ne p p' : p ≠ p' → - size < p - p' < size → slot p ≠ slot p'.
Proof.
  intros Hne Hd E. pose proof size_bounds. unfold slot in E.
  apply Z2Nat.inj in E; try (apply Z.mod_pos_bound; lia).
  apply Hne, (slot_inj size 0 p p'); rewrite ?Z.add_0_l; lia.
Qed.

Lemma slot_in (sl : list A) p : Z.of_nat (length sl) = size → (slot p < length sl)%nat.
Proof.
  intros Hl. pose proof size_bounds. unfold slot.
  pose proof (Z.mod_pos_bound p size ltac:(lia)). lia.
Qed.

(** A reservation of [n] slots from [h]: it lies in front of the published
    (released) part, and its first [i] objects are copied. *)
Definition p_held (s : state) (obj : list A) (h n i : Z) : Prop :=
  pt s <= h ∧ 0 < n <= Z.of_nat (length obj) ∧ h + n <= ph s ∧ 0 <= i <= n ∧
  (∀ j, 0 <= j < n → log s !! Z.to_nat (h + j) = obj !! Z.to_nat j) ∧
  (∀ j, 0 <= j < i → slots s !! slot (h + j) = log s !! Z.to_nat (h + j)).
Definition c_held (s : state) (tbl : list A) (h n i : Z) : Prop :=
  ct s <= h ∧ 0 < n <= Z.of_nat (length tbl) ∧ h + n <= ch s ∧ 0 <= i <= n ∧
  (∀ j, 0 <= j < i → tbl !! Z.to_nat j = log s !! Z.to_nat (h + j)).

Definition tinv (s : state) (st : tstate) : Prop :=
  match st with
  | PStart obj max _ => 0 < max <= Z.of_nat (length obj)
  | PHead obj max _ h =>
      0 < max <= Z.of_nat (length obj) ∧ 0 <= h <= ph s ∧ (sp = true → h = ph s)
  | PCas obj max _ h n _ =>
      0 < max <= Z.of_nat (length obj) ∧ 0 < n <= max ∧ 0 <= h <= ph s ∧
      (h = ph s → h + n <= ct s + mask) ∧ (sp = true → h = ph s)
  | PCopy obj _ h n _ i => p_held s obj h n i
  | PWait obj _ h n _ => p_held s obj h n n
  | PPublish obj _ h n _ => p_held s obj h n n ∧ h = pt s
  | PDone _ _ _ => True
  | CStart tbl max _ => 0 < max <= Z.of_nat (length tbl)
  | CHead tbl max _ h =>
      0 < max <= Z.of_nat (length tbl) ∧ 0 <= h <= ch s ∧ (sc = true → h = ch s)
  | CCas tbl max _ h n =>
      0 < max <= Z.of_nat (length tbl) ∧ 0 < n <= max ∧ 0 <= h <= ch s ∧
      (h = ch s → h + n <= pt s) ∧ (sc = true → h = ch s)
  | CCopy tbl _ h n i => c_held s tbl h n i
  | CWait tbl _ h n => c_held s tbl h n n
  | CPublish tbl _ h n => c_held s tbl h n n ∧ h = ct s
  | CDone _ _ _ => True
  end.

Definition disjoint (resv : tstate → option (Z * Z)) (th : gmap nat tstate) : Prop :=
  ∀ t t' st st' h n h' n', t ≠ t' → th !! t = Some st → th !! t' = Some st' →
    resv st = Some (h, n) → resv st' = Some (h', n') → h + n <= h' ∨ h' + n' <= h.
Definition covered (resv : tstate → option (Z * Z)) (th : gmap nat tstate) (lo hi : Z) : Prop :=
  ∀ p, lo <= p < hi → ∃ t st h n, th !! t = Some st ∧ resv st = Some (h, n) ∧ h <= p < h + n.

Record inv (s : state) : Prop := {
  inv_idx : 0 <= ct s ∧ ct s <= ch s ∧ ch s <= pt s ∧ pt s <= ph s ∧ ph s <= ct s + mask;
  inv_log : Z.of_nat (length (log s)) = ph s;
  inv_slots : Z.of_nat (length (slots s)) = size;
  inv_data : ∀ p, ct s <= p < pt s → slots s !! slot p = log s !! Z.to_nat p;
  inv_thr : ∀ t st, threads s !! t = Some st → tinv s st;
  inv_pdisj : disjoint p_resv (threads s);
  inv_pcover : covered p_resv (threads s) (pt s) (ph s);
  inv_cdisj : disjoint c_resv (threads s);
  inv_ccover : covered c_resv (threads s) (ct s) (ch s) }.

(** *** Frame lemmas: one thread's state changes *)

Lemma disjoint_upd resv th t st' :
  disjoint resv th →
  (∀ h n, resv st' = Some (h, n) → ∀ t' st h' n', t' ≠ t → th !! t' = Some st →
     resv st = Some (h', n') → h + n <= h' ∨ h' + n' <= h) →
  disjoint resv (<[t := st']> th).
Proof.
  intros Hd Hnew t1 t2 s1 s2 h1 n1 h2 n2 Hne H1 H2 R1 R2.
  apply lookup_insert_Some in H1 as [[<- <-]|[N1 H1]];
  apply lookup_insert_Some in H2 as [[<- <-]|[N2 H2]]; [done| | |by apply (Hd t1 t2 s1 s2)].
  - destruct (Hnew _ _ R1 t2 s2 h2 n2); auto.
  - destruct (Hnew _ _ R2 t1 s1 h1 n1); auto.
Qed.

Lemma disjoint_same resv th t st st' :
  disjoint resv th → th !! t = Some st → (∀ r, resv st' = Some r → resv st = Some r) →
  disjoint resv (<[t := st']> th).
Proof.
  intros Hd Ht Hr. apply disjoint_upd; [done|]. intros h n R t' s2 h' n' Hne H2 R2.
  eapply (Hd t t' st s2); eauto.
Qed.

Lemma covered_upd resv th t st st' lo hi :
  covered resv th lo hi → th !! t = Some st →
  (∀ p h n, resv st = Some (h, n) → h <= p < h + n → lo <= p < hi →
     ∃ h' n', resv st' = Some (h', n') ∧ h' <= p < h' + n') →
  covered resv (<[t := st']> th) lo hi.
Proof.
  intros Hc Ht Hr p Hp. destruct (Hc p Hp) as (t0 & s0 & h & n & H0 & R0 & Hin).
  destruct (decide (t0 = t)) as [->|Hne].
  - rewrite Ht in H0. injection H0 as <-. destruct (Hr _ _ _ R0 Hin Hp) as (h' & n' & R' & Hin').
    exists t, st', h', n'. by rewrite lookup_insert_eq.
  - exists t0, s0, h, n. by rewrite lookup_insert_ne.
Qed.

Lemma covered_same resv th t st st' lo hi :
  covered resv th lo hi → th !! t = Some st → resv st' = resv st →
  covered resv (<[t := st']> th) lo hi.
Proof. intros Hc Ht E. eapply covered_upd; [done..|]. rewrite E. eauto. Qed.

(** *** Stability of a thread's part under the other threads' steps *)

Definition at_publish (st : tstate) : Prop :=
  match st with PPublish _ _ _ _ _ | CPublish _ _ _ _ => True | _ => False end.

Record grows (s s' : state) (st : tstate) : Prop := {
  g_ph : ph s <= ph s'; g_pt : pt s <= pt s'; g_ch : ch s <= ch s'; g_ct : ct s <= ct s';
  g_log : ∀ p, 0 <= p < ph s → log s' !! Z.to_nat p = log s !! Z.to_nat p;
  g_idx : 0 <= ct s ∧ ct s <= ch s ∧ ch s <= pt s ∧ pt s <= ph s;
  g_presv : ∀ h n, p_resv st = Some (h, n) → pt s' <= h ∧
    (∀ p, h <= p < h + n → slots s' !! slot p = slots s !! slot p) ∧
    (at_publish st → pt s' = pt s);
  g_cresv : ∀ h n, c_resv st = Some (h, n) → ct s' <= h ∧ (at_publish st → ct s' = ct s);
  g_ploop : sp = true → is_Some (p_loop st) → ph s' = ph s;
  g_cloop : sc = true → is_Some (c_loop st) → ch s' = ch s }.

Lemma tinv_stable s s' st : grows s s' st → tinv s st → tinv s' st.
Proof.
  intros [Hph Hpt Hch Hct Hlog Hidx Hp Hc Hpl Hcl].
  assert (HP : ∀ obj h n i, p_resv st = Some (h, n) → p_held s obj h n i → p_held s' obj h n i).
  { intros obj h n i R (H1 & H2 & H3 & H4 & H5 & H6). destruct (Hp _ _ R) as (Hpt' & Hsl & _).
    split_and!; try lia.
    - intros j Hj. rewrite Hlog by lia. by apply H5.
    - intros j Hj. rewrite Hsl, Hlog by lia. by apply H6. }
  assert (HC : ∀ tbl h n i, c_resv st = Some (h, n) → c_held s tbl h n i → c_held s' tbl h n i).
  { intros tbl h n i R (H1 & H2 & H3 & H4 & H5). destruct (Hc _ _ R) as [Hct' _].
    split_and!; try lia. intros j Hj. rewrite Hlog by lia. by apply H5. }
  destruct st; cbn [tinv p_resv c_resv p_loop c_loop at_publish] in *; intros Ht;
    try exact Ht; try (by apply HP); try (by apply HC).
  - destruct Ht as (? & ? & E). split_and!; try lia. intros Hs. rewrite Hpl by done. auto.
  - destruct Ht as (? & ? & ? & ? & E). split_and!; try lia. intros Hs. rewrite Hpl by done. auto.
  - destruct Ht as [? ->]. split; [by apply HP|]. destruct (Hp _ _ eq_refl) as (_ & _ & E). by rewrite E.
  - destruct Ht as (? & ? & E). split_and!; try lia. intros Hs. rewrite Hcl by done. auto.
  - destruct Ht as (? & ? & ? & ? & E). split_and!; try lia. intros Hs. rewrite Hcl by done. auto.
  - destruct Ht as [? ->]. split; [by apply HC|]. destruct (Hc _ _ eq_refl) as [_ E]. by rewrite E.
Qed.

(** *** The kinds of step *)

Implicit Types (sl lg obj tbl : list A) (th : gmap nat tstate) (st : tstate).

Lemma tinv_presv s st h n : tinv s st → p_resv st = Some (h, n) → pt s <= h ∧ 0 < n ∧ h + n <= ph s.
Proof. destruct st; simpl; intros Ht [= <- <-]; unfold p_held in Ht; lia. Qed.
Lemma tinv_cresv s st h n : tinv s st → c_resv st = Some (h, n) → ct s <= h ∧ 0 < n ∧ h + n <= ch s.
Proof. destruct st; simpl; intros Ht [= <- <-]; unfold c_held in Ht; lia. Qed.

(** A step on the thread's own variables. *)
Lemma inv_local ph pt ch ct sl lg th t st st' :
  inv (St ph pt ch ct sl lg th) → th !! t = Some st →
  p_resv st' = p_resv st → c_resv st' = c_resv st → tinv (St ph pt ch ct sl lg th) st' →
  inv (St ph pt ch ct sl lg (<[t := st']> th)).
Proof.
  intros [Hi Hl Hs Hd Ht Hpd Hpc Hcd Hcc] Hth Hp Hc Hst. split; try done.
  - intros t' st'' H. simpl in H.
    apply lookup_insert_Some in H as [[<- <-]|[_ H]]; [done|by apply (Ht t')].
  - eapply disjoint_same; [done..|]. intros r. by rewrite Hp.
  - by eapply covered_same.
  - eapply disjoint_same; [done..|]. intros r. by rewrite Hc.
  - by eapply covered_same.
Qed.

(** The producer head moves: the objects enter the log. *)
Lemma inv_preserve ph pt ch ct sl lg th t st obj b n free :
  inv (St ph pt ch ct sl lg th) → th !! t = Some st → p_resv st = None → c_resv st = None →
  0 < n <= Z.of_nat (length obj) → ph + n <= ct + mask →
  (sp = true → ∀ t' st', t' ≠ t → th !! t' = Some st' → ¬ is_Some (p_loop st')) →
  inv (St (ph + n) pt ch ct sl (lg ++ take (Z.to_nat n) obj) (<[t := PCopy obj b ph n free 0]> th)).
Proof.
  intros [Hi Hl Hs Hd Ht Hpd Hpc Hcd Hcc] Hth Hp Hc Hn Hroom Hsp. simpl in *.
  assert (Hlog : ∀ p, 0 <= p < ph → (lg ++ take (Z.to_nat n) obj) !! Z.to_nat p = lg !! Z.to_nat p)
    by (intros; apply lookup_app_l; lia).
  split; simpl.
  - lia.
  - rewrite length_app, length_take. lia.
  - done.
  - intros p Hp'. rewrite Hlog by lia. by apply Hd.
  - intros t' st' H. apply lookup_insert_Some in H as [[<- <-]|[Hne H]].
    + simpl. split_and!; simpl; try lia. intros j Hj. rewrite lookup_app_r by lia.
      rewrite lookup_take_lt by lia. f_equal. lia.
    + eapply tinv_stable; [|by apply (Ht t')]. split; simpl; try lia; try done.
      * intros h m R. split; [|done]. apply (tinv_presv _ _ _ _ (Ht _ _ H) R).
      * intros h m R. split; [|done]. apply (tinv_cresv _ _ _ _ (Ht _ _ H) R).
      * intros E Hloop. by destruct (Hsp E t' st').
  - apply disjoint_upd; [done|]. simpl. intros h m [= <- <-] t' st' h' n' Hne H R.
    right. apply (tinv_presv _ _ _ _ (Ht _ _ H) R).
  - intros p Hp'. destruct (Z.lt_ge_cases p ph).
    + destruct (Hpc p ltac:(lia)) as (t0 & s0 & h & m & H0 & R0 & Hin).
      exists t0, s0, h, m. rewrite lookup_insert_ne; [done|]. intros <-. congruence.
    + exists t, (PCopy obj b ph n free 0), ph, n. rewrite lookup_insert_eq. simpl. split_and!; done || lia.
  - eapply disjoint_same; [done..|]. done.
  - eapply covered_same; [done..|]. done.
Qed.

(** A reserved slot is written: it holds nothing anybody else relies on. *)
Lemma inv_write ph pt ch ct sl lg th t obj b h n free i x :
  inv (St ph pt ch ct sl lg th) → th !! t = Some (PCopy obj b h n free i) → i < n →
  obj !! Z.to_nat i = Some x →
  inv (St ph pt ch ct (<[slot (h + i) := x]> sl) lg (<[t := PCopy obj b h n free (i + 1)]> th)).
Proof.
  intros [Hi Hl Hs Hd Ht Hpd Hpc Hcd Hcc] Hth Hin Hx. simpl in *. pose proof size_bounds as Hsz.
  pose proof (Ht _ _ Hth) as (Hpt & Hn & Hph & Hi' & Hobj & Hcopied). simpl in *. unfold mask in *.
  assert (Hother : ∀ p, p ≠ h + i → ct <= p < ph →
    <[slot (h + i) := x]> sl !! slot p = sl !! slot p).
  { intros p Hne Hp. apply list_lookup_insert_ne. apply slot_ne; lia. }
  split; simpl; try done.
  - by rewrite length_insert.
  - intros p Hp. rewrite Hother by lia. by apply Hd.
  - intros t' st' H. apply lookup_insert_Some in H as [[<- <-]|[Hne H]].
    + simpl. split_and!; simpl; try lia; [done|]. intros j Hj.
      destruct (decide (j = i)) as [->|]; [|rewrite Hother by lia; apply Hcopied; lia].
      rewrite list_lookup_insert_eq by (by apply slot_in). rewrite Hobj by lia. done.
    + eapply tinv_stable; [|by apply (Ht t')]. split; simpl; try lia; try done.
      * intros h' n' R. pose proof (tinv_presv _ _ _ _ (Ht _ _ H) R). simpl in *. split_and!; [lia| |done].
        intros p Hp. apply Hother; [|lia].
        destruct (Hpd t' t _ _ _ _ _ _ (not_eq_sym Hne) H Hth R eq_refl); lia.
      * intros h' n' R. split; [|done]. apply (tinv_cresv _ _ _ _ (Ht _ _ H) R).
  - eapply disjoint_same; [done..|]. done.
  - eapply covered_same; [done..|]. done.
  - eapply disjoint_same; [done..|]. done.
  - eapply covered_same; [done..|]. done.
Qed.

(** The producer tail moves past the oldest reservation. *)
Lemma inv_ppublish ph pt ch ct sl lg th t obj b h n ret :
  inv (St ph pt ch ct sl lg th) → th !! t = Some (PPublish obj b h n ret) →
  inv (St ph (h + n) ch ct sl lg (<[t := PDone ret n obj]> th)).
Proof.
  intros [Hi Hl Hs Hd Ht Hpd Hpc Hcd Hcc] Hth. simpl in *.
  pose proof (Ht _ _ Hth) as [(Hpt & Hn & Hph & Hi' & Hobj & Hcopied) E]. simpl in *. subst pt.
  assert (Hnext : ∀ t' st' h' n', t' ≠ t → th !! t' = Some st' → p_resv st' = Some (h', n') → h + n <= h').
  { intros t' st' h' n' Hne H R. pose proof (tinv_presv _ _ _ _ (Ht _ _ H) R). simpl in *.
    destruct (Hpd t' t _ _ _ _ _ _ Hne H Hth R eq_refl); lia. }
  split; simpl; try done.
  - lia.
  - intros p Hp. destruct (Z.lt_ge_cases p h); [by apply Hd; lia|].
    replace p with (h + (p - h)) by lia. apply Hcopied. lia.
  - intros t' st' H. apply lookup_insert_Some in H as [[<- <-]|[Hne H]]; [done|].
    eapply tinv_stable; [|by apply (Ht t')]. split; simpl; try lia; try done.
    + intros h' n' R. pose proof (Hnext _ _ _ _ (not_eq_sym Hne) H R). split_and!; [lia|done|].
      intros Hpub. pose proof (Ht _ _ H). destruct st'; simplify_eq/=; lia.
    + intros h' n' R. split; [|done]. apply (tinv_cresv _ _ _ _ (Ht _ _ H) R).
  - eapply disjoint_same; [done..|]. done.
  - eapply covered_upd.
    + intros p Hp. apply (Hpc p). lia.
    + done.
    + simpl. intros p h' n' [= <- <-]. lia.
  - eapply disjoint_same; [done..|]. done.
  - eapply covered_same; [done..|]. done.
Qed.

(** The consumer head moves: the objects are promised to the thread. *)
Lemma inv_creserve ph pt ch ct sl lg th t st tbl b n :
  inv (St ph pt ch ct sl lg th) → th !! t = Some st → p_resv st = None → c_resv st = None →
  0 < n <= Z.of_nat (length tbl) → ch + n <= pt →
  (sc = true → ∀ t' st', t' ≠ t → th !! t' = Some st' → ¬ is_Some (c_loop st')) →
  inv (St ph pt (ch + n) ct sl lg (<[t := CCopy tbl b ch n 0]> th)).
Proof.
  intros [Hi Hl Hs Hd Ht Hpd Hpc Hcd Hcc] Hth Hp Hc Hn Hroom Hsc. simpl in *.
  split; simpl; try done.
  - lia.
  - intros t' st' H. apply lookup_insert_Some in H as [[<- <-]|[Hne H]].
    + simpl. split_and!; simpl; lia.
    + eapply tinv_stable; [|by apply (Ht t')]. split; simpl; try lia; try done.
      * intros h m R. split; [|done]. apply (tinv_presv _ _ _ _ (Ht _ _ H) R).
      * intros h m R. split; [|done]. apply (tinv_cresv _ _ _ _ (Ht _ _ H) R).
      * intros E Hloop. by destruct (Hsc E t' st').
  - eapply disjoint_same; [done..|]. done.
  - eapply covered_same; [done..|]. done.
  - apply disjoint_upd; [done|]. simpl. intros h m [= <- <-] t' st' h' n' Hne H R.
    right. apply (tinv_cresv _ _ _ _ (Ht _ _ H) R).
  - intros p Hp'. destruct (Z.lt_ge_cases p ch).
    + destruct (Hcc p ltac:(lia)) as (t0 & s0 & h & m & H0 & R0 & Hin).
      exists t0, s0, h, m. rewrite lookup_insert_ne; [done|]. intros <-. congruence.
    + exists t, (CCopy tbl b ch n 0), ch, n. rewrite lookup_insert_eq. simpl. split_and!; done || lia.
Qed.

(** The consumer tail moves past the oldest reservation: its slots are free. *)
Lemma inv_cpublish ph pt ch ct sl lg th t tbl b h n ret :
  inv (St ph pt ch ct sl lg th) → th !! t = Some (CPublish tbl b h n) →
  inv (St ph pt ch (h + n) sl lg (<[t := CDone ret n tbl]> th)).
Proof.
  intros [Hi Hl Hs Hd Ht Hpd Hpc Hcd Hcc] Hth. simpl in *.
  pose proof (Ht _ _ Hth) as [(Hct & Hn & Hch & Hi' & Hcopied) E]. simpl in *. subst ct.
  assert (Hnext : ∀ t' st' h' n', t' ≠ t → th !! t' = Some st' → c_resv st' = Some (h', n') → h + n <= h').
  { intros t' st' h' n' Hne H R. pose proof (tinv_cresv _ _ _ _ (Ht _ _ H) R). simpl in *.
    destruct (Hcd t' t _ _ _ _ _ _ Hne H Hth R eq_refl); lia. }
  split; simpl; try done.
  - lia.
  - intros p Hp. apply Hd. lia.
  - intros t' st' H. apply lookup_insert_Some in H as [[<- <-]|[Hne H]]; [done|].
    eapply tinv_stable; [|by apply (Ht t')]. split; simpl; try lia; try done.
    + intros h' n' R. split; [|done]. apply (tinv_presv _ _ _ _ (Ht _ _ H) R).
    + intros h' n' R. pose proof (Hnext _ _ _ _ (not_eq_sym Hne) H R). split; [lia|].
      intros Hpub. pose proof (Ht _ _ H). destruct st'; simplify_eq/=; lia.
  - eapply disjoint_same; [done..|]. done.
  - eapply covered_same; [done..|]. done.
  - eapply disjoint_same; [done..|]. done.
  - eapply covered_upd.
    + intros p Hp. apply (Hcc p). lia.
    + done.
    + simpl. intros p h' n' [= <- <-]. lia.
Qed.

(** *** Every step preserves the invariant *)

Lemma p_decide_room free max b n : p_decide free max b = inr n → 0 < max → 0 <= free → 0 < n <= max ∧ n <= free.
Proof. unfold p_decide. tests; destruct b; tests; intros [= <-]; lia. Qed.
Lemma c_decide_found e max b n : c_decide e max b = inr n → 0 < max → 0 <= e → 0 < n <= max ∧ n <= e.
Proof. unfold c_decide. tests; destruct b; tests; intros [= <-]; lia. Qed.

Lemma free_exact s : inv s → u32 (mask + u32 (ct s) - u32 (ph s)) = mask + ct s - ph s.
Proof.
  intros [Hi _ _ _ _ _ _ _ _]. pose proof size_bounds. unfold mask in *.
  rewrite u32_sub_r, <- Z.add_sub_assoc, <- (u32_add_r _ (u32 (ct s) - ph s)), u32_sub_l, u32_add_r.
  rewrite u32_small; [lia|]. unfold is_u32. lia.
Qed.
Lemma entries_exact s h : inv s → 0 <= h <= ch s → ch s - h < 2 ^ 31 →
  u32 (u32 (pt s) - u32 h) = pt s - h.
Proof.
  intros [Hi _ _ _ _ _ _ _ _] Hh Hf. pose proof size_bounds. unfold mask in *.
  rewrite u32_sub_l, u32_sub_r. apply u32_small. unfold is_u32. lia.
Qed.

(** In a single-producer (single-consumer) ring the one reservation is the oldest. *)
Lemma sp_oldest s t st h n : inv s → used_properly s → sp = true →
  threads s !! t = Some st → p_resv st = Some (h, n) → h = pt s.
Proof.
  intros Hinv Hu Hsp Ht R. pose proof (tinv_presv _ _ _ _ (inv_thr _ Hinv _ _ Ht) R) as Hb.
  destruct (Z.eq_dec h (pt s)) as [|Hne]; [done|].
  destruct (inv_pcover _ Hinv (pt s)) as (t0 & s0 & h0 & n0 & H0 & R0 & Hin); [lia|].
  assert (t = t0) as <-.
  { eapply (p_single _ Hu Hsp); [exact Ht|exact H0|right; by rewrite R|right; by rewrite R0]. }
  rewrite Ht in H0. injection H0 as <-. rewrite R in R0. injection R0 as <- <-. lia.
Qed.
Lemma sc_oldest s t st h n : inv s → used_properly s → sc = true →
  threads s !! t = Some st → c_resv st = Some (h, n) → h = ct s.
Proof.
  intros Hinv Hu Hsc Ht R. pose proof (tinv_cresv _ _ _ _ (inv_thr _ Hinv _ _ Ht) R) as Hb.
  destruct (Z.eq_dec h (ct s)) as [|Hne]; [done|].
  destruct (inv_ccover _ Hinv (ct s)) as (t0 & s0 & h0 & n0 & H0 & R0 & Hin); [lia|].
  assert (t = t0) as <-.
  { eapply (c_single _ Hu Hsc); [exact Ht|exact H0|right; by rewrite R|right; by rewrite R0]. }
  rewrite Ht in H0. injection H0 as <-. rewrite R in R0. injection R0 as <- <-. lia.
Qed.

Lemma p_alone s t st : used_properly s → threads s !! t = Some st → p_active st →
  sp = true → ∀ t' st', t' ≠ t → threads s !! t' = Some st' → ¬ is_Some (p_loop st').
Proof. intros Hu Ht Ha Hsp t' st' Hne H Hl. apply Hne. eapply (p_single _ Hu Hsp); eauto. by left. Qed.
Lemma c_alone s t st : used_properly s → threads s !! t = Some st → c_active st →
  sc = true → ∀ t' st', t' ≠ t → threads s !! t' = Some st' → ¬ is_Some (c_loop st').
Proof. intros Hu Ht Ha Hsc t' st' Hne H Hl. apply Hne. eapply (c_single _ Hu Hsc); eauto. by left. Qed.

Lemma inv_step s e s' : inv s → used_properly s → step s e s' → inv s'.
Proof.
  intros Hinv Hu Hstep. pose proof (inv_idx _ Hinv) as Hidx. pose proof size_bounds as Hsz. unfold mask in Hidx.
  destruct Hstep; simpl in Hidx;
    match goal with H : @lookup nat tstate (gmap nat tstate) _ _ _ = Some _ |- _ => pose proof (inv_thr _ Hinv _ _ H) as Ht; simpl in Ht end.
  - eapply inv_local; [done..|]. simpl. split_and!; lia.
  - by eapply inv_local.
  - destruct (p_decide_room _ _ _ _ H0) as [Hn Hfree]; [lia|apply u32_range|].
    eapply inv_local; [done..|]. simpl. split_and!; try lia; [|tauto].
    intros ->. pose proof (free_exact _ Hinv). simpl in *. unfold mask in *. lia.
  - assert (h = ph0) as ->.
    { apply u32_inj_near; [|done]. pose proof (p_fresh _ Hu _ _ h H0 eq_refl). simpl in *. lia. }
    eapply inv_preserve; [done..| | |]; [lia|lia|]. congruence.
  - eapply inv_local; [done..|]. simpl. lia.
  - assert (h = ph0) as -> by tauto.
    rewrite take_ge by (pose proof (inv_log _ Hinv); simpl in *; lia).
    eapply inv_preserve; [done..| | |]; [lia|lia|].
    eapply (p_alone (St _ _ _ _ _ _ _)); [done..|]. by left.
  - rewrite slot_u32. by eapply inv_write.
  - assert (i = n) as -> by (unfold p_held in Ht; lia).
    destruct sp eqn:Hsp; eapply inv_local; try done.
    simpl. split; [done|]. by eapply (sp_oldest (St _ _ _ _ _ _ _)).
  - done.
  - eapply inv_local; [done..|]. simpl. split; [done|]. symmetry.
    apply u32_inj_near; [|done]. unfold p_held in Ht. simpl in Ht. lia.
  - by eapply inv_ppublish.
  - eapply inv_local; [done..|]. simpl. split_and!; lia.
  - by eapply inv_local.
  - destruct (c_decide_found _ _ _ _ H0) as [Hn He]; [lia|apply u32_range|].
    eapply inv_local; [done..|]. simpl. split_and!; try lia; [|tauto].
    intros ->. pose proof (entries_exact _ ch0 Hinv) as E. simpl in E. rewrite E in He; lia.
  - assert (h = ch0) as ->.
    { apply u32_inj_near; [|done]. pose proof (c_fresh _ Hu _ _ h H0 eq_refl). simpl in *. lia. }
    eapply inv_creserve; [done..| | |]; [lia|lia|]. congruence.
  - eapply inv_local; [done..|]. simpl. lia.
  - assert (h = ch0) as -> by tauto.
    eapply inv_creserve; [done..| | |]; [lia|lia|].
    eapply (c_alone (St _ _ _ _ _ _ _)); [done..|]. by left.
  - eapply inv_local; [done..|]. rewrite slot_u32 in *.
    destruct Ht as (H3 & H4 & H5 & H6 & H7). simpl in *.
    split_and!; simpl; rewrite ?length_insert; try lia.
    intros j Hj. destruct (decide (j = i)) as [->|].
    + rewrite list_lookup_insert_eq by lia. rewrite <- H1.
      apply (inv_data _ Hinv). simpl. lia.
    + rewrite list_lookup_insert_ne by lia. apply H7. lia.
  - assert (i = n) as -> by (unfold c_held in Ht; lia).
    destruct sc eqn:Hsc; eapply inv_local; try done.
    simpl. split; [done|]. by eapply (sc_oldest (St _ _ _ _ _ _ _)).
  - done.
  - eapply inv_local; [done..|]. simpl. split; [done|]. symmetry.
    apply u32_inj_near; [|done]. unfold c_held in Ht. simpl in Ht. lia.
  - by eapply inv_cpublish.
Qed.

Lemma inv_exec s tr : exec s tr → inv s.
Proof.
  intros He. assert (inv s ∧ used_properly s) as [? _]; [|done].
  induction He as [sl Hsl Hth|s tr e s' He [Hinv Hu] Hstep Hu'].
  - pose proof size_bounds. assert (Hnr : ∀ t st, calls !! t = Some st →
      p_resv st = None ∧ c_resv st = None ∧ p_loop st = None ∧ c_loop st = None ∧
      tinv (St 0 0 0 0 sl [] calls) st).
    { intros t st H0. specialize (Hth _ _ H0). destruct st; simpl in *; try done; auto. }
    split; split; simpl; try lia; try done; unfold mask; try lia.
    + intros t st H0. by apply (Hnr t).
    + intros t t' st st' h n h' n' _ H0 _ R. destruct (Hnr _ _ H0) as (E & _). congruence.
    + intros p Hp. lia.
    + intros t t' st st' h n h' n' _ H0 _ R. destruct (Hnr _ _ H0) as (_ & E & _). congruence.
    + intros p Hp. lia.
    + intros t st h H0 R. destruct (Hnr _ _ H0) as (_ & _ & E & _). congruence.
    + intros t st h H0 R. destruct (Hnr _ _ H0) as (_ & _ & _ & E & _). congruence.
    + intros _ t t' st st' H0 _ [R|R]; destruct (Hnr _ _ H0) as (E1 & _ & E2 & _), R; congruence.
    + intros _ t t' st st' H0 _ [R|R]; destruct (Hnr _ _ H0) as (_ & E1 & _ & E2 & _), R; congruence.
  - split; [|done]. by eapply inv_step.
Qed.

(** ** Linearizability *)

(** The contents of the ring: what is published and not yet claimed. *)
Definition contents (s : state) : list A := take (Z.to_nat (pt s - ch s)) (drop (Z.to_nat (ch s)) (log s)).

(** The bounded FIFO queue the ring implements. *)
Inductive spec_step : list A → event → list A → Prop :=
  | spec_tau q : spec_step q Tau q
  | spec_enq q t xs : Z.of_nat (length (q ++ xs)) <= mask → spec_step q (Enq t xs) (q ++ xs)
  | spec_enqfail q t n : spec_step q (EnqFail t n) q
  | spec_deq q t xs : spec_step (xs ++ q) (Deq t xs) q
  | spec_deqfail q t n : Z.of_nat (length q) < n → spec_step q (DeqFail t n) q.

Inductive spec_run : list A → list event → list A → Prop :=
  | spec_nil q : spec_run q [] q
  | spec_snoc q q' q'' tr e : spec_run q tr q' → spec_step q' e q'' → spec_run q (tr ++ [e]) q''.

Lemma take_slice (l : list A) a b c : (a <= b)%nat → (b <= c)%nat →
  take (c - a) (drop a l) = take (b - a) (drop a l) ++ take (c - b) (drop b l).
Proof.
  intros Hab Hbc. rewrite <- (take_drop (b - a) (take (c - a) (drop a l))).
  rewrite take_take, Nat.min_l by lia. f_equal.
  rewrite skipn_firstn_comm.
  rewrite drop_drop. f_equal; [lia|]. f_equal. lia.
Qed.

Lemma slice_app (l l' : list A) a n : (a + n <= length l)%nat → take n (drop a (l ++ l')) = take n (drop a l).
Proof. intros H. rewrite drop_app_le by lia. apply take_app_le. rewrite length_drop. lia. Qed.

Lemma slice_eq (l l' : list A) a n : (n <= length l')%nat →
  (∀ j, (j < n)%nat → l !! (a + j)%nat = l' !! j) → take n (drop a l) = take n l'.
Proof.
  intros Hn H. apply list_eq. intros j. rewrite !lookup_take, lookup_drop. case_decide; [by apply H|done].
Qed.

Lemma contents_append ph ph' pt ch ct sl lg l th th' :
  0 <= ch <= pt → pt <= Z.of_nat (length lg) →
  contents (St ph' pt ch ct sl (lg ++ l) th') = contents (St ph pt ch ct sl lg th).
Proof. intros. unfold contents. simpl. apply slice_app. lia. Qed.

Lemma contents_claim ph pt ch n ct sl lg th ct' sl' th' :
  0 <= ch → 0 < n → ch + n <= pt →
  contents (St ph pt ch ct sl lg th)
  = take (Z.to_nat n) (drop (Z.to_nat ch) lg) ++ contents (St ph pt (ch + n) ct' sl' lg th').
Proof.
  intros. unfold contents. simpl.
  replace (Z.to_nat (pt - ch)) with (Z.to_nat pt - Z.to_nat ch)%nat by lia.
  rewrite (take_slice _ _ (Z.to_nat (ch + n))) by lia. do 2 f_equal; lia.
Qed.

Lemma contents_publish ph pt ch n ct sl lg th th' :
  0 <= ch <= pt → 0 < n →
  contents (St ph (pt + n) ch ct sl lg th')
  = contents (St ph pt ch ct sl lg th) ++ take (Z.to_nat n) (drop (Z.to_nat pt) lg).
Proof.
  intros. unfold contents. simpl.
  replace (Z.to_nat (pt + n - ch)) with (Z.to_nat (pt + n) - Z.to_nat ch)%nat by lia.
  rewrite (take_slice _ _ (Z.to_nat pt)) by lia. do 2 f_equal; lia.
Qed.

(** Each step acts on the contents as its event says. *)
Lemma contents_step s e s' : inv s → used_properly s → step s e s' →
  spec_step (contents s) e (contents s').
Proof.
  intros Hinv Hu Hstep. pose proof (inv_idx _ Hinv) as Hidx. pose proof (inv_log _ Hinv) as Hlog.
  destruct Hstep; simpl in Hidx, Hlog;
    match goal with H : @lookup nat tstate (gmap nat tstate) _ _ _ = Some _ |- _ =>
      pose proof (inv_thr _ Hinv _ _ H) as Ht; simpl in Ht end; try apply spec_tau; try apply spec_enqfail.
  - rewrite (contents_append ph0 _ pt0 ch0 ct0 sl lg _ th) by lia. apply spec_tau.
  - rewrite take_ge by (destruct Ht as (_ & _ & _ & _ & E); rewrite E by done; lia).
    rewrite (contents_append ph0 _ pt0 ch0 ct0 sl lg _ th) by lia. apply spec_tau.
  - destruct Ht as [(? & ? & ? & ? & Hobj & _) E]. simpl in *. subst h.
    rewrite <- (slice_eq lg obj (Z.to_nat pt0) (Z.to_nat n)).
    + rewrite (contents_publish ph0 pt0 ch0 n ct0 sl lg th) by lia. apply spec_enq.
      rewrite <- (contents_publish ph0 pt0 ch0 n ct0 sl lg th th) by lia.
      unfold contents. simpl. rewrite length_take, length_drop. lia.
    + lia.
    + intros j Hj. replace (Z.to_nat pt0 + j)%nat with (Z.to_nat (pt0 + Z.of_nat j)) by lia.
      rewrite Hobj by lia. f_equal. lia.
  - apply spec_deqfail. unfold c_decide, needed in *.
    pose proof (c_fresh _ Hu _ _ h H eq_refl) as Hf.
    pose proof (entries_exact _ h Hinv) as E. simpl in E, Hf. rewrite E in H0 by lia.
    unfold contents. simpl. rewrite length_take, length_drop.
    revert H0. tests; destruct b; tests; intros [= <-]; lia.
  - pose proof (c_fresh _ Hu _ _ h H0 eq_refl) as Hf. simpl in Hf.
    assert (h = ch0) as -> by (apply u32_inj_near; [lia|done]).
    rewrite (contents_claim ph0 pt0 ch0 n ct0 sl lg th ct0 sl (<[t:=CCopy tbl b ch0 n 0]> th)) by lia.
    apply spec_deq.
  - assert (h = ch0) as -> by tauto.
    rewrite (contents_claim ph0 pt0 ch0 n ct0 sl lg th ct0 sl (<[t:=CCopy tbl b ch0 n 0]> th)) by lia.
    apply spec_deq.
Qed.

(** The enqueues and dequeues of thread [t] in a trace. *)
Definition enq_of (t : nat) (tr : list event) : list (list A) :=
  omap (λ e, match e with Enq t' xs => if decide (t = t') then Some xs else None | _ => None end) tr.
Definition deq_of (t : nat) (tr : list event) : list (list A) :=
  omap (λ e, match e with Deq t' xs => if decide (t = t') then Some xs else None | _ => None end) tr.

(** What the trace holds of a thread, from its state. *)
Definition moved (n : Z) (xs : list A) : list (list A) := if n =? 0 then [] else [take (Z.to_nat n) xs].
Definition enq_expected (st : tstate) : list (list A) :=
  match st with PDone _ n obj => moved n obj | _ => [] end.
Definition deq_expected (lg : list A) (st : tstate) : list (list A) :=
  match st with
  | CCopy _ _ h n _ | CWait _ _ h n | CPublish _ _ h n => moved n (drop (Z.to_nat h) lg)
  | CDone _ n tbl => moved n tbl
  | _ => []
  end.
Definition traced (s : state) (tr : list event) : Prop :=
  ∀ t, match threads s !! t with
       | Some st => enq_of t tr = enq_expected st ∧ deq_of t tr = deq_expected (log s) st
       | None => enq_of t tr = [] ∧ deq_of t tr = []
       end.

Lemma traced_step s s' tr e t st st' :
  traced s tr → threads s !! t = Some st → threads s' = <[t := st']> (threads s) →
  (∀ t', t' ≠ t → enq_of t' [e] = [] ∧ deq_of t' [e] = []) →
  (∀ t' st0, threads s !! t' = Some st0 → deq_expected (log s') st0 = deq_expected (log s) st0) →
  enq_expected st' = enq_expected st ++ enq_of t [e] →
  deq_expected (log s') st' = deq_expected (log s) st ++ deq_of t [e] →
  traced s' (tr ++ [e]).
Proof.
  intros Htr Ht Hth Hev Hlog He Hd t'. rewrite Hth. specialize (Htr t').
  unfold enq_of, deq_of in *. rewrite !omap_app.
  destruct (decide (t' = t)) as [->|Hne].
  - rewrite lookup_insert_eq. rewrite Ht in Htr. destruct Htr as [-> ->]. by rewrite He, Hd.
  - rewrite lookup_insert_ne by done. destruct (Hev t' Hne) as [-> ->]. rewrite !app_nil_r.
    destruct (threads s !! t') as [st0|] eqn:E0; [|done]. destruct Htr as [-> ->].
    by rewrite Hlog with (t' := t').
Qed.

Lemma deq_expected_append s l st : inv s → tinv s st →
  deq_expected (log s ++ l) st = deq_expected (log s) st.
Proof.
  intros Hinv Ht. pose proof (inv_idx _ Hinv) as Hi. pose proof (inv_log _ Hinv) as Hl.
  assert (∀ h n, c_resv st = Some (h, n) →
    moved n (drop (Z.to_nat h) (log s ++ l)) = moved n (drop (Z.to_nat h) (log s))) as E.
  { intros h n R. destruct (tinv_cresv _ _ _ _ Ht R) as (? & ? & ?). unfold moved. tests; [done|].
    rewrite slice_app; [done|lia]. }
  destruct st; simpl in *; try done; by apply E.
Qed.

Lemma loop_fresh_c s t st h : inv s → used_properly s → threads s !! t = Some st → c_loop st = Some h →
  u32 (ch s) = u32 h → h = ch s.
Proof.
  intros Hinv Hu Ht Hl E. pose proof (inv_thr _ Hinv _ _ Ht) as Hst.
  pose proof (c_fresh _ Hu _ _ _ Ht Hl). apply u32_inj_near; [|done].
  destruct st; simplify_eq/=; lia.
Qed.

(** A step of thread [t] extends the trace of a state by its event. *)
Ltac trace_step :=
  match goal with
  | Htr : traced ?s ?tr, H : lookup ?t ?th = Some _ |- traced ?s' (?tr ++ [?e]) =>
      apply (traced_step s s' tr e t _ _ Htr H eq_refl); simpl;
      [ try done; intros t' Hne; by rewrite decide_False
      | try done
      | try done
      | rewrite ?app_nil_r; try done ]
  end.

Lemma traced_silent s tr : traced s tr → traced s (tr ++ [Tau]).
Proof.
  intros Htr t'. specialize (Htr t'). unfold enq_of, deq_of in *. rewrite !omap_app. simpl.
  by rewrite !app_nil_r.
Qed.

Lemma traced_preserved s e s' tr : inv s → used_properly s → step s e s' → traced s tr → traced s' (tr ++ [e]).
Proof.
  intros Hinv Hu Hstep Htr. pose proof (inv_idx _ Hinv) as Hidx. pose proof (inv_log _ Hinv) as Hlog.
  pose proof (inv_thr _ Hinv) as Hthr.
  destruct Hstep; simpl in Hidx, Hlog; try (by apply traced_silent);
    match goal with H : lookup _ _ = Some _ |- _ => pose proof (Hthr _ _ H) as Ht; simpl in Ht end;
    try (by trace_step; destruct sp); try (by trace_step; destruct sc).
  - trace_step. intros t' st0 H2. by apply (deq_expected_append _ _ _ Hinv), (Hthr t').
  - assert (h = ph0) as -> by tauto. rewrite (take_ge lg) by lia.
    trace_step. intros t' st0 H2. by apply (deq_expected_append _ _ _ Hinv), (Hthr t').
  - destruct Ht as [(_ & Hn & _) _]. trace_step. rewrite decide_True by done. unfold moved. tests; [lia|done].
  - pose proof (loop_fresh_c _ _ _ h Hinv Hu H0 eq_refl H1) as Eh. simpl in Eh. subst h.
    trace_step. rewrite decide_True by done. unfold moved. tests; [lia|done].
  - assert (h = ch0) as -> by tauto.
    trace_step. rewrite decide_True by done. unfold moved. tests; [lia|done].
  - destruct Ht as [(Hh & Hn & Hhn & _ & Hcp) _]. trace_step. simpl in *. unfold moved. tests; [done|].
    f_equal. symmetry. apply slice_eq; [lia|]. intros j Hj. specialize (Hcp (Z.of_nat j) ltac:(lia)).
    rewrite Nat2Z.id in Hcp. rewrite Hcp. f_equal. lia.
Qed.
Lemma refines_exec s tr : exec s tr →
  inv s ∧ used_properly s ∧ spec_run [] tr (contents s) ∧ traced s tr.
Proof.
  intros He. split; [by eapply inv_exec|].
  induction He as [sl Hsl Hth|s tr e s' He (Hu & Hr & Ht) Hstep Hu'].
  - split_and!.
    + split; simpl; intros; try (by specialize (Hth _ _ H); destruct st);
        specialize (Hth _ _ H0); destruct st; try done; by destruct H2 as [[]|[]].
    + apply spec_nil.
    + intros t. simpl. destruct (calls !! t) as [st|] eqn:E; [|done]. specialize (Hth _ _ E). by destruct st.
  - pose proof (inv_exec _ _ He) as Hi. split_and!; [done| |by eapply traced_preserved].
    eapply spec_snoc; [done|]. by apply contents_step.
Qed.

(** *** What a call returns

    The objects a call moves and its return value, from what was asked for:
    [rte_ring.h] documents 0, -EDQUOT and -ENOBUFS (-ENOENT) for a fixed
    number, and the number of objects, with [RTE_RING_QUOT_EXCEED] above the
    water mark, for a variable one. *)
Definition enq_result (max : Z) (b : rte_ring_queue_behavior) (ret n : Z) : Prop :=
  match b with
  | RTE_RING_QUEUE_FIXED => (n = max ∧ (ret = 0 ∨ ret = - EDQUOT)) ∨ (n = 0 ∧ ret = - ENOBUFS)
  | RTE_RING_QUEUE_VARIABLE => 0 <= n <= max ∧ (ret = n ∨ 0 < n ∧ ret = i32 (Z.lor n RTE_RING_QUOT_EXCEED))
  end.
Definition deq_result (max : Z) (b : rte_ring_queue_behavior) (ret n : Z) : Prop :=
  match b with
  | RTE_RING_QUEUE_FIXED => (n = max ∧ ret = 0) ∨ (n = 0 ∧ ret = - ENOENT)
  | RTE_RING_QUEUE_VARIABLE => 0 <= n <= max ∧ ret = n
  end.

(** [st] is a state of the call that [st0] starts. *)
Definition takes (max : Z) (b : rte_ring_queue_behavior) (n : Z) : Prop :=
  0 < n <= max ∧ (b = RTE_RING_QUEUE_FIXED → n = max).
Definition serves (st0 st : tstate) : Prop :=
  match st0 with
  | PStart obj max b =>
      match st with
      | PStart obj' max' b' | PHead obj' max' b' _ => obj' = obj ∧ max' = max ∧ b' = b
      | PCas obj' max' b' _ n _ => obj' = obj ∧ max' = max ∧ b' = b ∧ takes max b n
      | PCopy obj' b' _ n _ _ => obj' = obj ∧ b' = b ∧ takes max b n
      | PWait obj' b' _ n ret | PPublish obj' b' _ n ret => obj' = obj ∧ b' = b ∧ enq_result max b ret n
      | PDone ret n obj' => obj' = obj ∧ enq_result max b ret n
      | _ => False
      end
  | CStart tbl max b =>
      match st with
      | CStart tbl' max' b' | CHead tbl' max' b' _ => length tbl' = length tbl ∧ max' = max ∧ b' = b
      | CCas tbl' max' b' _ n => length tbl' = length tbl ∧ max' = max ∧ b' = b ∧ takes max b n
      | CCopy tbl' b' _ n _ | CWait tbl' b' _ n | CPublish tbl' b' _ n =>
          length tbl' = length tbl ∧ b' = b ∧ takes max b n
      | CDone ret n tbl' => length tbl' = length tbl ∧ deq_result max b ret n
      | _ => False
      end
  | _ => False
  end.

Lemma enqueue_ret_result max b free n : takes max b n → enq_result max b (enqueue_ret mask free n wm b) n.
Proof. intros [Hn Hf]. unfold enqueue_ret, enq_result. destruct b; tests; intuition lia. Qed.
Lemma p_decide_result free max b : 0 <= free → 0 < max →
  match p_decide free max b with inl ret => enq_result max b ret 0 | inr n => takes max b n end.
Proof. intros. unfold p_decide, takes, enq_result. destruct b; tests; try lia; intuition (done || lia). Qed.
Lemma c_decide_result free max b : 0 <= free → 0 < max →
  match c_decide free max b with inl ret => deq_result max b ret 0 | inr n => takes max b n end.
Proof. intros. unfold c_decide, takes, deq_result. destruct b; tests; try lia; intuition (done || lia). Qed.

Definition served (s : state) : Prop :=
  ∀ t st, threads s !! t = Some st → ∃ st0, calls !! t = Some st0 ∧ serves st0 st.

(** A thread that goes from [st] to [st'] serves the same call. *)
Lemma serves_next ph pt ch ct sl lg th ph' pt' ch' ct' sl' lg' t st st' :
  served (St ph pt ch ct sl lg th) → th !! t = Some st → (∀ st0, serves st0 st → serves st0 st') →
  served (St ph' pt' ch' ct' sl' lg' (<[t := st']> th)).
Proof.
  intros Hs Ht Hn t' st1 H. simpl in H. apply lookup_insert_Some in H as [[<- <-]|[_ H]]; [|by apply (Hs t')].
  destruct (Hs _ _ Ht) as (st0 & H0 & H1). exists st0. auto.
Qed.

Lemma served_step s e s' : inv s → step s e s' → served s → served s'.
Proof.
  intros Hinv Hstep Hs. pose proof (inv_thr _ Hinv) as Hthr.
  destruct Hstep; try done; pose proof (Hthr _ _ H) as Ht || pose proof (Hthr _ _ H0) as Ht; simpl in Ht;
    (eapply serves_next; [exact Hs|eassumption|]); intros st0; destruct st0; simpl; try done; intros Hst; destruct_and! Hst;
    subst; try (by rewrite ?length_insert; auto);
    try match goal with
    | E : p_decide ?f ?m ?b = _ |- _ =>
        pose proof (p_decide_result f m b (proj1 (u32_range _)) ltac:(lia)) as R; rewrite E in R
    | E : c_decide ?f ?m ?b = _ |- _ =>
        pose proof (c_decide_result f m b (proj1 (u32_range _)) ltac:(lia)) as R; rewrite E in R
    end; auto.
  - destruct sp; auto using enqueue_ret_result.
  - destruct sc; auto.
  - unfold takes in *. destruct b0; simpl; intuition lia.
Qed.

Lemma served_exec s tr : exec s tr → served s.
Proof.
  intros He. induction He as [sl Hsl Hth|s tr e s' He IH Hstep Hu].
  - intros t st Ht. exists st. split; [done|]. specialize (Hth _ _ Ht). by destruct st.
  - eapply served_step; [by eapply inv_exec|done|done].
Qed.

(** The oldest reservation of a side: the one at its tail. *)
Lemma oldest_reservation resv th lo hi : lo < hi → covered resv th lo hi →
  (∀ t st h n, th !! t = Some st → resv st = Some (h, n) → lo <= h) →
  ∃ t st n, th !! t = Some st ∧ resv st = Some (lo, n).
Proof.
  intros Hlt Hc Hlo. destruct (Hc lo ltac:(lia)) as (t & st & h & n & Ht & R & Hp).
  pose proof (Hlo _ _ _ _ Ht R). assert (h = lo) as -> by lia. by exists t, st, n.
Qed.

Definition finished (st : tstate) : bool :=
  match st with PDone _ _ _ | CDone _ _ _ => true | _ => false end.

(** Whether a thread is in one of the two loops that wait for its turn. *)
Definition waits (s : state) (st : tstate) : Prop :=
  match st with PWait _ _ h _ _ => pt s ≠ h | CWait _ _ h _ => ct s ≠ h | _ => False end.

(** The accesses of the copy loops stay inside the ring and the caller's table. *)
Definition copy_in_bounds (s : state) (st : tstate) : Prop :=
  match st with
  | PCopy obj _ h n _ i => i < n → is_Some (obj !! Z.to_nat i) ∧ (slot (u32 h + i) < length (slots s))%nat
  | CCopy tbl _ h n i => i < n → is_Some (slots s !! slot (u32 h + i)) ∧ (Z.to_nat i < length tbl)%nat
  | _ => True
  end.

Lemma copies_in_bounds s t st : inv s → threads s !! t = Some st → copy_in_bounds s st.
Proof.
  intros Hinv Ht. pose proof (inv_thr _ Hinv _ _ Ht) as Hst. pose proof (inv_slots _ Hinv) as Hsl.
  destruct st; simpl in *; try done; intros Hi; unfold p_held, c_held in Hst; split.
  - apply lookup_lt_is_Some. lia.
  - by apply slot_in.
  - by apply lookup_lt_is_Some, slot_in.
  - lia.
Qed.

(** A thread that neither has returned nor waits for its turn has a step, and
    the step changes the thread's own state. *)
Lemma thread_moves s t st : inv s → used_properly s → threads s !! t = Some st →
  finished st = false → ¬ waits s st →
  ∃ e s' st', step s e s' ∧ threads s' = <[t := st']> (threads s) ∧ st' ≠ st.
Proof.
  intros Hinv Hu Ht Hf Hw. pose proof (copies_in_bounds _ _ _ Hinv Ht) as Hb.
  destruct s as [ph0 pt0 ch0 ct0 sl lg th]. destruct st; simpl in *; try done.
  - do 3 eexists. split_and!; [by apply step_phead|done|done].
  - destruct (p_decide (u32 (mask + u32 ct0 - u32 h)) max b) eqn:E; do 3 eexists; split_and!;
      [by eapply step_pfull|done|done|by eapply step_proom|done|done].
  - destruct (decide (sp = true)); [|assert (sp = false) by (by destruct sp);
      destruct (decide (u32 ph0 = u32 h))]; do 3 eexists; split_and!;
      [by eapply step_pstore|done|done|by eapply step_pcas_ok|done|done|by eapply step_pcas_fail|done|done].
  - destruct (decide (i < n)) as [Hi|].
    + destruct (Hb Hi) as [[x Hx] Hs]. do 3 eexists; split_and!; [by eapply step_pcopy|done|].
      intros [=]. lia.
    + do 3 eexists; split_and!; [eapply step_pcopied; [done|lia]|done|by destruct sp].
  - apply dec_stable in Hw. subst. do 3 eexists; split_and!; [by eapply step_pturn|done|done].
  - do 3 eexists; split_and!; [by eapply step_ppublish|done|done].
  - do 3 eexists. split_and!; [by apply step_chead|done|done].
  - destruct (c_decide (u32 (u32 pt0 - u32 h)) max b) eqn:E; do 3 eexists; split_and!;
      [by eapply step_cempty|done|done|by eapply step_cfound|done|done].
  - destruct (decide (sc = true)); [|assert (sc = false) by (by destruct sc);
      destruct (decide (u32 ch0 = u32 h))]; do 3 eexists; split_and!;
      [by eapply step_cstore|done|done|by eapply step_ccas_ok|done|done|by eapply step_ccas_fail|done|done].
  - destruct (decide (i < n)) as [Hi|].
    + destruct (Hb Hi) as [[x Hx] Hs]. do 3 eexists; split_and!; [by eapply step_ccopy|done|].
      intros [=]. lia.
    + do 3 eexists; split_and!; [eapply step_ccopied; [done|lia]|done|by destruct sc].
  - apply dec_stable in Hw. subst. do 3 eexists; split_and!; [by eapply step_cturn|done|done].
  - do 3 eexists; split_and!; [by eapply step_cpublish|done|done].
Qed.

(** Whoever waits waits for somebody that does not. *)
Lemma some_thread_ready s t st : inv s → threads s !! t = Some st → finished st = false →
  ∃ t' st', threads s !! t' = Some st' ∧ finished st' = false ∧ ¬ waits s st'.
Proof.
  intros Hinv Ht Hf. pose proof (inv_thr _ Hinv _ _ Ht) as Hst.
  assert (∀ t st h n, threads s !! t = Some st → p_resv st = Some (h, n) → pt s <= h) as Hp.
  { intros t' st' h n H R. pose proof (inv_thr _ Hinv _ _ H) as H'.
    destruct st'; simplify_eq/=; unfold p_held in H'; lia. }
  assert (∀ t st h n, threads s !! t = Some st → c_resv st = Some (h, n) → ct s <= h) as Hc.
  { intros t' st' h n H R. pose proof (inv_thr _ Hinv _ _ H) as H'.
    destruct st'; simplify_eq/=; unfold c_held in H'; lia. }
  destruct st eqn:Est; simpl in Hf; try done; simpl in Hst;
    try (exists t, st; subst st; simpl; tauto).
  - destruct (oldest_reservation p_resv (threads s) (pt s) (ph s)) as (t' & st' & n' & H' & R);
      [unfold p_held in Hst; lia|by apply inv_pcover|done|].
    exists t', st'. split_and!; [done|by destruct st'|]. destruct st'; simplify_eq/=; tauto.
  - destruct (oldest_reservation c_resv (threads s) (ct s) (ch s)) as (t' & st' & n' & H' & R);
      [unfold c_held in Hst; lia|by apply inv_ccover|done|].
    exists t', st'. split_and!; [done|by destruct st'|]. destruct st'; simplify_eq/=; tauto.
Qed.
(** ** The scheduler

    The same steps as a function of the thread that moves. *)
Definition next (s : state) (t : nat) : option (event * state) :=
  let '(St ph pt ch ct sl lg th) := s in
  let tau st := Some (Tau, St ph pt ch ct sl lg (<[t := st]> th)) in
  match th !! t with
  | Some (PStart obj max b) => tau (PHead obj max b ph)
  | Some (PHead obj max b h) =>
      let free := u32 (mask + u32 ct - u32 h) in
      match p_decide free max b with
      | inl ret => Some (EnqFail t (needed max b), St ph pt ch ct sl lg (<[t := PDone ret 0 obj]> th))
      | inr n => tau (PCas obj max b h n free)
      end
  | Some (PCas obj max b h n free) =>
      if sp then
        Some (Tau, St (h + n) pt ch ct sl (take (Z.to_nat h) lg ++ take (Z.to_nat n) obj)
                      (<[t := PCopy obj b h n free 0]> th))
      else if u32 ph =? u32 h then
        Some (Tau, St (ph + n) pt ch ct sl (lg ++ take (Z.to_nat n) obj) (<[t := PCopy obj b h n free 0]> th))
      else tau (PStart obj max b)
  | Some (PCopy obj b h n free i) =>
      if i <? n then
        x ← obj !! Z.to_nat i;
        if (slot (u32 h + i) <? length sl)%nat then
          Some (Tau, St ph pt ch ct (<[slot (u32 h + i) := x]> sl) lg (<[t := PCopy obj b h n free (i + 1)]> th))
        else None
      else tau ((if sp then PPublish else PWait) obj b h n (enqueue_ret mask free n wm b))
  | Some (PWait obj b h n ret) => if u32 pt =? u32 h then tau (PPublish obj b h n ret) else Some (Tau, s)
  | Some (PPublish obj b h n ret) =>
      Some (Enq t (take (Z.to_nat n) obj), St ph (h + n) ch ct sl lg (<[t := PDone ret n obj]> th))
  | Some (CStart tbl max b) => tau (CHead tbl max b ch)
  | Some (CHead tbl max b h) =>
      match c_decide (u32 (u32 pt - u32 h)) max b with
      | inl ret =>
          Some (DeqFail t (needed max b),
                St ph pt ch ct sl lg (<[t := CDone ret 0 tbl]> th))
      | inr n => tau (CCas tbl max b h n)
      end
  | Some (CCas tbl max b h n) =>
      let ev := Deq t (take (Z.to_nat n) (drop (Z.to_nat ch) lg)) in
      if sc then Some (ev, St ph pt (h + n) ct sl lg (<[t := CCopy tbl b h n 0]> th))
      else if u32 ch =? u32 h then Some (ev, St ph pt (ch + n) ct sl lg (<[t := CCopy tbl b h n 0]> th))
      else tau (CStart tbl max b)
  | Some (CCopy tbl b h n i) =>
      if i <? n then
        x ← sl !! slot (u32 h + i);
        if (Z.to_nat i <? length tbl)%nat then tau (CCopy (<[Z.to_nat i := x]> tbl) b h n (i + 1)) else None
      else tau ((if sc then CPublish else CWait) tbl b h n)
  | Some (CWait tbl b h n) => if u32 ct =? u32 h then tau (CPublish tbl b h n) else Some (Tau, s)
  | Some (CPublish tbl b h n) =>
      Some (Tau, St ph pt ch (h + n) sl lg
                    (<[t := CDone (match b with RTE_RING_QUEUE_FIXED => 0 | RTE_RING_QUEUE_VARIABLE => n end)
                                  n tbl]> th))
  | _ => None
  end.

Lemma next_step s t e s' : next s t = Some (e, s') → step s e s'.
Proof.
  destruct s as [ph0 pt0 ch0 ct0 sl lg th]. simpl. intros H.
  destruct (th !! t) as [st|] eqn:Ht; [|done]. destruct st; simpl in H; try done;
    repeat match type of H with
    | (if ?c then _ else _) = Some _ => destruct c eqn:?
    | match ?c with inl _ => _ | inr _ => _ end = Some _ => destruct c eqn:?
    | mbind _ ?c = Some _ => destruct c eqn:?; simpl in H
    end; try discriminate H; injection H as <- <-;
    rewrite ?Nat.ltb_lt, ?Z.ltb_lt, ?Z.ltb_ge, ?Z.eqb_eq, ?Z.eqb_neq in *; try (by eapply step_cspin); econstructor; eauto.
Qed.
(** A run under a schedule: the thread of each step. *)
Fixpoint run_schedule (ts : list nat) (s : state) : option (list event * state) :=
  match ts with
  | [] => Some ([], s)
  | t :: ts =>
      '(e, s1) ← next s t;
      '(tr, s2) ← run_schedule ts s1;
      Some (e :: tr, s2)
  end.

Definition loops_fresh (s : state) : bool :=
  forallb (λ '(_, st),
    match p_loop st with Some h => ph s - h <? 2 ^ 31 | None => true end &&
    match c_loop st with Some h => ch s - h <? 2 ^ 31 | None => true end) (map_to_list (threads s)).

Fixpoint schedule_fresh (ts : list nat) (s : state) : bool :=
  match ts with
  | [] => true
  | t :: ts => match next s t with
               | Some (_, s1) => loops_fresh s1 && schedule_fresh ts s1
               | None => false
               end
  end.

Lemma loops_fresh_ok s : sp = false → sc = false → loops_fresh s = true → used_properly s.
Proof.
  intros Hsp Hsc Hf. unfold loops_fresh in Hf. rewrite forallb_forall in Hf.
  assert (∀ t st, threads s !! t = Some st →
    match p_loop st with Some h => ph s - h <? 2 ^ 31 | None => true end = true ∧
    match c_loop st with Some h => ch s - h <? 2 ^ 31 | None => true end = true) as H.
  { intros t st Ht. apply andb_true_iff, (Hf (t, st)), list_elem_of_In, elem_of_map_to_list, Ht. }
  split; try congruence; intros t st h Ht Hl; destruct (H _ _ Ht) as [H1 H2]; rewrite Hl in *; lia.
Qed.

Lemma schedule_exec ts s tr tr' s' : sp = false → sc = false → exec s tr → schedule_fresh ts s = true →
  run_schedule ts s = Some (tr', s') → exec s' (tr ++ tr').
Proof.
  intros Hsp Hsc. revert s tr tr' s'. induction ts as [|t ts IH]; intros s tr tr' s' He Hf Hr; simpl in *.
  - simplify_eq. by rewrite app_nil_r.
  - destruct (next s t) as [[e s1]|] eqn:En; simpl in Hr; [|done].
    apply andb_true_iff in Hf as [Hf1 Hf].
    destruct (run_schedule ts s1) as [[tr1 s2]|] eqn:Er; simplify_eq/=.
    rewrite cons_middle, app_assoc. eapply IH; [|done..].
    eapply exec_step; [done|by eapply next_step|by apply loops_fresh_ok].
Qed.

(** An enqueue fails only if fewer slots are free than it needs, where a slot
    is taken from its reservation by an enqueue to its release by a dequeue. *)
Lemma enq_fail_full s t n s' : inv s → used_properly s → step s (EnqFail t n) s' → mask < ph s - ct s + n.
Proof.
  intros Hinv Hu Hs. inversion Hs as [|? ? ? ? ? ? ? ? ? ? ? h ret Hth Hd| | | | | | | | | | | | | | | | | | | |]; subst.
  pose proof (inv_thr _ Hinv _ _ Hth) as Ht. pose proof (inv_idx _ Hinv) as Hi.
  pose proof (p_fresh _ Hu _ _ h Hth eq_refl) as Hf. simpl in *. pose proof size_bounds. unfold mask in *.
  assert (u32 (size - 1 + u32 ct0 - u32 h) = size - 1 + ct0 - h) as E.
  { rewrite u32_sub_r, <- Z.add_sub_assoc, <- (u32_add_r _ (u32 ct0 - h)), u32_sub_l, u32_add_r, u32_small; [lia|]. unfold is_u32. lia. }
  unfold p_decide in Hd. rewrite E in Hd. unfold needed. revert Hd. tests; destruct b; tests; intros [= <-]; lia.
Qed.

(** ** Claims *)

(** C1: Any number of producers and consumers, multi-process or not, may run
    their enqueue and dequeue calls, each of at least one object, on one ring
    interleaved at every shared access. The steps then act on the ring's
    contents as single operations on a FIFO queue of at most [2^k - 1] objects:
    a publication appends the caller's objects, a reservation takes the oldest
    ones, a failed dequeue found fewer than it needed, and a failed enqueue
    fewer free slots than it needed. And each call that has returned took
    effect exactly once and says so: the objects of an enqueue are the first [n]
    of its caller's table, those a dequeue stored in it are the [n] the queue
    gave it, and the return value is the documented one for [n] of the [max]
    objects asked for ([enq_result], [deq_result]). *)
Theorem ring_linearizable s tr (He : exec s tr) :
  spec_run [] tr (contents s) ∧
  (∀ t n s', step s (EnqFail t n) s' → mask < ph s - ct s + n) ∧
  (∀ t ret n obj, threads s !! t = Some (PDone ret n obj) → enq_of t tr = moved n obj ∧ deq_of t tr = [] ∧
     ∃ max b, calls !! t = Some (PStart obj max b) ∧ enq_result max b ret n) ∧
  (∀ t ret n tbl, threads s !! t = Some (CDone ret n tbl) → deq_of t tr = moved n tbl ∧ enq_of t tr = [] ∧
     ∃ tbl0 max b, calls !! t = Some (CStart tbl0 max b) ∧ length tbl = length tbl0 ∧ deq_result max b ret n).
Proof.
  destruct (refines_exec _ _ He) as (Hi & Hu & Hr & Htr). pose proof (served_exec _ _ He) as Hsv.
  split_and!; [done|intros; by eapply enq_fail_full| |]; intros t ret n l Ht;
    destruct (Hsv _ _ Ht) as (st0 & H0 & Hs0); specialize (Htr t); rewrite Ht in Htr; simpl in Htr;
    (split; [tauto|]); (split; [tauto|]); destruct st0; simpl in Hs0; try done; destruct Hs0 as [E Hres].
  - subst. eauto.
  - eauto 10.
Qed.

(** The copy loops of concurrent calls never leave the ring or the
    caller's table, and no two calls hold the same slot: the slots reserved
    for writing are disjoint from each other and from the published ones. *)
Theorem ring_conc_memory_safe s tr (He : exec s tr) :
  (∀ t st, threads s !! t = Some st → copy_in_bounds s st) ∧
  (∀ t t' st st' h n h' n' i j, t ≠ t' → threads s !! t = Some st → threads s !! t' = Some st' →
     p_resv st = Some (h, n) → (p_resv st' = Some (h', n') ∨ c_resv st' = Some (h', n')) →
     0 <= i < n → 0 <= j < n' → slot (u32 h + i) ≠ slot (u32 h' + j)).
Proof.
  pose proof (inv_exec _ _ He) as Hinv. split; [intros; by eapply copies_in_bounds|].
  intros t t' st st' h n h' n' i j Hne Ht Ht' R R' Hi Hj. rewrite !slot_u32.
  pose proof (inv_idx _ Hinv) as Hidx. unfold mask in Hidx.
  destruct (tinv_presv s st h n (inv_thr _ Hinv _ _ Ht) R) as (? & ? & ?).
  destruct R' as [R'|R'].
  - destruct (tinv_presv s st' h' n' (inv_thr _ Hinv _ _ Ht') R') as (? & ? & ?).
    pose proof (inv_pdisj _ Hinv t t' _ _ _ _ _ _ Hne Ht Ht' R R'). apply slot_ne; lia.
  - destruct (tinv_cresv s st' h' n' (inv_thr _ Hinv _ _ Ht') R') as (? & ? & ?). apply slot_ne; lia.
Qed.

(** C39: Concurrent calls that move at least one object each never block one
    another for good: as long as a call has not returned, some call can take a step that changes its own state,
    and is thus not another turn of a waiting loop. *)
Theorem ring_conc_no_deadlock s tr t st (He : exec s tr) (Ht : threads s !! t = Some st)
    (Hf : finished st = false) :
  ∃ t' st' e s', step s e s' ∧ threads s' = <[t' := st']> (threads s) ∧ threads s !! t' ≠ Some st'.
Proof.
  destruct (refines_exec _ _ He) as (Hinv & Hu & _).
  destruct (some_thread_ready _ _ _ Hinv Ht Hf) as (t' & st' & Ht' & Hf' & Hw).
  destruct (thread_moves _ _ _ Hinv Hu Ht' Hf' Hw) as (e & s' & st2 & Hs & Hth & Hne).
  exists t', st2, e, s'. split_and!; [done|done|congruence].
Qed.
End ring.

(** ** A concrete run: two producers and a consumer on a ring of eight slots *)
Definition demo_init : @state nat :=
  St 0 0 0 0 [0; 0; 0; 0; 0; 0; 0; 0]%nat []
     (<[0%nat := PStart [11; 12]%nat 2 RTE_RING_QUEUE_FIXED]>
     (<[1%nat := PStart [21; 22]%nat 2 RTE_RING_QUEUE_VARIABLE]>
     (<[2%nat := CStart [0; 0; 0]%nat 3 RTE_RING_QUEUE_VARIABLE]> ∅))).

(** Both producers read the same head; the second wins the compare-and-set and
    the first retries, copies, and waits for the second (up to here
    [demo_waiting]); the second copies and publishes, then the first; the
    consumer takes three of the four objects. *)
Definition demo_waiting : list nat := [0; 1; 0; 1; 1; 0; 0; 0; 0; 0; 0; 0; 0]%nat.
Definition demo_schedule : list nat := demo_waiting ++ [1; 1; 1; 1; 1; 0; 0; 2; 2; 2; 2; 2; 2; 2; 2; 2]%nat.

Definition demo (ts : list nat) : option (list event * @state nat) := run_schedule 3 8 false false ts demo_init.

Lemma demo_exec ts tr s : schedule_fresh 3 8 false false ts demo_init = true → demo ts = Some (tr, s) →
  exec 3 8 false false (threads demo_init) s tr.
Proof.
  intros Hf H. change tr with ([] ++ tr). eapply (schedule_exec 3 8 false false (threads demo_init) ts demo_init); [done|done| |done|done].
  apply exec_init; [done|]. intros t st Ht. unfold demo_init in Ht.
  repeat (apply lookup_insert_Some in Ht as [[_ <-]|[_ Ht]]; [simpl; lia|]). by rewrite lookup_empty in Ht.
Qed.

Lemma ring_linearizable_witness : ∃ tr s, demo demo_schedule = Some (tr, s) ∧ contents s = [12%nat] ∧
  spec_run 3 [] tr (contents s) ∧ deq_of 2 tr = [[21; 22; 11]%nat] ∧ enq_of 0 tr = [[11; 12]%nat].
Proof.
  destruct (demo demo_schedule) as [[tr s]|] eqn:E; [|vm_compute in E; done].
  assert (exec 3 8 false false (threads demo_init) s tr) as He by (apply (demo_exec demo_schedule); [vm_compute; done|done]).
  destruct (ring_linearizable 3 8 false false (threads demo_init) ltac:(lia) s tr He) as (H1 & _ & H2 & H3).
  exists tr, s. assert (Some (tr, s) = demo demo_schedule) as E' by done. vm_compute in E'.
  injection E' as -> ->. split_and!; [done|vm_compute; done|done| |].
  - by apply (H3 2%nat 3 3 [21; 22; 11]%nat).
  - by apply (H2 0%nat 0 2 [11; 12]%nat).
Defined.

Lemma ring_conc_memory_safe_witness : ∃ tr s, demo (take 9 demo_schedule) = Some (tr, s) ∧
  copy_in_bounds 3 s (PCopy [11; 12]%nat RTE_RING_QUEUE_FIXED 2 2 5 0).
Proof.
  destruct (demo (take 9 demo_schedule)) as [[tr s]|] eqn:E; [|vm_compute in E; done].
  assert (exec 3 8 false false (threads demo_init) s tr) as He by (apply (demo_exec (take 9 demo_schedule)); [vm_compute; done|done]).
  destruct (ring_conc_memory_safe 3 8 false false (threads demo_init) ltac:(lia) s tr He) as (H1 & _).
  exists tr, s. split; [done|]. apply (H1 0%nat). vm_compute in E. by injection E as <- <-.
Defined.

Lemma ring_conc_no_deadlock_witness : ∃ tr s, demo demo_waiting = Some (tr, s) ∧
  threads s !! 0%nat = Some (PWait [11; 12]%nat RTE_RING_QUEUE_FIXED 2 2 0) ∧
  ∃ t' st' e s', step 3 8 false false s e s' ∧ threads s' = <[t' := st']> (threads s) ∧ threads s !! t' ≠ Some st'.
Proof.
  destruct (demo demo_waiting) as [[tr s]|] eqn:E; [|vm_compute in E; done].
  assert (exec 3 8 false false (threads demo_init) s tr) as He by (apply (demo_exec demo_waiting); [vm_compute; done|done]).
  assert (threads s !! 0%nat = Some (PWait [11; 12]%nat RTE_RING_QUEUE_FIXED 2 2 0)) as Ht.
  { vm_compute in E. by injection E as <- <-. }
  exists tr, s. split_and!; [done|done|].
  by eapply (ring_conc_no_deadlock 3 8 false false (threads demo_init) ltac:(lia) s tr 0%nat _ He Ht).
Defined.

(** ** Calls that move no object

    The callers of [starting] move at least one object. The multi-producer
    code does not test for zero: such a call reserves nothing and still waits
    for its turn. *)
Definition zero_init : @state nat :=
  St 0 0 0 0 [0; 0; 0; 0]%nat []
     (<[0%nat := PStart [] 0 RTE_RING_QUEUE_FIXED]> (<[1%nat := PStart [7%nat] 1 RTE_RING_QUEUE_FIXED]> ∅)).

Definition zero_schedule : list nat := [0; 0; 0; 1; 1; 1; 1; 1; 1; 1; 0]%nat.

(** A multi-producer enqueue of zero objects that runs beside another
    enqueue can wait for ever: here the other call has reserved the slot at the
    same index, published it and returned, and every step that is left is
    another turn of the waiting loop. *)
Theorem ring_zero_objects_spin :
  ∃ tr s, run_schedule 2 4 false false zero_schedule zero_init = Some (tr, s) ∧
    threads s !! 0%nat = Some (PWait [] RTE_RING_QUEUE_FIXED 0 0 0) ∧
    threads s !! 1%nat = Some (PDone 0 1 [7%nat]) ∧
    ∀ e s', step 2 4 false false s e s' → e = Tau ∧ s' = s.
Proof.
  destruct (run_schedule 2 4 false false zero_schedule zero_init) as [[tr s]|] eqn:E; [|vm_compute in E; done].
  exists tr, s. vm_compute in E. injection E as <- <-. split_and!; [done..|]. intros e s' Hs.
  assert (∀ t (st : @tstate nat), (<[0%nat := PWait [] RTE_RING_QUEUE_FIXED 0 0 0]>
    (<[1%nat := PDone 0 1 [7%nat]]> ∅) : gmap nat tstate) !! t = Some st →
    st = PWait [] RTE_RING_QUEUE_FIXED 0 0 0 ∨ st = PDone 0 1 [7%nat]) as Hth.
  { intros t st H. apply lookup_insert_Some in H as [[_ <-]|[_ H]]; [by left|].
    apply lookup_insert_Some in H as [[_ <-]|[_ H]]; [by right|]. by rewrite lookup_empty in H. }
  inversion Hs; subst;
    match goal with H : lookup _ _ = Some _ |- _ => destruct (Hth _ _ H) as [[=]|[=]]; subst end; done.
Qed.
