(* ===== verification/RingReg.v ===== *)
(** * librte_ring: named rings

    [rte_ring_create], [rte_ring_lookup] and [rte_ring_free]
    ([lib/librte_ring/rte_ring.c]) over the list of rings the processes share,
    and the names the patch panel gives its rings
    ([examples/multi_process/patch_panel/shared/common.h]). An address is a
    [Z]; the memory zone a ring is placed in is an input: its address and what
    its memory holds, or a failure. *)
From S2P Require Import Prelude CStr Ring.
Open Scope Z_scope.

Section reg.
Context {A : Type}.

(** The tail queue of rings in creation order, the rings in memory, and the
    calling thread's [rte_errno]. *)
Record ring_env := RingEnv {
  ring_list : list Z; rings : gmap Z (rte_ring A); rte_errno : Z }.
#[export] Instance ring_env_upd : Updatable ring_env := λ e, RingEnv (ring_list e) (rings e) (rte_errno e).

Record memzone := Memzone { mz_addr : Z; mz_socket : Z; mz_table : list A }.

Definition with_memzone (r : rte_ring A) (socket : Z) : rte_ring A :=
  Rte_ring (rname r) (rflags r) (Some socket) (rprod r) (rcons r) (rtable r).

(** [te] is the outcome of allocating the list entry, [mz] of
    [rte_memzone_reserve] for [ring_size] bytes (with the [rte_errno] it
    leaves). [None] is the NULL pointer. *)
Definition rte_ring_create (e : ring_env) (nm : string) (count flags : Z)
    (te : bool) (mz : memzone + Z) : option Z * ring_env :=
  let ring_size := rte_ring_get_memsize count in
  if ring_size <? 0 then (None, e <| rte_errno := ring_size |>)
  else if negb te then (None, e <| rte_errno := ENOMEM |>)
  else match mz with
  | inl m =>
      let r := with_memzone (rte_ring_init (mz_table m) nm count flags) (mz_socket m) in
      (Some (mz_addr m),
       e <| rings := <[mz_addr m := r]> (rings e) |> <| ring_list := ring_list e ++ [mz_addr m] |>)
  | inr err => (None, e <| rte_errno := err |>)
  end.

(** The outer [None] is the access to a ring that is not there. *)
Fixpoint lookup_in (rs : gmap Z (rte_ring A)) (l : list Z) (nm : string) : option (option Z) :=
  match l with
  | [] => Some None
  | a :: l =>
      r ← rs !! a;
      if strncmp_eq nm (rname r) (Z.to_nat RTE_RING_NAMESIZE) then Some (Some a) else lookup_in rs l nm
  end.
Definition rte_ring_lookup (e : ring_env) (nm : string) : option (option Z * ring_env) :=
  found ← lookup_in (rings e) (ring_list e) nm;
  match found with
  | Some a => Some (Some a, e)
  | None => Some (None, e <| rte_errno := ENOENT |>)
  end.

(** [TAILQ_REMOVE] of the first entry for [a]. *)
Fixpoint remove_first (a : Z) (l : list Z) : list Z :=
  match l with
  | [] => []
  | b :: l => if b =? a then l else b :: remove_first a l
  end.

(** [mzfree] is the result of [rte_memzone_free]. *)
Definition rte_ring_free (e : ring_env) (r : option Z) (mzfree : Z) : option ring_env :=
  match r with
  | None => Some e
  | Some a =>
      x ← rings e !! a;
      match rmemzone x with
      | None => Some e
      | Some _ =>
          if negb (mzfree =? 0) then Some e
          else Some (e <| rings := delete a (rings e) |> <| ring_list := remove_first a (ring_list e) |>)
      end
  end.

(** ** What holds between calls *)

Record env_ok (e : ring_env) : Prop := {
  env_nodup : NoDup (ring_list e);
  env_rings : ∀ a, a ∈ ring_list e → is_Some (rings e !! a);
  env_names : ∀ a r, rings e !! a = Some r → strlen (rname r) < RTE_RING_NAMESIZE }.

(** The ring a name stands for: the oldest one created with it. *)
Definition named (e : ring_env) (nm : string) : option Z :=
  head (filter (λ a, rname <$> rings e !! a = Some nm) (ring_list e)).

Lemma strncmp_short a b n : (String.length a < n)%nat → (String.length b < n)%nat →
  strncmp_eq a b n = bool_decide (a = b).
Proof.
  intros Ha Hb. unfold strncmp_eq. rewrite !substring_all by lia.
  destruct (String.eqb_spec a b); symmetry; [by apply bool_decide_eq_true|by apply bool_decide_eq_false].
Qed.

Lemma lookup_in_correct e l nm : env_ok e → strlen nm < RTE_RING_NAMESIZE →
  (∀ a, a ∈ l → is_Some (rings e !! a)) →
  lookup_in (rings e) l nm = Some (head (filter (λ a, rname <$> rings e !! a = Some nm) l)).
Proof.
  intros Hok Hnm. unfold strlen, RTE_RING_NAMESIZE in *. induction l as [|a l IH]; intros Hl; [done|].
  cbn [lookup_in]. destruct (Hl a) as [r Hr]; [by left|]. rewrite Hr. cbn [mbind option_bind].
  pose proof (env_names _ Hok _ _ Hr) as Hn. unfold strlen, RTE_RING_NAMESIZE in *.
  rewrite strncmp_short by lia. rewrite filter_cons. case_bool_decide as E.
  - subst nm. by rewrite decide_True by (by rewrite Hr).
  - rewrite decide_False by (rewrite Hr; simpl; congruence). apply IH. intros b Hb. apply Hl. by right.
Qed.

Lemma ring_lookup_named e nm : env_ok e → strlen nm < RTE_RING_NAMESIZE →
  ∃ e', rte_ring_lookup e nm = Some (named e nm, e') ∧ ring_list e' = ring_list e ∧ rings e' = rings e.
Proof.
  intros Hok Hnm. unfold rte_ring_lookup.
  rewrite (lookup_in_correct e (ring_list e) nm Hok Hnm (env_rings _ Hok)). simpl. unfold named.
  destruct (head _); by eexists.
Qed.

Lemma filter_ext_in {B} (P1 P2 : B → Prop) `{!∀ x, Decision (P1 x), !∀ x, Decision (P2 x)} (l : list B) :
  (∀ x, x ∈ l → P1 x ↔ P2 x) → filter P1 l = filter P2 l.
Proof.
  induction l as [|x l IH]; intros Heq; [done|]. rewrite !filter_cons, IH by (intros; apply Heq; by right).
  assert (P1 x ↔ P2 x) as Hx by (apply Heq; by left). by destruct (decide (P1 x)), (decide (P2 x)); try tauto.
Qed.

Lemma named_create e a r nm : a ∉ ring_list e →
  named (e <| rings := <[a := r]> (rings e) |> <| ring_list := ring_list e ++ [a] |>) nm =
    match named e nm with Some b => Some b | None => if decide (rname r = nm) then Some a else None end.
Proof.
  intros Ha. unfold named. simpl. rewrite filter_app.
  rewrite (filter_ext_in _ (λ b, rname <$> rings e !! b = Some nm)).
  - destruct (filter (λ b, rname <$> rings e !! b = Some nm) (ring_list e)); [|done]. simpl.
    rewrite filter_cons, lookup_insert_eq. simpl. destruct (decide (rname r = nm)) as [->|Hne].
    + by rewrite decide_True.
    + rewrite decide_False; [done|congruence].
  - intros b Hb. rewrite lookup_insert_ne; [done|]. intros ->. done.
Qed.

Lemma named_free e a nm : NoDup (ring_list e) →
  named (e <| rings := delete a (rings e) |> <| ring_list := remove_first a (ring_list e) |>) nm =
    head (filter (λ b, b ≠ a ∧ rname <$> rings e !! b = Some nm) (ring_list e)).
Proof.
  intros Hd. unfold named. simpl. induction (ring_list e) as [|b l IH]; [done|].
  apply NoDup_cons in Hd as [Hb Hd]. simpl. destruct (Z.eqb_spec b a) as [->|Hne].
  - rewrite filter_cons, decide_False by tauto. f_equal. apply filter_ext_in.
    intros c Hc. rewrite lookup_delete_ne by (intros ->; done). split; [|tauto].
    intros; split; [intros ->; done|done].
  - rewrite !filter_cons. rewrite lookup_delete_ne by done.
    destruct (decide (rname <$> rings e !! b = Some nm)).
    + by rewrite decide_True.
    + rewrite decide_False by tauto. by apply IH.
Qed.

Lemma env_create_ok e nm count flags te mz a e' : env_ok e → strlen nm < RTE_RING_NAMESIZE →
  (∀ m, mz = inl m → mz_addr m ∉ ring_list e) →
  rte_ring_create e nm count flags te mz = (a, e') → env_ok e'.
Proof.
  intros Hok Hnm Hfresh. unfold rte_ring_create. case_match; [intros [= <- <-]; by destruct Hok|].
  case_match; [intros [= <- <-]; by destruct Hok|]. destruct mz as [m|err]; [|intros [= <- <-]; by destruct Hok].
  intros [= <- <-]. specialize (Hfresh _ eq_refl). destruct Hok as [Hd Hr Hn]. split; simpl.
  - apply NoDup_app. split_and!; [done| |apply NoDup_singleton]. intros x Hx Hx'%list_elem_of_singleton. by subst x.
  - intros b [Hb|Hb%list_elem_of_singleton]%elem_of_app; [|subst b; rewrite lookup_insert_eq; eauto].
    rewrite lookup_insert_ne by (intros <-; done). by apply Hr.
  - intros b r [[<- <-]|[_ Hb]]%lookup_insert_Some; [|by eapply Hn]. simpl.
    rewrite snprintf_fits by done. done.
Qed.

(** A ring created with a name that is not in use is found again by that
    name, and by it alone: every other name stands for the ring it stood for
    before. After the ring is freed its name is free again and the others are
    unchanged. *)
Theorem ring_create_lookup e nm count flags m
    (Hok : env_ok e) (Hnm : strlen nm < RTE_RING_NAMESIZE) (Hnew : named e nm = None)
    (Haddr : mz_addr m ∉ ring_list e) (Hcount : 0 < rte_ring_get_memsize count) :
  ∃ e1, rte_ring_create e nm count flags true (inl m) = (Some (mz_addr m), e1) ∧ env_ok e1 ∧
    (∃ e2, rte_ring_lookup e1 nm = Some (Some (mz_addr m), e2)) ∧
    (∀ nm', strlen nm' < RTE_RING_NAMESIZE → nm' ≠ nm → ∃ e2, rte_ring_lookup e1 nm' = Some (named e nm', e2)) ∧
    ∃ e3, rte_ring_free e1 (Some (mz_addr m)) 0 = Some e3 ∧ ∀ nm', named e3 nm' = named e nm'.
Proof.
  destruct (rte_ring_create e nm count flags true (inl m)) as [a e1] eqn:E.
  assert (env_ok e1) as Hok1 by (eapply env_create_ok; [done|done| |done]; intros m' [= <-]; done).
  unfold rte_ring_create in E. destruct (Z.ltb_spec (rte_ring_get_memsize count) 0); [lia|]. simpl in E.
  set (r := with_memzone _ _) in E. assert (rname r = nm) as Hr by (apply snprintf_fits; done).
  injection E as <- <-. eexists. split; [done|]. split; [done|]. split_and!.
  - destruct (ring_lookup_named _ nm Hok1 Hnm) as (e2 & -> & _). rewrite named_create by done.
    rewrite Hnew, decide_True by done. by eexists.
  - intros nm' Hn' Hne. destruct (ring_lookup_named _ nm' Hok1 Hn') as (e2 & -> & _). rewrite named_create by done.
    rewrite decide_False by congruence. destruct (named e nm'); by eexists.
  - unfold rte_ring_free. simpl. rewrite lookup_insert_eq. simpl. eexists. split; [done|]. intros nm'.
    etrans; [exact (named_free _ (mz_addr m) nm' (env_nodup _ Hok1))|]. unfold named. simpl. rewrite filter_app, filter_cons, decide_False by tauto. simpl.
    rewrite app_nil_r. f_equal. apply filter_ext_in. intros b Hb.
    assert (b ≠ mz_addr m) by (intros ->; done). rewrite lookup_insert_ne by done. tauto.
Qed.
End reg.

(** ** The names of the patch panel ([shared/common.h])

    Each name is printed into a static buffer with room for a number of three
    digits: [snprintf] is given the size of the format string plus one. *)
Definition name_of (prefix : string) (id : Z) : string :=
  snprintf (strlen prefix + 3 + 1) (prefix +:+ fmt_u id).
Definition get_rx_queue_name (id : Z) : string := name_of "MProc_Ring_" id.
Definition get_ring_name (id : Z) : string := name_of "HSM_Ring_" id.
Definition get_vhost_backend_name (id : Z) : string := name_of "eth_vhost" id.
Definition get_vhost_iface_name (id : Z) : string := name_of "/tmp/sock" id.

Arguments ring_env : clear implicits.
Arguments memzone : clear implicits.

Lemma pretty_N_inj_Z a b : 0 <= a < 2 ^ 32 → 0 <= b < 2 ^ 32 → fmt_u a = fmt_u b → a = b.
Proof.
  intros Ha Hb E. unfold fmt_u in E. rewrite !u32_small in E by done.
  apply (inj pretty) in E. lia.
Qed.

Lemma string_app_inj p a b : p +:+ a = p +:+ b → a = b.
Proof. induction p as [|c p IH]; simpl; [done|]. intros [= E]. by apply IH. Qed.

Lemma string_app_length a b : String.length (a +:+ b) = (String.length a + String.length b)%nat.
Proof. induction a as [|c a IH]; [done|]. simpl. f_equal. exact IH. Qed.

(** A number below 1000 has at most three digits. *)
Lemma fmt_u_short : forallb (λ n, (String.length (fmt_u (Z.of_nat n)) <=? 3)%nat) (seq 0 1000) = true.
Proof. vm_compute. reflexivity. Qed.

Lemma name_of_short prefix id : 0 <= id < 1000 → name_of prefix id = prefix +:+ fmt_u id.
Proof.
  intros Hid. unfold name_of. apply snprintf_fits. unfold strlen. rewrite string_app_length.
  pose proof fmt_u_short as H. rewrite forallb_forall in H. specialize (H (Z.to_nat id)).
  rewrite in_seq in H. specialize (H ltac:(lia)). apply Nat.leb_le in H. rewrite Z2Nat.id in H by lia. lia.
Qed.

Lemma name_of_inj prefix a b : 0 <= a < 1000 → 0 <= b < 1000 → name_of prefix a = name_of prefix b → a = b.
Proof. intros Ha Hb E. rewrite !name_of_short in E by lia. apply string_app_inj, pretty_N_inj_Z in E; lia. Qed.

Lemma rx_queue_name_length k : 0 <= k < 1000 → strlen (get_rx_queue_name k) < RTE_RING_NAMESIZE.
Proof.
  intros Hk. assert (forallb (λ k, strlen (get_rx_queue_name (Z.of_nat k)) <? RTE_RING_NAMESIZE) (seq 0 1000) = true) as H by (vm_compute; reflexivity).
  rewrite forallb_forall in H. specialize (H (Z.to_nat k)). rewrite in_seq, Z2Nat.id in H by lia. specialize (H ltac:(lia)). lia.
Qed.

(** Rings, shared-memory rings, vhost devices and vhost sockets with
    different numbers below 1000 have different names, and each name is the
    prefix followed by the number: a client finds its own ring and no other.
    From 1000 on the number is cut to three digits and names coincide. *)
Theorem spp_names_distinct a b (Ha : 0 <= a < 1000) (Hb : 0 <= b < 1000) (Hne : a ≠ b) :
  get_rx_queue_name a ≠ get_rx_queue_name b ∧ get_ring_name a ≠ get_ring_name b ∧
  get_vhost_backend_name a ≠ get_vhost_backend_name b ∧ get_vhost_iface_name a ≠ get_vhost_iface_name b ∧
  get_rx_queue_name a = "MProc_Ring_" +:+ fmt_u a ∧
  get_rx_queue_name 1000 = get_rx_queue_name 100 ∧ get_vhost_backend_name 1234 = get_vhost_backend_name 123.
Proof.
  assert (∀ p, name_of p a ≠ name_of p b) as H.
  { intros p E. by apply name_of_inj in E. }
  split_and!; [apply H..|by apply name_of_short|vm_compute; reflexivity|vm_compute; reflexivity].
Qed.

Lemma spp_names_distinct_witness : get_rx_queue_name 12 ≠ get_rx_queue_name 121 ∧ get_rx_queue_name 12 = "MProc_Ring_12".
Proof.
  destruct (spp_names_distinct 12 121 ltac:(lia) ltac:(lia) ltac:(lia)) as (H1 & _ & _ & _ & H2 & _).
  split; [exact H1|exact H2].
Defined.

(** ** Concrete rings *)
Definition reg0 : ring_env nat := RingEnv [] ∅ 0.
Definition zone (a : Z) : memzone nat := Memzone a 0 (replicate 8 0%nat).

Lemma ring_create_lookup_witness :
  ∃ e1, rte_ring_create reg0 (get_rx_queue_name 3) 8 RING_F_SP_ENQ true (inl (zone 4096)) = (Some 4096, e1) ∧
    (∃ e2, rte_ring_lookup e1 "MProc_Ring_3" = Some (Some 4096, e2)) ∧
    (∃ e2, rte_ring_lookup e1 "MProc_Ring_4" = Some (None, e2)).
Proof.
  destruct (ring_create_lookup reg0 (get_rx_queue_name 3) 8 RING_F_SP_ENQ (zone 4096)) as (e1 & H1 & _ & H2 & H3 & _).
  - split; [apply NoDup_nil_2|intros a Ha; by apply elem_of_nil in Ha|intros a r Hr; simpl in Hr; by rewrite lookup_empty in Hr].
  - vm_compute. reflexivity.
  - reflexivity.
  - apply not_elem_of_nil.
  - vm_compute. reflexivity.
  - exists e1. split_and!; [exact H1|exact H2|]. apply (H3 "MProc_Ring_4"); [vm_compute; reflexivity|done].
Defined.
