(* ===== verification/RingGroup.v ===== *)
(** * Groups of rings with numbered names

    The primary application makes a ring for each client, and the ring driver a
    ring for each queue of a device: one process creates them one after the
    other, others look them up. *)
From S2P Require Import Prelude CStr BurstQueue Ring RingSpec RingReg.
Open Scope Z_scope.

(** What the allocator answers when a ring is created: whether there is memory
    for the list entry, and the memory zone or the error. *)
Definition ring_answer (A : Type) : Type := bool * (memzone A + Z).

(** The loop, from ring [i] on: [create] tells whether the rings are created or
    looked up. The inner [None] is a NULL pointer, which ends the loop. *)
Fixpoint rings_from {A} (create : bool) (nm : Z → string) (count flags : Z) (answer : Z → ring_answer A) (n : nat) (i : Z) (e : ring_env A)
    : option (option (list Z) * ring_env A) :=
  match n with
  | O => Some (Some [], e)
  | S n =>
      '(r, e) ← (if create then let '(te, mz) := answer i in Some (rte_ring_create e (nm i) count flags te mz)
                 else rte_ring_lookup e (nm i));
      match r with
      | None => Some (None, e)
      | Some a =>
          '(rest, e) ← rings_from create nm count flags answer n (i + 1) e;
          Some (match rest with Some l => Some (a :: l) | None => None end, e)
      end
  end.

(** The first [max] names are different and fit. *)
Record names_ok (nm : Z → string) (max : Z) : Prop := {
  nm_length : ∀ i, 0 <= i < max → strlen (nm i) < RTE_RING_NAMESIZE;
  nm_inj : ∀ i j, 0 <= i < max → 0 <= j < max → nm i = nm j → i = j }.

Section group.
Context {A : Type} (zone : Z → memzone A) (nm : Z → string) (logn flags max : Z).
Context (Hnm : names_ok nm max) (Hlog : 1 <= logn <= 27).
Definition granted : Z → ring_answer A := λ i, (true, inl (zone i)).
Definition addr_of (i : Z) : Z := mz_addr (zone i).
Definition addrs (i : Z) (n : nat) : list Z := addr_of <$> seqZ i (Z.of_nat n).

(** The zones: room for the entries, at addresses of their own. *)
Record zones_ok (i : Z) (n : nat) (e : ring_env A) : Prop := {
  zo_range : 0 <= i ∧ i + Z.of_nat n <= max;
  zo_room : ∀ k, i <= k < i + Z.of_nat n → Z.of_nat (length (mz_table (zone k))) = 2 ^ logn;
  zo_addr : ∀ k, i <= k < i + Z.of_nat n → addr_of k ∉ ring_list e;
  zo_inj : ∀ k l, i <= k < i + Z.of_nat n → i <= l < i + Z.of_nat n → addr_of k = addr_of l → k = l;
  zo_new : ∀ k, i <= k < i + Z.of_nat n → named e (nm k) = None }.

(** Ring [k] is there, and empty. *)
Definition has_ring (e : ring_env A) (k : Z) : Prop :=
  named e (nm k) = Some (addr_of k) ∧ ∃ r, rings e !! addr_of k = Some r ∧ bq_rep r (2 ^ logn - 1) [].

Lemma addrs_S i n : addrs i (S n) = addr_of i :: addrs (i + 1) n.
Proof. unfold addrs. rewrite seqZ_cons by lia. rewrite fmap_cons. do 3 f_equal; lia. Qed.
Lemma addrs_length i n : length (addrs i n) = n.
Proof. unfold addrs. rewrite length_fmap, length_seqZ. lia. Qed.

Lemma memsize_ok : (rte_ring_get_memsize (2 ^ logn) <? 0) = false.
Proof.
  assert (logn ∈ seqZ 1 27) as Hin%list_elem_of_In by (apply elem_of_seqZ; lia).
  assert (forallb (λ k, negb (rte_ring_get_memsize (2 ^ k) <? 0)) (seqZ 1 27) = true) as Hall by (vm_compute; reflexivity).
  by apply negb_true_iff, (proj1 (forallb_forall _ _) Hall).
Qed.
Lemma create_one e i n : env_ok e → zones_ok i (S n) e →
  ∃ e1, rte_ring_create e (nm i) (2 ^ logn) flags true (inl (zone i)) = (Some (addr_of i), e1) ∧ env_ok e1 ∧ zones_ok (i + 1) n e1 ∧ has_ring e1 i ∧
    (∀ k, k < i → has_ring e k → has_ring e1 k).
Proof.
  intros Hok Hz. pose proof (zo_range _ _ _ Hz) as Hr. pose proof (nm_length _ _ Hnm i ltac:(lia)) as Hl.
  destruct (rte_ring_create e (nm i) (2 ^ logn) flags true (inl (zone i))) as [a e1] eqn:E.
  assert (addr_of i ∉ ring_list e) as Hfresh by (apply (zo_addr _ _ _ Hz); lia).
  assert (env_ok e1) as Hok1 by (eapply env_create_ok; [done|exact Hl| |exact E]; intros m [= <-]; done).
  unfold rte_ring_create in E. rewrite memsize_ok in E. cbn [negb] in E.
  set (r := with_memzone _ _) in E. assert (rname r = nm i) as Hrn by (apply snprintf_fits; done).
  injection E as <- <-. eexists. split; [done|]. split; [done|].
  assert (∀ s, named (e <| rings := <[addr_of i := r]> (rings e) |> <| ring_list := ring_list e ++ [addr_of i] |>) s =
    match named e s with Some b => Some b | None => if decide (rname r = s) then Some (addr_of i) else None end) as Hnamed
    by (intros s; by apply named_create).
  split_and!.
  - split; [lia| | | |]; intros k; [|intros Hk|intros l Hk Hl'|intros Hk].
    + intros Hk. apply (zo_room _ _ _ Hz). lia.
    + simpl. rewrite not_elem_of_app, not_elem_of_cons. split_and!; [apply (zo_addr _ _ _ Hz); lia| |apply not_elem_of_nil].
      intros E. apply (zo_inj _ _ _ Hz) in E; lia.
    + apply (zo_inj _ _ _ Hz); lia.
    + etrans; [apply Hnamed|]. rewrite (zo_new _ _ _ Hz) by lia. rewrite decide_False; [done|]. rewrite Hrn. intros E.
      apply (nm_inj _ _ Hnm) in E; lia.
  - split; [etrans; [apply Hnamed|]; rewrite (zo_new _ _ _ Hz) by lia; by rewrite decide_True|].
    exists r. split; [apply lookup_insert_eq|]. exists logn. split; [done|].
    destruct (init_rep logn (mz_table (zone i)) (nm i) flags) as [[] ? ? ?]; [lia|apply (zo_room _ _ _ Hz); lia|]. by split.
  - intros k Hk [Hnk (rk & Hrk & Hrep)]. split; [etrans; [apply Hnamed|]; by rewrite Hnk|].
    exists rk. split; [|done]. simpl. rewrite lookup_insert_ne; [done|]. intros E. change (addr_of i = addr_of k) in E. apply Hfresh. rewrite E.
    unfold named in Hnk. apply head_Some_elem_of, list_elem_of_filter in Hnk. apply Hnk.
Qed.
Lemma create_all n i e : env_ok e → zones_ok i n e →
  ∃ e1, rings_from true nm (2 ^ logn) flags granted n i e = Some (Some (addrs i n), e1) ∧ env_ok e1 ∧
    (∀ k, i <= k < i + Z.of_nat n → has_ring e1 k) ∧ (∀ k, k < i → has_ring e k → has_ring e1 k).
Proof.
  revert i e. induction n as [|n IH]; intros i e Hok Hz; cbn [rings_from].
  { exists e. split_and!; [done|done|lia|done]. }
  destruct (create_one e i n Hok Hz) as (e1 & E1 & Hok1 & Hz1 & Hi & Hold). assert (granted i = (true, inl (zone i))) as -> by done. cbv beta iota. rewrite E1. cbn [mbind option_bind].
  destruct (IH (i + 1) e1 Hok1 Hz1) as (e2 & -> & Hok2 & Hnew & Hkeep). cbn [mbind option_bind].
  exists e2. rewrite addrs_S. split_and!; [done|done| |].
  - intros k Hk. destruct (decide (k = i)) as [->|]; [apply Hkeep; [lia|done]|apply Hnew; lia].
  - intros k Hk Hh. apply Hkeep; [lia|]. by apply Hold.
Qed.
Lemma lookup_all answer n i e : env_ok e → 0 <= i → i + Z.of_nat n <= max → (∀ k, i <= k < i + Z.of_nat n → has_ring e k) →
  ∃ e1, rings_from false nm (2 ^ logn) flags answer n i e = Some (Some (addrs i n), e1) ∧ rings e1 = rings e ∧ ring_list e1 = ring_list e.
Proof.
  revert i e. induction n as [|n IH]; intros i e Hok Hi Hn Hh; cbn [rings_from]; [by exists e|].
  destruct (ring_lookup_named e (nm i) Hok (nm_length _ _ Hnm i ltac:(lia))) as (e1 & -> & Hl & Hr). cbn [mbind option_bind].
  rewrite (proj1 (Hh i ltac:(lia))).
  destruct (IH (i + 1) e1) as (e2 & -> & Hr2 & Hl2); [|lia|lia| |].
  - destruct Hok as [H1 H2 H3]. split; rewrite ?Hl, ?Hr; done.
  - intros k Hk. destruct (Hh k ltac:(lia)) as [H1 H2]. split; [unfold named in *; by rewrite Hl, Hr|by rewrite Hr].
  - cbn [mbind option_bind]. exists e2. rewrite addrs_S. split_and!; [done|congruence|congruence].
Qed.
Lemma addrs_nodup n e : zones_ok 0 n e → NoDup (addrs 0 n).
Proof.
  intros Hz. apply NoDup_fmap_2_strong; [|apply NoDup_seqZ]. intros k l Hk Hl E. apply elem_of_seqZ in Hk, Hl. by apply (zo_inj _ _ _ Hz) in E.
Qed.
Lemma addrs_ring n e k a : (∀ k, 0 <= k < Z.of_nat n → has_ring e k) → addrs 0 n !! k = Some a →
  named e (nm (Z.of_nat k)) = Some a ∧ ∃ r, rings e !! a = Some r ∧ bq_rep r (2 ^ logn - 1) [].
Proof.
  intros Hh Ha. unfold addrs in Ha. apply list_lookup_fmap_Some in Ha as (i & -> & Hk). apply lookup_seqZ in Hk as [-> Hk].
  destruct (Hh (Z.of_nat k) ltac:(lia)) as [H1 H2]. by rewrite Z.add_0_l.
Qed.
End group.
