(* ===== verification/KvArgs.v ===== *)
(** * librte_kvargs: device arguments

    [lib/librte_kvargs/rte_kvargs.c]: the text [key=value,key=value,...] of an
    EAL device option, cut with [strtok_r]. A structure [rte_kvargs] is its
    used pairs; [None] for it is NULL. Allocation ([malloc], [strdup]) is an
    input. *)
From S2P Require Import Prelude CStr.
From Stdlib Require Import Ascii.
Open Scope Z_scope.

Definition RTE_KVARGS_MAX : Z := 32.
Definition RTE_KVARGS_PAIRS_DELIM : string := ",".
Definition RTE_KVARGS_KV_DELIM : string := "=".

Notation rte_kvargs_pair := (string * string)%type.
Record rte_kvargs := Kvargs { pairs : list rte_kvargs_pair }.
Definition kv_count (kvlist : rte_kvargs) : Z := Z.of_nat (length (pairs kvlist)).

(** One round cuts a piece at the next comma and the key and the value out of
    the piece. The result is the return value and the list; [None] is more
    rounds than [fuel]. *)
Fixpoint tokenize_pairs (fuel : nat) (str : string) (kvlist : rte_kvargs) : option (Z * rte_kvargs) :=
  match strtok RTE_KVARGS_PAIRS_DELIM str with
  | None => Some (0, kvlist)
  | Some (str, ctx1) =>
      match fuel with
      | O => None
      | S f =>
          if RTE_KVARGS_MAX <=? kv_count kvlist then Some (-1, kvlist) else
          match strtok RTE_KVARGS_KV_DELIM str with
          | None => Some (-1, kvlist)
          | Some (key, ctx2) =>
              match strtok RTE_KVARGS_KV_DELIM ctx2 with
              | None => Some (-1, kvlist)
              | Some (value, _) => tokenize_pairs f ctx1 (Kvargs (pairs kvlist ++ [(key, value)]))
              end
          end
      end
  end.
Definition rte_kvargs_tokenize (kvlist : rte_kvargs) (params : string) (strdup_ok : bool) : option (Z * rte_kvargs) :=
  if strdup_ok then tokenize_pairs (String.length params) params kvlist else Some (-1, kvlist).

Definition is_valid_key (valid : list string) (key_match : string) : bool := existsb (strcmp_eq key_match) valid.
Definition check_for_valid_keys (kvlist : rte_kvargs) (valid : list string) : Z :=
  if forallb (λ p, is_valid_key valid (fst p)) (pairs kvlist) then 0 else -1.

(** [key_match] may be NULL. *)
Definition matches (key_match : option string) (p : rte_kvargs_pair) : bool :=
  match key_match with None => true | Some k => strcmp_eq (fst p) k end.
Definition rte_kvargs_count (kvlist : rte_kvargs) (key_match : option string) : Z :=
  foldl (λ ret p, if matches key_match p then u32 (ret + 1) else ret) 0 (pairs kvlist).

(** The handler changes what its last argument points to. *)
Fixpoint process_pairs {S} (ps : list rte_kvargs_pair) (key_match : option string) (handler : string → string → S → Z * S)
    (opaque_arg : S) : Z * S :=
  match ps with
  | [] => (0, opaque_arg)
  | p :: ps =>
      if matches key_match p then
        let '(r, s) := handler (fst p) (snd p) opaque_arg in
        if r <? 0 then (-1, s) else process_pairs ps key_match handler s
      else process_pairs ps key_match handler opaque_arg
  end.
Definition rte_kvargs_process {S} (kvlist : rte_kvargs) (key_match : option string) (handler : string → string → S → Z * S)
    (opaque_arg : S) : Z * S := process_pairs (pairs kvlist) key_match handler opaque_arg.

(** The outer [None] does not occur; the inner one is NULL. *)
Definition rte_kvargs_parse (args : string) (valid_keys : option (list string)) (malloc_ok strdup_ok : bool)
    : option (option rte_kvargs) :=
  if negb malloc_ok then Some None else
  '(r, kvlist) ← rte_kvargs_tokenize (Kvargs []) args strdup_ok;
  if r <? 0 then Some None else
  match valid_keys with
  | None => Some (Some kvlist)
  | Some valid => if check_for_valid_keys kvlist valid <? 0 then Some None else Some (Some kvlist)
  end.

(** ** What [strtok] cuts

    The reference: the text between delimiters, without empty pieces. *)
Fixpoint split_at (delim s : string) : list string :=
  match s with
  | EmptyString => [EmptyString]
  | String c s' =>
      if is_delim delim c then EmptyString :: split_at delim s'
      else match split_at delim s' with [] => [] | t :: ts => String c t :: ts end
  end.
Definition pieces (delim s : string) : list string := filter (λ t, t ≠ EmptyString) (split_at delim s).

Lemma split_at_cons delim s : ∃ t ts, split_at delim s = t :: ts.
Proof. induction s as [|c s (t & ts & IH)]; simpl; [eauto|]. rewrite IH. destruct (is_delim delim c); eauto. Qed.

Lemma span_token_split delim s :
  let '(t, r) := span_token delim s in split_at delim s = [t] ∧ r = EmptyString ∨ split_at delim s = t :: split_at delim r.
Proof.
  induction s as [|c s IH]; simpl; [by left|]. destruct (is_delim delim c); [by right|].
  destruct (span_token delim s) as [t r]. destruct IH as [[-> ->]| ->]; [by left|by right].
Qed.

Lemma skip_delims_pieces delim s : pieces delim (skip_delims delim s) = pieces delim s.
Proof.
  induction s as [|c s IH]; simpl; [done|]. destruct (is_delim delim c) eqn:E; [|done].
  rewrite IH. unfold pieces. simpl. by rewrite E.
Qed.

Lemma skip_delims_head delim s c s' : skip_delims delim s = String c s' → is_delim delim c = false.
Proof.
  induction s as [|d s IH]; simpl; [done|]. destruct (is_delim delim d) eqn:E; [apply IH|by intros [= <- <-]].
Qed.

(** The tokens [strtok] yields are the pieces, one after the other. *)
Lemma strtok_pieces delim s :
  match strtok delim s with
  | None => pieces delim s = []
  | Some (t, r) => pieces delim s = t :: pieces delim r
  end.
Proof.
  unfold strtok. rewrite <- (skip_delims_pieces delim s). destruct (skip_delims delim s) as [|c s'] eqn:E; [done|].
  pose proof (skip_delims_head _ _ _ _ E) as Hc. pose proof (span_token_split delim (String c s')) as H.
  simpl in H |- *. rewrite Hc in *. destruct (span_token delim s') as [t r]. unfold pieces. simpl. rewrite Hc.
  destruct H as [[-> ->]| ->]; rewrite filter_cons_True by done; done.
Qed.

(** ** The reference parser *)

(** A piece must have a nonempty key and a nonempty value; anything after a
    second equals sign is dropped. *)
Definition pair_of (piece : string) : option rte_kvargs_pair :=
  match pieces RTE_KVARGS_KV_DELIM piece with
  | key :: value :: _ => Some (key, value)
  | _ => None
  end.
Definition key_allowed (valid_keys : option (list string)) (key : string) : Prop :=
  match valid_keys with None => True | Some valid => key ∈ valid end.
#[export] Instance key_allowed_dec valid_keys key : Decision (key_allowed valid_keys key).
Proof. destruct valid_keys; simpl; apply _. Defined.
Definition kvargs_spec (args : string) (valid_keys : option (list string)) : option (list rte_kvargs_pair) :=
  ps ← mapM pair_of (pieces RTE_KVARGS_PAIRS_DELIM args);
  if decide (Z.of_nat (length ps) <= RTE_KVARGS_MAX ∧ Forall (λ p, key_allowed valid_keys (fst p)) ps) then Some ps else None.

Lemma pair_of_strtok piece :
  pair_of piece =
    ('(key, ctx2) ← strtok RTE_KVARGS_KV_DELIM piece; '(value, _) ← strtok RTE_KVARGS_KV_DELIM ctx2; Some (key, value)).
Proof.
  unfold pair_of. pose proof (strtok_pieces RTE_KVARGS_KV_DELIM piece) as H.
  destruct (strtok RTE_KVARGS_KV_DELIM piece) as [[key ctx2]|]; rewrite H; [|done]. simpl.
  pose proof (strtok_pieces RTE_KVARGS_KV_DELIM ctx2) as H2.
  destruct (strtok RTE_KVARGS_KV_DELIM ctx2) as [[value r]|]; by rewrite H2.
Qed.

(** The loop collects the pairs of the pieces, and fails when a piece has no
    value or there is no room; [fuel] of the length of the text is enough. *)
Lemma tokenize_pairs_run fuel str kvlist : (String.length str <= fuel)%nat →
  ∃ r kvlist', tokenize_pairs fuel str kvlist = Some (r, kvlist') ∧
    match mapM pair_of (pieces RTE_KVARGS_PAIRS_DELIM str) with
    | Some ps => if decide (ps = [] ∨ kv_count kvlist + Z.of_nat (length ps) <= RTE_KVARGS_MAX)
                 then r = 0 ∧ pairs kvlist' = pairs kvlist ++ ps else r = -1
    | None => r = -1
    end.
Proof.
  revert str kvlist. induction fuel as [|f IH]; intros str kvlist Hf; cbn [tokenize_pairs].
  all: pose proof (strtok_pieces RTE_KVARGS_PAIRS_DELIM str) as Hp.
  all: destruct (strtok RTE_KVARGS_PAIRS_DELIM str) as [[t ctx1]|] eqn:E; rewrite Hp;
    [|eexists _, _; split; [done|]; simpl; by rewrite app_nil_r].
  { apply strtok_shorter in E. lia. }
  apply strtok_shorter in E. cbn [mapM]. rewrite pair_of_strtok.
  destruct (strtok RTE_KVARGS_KV_DELIM t) as [[key ctx2]|]; simpl; [|by destruct (_ <=? _); eexists _, _].
  destruct (strtok RTE_KVARGS_KV_DELIM ctx2) as [[value r2]|]; simpl; [|by destruct (_ <=? _); eexists _, _].
  unfold kv_count. destruct (Z.leb_spec RTE_KVARGS_MAX (Z.of_nat (length (pairs kvlist)))) as [Hfull|Hroom].
  - eexists _, _. split; [done|]. destruct (mapM pair_of _); simpl; [|done].
    rewrite decide_False; [done|]. intros [|H]; [done|]. simpl in H. lia.
  - destruct (IH ctx1 (Kvargs (pairs kvlist ++ [(key, value)])) ltac:(lia)) as (r & kv' & -> & H). eexists _, _. split; [done|].
    revert H. destruct (mapM pair_of _) as [ps|]; simpl; intros H; [|done]. unfold kv_count in H. simpl in H. rewrite length_app in H. simpl in H.
    case_decide as D1; case_decide as D2.
    + destruct H as [-> ->]. by rewrite <- app_assoc.
    + destruct D2. right. simpl. destruct D1 as [->|]; simpl; lia.
    + destruct D1. right. destruct D2 as [|D2]; [done|]. simpl in D2. lia.
    + done.
Qed.

Lemma is_valid_key_spec valid key : is_valid_key valid key = true ↔ key ∈ valid.
Proof.
  unfold is_valid_key. rewrite existsb_exists. setoid_rewrite String.eqb_eq. setoid_rewrite <- list_elem_of_In. naive_solver.
Qed.
Lemma check_keys_spec ps valid : check_for_valid_keys (Kvargs ps) valid = 0 ↔ Forall (λ p, key_allowed (Some valid) (fst p)) ps.
Proof.
  unfold check_for_valid_keys. simpl. rewrite Forall_forall. destruct (forallb (λ p, is_valid_key valid (fst p)) ps) eqn:E.
  - rewrite forallb_forall in E. split; [|done]. intros _ p Hp. apply is_valid_key_spec, E. by apply list_elem_of_In.
  - split; [done|]. intros H. exfalso. apply not_true_iff_false in E. apply E. rewrite forallb_forall.
    intros p Hp. apply is_valid_key_spec, H. by apply list_elem_of_In.
Qed.
Lemma check_keys_result kvlist valid : check_for_valid_keys kvlist valid = 0 ∨ check_for_valid_keys kvlist valid = -1.
Proof. unfold check_for_valid_keys. case_match; auto. Qed.

Lemma kvargs_parse_eq args valid_keys :
  rte_kvargs_parse args valid_keys true true = Some (Kvargs <$> kvargs_spec args valid_keys).
Proof.
  unfold rte_kvargs_parse, rte_kvargs_tokenize, kvargs_spec. cbn [negb].
  destruct (tokenize_pairs_run (String.length args) args (Kvargs []) ltac:(lia)) as (r & kv & -> & H). cbn [mbind option_bind].
  revert H. destruct (mapM pair_of _) as [ps|]; simpl; intros H; [|by subst r]. unfold kv_count in H. simpl in H.
  case_decide as D.
  - destruct H as [-> Hps]. simpl. destruct kv as [l]. simpl in Hps. subst l.
    assert (Z.of_nat (length ps) <= RTE_KVARGS_MAX) as Hl by (destruct D as [->|]; [done|lia]).
    destruct valid_keys as [valid|].
    + pose proof (check_keys_spec ps valid) as HV. destruct (check_keys_result (Kvargs ps) valid) as [E|E]; rewrite E in *; simpl.
      * rewrite decide_True; [done|]. split; [done|]. by apply HV.
      * rewrite decide_False; [done|]. intros [_ H]. by apply HV in H.
    + rewrite decide_True; [done|]. split; [done|]. by apply Forall_true.
  - subst r. simpl. rewrite decide_False; [done|]. intros [Hl _]. apply D. by right.
Qed.

(** C31: Parsing a device argument is what the reference parser says, for any text:
    the pairs are the nonempty comma-separated pieces, each with its first two
    nonempty parts between equals signs; a piece without a value, more than 32
    pairs or a key that is not allowed is refused as a whole, as is a text for
    which there is no memory. Empty pieces are skipped, so that commas may be
    doubled, which [app/test/test_kvargs.c] lists as an error
    ([kvargs_doubled_comma]). The parser always terminates, whatever the text. *)
Theorem kvargs_parse_spec args valid_keys malloc_ok strdup_ok :
  rte_kvargs_parse args valid_keys malloc_ok strdup_ok =
    Some (if malloc_ok && strdup_ok then Kvargs <$> kvargs_spec args valid_keys else None).
Proof. destruct malloc_ok, strdup_ok; [apply kvargs_parse_eq|done..]. Qed.

(** Of the texts the test lists as to be refused, the one with an empty pair is
    accepted; the others are refused. *)
Theorem kvargs_doubled_comma :
  let parse args := rte_kvargs_parse args (Some ["foo"; "check"]) true true in
  parse "foo=1,,foo=2" = Some (Some (Kvargs [("foo", "1"); ("foo", "2")])) ∧
  Forall (λ args, parse args = Some None) ["wrong-key=x"; "foo=1,foo="; "foo=1,foo"; "foo=1,=2"; ",="].
Proof. split; [vm_compute; reflexivity|]. repeat constructor. Qed.

(** ** Counting and visiting *)
Lemma count_filter kvlist key : kv_count kvlist < 2 ^ 32 →
  rte_kvargs_count kvlist key = Z.of_nat (length (filter (λ p, matches key p = true) (pairs kvlist))).
Proof.
  unfold rte_kvargs_count, kv_count. assert (∀ ps n, 0 <= n → n + Z.of_nat (length ps) < 2 ^ 32 →
    foldl (λ ret p, if matches key p then u32 (ret + 1) else ret) n ps = n + Z.of_nat (length (filter (λ p, matches key p = true) ps))) as H.
  { induction ps as [|p ps IH]; intros n Hn Hl; simpl in *; [lia|]. rewrite filter_cons. destruct (matches key p) eqn:E.
    - rewrite decide_True by done. rewrite u32_small, IH by (unfold is_u32; lia). simpl. lia.
    - rewrite decide_False by done. apply IH; lia. }
  intros Hl. rewrite H by lia. done.
Qed.
Lemma process_all {S} kvlist key (handler : string → string → S → Z * S) s : (∀ k v s, 0 <= fst (handler k v s)) →
  rte_kvargs_process kvlist key handler s =
    (0, foldl (λ s p, snd (handler (fst p) (snd p) s)) s (filter (λ p, matches key p = true) (pairs kvlist))).
Proof.
  intros Hh. unfold rte_kvargs_process. revert s. induction (pairs kvlist) as [|p ps IH]; intros s; [done|].
  cbn [process_pairs]. rewrite filter_cons. destruct (matches key p) eqn:E.
  - rewrite decide_True by done. pose proof (Hh (fst p) (snd p) s) as H. simpl. destruct (handler p.1 p.2 s) as [r s'].
    simpl in *. destruct (Z.ltb_spec r 0); [lia|]. apply IH.
  - by rewrite decide_False by done.
Qed.

(** ** Printing *)
Definition clean (s : string) : Prop :=
  s ≠ EmptyString ∧ Forall (λ c, c ≠ ","%char ∧ c ≠ "="%char) (String.list_ascii_of_string s).
Definition print_pair (p : string * string) : string := (fst p ++ String "="%char (snd p))%string.
Fixpoint print_pairs (ps : list (string * string)) : string :=
  match ps with
  | [] => ""
  | [p] => print_pair p
  | p :: ps => (print_pair p ++ String ","%char (print_pairs ps))%string
  end.

Definition avoids (delim s : string) : Prop := Forall (λ c, is_delim delim c = false) (String.list_ascii_of_string s).
Lemma split_at_app delim t d r : avoids delim t → is_delim delim d = true →
  split_at delim (t ++ String d r)%string = t :: split_at delim r.
Proof.
  intros Ht Hd. induction t as [|c t IH]; simpl; [by rewrite Hd|]. inversion_clear Ht as [|? ? Hc Ht'].
  by rewrite Hc, IH.
Qed.
Lemma split_at_last delim t : avoids delim t → split_at delim t = [t].
Proof. induction t as [|c t IH]; intros Ht; [done|]. inversion_clear Ht as [|? ? Hc Ht']. simpl. by rewrite Hc, IH. Qed.

Lemma avoids_app delim s t : avoids delim s → avoids delim t → avoids delim (s ++ t)%string.
Proof.
  unfold avoids. intros Hs Ht. induction s as [|c s IH]; simpl; [done|]. inversion_clear Hs. constructor; auto.
Qed.
Lemma clean_avoids delim s : clean s → delim = "," ∨ delim = "=" → avoids delim s.
Proof.
  intros [_ Hs] Hd. apply (Forall_impl _ _ _ Hs). intros c [H1 H2]. unfold is_delim.
  destruct Hd as [->| ->]; simpl; rewrite orb_false_r; by apply Ascii.eqb_neq.
Qed.

Lemma pair_of_print p : clean (fst p) → clean (snd p) → pair_of (print_pair p) = Some p.
Proof.
  intros Hk Hv. unfold pair_of, pieces, print_pair. simpl.
  rewrite split_at_app, split_at_last by (done || (by apply clean_avoids; auto)).
  destruct Hk as [Hk _], Hv as [Hv _]. rewrite !filter_cons_True by done. by destruct p.
Qed.
Lemma pieces_print ps : Forall (λ p, clean (fst p) ∧ clean (snd p)) ps → pieces "," (print_pairs ps) = print_pair <$> ps.
Proof.
  induction ps as [|p ps IH]; intros Hps; [done|]. inversion_clear Hps as [|? ? [Hk Hv] Hps'].
  assert (avoids "," (print_pair p)) as Hp by (apply avoids_app; [apply clean_avoids; auto|constructor; [done|apply clean_avoids; auto]]).
  assert (print_pair p ≠ "") as Hne by (unfold print_pair; destruct Hk as [Hk _]; by destruct (fst p)).
  unfold pieces in *. destruct ps as [|q ps].
  - cbn [print_pairs]. rewrite split_at_last by done. by rewrite filter_cons_True, filter_nil by done.
  - change (print_pairs (p :: q :: ps)) with (print_pair p ++ String ","%char (print_pairs (q :: ps)))%string.
    rewrite split_at_app by done. rewrite filter_cons_True by done. by rewrite IH.
Qed.

(** Arguments survive printing and parsing: up to 32 pairs of nonempty keys and
    values without commas and equals signs, with allowed keys, are read back
    in order from their printed form; counting a key then gives how often it
    occurs, and processing it calls a handler that does not fail on exactly
    its values, in order. *)
Theorem kvargs_roundtrip ps valid_keys (Hlen : (length ps <= 32)%nat) (Hps : Forall (λ p, clean (fst p) ∧ clean (snd p)) ps)
    (Hkeys : Forall (λ p, key_allowed valid_keys (fst p)) ps) :
  rte_kvargs_parse (print_pairs ps) valid_keys true true = Some (Some (Kvargs ps)) ∧
  ∀ key, let sel := filter (λ p, matches key p = true) ps in
    rte_kvargs_count (Kvargs ps) key = Z.of_nat (length sel) ∧
    ∀ S (handler : string → string → S → Z * S) s, (∀ k v s, 0 <= fst (handler k v s)) →
      rte_kvargs_process (Kvargs ps) key handler s = (0, foldl (λ s p, snd (handler (fst p) (snd p) s)) s sel).
Proof.
  split.
  - rewrite kvargs_parse_eq. unfold kvargs_spec. change RTE_KVARGS_PAIRS_DELIM with ",". rewrite pieces_print by done.
    assert (mapM pair_of (print_pair <$> ps) = Some ps) as ->.
    { clear -Hps. induction Hps as [|p ps [Hk Hv] _ IH]; [done|]. cbn. rewrite pair_of_print by done. simpl. by rewrite IH. }
    simpl. rewrite decide_True; [done|]. split; [unfold RTE_KVARGS_MAX; lia|done].
  - intros key sel. split; [apply count_filter; unfold kv_count; simpl; lia|]. intros S handler s Hh. by apply process_all.
Qed.
Lemma kvargs_roundtrip_witness :
  rte_kvargs_parse "nodeaction=r0:0:CREATE,nodeaction=r1:1:ATTACH" (Some ["nodeaction"]) true true =
    Some (Some (Kvargs [("nodeaction", "r0:0:CREATE"); ("nodeaction", "r1:1:ATTACH")])).
Proof.
  destruct (kvargs_roundtrip [("nodeaction", "r0:0:CREATE"); ("nodeaction", "r1:1:ATTACH")] (Some ["nodeaction"])) as [H _].
  - simpl. lia.
  - repeat constructor; done.
  - repeat constructor.
  - exact H.
Defined.
