(* ===== verification/EthTable.v ===== *)
(** * librte_ether: the table of Ethernet devices

    The device structures of [lib/librte_ether/rte_ethdev.h] and the part of
    [rte_ethdev.c] that allocates, finds and releases ports. The state of the
    library in one process is [eth]: the array [rte_eth_devices], the array
    [rte_eth_dev_data] the processes share, and [nb_ports]. A driver is the
    record of its functions ([eth_dev_ops]); what a driver keeps in
    [dev_private] is the type [P] and a queue handle the type [Q]. *)
From S2P Require Import Prelude CStr.
Open Scope Z_scope.

Definition RTE_MAX_ETHPORTS : Z := 32.
Definition RTE_MAX_QUEUES_PER_PORT : Z := 1024.
Definition RTE_ETH_NAME_MAX_LEN : Z := 32.
Definition ETHER_MTU : Z := 1500.
Definition ETH_NUM_RECEIVE_MAC_ADDR : Z := 128.
Definition E_RTE_SECONDARY : Z := 1001.

Inductive rte_eth_dev_type := RTE_ETH_DEV_UNKNOWN | RTE_ETH_DEV_PCI | RTE_ETH_DEV_VIRTUAL.
Inductive rte_kernel_driver :=
  RTE_KDRV_UNKNOWN | RTE_KDRV_IGB_UIO | RTE_KDRV_VFIO | RTE_KDRV_UIO_GENERIC | RTE_KDRV_NIC_UIO | RTE_KDRV_NONE.

Record rte_pci_addr := PciAddr { domain : Z; bus : Z; devid : Z; function : Z }.

(** A MAC address is its six bytes. *)
Definition ether_addr := list Z.
Definition null_mac_addr : ether_addr := [0; 0; 0; 0; 0; 0].

Record rte_eth_link := Link { link_speed : Z; link_duplex : Z; link_status : Z }.
Record rte_eth_rxmode := RxMode {
  max_rx_pkt_len : Z; jumbo_frame : Z; hw_vlan_filter : Z; hw_vlan_strip : Z; hw_vlan_extend : Z }.
Record rte_eth_conf := Conf { rxmode : rte_eth_rxmode; lsc : Z }.
Record rte_eth_desc_lim := DescLim { nb_max : Z; nb_min : Z; nb_align : Z }.
Record rte_eth_dev_info := Info {
  driver_name : string; pci_info : option rte_pci_addr;
  min_rx_bufsize : Z; max_rx_pktlen : Z; max_rx_queues : Z; max_tx_queues : Z;
  max_mac_addrs : Z; max_hash_mac_addrs : Z; max_vfs : Z;
  rx_desc_lim : rte_eth_desc_lim; tx_desc_lim : rte_eth_desc_lim }.
(** Generic statistics; the per-queue counters are arrays of 16. *)
Record rte_eth_stats := Stats {
  ipackets : Z; opackets : Z; oerrors : Z; rx_nombuf : Z;
  q_ipackets : list Z; q_opackets : list Z; q_errors : list Z }.
Definition RTE_ETHDEV_QUEUE_STAT_CNTRS : Z := 16.
Definition zero_stats : rte_eth_stats :=
  Stats 0 0 0 0 (replicate 16 0) (replicate 16 0) (replicate 16 0).

#[export] Instance link_upd : Updatable rte_eth_link := λ l, Link (link_speed l) (link_duplex l) (link_status l).
#[export] Instance rxmode_upd : Updatable rte_eth_rxmode :=
  λ m, RxMode (max_rx_pkt_len m) (jumbo_frame m) (hw_vlan_filter m) (hw_vlan_strip m) (hw_vlan_extend m).
#[export] Instance conf_upd : Updatable rte_eth_conf := λ c, Conf (rxmode c) (lsc c).
#[export] Instance info_upd : Updatable rte_eth_dev_info :=
  λ i, Info (driver_name i) (pci_info i) (min_rx_bufsize i) (max_rx_pktlen i) (max_rx_queues i)
            (max_tx_queues i) (max_mac_addrs i) (max_hash_mac_addrs i) (max_vfs i) (rx_desc_lim i) (tx_desc_lim i).
#[export] Instance stats_upd : Updatable rte_eth_stats :=
  λ s, Stats (ipackets s) (opackets s) (oerrors s) (rx_nombuf s) (q_ipackets s) (q_opackets s) (q_errors s).

Section ethdev.
Context {P Q : Type}.

(** ** Device data ([struct rte_eth_dev_data]) *)
Record rte_eth_dev_data := Data {
  name : string;
  rx_queues : option (list (option Q)); tx_queues : option (list (option Q));
  nb_rx_queues : Z; nb_tx_queues : Z;
  sriov_active : Z; def_vmdq_idx : Z;
  dev_private : option P;
  dev_link : rte_eth_link; dev_conf : rte_eth_conf; mtu : Z;
  min_rx_buf_size : Z; rx_mbuf_alloc_failed : Z;
  mac_addrs : option (list ether_addr); mac_pool_sel : list Z; hash_mac_addrs : option (list ether_addr);
  port_id : Z; promiscuous : Z; all_multicast : Z; dev_started : Z;
  rx_queue_state : list Z; tx_queue_state : list Z;
  dev_flags : Z; kdrv : rte_kernel_driver; numa_node : Z; drv_name : string }.

#[export] Instance data_upd : Updatable rte_eth_dev_data := λ d,
  Data (name d) (rx_queues d) (tx_queues d) (nb_rx_queues d) (nb_tx_queues d) (sriov_active d) (def_vmdq_idx d)
       (dev_private d) (dev_link d) (dev_conf d) (mtu d) (min_rx_buf_size d) (rx_mbuf_alloc_failed d)
       (mac_addrs d) (mac_pool_sel d) (hash_mac_addrs d) (port_id d) (promiscuous d) (all_multicast d)
       (dev_started d) (rx_queue_state d) (tx_queue_state d) (dev_flags d) (kdrv d) (numa_node d) (drv_name d).

(** [memset(data, 0, sizeof *data)]. *)
Definition zero_data : rte_eth_dev_data :=
  Data "" None None 0 0 0 0 None (Link 0 0 0) (Conf (RxMode 0 0 0 0 0) 0) 0 0 0
       None (replicate 128 0) None 0 0 0 0 (replicate 1024 0) (replicate 1024 0) 0 RTE_KDRV_UNKNOWN 0 "".

(** ** Driver functions ([struct eth_dev_ops])

    A NULL member is [None]. A driver function sees and changes its own
    device data, with everything the driver owns in [dev_private]. *)
Notation D := rte_eth_dev_data.
Record eth_dev_ops := Ops {
  dev_configure : option (D → Z * D); op_dev_start : option (D → Z * D); op_dev_stop : option (D → D);
  dev_set_link_up : option (D → Z * D); dev_set_link_down : option (D → Z * D); dev_close : option (D → D);
  promiscuous_enable : option (D → D); promiscuous_disable : option (D → D);
  allmulticast_enable : option (D → D); allmulticast_disable : option (D → D);
  link_update : option (Z → D → Z * D);
  stats_get : option (D → rte_eth_stats → rte_eth_stats); stats_reset : option (D → D);
  dev_infos_get : option (D → rte_eth_dev_info → rte_eth_dev_info);
  mtu_set : option (Z → D → Z * D);
  vlan_filter_set : option (Z → Z → D → Z * D); vlan_tpid_set : option (Z → D → D);
  vlan_strip_queue_set : option (Z → Z → D → D); vlan_offload_set : option (Z → D → D);
  vlan_pvid_set : option (Z → Z → D → D);
  rx_queue_start : option (Z → D → Z * D); rx_queue_stop : option (Z → D → Z * D);
  tx_queue_start : option (Z → D → Z * D); tx_queue_stop : option (Z → D → Z * D);
  rx_queue_setup : option (Z → Z → Z → D → Z * D); rx_queue_release : option (option Q → D → D);
  tx_queue_setup : option (Z → Z → Z → D → Z * D); tx_queue_release : option (option Q → D → D);
  mac_addr_remove : option (Z → D → D); mac_addr_add : option (ether_addr → Z → Z → D → D);
  mac_addr_set : option (ether_addr → D → D) }.

(** ** Devices ([struct rte_eth_dev])

    [data] points to the shared array, or to a structure of the driver's own
    ("we'll replace the data element ... so the rings are local per-process"). *)
Inductive data_ptr := DNull | DShared | DLocal (d : rte_eth_dev_data).
Record rte_eth_dev := Dev {
  data : data_ptr; dev_ops : option eth_dev_ops; pci_dev : option rte_pci_addr;
  attached : bool; dev_type : rte_eth_dev_type }.
#[export] Instance dev_upd : Updatable rte_eth_dev :=
  λ d, Dev (data d) (dev_ops d) (pci_dev d) (attached d) (dev_type d).

Record eth := Eth {
  rte_eth_devices : list rte_eth_dev;
  rte_eth_dev_data_ : option (list rte_eth_dev_data);  (* NULL until first used *)
  nb_ports : Z;
  primary : bool;                                      (* rte_eal_process_type() == RTE_PROC_PRIMARY *)
  dev_data_mz : option (list rte_eth_dev_data) }.      (* the memory zone reserve or lookup would return *)
#[export] Instance eth_upd : Updatable eth :=
  λ w, Eth (rte_eth_devices w) (rte_eth_dev_data_ w) (nb_ports w) (primary w) (dev_data_mz w).

(** A function of the library: [None] is undefined behaviour (a NULL or
    out-of-range access) or a call of [rte_panic]. *)
Definition M (R : Type) : Type := eth → option (R * eth).
#[export] Instance M_ret : MRet M := λ R x w, Some (x, w).
#[export] Instance M_bind : MBind M := λ R S k m w, match m w with Some (x, w') => k x w' | None => None end.
Definition gets {R} (f : eth → R) : M R := λ w, Some (f w, w).
Definition modify (f : eth → eth) : M unit := λ w, Some (tt, f w).
Definition liftO {R} (o : option R) : M R := λ w, match o with Some x => Some (x, w) | None => None end.

(** [rte_eth_devices[i]] and [*rte_eth_devices[i].data]. *)
Definition get_dev (i : Z) : M rte_eth_dev := λ w, x ← load (rte_eth_devices w) i; Some (x, w).
Definition put_dev (i : Z) (d : rte_eth_dev) : M unit := λ w,
  l ← store (rte_eth_devices w) i d; Some (tt, w <| rte_eth_devices := l |>).
Definition data_of (w : eth) (i : Z) : option rte_eth_dev_data :=
  d ← load (rte_eth_devices w) i;
  match data d with
  | DNull => None
  | DShared => l ← rte_eth_dev_data_ w; load l i
  | DLocal x => Some x
  end.
Definition get_data (i : Z) : M rte_eth_dev_data := λ w, x ← data_of w i; Some (x, w).
Definition put_data (i : Z) (x : rte_eth_dev_data) : M unit := λ w,
  d ← load (rte_eth_devices w) i;
  match data d with
  | DNull => None
  | DShared => l ← rte_eth_dev_data_ w; l' ← store l i x; Some (tt, w <| rte_eth_dev_data_ := Some l' |>)
  | DLocal _ => l' ← store (rte_eth_devices w) i (d <| data := DLocal x |>);
                Some (tt, w <| rte_eth_devices := l' |>)
  end.
Definition get_ops (i : Z) : M eth_dev_ops := d ← get_dev i; liftO (dev_ops d).

(** ** Allocation *)

Definition rte_eth_dev_data_alloc : M unit := λ w,
  match dev_data_mz w with
  | None => None
  | Some mz =>
      Some (tt, w <| rte_eth_dev_data_ :=
                     Some (if primary w then replicate (Z.to_nat RTE_MAX_ETHPORTS) zero_data else mz) |>)
  end.

(** [for (i = 0; i < RTE_MAX_ETHPORTS; i++) if (test) return i]: the first
    index from [i] on that passes the test; [None] is an undefined access. *)
Fixpoint find_index (fuel : nat) (test : Z → option bool) (i : Z) : option (option Z) :=
  match fuel with
  | O => Some None
  | S f => b ← test i; if b : bool then Some (Some i) else find_index f test (i + 1)
  end.
Definition find_port (test : Z → option bool) : option (option Z) :=
  find_index (Z.to_nat RTE_MAX_ETHPORTS) test 0.

Definition has_name (w : eth) (nm : string) (i : Z) : option bool :=
  d ← load (rte_eth_devices w) i;
  if attached d then x ← data_of w i; Some (strcmp_eq (name x) nm) else Some false.

Definition rte_eth_dev_allocated (nm : string) : M (option Z) := λ w, r ← find_port (has_name w nm); Some (r, w).

Definition rte_eth_dev_find_free_port : M Z := λ w,
  r ← find_port (λ i, d ← load (rte_eth_devices w) i; Some (negb (attached d)));
  Some (match r with Some i => i | None => RTE_MAX_ETHPORTS end, w).

Definition rte_eth_dev_allocate (nm : string) (type : rte_eth_dev_type) : M (option Z) :=
  pid ← rte_eth_dev_find_free_port;
  if pid =? RTE_MAX_ETHPORTS then mret None else
  null ← gets (λ w, match rte_eth_dev_data_ w with None => true | Some _ => false end);
  _ ← (if null : bool then rte_eth_dev_data_alloc else mret tt);
  dup ← rte_eth_dev_allocated nm;
  match dup with
  | Some _ => mret None
  | None =>
      dev ← get_dev pid;
      _ ← put_dev pid (dev <| data := DShared |>);
      x ← get_data pid;
      _ ← put_data pid (x <| name := snprintf RTE_ETH_NAME_MAX_LEN nm |> <| port_id := pid |>);
      dev ← get_dev pid;
      _ ← put_dev pid (dev <| attached := true |> <| dev_type := type |>);
      _ ← modify (λ w, w <| nb_ports := u8 (nb_ports w + 1) |>);
      mret (Some pid)
  end.

Definition rte_eth_dev_release_port (eth_dev : option Z) : M Z :=
  match eth_dev with
  | None => mret (- EINVAL)
  | Some i =>
      d ← get_dev i;
      _ ← put_dev i (d <| attached := false |>);
      _ ← modify (λ w, w <| nb_ports := u8 (nb_ports w - 1) |>);
      mret 0
  end.

(** ** Observers *)

Definition rte_eth_dev_is_valid_port (pid : Z) : M bool := λ w,
  if RTE_MAX_ETHPORTS <=? pid then Some (false, w)
  else d ← load (rte_eth_devices w) pid; Some (attached d, w).
Definition rte_eth_dev_count : M Z := gets nb_ports.
Definition rte_eth_dev_socket_id (pid : Z) : M Z :=
  v ← rte_eth_dev_is_valid_port pid;
  if v : bool then d ← get_data pid; mret (numa_node d) else mret (-1).
Definition rte_eth_dev_get_device_type (pid : Z) : M rte_eth_dev_type :=
  v ← rte_eth_dev_is_valid_port pid;
  if v : bool then d ← get_dev pid; mret (dev_type d) else mret RTE_ETH_DEV_UNKNOWN.

(** The checks of the API functions: a valid port, the primary process, a
    function the driver has. *)
Definition valid_port_or {R} (pid : Z) (ret : R) (k : M R) : M R :=
  v ← rte_eth_dev_is_valid_port pid; if v : bool then k else mret ret.
Definition primary_or {R} (ret : R) (k : M R) : M R := p ← gets primary; if p : bool then k else mret ret.
Definition func_or {F R} (f : option F) (ret : R) (k : F → M R) : M R :=
  match f with Some g => k g | None => mret ret end.

Definition rte_eth_dev_get_addr_by_port (pid : Z) : M (Z * option rte_pci_addr) :=
  valid_port_or pid (- EINVAL, None) (d ← get_dev pid; a ← liftO (pci_dev d); mret (0, Some a)).
Definition rte_eth_dev_get_name_by_port (pid : Z) : M (Z * option string) :=
  valid_port_or pid (- EINVAL, None)
    (l ← gets rte_eth_dev_data_; l ← liftO l; x ← liftO (load l pid); mret (0, Some (name x))).

(** The comparison is on the length of the name looked for. *)
Definition rte_eth_dev_get_port_by_name (nm : string) : M (Z * Z) := λ w,
  r ← find_port (λ i, l ← rte_eth_dev_data_ w; x ← load l i; Some (strncmp_eq nm (name x) (String.length nm)));
  Some (match r with Some i => (0, i) | None => (- ENODEV, RTE_MAX_ETHPORTS) end, w).

(** The address as the 32-bit [int] the shifts compute, widened to 64 bits. *)
Definition pci_dev_addr (a : rte_pci_addr) : Z :=
  u64 (i32 (Z.lor (Z.lor (Z.lor (Z.shiftl (domain a) 24) (Z.shiftl (bus a) 16)) (Z.shiftl (devid a) 8)) (function a))).
Definition rte_eal_compare_pci_addr (a b : rte_pci_addr) : Z :=
  if pci_dev_addr b <? pci_dev_addr a then 1 else if pci_dev_addr a <? pci_dev_addr b then -1 else 0.
Definition rte_eth_dev_get_port_by_addr (addr : rte_pci_addr) : M (Z * Z) := λ w,
  r ← find_port (λ i, d ← load (rte_eth_devices w) i;
                      Some match pci_dev d with Some a => rte_eal_compare_pci_addr a addr =? 0 | None => false end);
  Some (match r with Some i => (0, i) | None => (- ENODEV, RTE_MAX_ETHPORTS) end, w).

Definition RTE_ETH_DEV_DETACHABLE : Z := 1.
Definition RTE_ETH_DEV_INTR_LSC : Z := 2.

Definition rte_eth_dev_is_detachable (pid : Z) : M Z :=
  v ← rte_eth_dev_is_valid_port pid;
  if v : bool then
    d ← get_data pid;
    match kdrv d with
    | RTE_KDRV_IGB_UIO | RTE_KDRV_UIO_GENERIC | RTE_KDRV_NIC_UIO | RTE_KDRV_NONE =>
        mret (c_bool (Z.land (dev_flags d) RTE_ETH_DEV_DETACHABLE =? 0))
    | _ => mret (- ENOTSUP)
    end
  else mret (- EINVAL).

(** ** PCI devices: the functions the bus code calls for a driver

    [eth_dev_init] and [eth_dev_uninit] are the driver's functions, [priv] the
    outcome of allocating its private structure. *)
Definition pci_device_name (a : rte_pci_addr) : string :=
  snprintf RTE_ETH_NAME_MAX_LEN (fmt_d (bus a) +:+ ":" +:+ fmt_d (devid a) +:+ "." +:+ fmt_d (function a)).

Definition rte_eth_dev_init (eth_dev_init : Z → M Z) (priv : option P) (addr : rte_pci_addr) : M Z :=
  r ← rte_eth_dev_allocate (pci_device_name addr) RTE_ETH_DEV_PCI;
  match r with
  | None => mret (- ENOMEM)
  | Some pid =>
      prim ← gets primary;
      _ ← (if prim : bool then
             x ← get_data pid; q ← liftO priv; put_data pid (x <| dev_private := Some q |>)
           else mret tt);
      dev ← get_dev pid;
      _ ← put_dev pid (dev <| pci_dev := Some addr |>);
      x ← get_data pid;
      _ ← put_data pid (x <| rx_mbuf_alloc_failed := 0 |> <| mtu := ETHER_MTU |>);
      diag ← eth_dev_init pid;
      if diag =? 0 then mret 0 else
      _ ← rte_eth_dev_release_port (Some pid);
      mret diag
  end.

Definition rte_eth_dev_uninit (eth_dev_uninit : option (Z → M Z)) (addr : rte_pci_addr) : M Z :=
  r ← rte_eth_dev_allocated (pci_device_name addr);
  match r with
  | None => mret (- ENODEV)
  | Some pid =>
      ret ← match eth_dev_uninit with Some f => f pid | None => mret 0 end;
      if negb (ret =? 0) then mret ret else
      _ ← rte_eth_dev_release_port (Some pid);
      dev ← get_dev pid;
      _ ← put_dev pid (dev <| pci_dev := None |> <| data := DNull |>);
      mret 0
  end.

(** ** Specification

    The table as its users see it: a name for each port in use. *)
Definition view (w : eth) : list (option string) :=
  imap (λ i d, if attached d then name <$> data_of w (Z.of_nat i) else None) (rte_eth_devices w).

Definition spec_allocate (t : list (option string)) (nm : string) : option nat * list (option string) :=
  match list_find (λ x, x = None) t with
  | Some (i, _) => if decide (Some nm ∈ t) then (None, t) else (Some i, <[i := Some nm]> t)
  | None => (None, t)
  end.
Definition used (t : list (option string)) : Z := Z.of_nat (length (omap (λ x, x) t)).

(** The state between two calls: the arrays have their size, every port in use
    has its data with its own number, [nb_ports] counts the ports in use and
    no two of them have the same name. *)
Record eth_ok (w : eth) : Prop := {
  ok_devices : length (rte_eth_devices w) = Z.to_nat RTE_MAX_ETHPORTS;
  ok_shared : ∀ l, rte_eth_dev_data_ w = Some l → length l = Z.to_nat RTE_MAX_ETHPORTS;
  ok_mz : ∃ l, dev_data_mz w = Some l ∧ length l = Z.to_nat RTE_MAX_ETHPORTS;
  ok_data : ∀ i d, rte_eth_devices w !! i = Some d → attached d = true →
    ∃ x, data_of w (Z.of_nat i) = Some x ∧ port_id x = Z.of_nat i;
  ok_count : nb_ports w = used (view w);
  ok_names : ∀ i j nm, view w !! i = Some (Some nm) → view w !! j = Some (Some nm) → i = j }.

(** ** Running the library's functions *)

Lemma run_bind {R S} (m : M R) (k : R → M S) w x w' : m w = Some (x, w') → (m ≫= k) w = k x w'.
Proof. intros H. unfold mbind, M_bind. by rewrite H. Qed.
Lemma run_get_dev w i d : rte_eth_devices w !! i = Some d → get_dev (Z.of_nat i) w = Some (d, w).
Proof. intros H. unfold get_dev. by rewrite load_nat, H. Qed.
Lemma run_put_dev w i d : (i < length (rte_eth_devices w))%nat →
  put_dev (Z.of_nat i) d w = Some (tt, w <| rte_eth_devices := <[i := d]> (rte_eth_devices w) |>).
Proof. intros H. unfold put_dev. rewrite store_in by lia. by rewrite Nat2Z.id. Qed.
Lemma run_get_data w i x : data_of w i = Some x → get_data i w = Some (x, w).
Proof. intros H. unfold get_data. by rewrite H. Qed.
Lemma run_put_shared w i l d x : rte_eth_devices w !! i = Some d → data d = DShared →
  rte_eth_dev_data_ w = Some l → (i < length l)%nat →
  put_data (Z.of_nat i) x w = Some (tt, w <| rte_eth_dev_data_ := Some (<[i := x]> l) |>).
Proof.
  intros Hd Hs Hl Hi. unfold put_data. rewrite load_nat, Hd. simpl. rewrite Hs, Hl. simpl.
  rewrite store_in by lia. simpl. by rewrite Nat2Z.id.
Qed.
Lemma data_of_shared w i l d : rte_eth_devices w !! i = Some d → data d = DShared →
  rte_eth_dev_data_ w = Some l → data_of w (Z.of_nat i) = l !! i.
Proof. intros Hd Hs Hl. unfold data_of. rewrite load_nat, Hd. simpl. rewrite Hs, Hl. simpl. apply load_nat. Qed.

(** ** The allocator refines its specification *)

Lemma find_index_list {A} (l : list A) (p : A → bool) test i :
  (∀ k x, l !! k = Some x → test (i + Z.of_nat k) = Some (p x)) →
  find_index (length l) test i = Some ((λ '(k, _), i + Z.of_nat k) <$> list_find (λ x, p x = true) l).
Proof.
  revert i. induction l as [|a l IH]; intros i Ht; simpl; [done|].
  pose proof (Ht 0%nat a eq_refl) as H0. rewrite Z.add_0_r in H0. rewrite H0. simpl.
  destruct (p a); simpl; [by rewrite Z.add_0_r|]. rewrite IH.
  - f_equal. destruct (list_find _ l) as [[k x]|]; simpl; f_equal. lia.
  - intros k x Hk. rewrite <- (Ht (S k) x) by done. f_equal. lia.
Qed.

Lemma view_length w : length (view w) = length (rte_eth_devices w).
Proof. apply length_imap. Qed.

Lemma view_lookup w i : view w !! i =
  (λ d, if attached d then name <$> data_of w (Z.of_nat i) else None) <$> rte_eth_devices w !! i.
Proof. apply list_lookup_imap. Qed.

Lemma find_port_view w p test : eth_ok w →
  (∀ k x, view w !! k = Some x → test (Z.of_nat k) = Some (p x)) →
  find_port test = Some ((λ '(k, _), Z.of_nat k) <$> list_find (λ x, p x = true) (view w)).
Proof.
  intros Hok Ht. unfold find_port. rewrite <- (ok_devices _ Hok), <- view_length.
  by rewrite (find_index_list _ p) by (intros; rewrite Z.add_0_l; by apply Ht).
Qed.

Lemma list_find_ext_bool {A} (p : A → bool) (R : A → Prop) `{!∀ x, Decision (R x)} l :
  (∀ x, p x = true ↔ R x) → list_find (λ x, p x = true) l = list_find R l.
Proof. intros Heq. apply list_find_ext. intros; apply Heq. Qed.

Lemma find_free_port_view w : eth_ok w →
  rte_eth_dev_find_free_port w =
    Some (match list_find (λ x, x = None) (view w) with Some (i, _) => Z.of_nat i | None => RTE_MAX_ETHPORTS end, w).
Proof.
  intros Hok. unfold rte_eth_dev_find_free_port.
  rewrite (find_port_view w (λ x, bool_decide (x = None))); [|done|].
  - simpl. rewrite (list_find_ext_bool _ (λ x, x = None)) by (intros; apply bool_decide_eq_true).
    by destruct (list_find _ _) as [[k x]|].
  - intros k x Hk. rewrite view_lookup in Hk. apply fmap_Some in Hk as (d & Hd & ->).
    rewrite load_nat, Hd. simpl. destruct (attached d) eqn:Ha; simpl; [|done].
    destruct (ok_data _ Hok _ _ Hd Ha) as (y & -> & _). done.
Qed.

Lemma allocated_view w nm : eth_ok w →
  rte_eth_dev_allocated nm w = Some ((λ '(k, _), Z.of_nat k) <$> list_find (λ x, x = Some nm) (view w), w).
Proof.
  intros Hok. unfold rte_eth_dev_allocated.
  rewrite (find_port_view w (λ x, bool_decide (x = Some nm))); [|done|].
  - simpl. by rewrite (list_find_ext_bool _ (λ x, x = Some nm)) by (intros; apply bool_decide_eq_true).
  - intros k x Hk. rewrite view_lookup in Hk. apply fmap_Some in Hk as (d & Hd & ->).
    unfold has_name. rewrite load_nat, Hd. simpl. destruct (attached d) eqn:Ha; [|done].
    destruct (ok_data _ Hok _ _ Hd Ha) as (y & -> & _). simpl. f_equal. unfold strcmp_eq.
    destruct (String.eqb_spec (name y) nm) as [->|Hne]; symmetry.
    + by apply bool_decide_eq_true.
    + apply bool_decide_eq_false. congruence.
Qed.

(** Two states with the same device data and flags have the same view. *)
Lemma view_ext w w' : length (rte_eth_devices w') = length (rte_eth_devices w) →
  (∀ i d d', rte_eth_devices w !! i = Some d → rte_eth_devices w' !! i = Some d' →
     attached d' = attached d ∧ (attached d = true → name <$> data_of w' (Z.of_nat i) = name <$> data_of w (Z.of_nat i))) →
  view w' = view w.
Proof.
  intros Hl Hd. apply list_eq. intros i. rewrite !view_lookup.
  destruct (rte_eth_devices w !! i) as [d|] eqn:E.
  - destruct (lookup_lt_is_Some_2 (rte_eth_devices w') i) as [d' E']; [rewrite Hl; by eapply lookup_lt_Some|].
    rewrite E'. simpl. destruct (Hd _ _ _ E E') as [-> H]. destruct (attached d); [|done]. by rewrite H.
  - apply lookup_ge_None in E. by rewrite (proj2 (lookup_ge_None (rte_eth_devices w') i)) by lia.
Qed.

Lemma data_alloc_ok w : eth_ok w → rte_eth_dev_data_ w = None →
  ∃ w' l, rte_eth_dev_data_alloc w = Some (tt, w') ∧ rte_eth_dev_data_ w' = Some l ∧
    rte_eth_devices w' = rte_eth_devices w ∧ view w' = view w ∧ eth_ok w'.
Proof.
  intros Hok Hn. destruct (ok_mz _ Hok) as (mz & Hmz & Hlen). unfold rte_eth_dev_data_alloc. rewrite Hmz.
  set (l := if primary w then _ else _). exists (w <| rte_eth_dev_data_ := Some l |>), l.
  assert (∀ i x, data_of w i = Some x → data_of (w <| rte_eth_dev_data_ := Some l |>) i = Some x) as Hd.
  { intros i x. unfold data_of. simpl. rewrite Hn. destruct (load _ i) as [d|]; simpl; [|done].
    by destruct (data d). }
  assert (view (w <| rte_eth_dev_data_ := Some l |>) = view w) as Hv.
  { apply view_ext; [done|]. simpl. intros i d d' E ?. simplify_eq. split; [done|]. intros Ha.
    destruct (ok_data _ Hok _ _ E Ha) as (x & Hx & _). by rewrite Hx, (Hd _ _ Hx). }
  split_and!; [done..|]. destruct Hok. split; try done; simpl.
  - intros l' [= <-]. unfold l. by destruct (primary w).
  - intros i d E Ha. destruct (ok_data0 _ _ E Ha) as (x & Hx & Hp). exists x. by rewrite (Hd _ _ Hx).
  - by rewrite Hv.
  - by rewrite Hv.
Qed.

(** Filling a free slot. *)
Definition filled (w : eth) (l : list rte_eth_dev_data) (i : nat) (d : rte_eth_dev) (x : rte_eth_dev_data)
    (nm : string) (type : rte_eth_dev_type) : eth :=
  w <| rte_eth_devices := <[i := d <| data := DShared |> <| attached := true |> <| dev_type := type |>]> (rte_eth_devices w) |>
    <| rte_eth_dev_data_ := Some (<[i := x <| name := snprintf RTE_ETH_NAME_MAX_LEN nm |> <| port_id := Z.of_nat i |>]> l) |>
    <| nb_ports := u8 (nb_ports w + 1) |>.

Lemma filled_data w l i d x nm type j : rte_eth_dev_data_ w = Some l →
  rte_eth_devices w !! i = Some d → l !! i = Some x →
  data_of (filled w l i d x nm type) (Z.of_nat j) =
    if decide (i = j) then Some (x <| name := snprintf RTE_ETH_NAME_MAX_LEN nm |> <| port_id := Z.of_nat i |>)
    else data_of w (Z.of_nat j).
Proof.
  intros Hl Hd Hx. unfold data_of, filled. simpl. rewrite !load_nat.
  pose proof (lookup_lt_Some _ _ _ Hd). pose proof (lookup_lt_Some _ _ _ Hx). case_decide as E.
  - subst j. rewrite (list_lookup_insert_eq l) by done.
    by rewrite (list_lookup_insert_eq (rte_eth_devices w)) by done.
  - rewrite !list_lookup_insert_ne by done. rewrite Hl. destruct (rte_eth_devices w !! j) as [d'|]; simpl; [|done].
    destruct (data d'); by rewrite ?load_nat.
Qed.

Lemma filled_view w l i d x nm type : rte_eth_dev_data_ w = Some l →
  rte_eth_devices w !! i = Some d → l !! i = Some x →
  view (filled w l i d x nm type) = <[i := Some (snprintf RTE_ETH_NAME_MAX_LEN nm)]> (view w).
Proof.
  intros Hl Hd Hx. pose proof (lookup_lt_Some _ _ _ Hd). apply list_eq. intros j.
  rewrite view_lookup, (filled_data _ _ _ _ _ _ _ _ Hl Hd Hx). simpl. case_decide as E.
  - subst j. rewrite !list_lookup_insert_eq by (rewrite ?view_length; done). done.
  - rewrite !list_lookup_insert_ne by done. by rewrite view_lookup.
Qed.

Lemma used_insert t i nm : t !! i = Some None → used (<[i := Some nm]> t) = used t + 1.
Proof.
  unfold used. revert i. induction t as [|o t IH]; intros [|i] H; simplify_eq/=; [lia|].
  destruct o; simpl; specialize (IH i H); lia.
Qed.
Lemma used_delete t i nm : t !! i = Some (Some nm) → used (<[i := None]> t) = used t - 1.
Proof.
  unfold used. revert i. induction t as [|o t IH]; intros [|i] H; simplify_eq/=; [lia|].
  destruct o; simpl; specialize (IH i H); lia.
Qed.
Lemma used_bound t : 0 <= used t <= Z.of_nat (length t).
Proof.
  unfold used. assert (length (omap (λ x, x) t) <= length t)%nat; [|lia].
  induction t as [|[?|] t IH]; csimpl; [done|lia..].
Qed.
Lemma used_full t i nm : t !! i = Some (Some nm) → 1 <= used t.
Proof. intros H. pose proof (used_delete _ _ _ H). pose proof (used_bound (<[i := None]> t)). lia. Qed.

Lemma filled_ok w l i d x nm type : eth_ok w → rte_eth_dev_data_ w = Some l →
  rte_eth_devices w !! i = Some d → l !! i = Some x → view w !! i = Some None →
  strlen nm < RTE_ETH_NAME_MAX_LEN → Some nm ∉ view w → eth_ok (filled w l i d x nm type).
Proof.
  intros Hok Hl Hd Hx Hfree Hnm Hnew. pose proof (filled_view w l i d x nm type Hl Hd Hx) as Hv.
  rewrite snprintf_fits in Hv by done.
  assert (length (view w) = 32%nat) as Hlen by (rewrite view_length; apply (ok_devices _ Hok)).
  pose proof (lookup_lt_Some _ _ _ Hd) as Hi.
  split; [simpl; rewrite length_insert; by apply ok_devices| |by apply (ok_mz _ Hok)| | |].
  - simpl. intros l' [= <-]. rewrite length_insert. by apply (ok_shared _ Hok).
  - intros j d' Hj Ha. rewrite (filled_data _ _ _ _ _ _ _ _ Hl Hd Hx). case_decide as E.
    + subst j. eexists. done.
    + simpl in Hj. rewrite list_lookup_insert_ne in Hj by done. by apply (ok_data _ Hok _ d').
  - rewrite Hv, (used_insert _ _ _ Hfree). simpl. rewrite (ok_count _ Hok). apply u8_small.
    pose proof (used_bound (<[i := Some nm]> (view w))) as Hb. pose proof (used_bound (view w)).
    rewrite (used_insert _ _ _ Hfree), length_insert, Hlen in Hb. unfold is_u8. lia.
  - rewrite Hv. intros a b n Ha Hb.
    apply list_lookup_insert_Some in Ha as [(<- & Ea & _)|[Na Ha]];
    apply list_lookup_insert_Some in Hb as [(<- & Eb & _)|[Nb Hb]]; [done| | |by eapply ok_names].
    + simplify_eq. exfalso. apply Hnew. by eapply list_elem_of_lookup_2.
    + simplify_eq. exfalso. apply Hnew. by eapply list_elem_of_lookup_2.
Qed.

(** Running the code on a free slot. *)
Lemma allocate_run w l i d x nm type : rte_eth_dev_data_ w = Some l →
  rte_eth_devices w !! i = Some d → l !! i = Some x →
  (dev ← get_dev (Z.of_nat i);
   _ ← put_dev (Z.of_nat i) (dev <| data := DShared |>);
   x ← get_data (Z.of_nat i);
   _ ← put_data (Z.of_nat i) (x <| name := snprintf RTE_ETH_NAME_MAX_LEN nm |> <| port_id := Z.of_nat i |>);
   dev ← get_dev (Z.of_nat i);
   _ ← put_dev (Z.of_nat i) (dev <| attached := true |> <| dev_type := type |>);
   _ ← modify (λ w, w <| nb_ports := u8 (nb_ports w + 1) |>);
   mret (Some (Z.of_nat i))) w = Some (Some (Z.of_nat i), filled w l i d x nm type).
Proof.
  intros Hl Hd Hx. pose proof (lookup_lt_Some _ _ _ Hd). pose proof (lookup_lt_Some _ _ _ Hx).
  erewrite run_bind by (by apply run_get_dev). erewrite run_bind by (by apply run_put_dev).
  erewrite run_bind.
  2: { apply run_get_data. erewrite data_of_shared; [exact Hx|simpl; by apply list_lookup_insert_eq|done|done]. }
  erewrite run_bind.
  2: { eapply run_put_shared; [simpl; by apply list_lookup_insert_eq|done|done|done]. }
  erewrite run_bind by (apply run_get_dev; simpl; by apply list_lookup_insert_eq).
  erewrite run_bind by (apply run_put_dev; simpl; by rewrite length_insert).
  unfold filled. simpl. by rewrite list_insert_insert_eq.
Qed.

Lemma view_in_dup w nm : (∃ p, list_find (λ x, x = Some nm) (view w) = Some p) ↔ Some nm ∈ view w.
Proof.
  split.
  - intros [[k x] H]. apply list_find_Some in H as (H & -> & _). by eapply list_elem_of_lookup_2.
  - intros H. destruct (list_find_elem_of (λ x, x = Some nm) (view w) (Some nm) H eq_refl) as [p Hp]. by exists p.
Qed.

Lemma allocate_refines_frame w nm type : eth_ok w → strlen nm < RTE_ETH_NAME_MAX_LEN →
  ∃ w', rte_eth_dev_allocate nm type w = Some (Z.of_nat <$> fst (spec_allocate (view w) nm), w') ∧
    view w' = snd (spec_allocate (view w) nm) ∧ eth_ok w' ∧
    ∀ j, fst (spec_allocate (view w) nm) ≠ Some j → rte_eth_devices w' !! j = rte_eth_devices w !! j.
Proof.
  intros Hok Hnm. unfold rte_eth_dev_allocate, spec_allocate. unfold mbind at 1, M_bind at 1.
  rewrite (find_free_port_view _ Hok).
  assert (length (view w) = 32%nat) as Hlen by (rewrite view_length; apply (ok_devices _ Hok)).
  destruct (list_find (λ x, x = None) (view w)) as [[i o]|] eqn:Ef; [|by exists w].
  apply list_find_Some in Ef as (Hi & -> & _). pose proof (lookup_lt_Some _ _ _ Hi) as Hlt.
  unfold RTE_MAX_ETHPORTS at 1. destruct (Z.eqb_spec (Z.of_nat i) 32) as [?|_]; [lia|].
  assert (∃ w1 l, (null ← gets (λ w, match rte_eth_dev_data_ w with None => true | Some _ => false end);
    (if null : bool then rte_eth_dev_data_alloc else mret tt)) w = Some (tt, w1) ∧ rte_eth_dev_data_ w1 = Some l ∧
    rte_eth_devices w1 = rte_eth_devices w ∧ view w1 = view w ∧ eth_ok w1) as (w1 & l & Hrun & Hl & Hdev & Hv & Hok1).
  { unfold mbind, M_bind, gets. destruct (rte_eth_dev_data_ w) as [l|] eqn:El; [by exists w, l|].
    by apply data_alloc_ok. }
  unfold mbind at 1 2, M_bind at 1 2. unfold gets at 1. unfold mbind at 1, M_bind at 1, gets at 1 in Hrun. rewrite Hrun.
  unfold mbind at 1, M_bind at 1. rewrite (allocated_view _ _ Hok1), Hv.
  pose proof (view_in_dup w nm) as Hdup.
  destruct (list_find (λ x, x = Some nm) (view w)) as [[k y]|] eqn:En; simpl.
  - rewrite decide_True by (apply Hdup; eauto). exists w1. split_and!; try done. intros j _. by rewrite Hdev.
  - rewrite decide_False by (intros Hin; apply Hdup in Hin as [? [=]]).
    destruct (lookup_lt_is_Some_2 (rte_eth_devices w1) i) as [d Hd]; [rewrite (ok_devices _ Hok1); unfold RTE_MAX_ETHPORTS; lia|].
    destruct (lookup_lt_is_Some_2 l i) as [x Hx]; [rewrite (ok_shared _ Hok1 _ Hl); unfold RTE_MAX_ETHPORTS; lia|].
    exists (filled w1 l i d x nm type). split; [by apply allocate_run|]. simpl. split_and!.
    + rewrite (filled_view _ _ _ _ _ _ _ Hl Hd Hx), Hv, snprintf_fits; done.
    + apply filled_ok; try done; rewrite Hv; [done|]. intros Hin; apply Hdup in Hin as [? [=]].
    + intros j Hj. rewrite list_lookup_insert_ne by congruence. by rewrite Hdev.
Qed.
Lemma allocate_refines w nm type : eth_ok w → strlen nm < RTE_ETH_NAME_MAX_LEN →
  ∃ w', rte_eth_dev_allocate nm type w = Some (Z.of_nat <$> fst (spec_allocate (view w) nm), w') ∧
    view w' = snd (spec_allocate (view w) nm) ∧ eth_ok w'.
Proof. intros Hok Hnm. destruct (allocate_refines_frame w nm type Hok Hnm) as (w' & ? & ? & ? & _). by exists w'. Qed.

Lemma release_refines w i nm : eth_ok w → view w !! i = Some (Some nm) →
  ∃ w', rte_eth_dev_release_port (Some (Z.of_nat i)) w = Some (0, w') ∧ view w' = <[i := None]> (view w) ∧ eth_ok w'.
Proof.
  intros Hok Hi. pose proof Hi as Hi'. rewrite view_lookup in Hi'. apply fmap_Some in Hi' as (d & Hd & _).
  pose proof (lookup_lt_Some _ _ _ Hd) as Hlt.
  set (w' := w <| rte_eth_devices := <[i := d <| attached := false |>]> (rte_eth_devices w) |>
               <| nb_ports := u8 (nb_ports w - 1) |>).
  exists w'. split.
  { unfold rte_eth_dev_release_port, mbind, M_bind, get_dev, put_dev, modify, mret, M_ret. rewrite load_nat, Hd. simpl.
    rewrite store_in by lia. simpl. by rewrite Nat2Z.id. }
  assert (∀ j, j ≠ i → data_of w' (Z.of_nat j) = data_of w (Z.of_nat j)) as Hdata.
  { intros j Hne. unfold data_of, w'. simpl. rewrite !load_nat. by rewrite list_lookup_insert_ne. }
  assert (view w' = <[i := None]> (view w)) as Hv.
  { apply list_eq. intros j. rewrite view_lookup. destruct (decide (i = j)) as [<-|Hne].
    - rewrite list_lookup_insert_eq by (rewrite view_length; done). simpl. by rewrite list_lookup_insert_eq.
    - rewrite list_lookup_insert_ne by done. simpl. rewrite list_lookup_insert_ne, Hdata by done. by rewrite view_lookup. }
  split; [done|]. pose proof (used_full _ _ _ Hi). pose proof (used_bound (view w)) as Hb.
  rewrite view_length, (ok_devices _ Hok) in Hb. split; simpl.
  - rewrite length_insert. by apply ok_devices.
  - by apply (ok_shared _ Hok).
  - by apply (ok_mz _ Hok).
  - intros j d' Hj Ha. apply list_lookup_insert_Some in Hj as [(<- & <- & _)|[Hne Hj]]; [done|].
    rewrite Hdata by done. by apply (ok_data _ Hok _ d').
  - rewrite Hv, (used_delete _ _ _ Hi), (ok_count _ Hok). apply u8_small. unfold RTE_MAX_ETHPORTS in Hb. unfold is_u8. lia.
  - rewrite Hv. intros a b n Ha Hb'. apply list_lookup_insert_Some in Ha as [(_ & [=] & _)|[_ Ha]].
    apply list_lookup_insert_Some in Hb' as [(_ & [=] & _)|[_ Hb']]. by eapply ok_names.
Qed.

(** ** Sequences of operations *)
Inductive table_op :=
  | OpAllocate (nm : string) (type : rte_eth_dev_type)
  | OpAllocated (nm : string)
  | OpRelease (i : nat).

Definition run_table_op (op : table_op) : M (option Z) :=
  match op with
  | OpAllocate nm type => rte_eth_dev_allocate nm type
  | OpAllocated nm => rte_eth_dev_allocated nm
  | OpRelease i => r ← rte_eth_dev_release_port (Some (Z.of_nat i)); mret (Some r)
  end.
Fixpoint run_table_ops (ops : list table_op) : M (list (option Z)) :=
  match ops with
  | [] => mret []
  | op :: ops => r ← run_table_op op; rs ← run_table_ops ops; mret (r :: rs)
  end.

Definition spec_table_op (op : table_op) (t : list (option string)) : option Z * list (option string) :=
  match op with
  | OpAllocate nm _ => let '(r, t') := spec_allocate t nm in (Z.of_nat <$> r, t')
  | OpAllocated nm => ((λ '(i, _), Z.of_nat i) <$> list_find (λ x, x = Some nm) t, t)
  | OpRelease i => (Some 0, <[i := None]> t)
  end.
Fixpoint spec_table_ops (ops : list table_op) (t : list (option string)) : list (option Z) * list (option string) :=
  match ops with
  | [] => ([], t)
  | op :: ops => let '(r, t1) := spec_table_op op t in let '(rs, t2) := spec_table_ops ops t1 in (r :: rs, t2)
  end.

(** Names fit their array and only ports in use are released. *)
Definition proper_op (op : table_op) (t : list (option string)) : Prop :=
  match op with
  | OpAllocate nm _ => strlen nm < RTE_ETH_NAME_MAX_LEN
  | OpAllocated _ => True
  | OpRelease i => ∃ nm, t !! i = Some (Some nm)
  end.
Fixpoint proper_ops (ops : list table_op) (t : list (option string)) : Prop :=
  match ops with
  | [] => True
  | op :: ops => proper_op op t ∧ proper_ops ops (snd (spec_table_op op t))
  end.

Lemma table_op_refines w op : eth_ok w → proper_op op (view w) →
  ∃ w', run_table_op op w = Some (fst (spec_table_op op (view w)), w') ∧
    view w' = snd (spec_table_op op (view w)) ∧ eth_ok w'.
Proof.
  intros Hok Hp. destruct op as [nm type|nm|i]; simpl in *.
  - destruct (allocate_refines w nm type Hok Hp) as (w' & Hr & Hv & Hok').
    exists w'. by destruct (spec_allocate (view w) nm).
  - exists w. by rewrite (allocated_view _ _ Hok).
  - destruct Hp as [nm Hi]. destruct (release_refines w i nm Hok Hi) as (w' & Hr & Hv & Hok').
    exists w'. by rewrite (run_bind _ _ _ _ _ Hr).
Qed.

(** C4: As long as names have fewer than [RTE_ETH_NAME_MAX_LEN] characters and
    only ports in use are released, the port table behaves as a table of 32
    names, whatever the order of the operations: allocating takes the first free
    port unless the name is in use or the table is full, looking a
    name up gives its port, releasing frees the port; the code never touches
    memory outside its arrays, [rte_eth_dev_count] is the number of ports in
    use and no two ports in use have the same name. *)
Theorem eth_table_refines w ops (Hok : eth_ok w) (Hp : proper_ops ops (view w)) :
  ∃ w', run_table_ops ops w = Some (fst (spec_table_ops ops (view w)), w') ∧
    view w' = snd (spec_table_ops ops (view w)) ∧ eth_ok w' ∧
    rte_eth_dev_count w' = Some (used (view w'), w').
Proof.
  revert w Hok Hp. induction ops as [|op ops IH]; intros w Hok Hp; simpl in *.
  { exists w. split_and!; [done..|]. unfold rte_eth_dev_count, gets. by rewrite (ok_count _ Hok). }
  destruct Hp as [Hp Hps]. destruct (table_op_refines w op Hok Hp) as (w1 & Hr & Hv & Hok1).
  rewrite <- Hv in Hps. destruct (IH w1 Hok1 Hps) as (w2 & Hr2 & Hv2 & Hok2 & Hc2).
  exists w2. rewrite (run_bind _ _ _ _ _ Hr), (run_bind _ _ _ _ _ Hr2). rewrite Hv in *.
  destruct (spec_table_op op (view w)) as [r t1]. simpl in *. by destruct (spec_table_ops ops t1).
Qed.

(** Replacing the data of a port by the driver's own keeps the table. *)
Lemma own_data_ok w i d d' x old : eth_ok w → rte_eth_devices w !! i = Some d → attached d = true →
  attached d' = true → data d' = DLocal x →
  data_of w (Z.of_nat i) = Some old → name x = name old → port_id x = Z.of_nat i →
  let w' := w <| rte_eth_devices := <[i := d']> (rte_eth_devices w) |> in
  eth_ok w' ∧ view w' = view w ∧ data_of w' (Z.of_nat i) = Some x ∧
  ∀ j, j ≠ i → rte_eth_devices w' !! j = rte_eth_devices w !! j ∧ data_of w' (Z.of_nat j) = data_of w (Z.of_nat j).
Proof.
  intros Hok Hd Ha Ha' Hx' Hold Hn Hp w'. pose proof (lookup_lt_Some _ _ _ Hd) as Hlt.
  assert (data_of w' (Z.of_nat i) = Some x) as Hx.
  { unfold data_of, w'. simpl. rewrite load_nat, list_lookup_insert_eq by done. simpl. by rewrite Hx'. }
  assert (∀ j, j ≠ i → rte_eth_devices w' !! j = rte_eth_devices w !! j ∧ data_of w' (Z.of_nat j) = data_of w (Z.of_nat j)) as Hj.
  { intros j Hne. unfold data_of, w'. simpl. rewrite !load_nat. by rewrite list_lookup_insert_ne. }
  assert (view w' = view w) as Hv.
  { apply view_ext; [unfold w'; simpl; apply length_insert|]. intros j e e' He He'.
    destruct (decide (j = i)) as [->|Hne].
    - unfold w' in He'. simpl in He'. rewrite list_lookup_insert_eq in He' by done. simplify_eq. split; [congruence|].
      intros _. rewrite Hx, Hold. simpl. by rewrite Hn.
    - destruct (Hj j Hne) as [E1 E2]. rewrite E1 in He'. simplify_eq. by rewrite E2. }
  split_and!; [|done..]. pose proof (ok_data _ Hok) as Hdata. destruct Hok. split; try done; rewrite ?Hv; try done.
  - unfold w'. simpl. by rewrite length_insert.
  - intros j e He Hae. destruct (decide (j = i)) as [->|Hne]; [by exists x|].
    destruct (Hj j Hne) as [E1 E2]. rewrite E1 in He. rewrite E2. by eapply Hdata.
Qed.

(** The state at start-up. *)
Definition no_dev : rte_eth_dev := Dev DNull None None false RTE_ETH_DEV_UNKNOWN.
Definition eth_init (prim : bool) (mz : list rte_eth_dev_data) : eth :=
  Eth (replicate (Z.to_nat RTE_MAX_ETHPORTS) no_dev) None 0 prim (Some mz).

Lemma view_init prim mz : view (eth_init prim mz) = replicate (Z.to_nat RTE_MAX_ETHPORTS) None.
Proof. done. Qed.

Lemma eth_init_ok prim mz : length mz = Z.to_nat RTE_MAX_ETHPORTS → eth_ok (eth_init prim mz).
Proof.
  intros Hmz. split; simpl; try done.
  - by exists mz.
  - intros i d Hd Ha. change (replicate (Z.to_nat RTE_MAX_ETHPORTS) no_dev !! i = Some d) in Hd.
    apply lookup_replicate in Hd as [-> _]. done.
  - intros i j nm Hi. rewrite view_init in Hi. apply lookup_replicate in Hi as [[=] _].
Qed.
End ethdev.

Arguments rte_eth_dev_data : clear implicits.
Arguments eth_dev_ops : clear implicits.
Arguments rte_eth_dev : clear implicits.
Arguments data_ptr : clear implicits.
Arguments eth : clear implicits.
Arguments M : clear implicits.

(** ** Concrete tables *)

Definition table0 : eth unit unit := eth_init true (replicate 32 zero_data).
Definition table_ops0 : list table_op :=
  [OpAllocate "eth_ring0" RTE_ETH_DEV_VIRTUAL; OpAllocate "eth_ring1" RTE_ETH_DEV_VIRTUAL;
   OpAllocate "eth_ring0" RTE_ETH_DEV_VIRTUAL; OpRelease 0; OpAllocate "eth_ring2" RTE_ETH_DEV_VIRTUAL;
   OpAllocated "eth_ring2"].

Lemma eth_table_refines_witness :
  ∃ w', run_table_ops table_ops0 table0 = Some ([Some 0; Some 1; None; Some 0; Some 0; Some 0], w') ∧
    take 3 (view w') = [Some "eth_ring2"; Some "eth_ring1"; None] ∧ rte_eth_dev_count w' = Some (2, w').
Proof.
  destruct (eth_table_refines table0 table_ops0) as (w' & H1 & H2 & _ & H3).
  - by apply eth_init_ok.
  - unfold table0. rewrite view_init. vm_compute. split_and!; try done; by eexists.
  - exists w'. unfold table0 in *. rewrite view_init in *. split_and!; [exact H1| |].
    + by rewrite H2.
    + rewrite H3. by rewrite H2.
Defined.

(** [rte_eth_dev_get_port_by_name] compares only as many characters as the
    name looked for has, so a port whose name extends it is taken for it: with
    [eth_vhost10] on port 0 and [eth_vhost1] on port 1, looking up
    [eth_vhost1], as [rte_eth_dev_attach] does, gives port 0. *)
Theorem port_by_name_prefix :
  ∃ w, run_table_ops [OpAllocate "eth_vhost10" RTE_ETH_DEV_VIRTUAL; OpAllocate "eth_vhost1" RTE_ETH_DEV_VIRTUAL] table0
         = Some ([Some 0; Some 1], w) ∧
    rte_eth_dev_allocated "eth_vhost1" w = Some (Some 1, w) ∧
    rte_eth_dev_get_port_by_name "eth_vhost1" w = Some ((0, 0), w).
Proof. eexists. split_and!; vm_compute; reflexivity. Qed.

(** Outside these conditions: a name of 32 characters is stored cut to 31 and
    then not recognised, so that it is allocated twice, to two ports of the
    same name. *)
Definition long_port_name : string := "eth_ring_with_a_name_of_32_chars".
Theorem long_port_name_twice :
  ∃ w, run_table_ops [OpAllocate long_port_name RTE_ETH_DEV_VIRTUAL; OpAllocate long_port_name RTE_ETH_DEV_VIRTUAL; OpAllocated long_port_name] table0
         = Some ([Some 0; Some 1; None], w) ∧
    strlen long_port_name = RTE_ETH_NAME_MAX_LEN ∧
    view w !! 0%nat = Some (Some "eth_ring_with_a_name_of_32_char") ∧ view w !! 1%nat = view w !! 0%nat.
Proof. eexists. split_and!; vm_compute; reflexivity. Qed.

(** Releasing a port that is not in use takes one off the count: with one port
    in use it says that there is none, with none that there are 255. *)
Theorem release_unused_count :
  ∃ w w', run_table_ops [OpAllocate "eth_ring0" RTE_ETH_DEV_VIRTUAL; OpRelease 5] table0 = Some ([Some 0; Some 0], w) ∧
    used (view w) = 1 ∧ rte_eth_dev_count w = Some (0, w) ∧
    run_table_ops [OpRelease 5] table0 = Some ([Some 0], w') ∧ rte_eth_dev_count w' = Some (255, w').
Proof. eexists _, _. split_and!; vm_compute; reflexivity. Qed.
