(* ===== verification/EthStats.v ===== *)
(** * Statistics of the queues of a port

    The drivers of virtual ports ([rte_eth_ring.c], [rte_eth_vhost.c]) keep
    64-bit counters in their queues and report them with the same loops: each
    counter to its place of a per-queue array and into a running total. [T] is
    the queue. *)
From S2P Require Import Prelude EthTable.
Open Scope Z_scope.

Section stats.
Context {T : Type}.

(** The loops of [eth_stats_get] over the queues: the counters go to the
    per-queue arrays and into a running total. *)
Fixpoint sum_queues (get : T → Z) (qs : list T) (arr : list Z) (i : nat) (total : Z) : list Z * Z :=
  match qs with
  | [] => (arr, total)
  | q :: qs => sum_queues get qs (<[i := get q]> arr) (S i) (u64 (total + get q))
  end.
Definition counted (nb : Z) (qs : list T) : list T :=
  take (Z.to_nat (Z.min RTE_ETHDEV_QUEUE_STAT_CNTRS nb)) qs.

(** The first [nb] queues, changed. *)
Definition reset_queues (f : T → T) (nb : Z) (qs : list T) : list T :=
  (f <$> take (Z.to_nat nb) qs) ++ drop (Z.to_nat nb) qs.

Definition total (get : T → Z) (qs : list T) : Z := foldr (λ q s, get q + s) 0 qs.

Lemma sum_queues_total get qs arr i t : snd (sum_queues get qs arr i t) = u64 (t + total get qs) ∨ qs = [].
Proof.
  revert arr i t. induction qs as [|q qs IH]; intros arr i t; [by right|left]. simpl.
  destruct (IH (<[i := get q]> arr) (S i) (u64 (t + get q))) as [-> | ->].
  - unfold u64. rewrite Zplus_mod_idemp_l. f_equal. lia.
  - simpl. f_equal. lia.
Qed.
Lemma sum_queues_arr get qs arr i t k : (i + length qs <= length arr)%nat →
  fst (sum_queues get qs arr i t) !! k =
    if decide (i <= k < i + length qs)%nat then get <$> qs !! (k - i)%nat else arr !! k.
Proof.
  revert arr i t. induction qs as [|q qs IH]; intros arr i t Hl; simpl in *.
  - rewrite decide_False by lia. done.
  - rewrite IH by (rewrite length_insert; lia). destruct (decide (k = i)) as [->|Hne].
    + rewrite decide_False, decide_True by lia. rewrite Nat.sub_diag. simpl. apply list_lookup_insert_eq. lia.
    + rewrite list_lookup_insert_ne by lia. case_decide.
      * rewrite decide_True by lia. replace (k - i)%nat with (S (k - S i)) by lia. done.
      * rewrite decide_False by lia. done.
Qed.

Lemma take_reset f nb qs : take (Z.to_nat nb) (reset_queues f nb qs) = f <$> take (Z.to_nat nb) qs.
Proof.
  unfold reset_queues. destruct (decide (Z.to_nat nb <= length qs)%nat).
  - apply take_app_length'. rewrite length_fmap, length_take. lia.
  - rewrite (drop_ge qs), app_nil_r by lia. apply take_ge. rewrite length_fmap, length_take. lia.
Qed.
Lemma total_zero get (f : T → T) (qs : list T) : (∀ q, get (f q) = 0) → total get (f <$> qs) = 0.
Proof. intros Hf. unfold total. induction qs as [|q qs IH]; [done|]. simpl. rewrite Hf. exact IH. Qed.

Lemma reset_length (f : T → T) nb qs : length (reset_queues f nb qs) = length qs.
Proof. unfold reset_queues. rewrite length_app, length_fmap, <- length_app. by rewrite take_drop. Qed.

(** What the loops report of at most 16 queues. *)
Lemma stats_total (get : T → Z) nb qs : 0 <= nb <= 16 →
  snd (sum_queues get (counted nb qs) (replicate 16 0) 0 0) = u64 (total get (take (Z.to_nat nb) qs)).
Proof.
  intros Hnb. unfold counted, RTE_ETHDEV_QUEUE_STAT_CNTRS. rewrite Z.min_r by lia.
  destruct (sum_queues_total get (take (Z.to_nat nb) qs) (replicate 16 0) 0 0) as [-> | ->]; done.
Qed.
Lemma stats_queue (get : T → Z) nb qs k q : 0 <= nb <= 16 → take (Z.to_nat nb) qs !! k = Some q →
  fst (sum_queues get (counted nb qs) (replicate 16 0) 0 0) !! k = Some (get q).
Proof.
  intros Hnb Hq. unfold counted, RTE_ETHDEV_QUEUE_STAT_CNTRS. rewrite Z.min_r by lia. pose proof (lookup_lt_Some _ _ _ Hq).
  assert (length (take (Z.to_nat nb) qs) <= 16)%nat by (rewrite length_take; lia).
  rewrite sum_queues_arr by (simpl; lia). rewrite decide_True by lia. by rewrite Nat.sub_0_r, Hq.
Qed.
Lemma stats_reset_total (get : T → Z) f nb qs : 0 <= nb <= 16 → (∀ q, get (f q) = 0) →
  snd (sum_queues get (counted nb (reset_queues f nb qs)) (replicate 16 0) 0 0) = 0.
Proof. intros Hnb Hf. rewrite stats_total, take_reset by done. by rewrite total_zero. Qed.
End stats.
