(* ===== verification/EthDev.v ===== *)
(** * librte_ether: configuration and life cycle of a port

    The functions of [lib/librte_ether/rte_ethdev.c] that configure, start,
    stop and close a port, set up its queues and change its modes, over the
    device table of [EthTable.v]. Drivers are arbitrary: the theorems hold for
    any [eth_dev_ops] unless they say what the driver does. *)
From S2P Require Import Prelude CStr EthTable.
Open Scope Z_scope.

Definition ETHER_MIN_LEN : Z := 64.
Definition ETHER_MAX_LEN : Z := 1518.
Definition RTE_PKTMBUF_HEADROOM : Z := 128.
Definition RTE_ETH_QUEUE_STATE_STOPPED : Z := 0.
Definition ETH_64_POOLS : Z := 64.
Definition EADDRINUSE : Z := 98.
Definition ENOSYS : Z := 38.

(** What the code reads of a packet buffer pool. *)
Record pool_info := PoolInfo { private_data_size : Z; mbuf_data_room_size : Z }.
Definition sizeof_pktmbuf_pool_private : Z := 4.

Section ethdev.
Context {P Q : Type}.
Local Notation D := (rte_eth_dev_data P Q).
Local Notation M := (M P Q).

(** The contents of an uninitialised [struct rte_eth_dev_info] on the stack,
    and whether the calls of [rte_zmalloc] and [rte_realloc] for a queue array
    succeed. *)
Variables (stack_info : rte_eth_dev_info) (alloc_rx alloc_tx : bool).

(** Calls of a driver function on the data of a port. *)
Definition call (i : Z) (f : D → Z * D) : M Z :=
  x ← get_data i; let '(r, x') := f x in _ ← put_data i x'; mret r.
Definition call_void (i : Z) (f : D → D) : M unit := x ← get_data i; put_data i (f x).

(** ** Queue arrays

    The old array is [qs]; releasing a queue is the driver's business. *)
Definition release_queues (rel : option Q → D → D) (qs : list (option Q)) (from to : Z) (x : D) : option D :=
  foldl (λ ox k, x ← ox; q ← load qs (from + Z.of_nat k); Some (rel q x)) (Some x) (seq 0 (Z.to_nat (to - from))).

(** [realloc] keeps what fits; the new entries are zeroed. *)
Definition resize_queues (qs : list (option Q)) (nb : Z) : list (option Q) := resize (Z.to_nat nb) None qs.

Definition rte_eth_dev_rx_queue_config (pid nb_queues : Z) : M Z :=
  x ← get_data pid;
  match rx_queues x with
  | None =>
      if alloc_rx then
        _ ← put_data pid (x <| rx_queues := Some (replicate (Z.to_nat nb_queues) None) |> <| nb_rx_queues := nb_queues |>);
        mret 0
      else _ ← put_data pid (x <| nb_rx_queues := 0 |>); mret (- ENOMEM)
  | Some rxq =>
      ops ← get_ops pid;
      func_or (rx_queue_release ops) (- ENOTSUP) (λ rel,
        x ← liftO (release_queues rel rxq nb_queues (nb_rx_queues x) x);
        _ ← put_data pid x;
        if alloc_rx then
          _ ← put_data pid (x <| rx_queues := Some (resize_queues rxq nb_queues) |> <| nb_rx_queues := nb_queues |>);
          mret 0
        else mret (- ENOMEM))
  end.

Definition rte_eth_dev_tx_queue_config (pid nb_queues : Z) : M Z :=
  x ← get_data pid;
  match tx_queues x with
  | None =>
      if alloc_tx then
        _ ← put_data pid (x <| tx_queues := Some (replicate (Z.to_nat nb_queues) None) |> <| nb_tx_queues := nb_queues |>);
        mret 0
      else _ ← put_data pid (x <| nb_tx_queues := 0 |>); mret (- ENOMEM)
  | Some txq =>
      ops ← get_ops pid;
      func_or (tx_queue_release ops) (- ENOTSUP) (λ rel,
        x ← liftO (release_queues rel txq nb_queues (nb_tx_queues x) x);
        _ ← put_data pid x;
        if alloc_tx then
          _ ← put_data pid (x <| tx_queues := Some (resize_queues txq nb_queues) |> <| nb_tx_queues := nb_queues |>);
          mret 0
        else mret (- ENOMEM))
  end.

(** ** [rte_eth_dev_configure] *)

(** The receive length the port is configured with, or an error. *)
Definition check_rx_pkt_len (conf : rte_eth_conf) (info : rte_eth_dev_info) : option rte_eth_conf :=
  let len := max_rx_pkt_len (rxmode conf) in
  if jumbo_frame (rxmode conf) =? 1 then
    if max_rx_pktlen info <? len then None
    else if len <? ETHER_MIN_LEN then None
    else Some conf
  else if (len <? ETHER_MIN_LEN) || (ETHER_MAX_LEN <? len)
  then Some (conf <| rxmode := (rxmode conf) <| max_rx_pkt_len := ETHER_MAX_LEN |> |>)
  else Some conf.

Definition rte_eth_dev_configure (pid nb_rx_q nb_tx_q : Z) (conf : rte_eth_conf) : M Z :=
  primary_or (- E_RTE_SECONDARY) (valid_port_or pid (- EINVAL) (
  if RTE_MAX_QUEUES_PER_PORT <? nb_rx_q then mret (- EINVAL) else
  if RTE_MAX_QUEUES_PER_PORT <? nb_tx_q then mret (- EINVAL) else
  ops ← get_ops pid;
  func_or (dev_infos_get ops) (- ENOTSUP) (λ infos_get,
  func_or (dev_configure ops) (- ENOTSUP) (λ configure,
  x ← get_data pid;
  if negb (dev_started x =? 0) then mret (- EBUSY) else
  let info := infos_get x stack_info in
  if max_rx_queues info <? nb_rx_q then mret (- EINVAL) else
  if nb_rx_q =? 0 then mret (- EINVAL) else
  if max_tx_queues info <? nb_tx_q then mret (- EINVAL) else
  if nb_tx_q =? 0 then mret (- EINVAL) else
  _ ← put_data pid (x <| dev_conf := conf |>);
  if (lsc conf =? 1) && (Z.land (dev_flags x) RTE_ETH_DEV_INTR_LSC =? 0) then mret (- EINVAL) else
  match check_rx_pkt_len conf info with
  | None => mret (- EINVAL)
  | Some conf' =>
      _ ← put_data pid (x <| dev_conf := conf' |>);
      diag ← rte_eth_dev_rx_queue_config pid nb_rx_q;
      if negb (diag =? 0) then mret diag else
      diag ← rte_eth_dev_tx_queue_config pid nb_tx_q;
      if negb (diag =? 0) then _ ← rte_eth_dev_rx_queue_config pid 0; mret diag else
      diag ← call pid configure;
      if negb (diag =? 0) then
        _ ← rte_eth_dev_rx_queue_config pid 0;
        _ ← rte_eth_dev_tx_queue_config pid 0;
        mret diag
      else mret 0
  end)))).

(** ** Starting and stopping queues *)
Definition queue_switch (nb : D → Z) (state : D → list Z) (fn : eth_dev_ops P Q → option (Z → D → Z * D))
    (already : Z → bool) (pid qid : Z) : M Z :=
  primary_or (- E_RTE_SECONDARY) (valid_port_or pid (- EINVAL) (
  x ← get_data pid;
  if nb x <=? qid then mret (- EINVAL) else
  ops ← get_ops pid;
  func_or (fn ops) (- ENOTSUP) (λ f,
  s ← liftO (load (state x) qid);
  if already s then mret 0 else call pid (f qid)))).

Definition rte_eth_dev_rx_queue_start : Z → Z → M Z :=
  queue_switch nb_rx_queues rx_queue_state rx_queue_start (λ s, negb (s =? RTE_ETH_QUEUE_STATE_STOPPED)).
Definition rte_eth_dev_rx_queue_stop : Z → Z → M Z :=
  queue_switch nb_rx_queues rx_queue_state rx_queue_stop (λ s, s =? RTE_ETH_QUEUE_STATE_STOPPED).
Definition rte_eth_dev_tx_queue_start : Z → Z → M Z :=
  queue_switch nb_tx_queues tx_queue_state tx_queue_start (λ s, negb (s =? RTE_ETH_QUEUE_STATE_STOPPED)).
Definition rte_eth_dev_tx_queue_stop : Z → Z → M Z :=
  queue_switch nb_tx_queues tx_queue_state tx_queue_stop (λ s, s =? RTE_ETH_QUEUE_STATE_STOPPED).

(** ** Modes *)
Definition rte_eth_promiscuous_enable (pid : Z) : M unit :=
  valid_port_or pid tt (ops ← get_ops pid; func_or (promiscuous_enable ops) tt (λ f,
    _ ← call_void pid f; call_void pid (λ x, x <| promiscuous := 1 |>))).
Definition rte_eth_promiscuous_disable (pid : Z) : M unit :=
  valid_port_or pid tt (ops ← get_ops pid; func_or (promiscuous_disable ops) tt (λ f,
    _ ← call_void pid (λ x, x <| promiscuous := 0 |>); call_void pid f)).
Definition rte_eth_promiscuous_get (pid : Z) : M Z :=
  valid_port_or pid (- EINVAL) (x ← get_data pid; mret (promiscuous x)).
Definition rte_eth_allmulticast_enable (pid : Z) : M unit :=
  valid_port_or pid tt (ops ← get_ops pid; func_or (allmulticast_enable ops) tt (λ f,
    _ ← call_void pid f; call_void pid (λ x, x <| all_multicast := 1 |>))).
Definition rte_eth_allmulticast_disable (pid : Z) : M unit :=
  valid_port_or pid tt (ops ← get_ops pid; func_or (allmulticast_disable ops) tt (λ f,
    _ ← call_void pid (λ x, x <| all_multicast := 0 |>); call_void pid f)).
Definition rte_eth_allmulticast_get (pid : Z) : M Z :=
  valid_port_or pid (- EINVAL) (x ← get_data pid; mret (all_multicast x)).

(** ** Device information *)
Definition zero_info : rte_eth_dev_info :=
  Info "" None 0 0 0 0 0 0 0 (DescLim 0 0 0) (DescLim 0 0 0).
Definition UINT16_MAX : Z := 65535.
Definition default_lim : rte_eth_desc_lim := DescLim UINT16_MAX 0 1.

(** [None] in the result: the caller's structure is left as it was. *)
Definition rte_eth_dev_info_get (pid : Z) : M (option rte_eth_dev_info) :=
  valid_port_or pid None (
    let info := zero_info <| rx_desc_lim := default_lim |> <| tx_desc_lim := default_lim |> in
    ops ← get_ops pid;
    func_or (dev_infos_get ops) (Some info) (λ f,
    x ← get_data pid;
    dev ← get_dev pid;
    mret (Some ((f x info) <| pci_info := pci_dev dev |> <| driver_name := drv_name x |>)))).

(** The caller's variable after [rte_eth_dev_info_get(port, &dev_info)]. *)
Definition info_get_local (pid : Z) : M rte_eth_dev_info :=
  r ← rte_eth_dev_info_get pid; mret (default stack_info r).

(** ** Start, stop, close *)
Definition is_zero_ether_addr (a : ether_addr) : bool := forallb (Z.eqb 0) a.

Fixpoint replay_mac_addrs (fuel : nat) (pid pool i max : Z) : M unit :=
  match fuel with
  | O => mret tt
  | S f =>
      if i <? max then
        x ← get_data pid;
        addrs ← liftO (mac_addrs x);
        addr ← liftO (load addrs i);
        if is_zero_ether_addr addr then replay_mac_addrs f pid pool (i + 1) max else
        ops ← get_ops pid;
        match mac_addr_add ops with
        | None => mret tt
        | Some add =>
            sel ← liftO (load (mac_pool_sel x) i);
            if Z.testbit sel pool then
              _ ← call_void pid (add addr i pool); replay_mac_addrs f pid pool (i + 1) max
            else mret tt
        end
      else mret tt
  end.

Definition rte_eth_dev_config_restore (pid : Z) : M unit :=
  info ← info_get_local pid;
  x ← get_data pid;
  let pool := if sriov_active x =? 0 then 0 else def_vmdq_idx x in
  _ ← replay_mac_addrs (Z.to_nat (max_mac_addrs info)) pid pool 0 (max_mac_addrs info);
  p ← rte_eth_promiscuous_get pid;
  _ ← (if p =? 1 then rte_eth_promiscuous_enable pid
       else p ← rte_eth_promiscuous_get pid; if p =? 0 then rte_eth_promiscuous_disable pid else mret tt);
  m ← rte_eth_allmulticast_get pid;
  if m =? 1 then rte_eth_allmulticast_enable pid
  else m ← rte_eth_allmulticast_get pid; if m =? 0 then rte_eth_allmulticast_disable pid else mret tt.

Definition rte_eth_dev_start (pid : Z) : M Z :=
  primary_or (- E_RTE_SECONDARY) (valid_port_or pid (- EINVAL) (
  ops ← get_ops pid;
  func_or (op_dev_start ops) (- ENOTSUP) (λ start,
  x ← get_data pid;
  if negb (dev_started x =? 0) then mret 0 else
  diag ← call pid start;
  if negb (diag =? 0) then mret diag else
  _ ← call_void pid (λ x, x <| dev_started := 1 |>);
  _ ← rte_eth_dev_config_restore pid;
  x ← get_data pid;
  if lsc (dev_conf x) =? 0 then
    func_or (link_update ops) (- ENOTSUP) (λ f, _ ← call pid (f 0); mret 0)
  else mret 0))).

Definition rte_eth_dev_stop (pid : Z) : M unit :=
  primary_or tt (valid_port_or pid tt (
  ops ← get_ops pid;
  func_or (op_dev_stop ops) tt (λ stop,
  x ← get_data pid;
  if dev_started x =? 0 then mret tt else
  _ ← put_data pid (x <| dev_started := 0 |>);
  call_void pid stop))).

Definition rte_eth_dev_set_link_up (pid : Z) : M Z :=
  primary_or (- E_RTE_SECONDARY) (valid_port_or pid (- EINVAL) (
  ops ← get_ops pid; func_or (dev_set_link_up ops) (- ENOTSUP) (call pid))).
Definition rte_eth_dev_set_link_down (pid : Z) : M Z :=
  primary_or (- E_RTE_SECONDARY) (valid_port_or pid (- EINVAL) (
  ops ← get_ops pid; func_or (dev_set_link_down ops) (- ENOTSUP) (call pid))).

Definition rte_eth_dev_close (pid : Z) : M unit :=
  primary_or tt (valid_port_or pid tt (
  ops ← get_ops pid;
  func_or (dev_close ops) tt (λ close,
  _ ← call_void pid (λ x, x <| dev_started := 0 |>);
  _ ← call_void pid close;
  call_void pid (λ x, x <| rx_queues := None |> <| tx_queues := None |>)))).

(** ** Queue set-up *)
Definition desc_ok (nb : Z) (lim : rte_eth_desc_lim) : bool :=
  negb ((nb_max lim <? nb) || (nb <? nb_min lim) || negb (nb mod nb_align lim =? 0)).

Definition rte_eth_rx_queue_setup (pid qid nb_rx_desc socket : Z) (mp : pool_info) : M Z :=
  primary_or (- E_RTE_SECONDARY) (valid_port_or pid (- EINVAL) (
  x ← get_data pid;
  if nb_rx_queues x <=? qid then mret (- EINVAL) else
  if negb (dev_started x =? 0) then mret (- EBUSY) else
  ops ← get_ops pid;
  func_or (dev_infos_get ops) (- ENOTSUP) (λ _,
  func_or (rx_queue_setup ops) (- ENOTSUP) (λ setup,
  info ← info_get_local pid;
  if private_data_size mp <? sizeof_pktmbuf_pool_private then mret (- ENOSPC) else
  let mbp_buf_size := mbuf_data_room_size mp in
  if u32 (mbp_buf_size - RTE_PKTMBUF_HEADROOM) <? min_rx_bufsize info then mret (- EINVAL) else
  if negb (desc_ok nb_rx_desc (rx_desc_lim info)) then mret (- EINVAL) else
  ret ← call pid (setup qid nb_rx_desc socket);
  _ ← (if ret =? 0 then
         call_void pid (λ x, if (min_rx_buf_size x =? 0) || (mbp_buf_size <? min_rx_buf_size x)
                             then x <| min_rx_buf_size := mbp_buf_size |> else x)
       else mret tt);
  mret ret)))).

Definition rte_eth_tx_queue_setup (pid qid nb_tx_desc socket : Z) : M Z :=
  primary_or (- E_RTE_SECONDARY) (valid_port_or pid (- EINVAL) (
  x ← get_data pid;
  if nb_tx_queues x <=? qid then mret (- EINVAL) else
  if negb (dev_started x =? 0) then mret (- EBUSY) else
  ops ← get_ops pid;
  func_or (dev_infos_get ops) (- ENOTSUP) (λ _,
  func_or (tx_queue_setup ops) (- ENOTSUP) (λ setup,
  info ← info_get_local pid;
  if negb (desc_ok nb_tx_desc (tx_desc_lim info)) then mret (- EINVAL) else
  call pid (setup qid nb_tx_desc socket))))).

(** ** Link, statistics, MTU *)
Definition link_get (wait : Z) (pid : Z) : M (option rte_eth_link) :=
  valid_port_or pid None (
    x ← get_data pid;
    if negb (lsc (dev_conf x) =? 0) then mret (Some (dev_link x)) else
    ops ← get_ops pid;
    func_or (link_update ops) None (λ f, _ ← call pid (f wait); x ← get_data pid; mret (Some (dev_link x)))).
Definition rte_eth_link_get : Z → M (option rte_eth_link) := link_get 1.
Definition rte_eth_link_get_nowait : Z → M (option rte_eth_link) := link_get 0.

Definition rte_eth_stats_get (pid : Z) : M (Z * option rte_eth_stats) :=
  valid_port_or pid (- EINVAL, None) (
    ops ← get_ops pid;
    func_or (stats_get ops) (- ENOTSUP, Some zero_stats) (λ f,
    x ← get_data pid; mret (0, Some ((f x zero_stats) <| rx_nombuf := rx_mbuf_alloc_failed x |>)))).
Definition rte_eth_stats_reset (pid : Z) : M unit :=
  valid_port_or pid tt (ops ← get_ops pid; func_or (stats_reset ops) tt (λ f,
    _ ← call_void pid f; call_void pid (λ x, x <| rx_mbuf_alloc_failed := 0 |>))).

Definition rte_eth_macaddr_get (pid : Z) : M (option ether_addr) :=
  valid_port_or pid None (x ← get_data pid; l ← liftO (mac_addrs x); a ← liftO (load l 0); mret (Some a)).
Definition rte_eth_dev_get_mtu (pid : Z) : M (Z * option Z) :=
  valid_port_or pid (- ENODEV, None) (x ← get_data pid; mret (0, Some (mtu x))).
Definition rte_eth_dev_set_mtu (pid m : Z) : M Z :=
  valid_port_or pid (- ENODEV) (ops ← get_ops pid; func_or (mtu_set ops) (- ENOTSUP) (λ f,
    ret ← call pid (f m);
    _ ← (if ret =? 0 then call_void pid (λ x, x <| mtu := m |>) else mret tt);
    mret ret)).

(** ** VLAN *)
Definition rte_eth_dev_vlan_filter (pid vlan_id on : Z) : M Z :=
  valid_port_or pid (- ENODEV) (
    x ← get_data pid;
    if hw_vlan_filter (rxmode (dev_conf x)) =? 0 then mret (- ENOSYS) else
    if 4095 <? vlan_id then mret (- EINVAL) else
    ops ← get_ops pid; func_or (vlan_filter_set ops) (- ENOTSUP) (λ f, call pid (f vlan_id on))).
Definition rte_eth_dev_set_vlan_strip_on_queue (pid qid on : Z) : M Z :=
  valid_port_or pid (- ENODEV) (
    x ← get_data pid;
    if nb_rx_queues x <=? qid then mret (- EINVAL) else
    ops ← get_ops pid; func_or (vlan_strip_queue_set ops) (- ENOTSUP) (λ f, _ ← call_void pid (f qid on); mret 0)).
Definition rte_eth_dev_set_vlan_ether_type (pid tpid : Z) : M Z :=
  valid_port_or pid (- ENODEV) (
    ops ← get_ops pid; func_or (vlan_tpid_set ops) (- ENOTSUP) (λ f, _ ← call_void pid (f tpid); mret 0)).
Definition rte_eth_dev_set_vlan_pvid (pid pvid on : Z) : M Z :=
  valid_port_or pid (- ENODEV) (
    ops ← get_ops pid; func_or (vlan_pvid_set ops) (- ENOTSUP) (λ f, _ ← call_void pid (f pvid on); mret 0)).

Definition ETH_VLAN_STRIP_OFFLOAD : Z := 1.
Definition ETH_VLAN_FILTER_OFFLOAD : Z := 2.
Definition ETH_VLAN_EXTEND_OFFLOAD : Z := 4.
Definition flag (m bit : Z) : Z := c_bool (negb (Z.land m bit =? 0)).
Definition truth (v : Z) : Z := c_bool (negb (v =? 0)).

(** The new modes, and the mask of those that changed. *)
Definition vlan_change (m : rte_eth_rxmode) (offload_mask : Z) : rte_eth_rxmode * Z :=
  let strip := flag offload_mask ETH_VLAN_STRIP_OFFLOAD in
  let '(m, mask) := if strip =? truth (hw_vlan_strip m) then (m, 0)
                    else (m <| hw_vlan_strip := strip |>, ETH_VLAN_STRIP_OFFLOAD) in
  let filter := flag offload_mask ETH_VLAN_FILTER_OFFLOAD in
  let '(m, mask) := if filter =? truth (hw_vlan_filter m) then (m, mask)
                    else (m <| hw_vlan_filter := filter |>, Z.lor mask ETH_VLAN_FILTER_OFFLOAD) in
  let ext := flag offload_mask ETH_VLAN_EXTEND_OFFLOAD in
  if ext =? truth (hw_vlan_extend m) then (m, mask)
  else (m <| hw_vlan_extend := ext |>, Z.lor mask ETH_VLAN_EXTEND_OFFLOAD).

Definition rte_eth_dev_set_vlan_offload (pid offload_mask : Z) : M Z :=
  valid_port_or pid (- ENODEV) (
    x ← get_data pid;
    let '(m, mask) := vlan_change (rxmode (dev_conf x)) offload_mask in
    _ ← put_data pid (x <| dev_conf := (dev_conf x) <| rxmode := m |> |>);
    if mask =? 0 then mret 0 else
    ops ← get_ops pid; func_or (vlan_offload_set ops) (- ENOTSUP) (λ f, _ ← call_void pid (f mask); mret 0)).

Definition rte_eth_dev_get_vlan_offload (pid : Z) : M Z :=
  valid_port_or pid (- ENODEV) (
    x ← get_data pid;
    let m := rxmode (dev_conf x) in
    let ret := if hw_vlan_strip m =? 0 then 0 else ETH_VLAN_STRIP_OFFLOAD in
    let ret := if hw_vlan_filter m =? 0 then ret else Z.lor ret ETH_VLAN_FILTER_OFFLOAD in
    let ret := if hw_vlan_extend m =? 0 then ret else Z.lor ret ETH_VLAN_EXTEND_OFFLOAD in
    mret ret).

(** ** MAC addresses *)
Fixpoint mac_index (fuel : nat) (addrs : list ether_addr) (addr : ether_addr) (i max : Z) : option Z :=
  match fuel with
  | O => Some (-1)
  | S f => if i <? max then a ← load addrs i; if decide (a = addr) then Some i else mac_index f addrs addr (i + 1) max
           else Some (-1)
  end.
Definition get_mac_addr_index (pid : Z) (addr : ether_addr) : M Z :=
  info ← info_get_local pid;
  x ← get_data pid;
  if max_mac_addrs info <=? 0 then mret (-1) else
  addrs ← liftO (mac_addrs x);
  liftO (mac_index (Z.to_nat (max_mac_addrs info)) addrs addr 0 (max_mac_addrs info)).

Definition set_mac (pid i : Z) (addr : ether_addr) (sel : Z → Z) : M unit :=
  x ← get_data pid;
  addrs ← liftO (mac_addrs x);
  addrs ← liftO (store addrs i addr);
  s ← liftO (load (mac_pool_sel x) i);
  sels ← liftO (store (mac_pool_sel x) i (sel s));
  put_data pid (x <| mac_addrs := Some addrs |> <| mac_pool_sel := sels |>).

Definition rte_eth_dev_mac_addr_add (pid : Z) (addr : ether_addr) (pool : Z) : M Z :=
  valid_port_or pid (- ENODEV) (
  ops ← get_ops pid;
  func_or (mac_addr_add ops) (- ENOTSUP) (λ add,
  if is_zero_ether_addr addr then mret (- EINVAL) else
  if ETH_64_POOLS <=? pool then mret (- EINVAL) else
  let finish index := _ ← call_void pid (add addr index pool);
                      _ ← set_mac pid index addr (λ s, Z.lor s (Z.shiftl 1 pool)); mret 0 in
  index ← get_mac_addr_index pid addr;
  if index <? 0 then
    index ← get_mac_addr_index pid null_mac_addr;
    if index <? 0 then mret (- ENOSPC) else finish index
  else
    x ← get_data pid;
    pool_mask ← liftO (load (mac_pool_sel x) index);
    if Z.testbit pool_mask pool then mret 0 else finish index)).

Definition rte_eth_dev_mac_addr_remove (pid : Z) (addr : ether_addr) : M Z :=
  valid_port_or pid (- ENODEV) (
  ops ← get_ops pid;
  func_or (mac_addr_remove ops) (- ENOTSUP) (λ remove,
  index ← get_mac_addr_index pid addr;
  if index =? 0 then mret (- EADDRINUSE) else
  if index <? 0 then mret 0 else
  _ ← call_void pid (remove index);
  _ ← set_mac pid index null_mac_addr (λ _, 0);
  mret 0)).

Definition is_valid_assigned_ether_addr (a : ether_addr) : bool :=
  match a with b0 :: _ => (Z.land b0 1 =? 0) && negb (is_zero_ether_addr a) | [] => false end.

Definition rte_eth_dev_default_mac_addr_set (pid : Z) (addr : ether_addr) : M Z :=
  valid_port_or pid (- ENODEV) (
  if negb (is_valid_assigned_ether_addr addr) then mret (- EINVAL) else
  ops ← get_ops pid;
  func_or (mac_addr_set ops) (- ENOTSUP) (λ set,
  x ← get_data pid;
  addrs ← liftO (mac_addrs x);
  addrs ← liftO (store addrs 0 addr);
  _ ← put_data pid (x <| mac_addrs := Some addrs |>);
  _ ← call_void pid (set addr);
  mret 0)).

(** ** The calls of the interface *)
Inductive api_call :=
  | ApiConfigure (nb_rx nb_tx : Z) (conf : rte_eth_conf)
  | ApiRxQueueStart (q : Z) | ApiRxQueueStop (q : Z) | ApiTxQueueStart (q : Z) | ApiTxQueueStop (q : Z)
  | ApiStart | ApiStop | ApiClose | ApiSetLinkUp | ApiSetLinkDown
  | ApiRxQueueSetup (q nb socket : Z) (mp : pool_info) | ApiTxQueueSetup (q nb socket : Z)
  | ApiPromiscuous (on : bool) | ApiPromiscuousGet | ApiAllmulticast (on : bool) | ApiAllmulticastGet
  | ApiLinkGet (wait : bool) | ApiStatsGet | ApiStatsReset | ApiInfoGet | ApiMacaddrGet
  | ApiGetMtu | ApiSetMtu (m : Z)
  | ApiVlanFilter (id on : Z) | ApiVlanStrip (q on : Z) | ApiVlanEtherType (t : Z) | ApiVlanPvid (v on : Z)
  | ApiVlanOffload (m : Z) | ApiGetVlanOffload
  | ApiMacAdd (a : ether_addr) (pool : Z) | ApiMacRemove (a : ether_addr) | ApiMacSet (a : ether_addr).

Definition void {R} (m : M R) : M Z := _ ← m; mret 0.

Definition run_api (pid : Z) (c : api_call) : M Z :=
  match c with
  | ApiConfigure nb_rx nb_tx conf => rte_eth_dev_configure pid nb_rx nb_tx conf
  | ApiRxQueueStart q => rte_eth_dev_rx_queue_start pid q
  | ApiRxQueueStop q => rte_eth_dev_rx_queue_stop pid q
  | ApiTxQueueStart q => rte_eth_dev_tx_queue_start pid q
  | ApiTxQueueStop q => rte_eth_dev_tx_queue_stop pid q
  | ApiStart => rte_eth_dev_start pid
  | ApiStop => void (rte_eth_dev_stop pid)
  | ApiClose => void (rte_eth_dev_close pid)
  | ApiSetLinkUp => rte_eth_dev_set_link_up pid
  | ApiSetLinkDown => rte_eth_dev_set_link_down pid
  | ApiRxQueueSetup q nb socket mp => rte_eth_rx_queue_setup pid q nb socket mp
  | ApiTxQueueSetup q nb socket => rte_eth_tx_queue_setup pid q nb socket
  | ApiPromiscuous on => void (if on then rte_eth_promiscuous_enable pid else rte_eth_promiscuous_disable pid)
  | ApiPromiscuousGet => rte_eth_promiscuous_get pid
  | ApiAllmulticastGet => rte_eth_allmulticast_get pid
  | ApiAllmulticast on => void (if on then rte_eth_allmulticast_enable pid else rte_eth_allmulticast_disable pid)
  | ApiLinkGet wait => void (if wait then rte_eth_link_get pid else rte_eth_link_get_nowait pid)
  | ApiStatsGet => r ← rte_eth_stats_get pid; mret (fst r)
  | ApiStatsReset => void (rte_eth_stats_reset pid)
  | ApiInfoGet => void (rte_eth_dev_info_get pid)
  | ApiMacaddrGet => void (rte_eth_macaddr_get pid)
  | ApiGetMtu => r ← rte_eth_dev_get_mtu pid; mret (fst r)
  | ApiSetMtu m => rte_eth_dev_set_mtu pid m
  | ApiVlanFilter id on => rte_eth_dev_vlan_filter pid id on
  | ApiVlanStrip q on => rte_eth_dev_set_vlan_strip_on_queue pid q on
  | ApiVlanEtherType t => rte_eth_dev_set_vlan_ether_type pid t
  | ApiVlanPvid v on => rte_eth_dev_set_vlan_pvid pid v on
  | ApiVlanOffload m => rte_eth_dev_set_vlan_offload pid m
  | ApiGetVlanOffload => rte_eth_dev_get_vlan_offload pid
  | ApiMacAdd a pool => rte_eth_dev_mac_addr_add pid a pool
  | ApiMacRemove a => rte_eth_dev_mac_addr_remove pid a
  | ApiMacSet a => rte_eth_dev_default_mac_addr_set pid a
  end.

(** ** Isolation of ports *)

(** [w'] differs from [w] at most in the data of port [p]. *)
Record frame (p : Z) (w w' : eth P Q) : Prop := {
  frame_others : ∀ j, Z.of_nat j ≠ p → rte_eth_devices w' !! j = rte_eth_devices w !! j ∧
                                        data_of w' (Z.of_nat j) = data_of w (Z.of_nat j);
  frame_dev : ∀ j d, rte_eth_devices w !! j = Some d → ∃ d', rte_eth_devices w' !! j = Some d' ∧
     attached d' = attached d ∧ dev_ops d' = dev_ops d ∧ pci_dev d' = pci_dev d ∧ dev_type d' = dev_type d;
  frame_len : length (rte_eth_devices w') = length (rte_eth_devices w);
  frame_rest : nb_ports w' = nb_ports w ∧ primary w' = primary w ∧ dev_data_mz w' = dev_data_mz w }.

Lemma frame_refl p w : frame p w w.
Proof. split; try done. intros j d Hd. by exists d. Qed.

Lemma frame_trans p w1 w2 w3 : frame p w1 w2 → frame p w2 w3 → frame p w1 w3.
Proof.
  intros [O1 D1 L1 (N1 & P1 & Z1)] [O2 D2 L2 (N2 & P2 & Z2)]. split.
  - intros j Hj. destruct (O1 j Hj) as [E1 F1], (O2 j Hj) as [E2 F2]. split; congruence.
  - intros j d Hd. destruct (D1 j d Hd) as (d1 & E1 & A1 & B1 & C1 & F1).
    destruct (D2 j d1 E1) as (d2 & E2 & A2 & B2 & C2 & F2). exists d2. split_and!; congruence.
  - congruence.
  - split_and!; congruence.
Qed.

(** Computations that respect the frame of port [p], and their composition. *)
Definition local {R} (p : Z) (m : M R) : Prop := ∀ w r w', m w = Some (r, w') → frame p w w'.

Lemma local_ret {R} p (x : R) : local p (mret x : M R).
Proof. intros w r w' [= <- <-]. apply frame_refl. Qed.
Lemma local_bind {R S} p (m : M R) (k : R → M S) : local p m → (∀ x, local p (k x)) → local p (m ≫= k).
Proof.
  intros Hm Hk w r w' H. unfold mbind, M_bind in H. destruct (m w) as [[x w1]|] eqn:E; [|done].
  eapply frame_trans; [by eapply Hm|by eapply Hk].
Qed.
Lemma local_gets {R} p (f : eth P Q → R) : local p (gets f).
Proof. intros w r w' [= <- <-]. apply frame_refl. Qed.
Lemma local_liftO {R} p (o : option R) : local p (liftO o).
Proof. intros w r w' H. unfold liftO in H. destruct o; simplify_eq. apply frame_refl. Qed.
Lemma local_get_data p i : local p (get_data i).
Proof. intros w r w' H. unfold get_data in H. destruct (data_of w i); simplify_eq/=. apply frame_refl. Qed.
Lemma local_get_dev p i : local p (get_dev i).
Proof. intros w r w' H. unfold get_dev in H. destruct (load _ i); simplify_eq/=. apply frame_refl. Qed.
Lemma local_is_valid p i : local p (rte_eth_dev_is_valid_port i).
Proof.
  intros w r w' H. unfold rte_eth_dev_is_valid_port in H. destruct (RTE_MAX_ETHPORTS <=? i); simplify_eq; [apply frame_refl|].
  destruct (load _ i); simplify_eq/=. apply frame_refl.
Qed.

Lemma local_put_data p x : local p (put_data p x).
Proof.
  intros w r w' H. unfold put_data in H. destruct (load (rte_eth_devices w) p) as [d|] eqn:Ed; simpl in H; [|done].
  apply load_Some in Ed as [Hp Hd]. destruct (data d) eqn:Edt; [done| |].
  - destruct (rte_eth_dev_data_ w) as [l|] eqn:El; simpl in H; [|done].
    destruct (store l p x) as [l'|] eqn:Es; simplify_eq/=. apply store_Some in Es as [_ ->].
    split; simpl; [|intros j e He; by exists e|done|done]. intros j Hj. split; [done|].
    unfold data_of. simpl. rewrite !load_nat, El. destruct (rte_eth_devices w !! j) as [e|]; simpl; [|done].
    rewrite ?load_nat, list_lookup_insert_ne by lia. done.
  - destruct (store _ p _) as [l'|] eqn:Es; simplify_eq/=. apply store_Some in Es as [_ ->].
    split; simpl; [| |apply length_insert|done].
    + intros j Hj. unfold data_of. simpl. by rewrite !load_nat, list_lookup_insert_ne by lia.
    + intros j e He. destruct (decide (j = Z.to_nat p)) as [->|Hne].
      * simplify_eq. eexists. rewrite list_lookup_insert_eq by (by eapply lookup_lt_Some). done.
      * exists e. by rewrite list_lookup_insert_ne by done.
Qed.

(** Walks through a computation, down to its accesses. *)
Ltac locals_with lem :=
  repeat first
    [ lem | apply local_ret | apply local_gets | apply local_liftO | apply local_get_data | apply local_get_dev
    | apply local_is_valid | apply local_put_data | apply local_bind; [|intros ?]
    | progress unfold valid_port_or, primary_or, func_or, get_ops, call, call_void, void, queue_switch, link_get
    | case_match ].
Ltac locals := locals_with fail.

Lemma local_rx_queue_config p nb : local p (rte_eth_dev_rx_queue_config p nb).
Proof. unfold rte_eth_dev_rx_queue_config. locals. Qed.
Lemma local_tx_queue_config p nb : local p (rte_eth_dev_tx_queue_config p nb).
Proof. unfold rte_eth_dev_tx_queue_config. locals. Qed.
Lemma local_info p : local p (info_get_local p).
Proof. unfold info_get_local, rte_eth_dev_info_get. locals. Qed.
Lemma local_replay fuel p pool i max : local p (replay_mac_addrs fuel p pool i max).
Proof. revert i. induction fuel as [|f IH]; intros i; simpl; locals_with ltac:(apply IH). Qed.
Lemma local_mac_index p a : local p (get_mac_addr_index p a).
Proof. unfold get_mac_addr_index. apply local_bind; [apply local_info|intros]. locals. Qed.
Lemma local_restore p : local p (rte_eth_dev_config_restore p).
Proof.
  unfold rte_eth_dev_config_restore. apply local_bind; [apply local_info|intros].
  unfold rte_eth_promiscuous_get, rte_eth_promiscuous_enable, rte_eth_promiscuous_disable,
    rte_eth_allmulticast_get, rte_eth_allmulticast_enable, rte_eth_allmulticast_disable.
  apply local_bind; [locals|intros]. apply local_bind; [apply local_replay|intros]. locals.
Qed.

Lemma local_configure p nb_rx nb_tx conf : local p (rte_eth_dev_configure p nb_rx nb_tx conf).
Proof.
  unfold rte_eth_dev_configure. locals_with ltac:(first [apply local_rx_queue_config | apply local_tx_queue_config]).
Qed.
Lemma local_start p : local p (rte_eth_dev_start p).
Proof. unfold rte_eth_dev_start. locals_with ltac:(apply local_restore). Qed.
Lemma local_mac_add p a pool : local p (rte_eth_dev_mac_addr_add p a pool).
Proof. unfold rte_eth_dev_mac_addr_add, set_mac. locals_with ltac:(apply local_mac_index). Qed.
Lemma local_mac_remove p a : local p (rte_eth_dev_mac_addr_remove p a).
Proof. unfold rte_eth_dev_mac_addr_remove, set_mac. locals_with ltac:(apply local_mac_index). Qed.
Lemma local_rx_setup p q nb so mp : local p (rte_eth_rx_queue_setup p q nb so mp).
Proof. unfold rte_eth_rx_queue_setup. locals_with ltac:(apply local_info). Qed.
Lemma local_tx_setup p q nb so : local p (rte_eth_tx_queue_setup p q nb so).
Proof. unfold rte_eth_tx_queue_setup. locals_with ltac:(apply local_info). Qed.

(** Ports are isolated: a call of the interface on port [p], whatever its
    arguments and whatever driver the port has, leaves every other port's
    structure and data as they were, and attaches or detaches nothing: the
    flags, the driver and the kind of each port, and [nb_ports], stay. *)
Theorem ethdev_isolated p c w r w' (H : run_api p c w = Some (r, w')) : frame p w w'.
Proof.
  revert w r w' H. change (local p (run_api p c)). destruct c; simpl;
    try apply local_configure; try apply local_start; try apply local_mac_add; try apply local_mac_remove;
    try apply local_rx_setup; try apply local_tx_setup;
    unfold rte_eth_dev_rx_queue_start, rte_eth_dev_rx_queue_stop, rte_eth_dev_tx_queue_start, rte_eth_dev_tx_queue_stop,
      rte_eth_dev_stop, rte_eth_dev_close, rte_eth_dev_set_link_up, rte_eth_dev_set_link_down,
      rte_eth_promiscuous_enable, rte_eth_promiscuous_disable, rte_eth_allmulticast_enable, rte_eth_allmulticast_disable,
      rte_eth_promiscuous_get, rte_eth_allmulticast_get, rte_eth_dev_get_mtu, rte_eth_link_get, rte_eth_link_get_nowait, rte_eth_stats_get, rte_eth_stats_reset, rte_eth_dev_info_get,
      rte_eth_macaddr_get, rte_eth_dev_set_mtu, rte_eth_dev_vlan_filter, rte_eth_dev_set_vlan_strip_on_queue,
      rte_eth_dev_set_vlan_ether_type, rte_eth_dev_set_vlan_pvid, rte_eth_dev_set_vlan_offload,
      rte_eth_dev_get_vlan_offload, rte_eth_dev_default_mac_addr_set; locals.
Qed.

(** ** Guards *)

(** The calls that only the primary process may make, and what a call returns
    when it is refused ([0] stands for a function without result). *)
Definition primary_only (c : api_call) : bool :=
  match c with
  | ApiConfigure _ _ _ | ApiRxQueueStart _ | ApiRxQueueStop _ | ApiTxQueueStart _ | ApiTxQueueStop _
  | ApiStart | ApiStop | ApiClose | ApiSetLinkUp | ApiSetLinkDown | ApiRxQueueSetup _ _ _ _ | ApiTxQueueSetup _ _ _ => true
  | _ => false
  end.
Definition secondary_ret (c : api_call) : Z :=
  match c with ApiStop | ApiClose => 0 | _ => - E_RTE_SECONDARY end.
Definition invalid_ret (c : api_call) : Z :=
  match c with
  | ApiStop | ApiClose | ApiPromiscuous _ | ApiAllmulticast _ | ApiLinkGet _ | ApiStatsReset | ApiInfoGet
  | ApiMacaddrGet => 0
  | ApiGetMtu | ApiSetMtu _ | ApiVlanFilter _ _ | ApiVlanStrip _ _ | ApiVlanEtherType _ | ApiVlanPvid _ _ | ApiVlanOffload _
  | ApiGetVlanOffload | ApiMacAdd _ _ | ApiMacRemove _ | ApiMacSet _ => - ENODEV
  | _ => - EINVAL
  end.

(** C40: Every call of [api_call] checks who calls and on which port before it
    touches anything, and changes nothing when it refuses. From a secondary
    process the calls that configure, start or stop a port or its queues return
    [-E_RTE_SECONDARY] ([stop] and [close] have no result); this is the value the
    code returns, which [rte_ethdev.h] does not document for them. On a port
    number that is out of range or not attached the calls on the MTU, VLAN and
    MAC addresses return [-ENODEV], the others that have a result [-EINVAL]. *)
Theorem ethdev_guarded p c w :
  (primary w = false → primary_only c = true → run_api p c w = Some (secondary_ret c, w)) ∧
  (primary w = true ∨ primary_only c = false → rte_eth_dev_is_valid_port p w = Some (false, w) →
   run_api p c w = Some (invalid_ret c, w)).
Proof.
  split.
  - intros Hp Hc. destruct c; try discriminate Hc;
      cbv [run_api void rte_eth_dev_configure rte_eth_dev_rx_queue_start rte_eth_dev_rx_queue_stop
        rte_eth_dev_tx_queue_start rte_eth_dev_tx_queue_stop queue_switch rte_eth_dev_start rte_eth_dev_stop
        rte_eth_dev_close rte_eth_dev_set_link_up rte_eth_dev_set_link_down rte_eth_rx_queue_setup
        rte_eth_tx_queue_setup primary_or gets mbind M_bind mret M_ret]; by rewrite Hp.
  - intros Hp Hv.
    assert (∀ R (ret : R) k, valid_port_or p ret k w = Some (ret, w)) as Hvalid.
    { intros R ret k. unfold valid_port_or. by rewrite (run_bind _ _ _ _ _ Hv). }
    assert (∀ R (ret : R) k, primary_only c = true → primary_or ret k w = k w) as Hprim.
    { intros R ret k Hc. unfold primary_or, gets, mbind, M_bind. destruct Hp as [->|Hn]; [done|congruence]. }
    assert (∀ R (m : M R) x, m w = Some (x, w) → void m w = Some (0, w)) as Hvoid.
    { intros R m x Hm. unfold void. by rewrite (run_bind _ _ _ _ _ Hm). }
    destruct c; simpl; try (unfold rte_eth_dev_configure, rte_eth_dev_rx_queue_start, rte_eth_dev_rx_queue_stop,
        rte_eth_dev_tx_queue_start, rte_eth_dev_tx_queue_stop, queue_switch, rte_eth_dev_start,
        rte_eth_dev_set_link_up, rte_eth_dev_set_link_down, rte_eth_rx_queue_setup, rte_eth_tx_queue_setup;
        rewrite Hprim by done); try apply Hvalid;
      try (eapply Hvoid; unfold rte_eth_dev_stop, rte_eth_dev_close; rewrite ?Hprim by done; apply Hvalid);
      try (eapply Hvoid; case_match; apply Hvalid).
    all: unfold rte_eth_stats_get, rte_eth_dev_get_mtu; erewrite run_bind by apply Hvalid; done.
Qed.

(** ** One port *)

(** The port [p] is attached, with driver [ops] and data [x]. *)
Record port_is (w : eth P Q) (p : Z) (ops : eth_dev_ops P Q) (x : D) : Prop := {
  is_primary : primary w = true;
  is_valid : rte_eth_dev_is_valid_port p w = Some (true, w);
  is_ops : get_ops p w = Some (ops, w);
  is_data : data_of w p = Some x }.

(** The state with the data of port [p] replaced. *)
Definition upd (w : eth P Q) (p : Z) (y : D) : eth P Q :=
  match put_data p y w with Some (_, w') => w' | None => w end.

Lemma run_put w p x y : data_of w p = Some x → put_data p y w = Some (tt, upd w p y).
Proof.
  unfold upd. intros Hx. destruct (put_data p y w) as [[[] w']|] eqn:E; [done|]. exfalso.
  unfold data_of in Hx. unfold put_data in E.
  destruct (load (rte_eth_devices w) p) as [d|] eqn:Ed; simpl in *; [|done].
  apply load_Some in Ed as [Hp Hd]. pose proof (lookup_lt_Some _ _ _ Hd). destruct (data d); [done| |].
  - destruct (rte_eth_dev_data_ w) as [l|]; simpl in *; [|done]. apply load_Some in Hx as [_ Hx].
    pose proof (lookup_lt_Some _ _ _ Hx). by rewrite store_in in E by lia.
  - by rewrite store_in in E by lia.
Qed.

Lemma data_upd w p x y : data_of w p = Some x → data_of (upd w p y) p = Some y.
Proof.
  intros Hx. pose proof (run_put w p x y Hx) as E. unfold data_of in Hx. unfold put_data in E.
  destruct (load (rte_eth_devices w) p) as [d|] eqn:Ed; simpl in *; [|done].
  pose proof Ed as [Hp Hd]%load_Some. pose proof (lookup_lt_Some _ _ _ Hd).
  destruct (data d) eqn:Ek; [done| |].
  - destruct (rte_eth_dev_data_ w) as [l|] eqn:El; simpl in *; [|done]. apply load_Some in Hx as [_ Hx].
    pose proof (lookup_lt_Some _ _ _ Hx). rewrite store_in in E by lia. simpl in E. injection E as <-.
    unfold data_of. simpl. rewrite Ed. simpl. rewrite Ek. unfold load. rewrite decide_True by done.
    by apply list_lookup_insert_eq.
  - rewrite store_in in E by lia. simpl in E. injection E as <-.
    unfold data_of. simpl. unfold load. rewrite decide_True by done. by rewrite list_lookup_insert_eq by lia.
Qed.

Lemma upd_frame w p x y : data_of w p = Some x → frame p w (upd w p y).
Proof. intros Hx. eapply local_put_data. by apply (run_put _ _ x). Qed.

Lemma valid_port_iff (w : eth P Q) p : rte_eth_dev_is_valid_port p w = Some (true, w) ↔
  p < RTE_MAX_ETHPORTS ∧ ∃ d, load (rte_eth_devices w) p = Some d ∧ attached d = true.
Proof.
  unfold rte_eth_dev_is_valid_port. destruct (Z.leb_spec RTE_MAX_ETHPORTS p).
  - split; [done|lia].
  - destruct (load _ p) as [d|]; simpl; split; try done.
    + intros [= Ha]. eauto.
    + intros (_ & d0 & [= <-] & Ha). by rewrite Ha.
    + by intros (_ & d0 & [=] & _).
Qed.
Lemma get_ops_iff (w : eth P Q) p ops : get_ops p w = Some (ops, w) ↔
  ∃ d, load (rte_eth_devices w) p = Some d ∧ dev_ops d = Some ops.
Proof.
  unfold get_ops, get_dev, mbind, M_bind, liftO. destruct (load _ p) as [d|]; simpl; split; try done.
  - destruct (dev_ops d) eqn:E; intros [= <-]. eauto.
  - intros (d0 & [= <-] & Ha). by rewrite Ha.
  - by intros (d0 & [=] & _).
Qed.

Lemma port_is_upd w p ops x y : port_is w p ops x → port_is (upd w p y) p ops y.
Proof.
  intros [Hpr Hv Ho Hd]. pose proof (upd_frame w p x y Hd) as F. destruct (frame_rest _ _ _ F) as (_ & Hpr' & _).
  apply valid_port_iff in Hv as (Hlt & d & Ed & Ha). apply get_ops_iff in Ho as (d2 & Ed2 & Hops). simplify_eq.
  pose proof Ed as [Hp Hl]%load_Some. destruct (frame_dev _ _ _ F _ _ Hl) as (d' & Hl' & Ha' & Hops' & _).
  assert (load (rte_eth_devices (upd w p y)) p = Some d') as Ed' by (unfold load; by rewrite decide_True).
  split.
  - congruence.
  - apply valid_port_iff. split; [done|]. exists d'. split; congruence.
  - apply get_ops_iff. exists d'. split; congruence.
  - by eapply data_upd.
Qed.

(** Running calls on a port. *)
Lemma run_valid {R} w p ops x (ret : R) k : port_is w p ops x → valid_port_or p ret k w = k w.
Proof. intros H. unfold valid_port_or. by rewrite (run_bind _ _ _ _ _ (is_valid _ _ _ _ H)). Qed.
Lemma run_primary {R} w p ops x (ret : R) k : port_is w p ops x → primary_or ret k w = k w.
Proof. intros H. unfold primary_or, gets, mbind, M_bind. by rewrite (is_primary _ _ _ _ H). Qed.
Lemma run_call w p ops x f : port_is w p ops x → call p f w = Some (fst (f x), upd w p (snd (f x))).
Proof.
  intros H. unfold call. rewrite (run_bind _ _ _ x w) by (apply run_get_data; apply H).
  destruct (f x) as [r y]. rewrite (run_bind _ _ _ tt (upd w p y)); [done|]. apply (run_put w p x), H.
Qed.
Lemma run_call_void w p ops x f : port_is w p ops x → call_void p f w = Some (tt, upd w p (f x)).
Proof.
  intros H. unfold call_void. rewrite (run_bind _ _ _ x w) by (apply run_get_data; apply H).
  apply (run_put w p x), H.
Qed.

(** One step of symbolic execution on a port. *)
Ltac port_step H :=
  first
    [ rewrite (run_primary _ _ _ _ _ _ H) | rewrite (run_valid _ _ _ _ _ _ H)
    | erewrite run_bind by (apply run_get_data; apply H)
    | erewrite run_bind by (apply H)
    | erewrite run_bind by (apply (run_put _ _ _ _ (is_data _ _ _ _ H)))
    | erewrite run_bind by (apply (run_call_void _ _ _ _ _ H))
    | erewrite run_bind by (apply (run_call _ _ _ _ _ H)) ].

(** ** Configuring a port *)

(** A driver function that keeps to the driver's own data. *)
Definition private_only (f : D → D) : Prop := ∀ x, ∃ q, f x = x <| dev_private := q |>.

(** What a driver needs for its ports to be configured, and the arrays as
    long as the counts say. *)
Record driver_ok (ops : eth_dev_ops P Q) : Prop := {
  drv_rx_release : ∃ rel, rx_queue_release ops = Some rel ∧ ∀ q, private_only (rel q);
  drv_tx_release : ∃ rel, tx_queue_release ops = Some rel ∧ ∀ q, private_only (rel q) }.
Definition queues_ok (qs : option (list (option Q))) (nb : Z) : Prop :=
  0 <= nb ∧ match qs with Some l => Z.of_nat (length l) = nb | None => True end.

Lemma release_queues_private rel qs from to x : (∀ q, private_only (rel q)) →
  0 <= from → to <= Z.of_nat (length qs) →
  ∃ q, release_queues rel qs from to x = Some (x <| dev_private := q |>).
Proof.
  intros Hp Hf Ht. unfold release_queues. set (n := Z.to_nat (to - from)).
  assert (∀ a m q, (a + m <= n)%nat → ∃ q', foldl (λ ox k, x ← ox; q ← load qs (from + Z.of_nat k); Some (rel q x))
    (Some (x <| dev_private := q |>)) (seq a m) = Some (x <| dev_private := q' |>)) as H.
  { intros a m. revert a. induction m as [|m IH]; intros a q Hm; simpl; [by exists q|].
    destruct (load_in qs (from + Z.of_nat a)) as (o & -> & _); [lia|]. simpl.
    destruct (Hp o (x <| dev_private := q |>)) as [q1 ->]. simpl. apply (IH (S a) q1). lia. }
  destruct (H 0%nat n (dev_private x)) as [q Hq]; [lia|]. exists q. rewrite <- Hq. by destruct x.
Qed.

Lemma rx_config_run w p ops x nb : alloc_rx = true → port_is w p ops x → driver_ok ops →
  queues_ok (rx_queues x) (nb_rx_queues x) → 0 <= nb →
  ∃ w' q l, rte_eth_dev_rx_queue_config p nb w = Some (0, w') ∧ length l = Z.to_nat nb ∧
    port_is w' p ops (x <| dev_private := q |> <| rx_queues := Some l |> <| nb_rx_queues := nb |>).
Proof.
  intros Ha H [(rel & Hrel & Hpo) _] [Hnb Hq] H0. unfold rte_eth_dev_rx_queue_config. rewrite Ha. port_step H.
  destruct (rx_queues x) as [l|] eqn:El.
  - port_step H. rewrite Hrel. simpl.
    destruct (release_queues_private rel l nb (nb_rx_queues x) x Hpo) as [q Hr]; [lia|lia|].
    rewrite (run_bind _ _ _ (x <| dev_private := q |>) w) by (unfold liftO; by rewrite Hr). port_step H.
    pose proof (port_is_upd _ _ _ _ (x <| dev_private := q |>) H) as H1. port_step H1.
    eexists _, q, (resize_queues l nb). split_and!; [done|apply length_resize|]. by eapply port_is_upd.
  - port_step H. eexists _, (dev_private x), _. split_and!; [done|apply length_replicate|]. by eapply port_is_upd.
Qed.

Lemma tx_config_run w p ops x nb : alloc_tx = true → port_is w p ops x → driver_ok ops →
  queues_ok (tx_queues x) (nb_tx_queues x) → 0 <= nb →
  ∃ w' q l, rte_eth_dev_tx_queue_config p nb w = Some (0, w') ∧ length l = Z.to_nat nb ∧
    port_is w' p ops (x <| dev_private := q |> <| tx_queues := Some l |> <| nb_tx_queues := nb |>).
Proof.
  intros Ha H [_ (rel & Hrel & Hpo)] [Hnb Hq] H0. unfold rte_eth_dev_tx_queue_config. rewrite Ha. port_step H.
  destruct (tx_queues x) as [l|] eqn:El.
  - port_step H. rewrite Hrel. simpl.
    destruct (release_queues_private rel l nb (nb_tx_queues x) x Hpo) as [q Hr]; [lia|lia|].
    rewrite (run_bind _ _ _ (x <| dev_private := q |>) w) by (unfold liftO; by rewrite Hr). port_step H.
    pose proof (port_is_upd _ _ _ _ (x <| dev_private := q |>) H) as H1. port_step H1.
    eexists _, q, (resize_queues l nb). split_and!; [done|apply length_resize|]. by eapply port_is_upd.
  - port_step H. eexists _, (dev_private x), _. split_and!; [done|apply length_replicate|]. by eapply port_is_upd.
Qed.

(** The checks of [rte_eth_dev_configure] on the arguments. *)
Definition configure_args_ok (x : D) (info : rte_eth_dev_info) (nb_rx nb_tx : Z) (conf : rte_eth_conf) : Prop :=
  0 < nb_rx <= RTE_MAX_QUEUES_PER_PORT ∧ nb_rx <= max_rx_queues info ∧
  0 < nb_tx <= RTE_MAX_QUEUES_PER_PORT ∧ nb_tx <= max_tx_queues info ∧
  (lsc conf = 1 → Z.land (dev_flags x) RTE_ETH_DEV_INTR_LSC ≠ 0) ∧
  is_Some (check_rx_pkt_len conf info).

(** On a stopped port and with arguments within the driver's limits,
    [rte_eth_dev_configure] returns what the driver's own configuration
    function returns. That function sees the requested configuration (with the
    receive length corrected to the default when it is no valid one) and queue
    arrays of exactly the requested lengths, and when it returns 0 the port is
    left as it made it. *)
Theorem configure_applies w p ops x nb_rx nb_tx conf infos cfg
    (Hport : port_is w p ops x) (Hdrv : driver_ok ops)
    (Hinfos : dev_infos_get ops = Some infos) (Hcfg : dev_configure ops = Some cfg)
    (Halloc : alloc_rx = true ∧ alloc_tx = true) (Hstopped : dev_started x = 0)
    (Hrx : queues_ok (rx_queues x) (nb_rx_queues x)) (Htx : queues_ok (tx_queues x) (nb_tx_queues x))
    (Hargs : configure_args_ok x (infos x stack_info) nb_rx nb_tx conf) :
  ∃ y lr lt conf', rx_queues y = Some lr ∧ tx_queues y = Some lt ∧
    length lr = Z.to_nat nb_rx ∧ length lt = Z.to_nat nb_tx ∧ nb_rx_queues y = nb_rx ∧ nb_tx_queues y = nb_tx ∧
    check_rx_pkt_len conf (infos x stack_info) = Some conf' ∧ dev_conf y = conf' ∧ dev_started y = 0 ∧
    (fst (cfg y) = 0 → ∃ w', rte_eth_dev_configure p nb_rx nb_tx conf w = Some (0, w') ∧ port_is w' p ops (snd (cfg y))).
Proof.
  destruct Halloc as [Har Hat]. destruct Hargs as (Hr & Hrm & Ht & Htm & Hl & [conf' Hc]).
  set (x1 := x <| dev_conf := conf' |>).
  assert (port_is (upd (upd w p (x <| dev_conf := conf |>)) p x1) p ops x1) as H1 by (do 2 (eapply port_is_upd); exact Hport).
  destruct (rx_config_run _ p ops x1 nb_rx Har H1 Hdrv Hrx ltac:(lia)) as (w2 & q2 & lr & Erx & Hlr & H2).
  set (x2 := x1 <| dev_private := q2 |> <| rx_queues := Some lr |> <| nb_rx_queues := nb_rx |>) in *.
  destruct (tx_config_run _ p ops x2 nb_tx Hat H2 Hdrv Htx ltac:(lia)) as (w3 & q3 & lt & Etx & Hlt & H3).
  set (y := x2 <| dev_private := q3 |> <| tx_queues := Some lt |> <| nb_tx_queues := nb_tx |>) in *.
  exists y, lr, lt, conf'. split_and!; try done. intros Hf. eexists. split.
  2: { by apply port_is_upd with (x := y). }
  unfold rte_eth_dev_configure. do 2 port_step Hport.
  destruct (Z.ltb_spec RTE_MAX_QUEUES_PER_PORT nb_rx); [lia|]. destruct (Z.ltb_spec RTE_MAX_QUEUES_PER_PORT nb_tx); [lia|].
  port_step Hport. rewrite Hinfos, Hcfg. unfold func_or. port_step Hport. rewrite Hstopped. cbn [negb Z.eqb].
  destruct (Z.ltb_spec (max_rx_queues (infos x stack_info)) nb_rx); [lia|].
  destruct (Z.eqb_spec nb_rx 0); [lia|].
  destruct (Z.ltb_spec (max_tx_queues (infos x stack_info)) nb_tx); [lia|].
  destruct (Z.eqb_spec nb_tx 0); [lia|]. port_step Hport.
  assert ((lsc conf =? 1) && (Z.land (dev_flags x) RTE_ETH_DEV_INTR_LSC =? 0) = false) as ->.
  { destruct (Z.eqb_spec (lsc conf) 1); [|done]. apply Z.eqb_neq. auto. }
  rewrite Hc. pose proof (port_is_upd _ _ _ _ (x <| dev_conf := conf |>) Hport) as Hp0. port_step Hp0.
  rewrite (run_bind _ _ _ _ _ Erx). cbn [negb Z.eqb]. rewrite (run_bind _ _ _ _ _ Etx). cbn [negb Z.eqb].
  port_step H3. rewrite Hf. done.
Qed.

(** A started port cannot be reconfigured: configuring it or setting one of
    its queues up fails with an error, [-EBUSY] when nothing else is wrong,
    and changes nothing. *)
Theorem started_port_locked w p ops x c (Hport : port_is w p ops x) (Hstarted : dev_started x ≠ 0)
    (Hc : match c with ApiConfigure _ _ _ | ApiRxQueueSetup _ _ _ _ | ApiTxQueueSetup _ _ _ => True | _ => False end) :
  ∃ r, run_api p c w = Some (r, w) ∧ (r = - EBUSY ∨ r = - EINVAL ∨ r = - ENOTSUP).
Proof.
  assert ((dev_started x =? 0) = false) as Hs by (by apply Z.eqb_neq).
  destruct c; try done; simpl.
  - unfold rte_eth_dev_configure. do 2 port_step Hport. do 2 (case_match; [by eauto|]). port_step Hport. unfold func_or.
    do 2 (case_match; [|by eauto]). port_step Hport. rewrite Hs. eauto.
  - unfold rte_eth_rx_queue_setup. do 3 port_step Hport. case_match; [by eauto|]. rewrite Hs. eauto.
  - unfold rte_eth_tx_queue_setup. do 3 port_step Hport. case_match; [by eauto|]. rewrite Hs. eauto.
Qed.

Lemma vlan_change_modes m0 m :
  let m' := fst (vlan_change m0 m) in
  (hw_vlan_strip m' =? 0) = (Z.land m 1 =? 0) ∧ (hw_vlan_filter m' =? 0) = (Z.land m 2 =? 0) ∧
  (hw_vlan_extend m' =? 0) = (Z.land m 4 =? 0).
Proof.
  destruct m0 as [len jumbo vf vs ve]. unfold vlan_change, flag, truth, ETH_VLAN_STRIP_OFFLOAD, ETH_VLAN_FILTER_OFFLOAD,
    ETH_VLAN_EXTEND_OFFLOAD. simpl.
  destruct (Z.land m 1 =? 0), (vs =? 0) eqn:E1; simpl; destruct (Z.land m 2 =? 0), (vf =? 0) eqn:E2; simpl;
    destruct (Z.land m 4 =? 0), (ve =? 0) eqn:E3; simpl; done.
Qed.

Lemma vlan_flags m :
  Z.lor (Z.lor (if Z.land m 1 =? 0 then 0 else 1) (if Z.land m 2 =? 0 then 0 else 2)) (if Z.land m 4 =? 0 then 0 else 4)
  = Z.land m 7.
Proof.
  assert (∀ b, Z.land 7 b = b → Z.land m b = Z.land (Z.land m 7) b) as Hb by (intros b E; by rewrite <- Z.land_assoc, E).
  rewrite (Hb 1), (Hb 2), (Hb 4) by done. change 7 with (Z.ones 3). rewrite Z.land_ones by lia.
  pose proof (Z.mod_pos_bound m (2 ^ 3) ltac:(lia)) as Hr. set (r := m mod 2 ^ 3) in *.
  assert (r = 0 ∨ r = 1 ∨ r = 2 ∨ r = 3 ∨ r = 4 ∨ r = 5 ∨ r = 6 ∨ r = 7) as Hc by lia.
  destruct Hc as [->|[->|[->|[->|[->|[->|[->| ->]]]]]]]; done.
Qed.

(** Reading the modes of a port whose modes are [vlan_change]d. *)
Lemma get_vlan_offload_run w p ops y m0 m : port_is w p ops y → rxmode (dev_conf y) = fst (vlan_change m0 m) →
  rte_eth_dev_get_vlan_offload p w = Some (Z.land m 7, w).
Proof.
  intros Hport Hm. unfold rte_eth_dev_get_vlan_offload. do 2 port_step Hport. rewrite Hm.
  destruct (vlan_change_modes m0 m) as (-> & -> & ->). rewrite <- vlan_flags. unfold mret, M_ret. do 2 f_equal.
  unfold ETH_VLAN_STRIP_OFFLOAD, ETH_VLAN_FILTER_OFFLOAD, ETH_VLAN_EXTEND_OFFLOAD.
  by destruct (Z.land m 1 =? 0), (Z.land m 2 =? 0), (Z.land m 4 =? 0).
Qed.

(** Setting the VLAN offload modes and reading them back gives the modes
    set, whatever they were before, on a port whose driver accepts them. *)
Theorem vlan_offload_roundtrip w p ops x m f (Hport : port_is w p ops x)
    (Hf : vlan_offload_set ops = Some f) (Hpo : ∀ k, private_only (f k)) :
  ∃ w', rte_eth_dev_set_vlan_offload p m w = Some (0, w') ∧
    rte_eth_dev_get_vlan_offload p w' = Some (Z.land m 7, w').
Proof.
  unfold rte_eth_dev_set_vlan_offload. do 2 port_step Hport.
  destruct (vlan_change (rxmode (dev_conf x)) m) as [m' mask] eqn:Ec. port_step Hport.
  pose proof (port_is_upd _ _ _ _ (x <| dev_conf := (dev_conf x) <| rxmode := m' |> |>) Hport) as H1.
  assert (m' = fst (vlan_change (rxmode (dev_conf x)) m)) as Em by (by rewrite Ec).
  case_match.
  - eexists. split; [done|]. by eapply get_vlan_offload_run.
  - port_step H1. rewrite Hf. unfold func_or. port_step H1. eexists. split; [done|].
    eapply get_vlan_offload_run; [by eapply port_is_upd|]. destruct (Hpo mask (x <| dev_conf := (dev_conf x) <| rxmode := m' |> |>)) as [q ->].
    exact Em.
Qed.
End ethdev.

(** ** A concrete driver

    A driver that keeps one number and counts the queues it releases. *)
Definition demo_configure (x : rte_eth_dev_data Z Z) : Z * rte_eth_dev_data Z Z := (0, x).
Definition demo_infos (_ : rte_eth_dev_data Z Z) (i : rte_eth_dev_info) : rte_eth_dev_info :=
  i <| max_rx_queues := 4 |> <| max_tx_queues := 4 |> <| max_rx_pktlen := 9000 |>.
Definition demo_offload (m : Z) (x : rte_eth_dev_data Z Z) : rte_eth_dev_data Z Z := x <| dev_private := Some m |>.
Definition demo_ops : eth_dev_ops Z Z := {|
  dev_configure := Some demo_configure; op_dev_start := Some (λ x, (0, x)); op_dev_stop := Some (λ x, x);
  dev_set_link_up := None; dev_set_link_down := None; dev_close := Some (λ x, x);
  promiscuous_enable := Some (λ x, x); promiscuous_disable := Some (λ x, x);
  allmulticast_enable := None; allmulticast_disable := None;
  link_update := Some (λ _ x, (0, x)); stats_get := None; stats_reset := None;
  dev_infos_get := Some demo_infos;
  mtu_set := None; vlan_filter_set := None; vlan_tpid_set := None; vlan_strip_queue_set := None;
  vlan_offload_set := Some demo_offload; vlan_pvid_set := None;
  rx_queue_start := None; rx_queue_stop := None; tx_queue_start := None; tx_queue_stop := None;
  rx_queue_setup := Some (λ q _ _ x, (0, x));
  rx_queue_release := Some (λ _ x, x <| dev_private := Z.succ <$> dev_private x |>);
  tx_queue_setup := Some (λ q _ _ x, (0, x));
  tx_queue_release := Some (λ _ x, x <| dev_private := Z.succ <$> dev_private x |>);
  mac_addr_remove := None; mac_addr_add := None; mac_addr_set := None |}.

Definition demo_data (started : Z) : rte_eth_dev_data Z Z :=
  zero_data <| name := "demo" |> <| dev_private := Some 0 |> <| dev_started := started |>
            <| rx_queues := Some [Some 1; Some 2; Some 3] |> <| nb_rx_queues := 3 |>.
Definition demo_dev (started : Z) : rte_eth_dev Z Z :=
  Dev (DLocal (demo_data started)) (Some demo_ops) None true RTE_ETH_DEV_VIRTUAL.
Definition demo_eth (started : Z) : eth Z Z :=
  Eth (demo_dev started :: replicate 31 no_dev) None 1 true None.
Definition demo_conf : rte_eth_conf := Conf (RxMode 0 0 0 0 0) 0.

Lemma demo_port started : port_is (demo_eth started) 0 demo_ops (demo_data started).
Proof. by split. Qed.

Lemma ethdev_isolated_witness :
  ∃ r w', run_api zero_info true true 0 (ApiConfigure 2 1 demo_conf) (demo_eth 0) = Some (r, w') ∧ r = 0 ∧
    frame 0 (demo_eth 0) w'.
Proof.
  eexists _, _. split; [vm_compute; reflexivity|]. split; [done|].
  apply (ethdev_isolated zero_info true true 0 (ApiConfigure 2 1 demo_conf) (demo_eth 0) 0). vm_compute. reflexivity.
Defined.

Lemma configure_applies_witness :
  ∃ w' y, rte_eth_dev_configure zero_info true true 0 2 1 demo_conf (demo_eth 0) = Some (0, w') ∧
    port_is w' 0 demo_ops y ∧ nb_rx_queues y = 2 ∧ max_rx_pkt_len (rxmode (dev_conf y)) = ETHER_MAX_LEN.
Proof.
  destruct (configure_applies zero_info true true (demo_eth 0) 0 demo_ops (demo_data 0) 2 1 demo_conf demo_infos
    demo_configure (demo_port 0))
    as (y & lr & lt & conf' & _ & _ & _ & _ & Hn & _ & Hc & Hy & _ & H).
  - split; eexists; (split; [reflexivity|]); intros q x; by eexists.
  - reflexivity.
  - reflexivity.
  - done.
  - done.
  - split; [simpl; lia|done].
  - split; [simpl; lia|done].
  - unfold configure_args_ok, RTE_MAX_QUEUES_PER_PORT. simpl. split_and!; try lia. by eexists.
  - destruct (H eq_refl) as (w' & Hw & Hp). exists w', y. split_and!; [exact Hw|exact Hp|exact Hn|].
    injection Hc as <-. by rewrite Hy.
Defined.

Lemma ethdev_guarded_witness :
  run_api zero_info true true 7 (ApiSetMtu 9000) (demo_eth 0) = Some (- ENODEV, demo_eth 0) ∧
  run_api zero_info true true 40 ApiStart (demo_eth 0) = Some (- EINVAL, demo_eth 0).
Proof.
  split; [apply (ethdev_guarded zero_info true true 7 (ApiSetMtu 9000) (demo_eth 0))
         |apply (ethdev_guarded zero_info true true 40 ApiStart (demo_eth 0))]; try reflexivity; by left.
Defined.

Lemma started_port_locked_witness :
  ∃ r, run_api zero_info true true 0 (ApiConfigure 1 1 demo_conf) (demo_eth 1) = Some (r, demo_eth 1) ∧
    (r = - EBUSY ∨ r = - EINVAL ∨ r = - ENOTSUP).
Proof.
  apply (started_port_locked zero_info true true (demo_eth 1) 0 demo_ops (demo_data 1) (ApiConfigure 1 1 demo_conf));
    [apply demo_port|done|exact I].
Defined.

Lemma vlan_offload_roundtrip_witness :
  ∃ w', rte_eth_dev_set_vlan_offload 0 5 (demo_eth 0) = Some (0, w') ∧
    rte_eth_dev_get_vlan_offload 0 w' = Some (5, w').
Proof.
  destruct (vlan_offload_roundtrip (demo_eth 0) 0 demo_ops (demo_data 0) 5 demo_offload (demo_port 0) eq_refl) as (w' & H1 & H2).
  - intros k x. by eexists.
  - by exists w'.
Defined.
