(* ===== verification/EthRing.v ===== *)
(** * The ring poll-mode driver

    [drivers/net/ring/rte_eth_ring.c]: Ethernet ports whose queues are rings,
    with the functions the patch panel added ([rte_eth_from_ring_s0] and
    [_s1]). A port that a process makes of a ring keeps its data in the
    process ([DLocal]); the rings are in the memory the processes share. The
    driver uses a ring only through [BurstQueue]. *)
From S2P Require Import Prelude CStr BurstQueue Ring RingSpec RingReg EthTable EthStats EthDev.
Open Scope Z_scope.

Definition RTE_PMD_RING_MAX_RX_RINGS : Z := 16.
Definition RTE_PMD_RING_MAX_TX_RINGS : Z := 16.
Definition ETH_LINK_FULL_DUPLEX : Z := 2.
Definition SOCKET_ID_ANY : Z := -1.

(** [rng] is the address of the ring; the counters are 64 bits wide. *)
Record ring_queue_t := RingQueue { rng : Z; rx_pkts : Z; tx_pkts : Z; err_pkts : Z }.
#[export] Instance ring_queue_upd : Updatable ring_queue_t :=
  λ q, RingQueue (rng q) (rx_pkts q) (tx_pkts q) (err_pkts q).

Record pmd_internals := Internals {
  int_nb_rx_queues : Z; int_nb_tx_queues : Z;
  rx_ring_queues : list ring_queue_t; tx_ring_queues : list ring_queue_t; address : ether_addr }.
#[export] Instance internals_upd : Updatable pmd_internals :=
  λ i, Internals (int_nb_rx_queues i) (int_nb_tx_queues i) (rx_ring_queues i) (tx_ring_queues i) (address i).
Definition zero_internals : pmd_internals :=
  Internals 0 0 (replicate 16 (RingQueue 0 0 0 0)) (replicate 16 (RingQueue 0 0 0 0)) null_mac_addr.

(** A queue handle points into the arrays of [pmd_internals]. *)
Inductive queue_ptr := RxRing (i : Z) | TxRing (i : Z).

Notation ring_data := (rte_eth_dev_data pmd_internals queue_ptr).
Notation ring_eth := (eth pmd_internals queue_ptr).
Notation RM := (EthTable.M pmd_internals queue_ptr).

Definition drivername : string := "Rings PMD".
Definition pmd_link : rte_eth_link := Link 10000 ETH_LINK_FULL_DUPLEX 0.

(** ** Receive and transmit *)
Section burst.
Context {R A : Type} `{!BurstQueue R A}.
Notation store := (gmap Z R).

Definition eth_ring_rx (st : store) (r : ring_queue_t) (bufs : list A) (nb_bufs : Z)
    : option (Z * list A * ring_queue_t * store) :=
  q ← st !! rng r;
  '(ret, bufs', q') ← bq_dequeue_burst q bufs nb_bufs;
  let nb_rx := u16 ret in
  let r' := r <| rx_pkts := u64 (rx_pkts r + nb_rx) |> in
  Some (nb_rx, bufs', r', <[rng r := q']> st).

Definition eth_ring_tx (st : store) (r : ring_queue_t) (bufs : list A) (nb_bufs : Z)
    : option (Z * ring_queue_t * store) :=
  q ← st !! rng r;
  '(ret, q') ← bq_enqueue_burst q bufs nb_bufs;
  let nb_tx := u16 ret in
  let r' := r <| tx_pkts := u64 (tx_pkts r + nb_tx) |> <| err_pkts := u64 (err_pkts r + (nb_bufs - nb_tx)) |> in
  Some (nb_tx, r', <[rng r := q']> st).

(** [rte_eth_rx_burst] and [rte_eth_tx_burst] on a port of this driver
    (no callbacks are registered). *)
Definition ring_rx_burst (st : store) (x : ring_data) (queue_id : Z) (bufs : list A) (nb : Z)
    : option (Z * list A * ring_data * store) :=
  qs ← rx_queues x; qp ← load qs queue_id; qp ← qp; i ← dev_private x;
  match qp with
  | RxRing k =>
      r ← load (rx_ring_queues i) k;
      '(n, bufs', r', st') ← eth_ring_rx st r bufs nb;
      l ← Prelude.store (rx_ring_queues i) k r';
      Some (n, bufs', x <| dev_private := Some (i <| rx_ring_queues := l |>) |>, st')
  | TxRing _ => None
  end.

Definition ring_tx_burst (st : store) (x : ring_data) (queue_id : Z) (bufs : list A) (nb : Z)
    : option (Z * ring_data * store) :=
  qs ← tx_queues x; qp ← load qs queue_id; qp ← qp; i ← dev_private x;
  match qp with
  | TxRing k =>
      r ← load (tx_ring_queues i) k;
      '(n, r', st') ← eth_ring_tx st r bufs nb;
      l ← Prelude.store (tx_ring_queues i) k r';
      Some (n, x <| dev_private := Some (i <| tx_ring_queues := l |>) |>, st')
  | RxRing _ => None
  end.
End burst.

(** ** Driver functions *)
Definition eth_dev_configure (x : ring_data) : Z * ring_data := (0, x).
Definition eth_dev_start (x : ring_data) : Z * ring_data :=
  (0, x <| dev_link := (dev_link x) <| link_status := 1 |> |>).
Definition eth_dev_stop (x : ring_data) : ring_data := x <| dev_link := (dev_link x) <| link_status := 0 |> |>.
Definition eth_dev_set_link_down (x : ring_data) : Z * ring_data :=
  (0, x <| dev_link := (dev_link x) <| link_status := 0 |> |>).
Definition eth_dev_set_link_up (x : ring_data) : Z * ring_data :=
  (0, x <| dev_link := (dev_link x) <| link_status := 1 |> |>).

(** The caller has checked [qid] against the number of queues. *)
Definition set_queue (qs : option (list (option queue_ptr))) (qid : Z) (q : queue_ptr) : option (list (option queue_ptr)) :=
  match qs with Some l => Prelude.store l qid (Some q) | None => None end.
Definition eth_rx_queue_setup (qid nb_desc socket : Z) (x : ring_data) : Z * ring_data :=
  (0, x <| rx_queues := set_queue (rx_queues x) qid (RxRing qid) |>).
Definition eth_tx_queue_setup (qid nb_desc socket : Z) (x : ring_data) : Z * ring_data :=
  (0, x <| tx_queues := set_queue (tx_queues x) qid (TxRing qid) |>).

Definition eth_dev_info (x : ring_data) (i : rte_eth_dev_info) : rte_eth_dev_info :=
  let int := default zero_internals (dev_private x) in
  i <| driver_name := drivername |> <| max_mac_addrs := 1 |> <| max_rx_pktlen := u32 (-1) |>
    <| max_rx_queues := u16 (int_nb_rx_queues int) |> <| max_tx_queues := u16 (int_nb_tx_queues int) |>
    <| min_rx_bufsize := 0 |> <| pci_info := None |>.

Definition eth_stats_get (x : ring_data) (s : rte_eth_stats) : rte_eth_stats :=
  let int := default zero_internals (dev_private x) in
  let rx := counted (int_nb_rx_queues int) (rx_ring_queues int) in
  let tx := counted (int_nb_tx_queues int) (tx_ring_queues int) in
  let '(qi, rx_total) := sum_queues rx_pkts rx (q_ipackets s) 0 0 in
  let '(qo, tx_total) := sum_queues tx_pkts tx (q_opackets s) 0 0 in
  let '(qe, tx_err_total) := sum_queues err_pkts tx (q_errors s) 0 0 in
  s <| q_ipackets := qi |> <| q_opackets := qo |> <| q_errors := qe |>
    <| ipackets := rx_total |> <| opackets := tx_total |> <| oerrors := tx_err_total |>.

Definition eth_stats_reset (x : ring_data) : ring_data :=
  let int := default zero_internals (dev_private x) in
  x <| dev_private := Some (int
         <| rx_ring_queues := reset_queues (λ q, q <| rx_pkts := 0 |>) (int_nb_rx_queues int) (rx_ring_queues int) |>
         <| tx_ring_queues := reset_queues (λ q, q <| tx_pkts := 0 |> <| err_pkts := 0 |>)
                                (int_nb_tx_queues int) (tx_ring_queues int) |>) |>.

Definition eth_mac_addr_remove (index : Z) (x : ring_data) : ring_data := x.
Definition eth_mac_addr_add (a : ether_addr) (index pool : Z) (x : ring_data) : ring_data := x.
Definition eth_queue_release (q : option queue_ptr) (x : ring_data) : ring_data := x.
Definition eth_link_update (wait : Z) (x : ring_data) : Z * ring_data := (0, x).

Definition ops : eth_dev_ops pmd_internals queue_ptr := {|
  dev_configure := Some eth_dev_configure; op_dev_start := Some eth_dev_start; op_dev_stop := Some eth_dev_stop;
  dev_set_link_up := Some eth_dev_set_link_up; dev_set_link_down := Some eth_dev_set_link_down; dev_close := None;
  promiscuous_enable := None; promiscuous_disable := None; allmulticast_enable := None; allmulticast_disable := None;
  link_update := Some eth_link_update; stats_get := Some eth_stats_get; stats_reset := Some eth_stats_reset;
  dev_infos_get := Some eth_dev_info; mtu_set := None; vlan_filter_set := None; vlan_tpid_set := None;
  vlan_strip_queue_set := None; vlan_offload_set := None; vlan_pvid_set := None;
  rx_queue_start := None; rx_queue_stop := None; tx_queue_start := None; tx_queue_stop := None;
  rx_queue_setup := Some eth_rx_queue_setup; rx_queue_release := Some eth_queue_release;
  tx_queue_setup := Some eth_tx_queue_setup; tx_queue_release := Some eth_queue_release;
  mac_addr_remove := Some eth_mac_addr_remove; mac_addr_add := Some eth_mac_addr_add; mac_addr_set := None |}.

(** ** Making a port of rings *)

(** The blocks [rte_eth_from_rings] allocates, and whether each allocation
    finds memory. [rte_zmalloc_socket] of zero bytes returns NULL. *)
Inductive block := BData | BRxQueues | BTxQueues | BInternals.
#[export] Instance block_eq_dec : EqDecision block.
Proof. solve_decision. Defined.
Record memory := Memory { mem_data : bool; mem_rxq : bool; mem_txq : bool; mem_int : bool }.
Definition zmalloc_ok (enough : bool) (size : Z) : bool := enough && negb (size =? 0).
Definition sizeof_pointer : Z := 8.

(** The error exit: what is still allocated of [live] after the frees. *)
Definition from_rings_error (live : list block) (errno : Z) : RM (Z * Z * list block) :=
  let freed := (if decide (BData ∈ live) then [BRxQueues; BTxQueues] else []) ++ [BData; BInternals] in
  mret (-1, errno, filter (λ b, b ∉ freed) live).

(** The two loops that fill [internals] and the queue arrays. *)
Fixpoint fill_rings (rqs : list ring_queue_t) (qs : list (option queue_ptr)) (mk : Z → queue_ptr)
    (rings : list Z) (i : Z) : option (list ring_queue_t * list (option queue_ptr)) :=
  match rings with
  | [] => Some (rqs, qs)
  | a :: rings =>
      r ← load rqs i;
      rqs ← Prelude.store rqs i (r <| rng := a |>);
      qs ← Prelude.store qs i (Some (mk i));
      fill_rings rqs qs mk rings (i + 1)
  end.

(** [rx] and [tx] are the arrays of ring pointers ([None]: NULL). The result
    is the return value, [rte_errno], and the blocks allocated. *)
Definition rte_eth_from_rings (nm : string) (rx : option (list Z)) (nb_rx : Z) (tx : option (list Z)) (nb_tx : Z)
    (numa : Z) (mem : memory) : RM (Z * Z * list block) :=
  if match rx with None => 0 <? nb_rx | Some _ => false end then from_rings_error [] EINVAL else
  if match tx with None => 0 <? nb_tx | Some _ => false end then from_rings_error [] EINVAL else
  if RTE_PMD_RING_MAX_RX_RINGS <? nb_rx then from_rings_error [] EINVAL else
  if negb (mem_data mem) then from_rings_error [] ENOMEM else
  if negb (zmalloc_ok (mem_rxq mem) (sizeof_pointer * nb_rx)) then from_rings_error [BData] ENOMEM else
  if negb (zmalloc_ok (mem_txq mem) (sizeof_pointer * nb_tx)) then from_rings_error [BRxQueues; BData] ENOMEM else
  if negb (mem_int mem) then from_rings_error [BTxQueues; BRxQueues; BData] ENOMEM else
  dev ← rte_eth_dev_allocate nm RTE_ETH_DEV_VIRTUAL;
  match dev with
  | None => from_rings_error [BInternals; BTxQueues; BRxQueues; BData] ENOSPC
  | Some pid =>
      rxs ← liftO (take (Z.to_nat nb_rx) <$> rx);
      txs ← liftO (take (Z.to_nat nb_tx) <$> tx);
      '(rxr, rxq) ← liftO (fill_rings (rx_ring_queues zero_internals) (replicate (Z.to_nat nb_rx) None) RxRing rxs 0);
      '(txr, txq) ← liftO (fill_rings (tx_ring_queues zero_internals) (replicate (Z.to_nat nb_tx) None) TxRing txs 0);
      let internals := Internals nb_rx nb_tx rxr txr null_mac_addr in
      old ← get_data pid;
      let data := zero_data <| rx_queues := Some rxq |> <| tx_queues := Some txq |>
        <| dev_private := Some internals |> <| port_id := port_id old |> <| name := name old |>
        <| nb_rx_queues := u16 nb_rx |> <| nb_tx_queues := u16 nb_tx |> <| dev_link := pmd_link |>
        <| mac_addrs := Some [null_mac_addr] |> <| dev_flags := RTE_ETH_DEV_DETACHABLE |>
        <| kdrv := RTE_KDRV_NONE |> <| drv_name := drivername |> <| numa_node := numa |> in
      d ← get_dev pid;
      _ ← put_dev pid (d <| EthTable.data := DLocal data |> <| dev_ops := Some ops |>);
      mret (port_id old, 0, [BInternals; BTxQueues; BRxQueues; BData])
  end.

(** [rte_eth_from_ring] takes the NUMA node of the ring's memory zone; the
    two functions of the patch panel fix it. *)
Definition from_ring {A} (numa : rte_ring A → Z) (rs : gmap Z (rte_ring A)) (a : Z) (mem : memory) : RM (Z * Z * list block) :=
  r ← liftO (rs !! a);
  rte_eth_from_rings (rname r) (Some [a]) 1 (Some [a]) 1 (numa r) mem.
Definition rte_eth_from_ring {A} : gmap Z (rte_ring A) → Z → memory → RM (Z * Z * list block) :=
  from_ring (λ r, default SOCKET_ID_ANY (rmemzone r)).
Definition rte_eth_from_ring_s0 {A} : gmap Z (rte_ring A) → Z → memory → RM (Z * Z * list block) := from_ring (λ _, 0).
Definition rte_eth_from_ring_s1 {A} : gmap Z (rte_ring A) → Z → memory → RM (Z * Z * list block) := from_ring (λ _, 1).

(** ** Removing a port *)
Definition rte_pmd_ring_devuninit (nm : option string) : RM Z :=
  match nm with
  | None => mret (- EINVAL)
  | Some nm =>
      dev ← rte_eth_dev_allocated nm;
      match dev with
      | None => mret (- ENODEV)
      | Some pid =>
          x ← get_data pid;
          _ ← put_data pid (eth_dev_stop x);
          _ ← rte_eth_dev_release_port (Some pid);
          mret 0
      end
  end.

(** ** Bursts *)
Section proofs.
Context {R A : Type} `{!BurstQueue R A}.
Implicit Types (st : gmap Z R) (r : ring_queue_t).

Lemma eth_ring_rx_run st r q cap pkts bufs n :
  st !! rng r = Some q → bq_rep q cap pkts → 0 <= n <= Z.of_nat (length bufs) → n < 2 ^ 16 →
  let m := Z.min n (Z.of_nat (length pkts)) in
  ∃ q', eth_ring_rx st r bufs n =
      Some (m, take (Z.to_nat m) pkts ++ drop (Z.to_nat m) bufs, r <| rx_pkts := u64 (rx_pkts r + m) |>,
            <[rng r := q']> st) ∧
    bq_rep q' cap (drop (Z.to_nat m) pkts).
Proof.
  intros Hq Hrep Hn H16 m. destruct (bq_dequeue_burst_ok q cap pkts bufs n Hrep Hn) as (q' & E & Hrep' & _).
  exists q'. split; [|done]. unfold eth_ring_rx. rewrite Hq. simpl. rewrite E. simpl.
  rewrite u16_small by (unfold is_u16; lia). done.
Qed.

Lemma eth_ring_tx_run st r q cap pkts bufs n :
  st !! rng r = Some q → bq_rep q cap pkts → 0 <= n <= Z.of_nat (length bufs) → n < 2 ^ 16 →
  let m := Z.min n (cap - Z.of_nat (length pkts)) in
  ∃ q', eth_ring_tx st r bufs n =
      Some (m, r <| tx_pkts := u64 (tx_pkts r + m) |> <| err_pkts := u64 (err_pkts r + (n - m)) |>, <[rng r := q']> st) ∧
    bq_rep q' cap (pkts ++ take (Z.to_nat m) bufs).
Proof.
  intros Hq Hrep Hn H16 m. destruct (bq_enqueue_burst_ok q cap pkts bufs n Hrep Hn) as (ret & q' & E & Hret & Hrep' & _).
  pose proof (bq_cap _ _ _ Hrep). exists q'. split; [|done]. unfold eth_ring_tx. rewrite Hq. simpl. rewrite E. simpl.
  assert (u16 ret = m) as ->; [|done]. fold m in Hret. assert (is_u16 m) by (unfold is_u16, m; lia).
  destruct Hret as [->| ->]; [by apply u16_small|]. unfold u16. change (2 ^ 31) with (2 ^ 15 * 2 ^ 16).
  rewrite Z.mod_add by lia. by apply Z.mod_small.
Qed.

(** A port whose queue [qid] is the ring at address [a]. *)
Definition rx_bound (x : ring_data) (qid a : Z) : Prop :=
  ∃ qs k int r, rx_queues x = Some qs ∧ load qs qid = Some (Some (RxRing k)) ∧ dev_private x = Some int ∧
    load (rx_ring_queues int) k = Some r ∧ rng r = a.
Definition tx_bound (x : ring_data) (qid a : Z) : Prop :=
  ∃ qs k int r, tx_queues x = Some qs ∧ load qs qid = Some (Some (TxRing k)) ∧ dev_private x = Some int ∧
    load (tx_ring_queues int) k = Some r ∧ rng r = a.

(** Ports with the same queues on the same rings. *)
Definition same_queues (x x' : ring_data) : Prop :=
  name x' = name x ∧ port_id x' = port_id x ∧
  (∀ qid a, rx_bound x qid a → rx_bound x' qid a) ∧ (∀ qid a, tx_bound x qid a → tx_bound x' qid a).

(** Replacing a queue's counters. *)
Lemma counters_lookup (l : list ring_queue_t) k k' r r' r0 : load l k = Some r → rng r' = rng r → load l k' = Some r0 →
  ∃ r1, load (<[Z.to_nat k := r']> l) k' = Some r1 ∧ rng r1 = rng r0.
Proof.
  intros [Hk0 Hk]%load_Some Hr [Hk0' Hk']%load_Some. pose proof (lookup_lt_Some _ _ _ Hk).
  unfold load. rewrite decide_True by done. destruct (decide (Z.to_nat k = Z.to_nat k')) as [E|E].
  - rewrite <- E in *. rewrite list_lookup_insert_eq by done. exists r'. split; [done|]. simplify_eq. congruence.
  - rewrite list_lookup_insert_ne by done. by exists r0.
Qed.

Lemma same_queues_rx x int k r r' : dev_private x = Some int → load (rx_ring_queues int) k = Some r → rng r' = rng r →
  same_queues x (x <| dev_private := Some (int <| rx_ring_queues := <[Z.to_nat k := r']> (rx_ring_queues int) |>) |>).
Proof.
  intros Hi Hk Hr. split_and!; [done|done| |]; intros qid a (qs & k' & int' & r0 & H1 & H2 & H3 & H4 & H5);
    rewrite Hi in H3; injection H3 as <-.
  - destruct (counters_lookup _ k k' r r' r0 Hk Hr H4) as (r1 & H6 & H7). eexists qs, k', _, r1. split_and!; try done. congruence.
  - by eexists qs, k', _, r0.
Qed.
Lemma same_queues_tx x int k r r' : dev_private x = Some int → load (tx_ring_queues int) k = Some r → rng r' = rng r →
  same_queues x (x <| dev_private := Some (int <| tx_ring_queues := <[Z.to_nat k := r']> (tx_ring_queues int) |>) |>).
Proof.
  intros Hi Hk Hr. split_and!; [done|done| |]; intros qid a (qs & k' & int' & r0 & H1 & H2 & H3 & H4 & H5);
    rewrite Hi in H3; injection H3 as <-.
  - by eexists qs, k', _, r0.
  - destruct (counters_lookup _ k k' r r' r0 Hk Hr H4) as (r1 & H6 & H7). eexists qs, k', _, r1. split_and!; try done. congruence.
Qed.

Lemma ring_rx_burst_run st x qid a q cap pkts bufs n :
  rx_bound x qid a → st !! a = Some q → bq_rep q cap pkts → 0 <= n <= Z.of_nat (length bufs) → n < 2 ^ 16 →
  let m := Z.min n (Z.of_nat (length pkts)) in
  ∃ x' q', ring_rx_burst st x qid bufs n =
      Some (m, take (Z.to_nat m) pkts ++ drop (Z.to_nat m) bufs, x', <[a := q']> st) ∧
    bq_rep q' cap (drop (Z.to_nat m) pkts) ∧ same_queues x x'.
Proof.
  intros (qs & k & int & r & H1 & H2 & H3 & H4 & <-) Hq Hrep Hn H16 m.
  destruct (eth_ring_rx_run st r q cap pkts bufs n Hq Hrep Hn H16) as (q' & E & Hrep').
  unfold ring_rx_burst. rewrite H1. simpl. rewrite H2. simpl. rewrite H3. simpl. rewrite H4. simpl. rewrite E. simpl.
  pose proof H4 as [Hk0 Hk]%load_Some. pose proof (lookup_lt_Some _ _ _ Hk). rewrite store_in by lia. simpl.
  eexists _, q'. split_and!; [done|done|]. by apply (same_queues_rx x int k r).
Qed.

Lemma ring_tx_burst_run st x qid a q cap pkts bufs n :
  tx_bound x qid a → st !! a = Some q → bq_rep q cap pkts → 0 <= n <= Z.of_nat (length bufs) → n < 2 ^ 16 →
  let m := Z.min n (cap - Z.of_nat (length pkts)) in
  ∃ x' q', ring_tx_burst st x qid bufs n = Some (m, x', <[a := q']> st) ∧
    bq_rep q' cap (pkts ++ take (Z.to_nat m) bufs) ∧ same_queues x x'.
Proof.
  intros (qs & k & int & r & H1 & H2 & H3 & H4 & <-) Hq Hrep Hn H16 m.
  destruct (eth_ring_tx_run st r q cap pkts bufs n Hq Hrep Hn H16) as (q' & E & Hrep').
  unfold ring_tx_burst. rewrite H1. simpl. rewrite H2. simpl. rewrite H3. simpl. rewrite H4. simpl. rewrite E. simpl.
  pose proof H4 as [Hk0 Hk]%load_Some. pose proof (lookup_lt_Some _ _ _ Hk). rewrite store_in by lia. simpl.
  eexists _, q'. split_and!; [done|done|]. by apply (same_queues_tx x int k r).
Qed.

(** C18: A ring connects the ports made of it: when one port (say, of the
    server) sends a burst and another port of the same ring (of a client)
    receives, the receiver gets the packets that were waiting followed by those
    the sender's burst reports as sent, in order and each exactly once, as many
    as it asked for; what is left stays in the ring for the next burst. The
    other rings are not touched. *)
Theorem ring_ports_connected st xs xr qs qr a q cap pkts bufs n tbl k
    (Hs : tx_bound xs qs a) (Hr : rx_bound xr qr a) (Hq : st !! a = Some q) (Hrep : bq_rep q cap pkts)
    (Hn : 0 <= n <= Z.of_nat (length bufs) ∧ n < 2 ^ 16) (Hk : 0 <= k <= Z.of_nat (length tbl) ∧ k < 2 ^ 16) :
  ∃ sent xs' st1 got tbl' xr' q' st2,
    ring_tx_burst st xs qs bufs n = Some (sent, xs', st1) ∧
    ring_rx_burst st1 xr qr tbl k = Some (got, tbl', xr', st2) ∧
    sent = Z.min n (cap - Z.of_nat (length pkts)) ∧
    st2 !! a = Some q' ∧ (∀ b, b ≠ a → st2 !! b = st !! b) ∧
    ∃ rest, take (Z.to_nat got) tbl' ++ rest = pkts ++ take (Z.to_nat sent) bufs ∧ bq_rep q' cap rest ∧
      got = Z.min k (Z.of_nat (length pkts) + sent).
Proof.
  destruct Hn as [Hn Hn16], Hk as [Hk Hk16].
  destruct (ring_tx_burst_run st xs qs a q cap pkts bufs n Hs Hq Hrep Hn Hn16) as (xs' & q1 & E1 & Hrep1 & _).
  set (sent := Z.min n (cap - Z.of_nat (length pkts))) in *. set (all := pkts ++ take (Z.to_nat sent) bufs) in *.
  destruct (ring_rx_burst_run (<[a := q1]> st) xr qr a q1 cap all tbl k Hr ltac:(apply lookup_insert_eq) Hrep1 Hk Hk16)
    as (xr' & q2 & E2 & Hrep2 & _).
  pose proof (bq_cap _ _ _ Hrep). set (got := Z.min k (Z.of_nat (length all))) in *.
  exists sent, xs', (<[a := q1]> st), got, (take (Z.to_nat got) all ++ drop (Z.to_nat got) tbl), xr', q2,
    (<[a := q2]> (<[a := q1]> st)).
  split_and!; [done|done|done|apply lookup_insert_eq| |].
  - intros b Hne. by rewrite !lookup_insert_ne.
  - exists (drop (Z.to_nat got) all). split_and!; [|done|].
    + rewrite take_app_length', take_drop; [done|]. rewrite length_take. lia.
    + unfold got, all. rewrite length_app, length_take. unfold sent. lia.
Qed.
End proofs.

(** ** Counters *)

(** The driver's packet counters account for every packet: a transmit burst
    of [n] packets adds to the sent packets and to the errors of its queue
    amounts that sum up to [n] (64-bit counters), the sent ones being those the
    ring took; a receive burst adds the packets it returned. *)
Theorem ring_counters_exact {R A} `{!BurstQueue R A} (st : gmap Z R) r q cap pkts (bufs : list A) n
    (Hq : st !! rng r = Some q) (Hrep : bq_rep q cap pkts)
    (Hn : 0 <= n <= Z.of_nat (length bufs) ∧ n < 2 ^ 16) :
  (∃ sent r' st', eth_ring_tx st r bufs n = Some (sent, r', st') ∧ 0 <= sent <= n ∧
     tx_pkts r' = u64 (tx_pkts r + sent) ∧ err_pkts r' = u64 (err_pkts r + (n - sent)) ∧ rx_pkts r' = rx_pkts r) ∧
  (∃ got bufs' r' st', eth_ring_rx st r bufs n = Some (got, bufs', r', st') ∧ 0 <= got <= n ∧
     length bufs' = length bufs ∧ rx_pkts r' = u64 (rx_pkts r + got) ∧ tx_pkts r' = tx_pkts r ∧ err_pkts r' = err_pkts r).
Proof.
  destruct Hn as [Hn H16]. pose proof (bq_cap _ _ _ Hrep). split.
  - destruct (eth_ring_tx_run st r q cap pkts bufs n Hq Hrep Hn H16) as (q' & E & _).
    eexists _, _, _. split; [exact E|]. split_and!; [lia|lia|done|done|done].
  - destruct (eth_ring_rx_run st r q cap pkts bufs n Hq Hrep Hn H16) as (q' & E & _).
    eexists _, _, _, _. split; [exact E|]. split_and!; [lia|lia| |done|done|done].
    rewrite length_app, length_take, length_drop. lia.
Qed.

(** [rte_eth_stats_get] on a port of this driver reports, for each of its
    (at most 16) queues, that queue's counters, and as totals their sums
    modulo 2^64; after [rte_eth_stats_reset] all of them are 0. *)
Theorem ring_stats_exact x int (Hint : dev_private x = Some int)
    (Hrx : 0 <= int_nb_rx_queues int <= 16) (Htx : 0 <= int_nb_tx_queues int <= 16)
    (Hlr : length (rx_ring_queues int) = 16%nat) (Hlt : length (tx_ring_queues int) = 16%nat) :
  let s := eth_stats_get x zero_stats in
  let rx := take (Z.to_nat (int_nb_rx_queues int)) (rx_ring_queues int) in
  let tx := take (Z.to_nat (int_nb_tx_queues int)) (tx_ring_queues int) in
  ipackets s = u64 (total rx_pkts rx) ∧ opackets s = u64 (total tx_pkts tx) ∧ oerrors s = u64 (total err_pkts tx) ∧
  (∀ k q, rx !! k = Some q → q_ipackets s !! k = Some (rx_pkts q)) ∧
  (∀ k q, tx !! k = Some q → q_opackets s !! k = Some (tx_pkts q) ∧ q_errors s !! k = Some (err_pkts q)) ∧
  let s0 := eth_stats_get (eth_stats_reset x) zero_stats in
  ipackets s0 = 0 ∧ opackets s0 = 0 ∧ oerrors s0 = 0.
Proof.
  assert (dev_private (eth_stats_reset x) = Some (int
    <| rx_ring_queues := reset_queues (λ q, q <| rx_pkts := 0 |>) (int_nb_rx_queues int) (rx_ring_queues int) |>
    <| tx_ring_queues := reset_queues (λ q, q <| tx_pkts := 0 |> <| err_pkts := 0 |>)
                           (int_nb_tx_queues int) (tx_ring_queues int) |>)) as Hres.
  { unfold eth_stats_reset. by rewrite Hint. }
  unfold eth_stats_get. rewrite Hres, Hint. simpl.
  pose proof (stats_total rx_pkts _ (rx_ring_queues int) Hrx) as S1. pose proof (stats_total tx_pkts _ (tx_ring_queues int) Htx) as S2.
  pose proof (stats_total err_pkts _ (tx_ring_queues int) Htx) as S3.
  pose proof (λ k q, stats_queue rx_pkts _ (rx_ring_queues int) k q Hrx) as A1.
  pose proof (λ k q, stats_queue tx_pkts _ (tx_ring_queues int) k q Htx) as A2.
  pose proof (λ k q, stats_queue err_pkts _ (tx_ring_queues int) k q Htx) as A3.
  pose proof (stats_reset_total rx_pkts (λ q, q <| rx_pkts := 0 |>) _ (rx_ring_queues int) Hrx) as Z1.
  pose proof (stats_reset_total tx_pkts (λ q, q <| tx_pkts := 0 |> <| err_pkts := 0 |>) _ (tx_ring_queues int) Htx) as Z2.
  pose proof (stats_reset_total err_pkts (λ q, q <| tx_pkts := 0 |> <| err_pkts := 0 |>) _ (tx_ring_queues int) Htx) as Z3.
  repeat destruct (sum_queues _ _ _ _ _). simpl in *. split_and!; auto.
Qed.

(** ** Making ports *)

Lemma fill_rings_run rqs qs mk rings i : (Z.to_nat i + length rings <= length rqs)%nat → 0 <= i →
  (Z.to_nat i + length rings <= length qs)%nat →
  ∃ rqs' qs', fill_rings rqs qs mk rings i = Some (rqs', qs') ∧ length rqs' = length rqs ∧ length qs' = length qs ∧
    (∀ k a, rings !! k = Some a → qs' !! (Z.to_nat i + k)%nat = Some (Some (mk (i + Z.of_nat k))) ∧
       ∃ r, rqs' !! (Z.to_nat i + k)%nat = Some r ∧ rng r = a) ∧
    (∀ k, (k < Z.to_nat i)%nat → rqs' !! k = rqs !! k ∧ qs' !! k = qs !! k).
Proof.
  revert rqs qs i. induction rings as [|a rings IH]; intros rqs qs i Hr Hi Hq; simpl in *.
  { exists rqs, qs. split_and!; done. }
  destruct (load_in rqs i) as (r & -> & _); [lia|]. simpl. rewrite !store_in by lia. simpl.
  set (rqs1 := <[Z.to_nat i := _]> rqs). set (qs1 := <[Z.to_nat i := _]> qs).
  assert (length rqs1 = length rqs) as L1 by apply length_insert.
  assert (length qs1 = length qs) as L2 by apply length_insert.
  destruct (IH rqs1 qs1 (i + 1)) as (rqs' & qs' & -> & Lr & Lq & Hin & Hout); [lia|lia|lia|].
  exists rqs', qs'. split_and!; [done|lia|lia| |].
  - intros [|k] b Hb; simpl in Hb.
    + simplify_eq. rewrite Nat.add_0_r, Z.add_0_r. destruct (Hout (Z.to_nat i)) as [-> ->]; [lia|]. split.
      * apply list_lookup_insert_eq. lia.
      * eexists. split; [apply list_lookup_insert_eq; lia|done].
    + destruct (Hin k b Hb) as [H1 (r' & H2 & H3)].
      replace (Z.to_nat i + S k)%nat with (Z.to_nat (i + 1) + k)%nat by lia. split; [|by exists r'].
      rewrite H1. do 3 f_equal. lia.
  - intros k Hk. destruct (Hout k) as [-> ->]; [lia|]. unfold rqs1, qs1. by rewrite !list_lookup_insert_ne by lia.
Qed.

(** The data of a port made of rings. *)
Definition ring_port (nm : string) (pid : Z) (rx tx : list Z) (numa : Z) (x : ring_data) : Prop :=
  name x = nm ∧ port_id x = pid ∧ numa_node x = numa ∧ dev_started x = 0 ∧ link_status (dev_link x) = 0 ∧
  nb_rx_queues x = Z.of_nat (length rx) ∧ nb_tx_queues x = Z.of_nat (length tx) ∧
  (∀ k a, rx !! k = Some a → rx_bound x (Z.of_nat k) a) ∧ (∀ k a, tx !! k = Some a → tx_bound x (Z.of_nat k) a).

Lemma fill_rings_zero mk rings : (length rings <= 16)%nat →
  ∃ rqs qs, fill_rings (replicate 16 (RingQueue 0 0 0 0)) (replicate (length rings) None) mk rings 0 = Some (rqs, qs) ∧
    ∀ k a, rings !! k = Some a → load qs (Z.of_nat k) = Some (Some (mk (Z.of_nat k))) ∧
      ∃ r, load rqs (Z.of_nat k) = Some r ∧ rng r = a.
Proof.
  intros Hl. destruct (fill_rings_run (replicate 16 (RingQueue 0 0 0 0)) (replicate (length rings) None) mk rings 0)
    as (rqs & qs & E & _ & _ & Hin & _); [rewrite length_replicate; simpl; lia|lia|rewrite length_replicate; simpl; lia|].
  exists rqs, qs. split; [done|]. intros k a Hk. rewrite !load_nat. apply (Hin k a Hk).
Qed.

Definition enough : memory := Memory true true true true.

Lemma from_rings_run (w : ring_eth) nm rx tx numa : eth_ok w → strlen nm < RTE_ETH_NAME_MAX_LEN →
  (0 < length rx <= 16)%nat → (0 < length tx <= 16)%nat →
  match fst (spec_allocate (view w) nm) with
  | Some i => ∃ x w', rte_eth_from_rings nm (Some rx) (Z.of_nat (length rx)) (Some tx) (Z.of_nat (length tx)) numa enough w =
      Some ((Z.of_nat i, 0, [BInternals; BTxQueues; BRxQueues; BData]), w') ∧
      eth_ok w' ∧ view w' = <[i := Some nm]> (view w) ∧ data_of w' (Z.of_nat i) = Some x ∧
      ring_port nm (Z.of_nat i) rx tx numa x ∧ ∀ j, j ≠ i → rte_eth_devices w' !! j = rte_eth_devices w !! j
  | None => ∃ w', rte_eth_from_rings nm (Some rx) (Z.of_nat (length rx)) (Some tx) (Z.of_nat (length tx)) numa enough w =
      Some ((-1, ENOSPC, []), w') ∧ eth_ok w' ∧ view w' = view w
  end.
Proof.
  intros Hok Hnm Hrx Htx. destruct (allocate_refines_frame w nm RTE_ETH_DEV_VIRTUAL Hok Hnm) as (w1 & Ea & Hv & Hok1 & Hfr).
  unfold rte_eth_from_rings, RTE_PMD_RING_MAX_RX_RINGS, enough, zmalloc_ok, sizeof_pointer. destruct (Z.ltb_spec 16 (Z.of_nat (length rx))); [lia|].
  destruct (Z.eqb_spec (8 * Z.of_nat (length rx)) 0); [lia|]. destruct (Z.eqb_spec (8 * Z.of_nat (length tx)) 0); [lia|].
  cbn [negb andb mem_data mem_rxq mem_txq mem_int]. rewrite (run_bind _ _ _ _ _ Ea). unfold spec_allocate in *.
  destruct (list_find (λ x, x = None) (view w)) as [[i o]|] eqn:Ef; cbn [fst snd fmap option_fmap option_map] in *; [|by exists w1].
  case_decide as Hdup; cbn [fst snd fmap option_fmap option_map] in *; [by exists w1|]. pose proof Ef as (Hi & _)%list_find_Some.
  assert (view w1 !! i = Some (Some nm)) as Hvi by (rewrite Hv; apply list_lookup_insert_eq; by eapply lookup_lt_Some).
  pose proof Hvi as Hvi'. rewrite view_lookup in Hvi'. apply fmap_Some in Hvi' as (d & Hd & Hdn).
  destruct (attached d) eqn:Hatt; [|done]. destruct (ok_data _ Hok1 _ _ Hd Hatt) as (old & Hold & Hpid).
  rewrite Hold in Hdn. simpl in Hdn. injection Hdn as Hname.
  rewrite !Nat2Z.id, !firstn_all. erewrite run_bind by reflexivity. erewrite run_bind by reflexivity.
  destruct (fill_rings_zero RxRing rx ltac:(lia)) as (rxr & rxq & Er & Hr).
  destruct (fill_rings_zero TxRing tx ltac:(lia)) as (txr & txq & Et & Ht).
  change (rx_ring_queues zero_internals) with (replicate 16 (RingQueue 0 0 0 0)).
  change (tx_ring_queues zero_internals) with (replicate 16 (RingQueue 0 0 0 0)).
  erewrite run_bind by (unfold liftO; by rewrite Er). cbn beta iota. erewrite run_bind by (unfold liftO; by rewrite Et). cbn beta iota.
  erewrite run_bind by (by apply run_get_data). erewrite run_bind by (by apply run_get_dev).
  match goal with |- context [DLocal ?y] => set (x := y) end.
  erewrite run_bind by (apply run_put_dev; by eapply lookup_lt_Some).
  destruct (own_data_ok w1 i d (d <| EthTable.data := DLocal x |> <| dev_ops := Some ops |>) x old Hok1 Hd Hatt) as (Hok2 & Hv2 & Hx & Hoth); [done..|].
  eexists x, _. split_and!; [by rewrite Hpid|done|by rewrite Hv2|done| |].
  2: { intros j Hj. rewrite <- Hfr by congruence. by apply Hoth. }
  unfold ring_port. split_and!; [done|done|done|done|done| | | |].
  - simpl. apply u16_small. unfold is_u16. lia.
  - simpl. apply u16_small. unfold is_u16. lia.
  - intros k a Hk. destruct (Hr k a Hk) as (H1 & r & H2 & H3). by eexists _, _, _, r.
  - intros k a Hk. destruct (Ht k a Hk) as (H1 & r & H2 & H3). by eexists _, _, _, r.
Qed.

(** Everything [rte_eth_from_rings] can run out of, or be asked for in vain,
    before it takes a port. *)
Definition must_fail (rx tx : list Z) (mem : memory) : Prop :=
  length rx = 0%nat ∨ (16 < length rx)%nat ∨ length tx = 0%nat ∨ mem ≠ enough.

Lemma from_rings_fails (w : ring_eth) nm rx tx numa mem : must_fail rx tx mem →
  ∃ err, rte_eth_from_rings nm (Some rx) (Z.of_nat (length rx)) (Some tx) (Z.of_nat (length tx)) numa mem w =
    Some ((-1, err, []), w) ∧ (err = EINVAL ∨ err = ENOMEM).
Proof.
  intros Hf. unfold rte_eth_from_rings, zmalloc_ok, sizeof_pointer, RTE_PMD_RING_MAX_RX_RINGS.
  destruct (Z.ltb_spec 16 (Z.of_nat (length rx))); [by eauto|].
  destruct (Z.eqb_spec (8 * Z.of_nat (length rx)) 0), (Z.eqb_spec (8 * Z.of_nat (length tx)) 0), mem as [[] [] [] []];
    simpl; try (by eauto). exfalso. unfold enough in Hf. destruct Hf as [?|[?|[?|?]]]; try lia; done.
Qed.

(** [rte_eth_from_rings] takes the first free port for the rings it is
    given: the port gets the name, a queue on each ring, no traffic counted and
    its link down, and the other ports keep their names. When the name is in
    use or all 32 ports are, and when it is given no rings, more than 16
    receive rings, or no memory, it returns -1, says why in [rte_errno], and
    has freed what it had allocated. *)
Theorem from_rings_correct (w : ring_eth) nm rx tx numa mem
    (Hok : eth_ok w) (Hnm : strlen nm < RTE_ETH_NAME_MAX_LEN) (Htx : (length tx <= 16)%nat) :
  ∃ ret err live w', rte_eth_from_rings nm (Some rx) (Z.of_nat (length rx)) (Some tx) (Z.of_nat (length tx)) numa mem w =
      Some ((ret, err, live), w') ∧ eth_ok w' ∧
    match fst (spec_allocate (view w) nm) with
    | Some i =>
        (¬ must_fail rx tx mem → ret = Z.of_nat i ∧ view w' = <[i := Some nm]> (view w) ∧
           ∃ x, data_of w' ret = Some x ∧ ring_port nm ret rx tx numa x) ∧
        (must_fail rx tx mem → ret = -1 ∧ (err = EINVAL ∨ err = ENOMEM) ∧ live = [] ∧ w' = w)
    | None => ret = -1 ∧ (err = EINVAL ∨ err = ENOMEM ∨ err = ENOSPC) ∧ live = [] ∧ view w' = view w
    end.
Proof.
  assert (must_fail rx tx mem ∨ ¬ must_fail rx tx mem ∧ (0 < length rx <= 16)%nat ∧ (0 < length tx)%nat ∧ mem = enough)
    as [Hf|(Hf & Hrx & Htx0 & ->)].
  { unfold must_fail. destruct (decide (length rx = 0%nat)); [tauto|]. destruct (decide (16 < length rx)%nat); [tauto|].
    destruct (decide (length tx = 0%nat)); [tauto|]. destruct mem as [[] [] [] []]; try (left; right; right; right; done).
    right. split_and!; try lia; try done. unfold enough. intros [?|[?|[?|?]]]; [lia|lia|lia|done]. }
  - destruct (from_rings_fails w nm rx tx numa mem Hf) as (err & E & He). exists (-1), err, [], w. split_and!; [done|done|].
    destruct (fst (spec_allocate (view w) nm)); [split; [done|naive_solver]|naive_solver].
  - pose proof (from_rings_run w nm rx tx numa Hok Hnm Hrx ltac:(lia)) as H.
    destruct (fst (spec_allocate (view w) nm)) as [i|].
    + destruct H as (x & w' & E & Hok' & Hv & Hx & Hp & _). eexists _, _, _, w'. split_and!; [done|done| |done]. intros _. eauto.
    + destruct H as (w' & E & Hok' & Hv). eexists _, _, _, w'. split_and!; [done|done|done|by auto|done|done].
Qed.

(** ** Concrete ports *)
Definition eth0 : ring_eth := eth_init true (replicate 32 zero_data).

Lemma from_rings_correct_witness :
  ∃ ret err live w' x, rte_eth_from_rings "ring0" (Some [4096; 8192]) 2 (Some [8192]) 1 0 enough eth0 =
      Some ((ret, err, live), w') ∧ ret = 0 ∧ data_of w' 0 = Some x ∧ nb_rx_queues x = 2 ∧ tx_bound x 0 8192.
Proof.
  destruct (from_rings_correct eth0 "ring0" [4096; 8192] [8192] 0 enough) as (ret & err & live & w' & E & _ & H).
  - by apply eth_init_ok.
  - vm_compute. reflexivity.
  - simpl. lia.
  - unfold eth0 in H. rewrite view_init in H. vm_compute spec_allocate in H. simpl in H.
    destruct H as [(Hret & _ & x & Hx & Hp) _].
    + unfold must_fail, enough. simpl. intros [?|[?|[?|?]]]; [lia|lia|lia|done].
    + subst ret. exists 0, err, live, w', x. split_and!; [exact E|done|exact Hx|apply Hp|].
      apply Hp with (k := 0%nat). reflexivity.
Defined.

(** The number of transmit rings is not checked: with seventeen, the
    seventeenth is written past the end of the driver's array (undefined
    behaviour), where seventeen receive rings are refused. *)
Theorem from_rings_tx_overflow :
  let rings16 := replicate 16 4096 in
  let rings17 := replicate 17 4096 in
  rte_eth_from_rings "r" (Some rings16) 16 (Some rings17) 17 0 enough eth0 = None ∧
  rte_eth_from_rings "r" (Some rings17) 17 (Some rings16) 16 0 enough eth0 = Some ((-1, EINVAL, []), eth0).
Proof. split; vm_compute; reflexivity. Qed.

(** A port on a ring that holds one object and has wrapped its indexes. *)
Definition demo_int : pmd_internals :=
  Internals 1 1 (RingQueue 4096 5 0 0 :: replicate 15 (RingQueue 0 0 0 0))
                (RingQueue 4096 0 7 2 :: replicate 15 (RingQueue 0 0 0 0)) null_mac_addr.
Definition demo_port : ring_data :=
  zero_data <| name := "ring0" |> <| rx_queues := Some [Some (RxRing 0)] |> <| tx_queues := Some [Some (TxRing 0)] |>
            <| dev_private := Some demo_int |>.
Definition demo_store : gmap Z (rte_ring Z) := {[ 4096 := wrap_ring ]}.
Lemma demo_rep : bq_rep wrap_ring 3 [7].
Proof. exists 2. split; [done|apply wrap_ring_rep]. Qed.

Lemma ring_ports_connected_witness :
  ∃ sent xs' st1 got tbl' xr' st2,
    ring_tx_burst demo_store demo_port 0 [8; 9; 10; 11] 4 = Some (sent, xs', st1) ∧
    ring_rx_burst st1 demo_port 0 [0; 0] 2 = Some (got, tbl', xr', st2) ∧ sent = 2 ∧ got = 2 ∧
    ∃ rest, take 2 tbl' ++ rest = [7; 8; 9].
Proof.
  destruct (ring_ports_connected demo_store demo_port demo_port 0 0 4096 wrap_ring 3 [7] [8; 9; 10; 11] 4 [0; 0] 2)
    as (sent & xs' & st1 & got & tbl' & xr' & q' & st2 & H1 & H2 & H3 & _ & _ & rest & H4 & _ & H5).
  - eexists _, _, _, _. split_and!; reflexivity.
  - eexists _, _, _, _. split_and!; reflexivity.
  - apply lookup_insert_eq.
  - apply demo_rep.
  - simpl. lia.
  - simpl. lia.
  - exists sent, xs', st1, got, tbl', xr', st2. simpl in H3, H5. subst sent.
    assert (got = 2) as -> by lia. split_and!; [exact H1|exact H2|done|done|].
    exists rest. exact H4.
Defined.

Lemma ring_counters_exact_witness :
  (∃ sent r' st', eth_ring_tx demo_store (RingQueue 4096 0 7 2) [8; 9; 10; 11] 4 = Some (sent, r', st') ∧
     0 <= sent <= 4 ∧ err_pkts r' = u64 (2 + (4 - sent))) ∧
  (∃ got bufs' r' st', eth_ring_rx demo_store (RingQueue 4096 0 7 2) [8; 9; 10; 11] 4 = Some (got, bufs', r', st') ∧
     rx_pkts r' = u64 got).
Proof.
  destruct (ring_counters_exact demo_store (RingQueue 4096 0 7 2) wrap_ring 3 [7] [8; 9; 10; 11] 4)
    as [(sent & r1 & st1 & H1 & H2 & _ & H3 & _) (got & b & r2 & st2 & H4 & _ & _ & H5 & _)].
  - apply lookup_insert_eq.
  - apply demo_rep.
  - simpl. lia.
  - split; [by exists sent, r1, st1|by exists got, b, r2, st2].
Defined.

Lemma ring_stats_exact_witness :
  ipackets (eth_stats_get demo_port zero_stats) = 5 ∧ opackets (eth_stats_get demo_port zero_stats) = 7 ∧
  ipackets (eth_stats_get (eth_stats_reset demo_port) zero_stats) = 0.
Proof.
  destruct (ring_stats_exact demo_port demo_int) as (H1 & H2 & _ & _ & _ & H3 & _); try reflexivity; try (simpl; lia).
  split_and!; [exact H1|exact H2|exact H3].
Defined.
