(* ===== verification/EthRingArgs.v ===== *)
(** * Ring devices from EAL arguments

    The end of [drivers/net/ring/rte_eth_ring.c]: a device [--vdev=eth_ring...]
    is a port on 16 rings of its own, which the first process creates and the
    others attach to. The argument [nodeaction=name:node:ACTION] tells the socket
    and which of the two to do. *)
From S2P Require Import Prelude CStr BurstQueue Ring RingSpec RingReg RingGroup KvArgs EthTable EthRing.
From Stdlib Require Import Ascii.
Open Scope Z_scope.

Definition ETH_RING_NUMA_NODE_ACTION_ARG : string := "nodeaction".
Definition ETH_RING_ACTION_CREATE : string := "CREATE".
Definition ETH_RING_ACTION_ATTACH : string := "ATTACH".
Definition valid_arguments : list string := [ETH_RING_NUMA_NODE_ACTION_ARG].

Inductive dev_action := DEV_CREATE | DEV_ATTACH.
#[export] Instance dev_action_eq_dec : EqDecision dev_action.
Proof. solve_decision. Defined.

(** ** Creating or attaching *)
Definition rxtx_name (nm : string) (i : Z) : string := snprintf RTE_RING_NAMESIZE ("ETH_RXTX" +:+ fmt_u i +:+ "_" +:+ nm).
Definition num_rings : Z := Z.min RTE_PMD_RING_MAX_RX_RINGS RTE_PMD_RING_MAX_TX_RINGS.

Section args.
Context {A : Type}.
(** The rings and the ports. *)
Definition world : Type := ring_env A * ring_eth.
(** What the allocators answer during a call. *)
Definition granting : Type := (Z → ring_answer A) * memory.
Definition eth_dev_ring_create (mem : granting) (nm : string) (numa_node : Z) (action : dev_action) (w : world) : option (Z * world) :=
  '(rxtx, e) ← rings_from (bool_decide (action = DEV_CREATE)) (rxtx_name nm) 1024 (Z.lor RING_F_SP_ENQ RING_F_SC_DEQ) (fst mem) (Z.to_nat num_rings) 0 (fst w);
  match rxtx with
  | None => Some (-1, (e, snd w))
  | Some rxtx =>
      '((ret, _, _), eth) ← rte_eth_from_rings nm (Some rxtx) num_rings (Some rxtx) num_rings numa_node (snd mem) (snd w);
      Some (if ret <? 0 then -1 else 0, (e, eth))
  end.

(** Create, and attach when that fails; [mem] and [mem'] answer the two. *)
Definition create_or_attach (mem mem' : granting) (nm : string) (numa_node : Z) (w : world) : option (Z * world) :=
  '(ret, w) ← eth_dev_ring_create mem nm numa_node DEV_CREATE w;
  if ret =? -1 then eth_dev_ring_create mem' nm numa_node DEV_ATTACH w else Some (ret, w).

(** ** The argument *)
Record node_action_pair := NodeAction { na_name : string; na_node : Z; na_action : dev_action }.
(** [strtol(s, &end, 10)] with [errno] zero before: the number when there is no
    error and nothing is left. *)
Definition strtol_all (s : string) : option Z :=
  match strto_mag 10 s with
  | (None, EmptyString) => Some 0
  | (Some (neg, v), EmptyString) =>
      let w := if neg : bool then - v else v in
      if (w <? - 2 ^ 63) || (2 ^ 63 - 1 <? w) then None else Some w
  | _ => None
  end.
(** The pairs so far are [info->list] up to [info->count]. *)
Definition parse_kvlist (strdup_ok : bool) (key value : string) (info : list node_action_pair) : Z * list node_action_pair :=
  let fail := (- EINVAL, info) in
  if negb strdup_ok then fail else
  match before ":" value, strchr ":" value with
  | Some name, Some (String _ node) =>
      match before ":" node, strchr ":" node with
      | Some node, Some (String _ action) =>
          match (if strcmp_eq action ETH_RING_ACTION_ATTACH then Some DEV_ATTACH
                 else if strcmp_eq action ETH_RING_ACTION_CREATE then Some DEV_CREATE else None) with
          | None => fail
          | Some action =>
              match strtol_all node with
              | None => fail
              | Some n => (0, info ++ [NodeAction (snprintf 4096 name) (u32 n) action])
              end
          end
      | _, _ => fail
      end
  | _, _ => fail
  end.

(** The loop over the list; [mem n] answers call [n] of [eth_dev_ring_create].
    The name of a pair is not used. *)
Fixpoint create_list (mem : nat → granting) (n : nat) (nm : string) (l : list node_action_pair) (ret : Z) (w : world) : option (Z * world) :=
  match l with
  | [] => Some (ret, w)
  | p :: l =>
      '(ret, w) ← (match na_action p with
                   | DEV_CREATE => create_or_attach (mem n) (mem (S n)) nm (na_node p) w
                   | DEV_ATTACH => eth_dev_ring_create (mem n) nm (na_node p) DEV_ATTACH w
                   end);
      create_list mem (S (S n)) nm l ret w
  end.
(** [params]: [None] is NULL. [kv_ok]: memory for the arguments, [info_ok] for
    the list, [dup_ok] for the copies of the values. *)
Definition rte_pmd_ring_devinit (socket : Z) (mem : nat → granting) (kv_ok kvdup_ok info_ok dup_ok : bool) (nm : string) (params : option string)
    (w : world) : option (Z * world) :=
  match params with
  | None | Some EmptyString => create_or_attach (mem 0%nat) (mem 1%nat) nm socket w
  | Some params =>
      kvlist ← rte_kvargs_parse params (Some valid_arguments) kv_ok kvdup_ok;
      match kvlist with
      | None => create_or_attach (mem 0%nat) (mem 1%nat) nm socket w
      | Some kvlist =>
          let ret := rte_kvargs_count kvlist (Some ETH_RING_NUMA_NODE_ACTION_ARG) in
          if negb info_ok then Some (ret, w) else
          let '(ret, info) := rte_kvargs_process kvlist (Some ETH_RING_NUMA_NODE_ACTION_ARG) (parse_kvlist dup_ok) [] in
          if ret <? 0 then Some (ret, w) else create_list mem 0 nm info ret w
      end
  end.
End args.
Arguments granting : clear implicits.
Arguments world : clear implicits.

(** ** Names *)
Lemma fmt_u_small i : 0 <= i < 16 → strlen (fmt_u i) <= 2.
Proof.
  intros Hi. assert (i ∈ seqZ 0 16) as Hin%list_elem_of_In by (apply elem_of_seqZ; lia).
  assert (forallb (λ i, strlen (fmt_u i) <=? 2) (seqZ 0 16) = true) as Hall by (vm_compute; reflexivity).
  by apply Z.leb_le, (proj1 (forallb_forall _ _) Hall).
Qed.
Lemma fmt_u_inj i j : 0 <= i < 16 → 0 <= j < 16 → fmt_u i = fmt_u j → i = j.
Proof.
  intros Hi Hj. assert (i ∈ seqZ 0 16 ∧ j ∈ seqZ 0 16) as [Hin%list_elem_of_In Hjn%list_elem_of_In] by (rewrite !elem_of_seqZ; lia).
  assert (forallb (λ i, forallb (λ j, negb (String.eqb (fmt_u i) (fmt_u j)) || (i =? j)) (seqZ 0 16)) (seqZ 0 16) = true) as Hall by (vm_compute; reflexivity).
  pose proof (proj1 (forallb_forall _ _) (proj1 (forallb_forall _ _) Hall i Hin) j Hjn) as H. cbv beta in H.
  intros E. rewrite E, String.eqb_refl in H. by apply Z.eqb_eq in H.
Qed.
Lemma app_same_tail (a b t : string) : a +:+ t = b +:+ t → a = b.
Proof.
  intros E. assert (strlen a = strlen b) as Hl by (apply (f_equal strlen) in E; rewrite !strlen_app in E; lia).
  revert b E Hl. induction a as [|c a IH]; intros [|d b] E Hl; [done|discriminate Hl..|].
  change (String c (a +:+ t) = String d (b +:+ t)) in E. injection E as -> E. f_equal. apply IH; [done|]. unfold strlen in *. cbn in Hl. lia.
Qed.
(** Up to 20 characters, the names of the rings of a device are different. *)
Lemma rxtx_names nm : strlen nm <= 20 → names_ok (rxtx_name nm) 16.
Proof.
  intros Hl. assert (∀ i, 0 <= i < 16 → strlen ("ETH_RXTX" +:+ fmt_u i +:+ "_" +:+ nm) < RTE_RING_NAMESIZE) as Hlen.
  { intros i Hi. rewrite !strlen_app. change (strlen "ETH_RXTX") with 8. change (strlen "_") with 1. pose proof (fmt_u_small i Hi). unfold RTE_RING_NAMESIZE. lia. }
  split; intros i; [|intros j Hi Hj E]; unfold rxtx_name in *.
  - intros Hi. rewrite snprintf_fits; by apply Hlen.
  - rewrite !snprintf_fits in E by (by apply Hlen). apply (inj (String.append "ETH_RXTX")) in E. apply fmt_u_inj; [done|done|]. by eapply app_same_tail.
Qed.

(** ** A device and its copies *)
Section devices.
Context {A : Type} (zone : Z → memzone A) (nm : string) (Hnm : strlen nm <= 20).
Definition rxtx : list Z := addrs zone 0 16.
Definition group_zones (e : ring_env A) : Prop := zones_ok zone (rxtx_name nm) 10 16 0 16 e.
(** The rings of the device, empty. *)
Definition group_rings (e : ring_env A) : Prop := env_ok e ∧ ∀ k, 0 <= k < 16 → has_ring zone (rxtx_name nm) 10 e k.

Lemma ring_create_creates numa e w i : env_ok e → group_zones e → eth_ok w → fst (spec_allocate (view w) nm) = Some i →
  ∃ e' w' x, eth_dev_ring_create (granted zone, enough) nm numa DEV_CREATE (e, w) = Some (0, (e', w')) ∧ group_rings e' ∧
    eth_ok w' ∧ view w' = <[i := Some nm]> (view w) ∧ data_of w' (Z.of_nat i) = Some x ∧ ring_port nm (Z.of_nat i) rxtx rxtx numa x.
Proof.
  intros He Hz Hw Hi.
  destruct (create_all zone (rxtx_name nm) 10 (Z.lor RING_F_SP_ENQ RING_F_SC_DEQ) 16 (rxtx_names nm Hnm) ltac:(lia) 16 0 e He Hz) as (e' & Ec & He' & Hr & _).
  pose proof (from_rings_run w nm rxtx rxtx numa Hw) as Hf. rewrite Hi, (addrs_length zone 0 16 : length rxtx = _) in Hf.
  fold rxtx in Ec.
  destruct Hf as (x & w' & Er & Hw' & Hv & Hx & Hp & _); [unfold RTE_ETH_NAME_MAX_LEN; lia|lia|lia|].
  exists e', w', x. split; [|split_and!; [split; [exact He'|exact Hr]|exact Hw'|exact Hv|exact Hx|exact Hp]].
  unfold eth_dev_ring_create. rewrite bool_decide_eq_true_2 by done.
  change 1024 with (2 ^ 10). change (Z.to_nat num_rings) with 16%nat. cbn [fst snd]. rewrite Ec. cbn [mbind option_bind].
  change num_rings with (Z.of_nat 16). rewrite Er. cbn [mbind option_bind]. destruct (Z.ltb_spec (Z.of_nat i) 0); [lia|reflexivity].
Qed.
Lemma ring_create_attaches answer numa e w i : group_rings e → eth_ok w → fst (spec_allocate (view w) nm) = Some i →
  ∃ e' w' x, eth_dev_ring_create (answer, enough) nm numa DEV_ATTACH (e, w) = Some (0, (e', w')) ∧ rings e' = rings e ∧
    eth_ok w' ∧ view w' = <[i := Some nm]> (view w) ∧ data_of w' (Z.of_nat i) = Some x ∧ ring_port nm (Z.of_nat i) rxtx rxtx numa x.
Proof.
  intros [He Hr] Hw Hi.
  destruct (lookup_all zone (rxtx_name nm) 10 (Z.lor RING_F_SP_ENQ RING_F_SC_DEQ) 16 (rxtx_names nm Hnm) answer 16 0 e He ltac:(lia) ltac:(lia) Hr) as (e' & Ec & He' & _).
  pose proof (from_rings_run w nm rxtx rxtx numa Hw) as Hf. rewrite Hi, (addrs_length zone 0 16 : length rxtx = _) in Hf.
  fold rxtx in Ec.
  destruct Hf as (x & w' & Er & Hw' & Hv & Hx & Hp & _); [unfold RTE_ETH_NAME_MAX_LEN; lia|lia|lia|].
  exists e', w', x. split; [|split_and!; [exact He'|exact Hw'|exact Hv|exact Hx|exact Hp]].
  unfold eth_dev_ring_create. rewrite bool_decide_eq_false_2 by done.
  change 1024 with (2 ^ 10). change (Z.to_nat num_rings) with 16%nat. cbn [fst snd]. rewrite Ec. cbn [mbind option_bind].
  change num_rings with (Z.of_nat 16). rewrite Er. cbn [mbind option_bind]. destruct (Z.ltb_spec (Z.of_nat i) 0); [lia|reflexivity].
Qed.
(** The zone of the first ring is taken: nothing is created. *)
Lemma ring_create_refused answer err m numa e w : answer 0 = (true, inr err) → group_rings e →
  ∃ e', eth_dev_ring_create (answer, m) nm numa DEV_CREATE (e, w) = Some (-1, (e', w)) ∧ group_rings e' ∧ rings e' = rings e.
Proof.
  intros Ha [[H1 H2 H3] Hr]. exists (e <| rte_errno := err |>). unfold eth_dev_ring_create. rewrite bool_decide_eq_true_2 by done.
  change (Z.to_nat num_rings) with 16%nat. cbn [rings_from fst snd]. rewrite Ha. change (rte_ring_create e (rxtx_name nm 0) 1024 _ true (inr err))
    with (@None Z, e <| rte_errno := err |>). cbn [mbind option_bind]. split; [reflexivity|]. split; [|reflexivity]. split; [by split|exact Hr].
Qed.
End devices.

(** Arguments that say nothing: none, or some the driver does not know. *)
Definition no_arguments (params : option string) : Prop :=
  match params with None | Some EmptyString => True | Some p => kvargs_spec p (Some valid_arguments) = None end.
Lemma devinit_no_arguments {A} socket (mem : nat → granting A) kv_ok kvdup_ok info_ok dup_ok nm params w : no_arguments params →
  rte_pmd_ring_devinit socket mem kv_ok kvdup_ok info_ok dup_ok nm params w = create_or_attach (mem 0%nat) (mem 1%nat) nm socket w.
Proof.
  destruct params as [[|c p]|]; [done| |done]. intros Hn. unfold rte_pmd_ring_devinit.
  assert (rte_kvargs_parse (String c p) (Some valid_arguments) kv_ok kvdup_ok = Some None) as ->; [|done].
  destruct kv_ok, kvdup_ok; [|done..]. rewrite kvargs_parse_eq. unfold no_arguments in Hn. by rewrite Hn.
Qed.

(** C25: A ring device is one device in all processes. A process that has the
    memory for 16 rings makes a port of the device's name (up to 20 characters)
    whose queue [k] receives from and sends to ring [k], a new and empty ring for
    1023 packets; a second process, for which the rings exist already, attaches: it
    returns 0 as well, changes no ring, and its port has the same rings. *)
Theorem ring_device_shared {A} (zone : Z → memzone A) (nm : string) (params : option string) (socket socket2 err : Z)
    (mem mem2 : nat → granting A) (kv kvd info dup : bool) (e : ring_env A) (w w2 : ring_eth) (i j : nat) :
  strlen nm <= 20 → no_arguments params → env_ok e → group_zones zone nm e →
  eth_ok w → fst (spec_allocate (view w) nm) = Some i → eth_ok w2 → fst (spec_allocate (view w2) nm) = Some j →
  mem 0%nat = (granted zone, enough) → fst (mem2 0%nat) 0 = (true, inr err) → snd (mem2 1%nat) = enough →
  ∃ e1 w1 x, rte_pmd_ring_devinit socket mem kv kvd info dup nm params (e, w) = Some (0, (e1, w1)) ∧
    data_of w1 (Z.of_nat i) = Some x ∧ ring_port nm (Z.of_nat i) (rxtx zone) (rxtx zone) socket x ∧
    (∀ k a, rxtx zone !! k = Some a → named e1 (rxtx_name nm (Z.of_nat k)) = Some a ∧ ∃ r, rings e1 !! a = Some r ∧ bq_rep r 1023 []) ∧
    ∃ e2 w3 y, rte_pmd_ring_devinit socket2 mem2 kv kvd info dup nm params (e1, w2) = Some (0, (e2, w3)) ∧ rings e2 = rings e1 ∧
      data_of w3 (Z.of_nat j) = Some y ∧ ring_port nm (Z.of_nat j) (rxtx zone) (rxtx zone) socket2 y.
Proof.
  intros Hnm Hp He Hz Hw Hi Hw2 Hj Hm Hm2 Hm3.
  destruct (ring_create_creates zone nm Hnm socket e w i He Hz Hw Hi) as (e1 & w1 & x & E1 & Hr1 & _ & _ & Hx & Hpx).
  destruct (mem2 0%nat) as [ans2 m2] eqn:Em2. destruct (mem2 1%nat) as [ans3 m3] eqn:Em3. cbn [fst snd] in *. subst m3.
  destruct (ring_create_refused zone nm ans2 err m2 socket2 e1 w2 Hm2 Hr1) as (e1' & E2 & Hr2 & Hre).
  destruct (ring_create_attaches zone nm Hnm ans3 socket2 e1' w2 j Hr2 Hw2 Hj) as (e2 & w3 & y & E3 & Hr3 & _ & _ & Hy & Hpy).
  exists e1, w1, x. split; [|split; [exact Hx|split; [exact Hpx|split]]].
  - rewrite devinit_no_arguments by done. unfold create_or_attach. rewrite Hm, E1. reflexivity.
  - intros k a Ha. apply (addrs_ring zone (rxtx_name nm) 10 16 e1 k a); [apply Hr1|exact Ha].
  - exists e2, w3, y. split; [|split; [by rewrite Hr3|by split]]. rewrite devinit_no_arguments by done. unfold create_or_attach.
    rewrite Em2, Em3. apply bind_Some. exists (-1, (e1', w2)). split; [exact E2|exact E3].
Qed.

Definition demo_zone (i : Z) : memzone Z := Memzone (4096 * (i + 1)) 0 (replicate (Z.to_nat 1024) 0).
Lemma demo_zone_length i : Z.of_nat (length (mz_table (demo_zone i))) = 2 ^ 10.
Proof. unfold demo_zone. cbn [mz_table]. rewrite length_replicate. done. Qed.
Lemma demo_zones_ok : group_zones demo_zone "eth_ring0" (RingEnv [] ∅ 0).
Proof.
  split; [cbn; lia|intros k _; apply demo_zone_length|intros k _; apply not_elem_of_nil| |done].
  intros k l _ _. unfold addr_of. cbn. lia.
Qed.
(** The first process, then a second one for which the zone of the first ring
    exists. *)
Lemma ring_device_shared_witness : ∃ e1 w1 x e2 w3 y,
  rte_pmd_ring_devinit 0 (λ _, (granted demo_zone, enough)) true true true true "eth_ring0" None (RingEnv [] ∅ 0, eth0) = Some (0, (e1, w1)) ∧
  data_of w1 0 = Some x ∧ rx_bound x 3 16384 ∧
  rte_pmd_ring_devinit 0 (λ _, (λ _, (true, inr EEXIST), enough)) true true true true "eth_ring0" None (e1, eth0) = Some (0, (e2, w3)) ∧
  data_of w3 0 = Some y ∧ tx_bound y 3 16384.
Proof.
  destruct (ring_device_shared demo_zone "eth_ring0" None 0 0 EEXIST (λ _, (granted demo_zone, enough)) (λ _, (λ _, (true, inr EEXIST), enough))
    true true true true (RingEnv [] ∅ 0) eth0 eth0 0 0) as (e1 & w1 & x & H1 & Hx & Hp & _ & e2 & w3 & y & H2 & _ & Hy & Hq).
  - vm_compute. discriminate.
  - exact I.
  - split; [apply NoDup_nil_2|intros a Ha; by apply elem_of_nil in Ha|intros a r Hr; simpl in Hr; by rewrite lookup_empty in Hr].
  - apply demo_zones_ok.
  - by apply eth_init_ok.
  - unfold eth0. rewrite view_init. reflexivity.
  - by apply eth_init_ok.
  - unfold eth0. rewrite view_init. reflexivity.
  - reflexivity.
  - reflexivity.
  - reflexivity.
  - exists e1, w1, x, e2, w3, y. split; [exact H1|]. split; [exact Hx|]. split; [apply Hp with (k := 3%nat); reflexivity|].
    split; [exact H2|]. split; [exact Hy|]. apply Hq with (k := 3%nat). reflexivity.
Defined.

(** Without memory for the list of actions the driver returns how many there are,
    which is no error. *)
Theorem devinit_no_list {A} (mem : nat → granting A) (w : world A) :
  rte_pmd_ring_devinit 0 mem true true false true "eth_ring0" (Some "nodeaction=ring0:0:CREATE") w = Some (1, w).
Proof. vm_compute. reflexivity. Qed.
(** The argument of a device, read. *)
Example nodeaction_example : parse_kvlist true "nodeaction" "ring0:1:ATTACH" [] = (0, [NodeAction "ring0" 1 DEV_ATTACH]).
Proof. reflexivity. Qed.
