(* ===== verification/Vhost.v ===== *)
(** * The vhost poll-mode driver

    [drivers/net/vhost/rte_eth_vhost.c], a driver the patch panel added to
    DPDK: a port of it is a socket that a guest connects to. A structure
    [pmd_internal] is the [dev_private] of its port, so a pointer to one is the
    number of the port; [internals_list] is the list of these pointers, by
    which the callbacks of the vhost library find the port of a guest. The
    library itself (sockets, descriptor rings) is an input: what registering a
    socket returns and what a burst moves. What several threads do to a port
    is in [VhostConc.v]. *)
From S2P Require Import Prelude CStr Ring RingReg EthTable EthStats KvArgs.
From Stdlib Require Import Ascii.
Open Scope Z_scope.

Definition ETH_VHOST_IFACE_ARG : string := "iface".
Definition drivername : string := "VHOST PMD".
Definition valid_arguments : list string := [ETH_VHOST_IFACE_ARG].
Definition base_eth_addr : ether_addr := [86; 72; 79; 83; 84; 0].
Definition ETH_LINK_FULL_DUPLEX : Z := 2.
Definition VIRTIO_DEV_RUNNING : Z := 1.
Definition pmd_link : rte_eth_link := Link 10000 ETH_LINK_FULL_DUPLEX 0.

(** [device] points to a device of the library, [internal] to the structure
    of the port ([false]: NULL), [mb_pool] to a pool. *)
Record vhost_queue := VhostQueue {
  device : option Z; internal : bool; mb_pool : option Z; rx_pkts : Z; tx_pkts : Z; err_pkts : Z;
  rx_executing : Z; tx_executing : Z }.
#[export] Instance vhost_queue_upd : Updatable vhost_queue := λ q,
  VhostQueue (device q) (internal q) (mb_pool q) (rx_pkts q) (tx_pkts q) (err_pkts q) (rx_executing q) (tx_executing q).
Definition zero_queue : vhost_queue := VhostQueue None false None 0 0 0 0 0.

Record pmd_internal := VInternal {
  dev_name : string; iface_name : string; int_nb_rx_queues : Z; int_nb_tx_queues : Z; xfer : Z;
  rx_vhost_queues : list vhost_queue; tx_vhost_queues : list vhost_queue }.
#[export] Instance pmd_internal_upd : Updatable pmd_internal := λ i,
  VInternal (dev_name i) (iface_name i) (int_nb_rx_queues i) (int_nb_tx_queues i) (xfer i) (rx_vhost_queues i) (tx_vhost_queues i).
Definition zero_internal : pmd_internal := VInternal "" "" 0 0 0 (replicate 16 zero_queue) (replicate 16 zero_queue).

(** A queue handle points into the arrays of [pmd_internal]. *)
Inductive queue_ptr := RxVhost (i : Z) | TxVhost (i : Z).
Notation vhost_data := (rte_eth_dev_data pmd_internal queue_ptr).
Notation vhost_eth := (eth pmd_internal queue_ptr).
Notation EM := (EthTable.M pmd_internal queue_ptr).

(** ** Receive and transmit

    [burst d n] is what the library moves of [n] packets on the device [d]: a
    number of at most [n]; [NULL] is not a device. The two tests of [xfer] see
    the same value when nothing runs beside. *)
Section burst.
Variable (burst : Z → Z → Z).

Definition eth_vhost_rx (int : pmd_internal) (r : vhost_queue) (nb_bufs : Z) : option (Z * vhost_queue) :=
  if negb (internal r) then Some (0, r) else
  if xfer int =? 0 then Some (0, r) else
  let r := r <| rx_executing := 1 |> in
  d ← device r;
  let nb_rx := u16 (burst d nb_bufs) in
  let r := r <| rx_pkts := u64 (rx_pkts r + nb_rx) |> in
  Some (nb_rx, r <| rx_executing := 0 |>).

Definition eth_vhost_tx (int : pmd_internal) (r : vhost_queue) (nb_bufs : Z) : option (Z * vhost_queue) :=
  if negb (internal r) then Some (0, r) else
  if xfer int =? 0 then Some (0, r) else
  let r := r <| tx_executing := 1 |> in
  d ← device r;
  let nb_tx := u16 (burst d nb_bufs) in
  let r := r <| tx_pkts := u64 (tx_pkts r + nb_tx) |> <| err_pkts := u64 (err_pkts r + (nb_bufs - nb_tx)) |> in
  Some (nb_tx, r <| tx_executing := 0 |>).
End burst.

(** ** Driver functions

    [register] is [rte_vhost_driver_register] of the library; unregistering,
    all that [eth_dev_stop] does, leaves no trace in the data of the port. *)
Definition the_internal (x : vhost_data) : pmd_internal := default zero_internal (dev_private x).

Definition eth_dev_configure (x : vhost_data) : Z * vhost_data := (0, x).
Definition eth_dev_start (register : string → Z) (x : vhost_data) : Z * vhost_data := (register (iface_name (the_internal x)), x).
Definition eth_dev_stop (x : vhost_data) : vhost_data := x.

Definition set_queue (qs : option (list (option queue_ptr))) (qid : Z) (q : queue_ptr) : option (list (option queue_ptr)) :=
  match qs with Some l => store l qid (Some q) | None => None end.
Definition eth_rx_queue_setup (pool : option Z) (qid nb_desc socket : Z) (x : vhost_data) : Z * vhost_data :=
  let int := the_internal x in
  let l := default [] (r ← load (rx_vhost_queues int) qid; store (rx_vhost_queues int) qid (r <| mb_pool := pool |>)) in
  (0, x <| dev_private := Some (int <| rx_vhost_queues := l |>) |> <| rx_queues := set_queue (rx_queues x) qid (RxVhost qid) |>).
Definition eth_tx_queue_setup (qid nb_desc socket : Z) (x : vhost_data) : Z * vhost_data :=
  (0, x <| tx_queues := set_queue (tx_queues x) qid (TxVhost qid) |>).

Definition eth_dev_info (pci : option rte_pci_addr) (x : vhost_data) (i : rte_eth_dev_info) : rte_eth_dev_info :=
  i <| driver_name := drivername |> <| max_mac_addrs := 1 |> <| max_rx_pktlen := u32 (-1) |>
    <| max_rx_queues := u16 (int_nb_rx_queues (the_internal x)) |> <| max_tx_queues := u16 (int_nb_tx_queues (the_internal x)) |>
    <| min_rx_bufsize := 0 |> <| pci_info := pci |>.

Definition eth_stats_get (x : vhost_data) (s : rte_eth_stats) : rte_eth_stats :=
  let int := the_internal x in
  let rx := counted (int_nb_rx_queues int) (rx_vhost_queues int) in
  let tx := counted (int_nb_tx_queues int) (tx_vhost_queues int) in
  let '(qi, rx_total) := sum_queues rx_pkts rx (q_ipackets s) 0 0 in
  let '(qo, tx_total) := sum_queues tx_pkts tx (q_opackets s) 0 0 in
  let '(qe, tx_err_total) := sum_queues err_pkts tx (q_errors s) 0 0 in
  s <| q_ipackets := qi |> <| q_opackets := qo |> <| q_errors := qe |>
    <| ipackets := rx_total |> <| opackets := tx_total |> <| oerrors := tx_err_total |>.
Definition eth_stats_reset (x : vhost_data) : vhost_data :=
  let int := the_internal x in
  x <| dev_private := Some (int
         <| rx_vhost_queues := reset_queues (λ q, q <| rx_pkts := 0 |>) (int_nb_rx_queues int) (rx_vhost_queues int) |>
         <| tx_vhost_queues := reset_queues (λ q, q <| tx_pkts := 0 |> <| err_pkts := 0 |>)
                                 (int_nb_tx_queues int) (tx_vhost_queues int) |>) |>.
Definition eth_queue_release (q : option queue_ptr) (x : vhost_data) : vhost_data := x.
Definition eth_link_update (wait : Z) (x : vhost_data) : Z * vhost_data := (0, x).

(** The pool of [rx_queue_setup] and the PCI address of the dummy device are
    parameters of the functions. *)
Definition ops (register : string → Z) (pool : option Z) (pci : option rte_pci_addr) : eth_dev_ops pmd_internal queue_ptr := {|
  dev_configure := Some eth_dev_configure; op_dev_start := Some (eth_dev_start register); op_dev_stop := Some eth_dev_stop;
  dev_set_link_up := None; dev_set_link_down := None; dev_close := None;
  promiscuous_enable := None; promiscuous_disable := None; allmulticast_enable := None; allmulticast_disable := None;
  link_update := Some eth_link_update; stats_get := Some eth_stats_get; stats_reset := Some eth_stats_reset;
  dev_infos_get := Some (eth_dev_info pci); mtu_set := None; vlan_filter_set := None; vlan_tpid_set := None;
  vlan_strip_queue_set := None; vlan_offload_set := None; vlan_pvid_set := None;
  rx_queue_start := None; rx_queue_stop := None; tx_queue_start := None; tx_queue_stop := None;
  rx_queue_setup := Some (eth_rx_queue_setup pool); rx_queue_release := Some eth_queue_release;
  tx_queue_setup := Some eth_tx_queue_setup; tx_queue_release := Some eth_queue_release;
  mac_addr_remove := None; mac_addr_add := None; mac_addr_set := None |}.

(** ** Connections

    [devices] are the connections the library knows, by address. *)
Record virtio_net := Virtio { ifname : string; vflags : Z; priv : option Z }.
#[export] Instance virtio_net_upd : Updatable virtio_net := λ d, Virtio (ifname d) (vflags d) (priv d).

Record vhost := Vhost { veth : vhost_eth; internals_list : list Z; devices : gmap Z virtio_net; session_started : bool }.
#[export] Instance vhost_upd : Updatable vhost := λ w, Vhost (veth w) (internals_list w) (devices w) (session_started w).

Definition VM (R : Type) : Type := vhost → option (R * vhost).
#[export] Instance VM_ret : MRet VM := λ R x w, Some (x, w).
#[export] Instance VM_bind : MBind VM := λ R S k m w, match m w with Some (x, w') => k x w' | None => None end.
Definition on_eth {R} (m : EM R) : VM R := λ w, '(x, e) ← m (veth w); Some (x, w <| veth := e |>).
Definition vmodify (f : vhost → vhost) : VM unit := λ w, Some (tt, f w).
Definition vlift {R} (o : option R) : VM R := λ w, x ← o; Some (x, w).
(** [*internal] and assignment to it. *)
Definition internal_of (w : vhost) (pid : Z) : option pmd_internal := x ← data_of (veth w) pid; dev_private x.
Definition get_internal (pid : Z) : VM pmd_internal := λ w, i ← internal_of w pid; Some (i, w).
Definition put_internal (pid : Z) (i : pmd_internal) : VM unit := on_eth (x ← get_data pid; put_data pid (x <| dev_private := Some i |>)).
Definition get_virtio (dev : Z) : VM virtio_net := λ w, d ← devices w !! dev; Some (d, w).
Definition put_virtio (dev : Z) (d : virtio_net) : VM unit := vmodify (λ w, w <| devices := <[dev := d]> (devices w) |>).

(** The first structure of the list with the name. *)
Fixpoint find_in (w : vhost) (l : list Z) (nm : string) : option (option Z) :=
  match l with
  | [] => Some None
  | a :: l => i ← internal_of w a; if strcmp_eq (iface_name i) nm then Some (Some a) else find_in w l nm
  end.
Definition find_internal_resource (nm : option string) : VM (option Z) := λ w,
  match nm with
  | None => Some (None, w)
  | Some nm => r ← find_in w (internals_list w) nm; Some (r, w)
  end.

(** [for (i = 0; i < nb; i++)] over an array of queues. *)
Definition each_queue (f : vhost_queue → vhost_queue) (nb : Z) (qs : list vhost_queue) : list vhost_queue := reset_queues f nb qs.

Definition set_link (pid v : Z) : VM unit :=
  on_eth (x ← get_data pid; put_data pid (x <| dev_link := (dev_link x) <| link_status := v |> |>)).

Definition new_device (dev : option Z) : VM Z :=
  match dev with
  | None => mret (-1)
  | Some dev =>
      d ← get_virtio dev;
      found ← find_internal_resource (Some (ifname d));
      match found with
      | None => mret (-1)
      | Some a =>
          int ← get_internal a;
          eth_dev ← on_eth (rte_eth_dev_allocated (dev_name int));
          match eth_dev with
          | None => mret (-1)
          | Some pid =>
              int ← get_internal pid;
              let attach q := q <| device := Some dev |> <| internal := true |> in
              _ ← put_internal pid (int
                    <| rx_vhost_queues := each_queue attach (int_nb_rx_queues int) (rx_vhost_queues int) |>
                    <| tx_vhost_queues := each_queue attach (int_nb_tx_queues int) (tx_vhost_queues int) |>);
              _ ← put_virtio dev (d <| vflags := Z.lor (vflags d) VIRTIO_DEV_RUNNING |> <| priv := Some pid |>);
              _ ← set_link pid 1;
              int ← get_internal pid;
              _ ← put_internal pid (int <| xfer := 1 |>);
              mret 0
          end
      end
  end.

(** The loops wait for the flags; with one thread a flag that is up stays up,
    which is [None]. *)
Definition all_zero (get : vhost_queue → Z) (nb : Z) (qs : list vhost_queue) : option unit :=
  if forallb (λ q, get q =? 0) (take (Z.to_nat nb) qs) then Some tt else None.
Definition destroy_device (dev : option Z) : VM unit :=
  match dev with
  | None => mret tt
  | Some dev =>
      d ← get_virtio dev;
      match priv d with
      | None => mret tt
      | Some pid =>
          int ← get_internal pid;
          _ ← put_internal pid (int <| xfer := 0 |>);
          _ ← vlift (all_zero rx_executing (int_nb_rx_queues int) (rx_vhost_queues int));
          _ ← vlift (all_zero tx_executing (int_nb_tx_queues int) (tx_vhost_queues int));
          _ ← set_link pid 0;
          _ ← put_virtio dev (d <| priv := None |> <| vflags := Z.land (vflags d) (Z.lnot VIRTIO_DEV_RUNNING) |>);
          int ← get_internal pid;
          let detach q := q <| device := None |> in
          put_internal pid (int
            <| rx_vhost_queues := each_queue detach (int_nb_rx_queues int) (rx_vhost_queues int) |>
            <| tx_vhost_queues := each_queue detach (int_nb_tx_queues int) (tx_vhost_queues int) |>)
      end
  end.

(** ** Making a port *)

(** The blocks that are allocated, and which allocations succeed. *)
Inductive block := BData | BRxQueues | BTxQueues | BPci | BInternal | BAddr | BDevName | BIfaceName.
#[export] Instance block_eq_dec : EqDecision block.
Proof. solve_decision. Defined.
Definition memory : Type := block → bool.
(** The error exit frees four of them. *)
Definition create_error (live : list block) : VM (Z * list block) :=
  mret (-1, filter (λ b, b ∉ [BData; BPci; BInternal; BAddr]) live).

(** [blocks] are allocated in order; the result is what was, and whether all
    of it. *)
Fixpoint allocate (mem : memory) (blocks live : list block) : bool * list block :=
  match blocks with
  | [] => (true, live)
  | b :: blocks => if mem b then allocate mem blocks (b :: live) else (false, live)
  end.

(** The part [eth_dev_vhost_create] and [rte_eth_from_vhost_create] have in
    common; [qs] is what the second sets up of the queues: the arrays of the
    port and the pool of each queue. *)
Definition vhost_create (register : string → Z) (pool : option Z) (before : list block)
    (qs : option (list (option queue_ptr)) * option (list (option queue_ptr)) * (vhost_queue → vhost_queue))
    (nm : string) (index : Z) (iface : string) (numa : Z) (mem : memory) : VM (Z * list block) :=
  let '(ok, live) := allocate mem (BData :: before ++ [BPci; BInternal; BAddr]) [] in
  if negb ok then create_error live else
  let eth_addr := take 5 base_eth_addr ++ [u8 index] in
  eth_dev ← on_eth (rte_eth_dev_allocate nm RTE_ETH_DEV_VIRTUAL);
  match eth_dev with
  | None => create_error live
  | Some pid =>
      let '(rxq, txq, set) := qs in
      if negb (mem BDevName) then create_error live else
      if negb (mem BIfaceName) then create_error (BDevName :: live) else
      let int := zero_internal <| int_nb_rx_queues := 1 |> <| int_nb_tx_queues := 1 |>
        <| rx_vhost_queues := each_queue set 1 (rx_vhost_queues zero_internal) |>
        <| tx_vhost_queues := each_queue set 1 (tx_vhost_queues zero_internal) |>
        <| dev_name := nm |> <| iface_name := iface |> in
      _ ← vmodify (λ w, w <| internals_list := internals_list w ++ [pid] |>);
      old ← on_eth (get_data pid);
      let data := zero_data <| rx_queues := rxq |> <| tx_queues := txq |> <| dev_private := Some int |>
        <| port_id := port_id old |> <| name := name old |> <| nb_rx_queues := 1 |> <| nb_tx_queues := 1 |>
        <| dev_link := pmd_link |> <| mac_addrs := Some [eth_addr] |> in
      d ← on_eth (get_dev pid);
      _ ← on_eth (put_dev pid (d <| EthTable.data := DLocal data |> <| dev_ops := Some (ops register pool (Some (PciAddr 0 0 0 0))) |>
                              <| pci_dev := Some (PciAddr 0 0 0 0) |>));
      _ ← vmodify (λ w, w <| session_started := true |>);
      mret (port_id old, BIfaceName :: BDevName :: live)
  end.

Definition eth_dev_vhost_create (register : string → Z) (pool : option Z) : string → Z → string → Z → memory → VM (Z * list block) :=
  vhost_create register pool [] (None, None, λ q, q).
Definition rte_eth_from_vhost_create (register : string → Z) (pool : option Z) : string → Z → string → Z → memory → VM (Z * list block) :=
  vhost_create register pool [BRxQueues; BTxQueues] (Some [Some (RxVhost 0)], Some [Some (TxVhost 0)], λ q, q <| mb_pool := pool |>).

Definition rte_eth_from_vhost (register : string → Z) (nm : string) (index : Z) (iface : string) (numa : Z) (pool : option Z)
    (mem : memory) : VM Z :=
  '(port_id, _) ← rte_eth_from_vhost_create register pool nm index iface numa mem;
  if 0 <=? port_id then
    let ret := register iface in
    if ret <? 0 then mret ret else mret port_id
  else mret port_id.

(** ** Ports from EAL arguments, and removing a port *)

(** [strtol(s, NULL, 0)]: the base is that of the prefix. *)
Definition strtol0 (s : string) : Z :=
  let '(_, s1) := strip_sign (skip_space s) in
  let base := match s1 with
              | String c0 (String c1 s') =>
                  if code c0 =? 48 then (if ((code c1 =? 120) || (code c1 =? 88)) then 16 else 8) else 10
              | _ => 10
              end in
  fst (strtol s base).

Definition open_iface (key value : string) (iface : option string) : Z * option string := (0, Some value).

(** [errno_range]: whether [errno] is ERANGE after [strtol]; the code does not
    reset it before. *)
Definition rte_pmd_vhost_devinit (register : string → Z) (nm params : string) (malloc_ok strdup_ok errno_range : bool) (mem : memory)
    : VM Z :=
  kvlist ← vlift (rte_kvargs_parse params (Some valid_arguments) malloc_ok strdup_ok);
  match kvlist with
  | None => mret (-1)
  | Some kvlist =>
      if strlen nm <? strlen "eth_vhost" then mret (-1) else
      let index := i32 (strtol0 (String.substring (String.length "eth_vhost") (String.length nm) nm)) in
      if errno_range : bool then mret (-1) else
      if rte_kvargs_count kvlist (Some ETH_VHOST_IFACE_ARG) =? 1 then
        let '(ret, iface) := rte_kvargs_process kvlist (Some ETH_VHOST_IFACE_ARG) open_iface None in
        if ret <? 0 then mret ret else
        iface ← vlift iface;
        _ ← eth_dev_vhost_create register None nm index iface 0 mem;
        mret ret
      else mret 0
  end.

(** An element that is not in the list cannot be removed from it; the data
    that is freed must not be used any more. *)
Definition rte_pmd_vhost_devuninit (nm : option string) : VM Z :=
  match nm with
  | None => mret (- EINVAL)
  | Some nm =>
      eth_dev ← on_eth (rte_eth_dev_allocated nm);
      match eth_dev with
      | None => mret (- ENODEV)
      | Some pid =>
          _ ← get_internal pid;
          l ← (λ w : vhost, Some (internals_list w, w));
          _ ← vlift (if decide (pid ∈ l) then Some tt else None);
          _ ← vmodify (λ w, w <| internals_list := remove_first pid l |>);
          d ← on_eth (get_dev pid);
          _ ← on_eth (put_dev pid (d <| EthTable.data := DNull |>));
          _ ← on_eth (rte_eth_dev_release_port (Some pid));
          mret 0
      end
  end.

(** ** What holds between calls *)

Definition queues_ok (int : pmd_internal) : Prop :=
  int_nb_rx_queues int = 1 ∧ int_nb_tx_queues int = 1 ∧ length (rx_vhost_queues int) = 16%nat ∧ length (tx_vhost_queues int) = 16%nat.

(** Port [i] is one of this driver, with data [x] and internals [int]. *)
Record vhost_port (w : vhost) (i : nat) (d : rte_eth_dev pmd_internal queue_ptr) (x : vhost_data) (int : pmd_internal) : Prop := {
  vp_dev : rte_eth_devices (veth w) !! i = Some d; vp_attached : attached d = true; vp_data : EthTable.data d = DLocal x;
  vp_private : dev_private x = Some int; vp_name : dev_name int = name x; vp_queues : queues_ok int }.

(** The list holds pointers to structures of ports in use. *)
Record vhost_ok (w : vhost) : Prop := {
  vo_eth : eth_ok (veth w);
  vo_nodup : NoDup (internals_list w);
  vo_list : ∀ a, a ∈ internals_list w → ∃ i d x int, a = Z.of_nat i ∧ vhost_port w i d x int }.

Lemma port_data w i d x int : vhost_port w i d x int → data_of (veth w) (Z.of_nat i) = Some x.
Proof. intros []. unfold data_of. rewrite load_nat, vp_dev0. simpl. by rewrite vp_data0. Qed.
Lemma port_internal w i d x int : vhost_port w i d x int → internal_of w (Z.of_nat i) = Some int.
Proof. intros H. unfold internal_of. rewrite (port_data _ _ _ _ _ H). apply (vp_private _ _ _ _ _ H). Qed.

(** The world with the data of port [i] replaced. *)
Definition set_port (w : vhost) (i : nat) (d : rte_eth_dev pmd_internal queue_ptr) (x : vhost_data) : vhost :=
  w <| veth := (veth w) <| rte_eth_devices := <[i := d <| EthTable.data := DLocal x |>]> (rte_eth_devices (veth w)) |> |>.

Lemma on_eth_run {R} (m : EM R) w r e : m (veth w) = Some (r, e) → on_eth m w = Some (r, w <| veth := e |>).
Proof. intros H. unfold on_eth. by rewrite H. Qed.
Lemma vbind {R S} (m : VM R) (k : R → VM S) w x w' : m w = Some (x, w') → (m ≫= k) w = k x w'.
Proof. intros H. unfold mbind, VM_bind. by rewrite H. Qed.

Lemma put_data_local w i d x x' int : vhost_port w i d x int →
  on_eth (put_data (Z.of_nat i) x') w = Some (tt, set_port w i d x').
Proof.
  intros H. pose proof (lookup_lt_Some _ _ _ (vp_dev _ _ _ _ _ H)). erewrite on_eth_run; [done|].
  unfold put_data. rewrite load_nat, (vp_dev _ _ _ _ _ H). simpl. rewrite (vp_data _ _ _ _ _ H).
  rewrite store_in by lia. simpl. by rewrite Nat2Z.id.
Qed.
Lemma put_internal_run w i d x int int' : vhost_port w i d x int →
  put_internal (Z.of_nat i) int' w = Some (tt, set_port w i d (x <| dev_private := Some int' |>)).
Proof.
  intros H. unfold put_internal. pose proof (put_data_local w i d x (x <| dev_private := Some int' |>) int H) as E. unfold on_eth in *.
  rewrite (run_bind _ _ _ _ _ (run_get_data _ _ _ (port_data _ _ _ _ _ H))). exact E.
Qed.
Lemma set_link_run w i d x int v : vhost_port w i d x int →
  set_link (Z.of_nat i) v w = Some (tt, set_port w i d (x <| dev_link := (dev_link x) <| link_status := v |> |>)).
Proof.
  intros H. unfold set_link. pose proof (put_data_local w i d x (x <| dev_link := (dev_link x) <| link_status := v |> |>) int H) as E. unfold on_eth in *.
  rewrite (run_bind _ _ _ _ _ (run_get_data _ _ _ (port_data _ _ _ _ _ H))). exact E.
Qed.
Lemma get_internal_run w i d x int : vhost_port w i d x int → get_internal (Z.of_nat i) w = Some (int, w).
Proof. intros H. unfold get_internal. by rewrite (port_internal _ _ _ _ _ H). Qed.

Lemma set_port_eth w i d x int x' : eth_ok (veth w) → vhost_port w i d x int → name x' = name x → port_id x' = port_id x →
  eth_ok (veth (set_port w i d x')) ∧ view (veth (set_port w i d x')) = view (veth w).
Proof.
  intros Hok H Hn Hp. pose proof (vp_dev _ _ _ _ _ H) as Hd. pose proof (vp_attached _ _ _ _ _ H) as Ha.
  destruct (ok_data _ Hok _ _ Hd Ha) as (y & Hy & Hpy). rewrite (port_data _ _ _ _ _ H) in Hy. injection Hy as <-.
  by destruct (own_data_ok (veth w) i d (d <| EthTable.data := DLocal x' |>) x' x Hok Hd Ha) as (H1 & H2 & _);
    [done|done|by eapply port_data|done|congruence|].
Qed.

Lemma set_port_at w i d x int x' int' : vhost_port w i d x int → name x' = name x → dev_private x' = Some int' →
  dev_name int' = dev_name int → queues_ok int' → vhost_port (set_port w i d x') i (d <| EthTable.data := DLocal x' |>) x' int'.
Proof.
  intros [Hd Ha Hx Hi Hn Hq] Hn' Hi' Hdn Hq'. split; simpl; try done; [|congruence].
  apply list_lookup_insert_eq. by eapply lookup_lt_Some.
Qed.
Lemma set_port_other w i d x j dj xj intj : j ≠ i → vhost_port w j dj xj intj → vhost_port (set_port w i d x) j dj xj intj.
Proof. intros Hne [Hd Ha Hx Hi Hn Hq]. split; simpl; try done. by rewrite list_lookup_insert_ne. Qed.
Lemma port_unique w i d d' x x' int int' : vhost_port w i d x int → vhost_port w i d' x' int' → d' = d ∧ x' = x ∧ int' = int.
Proof. intros [] []. split_and!; congruence. Qed.

Lemma set_port_ok w i d x int x' int' : vhost_ok w → vhost_port w i d x int → name x' = name x → port_id x' = port_id x →
  dev_private x' = Some int' → dev_name int' = dev_name int → queues_ok int' → vhost_ok (set_port w i d x').
Proof.
  intros [He Hnd Hl] H Hn Hp Hi' Hdn Hq'. split; [by eapply set_port_eth|done|].
  intros a Ha. destruct (Hl a Ha) as (j & dj & xj & intj & -> & Hj). destruct (decide (j = i)) as [->|Hne].
  - eexists i, _, _, _. split; [done|]. by eapply set_port_at.
  - eexists j, _, _, _. split; [done|]. by apply set_port_other.
Qed.

(** Nothing but the ports and the list matters. *)
Lemma vhost_port_ext w w' i d x int : veth w' = veth w → vhost_port w i d x int → vhost_port w' i d x int.
Proof. intros E []. split; try done. by rewrite E. Qed.
Lemma vhost_ok_ext w w' : veth w' = veth w → internals_list w' = internals_list w → vhost_ok w → vhost_ok w'.
Proof.
  intros E1 E2 [H1 H2 H3]. split; [by rewrite E1|by rewrite E2|]. rewrite E2. intros a Ha.
  destruct (H3 a Ha) as (i & d & x & int & -> & Hp). eexists i, _, _, _. split; [done|]. by eapply vhost_port_ext.
Qed.

(** ** Finding the port of a guest *)

Definition has_iface (w : vhost) (nm : string) (a : Z) : Prop := iface_name <$> internal_of w a = Some nm.
#[export] Instance has_iface_dec w nm a : Decision (has_iface w nm a).
Proof. unfold has_iface. apply _. Defined.

Lemma find_in_run w l nm : (∀ a, a ∈ l → is_Some (internal_of w a)) → find_in w l nm = Some (head (filter (has_iface w nm) l)).
Proof.
  induction l as [|a l IH]; intros Hl; [done|]. cbn [find_in]. destruct (Hl a ltac:(by left)) as [int Hi]. rewrite Hi. cbn [mbind option_bind].
  rewrite filter_cons. unfold strcmp_eq. destruct (String.eqb_spec (iface_name int) nm) as [<-|Hne].
  - rewrite decide_True; [done|]. unfold has_iface. by rewrite Hi.
  - rewrite decide_False by (unfold has_iface; rewrite Hi; simpl; congruence). apply IH. intros b Hb. apply Hl. by right.
Qed.
Lemma find_resource_run w nm : vhost_ok w →
  find_internal_resource (Some nm) w = Some (head (filter (has_iface w nm) (internals_list w)), w).
Proof.
  intros Hok. unfold find_internal_resource. rewrite find_in_run; [done|]. intros a Ha.
  destruct (vo_list _ Hok a Ha) as (i & d & x & int & -> & Hp). exists int. by eapply port_internal.
Qed.

Lemma allocated_port w i d x int : eth_ok (veth w) → vhost_port w i d x int →
  on_eth (rte_eth_dev_allocated (dev_name int)) w = Some (Some (Z.of_nat i), w).
Proof.
  intros Hok H. erewrite on_eth_run by (by apply allocated_view). assert (w <| veth := veth w |> = w) as -> by by destruct w.
  do 2 f_equal. assert (view (veth w) !! i = Some (Some (dev_name int))) as Hv.
  { rewrite view_lookup, (vp_dev _ _ _ _ _ H). simpl. rewrite (vp_attached _ _ _ _ _ H), (port_data _ _ _ _ _ H). simpl. by rewrite (vp_name _ _ _ _ _ H). }
  destruct (list_find (λ y, y = Some (dev_name int)) (view (veth w))) as [[k y]|] eqn:E.
  - apply list_find_Some in E as (Hk & -> & _). simpl. do 2 f_equal. by apply (ok_names _ Hok k i (dev_name int)).
  - eapply list_find_None, Forall_lookup_1 in E; [|exact Hv]. done.
Qed.

(** ** Connecting and disconnecting *)

Lemma set_port_twice w i d x1 x2 : set_port (set_port w i d x1) i (d <| EthTable.data := DLocal x1 |>) x2 = set_port w i d x2.
Proof. unfold set_port. simpl. by rewrite list_insert_insert_eq. Qed.

Definition attach (dev : Z) (q : vhost_queue) : vhost_queue := q <| device := Some dev |> <| internal := true |>.
Definition detach (q : vhost_queue) : vhost_queue := q <| device := None |>.
Definition all_queues (f : vhost_queue → vhost_queue) (int : pmd_internal) : pmd_internal :=
  int <| rx_vhost_queues := each_queue f (int_nb_rx_queues int) (rx_vhost_queues int) |>
      <| tx_vhost_queues := each_queue f (int_nb_tx_queues int) (tx_vhost_queues int) |>.
Lemma all_queues_ok f int : queues_ok int → queues_ok (all_queues f int).
Proof. intros (H1 & H2 & H3 & H4). unfold queues_ok, all_queues, each_queue. simpl. by rewrite !reset_length. Qed.

(** The data of a port that is connected to [dev], or no longer connected. *)
Definition connected (dev : Z) (x : vhost_data) (int : pmd_internal) : vhost_data :=
  x <| dev_private := Some ((all_queues (attach dev) int) <| xfer := 1 |>) |> <| dev_link := (dev_link x) <| link_status := 1 |> |>.
Definition disconnected (x : vhost_data) (int : pmd_internal) : vhost_data :=
  x <| dev_private := Some ((all_queues detach int) <| xfer := 0 |>) |> <| dev_link := (dev_link x) <| link_status := 0 |> |>.
Definition with_virtio (w : vhost) (dev : Z) (v : virtio_net) : vhost := w <| devices := <[dev := v]> (devices w) |>.

Lemma new_device_run w dev v i d x int : vhost_ok w → devices w !! dev = Some v →
  head (filter (has_iface w (ifname v)) (internals_list w)) = Some (Z.of_nat i) → vhost_port w i d x int →
  new_device (Some dev) w = Some (0, with_virtio (set_port w i d (connected dev x int)) dev
    (v <| vflags := Z.lor (vflags v) VIRTIO_DEV_RUNNING |> <| priv := Some (Z.of_nat i) |>)).
Proof.
  intros Hok Hv Hf H. unfold new_device. erewrite vbind by (unfold get_virtio; by rewrite Hv).
  erewrite vbind by (by apply find_resource_run). rewrite Hf. cbv beta iota. erewrite vbind by (by eapply get_internal_run).
  erewrite vbind by (by eapply allocated_port; [apply vo_eth|]). cbv beta iota. erewrite vbind by (by eapply get_internal_run).
  erewrite vbind by (by eapply put_internal_run). erewrite vbind by (unfold put_virtio, vmodify; done).
  set (x1 := x <| dev_private := _ |>). set (w1 := (set_port w i d x1) <| devices := _ |>).
  assert (vhost_port w1 i (d <| EthTable.data := DLocal x1 |>) x1 (all_queues (attach dev) int)) as H1.
  { eapply vhost_port_ext; [|eapply set_port_at; [exact H|done..|]]; [done|]. apply all_queues_ok. apply H. }
  erewrite vbind by (by eapply set_link_run). set (x2 := x1 <| dev_link := _ |>).
  assert (vhost_port (set_port w1 i (d <| EthTable.data := DLocal x1 |>) x2) i (d <| EthTable.data := DLocal x1 |> <| EthTable.data := DLocal x2 |>) x2
    (all_queues (attach dev) int)) as H2.
  { eapply set_port_at; [exact H1|done..|]. apply H1. }
  erewrite vbind by (by eapply get_internal_run). erewrite vbind by (by eapply put_internal_run). unfold mret, VM_ret.
  rewrite set_port_twice. unfold w1, set_port, with_virtio. simpl. rewrite list_insert_insert_eq. done.
Qed.

Lemma destroy_device_run w dev v i d x int : devices w !! dev = Some v → priv v = Some (Z.of_nat i) → vhost_port w i d x int →
  all_zero rx_executing (int_nb_rx_queues int) (rx_vhost_queues int) = Some tt →
  all_zero tx_executing (int_nb_tx_queues int) (tx_vhost_queues int) = Some tt →
  destroy_device (Some dev) w = Some (tt, with_virtio (set_port w i d (disconnected x int)) dev
    (v <| priv := None |> <| vflags := Z.land (vflags v) (Z.lnot VIRTIO_DEV_RUNNING) |>)).
Proof.
  intros Hv Hp H Hrx Htx. unfold destroy_device. erewrite vbind by (unfold get_virtio; by rewrite Hv). rewrite Hp.
  erewrite vbind by (by eapply get_internal_run). erewrite vbind by (by eapply put_internal_run).
  erewrite vbind by (unfold vlift; by rewrite Hrx). erewrite vbind by (unfold vlift; by rewrite Htx).
  set (x1 := x <| dev_private := _ |>).
  assert (vhost_port (set_port w i d x1) i (d <| EthTable.data := DLocal x1 |>) x1 (int <| xfer := 0 |>)) as H1.
  { eapply set_port_at; [exact H|done..|]. apply H. }
  erewrite vbind by (by eapply set_link_run). set (x2 := x1 <| dev_link := _ |>). rewrite set_port_twice.
  erewrite vbind by (unfold put_virtio, vmodify; done). set (w2 := (set_port w i d x2) <| devices := _ |>).
  assert (vhost_port w2 i (d <| EthTable.data := DLocal x2 |>) x2 (int <| xfer := 0 |>)) as H2.
  { eapply vhost_port_ext; [|eapply set_port_at; [exact H|done..|]]; [done|]. apply H. }
  erewrite vbind by (by eapply get_internal_run). erewrite put_internal_run by (exact H2).
  unfold w2, set_port, with_virtio. simpl. rewrite list_insert_insert_eq. done.
Qed.

(** ** Making ports *)

(** Ports of the driver stay when the table changes elsewhere. *)
Lemma vhost_ok_frame w e : vhost_ok w → eth_ok e →
  (∀ j, Z.of_nat j ∈ internals_list w → rte_eth_devices e !! j = rte_eth_devices (veth w) !! j) → vhost_ok (w <| veth := e |>).
Proof.
  intros [H1 H2 H3] He Hf. split; [done|done|]. intros a Ha. destruct (H3 a Ha) as (i & d & x & int & -> & Hp).
  eexists i, d, x, int. split; [done|]. destruct Hp. split; try done. simpl. by rewrite Hf.
Qed.
Lemma listed_in_use w i : vhost_ok w → Z.of_nat i ∈ internals_list w → ∃ nm, view (veth w) !! i = Some (Some nm).
Proof.
  intros Hok Hin. destruct (vo_list _ Hok _ Hin) as (j & d & x & int & E & Hp). assert (j = i) as -> by lia. exists (name x).
  rewrite view_lookup, (vp_dev _ _ _ _ _ Hp). simpl. by rewrite (vp_attached _ _ _ _ _ Hp), (port_data _ _ _ _ _ Hp).
Qed.
Lemma allocated_free t nm i : fst (spec_allocate t nm) = Some i → t !! i = Some None ∧ snd (spec_allocate t nm) = <[i := Some nm]> t.
Proof.
  unfold spec_allocate. destruct (list_find _ t) as [[k o]|] eqn:E; [|done]. apply list_find_Some in E as (Hk & -> & _).
  case_decide; [done|]. by intros [= ->].
Qed.
Lemma allocated_none t nm : fst (spec_allocate t nm) = None → snd (spec_allocate t nm) = t.
Proof. unfold spec_allocate. destruct (list_find _ t) as [[k o]|]; [|done]. by case_decide. Qed.

Section create.
Context (register : string → Z) (pool : option Z) (before : list block).
Context (rxq txq : option (list (option queue_ptr))) (set : vhost_queue → vhost_queue).
Context (nm iface : string) (index numa : Z) (mem : memory).
Notation create := (vhost_create register pool before (rxq, txq, set) nm index iface numa mem).
Definition all_allocated : bool := fst (allocate mem (BData :: before ++ [BPci; BInternal; BAddr]) []).

(** A port just made. *)
Definition fresh_port (w : vhost) (i : nat) : Prop := ∃ d x int, vhost_port w i d x int ∧
  name x = nm ∧ port_id x = Z.of_nat i ∧ iface_name int = iface ∧ xfer int = 0 ∧ link_status (dev_link x) = 0 ∧
  rx_queues x = rxq ∧ tx_queues x = txq ∧ mac_addrs x = Some [[86; 72; 79; 83; 84; u8 index]] ∧
  rx_vhost_queues int !! 0%nat = Some (set zero_queue) ∧ tx_vhost_queues int !! 0%nat = Some (set zero_queue).

Lemma create_no_memory w : all_allocated = false → ∃ live, create w = Some ((-1, live), w) ∧ ∀ b, b ∈ live → b ∈ before.
Proof.
  intros Ha. unfold vhost_create, all_allocated in *.
  assert (∀ bs live, let r := allocate mem bs live in ∀ b, b ∈ snd r → b ∈ bs ∨ b ∈ live) as Hin.
  { induction bs as [|c bs IH]; intros live r b Hb; simpl in *; [by right|]. subst r. destruct (mem c); [|by right].
    apply IH in Hb. set_solver. }
  specialize (Hin (BData :: before ++ [BPci; BInternal; BAddr]) []). cbv zeta in Hin.
  destruct (allocate mem (BData :: before ++ [BPci; BInternal; BAddr]) []) as [ok live] eqn:E. cbn [fst snd] in *. subst ok.
  eexists. split; [done|]. intros b Hb. apply list_elem_of_filter in Hb as [Hb1 Hb2]. apply Hin in Hb2. set_solver.
Qed.

Lemma vhost_create_run w : vhost_ok w → strlen nm < RTE_ETH_NAME_MAX_LEN → all_allocated = true →
  ∃ ret live w', create w = Some ((ret, live), w') ∧ vhost_ok w' ∧ devices w' = devices w ∧
    (∀ j, Z.of_nat j ∈ internals_list w → rte_eth_devices (veth w') !! j = rte_eth_devices (veth w) !! j) ∧
    match fst (spec_allocate (view (veth w)) nm) with
    | None => ret = -1 ∧ view (veth w') = view (veth w) ∧ internals_list w' = internals_list w
    | Some i =>
        view (veth w') = <[i := Some nm]> (view (veth w)) ∧
        if mem BDevName && mem BIfaceName
        then ret = Z.of_nat i ∧ internals_list w' = internals_list w ++ [Z.of_nat i] ∧ session_started w' = true ∧ fresh_port w' i
        else ret = -1 ∧ internals_list w' = internals_list w
    end.
Proof.
  intros Hok Hnm Ha. unfold vhost_create, all_allocated in *.
  destruct (allocate mem (BData :: before ++ [BPci; BInternal; BAddr]) []) as [ok live]. cbn [fst] in Ha. subst ok. cbn [negb].
  destruct (allocate_refines_frame (veth w) nm RTE_ETH_DEV_VIRTUAL (vo_eth _ Hok) Hnm) as (e & Ea & Hv & He & Hfr).
  erewrite vbind by (by apply on_eth_run). destruct (fst (spec_allocate (view (veth w)) nm)) as [i|] eqn:Es; cbn [fmap option_fmap option_map].
  2: { eexists _, _, _. split; [done|]. split; [apply vhost_ok_frame; [done|done|]; intros j _; by apply Hfr|]. simpl.
       rewrite Hv. rewrite allocated_none by done. split_and!; [done| |done..]. intros j _. by apply Hfr. }
  destruct (allocated_free _ _ _ Es) as [Hfree Hsnd]. rewrite Hsnd in Hv.
  assert (Z.of_nat i ∉ internals_list w) as Hni by (intros Hin; destruct (listed_in_use w i Hok Hin) as [? ?]; congruence).
  assert (vhost_ok (w <| veth := e |>)) as Hok1.
  { apply vhost_ok_frame; [done|done|]. intros j Hj. apply Hfr. intros [= ->]. done. }
  assert (∀ j, Z.of_nat j ∈ internals_list w → rte_eth_devices e !! j = rte_eth_devices (veth w) !! j) as Hfr1.
  { intros j Hj. apply Hfr. intros [= ->]. done. }
  destruct (mem BDevName); cbn [negb andb]; [|by eexists _, _, _].
  destruct (mem BIfaceName); cbn [negb andb]; [|by eexists _, _, _].
  set (w1 := w <| veth := e |>) in *. erewrite vbind by (by unfold vmodify).
  assert (∃ d old, rte_eth_devices e !! i = Some d ∧ attached d = true ∧ data_of e (Z.of_nat i) = Some old ∧ port_id old = Z.of_nat i ∧ name old = nm)
    as (d & old & Hd & Hat & Hold & Hpid & Hname).
  { assert (view e !! i = Some (Some nm)) as Hvi by (rewrite Hv; apply list_lookup_insert_eq; by eapply lookup_lt_Some).
    rewrite view_lookup in Hvi. apply fmap_Some in Hvi as (d & Hd & Hdn). destruct (attached d) eqn:Hat; [|done].
    destruct (ok_data _ He _ _ Hd Hat) as (old & Hold & Hp). rewrite Hold in Hdn. simpl in Hdn. injection Hdn as Hn. by exists d, old. }
  erewrite vbind by (apply on_eth_run, run_get_data; exact Hold). erewrite vbind by (apply on_eth_run, run_get_dev; exact Hd).
  match goal with |- context [DLocal ?y] => set (x := y) end. match goal with |- context [put_dev _ ?y] => set (d' := y) end.
  erewrite vbind by (apply on_eth_run, run_put_dev; by eapply lookup_lt_Some). erewrite vbind by (by unfold vmodify).
  eexists _, _, _. split; [done|]. rewrite Hpid.
  destruct (own_data_ok e i d d' x old He Hd Hat) as (He2 & Hv2 & Hx & Hoth); [done..|].
  assert (∀ w', veth w' = e <| rte_eth_devices := <[i := d']> (rte_eth_devices e) |> →
    vhost_port w' i d' x (default zero_internal (dev_private x))) as Hnew.
  { intros w' Ew. split; try done.
    rewrite Ew. simpl. apply list_lookup_insert_eq. by eapply lookup_lt_Some. }
  split_and!; [|done| |by rewrite <- Hv|done|done|done|].
  2: { intros j Hj. rewrite <- Hfr1 by done. apply Hoth. by intros ->. }
  - split; [done| |].
    + simpl. apply NoDup_app. split_and!; [apply Hok|by intros a Ha ->%list_elem_of_singleton|apply NoDup_singleton].
    + simpl. intros a Ha. apply elem_of_app in Ha as [Ha| ->%list_elem_of_singleton].
      * destruct (vo_list _ Hok1 a Ha) as (j & dj & xj & intj & -> & Hj). eexists j, _, _, _. split; [done|].
        destruct Hj as [Hj ? ? ? ? ?]. split; try done. simpl. destruct (Hoth j) as [Ej _]; [by intros ->|]. simpl in Ej. rewrite Ej. exact Hj.
      * eexists i, _, _, _. split; [done|]. by apply Hnew.
  - eexists _, _, _. split; [by apply Hnew|]. simpl. split_and!; try done.
Qed.
End create.

(** [rte_eth_from_vhost] makes the first free port a port of the socket: with
    its name, one receive and one transmit queue on the given pool, the link
    down, and on the list by which guests find it. When the name is in use, all
    32 ports are or there is no memory for the structures, it returns -1 and
    the table is as before. When the socket cannot be registered its error is
    returned, and when a name cannot be copied, -1; in both cases the port
    stays in use. *)
Theorem from_vhost_correct register nm index iface numa pool mem w (Hok : vhost_ok w) (Hnm : strlen nm < RTE_ETH_NAME_MAX_LEN) :
  let enough := forallb mem [BData; BRxQueues; BTxQueues; BPci; BInternal; BAddr] in
  ∃ ret w', rte_eth_from_vhost register nm index iface numa pool mem w = Some (ret, w') ∧ vhost_ok w' ∧
    match (if enough then fst (spec_allocate (view (veth w)) nm) else None) with
    | None => ret = -1 ∧ view (veth w') = view (veth w) ∧ internals_list w' = internals_list w
    | Some i =>
        view (veth w') = <[i := Some nm]> (view (veth w)) ∧
        if mem BDevName && mem BIfaceName
        then ret = (if register iface <? 0 then register iface else Z.of_nat i) ∧
          internals_list w' = internals_list w ++ [Z.of_nat i] ∧
          fresh_port (Some [Some (RxVhost 0)]) (Some [Some (TxVhost 0)]) (λ q, q <| mb_pool := pool |>) nm iface index w' i
        else ret = -1 ∧ internals_list w' = internals_list w
    end.
Proof.
  intros enough. unfold rte_eth_from_vhost, rte_eth_from_vhost_create. set (before := [BRxQueues; BTxQueues]).
  assert (all_allocated before mem = enough) as Ha.
  { unfold all_allocated, enough. simpl. by destruct (mem BData), (mem BRxQueues), (mem BTxQueues), (mem BPci), (mem BInternal), (mem BAddr). }
  destruct enough.
  - destruct (vhost_create_run register pool before (Some [Some (RxVhost 0)]) (Some [Some (TxVhost 0)]) (λ q, q <| mb_pool := pool |>)
      nm iface index numa mem w Hok Hnm Ha) as (ret & live & w' & E & Hok' & _ & _ & H).
    erewrite vbind by exact E. cbv beta iota. exists (if 0 <=? ret then if register iface <? 0 then register iface else ret else ret), w'.
    split; [by destruct (0 <=? ret); [destruct (register iface <? 0)|]|]. split; [done|].
    destruct (fst (spec_allocate (view (veth w)) nm)) as [i|]; [|by destruct H as (-> & ?)]. destruct H as [Hv H]. split; [done|].
    destruct (mem BDevName && mem BIfaceName).
    + destruct H as (-> & ? & _ & ?). destruct (Z.leb_spec 0 (Z.of_nat i)); [done|lia].
    + by destruct H as (-> & ?).
  - destruct (create_no_memory register pool before (Some [Some (RxVhost 0)]) (Some [Some (TxVhost 0)]) (λ q, q <| mb_pool := pool |>)
      nm iface index numa mem w Ha) as (live & E & _).
    erewrite vbind by exact E. by exists (-1), w.
Qed.

(** ** A guest comes and goes *)
Lemma each_queue_0 f qs : each_queue f 1 qs !! 0%nat = f <$> qs !! 0%nat.
Proof. by destruct qs. Qed.

(** No lcore is in a burst. *)
Definition quiet (int : pmd_internal) : Prop :=
  (∀ q, rx_vhost_queues int !! 0%nat = Some q → rx_executing q = 0) ∧ (∀ q, tx_vhost_queues int !! 0%nat = Some q → tx_executing q = 0).
(** The port as the applications see it: connected to [dev] or not. *)
Definition serves (w : vhost) (i : nat) (dev : option Z) (rq tq : vhost_queue) : Prop := ∃ d x int, vhost_port w i d x int ∧
  rx_vhost_queues int !! 0%nat = Some rq ∧ tx_vhost_queues int !! 0%nat = Some tq ∧ device rq = dev ∧ device tq = dev ∧
  link_status (dev_link x) = c_bool (bool_decide (is_Some dev)) ∧ xfer int = c_bool (bool_decide (is_Some dev)) ∧
  (dev = None → ∀ burst n, eth_vhost_rx burst int rq n = Some (0, rq) ∧ eth_vhost_tx burst int tq n = Some (0, tq)) ∧
  (∀ g, dev = Some g → ∀ burst n, ∃ rq' tq', eth_vhost_rx burst int rq n = Some (u16 (burst g n), rq') ∧
     eth_vhost_tx burst int tq n = Some (u16 (burst g n), tq') ∧ rx_pkts rq' = u64 (rx_pkts rq + u16 (burst g n)) ∧
     tx_pkts tq' = u64 (tx_pkts tq + u16 (burst g n)) ∧ err_pkts tq' = u64 (err_pkts tq + (n - u16 (burst g n)))).

Lemma head_filter_port w nm a : vhost_ok w → head (filter (has_iface w nm) (internals_list w)) = Some a →
  ∃ i d x int, a = Z.of_nat i ∧ vhost_port w i d x int ∧ iface_name int = nm.
Proof.
  intros Hok Hf. apply head_Some_elem_of, list_elem_of_filter in Hf as [Hi Hin].
  destruct (vo_list _ Hok a Hin) as (i & d & x & int & -> & Hp). exists i, d, x, int. split_and!; [done|done|].
  unfold has_iface in Hi. rewrite (port_internal _ _ _ _ _ Hp) in Hi. by injection Hi.
Qed.

Lemma port_queues int : queues_ok int → ∃ rq tq, rx_vhost_queues int !! 0%nat = Some rq ∧ tx_vhost_queues int !! 0%nat = Some tq.
Proof.
  intros (_ & _ & H1 & H2). destruct (lookup_lt_is_Some_2 (rx_vhost_queues int) 0) as [rq ?]; [lia|].
  destruct (lookup_lt_is_Some_2 (tx_vhost_queues int) 0) as [tq ?]; [lia|]. by exists rq, tq.
Qed.

(** The port after a change of its data by a callback. *)
Lemma callback_port w i d x int x' int' dev v' : vhost_ok w → vhost_port w i d x int → name x' = name x → port_id x' = port_id x →
  dev_private x' = Some int' → dev_name int' = dev_name int → queues_ok int' →
  let w' := with_virtio (set_port w i d x') dev v' in
  vhost_ok w' ∧ view (veth w') = view (veth w) ∧ vhost_port w' i (d <| EthTable.data := DLocal x' |>) x' int' ∧
  ∀ j, j ≠ i → rte_eth_devices (veth w') !! j = rte_eth_devices (veth w) !! j.
Proof.
  intros Hok H Hn Hp Hi Hd Hq w'. split_and!.
  - eapply vhost_ok_ext; [..|by eapply set_port_ok]; done.
  - by eapply set_port_eth; [apply Hok|..].
  - eapply vhost_port_ext; [|by eapply set_port_at]. done.
  - intros j Hj. simpl. by rewrite list_lookup_insert_ne.
Qed.

Lemma serves_connected w i d x int dev rq tq : vhost_port w i d (connected dev x int) ((all_queues (attach dev) int) <| xfer := 1 |>) →
  queues_ok int → rx_vhost_queues int !! 0%nat = Some rq → tx_vhost_queues int !! 0%nat = Some tq →
  serves w i (Some dev) (attach dev rq) (attach dev tq).
Proof.
  intros H (N1 & N2 & _) Hr Ht. eexists _, _, _. split; [exact H|]. simpl. rewrite N1, N2, !each_queue_0, Hr, Ht.
  split_and!; try done. intros g [= <-] burst n. by eexists _, _.
Qed.
Lemma serves_disconnected w i d x int rq tq : vhost_port w i d (disconnected x int) ((all_queues detach int) <| xfer := 0 |>) →
  queues_ok int → rx_vhost_queues int !! 0%nat = Some rq → tx_vhost_queues int !! 0%nat = Some tq →
  serves w i None (detach rq) (detach tq).
Proof.
  intros H (N1 & N2 & _) Hr Ht. eexists _, _, _. split; [exact H|]. simpl. rewrite N1, N2, !each_queue_0, Hr, Ht.
  split_and!; try done. intros _ burst n. unfold eth_vhost_rx, eth_vhost_tx. simpl. by destruct (internal rq), (internal tq).
Qed.

Lemma quiet_zero int : queues_ok int → quiet int →
  all_zero rx_executing (int_nb_rx_queues int) (rx_vhost_queues int) = Some tt ∧
  all_zero tx_executing (int_nb_tx_queues int) (tx_vhost_queues int) = Some tt.
Proof.
  intros (-> & -> & H1 & H2) [Q1 Q2]. unfold all_zero.
  destruct (rx_vhost_queues int) as [|rq rqs]; [done|]. destruct (tx_vhost_queues int) as [|tq tqs]; [done|].
  change (Z.to_nat 1) with 1%nat. cbn [take forallb]. by rewrite (Q1 rq eq_refl), (Q2 tq eq_refl).
Qed.
Lemma quiet_attach dev int : queues_ok int → quiet int → quiet ((all_queues (attach dev) int) <| xfer := 1 |>).
Proof.
  intros (N1 & N2 & _) [Q1 Q2]. unfold quiet. simpl. rewrite N1, N2, !each_queue_0.
  split; intros q Hq; apply fmap_Some in Hq as (q0 & Hq0 & ->); simpl; auto.
Qed.

(** C30: When a guest connects to a socket, the port made for it (the first one, if
    there are several) comes up: both its queues move packets to and from that
    guest and count them; every other port stays as it is. When the guest
    leaves, the link goes down, and from then on a burst on the port moves
    nothing and does not enter the vhost library. A guest on a socket no port
    was made for is refused. *)
Theorem vhost_connect w dev v (Hok : vhost_ok w) (Hv : devices w !! dev = Some v) :
  match head (filter (has_iface w (ifname v)) (internals_list w)) with
  | None => new_device (Some dev) w = Some (-1, w)
  | Some a => ∃ i rq tq w1, a = Z.of_nat i ∧ new_device (Some dev) w = Some (0, w1) ∧ vhost_ok w1 ∧
      view (veth w1) = view (veth w) ∧ serves w1 i (Some dev) rq tq ∧
      (∀ j, j ≠ i → rte_eth_devices (veth w1) !! j = rte_eth_devices (veth w) !! j) ∧
      ((∀ int, internal_of w a = Some int → quiet int) → ∃ rq' tq' w2, destroy_device (Some dev) w1 = Some (tt, w2) ∧ vhost_ok w2 ∧
        view (veth w2) = view (veth w) ∧ serves w2 i None rq' tq' ∧ priv <$> devices w2 !! dev = Some None ∧
        (∀ j, j ≠ i → rte_eth_devices (veth w2) !! j = rte_eth_devices (veth w) !! j))
  end.
Proof.
  destruct (head (filter (has_iface w (ifname v)) (internals_list w))) as [a|] eqn:Hf.
  2: { unfold new_device. erewrite vbind by (unfold get_virtio; by rewrite Hv). erewrite vbind by (by apply find_resource_run). by rewrite Hf. }
  destruct (head_filter_port _ _ _ Hok Hf) as (i & d & x & int & -> & H & Hi). pose proof (vp_queues _ _ _ _ _ H) as Hq.
  destruct (port_queues int Hq) as (rq & tq & Hr & Ht). set (int1 := (all_queues (attach dev) int) <| xfer := 1 |>).
  assert (queues_ok int1) as Hq1 by (by apply all_queues_ok).
  pose proof (new_device_run w dev v i d x int Hok Hv Hf H) as E1. set (v1 := v <| vflags := _ |> <| priv := _ |>) in E1.
  destruct (callback_port w i d x int (connected dev x int) int1 dev v1 Hok H) as (Hok1 & Hv1 & H1 & Hf1); try done.
  set (w1 := with_virtio (set_port w i d (connected dev x int)) dev v1) in *.
  eexists i, _, _, w1. split_and!; [done|done|done|done|by eapply serves_connected|done|]. intros Hquiet.
  destruct (quiet_zero int1 Hq1) as [Z1 Z2]; [apply quiet_attach; [done|]; apply Hquiet; by eapply port_internal|].
  assert (devices w1 !! dev = Some v1) as Hd1 by apply lookup_insert_eq.
  pose proof (destroy_device_run w1 dev v1 i _ _ int1 Hd1 eq_refl H1 Z1 Z2) as E2. set (v2 := v1 <| priv := _ |> <| vflags := _ |>) in E2.
  destruct (callback_port w1 i _ _ int1 (disconnected (connected dev x int) int1) ((all_queues detach int1) <| xfer := 0 |>) dev v2 Hok1 H1)
    as (Hok2 & Hv2 & H2 & Hf2); try done; [by apply all_queues_ok|].
  destruct (port_queues int1 Hq1) as (rq1 & tq1 & Hr1 & Ht1).
  eexists _, _, _. split; [exact E2|]. split_and!; [done|by rewrite Hv2|by eapply serves_disconnected| |].
  - simpl. by rewrite lookup_insert_eq.
  - intros j Hj. rewrite Hf2, Hf1 by done. done.
Qed.

(** ** Examples *)
Definition demo_vhost : vhost := Vhost (eth_init true (replicate 32 zero_data)) [] {[7 := Virtio "/tmp/sock0" 0 None]} false.
Lemma demo_vhost_ok : vhost_ok demo_vhost.
Proof. split; [by apply eth_init_ok|apply NoDup_nil_2|]. intros a Ha. by apply elem_of_nil in Ha. Qed.

Lemma from_vhost_correct_witness :
  ∃ w', rte_eth_from_vhost (λ _, 0) "eth_vhost0" 0 "/tmp/sock0" 0 (Some 3) (λ _, true) demo_vhost = Some (0, w') ∧ vhost_ok w' ∧ internals_list w' = [0].
Proof.
  destruct (from_vhost_correct (λ _, 0) "eth_vhost0" 0 "/tmp/sock0" 0 (Some 3) (λ _, true) demo_vhost demo_vhost_ok eq_refl)
    as (ret & w' & E & Hok & H).
  simpl in H. destruct H as (_ & -> & Hl & _). exists w'. split; [exact E|]. split; [exact Hok|exact Hl].
Defined.

Definition demo_port_world : vhost :=
  default demo_vhost (snd <$> rte_eth_from_vhost (λ _, 0) "eth_vhost0" 0 "/tmp/sock0" 0 (Some 3) (λ _, true) demo_vhost).
Lemma demo_port_world_ok : vhost_ok demo_port_world ∧ devices demo_port_world !! 7 = Some (Virtio "/tmp/sock0" 0 None) ∧
  head (filter (has_iface demo_port_world "/tmp/sock0") (internals_list demo_port_world)) = Some 0 ∧
  ∀ int, internal_of demo_port_world 0 = Some int → quiet int.
Proof.
  destruct (vhost_create_run (λ _, 0) (Some 3) [BRxQueues; BTxQueues] (Some [Some (RxVhost 0)]) (Some [Some (TxVhost 0)]) (λ q, q <| mb_pool := Some 3 |>)
    "eth_vhost0" "/tmp/sock0" 0 0 (λ _, true) demo_vhost demo_vhost_ok eq_refl eq_refl) as (ret & live & w' & E & Hok & Hd & _ & H).
  simpl in H. destruct H as (_ & -> & Hl & _ & d & x & int & Hp & _ & _ & Hi & _ & _ & _ & _ & _ & Hr & Ht).
  assert (demo_port_world = w') as ->.
  { unfold demo_port_world, rte_eth_from_vhost, rte_eth_from_vhost_create. erewrite vbind by exact E. done. }
  split_and!; [done|by rewrite Hd| |].
  - rewrite Hl. cbn [internals_list demo_vhost app]. rewrite filter_cons, decide_True; [done|]. unfold has_iface.
    change 0 with (Z.of_nat 0). by rewrite (port_internal _ _ _ _ _ Hp), <- Hi.
  - intros int' Hint'. change 0 with (Z.of_nat 0) in Hint'. rewrite (port_internal _ _ _ _ _ Hp) in Hint'. injection Hint' as <-.
    split; intros q Hq; [rewrite Hr in Hq|rewrite Ht in Hq]; by injection Hq as <-.
Qed.
Lemma vhost_connect_witness :
  ∃ w1 w2, new_device (Some 7) demo_port_world = Some (0, w1) ∧ destroy_device (Some 7) w1 = Some (tt, w2) ∧
    (∃ rq tq, serves w1 0 (Some 7) rq tq) ∧ ∃ rq tq, serves w2 0 None rq tq.
Proof.
  destruct demo_port_world_ok as (Hok & Hv & Hf & Hq).
  pose proof (vhost_connect demo_port_world 7 (Virtio "/tmp/sock0" 0 None) Hok Hv) as H. cbn [ifname] in H. rewrite Hf in H.
  destruct H as (i & rq & tq & w1 & Hi & E1 & _ & _ & S1 & _ & H). destruct (H Hq) as (rq' & tq' & w2 & E2 & _ & _ & S2 & _).
  assert (i = 0%nat) as -> by lia. exists w1, w2. split; [exact E1|]. split; [exact E2|]. split; [exists rq, tq; exact S1|exists rq', tq'; exact S2].
Defined.
