(* ===== verification/VhostConc.v ===== *)
(** * The vhost driver: polling against connection and disconnection

    [drivers/net/vhost/rte_eth_vhost.c]: [eth_vhost_rx] and [eth_vhost_tx] run
    on the lcores that poll the queues of a port, [new_device] and
    [destroy_device] on the session thread, when a guest connects and
    disconnects. After [destroy_device] returns, the device is gone, so no
    lcore may be inside the vhost library with it; the flags [xfer],
    [rx_executing] and [tx_executing] are to ensure that.

    The accesses to these flags are plain loads and stores
    ([rte_atomic16_read], [rte_atomic16_set]). The machine below has a store
    buffer per thread, as x86 has ([tso = true]), or performs stores at once
    ([tso = false]). The queues of a port, receive queues first, are numbered;
    each is polled by one lcore, as DPDK requires. *)
From S2P Require Import Prelude.
Open Scope Z_scope.

(** What the threads share; 0 is NULL. *)
Inductive loc := Xfer | Executing (q : nat) | Device (q : nat) | Internal (q : nat).
#[export] Instance loc_eq_dec : EqDecision loc.
Proof. solve_decision. Defined.

(** Where a polling lcore is: outside, at the successive accesses, inside the
    library with a device, and after it. *)
Inductive poller := PIdle | PInternal | PXfer | PSet | PXfer2 | PDevice | PBurst (d : Z) | PCount | PReset.

(** One access of [eth_vhost_rx] or [eth_vhost_tx] on queue [q]: the next
    point, and a store. *)
Definition poller_next (rd : loc → Z) (q : nat) (p : poller) : poller * option (loc * Z) :=
  match p with
  | PIdle => (PInternal, None)
  | PInternal => (if rd (Internal q) =? 0 then PIdle else PXfer, None)
  | PXfer => (if rd Xfer =? 0 then PIdle else PSet, None)
  | PSet => (PXfer2, Some (Executing q, 1))
  | PXfer2 => (if rd Xfer =? 0 then PReset else PDevice, None)
  | PDevice => (PBurst (rd (Device q)), None)
  | PBurst _ => (PCount, None)
  | PCount => (PReset, None)
  | PReset => (PIdle, Some (Executing q, 0))
  end.
(** [rte_atomic64_add] is a locked instruction: it waits for the stores. *)
Definition poller_fence (p : poller) : bool := match p with PCount => true | _ => false end.

(** The session thread: no device; in [new_device], setting the device and the
    internals of queue [q]; connected; and in [destroy_device], waiting for
    queue [q], then clearing it. *)
Inductive session := SIdle | SDevice (d : Z) (q : nat) | SInternal (d : Z) (q : nat) | SXfer (d : Z) | SRun (d : Z)
  | SXfer0 (d : Z) | SWait (d : Z) (q : nat) | SClear (d : Z) (q : nat).

(** One access of [new_device] or [destroy_device] on a port of [n] queues. *)
Definition session_next (n : nat) (rd : loc → Z) (s : session) : option (session * option (loc * Z)) :=
  match s with
  | SIdle | SRun _ => None
  | SDevice d q => if decide (q < n)%nat then Some (SInternal d q, Some (Device q, d)) else Some (SXfer d, None)
  | SInternal d q => Some (SDevice d (S q), Some (Internal q, 1))
  | SXfer d => Some (SRun d, Some (Xfer, 1))
  | SXfer0 d => Some (SWait d 0, Some (Xfer, 0))
  | SWait d q =>
      if decide (q < n)%nat then Some (if rd (Executing q) =? 0 then SWait d (S q) else SWait d q, None)
      else Some (SClear d 0, None)
  | SClear d q => if decide (q < n)%nat then Some (SClear d (S q), Some (Device q, 0)) else Some (SIdle, None)
  end.

(** The device the session thread has not yet given back to the library. *)
Definition held (s : session) : option Z :=
  match s with
  | SIdle => None
  | SDevice d _ | SInternal d _ | SXfer d | SRun d | SXfer0 d | SWait d _ | SClear d _ => Some d
  end.

(** ** The machine *)
Inductive thread := Session | Poller (q : nat).
#[export] Instance thread_eq_dec : EqDecision thread.
Proof. solve_decision. Defined.

Record conf := Conf { mem : loc → Z; buffer : thread → list (loc * Z); pollers : list poller; sess : session }.

Definition upd {K V} `{EqDecision K} (f : K → V) (k : K) (v : V) : K → V := λ x, if decide (x = k) then v else f x.
(** The newest store to [l] in the thread's buffer, or memory. *)
Definition read (c : conf) (t : thread) (l : loc) : Z :=
  match list_find (λ x, fst x = l) (reverse (buffer c t)) with Some (_, x) => snd x | None => mem c l end.
Definition write (tso : bool) (t : thread) (w : option (loc * Z)) (c : conf) : conf :=
  match w with
  | None => c
  | Some x =>
      if tso then Conf (mem c) (upd (buffer c) t (buffer c t ++ [x])) (pollers c) (sess c)
      else Conf (upd (mem c) (fst x) (snd x)) (buffer c) (pollers c) (sess c)
  end.

Inductive step (tso : bool) : conf → conf → Prop :=
| step_poller c q p p' w : pollers c !! q = Some p → (poller_fence p = true → buffer c (Poller q) = []) →
    poller_next (read c (Poller q)) q p = (p', w) →
    step tso c (write tso (Poller q) w (Conf (mem c) (buffer c) (<[q := p']> (pollers c)) (sess c)))
| step_session c s' w : session_next (length (pollers c)) (read c Session) (sess c) = Some (s', w) →
    step tso c (write tso Session w (Conf (mem c) (buffer c) (pollers c) s'))
(** The library reports a guest, or that the guest is gone. *)
| step_new c d : sess c = SIdle → d ≠ 0 → step tso c (Conf (mem c) (buffer c) (pollers c) (SDevice d 0))
| step_destroy c d : sess c = SRun d → step tso c (Conf (mem c) (buffer c) (pollers c) (SXfer0 d))
(** The oldest store of a buffer reaches memory. *)
| step_flush c t l v b : buffer c t = (l, v) :: b → step tso c (Conf (upd (mem c) l v) (upd (buffer c) t b) (pollers c) (sess c)).

Definition init (n : nat) : conf := Conf (λ _, 0) (λ _, []) (replicate n PIdle) SIdle.

(** ** Stores performed at once *)

(** The points at which the flag of the queue is set, and those between the
    second test of [xfer] and the return of the library. *)
Definition flagged (p : poller) : bool := match p with PXfer2 | PDevice | PBurst _ | PCount | PReset => true | _ => false end.
Definition inside (p : poller) : bool := match p with PDevice | PBurst _ | PCount => true | _ => false end.

(** The device that a poller of queue [q] may be using. *)
Definition admits (s : session) (q : nat) : option Z :=
  match s with
  | SRun d | SXfer0 d => Some d
  | SWait d k => if decide (k <= q)%nat then Some d else None
  | _ => None
  end.
Definition xfer_of (s : session) : Z := match s with SRun _ | SXfer0 _ => 1 | _ => 0 end.
(** The queues whose device is set, and to what. *)
Definition device_set (n : nat) (s : session) (q : nat) : option Z :=
  match s with
  | SDevice d k => if decide (q < k)%nat then Some d else None
  | SInternal d k => if decide (q <= k)%nat then Some d else None
  | SXfer d | SRun d | SXfer0 d | SWait d _ => Some d
  | _ => None
  end.

Record inv (n : nat) (c : conf) : Prop := {
  inv_buffers : ∀ t, buffer c t = [];
  inv_length : length (pollers c) = n;
  inv_flag : ∀ q p, pollers c !! q = Some p → mem c (Executing q) = if flagged p then 1 else 0;
  inv_inside : ∀ q p, pollers c !! q = Some p → inside p = true → is_Some (admits (sess c) q);
  inv_burst : ∀ q d, pollers c !! q = Some (PBurst d) → admits (sess c) q = Some d;
  inv_xfer : mem c Xfer = xfer_of (sess c);
  inv_device : ∀ q d, (q < n)%nat → device_set n (sess c) q = Some d → mem c (Device q) = d }.

Lemma upd_eq {K V} `{EqDecision K} (f : K → V) k v : upd f k v k = v.
Proof. unfold upd. by rewrite decide_True. Qed.
Lemma upd_ne {K V} `{EqDecision K} (f : K → V) k k' v : k' ≠ k → upd f k v k' = f k'.
Proof. intros. unfold upd. by rewrite decide_False. Qed.

Lemma read_mem n c t l : inv n c → read c t l = mem c l.
Proof. intros H. unfold read. by rewrite (inv_buffers _ _ H). Qed.

Lemma init_inv n : inv n (init n).
Proof.
  split; simpl; try done; [by rewrite length_replicate|..]; intros q p Hp; apply lookup_replicate in Hp as [Hp _]; by subst.
Qed.

(** A poller moves: its flag follows it, and it enters only where the session
    thread admits it. *)
Lemma inv_poller n c q p p' m' : inv n c → pollers c !! q = Some p →
  (∀ l, l ≠ Executing q → m' l = mem c l) → m' (Executing q) = (if flagged p' then 1 else 0) →
  (inside p' = true → is_Some (admits (sess c) q)) → (∀ d, p' = PBurst d → admits (sess c) q = Some d) →
  inv n (Conf m' (buffer c) (<[q := p']> (pollers c)) (sess c)).
Proof.
  intros [H1 H2 H3 H4 H5 H6 H7] Hp Hm Hf Hin Hb. pose proof (lookup_lt_Some _ _ _ Hp) as Hlt.
  split; simpl; [done|by rewrite length_insert| | | |by rewrite Hm|].
  - intros r x Hx. destruct (decide (r = q)) as [->|Hne].
    + rewrite list_lookup_insert_eq in Hx by done. by injection Hx as <-.
    + rewrite list_lookup_insert_ne in Hx by done. rewrite Hm by congruence. by apply H3.
  - intros r x Hx. destruct (decide (r = q)) as [->|Hne].
    + rewrite list_lookup_insert_eq in Hx by done. by injection Hx as <-.
    + rewrite list_lookup_insert_ne in Hx by done. by apply H4.
  - intros r d Hx. destruct (decide (r = q)) as [->|Hne].
    + rewrite list_lookup_insert_eq in Hx by done. injection Hx as ->. by apply Hb.
    + rewrite list_lookup_insert_ne in Hx by done. by apply H5.
  - intros r d Hr Hd. rewrite Hm by done. by apply H7.
Qed.

Lemma xfer_admits n c q : inv n c → mem c Xfer ≠ 0 → is_Some (admits (sess c) q).
Proof. intros H Hx. rewrite (inv_xfer _ _ H) in Hx. destruct (sess c); simpl in *; done. Qed.
Lemma admitted_device n c q d : inv n c → (q < n)%nat → admits (sess c) q = Some d → mem c (Device q) = d.
Proof.
  intros H Hq Ha. apply (inv_device _ _ H q d Hq). destruct (sess c); simpl in *; try done. by case_decide.
Qed.

Lemma poller_inv n c q p p' w : inv n c → pollers c !! q = Some p → poller_next (read c (Poller q)) q p = (p', w) →
  inv n (write false (Poller q) w (Conf (mem c) (buffer c) (<[q := p']> (pollers c)) (sess c))).
Proof.
  intros H Hp Hn. pose proof (inv_flag _ _ H _ _ Hp) as Hf. pose proof (inv_inside _ _ H _ _ Hp) as Hi.
  pose proof (lookup_lt_Some _ _ _ Hp) as Hlt. rewrite (inv_length _ _ H) in Hlt.
  destruct p; simpl in Hn; simplify_eq; simpl in Hf, Hi |- *; rewrite ?(read_mem n c) by done; tests;
    eapply inv_poller; try done; simpl; intros; rewrite ?upd_eq, ?upd_ne by done; try done;
    try (by apply (xfer_admits n c)); try (by apply Hi).
  destruct (Hi eq_refl) as [d' Hd']. simplify_eq. by rewrite (admitted_device n c q d').
Qed.

(** The session thread moves from [s] to [s']: it ends no admission of a queue
    whose poller is inside. *)
Lemma inv_session n c s' m' : inv n c → (∀ q, m' (Executing q) = mem c (Executing q)) → m' Xfer = xfer_of s' →
  (∀ q p, pollers c !! q = Some p → inside p = true → admits s' q = admits (sess c) q) →
  (∀ q d, (q < n)%nat → device_set n s' q = Some d → m' (Device q) = d) →
  inv n (Conf m' (buffer c) (pollers c) s').
Proof.
  intros [H1 H2 H3 H4 H5 H6 H7] Hm Hx Ha Hd. split; simpl; try done.
  - intros q p Hp. rewrite Hm. by apply H3.
  - intros q p Hp Hi. rewrite (Ha q p Hp Hi). by eapply H4.
  - intros q d Hp. rewrite (Ha q _ Hp eq_refl). by apply H5.
Qed.

Lemma not_inside n c q p : inv n c → pollers c !! q = Some p → admits (sess c) q = None → inside p = false.
Proof. intros H Hp Ha. destruct (inside p) eqn:E; [|done]. destruct (inv_inside _ _ H _ _ Hp E). congruence. Qed.

Lemma session_inv n c s' w : inv n c → session_next (length (pollers c)) (read c Session) (sess c) = Some (s', w) →
  inv n (write false Session w (Conf (mem c) (buffer c) (pollers c) s')).
Proof.
  intros H Hn. rewrite (inv_length _ _ H) in Hn. pose proof (inv_xfer _ _ H) as Hx. pose proof (inv_device _ _ H) as Hd.
  pose proof (λ q p Hp, not_inside n c q p H Hp) as Hni. pose proof (inv_flag _ _ H) as Hf.
  destruct (sess c) as [|d k|d k|d|d|d|d k|d k] eqn:Es; simpl in Hn; try done; [..|].
  all: repeat case_decide; simplify_eq; simpl in Hx, Hd, Hni |- *.
  all: try (match goal with |- context [if ?b then _ else _] => destruct b eqn:Eb end).
  all: apply (inv_session n c); [done|intros; rewrite ?upd_ne by done; done|rewrite ?upd_eq, ?upd_ne by done; done| |].
  all: try (intros q p Hp Hi; rewrite Es; simpl; first [done|specialize (Hni q p Hp); rewrite Hni in Hi by done; done]).
  all: try (intros q d' Hq; simpl; try case_decide; intros [= <-]).
  all: try (destruct (decide (q = k)) as [->|Hne]; [by rewrite upd_eq|rewrite upd_ne by congruence; apply Hd; [done|]; rewrite decide_True by lia; done]).
  all: try (rewrite ?upd_ne by done; apply Hd; [done|]; try (rewrite decide_True by lia); done).
  - intros q p Hp Hi. rewrite Es. simpl. destruct (decide (q = k)) as [->|Hne].
    + rewrite (read_mem n c) in Eb by done. specialize (Hf k p Hp). by destruct p; try done; rewrite Hf in Eb.
    + by case_decide; case_decide; try lia.
  - intros q p Hp Hi. rewrite Es. simpl. pose proof (lookup_lt_Some _ _ _ Hp) as Hlt. rewrite (inv_length _ _ H) in Hlt.
    by rewrite decide_False by lia.
Qed.

Lemma step_inv n c c' : inv n c → step false c c' → inv n c'.
Proof.
  intros H Hs. destruct Hs as [c q p p' w Hp _ Hn|c s' w Hn|c d Es Hd|c d Es|c t l v b Hb].
  - by eapply poller_inv.
  - by apply session_inv.
  - apply (inv_session n c); [done|done|by rewrite (inv_xfer _ _ H), Es|by intros; rewrite Es|]. intros q d' Hq E. unfold device_set in E. rewrite decide_False in E by lia. done.
  - apply (inv_session n c); [done|done|by rewrite (inv_xfer _ _ H), Es|by intros; rewrite Es|].
    intros q d' Hq [= <-]. apply (inv_device _ _ H); [done|]. by rewrite Es.
  - by rewrite (inv_buffers _ _ H) in Hb.
Qed.

Lemma reachable_inv n c : rtc (step false) (init n) c → inv n c.
Proof. intros Hr. pose proof (init_inv n) as H. revert H. induction Hr; eauto using step_inv. Qed.

(** C24: With stores performed at once, a lcore inside the vhost library uses the
    device that is connected, and that device is not given back before the
    lcore has left: whenever a lcore runs the library on queue [q] with
    device [d], [new_device] has returned for [d] and [destroy_device] has not
    got past waiting for [q]. *)
Theorem vhost_device_safe n c q d (Hrun : rtc (step false) (init n) c) (Hq : pollers c !! q = Some (PBurst d)) :
  held (sess c) = Some d ∧ (sess c = SRun d ∨ sess c = SXfer0 d ∨ ∃ k, sess c = SWait d k ∧ (k <= q)%nat).
Proof.
  pose proof (inv_burst _ _ (reachable_inv _ _ Hrun) _ _ Hq) as Ha. destruct (sess c) as [| | | | | |d' k|]; simpl in Ha |- *; simplify_eq; auto.
  case_decide; simplify_eq. split; [done|]. right. right. by exists k.
Qed.

(** ** Waiting ends *)

(** How many accesses a poller still makes before its flag is down for good,
    once [xfer] is 0. *)
Definition potential (p : poller) : nat :=
  match p with PSet => 5 | PXfer2 | PDevice => 4 | PBurst _ => 3 | PCount => 2 | PReset => 1 | _ => 0 end.
Definition work (c : conf) : nat := sum_list (potential <$> pollers c).

Lemma sum_list_insert (l : list nat) i x y : l !! i = Some x → (sum_list (<[i := y]> l) + x = sum_list l + y)%nat.
Proof.
  revert i. induction l as [|z l IH]; intros [|i] Hi; simpl in *; try done; [injection Hi as ->; lia|].
  specialize (IH i Hi). lia.
Qed.
Lemma work_insert c q p p' m b s : pollers c !! q = Some p →
  (work (Conf m b (<[q := p']> (pollers c)) s) + potential p = work c + potential p')%nat.
Proof.
  intros Hp. unfold work. simpl. rewrite list_fmap_insert. apply sum_list_insert. by rewrite list_lookup_fmap, Hp.
Qed.
Lemma write_work tso t w c : work (write tso t w c) = work c.
Proof. destruct w, tso; done. Qed.
Lemma write_sess tso t w c : sess (write tso t w c) = sess c.
Proof. destruct w, tso; done. Qed.

Lemma potential_next rd q p p' w : rd Xfer = 0 → poller_next rd q p = (p', w) →
  (potential p' <= potential p)%nat ∧ (flagged p = true → (potential p' < potential p)%nat).
Proof. intros Hx Hn. destruct p; simpl in Hn; rewrite ?Hx in Hn; simplify_eq; simpl; repeat case_match; simpl; split; try done; lia. Qed.

(** C33: [destroy_device] does not wait for ever, with stores performed at once (no
    store buffers). While it waits for queue [k], no
    step of any thread adds to the accesses the pollers still have to make (at
    most five each); if the flag of the queue is down the next test passes, and
    if it is up the poller of that queue can move, and its move takes one of
    these accesses away. *)
Theorem vhost_wait_ends n c d k (Hrun : rtc (step false) (init n) c) (Hs : sess c = SWait d k) (Hk : (k < n)%nat) :
  (work c <= 5 * n)%nat ∧ (∀ c', step false c c' → (work c' <= work c)%nat) ∧
  ∃ p, pollers c !! k = Some p ∧
    if flagged p then ∃ c', step false c c' ∧ (work c' < work c)%nat ∧ sess c' = sess c
    else ∃ c', step false c c' ∧ sess c' = SWait d (S k) ∧ work c' = work c.
Proof.
  pose proof (reachable_inv _ _ Hrun) as H. assert (∀ t, read c t Xfer = 0) as Hx by (intros t; by rewrite (read_mem n), (inv_xfer _ _ H), Hs).
  split_and!.
  - rewrite <- (inv_length _ _ H). unfold work. induction (pollers c) as [|p ps IH]; [done|]. rewrite fmap_cons. cbn [sum_list_with length].
    unfold id at 1. assert (potential p <= 5)%nat by (destruct p; simpl; lia). lia.
  - intros c' Hstep. destruct Hstep as [c q p p' w Hp _ Hn|c s' w Hn|c d' Es Hd|c d' Es|c t l v b Hb]; try congruence; try done.
    + rewrite write_work. destruct (potential_next _ _ _ _ _ (Hx _) Hn). pose proof (work_insert c q p p' (mem c) (buffer c) (sess c) Hp). lia.
    + by rewrite write_work.
  - destruct (lookup_lt_is_Some_2 (pollers c) k) as [p Hp]; [by rewrite (inv_length _ _ H)|]. exists p. split; [done|].
    pose proof (inv_flag _ _ H _ _ Hp) as Hf. destruct (flagged p) eqn:Ef.
    + destruct (poller_next (read c (Poller k)) k p) as [p' w] eqn:Hn. eexists. split; [eapply step_poller; [done|intros _; apply (inv_buffers _ _ H)|done]|].
      rewrite write_work, write_sess. destruct (potential_next _ _ _ _ _ (Hx _) Hn) as [_ Hlt]. pose proof (work_insert c k p p' (mem c) (buffer c) (sess c) Hp).
      split; [specialize (Hlt Ef); lia|done].
    + eexists. split; [eapply (step_session _ c (SWait d (S k)) None)|done]. rewrite Hs, (inv_length _ _ H). simpl.
      rewrite decide_True by done. by rewrite (read_mem n), Hf.
Qed.

(** ** Schedules *)
#[export] Instance session_eq_dec : EqDecision session.
Proof. solve_decision. Defined.
Inductive move := MPoll (q : nat) | MSess | MNew (d : Z) | MDestroy | MFlush (t : thread).
Definition do_move (tso : bool) (m : move) (c : conf) : option conf :=
  match m with
  | MPoll q =>
      p ← pollers c !! q;
      if poller_fence p && negb (bool_decide (buffer c (Poller q) = [])) then None
      else let '(p', w) := poller_next (read c (Poller q)) q p in
           Some (write tso (Poller q) w (Conf (mem c) (buffer c) (<[q := p']> (pollers c)) (sess c)))
  | MSess =>
      '(s', w) ← session_next (length (pollers c)) (read c Session) (sess c);
      Some (write tso Session w (Conf (mem c) (buffer c) (pollers c) s'))
  | MNew d => if decide (sess c = SIdle ∧ d ≠ 0) then Some (Conf (mem c) (buffer c) (pollers c) (SDevice d 0)) else None
  | MDestroy => match sess c with SRun d => Some (Conf (mem c) (buffer c) (pollers c) (SXfer0 d)) | _ => None end
  | MFlush t =>
      match buffer c t with
      | (l, v) :: b => Some (Conf (upd (mem c) l v) (upd (buffer c) t b) (pollers c) (sess c))
      | [] => None
      end
  end.
Fixpoint do_moves (tso : bool) (ms : list move) (c : conf) : option conf :=
  match ms with [] => Some c | m :: ms => c ← do_move tso m c; do_moves tso ms c end.

Lemma do_move_step tso m c c' : do_move tso m c = Some c' → step tso c c'.
Proof.
  destruct m; simpl; intros H.
  - apply bind_Some in H as (p & Hp & H). destruct (poller_fence p && _) eqn:Ef; [done|].
    destruct (poller_next _ _ _) as [p' w] eqn:Hn. injection H as <-. eapply step_poller; [done| |done].
    intros Hfe. rewrite Hfe in Ef. simpl in Ef. by apply negb_false_iff, bool_decide_eq_true in Ef.
  - apply bind_Some in H as ([s' w] & Hn & H). injection H as <-. by apply step_session.
  - case_decide as D; [|done]. injection H as <-. destruct D. by apply step_new.
  - destruct (sess c) eqn:Es; try done. injection H as <-. by apply step_destroy.
  - destruct (buffer c t) as [|[l v] b] eqn:Eb; [done|]. injection H as <-. by apply step_flush.
Qed.
Lemma do_moves_steps tso ms c c' : do_moves tso ms c = Some c' → rtc (step tso) c c'.
Proof.
  revert c. induction ms as [|m ms IH]; simpl; intros c H; [by injection H as <-|].
  apply bind_Some in H as (c1 & H1 & H). eapply rtc_l; [by eapply do_move_step|]. by apply IH.
Qed.

(** Connected, and a lcore inside the library. *)
Definition demo_enter : list move := [MNew 7; MSess; MSess; MSess; MSess; MPoll 0; MPoll 0; MPoll 0; MPoll 0; MPoll 0; MPoll 0].
Definition after (tso : bool) (ms : list move) : conf := default (init 1) (do_moves tso ms (init 1)).
Lemma after_reach tso ms : (if do_moves tso ms (init 1) then true else false) = true → rtc (step tso) (init 1) (after tso ms).
Proof. unfold after. destruct (do_moves tso ms (init 1)) eqn:E; [|done]. intros _. by eapply do_moves_steps. Qed.

Lemma vhost_device_safe_witness :
  ∃ c, rtc (step false) (init 1) c ∧ pollers c !! 0%nat = Some (PBurst 7) ∧ held (sess c) = Some 7.
Proof.
  exists (after false demo_enter). assert (rtc (step false) (init 1) (after false demo_enter)) as Hr by (apply after_reach; vm_compute; reflexivity).
  assert (pollers (after false demo_enter) !! 0%nat = Some (PBurst 7)) as Hp by (vm_compute; reflexivity).
  split; [exact Hr|]. split; [exact Hp|]. exact (proj1 (vhost_device_safe 1 _ 0 7 Hr Hp)).
Defined.
Definition demo_wait : list move := demo_enter ++ [MDestroy; MSess].
Lemma vhost_wait_ends_witness :
  ∃ c, rtc (step false) (init 1) c ∧ sess c = SWait 7 0 ∧ ∃ c', step false c c' ∧ (work c' < work c)%nat.
Proof.
  exists (after false demo_wait). assert (rtc (step false) (init 1) (after false demo_wait)) as Hr by (apply after_reach; vm_compute; reflexivity).
  assert (sess (after false demo_wait) = SWait 7 0) as Hs by (vm_compute; reflexivity).
  assert (pollers (after false demo_wait) !! 0%nat = Some (PBurst 7)) as Hp' by (vm_compute; reflexivity).
  split; [exact Hr|]. split; [exact Hs|].
  destruct (vhost_wait_ends 1 _ 7 0 Hr Hs ltac:(lia)) as (_ & _ & p & Hp & H). rewrite Hp' in Hp. injection Hp as <-.
  destruct H as (c' & H1 & H2 & _). exists c'. split; [exact H1|exact H2].
Defined.

(** ** Store buffers

    Neither flag store is followed by a fence, so a processor with store
    buffers can let both threads read the old value of the other's flag. *)

(** The lcore's store of its flag stays in its buffer. *)
Definition demo_race : list move :=
  [MNew 7; MSess; MSess; MSess; MSess; MFlush Session; MFlush Session; MFlush Session] ++
  [MPoll 0; MPoll 0; MPoll 0; MPoll 0; MPoll 0; MPoll 0] ++
  [MDestroy; MSess; MSess; MSess; MSess; MSess; MFlush Session; MFlush Session].

(** On a processor with store buffers the protocol fails: there is an execution
    in which [destroy_device] has returned and all its stores are in memory,
    while a lcore is inside the vhost library with the device that is gone. *)
Theorem vhost_tso_race :
  ∃ c, rtc (step true) (init 1) c ∧ pollers c !! 0%nat = Some (PBurst 7) ∧ sess c = SIdle ∧
    buffer c Session = [] ∧ mem c Xfer = 0 ∧ mem c (Device 0) = 0.
Proof. exists (after true demo_race). split; [apply after_reach; vm_compute; reflexivity|]. split_and!; vm_compute; reflexivity. Qed.
