(* ===== verification/Platform.v ===== *)
(** * What the patch-panel applications use of DPDK

    The secondary applications reach devices, rings and buffers only through
    a few calls. [Platform W A] collects them: [W] is the state of the
    libraries and of the memory the processes share, [A] a packet buffer. A
    call that would be undefined behaviour is [None]. [PlatformOk] states what
    the applications rely on; [RingPlatform.v] discharges it for ports made of
    rings. *)
From S2P Require Import Prelude CStr EthTable.
Open Scope Z_scope.

(** The functions that make a port of a ring. *)
Inductive ring_maker := From_ring | From_ring_s0.

Class Platform (W A : Type) := {
  (** [rte_eth_rx_burst(port, 0, bufs, n)]: the packets received. *)
  rx_burst : W → Z → Z → option (list A * W);
  (** [rte_eth_tx_burst(port, 0, bufs, n)]: how many were sent. *)
  tx_burst : W → Z → list A → option (Z * W);
  (** Returns a buffer to its pool. *)
  free_buf : W → A → option W;
  (** [rte_ring_lookup]: the ring's address, or NULL. *)
  lookup_ring : W → string → option (option Z * W);
  (** The function of the ring driver that is called: a port number or -1. *)
  port_from_ring : W → ring_maker → Z → option (Z * W);
  (** [rte_mempool_lookup]. *)
  lookup_pool : W → string → option (option Z);
  (** [rte_eth_from_vhost(name, index, iface, socket, pool)]. *)
  port_from_vhost : W → string → Z → string → Z → option (Z * W);
  dev_count : W → Z;
  dev_type_of : W → Z → option rte_eth_dev_type }.

(** A port on which bursts may be called keeps being one, receives no more
    than it is asked for and sends a prefix of what it is given. *)
Class PlatformOk (W A : Type) `{!Platform W A} := {
  usable : W → Z → Prop;
  rx_ok : ∀ w p n, usable w p → 0 <= n <= 32 →
    ∃ ps w', rx_burst w p n = Some (ps, w') ∧ Z.of_nat (length ps) <= n ∧ ∀ q, usable w q → usable w' q;
  tx_ok : ∀ w p ps, usable w p → (length ps <= 32)%nat →
    ∃ m w', tx_burst w p ps = Some (m, w') ∧ 0 <= m <= Z.of_nat (length ps) ∧ ∀ q, usable w q → usable w' q;
  free_ok : ∀ w b, ∃ w', free_buf w b = Some w' ∧ ∀ q, usable w q → usable w' q }.
