(* ===== verification/Session.v ===== *)
(** * The connection to the controller

    The loop of [main] that all applications of
    [examples/multi_process/patch_panel] have ([pri_lvl1/main.c],
    [nfv_py/nfv_py.c], [sec_zerocpy/sec_zerocpy.c], [sec_memcpy/sec_memcpy.c]):
    connect to the controller, receive a message, act on it, send the reply, and
    connect again when the connection is lost. What the application does with
    a message is a parameter, the answers of the kernel are inputs. *)
From S2P Require Import Prelude CStr.
Open Scope Z_scope.

Definition SOCK_RESET : Z := -1.

(** What a message leads to: a reply, the end of the loop ([break]), or the end
    of the process ([rte_exit]). *)
Inductive reaction (S : Type) := Answer (s : S) (str : string) | Leave (s : S) | Quit.
Arguments Answer {S} s str.
Arguments Leave {S} s.
Arguments Quit {S}.

(** The variables [sock] and [connected]. *)
Record conn := Conn { sock : Z; connected : bool }.
(** What the kernel answers in a turn: [socket], [connect], [recv] ([None] when it
    returns 0 or an error) and [send]. *)
Record kernel := Kernel { socket_ret : Z; connect_ok : bool; recv_ret : option string; send_ok : bool }.
(** The system calls of a turn. *)
Inductive io := Socket (k : Z) | Connect (k : Z) (ok : bool) | Recv (k : Z) (m : option string) | Send (k : Z) (str : string) (ok : bool) | Close (k : Z).
(** After a turn: the loop goes on, or the process ends; after [Quit] there is no
    state left. *)
Inductive turn (S : Type) := Next (c : conn) (s : S) | End (s : option S).
Arguments Next {S} c s.
Arguments End {S} s.

Section loop.
Context {S : Type} (handle : S → string → option (reaction S)).

(** The part before [recv]: a connected socket, or why there is none. *)
Definition ensure_connected (os : kernel) (c : conn) (s : S) : (turn S + Z) * list io :=
  if connected c then (inr (sock c), []) else
  let '(k, tr) := if sock c <? 0 then (socket_ret os, [Socket (socket_ret os)]) else (sock c, []) in
  if k <? 0 then (inl (End (Some s)), tr) else
  if connect_ok os then (inr k, tr ++ [Connect k true]) else (inl (Next (Conn k false) s), tr ++ [Connect k false]).

Definition main_turn (os : kernel) (c : conn) (s : S) : option (turn S * list io) :=
  match ensure_connected os c s with
  | (inl t, tr) => Some (t, tr)
  | (inr k, tr) =>
      let tr := tr ++ [Recv k (recv_ret os)] in
      match recv_ret os with
      | None => Some (Next (Conn SOCK_RESET false) s, tr ++ [Close k])
      | Some str =>
          r ← handle s str;
          match r with
          | Quit => Some (End None, tr)
          | Leave s => Some (End (Some s), tr ++ [Close k])
          | Answer s str => Some (Next (Conn k (send_ok os)) s, tr ++ [Send k str (send_ok os)])
          end
      end
  end.
(** The loop, as long as the kernel answers. *)
Fixpoint main_loop (oss : list kernel) (c : conn) (s : S) : option (turn S * list io) :=
  match oss with
  | [] => Some (Next c s, [])
  | os :: oss =>
      '(t, tr) ← main_turn os c s;
      match t with
      | End s => Some (End s, tr)
      | Next c s => '(t, tr') ← main_loop oss c s; Some (t, tr ++ tr')
      end
  end.

(** ** The protocol

    Where the conversation is: no socket, a socket that is not connected, a
    connection, a message that has to be answered with a text, and a connection
    that is over. *)
Inductive talk := Closed | Opened (k : Z) | Up (k : Z) | Owes (k : Z) (str : string) | Over (k : Z) | Gone.

Definition talk_step (x : talk * S) (e : io) : option (talk * S) :=
  let '(t, s) := x in
  match t, e with
  | Closed, Socket k => Some (if k <? 0 then Gone else Opened k, s)
  | Opened k, Connect k' ok => if k =? k' then Some (if ok : bool then Up k else Opened k, s) else None
  | Up k, Recv k' m =>
      if negb (k =? k') then None else
      match m with
      | None => Some (Over k, s)
      | Some m =>
          r ← handle s m;
          match r with
          | Answer s str => Some (Owes k str, s)
          | Leave s => Some (Over k, s)
          | Quit => Some (Gone, s)
          end
      end
  | Owes k str, Send k' str' ok => if (k =? k') && String.eqb str str' then Some (if ok : bool then Up k else Opened k, s) else None
  | Over k, Close k' => if k =? k' then Some (Closed, s) else None
  | _, _ => None
  end.
Fixpoint talk_run (x : talk * S) (tr : list io) : option (talk * S) :=
  match tr with [] => Some x | e :: tr => x ← talk_step x e; talk_run x tr end.
Lemma talk_run_app x tr tr' : talk_run x (tr ++ tr') = (y ← talk_run x tr; talk_run y tr').
Proof.
  revert x. induction tr as [|e tr IH]; intros x; cbn [talk_run app]; [done|]. destruct (talk_step x e) as [y|]; [apply IH|done].
Qed.

(** The variables of the program and where the conversation is. *)
Definition conn_talk (c : conn) : talk :=
  if connected c then Up (sock c) else if sock c <? 0 then Closed else Opened (sock c).
Definition conn_ok (c : conn) : Prop := connected c = true → 0 <= sock c.
Definition turn_ok (t : turn S) (x : talk * S) : Prop :=
  match t with
  | Next c s => conn_ok c ∧ x = (conn_talk c, s)
  | End (Some s) => snd x = s ∧ (fst x = Closed ∨ fst x = Gone)
  | End None => fst x = Gone
  end.

Lemma ensure_connected_talk os c s : conn_ok c →
  let '(r, tr) := ensure_connected os c s in
  ∃ x, talk_run (conn_talk c, s) tr = Some x ∧ match r with inl t => turn_ok t x | inr k => x = (Up k, s) ∧ 0 <= k end.
Proof.
  intros Hok. unfold ensure_connected, conn_talk, conn_ok in *. destruct (connected c); [eexists; split; [done|]; by auto|].
  destruct (Z.ltb_spec (sock c) 0) as [Hs|Hs]; [destruct (Z.ltb_spec (socket_ret os) 0) as [Hk|Hk]|destruct (Z.ltb_spec (sock c) 0); [lia|]];
    try (eexists; split; [cbn; by rewrite (proj2 (Z.ltb_lt _ _) Hk)|cbn; by auto]).
  all: destruct (connect_ok os); eexists; cbn; rewrite ?(proj2 (Z.ltb_ge _ _)) by lia; cbn; rewrite ?Z.eqb_refl; split; try done;
    unfold conn_ok, conn_talk; cbn; rewrite ?(proj2 (Z.ltb_ge _ _)) by lia; done.
Qed.
Lemma main_turn_talk os c s t tr : conn_ok c → main_turn os c s = Some (t, tr) →
  ∃ x, talk_run (conn_talk c, s) tr = Some x ∧ turn_ok t x.
Proof.
  intros Hok. unfold main_turn. pose proof (ensure_connected_talk os c s Hok) as H.
  destruct (ensure_connected os c s) as [[t'|k] tr']; destruct H as (x & Hx & H); [intros [= <- <-]; eauto|]. destruct H as [-> Hk].
  destruct (recv_ret os) as [m|].
  - intros (r & Hr & E)%bind_Some. destruct r as [s' str|s'|]; injection E as <- <-; rewrite ?talk_run_app, Hx; cbn; rewrite Z.eqb_refl; cbn; rewrite Hr; cbn.
    + rewrite Z.eqb_refl, String.eqb_refl. cbn. eexists. split; [done|]. split; [by intros _|]. unfold conn_talk. cbn. rewrite (proj2 (Z.ltb_ge _ _)) by lia. done.
    + rewrite Z.eqb_refl. eexists. split; [done|]. cbn. by auto.
    + by eexists.
  - intros [= <- <-]. rewrite !talk_run_app, Hx. cbn. rewrite !Z.eqb_refl. cbn. rewrite Z.eqb_refl. eexists. split; [done|]. by split.
Qed.
Lemma main_loop_talk oss c s t tr : conn_ok c → main_loop oss c s = Some (t, tr) →
  ∃ x, talk_run (conn_talk c, s) tr = Some x ∧ turn_ok t x.
Proof.
  revert c s t tr. induction oss as [|os oss IH]; intros c s t tr Hok; cbn [main_loop]; [intros [= <- <-]; by eexists|].
  intros ([t1 tr1] & H1 & H2)%bind_Some. destruct (main_turn_talk _ _ _ _ _ Hok H1) as (x & Hx & Ht). destruct t1 as [c1 s1|s1].
  - apply bind_Some in H2 as ([t2 tr2] & H2 & E). injection E as <- <-. destruct Ht as [Hok1 ->]. rewrite talk_run_app, Hx. by apply IH.
  - injection H2 as <- <-. by exists x.
Qed.

(** An invariant of the application's state that every message keeps is kept by
    the whole loop. *)
Lemma main_loop_invariant (I : S → Prop) oss c s t tr :
  (∀ s m r, I s → handle s m = Some r → match r with Answer s' _ | Leave s' => I s' | Quit => True end) →
  I s → main_loop oss c s = Some (t, tr) → match t with Next _ s' | End (Some s') => I s' | End None => True end.
Proof.
  intros HI. revert c s t tr. induction oss as [|os oss IH]; intros c s t tr Hs; cbn [main_loop]; [by intros [= <- _]|].
  assert (∀ t tr, main_turn os c s = Some (t, tr) → match t with Next _ s' | End (Some s') => I s' | End None => True end) as Hturn.
  { intros t1 tr1. unfold main_turn. destruct (ensure_connected os c s) as [[t'|k] tr'] eqn:E.
    - intros [= <- _]. unfold ensure_connected in E. repeat case_match; by simplify_eq.
    - destruct (recv_ret os) as [m|]; [|by intros [= <- _]]. intros (r & Hr & E')%bind_Some. specialize (HI _ _ _ Hs Hr).
      destruct r; by injection E' as <- _. }
  intros ([t1 tr1] & H1 & H2)%bind_Some. pose proof (Hturn _ _ H1) as Ht. destruct t1 as [c1 s1|s1]; [|by injection H2 as <- _].
  apply bind_Some in H2 as ([t2 tr2] & H2 & E). injection E as <- _. by apply (IH _ _ _ _ Ht H2).
Qed.

(** When the loop is undefined, a message was: it came on a connection, after
    everything before it had been handled. *)
Definition bad_message (x : talk * S) : Prop :=
  ∃ tr k s m, talk_run x tr = Some (Up k, s) ∧ handle s m = None.
Lemma main_turn_none os c s : conn_ok c → main_turn os c s = None → bad_message (conn_talk c, s).
Proof.
  intros Hok. unfold main_turn. pose proof (ensure_connected_talk os c s Hok) as H.
  destruct (ensure_connected os c s) as [[t'|k] tr']; [done|]. destruct H as (x & Hx & -> & _).
  destruct (recv_ret os) as [m|]; [|done]. destruct (handle s m) as [[]|] eqn:E; [done..|]. intros _. by exists tr', k, s, m.
Qed.
Lemma main_loop_none oss c s : conn_ok c → main_loop oss c s = None → bad_message (conn_talk c, s).
Proof.
  revert c s. induction oss as [|os oss IH]; intros c s Hok; cbn [main_loop]; [done|].
  destruct (main_turn os c s) as [[t tr]|] eqn:E; [|intros _; by eapply main_turn_none]. cbn [mbind option_bind].
  destruct (main_turn_talk _ _ _ _ _ Hok E) as (x & Hx & Ht). destruct t as [c1 s1|s1]; [|done]. destruct Ht as [Hok1 ->].
  destruct (main_loop oss c1 s1) as [[t2 tr2]|] eqn:E2; [done|]. intros _. destruct (IH c1 s1 Hok1 E2) as (tr3 & k & s3 & m & H3 & Hm).
  exists (tr ++ tr3), k, s3, m. by rewrite talk_run_app, Hx.
Qed.
End loop.

(** C32: The conversation with the controller, whatever the network does: from the
    start of the program the calls follow the protocol. A socket is made only
    when there is none and closed before another is made; messages are received
    only on a connection; the application acts on each of them once, in the order
    of arrival, and its answer is sent on the connection the message came from
    before anything else is received; nothing but messages changes its state. The
    loop never fails by itself: it is undefined only when acting on a message
    is. *)
Theorem session_protocol {S} (handle : S → string → option (reaction S)) (oss : list kernel) (s : S) :
  match main_loop handle oss (Conn SOCK_RESET false) s with
  | Some (t, tr) => ∃ x, talk_run handle (Closed, s) tr = Some x ∧ turn_ok t x
  | None => bad_message handle (Closed, s)
  end.
Proof.
  destruct (main_loop handle oss (Conn SOCK_RESET false) s) as [[t tr]|] eqn:E.
  - by apply (main_loop_talk handle oss (Conn SOCK_RESET false)).
  - by apply (main_loop_none handle oss (Conn SOCK_RESET false)).
Qed.

(** A lost connection: the first message is answered, the connection closes, a
    second socket is used for the next. *)
Example session_example :
  let echo (s : list string) (m : string) := Some (if strcmp_eq m "exit" then Leave s else Answer (s ++ [m]) m) in
  main_loop echo [Kernel 3 false None true; Kernel 9 true (Some "status") true; Kernel 9 true None true; Kernel 4 true (Some "exit") true]
    (Conn SOCK_RESET false) [] =
  Some (End (Some ["status"]), [Socket 3; Connect 3 false; Connect 3 true; Recv 3 (Some "status"); Send 3 "status" true; Recv 3 None; Close 3;
    Socket 4; Connect 4 true; Recv 4 (Some "exit"); Close 4]).
Proof. vm_compute. reflexivity. Qed.
