(* ===== verification/Secondary.v ===== *)
(** * The secondary applications: patch table, commands, forwarding

    [examples/multi_process/patch_panel/nfv_py/nfv_py.c] and
    [sec_zerocpy/sec_zerocpy.c] ([SecMemcpy.v] has what [sec_memcpy] does
    differently). One thread (the master lcore) reads commands from the
    controller and changes the patch table; the slave lcores run [nfv_loop],
    which moves packets along it. The two programs are one text with a few
    differences, named by [variant]. *)
From S2P Require Import Prelude CStr RingReg EthTable Platform.
From Stdlib Require Import Ascii Sorted.
Open Scope Z_scope.

Inductive variant := NfvPy | SecZerocpy.

Definition MAX_CLIENT : Z := 99.
Definition MAX_PARAMETER : Z := 10.
Definition MAX_PKT_BURST : Z := 32.
Definition MSG_SIZE : Z := 100.
Definition PKTMBUF_POOL_NAME : string := "mproc_pktmbuf_pool".

Inductive cmd_type := STOP | START | ADD | DEL | READY | LOOPBACK | FORWARD | RXTX.
Inductive port_type := PHY | RING | VHOST | UNDEF.

(** A function pointer is NULL or the burst function: [true] is not NULL. *)
Record port := Port { status : Z; type : port_type; rx_func : bool; tx_func : bool; out_port_id : Z }.
#[export] Instance port_upd : Updatable port :=
  λ p, Port (status p) (type p) (rx_func p) (tx_func p) (out_port_id p).

(** The global variables of the program. *)
Record app := App {
  client_id : Z; server_ip : option string; tcpport : Z; cmd : cmd_type;
  exec_pos : Z; save_pos : Z;
  rx_ports : list Z; rx_funcs : list bool; tx_ports : list Z; tx_funcs : list bool;
  rx_rings : list Z; tx_rings : list Z; ports_fwd_array : list port }.
#[export] Instance app_upd : Updatable app := λ s,
  App (client_id s) (server_ip s) (tcpport s) (cmd s) (exec_pos s) (save_pos s) (rx_ports s) (rx_funcs s)
      (tx_ports s) (tx_funcs s) (rx_rings s) (tx_rings s) (ports_fwd_array s).

(** The statically initialised variables. *)
Definition nports : nat := Z.to_nat RTE_MAX_ETHPORTS.
Definition app_static : app :=
  App MAX_CLIENT None 0 STOP 0 0 (replicate nports 0) (replicate nports false) (replicate nports 0)
      (replicate nports false) (replicate nports 0) (replicate nports 0) (replicate nports (Port 0 PHY false false 0)).

(** ** Arguments *)
Definition parse_client_num (s : app) (client : string) : Z * app :=
  if String.eqb client "" then (-1, s)
  else let '(temp, e) := strtoul client 10 in
       if negb (String.eqb e "") then (-1, s) else (0, s <| client_id := u8 temp |>).

Definition parse_server (s : app) (server_port : string) : Z * app :=
  if String.eqb server_port "" then (-1, s)
  else match strtok ":" server_port with
  | None => (-1, s <| server_ip := None |>)
  | Some (ip, rest) =>
      let s := s <| server_ip := Some ip |> in
      match strtok ":" rest with
      | None => (-1, s)
      | Some (token, _) => (0, s <| tcpport := atoi token |>)
      end
  end.

Fixpoint parse_opts (s : app) (evs : list opt_event) : Z * app :=
  match evs with
  | [] => (0, s)
  | Opt c arg :: evs =>
      if Ascii.eqb c "n"%char then
        let '(r, s) := parse_client_num s arg in if negb (r =? 0) then (-1, s) else parse_opts s evs
      else if Ascii.eqb c "s"%char then
        let '(r, s) := parse_server s arg in if negb (r =? 0) then (-1, s) else parse_opts s evs
      else (-1, s)
  | OptErr :: _ => (-1, s)
  end.
Definition parse_app_args (s : app) (argv : list string) : Z * app := parse_opts s (getopt_long "n:s:" argv).

(** ** The patch table *)
Definition forward_array_init (ports : list port) : list port :=
  (λ p, p <| status := -99 |> <| type := UNDEF |> <| out_port_id := -99 |>) <$> ports.
Definition forward_array_reset (ports : list port) : list port :=
  (λ p, if -1 <? status p then p <| out_port_id := -99 |> else p) <$> ports.

Definition type_name (t : port_type) : string :=
  match t with PHY => "PHY," | RING => "RING," | VHOST => "VHOST," | UNDEF => "UDF," end.
Definition port_line (i : nat) (p : port) : string :=
  if 0 <=? status p then
    "port id: " +:+ fmt_d (Z.of_nat i) +:+ "," +:+ (if 0 <=? status p then "on," else "off,") +:+
    type_name (type p) +:+ "outport: " +:+ fmt_d (out_port_id p) +:+ String "010" ""
  else "".
(** The status text; [None] when it does not fit the buffer of the message. *)
Definition active_ports_text (s : app) : string :=
  fmt_d (client_id s) +:+ String "010" "" +:+
  foldr String.append "" (imap port_line (ports_fwd_array s)).
Definition print_active_ports (s : app) : option string :=
  let str := active_ports_text s in if strlen str <? MSG_SIZE then Some str else None.

(** [patch <in> <out>], assignment by assignment. *)
Definition patch_in (i o : Z) (ports : list port) : option (list port) :=
  p ← load ports i; store ports i (p <| status := i |> <| rx_func := true |> <| tx_func := true |> <| out_port_id := o |>).
Definition patch_out (o : Z) (ports : list port) : option (list port) :=
  p ← load ports o; store ports o (p <| status := o |> <| rx_func := true |> <| tx_func := true |>).
Definition patch (i o : Z) (ports : list port) : option (list port) :=
  ports ← patch_in i o ports; patch_out o ports.

(** A new port enters the table. *)
Definition add_port (pid : Z) (t : port_type) (ports : list port) : option (list port) :=
  p ← load ports pid; store ports pid (p <| status := pid |> <| type := t |>).

Section app.
Context {W A : Type} `{!Platform W A}.
Variable (v : variant).

(** ** Commands *)

(** What handling a message leads to: a reply and the next message, the end
    of the loop, or the end of the process ([rte_exit]). *)
Inductive outcome := Reply (s : app) (str : string) | Break (s : app) | Exit.

Definition word (tokens : list string) (i : nat) : option string := tokens !! i.

(** The ring a number stands for. *)
Definition ring_name (n : Z) : string :=
  match v with
  | NfvPy => get_rx_queue_name n
  | SecZerocpy =>
      let ring_id := u16 n in
      if 255 <=? ring_id then get_ring_name (Z.shiftr ring_id 8) else get_rx_queue_name ring_id
  end.
(** The index the new port's number is used as: an [int], or a [uint16_t]. *)
Definition ring_port_index (r : Z) : Z := match v with NfvPy => r | SecZerocpy => u16 r end.

(** The function [add ring] makes the port with; [add rx] and [add tx] always
    use [rte_eth_from_ring]. *)
Definition ring_maker_used : ring_maker := match v with NfvPy => From_ring | SecZerocpy => From_ring_s0 end.

(** Finds the ring and makes a port of it; [inl] is [rte_exit]. *)
Definition open_ring (w : W) (mk : ring_maker) (nm : string) : option (unit + Z * W) :=
  '(r, w) ← lookup_ring w nm;
  match r with
  | None => Some (inl tt)
  | Some a => '(pid, w) ← port_from_ring w mk a; Some (inr (pid, w))
  end.

Definition add_vhost (s : app) (w : W) (tokens : list string) : option (unit + app * W) :=
  mp ← lookup_pool w PKTMBUF_POOL_NAME;
  match mp with
  | None => Some (inl tt)
  | Some mp =>
      t2 ← word tokens 2;
      let index := atoi t2 in
      '(pid, w) ← port_from_vhost w (get_vhost_backend_name index) index (get_vhost_iface_name index) mp;
      ports ← add_port pid VHOST (ports_fwd_array s);
      Some (inr (s <| ports_fwd_array := ports |>, w))
  end.

Definition add_ring (s : app) (w : W) (tokens : list string) : option (unit + app * W) :=
  t2 ← word tokens 2;
  r ← open_ring w ring_maker_used (ring_name (atoi t2));
  match r with
  | inl _ => Some (inl tt)
  | inr (pid, w) =>
      ports ← add_port (ring_port_index pid) RING (ports_fwd_array s);
      Some (inr (s <| ports_fwd_array := ports |>, w))
  end.

(** [add rx] and [add tx] fill the position [save_pos] of the loop tables;
    port numbers are stored as [unsigned]. *)
Definition add_dir (s : app) (w : W) (tokens : list string) (rings ports : list Z) :
    option (unit + list Z * list Z * W) :=
  t2 ← word tokens 2;
  if strcmp_eq t2 "ring" then
    t3 ← word tokens 3;
    rings ← store rings (save_pos s) (u32 (atoi t3));
    r ← open_ring w From_ring (get_rx_queue_name (u32 (atoi t3)));
    match r with
    | inl _ => Some (inl tt)
    | inr (pid, w) => ports ← store ports (save_pos s) (u32 pid); Some (inr (rings, ports, w))
    end
  else ports ← store ports (save_pos s) (u32 (atoi t2)); Some (inr (rings, ports, w)).

Definition add_rx (s : app) (w : W) (tokens : list string) : option (unit + app * W) :=
  r ← add_dir s w tokens (rx_rings s) (rx_ports s);
  match r with
  | inl _ => Some (inl tt)
  | inr (rings, ports, w) =>
      fs ← store (rx_funcs s) (save_pos s) true;
      Some (inr (s <| rx_rings := rings |> <| rx_ports := ports |> <| rx_funcs := fs |>, w))
  end.
Definition add_tx (s : app) (w : W) (tokens : list string) : option (unit + app * W) :=
  r ← add_dir s w tokens (tx_rings s) (tx_ports s);
  match r with
  | inl _ => Some (inl tt)
  | inr (rings, ports, w) =>
      fs ← store (tx_funcs s) (save_pos s) true;
      Some (inr (s <| tx_rings := rings |> <| tx_ports := ports |> <| tx_funcs := fs |>, w))
  end.

(** The four tests of [add] follow each other. *)
Definition and_if (t1 kw : string) (k : app → W → option (unit + app * W))
    (r : unit + app * W) : option (unit + app * W) :=
  match r with
  | inl _ => Some r
  | inr (s, w) => if strcmp_eq t1 kw then k s w else Some r
  end.
Definition cmd_add (s : app) (w : W) (tokens : list string) : option (unit + app * W) :=
  t1 ← word tokens 1;
  r ← and_if t1 "vhost" (λ s w, add_vhost s w tokens) (inr (s, w));
  r ← and_if t1 "ring" (λ s w, add_ring s w tokens) r;
  r ← and_if t1 "rx" (λ s w, add_rx s w tokens) r;
  and_if t1 "tx" (λ s w, add_tx s w tokens) r.

Definition cmd_patch (s : app) (tokens : list string) : option app :=
  t1 ← word tokens 1;
  if strncmp_eq t1 "reset" 5 then Some (s <| ports_fwd_array := forward_array_reset (ports_fwd_array s) |>)
  else
    let in_port := atoi t1 in
    p ← load (ports_fwd_array s) in_port;
    t2 ← word tokens 2;
    ports ← patch in_port (atoi t2) (ports_fwd_array s);
    Some (s <| ports_fwd_array := ports |>).

Definition cmd_del (s : app) (tokens : list string) : option app :=
  let s := s <| cmd := STOP |> in
  t1 ← word tokens 1;
  s ← (if strcmp_eq t1 "rx" then
         _ ← word tokens 2;
         ps ← store (rx_ports s) (save_pos s) (RTE_MAX_ETHPORTS + 1);
         fs ← store (rx_funcs s) (save_pos s) false;
         Some (s <| rx_ports := ps |> <| rx_funcs := fs |>)
       else Some s);
  if strcmp_eq t1 "tx" then
    _ ← word tokens 2;
    ps ← store (tx_ports s) (save_pos s) (RTE_MAX_ETHPORTS + 1);
    fs ← store (tx_funcs s) (save_pos s) false;
    Some (s <| tx_ports := ps |> <| tx_funcs := fs |>)
  else Some s.

(** The message as a C string once [strtok] has cut it: the first word with
    what precedes it. *)
Fixpoint cut_first (str : string) : string :=
  match str with
  | String c rest => if is_delim " " c then String c (cut_first rest) else fst (span_token " " str)
  | EmptyString => EmptyString
  end.

(** One message. It must leave room for its NUL, and its words and the NULL
    after them for [token_list]. After [status] the first word has been
    overwritten by the reply, which is none of the later keywords. *)
Definition handle_message (s : app) (w : W) (str : string) : option (outcome * W) :=
  if MSG_SIZE <=? strlen str then None else
  let tokens := tokenize " " str in
  if MAX_PARAMETER <=? Z.of_nat (length tokens) then None else
  t0 ← word tokens 0;
  let reply := cut_first str in
  if strcmp_eq t0 "status" then str ← print_active_ports s; Some (Reply s str, w)
  else if strcmp_eq t0 "exit" then Some (Break (s <| cmd := STOP |>), w)
  else if strcmp_eq t0 "start" then Some (Reply (s <| cmd := START |>) reply, w)
  else if strcmp_eq t0 "stop" then Some (Reply (s <| cmd := STOP |>) reply, w)
  else if strcmp_eq t0 "forward" then Some (Reply (s <| cmd := FORWARD |>) reply, w)
  else if strcmp_eq t0 "add" then
    r ← cmd_add s w tokens;
    match r with inl _ => Some (Exit, w) | inr (s, w) => Some (Reply s reply, w) end
  else if strcmp_eq t0 "patch" then s ← cmd_patch s tokens; Some (Reply s reply, w)
  else if strcmp_eq t0 "del" then s ← cmd_del s tokens; Some (Reply s reply, w)
  else if strcmp_eq t0 "save" then
    t1 ← word tokens 1;
    let input_pos := u32 (atoi t1) in
    if input_pos =? exec_pos s then
      Some (Reply s ("Save == loop position: cleint " +:+ fmt_d (client_id s) +:+ String "010" ""), w)
    else
      Some (Reply (s <| save_pos := input_pos |>)
              ("Save changed: " +:+ fmt_d (i32 input_pos) +:+ " for client " +:+ fmt_d (client_id s) +:+ String "010" ""), w)
  else if strcmp_eq t0 "exec" then
    t1 ← word tokens 1;
    let pos := u32 (atoi t1) in
    Some (Reply (s <| exec_pos := pos |>)
            ("Loop changed: " +:+ fmt_d (i32 pos) +:+ " for client " +:+ fmt_d (client_id s) +:+ String "010" ""), w)
  else Some (Reply s reply, w).

(** ** Start-up: the table with the physical ports *)
Definition init_port_entry (w : W) (i : nat) (p : port) : port :=
  match dev_type_of w (Z.of_nat i) with
  | Some RTE_ETH_DEV_PCI => p <| status := Z.of_nat i |> <| type := PHY |>
  | _ => p
  end.
Definition init_ports (w : W) (ports : list port) : list port :=
  let nb := Z.to_nat (Z.min (dev_count w) RTE_MAX_ETHPORTS) in
  imap (λ i p, if decide (i < nb)%nat then init_port_entry w i p else p) ports.
Definition main_init (s : app) (w : W) (argv : list string) : option app :=
  let '(r, s) := parse_app_args s argv in
  if r <? 0 then None
  else Some (s <| ports_fwd_array := init_ports w (forward_array_init (ports_fwd_array s)) |>).

(** ** The packet loop *)

(** What a pass does with the packets of one port. *)
Inductive moved := Moved (in_port out_port : Z) (sent freed : list A).

Fixpoint free_all (w : W) (bufs : list A) : option W :=
  match bufs with [] => Some w | b :: bufs => w ← free_buf w b; free_all w bufs end.

Definition forward_port (ports : list port) (i : Z) (w : W) : option (list moved * W) :=
  p ← load ports i;
  if (0 <=? status p) && (0 <=? out_port_id p) then
    if negb (rx_func p) then None else
    '(bufs, w) ← rx_burst w i MAX_PKT_BURST;
    if (length bufs =? 0)%nat then Some ([], w) else
    q ← load ports (out_port_id p);
    if negb (tx_func q) then None else
    '(nb_tx, w) ← tx_burst w (out_port_id p) bufs;
    let unsent := drop (Z.to_nat nb_tx) bufs in
    w ← free_all w unsent;
    Some ([Moved i (out_port_id p) (take (Z.to_nat nb_tx) bufs) unsent], w)
  else Some ([], w).

Fixpoint forward_from (ports : list port) (fuel : nat) (i : Z) (w : W) : option (list moved * W) :=
  match fuel with
  | O => Some ([], w)
  | S f =>
      '(es, w) ← forward_port ports i w;
      '(es', w) ← forward_from ports f (i + 1) w;
      Some (es ++ es', w)
  end.
Definition forward (ports : list port) (w : W) : option (list moved * W) := forward_from ports nports 0 w.

Definition rxtx (s : app) (w : W) : option (list moved * W) :=
  let curr := exec_pos s in
  rf ← load (rx_funcs s) curr;
  rp ← load (rx_ports s) curr;
  if negb rf then None else
  '(bufs, w) ← rx_burst w (u8 rp) MAX_PKT_BURST;
  if (length bufs =? 0)%nat then Some ([], w) else
  tf ← load (tx_funcs s) curr;
  tp ← load (tx_ports s) curr;
  if negb tf then None else
  '(nb_tx, w) ← tx_burst w (u8 tp) bufs;
  let unsent := drop (Z.to_nat nb_tx) bufs in
  w ← free_all w unsent;
  Some ([Moved (u8 rp) (u8 tp) (take (Z.to_nat nb_tx) bufs) unsent], w).

(** One turn of [nfv_loop]. *)
Definition nfv_loop_turn (s : app) (w : W) : option (list moved * W) :=
  match cmd s with
  | STOP => Some ([], w)
  | LOOPBACK | RXTX => rxtx s w
  | FORWARD => forward (ports_fwd_array s) w
  | _ => Some ([], w)
  end.
End app.
Arguments outcome : clear implicits.

(** ** The invariant of the patch table

    An entry is unused or holds its own number; a patched port can receive and
    its target is in the table, in use and can send. *)
Record table_ok (ports : list port) : Prop := {
  tab_len : length ports = nports;
  tab_status : ∀ i p, ports !! i = Some p → status p = -99 ∨ status p = Z.of_nat i;
  tab_out : ∀ i p, ports !! i = Some p → out_port_id p = -99 ∨
    (0 <= out_port_id p ∧ status p = Z.of_nat i ∧ rx_func p = true ∧
     ∃ q, ports !! Z.to_nat (out_port_id p) = Some q ∧ status q = out_port_id p ∧ tx_func q = true) }.

(** Changing one entry: it may gain functions and a new target, its number
    stays or becomes its own. *)
Lemma table_update ports i p p' : table_ok ports → ports !! i = Some p →
  status p' = Z.of_nat i ∨ status p' = status p →
  (tx_func p = true → status p = Z.of_nat i → tx_func p' = true ∧ status p' = Z.of_nat i) →
  (out_port_id p' = -99 ∨
   0 <= out_port_id p' ∧ status p' = Z.of_nat i ∧ rx_func p' = true ∧
   (out_port_id p' = Z.of_nat i ∧ tx_func p' = true ∨
    ∃ q, Z.to_nat (out_port_id p') ≠ i ∧ ports !! Z.to_nat (out_port_id p') = Some q ∧
         status q = out_port_id p' ∧ tx_func q = true)) →
  table_ok (<[i := p']> ports).
Proof.
  intros [Hl Hs Ho] Hp Hst Htx Hout. pose proof (lookup_lt_Some _ _ _ Hp) as Hi. split.
  - by rewrite length_insert.
  - intros j q [(<- & <- & _)|[_ Hq]]%list_lookup_insert_Some; [|by apply Hs].
    destruct Hst as [->| ->]; [by right|by apply Hs].
  - intros j q [(<- & <- & _)|[Hne Hq]]%list_lookup_insert_Some.
    + destruct Hout as [?|(H0 & H1 & H2 & H3)]; [by left|right]. split_and!; try done.
      destruct H3 as [[He Ht]|(q & Hne & Hq & H3 & H4)].
      * exists p'. rewrite He, Nat2Z.id, list_lookup_insert_eq by done. by rewrite H1.
      * exists q. by rewrite list_lookup_insert_ne.
    + destruct (Ho _ _ Hq) as [?|(H0 & H1 & H2 & r & Hr & H3 & H4)]; [by left|right]. split_and!; try done.
      destruct (decide (i = Z.to_nat (out_port_id q))) as [E|E].
      * rewrite <- E in *. simplify_eq. exists p'. rewrite list_lookup_insert_eq by done.
        assert (out_port_id q = Z.of_nat (Z.to_nat (out_port_id q))) as E' by lia.
        rewrite E' in H3. destruct (Htx H4 H3) as [-> H5]. by rewrite H5.
      * exists r. by rewrite list_lookup_insert_ne.
Qed.

Lemma add_port_ok pid t ports ports' : table_ok ports → add_port pid t ports = Some ports' → table_ok ports'.
Proof.
  intros Hok H. unfold add_port in H. apply bind_Some in H as (p & Hp & H).
  apply load_Some in Hp as [H0 Hp]. apply store_Some in H as [_ ->].
  eapply table_update; [done|done| | |]; simpl.
  - left. lia.
  - intros. split; [done|lia].
  - destruct (tab_out _ Hok _ _ Hp) as [?|(? & Hs & ? & q & Hq & ? & ?)]; [by left|right].
    split_and!; [done|lia|done|].
    destruct (decide (Z.to_nat (out_port_id p) = Z.to_nat pid)); [left; simplify_eq; split; [lia|congruence]|right; eauto].
Qed.

Lemma patch_out_ok o ports ports' : table_ok ports → patch_out o ports = Some ports' → table_ok ports'.
Proof.
  intros Hok H. unfold patch_out in H. apply bind_Some in H as (p & Hp & H).
  apply load_Some in Hp as [H0 Hp]. apply store_Some in H as [_ ->].
  eapply table_update; [done|done| | |]; simpl.
  - left. lia.
  - intros. split; [done|lia].
  - destruct (tab_out _ Hok _ _ Hp) as [?|(? & Hs & ? & q & Hq & ? & ?)]; [by left|right].
    split_and!; [done|lia|done|].
    destruct (decide (Z.to_nat (out_port_id p) = Z.to_nat o)); [left; split; [lia|done]|right; eauto].
Qed.

(** The order of the assignments of [patch] does not matter for its result
    when both ports are in range. *)
Lemma patch_swap i o ports ports' : patch i o ports = Some ports' →
  ∃ ports1, patch_out o ports = Some ports1 ∧ patch_in i o ports1 = Some ports'.
Proof.
  unfold patch, patch_in, patch_out. intros H. apply bind_Some in H as (ports1 & H1 & H2).
  apply bind_Some in H1 as (p & Hp & H1). apply load_Some in Hp as [Hi Hp]. apply store_Some in H1 as [Hli ->].
  apply bind_Some in H2 as (q & Hq & H2). apply load_Some in Hq as [Ho Hq]. apply store_Some in H2 as [Hlo ->].
  rewrite length_insert in Hlo.
  assert (∀ (l : list port) j, 0 <= j → load l j = l !! Z.to_nat j) as Hload by (intros; unfold load; by rewrite decide_True).
  destruct (decide (Z.to_nat i = Z.to_nat o)) as [E|E].
  - assert (i = o) as -> by lia. rewrite list_lookup_insert_eq in Hq by lia. simplify_eq. rewrite Hload, Hp by done. simpl.
    rewrite store_in by lia. eexists. split; [done|]. rewrite Hload, list_lookup_insert_eq by lia. simpl.
    rewrite store_in by (rewrite length_insert; lia). by rewrite !list_insert_insert_eq.
  - rewrite list_lookup_insert_ne in Hq by done. rewrite (Hload ports), Hq by done. simpl. rewrite store_in by lia.
    eexists. split; [done|]. rewrite Hload, list_lookup_insert_ne, Hp by done. simpl.
    rewrite store_in by (rewrite length_insert; lia). by rewrite list_insert_insert_ne by done.
Qed.

Lemma patch_ok i o ports ports' : table_ok ports → patch i o ports = Some ports' → table_ok ports'.
Proof.
  intros Hok H. destruct (patch_swap _ _ _ _ H) as (ports1 & H1 & H2).
  pose proof (patch_out_ok _ _ _ Hok H1) as Hok1. unfold patch_out in H1. unfold patch_in in H2.
  apply bind_Some in H1 as (q & Hq & H1). apply load_Some in Hq as [Ho Hq]. apply store_Some in H1 as [Hlo E].
  apply bind_Some in H2 as (p & Hp & H2). apply load_Some in Hp as [Hi Hp]. apply store_Some in H2 as [Hli ->].
  eapply table_update; [done|done| | |]; simpl.
  - left. lia.
  - intros. split; [done|lia].
  - right. split_and!; [done|lia|done|]. destruct (decide (Z.to_nat o = Z.to_nat i)); [left; split; [lia|done]|right].
    eexists. split; [done|]. rewrite E, list_lookup_insert_eq by lia. done.
Qed.

Lemma patch_run i o ports : 0 <= i < Z.of_nat (length ports) → 0 <= o < Z.of_nat (length ports) →
  ∃ ports', patch i o ports = Some ports' ∧ length ports' = length ports ∧
    (∃ p, ports' !! Z.to_nat i = Some p ∧ status p = i ∧ out_port_id p = o) ∧
    (∃ q, ports' !! Z.to_nat o = Some q ∧ status q = o ∧ tx_func q = true) ∧
    (∀ j p, j ≠ Z.to_nat i → ports !! j = Some p → ∃ p', ports' !! j = Some p' ∧ out_port_id p' = out_port_id p ∧
       (j ≠ Z.to_nat o → p' = p)).
Proof.
  intros Hi Ho. unfold patch, patch_in, patch_out. destruct (load_in ports i Hi) as (p & -> & Hp). simpl.
  rewrite store_in by done. simpl.
  set (p1 := p <| status := i |> <| rx_func := true |> <| tx_func := true |> <| out_port_id := o |>).
  destruct (load_in (<[Z.to_nat i := p1]> ports) o) as (q & -> & Hq); [by rewrite length_insert|]. simpl.
  rewrite store_in by (by rewrite length_insert).
  eexists. split; [done|]. rewrite !length_insert. split; [done|]. split_and!.
  - destruct (decide (Z.to_nat i = Z.to_nat o)) as [E|E].
    + rewrite E in *. rewrite list_lookup_insert_eq in Hq by lia. simplify_eq.
      rewrite list_lookup_insert_eq by (rewrite length_insert; lia). eexists. split; [done|]. simpl. split; [lia|done].
    + rewrite list_lookup_insert_ne, list_lookup_insert_eq by (done || lia). by eexists.
  - rewrite list_lookup_insert_eq by (rewrite length_insert; lia). by eexists.
  - intros j r Hj Hr. destruct (decide (j = Z.to_nat o)) as [->|Hne].
    + rewrite list_lookup_insert_eq by (rewrite length_insert; lia). rewrite list_lookup_insert_ne in Hq by done.
      simplify_eq. eexists. split; [done|]. by split.
    + rewrite !list_lookup_insert_ne by done. by exists r.
Qed.

Lemma init_table_ok ports : length ports = nports → table_ok (forward_array_init ports).
Proof.
  intros Hl. split; [by rewrite <- Hl; apply length_fmap| |]; intros i p H;
    apply list_lookup_fmap_Some in H as (q & -> & _); by left.
Qed.

Lemma reset_table_ok ports : table_ok ports → table_ok (forward_array_reset ports).
Proof.
  intros [Hl Hs Ho]. unfold forward_array_reset. split; [by rewrite <- Hl; apply length_fmap| |];
    intros i p H; apply list_lookup_fmap_Some in H as (q & -> & Hq).
  - destruct (Z.ltb_spec (-1) (status q)); simpl; by apply Hs.
  - destruct (Z.ltb_spec (-1) (status q)); simpl; [by left|].
    destruct (Ho _ _ Hq) as [?|(? & ? & _)]; [by left|lia].
Qed.

Section proofs.
Context {W A : Type} `{!Platform W A}.
Variable (v : variant).
Implicit Types (w : W) (s : app).

Definition app_ok s : Prop := table_ok (ports_fwd_array s).

Lemma init_ports_ok w ports : length ports = nports → table_ok (init_ports w (forward_array_init ports)).
Proof.
  intros Hl. destruct (init_table_ok ports Hl) as [L1 S1 O1]. unfold init_ports.
  assert (∀ i p, imap (λ i p, if decide (i < Z.to_nat (Z.min (dev_count w) RTE_MAX_ETHPORTS))%nat
    then init_port_entry w i p else p) (forward_array_init ports) !! i = Some p →
    (status p = -99 ∨ status p = Z.of_nat i) ∧ out_port_id p = -99) as H.
  { intros i p Hp. rewrite list_lookup_imap in Hp. apply fmap_Some in Hp as (q & Hq & ->).
    unfold forward_array_init in Hq. apply list_lookup_fmap_Some in Hq as (r & -> & _).
    unfold init_port_entry. case_decide; [|simpl; auto]. repeat case_match; simpl; auto. }
  split; [rewrite length_imap; exact L1| |]; intros i p Hp; [apply (H i p Hp)|left; apply (H i p Hp)].
Qed.


Lemma cmd_add_ok s w tokens s' w' : app_ok s → cmd_add v s w tokens = Some (inr (s', w')) → app_ok s'.
Proof.
  intros Hok H. unfold cmd_add in H. apply bind_Some in H as (t1 & _ & H).
  assert (∀ kw k r r', (∀ s w s' w', app_ok s → k s w = Some (inr (s', w')) → app_ok s') →
    (∀ s w, r = inr (s, w) → app_ok s) → and_if t1 kw k r = Some r' → ∀ s w, r' = inr (s, w) → app_ok s) as Hif.
  { intros kw k r r' Hk Hr E s1 w1 ->. unfold and_if in E. destruct r as [|[s0 w0]]; [done|].
    destruct (strcmp_eq t1 kw); [by eapply Hk, E; apply (Hr _ w0)|]. injection E as -> ->. by apply (Hr _ w1). }
  assert (∀ s w, (inr (s', w') : unit + app * W) = inr (s, w) → app_ok s) as Hgoal; [|by apply (Hgoal s' w')].
  apply bind_Some in H as (r1 & H1 & H). apply bind_Some in H as (r2 & H2 & H). apply bind_Some in H as (r3 & H3 & H).
  eapply (Hif "tx" _ _ _ _ _ H). Unshelve.
  - clear. intros s w s' w' Hok H. unfold add_tx in H. apply bind_Some in H as ([|[[l1 l2] w1]] & _ & H); [done|].
    apply bind_Some in H as (fs & _ & [= <- <-]). exact Hok.
  - eapply (Hif "rx" _ _ _ _ _ H3). Unshelve.
    + clear. intros s w s' w' Hok H. unfold add_rx in H. apply bind_Some in H as ([|[[l1 l2] w1]] & _ & H); [done|].
      apply bind_Some in H as (fs & _ & [= <- <-]). exact Hok.
    + eapply (Hif "ring" _ _ _ _ _ H2). Unshelve.
      * clear. intros s w s' w' Hok H. unfold add_ring in H. apply bind_Some in H as (t2 & _ & H).
        apply bind_Some in H as ([|[pid w1]] & _ & H); [done|]. apply bind_Some in H as (ports & Hp & [= <- <-]).
        by eapply add_port_ok.
      * eapply (Hif "vhost" _ _ _ _ _ H1). Unshelve.
        -- clear. intros s w s' w' Hok H. unfold add_vhost in H. apply bind_Some in H as ([mp|] & _ & H); [|done].
           apply bind_Some in H as (t2 & _ & H). apply bind_Some in H as ([pid w1] & _ & H).
           apply bind_Some in H as (ports & Hp & [= <- <-]). by eapply add_port_ok.
        -- intros s0 w0 [= <- <-]. exact Hok.
Qed.

Lemma cmd_patch_ok s tokens s' : app_ok s → cmd_patch s tokens = Some s' → app_ok s'.
Proof.
  intros Hok H. unfold cmd_patch in H. apply bind_Some in H as (t1 & _ & H). destruct (strncmp_eq t1 "reset" 5).
  - injection H as <-. by apply reset_table_ok.
  - apply bind_Some in H as (p & _ & H). apply bind_Some in H as (t2 & _ & H).
    apply bind_Some in H as (ports & Hp & [= <-]). by eapply patch_ok.
Qed.

Lemma cmd_del_ok s tokens s' : cmd_del s tokens = Some s' → ports_fwd_array s' = ports_fwd_array s.
Proof.
  unfold cmd_del. intros H. apply bind_Some in H as (t1 & _ & H). apply bind_Some in H as (s1 & H1 & H).
  assert (ports_fwd_array s1 = ports_fwd_array s) as <-.
  { destruct (strcmp_eq t1 "rx"); [|by injection H1 as <-]. apply bind_Some in H1 as (t2 & _ & H1).
    apply bind_Some in H1 as (? & _ & H1). by apply bind_Some in H1 as (? & _ & [= <-]). }
  destruct (strcmp_eq t1 "tx"); [|by injection H as <-]. apply bind_Some in H as (t2 & _ & H).
  apply bind_Some in H as (? & _ & H). by apply bind_Some in H as (? & _ & [= <-]).
Qed.

Lemma handle_message_ok s w str s' r w' : app_ok s →
  handle_message v s w str = Some (r, w') → (∃ str', r = Reply s' str') ∨ r = Break s' → app_ok s'.
Proof.
  intros Hok H Hr. unfold handle_message in H. destruct (MSG_SIZE <=? strlen str); [done|].
  destruct (MAX_PARAMETER <=? _); [done|]. apply bind_Some in H as (t0 & _ & H).
  repeat match type of H with
  | (if ?c then _ else _) = Some _ => destruct c
  | mbind _ _ = Some _ => apply bind_Some in H as (? & ? & H)
  end;
    try (injection H as <- <-; destruct Hr as [[? [= <- <-]]|[= <-]]; exact Hok).
  - destruct x as [|[s1 w1]]; injection H as <- <-; destruct Hr as [[? [= <- <-]]|[=]]. by eapply cmd_add_ok.
  - injection H as <- <-. destruct Hr as [[? [= <- <-]]|[=]]. by eapply cmd_patch_ok.
  - injection H as <- <-. destruct Hr as [[? [= <- <-]]|[=]]. unfold app_ok. by erewrite cmd_del_ok.
Qed.

(** A sequence of messages, up to the one that ends the loop or the process. *)
Fixpoint run_messages s w (msgs : list string) : option (app * W) :=
  match msgs with
  | [] => Some (s, w)
  | m :: msgs =>
      '(r, w) ← handle_message v s w m;
      match r with
      | Reply s _ => run_messages s w msgs
      | Break s => Some (s, w)
      | Exit => Some (s, w)
      end
  end.

Lemma run_messages_ok s w msgs s' w' : app_ok s → run_messages s w msgs = Some (s', w') → app_ok s'.
Proof.
  revert s w. induction msgs as [|m msgs IH]; intros s w Hok H; simpl in H; [by injection H as <- <-|].
  apply bind_Some in H as ([r w1] & Hm & H). destruct r as [s1 str|s1|].
  - eapply IH; [|done]. eapply handle_message_ok; eauto.
  - injection H as <- <-. eapply handle_message_ok; eauto.
  - by injection H as <- <-.
Qed.

(** The table is consistent at the start. *)
Lemma main_init_ok w0 argv s0 : main_init app_static w0 argv = Some s0 → app_ok s0.
Proof.
  unfold main_init. intros Hinit.
  destruct (parse_app_args app_static argv) as [r s1] eqn:E. destruct (r <? 0); [done|]. injection Hinit as <-.
  apply init_ports_ok. unfold parse_app_args in E. revert E. generalize (getopt_long "n:s:" argv). intros evs.
  assert (length (ports_fwd_array app_static) = nports) as H by done. revert H. generalize app_static.
  induction evs as [|[c arg|] evs IH]; intros s2 Hl E; simpl in E; [by injection E as _ <-| |by injection E as _ <-].
  destruct (Ascii.eqb c "n").
  - unfold parse_client_num in E. destruct (String.eqb arg ""); [by injection E as _ <-|].
    destruct (strtoul arg 10) as [t e]. destruct (negb (String.eqb e "")); [by injection E as _ <-|].
    simpl in E. by eapply IH, E.
  - destruct (Ascii.eqb c "s"); [|by injection E as _ <-].
    unfold parse_server in E. destruct (String.eqb arg ""); [by injection E as _ <-|].
    destruct (strtok ":" arg) as [[ip rest]|]; [|by injection E as _ <-].
    destruct (strtok ":" rest) as [[tk ?]|]; [|by injection E as _ <-]. simpl in E. by eapply IH, E.
Qed.

(** The messages, other than [add], for which the text has all that the code
    uses of it: it fits its buffer with at most nine words, has the words of its
    command, and names ports of the table; the reply of [status] fits, and the
    position of [del] is one of the arrays. *)
Definition sound_message (s : app) (str : string) : bool :=
  let tokens := tokenize " " str in
  let port i := match tokens !! i with Some t => (0 <=? atoi t) && (atoi t <? RTE_MAX_ETHPORTS) | None => false end in
  let words n := (n <=? length tokens)%nat in
  (strlen str <? MSG_SIZE) && (Z.of_nat (length tokens) <? MAX_PARAMETER) &&
  match tokens with
  | [] => false
  | t0 :: _ =>
      if strcmp_eq t0 "status" then strlen (active_ports_text s) <? MSG_SIZE
      else if strcmp_eq t0 "add" then false
      else if strcmp_eq t0 "patch" then
        match tokens !! 1%nat with Some t => strncmp_eq t "reset" 5 || port 1%nat && port 2%nat | None => false end
      else if strcmp_eq t0 "del" then
        words 3%nat && forallb (λ n, (0 <=? save_pos s) && (save_pos s <? Z.of_nat n))
          [length (rx_ports s); length (rx_funcs s); length (tx_ports s); length (tx_funcs s)]
      else if strcmp_eq t0 "save" || strcmp_eq t0 "exec" then words 2%nat
      else true
  end.

Lemma cmd_patch_runs s tokens t1 : app_ok s → tokens !! 1%nat = Some t1 →
  strncmp_eq t1 "reset" 5 || (0 <=? atoi t1) && (atoi t1 <? RTE_MAX_ETHPORTS) &&
    match tokens !! 2%nat with Some t => (0 <=? atoi t) && (atoi t <? RTE_MAX_ETHPORTS) | None => false end = true →
  is_Some (cmd_patch s tokens).
Proof.
  intros Hok H1 H. unfold cmd_patch, word. rewrite H1. simpl. destruct (strncmp_eq t1 "reset" 5); [done|]. simpl in H.
  destruct (tokens !! 2%nat) as [t2|]; [|by rewrite andb_false_r in H]. rewrite !andb_true_iff, !Z.leb_le, !Z.ltb_lt in H.
  assert (Z.of_nat (length (ports_fwd_array s)) = RTE_MAX_ETHPORTS) as Hl by (by rewrite (tab_len _ Hok)).
  destruct (load_in (ports_fwd_array s) (atoi t1)) as (p & -> & _); [lia|]. simpl.
  destruct (patch_run (atoi t1) (atoi t2) (ports_fwd_array s)) as (ports & -> & _); [lia..|]. done.
Qed.
Lemma cmd_del_runs s tokens : (3 <= length tokens)%nat →
  forallb (λ n, (0 <=? save_pos s) && (save_pos s <? Z.of_nat n))
    [length (rx_ports s); length (rx_funcs s); length (tx_ports s); length (tx_funcs s)] = true →
  is_Some (cmd_del s tokens).
Proof.
  intros Hl H. cbn [forallb] in H. rewrite !andb_true_iff, !Z.leb_le, !Z.ltb_lt in H. destruct H as ([_ ?] & [_ ?] & [_ ?] & [? ?] & _).
  unfold cmd_del, word. destruct tokens as [|t0 [|t1 [|t2 ?]]]; simpl in Hl; try lia. cbn [lookup list_lookup mbind option_bind].
  destruct (strcmp_eq t1 "rx"); simpl; rewrite ?store_in by (simpl; lia); simpl; destruct (strcmp_eq t1 "tx"); simpl;
    rewrite ?store_in by (simpl; lia); done.
Qed.

Lemma sound_message_runs s w str : app_ok s → sound_message s str = true → is_Some (handle_message v s w str).
Proof.
  intros Hok H. unfold sound_message in H. rewrite !andb_true_iff, !Z.ltb_lt in H. destruct H as [[Hl Hw] H].
  unfold handle_message. rewrite !(proj2 (Z.leb_gt _ _)) by done. unfold word.
  destruct (tokenize " " str) as [|t0 ts] eqn:E; [done|]. cbn [lookup list_lookup mbind option_bind].
  destruct (strcmp_eq t0 "status"); [unfold print_active_ports; by rewrite H|].
  destruct (strcmp_eq t0 "exit"); [done|]. destruct (strcmp_eq t0 "start"); [done|].
  destruct (strcmp_eq t0 "stop"); [done|]. destruct (strcmp_eq t0 "forward"); [done|].
  destruct (strcmp_eq t0 "add"); [done|]. destruct (strcmp_eq t0 "patch").
  { destruct ((t0 :: ts) !! 1%nat) as [t1|] eqn:E1; [|done].
    destruct (cmd_patch_runs s (t0 :: ts) t1 Hok E1 H) as [s' ->]. done. }
  destruct (strcmp_eq t0 "del").
  { apply andb_true_iff in H as [H1%Nat.leb_le H2]. destruct (cmd_del_runs s (t0 :: ts) H1 H2) as [s' ->]. done. }
  destruct (strcmp_eq t0 "save"), (strcmp_eq t0 "exec"); try done; destruct ts as [|t1 ts]; try done;
    cbn [lookup list_lookup mbind option_bind]; destruct (_ =? _); done.
Qed.


(** ** Forwarding *)
Context `{!PlatformOk W A}.

(** The ports the table uses are ones bursts may be called on. *)
Definition table_usable (w : W) (ports : list port) : Prop :=
  ∀ i p, ports !! i = Some p → 0 <= out_port_id p → usable w (Z.of_nat i) ∧ usable w (out_port_id p).

Definition event_ok (ports : list port) (e : moved (A := A)) : Prop :=
  match e with
  | Moved i o sent freed =>
      0 <= i ∧ (∃ p, ports !! Z.to_nat i = Some p ∧ out_port_id p = o ∧ 0 <= o) ∧
      (0 < length (sent ++ freed) <= 32)%nat
  end.
Definition in_port (e : moved (A := A)) : Z := match e with Moved i _ _ _ => i end.

Lemma free_all_ok w (bufs : list A) : ∃ w', free_all w bufs = Some w' ∧ ∀ q, usable w q → usable w' q.
Proof.
  revert w. induction bufs as [|b bufs IH]; intros w; simpl; [by exists w|].
  destruct (free_ok w b) as (w1 & -> & H1). simpl. destruct (IH w1) as (w2 & -> & H2). exists w2. split; [done|auto].
Qed.

Lemma forward_port_ok ports i w : table_ok ports → table_usable w ports → (i < nports)%nat →
  ∃ es w', forward_port ports (Z.of_nat i) w = Some (es, w') ∧ Forall (event_ok ports) es ∧
    Forall (λ e, in_port e = Z.of_nat i) es ∧ (length es <= 1)%nat ∧ ∀ q, usable w q → usable w' q.
Proof.
  intros Hok Hu Hi. destruct (lookup_lt_is_Some_2 ports i) as [p Hp]; [by rewrite (tab_len _ Hok)|].
  unfold forward_port, MAX_PKT_BURST. rewrite load_nat, Hp. cbn [mbind option_bind].
  destruct (Z.leb_spec 0 (status p)), (Z.leb_spec 0 (out_port_id p)); cbn [andb];
    try (exists [], w; split_and!; try done; simpl; lia).
  destruct (tab_out _ Hok _ _ Hp) as [?|(_ & _ & Hrx & q & Hq & _ & Htx)]; [lia|]. rewrite Hrx. cbn [negb].
  destruct (Hu _ _ Hp ltac:(done)) as [Hui Huo].
  destruct (rx_ok w (Z.of_nat i) 32 Hui ltac:(lia)) as (bufs & w1 & -> & Hlen & Hk1). cbn [mbind option_bind].
  destruct (Nat.eqb_spec (length bufs) 0); [exists [], w1; split_and!; try done; simpl; lia|].
  assert (load ports (out_port_id p) = Some q) as ->. { unfold load. by rewrite decide_True. }
  cbn [mbind option_bind]. rewrite Htx. cbn [negb].
  destruct (tx_ok w1 (out_port_id p) bufs) as (m & w2 & -> & Hm & Hk2); [by apply Hk1|lia|]. cbn [mbind option_bind].
  destruct (free_all_ok w2 (drop (Z.to_nat m) bufs)) as (w3 & -> & Hk3). cbn [mbind option_bind].
  eexists _, w3. split; [done|]. split_and!; [|by repeat constructor|simpl; lia|auto].
  apply Forall_singleton. cbn [event_ok]. rewrite take_drop, Nat2Z.id. split_and!; [lia| |lia|lia]. by exists p.
Qed.

Lemma forward_from_ok ports fuel i w : table_ok ports → table_usable w ports → (i + fuel <= nports)%nat →
  ∃ es w', forward_from ports fuel (Z.of_nat i) w = Some (es, w') ∧ Forall (event_ok ports) es ∧
    Forall (λ e, Z.of_nat i <= in_port e) es ∧ StronglySorted Z.lt (in_port <$> es) ∧
    ∀ q, usable w q → usable w' q.
Proof.
  intros Hok. revert i w. induction fuel as [|f IH]; intros i w Hu Hf; simpl.
  { exists [], w. split_and!; try done; constructor. }
  destruct (forward_port_ok ports i w Hok Hu ltac:(lia)) as (e1 & w1 & -> & H1 & H2 & H3 & H4). simpl.
  replace (Z.of_nat i + 1) with (Z.of_nat (S i)) by lia.
  destruct (IH (S i) w1) as (e2 & w2 & -> & G1 & G2 & G3 & G4); [|lia|].
  { intros j p Hp Ho. destruct (Hu j p Hp Ho). auto. }
  simpl. eexists _, w2. split; [done|]. split_and!; [by apply Forall_app| | |auto].
  - apply Forall_app. split; (eapply Forall_impl; [done|]); simpl; intros; lia.
  - destruct e1 as [|x [|y e1]]; [done| |simpl in H3; lia]. simpl. constructor; [done|].
    apply Forall_inv in H2. apply Forall_fmap. eapply Forall_impl; [exact G2|]. simpl. intros; lia.
Qed.

(** A pass of [forward] over a consistent table whose patched ports exist
    always completes (no NULL function is called, no entry outside the table is
    used): it serves the ports in ascending order, each at most once, takes at
    most 32 packets from a patched port, hands them to the port it is patched
    to, and frees exactly the packets that port did not take. *)
Theorem forward_follows_table ports w (Hok : table_ok ports) (Hu : table_usable w ports) :
  ∃ es w', forward ports w = Some (es, w') ∧ Forall (event_ok ports) es ∧ StronglySorted Z.lt (in_port <$> es) ∧
    table_usable w' ports.
Proof.
  destruct (forward_from_ok ports nports 0 w Hok Hu ltac:(lia)) as (es & w' & H1 & H2 & _ & H3 & H4).
  exists es, w'. split_and!; try done. intros i p Hp Ho. destruct (Hu i p Hp Ho). auto.
Qed.
End proofs.

(** ** The text of the commands *)

Definition patch_text (i o : Z) : string := "patch " +:+ fmt_d i +:+ " " +:+ fmt_d o.

(** The words and numbers of every patch command on valid ports. *)
Definition patch_text_ok (i o : nat) : bool :=
  let t := patch_text (Z.of_nat i) (Z.of_nat o) in
  bool_decide (tokenize " " t = ["patch"; fmt_d (Z.of_nat i); fmt_d (Z.of_nat o)]) && (strlen t <? MSG_SIZE) &&
  (atoi (fmt_d (Z.of_nat i)) =? Z.of_nat i) && (atoi (fmt_d (Z.of_nat o)) =? Z.of_nat o) &&
  negb (strncmp_eq (fmt_d (Z.of_nat i)) "reset" 5) && bool_decide (cut_first t = "patch").
Lemma patch_texts_ok : forallb (λ i, forallb (patch_text_ok i) (seq 0 32)) (seq 0 32) = true.
Proof. vm_compute. reflexivity. Qed.

Lemma patch_text_spec i o : 0 <= i < RTE_MAX_ETHPORTS → 0 <= o < RTE_MAX_ETHPORTS →
  patch_text_ok (Z.to_nat i) (Z.to_nat o) = true.
Proof.
  unfold RTE_MAX_ETHPORTS. intros Hi Ho. pose proof patch_texts_ok as H. rewrite forallb_forall in H.
  specialize (H (Z.to_nat i)). rewrite in_seq, forallb_forall in H.
  apply H; [lia|]. rewrite in_seq. lia.
Qed.

(** C34: The command [patch <i> <o>], as text, with port numbers below 32 and a
    consistent table patches port [i] to port [o], in [nfv_py] and in
    [sec_zerocpy]: the reply is sent, both ports are in use afterwards, the
    target can send, the routes of all other ports are as before and the entries
    of the ports not named are unchanged. No other field of the application and
    nothing outside it changes. *)
Theorem patch_command {W A} `{!Platform W A} v s (w : W) i o (Hok : table_ok (ports_fwd_array s))
    (Hi : 0 <= i < RTE_MAX_ETHPORTS) (Ho : 0 <= o < RTE_MAX_ETHPORTS) :
  ∃ ports', handle_message v s w (patch_text i o) = Some (Reply (s <| ports_fwd_array := ports' |>) "patch", w) ∧
    length ports' = length (ports_fwd_array s) ∧
    (∃ p, ports' !! Z.to_nat i = Some p ∧ status p = i ∧ out_port_id p = o) ∧
    (∃ q, ports' !! Z.to_nat o = Some q ∧ status q = o ∧ tx_func q = true) ∧
    (∀ j p, j ≠ Z.to_nat i → ports_fwd_array s !! j = Some p →
       ∃ p', ports' !! j = Some p' ∧ out_port_id p' = out_port_id p ∧ (j ≠ Z.to_nat o → p' = p)).
Proof.
  pose proof (patch_text_spec i o Hi Ho) as Ht. unfold patch_text_ok in Ht. rewrite !Z2Nat.id in Ht by lia.
  rewrite !andb_true_iff in Ht. destruct Ht as [[[[[Htok Hlen] Hai] Hao] Hres] Hcut].
  apply bool_decide_eq_true in Htok, Hcut. apply Z.eqb_eq in Hai, Hao. apply negb_true_iff in Hres.
  assert (length (ports_fwd_array s) = Z.to_nat RTE_MAX_ETHPORTS) as Hl by apply (tab_len _ Hok).
  destruct (patch_run i o (ports_fwd_array s)) as (ports' & Hp & Hl' & H1 & H2 & H3); [lia|lia|].
  exists ports'. split; [|done]. unfold handle_message.
  apply Z.ltb_lt in Hlen. destruct (Z.leb_spec MSG_SIZE (strlen (patch_text i o))); [lia|].
  rewrite Htok, Hcut. unfold MAX_PARAMETER, word. simpl. unfold cmd_patch, word. simpl. rewrite Hres, Hai, Hao.
  destruct (load_in (ports_fwd_array s) i) as (p & -> & _); [lia|]. simpl. by rewrite Hp.
Qed.

(** ** The status reply *)

Lemma pretty_go_length x s : (String.length s <= String.length (pretty_N_go x s))%nat.
Proof.
  revert s. induction (N.lt_wf_0 x) as [x _ IH]. intros s. destruct (decide (x = 0)%N) as [->|Hx].
  - by rewrite pretty_N_go_0.
  - rewrite pretty_N_go_step by lia. etrans; [|apply IH; apply N.div_lt; lia]. simpl. lia.
Qed.
Lemma pretty_N_length (x : N) : (1 <= String.length (pretty x))%nat.
Proof.
  unfold pretty, pretty_N. case_decide; [done|]. rewrite pretty_N_go_step by lia.
  etrans; [|apply pretty_go_length]. simpl. lia.
Qed.
Lemma fmt_d_length z : (1 <= String.length (fmt_d z))%nat.
Proof.
  unfold fmt_d. change (1 <= String.length (pretty_Z (i32 z)))%nat. unfold pretty_Z.
  destruct (i32 z); [done|apply pretty_N_length|]. simpl. lia.
Qed.

Lemma port_line_length i p : 0 <= status p → (29 <= String.length (port_line i p))%nat.
Proof.
  intros Hs. unfold port_line. destruct (Z.leb_spec 0 (status p)); [|lia].
  rewrite !string_app_length. pose proof (fmt_d_length (Z.of_nat i)). pose proof (fmt_d_length (out_port_id p)).
  destruct (type p); simpl; lia.
Qed.

Definition active (p : port) : Prop := 0 <= status p.

Lemma lines_length k ports :
  (29 * length (filter active ports) <=
   String.length (foldr String.append "" (imap (λ i, port_line (k + i)) ports)))%nat.
Proof.
  revert k. induction ports as [|p ports IH]; intros k; [done|]. rewrite filter_cons. simpl.
  rewrite string_app_length. specialize (IH (S k)).
  assert (imap ((λ i, port_line (k + i)) ∘ S) ports = imap (λ i, port_line (S k + i)) ports) as ->.
  { apply imap_ext. intros i x _. unfold compose. f_equal. lia. }
  case_decide as Hp; [|lia]. pose proof (port_line_length (k + 0) p Hp). cbn [length]. lia.
Qed.

(** The status reply is written into a buffer of 100 bytes without a check
    of its size: with four or more ports in use, whatever their types and
    routes, the text does not fit and the write runs past the buffer. *)
Theorem status_reply_overflows {W A} `{!Platform W A} v s (w : W)
    (Hports : (4 <= length (filter active (ports_fwd_array s)))%nat) :
  handle_message v s w "status" = None.
Proof.
  unfold handle_message. change (MSG_SIZE <=? strlen "status") with false. cbv iota.
  change (tokenize " " "status") with ["status"]. simpl. unfold print_active_ports, active_ports_text, strlen.
  rewrite !string_app_length. pose proof (lines_length 0 (ports_fwd_array s)) as H.
  change (imap (λ i, port_line (0 + i)) (ports_fwd_array s)) with (imap port_line (ports_fwd_array s)) in H.
  unfold MSG_SIZE. destruct (Z.ltb_spec (Z.of_nat (String.length (fmt_d (client_id s)) +
    (String.length (String "010" "") + String.length (foldr String.append "" (imap port_line (ports_fwd_array s)))))) 100); [|done].
  lia.
Qed.

(** ** Commands while packets flow

    The master lcore carries a [patch] out while a slave lcore runs [forward]
    on the same table, without a lock. The table changes one assignment at a
    time; the slave reads the route of a port, calls its receive function and
    then the send function of the target. *)
Definition assign (i : Z) (f : port → port) (ports : list port) : option (list port) :=
  p ← load ports i; store ports i (f p).
Definition patch_steps (i o : Z) : list (list port → option (list port)) :=
  [assign i (λ p, p <| status := i |>); assign i (λ p, p <| rx_func := true |>); assign i (λ p, p <| tx_func := true |>);
   assign i (λ p, p <| out_port_id := o |>);
   assign o (λ p, p <| status := o |>); assign o (λ p, p <| rx_func := true |>); assign o (λ p, p <| tx_func := true |>)].

Inductive slave := SScan (i : nat) | SRx (i : nat) (o : Z) | STx (o : Z) | SCrash.

Definition conf : Type := list port * list (list port → option (list port)) * slave.
Inductive cstep : conf → conf → Prop :=
  | c_assign ports a todo ports' sl : a ports = Some ports' → cstep (ports, a :: todo, sl) (ports', todo, sl)
  | c_next ports todo i j : cstep (ports, todo, SScan i) (ports, todo, SScan j)
  | c_route ports todo i p : ports !! i = Some p → 0 <= status p → 0 <= out_port_id p →
      cstep (ports, todo, SScan i) (ports, todo, SRx i (out_port_id p))
  | c_rx ports todo i o p : ports !! i = Some p → rx_func p = true →
      cstep (ports, todo, SRx i o) (ports, todo, STx o)
  | c_rx_null ports todo i o p : ports !! i = Some p → rx_func p = false →
      cstep (ports, todo, SRx i o) (ports, todo, SCrash)
  | c_tx ports todo o p j : load ports o = Some p → tx_func p = true →
      cstep (ports, todo, STx o) (ports, todo, SScan j)
  | c_tx_null ports todo o p : load ports o = Some p → tx_func p = false →
      cstep (ports, todo, STx o) (ports, todo, SCrash).

(** Run to the end, the assignments are the command. *)
Fixpoint run_steps (as_ : list (list port → option (list port))) (ports : list port) : option (list port) :=
  match as_ with [] => Some ports | a :: as_ => ports ← a ports; run_steps as_ ports end.

Lemma assign_run i f ports p : 0 <= i → ports !! Z.to_nat i = Some p →
  assign i f ports = Some (<[Z.to_nat i := f p]> ports).
Proof.
  intros Hi Hp. pose proof (lookup_lt_Some _ _ _ Hp). unfold assign, load. rewrite decide_True, Hp by done. simpl.
  apply store_in. lia.
Qed.

Lemma assign_assign i f g ports : (ports ← assign i f ports; assign i g ports) = assign i (λ p, g (f p)) ports.
Proof.
  destruct (decide (0 <= i)) as [Hi|Hi]; [|unfold assign, load; by rewrite decide_False].
  destruct (ports !! Z.to_nat i) as [p|] eqn:Hp.
  - pose proof (lookup_lt_Some _ _ _ Hp). rewrite (assign_run i f _ p), (assign_run i (λ p, g (f p)) _ p) by done. simpl.
    rewrite (assign_run i g _ (f p)) by (done || by apply list_lookup_insert_eq). by rewrite list_insert_insert_eq.
  - unfold assign, load. by rewrite decide_True, Hp.
Qed.

Lemma patch_steps_run i o ports : run_steps (patch_steps i o) ports = patch i o ports.
Proof.
  unfold patch_steps. cbn [run_steps].
  assert (∀ (m : option (list port)), (ports ← m; Some ports) = m) as Hret by (intros []; done).
  transitivity (ports1 ← assign i (λ p, p <| status := i |> <| rx_func := true |> <| tx_func := true |> <| out_port_id := o |>) ports;
                assign o (λ p, p <| status := o |> <| rx_func := true |> <| tx_func := true |>) ports1); [|done].
  rewrite <- (assign_assign i (λ p, p <| status := i |> <| rx_func := true |> <| tx_func := true |>)),
    <- (assign_assign i (λ p, p <| status := i |> <| rx_func := true |>)), <- (assign_assign i (λ p, p <| status := i |>)).
  destruct (assign i _ ports) as [p1|]; [|done]. cbn. destruct (assign i _ p1) as [p2|]; [|done]. cbn.
  destruct (assign i _ p2) as [p3|]; [|done]. cbn. destruct (assign i _ p3) as [p4|]; [|done]. cbn.
  rewrite <- (assign_assign o (λ p, p <| status := o |> <| rx_func := true |>)), <- (assign_assign o (λ p, p <| status := o |>)).
  destruct (assign o _ p4) as [p5|]; [|done]. cbn. destruct (assign o _ p5) as [p6|]; [|done]. cbn. apply Hret.
Qed.

(** A table with ports 0 and 1, as [add ring] leaves them. *)
Definition fresh_table : list port :=
  Port 0 RING false false (-99) :: Port 1 RING false false (-99) :: replicate 30 (Port (-99) UNDEF false false (-99)).

(** Patching two freshly added ports while a slave lcore forwards can make
    the slave call a NULL function: the route of the input port becomes visible
    before the send function of the output port is set. *)
Theorem patch_race_crash :
  table_ok fresh_table ∧ ∃ ports todo, rtc cstep (fresh_table, patch_steps 0 1, SScan 0) (ports, todo, SCrash).
Proof.
  split.
  { split; [done| |]; intros i p Hp; do 2 (destruct i as [|i]; [simplify_eq/=; auto|]);
      apply lookup_replicate in Hp as [-> _]; auto. }
  eexists _, _.
  do 4 (eapply rtc_l; [apply c_assign; reflexivity|]).
  eapply rtc_l; [eapply c_route; [reflexivity|simpl; lia|simpl; lia]|].
  eapply rtc_l; [eapply c_rx; reflexivity|]. eapply rtc_l; [eapply c_tx_null; reflexivity|]. reflexivity.
Qed.

Definition can_rx (ports : list port) (j : Z) : Prop := ∃ p, load ports j = Some p ∧ rx_func p = true.
Definition can_tx (ports : list port) (j : Z) : Prop := ∃ p, load ports j = Some p ∧ tx_func p = true.
Definition routed (ports : list port) : Prop :=
  ∀ j p, load ports j = Some p → 0 <= out_port_id p → can_rx ports j ∧ can_tx ports (out_port_id p).
(** Assignments that take no function away. *)
Definition keeps (f : port → port) : Prop :=
  ∀ p, (rx_func p = true → rx_func (f p) = true) ∧ (tx_func p = true → tx_func (f p) = true).

Lemma assign_inv i f ports ports' : assign i f ports = Some ports' →
  ∃ p, load ports i = Some p ∧ ∀ j, load ports' j = if decide (j = i) then Some (f p) else load ports j.
Proof.
  unfold assign. intros H. apply bind_Some in H as (p & Hp & H). exists p. split; [done|]. intros j.
  apply load_Some in Hp as [Hi Hp]. apply store_Some in H as [Hl ->]. unfold load.
  destruct (decide (0 <= j)) as [Hj|Hj]; [|rewrite decide_False by lia; done].
  case_decide as E; [subst j; apply list_lookup_insert_eq; lia|apply list_lookup_insert_ne; lia].
Qed.
Lemma can_rx_assign i f ports ports' j : keeps f → assign i f ports = Some ports' → can_rx ports j → can_rx ports' j.
Proof.
  intros Hk (p & Hp & H)%assign_inv (q & Hq & Hr). unfold can_rx. rewrite H. case_decide; [|eauto].
  subst j. rewrite Hq in Hp. injection Hp as <-. exists (f q). split; [done|]. by apply Hk.
Qed.
Lemma can_tx_assign i f ports ports' j : keeps f → assign i f ports = Some ports' → can_tx ports j → can_tx ports' j.
Proof.
  intros Hk (p & Hp & H)%assign_inv (q & Hq & Hr). unfold can_tx. rewrite H. case_decide; [|eauto].
  subst j. rewrite Hq in Hp. injection Hp as <-. exists (f q). split; [done|]. by apply Hk.
Qed.
Lemma routed_assign i f ports ports' : keeps f → assign i f ports = Some ports' → routed ports →
  (∀ p, out_port_id (f p) = out_port_id p ∨ can_rx ports i ∧ can_tx ports (out_port_id (f p))) → routed ports'.
Proof.
  intros Hk Ha Hr Ho j q Hq H0. pose proof (assign_inv _ _ _ _ Ha) as (p & Hp & H). rewrite H in Hq.
  case_decide as E; [|destruct (Hr j q Hq H0); eauto using can_rx_assign, can_tx_assign].
  subst j. injection Hq as <-. destruct (Ho p) as [E|[H1 H2]].
  - rewrite E in *. destruct (Hr i p Hp H0). eauto using can_rx_assign, can_tx_assign.
  - eauto using can_rx_assign, can_tx_assign.
Qed.

Definition slave_safe (ports : list port) (sl : slave) : Prop :=
  match sl with
  | SScan _ => True
  | SRx i o => can_rx ports (Z.of_nat i) ∧ can_tx ports o
  | STx o => can_tx ports o
  | SCrash => False
  end.
(** After [k] assignments of the command. *)
Definition conf_safe (i o : Z) (c : conf) : Prop :=
  let '(ports, todo, sl) := c in
  ∃ k, (k <= 7)%nat ∧ todo = drop k (patch_steps i o) ∧ routed ports ∧ can_tx ports o ∧
    ((2 <= k)%nat → can_rx ports i) ∧ slave_safe ports sl.

Lemma conf_safe_step i o c c' : conf_safe i o c → cstep c c' → conf_safe i o c'.
Proof.
  intros Hc Hstep. destruct Hstep; destruct Hc as (k & Hk & Htodo & Hr & Ht & Hrx & Hs);
    try (exists k; split_and!; try done; simpl; by eauto).
  - exists (S k).
    assert (∃ j f, a = assign j f ∧ keeps f ∧ todo = drop (S k) (patch_steps i o) ∧ (S k <= 7)%nat ∧
      ((2 <= S k)%nat → can_rx ports' i) ∧
      (∀ p, out_port_id (f p) = out_port_id p ∨ can_rx ports j ∧ can_tx ports (out_port_id (f p)))) as
      (j & f & -> & Hkf & -> & Hk' & Hrx' & Hof).
    { do 7 (destruct k as [|k]; [injection Htodo as -> ->; eexists _, _; split; [done|]; split; [by intros p|];
        split; [done|]; split; [lia|]; split; [intros H2; first [lia | eapply can_rx_assign; [|exact H|by apply Hrx; lia]; by intros p |
          destruct (assign_inv _ _ _ _ H) as (p & Hp & He); eexists; rewrite He, decide_True by done; by split]
        | intros p; first [by left | right; split; [apply Hrx; lia|exact Ht]]]|]). by destruct k. }
    split_and!; [done|done|by eapply routed_assign|by eapply can_tx_assign|done|].
    destruct sl; simpl in *; try done; [destruct Hs; split|]; eauto using can_rx_assign, can_tx_assign.
  - exists k. split_and!; try done. simpl. destruct (Hr (Z.of_nat i0) p); [by rewrite load_nat|done|]. auto.
  - exists k. split_and!; try done. simpl in *. tauto.
  - simpl in Hs. destruct Hs as [(q & Hq & Hqr) _]. rewrite load_nat in Hq. congruence.
  - simpl in Hs. destruct Hs as (q & Hq & Hqt). congruence.
Qed.

(** Patching while packets flow is safe when the output port can already
    send, that is, after it has been part of a patch before: no interleaving of
    the assignments of [patch] with a slave lcore running [forward] on the same
    table leads to a call of a NULL function. *)
Theorem patch_race_safe ports i o c (Hok : table_ok ports) (Hi : 0 <= i) (Ho : can_tx ports o)
    (Hrun : rtc cstep (ports, patch_steps i o, SScan 0) c) :
  snd c ≠ SCrash.
Proof.
  assert (conf_safe i o c) as Hc.
  { assert (conf_safe i o (ports, patch_steps i o, SScan 0)) as H0.
    { exists 0%nat. split_and!; try done; [lia| |lia]. intros j p Hp Hout. pose proof Hp as [Hj Hl]%load_Some.
      destruct (tab_out _ Hok _ _ Hl) as [?|(_ & _ & Hrx & q & Hq & _ & Htx)]; [lia|]. split; [by exists p|].
      exists q. split; [|done]. unfold load. by rewrite decide_True. }
    revert H0. induction Hrun; [done|]. intros H0. by apply IHHrun, (conf_safe_step _ _ x). }
  destruct c as [[ports' todo] sl]. destruct Hc as (k & _ & _ & _ & _ & _ & Hs). simpl. intros ->. done.
Qed.
