(* ===== verification/SecSession.v ===== *)
(** * The secondary applications and their controller

    [nfv_py/nfv_py.c] and [sec_zerocpy/sec_zerocpy.c]: the loop of [Session.v]
    around the commands of [Secondary.v]. *)
From S2P Require Import Prelude CStr Platform Session Secondary.
Open Scope Z_scope.

Section nfv.
Context {W A : Type} `{!Platform W A}.
Variable (v : variant).

Definition nfv_message (sw : app * W) (str : string) : option (reaction (app * W)) :=
  '(r, w) ← handle_message v (fst sw) (snd sw) str;
  Some (match r with Reply s str => Answer (s, w) str | Break s => Leave (s, w) | Exit => Quit end).
(** [main] after the start of the lcores that forward. *)
Definition nfv_main (argv : list string) (w : W) (oss : list kernel) : option (turn (app * W) * list io) :=
  s ← main_init app_static w argv; main_loop nfv_message oss (Conn SOCK_RESET false) (s, w).

(** From start-up on, and whatever messages, errors and lost connections there
    are, the patch table is consistent. *)
Theorem nfv_main_table argv w oss t tr : nfv_main argv w oss = Some (t, tr) →
  match t with Next _ (s, _) | End (Some (s, _)) => table_ok (ports_fwd_array s) | End None => True end.
Proof.
  intros (s & Hs & Hrun)%bind_Some.
  apply (main_loop_invariant nfv_message (λ sw, table_ok (ports_fwd_array (fst sw)))) in Hrun.
  - destruct t as [c [s' w']|[[s' w']|]]; exact Hrun.
  - intros [s1 w1] m r Hok ([r1 w2] & H1 & [= <-])%bind_Some. cbn in *.
    destruct r1 as [s2 str|s2|]; [..|done]; eapply (handle_message_ok v); eauto.
  - by eapply main_init_ok.
Qed.
End nfv.
