(* ===== verification/GuestPrimary.v ===== *)
(** * The primary applications inside a guest

    [vm_py/main.c] and [pri_lvl3/main.c]: a process in a guest that has physical
    ports, attaches ports to the rings the host shares, patches them and forwards
    between them. Table, commands on it and packet loop are those of
    [Secondary.v], which the two programs have as copies; the rest is here. *)
From S2P Require Import Prelude CStr Platform EthTable RingReg Session Secondary.
From Stdlib Require Import Ascii Sorted.
Open Scope Z_scope.

Inductive guest := VmPy | PriLvl3.
(** Only [pri_lvl3] has the command [exit]. *)
Definition has_exit (v : guest) : bool := match v with VmPy => false | PriLvl3 => true end.
(** The name the command [add pool] looks up, and those the pools have. *)
Definition ADDED_POOL_NAME : string := "MProc_pktmbuf_pool".
Definition VM_PKTMBUF_POOL_NAME : string := "VM_Proc_pktmbuf_pool".
Definition LVL3_PKTMBUF_POOL_NAME : string := "hsm_pktmbuf_pool".

(** The global variables. *)
Record guest_app := GuestApp { gcmd : cmd_type; gports : list port; host_mp : option Z }.
#[export] Instance guest_app_upd : Updatable guest_app := λ g, GuestApp (gcmd g) (gports g) (host_mp g).
Definition guest_static : guest_app := GuestApp STOP (replicate nports (Port 0 PHY false false 0)) None.

Section guest.
Context {W A : Type} `{!Platform W A} (v : guest).

(** ** Commands *)

Definition guest_status (ports : list port) : option string :=
  let str := fmt_d MAX_CLIENT +:+ String "010" "" +:+ foldr String.append "" (imap port_line ports) in
  if strlen str <? MSG_SIZE then Some str else None.

(** [inl] is [rte_exit]. *)
Definition guest_add_ring (g : guest_app) (w : W) (tokens : list string) : option (unit + guest_app * W) :=
  t2 ← word tokens 2;
  let ring_id := u16 (atoi t2) in
  r ← open_ring w From_ring_s0 (if 255 <=? ring_id then get_ring_name (Z.shiftr ring_id 8) else get_rx_queue_name ring_id);
  match r with
  | inl _ => Some (inl tt)
  | inr (pid, w) =>
      let ring_port_id := u16 pid in
      ports ← add_port ring_port_id RING (gports g); Some (inr (g <| gports := ports |>, w))
  end.
Definition guest_add_pool (g : guest_app) (w : W) : option (unit + guest_app * W) :=
  mp ← lookup_pool w ADDED_POOL_NAME;
  match mp with
  | None => Some (inl tt)
  | Some a => Some (inr (g <| host_mp := Some a |>, w))
  end.
Definition guest_add (g : guest_app) (w : W) (tokens : list string) : option (unit + guest_app * W) :=
  t1 ← word tokens 1;
  r ← (if strcmp_eq t1 "ring" then guest_add_ring g w tokens else Some (inr (g, w)));
  match r with
  | inr (g, w) => if strncmp_eq t1 "pool" 4 then guest_add_pool g w else Some (inr (g, w))
  | inl _ => Some r
  end.
Definition guest_patch (g : guest_app) (tokens : list string) : option guest_app :=
  t1 ← word tokens 1;
  if strncmp_eq t1 "reset" 5 then Some (g <| gports := forward_array_reset (gports g) |>) else
  let in_port := atoi t1 in
  _ ← load (gports g) in_port;
  t2 ← word tokens 2;
  ports ← patch in_port (atoi t2) (gports g); Some (g <| gports := ports |>).
(** [del] cuts the message into words once more. *)
Definition guest_del (g : guest_app) (str : string) : option guest_app :=
  let g := g <| gcmd := STOP |> in
  let tokens := tokenize " " str in
  t1 ← word tokens 1;
  if strncmp_eq t1 "ring" 4 then _ ← word tokens 2; Some g else Some g.

(** One message, as in [Secondary.handle_message]. *)
Definition guest_message (gw : guest_app * W) (str : string) : option (reaction (guest_app * W)) :=
  let '(g, w) := gw in
  if MSG_SIZE <=? strlen str then None else
  let tokens := tokenize " " str in
  if MAX_PARAMETER <=? Z.of_nat (length tokens) then None else
  t0 ← word tokens 0;
  let str := cut_first str in
  if strcmp_eq t0 "status" then str ← guest_status (gports g); Some (Answer (g, w) str)
  else if has_exit v && strcmp_eq t0 "exit" then Some (Leave (g <| gcmd := STOP |>, w))
  else if strcmp_eq t0 "start" then Some (Answer (g <| gcmd := START |>, w) str)
  else if strcmp_eq t0 "stop" then Some (Answer (g <| gcmd := STOP |>, w) str)
  else if strcmp_eq t0 "forward" then Some (Answer (g <| gcmd := FORWARD |>, w) str)
  else if strncmp_eq t0 "add" 3 then
    r ← guest_add g w tokens;
    match r with inl _ => Some Quit | inr gw => Some (Answer gw str) end
  else if strcmp_eq t0 "patch" then g ← guest_patch g tokens; Some (Answer (g, w) str)
  else match v with
  | VmPy => if strncmp_eq str "del" 3 then g ← guest_del g str; Some (Answer (g, w) str) else Some (Answer (g, w) str)
  | PriLvl3 => Some (Answer (g, w) str)
  end.

(** ** Start-up and the packet loop *)

Definition guest_ports (w : W) (ports : list port) : list port := imap (init_port_entry w) (forward_array_init ports).
(** [main] after [init]. *)
Definition guest_main (w : W) (oss : list kernel) : option (turn (guest_app * W) * list io) :=
  main_loop guest_message oss (Conn SOCK_RESET false) (guest_static <| gports := guest_ports w (gports guest_static) |>, w).
Definition guest_loop_turn (g : guest_app) (w : W) : option (list (moved (A := A)) * W) :=
  match gcmd g with
  | STOP => Some ([], w)
  | FORWARD => forward (gports g) w
  | _ => Some ([], w)
  end.
(** The pool: looked up, and made if it is not there; [vm_py] tries twice. *)
Definition guest_mbuf_pools (lookup : string → option Z) (create : string → Z → option Z) (num_mbufs : Z) : Z * option Z :=
  let nm := match v with VmPy => VM_PKTMBUF_POOL_NAME | PriLvl3 => LVL3_PKTMBUF_POOL_NAME end in
  let pool := lookup nm in
  let pool := match pool with None => create nm num_mbufs | Some _ => pool end in
  let pool := match v, pool with VmPy, None => create nm num_mbufs | _, _ => pool end in
  ((match pool with Some _ => 0 | None => 1 end), pool).

(** ** Proofs *)

Lemma guest_add_ok g w tokens g' w' : table_ok (gports g) → guest_add g w tokens = Some (inr (g', w')) → table_ok (gports g').
Proof.
  intros Hok (t1 & _ & (r & Hr & H)%bind_Some)%bind_Some. destruct r as [|[g1 w1]]; [done|]. assert (H1 : table_ok (gports g1)).
  { destruct (strcmp_eq t1 "ring"); [|by injection Hr as <- <-]. apply bind_Some in Hr as (t2 & _ & ([|[pid w2]] & _ & Hr)%bind_Some); [done|]. apply bind_Some in Hr as (ports & Hp & [= <- <-]). by eapply add_port_ok. }
  destruct (strncmp_eq t1 "pool" 4); [|by injection H as <- <-]. unfold guest_add_pool in H. apply bind_Some in H as ([mp|] & _ & H); [by injection H as <- <-|done].
Qed.
Lemma guest_patch_ok g tokens g' : table_ok (gports g) → guest_patch g tokens = Some g' → table_ok (gports g').
Proof.
  intros Hok (t1 & _ & H)%bind_Some. destruct (strncmp_eq t1 "reset" 5); [injection H as <-; by apply reset_table_ok|]. apply bind_Some in H as (p & _ & H). apply bind_Some in H as (t2 & _ & H). apply bind_Some in H as (ports & Hp & [= <-]). by eapply patch_ok.
Qed.
Lemma guest_del_ports g str g' : guest_del g str = Some g' → gports g' = gports g.
Proof. intros (t1 & _ & H)%bind_Some. destruct (strncmp_eq t1 "ring" 4); [by apply bind_Some in H as (? & _ & [= <-])|by injection H as <-]. Qed.
Lemma guest_message_ok g w str r : table_ok (gports g) → guest_message (g, w) str = Some r → match r with Answer (g', _) _ | Leave (g', _) => table_ok (gports g') | Quit => True end.
Proof.
  intros Hok H. unfold guest_message in H. destruct (MSG_SIZE <=? strlen str); [done|]. destruct (MAX_PARAMETER <=? _); [done|]. apply bind_Some in H as (t0 & _ & H).
  repeat match type of H with (if ?c then _ else _) = Some _ => destruct c | mbind _ _ = Some _ => apply bind_Some in H as (? & ? & H) end; try (by injection H as <-).
  - destruct x as [|[g1 w1]]; injection H as <-; [done|]. by eapply guest_add_ok.
  - injection H as <-. by eapply guest_patch_ok.
  - injection H as <-. by erewrite guest_del_ports.
Qed.
Lemma guest_ports_ok w ports : length ports = nports → table_ok (guest_ports w ports).
Proof.
  intros Hl. destruct (init_table_ok ports Hl) as [L1 _ _]. assert (H : ∀ i p, guest_ports w ports !! i = Some p → (status p = -99 ∨ status p = Z.of_nat i) ∧ out_port_id p = -99).
  { intros i p Hp. unfold guest_ports in Hp. rewrite list_lookup_imap in Hp. apply fmap_Some in Hp as (q & Hq & ->). unfold forward_array_init in Hq. apply list_lookup_fmap_Some in Hq as (r & -> & _). unfold init_port_entry. repeat case_match; simpl; auto. }
  split; [unfold guest_ports; rewrite length_imap; exact L1| |]; intros i p Hp; [apply (H i p Hp)|left; apply (H i p Hp)].
Qed.

(** From start-up on, and whatever the controller sends and the network does,
    the patch table is consistent. *)
Theorem guest_table_invariant w oss t tr : guest_main w oss = Some (t, tr) →
  match t with Next _ (g, _) | End (Some (g, _)) => table_ok (gports g) | End None => True end.
Proof.
  intros H. apply (main_loop_invariant guest_message (λ gw, table_ok (gports (fst gw)))) in H.
  - destruct t as [c [g w']|[[g w']|]]; exact H.
  - intros [g w1] m r Hok Hm. pose proof (guest_message_ok g w1 m r Hok Hm) as Hr. destruct r as [[g' w'] ?|[g' w']|]; exact Hr.
  - apply guest_ports_ok. unfold guest_static. apply length_replicate.
Qed.
(** Then a turn of the packet loop calls no missing function and follows the
    table. *)
Theorem guest_forward_safe `{!PlatformOk W A} w oss c g w1 tr : guest_main w oss = Some (Next c (g, w1), tr) → table_usable w1 (gports g) →
  ∃ es w2, guest_loop_turn g w1 = Some (es, w2) ∧ Forall (event_ok (gports g)) es ∧ StronglySorted Z.lt (in_port <$> es).
Proof.
  intros H Hu. apply guest_table_invariant in H. unfold guest_loop_turn. destruct (gcmd g); try (exists [], w1; split_and!; [done|constructor|constructor]). destruct (forward_follows_table (gports g) w1 H Hu) as (es & w2 & E & H1 & H2 & _). by exists es, w2.
Qed.

(** The pool of either program is the one that exists, else a new one; 1 is
    returned when there is neither. *)
Lemma guest_mbuf_pools_ok lookup create num : let r := guest_mbuf_pools lookup create num in (fst r = 0 ↔ is_Some (snd r)) ∧
  ∀ a, lookup (match v with VmPy => VM_PKTMBUF_POOL_NAME | PriLvl3 => LVL3_PKTMBUF_POOL_NAME end) = Some a → snd r = Some a.
Proof. unfold guest_mbuf_pools. destruct v; cbn; destruct (lookup _) as [b|]; cbn; try (destruct (create _ num)); cbn; (split; [split; [by eauto|by intros []]|by intros a [= ->]]). Qed.
End guest.

(** ** Defects *)

#[local] Arguments is_delim : simpl never.
Lemma cut_one_word s : (length (tokenize " " (cut_first s)) <= 1)%nat.
Proof.
  assert (Hsp : ∀ u, ∀ c, c ∈ String.list_ascii_of_string (fst (span_token " " u)) → is_delim " " c = false).
  { induction u as [|d u IH]; intros c; cbn; [by intros ?%elem_of_nil|]. destruct (is_delim " " d) eqn:E; [by intros ?%elem_of_nil|]. destruct (span_token " " u) as [t r]. cbn. intros [->|Hc]%elem_of_cons; [done|]. by apply IH. }
  assert (Hno : ∀ t, (∀ c, c ∈ String.list_ascii_of_string t → is_delim " " c = false) → span_token " " t = (t, ""%string)).
  { induction t as [|c t IH]; intros Ht; cbn; [done|]. rewrite (Ht c) by set_solver. rewrite IH; [done|]. intros d Hd. apply Ht. set_solver. }
  assert (Hskip : ∀ u, ∃ t, skip_delims " " (cut_first u) = t ∧ ∀ c, c ∈ String.list_ascii_of_string t → is_delim " " c = false).
  { induction u as [|c u IH]; cbn; [exists ""%string; split; [done|by intros c ?%elem_of_nil]|]. destruct (is_delim " " c) eqn:E; cbn; [rewrite E; exact IH|]. pose proof (Hsp (String c u)) as H. cbn in H. rewrite E in H. destruct (span_token " " u) as [t r]. cbn in H |- *. rewrite E. by exists (String c t). }
  destruct (Hskip s) as (t & Et & Ht). unfold tokenize. cbn [tokenize_fuel]. unfold strtok at 1. rewrite Et. destruct t as [|c t]; [cbn; lia|]. rewrite (Hno _ Ht). destruct (String.length (cut_first s)); cbn; lia.
Qed.
(** [vm_py]: every message that begins with [del] ends the program, since the
    message was already cut and has no second word any more. *)
Theorem vm_del_crashes {W A} `{!Platform W A} (g : guest_app) (w : W) str t0 rest : tokenize " " str = t0 :: rest → strncmp_eq (cut_first str) "del" 3 = true →
  t0 ≠ "status"%string → t0 ≠ "start"%string → t0 ≠ "stop"%string → t0 ≠ "forward"%string → t0 ≠ "patch"%string → strncmp_eq t0 "add" 3 = false → guest_message VmPy (g, w) str = None.
Proof.
  intros Ht Hd H1 H2 H3 H4 H5 H6. unfold guest_message. destruct (MSG_SIZE <=? strlen str); [done|]. rewrite Ht. destruct (MAX_PARAMETER <=? _); [done|]. cbn [word lookup list_lookup mbind option_bind]. unfold strcmp_eq. rewrite (proj2 (String.eqb_neq _ _) H1), (proj2 (String.eqb_neq _ _) H2), (proj2 (String.eqb_neq _ _) H3), (proj2 (String.eqb_neq _ _) H4), (proj2 (String.eqb_neq _ _) H5), H6, Hd. cbn [has_exit andb].
  unfold guest_del. pose proof (cut_one_word str) as Hl. destruct (tokenize " " (cut_first str)) as [|u [|u' l]]; [done..|cbn in Hl; lia].
Qed.
Example vm_del_ring_crashes {W A} `{!Platform W A} (w : W) : guest_message VmPy (guest_static, w) "del ring 1" = None.
Proof. by eapply vm_del_crashes. Qed.
(** [add pool] looks for a name that no program gives a pool. *)
Theorem add_pool_unknown : ADDED_POOL_NAME ≠ PKTMBUF_POOL_NAME ∧ ADDED_POOL_NAME ≠ VM_PKTMBUF_POOL_NAME ∧ ADDED_POOL_NAME ≠ LVL3_PKTMBUF_POOL_NAME.
Proof. done. Qed.
