(* ===== verification/NfvOld.v ===== *)
(** * The older secondary application

    [nfv/nfv.c], the predecessor of [nfv_py]: instead of a patch table it has 32
    pairs of a receiving and a sending port. The lcore uses the pair at
    [loop_pos], the commands [add] and [del] change the one at [save_pos], and
    [save] and [loop] move the positions. The variables are those of
    [Secondary.app], with [exec_pos] for [loop_pos]; the loop over packets is
    [Secondary.rxtx], of which the program has a copy. *)
From S2P Require Import Prelude CStr Platform EthTable RingReg Session Secondary.
From Stdlib Require Import Ascii.
Open Scope Z_scope.

(** What the kernel answers in a turn of the loop of [main]: a connection
    begins with the number of the client and a first message of [k_first]
    bytes. *)
Record nfv_kernel := NfvKernel { k_socket : Z; k_connect : bool; k_greet : bool; k_first : Z; k_recv : option string; k_send : bool }.

Section nfv.
Context {W A : Type} `{!Platform W A}.

Fixpoint nfv_opts (s : app) (evs : list opt_event) : Z * app :=
  match evs with
  | [] => (0, s)
  | Opt c arg :: evs =>
      if Ascii.eqb c "n"%char then
        let '(r, s) := parse_client_num s arg in if negb (r =? 0) then (-1, s) else nfv_opts s evs
      else (-1, s)
  | OptErr :: _ => (-1, s)
  end.
Definition nfv_args (s : app) (argv : list string) : Z * app := nfv_opts s (getopt_long "n:" argv).

(** ** Commands *)

Definition nfv_add_dir (s : app) (w : W) (tokens : list string) (rings ports : list Z) : option (unit + list Z * list Z * W) :=
  t2 ← word tokens 2;
  if strncmp_eq t2 "ring" 4 then
    t3 ← word tokens 3;
    rings ← store rings (save_pos s) (u32 (atoi t3));
    r ← open_ring w From_ring (get_rx_queue_name (u32 (atoi t3)));
    match r with
    | inl _ => Some (inl tt)
    | inr (pid, w) => ports ← store ports (save_pos s) (u32 pid); Some (inr (rings, ports, w))
    end
  else ports ← store ports (save_pos s) (u32 (atoi t2)); Some (inr (rings, ports, w)).
Definition nfv_add (s : app) (w : W) (tokens : list string) : option (unit + app * W) :=
  t1 ← word tokens 1;
  r ← (if strncmp_eq t1 "rx" 2 then
         r ← nfv_add_dir s w tokens (rx_rings s) (rx_ports s);
         match r with
         | inl _ => Some (inl tt)
         | inr (rings, ports, w) => fs ← store (rx_funcs s) (save_pos s) true; Some (inr (s <| rx_rings := rings |> <| rx_ports := ports |> <| rx_funcs := fs |>, w))
         end
       else Some (inr (s, w)));
  match r with
  | inl _ => Some (inl tt)
  | inr (s, w) =>
      if strncmp_eq t1 "tx" 2 then
        r ← nfv_add_dir s w tokens (tx_rings s) (tx_ports s);
        match r with
        | inl _ => Some (inl tt)
        | inr (rings, ports, w) => fs ← store (tx_funcs s) (save_pos s) true; Some (inr (s <| tx_rings := rings |> <| tx_ports := ports |> <| tx_funcs := fs |>, w))
        end
      else Some (inr (s, w))
  end.
Definition nfv_del (s : app) (tokens : list string) : option app :=
  let s := s <| cmd := STOP |> in
  t1 ← word tokens 1;
  s ← (if strncmp_eq t1 "rx" 2 then
         _ ← word tokens 2;
         ps ← store (rx_ports s) (save_pos s) (RTE_MAX_ETHPORTS + 1);
         fs ← store (rx_funcs s) (save_pos s) false;
         Some (s <| rx_ports := ps |> <| rx_funcs := fs |>)
       else Some s);
  if strncmp_eq t1 "tx" 2 then
    _ ← word tokens 2;
    ps ← store (tx_ports s) (save_pos s) (RTE_MAX_ETHPORTS + 1);
    fs ← store (tx_funcs s) (save_pos s) false;
    Some (s <| tx_ports := ps |> <| tx_funcs := fs |>)
  else Some s.

(** The words of a message, and the NULL after them, fit into [token_list]. *)
Definition nfv_tokens (str : string) : option (list string) :=
  let tokens := tokenize " " str in if MAX_PARAMETER <=? Z.of_nat (length tokens) then None else Some tokens.
(** One message; the text of [status] and of the other replies is none of the
    keywords that are tested after it. *)
Definition nfv_command (sw : app * W) (str : string) : option (reaction (app * W)) :=
  let '(s, w) := sw in
  if MSG_SIZE <=? strlen str then None else
  if strncmp_eq str "status" 6 then
    Some (Answer (s, w) ("Client ID " +:+ fmt_d (client_id s) +:+ (match cmd s with START => " Running" | _ => " Idling" end) +:+ String "010" ""))
  else if strncmp_eq str "start" 5 then Some (Answer (s <| cmd := START |>, w) str)
  else if strncmp_eq str "stop" 4 then Some (Answer (s <| cmd := STOP |>, w) str)
  else if strncmp_eq str "add" 3 then
    tokens ← nfv_tokens str;
    r ← nfv_add s w tokens;
    match r with inl _ => Some Quit | inr sw => Some (Answer sw (cut_first str)) end
  else if strncmp_eq str "del" 3 then tokens ← nfv_tokens str; s ← nfv_del s tokens; Some (Answer (s, w) (cut_first str))
  else if strncmp_eq str "save" 4 then
    tokens ← nfv_tokens str;
    t1 ← word tokens 1;
    let input_pos := u32 (atoi t1) in
    if input_pos =? exec_pos s then Some (Answer (s, w) ("Save == loop position: cleint " +:+ fmt_d (client_id s) +:+ String "010" ""))
    else Some (Answer (s <| save_pos := input_pos |>, w) ("Save changed: " +:+ fmt_d (i32 input_pos) +:+ " for client " +:+ fmt_d (client_id s) +:+ String "010" ""))
  else if strncmp_eq str "loop" 4 then
    tokens ← nfv_tokens str;
    t1 ← word tokens 1;
    let pos := u32 (atoi t1) in
    Some (Answer (s <| exec_pos := pos |>, w) ("Loop changed: " +:+ fmt_d (i32 pos) +:+ " for client " +:+ fmt_d (client_id s) +:+ String "010" ""))
  else Some (Answer (s, w) str).

(** A turn of [nfv_loop], and of the loop of [main]. *)
Definition nfv_turn (s : app) (w : W) : option (list (moved (A := A)) * W) := match cmd s with START => rxtx s w | _ => Some ([], w) end.
Definition nfv_connect (os : nfv_kernel) (c : conn) (s : app * W) : option (turn (app * W) + Z) :=
  if connected c then Some (inr (sock c)) else
  let k := if sock c <? 0 then k_socket os else sock c in
  if k <? 0 then Some (inl (End (Some s))) else
  if negb (k_connect os) then Some (inl (Next (Conn k false) s)) else
  if negb (k_greet os) then Some (inl (Next (Conn k false) s)) else
  if 0 <? k_first os then if k_first os <? MSG_SIZE then Some (inr k) else None
  else if k_first os <? 0 then Some (inr k) else Some (inl (Next (Conn SOCK_RESET false) s)).
Definition nfv_main_turn (os : nfv_kernel) (c : conn) (s : app * W) : option (turn (app * W)) :=
  r ← nfv_connect os c s;
  match r with
  | inl t => Some t
  | inr k =>
      match k_recv os with
      | None => Some (Next (Conn SOCK_RESET false) s)
      | Some str =>
          r ← nfv_command s str;
          match r with
          | Quit => Some (End None)
          | Leave s => Some (End (Some s))
          | Answer s _ => Some (Next (Conn k (k_send os)) s)
          end
      end
  end.

(** ** What the lcore sees *)

(** The pair at a position. *)
Definition pair_at (s : app) (p : Z) : option (Z * bool * Z * bool) :=
  rp ← load (rx_ports s) p; rf ← load (rx_funcs s) p; tp ← load (tx_ports s) p; tf ← load (tx_funcs s) p; Some (rp, rf, tp, tf).
Lemma store_other {B} (l l' : list B) i j x : store l i x = Some l' → i ≠ j → load l' j = load l j.
Proof.
  unfold store, load. intros H Hij. destruct (decide (0 <= j)); [|done]. destruct (decide (0 <= i < Z.of_nat (length l))) as [Hi|]; [|done]. injection H as <-. apply list_lookup_insert_ne. lia.
Qed.
Lemma nfv_add_dir_other s w tokens rings ports rings' ports' w' p : nfv_add_dir s w tokens rings ports = Some (inr (rings', ports', w')) → save_pos s ≠ p → load ports' p = load ports p.
Proof.
  intros (t2 & _ & H)%bind_Some Hp. destruct (strncmp_eq t2 "ring" 4).
  - apply bind_Some in H as (t3 & _ & H). apply bind_Some in H as (rs & _ & H). apply bind_Some in H as ([|[pid w1]] & _ & H); [done|]. apply bind_Some in H as (ps & Hs & [= <- <- <-]). by eapply store_other.
  - apply bind_Some in H as (ps & Hs & [= <- <- <-]). by eapply store_other.
Qed.
Lemma nfv_add_other s w tokens s' w' p : nfv_add s w tokens = Some (inr (s', w')) → save_pos s ≠ p → pair_at s' p = pair_at s p ∧ save_pos s' = save_pos s ∧ exec_pos s' = exec_pos s.
Proof.
  intros (t1 & _ & H)%bind_Some Hp. apply bind_Some in H as (r & Hr & H). destruct r as [|[s1 w1]]; [done|]. assert (H1 : pair_at s1 p = pair_at s p ∧ save_pos s1 = save_pos s ∧ exec_pos s1 = exec_pos s).
  { destruct (strncmp_eq t1 "rx" 2); [|by injection Hr as <- <-]. apply bind_Some in Hr as ([|[[rs ps] w2]] & Hd & Hr); [done|]. apply bind_Some in Hr as (fs & Hf & [= <- <-]). split; [|done]. unfold pair_at. cbn. by rewrite (nfv_add_dir_other _ _ _ _ _ _ _ _ _ Hd Hp), (store_other _ _ _ _ _ Hf Hp). }
  destruct H1 as (E1 & E2 & E3). destruct (strncmp_eq t1 "tx" 2); [|by injection H as <- <-]. apply bind_Some in H as ([|[[rs ps] w2]] & Hd & H); [done|]. apply bind_Some in H as (fs & Hf & [= <- <-]). split; [|done]. rewrite <- E1. rewrite <- E2 in Hp. unfold pair_at. cbn. by rewrite (nfv_add_dir_other _ _ _ _ _ _ _ _ _ Hd Hp), (store_other _ _ _ _ _ Hf Hp).
Qed.
Lemma nfv_del_other s tokens s' p : nfv_del s tokens = Some s' → save_pos s ≠ p → pair_at s' p = pair_at s p ∧ save_pos s' = save_pos s ∧ exec_pos s' = exec_pos s.
Proof.
  intros (t1 & _ & H)%bind_Some Hp. apply bind_Some in H as (s1 & Hr & H). assert (H1 : pair_at s1 p = pair_at s p ∧ save_pos s1 = save_pos s ∧ exec_pos s1 = exec_pos s).
  { destruct (strncmp_eq t1 "rx" 2); [|by injection Hr as <-]. apply bind_Some in Hr as (? & _ & Hr). apply bind_Some in Hr as (ps & Hs & Hr). apply bind_Some in Hr as (fs & Hf & [= <-]). split; [|done]. unfold pair_at. cbn. by rewrite (store_other _ _ _ _ _ Hs Hp), (store_other _ _ _ _ _ Hf Hp). }
  destruct H1 as (E1 & E2 & E3). destruct (strncmp_eq t1 "tx" 2); [|by injection H as <-]. apply bind_Some in H as (? & _ & H). apply bind_Some in H as (ps & Hs & H). apply bind_Some in H as (fs & Hf & [= <-]). split; [|done]. rewrite <- E1. rewrite <- E2 in Hp. unfold pair_at. cbn. by rewrite (store_other _ _ _ _ _ Hs Hp), (store_other _ _ _ _ _ Hf Hp).
Qed.

(** While the two positions differ, no command but [loop] changes the pair the
    lcore uses, nor which one that is, and the positions go on to differ: a
    change is made beside the traffic and switched to with [loop]. *)
Theorem nfv_edit_isolated s w str r : save_pos s ≠ exec_pos s → strncmp_eq str "loop" 4 = false → nfv_command (s, w) str = Some r →
  match r with Answer (s', _) _ | Leave (s', _) => save_pos s' ≠ exec_pos s' ∧ exec_pos s' = exec_pos s ∧ pair_at s' (exec_pos s) = pair_at s (exec_pos s) | Quit => True end.
Proof.
  intros Hp Hl H. unfold nfv_command in H. rewrite Hl in H. destruct (MSG_SIZE <=? strlen str); [done|]. destruct (strncmp_eq str "status" 6); [by injection H as <-|]. destruct (strncmp_eq str "start" 5); [by injection H as <-|]. destruct (strncmp_eq str "stop" 4); [by injection H as <-|].
  destruct (strncmp_eq str "add" 3).
  { apply bind_Some in H as (tokens & _ & H). apply bind_Some in H as ([|[s' w']] & Ha & H); injection H as <-; [done|]. destruct (nfv_add_other _ _ _ _ _ _ Ha Hp) as (E1 & E2 & E3). rewrite E2, E3. done. }
  destruct (strncmp_eq str "del" 3).
  { apply bind_Some in H as (tokens & _ & H). apply bind_Some in H as (s' & Hd & [= <-]). destruct (nfv_del_other _ _ _ _ Hd Hp) as (E1 & E2 & E3). rewrite E2, E3. done. }
  destruct (strncmp_eq str "save" 4); [|by injection H as <-]. apply bind_Some in H as (tokens & _ & H). apply bind_Some in H as (t1 & _ & H). destruct (Z.eqb_spec (u32 (atoi t1)) (exec_pos s)); by injection H as <-.
Qed.
End nfv.

(** ** Defects

    At the start the two positions are equal, so that [add] and [del] change the
    pair in use, and [loop] may make them equal again; a position that was not
    filled, or does not exist, is used all the same. *)
Theorem nfv_positions_equal {W A} `{!Platform W A} (w : W) : save_pos app_static = exec_pos app_static ∧
  (∃ str, nfv_command (app_static <| save_pos := 1 |>, w) "loop 1" = Some (Answer (app_static <| save_pos := 1 |> <| exec_pos := 1 |>, w) str)) ∧
  nfv_turn (app_static <| cmd := START |>) w = None ∧ nfv_turn (app_static <| cmd := START |> <| exec_pos := 32 |>) w = None.
Proof. split_and!; [done|by eexists|done|done]. Qed.
(** A first message of 100 bytes is ended behind the buffer. *)
Theorem nfv_first_message_overruns {W A} `{!Platform W A} (s : app * W) : nfv_main_turn (NfvKernel 3 true true MSG_SIZE None true) (Conn SOCK_RESET false) s = None.
Proof. done. Qed.
