(* ===== verification/PanelPrimary.v ===== *)
(** * The first primary application

    [patch_panel/main.c]: commands are typed at a prompt and handed to one thread
    per client, which sends them and waits for the reply. The main thread and the
    thread of a client share a structure with a flag, the command and a mutex. *)
From S2P Require Import Prelude CStr.
From Stdlib Require Import Ascii.
Open Scope Z_scope.

Definition MSG_SIZE : Z := 100.
Definition MAX_CLIENTS : Z := 16.
(** The values of [action]: ready for a command, and a command is there. *)
Definition READY_ACTION : Z := 1000.
Definition QUEUED_ACTION : Z := 2000.

Inductive thread := MainThread | ClientThread.
(** One element of [thread_data_array]. *)
Record thread_data := ThreadData { thread_id : Z; socket : option Z; action : Z; command : string; mutex_cmd : option thread }.
#[export] Instance thread_data_upd : Updatable thread_data := λ d, ThreadData (thread_id d) (socket d) (action d) (command d) (mutex_cmd d).

(** ** A client connects

    [msg] is what it sends first; 99999 is the number of one that sends nothing. *)
Definition accept_client (l : list thread_data) (s2 : Z) (msg : option string) : option (Z * list thread_data) :=
  client_id ← match msg with
    | Some m => if strlen m <? MSG_SIZE then Some (atoi m) else None
    | None => Some 99999
    end;
  _ ← load l client_id;
  l ← store l client_id (ThreadData client_id (Some s2) READY_ACTION "" None);
  Some (client_id, l).

(** ** The prompt *)

(** The line that was read: nothing is done, or a client gets a command. *)
Definition prompt_line (l : list thread_data) (line : string) : option (option (Z * string)) :=
  if strlen line <? 4 then Some None else
  if negb (existsb (Ascii.eqb ";"%char) (String.list_ascii_of_string line)) then Some None else
  '(token, rest) ← strtok ";" line;
  let client_id := atoi token in
  d ← load l client_id;
  if action d =? READY_ACTION then '(c, _) ← strtok ";" rest; Some (Some (client_id, c)) else Some None.

(** ** The two threads of a client

    The steps of the main thread for one client (from the test of [action] on)
    and of the thread of that client, interleaved. *)
Inductive main_pc := MPrompt | MSet (c : string) | MLock (c : string) | MCopy (c : string) | MUnlock.
Inductive client_pc := CPoll | CLock | CAct | CCopy | CSend (m : string) | CUnlock | CRecv | CGone.
(** With the commands accepted and the messages sent so far. *)
Record panel := Panel { slot : thread_data; main_at : main_pc; client_at : client_pc; accepted : list string; sent : list string }.
#[export] Instance panel_upd : Updatable panel := λ s, Panel (slot s) (main_at s) (client_at s) (accepted s) (sent s).
Inductive move := Submit (c : string) | MainStep | ClientStep (ok : bool).

Definition upd_slot (f : thread_data → thread_data) (s : panel) : panel := s <| slot := f (slot s) |>.
Definition main_step (s : panel) : option panel :=
  match main_at s with
  | MPrompt => None
  | MSet c => Some ((upd_slot (λ d, d <| action := QUEUED_ACTION |>) s) <| main_at := MLock c |>)
  | MLock c => match mutex_cmd (slot s) with None => Some ((upd_slot (λ d, d <| mutex_cmd := Some MainThread |>) s) <| main_at := MCopy c |>) | Some _ => None end
  | MCopy c => Some ((upd_slot (λ d, d <| command := c |>) s) <| main_at := MUnlock |>)
  | MUnlock => Some ((upd_slot (λ d, d <| mutex_cmd := None |>) s) <| main_at := MPrompt |>)
  end.
(** The end of the thread: the socket is closed and the structure reset. *)
Definition client_gone (s : panel) : panel := (upd_slot (λ d, d <| socket := None |> <| mutex_cmd := None |> <| action := -1 |> <| thread_id := 0 |>) s) <| client_at := CGone |>.
Definition client_step (ok : bool) (s : panel) : option panel :=
  match client_at s with
  | CPoll => Some (if action (slot s) =? QUEUED_ACTION then s <| client_at := CLock |> else s)
  | CLock => match mutex_cmd (slot s) with None => Some ((upd_slot (λ d, d <| mutex_cmd := Some ClientThread |>) s) <| client_at := CAct |>) | Some _ => None end
  | CAct => Some ((upd_slot (λ d, d <| action := READY_ACTION |>) s) <| client_at := CCopy |>)
  | CCopy => Some (s <| client_at := CSend (command (slot s)) |>)
  | CSend m => if ok then Some (s <| sent := sent s ++ [m] |> <| client_at := CUnlock |>) else Some (client_gone s)
  | CUnlock => Some ((upd_slot (λ d, d <| mutex_cmd := None |>) s) <| client_at := CRecv |>)
  | CRecv => if ok then Some (s <| client_at := CPoll |>) else Some (client_gone s)
  | CGone => None
  end.
Definition do_move (m : move) (s : panel) : option panel :=
  match m with
  | Submit c => match main_at s with MPrompt => if action (slot s) =? READY_ACTION then Some (s <| main_at := MSet c |> <| accepted := accepted s ++ [c] |>) else None | _ => None end
  | MainStep => main_step s
  | ClientStep ok => client_step ok s
  end.
Definition fresh_client (id s2 : Z) : panel := Panel (ThreadData id (Some s2) READY_ACTION "" None) MPrompt CPoll [] [].
Definition step (s s' : panel) : Prop := ∃ m, do_move m s = Some s'.

(** ** What holds

    A thread that touches the command has the mutex; what is in the structure
    and on its way is a command that was accepted, or the empty one of the start;
    and each message that was sent, or will be, goes with a command of its own. *)
Definition main_holds (p : main_pc) : Prop := match p with MCopy _ | MUnlock => True | _ => False end.
Definition client_holds (p : client_pc) : Prop := match p with CAct | CCopy | CSend _ | CUnlock => True | _ => False end.
Definition known (s : panel) (c : string) : Prop := c = ""%string ∨ c ∈ accepted s.
(** Commands whose flag is not taken yet. *)
Definition set_waiting (s : panel) : nat := match main_at s with MSet _ => 1 | _ => 0 end.
Definition in_flight (s : panel) : nat := match client_at s with CCopy | CSend _ => 1 | _ => 0 end.
Definition flag_up (s : panel) : nat := match client_at s with CGone => 0 | _ => if action (slot s) =? QUEUED_ACTION then 1 else 0 end.
Record panel_ok (s : panel) : Prop := {
  po_mutex : client_at s ≠ CGone → mutex_cmd (slot s) = Some MainThread ↔ main_holds (main_at s);
  po_client : client_holds (client_at s) → mutex_cmd (slot s) = Some ClientThread;
  po_main : client_at s ≠ CGone → mutex_cmd (slot s) = Some ClientThread → client_holds (client_at s);
  po_flag : client_at s = CLock ∨ client_at s = CAct → action (slot s) = QUEUED_ACTION;
  po_command : known s (command (slot s)) ∧ (match main_at s with MSet c | MLock c | MCopy c => known s c | _ => True end) ∧ (match client_at s with CSend m => known s m | _ => True end) ∧ Forall (known s) (sent s);
  po_count : (length (sent s) + in_flight s + flag_up s + set_waiting s <= length (accepted s))%nat }.

Lemma fresh_ok id s2 : panel_ok (fresh_client id s2).
Proof. split; cbn; try done; [by intros [?|?]|]. split_and!; [by left|done|done|constructor]. Qed.
Lemma known_more s c x : known s x → x = ""%string ∨ x ∈ accepted s ++ [c].
Proof. intros [->|H]; [by left|right; set_solver]. Qed.
Lemma submit_ok s s' c : panel_ok s → do_move (Submit c) s = Some s' → panel_ok s'.
Proof.
  intros [H1 H2 H3 H4 (H5 & _ & H7 & H8) H9] Hm. cbn in Hm. destruct (main_at s) eqn:Em; try done. destruct (Z.eqb_spec (action (slot s)) READY_ACTION) as [Ea|]; [|done]. injection Hm as <-. split; cbn; try done.
  - split_and!; [by apply known_more|right; set_solver|destruct (client_at s); try done; by apply known_more|]. eapply Forall_impl; [exact H8|]. intros x. apply known_more.
  - unfold in_flight, flag_up, set_waiting in *. cbn in *. rewrite Em in H9. rewrite length_app. cbn. destruct (client_at s); lia.
Qed.
Ltac count_done E H := unfold in_flight, flag_up, set_waiting in *; cbn in *; rewrite E in H; first [exact H|lia].
Lemma gone_ok s : panel_ok s → panel_ok (client_gone s).
Proof.
  intros [H1 H2 H3 H4 (H5 & H6 & H7 & H8) H9]. split; cbn; [done|done|done|by intros [?|?]|done|]. unfold in_flight, flag_up, set_waiting in *. cbn in *. lia.
Qed.
Lemma main_ok s s' : panel_ok s → main_step s = Some s' → panel_ok s'.
Proof.
  intros [H1 H2 H3 H4 (H5 & H6 & H7 & H8) H9] Hm. unfold main_step in Hm. destruct (main_at s) as [|c|c|c|] eqn:Em; [done| | | |].
  - injection Hm as <-. split; cbn; try done. unfold in_flight, flag_up, set_waiting in *. cbn in *. rewrite Em in H9. destruct (client_at s), (action (slot s) =? QUEUED_ACTION); lia.
  - destruct (mutex_cmd (slot s)) eqn:Eu; [done|]. injection Hm as <-. split; cbn; [done|intros Hc; specialize (H2 Hc); congruence|done|done|done|]. count_done Em H9.
  - injection Hm as <-. split; cbn; [done|done|done|done|done|]. count_done Em H9.
  - injection Hm as <-. assert (Hnc : ¬ client_holds (client_at s)). { intros Hc. specialize (H2 Hc). destruct (client_at s); try done; (assert (Some MainThread = Some ClientThread); [|done]); rewrite <- H2; symmetry; by apply H1. } split; cbn; [done|by intros Hc; destruct Hnc|done|done|done|]. count_done Em H9.
Qed.
Lemma client_ok s s' ok : panel_ok s → client_step ok s = Some s' → panel_ok s'.
Proof.
  intros H Hm. pose proof H as [H1 H2 H3 H4 (H5 & H6 & H7 & H8) H9]. unfold client_step in Hm. destruct (client_at s) as [| | | |m| | |] eqn:Ec; [| | | | | | |done].
  - injection Hm as <-. destruct (Z.eqb_spec (action (slot s)) QUEUED_ACTION) as [Ea|]; [|done]. split; cbn; [by intros _; apply H1|done|by intros _ Hx; apply H3|done|done|]. count_done Ec H9.
  - destruct (mutex_cmd (slot s)) eqn:Eu; [done|]. injection Hm as <-. split; cbn; [intros _; split; [done|]; intros Hx; by apply H1 in Hx|done|done|intros _; apply H4; by left|done|]. count_done Ec H9.
  - injection Hm as <-. specialize (H4 (or_intror eq_refl)). split; cbn; [by intros _; apply H1|intros _; by apply H2|done|by intros [?|?]|done|]. unfold in_flight, flag_up, set_waiting in *. cbn in *. rewrite Ec, H4 in H9. cbn in H9. lia.
  - injection Hm as <-. split; cbn; [by intros _; apply H1|intros _; by apply H2|done|by intros [?|?]|done|]. count_done Ec H9.
  - destruct ok; injection Hm as <-; [|by apply gone_ok]. split; cbn; [by intros _; apply H1|intros _; by apply H2|done|by intros [?|?]| |].
    + split_and!; [done|done|done|]. apply Forall_app. split; [exact H8|by apply Forall_singleton].
    + unfold in_flight, flag_up, set_waiting in *. cbn in *. rewrite Ec in H9. rewrite length_app. cbn. lia.
  - injection Hm as <-. specialize (H2 I). split; cbn; [intros _; split; [done|]; intros Hx; apply H1 in Hx; [congruence|done]|done|done|by intros [?|?]|done|]. count_done Ec H9.
  - destruct ok; injection Hm as <-; [|by apply gone_ok]. split; cbn; [by intros _; apply H1|done|intros _ Hx; by apply H3 in Hx|by intros [?|?]|done|]. count_done Ec H9.
Qed.

(** A client gets no command that was not typed, no command in parts, and no
    more messages than commands: each is one of the commands accepted so far, or
    the empty text of the start. *)
Theorem panel_sends_accepted id s2 s : rtc step (fresh_client id s2) s → Forall (λ m, m = ""%string ∨ m ∈ accepted s) (sent s) ∧ (length (sent s) <= length (accepted s))%nat.
Proof.
  intros H. assert (Hok : panel_ok s). { pose proof (fresh_ok id s2) as Hi. revert Hi. induction H as [|a b c [m Hm] _ IH]; intros Ha; [done|]. apply IH. destruct m as [c'| |ok]; [by eapply submit_ok|by eapply main_ok|by eapply client_ok]. }
  destruct Hok as [_ _ _ _ (_ & _ & _ & H8) H9]. split; [exact H8|lia].
Qed.

(** ** Defects *)

Fixpoint do_moves (ms : list move) (s : panel) : option panel :=
  match ms with
  | [] => Some s
  | m :: ms => match do_move m s with Some s' => do_moves ms s' | None => None end
  end.
(** The flag is set before the command is copied: the thread of the client sends
    what was there before, and the command that was accepted is not sent although
    both threads are done with it. *)
Definition overtaken : list move := [Submit "start"; MainStep] ++ replicate 9 (ClientStep true) ++ replicate 3 MainStep.
Theorem command_overtaken : ∃ s, do_moves overtaken (fresh_client 1 5) = Some s ∧ accepted s = ["start"]%string ∧ sent s = [""]%string ∧ action (slot s) = READY_ACTION ∧ main_at s = MPrompt ∧ client_at s = CPoll.
Proof. eexists. split; [vm_compute; reflexivity|]. done. Qed.
(** A client that sends no number, or one above 15, is stored outside the array;
    a line that names no client, or no command, is used all the same. *)
Definition no_clients : list thread_data := replicate (Z.to_nat MAX_CLIENTS) (ThreadData 0 None 0 "" None).
Theorem panel_unchecked : accept_client no_clients 5 None = None ∧ accept_client no_clients 5 (Some "16"%string) = None ∧ prompt_line no_clients ";;;;" = None ∧
  (l ← accept_client no_clients 5 (Some "1"%string); prompt_line l.2 "1;;;") = None ∧ (l ← accept_client no_clients 5 (Some "1"%string); prompt_line l.2 "1;start") = Some (Some (1, "start"%string)).
Proof. vm_compute. split_and!; reflexivity. Qed.
