(* ===== verification/RingPlatform.v ===== *)
(** * Ports made of rings as the platform of the applications

    Instantiates [Platform] with the models of the ring library, the port
    table and the ring driver, discharges [PlatformOk], and composes the
    levels: what [forward] does to the contents of the rings, and what
    [add ring] sets up. *)
From S2P Require Import Prelude CStr BurstQueue Ring RingSpec RingReg EthTable EthDev EthRing Platform Secondary.
Open Scope Z_scope.

Section world.
Context {A : Type} `{!Inhabited A}.

(** The port table of the process, the rings of all processes, whether
    allocations find memory, the named memory pools, and the packets returned
    to their pool so far. *)
Record world := World {
  w_eth : ring_eth; w_reg : ring_env A; w_mem : memory; w_pools : gmap string Z; w_freed : list A }.
#[export] Instance world_upd : Updatable world :=
  λ w, World (w_eth w) (w_reg w) (w_mem w) (w_pools w) (w_freed w).

(** What the vhost driver does when a port is made with it. *)
Variable from_vhost : world → string → Z → string → Z → option (Z * world).

(** The applications receive into an array on the stack. *)
Definition world_rx (w : world) (p n : Z) : option (list A * world) :=
  x ← data_of (w_eth w) p;
  '(got, bufs, x', st') ← ring_rx_burst (rings (w_reg w)) x 0 (replicate (Z.to_nat n) inhabitant) n;
  '(_, e') ← put_data p x' (w_eth w);
  Some (take (Z.to_nat got) bufs, w <| w_eth := e' |> <| w_reg := (w_reg w) <| rings := st' |> |>).
Definition world_tx (w : world) (p : Z) (bufs : list A) : option (Z * world) :=
  x ← data_of (w_eth w) p;
  '(sent, x', st') ← ring_tx_burst (rings (w_reg w)) x 0 bufs (Z.of_nat (length bufs));
  '(_, e') ← put_data p x' (w_eth w);
  Some (sent, w <| w_eth := e' |> <| w_reg := (w_reg w) <| rings := st' |> |>).
Definition world_from_ring (w : world) (mk : ring_maker) (a : Z) : option (Z * world) :=
  '(pid, _, _, e') ← (match mk with
                      | From_ring => rte_eth_from_ring (rings (w_reg w)) a (w_mem w)
                      | From_ring_s0 => rte_eth_from_ring_s0 (rings (w_reg w)) a (w_mem w)
                      end) (w_eth w);
  Some (pid, w <| w_eth := e' |>).

#[local] Instance world_platform : Platform world A := {
  rx_burst := world_rx;
  tx_burst := world_tx;
  free_buf w b := Some (w <| w_freed := w_freed w ++ [b] |>);
  lookup_ring w nm := '(r, e) ← rte_ring_lookup (w_reg w) nm; Some (r, w <| w_reg := e |>);
  port_from_ring := world_from_ring;
  lookup_pool w nm := Some (w_pools w !! nm);
  port_from_vhost := from_vhost;
  dev_count w := nb_ports (w_eth w);
  dev_type_of w p := fst <$> rte_eth_dev_get_device_type p (w_eth w) }.

(** ** Bursts *)

(** The first queues of port [p] are the ring at [a]; that ring holds [pkts]. *)
Definition port_on (w : world) (p a : Z) : Prop :=
  ∃ x, data_of (w_eth w) p = Some x ∧ rx_bound x 0 a ∧ tx_bound x 0 a.
Definition holds (w : world) (a cap : Z) (pkts : list A) : Prop :=
  ∃ q, rings (w_reg w) !! a = Some q ∧ bq_rep q cap pkts.

Lemma port_on_upd w p x x' q b reg : data_of (w_eth w) p = Some x → same_queues x x' → port_on w q b →
  port_on (w <| w_eth := upd (w_eth w) p x' |> <| w_reg := reg |>) q b.
Proof.
  intros Hx (_ & _ & Hr & Ht) (y & Hy & Hyr & Hyt). unfold port_on. simpl. destruct (decide (q = p)) as [->|Hne].
  - exists x'. rewrite (data_upd _ _ x) by done. simplify_eq. auto.
  - exists y. split; [|done]. pose proof (upd_frame _ _ _ x' Hx) as Hf.
    assert (0 <= q) by (unfold data_of, load in Hy; destruct (decide (0 <= q)); [lia|done]).
    destruct (frame_others _ _ _ Hf (Z.to_nat q)) as [_ E]; [lia|]. rewrite !Z2Nat.id in E by done. congruence.
Qed.

Lemma world_rx_run w p a cap pkts n : port_on w p a → holds w a cap pkts → 0 <= n <= 32 →
  ∃ w', world_rx w p n = Some (take (Z.to_nat n) pkts, w') ∧ holds w' a cap (drop (Z.to_nat n) pkts) ∧
    (∀ b c ps, b ≠ a → holds w b c ps → holds w' b c ps) ∧ (∀ q b, port_on w q b → port_on w' q b) ∧
    w_freed w' = w_freed w.
Proof.
  intros (x & Hx & Hr & _) (q & Hq & Hrep) Hn. unfold world_rx. rewrite Hx. cbn [mbind option_bind].
  destruct (ring_rx_burst_run (rings (w_reg w)) x 0 a q cap pkts (replicate (Z.to_nat n) inhabitant) n Hr Hq Hrep)
    as (x' & q' & E & Hrep' & Hs); [rewrite length_replicate; lia|lia|]. rewrite E. cbn [mbind option_bind].
  rewrite (run_put _ _ x) by done. cbn [mbind option_bind]. set (m := Z.min n (Z.of_nat (length pkts))) in *.
  eexists. split_and!.
  - do 2 f_equal. rewrite take_app_length' by (rewrite length_take; lia).
    destruct (decide (n <= Z.of_nat (length pkts))); [f_equal; lia|]. rewrite !take_ge by lia. done.
  - exists q'. simpl. split; [apply lookup_insert_eq|].
    destruct (decide (n <= Z.of_nat (length pkts))); [by replace n with m by lia|].
    rewrite drop_ge in * by lia. done.
  - intros b c ps Hne (r & H1 & H2). exists r. simpl. by rewrite lookup_insert_ne.
  - intros. by eapply port_on_upd.
  - done.
Qed.

Lemma world_tx_run w p a cap pkts bufs : port_on w p a → holds w a cap pkts → (length bufs <= 32)%nat →
  let m := Z.min (Z.of_nat (length bufs)) (cap - Z.of_nat (length pkts)) in
  ∃ w', world_tx w p bufs = Some (m, w') ∧ 0 <= m ∧ holds w' a cap (pkts ++ take (Z.to_nat m) bufs) ∧
    (∀ b c ps, b ≠ a → holds w b c ps → holds w' b c ps) ∧ (∀ q b, port_on w q b → port_on w' q b) ∧
    w_freed w' = w_freed w.
Proof.
  intros (x & Hx & _ & Ht) (q & Hq & Hrep) Hn m. unfold world_tx. rewrite Hx. cbn [mbind option_bind].
  destruct (ring_tx_burst_run (rings (w_reg w)) x 0 a q cap pkts bufs (Z.of_nat (length bufs)) Ht Hq Hrep)
    as (x' & q' & E & Hrep' & Hs); [lia|lia|]. rewrite E. cbn [mbind option_bind].
  rewrite (run_put _ _ x) by done. cbn [mbind option_bind]. pose proof (bq_cap _ _ _ Hrep).
  eexists. split_and!; [done|lia| | | |done].
  - exists q'. simpl. split; [apply lookup_insert_eq|done].
  - intros b c ps Hne (r & H1 & H2). exists r. simpl. by rewrite lookup_insert_ne.
  - intros. by eapply port_on_upd.
Qed.

(** A port may be used when it is on a ring that is there. *)
Definition port_usable (w : world) (p : Z) : Prop := ∃ a cap pkts, port_on w p a ∧ holds w a cap pkts.

Lemma usable_preserved w w' a cap pkts : holds w' a cap pkts →
  (∀ b c ps, b ≠ a → holds w b c ps → holds w' b c ps) → (∀ q b, port_on w q b → port_on w' q b) →
  ∀ q, port_usable w q → port_usable w' q.
Proof.
  intros Ha Hb Hp q (b & c & ps & H1 & H2). exists b. destruct (decide (b = a)) as [->|Hne]; [eauto|].
  exists c, ps. eauto.
Qed.

#[local] Instance world_ok : PlatformOk world A.
Proof.
  refine {| usable := port_usable |}.
  - intros w p n (a & cap & pkts & Hp & Hh) Hn. destruct (world_rx_run w p a cap pkts n Hp Hh Hn) as (w' & E & H1 & H2 & H3 & _).
    exists (take (Z.to_nat n) pkts), w'. split_and!; [done|rewrite length_take; lia|]. by eapply usable_preserved.
  - intros w p ps (a & cap & pkts & Hp & Hh) Hn. destruct (world_tx_run w p a cap pkts ps Hp Hh Hn) as (w' & E & H0 & H1 & H2 & H3 & _).
    eexists _, w'. split_and!; [done|done|lia|]. by eapply usable_preserved.
  - intros w b. eexists. split; [done|]. intros q (a & cap & pkts & (x & H1) & (r & H2)). exists a, cap, pkts.
    split; [by exists x|by exists r].
Defined.

(** ** What forwarding does to the rings

    The specification of [forward]: rings are lists of packets with a
    capacity; [addr] says which ring a port is on. A patch moves up to 32
    packets to the ring of the target port, and those for which there is no
    room to the freed packets. *)
Definition net : Type := gmap Z (list A) * list A.

Definition spec_move (cap : Z → Z) (a b : Z) (s : net) : net :=
  let '(c, freed) := s in
  let got := take 32 (c !!! a) in
  let c1 := <[a := drop 32 (c !!! a)]> c in
  let room := Z.to_nat (cap b - Z.of_nat (length (c1 !!! b))) in
  (<[b := c1 !!! b ++ take room got]> c1, freed ++ drop room got).
Definition spec_forward_port (cap addr : Z → Z) (i : nat) (p : port) (s : net) : net :=
  if decide (0 <= status p ∧ 0 <= out_port_id p) then spec_move cap (addr (Z.of_nat i)) (addr (out_port_id p)) s else s.
Fixpoint spec_forward (cap addr : Z → Z) (i : nat) (ports : list port) (s : net) : net :=
  match ports with
  | [] => s
  | p :: ports => spec_forward cap addr (S i) ports (spec_forward_port cap addr i p s)
  end.

(** The rings and the freed packets are those of the specification. *)
Definition world_rep (cap : Z → Z) (w : world) (s : net) : Prop :=
  w_freed w = snd s ∧ ∀ a pkts, fst s !! a = Some pkts → holds w a (cap a) pkts.
(** The ports of the table are on rings of the specification. *)
Definition on_rings (addr : Z → Z) (ports : list port) (w : world) (s : net) : Prop :=
  ∀ i p, ports !! i = Some p → 0 <= out_port_id p →
    (port_on w (Z.of_nat i) (addr (Z.of_nat i)) ∧ is_Some (fst s !! addr (Z.of_nat i))) ∧
    (port_on w (out_port_id p) (addr (out_port_id p)) ∧ is_Some (fst s !! addr (out_port_id p))).

Lemma free_all_run w bufs : free_all w bufs = Some (w <| w_freed := w_freed w ++ bufs |>).
Proof.
  revert w. induction bufs as [|b bufs IH]; intros w; simpl; [by destruct w; rewrite app_nil_r|].
  rewrite IH. simpl. by rewrite <- app_assoc.
Qed.

Lemma world_rep_insert cap w w' a pkts (s : net) freed : world_rep cap w s → holds w' a (cap a) pkts →
  (∀ b c ps, b ≠ a → holds w b c ps → holds w' b c ps) → w_freed w' = freed →
  world_rep cap w' (<[a := pkts]> (fst s), freed).
Proof.
  intros [_ H] Ha Hb Hf. split; [done|]. intros b ps. simpl. intros [[<- <-]|[Hne Hl]]%lookup_insert_Some; auto.
Qed.

Lemma spec_move_nothing cap a b (s : net) ps : fst s !! a = Some [] → fst s !! b = Some ps → spec_move cap a b s = s.
Proof.
  destruct s as [c freed]. simpl. intros Ha Hb. unfold spec_move. rewrite (lookup_total_correct c a []) by done. simpl.
  rewrite (insert_id c a) by done. rewrite (lookup_total_correct c b ps) by done.
  rewrite take_nil, drop_nil, !app_nil_r. by rewrite insert_id.
Qed.

Lemma on_rings_step addr ports w w' (s s' : net) : on_rings addr ports w s → (∀ q b, port_on w q b → port_on w' q b) →
  (∀ a, is_Some (fst s !! a) → is_Some (fst s' !! a)) → on_rings addr ports w' s'.
Proof. intros H H1 H2 i p Hp Ho. destruct (H i p Hp Ho) as [[? ?] [? ?]]. auto. Qed.

Lemma spec_move_dom cap a b (s : net) x : is_Some (fst s !! x) → is_Some (fst (spec_move cap a b s) !! x).
Proof. destruct s as [c freed]. simpl. intros H. apply lookup_insert_is_Some', or_intror, lookup_insert_is_Some'; auto. Qed.

(** A burst from one ring to another is [spec_move]. *)
Lemma move_refines cap w w1 w2 a b (s : net) got pa : world_rep cap w s → fst s !! a = Some pa → got = take 32 pa →
  is_Some (fst s !! b) →
  holds w1 a (cap a) (drop 32 pa) → (∀ x c ps, x ≠ a → holds w x c ps → holds w1 x c ps) → w_freed w1 = w_freed w →
  ∀ pb m, pb = <[a := drop 32 pa]> (fst s) !!! b → m = Z.min (Z.of_nat (length got)) (cap b - Z.of_nat (length pb)) → 0 <= m →
  holds w2 b (cap b) (pb ++ take (Z.to_nat m) got) → (∀ x c ps, x ≠ b → holds w1 x c ps → holds w2 x c ps) → w_freed w2 = w_freed w1 →
  world_rep cap (w2 <| w_freed := w_freed w2 ++ drop (Z.to_nat m) got |>) (spec_move cap a b s).
Proof.
  destruct s as [c freed]. simpl. intros Hrep Ha -> Hb H1 F1 E1 pb m -> Hm Hm0 H2 F2 E2. unfold spec_move.
  rewrite (lookup_total_correct c a pa) by done. set (c1 := <[a := drop 32 pa]> c) in *.
  pose proof (world_rep_insert cap w w1 a _ _ freed Hrep H1 F1 ltac:(rewrite E1; apply Hrep)) as R1. simpl in R1. fold c1 in R1.
  set (room := Z.to_nat (cap b - Z.of_nat (length (c1 !!! b)))).
  assert (take (Z.to_nat m) (take 32 pa) = take room (take 32 pa)) as Et.
  { destruct (decide (room <= length (take 32 pa))%nat); [f_equal; lia|]. rewrite !(take_ge (take 32 pa)) by lia. done. }
  assert (drop (Z.to_nat m) (take 32 pa) = drop room (take 32 pa)) as Ed.
  { destruct (decide (room <= length (take 32 pa))%nat); [f_equal; lia|]. rewrite !(drop_ge (take 32 pa)) by lia. done. }
  pose proof (world_rep_insert cap w1 w2 b _ _ freed R1 H2 F2 ltac:(rewrite E2, E1; apply Hrep)) as [R2 R3].
  split; simpl in *; [by rewrite R2, Ed|]. rewrite <- Et. intros x ps Hx.
  destruct (R3 x ps Hx) as (r & ? & ?). by exists r.
Qed.

Lemma forward_port_refines cap addr ports i p w (s : net) : table_ok ports → ports !! i = Some p →
  world_rep cap w s → on_rings addr ports w s →
  ∃ es w', forward_port ports (Z.of_nat i) w = Some (es, w') ∧
    world_rep cap w' (spec_forward_port cap addr i p s) ∧ on_rings addr ports w' (spec_forward_port cap addr i p s).
Proof.
  intros Hok Hp Hrep Hon. unfold forward_port, spec_forward_port, MAX_PKT_BURST. rewrite load_nat, Hp. cbn [mbind option_bind].
  destruct (Z.leb_spec 0 (status p)), (Z.leb_spec 0 (out_port_id p)); cbn [andb];
    [rewrite decide_True by done|rewrite decide_False by lia; eauto..].
  destruct (tab_out _ Hok _ _ Hp) as [?|(_ & _ & Hrx & q & Hq & _ & Htx)]; [lia|]. rewrite Hrx. cbn [negb].
  destruct (Hon i p Hp ltac:(done)) as [[Hpi [pa Ha]] [Hpo Hb]]. set (a := addr (Z.of_nat i)) in *. set (b := addr (out_port_id p)) in *.
  destruct (world_rx_run w (Z.of_nat i) a (cap a) pa 32 Hpi (proj2 Hrep a pa Ha) ltac:(lia)) as (w1 & E1 & H1 & F1 & P1 & G1).
  change (Z.to_nat 32) with 32%nat in *. cbn [rx_burst tx_burst world_platform]. rewrite E1. cbn [mbind option_bind].
  destruct (Nat.eqb_spec (length (take 32 pa)) 0) as [E0|_].
  { assert (pa = []) as -> by (destruct pa; [done|discriminate]). destruct Hb as [pb Hb]. rewrite (spec_move_nothing cap a b s pb) by done.
    exists [], w1. split_and!; [done| |eapply on_rings_step; eauto].
    destruct (world_rep_insert cap w w1 a [] s (snd s)) as [R1 R2]; [done|done|done|rewrite G1; apply Hrep|].
    split; [done|]. intros x ps Hx. apply R2. simpl. by rewrite insert_id. }
  assert (load ports (out_port_id p) = Some q) as ->. { unfold load. by rewrite decide_True. }
  cbn [mbind option_bind]. rewrite Htx. cbn [negb].
  set (pb := <[a := drop 32 pa]> (fst s) !!! b).
  assert (holds w1 b (cap b) pb) as Hhb.
  { unfold pb. destruct (decide (b = a)) as [->|Hne]; [by rewrite lookup_total_insert_eq|]. rewrite lookup_total_insert_ne by done.
    destruct Hb as [ps Hb]. rewrite (lookup_total_correct _ _ ps) by done. apply F1; [done|]. by apply Hrep. }
  destruct (world_tx_run w1 (out_port_id p) b (cap b) pb (take 32 pa)) as (w2 & E2 & Hm0 & H2 & F2 & P2 & G2);
    [by apply P1|done|rewrite length_take; lia|]. rewrite E2. cbn [mbind option_bind]. rewrite free_all_run. cbn [mbind option_bind].
  eexists _, _. split; [done|]. split; [by eapply move_refines|].
  eapply on_rings_step; [exact Hon| |intros; by apply spec_move_dom].
  intros r x Hr. destruct (P2 r x (P1 r x Hr)) as (y & ?). by exists y.
Qed.

Lemma forward_from_refines cap addr ports rest i w (s : net) : table_ok ports → drop i ports = rest →
  world_rep cap w s → on_rings addr ports w s →
  ∃ es w', forward_from ports (length rest) (Z.of_nat i) w = Some (es, w') ∧
    world_rep cap w' (spec_forward cap addr i rest s) ∧ on_rings addr ports w' (spec_forward cap addr i rest s).
Proof.
  intros Hok. revert i w s. induction rest as [|p rest IH]; intros i w s Hd Hrep Hon; [by exists [], w|].
  assert (ports !! i = Some p) as Hp. { rewrite <- (Nat.add_0_r i), <- lookup_drop, Hd. done. }
  destruct (forward_port_refines cap addr ports i p w s Hok Hp Hrep Hon) as (es & w1 & E & Hrep1 & Hon1).
  cbn [length forward_from spec_forward]. rewrite E. cbn [mbind option_bind].
  destruct (IH (S i) w1 (spec_forward_port cap addr i p s)) as (es' & w2 & E' & Hrep2 & Hon2); [|done|done|].
  { replace (S i) with (i + 1)%nat by lia. rewrite <- drop_drop, Hd. done. }
  replace (Z.of_nat i + 1) with (Z.of_nat (S i)) by lia. rewrite E'. cbn [mbind option_bind]. by eexists _, w2.
Qed.

(** C2: On ports made of rings, a pass of [forward] over a consistent patch table
    does to the rings exactly what the specification says: port by port in
    ascending order, up to 32 packets leave the front of the port's ring in
    order, the ones that fit are appended to the ring of the port it is patched
    to, the others are freed; every other ring stays as it is. This covers any
    table: several ports patched to one, chains, loops and a port patched to
    itself. *)
Theorem forward_refines cap addr ports w (s : net) (Hok : table_ok ports) (Hrep : world_rep cap w s)
    (Hon : on_rings addr ports w s) :
  ∃ es w', forward ports w = Some (es, w') ∧ world_rep cap w' (spec_forward cap addr 0 ports s) ∧
    on_rings addr ports w' (spec_forward cap addr 0 ports s).
Proof. unfold forward. rewrite <- (tab_len _ Hok). by apply (forward_from_refines cap addr ports ports 0). Qed.

(** All packets: those in rings and those freed. *)
Definition packets (c : gmap Z (list A)) : list A := concat ((map_to_list c).*2).

Lemma packets_delete c a pkts : c !! a = Some pkts → packets c ≡ₚ pkts ++ packets (delete a c).
Proof. intros H. unfold packets. by rewrite <- (map_to_list_delete c a pkts H). Qed.
Lemma packets_insert c a pkts : packets (<[a := pkts]> c) ≡ₚ pkts ++ packets (delete a c).
Proof. rewrite (packets_delete _ a pkts) by apply lookup_insert_eq. by rewrite delete_insert_eq. Qed.

Lemma spec_move_conserves cap a b (s : net) : is_Some (fst s !! a) → is_Some (fst s !! b) →
  packets (fst (spec_move cap a b s)) ++ snd (spec_move cap a b s) ≡ₚ packets (fst s) ++ snd s.
Proof.
  destruct s as [c freed]. simpl. intros [pa Ha] Hb. rewrite (lookup_total_correct c a pa) by done.
  set (c1 := <[a := drop 32 pa]> c). assert (is_Some (c1 !! b)) as [pb Hb1] by (apply lookup_insert_is_Some'; auto).
  rewrite (lookup_total_correct c1 b pb) by done. set (room := Z.to_nat _).
  rewrite packets_insert, <- (app_assoc pb), (Permutation_app_comm (take room _)), (app_assoc pb), <- (packets_delete c1 b pb) by done.
  unfold c1. rewrite packets_insert, (packets_delete c a pa) by done.
  rewrite <- (take_drop 32 pa) at 4. rewrite <- (take_drop room (take 32 pa)) at 3. solve_Permutation.
Qed.

Lemma spec_forward_conserves cap addr i ports (s : net) :
  (∀ j p, ports !! j = Some p → 0 <= out_port_id p →
     is_Some (fst s !! addr (Z.of_nat (i + j))) ∧ is_Some (fst s !! addr (out_port_id p))) →
  packets (fst (spec_forward cap addr i ports s)) ++ snd (spec_forward cap addr i ports s) ≡ₚ packets (fst s) ++ snd s.
Proof.
  revert i s. induction ports as [|p ports IH]; intros i s H; [done|]. cbn [spec_forward]. unfold spec_forward_port.
  case_decide as Hd.
  - destruct (H 0%nat p eq_refl) as [Ha Hb]; [lia|]. rewrite Nat.add_0_r in Ha. rewrite IH; [by apply spec_move_conserves|].
    intros j q Hq Ho. destruct (H (S j) q Hq Ho) as [H1 H2]. rewrite Nat.add_succ_r in H1.
    split; by apply spec_move_dom.
  - apply IH. intros j q Hq Ho. destruct (H (S j) q Hq Ho) as [H1 H2]. by rewrite Nat.add_succ_r in H1.
Qed.

(** No burst makes or removes a ring. *)
Lemma ring_rx_burst_dom (st st' : gmap Z (rte_ring A)) x qid bufs n got bufs' x' :
  ring_rx_burst st x qid bufs n = Some (got, bufs', x', st') → dom st' = dom st.
Proof.
  unfold ring_rx_burst, eth_ring_rx. intros H. simplify_option_eq. destruct (_ : queue_ptr); [|done]. simplify_option_eq.
  repeat case_match; simplify_option_eq. apply dom_insert_lookup_L. eauto.
Qed.
Lemma ring_tx_burst_dom (st st' : gmap Z (rte_ring A)) x qid bufs n sent x' :
  ring_tx_burst st x qid bufs n = Some (sent, x', st') → dom st' = dom st.
Proof.
  unfold ring_tx_burst, eth_ring_tx. intros H. simplify_option_eq. destruct (_ : queue_ptr); [done|]. simplify_option_eq.
  repeat case_match; simplify_option_eq. apply dom_insert_lookup_L. eauto.
Qed.
Lemma world_rx_dom w p n got w' : world_rx w p n = Some (got, w') → dom (rings (w_reg w')) = dom (rings (w_reg w)).
Proof.
  unfold world_rx. intros (x & _ & H)%bind_Some. apply bind_Some in H as ([[[? ?] ?] st'] & E & H).
  apply bind_Some in H as ([[] e] & _ & H). simplify_eq. simpl. by eapply ring_rx_burst_dom.
Qed.
Lemma world_tx_dom w p bufs sent w' : world_tx w p bufs = Some (sent, w') → dom (rings (w_reg w')) = dom (rings (w_reg w)).
Proof.
  unfold world_tx. intros (x & _ & H)%bind_Some. apply bind_Some in H as ([[? ?] st'] & E & H).
  apply bind_Some in H as ([[] e] & _ & H). simplify_eq. simpl. by eapply ring_tx_burst_dom.
Qed.
Lemma forward_port_dom ports i w es w' : forward_port ports i w = Some (es, w') → dom (rings (w_reg w')) = dom (rings (w_reg w)).
Proof.
  unfold forward_port. intros (p & _ & H)%bind_Some. destruct (_ && _); [|by simplify_eq]. destruct (negb _); [done|].
  apply bind_Some in H as ([bufs w1] & E1%world_rx_dom & H). destruct (_ =? _)%nat; [by simplify_eq|].
  apply bind_Some in H as (q & _ & H). destruct (negb _); [done|]. apply bind_Some in H as ([sent w2] & E2%world_tx_dom & H).
  rewrite free_all_run in H. simplify_option_eq. congruence.
Qed.
Lemma forward_from_dom ports fuel i w es w' :
  forward_from ports fuel i w = Some (es, w') → dom (rings (w_reg w')) = dom (rings (w_reg w)).
Proof.
  revert i w es w'. induction fuel as [|fuel IH]; intros i w es w'; simpl; [by intros [= _ <-]|].
  intros ([es1 w1] & E1%forward_port_dom & H)%bind_Some. apply bind_Some in H as ([es2 w2] & E2%IH & H). simplify_eq. congruence.
Qed.

Lemma spec_forward_dom cap addr i ports (s : net) :
  (∀ j p, ports !! j = Some p → 0 <= out_port_id p →
     is_Some (fst s !! addr (Z.of_nat (i + j))) ∧ is_Some (fst s !! addr (out_port_id p))) →
  dom (fst (spec_forward cap addr i ports s)) = dom (fst s).
Proof.
  revert i s. induction ports as [|p ports IH]; intros i s H; [done|]. cbn [spec_forward]. unfold spec_forward_port.
  case_decide as Hd.
  - destruct (H 0%nat p eq_refl) as [Ha Hb]; [lia|]. rewrite Nat.add_0_r in Ha. rewrite IH.
    + destruct s as [c freed]. simpl in *. rewrite !dom_insert_lookup_L; [done|done|by apply lookup_insert_is_Some'; auto].
    + intros j q Hq Ho. destruct (H (S j) q Hq Ho) as [H1 H2]. rewrite Nat.add_succ_r in H1. split; by apply spec_move_dom.
  - apply IH. intros j q Hq Ho. destruct (H (S j) q Hq Ho) as [H1 H2]. by rewrite Nat.add_succ_r in H1.
Qed.

(** C19: Forwarding neither loses nor duplicates packets: let [s] give the
    contents of all the rings there are, and let the ports of a consistent
    table be on such rings. After a pass the same rings are there, and the
    contents of all of them and the packets freed are together, packet by
    packet, those of before: each packet is in one ring or freed as often as it
    was. *)
Theorem forward_conserves cap addr ports w (s : net) (Hok : table_ok ports) (Hrep : world_rep cap w s)
    (Hall : dom (fst s) = dom (rings (w_reg w))) (Hon : on_rings addr ports w s) :
  ∃ es w' s', forward ports w = Some (es, w') ∧ world_rep cap w' s' ∧
    dom (fst s') = dom (rings (w_reg w')) ∧ dom (rings (w_reg w')) = dom (rings (w_reg w)) ∧
    packets (fst s') ++ w_freed w' ≡ₚ packets (fst s) ++ w_freed w.
Proof.
  destruct (forward_from_refines cap addr ports ports 0 w s Hok eq_refl Hrep Hon) as (es & w' & E & Hrep' & _).
  assert (∀ j p, ports !! j = Some p → 0 <= out_port_id p →
    is_Some (fst s !! addr (Z.of_nat (0 + j))) ∧ is_Some (fst s !! addr (out_port_id p))) as Hin.
  { intros j p Hp Ho. destruct (Hon j p Hp Ho) as [[_ ?] [_ ?]]. done. }
  pose proof (forward_from_dom _ _ _ _ _ _ E) as Ed.
  exists es, w', (spec_forward cap addr 0 ports s). unfold forward. rewrite <- (tab_len _ Hok).
  split_and!; [done|done|by rewrite (spec_forward_dom _ _ _ _ _ Hin), Ed|done|].
  rewrite (proj1 Hrep), (proj1 Hrep'). by apply spec_forward_conserves.
Qed.

(** ** Adding a ring *)
Definition add_text (n : Z) : string := "add ring " +:+ fmt_d n.
Definition add_text_ok (k : nat) : bool :=
  let n := Z.of_nat k in
  bool_decide (tokenize " " (add_text n) = ["add"; "ring"; fmt_d n]) && (strlen (add_text n) <? MSG_SIZE) &&
  (atoi (fmt_d n) =? n) && bool_decide (cut_first (add_text n) = "add") && (strlen (get_rx_queue_name n) <? 32).
Lemma add_texts_ok : forallb add_text_ok (seq 0 255) = true.
Proof. vm_compute. reflexivity. Qed.
Lemma add_text_spec n : 0 <= n < 255 →
  tokenize " " (add_text n) = ["add"; "ring"; fmt_d n] ∧ strlen (add_text n) < MSG_SIZE ∧ atoi (fmt_d n) = n ∧
  cut_first (add_text n) = "add" ∧ strlen (get_rx_queue_name n) < 32.
Proof.
  intros Hn. pose proof add_texts_ok as H. rewrite forallb_forall in H. specialize (H (Z.to_nat n)). rewrite in_seq in H.
  specialize (H ltac:(lia)). unfold add_text_ok in H. rewrite Z2Nat.id in H by lia. rewrite !andb_true_iff in H.
  destruct H as [[[[H1 H2] H3] H4] H5]. apply bool_decide_eq_true in H1, H4. split_and!; try done; lia.
Qed.

Lemma spec_allocate_lt (w : ring_eth) nm i : eth_ok w → fst (spec_allocate (view w) nm) = Some i → (i < 32)%nat.
Proof.
  intros Hok H. unfold spec_allocate in H. destruct (list_find _ (view w)) as [[j o]|] eqn:E; [|done].
  case_decide; [done|]. simpl in H. injection H as <-. apply list_find_Some in E as (E & _).
  apply lookup_lt_Some in E. rewrite view_length, (ok_devices _ Hok) in E. exact E.
Qed.

Lemma named_ring (e : ring_env A) nm a : named e nm = Some a → ∃ r, rings e !! a = Some r ∧ rname r = nm.
Proof.
  unfold named. intros H. apply head_Some_elem_of in H. apply list_elem_of_filter in H as [H _].
  apply fmap_Some in H as (r & Hr & ->). by exists r.
Qed.

Lemma world_from_ring_run w mk a r i : eth_ok (w_eth w) → w_mem w = enough → rings (w_reg w) !! a = Some r →
  strlen (rname r) < 32 → fst (spec_allocate (view (w_eth w)) (rname r)) = Some i →
  ∃ e', let w' := w <| w_eth := e' |> in
    world_from_ring w mk a = Some (Z.of_nat i, w') ∧ eth_ok e' ∧ port_on w' (Z.of_nat i) a ∧
    view e' = <[i := Some (rname r)]> (view (w_eth w)) ∧
    ∀ j, j ≠ i → rte_eth_devices e' !! j = rte_eth_devices (w_eth w) !! j.
Proof.
  intros Hok Hm Hr Hn Hi. unfold world_from_ring. rewrite Hm.
  assert (∀ numa, ∃ e', from_ring numa (rings (w_reg w)) a enough (w_eth w) =
    Some ((Z.of_nat i, 0, [BInternals; BTxQueues; BRxQueues; BData]), e') ∧ eth_ok e' ∧
    (∃ x, data_of e' (Z.of_nat i) = Some x ∧ rx_bound x 0 a ∧ tx_bound x 0 a) ∧
    view e' = <[i := Some (rname r)]> (view (w_eth w)) ∧
    ∀ j, j ≠ i → rte_eth_devices e' !! j = rte_eth_devices (w_eth w) !! j) as H.
  { intros numa. unfold from_ring. rewrite Hr. erewrite run_bind by reflexivity.
    pose proof (from_rings_run (w_eth w) (rname r) [a] [a] (numa r) Hok Hn ltac:(simpl; lia) ltac:(simpl; lia)) as H.
    rewrite Hi in H. destruct H as (x & e' & E & Hok' & Hv & Hx & Hp & Hfr). exists e'. split; [exact E|].
    split; [done|]. split; [|done]. exists x. split; [done|]. destruct Hp as (_ & _ & _ & _ & _ & _ & _ & H1 & H2).
    split; [by apply (H1 0%nat)|by apply (H2 0%nat)]. }
  destruct mk; unfold rte_eth_from_ring, rte_eth_from_ring_s0;
    match goal with |- context [from_ring ?f] => destruct (H f) as (e' & -> & Hok' & Hx & Hv & Hfr) end;
    by exists e'.
Qed.

Lemma add_port_run pid t ports p : 0 <= pid → ports !! Z.to_nat pid = Some p →
  add_port pid t ports = Some (<[Z.to_nat pid := p <| status := pid |> <| type := t |>]> ports).
Proof.
  intros H0 Hp. pose proof (lookup_lt_Some _ _ _ Hp). unfold add_port, load. rewrite decide_True, Hp by done. simpl.
  apply store_in. lia.
Qed.

(** C38: The command [add ring <n>], as text, makes a port of ring [n], for
    [nfv_py] and for [sec_zerocpy]. The conditions: the number is below 255, the
    ring exists, memory is found, a port is free and none has the ring's name.
    Then the reply is sent and the first free port [i] is one of that name whose
    receive and transmit queue is the ring; entry [i] of the patch table shows it
    in use with type RING. Nothing else changes: not the other fields of the
    application and the other entries of its table, not the device entries and
    names of the other ports, the rings and their list, the pools, the freed
    packets. *)
Theorem add_ring_command v s w n i a (Htab : table_ok (ports_fwd_array s)) (Hok : eth_ok (w_eth w))
    (Henv : env_ok (w_reg w)) (Hmem : w_mem w = enough) (Hn : 0 <= n < 255)
    (Hring : named (w_reg w) (get_rx_queue_name n) = Some a)
    (Hfree : fst (spec_allocate (view (w_eth w)) (get_rx_queue_name n)) = Some i) :
  ∃ s' w' p, handle_message v s w (add_text n) = Some (Reply s' "add", w') ∧
    port_on w' (Z.of_nat i) a ∧ eth_ok (w_eth w') ∧ table_ok (ports_fwd_array s') ∧
    ports_fwd_array s !! i = Some p ∧
    s' = s <| ports_fwd_array := <[i := p <| status := Z.of_nat i |> <| type := RING |>]> (ports_fwd_array s) |> ∧
    view (w_eth w') = <[i := Some (get_rx_queue_name n)]> (view (w_eth w)) ∧
    (∀ j, j ≠ i → rte_eth_devices (w_eth w') !! j = rte_eth_devices (w_eth w) !! j) ∧
    rings (w_reg w') = rings (w_reg w) ∧ ring_list (w_reg w') = ring_list (w_reg w) ∧
    w_mem w' = w_mem w ∧ w_pools w' = w_pools w ∧ w_freed w' = w_freed w.
Proof.
  destruct (add_text_spec n Hn) as (Htok & Hlen & Hat & Hcut & Hname). pose proof (spec_allocate_lt _ _ _ Hok Hfree) as Hi.
  destruct (named_ring _ _ _ Hring) as (r & Hr & Hrn). rewrite <- Hrn in Hfree.
  destruct (ring_lookup_named (w_reg w) (get_rx_queue_name n) Henv Hname) as (e' & El & Hrl & Hre). rewrite Hring in El.
  destruct (world_from_ring_run (w <| w_reg := e' |>) (ring_maker_used v) a r i) as (e1 & Ew & Hok' & Hp & Hv & Hfr);
    [done|done|simpl; by rewrite Hre|by rewrite Hrn|done|].
  destruct (lookup_lt_is_Some_2 (ports_fwd_array s) i) as [p Hpi]; [rewrite (tab_len _ Htab); exact Hi|].
  eexists _, _, p. assert (add_port (Z.of_nat i) RING (ports_fwd_array s) =
    Some (<[i := p <| status := Z.of_nat i |> <| type := RING |>]> (ports_fwd_array s))) as Ea.
  { rewrite (add_port_run _ _ _ p) by (lia || by rewrite Nat2Z.id). by rewrite Nat2Z.id. }
  split.
  { unfold handle_message. destruct (Z.leb_spec MSG_SIZE (strlen (add_text n))); [lia|]. rewrite Htok, Hcut. simpl.
    unfold cmd_add, and_if, word. simpl. unfold add_ring, word, open_ring. simpl. rewrite Hat.
    assert (ring_name v n = get_rx_queue_name n) as ->.
    { unfold ring_name. destruct v; [done|]. rewrite u16_small by (unfold is_u16; lia). destruct (Z.leb_spec 255 n); [lia|done]. }
    rewrite El. simpl. rewrite Ew. simpl.
    assert (ring_port_index v (Z.of_nat i) = Z.of_nat i) as ->.
    { unfold ring_port_index. destruct v; [done|]. apply u16_small. unfold is_u16. lia. }
    rewrite Ea. done. }
  rewrite Hrn in Hv. split_and!; try done. by eapply add_port_ok.
Qed.
End world.

(** ** A session: two rings, patched *)
Definition no_vhost : world (A := Z) → string → Z → string → Z → option (Z * world) := λ w _ _ _ _, Some (-1, w).
#[local] Instance demo_platform : Platform world Z := world_platform no_vhost.
#[local] Instance demo_ok : PlatformOk world Z := world_ok no_vhost.

Definition full_ring : rte_ring Z :=
  {| rname := "MProc_Ring_0"; rflags := 0; rmemzone := Some 0;
     rprod := Prod 4 0 4 3 3 3; rcons := Cons 0 4 3 0 0; rtable := [1; 2; 3; 0] |}.
Definition other_ring : rte_ring Z :=
  {| rname := "MProc_Ring_1"; rflags := 0; rmemzone := Some 0;
     rprod := Prod 4 0 4 3 (2 ^ 32 - 1) (2 ^ 32 - 1); rcons := Cons 0 4 3 (2 ^ 32 - 2) (2 ^ 32 - 2); rtable := [0; 0; 7; 0] |}.
Definition world0 : world :=
  World (eth_init false (replicate 32 zero_data)) (RingEnv [4096; 8192] {[ 4096 := full_ring; 8192 := other_ring ]} 0)
        enough ∅ [].
Definition argv0 : list string := ["-n"; "3"; "-s"; "192.168.122.1:6666"].
Definition app0 : app := default app_static (main_init app_static world0 argv0).
Definition session (v : variant) (msgs : list string) : app * world := default (app0, world0) (run_messages v app0 world0 msgs).
Definition msgs0 : list string := ["add ring 0"; "add ring 1"; "patch 0 1"; "forward"].
Definition app1 : app := fst (session NfvPy msgs0).
Definition world1 : world := snd (session NfvPy msgs0).

Lemma full_ring_rep : bq_rep full_ring 3 [1; 2; 3].
Proof. exists 2. split; [done|]. split; [by split|done..|]. intros [|[|[|j]]] x; simpl; intros [= <-]; done. Qed.
Lemma other_ring_rep : bq_rep other_ring 3 [7].
Proof. exists 2. split; [done|]. split; [by split|done..|]. intros [|[|j]] x; simpl; intros [= <-]; done. Qed.

Definition caps0 : Z → Z := λ _, 3.
Definition addr0 : Z → Z := λ p, if p =? 0 then 4096 else 8192.
Definition net0 : net := ({[ 4096 := [1; 2; 3]; 8192 := [7] ]}, []).

Lemma session_run v msgs : match run_messages v app0 world0 msgs with Some _ => true | None => false end = true →
  run_messages v app0 world0 msgs = Some (fst (session v msgs), snd (session v msgs)).
Proof. unfold session. by destruct (run_messages v app0 world0 msgs) as [[s w]|]. Qed.

Lemma table1_ok : table_ok (ports_fwd_array app1).
Proof.
  eapply (run_messages_ok NfvPy app0 world0 msgs0); [|apply session_run; vm_compute; reflexivity].
  apply (init_ports_ok world0 (ports_fwd_array app_static)). done.
Qed.
Lemma world1_rep : world_rep caps0 world1 net0.
Proof.
  split; [done|]. intros a pkts. simpl. intros [[<- <-]|[Hne [<- <-]%lookup_singleton_Some]]%lookup_insert_Some.
  - exists full_ring. split; [vm_compute; reflexivity|exact full_ring_rep].
  - exists other_ring. split; [vm_compute; reflexivity|exact other_ring_rep].
Qed.
Lemma port_on0 : port_on world1 0 4096.
Proof. eexists. split; [vm_compute; reflexivity|]. split; eexists _, _, _, _; split_and!; vm_compute; reflexivity. Qed.
Lemma port_on1 : port_on world1 1 8192.
Proof. eexists. split; [vm_compute; reflexivity|]. split; eexists _, _, _, _; split_and!; vm_compute; reflexivity. Qed.
Lemma routes1 i p : ports_fwd_array app1 !! i = Some p → 0 <= out_port_id p → i = 0%nat ∧ out_port_id p = 1.
Proof.
  assert (out_port_id <$> ports_fwd_array app1 = 1 :: replicate 31 (-99)) as E by (vm_compute; reflexivity).
  intros Hp Ho. assert ((out_port_id <$> ports_fwd_array app1) !! i = Some (out_port_id p)) as H by (by rewrite list_lookup_fmap, Hp).
  rewrite E in H. destruct i as [|i]; [by injection H as <-|]. apply lookup_replicate in H. lia.
Qed.
Lemma world1_on : on_rings addr0 (ports_fwd_array app1) world1 net0.
Proof.
  intros i p Hp Ho. destruct (routes1 i p Hp Ho) as [-> ->]. split; split; try (by eexists); [exact port_on0|exact port_on1].
Qed.

Lemma forward_refines_witness :
  ∃ es w', forward (ports_fwd_array app1) world1 = Some (es, w') ∧ w_freed w' = [3] ∧ holds w' 4096 3 [] ∧ holds w' 8192 3 [7; 1; 2].
Proof.
  destruct (forward_refines no_vhost caps0 addr0 (ports_fwd_array app1) world1 net0 table1_ok world1_rep world1_on)
    as (es & w' & E & [Hf Hr] & _).
  exists es, w'. split; [exact E|]. split; [rewrite Hf; vm_compute; reflexivity|].
  split; apply Hr; vm_compute; reflexivity.
Defined.

Lemma forward_conserves_witness :
  ∃ es w' s', forward (ports_fwd_array app1) world1 = Some (es, w') ∧ world_rep caps0 w' s' ∧
    dom (fst s') = dom (rings (w_reg w')) ∧ dom (rings (w_reg w')) = {[ 4096; 8192 ]} ∧
    packets (fst s') ++ w_freed w' ≡ₚ [1; 2; 3; 7].
Proof.
  destruct (forward_conserves no_vhost caps0 addr0 (ports_fwd_array app1) world1 net0 table1_ok world1_rep
    ltac:(by apply (bool_decide_unpack _); vm_compute) world1_on) as (es & w' & s' & E & Hr & Hd & Hd1 & Hp).
  exists es, w', s'. split; [exact E|]. split; [exact Hr|]. split; [exact Hd|].
  split; [rewrite Hd1; by apply (bool_decide_unpack _); vm_compute|]. rewrite Hp. vm_compute. solve_Permutation.
Defined.

Lemma add_ring_command_witness :
  ∃ s' w', handle_message SecZerocpy app0 world0 "add ring 1" = Some (Reply s' "add", w') ∧ port_on w' 0 8192.
Proof.
  destruct (add_ring_command no_vhost SecZerocpy app0 world0 1 0%nat 8192) as (s' & w' & p & E & H & _).
  - apply (init_ports_ok world0 (ports_fwd_array app_static)). done.
  - by apply eth_init_ok.
  - split; [by apply (bool_decide_unpack _); vm_compute| |].
    + intros a Ha. apply list_elem_of_In in Ha. by destruct Ha as [<-|[<-|[]]].
    + intros a r H. simpl in H. by apply lookup_insert_Some in H as [[<- <-]|[Hne [<- <-]%lookup_singleton_Some]].
  - done.
  - lia.
  - vm_compute. reflexivity.
  - vm_compute. reflexivity.
  - exists s', w'. split; [exact E|exact H].
Defined.


Lemma forward_follows_table_witness :
  ∃ es w', forward (ports_fwd_array app1) world1 = Some (es, w') ∧ Forall (event_ok (ports_fwd_array app1)) es.
Proof.
  destruct (forward_follows_table (ports_fwd_array app1) world1) as (es & w' & E & H & _).
  - exact table1_ok.
  - intros i p Hp Ho. destruct (routes1 i p Hp Ho) as [-> ->]. split.
    + exists 4096, 3, [1; 2; 3]. split; [exact port_on0|apply world1_rep; reflexivity].
    + exists 8192, 3, [7]. split; [exact port_on1|apply world1_rep; reflexivity].
  - exists es, w'. split; [exact E|exact H].
Defined.

Lemma patch_command_witness :
  ∃ ports', handle_message NfvPy app1 world1 "patch 31 7" = Some (Reply (app1 <| ports_fwd_array := ports' |>) "patch", world1) ∧
    ∃ p, ports' !! 31%nat = Some p ∧ status p = 31 ∧ out_port_id p = 7.
Proof.
  destruct (patch_command NfvPy app1 world1 31 7) as (ports' & E & _ & H & _).
  - exact table1_ok.
  - unfold RTE_MAX_ETHPORTS. lia.
  - unfold RTE_MAX_ETHPORTS. lia.
  - exists ports'. split; [exact E|exact H].
Defined.

Definition app4 : app := fst (session NfvPy ["patch 0 1"; "patch 2 3"]).
Lemma status_reply_overflows_witness : handle_message NfvPy app4 world1 "status" = None.
Proof. apply (status_reply_overflows NfvPy app4 world1). vm_compute. lia. Defined.

Lemma patch_race_safe_witness :
  snd (ports_fwd_array app1, patch_steps 1 0, SRx 0 1) ≠ SCrash.
Proof.
  apply (patch_race_safe (ports_fwd_array app1) 1 0).
  - exact table1_ok.
  - lia.
  - eexists. split; vm_compute; reflexivity.
  - eapply rtc_l; [|apply rtc_refl]. apply (c_route _ _ 0%nat (Port 0 RING true true 1)); [vm_compute; reflexivity|done|done].
Defined.
