(* ===== verification/Mempool.v ===== *)
(** * librte_mempool: getting and putting objects

    [lib/librte_mempool/rte_mempool.h] and [rte_mempool.c]: a pool is a ring
    of free objects and, for each lcore, a cache of some more. The pool uses
    its ring through [BurstQueue]. The configuration is the repository's
    (caches compiled in, debug checks not). *)
From S2P Require Import Prelude BurstQueue.
Open Scope Z_scope.

Definition RTE_MEMPOOL_CACHE_MAX_SIZE : Z := 512.
Definition RTE_MAX_LCORE : Z := 128.
Definition MEMPOOL_F_SP_PUT : Z := 4.
Definition MEMPOOL_F_SC_GET : Z := 8.

(** [(typeof(c))((c) * 1.5)] for an [unsigned]. *)
Definition CALC_CACHE_FLUSHTHRESH (c : Z) : Z := u32 (c * 3 / 2).

(** A loop that copies [n] cells of [src], from [k] in steps of [step], to
    [dst] from [i] on. *)
Fixpoint copy_cells {A} (dst : list A) (i : Z) (src : list A) (k step : Z) (n : nat) : option (list A) :=
  match n with
  | O => Some dst
  | S n => x ← load src k; dst ← store dst i x; copy_cells dst (i + 1) src (k + step) step n
  end.

Section pool.
Context {Q A : Type} `{!BurstQueue Q A}.

Record rte_mempool_cache := Cache { len : Z; objs : list A }.
Record rte_mempool := Mempool {
  mp_name : string; ring : Q; phys_addr : Z; mp_flags : Z; mp_size : Z; cache_size : Z; cache_flushthresh : Z;
  elt_size : Z; header_size : Z; trailer_size : Z; private_data_size : Z; local_cache : list rte_mempool_cache;
  pg_num : Z; pg_shift : Z; pg_mask : Z; elt_va_start : Z; elt_va_end : Z; elt_pa : list Z }.
#[export] Instance mempool_upd : Updatable rte_mempool := λ m,
  Mempool (mp_name m) (ring m) (phys_addr m) (mp_flags m) (mp_size m) (cache_size m) (cache_flushthresh m)
          (elt_size m) (header_size m) (trailer_size m) (private_data_size m) (local_cache m)
          (pg_num m) (pg_shift m) (pg_mask m) (elt_va_start m) (elt_va_end m) (elt_pa m).

(** [rte_lcore_id()] of the caller is an argument. The result of the enqueues
    is ignored. *)
Definition __mempool_put_bulk (mp : rte_mempool) (lcore_id : Z) (obj_table : list A) (n : Z) (is_mp : bool)
    : option rte_mempool :=
  let ring_enqueue := '(_, r) ← bq_enqueue_bulk is_mp (ring mp) obj_table n; Some (mp <| ring := r |>) in
  if (cache_size mp =? 0) || negb is_mp || (RTE_MAX_LCORE <=? lcore_id) then ring_enqueue
  else if RTE_MEMPOOL_CACHE_MAX_SIZE <? n then ring_enqueue
  else
    cache ← load (local_cache mp) lcore_id;
    objs' ← copy_cells (objs cache) (len cache) obj_table 0 1 (Z.to_nat n);
    let len' := u32 (len cache + n) in
    if cache_flushthresh mp <=? len' then
      '(_, r) ← bq_enqueue_bulk true (ring mp) (drop (Z.to_nat (cache_size mp)) objs') (u32 (len' - cache_size mp));
      caches ← store (local_cache mp) lcore_id (Cache (cache_size mp) objs');
      Some (mp <| ring := r |> <| local_cache := caches |>)
    else
      caches ← store (local_cache mp) lcore_id (Cache len' objs');
      Some (mp <| local_cache := caches |>).

Definition rte_mempool_mp_put_bulk mp lcore obj_table n := __mempool_put_bulk mp lcore obj_table n true.
Definition rte_mempool_sp_put_bulk mp lcore obj_table n := __mempool_put_bulk mp lcore obj_table n false.
Definition rte_mempool_put_bulk mp lcore obj_table n :=
  __mempool_put_bulk mp lcore obj_table n (Z.land (mp_flags mp) MEMPOOL_F_SP_PUT =? 0).
Definition rte_mempool_mp_put mp lcore obj := rte_mempool_mp_put_bulk mp lcore [obj] 1.
Definition rte_mempool_sp_put mp lcore obj := rte_mempool_sp_put_bulk mp lcore [obj] 1.
Definition rte_mempool_put mp lcore obj := rte_mempool_put_bulk mp lcore [obj] 1.

(** The response is taken from the end of the cache. *)
Definition take_from_cache (mp : rte_mempool) (lcore_id : Z) (cache : rte_mempool_cache) (obj_table : list A) (n : Z)
    : option (Z * list A * rte_mempool) :=
  tbl ← copy_cells obj_table 0 (objs cache) (len cache - 1) (-1) (Z.to_nat n);
  caches ← store (local_cache mp) lcore_id (Cache (u32 (len cache - n)) (objs cache));
  Some (0, tbl, mp <| local_cache := caches |>).

Definition __mempool_get_bulk (mp : rte_mempool) (lcore_id : Z) (obj_table : list A) (n : Z) (is_mc : bool)
    : option (Z * list A * rte_mempool) :=
  let ring_dequeue mp :=
    '(ret, tbl, r) ← bq_dequeue_bulk is_mc (ring mp) obj_table n; Some (ret, tbl, mp <| ring := r |>) in
  if (cache_size mp =? 0) || negb is_mc || (cache_size mp <=? n) || (RTE_MAX_LCORE <=? lcore_id) then ring_dequeue mp
  else
    cache ← load (local_cache mp) lcore_id;
    if len cache <? n then
      let req := u32 (n + (cache_size mp - len cache)) in
      '(ret, tail, r) ← bq_dequeue_bulk true (ring mp) (drop (Z.to_nat (len cache)) (objs cache)) req;
      let objs' := take (Z.to_nat (len cache)) (objs cache) ++ tail in
      if ret <? 0 then
        caches ← store (local_cache mp) lcore_id (Cache (len cache) objs');
        ring_dequeue (mp <| ring := r |> <| local_cache := caches |>)
      else take_from_cache (mp <| ring := r |>) lcore_id (Cache (u32 (len cache + req)) objs') obj_table n
    else take_from_cache mp lcore_id cache obj_table n.

Definition rte_mempool_mc_get_bulk mp lcore obj_table n := __mempool_get_bulk mp lcore obj_table n true.
Definition rte_mempool_sc_get_bulk mp lcore obj_table n := __mempool_get_bulk mp lcore obj_table n false.
Definition rte_mempool_get_bulk mp lcore obj_table n :=
  __mempool_get_bulk mp lcore obj_table n (Z.land (mp_flags mp) MEMPOOL_F_SC_GET =? 0).
Definition rte_mempool_mc_get mp lcore obj_p := rte_mempool_mc_get_bulk mp lcore obj_p 1.
Definition rte_mempool_sc_get mp lcore obj_p := rte_mempool_sc_get_bulk mp lcore obj_p 1.
Definition rte_mempool_get mp lcore obj_p := rte_mempool_get_bulk mp lcore obj_p 1.

(** ** Observers *)
Definition rte_mempool_count (mp : rte_mempool) : Z :=
  let count := bq_count (ring mp) in
  if cache_size mp =? 0 then count
  else
    let count := foldl (λ c cache, u32 (c + len cache)) count (local_cache mp) in
    if mp_size mp <? count then mp_size mp else count.
Definition rte_mempool_free_count (mp : rte_mempool) : Z := u32 (mp_size mp - rte_mempool_count mp).
Definition rte_mempool_full (mp : rte_mempool) : Z := c_bool (rte_mempool_count mp =? mp_size mp).
Definition rte_mempool_empty (mp : rte_mempool) : Z := c_bool (rte_mempool_count mp =? 0).

(** [false] where the code panics. *)
Definition mempool_audit_cache (mp : rte_mempool) : bool :=
  forallb (λ c, negb (cache_flushthresh mp <? len c)) (local_cache mp).
End pool.
Arguments rte_mempool_cache : clear implicits.
Arguments rte_mempool : clear implicits.

(** ** What a pool holds *)
Section proofs.
Context {Q A : Type} `{!BurstQueue Q A}.
Implicit Types (mp : rte_mempool Q A) (tbl free : list A).

Definition cached (c : rte_mempool_cache A) : list A := take (Z.to_nat (len c)) (objs c).

(** Sizes of the caches; the free objects are those of the ring and of all
    caches. *)
Record pool_ok mp : Prop := {
  ok_cache_size : 0 <= cache_size mp <= RTE_MEMPOOL_CACHE_MAX_SIZE;
  ok_thresh : cache_flushthresh mp = CALC_CACHE_FLUSHTHRESH (cache_size mp);
  ok_lcores : length (local_cache mp) = Z.to_nat RTE_MAX_LCORE;
  ok_caches : ∀ i c, local_cache mp !! i = Some c →
    length (objs c) = Z.to_nat (RTE_MEMPOOL_CACHE_MAX_SIZE * 3) ∧ 0 <= len c <= cache_flushthresh mp }.
Definition pool_rep mp (cap : Z) (free : list A) : Prop :=
  pool_ok mp ∧ ∃ q, bq_rep (ring mp) cap q ∧ free ≡ₚ q ++ concat (cached <$> local_cache mp).

#[export] Instance pool_rep_proper mp cap : Proper ((≡ₚ) ==> iff) (pool_rep mp cap).
Proof.
  intros f1 f2 Hf. unfold pool_rep. split; intros (H & q & Hq & Hp); (split; [done|]); exists q; (split; [done|]);
    [by rewrite <- Hf|by rewrite Hf].
Qed.

Lemma copy_cells_run (dst src xs : list A) i k step : 0 <= i → i + Z.of_nat (length xs) <= Z.of_nat (length dst) →
  (∀ j x, xs !! j = Some x → load src (k + step * Z.of_nat j) = Some x) →
  copy_cells dst i src k step (length xs) =
    Some (take (Z.to_nat i) dst ++ xs ++ drop (Z.to_nat i + length xs) dst).
Proof.
  revert dst i k. induction xs as [|x xs IH]; intros dst i k Hi Hl Hx; simpl in *.
  { by rewrite Nat.add_0_r, take_drop. }
  pose proof (Hx 0%nat x eq_refl) as H0. rewrite Z.mul_0_r, Z.add_0_r in H0. rewrite H0. simpl.
  rewrite store_in by lia. simpl. rewrite IH; [|lia|rewrite length_insert; lia|].
  - replace (Z.to_nat (i + 1)) with (S (Z.to_nat i)) by lia. rewrite <- Nat.add_succ_comm.
    rewrite (take_S_r _ _ x) by (apply list_lookup_insert_eq; lia).
    rewrite take_insert_ge, drop_insert_lt by lia. by rewrite <- app_assoc.
  - intros j y Hy. rewrite <- (Hx (S j) y Hy). f_equal. lia.
Qed.

Lemma pool_cache mp lcore : pool_ok mp → 0 <= lcore < RTE_MAX_LCORE →
  ∃ c, load (local_cache mp) lcore = Some c ∧ local_cache mp !! Z.to_nat lcore = Some c ∧
    length (objs c) = Z.to_nat (RTE_MEMPOOL_CACHE_MAX_SIZE * 3) ∧ 0 <= len c <= cache_flushthresh mp.
Proof.
  intros Hok Hl. destruct (load_in (local_cache mp) lcore) as (c & H1 & H2); [rewrite (ok_lcores _ Hok); lia|].
  exists c. split; [done|]. split; [done|]. by apply (ok_caches _ Hok) in H2.
Qed.

(** Replacing the cache of one lcore. *)
Lemma pool_set_cache mp lcore c' r : pool_ok mp → 0 <= lcore < RTE_MAX_LCORE →
  length (objs c') = Z.to_nat (RTE_MEMPOOL_CACHE_MAX_SIZE * 3) → 0 <= len c' <= cache_flushthresh mp →
  pool_ok (mp <| ring := r |> <| local_cache := <[Z.to_nat lcore := c']> (local_cache mp) |>).
Proof.
  intros [H1 H2 H3 H4] Hl Ho Hn. split; simpl; try done; [by rewrite length_insert|].
  intros i c [(<- & <- & _)|[_ Hc]]%list_lookup_insert_Some; [done|by apply (H4 i)].
Qed.
Lemma cached_insert (cs : list (rte_mempool_cache A)) i c c' : cs !! i = Some c →
  cached c' ++ concat (cached <$> cs) ≡ₚ cached c ++ concat (cached <$> <[i := c']> cs).
Proof.
  intros Hc. pose proof (lookup_lt_Some _ _ _ Hc). rewrite (insert_take_drop cs i c') by done.
  rewrite <- (take_drop_middle cs i c Hc) at 1. rewrite !fmap_app, !concat_app. simpl. solve_Permutation.
Qed.

Lemma thresh_bounds c : 0 <= c <= RTE_MEMPOOL_CACHE_MAX_SIZE → c <= CALC_CACHE_FLUSHTHRESH c <= 768.
Proof.
  unfold RTE_MEMPOOL_CACHE_MAX_SIZE, CALC_CACHE_FLUSHTHRESH. intros Hc.
  assert (c <= c * 3 / 2 <= 768) by (split; [apply Z.div_le_lower_bound; lia|apply Z.div_le_upper_bound; lia]).
  rewrite u32_small by (unfold is_u32; lia). lia.
Qed.

Definition same_settings mp mp' : Prop :=
  mp_flags mp' = mp_flags mp ∧ mp_size mp' = mp_size mp ∧ cache_size mp' = cache_size mp.

Lemma pool_ring mp r : pool_ok mp → pool_ok (mp <| ring := r |>).
Proof. by intros []. Qed.

(** Objects moved between a caller, the ring and one cache. *)
Lemma pool_exchange q q' (cs : list (rte_mempool_cache A)) i c c' free add rem : cs !! i = Some c →
  free ≡ₚ q ++ concat (cached <$> cs) → add ++ q ++ cached c ≡ₚ rem ++ q' ++ cached c' →
  add ++ free ≡ₚ rem ++ q' ++ concat (cached <$> <[i := c']> cs).
Proof.
  intros Hc Hf Hx. apply (Permutation_app_inv_l (cached c)).
  transitivity ((add ++ q ++ cached c) ++ concat (cached <$> cs)); [rewrite Hf; solve_Permutation|]. rewrite Hx.
  transitivity (rem ++ q' ++ cached c' ++ concat (cached <$> cs)); [by rewrite <- !app_assoc|].
  rewrite (cached_insert _ _ c c' Hc). solve_Permutation.
Qed.

Lemma put_ring_run mp cap free tbl n multi : pool_rep mp cap free → 0 <= n <= Z.of_nat (length tbl) →
  Z.of_nat (length free) + n <= cap →
  ∃ ret r, bq_enqueue_bulk multi (ring mp) tbl n = Some (ret, r) ∧
    pool_rep (mp <| ring := r |>) cap (take (Z.to_nat n) tbl ++ free).
Proof.
  intros (Hok & q & Hq & Hfree) Hn Hcap. pose proof (Permutation_length Hfree) as Hlen. rewrite length_app in Hlen.
  pose proof (bq_enqueue_bulk_ok multi (ring mp) cap q tbl n Hq Hn) as H.
  destruct (Z.leb_spec n (cap - Z.of_nat (length q))); [|lia]. destruct H as (ret & r & E & _ & Hr & _).
  exists ret, r. split; [done|]. split; [by apply pool_ring|]. eexists. split; [exact Hr|]. simpl. rewrite Hfree. solve_Permutation.
Qed.

(** Adding to the cache: its new contents, in an array of the same size. *)
Lemma put_copy (c : rte_mempool_cache A) tbl n : 0 <= len c → 0 <= n <= Z.of_nat (length tbl) →
  len c + n <= Z.of_nat (length (objs c)) →
  ∃ objs', copy_cells (objs c) (len c) tbl 0 1 (Z.to_nat n) = Some objs' ∧ length objs' = length (objs c) ∧
    take (Z.to_nat (len c + n)) objs' = cached c ++ take (Z.to_nat n) tbl.
Proof.
  intros H0 Hn Hl. assert (length (take (Z.to_nat n) tbl) = Z.to_nat n) as Hxs by (rewrite length_take; lia).
  pose proof (copy_cells_run (objs c) tbl (take (Z.to_nat n) tbl) (len c) 0 1) as E. rewrite Hxs in E.
  eexists. split; [apply E; [lia|lia|]|split].
  - intros j x Hj. apply lookup_take_Some in Hj as [Hj _]. rewrite Z.add_0_l, Z.mul_1_l. by rewrite load_nat.
  - rewrite !length_app, !length_take, length_drop. lia.
  - rewrite app_assoc. apply take_app_length'. unfold cached. rewrite length_app, !length_take. lia.
Qed.

Lemma cached_le (cs : list (rte_mempool_cache A)) i c : cs !! i = Some c →
  (length (cached c) <= length (concat (cached <$> cs)))%nat.
Proof. intros Hc. rewrite <- (take_drop_middle _ _ _ Hc), fmap_app, concat_app, length_app. simpl. rewrite length_app. lia. Qed.

Lemma put_bulk_run mp cap free lcore tbl n is_mp : pool_rep mp cap free → 0 <= lcore →
  0 <= n <= Z.of_nat (length tbl) → Z.of_nat (length free) + n <= cap →
  ∃ mp', __mempool_put_bulk mp lcore tbl n is_mp = Some mp' ∧ pool_rep mp' cap (take (Z.to_nat n) tbl ++ free) ∧
    same_settings mp mp'.
Proof.
  intros Hrep Hlc Hn Hcap. unfold __mempool_put_bulk.
  destruct (put_ring_run mp cap free tbl n is_mp Hrep Hn Hcap) as (ret & r & Er & Hr). rewrite Er. cbn [mbind option_bind].
  destruct ((cache_size mp =? 0) || negb is_mp || (RTE_MAX_LCORE <=? lcore)) eqn:Eb; [by eexists|].
  rewrite !orb_false_iff, Z.leb_gt, Z.eqb_neq in Eb. destruct Eb as [[Hcs _] Hlcore].
  destruct (Z.ltb_spec RTE_MEMPOOL_CACHE_MAX_SIZE n) as [?|Hmax]; [by eexists|]. clear r Er Hr.
  destruct Hrep as (Hok & q & Hq & Hfree). destruct (pool_cache mp lcore Hok ltac:(lia)) as (c & -> & Hc & Ho & Hl). cbn [mbind option_bind].
  pose proof (ok_cache_size _ Hok) as Hsize. pose proof (thresh_bounds _ Hsize) as Hth. rewrite <- (ok_thresh _ Hok) in Hth.
  unfold RTE_MEMPOOL_CACHE_MAX_SIZE in Hsize, Hmax. change (Z.to_nat (RTE_MEMPOOL_CACHE_MAX_SIZE * 3)) with 1536%nat in Ho.
  destruct (put_copy c tbl n) as (objs' & -> & Ho' & Htake); [lia|lia|lia|]. cbn [mbind option_bind].
  rewrite u32_small by (unfold is_u32; lia). pose proof (lookup_lt_Some _ _ _ Hc) as Hli.
  destruct (Z.leb_spec (cache_flushthresh mp) (len c + n)) as [Hfl|Hfl].
  - rewrite u32_small by (unfold is_u32; lia). pose proof (length_drop objs' (Z.to_nat (cache_size mp))) as Hdl.
    pose proof (cached_le _ _ _ Hc) as Hcl. unfold cached at 1 in Hcl. rewrite length_take in Hcl.
    pose proof (Permutation_length Hfree) as Hlen. rewrite length_app in Hlen.
    pose proof (bq_enqueue_bulk_ok true (ring mp) cap q (drop (Z.to_nat (cache_size mp)) objs') (len c + n - cache_size mp) Hq ltac:(lia)) as H.
    destruct (Z.leb_spec (len c + n - cache_size mp) (cap - Z.of_nat (length q))); [|lia].
    destruct H as (ret' & r & -> & _ & Hr & _). cbn [mbind option_bind]. rewrite store_in by lia. cbn [mbind option_bind].
    eexists. split; [done|]. split; [|done]. split; [apply pool_set_cache; simpl; [done|lia|by rewrite Ho', Ho|lia]|].
    eexists. split; [exact Hr|]. apply (pool_exchange q _ _ _ c _ free _ [] Hc Hfree).
    unfold cached at 2. simpl. rewrite <- app_assoc, (Permutation_app_comm (take _ (drop _ _))), take_take_drop.
    replace (Z.to_nat (cache_size mp) + _)%nat with (Z.to_nat (len c + n)) by lia. rewrite Htake. solve_Permutation.
  - rewrite store_in by lia. cbn [mbind option_bind]. eexists. split; [done|]. split; [|done].
    split; [apply (pool_set_cache mp lcore _ (ring mp)); simpl; [done|lia|by rewrite Ho', Ho|lia]|].
    exists q. split; [done|]. apply (pool_exchange q q _ _ c _ free _ [] Hc Hfree).
    unfold cached at 2. simpl. rewrite Htake. solve_Permutation.
Qed.

(** Taking from the end of a cache [c], wherever its objects came from. *)
Lemma take_from_cache_run mp lcore c tbl n : pool_ok mp → 0 <= lcore < RTE_MAX_LCORE →
  length (objs c) = Z.to_nat (RTE_MEMPOOL_CACHE_MAX_SIZE * 3) → 0 <= len c - n <= cache_flushthresh mp →
  len c <= Z.of_nat (length (objs c)) → 0 <= n <= Z.of_nat (length tbl) →
  ∃ got c', take_from_cache mp lcore c tbl n =
      Some (0, got ++ drop (Z.to_nat n) tbl, mp <| local_cache := <[Z.to_nat lcore := c']> (local_cache mp) |>) ∧
    Z.of_nat (length got) = n ∧ cached c ≡ₚ got ++ cached c' ∧
    pool_ok (mp <| local_cache := <[Z.to_nat lcore := c']> (local_cache mp) |>).
Proof.
  intros Hok Hlc Ho Hl Hlo Hn. set (rest := drop (Z.to_nat (len c - n)) (cached c)).
  assert (length (cached c) = Z.to_nat (len c)) as Hcl by (unfold cached; rewrite length_take; lia).
  assert (length (reverse rest) = Z.to_nat n) as Hxl by (unfold rest; rewrite length_reverse, length_drop; lia).
  pose proof (copy_cells_run tbl (objs c) (reverse rest) 0 (len c - 1) (-1)) as E. rewrite Hxl in E.
  exists (reverse rest), (Cache (len c - n) (objs c)). split_and!.
  - unfold take_from_cache. rewrite E; [|lia|lia|].
    + simpl. rewrite store_in by (rewrite (ok_lcores _ Hok); lia). simpl. pose proof (ok_cache_size _ Hok) as Hs.
      pose proof (thresh_bounds _ Hs) as Ht. rewrite <- (ok_thresh _ Hok) in Ht. by rewrite u32_small by (unfold is_u32; lia).
    + intros j x Hj. pose proof (lookup_lt_Some _ _ _ Hj) as Hlt. rewrite Hxl in Hlt.
      rewrite reverse_lookup in Hj by (rewrite length_reverse in Hxl; lia). rewrite length_reverse in Hxl.
      rewrite Hxl in Hj. unfold rest in Hj. rewrite lookup_drop in Hj. unfold cached in Hj. apply lookup_take_Some in Hj as [Hj _].
      unfold load. rewrite decide_True by lia. rewrite <- Hj. f_equal. lia.
  - lia.
  - rewrite reverse_Permutation. unfold rest, cached at 3. simpl.
    rewrite <- (take_drop (Z.to_nat (len c - n)) (cached c)) at 1. rewrite Permutation_app_comm. f_equiv.
    unfold cached. rewrite take_take. f_equiv. lia.
  - apply (pool_set_cache mp lcore _ (ring mp)); simpl; done || lia.
Qed.

(** A successful and a failed get. *)
Definition got_result mp cap free tbl n ret tbl' mp' : Prop :=
  (ret = 0 ∧ ∃ got free', Z.of_nat (length got) = n ∧ tbl' = got ++ drop (Z.to_nat n) tbl ∧ free ≡ₚ got ++ free' ∧ pool_rep mp' cap free') ∨
  (ret = - ENOENT ∧ tbl' = tbl ∧ pool_rep mp' cap free ∧ bq_count (ring mp) < n).

Lemma get_ring_run mp cap free tbl n multi : pool_rep mp cap free → 0 <= n <= Z.of_nat (length tbl) →
  ∃ ret tbl' r, bq_dequeue_bulk multi (ring mp) tbl n = Some (ret, tbl', r) ∧
    got_result mp cap free tbl n ret tbl' (mp <| ring := r |>).
Proof.
  intros (Hok & q & Hq & Hfree) Hn. pose proof (bq_dequeue_bulk_ok multi (ring mp) cap q tbl n Hq Hn) as H.
  destruct (Z.leb_spec n (Z.of_nat (length q))).
  - destruct H as (r & E & Hr & _). eexists _, _, r. split; [exact E|]. left. split; [done|].
    exists (take (Z.to_nat n) q), (drop (Z.to_nat n) q ++ concat (cached <$> local_cache mp)).
    split_and!; [rewrite length_take; lia|done| |].
    + by rewrite app_assoc, take_drop.
    + split; [by apply pool_ring|]. by exists (drop (Z.to_nat n) q).
  - eexists _, _, _. split; [exact H|]. right. split_and!; [done|done| |by rewrite (bq_count_ok _ _ _ Hq)].
    split; [by apply pool_ring|]. by exists q.
Qed.

(** Filling up the cache from the ring before taking from it. *)
Lemma get_backfill mp cap free q lcore c tbl n req r : pool_ok mp → bq_rep r cap (drop (Z.to_nat req) q) →
  free ≡ₚ q ++ concat (cached <$> local_cache mp) → local_cache mp !! Z.to_nat lcore = Some c →
  0 <= lcore < RTE_MAX_LCORE → length (objs c) = Z.to_nat (RTE_MEMPOOL_CACHE_MAX_SIZE * 3) →
  0 <= len c → 0 <= n < cache_size mp → len c <= n → req = n + (cache_size mp - len c) → req <= Z.of_nat (length q) →
  n <= Z.of_nat (length tbl) →
  ∃ tbl' mp', take_from_cache (mp <| ring := r |>) lcore
      (Cache (u32 (len c + req)) (take (Z.to_nat (len c)) (objs c) ++ take (Z.to_nat req) q ++
                                  drop (Z.to_nat req) (drop (Z.to_nat (len c)) (objs c)))) tbl n = Some (0, tbl', mp') ∧
    same_settings mp mp' ∧ got_result mp cap free tbl n 0 tbl' mp'.
Proof.
  intros Hok Hr Hfree Hc Hlc Ho Hl Hn Hln Hreq Hrq Ht. pose proof (ok_cache_size _ Hok) as Hs.
  pose proof (thresh_bounds _ Hs) as Hth. rewrite <- (ok_thresh _ Hok) in Hth. unfold RTE_MEMPOOL_CACHE_MAX_SIZE in Hs.
  change (Z.to_nat (RTE_MEMPOOL_CACHE_MAX_SIZE * 3)) with 1536%nat in Ho. rewrite u32_small by (unfold is_u32; lia).
  set (objs' := _ ++ _ ++ _). set (c1 := Cache (len c + req) objs').
  assert (length objs' = 1536%nat) as Ho' by (unfold objs'; rewrite !length_app, !length_take, !length_drop; lia).
  assert (cached c1 = cached c ++ take (Z.to_nat req) q) as Hc1.
  { unfold cached at 1. simpl. unfold objs'. rewrite app_assoc. apply take_app_length'. unfold cached.
    rewrite length_app, !length_take. lia. }
  destruct (take_from_cache_run (mp <| ring := r |>) lcore c1 tbl n) as (got & c' & E & Hg & Hp & Hok');
    [by apply pool_ring|done|exact Ho'|simpl; lia|simpl; lia|lia|].
  eexists _, _. split; [exact E|]. split; [done|]. left. split; [done|]. exists got. eexists. split; [done|]. split; [done|].
  split; [|split; [exact Hok'|eexists; split; [exact Hr|done]]].
  apply (pool_exchange q (drop (Z.to_nat req) q) _ _ c c' free [] got Hc Hfree).
  rewrite (Permutation_app_comm (drop _ _)), (app_assoc got), <- Hp, Hc1. rewrite <- (take_drop (Z.to_nat req) q) at 1. simpl.
  solve_Permutation.
Qed.

Lemma get_bulk_run mp cap free lcore tbl n is_mc : pool_rep mp cap free → 0 <= lcore → 0 <= n <= Z.of_nat (length tbl) →
  ∃ ret tbl' mp', __mempool_get_bulk mp lcore tbl n is_mc = Some (ret, tbl', mp') ∧ same_settings mp mp' ∧
    got_result mp cap free tbl n ret tbl' mp'.
Proof.
  intros Hrep Hlc Hn. unfold __mempool_get_bulk.
  destruct (get_ring_run mp cap free tbl n is_mc Hrep Hn) as (ret0 & tbl0 & r0 & E0 & H0).
  destruct ((cache_size mp =? 0) || negb is_mc || (cache_size mp <=? n) || (RTE_MAX_LCORE <=? lcore)) eqn:Eb.
  { rewrite E0. eexists _, _, _. split; [done|]. by split. }
  rewrite !orb_false_iff, !Z.leb_gt, Z.eqb_neq in Eb. destruct Eb as [[[Hcs _] Hnc] Hlcore].
  pose proof Hrep as (Hok & q & Hq & Hfree). destruct (pool_cache mp lcore Hok ltac:(lia)) as (c & -> & Hc & Ho & Hl). cbn [mbind option_bind].
  pose proof (ok_cache_size _ Hok) as Hs. pose proof (thresh_bounds _ Hs) as Hth. rewrite <- (ok_thresh _ Hok) in Hth.
  destruct (Z.ltb_spec (len c) n) as [Hlt|Hge].
  - unfold RTE_MEMPOOL_CACHE_MAX_SIZE in Hs. rewrite (u32_small (n + _)) by (unfold is_u32; lia).
    pose proof (length_drop (objs c) (Z.to_nat (len c))) as Hdl. change (Z.to_nat (RTE_MEMPOOL_CACHE_MAX_SIZE * 3)) with 1536%nat in Ho.
    pose proof (bq_dequeue_bulk_ok true (ring mp) cap q (drop (Z.to_nat (len c)) (objs c)) (n + (cache_size mp - len c)) Hq ltac:(lia)) as H.
    destruct (Z.leb_spec (n + (cache_size mp - len c)) (Z.of_nat (length q))).
    + destruct H as (r & -> & Hr & _). cbn [mbind option_bind]. change (0 <? 0) with false. cbv iota.
      destruct (get_backfill mp cap free q lcore c tbl n _ r Hok Hr Hfree Hc ltac:(lia) Ho) as (tbl' & mp' & E & HR);
        [lia|lia|lia|done|lia|lia|]. eexists _, _, _. split; [exact E|done].
    + rewrite H. cbn [mbind option_bind]. change (- ENOENT <? 0) with true. cbv iota. rewrite take_drop.
      pose proof (lookup_lt_Some _ _ _ Hc). rewrite store_in by lia. cbn [mbind option_bind].
      assert (<[Z.to_nat lcore := Cache (len c) (objs c)]> (local_cache mp) = local_cache mp) as -> by (apply list_insert_id; by destruct c).
      simpl. rewrite E0. eexists _, _, _. split; [done|]. by split.
  - destruct (take_from_cache_run mp lcore c tbl n Hok ltac:(lia) Ho) as (got & c' & E & Hg & Hp & Hok');
      [lia|rewrite Ho; unfold RTE_MEMPOOL_CACHE_MAX_SIZE in *; lia|lia|].
    eexists _, _, _. split; [exact E|]. split; [done|]. left. split; [done|]. exists got. eexists.
    split; [done|]. split; [done|]. split; [|split; [exact Hok'|exists q; split; [exact Hq|done]]].
    apply (pool_exchange q q _ _ c c' free [] got Hc Hfree). simpl. rewrite Hp. solve_Permutation.
Qed.

(** ** Ownership

    Callers on any lcore get objects and put back objects they hold; [held] is
    what all of them hold. *)
Inductive pool_step : rte_mempool Q A * list A → rte_mempool Q A * list A → Prop :=
  | step_get mp held lcore tbl n ret tbl' mp' : 0 <= lcore → 0 <= n <= Z.of_nat (length tbl) →
      rte_mempool_get_bulk mp lcore tbl n = Some (ret, tbl', mp') →
      pool_step (mp, held) (mp', if decide (ret = 0) then take (Z.to_nat n) tbl' ++ held else held)
  | step_put mp held held' lcore tbl n mp' : 0 <= lcore → 0 <= n <= Z.of_nat (length tbl) →
      held ≡ₚ take (Z.to_nat n) tbl ++ held' →
      rte_mempool_put_bulk mp lcore tbl n = Some mp' →
      pool_step (mp, held) (mp', held').

Definition shares cap (all : list A) (s : rte_mempool Q A * list A) : Prop :=
  ∃ free, pool_rep (fst s) cap free ∧ all ≡ₚ snd s ++ free.

Lemma pool_step_shares cap all s s' : Z.of_nat (length all) <= cap → pool_step s s' → shares cap all s → shares cap all s'.
Proof.
  intros Hcap Hs (free & Hrep & Hall). pose proof (Permutation_length Hall) as Hlen. rewrite length_app in Hlen.
  destruct Hs as [mp held lcore tbl n ret tbl' mp' Hlc Hn E|mp held held' lcore tbl n mp' Hlc Hn Hheld E]; simpl in *.
  - unfold rte_mempool_get_bulk in E. destruct (get_bulk_run mp cap free lcore tbl n (Z.land (mp_flags mp) MEMPOOL_F_SC_GET =? 0) Hrep Hlc Hn)
      as (ret' & tbl'' & mp'' & E' & _ & Hg). rewrite E in E'. injection E' as <- <- <-.
    destruct Hg as [(-> & got & free' & Hl & -> & Hf & Hr)|(-> & -> & Hr & _)].
    + exists free'. split; [done|]. simpl. rewrite take_app_length' by lia. rewrite Hall, Hf. solve_Permutation.
    + exists free. by split.
  - unfold rte_mempool_put_bulk in E. pose proof (Permutation_length Hheld) as Hhl. rewrite length_app, length_take in Hhl.
    destruct (put_bulk_run mp cap free lcore tbl n (Z.land (mp_flags mp) MEMPOOL_F_SP_PUT =? 0) Hrep Hlc Hn ltac:(lia))
      as (mp'' & E' & Hr & _). rewrite E in E'. injection E' as <-.
    exists (take (Z.to_nat n) tbl ++ free). split; [done|]. simpl. rewrite Hall, Hheld. solve_Permutation.
Qed.

(** C7: A memory pool hands every object to at most one owner: however callers on
    any lcores, EAL threads or not, get objects and put back objects they hold,
    through the caches and the ring, the objects in use and the free ones are
    together exactly the pool's objects, so that no object is held twice or
    lost. Every further call, for up to as many objects as its table or the
    caller has, completes without touching memory outside the caches. *)
Theorem mempool_ownership mp0 mp cap all held (Hinit : pool_rep mp0 cap all) (Hdup : NoDup all)
    (Hcap : Z.of_nat (length all) <= cap) (Hrun : rtc pool_step (mp0, []) (mp, held)) :
  NoDup held ∧ (∃ free, pool_rep mp cap free ∧ all ≡ₚ held ++ free) ∧
  (∀ lcore tbl n, 0 <= lcore → 0 <= n <= Z.of_nat (length tbl) → is_Some (rte_mempool_get_bulk mp lcore tbl n)) ∧
  (∀ lcore tbl n held', 0 <= lcore → 0 <= n <= Z.of_nat (length tbl) → held ≡ₚ take (Z.to_nat n) tbl ++ held' →
     is_Some (rte_mempool_put_bulk mp lcore tbl n)).
Proof.
  assert (shares cap all (mp, held)) as (free & Hrep & Hall).
  { assert (shares cap all (mp0, [])) as H0 by (by exists all). revert H0. induction Hrun; [done|].
    intros H0. apply IHHrun. by eapply pool_step_shares. }
  simpl in *. pose proof (Permutation_length Hall) as Hlen. rewrite length_app in Hlen. split_and!.
  - rewrite Hall in Hdup. by apply NoDup_app in Hdup as (? & _).
  - by exists free.
  - intros lcore tbl n Hlc Hn. destruct (get_bulk_run mp cap free lcore tbl n (Z.land (mp_flags mp) MEMPOOL_F_SC_GET =? 0) Hrep Hlc Hn)
      as (? & ? & ? & E & _). unfold rte_mempool_get_bulk. by rewrite E.
  - intros lcore tbl n held' Hlc Hn Hheld. pose proof (Permutation_length Hheld) as Hhl. rewrite length_app, length_take in Hhl.
    destruct (put_bulk_run mp cap free lcore tbl n (Z.land (mp_flags mp) MEMPOOL_F_SP_PUT =? 0) Hrep Hlc Hn ltac:(lia))
      as (? & E & _). unfold rte_mempool_put_bulk. by rewrite E.
Qed.

(** ** Counting *)
Lemma count_caches (cs : list (rte_mempool_cache A)) c0 : (∀ i c, cs !! i = Some c → 0 <= len c <= Z.of_nat (length (objs c))) →
  foldl (λ c cache, u32 (c + len cache)) (u32 c0) cs = u32 (c0 + Z.of_nat (length (concat (cached <$> cs)))).
Proof.
  revert c0. induction cs as [|c cs IH]; intros c0 H; [by rewrite Z.add_0_r|]. rewrite fmap_cons. cbn [foldl concat]. rewrite u32_add_l, IH by (intros i; apply (H (S i))).
  pose proof (H 0%nat c eq_refl). assert (length (cached c) = Z.to_nat (len c)) as Hc by (unfold cached; rewrite length_take; lia).
  rewrite length_app, Hc. f_equal. lia.
Qed.

(** The observers of a pool are exact when its calls are not running:
    [rte_mempool_count] is the number of free objects, in the ring and in all
    caches; [rte_mempool_free_count], [rte_mempool_full] and
    [rte_mempool_empty] follow from it, and [rte_mempool_audit] finds the
    caches within their limits. A get of [n] objects fails only when the ring
    itself has fewer than [n], and then changes nothing. *)
Theorem mempool_observers mp cap free lcore tbl n (Hrep : pool_rep mp cap free) (Hsize : Z.of_nat (length free) <= mp_size mp < 2 ^ 32)
    (Hlc : 0 <= lcore) (Hn : 0 <= n <= Z.of_nat (length tbl)) :
  rte_mempool_count mp = Z.of_nat (length free) ∧ rte_mempool_free_count mp = mp_size mp - Z.of_nat (length free) ∧
  (rte_mempool_full mp = 1 ↔ Z.of_nat (length free) = mp_size mp) ∧ (rte_mempool_empty mp = 1 ↔ free = []) ∧
  mempool_audit_cache mp = true ∧
  ∃ ret tbl' mp', rte_mempool_get_bulk mp lcore tbl n = Some (ret, tbl', mp') ∧
    (ret ≠ 0 → ret = - ENOENT ∧ bq_count (ring mp) < n ∧ tbl' = tbl ∧ pool_rep mp' cap free).
Proof.
  pose proof Hrep as (Hok & q & Hq & Hfree). pose proof (Permutation_length Hfree) as Hlen. rewrite length_app in Hlen.
  pose proof (ok_cache_size _ Hok) as Hs. pose proof (thresh_bounds _ Hs) as Hth. rewrite <- (ok_thresh _ Hok) in Hth.
  assert (∀ i c, local_cache mp !! i = Some c → 0 <= len c <= Z.of_nat (length (objs c))) as Hcl.
  { intros i c Hc. destruct (ok_caches _ Hok _ _ Hc) as [-> ?]. unfold RTE_MEMPOOL_CACHE_MAX_SIZE. lia. }
  assert (rte_mempool_count mp = Z.of_nat (length free)) as Hcount.
  { unfold rte_mempool_count. rewrite (bq_count_ok _ _ _ Hq). destruct (Z.eqb_spec (cache_size mp) 0) as [E|E].
    - assert (concat (cached <$> local_cache mp) = []) as Hnil; [|rewrite Hlen, Hnil; simpl; lia].
      apply concat_nil_Forall. apply Forall_fmap, Forall_lookup. intros i c Hc. simpl.
      destruct (ok_caches _ Hok _ _ Hc) as [_ Hl]. rewrite (ok_thresh _ Hok), E in Hl. unfold cached.
      replace (len c) with 0 by (revert Hl; vm_compute CALC_CACHE_FLUSHTHRESH; lia). done.
    - rewrite <- (u32_small (Z.of_nat (length q))) by (unfold is_u32; lia). rewrite count_caches by done.
      rewrite u32_small by (unfold is_u32; lia). destruct (Z.ltb_spec (mp_size mp) (Z.of_nat (length q) + Z.of_nat (length (concat (cached <$> local_cache mp))))); lia. }
  unfold rte_mempool_free_count, rte_mempool_full, rte_mempool_empty, c_bool. rewrite Hcount. split_and!.
  - done.
  - apply u32_small. unfold is_u32. lia.
  - destruct (Z.eqb_spec (Z.of_nat (length free)) (mp_size mp)); split; done || lia.
  - destruct (Z.eqb_spec (Z.of_nat (length free)) 0); split; try done; [destruct free; [done|simpl in *; lia]|intros ->; done].
  - apply forallb_forall. intros c Hc%list_elem_of_In%list_elem_of_lookup. destruct Hc as [i Hc]. destruct (ok_caches _ Hok _ _ Hc) as [_ Hl].
    destruct (Z.ltb_spec (cache_flushthresh mp) (len c)); [lia|done].
  - destruct (get_bulk_run mp cap free lcore tbl n (Z.land (mp_flags mp) MEMPOOL_F_SC_GET =? 0) Hrep Hlc Hn)
      as (ret & tbl' & mp' & E & _ & Hg). exists ret, tbl', mp'. split; [exact E|]. intros Hr.
    destruct Hg as [[? _]|(? & ? & ? & ?)]; done.
Qed.
End proofs.
