(* ===== verification/MempoolInit.v ===== *)
(** * librte_mempool: creating pools

    [lib/librte_mempool/rte_mempool.c]: the size and layout of the objects,
    the walk over the pages that hold them, and [rte_mempool_create]. What the
    environment says (memory channels and ranks, huge pages, the page size) is
    a record; objects are addresses. *)
From S2P Require Import Prelude CStr Align BurstQueue Ring RingSpec RingReg Mempool.
Open Scope Z_scope.

(** ** Object sizes *)
Definition RTE_MEMPOOL_ALIGN : Z := 64.
Definition RTE_MEMPOOL_ALIGN_MASK : Z := RTE_MEMPOOL_ALIGN - 1.
Definition MEMPOOL_F_NO_SPREAD : Z := 1.
Definition MEMPOOL_F_NO_CACHE_ALIGN : Z := 2.

(** The environment: [rte_memory_get_nchannel], [rte_memory_get_nrank],
    [rte_eal_has_hugepages], [getpagesize]. *)
Record platform := Plat { nchannel : Z; nrank : Z; has_hugepages : bool; pagesize : Z }.

(** 65 rounds are enough for 32-bit numbers ([get_gcd_correct]). *)
Definition get_gcd (a b : Z) : option Z :=
  if a =? 0 then Some b
  else if b =? 0 then Some a
  else
    let '(a, b) := if a <? b then (b, a) else (a, b) in
    fst <$> while 65 (λ '(_, b), negb (b =? 0)) (λ '(a, b), Some (b, a mod b)) (a, b).

Definition optimize_object_size (pl : platform) (obj_size : Z) : option Z :=
  let nchan := if nchannel pl =? 0 then 4 else nchannel pl in
  let nrank := if nrank pl =? 0 then 1 else nrank pl in
  let new_obj_size := u32 (obj_size + RTE_MEMPOOL_ALIGN_MASK) / RTE_MEMPOOL_ALIGN in
  s ← while (Z.to_nat (u32 (nrank * nchan)))
        (λ s, match get_gcd s (u32 (nrank * nchan)) with Some g => negb (g =? 1) | None => true end)
        (λ s, Some (u32 (s + 1))) new_obj_size;
  Some (u32 (s * RTE_MEMPOOL_ALIGN)).

Record rte_mempool_objsz := Objsz { sz_elt : Z; sz_header : Z; sz_trailer : Z; sz_total : Z }.
Definition sizeof_uint64 : Z := 8.

(** The return value and the sizes; 0 and no sizes when an object does not fit
    a page and there are no huge pages. *)
Definition rte_mempool_calc_obj_size (pl : platform) (elt_size flags : Z) : option (Z * option rte_mempool_objsz) :=
  let aligned := Z.land flags MEMPOOL_F_NO_CACHE_ALIGN =? 0 in
  let header := if aligned then RTE_ALIGN_CEIL u32 sizeof_ptr RTE_MEMPOOL_ALIGN else sizeof_ptr in
  let elt := RTE_ALIGN_CEIL u32 elt_size sizeof_uint64 in
  let trailer :=
    if aligned then
      let total := u32 (header + elt + 0) in
      Z.land (u32 (RTE_MEMPOOL_ALIGN - Z.land total RTE_MEMPOOL_ALIGN_MASK)) RTE_MEMPOOL_ALIGN_MASK
    else 0 in
  trailer ← (if Z.land flags MEMPOOL_F_NO_SPREAD =? 0 then
               new_size ← optimize_object_size pl (u32 (header + elt + trailer));
               Some (u32 (new_size - header - elt))
             else Some trailer);
  let new_size := i32 (pagesize pl - header - elt) in
  if negb (has_hugepages pl) && ((new_size <? 0) || (u32 new_size <? trailer))
  then Some (0, None)
  else
    let trailer := if has_hugepages pl then trailer else u32 new_size in
    let total := u32 (header + elt + trailer) in
    Some (total, Some (Objsz elt header trailer total)).

(** ** Greatest common divisor *)
Lemma gcd_loop k a b : 0 <= b < 2 ^ Z.of_nat k → 0 <= a →
  while (2 * k + 1) (λ '(_, b), negb (b =? 0)) (λ '(a, b), Some (b, a mod b)) (a, b) = Some (Z.gcd a b, 0).
Proof.
  revert a b. induction k as [|k IH]; intros a b Hb Ha.
  { assert (b = 0) as -> by lia. rewrite Z.gcd_0_r. simpl. by rewrite Z.abs_eq. }
  rewrite Nat2Z.inj_succ, Z.pow_succ_r in Hb by lia.
  destruct (Z.eqb_spec b 0) as [->|Hb0]; [rewrite while_done by done; by rewrite Z.gcd_0_r, Z.abs_eq|].
  replace (2 * S k + 1)%nat with (S (S (2 * k + 1))) by lia. set (f := (2 * k + 1)%nat) in *.
  cbn [while]. destruct (Z.eqb_spec b 0); [done|]. cbn [negb mbind option_bind].
  pose proof (Z.mod_pos_bound a b ltac:(lia)) as Hc. rewrite (Z.gcd_comm a b), <- (Z.gcd_mod a b), Z.gcd_comm by done.
  destruct (Z.eqb_spec (a mod b) 0) as [E|E]; cbn [negb].
  { rewrite E, Z.gcd_0_r. by rewrite Z.abs_eq by lia. }
  cbn [mbind option_bind]. set (c := a mod b) in *. rewrite IH.
  - by rewrite (Z.gcd_comm b c), <- (Z.gcd_mod b c), Z.gcd_comm.
  - pose proof (Z.mod_pos_bound b c ltac:(lia)). pose proof (Z.div_mod b c ltac:(lia)).
    assert (1 <= b / c) by (apply Z.div_le_lower_bound; lia). nia.
  - lia.
Qed.

Lemma get_gcd_correct a b : is_u32 a → is_u32 b → get_gcd a b = Some (Z.gcd a b).
Proof.
  unfold is_u32. intros Ha Hb. unfold get_gcd. destruct (Z.eqb_spec a 0) as [->|Ha0]; [by rewrite Z.gcd_0_l, Z.abs_eq by lia|].
  destruct (Z.eqb_spec b 0) as [->|Hb0]; [by rewrite Z.gcd_0_r, Z.abs_eq by lia|].
  destruct (Z.ltb_spec a b); change 65%nat with (2 * 32 + 1)%nat; rewrite gcd_loop; try (simpl; f_equal; lia || apply Z.gcd_comm);
    change (Z.of_nat 32) with 32; lia.
Qed.

(** ** Spreading objects over the memory channels *)

(** Among any [d] numbers in a row one is coprime to [d]. *)
Lemma coprime_near d x : 0 < d → ∃ y, x <= y < x + d ∧ Z.gcd y d = 1.
Proof.
  intros Hd. exists (x + (1 - x) mod d). pose proof (Z.mod_pos_bound (1 - x) d Hd). split; [lia|].
  rewrite Z.gcd_comm, <- Z.gcd_mod by lia. rewrite Zplus_mod_idemp_r. replace (x + (1 - x)) with 1 by lia.
  rewrite Z.gcd_mod by lia. apply Z.gcd_1_r.
Qed.

Lemma spread_loop d n x y : 0 < d < 2 ^ 32 → 0 <= x <= y → y < 2 ^ 32 → y - x <= Z.of_nat n → Z.gcd y d = 1 →
  ∃ z, while n (λ s, match get_gcd s d with Some g => negb (g =? 1) | None => true end) (λ s, Some (u32 (s + 1))) x = Some z ∧
    x <= z <= y ∧ Z.gcd z d = 1 ∧ ∀ t, x <= t < z → Z.gcd t d ≠ 1.
Proof.
  intros Hd. revert x. induction n as [|n IH]; intros x Hx Hy Hn Hg; cbn [while];
    rewrite get_gcd_correct by (unfold is_u32; lia); destruct (Z.eqb_spec (Z.gcd x d) 1) as [E|E]; cbn [negb].
  - exists x. split_and!; try done; lia.
  - assert (x = y) as -> by lia. done.
  - exists x. split_and!; try done; lia.
  - assert (x ≠ y) by congruence. cbn [mbind option_bind]. rewrite u32_small by (unfold is_u32; lia).
    destruct (IH (x + 1)) as (z & -> & Hz & Hgz & Ht); [lia|done|lia|done|]. exists z. split_and!; try done; [lia|lia|].
    intros t Htx. destruct (decide (t = x)) as [->|]; [done|]. apply Ht. lia.
Qed.

Definition spread_of (pl : platform) : Z :=
  (if nrank pl =? 0 then 1 else nrank pl) * (if nchannel pl =? 0 then 4 else nchannel pl).

Lemma optimize_run pl obj_size : 0 <= nchannel pl → 0 <= nrank pl → spread_of pl < 2 ^ 16 → 0 <= obj_size <= 2 ^ 31 →
  ∃ m, optimize_object_size pl obj_size = Some (64 * m) ∧ obj_size <= 64 * m < 2 ^ 32 ∧ Z.gcd m (spread_of pl) = 1 ∧
    ∀ t, obj_size <= 64 * t → Z.gcd t (spread_of pl) = 1 → m <= t.
Proof.
  intros Hn Hr Hd Ho. unfold optimize_object_size, RTE_MEMPOOL_ALIGN_MASK, RTE_MEMPOOL_ALIGN. fold (spread_of pl).
  assert (0 < spread_of pl) as Hd0 by (unfold spread_of; destruct (Z.eqb_spec (nrank pl) 0), (Z.eqb_spec (nchannel pl) 0); nia).
  rewrite (u32_small (spread_of pl)), (u32_small (obj_size + _)) by (unfold is_u32; lia).
  change (64 - 1) with 63. set (x := (obj_size + 63) / 64).
  assert (64 * x - 63 <= obj_size <= 64 * x) as Hx by (unfold x; pose proof (Z.div_mod (obj_size + 63) 64 ltac:(lia));
    pose proof (Z.mod_pos_bound (obj_size + 63) 64 ltac:(lia)); lia).
  destruct (coprime_near (spread_of pl) x Hd0) as (y & Hy & Hg).
  destruct (spread_loop (spread_of pl) (Z.to_nat (spread_of pl)) x y) as (z & -> & Hz & Hgz & Hmin); [lia|lia|lia|lia|done|].
  cbn [mbind option_bind]. exists z. rewrite u32_small by (unfold is_u32; lia). split_and!; [f_equal; lia|lia|lia|done|].
  intros t Ht Hgt. destruct (decide (t < z)); [|lia]. exfalso. apply (Hmin t); [lia|done].
Qed.

(** [optimize_object_size] always terminates with the smallest size that holds
    the object, is a multiple of the cache line (64) and, counted in lines, has
    no common divisor with channels times ranks, so that consecutive objects
    start on different channels. *)
Theorem object_size_spread pl obj_size (Hn : 0 <= nchannel pl) (Hr : 0 <= nrank pl) (Hd : spread_of pl < 2 ^ 16)
    (Ho : 0 <= obj_size <= 2 ^ 31) :
  ∃ m, optimize_object_size pl obj_size = Some (64 * m) ∧ obj_size <= 64 * m < 2 ^ 32 ∧ Z.gcd m (spread_of pl) = 1 ∧
    ∀ t, obj_size <= 64 * t → Z.gcd t (spread_of pl) = 1 → m <= t.
Proof. by apply optimize_run. Qed.
Lemma object_size_spread_witness :
  ∃ m, optimize_object_size (Plat 4 2 true 4096) 2304 = Some (64 * m) ∧ 2304 <= 64 * m < 2 ^ 32 ∧ Z.gcd m 8 = 1.
Proof.
  destruct (object_size_spread (Plat 4 2 true 4096) 2304) as (m & H1 & H2 & H3 & _); [simpl; lia|simpl; lia|reflexivity|lia|].
  exists m. split; [exact H1|]. split; [exact H2|exact H3].
Defined.

(** ** The layout of an object *)
Lemma calc_obj_size_run pl esize flags : has_hugepages pl = true → 0 <= nchannel pl → 0 <= nrank pl → spread_of pl < 2 ^ 16 →
  0 <= esize <= 2 ^ 30 →
  ∃ sz, rte_mempool_calc_obj_size pl esize flags = Some (sz_total sz, Some sz) ∧
    sz_total sz = sz_header sz + sz_elt sz + sz_trailer sz ∧ esize <= sz_elt sz ∧ 8 <= sz_header sz ∧
    0 <= sz_trailer sz ∧ sz_total sz < 2 ^ 32 ∧ sz_elt sz = RTE_ALIGN_CEIL u32 esize sizeof_uint64.
Proof.
  intros Hh Hn Hr Hd He. unfold rte_mempool_calc_obj_size. rewrite Hh. cbn [negb andb].
  set (aligned := Z.land flags MEMPOOL_F_NO_CACHE_ALIGN =? 0).
  set (header := if aligned then RTE_ALIGN_CEIL u32 sizeof_ptr RTE_MEMPOOL_ALIGN else sizeof_ptr).
  assert (8 <= header <= 64) as Hhd by (unfold header; destruct aligned; vm_compute; split; discriminate).
  destruct (align_ceil_bounds 32 3 esize ltac:(lia) ltac:(lia) ltac:(lia)) as [Hel _].
  set (elt := RTE_ALIGN_CEIL u32 esize sizeof_uint64). change (esize <= elt < esize + 2 ^ 3) in Hel.
  match goal with |- context [if aligned then ?t else 0] => set (trailer := if aligned then t else 0) end.
  assert (0 <= trailer < 64) as Htr.
  { unfold trailer. destruct aligned; [|lia]. change RTE_MEMPOOL_ALIGN_MASK with (2 ^ 6 - 1). rewrite !land_mask by lia.
    apply Z.mod_pos_bound. lia. }
  destruct (Z.land flags MEMPOOL_F_NO_SPREAD =? 0); cbn [mbind option_bind].
  - rewrite (u32_small (header + elt + trailer)) by (unfold is_u32; lia).
    destruct (optimize_run pl (header + elt + trailer) Hn Hr Hd ltac:(lia)) as (m & -> & Hm & _). cbn [mbind option_bind].
    rewrite (u32_small (64 * m - header - elt)) by (unfold is_u32; lia). rewrite u32_small by (unfold is_u32; lia).
    exists (Objsz elt header (64 * m - header - elt) (header + elt + (64 * m - header - elt))). split; [done|]. simpl. split_and!; [lia..|done].
  - rewrite u32_small by (unfold is_u32; lia). exists (Objsz elt header trailer (header + elt + trailer)). split; [done|]. simpl. split_and!; [lia..|done].
Qed.

(** ** Walking over the objects *)
Section iter.
Context {S : Type}.
Variables (elt_num elt_sz align : Z) (paddr : list Z) (pg_num pg_shift : Z) (obj_iter : S → Z → Z → Z → S).
Definition pg_sz : Z := Z.shiftl 1 pg_shift.

(** The inner loop: how far the pages from [k] to [pgn] are adjacent in
    physical memory. *)
Fixpoint contiguous_to (fuel : nat) (k pgn : Z) : option Z :=
  if k =? pgn then Some k
  else match fuel with
  | O => None
  | Datatypes.S f =>
      a ← load paddr k;
      b ← load paddr (k + 1);
      if u64 (a + pg_sz) =? b then contiguous_to f (k + 1) pgn else Some k
  end.

(** [obj_iter] changes a state; the result is the number of objects. *)
Fixpoint obj_iter_loop (fuel : nat) (i j va : Z) (s : S) : option (Z * S) :=
  if negb (i =? elt_num) && negb (j =? pg_num) then
    match fuel with
    | O => None
    | Datatypes.S f =>
        let start := RTE_ALIGN_CEIL u64 va align in
        let end_ := u64 (start + elt_sz) in
        let pgf := u32 (Z.shiftr end_ pg_shift - Z.shiftr start pg_shift) in
        let pgn := u32 (u32 (Z.shiftr (u64 (end_ - 1)) pg_shift - Z.shiftr start pg_shift) + j) in
        if pg_num <=? pgn then Some (i, s)
        else
          k ← contiguous_to (Z.to_nat (pgn - j)) j pgn;
          if k =? pgn then obj_iter_loop f (i + 1) (u32 (j + pgf)) end_ (obj_iter s start end_ i)
          else obj_iter_loop f i (j + 1) (RTE_ALIGN_CEIL u64 (u64 (va + 1)) pg_sz) s
    end
  else Some (i, s).

(** Every round takes an object or a page. *)
Definition rte_mempool_obj_iter (vaddr : Z) (s : S) : option (Z * S) :=
  obj_iter_loop (Z.to_nat (elt_num + pg_num)) 0 0 vaddr s.

(** Where objects may lie: one after the other, on pages of the area that are
    adjacent in physical memory. *)
Definition page (base a : Z) : Z := Z.shiftr a pg_shift - base.
Fixpoint placed (base va i : Z) (objs : list (Z * Z * Z)) : Prop :=
  match objs with
  | [] => True
  | (a, b, n) :: objs =>
      va <= a ∧ b = a + elt_sz ∧ n = i ∧ 0 <= page base a ∧ page base (b - 1) < pg_num ∧
      (∀ k, page base a <= k < page base (b - 1) → ∃ x y, load paddr k = Some x ∧ load paddr (k + 1) = Some y ∧ y = u64 (x + pg_sz)) ∧
      placed base b (i + 1) objs
  end.
Definition visit (s : S) (objs : list (Z * Z * Z)) : S := foldl (λ s '(a, b, n), obj_iter s a b n) s objs.

Lemma contiguous_run fuel k pgn : Z.to_nat (pgn - k) = fuel → 0 <= k <= pgn → pgn < Z.of_nat (length paddr) →
  ∃ k', contiguous_to fuel k pgn = Some k' ∧ k <= k' <= pgn ∧
    ∀ l, k <= l < k' → ∃ x y, load paddr l = Some x ∧ load paddr (l + 1) = Some y ∧ y = u64 (x + pg_sz).
Proof.
  revert k. induction fuel as [|f IH]; intros k Hf Hk Hp; simpl; destruct (Z.eqb_spec k pgn) as [->|Hne];
    try (exists pgn; split_and!; try done; lia).
  destruct (load_in paddr k) as (x & Ex & _); [lia|]. destruct (load_in paddr (k + 1)) as (y & Ey & _); [lia|].
  rewrite Ex, Ey. simpl. destruct (Z.eqb_spec (u64 (x + pg_sz)) y) as [E|E].
  - destruct (IH (k + 1)) as (k' & -> & Hk' & Hl); [lia|lia|lia|]. exists k'. split_and!; [done|lia|lia|].
    intros l Hl'. destruct (decide (l = k)) as [->|]; [by exists x, y|]. apply Hl. lia.
  - exists k. split_and!; [done|lia|lia|]. intros l. lia.
Qed.

Lemma shiftr_step a b : 0 <= pg_shift → 0 <= a → 0 <= b → Z.shiftr a pg_shift <= Z.shiftr (a + b) pg_shift <= Z.shiftr a pg_shift + b + 1.
Proof.
  intros Hs Ha Hb. rewrite !Z.shiftr_div_pow2 by done. pose proof (Z.pow_pos_nonneg 2 pg_shift ltac:(lia) ltac:(lia)) as Hp.
  set (m := 2 ^ pg_shift) in *. split; [apply Z.div_le_mono; lia|].
  pose proof (Z.div_mod a m ltac:(lia)). pose proof (Z.mod_pos_bound a m ltac:(lia)).
  assert ((a + b) / m < a / m + b + 2); [|lia]. apply Z.div_lt_upper_bound; [lia|]. nia.
Qed.

(** The area: pages [base] to [base + pg_num - 1], below the end of the address
    space. *)
Record area_ok (base : Z) : Prop := {
  area_shift : 0 <= pg_shift <= 63;
  area_pages : 0 <= pg_num < 2 ^ 31 ∧ Z.of_nat (length paddr) = pg_num;
  area_elt : 0 < elt_sz < 2 ^ 31 ∧ align = 1;
  area_base : 0 <= base ∧ (base + pg_num + 1) * pg_sz <= 2 ^ 64 ∧ (base + pg_num) * pg_sz + elt_sz <= 2 ^ 64 }.

Lemma pg_sz_pow : 0 <= pg_shift → pg_sz = 2 ^ pg_shift.
Proof. intros. unfold pg_sz. rewrite Z.shiftl_mul_pow2 by done. lia. Qed.

Lemma align_one va : 0 <= va < 2 ^ 64 → RTE_ALIGN_CEIL u64 va 1 = va.
Proof. intros Hva. pose proof (align_ceil_spec 64 0 va) as H. change (2 ^ 0) with 1 in H. rewrite Z.div_1_r in H. etrans; [apply H; lia|lia]. Qed.

(** The next page. *)
Lemma align_page base va : area_ok base → 0 <= va → page base va < pg_num →
  RTE_ALIGN_CEIL u64 (u64 (va + 1)) pg_sz = (Z.shiftr va pg_shift + 1) * pg_sz ∧ va < (base + pg_num) * pg_sz.
Proof.
  intros [Hs Hp He Hb] Hva Hpg. unfold page in Hpg. rewrite Z.shiftr_div_pow2 in * by lia. rewrite !pg_sz_pow in * by lia.
  pose proof (Z.pow_pos_nonneg 2 pg_shift ltac:(lia) ltac:(lia)) as Hm. set (m := 2 ^ pg_shift) in *.
  pose proof (Z.div_mod va m ltac:(lia)). pose proof (Z.mod_pos_bound va m ltac:(lia)).
  assert (va < (base + pg_num) * m) by nia. split; [|done].
  rewrite u64_small by (unfold is_u64; nia). pose proof (align_ceil_spec 64 pg_shift (va + 1)) as H2. fold m in H2.
  etrans; [apply H2; nia|]. f_equal. replace (va + 1 + (m - 1)) with (va + 1 * m) by lia. by rewrite Z.div_add by lia.
Qed.

Lemma obj_iter_loop_ok base fuel i j va s : area_ok base → 0 <= i <= elt_num → 0 <= j <= pg_num → 0 <= va → page base va = j →
  (elt_num - i) + (pg_num - j) <= Z.of_nat fuel →
  ∃ objs, obj_iter_loop fuel i j va s = Some (i + Z.of_nat (length objs), visit s objs) ∧ placed base va i objs ∧
    i + Z.of_nat (length objs) <= elt_num.
Proof.
  intros Ha. pose proof Ha as [Hs [Hp Hl] [He Hal] Hb]. revert i j va s.
  assert (∀ i va s, i <= elt_num → ∃ objs, Some (i, s) = Some (i + Z.of_nat (length objs), visit s objs) ∧ placed base va i objs ∧
    i + Z.of_nat (length objs) <= elt_num) as Hstop.
  { intros i va s Hi. exists []. simpl. by rewrite Z.add_0_r. }
  induction fuel as [|f IH]; intros i j va s Hi Hj Hva Hpg Hf; cbn [obj_iter_loop];
    (destruct (Z.eqb_spec i elt_num) as [|Hi']; [apply Hstop; lia|]); (destruct (Z.eqb_spec j pg_num) as [|Hj']; [apply Hstop; lia|]); cbn [negb andb]; [lia|].
  destruct (align_page base va Ha Hva ltac:(lia)) as [Hnext Hend].
  rewrite Hal, align_one by lia. rewrite (u64_small (va + elt_sz)), (u64_small (va + elt_sz - 1)) by (unfold is_u64; lia).
  pose proof (shiftr_step va elt_sz ltac:(lia) Hva ltac:(lia)) as S1.
  pose proof (shiftr_step va (elt_sz - 1) ltac:(lia) Hva ltac:(lia)) as S2.
  pose proof (shiftr_step (va + elt_sz - 1) 1 ltac:(lia) ltac:(lia) ltac:(lia)) as S3.
  rewrite Z.sub_add in S3. rewrite Z.add_sub_assoc in S2. unfold page in Hpg.
  rewrite (u32_small (_ - _)), (u32_small (_ - _)) by (unfold is_u32; lia). rewrite (u32_small (_ + j)) by (unfold is_u32; lia).
  set (pgn := Z.shiftr (va + elt_sz - 1) pg_shift - Z.shiftr va pg_shift + j).
  destruct (Z.leb_spec pg_num pgn); [apply Hstop; lia|].
  destruct (contiguous_run (Z.to_nat (pgn - j)) j pgn eq_refl) as (k & -> & Hk & Hc); [lia|lia|]. cbn [mbind option_bind].
  destruct (Z.eqb_spec k pgn) as [->|Hne].
  - assert (Z.shiftr (va + elt_sz) pg_shift <= Z.shiftr (va + elt_sz - 1) pg_shift + 1) as S4.
    { rewrite !Z.shiftr_div_pow2 by lia. pose proof (Z.pow_pos_nonneg 2 pg_shift ltac:(lia) ltac:(lia)) as Hm. set (m := 2 ^ pg_shift) in *.
      apply Z.div_le_upper_bound; [lia|]. pose proof (Z.div_mod (va + elt_sz - 1) m ltac:(lia)).
      pose proof (Z.mod_pos_bound (va + elt_sz - 1) m ltac:(lia)). nia. }
    rewrite (u32_small (j + _)) by (unfold is_u32; lia).
    destruct (IH (i + 1) (j + (Z.shiftr (va + elt_sz) pg_shift - Z.shiftr va pg_shift)) (va + elt_sz) (obj_iter s va (va + elt_sz) i))
      as (objs & -> & Hpl & Hn); [lia|lia|lia|unfold page; lia|lia|].
    exists ((va, va + elt_sz, i) :: objs). split_and!; [simpl; f_equal; f_equal; lia| |simpl; lia].
    cbn [placed]. unfold page. split_and!; [lia|done|done|lia|lia| |done]. intros l Hl'. apply Hc. lia.
  - rewrite Hnext. pose proof (pg_sz_pow ltac:(lia)) as Esz. pose proof (Z.pow_pos_nonneg 2 pg_shift ltac:(lia) ltac:(lia)) as Hm.
    destruct (IH i (j + 1) ((Z.shiftr va pg_shift + 1) * pg_sz) s) as (objs & -> & Hpl & Hn); [lia|lia| | |lia|].
    + assert (0 <= Z.shiftr va pg_shift) by (apply Z.shiftr_nonneg; lia). nia.
    + unfold page. rewrite Z.shiftr_div_pow2, Esz, Z.div_mul by lia. lia.
    + exists objs. split_and!; [done| |done]. destruct objs as [|[[a b] n] objs]; [done|]. cbn [placed] in *.
      destruct Hpl as (Hge & ? & ? & ? & ? & ? & ?). split_and!; try done.
      assert (va <= (Z.shiftr va pg_shift + 1) * pg_sz); [|lia]. rewrite Esz, Z.shiftr_div_pow2 by lia.
      pose proof (Z.div_mod va (2 ^ pg_shift) ltac:(lia)). pose proof (Z.mod_pos_bound va (2 ^ pg_shift) ltac:(lia)). nia.
Qed.
End iter.

(** The walk over the memory of a pool always terminates, and every object it
    reports lies within the given pages, after the one before it, on pages that
    are adjacent in physical memory, so that a device can reach all of it from
    its first byte; it reports no more objects than asked for. Pages that are
    not adjacent are skipped. *)
Theorem obj_iter_pages {S} elt_num elt_sz paddr pg_num pg_shift (f : S → Z → Z → Z → S) vaddr s
    (Hva : 0 <= vaddr) (Hnum : 0 <= elt_num)
    (Harea : area_ok elt_sz 1 paddr pg_num pg_shift (Z.shiftr vaddr pg_shift)) :
  ∃ objs, rte_mempool_obj_iter elt_num elt_sz 1 paddr pg_num pg_shift f vaddr s =
      Some (Z.of_nat (length objs), visit f s objs) ∧
    placed elt_sz paddr pg_num pg_shift (Z.shiftr vaddr pg_shift) vaddr 0 objs ∧ Z.of_nat (length objs) <= elt_num.
Proof.
  pose proof (area_pages _ _ _ _ _ _ Harea). unfold rte_mempool_obj_iter.
  apply (obj_iter_loop_ok elt_num elt_sz 1 paddr pg_num pg_shift f (Z.shiftr vaddr pg_shift)); try done; unfold page; lia.
Qed.

(** Three pages, the second and third adjacent; four objects of 3000 bytes. *)
Lemma obj_iter_pages_witness :
  ∃ objs, rte_mempool_obj_iter 4 3000 1 [4096; 16384; 20480] 3 12 (λ l a b i, l ++ [(a, i)]) 65536 [] =
      Some (Z.of_nat (length objs), visit (λ l a b i, l ++ [(a, i)]) [] objs) ∧
    placed 3000 [4096; 16384; 20480] 3 12 16 65536 0 objs.
Proof.
  destruct (obj_iter_pages 4 3000 [4096; 16384; 20480] 3 12 (λ l a b i, l ++ [(a, i)]) 65536 []) as (objs & E & H & _).
  - lia.
  - lia.
  - split; [lia|split; [lia|done]|split; [lia|done]|vm_compute; split_and!; discriminate].
  - exists objs. split; [exact E|exact H].
Defined.

(** ** Creating a pool *)
Definition RTE_MEMPOOL_NAMESIZE : Z := 32.
Definition RTE_MEMPOOL_MZ_PREFIX : string := "MP_".
Definition MEMPOOL_PG_SHIFT_MAX : Z := 63.
Definition MEMPOOL_PG_NUM_DEFAULT : Z := 1.
(** 128 bytes before the caches, 128 caches of 12352 bytes, 64 bytes after. *)
Definition sizeof_rte_mempool : Z := 128 + 128 * 12352 + 64.
Definition MEMPOOL_HEADER_SIZE (pgn : Z) : Z :=
  u64 (sizeof_rte_mempool + RTE_ALIGN_CEIL u64 (u64 ((pgn - 1) * sizeof_ptr)) RTE_CACHE_LINE_SIZE).

Notation pool := (rte_mempool (rte_ring Z) Z).

Section create.
Context {I : Type}.

(** [obj_init] and [mp_init] change the memory of the objects and the private
    data, the state [I]. *)
Definition mempool_add_elem (mp : pool) (obj obj_idx : Z) (obj_init : option (pool → I → Z → Z → I)) (st : I) : option (pool * I) :=
  let obj := obj + header_size mp in
  let st := match obj_init with Some f => f mp st obj obj_idx | None => st end in
  '(_, r) ← rte_ring_sp_enqueue (ring mp) obj;
  Some (mp <| ring := r |>, st).
Definition mempool_obj_populate (obj_init : option (pool → I → Z → Z → I)) (s : option (pool * I)) (start end_ idx : Z) : option (pool * I) :=
  '(mp, st) ← s;
  '(mp, st) ← mempool_add_elem mp start idx obj_init st;
  Some (mp <| elt_va_end := end_ |>, st).
Definition mempool_populate (mp : pool) (num align : Z) (obj_init : option (pool → I → Z → Z → I)) (st : I) : option (pool * I) :=
  let elt_sz := u32 (elt_size mp + header_size mp + trailer_size mp) in
  '(n, s) ← rte_mempool_obj_iter num elt_sz align (elt_pa mp) (pg_num mp) (pg_shift mp)
              (mempool_obj_populate obj_init) (elt_va_start mp) (Some (mp, st));
  '(mp, st) ← s;
  Some (mp <| mp_size := n |>, st).

(** The rings and the list of pools. *)
Record mempool_env := MempoolEnv { mp_rings : ring_env Z; mp_list : list pool }.
#[export] Instance mempool_env_upd : Updatable mempool_env := λ e, MempoolEnv (mp_rings e) (mp_list e).
Definition set_errno (e : mempool_env) (err : Z) : mempool_env := e <| mp_rings := (mp_rings e) <| rte_errno := err |> |>.

(** What the allocator answers: the ring's list entry and memory zone, the
    pool's list entry, and for a size the pool's zone (virtual and physical
    address). *)
Record answers := Answers { a_ring_te : bool; a_ring_mz : memzone Z + Z; a_te : bool; a_mz : Z → option (Z * Z) }.

Definition start_address (pl : platform) (addr : Z) : Z :=
  if has_hugepages pl then addr
  else if negb (Z.land addr (pagesize pl - 1) =? 0) then Z.land (u64 (addr + pagesize pl)) (u64 (Z.lnot (pagesize pl - 1)))
  else addr.
Definition private_size (pl : platform) (size : Z) : Z :=
  let size := Z.land (u32 (size + RTE_MEMPOOL_ALIGN_MASK)) (u32 (Z.lnot RTE_MEMPOOL_ALIGN_MASK)) in
  if has_hugepages pl then size
  else
    let new_size := u32 (size + sizeof_rte_mempool) mod pagesize pl in
    if new_size =? 0 then size else u32 (size + (pagesize pl - new_size)).

(** The size of the zone; [total] is 0 when the objects are elsewhere. *)
Definition zone_size (pl : platform) (psize pgn total n : Z) : Z :=
  let mempool_size := RTE_ALIGN_CEIL u64 (u64 (MEMPOOL_HEADER_SIZE pgn + psize)) RTE_MEMPOOL_ALIGN in
  let mempool_size := u64 (mempool_size + u64 (total * n)) in
  if has_hugepages pl then mempool_size else u64 (mempool_size + pagesize pl).

Definition rte_mempool_xmem_create (pl : platform) (e : mempool_env) (nm : string) (n esize csize psize : Z)
    (mp_init : option (pool → I → I)) (obj_init : option (pool → I → Z → Z → I)) (st : I) (flags : Z)
    (vaddr : option Z) (paddr : option (list Z)) (pgn pgs : Z) (an : answers)
    : option (option pool * mempool_env * I) :=
  if (RTE_MEMPOOL_CACHE_MAX_SIZE <? csize) || (n <? CALC_CACHE_FLUSHTHRESH csize) then Some (None, set_errno e EINVAL, st) else
  if match vaddr, paddr with Some _, None => true | _, _ => false end then Some (None, set_errno e EINVAL, st) else
  if (pgn <? 1) || (MEMPOOL_PG_SHIFT_MAX <? pgs) then Some (None, set_errno e EINVAL, st) else
  let flags := if negb (Z.land flags MEMPOOL_F_NO_CACHE_ALIGN =? 0) then Z.lor flags MEMPOOL_F_NO_SPREAD else flags in
  let rg_flags := Z.lor (if negb (Z.land flags MEMPOOL_F_SP_PUT =? 0) then RING_F_SP_ENQ else 0)
                        (if negb (Z.land flags MEMPOOL_F_SC_GET =? 0) then RING_F_SC_DEQ else 0) in
  calc ← rte_mempool_calc_obj_size pl esize flags;
  match calc with
  | (_, None) => Some (None, set_errno e EINVAL, st)
  | (total, Some sz) =>
      if total =? 0 then Some (None, set_errno e EINVAL, st) else
      let rg_name := snprintf RTE_RING_NAMESIZE (RTE_MEMPOOL_MZ_PREFIX +:+ nm) in
      let '(a, rings') := rte_ring_create (mp_rings e) rg_name (rte_align32pow2 (u32 (n + 1))) rg_flags (a_ring_te an) (a_ring_mz an) in
      let e := e <| mp_rings := rings' |> in
      match a with
      | None => Some (None, e, st)
      | Some a =>
          r ← rings (mp_rings e) !! a;
          let psize := private_size pl psize in
          if negb (a_te an) then Some (None, e, st) else
          match a_mz an (zone_size pl psize pgn (match vaddr with None => total | Some _ => 0 end) n) with
          | None => Some (None, e, st)
          | Some (addr, phys) =>
              let mp_addr := start_address pl addr in
              let obj := RTE_ALIGN_CEIL u64 (u64 (mp_addr + MEMPOOL_HEADER_SIZE pgn + psize)) RTE_MEMPOOL_ALIGN in
              pa ← (match vaddr with
                    | None => Some (u64 (phys + (obj - mp_addr)) :: replicate (Z.to_nat (pgn - 1)) 0)
                    | Some _ => take (Z.to_nat pgn) <$> paddr
                    end);
              let va := default obj vaddr in
              let mp := {| mp_name := snprintf RTE_MEMPOOL_NAMESIZE nm; ring := r; phys_addr := phys; mp_flags := flags;
                mp_size := n; cache_size := csize; cache_flushthresh := CALC_CACHE_FLUSHTHRESH csize;
                elt_size := sz_elt sz; header_size := sz_header sz; trailer_size := sz_trailer sz; private_data_size := psize;
                local_cache := replicate (Z.to_nat RTE_MAX_LCORE) (Cache 0 (replicate (Z.to_nat (RTE_MEMPOOL_CACHE_MAX_SIZE * 3)) 0));
                pg_num := pgn; pg_shift := pgs; pg_mask := Z.shiftr (2 ^ 64 - 1) (64 - pgs);
                elt_va_start := va; elt_va_end := va; elt_pa := pa |} in
              let st := match mp_init with Some f => f mp st | None => st end in
              '(mp, st) ← mempool_populate mp n 1 obj_init st;
              Some (Some mp, e <| mp_list := mp_list e ++ [mp] |>, st)
          end
      end
  end.

(** Without support for Xen. *)
Definition rte_mempool_create (pl : platform) (e : mempool_env) (nm : string) (n esize csize psize : Z)
    (mp_init : option (pool → I → I)) (obj_init : option (pool → I → Z → Z → I)) (st : I) (flags : Z) (an : answers)
    : option (option pool * mempool_env * I) :=
  rte_mempool_xmem_create pl e nm n esize csize psize mp_init obj_init st flags None None MEMPOOL_PG_NUM_DEFAULT MEMPOOL_PG_SHIFT_MAX an.
End create.

Definition rte_mempool_lookup (e : mempool_env) (nm : string) : option pool * mempool_env :=
  match find (λ mp, strncmp_eq nm (mp_name mp) (Z.to_nat RTE_MEMPOOL_NAMESIZE)) (mp_list e) with
  | Some mp => (Some mp, e)
  | None => (None, set_errno e ENOENT)
  end.

(** ** What creation gives *)

(** The objects of a pool in one piece of memory. *)
Fixpoint objs_at (sz va i : Z) (n : nat) : list (Z * Z * Z) :=
  match n with O => [] | Datatypes.S n => (va, va + sz, i) :: objs_at sz (va + sz) (i + 1) n end.

Lemma iter_contiguous {S} sz pa (f : S → Z → Z → Z → S) n fuel i va s elt_num : 0 < sz → 0 <= va → va + Z.of_nat n * sz < 2 ^ 63 →
  elt_num = i + Z.of_nat n → (n <= fuel)%nat →
  obj_iter_loop elt_num sz 1 [pa] 1 63 f fuel i 0 va s = Some (elt_num, visit f s (objs_at sz va i n)).
Proof.
  intros Hsz. revert fuel i va s. induction n as [|n IH]; intros fuel i va s Hva Hend Hi Hf.
  { assert (elt_num = i) as -> by lia. destruct fuel; cbn [obj_iter_loop]; by rewrite Z.eqb_refl. }
  destruct fuel as [|fuel]; [lia|]. cbn [obj_iter_loop]. destruct (Z.eqb_spec i elt_num); [lia|]. cbn [negb andb].
  change (0 =? 1) with false. cbn [negb andb]. rewrite align_one by lia.
  rewrite (u64_small (va + sz)), (u64_small (va + sz - 1)) by (unfold is_u64; lia).
  assert (∀ x, 0 <= x < 2 ^ 63 → Z.shiftr x 63 = 0) as H0 by (intros x Hx; rewrite Z.shiftr_div_pow2 by lia; by apply Z.div_small).
  rewrite !H0 by lia. change (u32 (0 - 0)) with 0. change (u32 (0 + 0)) with 0. change (1 <=? 0) with false. cbv iota.
  change (contiguous_to [pa] 63 (Z.to_nat (0 - 0)) 0 0) with (Some 0). cbn [mbind option_bind]. change (0 =? 0) with true. cbv iota.
  rewrite IH; [done|lia|lia|lia|lia].
Qed.

Lemma objs_at_fmap sz va i n h :
  (λ '(a, _, _), a + h) <$> objs_at sz va i n = (λ k, va + Z.of_nat k * sz + h) <$> seq 0 n.
Proof.
  revert va i. induction n as [|n IH]; intros va i; [done|]. cbn [objs_at seq]. rewrite !fmap_cons, IH, <- fmap_S_seq, <- list_fmap_compose.
  f_equal; [lia|]. apply list_fmap_ext. intros j x _. simpl. lia.
Qed.

(** The pool while it is filled, and a property of the initialised objects. *)
Definition filling (mp mp' : pool) : Prop := mp' = mp <| ring := ring mp' |> <| elt_va_end := elt_va_end mp' |>.
Definition inits {I} (obj_init : option (pool → I → Z → Z → I)) (mp : pool) (objs : list Z) (Φ : I → list Z → Prop) : Prop :=
  ∀ mp' st l a i, filling mp mp' → a ∈ objs → Φ st l → Φ (match obj_init with Some f => f mp' st a i | None => st end) (l ++ [a]).
Lemma populate_visit {I} (obj_init : option (pool → I → Z → Z → I)) Φ mp0 all cap objs mp st q : bq_rep (ring mp) cap q →
  Z.of_nat (length q + length objs) <= cap → inits obj_init mp0 all Φ → ((λ '(a, _, _), a + header_size mp) <$> objs) ⊆ all → filling mp0 mp → Φ st q →
  ∃ mp' st', visit (mempool_obj_populate obj_init) (Some (mp, st)) objs = Some (mp', st') ∧
    let q' := q ++ ((λ '(a, _, _), a + header_size mp) <$> objs) in bq_rep (ring mp') cap q' ∧ Φ st' q' ∧ filling mp mp'.
Proof.
  intros Hq Hl HΦ. revert mp st q Hq Hl. induction objs as [|[[a b] i] objs IH]; intros mp st q Hq Hl Hall Hmp Hst; simpl in Hl.
  { exists mp, st. simpl. rewrite app_nil_r. split_and!; [done|done|done|by destruct mp]. }
  pose proof (bq_enqueue_bulk_ok false (ring mp) cap q [a + header_size mp] 1 Hq ltac:(simpl; lia)) as H.
  destruct (Z.leb_spec 1 (cap - Z.of_nat (length q))); [|lia]. destruct H as (ret & r & E & _ & Hr & _).
  change (bq_enqueue_bulk false (ring mp) [a + header_size mp] 1) with (rte_ring_sp_enqueue (ring mp) (a + header_size mp)) in E.
  assert (mempool_obj_populate obj_init (Some (mp, st)) a b i = Some (mp <| ring := r |> <| elt_va_end := b |>,
    match obj_init with Some f => f mp st (a + header_size mp) i | None => st end)) as Ep.
  { unfold mempool_obj_populate, mempool_add_elem. cbn [mbind option_bind]. rewrite E. done. }
  unfold visit in *. cbn [foldl]. rewrite Ep.
  edestruct (IH (mp <| ring := r |> <| elt_va_end := b |>)) as (mp' & st' & -> & Hr' & Hst' & Hmp'); [exact Hr|rewrite length_app; simpl; lia|intros x Hx; apply Hall; by right|unfold filling in *; by rewrite Hmp|apply HΦ; [done|apply Hall; left|done]|].
  exists mp', st'. rewrite fmap_cons. rewrite <- app_assoc in Hr', Hst'. split_and!; [done|exact Hr'|exact Hst'|unfold filling in *; by rewrite Hmp'].
Qed.

Lemma memsize_pow2 k : 0 <= k <= 27 → 0 <= rte_ring_get_memsize (2 ^ k).
Proof.
  intros Hk. assert (forallb (λ k, 0 <=? rte_ring_get_memsize (2 ^ Z.of_nat k)) (seq 0 28) = true) as H by (vm_compute; reflexivity).
  rewrite forallb_forall in H. specialize (H (Z.to_nat k)). rewrite in_seq, Z2Nat.id in H by lia. specialize (H ltac:(lia)). lia.
Qed.

(** The arguments and answers with which creation succeeds. *)
Record create_ok (pl : platform) (n esize csize psize : Z) (an : answers) (mz : memzone Z) : Prop := {
  cr_huge : has_hugepages pl = true;
  cr_spread : 0 <= nchannel pl ∧ 0 <= nrank pl ∧ spread_of pl < 2 ^ 16;
  cr_n : 0 < n < 2 ^ 27 ∧ CALC_CACHE_FLUSHTHRESH csize <= n;
  cr_sizes : 0 <= esize <= 2 ^ 30 ∧ 0 <= csize <= RTE_MEMPOOL_CACHE_MAX_SIZE ∧ 0 <= psize < 2 ^ 31;
  cr_ring : a_ring_te an = true ∧ a_ring_mz an = inl mz ∧ Z.of_nat (length (mz_table mz)) = rte_align32pow2 (n + 1);
  cr_zone : a_te an = true ∧ ∀ size, size < 2 ^ 62 → ∃ addr phys, a_mz an size = Some (addr, phys) ∧ 0 <= addr ∧ addr mod 64 = 0 ∧ addr + size < 2 ^ 63 }.

Lemma empty_caches cs (ls : list (rte_mempool_cache Z)) : ls = replicate (Z.to_nat RTE_MAX_LCORE) (Cache 0 cs) → concat (cached <$> ls) = [].
Proof. intros ->. generalize (Z.to_nat RTE_MAX_LCORE). intros m. rewrite fmap_replicate. induction m; simpl; [done|]. by rewrite IHm. Qed.

(** Where the objects start. *)
Lemma object_start addr psize : 0 <= addr → addr mod 64 = 0 → 0 <= psize < 2 ^ 32 → addr < 2 ^ 63 →
  let h := MEMPOOL_HEADER_SIZE 1 + psize in
  RTE_ALIGN_CEIL u64 (u64 (addr + MEMPOOL_HEADER_SIZE 1 + psize)) RTE_MEMPOOL_ALIGN = addr + RTE_ALIGN_CEIL u64 (u64 h) RTE_MEMPOOL_ALIGN ∧
  h <= RTE_ALIGN_CEIL u64 (u64 h) RTE_MEMPOOL_ALIGN < h + 64.
Proof.
  intros Ha Hm Hp Hlt h. change (MEMPOOL_HEADER_SIZE 1) with 1581248 in *.
  rewrite !u64_small by (unfold is_u64; lia).
  destruct (align_ceil_bounds 64 6 (addr + 1581248 + psize)) as [B1 M1]; [lia|lia|lia|].
  destruct (align_ceil_bounds 64 6 h) as [B2 M2]; [lia|lia|lia|]. change (2 ^ 6) with 64 in *.
  change (RTE_ALIGN_CEIL (λ x, x mod 2 ^ 64)) with (RTE_ALIGN_CEIL u64) in *. unfold RTE_MEMPOOL_ALIGN.
  set (r1 := RTE_ALIGN_CEIL u64 (addr + 1581248 + psize) 64) in *. set (r2 := RTE_ALIGN_CEIL u64 h 64) in *.
  pose proof (Z.div_mod r1 64 ltac:(lia)). pose proof (Z.div_mod r2 64 ltac:(lia)). pose proof (Z.div_mod addr 64 ltac:(lia)). lia.
Qed.

Lemma private_size_huge pl psize : has_hugepages pl = true → 0 <= psize < 2 ^ 31 → psize <= private_size pl psize < psize + 64.
Proof.
  intros Hh Hp. unfold private_size. rewrite Hh. destruct (align_ceil_bounds 32 6 psize) as [B _]; [lia|lia|lia|]. exact B.
Qed.

Lemma ring_create_run (e : ring_env Z) nm k flags mz : 0 <= k <= 27 → Z.of_nat (length (mz_table mz)) = 2 ^ k →
  ∃ e' r, rte_ring_create e nm (2 ^ k) flags true (inl mz) = (Some (mz_addr mz), e') ∧ rings e' !! mz_addr mz = Some r ∧
    bq_rep r (2 ^ k - 1) [].
Proof.
  intros Hk Htab. pose proof (memsize_pow2 k Hk). unfold rte_ring_create.
  destruct (Z.ltb_spec (rte_ring_get_memsize (2 ^ k)) 0); [lia|]. cbn [negb]. eexists _, _. split; [done|].
  split; [apply lookup_insert_eq|]. exists k. split; [done|].
  destruct (init_rep k (mz_table mz) nm flags Hk Htab) as [[] ? ? ?]. by split.
Qed.

(** Creation, up to the walk over the objects. *)
Lemma create_run {I} pl e nm n esize csize psize mp_init (obj_init : option (pool → I → Z → Z → I)) st flags an mz :
  create_ok pl n esize csize psize an mz →
  ∃ sz k a addr mp, 0 <= k <= 27 ∧ n <= 2 ^ k - 1 ∧ a = addr + sz_header sz ∧ 0 <= addr ∧
    sz_header sz + sz_elt sz + sz_trailer sz = sz_total sz ∧ 0 < sz_total sz < 2 ^ 32 ∧ esize <= sz_elt sz ∧ 8 <= sz_header sz ∧ 0 <= sz_trailer sz ∧
    (∃ base size phys, a_mz an size = Some (base, phys) ∧ base <= addr ∧ addr + n * sz_total sz <= base + size ∧ base + size < 2 ^ 63) ∧
    pool_rep mp (2 ^ k - 1) [] ∧ mp_size mp = n ∧ header_size mp = sz_header sz ∧ elt_size mp = sz_elt sz ∧ sz_elt sz = RTE_ALIGN_CEIL u32 esize sizeof_uint64 ∧ u32 (elt_size mp + header_size mp + trailer_size mp) = sz_total sz ∧
    elt_va_start mp = addr ∧ (∃ pa, elt_pa mp = [pa]) ∧ pg_num mp = 1 ∧ pg_shift mp = 63 ∧ mp_name mp = snprintf RTE_MEMPOOL_NAMESIZE nm ∧
    ∃ rings', rte_mempool_create pl e nm n esize csize psize mp_init obj_init st flags an =
      ('(mp, st) ← mempool_populate mp n 1 obj_init (match mp_init with Some f => f mp st | None => st end);
       Some (Some mp, e <| mp_rings := rings' |> <| mp_list := mp_list e ++ [mp] |>, st)).
Proof.
  intros [Hh (Hnc & Hnr & Hsp) (Hn & Hth) (He & Hc & Hps) (Hte & Hmz & Htab) (Hte2 & Hzone)].
  destruct (align32pow2_spec (n + 1) ltac:(lia)) as (k & Hk & Ek & Hpk).
  assert (k <= 27) as Hk27. { assert (k < 28); [|lia]. apply (Z.pow_lt_mono_r_iff 2); lia. }
  unfold rte_mempool_create, rte_mempool_xmem_create.
  destruct (Z.ltb_spec RTE_MEMPOOL_CACHE_MAX_SIZE csize); [lia|]. destruct (Z.ltb_spec n (CALC_CACHE_FLUSHTHRESH csize)); [lia|].
  change ((MEMPOOL_PG_NUM_DEFAULT <? 1) || (MEMPOOL_PG_SHIFT_MAX <? MEMPOOL_PG_SHIFT_MAX)) with false. cbn [orb].
  set (fl := if negb _ then _ else flags). set (rf := Z.lor _ _).
  destruct (calc_obj_size_run pl esize fl Hh Hnc Hnr Hsp He) as (sz & -> & Htot & Helt & Hhd & Htr & Hlt & Hel8). cbn [mbind option_bind].
  destruct (Z.eqb_spec (sz_total sz) 0); [lia|]. rewrite (u32_small (n + 1)) by (unfold is_u32; lia).
  rewrite Ek in *. rewrite Hte, Hmz.
  destruct (ring_create_run (mp_rings e) (snprintf RTE_RING_NAMESIZE (RTE_MEMPOOL_MZ_PREFIX +:+ nm)) k rf mz ltac:(lia) Htab)
    as (rings' & r & -> & Hr & Hrep). cbv beta iota zeta. change (mp_rings (e <| mp_rings := rings' |>)) with rings'.
  rewrite Hr. cbn [mbind option_bind]. rewrite Hte2. cbn [negb].
  pose proof (private_size_huge pl psize Hh Hps) as Hpr. set (ps := private_size pl psize) in *.
  set (size := zone_size pl ps _ _ n). change MEMPOOL_PG_NUM_DEFAULT with 1 in *.
  set (off := RTE_ALIGN_CEIL u64 (u64 (MEMPOOL_HEADER_SIZE 1 + ps)) RTE_MEMPOOL_ALIGN).
  assert (MEMPOOL_HEADER_SIZE 1 + ps <= off < MEMPOOL_HEADER_SIZE 1 + ps + 64) as Ho by (apply (object_start 0 ps); done || lia).
  change (MEMPOOL_HEADER_SIZE 1) with 1581248 in Ho.
  assert (size = off + sz_total sz * n) as Esize.
  { unfold size, zone_size. rewrite Hh. fold off. rewrite (u64_small (sz_total sz * n)) by (unfold is_u64; nia).
    apply u64_small. unfold is_u64. nia. }
  destruct (Hzone size ltac:(nia)) as (base & phys & Ez & Hb0 & Hb64 & Hbs). rewrite Ez.
  unfold start_address. rewrite Hh. cbn [default].
  destruct (object_start base ps Hb0 Hb64 ltac:(lia) ltac:(nia)) as [Eo _]. rewrite Eo. fold off.
  eexists sz, k, _, (base + off), _. split_and!; [lia|lia|lia|reflexivity|lia|lia|lia|lia|lia|lia|lia| | | | | | | | | | | | |eexists; reflexivity].
  - exists base, size, phys. split_and!; [done|lia|lia|lia].
  - split.
    + split; cbn; [lia|done|by rewrite length_replicate|]. intros i c [-> _]%lookup_replicate. cbn.
      pose proof (thresh_bounds csize Hc). split; [by rewrite length_replicate|lia].
    + exists []. split; [exact Hrep|]. cbn [local_cache]. by erewrite empty_caches.
  - done.
  - done.
  - done.
  - exact Hel8.
  - cbn [elt_size header_size trailer_size]. rewrite u32_small by (unfold is_u32; lia). lia.
  - done.
  - by eexists.
  - done.
  - done.
  - done.
Qed.

(** The walk fills the ring of an empty pool. *)
Lemma populate_run {I} (obj_init : option (pool → I → Z → Z → I)) Φ (mp : pool) st cap n total addr pa : pool_rep mp cap [] → inits obj_init mp ((λ k, addr + Z.of_nat k * total + header_size mp) <$> seq 0 (Z.to_nat n)) Φ → Φ st [] →
  0 <= n <= cap → 0 < total → 0 <= addr → addr + n * total < 2 ^ 63 →
  u32 (elt_size mp + header_size mp + trailer_size mp) = total → elt_va_start mp = addr → elt_pa mp = [pa] → pg_num mp = 1 → pg_shift mp = 63 →
  ∃ mp' st', mempool_populate mp n 1 obj_init st = Some (mp', st') ∧
    let objs := (λ k, addr + Z.of_nat k * total + header_size mp) <$> seq 0 (Z.to_nat n) in
    pool_rep mp' cap objs ∧ Φ st' objs ∧ mp_size mp' = n ∧ filling (mp <| mp_size := n |>) mp'.
Proof.
  intros (Hok & q & Hq & Hfree) HΦ Hst Hn Ht Ha Hend Hsz Hva Hpa Hpn Hps. apply Permutation_nil_l in Hfree. symmetry in Hfree.
  apply app_eq_nil in Hfree as [-> Hcs].
  unfold mempool_populate. rewrite Hsz, Hva, Hpa, Hpn, Hps. unfold rte_mempool_obj_iter.
  rewrite (iter_contiguous total pa (mempool_obj_populate obj_init) (Z.to_nat n) _ 0 addr) by lia. cbn [mbind option_bind].
  assert (∀ m va i, length (objs_at total va i m) = m) as Hlen by (induction m; intros; simpl; [done|by rewrite IHm]).
  destruct (populate_visit obj_init Φ mp ((λ k, addr + Z.of_nat k * total + header_size mp) <$> seq 0 (Z.to_nat n)) cap (objs_at total addr 0 (Z.to_nat n)) mp st [] Hq) as (mp1 & st1 & -> & Hr & Hst1 & Hmp);
    [rewrite Hlen; simpl; lia|exact HΦ|by rewrite objs_at_fmap|by destruct mp|done|].
  cbn [mbind option_bind]. exists (mp1 <| mp_size := n |>), st1. split; [done|]. rewrite objs_at_fmap in Hr, Hst1. unfold filling in Hmp.
  split; [|split; [exact Hst1|split; [done|unfold filling; by rewrite Hmp]]]. split; [rewrite Hmp; by destruct Hok|].
  eexists. split; [exact Hr|]. rewrite Hmp. change (local_cache (_ <| mp_size := n |>)) with (local_cache mp). by rewrite Hcs, app_nil_r.
Qed.

Lemma find_skip {B} (f : B → bool) l r : Forall (λ x, f x = false) l → find f (l ++ r) = find f r.
Proof. induction 1 as [|x l Hx _ IH]; [done|]. simpl. by rewrite Hx. Qed.

Lemma spaced_nodup (total h addr : Z) m : 0 < total → NoDup ((λ k, addr + Z.of_nat k * total + h) <$> seq 0 m).
Proof. intros Ht. apply NoDup_fmap_2_strong; [|apply NoDup_seq]. intros x y _ _ E. nia. Qed.

(** The objects, one after the other, in the zone. *)
Lemma objs_layout addr sz esize n base size : 0 <= n → sz_header sz + sz_elt sz + sz_trailer sz = sz_total sz → 0 < sz_total sz → esize <= sz_elt sz → 8 <= sz_header sz → 0 <= sz_trailer sz →
  base <= addr → addr + n * sz_total sz <= base + size →
  let objs := (λ k, addr + Z.of_nat k * sz_total sz + sz_header sz) <$> seq 0 (Z.to_nat n) in
  Z.of_nat (length objs) = n ∧ NoDup objs ∧ (∀ o, o ∈ objs → base <= o ∧ o + esize <= base + size) ∧ (∀ o o', o ∈ objs → o' ∈ objs → o ≠ o' → o + esize <= o' ∨ o' + esize <= o).
Proof.
  intros Hn Htot Ht He Hh Htr Hb Hin objs. assert (∀ o, o ∈ objs → ∃ j, 0 <= j < n ∧ o = addr + j * sz_total sz + sz_header sz) as Hobj.
  { intros o Ho. apply list_elem_of_fmap in Ho as (j & -> & Hj). apply elem_of_seq in Hj. exists (Z.of_nat j). split; [lia|done]. }
  split_and!; [unfold objs; rewrite length_fmap, length_seq; lia|by apply spaced_nodup| |].
  - intros o (j & Hj & ->)%Hobj. assert ((j + 1) * sz_total sz <= n * sz_total sz) by (apply Z.mul_le_mono_nonneg_r; lia).
    assert (0 <= j * sz_total sz) by (apply Z.mul_nonneg_nonneg; lia). lia.
  - assert (∀ j j', j < j' → (j + 1) * sz_total sz <= j' * sz_total sz) as Hmul by (intros; apply Z.mul_le_mono_nonneg_r; lia).
    intros o o' (j & Hj & ->)%Hobj (j' & Hj' & ->)%Hobj Hne. assert (j ≠ j') by congruence.
    destruct (decide (j < j')); [left; specialize (Hmul j j')|right; specialize (Hmul j' j)]; lia.
Qed.

(** C16: Creating a pool of [n] objects of [esize] bytes gives, under the conditions
    below, a pool with exactly [n] free objects, all different, not overlapping
    each other and inside the memory zone reserved for it; its ring has room for
    all of them, and when its name has fewer than 32 characters and is not taken
    the pool is found by it. The conditions: huge pages are in use; [n] is
    positive, below [2^27] and not below the flush threshold of the caches
    (which hold at most 512); [esize] is at most [2^30] and the private area
    below [2^31]; and the ring's and the pool's memory zone, cache aligned and
    below [2^63], and the entries of the lists are granted. *)
Theorem mempool_create_ok {I} pl e nm n esize csize psize mp_init (obj_init : option (pool → I → Z → Z → I)) st flags an mz
    (Hok : create_ok pl n esize csize psize an mz) :
  ∃ mp e' st' cap objs base size phys,
    rte_mempool_create pl e nm n esize csize psize mp_init obj_init st flags an = Some (Some mp, e', st') ∧
    pool_rep mp cap objs ∧ Z.of_nat (length objs) = n ∧ n <= cap ∧ mp_size mp = n ∧ NoDup objs ∧
    a_mz an size = Some (base, phys) ∧ (∀ o, o ∈ objs → base <= o ∧ o + esize <= base + size) ∧
    (∀ o o', o ∈ objs → o' ∈ objs → o ≠ o' → o + esize <= o' ∨ o' + esize <= o) ∧
    (strlen nm < RTE_MEMPOOL_NAMESIZE → Forall (λ p, strncmp_eq nm (mp_name p) 32 = false) (mp_list e) →
     rte_mempool_lookup e' nm = (Some mp, e')).
Proof.
  destruct (create_run pl e nm n esize csize psize mp_init obj_init st flags an mz Hok) as
    (sz & k & a & addr & mp & Hk & Hnk & -> & Ha & Htot & Ht & He & Hh & Htr & (base & size & phys & Ez & Hb & Hin & Hbs) &
     Hrep & Hsize & Hhd & _ & _ & Hu & Hva & (pa & Hpa) & Hpn & Hps & Hnm & rings' & ->).
  pose proof (cr_n _ _ _ _ _ _ _ Hok) as [Hn _].
  destruct (populate_run obj_init (λ _ _, True) mp (match mp_init with Some f => f mp st | None => st end) (2 ^ k - 1) n (sz_total sz) addr pa Hrep)
    as (mp' & st' & -> & Hr & _ & Hs & Hfill); [done|done|lia|lia|done|lia|done..|]. assert (Hnm' : mp_name mp' = mp_name mp) by (by rewrite Hfill).
  cbn [mbind option_bind]. rewrite Hhd in Hr. destruct (objs_layout addr sz esize n base size) as (Hlen & Hnd & Hinside & Happart); [lia|done|lia..|].
  eexists mp', _, st', (2 ^ k - 1), _, base, size, phys. split_and!; [reflexivity|exact Hr|done|lia|done|done|done|done|done|].
  - clear Hlen. intros Hlen Hfresh. unfold rte_mempool_lookup.
    change (mp_list (e <| mp_rings := rings' |> <| mp_list := mp_list e ++ [mp'] |>)) with (mp_list e ++ [mp']).
    rewrite find_skip by exact Hfresh.
    cbn [find]. rewrite Hnm', Hnm. unfold strlen, RTE_MEMPOOL_NAMESIZE in *. unfold snprintf. rewrite decide_False by lia.
    rewrite substring_all, strncmp_short by lia. by rewrite bool_decide_eq_true_2.
Qed.

(** ** A pool of seven objects *)
Definition demo_mz : memzone Z := Memzone 65536 0 (replicate 8 0).
Definition demo_answers : answers := Answers true (inl demo_mz) true (λ _, Some (2 ^ 20, 2 ^ 30)).
Definition demo_env : mempool_env := MempoolEnv (RingEnv [] ∅ 0) [].
Definition demo_plat : platform := Plat 4 1 true 4096.

Lemma demo_create_ok : create_ok demo_plat 7 2176 2 64 demo_answers demo_mz.
Proof.
  split; [done|by vm_compute|split; [lia|vm_compute; discriminate]|unfold RTE_MEMPOOL_CACHE_MAX_SIZE; lia|by vm_compute|].
  split; [done|]. intros size Hs. eexists _, _. split; [done|]. split; [lia|]. split; [done|]. lia.
Qed.

Lemma mempool_create_ok_witness :
  ∃ mp e' st' cap objs, rte_mempool_create demo_plat demo_env "mproc_pktmbuf_pool" 7 2176 2 64 None None () 0 demo_answers = Some (Some mp, e', st') ∧
    pool_rep mp cap objs ∧ Z.of_nat (length objs) = 7 ∧ NoDup objs.
Proof.
  destruct (mempool_create_ok demo_plat demo_env "mproc_pktmbuf_pool" 7 2176 2 64 None None () 0 demo_answers demo_mz demo_create_ok)
    as (mp & e' & st' & cap & objs & base & size & phys & H1 & H2 & H3 & _ & _ & H4 & _).
  exists mp, e', st', cap, objs. split; [exact H1|]. split; [exact H2|]. split; [exact H3|exact H4].
Defined.

(** A pool with three objects in its ring. *)
Definition demo_ring : rte_ring Z :=
  {| rname := "MP_demo"; rflags := 0; rmemzone := Some 0; rprod := Prod 4 0 4 3 3 3; rcons := Cons 0 4 3 0 0; rtable := [100; 200; 300; 0] |}.
Definition demo_pool : pool :=
  {| mp_name := "demo"; ring := demo_ring; phys_addr := 0; mp_flags := 0; mp_size := 3; cache_size := 2;
     cache_flushthresh := CALC_CACHE_FLUSHTHRESH 2; elt_size := 64; header_size := 64; trailer_size := 0; private_data_size := 0;
     local_cache := replicate (Z.to_nat RTE_MAX_LCORE) (Cache 0 (replicate (Z.to_nat (RTE_MEMPOOL_CACHE_MAX_SIZE * 3)) 0));
     pg_num := 1; pg_shift := 63; pg_mask := 0; elt_va_start := 36; elt_va_end := 420; elt_pa := [0] |}.
Lemma demo_pool_rep : pool_rep demo_pool 3 [100; 200; 300].
Proof.
  split.
  - split; cbn [cache_size cache_flushthresh local_cache demo_pool]; [unfold RTE_MEMPOOL_CACHE_MAX_SIZE; lia|done|by rewrite length_replicate|].
    intros i c [-> _]%lookup_replicate. cbn [objs len]. split; [by rewrite length_replicate|vm_compute; split; discriminate].
  - exists [100; 200; 300]. split.
    + exists 2. split; [done|]. split; [by split|done..|]. intros [|[|[|j]]] x; simpl; intros [= <-]; done.
    + cbn [local_cache demo_pool]. by erewrite empty_caches.
Qed.

Lemma mempool_ownership_witness :
  ∃ mp held, rtc pool_step (demo_pool, []) (mp, held) ∧ held = [100; 200] ∧ NoDup held ∧ ∃ free, pool_rep mp 3 free ∧ [100; 200; 300] ≡ₚ held ++ free.
Proof.
  assert (∃ mp, rtc pool_step (demo_pool, []) (mp, [100; 200])) as [mp Hrun].
  { eexists. eapply rtc_once. apply (step_get demo_pool [] 200 [0; 0] 2 0 [100; 200]); [lia|simpl; lia|reflexivity]. }
  exists mp, [100; 200]. split; [exact Hrun|]. split; [reflexivity|].
  destruct (mempool_ownership demo_pool mp 3 [100; 200; 300] [100; 200]) as (H1 & H2 & _).
  - exact demo_pool_rep.
  - apply (bool_decide_unpack _). vm_compute. exact I.
  - simpl. lia.
  - exact Hrun.
  - split; [exact H1|exact H2].
Defined.

Lemma mempool_observers_witness : rte_mempool_count demo_pool = 3 ∧ rte_mempool_full demo_pool = 1 ∧ rte_mempool_empty demo_pool ≠ 1.
Proof.
  destruct (mempool_observers demo_pool 3 [100; 200; 300] 0 [0; 0] 2) as (H1 & _ & H2 & H3 & _).
  - exact demo_pool_rep.
  - cbn [mp_size demo_pool length]. lia.
  - lia.
  - simpl. lia.
  - split; [exact H1|]. split; [by apply H2|]. intros E. by apply H3 in E.
Defined.
