(* ===== verification/Primary.v ===== *)
(** * The primary application: arguments, rings and pool

    [examples/multi_process/patch_panel/pri_lvl1]: [args.c], and of [init.c]
    the packet pool, the ports and the rings of the clients. The primary
    process creates the pool and one ring per client; a process started as
    secondary runs the same code and looks them up. *)
From S2P Require Import Prelude CStr BurstQueue Ring RingSpec RingReg RingGroup EthTable EthDev Mempool MempoolInit Platform Secondary.
From Stdlib Require Import Ascii.
Open Scope Z_scope.

(** ** Arguments ([args.c]) *)
Record port_info := PortInfo { num_ports : Z; id : list Z }.
#[export] Instance port_info_upd : Updatable port_info := λ p, PortInfo (num_ports p) (id p).
(** [memset(mz->addr, 0, sizeof( *ports))]. *)
Definition no_ports : port_info := PortInfo 0 (replicate nports 0).

(** The variables the arguments set. *)
Record pargs := Pargs { ports : port_info; num_clients : Z; psrv_ip : option string; psrv_port : Z }.
#[export] Instance pargs_upd : Updatable pargs := λ a, Pargs (ports a) (num_clients a) (psrv_ip a) (psrv_port a).
Definition pargs_static : pargs := Pargs no_ports 0 None 0.

(** The loop over the bits of the mask, an [unsigned long]: 64 rounds. *)
Fixpoint mask_loop (fuel : nat) (max_ports pm count : Z) (pi : port_info) : option port_info :=
  if pm =? 0 then Some pi
  else match fuel with
  | O => None
  | S f =>
      pi ← (if Z.land pm 1 =? 0 then Some pi
            else if max_ports <=? count then Some pi
            else ids ← store (id pi) (num_ports pi) count;
                 Some (PortInfo (u8 (num_ports pi + 1)) ids));
      mask_loop f max_ports (Z.shiftr pm 1) (u8 (count + 1)) pi
  end.
Definition parse_portmask (max_ports : Z) (portmask : string) (pi : port_info) : option (Z * port_info) :=
  if String.eqb portmask "" then Some (-1, pi)
  else let '(pm, e) := strtoul portmask 16 in
       if negb (String.eqb e "") || (pm =? 0) then Some (-1, pi)
       else pi ← mask_loop 64 max_ports pm 0 pi; Some (0, pi).

Definition parse_num_clients (clients : string) (a : pargs) : Z * pargs :=
  if String.eqb clients "" then (-1, a)
  else let '(temp, e) := strtoul clients 10 in
       if negb (String.eqb e "") || (temp =? 0) then (-1, a) else (0, a <| num_clients := u8 temp |>).

Definition pparse_server (server_port : string) (a : pargs) : Z * pargs :=
  if String.eqb server_port "" then (-1, a)
  else match strtok ":" server_port with
  | None => (-1, a <| psrv_ip := None |>)
  | Some (ip, rest) =>
      let a := a <| psrv_ip := Some ip |> in
      match strtok ":" rest with
      | None => (-1, a)
      | Some (token, _) => (0, a <| psrv_port := atoi token |>)
      end
  end.

Fixpoint pparse_opts (max_ports : Z) (a : pargs) (evs : list opt_event) : option (Z * pargs) :=
  match evs with
  | [] => Some (if (num_ports (ports a) =? 0) || (num_clients a =? 0) then -1 else 0, a)
  | Opt c arg :: evs =>
      '(r, a) ← (if Ascii.eqb c "p"%char then '(r, pi) ← parse_portmask max_ports arg (ports a); Some (r, a <| ports := pi |>)
                 else if Ascii.eqb c "n"%char then Some (parse_num_clients arg a)
                 else if Ascii.eqb c "s"%char then Some (pparse_server arg a)
                 else Some (-1, a));
      if negb (r =? 0) then Some (-1, a) else pparse_opts max_ports a evs
  | OptErr :: _ => Some (-1, a)
  end.
Definition pparse_app_args (max_ports : Z) (argv : list string) (a : pargs) : option (Z * pargs) :=
  pparse_opts max_ports a (getopt_long "n:p:s:" argv).

(** ** The rings of the clients ([init_shm_rings]) *)
Definition CLIENT_QUEUE_RINGSIZE : Z := 128.

(** From client [i] on; [inl] is [rte_exit]. *)
Definition shm_rings_from {A} (primary : bool) (answer : Z → ring_answer A) (n : nat) (i : Z) (e : ring_env A)
    : option (unit + list Z * ring_env A) :=
  '(r, e) ← rings_from primary get_rx_queue_name CLIENT_QUEUE_RINGSIZE (Z.lor RING_F_SP_ENQ RING_F_SC_DEQ) answer n i e;
  match r with None => Some (inl tt) | Some rx_q => Some (inr (rx_q, e)) end.
(** [malloc_ok]: whether the array of clients was allocated. The code ends
    with a test of [retval], which nothing has set; the definition stands for
    the runs in which it is not negative. *)
Definition init_shm_rings {A} (primary malloc_ok : bool) (answer : Z → ring_answer A) (num_clients : Z) (e : ring_env A)
    : option (unit + list Z * ring_env A) :=
  if negb malloc_ok then Some (inl tt) else shm_rings_from primary answer (Z.to_nat num_clients) 0 e.

(** ** The packet pool ([init_mbuf_pools]) *)
Definition MBUFS_PER_CLIENT : Z := 1536.
Definition MBUFS_PER_PORT : Z := 1536.
Definition MBUF_CACHE_SIZE : Z := 512.
Definition sizeof_rte_mbuf : Z := 128.
Definition MBUF_SIZE : Z := 2048 + (sizeof_rte_mbuf + RTE_PKTMBUF_HEADROOM).

(** [mbuf_init] and [pool_init] are [rte_pktmbuf_init] and
    [rte_pktmbuf_pool_init]. The return value is 0 on success; [inl] is
    [rte_exit]. *)
Definition init_mbuf_pools {I} (primary : bool) (pl : platform) (a : pargs) (pool_init : pool → I → I) (mbuf_init : pool → I → Z → Z → I) (st : I)
    (an : answers) (e : mempool_env) : option (unit + Z * option pool * mempool_env * I) :=
  let num_mbufs := u32 (num_clients a * MBUFS_PER_CLIENT + num_ports (ports a) * MBUFS_PER_PORT) in
  if primary then
    '(p, e, st) ← rte_mempool_create pl e PKTMBUF_POOL_NAME num_mbufs MBUF_SIZE MBUF_CACHE_SIZE sizeof_pktmbuf_pool_private
                    (Some pool_init) (Some mbuf_init) st 0 an;
    Some (inr (match p with None => 1 | Some _ => 0 end, p, e, st))
  else
    match rte_mempool_lookup e PKTMBUF_POOL_NAME with
    | (None, _) => Some (inl tt)
    | (p, e) => Some (inr (0, p, e, st))
    end.

(** ** Ports ([init_port]) *)
Definition RTE_MP_RX_DESC_DEFAULT : Z := 512.
Definition RTE_MP_TX_DESC_DEFAULT : Z := 512.
(** All off; [mq_mode] = ETH_MQ_RX_RSS is a setting of the drivers alone, which the
    configuration record does not keep. *)
Definition port_conf : rte_eth_conf := Conf (RxMode 0 0 0 0 0) 0.

Section ports.
Context {P Q : Type}.
Variables (stack_info : rte_eth_dev_info) (alloc_rx alloc_tx : bool).
Definition init_port (pid : Z) (mp : pool_info) : EthTable.M P Q Z :=
  retval ← rte_eth_dev_configure stack_info alloc_rx alloc_tx pid 1 1 port_conf;
  if negb (retval =? 0) then mret retval else
  socket ← rte_eth_dev_socket_id pid;
  retval ← rte_eth_rx_queue_setup stack_info pid 0 RTE_MP_RX_DESC_DEFAULT socket mp;
  if retval <? 0 then mret retval else
  socket ← rte_eth_dev_socket_id pid;
  retval ← rte_eth_tx_queue_setup stack_info pid 0 RTE_MP_TX_DESC_DEFAULT socket;
  if retval <? 0 then mret retval else
  _ ← rte_eth_promiscuous_enable pid;
  retval ← rte_eth_dev_start stack_info pid;
  if retval <? 0 then mret retval else mret 0.
End ports.

(** ** The port mask *)

(** The ports of a mask: its bits, in ascending order, below [max]. *)
Definition mask_ports (pm : Z) (max : nat) : list Z :=
  Z.of_nat <$> filter (λ b, Z.testbit pm (Z.of_nat b) = true) (seq 0 max).

Lemma mask_ports_S pm max : mask_ports pm (S max) = mask_ports pm max ++ (if Z.testbit pm (Z.of_nat max) then [Z.of_nat max] else []).
Proof.
  unfold mask_ports. rewrite seq_S, filter_app, fmap_app. f_equal. simpl. rewrite filter_cons, filter_nil.
  destruct (Z.testbit pm (Z.of_nat max)); [rewrite decide_True by done|rewrite decide_False by done]; done.
Qed.
Lemma mask_ports_length pm max : (length (mask_ports pm max) <= max)%nat.
Proof. unfold mask_ports. rewrite length_fmap. etrans; [apply length_filter|]. by rewrite length_seq. Qed.

(** The array holds the ports [l]. *)
Definition holds_ports (pi : port_info) (l : list Z) : Prop :=
  length (id pi) = nports ∧ num_ports pi = Z.of_nat (length l) ∧ take (length l) (id pi) = l.

Lemma add_port_id pi l x : holds_ports pi l → (length l < nports)%nat →
  ∃ ids, store (id pi) (num_ports pi) x = Some ids ∧ holds_ports (PortInfo (u8 (num_ports pi + 1)) ids) (l ++ [x]).
Proof.
  intros (Hl & Hn & Ht) Hlt. rewrite Hn, store_in by lia. eexists. split; [done|]. rewrite Nat2Z.id.
  change nports with 32%nat in *. split_and!; simpl; [by rewrite length_insert| |].
  - rewrite length_app. simpl. rewrite u8_small by (unfold is_u8; lia). lia.
  - rewrite length_app, Nat.add_1_r. simpl. rewrite (take_S_r _ _ x) by (apply list_lookup_insert_eq; lia).
    by rewrite take_insert_ge, Ht by lia.
Qed.

Lemma mask_loop_run max pm fuel c pi : (max <= nports)%nat → 0 <= pm < 2 ^ 64 → (fuel + c = 64)%nat →
  holds_ports pi (mask_ports pm (Nat.min c max)) →
  ∃ pi', mask_loop fuel (Z.of_nat max) (Z.shiftr pm (Z.of_nat c)) (Z.of_nat c) pi = Some pi' ∧ holds_ports pi' (mask_ports pm max).
Proof.
  intros Hmax Hpm. revert c pi. induction fuel as [|f IH]; intros c pi Hf Hpi; cbn [mask_loop].
  { assert (Z.shiftr pm (Z.of_nat c) = 0) as ->. { rewrite Z.shiftr_div_pow2 by lia. apply Z.div_small. replace (Z.of_nat c) with 64 by lia. lia. }
    exists pi. split; [done|]. change nports with 32%nat in *. by replace (Nat.min c max) with max in Hpi by lia. }
  destruct (Z.eqb_spec (Z.shiftr pm (Z.of_nat c)) 0) as [E|E].
  { exists pi. split; [done|]. assert (∀ d, (Nat.min c max + d <= max)%nat → mask_ports pm (Nat.min c max + d) = mask_ports pm (Nat.min c max)) as H.
    { induction d as [|d IHd]; intros Hd; [by rewrite Nat.add_0_r|]. rewrite Nat.add_succ_r, mask_ports_S, IHd by lia.
      assert (Z.testbit pm (Z.of_nat (Nat.min c max + d)) = false) as ->; [|by rewrite app_nil_r].
      replace (Z.of_nat (Nat.min c max + d)) with (Z.of_nat (Nat.min c max + d - c) + Z.of_nat c) by lia.
      rewrite <- Z.shiftr_spec by lia. by rewrite E, Z.bits_0. }
    specialize (H (max - Nat.min c max)%nat ltac:(lia)). replace (Nat.min c max + (max - Nat.min c max))%nat with max in H by lia. by rewrite H. }
  rewrite Z.shiftr_shiftr by lia. replace (Z.of_nat c + 1) with (Z.of_nat (S c)) by lia. rewrite u8_small by (unfold is_u8; lia).
  assert (Z.land (Z.shiftr pm (Z.of_nat c)) 1 = if Z.testbit pm (Z.of_nat c) then 1 else 0) as ->.
  { change 1 with (Z.ones 1) at 1. rewrite Z.land_ones, Z.pow_1_r, <- Z.bit0_mod, Z.shiftr_spec, Z.add_0_l by lia. by destruct (Z.testbit pm (Z.of_nat c)). }
  destruct (Z.leb_spec (Z.of_nat max) (Z.of_nat c)) as [Hc|Hc].
  - replace (Nat.min c max) with (Nat.min (S c) max) in Hpi by lia. destruct (Z.testbit pm (Z.of_nat c)); apply IH; done || lia.
  - replace (Nat.min c max) with c in Hpi by lia. pose proof (mask_ports_S pm c) as HS.
    destruct (Z.testbit pm (Z.of_nat c)); cbn [Z.eqb].
    + destruct (add_port_id pi _ (Z.of_nat c) Hpi) as (ids & -> & Hids); [pose proof (mask_ports_length pm c); lia|]. cbn [mbind option_bind].
      apply IH; [lia|]. replace (Nat.min (S c) max) with (S c) by lia. by rewrite HS.
    + apply IH; [lia|]. replace (Nat.min (S c) max) with (S c) by lia. by rewrite HS, app_nil_r.
Qed.

(** The option [-p] with a hexadecimal mask selects exactly the existing ports
    whose bit is set, in ascending order; bits of ports that do not exist are
    ignored, text that is not a number and an empty mask are refused, and the
    array of ports is never left. *)
Theorem portmask_ports max (text : string) (Hmax : (max <= nports)%nat) :
  let '(pm, rest) := strtoul text 16 in
  ∃ ret pi, parse_portmask (Z.of_nat max) text no_ports = Some (ret, pi) ∧
    (if decide (text ≠ "" ∧ rest = "" ∧ pm ≠ 0) then ret = 0 ∧ holds_ports pi (mask_ports pm max)
     else ret = -1 ∧ pi = no_ports).
Proof.
  destruct (strtoul text 16) as [pm rest] eqn:E. unfold parse_portmask. rewrite E.
  destruct (String.eqb_spec text "") as [->|Ht]; [eexists _, _; split; [done|]; by rewrite decide_False by tauto|].
  destruct (String.eqb_spec rest "") as [->|Hr]; cbn [negb orb]; [|eexists _, _; split; [done|]; by rewrite decide_False by tauto].
  destruct (Z.eqb_spec pm 0) as [->|Hp]; [eexists _, _; split; [done|]; by rewrite decide_False by tauto|].
  assert (0 <= pm < 2 ^ 64) as Hpm by (pose proof (strtoul_range text 16 ltac:(lia)) as H; rewrite E in H; exact H).
  destruct (mask_loop_run max pm 64 0 no_ports Hmax Hpm eq_refl) as (pi & H & Hpi).
  { split_and!; [by rewrite <- (length_replicate nports 0)|done|done]. }
  change (Z.shiftr pm (Z.of_nat 0)) with pm in H. change (Z.of_nat 0) with 0 in H. rewrite H.
  eexists _, _. split; [done|]. by rewrite decide_True by done.
Qed.
Lemma portmask_ports_witness :
  ∃ ret pi, parse_portmask 4 "0x15" no_ports = Some (ret, pi) ∧ ret = 0 ∧ num_ports pi = 2 ∧ take 2 (id pi) = [0; 2].
Proof.
  pose proof (portmask_ports 4 "0x15" ltac:(vm_compute; lia)) as H. change (strtoul "0x15" 16) with (21, "") in H.
  destruct H as (ret & pi & E & H). rewrite decide_True in H by done. destruct H as [Hr (_ & Hn & Ht)].
  exists ret, pi. split; [exact E|]. split; [exact Hr|]. split; [exact Hn|exact Ht].
Defined.

(** ** Rings shared by the processes *)
Lemma rx_queue_names : names_ok get_rx_queue_name 1000.
Proof. split; [intros i Hi; by apply rx_queue_name_length|intros i j Hi Hj; by apply name_of_inj]. Qed.

(** The primary process and a secondary process agree on the rings of the
    clients: after the primary has created them (up to 255, with the memory it
    asks for), every process that runs the same initialisation as secondary
    finds, for each client, the very ring the primary created for it; these
    rings are different, empty and hold 127 packets. *)
Theorem shm_rings_shared {A} (zone : Z → memzone A) answer n e (Hn : 0 <= n <= 255) (Hok : env_ok e)
    (Hz : zones_ok zone get_rx_queue_name 7 1000 0 (Z.to_nat n) e) :
  ∃ rx_q e1, init_shm_rings true true (granted zone) n e = Some (inr (rx_q, e1)) ∧ length rx_q = Z.to_nat n ∧ NoDup rx_q ∧
    (∃ e2, init_shm_rings false true answer n e1 = Some (inr (rx_q, e2)) ∧ rings e2 = rings e1) ∧
    ∀ i a, rx_q !! i = Some a → named e1 (get_rx_queue_name (Z.of_nat i)) = Some a ∧
      ∃ r, rings e1 !! a = Some r ∧ bq_rep r 127 [].
Proof.
  set (flags := Z.lor RING_F_SP_ENQ RING_F_SC_DEQ).
  destruct (create_all zone _ 7 flags _ rx_queue_names ltac:(lia) (Z.to_nat n) 0 e Hok Hz) as (e1 & E1 & Hok1 & Hh & _).
  destruct (lookup_all zone _ 7 flags _ rx_queue_names answer (Z.to_nat n) 0 e1 Hok1 ltac:(lia) ltac:(lia) Hh) as (e2 & E2 & Hr & _).
  exists (addrs zone 0 (Z.to_nat n)), e1. unfold init_shm_rings, shm_rings_from. cbn [negb].
  change CLIENT_QUEUE_RINGSIZE with (2 ^ 7). fold flags. split_and!; [by rewrite E1|apply addrs_length|by eapply addrs_nodup|exists e2; by rewrite E2|].
  intros i a Ha. by apply (addrs_ring zone get_rx_queue_name 7 (Z.to_nat n)).
Qed.

Definition demo_zone (i : Z) : memzone Z := Memzone (4096 * (i + 1)) 0 (replicate 128 0).
Lemma shm_rings_shared_witness :
  ∃ rx_q e1, init_shm_rings true true (granted demo_zone) 3 (RingEnv [] ∅ 0) = Some (inr (rx_q, e1)) ∧ rx_q !! 2%nat = Some 12288 ∧
    ∃ e2, init_shm_rings false true (granted demo_zone) 3 e1 = Some (inr (rx_q, e2)).
Proof.
  destruct (shm_rings_shared demo_zone (granted demo_zone) 3 (RingEnv [] ∅ 0)) as (rx_q & e1 & H1 & H2 & H3 & (e2 & H4 & _) & _).
  - lia.
  - split; [apply NoDup_nil_2|intros a Ha; by apply elem_of_nil in Ha|intros a r Hr; simpl in Hr; by rewrite lookup_empty in Hr].
  - split; [simpl; lia|done| | |done].
    + intros k _. apply not_elem_of_nil.
    + intros k l _ _. unfold addr_of. simpl. lia.
  - exists rx_q, e1. split; [exact H1|]. split; [|exists e2; exact H4].
    vm_compute in H1. injection H1 as <- _. reflexivity.
Defined.
