(* ===== verification/PrimaryMain.v ===== *)
(** * The primary application: commands, statistics, links

    [examples/multi_process/patch_panel/pri_lvl1]: of [main.c] the commands of
    the controller and the sums of the statistics display, of [init.c] the wait
    for the links. The loop around the commands is that of [Session.v]. *)
From S2P Require Import Prelude CStr Ring RingSpec RingReg EthTable EthDev EthRing Platform Session Secondary RingPlatform Primary.
From Stdlib Require Import Ascii.
Open Scope Z_scope.

Definition MAX_CLIENTS : Z := 16.

(** ** Commands *)
Inductive cmd_type := STOP | START | ADD | DEL | READY.

Section commands.
Context {W A : Type} `{!Platform W A}.

(** The command [add ring]; [inl] is [rte_exit]. *)
Definition pri_add (w : W) (tokens : list string) : option (unit + W) :=
  t1 ← tokens !! 1%nat;
  if strcmp_eq t1 "ring" then
    t2 ← tokens !! 2%nat;
    r ← open_ring w From_ring_s0 (get_rx_queue_name (u32 (atoi t2)));
    match r with inl _ => Some (inl tt) | inr (_, w) => Some (inr w) end
  else Some (inr w).

(** One message, with the variable [cmd]. After [status] the first word has been
    overwritten by the reply, which is none of the later keywords. *)
Definition pri_message (sw : cmd_type * W) (str : string) : option (reaction (cmd_type * W)) :=
  let '(cmd, w) := sw in
  if MSG_SIZE <=? strlen str then None else
  let tokens := tokenize " " str in
  if MAX_PARAMETER <=? Z.of_nat (length tokens) then None else
  t0 ← tokens !! 0%nat;
  let reply := cut_first str in
  if strcmp_eq t0 "status" then
    Some (Answer sw ((match cmd with START => "Server Running" | _ => "Server Idling" end) +:+ String "010" ""))
  else if strcmp_eq t0 "exit" then Some (Leave (STOP, w))
  else if strcmp_eq t0 "start" then Some (Answer (START, w) reply)
  else if strcmp_eq t0 "stop" then Some (Answer (STOP, w) reply)
  else if strcmp_eq t0 "add" then
    r ← pri_add w tokens;
    match r with inl _ => Some Quit | inr w => Some (Answer (cmd, w) reply) end
  else if strcmp_eq t0 "del" then
    t1 ← tokens !! 1%nat;
    _ ← (if strcmp_eq t1 "ring" then tokens !! 2%nat else Some ""%string);
    Some (Answer (STOP, w) reply)
  else Some (Answer sw reply).
End commands.

Section on_rings.
Context {A : Type} `{!Inhabited A} (from_vhost : world (A := A) → string → Z → string → Z → option (Z * world (A := A))).
#[local] Instance pri_platform : Platform (world (A := A)) A := world_platform from_vhost.

(** The command on ports made of rings: the first free port is made of the ring,
    and no ring changes. *)
Lemma pri_add_ring (w : world (A := A)) cmd n i a : eth_ok (w_eth w) → env_ok (w_reg w) → w_mem w = enough → 0 <= n < 255 →
  named (w_reg w) (get_rx_queue_name n) = Some a → fst (spec_allocate (view (w_eth w)) (get_rx_queue_name n)) = Some i →
  ∃ w', pri_message (cmd, w) (add_text n) = Some (Answer (cmd, w') "add") ∧
    eth_ok (w_eth w') ∧ port_on w' (Z.of_nat i) a ∧ rings (w_reg w') = rings (w_reg w).
Proof.
  intros Hok Henv Hmem Hn Hring Hfree. destruct (add_text_spec n Hn) as (Htok & Hlen & Hat & Hcut & Hname).
  destruct (named_ring _ _ _ Hring) as (r & Hr & Hrn). rewrite <- Hrn in Hfree.
  destruct (ring_lookup_named (w_reg w) (get_rx_queue_name n) Henv Hname) as (e' & El & _ & Hre). rewrite Hring in El.
  destruct (world_from_ring_run (w <| w_reg := e' |>) From_ring_s0 a r i) as (e1 & Ew & Hok' & Hp & _);
    [done|done|simpl; by rewrite Hre|by rewrite Hrn|done|].
  exists (w <| w_reg := e' |> <| w_eth := e1 |>). split_and!; [|exact Hok'|exact Hp|exact Hre].
  unfold pri_message. destruct (Z.leb_spec MSG_SIZE (strlen (add_text n))); [lia|]. rewrite Htok, Hcut. simpl.
  unfold pri_add, open_ring. simpl. rewrite Hat, u32_small by (unfold is_u32; lia). rewrite El. simpl. by rewrite Ew.
Qed.
End on_rings.

(** ** The sums of the statistics display *)
Record tx_stats := TxStats { tx : list Z; tx_drop : list Z }.
(** [port_tx] and [client_tx], or [port_tx_drop] and [client_tx_drop]. *)
Record sums := Sums { by_port : list Z; by_client : list Z }.
Definition no_sums : sums := Sums (replicate (Z.to_nat RTE_MAX_ETHPORTS) 0) (replicate (Z.to_nat MAX_CLIENTS) 0).

(** [arr[i] += v] of 64-bit counters. *)
Definition add_at (arr : list Z) (i v : Z) : option (list Z) := x ← load arr i; store arr i (u64 (x + v)).
Definition stats_cell (ids vals : list Z) (i j : Z) (s : sums) : option sums :=
  p ← load ids j; v ← load vals p;
  bp ← add_at (by_port s) j v; bc ← add_at (by_client s) i v; Some (Sums bp bc).
(** The loop over the ports, from [j] on, and the loop over the clients. *)
Fixpoint stats_ports (n : nat) (ids : list Z) (t : tx_stats) (i j : Z) (sd : sums * sums) : option (sums * sums) :=
  match n with
  | O => Some sd
  | S n => s ← stats_cell ids (tx t) i j (fst sd); d ← stats_cell ids (tx_drop t) i j (snd sd); stats_ports n ids t i (j + 1) (s, d)
  end.
Fixpoint stats_clients (n : nat) (pi : port_info) (ts : list tx_stats) (i : Z) (sd : sums * sums) : option (sums * sums) :=
  match n with
  | O => Some sd
  | S n => t ← load ts i; sd ← stats_ports (Z.to_nat (num_ports pi)) (id pi) t i 0 sd; stats_clients n pi ts (i + 1) sd
  end.
Definition do_stats_sums (num_clients : Z) (pi : port_info) (ts : list tx_stats) : option (sums * sums) :=
  stats_clients (Z.to_nat num_clients) pi ts 0 (no_sums, no_sums).

(** What the sums are to be. [M] is the table of the counters, by client and
    place of the port; the totals are without wrapping. *)
Definition sum_from (f : nat → Z) (j n : nat) : Z := foldr (λ c, Z.add (f c)) 0 (seq j n).
Record sums_rep (s : sums) (P C : nat → Z) : Prop := {
  sr_ports : length (by_port s) = 32%nat;
  sr_clients : length (by_client s) = 16%nat;
  sr_port : ∀ c, (c < 32)%nat → by_port s !! c = Some (u64 (P c));
  sr_client : ∀ c, (c < 16)%nat → by_client s !! c = Some (u64 (C c)) }.
Lemma sums_rep_ext s P C P' C' : sums_rep s P C → (∀ c, P c = P' c) → (∀ c, C c = C' c) → sums_rep s P' C'.
Proof. intros [H1 H2 H3 H4] HP HC. split; [done..| |]; intros c Hc; [by rewrite <- HP, H3|by rewrite <- HC, H4]. Qed.
Lemma no_sums_rep : sums_rep no_sums (λ _, 0) (λ _, 0).
Proof. split; [done..| |]; intros c Hc; by apply lookup_replicate. Qed.

Lemma add_at_run arr (i : nat) v x : arr !! i = Some x → add_at arr (Z.of_nat i) v = Some (<[i := u64 (x + v)]> arr).
Proof. intros Hx. unfold add_at. pose proof (lookup_lt_Some _ _ _ Hx). rewrite load_nat, Hx. cbn. rewrite store_in by lia. by rewrite Nat2Z.id. Qed.
Lemma u64_add_l a b : u64 (u64 a + b) = u64 (a + b).
Proof. unfold u64. apply Zplus_mod_idemp_l. Qed.

(** The counter of a port of the list. *)
Definition cell (ids vals : list Z) (j : nat) : Z := default 0 (p ← ids !! j; vals !! Z.to_nat p).
Record ids_ok (ids vals : list Z) (n : nat) : Prop := {
  io_ids : (n <= length ids)%nat; io_vals : length vals = 32%nat; io_few : (n <= 32)%nat;
  io_id : ∀ j p, (j < n)%nat → ids !! j = Some p → 0 <= p < 32 }.
Lemma stats_cell_run ids vals n i j s P C : ids_ok ids vals n → (j < n)%nat → (i < 16)%nat → sums_rep s P C →
  ∃ s', stats_cell ids vals (Z.of_nat i) (Z.of_nat j) s = Some s' ∧
    sums_rep s' (λ c, P c + if decide (c = j) then cell ids vals j else 0) (λ c, C c + if decide (c = i) then cell ids vals j else 0).
Proof.
  intros [Hids Hvals Hn Hid] Hj Hi [Hl1 Hl2 Hp Hc]. destruct (lookup_lt_is_Some_2 ids j) as [p Hip]; [lia|].
  pose proof (Hid _ _ Hj Hip) as Hpr. destruct (load_in vals p) as (v & Hlv & Hv); [lia|].
  assert (cell ids vals j = v) as -> by (unfold cell; by rewrite Hip; cbn; rewrite Hv).
  unfold stats_cell. rewrite load_nat, Hip. cbn [mbind option_bind]. rewrite Hlv. cbn [mbind option_bind].
  rewrite (add_at_run (by_port s) j v (u64 (P j))) by (apply Hp; lia). cbn [mbind option_bind].
  rewrite (add_at_run (by_client s) i v (u64 (C i))) by (apply Hc; lia). cbn [mbind option_bind]. eexists. split; [done|].
  split; cbn; rewrite ?length_insert; [done..| |]; intros c Hlt; case_decide as E; subst;
    rewrite ?list_lookup_insert_eq, ?list_lookup_insert_ne, ?u64_add_l, ?Z.add_0_r by (lia || done); by auto.
Qed.

Lemma sum_from_S f j n : sum_from f j (S n) = f j + sum_from f (S j) n.
Proof. done. Qed.
Lemma sum_from_snoc f j n : sum_from f j (S n) = sum_from f j n + f (j + n)%nat.
Proof.
  revert j. induction n as [|n IH]; intros j; [unfold sum_from; cbn; rewrite Nat.add_0_r; lia|].
  rewrite sum_from_S, IH, (sum_from_S f j n), <- Nat.add_succ_comm. lia.
Qed.

(** A row: the counters of client [i], from the port at place [j] on. *)
Definition row_ports (P M : nat → Z) (j n c : nat) : Z := P c + if decide (j <= c < j + n)%nat then M c else 0.
Definition row_client (C : nat → Z) (i : nat) (v : Z) (c : nat) : Z := C c + if decide (c = i) then v else 0.
Lemma stats_ports_run ids t np i s d P C Q D n j : ids_ok ids (tx t) np → ids_ok ids (tx_drop t) np → (i < 16)%nat → (j + n <= np)%nat →
  sums_rep s P C → sums_rep d Q D →
  ∃ s' d', stats_ports n ids t (Z.of_nat i) (Z.of_nat j) (s, d) = Some (s', d') ∧
    sums_rep s' (row_ports P (cell ids (tx t)) j n) (row_client C i (sum_from (cell ids (tx t)) j n)) ∧
    sums_rep d' (row_ports Q (cell ids (tx_drop t)) j n) (row_client D i (sum_from (cell ids (tx_drop t)) j n)).
Proof.
  intros Ht Hd Hi. revert s d P C Q D j. induction n as [|n IH]; intros s d P C Q D j Hj Hs Hr; cbn [stats_ports fst snd].
  { exists s, d. split; [done|]. unfold row_ports, row_client, sum_from. cbn.
    split; (eapply sums_rep_ext; [eassumption|intros c; rewrite decide_False by lia; lia|intros c; case_decide; lia]). }
  destruct (stats_cell_run ids (tx t) np i j s P C Ht ltac:(lia) Hi Hs) as (s1 & -> & Hs1). cbn [mbind option_bind].
  destruct (stats_cell_run ids (tx_drop t) np i j d Q D Hd ltac:(lia) Hi Hr) as (d1 & -> & Hd1). cbn [mbind option_bind fst snd].
  replace (Z.of_nat j + 1) with (Z.of_nat (S j)) by lia. destruct (IH _ _ _ _ _ _ (S j) ltac:(lia) Hs1 Hd1) as (s' & d' & -> & Hs' & Hd').
  exists s', d'. split; [done|]. rewrite !sum_from_S.
  split; (eapply sums_rep_ext; [eassumption| |]); unfold row_ports, row_client; intros c; repeat case_decide; subst; lia.
Qed.

Section display.
Context (pi : port_info) (ts : list tx_stats) (np : nat).
Record stats_ok : Prop := {
  so_ports : num_ports pi = Z.of_nat np;
  so_clients : length ts = Z.to_nat MAX_CLIENTS;
  so_row : ∀ i t, ts !! i = Some t → ids_ok (id pi) (tx t) np ∧ ids_ok (id pi) (tx_drop t) np }.
(** The counter [get] of client [i] for the port at place [j]. *)
Definition counter (get : tx_stats → list Z) (i j : nat) : Z := default 0 (t ← ts !! i; Some (cell (id pi) (get t) j)).
(** The totals after the first [n] clients. *)
Definition port_total (M : nat → nat → Z) (n c : nat) : Z := if decide (c < np)%nat then sum_from (λ i, M i c) 0 n else 0.
Definition client_total (M : nat → nat → Z) (n c : nat) : Z := if decide (c < n)%nat then sum_from (M c) 0 np else 0.

Lemma totals_row M s i t get : ts !! i = Some t → (∀ i j, M i j = counter get i j) →
  sums_rep s (row_ports (port_total M i) (cell (id pi) (get t)) 0 np) (row_client (client_total M i) i (sum_from (cell (id pi) (get t)) 0 np)) →
  sums_rep s (port_total M (S i)) (client_total M (S i)).
Proof.
  intros Ht HM Hs. assert (∀ j, cell (id pi) (get t) j = M i j) as Hcell by (intros j; rewrite HM; unfold counter; by rewrite Ht).
  assert (sum_from (cell (id pi) (get t)) 0 np = sum_from (M i) 0 np) as Hsum.
  { unfold sum_from. induction (seq 0 np) as [|c l IH]; [done|]. cbn. by rewrite IH, Hcell. }
  eapply sums_rep_ext; [exact Hs| |]; intros c; unfold row_ports, row_client, port_total, client_total.
  - rewrite sum_from_snoc, Hcell. repeat case_decide; lia || done.
  - rewrite Hsum. repeat case_decide; subst; lia || done.
Qed.
Lemma stats_clients_run (Hok : stats_ok) n i s d : (i + n <= 16)%nat →
  sums_rep s (port_total (counter tx) i) (client_total (counter tx) i) → sums_rep d (port_total (counter tx_drop) i) (client_total (counter tx_drop) i) →
  ∃ s' d', stats_clients n pi ts (Z.of_nat i) (s, d) = Some (s', d') ∧
    sums_rep s' (port_total (counter tx) (i + n)) (client_total (counter tx) (i + n)) ∧
    sums_rep d' (port_total (counter tx_drop) (i + n)) (client_total (counter tx_drop) (i + n)).
Proof.
  revert i s d. induction n as [|n IH]; intros i s d Hi Hs Hd; cbn [stats_clients]; [rewrite Nat.add_0_r; eauto|].
  destruct (lookup_lt_is_Some_2 ts i) as [t Ht]; [rewrite (so_clients Hok); change (Z.to_nat MAX_CLIENTS) with 16%nat; lia|]. rewrite load_nat, Ht. cbn [mbind option_bind].
  destruct (so_row Hok i t Ht) as [Ht1 Ht2]. rewrite (so_ports Hok), Nat2Z.id.
  destruct (stats_ports_run (id pi) t np i s d _ _ _ _ np 0 Ht1 Ht2 ltac:(lia) ltac:(lia) Hs Hd) as (s1 & d1 & E & Hs1 & Hd1).
  change (Z.of_nat 0) with 0 in E. rewrite E. cbn [mbind option_bind]. replace (Z.of_nat i + 1) with (Z.of_nat (S i)) by lia.
  rewrite <- Nat.add_succ_comm. apply IH; [lia|by eapply totals_row|by eapply totals_row].
Qed.
(** With more clients than there are places the table of the counters is left. *)
Lemma stats_clients_out (Hok : stats_ok) n i s d : (i <= 16 < i + n)%nat →
  sums_rep s (port_total (counter tx) i) (client_total (counter tx) i) → sums_rep d (port_total (counter tx_drop) i) (client_total (counter tx_drop) i) →
  stats_clients n pi ts (Z.of_nat i) (s, d) = None.
Proof.
  revert i s d. induction n as [|n IH]; intros i s d Hi Hs Hd; [lia|]. destruct (decide (i = 16)%nat) as [->|Hne].
  { cbn [stats_clients]. by rewrite load_out by (right; rewrite (so_clients Hok); done). }
  destruct (stats_clients_run Hok 1 i s d ltac:(lia) Hs Hd) as (s1 & d1 & E & Hs1 & Hd1). rewrite Nat.add_1_r in Hs1, Hd1. cbn [stats_clients] in E |- *.
  destruct (load ts (Z.of_nat i)) as [t|]; [|done]. cbn [mbind option_bind] in E |- *.
  destruct (stats_ports _ _ _ _ _ _) as [sd|]; [|done]. cbn in E |- *. injection E as ->.
  replace (Z.of_nat i + 1) with (Z.of_nat (S i)) by lia. apply IH; [lia|done|done].
Qed.
End display.

(** The statistics display adds up exactly, and only for up to 16 clients. With
    [n] clients of at most 16 and at most 32 ports the totals shown are, modulo
    [2^64], for each port the sum over the clients and for each client the sum
    over the ports of the counters, of packets sent and of packets dropped alike.
    With more clients, which the arguments allow, it reads past the counters. *)
Theorem stats_display_sums (n np : nat) (pi : port_info) (ts : list tx_stats) : stats_ok pi ts np →
  if decide (n <= 16)%nat then
    ∃ s d, do_stats_sums (Z.of_nat n) pi ts = Some (s, d) ∧
      ∀ r get, (r, get) = (s, tx) ∨ (r, get) = (d, tx_drop) →
        (∀ j, (j < np)%nat → by_port r !! j = Some (u64 (sum_from (λ i, counter pi ts get i j) 0 n))) ∧
        (∀ i, (i < n)%nat → by_client r !! i = Some (u64 (sum_from (counter pi ts get i) 0 np)))
  else do_stats_sums (Z.of_nat n) pi ts = None.
Proof.
  intros Hok. unfold do_stats_sums. rewrite Nat2Z.id.
  assert (∀ M, sums_rep no_sums (port_total np M 0) (client_total np M 0)) as H0.
  { intros M. eapply sums_rep_ext; [apply no_sums_rep|intros c; unfold port_total; by case_decide|done]. }
  case_decide as Hn; [|apply (stats_clients_out pi ts np Hok n 0); [lia|done|done]].
  destruct (stats_clients_run pi ts np Hok n 0 _ _ Hn (H0 _) (H0 _)) as (s & d & E & Hs & Hd). exists s, d. split; [exact E|].
  assert (np <= 32)%nat as Hnp by (destruct (lookup_lt_is_Some_2 ts 0) as [t Ht]; [rewrite (so_clients _ _ _ Hok); vm_compute; lia|apply (so_row _ _ _ Hok _ _ Ht)]).
  intros r get Hr. assert (sums_rep r (port_total np (counter pi ts get) n) (client_total np (counter pi ts get) n)) as [_ _ Hp Hc].
  { destruct Hr as [[= -> ->]|[= -> ->]]; assumption. }
  split; [intros j Hj; rewrite Hp by lia; unfold port_total|intros i Hi; rewrite Hc by lia; unfold client_total]; by rewrite decide_True.
Qed.

Definition ex_ports : port_info := PortInfo 2 ([4; 7] ++ replicate 30 0).
Definition ex_row (a b : Z) : tx_stats := TxStats (<[7%nat := b]> (<[4%nat := a]> (replicate 32 0))) (replicate 32 1).
Definition ex_stats : list tx_stats := [ex_row 10 20; ex_row (2 ^ 64 - 1) 5] ++ replicate 14 (ex_row 0 0).
Lemma ex_stats_ok : stats_ok ex_ports ex_stats 2.
Proof.
  split; [done..|]. intros i t Ht.
  assert (length (tx t) = 32%nat ∧ length (tx_drop t) = 32%nat) as [H1 H2].
  { apply list_elem_of_lookup_2 in Ht. unfold ex_stats in Ht. apply elem_of_app in Ht as [Ht|[-> _]%elem_of_replicate]; [|done].
    apply elem_of_cons in Ht as [->|[->|[]%not_elem_of_nil]%elem_of_cons]; done. }
  split; (split; [cbn; lia|assumption|lia|]); intros [|[|j]] p Hj; cbn; intros E; simplify_eq; lia.
Qed.
Lemma stats_display_sums_witness : ∃ s d, do_stats_sums 2 ex_ports ex_stats = Some (s, d) ∧
  by_port s !! 0%nat = Some 9 ∧ by_client s !! 0%nat = Some 30 ∧ by_port d !! 1%nat = Some 2.
Proof.
  destruct (stats_display_sums 2 2 ex_ports ex_stats ex_stats_ok) as (s & d & E & H). exists s, d.
  destruct (H s tx) as [H1 H2]; [left; reflexivity|]. destruct (H d tx_drop) as [H3 _]; [right; reflexivity|].
  split; [exact E|]. split; [exact (H1 0%nat ltac:(lia))|]. split; [exact (H2 0%nat ltac:(lia))|exact (H3 1%nat ltac:(lia))].
Defined.

(** ** Waiting for the links *)
Definition MAX_CHECK_TIME : Z := 90.

Section links.
(** [link r p] is what [rte_eth_link_get_nowait] says of port [p] in round [r]; the
    ports are the first [port_num] of [ports->id]. *)
Context (link : Z → Z → rte_eth_link) (port_mask : Z) (ports : list Z).

Definition in_mask (p : Z) : bool := negb (Z.land port_mask (Z.shiftl 1 p) =? 0).
(** The inner loop, while nothing is printed: it stops at the first port that is
    down. *)
Fixpoint all_ports_up (r : Z) (ps : list Z) : bool :=
  match ps with
  | [] => true
  | p :: ps => if negb (in_mask p) then all_ports_up r ps else if link_status (link r p) =? 0 then false else all_ports_up r ps
  end.
(** The inner loop when it prints. *)
Definition print_links (r : Z) : list (Z * rte_eth_link) := (λ p, (p, link r p)) <$> filter (λ p, in_mask p = true) ports.
(** The rounds from [count] on: what is printed and the number of delays of 100 ms.
    [fuel] is the number of rounds left. *)
Fixpoint check_rounds (fuel : nat) (count : Z) (print_flag : bool) (delays : Z) : option (list (Z * rte_eth_link) * Z) :=
  if MAX_CHECK_TIME <? count then Some ([], delays) else
  match fuel with
  | O => None
  | S f =>
      if print_flag then Some (print_links count, delays) else
      let up := all_ports_up count ports in
      check_rounds f (u8 (count + 1)) (up || (count =? MAX_CHECK_TIME - 1)) (if up then delays else delays + 1)
  end.
Definition check_all_ports_link_status : option (list (Z * rte_eth_link) * Z) := check_rounds 92 0 false 0.

Definition links_up (r : Z) : Prop := ∀ p, p ∈ ports → in_mask p = true → link_status (link r p) ≠ 0.
Lemma all_ports_up_spec r : all_ports_up r ports = true ↔ links_up r.
Proof.
  unfold links_up. induction ports as [|p ps IH]; cbn; [split; [intros _ p []%not_elem_of_nil|done]|].
  destruct (in_mask p) eqn:Em; cbn; [|rewrite IH; split; intros H q Hq; [apply elem_of_cons in Hq as [->|Hq]; [congruence|by apply H]|apply H; by right]].
  destruct (Z.eqb_spec (link_status (link r p)) 0) as [E|E].
  - split; [done|]. intros H. exfalso. apply (H p); [left|done|done].
  - rewrite IH. split; intros H q Hq; [apply elem_of_cons in Hq as [->|Hq]; [done|by apply H]|apply H; by right].
Qed.
Lemma check_rounds_run k fuel c : (c <= k)%nat → (k <= 89)%nat → (k - c + 2 <= fuel)%nat →
  (∀ r, (c <= r < k)%nat → all_ports_up (Z.of_nat r) ports = false) → all_ports_up (Z.of_nat k) ports = true ∨ k = 89%nat →
  ∀ delays, check_rounds fuel (Z.of_nat c) false delays =
    Some (print_links (Z.of_nat k + 1), delays + Z.of_nat (k - c) + if all_ports_up (Z.of_nat k) ports then 0 else 1).
Proof.
  intros Hc Hk Hf Hdown Hend. remember (k - c)%nat as n eqn:En. revert fuel c Hc Hf Hdown En.
  induction n as [|n IH]; intros fuel c Hc Hf Hdown En delays.
  - replace c with k in * by lia. destruct fuel as [|[|f]]; [lia..|]. cbn [check_rounds].
    rewrite (proj2 (Z.ltb_ge _ _)) by (unfold MAX_CHECK_TIME; lia). rewrite u8_small by (unfold is_u8; lia).
    assert (all_ports_up (Z.of_nat k) ports || (Z.of_nat k =? MAX_CHECK_TIME - 1) = true) as ->.
    { destruct Hend as [-> | ->]; [done|]. by rewrite orb_true_r. }
    rewrite (proj2 (Z.ltb_ge _ _)) by (unfold MAX_CHECK_TIME; lia). f_equal. f_equal. destruct (all_ports_up (Z.of_nat k) ports); lia.
  - destruct fuel as [|f]; [lia|]. cbn [check_rounds]. rewrite (proj2 (Z.ltb_ge _ _)) by (unfold MAX_CHECK_TIME; lia).
    rewrite u8_small by (unfold is_u8; lia). rewrite (Hdown c) by lia. cbn [orb]. rewrite (proj2 (Z.eqb_neq _ _)) by (unfold MAX_CHECK_TIME; lia).
    replace (Z.of_nat c + 1) with (Z.of_nat (S c)) by lia. rewrite (IH f (S c)); [|lia|lia|intros r Hr; apply Hdown; lia|lia].
    f_equal. f_equal. lia.
Qed.
End links.

(** The first round up to [n] in which [f] holds, or [n]. *)
Lemma first_round (f : nat → bool) n : ∃ k, (k <= n)%nat ∧ (∀ r, (r < k)%nat → f r = false) ∧ (f k = true ∨ k = n).
Proof.
  induction n as [|n (k & Hk & Hdown & Hend)]; [exists 0%nat; split_and!; [lia|lia|by right]|].
  destruct (f k) eqn:E; [exists k; split_and!; [lia|done|by left]|]. destruct Hend as [|Hend]; [done|]. subst k.
  exists (S n). split_and!; [lia| |by right]. intros r Hr. destruct (decide (r = n)) as [->|]; [done|apply Hdown; lia].
Qed.

(** The wait for the links ends, after at most 90 delays (9 s): it goes on in
    the first round [k] in which every port of the mask is up, or in the last one
    ([k] = 89), having waited once for each earlier round, and in the next round it
    reports the state of every port of the mask, in the order of the list. *)
Theorem link_wait_ends (link : Z → Z → rte_eth_link) (port_mask : Z) (ports : list Z) :
  ∃ k delays, check_all_ports_link_status link port_mask ports = Some (print_links link port_mask ports (k + 1), delays) ∧
    0 <= k <= 89 ∧ (∀ r, 0 <= r < k → ¬ links_up link port_mask ports r) ∧
    (links_up link port_mask ports k ∧ delays = k ∨ k = 89 ∧ delays = 90).
Proof.
  destruct (first_round (λ r, all_ports_up link port_mask (Z.of_nat r) ports) 89) as (k & Hk & Hdown & Hend).
  eexists (Z.of_nat k), _. split_and!; [apply (check_rounds_run link port_mask ports k 92 0); auto with lia|lia|lia| |].
  - intros r Hr Hup%all_ports_up_spec. specialize (Hdown (Z.to_nat r) ltac:(lia)). rewrite Z2Nat.id in Hdown by lia. congruence.
  - destruct (all_ports_up link port_mask (Z.of_nat k) ports) eqn:E; [left; split; [by apply all_ports_up_spec|lia]|].
    destruct Hend as [|Hend]; [done|]. subst k. right. split; done.
Qed.

(** ** The shared list of ports

    A process started as secondary parses its option [-p] into the list the
    primary process filled, without emptying it. *)
Example ports_accumulate : (λ r, (num_ports (snd r), take 4 (id (snd r)))) <$> (r ← parse_portmask 4 "3" no_ports; parse_portmask 4 "3" (snd r)) = Some (4, [0; 1; 0; 1]).
Proof. vm_compute. reflexivity. Qed.
