(* ===== verification/SecMemcpy.v ===== *)
(** * The copying secondary application

    [examples/multi_process/patch_panel/sec_memcpy/sec_memcpy.c]: instead of
    handing a received buffer on, it copies the packet into a buffer of the
    pool of the output port, and returns the received buffer to its own pool,
    so that each port only ever sees buffers of its own memory. Buffers are at
    addresses; their pools are those of [Mempool.v]. *)
From S2P Require Import Prelude CStr BurstQueue Ring RingSpec Mempool MempoolInit EthTable Platform Secondary.
Open Scope Z_scope.

(** What the code uses of [struct rte_mbuf]; [next] is NULL or a buffer. *)
Record rte_mbuf := Mbuf {
  m_pool : Z; m_buf : list Z; data_off : Z; data_len : Z; m_port : Z; vlan_tci : Z; tx_offload : Z; m_hash : Z;
  m_next : option Z; pkt_len : Z; nb_segs : Z; ol_flags : Z; packet_type : Z }.
#[export] Instance mbuf_upd : Updatable rte_mbuf := λ m,
  Mbuf (m_pool m) (m_buf m) (data_off m) (data_len m) (m_port m) (vlan_tci m) (tx_offload m) (m_hash m)
       (m_next m) (pkt_len m) (nb_segs m) (ol_flags m) (packet_type m).

(** The bytes of the packet in the buffer: [data_len] from
    [rte_pktmbuf_mtod] on. *)
Definition packet (m : rte_mbuf) : list Z := take (Z.to_nat (data_len m)) (drop (Z.to_nat (data_off m)) (m_buf m)).

(** One round of the loop. *)
Definition copy_mbuf (rxm txm : rte_mbuf) : option rte_mbuf :=
  let txm := txm <| data_off := data_off rxm |> <| data_len := data_len rxm |> <| m_port := m_port rxm |>
                 <| vlan_tci := vlan_tci rxm |> <| tx_offload := tx_offload rxm |> <| m_hash := m_hash rxm |>
                 <| m_next := None |> <| pkt_len := pkt_len rxm |> <| nb_segs := nb_segs rxm |>
                 <| ol_flags := ol_flags rxm |> <| packet_type := packet_type rxm |> in
  buf ← copy_cells (m_buf txm) (data_off txm) (m_buf rxm) (data_off rxm) 1 (Z.to_nat (data_len rxm));
  Some (txm <| m_buf := buf |>).

Notation mbufs := (gmap Z rte_mbuf).
Fixpoint copy_loop (n : nat) (i : Z) (rxm txm : list Z) (mb : mbufs) : option mbufs :=
  match n with
  | O => Some mb
  | S n =>
      r ← load rxm i; t ← load txm i;
      mr ← mb !! r; mt ← mb !! t;
      mt ← copy_mbuf mr mt;
      copy_loop n (i + 1) rxm txm (<[t := mt]> mb)
  end.

(** The buffers and the pools, by address. *)
Record copy_env := CopyEnv { bufs : mbufs; pools : gmap Z pool }.
#[export] Instance copy_env_upd : Updatable copy_env := λ e, CopyEnv (bufs e) (pools e).

(** [rte_mempool_put_bulk(rxm[0]->pool, rxm, nb_mbuf)]. *)
Definition put_back (e : copy_env) (lcore : Z) (rxm : list Z) (nb_mbuf : Z) : option copy_env :=
  r ← load rxm 0; m ← bufs e !! r; p ← pools e !! m_pool m;
  p ← rte_mempool_put_bulk p lcore rxm nb_mbuf;
  Some (e <| pools := <[m_pool m := p]> (pools e) |>).

(** [pktmbuf_pool] is NULL or a pool; [txm] is the array for the new buffers. *)
Definition copy_mbufs (e : copy_env) (lcore : Z) (pktmbuf_pool : option Z) (nb_mbuf : Z) (rxm txm : list Z)
    : option (Z * list Z * copy_env) :=
  let nb_mbuf := u8 nb_mbuf in
  tp ← pktmbuf_pool; p ← pools e !! tp;
  '(ret, txm, p) ← rte_mempool_get_bulk p lcore txm nb_mbuf;
  let e := e <| pools := <[tp := p]> (pools e) |> in
  if negb (ret =? 0) then
    e ← put_back e lcore rxm nb_mbuf; Some (-1, txm, e)
  else
    mb ← copy_loop (Z.to_nat nb_mbuf) 0 rxm txm (bufs e);
    e ← put_back (e <| bufs := mb |>) lcore rxm nb_mbuf; Some (1, txm, e).

(** ** The packet loop and the commands

    [copy] stands for [copy_mbufs] on the platform's state: the copies, or
    [None] inside when there were no buffers (and the packets are back in
    their pool). [tx_pools] is indexed by the output port; buffers that were
    not sent go back with [rte_mempool_put]. *)
Section forward.
Context {W A : Type} `{!Platform W A}.
Variable (copy : W → option Z → list A → option (option (list A) * W)).

Definition memcpy_forward_port (tx_pools : list (option Z)) (ports : list port) (i : Z) (w : W) : option (list (moved (A := A)) * W) :=
  p ← load ports i;
  if (0 <=? status p) && (0 <=? out_port_id p) then
    if negb (rx_func p) then None else
    '(bufs, w) ← rx_burst w i MAX_PKT_BURST;
    if (length bufs =? 0)%nat then Some ([], w) else
    tp ← load tx_pools (out_port_id p);
    '(m, w) ← copy w tp bufs;
    match m with
    | None => Some ([], w)
    | Some m =>
        q ← load ports (out_port_id p);
        if negb (tx_func q) then None else
        '(nb_tx, w) ← tx_burst w (out_port_id p) m;
        let unsent := drop (Z.to_nat nb_tx) m in
        w ← free_all w unsent;
        Some ([Moved i (out_port_id p) (take (Z.to_nat nb_tx) m) unsent], w)
    end
  else Some ([], w).
Fixpoint memcpy_forward_from (tx_pools : list (option Z)) (ports : list port) (fuel : nat) (i : Z) (w : W) : option (list moved * W) :=
  match fuel with
  | O => Some ([], w)
  | S f =>
      '(es, w) ← memcpy_forward_port tx_pools ports i w;
      '(es', w) ← memcpy_forward_from tx_pools ports f (i + 1) w;
      Some (es ++ es', w)
  end.
Definition memcpy_forward (tx_pools : list (option Z)) (ports : list port) (w : W) : option (list moved * W) :=
  memcpy_forward_from tx_pools ports nports 0 w.

(** The branch [pool] of the command [add tx]. *)
Definition add_tx_pool (w : W) (tx_pools : list (option Z)) (tokens : list string) : option (list (option Z)) :=
  t3 ← word tokens 3;
  mp ← lookup_pool w t3;
  t4 ← word tokens 4;
  match mp with
  | None => Some tx_pools
  | Some mp => store tx_pools (u16 (atoi t4)) (Some mp)
  end.
End forward.

(** ** Copying is exact *)

(** What a copy shares with its packet, apart from the bytes. *)
Definition metadata (m : rte_mbuf) :=
  (data_off m, data_len m, m_port m, vlan_tci m, tx_offload m, m_hash m, pkt_len m, nb_segs m, ol_flags m, packet_type m).
(** The packet lies in its buffer, and there is room for it in the other. *)
Definition fits (mr mt : rte_mbuf) : Prop :=
  0 <= data_off mr ∧ 0 <= data_len mr ∧ data_off mr + data_len mr <= Z.of_nat (length (m_buf mr)) ∧
  data_off mr + data_len mr <= Z.of_nat (length (m_buf mt)).
Definition copies (mr mt mt' : rte_mbuf) : Prop :=
  packet mt' = packet mr ∧ metadata mt' = metadata mr ∧ m_next mt' = None ∧ m_pool mt' = m_pool mt ∧
  length (m_buf mt') = length (m_buf mt).

Lemma copy_mbuf_run mr mt : fits mr mt → ∃ mt', copy_mbuf mr mt = Some mt' ∧ copies mr mt mt'.
Proof.
  intros (H0 & H1 & Hr & Ht). unfold copy_mbuf. simpl.
  assert (length (packet mr) = Z.to_nat (data_len mr)) as Hl by (unfold packet; rewrite length_take, length_drop; lia).
  rewrite <- Hl. rewrite (copy_cells_run (m_buf mt) (m_buf mr) (packet mr)); [|lia|rewrite Hl; lia|].
  - eexists. split; [done|]. unfold copies, packet at 1; simpl. split_and!; try done.
    + rewrite drop_app_length' by (rewrite length_take; lia). by rewrite take_app_length' by done.
    + rewrite !length_app, length_take, length_drop. lia.
  - intros j x Hj. unfold packet in Hj. apply lookup_take_Some in Hj as [Hj Hlt]. rewrite lookup_drop in Hj.
    destruct (load_in (m_buf mr) (data_off mr + 1 * Z.of_nat j)) as (y & Hy & Hy'); [lia|]. rewrite Hy, <- Hj, <- Hy'. f_equal. lia.
Qed.

Definition within (k n j : nat) : Prop := (k <= j < k + n)%nat.

(** What the loop needs of the rounds [k] to [k + n]. *)
Record loop_ok (k n : nat) (rxm txm : list Z) (mb : mbufs) : Prop := {
  lo_rx : (k + n <= length rxm)%nat; lo_tx : (k + n <= length txm)%nat;
  lo_fits : ∀ j r t, within k n j → rxm !! j = Some r → txm !! j = Some t →
    ∃ mr mt, mb !! r = Some mr ∧ mb !! t = Some mt ∧ fits mr mt;
  lo_apart : ∀ i j a, within k n i → within k n j → rxm !! i = Some a → txm !! j ≠ Some a;
  lo_inj : ∀ i j a, within k n i → within k n j → txm !! i = Some a → txm !! j = Some a → i = j }.
Definition loop_done (k n : nat) (rxm txm : list Z) (mb mb' : mbufs) : Prop :=
  (∀ j r t, within k n j → rxm !! j = Some r → txm !! j = Some t →
    ∃ mr mt mt', mb !! r = Some mr ∧ mb !! t = Some mt ∧ mb' !! t = Some mt' ∧ copies mr mt mt') ∧
  (∀ x, (∀ j, within k n j → txm !! j ≠ Some x) → mb' !! x = mb !! x).

Lemma loop_ok_next k n rxm txm mb t mt' : loop_ok k (S n) rxm txm mb → txm !! k = Some t → loop_ok (S k) n rxm txm (<[t := mt']> mb).
Proof.
  unfold within. intros [H1 H2 H3 H4 H5] Ht. split; try lia.
  - intros j r t' Hj Hr Ht'. unfold within in Hj. destruct (H3 j r t' ltac:(unfold within; lia) Hr Ht') as (mr & mt & Hmr & Hmt & Hf).
    exists mr, mt. rewrite !lookup_insert_ne; [done| |]; intros ->; [|by eapply (H4 j k r) in Hr; unfold within in *; try lia].
    assert (k = j) by (eapply H5; [| |exact Ht|exact Ht']; unfold within; lia). lia.
  - unfold within. intros i j a Hi Hj. apply H4; unfold within; lia.
  - unfold within. intros i j a Hi Hj. apply H5; unfold within; lia.
Qed.

Lemma copy_loop_run n k rxm txm mb : loop_ok k n rxm txm mb →
  ∃ mb', copy_loop n (Z.of_nat k) rxm txm mb = Some mb' ∧ loop_done k n rxm txm mb mb'.
Proof.
  revert k mb. induction n as [|n IH]; intros k mb Hok; cbn [copy_loop].
  { exists mb. split; [done|]. split; [|done]. unfold within. intros j r t Hj. lia. }
  pose proof (lo_rx _ _ _ _ _ Hok) as Hlr. pose proof (lo_tx _ _ _ _ _ Hok) as Hlt.
  destruct (load_in rxm (Z.of_nat k)) as (r & -> & Hr); [lia|]. destruct (load_in txm (Z.of_nat k)) as (t & -> & Ht); [lia|].
  rewrite Nat2Z.id in Hr, Ht. cbn [mbind option_bind].
  destruct (lo_fits _ _ _ _ _ Hok k r t ltac:(unfold within; lia) Hr Ht) as (mr & mt & Hmr & Hmt & Hf). rewrite Hmr, Hmt. cbn [mbind option_bind].
  destruct (copy_mbuf_run mr mt Hf) as (mt' & -> & Hc). cbn [mbind option_bind].
  destruct (IH (S k) _ (loop_ok_next _ _ _ _ _ t mt' Hok Ht)) as (mb' & E & Hdone & Hkeep).
  rewrite Nat2Z.inj_succ in E. unfold Z.succ in E. exists mb'. split; [done|]. split.
  - unfold within. intros j r' t' Hj Hr' Ht'. destruct (decide (j = k)) as [->|Hne].
    + assert (r' = r) as -> by congruence. assert (t' = t) as -> by congruence. exists mr, mt, mt'. split_and!; try done.
      rewrite Hkeep; [apply lookup_insert_eq|]. intros i Hi Hti. unfold within in Hi. assert (k = i); [|lia].
      eapply (lo_inj _ _ _ _ _ Hok); [| |exact Ht|exact Hti]; unfold within; lia.
    + assert (within (S k) n j) as Hj' by (unfold within in *; lia). destruct (Hdone j r' t' Hj' Hr' Ht') as (mr' & mt1 & mt2 & H1 & H2 & H3 & H4). exists mr', mt1, mt2.
      assert (t ≠ r') by (intros ->; by eapply (lo_apart _ _ _ _ _ Hok j k r'); unfold within; try lia).
      assert (t ≠ t') by (intros ->; assert (k = j); [eapply (lo_inj _ _ _ _ _ Hok); [| |exact Ht|exact Ht']; unfold within; lia|lia]).
      by rewrite lookup_insert_ne in H1, H2.
  - intros x Hx. rewrite Hkeep by (unfold within in *; intros j Hj; apply Hx; lia).
    apply lookup_insert_ne. intros ->. by apply (Hx k); [unfold within; lia|].
Qed.

(** The two pools: buffers to send are free in the pool [tp] of the output
    port; the received ones are in use, and the first of them is of another
    pool [rp]. *)
Record copy_ok (e : copy_env) (tp rp : Z) (pt pr : pool) (capt capr : Z) (freet freer : list Z) (n : Z) (rxm txm : list Z) : Prop := {
  co_pools : tp ≠ rp; co_tx : pools e !! tp = Some pt; co_rx : pools e !! rp = Some pr;
  co_freet : pool_rep pt capt freet; co_freer : pool_rep pr capr freer; co_nodup : NoDup freet;
  co_n : 0 < n < 256; co_rxm : n <= Z.of_nat (length rxm); co_txm : n <= Z.of_nat (length txm);
  co_room : Z.of_nat (length freer) + n <= capr;
  co_bufs : ∀ r, r ∈ take (Z.to_nat n) rxm → r ∉ freet ∧ ∃ m, bufs e !! r = Some m ∧ (rxm !! 0%nat = Some r → m_pool m = rp) ∧
    ∀ t, t ∈ freet → ∃ mt, bufs e !! t = Some mt ∧ m_pool mt = tp ∧ fits m mt }.

#[local] Arguments put_back : simpl never.

Section copying.
Context (e : copy_env) (tp rp : Z) (pt pr : pool) (capt capr : Z) (freet freer : list Z) (n : Z) (rxm txm : list Z).
Context (Hok : copy_ok e tp rp pt pr capt capr freet freer n rxm txm).

Lemma rx_at j : (j < Z.to_nat n)%nat → ∃ r, rxm !! j = Some r ∧ r ∈ take (Z.to_nat n) rxm.
Proof.
  intros Hj. pose proof (co_rxm _ _ _ _ _ _ _ _ _ _ _ _ Hok). destruct (lookup_lt_is_Some_2 rxm j) as [r Hr]; [lia|].
  exists r. split; [done|]. eapply list_elem_of_lookup_2. apply lookup_take_Some. split; [done|lia].
Qed.

(** Received buffers go back, whatever happened to the buffers to send. *)
Lemma put_back_run lcore e0 pt' : 0 <= lcore → pools e0 = <[tp := pt']> (pools e) → (∀ r, r ∈ take (Z.to_nat n) rxm → bufs e0 !! r = bufs e !! r) →
  ∃ e', put_back e0 lcore rxm n = Some e' ∧ bufs e' = bufs e0 ∧ pools e' !! tp = Some pt' ∧
    ∃ pr', pools e' !! rp = Some pr' ∧ pool_rep pr' capr (take (Z.to_nat n) rxm ++ freer).
Proof.
  intros Hlc Hp Hbs. destruct Hok as [Hne Htx Hrx Hft Hfr Hnd Hn Hr Ht Hroom Hb].
  destruct (rx_at 0 ltac:(lia)) as (r & Hr0 & Hin). destruct (Hb r Hin) as (_ & m & Hm & Hmp & _).
  unfold put_back. destruct (load_in rxm 0) as (r' & -> & Hr'); [lia|]. assert (r' = r) as -> by (change (Z.to_nat 0) with 0%nat in Hr'; congruence).
  cbn [mbind option_bind]. rewrite (Hbs r Hin), Hm. cbn [mbind option_bind]. rewrite (Hmp Hr0), Hp, lookup_insert_ne, Hrx by done. cbn [mbind option_bind].
  destruct (put_bulk_run pr capr freer lcore rxm n (Z.land (mp_flags pr) MEMPOOL_F_SP_PUT =? 0) Hfr Hlc ltac:(lia) Hroom) as (pr' & E & Hrep & _).
  unfold rte_mempool_put_bulk. rewrite E. cbn [mbind option_bind]. eexists. split; [done|]. simpl.
  split; [done|]. split; [by rewrite lookup_insert_ne, lookup_insert_eq by done|]. exists pr'. by rewrite lookup_insert_eq.
Qed.

Lemma got_loop_ok got free' : Z.of_nat (length got) = n → freet ≡ₚ got ++ free' →
  loop_ok 0 (Z.to_nat n) rxm (got ++ drop (Z.to_nat n) txm) (bufs e).
Proof.
  intros Hgot Hperm. destruct Hok as [Hne Htx Hrx Hft Hfr Hnd Hn Hr Ht Hroom Hb].
  assert (∀ j a, within 0 (Z.to_nat n) j → (got ++ drop (Z.to_nat n) txm) !! j = Some a → got !! j = Some a) as Hin
    by (intros j a Hj Ha; unfold within in Hj; rewrite lookup_app_l in Ha by lia; done).
  assert (∀ a, a ∈ got → a ∈ freet) as Hfree by (intros a Ha; rewrite Hperm; set_solver).
  assert (∀ j r, within 0 (Z.to_nat n) j → rxm !! j = Some r → r ∈ take (Z.to_nat n) rxm) as Hrxin.
  { intros j r Hj Hrj. unfold within in Hj. eapply list_elem_of_lookup_2. apply lookup_take_Some. split; [done|lia]. }
  split; [lia|rewrite length_app, length_drop; lia|..].
  - intros j r t Hj Hrj Htj. apply Hin in Htj; [|done]. destruct (Hb r (Hrxin _ _ Hj Hrj)) as (_ & m & Hm & _ & Hmt).
    destruct (Hmt t) as (mt & ? & _ & ?); [apply Hfree; by eapply list_elem_of_lookup_2|]. by exists m, mt.
  - intros i j a Hi Hj Hri Htj. apply Hin in Htj; [|done]. destruct (Hb a (Hrxin _ _ Hi Hri)) as [Hnot _].
    apply Hnot, Hfree. by eapply list_elem_of_lookup_2.
  - intros i j a Hi Hj Hai Haj. apply Hin in Hai, Haj; [|done..]. rewrite Hperm in Hnd. apply NoDup_app in Hnd as [Hnd _].
    by eapply NoDup_lookup.
Qed.
End copying.

(** Copying a burst is exact and loses no buffer. The received buffers always go
    to the pool of the first of them. Either the output pool could not give enough buffers
    (the call returns -1, no packet was changed and the output pool has the
    free buffers it had), or it returns 1 and the first segment of each packet
    has a copy, with the same bytes and metadata, in a buffer of its own taken
    from the output pool; no other buffer was changed. *)
Theorem copy_mbufs_correct e lcore tp rp pt pr capt capr freet freer n rxm txm (Hlc : 0 <= lcore)
    (Hok : copy_ok e tp rp pt pr capt capr freet freer n rxm txm) :
  ∃ ret txm' e' pt' pr', copy_mbufs e lcore (Some tp) n rxm txm = Some (ret, txm', e') ∧
    pools e' !! tp = Some pt' ∧ pools e' !! rp = Some pr' ∧ pool_rep pr' capr (take (Z.to_nat n) rxm ++ freer) ∧
    ((ret = -1 ∧ bufs e' = bufs e ∧ pool_rep pt' capt freet ∧ bq_count (ring pt) < n) ∨
     (ret = 1 ∧ ∃ got free', Z.of_nat (length got) = n ∧ NoDup got ∧ txm' = got ++ drop (Z.to_nat n) txm ∧
       freet ≡ₚ got ++ free' ∧ pool_rep pt' capt free' ∧
       (∀ j r t, rxm !! j = Some r → got !! j = Some t →
         ∃ mr mt mt', bufs e !! r = Some mr ∧ bufs e !! t = Some mt ∧ bufs e' !! t = Some mt' ∧ copies mr mt mt' ∧ m_pool mt' = tp) ∧
       (∀ x, x ∉ got → bufs e' !! x = bufs e !! x))).
Proof.
  pose proof Hok as [Hne Htx Hrx Hft Hfr Hnd Hn Hr Ht Hroom Hb].
  destruct (get_bulk_run pt capt freet lcore txm n (Z.land (mp_flags pt) MEMPOOL_F_SC_GET =? 0) Hft Hlc ltac:(lia))
    as (ret & txm' & pt' & E & _ & Hres).
  unfold copy_mbufs. rewrite u8_small by (unfold is_u8; lia). cbn [mbind option_bind]. rewrite Htx. cbn [mbind option_bind].
  unfold rte_mempool_get_bulk. rewrite E. simpl.
  destruct Hres as [(-> & got & free' & Hgot & -> & Hperm & Hrep)|(-> & -> & Hrep & Hcount)].
  - destruct (copy_loop_run _ 0 _ _ _ (got_loop_ok _ _ _ _ _ _ _ _ _ _ _ _ Hok got free' Hgot Hperm)) as (mb & El & Hdone & Hkeep).
    change (Z.of_nat 0) with 0 in El. cbn [Z.eqb negb]. rewrite El. simpl. assert (NoDup got) as Hndg by (rewrite Hperm in Hnd; by apply NoDup_app in Hnd as [? _]).
    assert (∀ x, x ∉ got → mb !! x = bufs e !! x) as Hframe.
    { intros x Hx. apply Hkeep. unfold within. intros j Hj Hxj. apply Hx. rewrite lookup_app_l in Hxj by lia. by eapply list_elem_of_lookup_2. }
    assert (∀ r, r ∈ take (Z.to_nat n) rxm → r ∉ got) as Hapart by (intros r Hin Hg; apply (proj1 (Hb r Hin)); rewrite Hperm; set_solver).
    destruct (put_back_run _ _ _ _ _ _ _ _ _ _ _ _ Hok lcore (CopyEnv mb (<[tp := pt']> (pools e))) pt' Hlc eq_refl) as (e' & E' & Hbs & Hpt & pr' & Hpr & Hrepr).
    { intros r Hin. apply Hframe. by apply Hapart. }
    change (e <| pools := _ |> <| bufs := mb |>) with (CopyEnv mb (<[tp := pt']> (pools e))). rewrite E'. simpl in Hbs. subst mb. cbn [mbind option_bind]. exists 1, (got ++ drop (Z.to_nat n) txm), e', pt', pr'. split_and!; [done..|]. right. split; [done|].
    exists got, free'. split_and!; try done. intros j r t Hrj Htj. pose proof (lookup_lt_Some _ _ _ Htj) as Hlt.
    destruct (Hdone j r t) as (mr & mt & mt' & H1 & H2 & H3 & H4); [unfold within; lia|done|by rewrite lookup_app_l by lia|].
    exists mr, mt, mt'. split_and!; try done. destruct (rx_at _ _ _ _ _ _ _ _ _ _ _ _ Hok j ltac:(lia)) as (r' & Hr' & Hin).
    destruct (Hb r' Hin) as (_ & m & _ & _ & Hmt). destruct (Hmt t) as (mt1 & Hmt1 & <- & _); [rewrite Hperm; apply elem_of_app; left; by eapply list_elem_of_lookup_2|].
    destruct H4 as (_ & _ & _ & -> & _). congruence.
  - change (- ENOENT =? 0) with false. cbn [negb].
    destruct (put_back_run _ _ _ _ _ _ _ _ _ _ _ _ Hok lcore (CopyEnv (bufs e) (<[tp := pt']> (pools e))) pt' Hlc eq_refl) as (e' & E' & Hbs & Hpt & pr' & Hpr & Hrepr); [done|].
    change (e <| pools := _ |>) with (CopyEnv (bufs e) (<[tp := pt']> (pools e))). rewrite E'.
    cbn [mbind option_bind]. exists (-1), txm, e', pt', pr'. split_and!; try done. by left.
Qed.

(** Two received buffers, of an empty pool at 2, copied to buffers of the pool
    at 1. *)
Definition demo_mbuf (pl : Z) (bytes : list Z) : rte_mbuf := Mbuf pl bytes 1 2 0 0 0 0 None 2 1 0 0.
Definition demo_rx_pool : pool := demo_pool <| ring :=
  {| rname := "MP_rx"; rflags := 0; rmemzone := Some 0; rprod := Prod 4 0 4 3 0 0; rcons := Cons 0 4 3 0 0; rtable := [0; 0; 0; 0] |} |>.
Definition demo_copy_env : copy_env :=
  CopyEnv (<[500 := demo_mbuf 2 [9; 7; 8; 9]]> (<[600 := demo_mbuf 2 [9; 5; 6; 9]]>
          (<[100 := demo_mbuf 1 [0; 0; 0; 0]]> (<[200 := demo_mbuf 1 [0; 0; 0; 0]]> {[300 := demo_mbuf 1 [0; 0; 0; 0]]}))))
          (<[1 := demo_pool]> {[2 := demo_rx_pool]}).
Lemma demo_rx_pool_rep : pool_rep demo_rx_pool 3 [].
Proof.
  destruct demo_pool_rep as [Hok _]. split; [by apply pool_ring|]. exists []. split.
  - exists 2. split; [done|]. split; [by split|done..|]. intros j x Hx. by rewrite lookup_nil in Hx.
  - change (local_cache demo_rx_pool) with (local_cache demo_pool). cbn [local_cache demo_pool]. by erewrite empty_caches.
Qed.
Lemma demo_copy_ok : copy_ok demo_copy_env 1 2 demo_pool demo_rx_pool 3 3 [100; 200; 300] [] 2 [500; 600] [0; 0].
Proof.
  split; [done|done|done|apply demo_pool_rep|apply demo_rx_pool_rep|apply (bool_decide_unpack _); by vm_compute|lia|simpl; lia..|].
  intros r Hr. simpl in Hr. set_unfold. assert (∀ t, t = 100 ∨ t = 200 ∨ t = 300 ∨ False → bufs demo_copy_env !! t = Some (demo_mbuf 1 [0; 0; 0; 0])) as Ht
    by (intros t [->|[->|[->|[]]]]; done).
  destruct Hr as [->|[->|[]]]; (split; [lia|]); eexists; (split; [done|]); (split; [done|]); intros t Hin; eexists;
    (split; [by apply Ht|]); (split; [done|]); unfold fits; simpl; lia.
Qed.
Lemma demo_copy_run :
  (λ r, (fst r.1, snd r.1)) <$> copy_mbufs demo_copy_env 200 (Some 1) 2 [500; 600] [0; 0] = Some (1, [100; 200]).
Proof. vm_compute. reflexivity. Qed.
Lemma copy_mbufs_correct_witness :
  ∃ e', copy_mbufs demo_copy_env 200 (Some 1) 2 [500; 600] [0; 0] = Some (1, [100; 200], e') ∧
    ∃ m, bufs e' !! 100 = Some m ∧ packet m = [7; 8].
Proof.
  destruct (copy_mbufs_correct demo_copy_env 200 1 2 demo_pool demo_rx_pool 3 3 [100; 200; 300] [] 2 [500; 600] [0; 0] ltac:(lia) demo_copy_ok)
    as (ret & txm' & e0 & pt' & pr' & E & _ & _ & _ & H).
  pose proof demo_copy_run as E0. rewrite E in E0. injection E0 as -> ->. exists e0. split; [exact E|].
  destruct H as [[H _]|(_ & got & free' & Hl & _ & Ht & _ & _ & Hc & _)]; [discriminate H|].
  assert (got !! 0%nat = Some 100) as Hg. { destruct got as [|g got]; [discriminate Hl|]. injection Ht as <- _. reflexivity. }
  destruct (Hc 0%nat 500 100 eq_refl Hg) as (mr & mt & mt' & Hmr & _ & Hmt & (Hp & _) & _).
  exists mt'. split; [exact Hmt|]. rewrite Hp. injection Hmr as <-. reflexivity.
Defined.
