(* ===== verification/SecMemcpyApp.v ===== *)
(** * The copying secondary application as a program

    [examples/multi_process/patch_panel/sec_memcpy/sec_memcpy.c]: its state is
    that of [sec_zerocpy] with the pools of the output ports, its commands are
    those of [sec_zerocpy] with [add tx pool], and its packet loop copies every
    burst with [copy_mbufs] ([SecMemcpy.v]). Holds the commands, the turns of
    the loop on the buffers and pools of the process, and what a patched port
    delivers. *)
From S2P Require Import Prelude CStr BurstQueue Ring RingSpec Mempool MempoolInit EthTable Platform Secondary SecMemcpy.
Open Scope Z_scope.

(** The global variables: those of [sec_zerocpy] and [tx_pools], NULL at
    first. *)
Record mapp := MApp { base : app; tx_pools : list (option Z) }.
#[export] Instance mapp_upd : Updatable mapp := λ m, MApp (base m) (tx_pools m).
Definition mapp_static : mapp := MApp app_static (replicate nports None).

Section commands.
Context {W A : Type} `{!Platform W A}.

(** What a message leads to. *)
Inductive memcpy_outcome := MReply (m : mapp) (str : string) | MBreak (m : mapp) | MExit.

(** The parts of the text that are those of [sec_zerocpy] leave [tx_pools]. *)
Definition keep_pools (m : mapp) (r : unit + app * W) : unit + mapp * W :=
  match r with inl _ => inl tt | inr (s, w) => inr (m <| base := s |>, w) end.
Definition keep_outcome (m : mapp) (r : outcome) : memcpy_outcome :=
  match r with Reply s str => MReply (m <| base := s |>) str | Break s => MBreak (m <| base := s |>) | Exit => MExit end.

(** [add tx]: a ring, a pool for an output port, or a port. *)
Definition memcpy_add_tx (m : mapp) (w : W) (tokens : list string) : option (unit + mapp * W) :=
  t2 ← word tokens 2;
  if strcmp_eq t2 "pool" then
    ps ← add_tx_pool w (tx_pools m) tokens;
    fs ← store (tx_funcs (base m)) (save_pos (base m)) true;
    Some (inr (m <| tx_pools := ps |> <| base := (base m) <| tx_funcs := fs |> |>, w))
  else r ← add_tx (base m) w tokens; Some (keep_pools m r).
Definition memcpy_cmd_add (m : mapp) (w : W) (tokens : list string) : option (unit + mapp * W) :=
  t1 ← word tokens 1;
  if strcmp_eq t1 "tx" then memcpy_add_tx m w tokens
  else r ← cmd_add SecZerocpy (base m) w tokens; Some (keep_pools m r).

(** One message. The tests of the first word exclude each other; all but [add]
    are those of [sec_zerocpy]. *)
Definition memcpy_handle_message (m : mapp) (w : W) (str : string) : option (memcpy_outcome * W) :=
  if MSG_SIZE <=? strlen str then None else
  let tokens := tokenize " " str in
  if MAX_PARAMETER <=? Z.of_nat (length tokens) then None else
  t0 ← word tokens 0;
  if strcmp_eq t0 "add" then
    r ← memcpy_cmd_add m w tokens;
    match r with inl _ => Some (MExit, w) | inr (m, w) => Some (MReply m (cut_first str), w) end
  else '(r, w) ← handle_message SecZerocpy (base m) w str; Some (keep_outcome m r, w).

Definition memcpy_main_init (m : mapp) (w : W) (argv : list string) : option mapp :=
  s ← main_init (base m) w argv; Some (m <| base := s |>).

(** A sequence of messages, up to the one that ends the loop or the process. *)
Fixpoint memcpy_run m w (msgs : list string) : option (mapp * W) :=
  match msgs with
  | [] => Some (m, w)
  | str :: msgs =>
      '(r, w) ← memcpy_handle_message m w str;
      match r with
      | MReply m _ => memcpy_run m w msgs
      | MBreak m => Some (m, w)
      | MExit => Some (m, w)
      end
  end.

(** One turn of [nfv_loop]; [rxtx] does not copy. *)
Definition memcpy_loop_turn (copy : W → option Z → list A → option (option (list A) * W)) (m : mapp) (w : W) :
    option (list moved * W) :=
  match cmd (base m) with
  | LOOPBACK | RXTX => rxtx (base m) w
  | FORWARD => memcpy_forward copy (tx_pools m) (ports_fwd_array (base m)) w
  | _ => Some ([], w)
  end.
End commands.

(** ** The buffers and pools of the process

    The rest of the platform works on addresses of buffers; [free_buf] is
    [rte_mempool_put(m->pool, m)] and a burst is copied with [copy_mbufs] into
    the array [m] on the stack of [forward], with [scratch] in it. *)
Section memory.
Context {W : Type} `{!Platform W Z}.
Variable (lcore : Z).

Definition put_one (e : copy_env) (b : Z) : option copy_env :=
  m ← bufs e !! b; p ← pools e !! m_pool m;
  p ← rte_mempool_put p lcore b;
  Some (e <| pools := <[m_pool m := p]> (pools e) |>).

Definition mem_platform : Platform (W * copy_env) Z := {|
  rx_burst '(w, e) p n := '(bufs, w) ← rx_burst w p n; Some (bufs, (w, e));
  tx_burst '(w, e) p ps := '(n, w) ← tx_burst w p ps; Some (n, (w, e));
  free_buf '(w, e) b := e ← put_one e b; Some (w, e);
  lookup_ring '(w, e) nm := '(r, w) ← lookup_ring w nm; Some (r, (w, e));
  port_from_ring '(w, e) mk a := '(p, w) ← port_from_ring w mk a; Some (p, (w, e));
  lookup_pool '(w, _) nm := lookup_pool w nm;
  port_from_vhost '(w, e) nm i f mp := '(p, w) ← port_from_vhost w nm i f mp; Some (p, (w, e));
  dev_count '(w, _) := dev_count w;
  dev_type_of '(w, _) p := dev_type_of w p |}.

Definition burst_copy (scratch : list Z) (we : W * copy_env) (tp : option Z) (rxm : list Z) :
    option (option (list Z) * (W * copy_env)) :=
  let '(w, e) := we in
  let nb_rx := Z.of_nat (length rxm) in
  '(ret, m, e) ← copy_mbufs e lcore tp nb_rx rxm scratch;
  Some (if ret <? 0 then None else Some (take (length rxm) m), (w, e)).
End memory.

(** ** Commands: [sec_zerocpy] and one more *)
Definition pool_command (str : string) : bool := bool_decide (take 3 (tokenize " " str) = ["add"; "tx"; "pool"]).

(** The consistent states: the patch table is that of [sec_zerocpy], and there
    is a pool entry for every port. *)
Record mapp_ok (m : mapp) : Prop := {
  ma_table : table_ok (ports_fwd_array (base m)); ma_pools : length (tx_pools m) = nports }.

Section commands_proofs.
Context {W A : Type} `{!Platform W A}.

(** [cmd_add] of [sec_zerocpy] at [tx] is its [add_tx]. *)
Lemma cmd_add_tx v s (w : W) tokens : word tokens 1 = Some "tx" → cmd_add v s w tokens = add_tx s w tokens.
Proof. intros H. unfold cmd_add. rewrite H. reflexivity. Qed.

Lemma strcmp_eq_true a b : strcmp_eq a b = true → a = b.
Proof. apply String.eqb_eq. Qed.

Lemma take3_words (tokens : list string) a b c : word tokens 0 = Some a → word tokens 1 = Some b → word tokens 2 = Some c →
  take 3 tokens = [a; b; c].
Proof. destruct tokens as [|? [|? [|? ?]]]; intros [=] [=] [=]. by subst. Qed.

(** Every message but [add tx pool] does to the program what it does to
    [sec_zerocpy], replies included, and leaves the pools alone. *)
Theorem memcpy_other_messages m (w : W) str (Hp : pool_command str = false) :
  memcpy_handle_message m w str =
    ('(r, w) ← handle_message SecZerocpy (base m) w str; Some (keep_outcome m r, w)).
Proof.
  unfold memcpy_handle_message. destruct (MSG_SIZE <=? strlen str) eqn:E1; [unfold handle_message; by rewrite E1|].
  destruct (MAX_PARAMETER <=? _) eqn:E2; [unfold handle_message; by rewrite E1, E2|].
  destruct (word _ 0) as [t0|] eqn:E0; cbn [mbind option_bind]; [|unfold handle_message; by rewrite E1, E2, E0].
  destruct (strcmp_eq t0 "add") eqn:Ea; [|done]. apply strcmp_eq_true in Ea as ->.
  unfold handle_message. rewrite E1, E2, E0. cbn [mbind option_bind]. cbn [strcmp_eq String.eqb Ascii.eqb Bool.eqb].
  unfold memcpy_cmd_add. destruct (word _ 1) as [t1|] eqn:Et1; cbn [mbind option_bind]; [|unfold cmd_add; by rewrite Et1].
  destruct (strcmp_eq t1 "tx") eqn:Etx.
  2: { destruct (cmd_add _ _ _ _) as [[|[s1 w1]]|]; reflexivity. }
  apply strcmp_eq_true in Etx as ->. rewrite cmd_add_tx by done. unfold memcpy_add_tx.
  destruct (word _ 2) as [t2|] eqn:Et2; cbn [mbind option_bind]; [|unfold add_tx, add_dir; by rewrite Et2].
  destruct (strcmp_eq t2 "pool") eqn:Ep.
  - apply strcmp_eq_true in Ep as ->. unfold pool_command in Hp. rewrite (take3_words _ _ _ _ E0 Et1 Et2) in Hp. discriminate Hp.
  - destruct (add_tx _ _ _) as [[|[s1 w1]]|]; reflexivity.
Qed.

(** [add tx pool] itself: the words after it name a pool and the output
    port. *)
Lemma pool_command_words str : pool_command str = true → ∃ rest, tokenize " " str = "add" :: "tx" :: "pool" :: rest.
Proof.
  unfold pool_command. intros H%bool_decide_eq_true_1. destruct (tokenize " " str) as [|? [|? [|? rest]]]; try discriminate H.
  injection H as -> -> ->. by exists rest.
Qed.
Lemma memcpy_pool_message m (w : W) str : pool_command str = true → memcpy_handle_message m w str =
  if MSG_SIZE <=? strlen str then None
  else if MAX_PARAMETER <=? Z.of_nat (length (tokenize " " str)) then None
  else ps ← add_tx_pool w (tx_pools m) (tokenize " " str);
       fs ← store (tx_funcs (base m)) (save_pos (base m)) true;
       Some (MReply (MApp ((base m) <| tx_funcs := fs |>) ps) (cut_first str), w).
Proof.
  intros (rest & E)%pool_command_words. unfold memcpy_handle_message. rewrite E. case_match; [done|]. case_match; [done|].
  cbn [word lookup list_lookup mbind option_bind]. unfold memcpy_cmd_add, memcpy_add_tx. simpl.
  destruct (add_tx_pool _ _ _); [simpl|done]. by destruct (store _ _ _).
Qed.

Lemma add_tx_pool_length (w : W) ps tokens ps' : add_tx_pool w ps tokens = Some ps' → length ps' = length ps.
Proof.
  unfold add_tx_pool. intros (t3 & _ & (mp & _ & (t4 & _ & H)%bind_Some)%bind_Some)%bind_Some.
  destruct mp; [by eapply store_length|by injection H as <-].
Qed.

Lemma memcpy_handle_ok m (w : W) str r w' : mapp_ok m → memcpy_handle_message m w str = Some (r, w') →
  ∀ m', (∃ str', r = MReply m' str') ∨ r = MBreak m' → mapp_ok m'.
Proof.
  intros [Ht Hl] H m' Hr. destruct (pool_command str) eqn:Ep.
  - rewrite memcpy_pool_message in H by done. case_match; [done|]. case_match; [done|].
    apply bind_Some in H as (ps & Hps & (fs & _ & [= <- <-])%bind_Some). destruct Hr as [[? [= <- _]]|[=]].
    split; [exact Ht|]. simpl. rewrite <- Hl. by eapply add_tx_pool_length.
  - rewrite memcpy_other_messages in H by done. apply bind_Some in H as ([r0 w0] & H0 & [= <- <-]).
    destruct r0 as [s1 str1|s1|]; destruct Hr as [[? [=]]|[=]]; subst m'; (split; [|exact Hl]);
      (eapply handle_message_ok; [exact Ht|exact H0|eauto]).
Qed.

Lemma memcpy_run_ok m (w : W) msgs m' w' : mapp_ok m → memcpy_run m w msgs = Some (m', w') → mapp_ok m'.
Proof.
  revert m w. induction msgs as [|str msgs IH]; intros m w Hok H; simpl in H; [by injection H as <- <-|].
  apply bind_Some in H as ([r w1] & Hm & H). destruct r as [m1 ?|m1|].
  - eapply IH; [|done]. eapply memcpy_handle_ok; eauto.
  - injection H as <- <-. eapply memcpy_handle_ok; eauto.
  - by injection H as <- <-.
Qed.

(** Whatever commands the controller sends, the patch table stays consistent
    and [tx_pools] keeps an entry for every port. *)
Theorem memcpy_invariant (w0 w : W) argv msgs m0 m w' (Hinit : memcpy_main_init mapp_static w0 argv = Some m0)
    (Hrun : memcpy_run m0 w msgs = Some (m, w')) : mapp_ok m.
Proof.
  eapply memcpy_run_ok; [|exact Hrun]. apply bind_Some in Hinit as (s & Hs & [= <-]). split; [|done].
  by eapply main_init_ok.
Qed.

(** The pool an output port uses is the one named last; a port outside the
    table is written past the end of [tx_pools]. *)
Theorem add_tx_pool_runs (w : W) ps nm t4 mp (Hl : length ps = nports) (Hmp : lookup_pool w nm = Some (Some mp)) :
  let p := u16 (atoi t4) in
  add_tx_pool w ps ["add"; "tx"; "pool"; nm; t4] =
    if p <? RTE_MAX_ETHPORTS then Some (<[Z.to_nat p := Some mp]> ps) else None.
Proof.
  intros p. unfold add_tx_pool. cbn [word lookup list_lookup mbind option_bind]. rewrite Hmp. cbn [mbind option_bind].
  fold p. assert (0 <= p) by (apply Z.mod_pos_bound; lia). assert (Z.of_nat (length ps) = RTE_MAX_ETHPORTS) as Hn by (by rewrite Hl).
  destruct (Z.ltb_spec p RTE_MAX_ETHPORTS); [apply store_in|apply store_out; right]; lia.
Qed.
End commands_proofs.

(** ** What a patched port delivers *)
Section forward_proofs.
Context {W : Type} `{!Platform W Z, !PlatformOk W Z}.
Variable (lcore : Z).
Hypothesis (Hlc : 0 <= lcore).
#[local] Instance here : Platform (W * copy_env) Z := mem_platform lcore.

(** Buffers of one pool go back to it one by one. *)
Lemma put_all_run (w : W) (us : list Z) : ∀ e tp (pt : pool) cap (free : list Z), pools e !! tp = Some pt → pool_rep pt cap free →
  Z.of_nat (length free) + Z.of_nat (length us) <= cap → (∀ u, u ∈ us → ∃ m, bufs e !! u = Some m ∧ m_pool m = tp) →
  ∃ e' pt', free_all (w, e) us = Some (w, e') ∧ bufs e' = bufs e ∧ pools e' !! tp = Some pt' ∧
    pool_rep pt' cap (us ++ free) ∧ ∀ q, q ≠ tp → pools e' !! q = pools e !! q.
Proof.
  induction us as [|u us IH]; intros e tp pt cap free Hp Hrep Hcap Hus; [by exists e, pt|].
  destruct (Hus u ltac:(set_solver)) as (m & Hm & Hmp).
  destruct (put_bulk_run pt cap free lcore [u] 1 (Z.land (mp_flags pt) MEMPOOL_F_SP_PUT =? 0) Hrep Hlc ltac:(simpl; lia) ltac:(simpl in Hcap; lia)) as (p1 & E & Hr & _).
  cbn [free_all free_buf here mem_platform]. unfold put_one. rewrite Hm. cbn [mbind option_bind]. rewrite Hmp, Hp. cbn [mbind option_bind].
  unfold rte_mempool_put, rte_mempool_put_bulk. rewrite E. cbn [mbind option_bind].
  destruct (IH (e <| pools := <[tp := p1]> (pools e) |>) tp p1 cap (u :: free)) as (e' & pt' & -> & Hb & Hpt & Hrt & Hk).
  - apply lookup_insert_eq.
  - exact Hr.
  - simpl in Hcap |- *. lia.
  - intros x Hx. apply Hus. set_solver.
  - exists e', pt'. split_and!; [done|done|done| |].
    + rewrite <- app_comm_cons, Permutation_middle. exact Hrt.
    + intros q Hq. rewrite Hk by done. by apply lookup_insert_ne.
Qed.

(** What one pass does with the packets of one patched port. *)
Definition delivered (e e' : copy_env) (tp capt : Z) (freet : list Z) (rxm sent freed : list Z) : Prop :=
  ∃ pt' free', pools e' !! tp = Some pt' ∧ freet ≡ₚ sent ++ freed ++ free' ∧ pool_rep pt' capt (freed ++ free') ∧
    length (sent ++ freed) = length rxm ∧
    ∀ j r t, rxm !! j = Some r → (sent ++ freed) !! j = Some t →
      ∃ mr mt mt', bufs e !! r = Some mr ∧ bufs e !! t = Some mt ∧ bufs e' !! t = Some mt' ∧ copies mr mt mt' ∧ m_pool mt' = tp.

(** C35: What a patched port of the copying application does with a nonempty
    burst. The conditions: the output port was given a pool, the pool of the
    first received buffer is another one and has room for the burst, and the
    data of each received buffer would fit the free buffers of the output
    port's pool. Then the pass completes. Either no packet goes out, because
    that pool had too few buffers in its ring, and it is unchanged; or the
    output port is given, in order, for each received packet a buffer of its own
    of that pool, with the metadata of the packet and the bytes of its first
    segment (which is all of it for a packet of one segment), and the copies it
    does not take are back in the pool. In both cases all received buffers end
    up in the pool of the first of them, which is their own when the burst is
    of one pool. *)
Theorem memcpy_port_copies ports tps i p (w : W) e w1 (rxm scratch : list Z) tp rp pt pr capt capr freet freer
    (Htab : table_ok ports) (Hp : ports !! i = Some p) (Ho : 0 <= out_port_id p)
    (Htp : load tps (out_port_id p) = Some (Some tp))
    (Hrx : rx_burst w (Z.of_nat i) MAX_PKT_BURST = Some (rxm, w1)) (Hlen : (length rxm <= 32)%nat)
    (Hu : usable w1 (out_port_id p))
    (Hok : copy_ok e tp rp pt pr capt capr freet freer (Z.of_nat (length rxm)) rxm scratch)
    (Hcap : Z.of_nat (length freet) <= capt) :
  ∃ es w' e' pr', memcpy_forward_port (burst_copy lcore scratch) tps ports (Z.of_nat i) (w, e) = Some (es, (w', e')) ∧
    pools e' !! rp = Some pr' ∧ pool_rep pr' capr (rxm ++ freer) ∧
    ((es = [] ∧ w' = w1 ∧ bufs e' = bufs e ∧ bq_count (ring pt) < Z.of_nat (length rxm) ∧
      ∃ pt', pools e' !! tp = Some pt' ∧ pool_rep pt' capt freet) ∨
     ∃ sent freed, es = [Moved (Z.of_nat i) (out_port_id p) sent freed] ∧
       tx_burst w1 (out_port_id p) (sent ++ freed) = Some (Z.of_nat (length sent), w') ∧
       delivered e e' tp capt freet rxm sent freed).
Proof.
  destruct (tab_out _ Htab _ _ Hp) as [?|(_ & Hst & Hrf & q & Hq & _ & Htf)]; [lia|].
  assert (load ports (out_port_id p) = Some q) as Hlq by (unfold load; by rewrite decide_True).
  pose proof (co_n _ _ _ _ _ _ _ _ _ _ _ _ Hok) as Hn.
  destruct (copy_mbufs_correct e lcore tp rp pt pr capt capr freet freer _ rxm scratch Hlc Hok)
    as (ret & m & e1 & pt1 & pr1 & Ec & Hpt & Hpr & Hrepr & Hcase). rewrite Nat2Z.id, firstn_all in Hrepr.
  unfold memcpy_forward_port. rewrite load_nat, Hp. cbn [mbind option_bind].
  rewrite (proj2 (Z.leb_le 0 (status p))), (proj2 (Z.leb_le 0 (out_port_id p))), Hrf by lia. cbn [andb negb].
  cbn [rx_burst here mem_platform]. rewrite Hrx. cbn [mbind option_bind].
  destruct (Nat.eqb_spec (length rxm) 0); [lia|]. rewrite Htp. cbn [mbind option_bind]. unfold burst_copy at 1. rewrite Ec. cbn [mbind option_bind].
  destruct Hcase as [(-> & Hb & Hrt & Hcnt)|(-> & got & free' & Hgl & Hnd & -> & Hperm & Hrt & Hcp & _)].
  - cbn [Z.ltb Z.compare]. eexists [], w1, e1, pr1. split_and!; [done..|]. left. split_and!; try done. by exists pt1.
  - change (1 <? 0) with false. cbv iota. rewrite take_app_length' by lia. rewrite Hlq. cbn [mbind option_bind]. rewrite Htf. cbn [negb].
    destruct (tx_ok w1 (out_port_id p) got Hu ltac:(lia)) as (k & w2 & Et & Hk & _).
    cbn [tx_burst here mem_platform]. rewrite Et. cbn [mbind option_bind].
    set (sent := take (Z.to_nat k) got). set (freed := drop (Z.to_nat k) got).
    assert (sent ++ freed = got) as Hsf by apply take_drop.
    pose proof (Permutation_length Hperm) as Hpl. rewrite length_app in Hpl.
    assert (length freed <= length got)%nat by (unfold freed; rewrite length_drop; lia).
    destruct (put_all_run w2 freed e1 tp pt1 capt free' Hpt Hrt ltac:(lia)) as (e2 & pt2 & -> & Hb2 & Hpt2 & Hrt2 & Hk2).
    { intros u Hu'. assert (u ∈ got) as (j & Hj)%list_elem_of_lookup by (rewrite <- Hsf; set_solver).
      pose proof (lookup_lt_Some _ _ _ Hj). destruct (lookup_lt_is_Some_2 rxm j) as [r Hr]; [lia|].
      destruct (Hcp j r u Hr Hj) as (mr & mt & mt' & _ & _ & Hmt & _ & Hmp). by exists mt'. }
    cbn [mbind option_bind]. eexists _, w2, e2, pr1. split; [done|]. rewrite Hk2 by (apply not_eq_sym, (co_pools _ _ _ _ _ _ _ _ _ _ _ _ Hok)).
    split_and!; [done..|]. right. exists sent, freed. split; [done|]. rewrite Hsf. split.
    { rewrite Et. unfold sent. rewrite length_take. do 2 f_equal. lia. }
    exists pt2, free'. rewrite (app_assoc sent), Hsf, Hb2. split_and!; try done. lia.
Qed.

(** A port patched to one without a pool: the first burst it receives stops
    the process at a NULL pool. *)
Theorem memcpy_needs_pool ports tps i p (w : W) e w1 (rxm scratch : list Z) (Hp : ports !! i = Some p) (Hs : 0 <= status p) (Ho : 0 <= out_port_id p)
    (Htp : load tps (out_port_id p) = Some None) (Hrx : rx_burst w (Z.of_nat i) MAX_PKT_BURST = Some (rxm, w1)) (Hne : rxm ≠ []) :
  memcpy_forward_port (burst_copy lcore scratch) tps ports (Z.of_nat i) (w, e) = None.
Proof.
  unfold memcpy_forward_port. rewrite load_nat, Hp. cbn [mbind option_bind].
  rewrite (proj2 (Z.leb_le 0 (status p))), (proj2 (Z.leb_le 0 (out_port_id p))) by lia. cbn [andb].
  destruct (rx_func p); [|done]. cbn [negb rx_burst here mem_platform]. rewrite Hrx. cbn [mbind option_bind].
  destruct rxm; [done|]. cbn [length Nat.eqb]. rewrite Htp. reflexivity.
Qed.
End forward_proofs.

(** ** An example: a wire with two packets, and a port that takes one at a time *)
Definition wire_platform : Platform (list Z) Z := {|
  rx_burst w _ n := Some (take (Z.to_nat n) w, drop (Z.to_nat n) w);
  tx_burst w _ ps := Some (Z.min 1 (Z.of_nat (length ps)), w);
  free_buf w _ := Some w;
  lookup_ring w _ := Some (None, w);
  port_from_ring w _ _ := Some (-1, w);
  lookup_pool _ nm := Some (if String.eqb nm "pool_1" then Some 1 else None);
  port_from_vhost w _ _ _ _ := Some (-1, w);
  dev_count _ := 2;
  dev_type_of _ _ := Some RTE_ETH_DEV_PCI |}.
#[local] Existing Instance wire_platform.
#[local] Instance wire_ok : PlatformOk (list Z) Z.
Proof.
  refine {| usable _ _ := True |}.
  - intros w p n _ Hn. eexists _, _. split; [done|]. split; [rewrite length_take; lia|done].
  - intros w p ps _ Hl. eexists _, _. split; [done|]. split; [lia|done].
  - intros w b. by exists w.
Defined.

(** Started with two ports, then [add tx pool pool_1 1] and [patch 0 1]. *)
Definition wire_start : option mapp :=
  m ← memcpy_main_init mapp_static ([] : list Z) ["sec_memcpy"; "-n"; "1"; "-s"; "127.0.0.1:5555"];
  fst <$> memcpy_run m ([] : list Z) ["add tx pool pool_1 1"; "patch 0 1"; "forward"].
Definition wire_app : mapp := default mapp_static wire_start.

Lemma wire_started : wire_start = Some wire_app ∧ cmd (base wire_app) = FORWARD ∧
  load (tx_pools wire_app) 1 = Some (Some 1) ∧
  ∃ p, ports_fwd_array (base wire_app) !! 0%nat = Some p ∧ out_port_id p = 1.
Proof. split_and!; [by vm_compute..|]. eexists. split; by vm_compute. Qed.

Lemma wire_table : table_ok (ports_fwd_array (base wire_app)).
Proof.
  assert (memcpy_main_init mapp_static ([] : list Z) ["sec_memcpy"; "-n"; "1"; "-s"; "127.0.0.1:5555"] ≠ None) as H1 by (by vm_compute).
  destruct (memcpy_main_init _ _ _) as [m0|] eqn:E0; [|done]. destruct wire_started as (E & _). unfold wire_start in E. rewrite E0 in E.
  cbn [mbind option_bind] in E. apply fmap_Some in E as ([m w] & Er & Em). simpl in Em. subst m.
  apply (ma_table _ (memcpy_invariant _ _ _ _ _ _ _ E0 Er)).
Qed.

Lemma memcpy_port_copies_witness :
  ∃ w' e' m, memcpy_forward_port (Platform0 := mem_platform 200) (burst_copy 200 [0; 0]) (tx_pools wire_app) (ports_fwd_array (base wire_app)) 0
      ([500; 600], demo_copy_env) = Some ([Moved 0 1 [100] [200]], (w', e')) ∧
    bufs e' !! 100 = Some m ∧ packet m = [7; 8].
Proof.
  destruct wire_started as (_ & _ & Htp & p & Hp & Ho).
  destruct (memcpy_port_copies 200 ltac:(lia) (ports_fwd_array (base wire_app)) (tx_pools wire_app) 0 p [500; 600] demo_copy_env [] [500; 600] [0; 0]
    1 2 demo_pool demo_rx_pool 3 3 [100; 200; 300] [] wire_table Hp ltac:(by rewrite Ho) ltac:(by rewrite Ho) eq_refl ltac:(simpl; lia) I demo_copy_ok
    ltac:(simpl; lia)) as (es & w' & e' & pr' & E & _ & _ & Hcase).
  assert ((λ r, r.1) <$> memcpy_forward_port (Platform0 := mem_platform 200) (burst_copy 200 [0; 0]) (tx_pools wire_app) (ports_fwd_array (base wire_app)) 0
      ([500; 600], demo_copy_env) = Some [Moved 0 1 [100] [200]]) as E0 by (by vm_compute).
  change (Z.of_nat 0) with 0 in E. change (here 200) with (mem_platform (W := list Z) 200) in E. rewrite E in E0. injection E0 as ->.
  destruct Hcase as [[Hx _]|(sent & freed & Hx & _ & _ & _ & _ & _ & _ & _ & Hc)]; [discriminate Hx|].
  injection Hx as _ <- <-. destruct (Hc 0%nat 500 100 eq_refl eq_refl) as (mr & mt & mt' & Hmr & _ & Hmt & (Hpk & _) & _).
  exists w', e', mt'. split; [exact E|]. split; [exact Hmt|]. rewrite Hpk. injection Hmr as <-. reflexivity.
Defined.
