(* ===== verification/ShmPages.v ===== *)
(** * Host shared memory: which pages are shared, and where

    [lib/librte_hostshmem/rte_hostshmem.c], a library the patch panel added to
    DPDK, shares memory zones with a guest: the huge pages that hold the zones
    are the memory of a device of the guest, one after the other, and the guest
    finds a zone by its offset in that memory. [build_config] computes pages
    and offsets from the table of zones. This file has its first three passes and
    shows that the guest sees each zone where the table says. *)
From S2P Require Import Prelude CStr Align.
From stdpp Require Import sorting.
Open Scope Z_scope.

Definition HOSTSHMEM_MAX_PAGES : Z := 4096.
Definition HOSTSHMEM_MAX_HUGEPAGES : Z := 32.
Definition max_pages : nat := Z.to_nat HOSTSHMEM_MAX_PAGES.
#[global] Opaque max_pages.
Lemma max_pages_eq : max_pages = Z.to_nat HOSTSHMEM_MAX_PAGES.
Proof. done. Qed.

(** [struct rte_memzone], a table entry, [struct rte_memseg] as a huge page. *)
Record rte_memzone := Zone { z_name : string; z_phys : Z; z_addr : Z; z_len : Z; z_hugepage_sz : Z; z_socket : Z; z_ioremap : Z }.
#[export] Instance memzone_upd : Updatable rte_memzone :=
  λ z, Zone (z_name z) (z_phys z) (z_addr z) (z_len z) (z_hugepage_sz z) (z_socket z) (z_ioremap z).
Record metadata_entry := Entry { mz : rte_memzone; offset : Z }.
#[export] Instance entry_upd : Updatable metadata_entry := λ e, Entry (mz e) (offset e).
Record rte_memseg := Seg { s_phys : Z; s_addr : Z; s_len : Z }.
#[export] Instance memseg_eq_dec : EqDecision rte_memseg.
Proof. solve_decision. Defined.
Definition zero_zone : rte_memzone := Zone "" 0 0 0 0 0 0.
Definition zero_entry : metadata_entry := Entry zero_zone 0.

(** ** Sorting the zones *)
Definition entry_compare (e1 e2 : metadata_entry) : Z :=
  if (z_addr (mz e1) =? 0) && (z_addr (mz e2) =? 0) then 0
  else if z_addr (mz e1) =? 0 then 1
  else if z_addr (mz e2) =? 0 then -1
  else c_bool (z_phys (mz e2) <? z_phys (mz e1)).

(** [qsort] of the C library is a merge sort: halves are sorted and merged,
    and an element of the first half goes first unless it compares greater.
    [fuel] bounds the depth. *)
Section qsort.
Context {A : Type} (cmp : A → A → Z).
Fixpoint merge (l1 : list A) : list A → list A :=
  fix merge_l1 (l2 : list A) : list A :=
    match l1, l2 with
    | [], _ => l2
    | _, [] => l1
    | a :: l1', b :: l2' => if cmp a b <=? 0 then a :: merge l1' l2 else b :: merge_l1 l2'
    end.
Fixpoint msort (fuel : nat) (l : list A) : list A :=
  match fuel with
  | O => l
  | S f =>
      if decide (length l <= 1)%nat then l
      else let n1 := (length l / 2)%nat in merge (msort f (take n1 l)) (msort f (drop n1 l))
  end.
Definition qsort (l : list A) : list A := msort (length l) l.
End qsort.

(** ** First pass: the pages of each zone

    The array of pages has [HOSTSHMEM_MAX_PAGES] entries, unused ones being
    zero; the list is the array without the zeros at its end. *)

(** Skips the pages that are there: the place, the address, the physical
    address and the length that are left. An unused entry is skipped as well
    when the addresses have wrapped to zero. *)
Fixpoint skip_pages (ps : list rte_memseg) (i : nat) (sz start phys len : Z) : nat * Z * Z * Z :=
  match ps with
  | [] =>
      if (start =? 0) && (Z.of_nat i <? HOSTSHMEM_MAX_PAGES)
      then (S i, u64 (start + sz), u64 (phys + sz), u64 (len - sz)) else (i, start, phys, len)
  | p :: ps =>
      if s_addr p =? start then skip_pages ps (S i) sz (u64 (start + sz)) (u64 (phys + sz)) (u64 (len - sz))
      else if s_addr p =? 0 then (i, start, phys, len)
      else skip_pages ps (S i) sz start phys len
  end.
(** [pages[i] = p]. *)
Definition set_page (ps : list rte_memseg) (i : nat) (p : rte_memseg) : list rte_memseg :=
  if decide (i < length ps)%nat then <[i := p]> ps else ps ++ replicate (i - length ps) (Seg 0 0 0) ++ [p].
(** [fuel] is the number of entries from [i] on. *)
Fixpoint fill_pages (fuel : nat) (ps : list rte_memseg) (i : nat) (sz start phys len : Z) : list rte_memseg * Z :=
  match fuel with
  | O => (ps, len)
  | S f =>
      if len =? 0 then (ps, len)
      else fill_pages f (set_page ps i (Seg phys start sz)) (S i) sz (u64 (start + sz)) (u64 (phys + sz)) (u64 (len - sz))
  end.

(** [None] is the failure of the pass. *)
Definition zone_pages (ps : list rte_memseg) (z : rte_memzone) : option (list rte_memseg) :=
  let start := RTE_ALIGN_FLOOR u64 (z_addr z) (z_hugepage_sz z) in
  let phys := RTE_ALIGN_FLOOR u64 (z_phys z) (z_hugepage_sz z) in
  let off := u64 (z_addr z - start) in
  let len := RTE_ALIGN_CEIL u64 (u64 (z_len z + off)) (z_hugepage_sz z) in
  if (z_addr z =? 0) || (start =? 0) || (len =? 0) then Some ps else
  let '(i, start, phys, len) := skip_pages ps 0 (z_hugepage_sz z) start phys len in
  if Z.of_nat i =? HOSTSHMEM_MAX_PAGES then None else
  let '(ps, len) := fill_pages (Z.to_nat HOSTSHMEM_MAX_PAGES - i) ps i (z_hugepage_sz z) start phys len in
  if len =? 0 then Some ps else None.
Fixpoint collect_pages (es : list metadata_entry) (ps : list rte_memseg) : option (list rte_memseg) :=
  match es with
  | [] => Some ps
  | e :: es => ps ← zone_pages ps (mz e); collect_pages es ps
  end.

(** ** Second pass: bigger pages first

    From place [i] on, the first of the biggest pages moves to the front and
    the pages before it one place back; unused entries end the loops. *)
Fixpoint find_biggest (ps : list rte_memseg) (j : nat) (biggest : Z * nat) : Z * nat :=
  match ps with
  | [] => biggest
  | p :: ps =>
      if s_addr p =? 0 then biggest
      else find_biggest ps (S j) (if (fst biggest =? 0) || (fst biggest <? s_len p) then (s_len p, j) else biggest)
  end.
Fixpoint sort_pages (fuel : nat) (ps : list rte_memseg) : list rte_memseg :=
  match fuel with
  | O => ps
  | S f =>
      match ps with
      | [] => []
      | p :: _ =>
          if s_addr p =? 0 then ps
          else let k := snd (find_biggest ps 0 (0, 0%nat)) in
               match ps !! k with
               | Some b => b :: sort_pages f (take k ps ++ drop (S k) ps)
               | None => ps
               end
      end
  end.

(** ** Third pass: offsets *)
Fixpoint find_offset (ps : list rte_memseg) (addr off : Z) : option Z :=
  match ps with
  | [] => None
  | p :: ps =>
      if (s_addr p <=? addr) && (addr <? u64 (s_addr p + s_len p)) then Some (u64 (u64 (addr - s_addr p) + off))
      else find_offset ps addr (u64 (off + s_len p))
  end.
Fixpoint write_offsets (ps : list rte_memseg) (es : list metadata_entry) : option (list metadata_entry) :=
  match es with
  | [] => Some []
  | e :: es =>
      if z_addr (mz e) =? 0 then Some (e :: es)
      else o ← find_offset ps (z_addr (mz e)) 0; es ← write_offsets ps es; Some (e <| offset := o |> :: es)
  end.

(** ** The sort of the zones is a sort

    For every comparison that is a total preorder when it is not positive. *)
Section qsort_correct.
Context {A : Type} (cmp : A → A → Z).
Definition le (a b : A) : Prop := cmp a b <= 0.
Hypothesis le_total : ∀ a b, le a b ∨ le b a.
Hypothesis le_trans : ∀ a b c, le a b → le b c → le a c.

Lemma merge_perm l1 l2 : merge cmp l1 l2 ≡ₚ l1 ++ l2.
Proof.
  revert l2. induction l1 as [|a l1 IH1]; intros l2; [by destruct l2|].
  induction l2 as [|b l2 IH2]; [by rewrite app_nil_r|]. cbn [merge]. case_match.
  - cbn. by rewrite IH1.
  - etrans; [apply perm_skip, IH2|]. apply (Permutation_middle (a :: l1)).
Qed.
Lemma merge_sorted l1 l2 : StronglySorted le l1 → StronglySorted le l2 → StronglySorted le (merge cmp l1 l2).
Proof.
  revert l2. induction l1 as [|a l1 IH1]; intros l2 H1 H2; [by destruct l2|].
  induction l2 as [|b l2 IH2]; [done|]. apply StronglySorted_inv in H1 as [Hs1 Ha], H2 as [Hs2 Hb].
  cbn [merge]. destruct (Z.leb_spec (cmp a b) 0) as [Hab|Hab]; constructor; [auto using SSorted_cons| |auto|].
  - rewrite merge_perm. apply Forall_app. split; [done|]. constructor; [done|]. eapply Forall_impl; [done|]. eauto.
  - assert (le b a) by (destruct (le_total a b) as [?|?]; unfold le in *; [lia|done]).
    change (Forall (le b) (merge cmp (a :: l1) l2)). rewrite merge_perm. apply Forall_app. split; [|done].
    constructor; [done|]. eapply Forall_impl; [done|]. eauto.
Qed.
Lemma msort_perm fuel l : msort cmp fuel l ≡ₚ l.
Proof.
  revert l. induction fuel as [|f IH]; intros l; cbn; [done|]. case_decide; [done|].
  by rewrite merge_perm, !IH, take_drop.
Qed.
Lemma msort_sorted fuel l : (length l <= fuel)%nat → StronglySorted le (msort cmp fuel l).
Proof.
  assert (∀ l, (length l <= 1)%nat → StronglySorted le l) as Hsmall.
  { intros [|x [|y k]] Hl; cbn in *; [constructor|repeat constructor|lia]. }
  revert l. induction fuel as [|f IH]; intros l Hl; cbn; [apply Hsmall; lia|]. case_decide; [by apply Hsmall|].
  pose proof (Nat.div_lt (length l) 2 ltac:(lia) ltac:(lia)). pose proof (Nat.div_le_mono 2 (length l) 2 ltac:(lia) ltac:(lia)).
  apply merge_sorted; apply IH; [rewrite length_take|rewrite length_drop]; cbn in *; lia.
Qed.
Lemma qsort_perm l : qsort cmp l ≡ₚ l.
Proof. apply msort_perm. Qed.
Lemma qsort_sorted l : StronglySorted le (qsort cmp l).
Proof. by apply msort_sorted. Qed.
End qsort_correct.

(** Zones in use come first, by physical address. *)
Lemma entry_compare_le a b : le entry_compare a b ↔
  z_addr (mz b) = 0 ∨ (z_addr (mz a) ≠ 0 ∧ z_phys (mz a) <= z_phys (mz b)).
Proof.
  unfold le, entry_compare, c_bool. destruct (Z.eqb_spec (z_addr (mz a)) 0), (Z.eqb_spec (z_addr (mz b)) 0); cbn; tests; lia.
Qed.
Lemma entry_compare_total a b : le entry_compare a b ∨ le entry_compare b a.
Proof. rewrite !entry_compare_le. lia. Qed.
Lemma entry_compare_trans a b c : le entry_compare a b → le entry_compare b c → le entry_compare a c.
Proof. rewrite !entry_compare_le. lia. Qed.

(** ** Things one after the other

    Things of a length each: the length of all, and the thing, with the place
    in it, at an offset. *)
Section at_offset.
Context {A : Type} (len : A → Z).
Definition total_by (l : list A) : Z := foldr (λ a, Z.add (len a)) 0 l.
Fixpoint at_offset (l : list A) (o : Z) : option (A * Z) :=
  match l with
  | [] => None
  | a :: l => if o <? len a then Some (a, o) else at_offset l (o - len a)
  end.

Lemma total_cons a l : total_by (a :: l) = len a + total_by l.
Proof. done. Qed.
Lemma total_app l k : total_by (l ++ k) = total_by l + total_by k.
Proof. unfold total_by. induction l as [|p l IH]; cbn; [done|]. rewrite IH. lia. Qed.
#[export] Instance total_perm : Proper (Permutation ==> eq) total_by.
Proof. unfold total_by. intros l k. induction 1; cbn; lia. Qed.
Lemma total_nonneg l : (∀ a, a ∈ l → 0 < len a) → 0 <= total_by l.
Proof.
  intros Hok. induction l as [|a l IH]; [done|]. rewrite total_cons. pose proof (Hok a ltac:(left)).
  assert (0 <= total_by l) by (apply IH; intros q ?; apply Hok; by right). lia.
Qed.
Lemma at_offset_app_r l k o : (∀ a, a ∈ l → 0 < len a) → 0 <= o → at_offset (l ++ k) (total_by l + o) = at_offset k o.
Proof.
  induction l as [|p l IH]; intros Hok Ho; cbn [at_offset app]; [by f_equal; cbn|].
  assert (∀ a, a ∈ l → 0 < len a) as Hok' by (intros q ?; apply Hok; by right). pose proof (total_nonneg _ Hok').
  pose proof (Hok p ltac:(left)). rewrite total_cons.
  destruct (Z.ltb_spec (len p + total_by l + o) (len p)); [lia|]. rewrite <- IH by done. f_equal. lia.
Qed.
Lemma at_offset_app_l l k o : 0 <= o < total_by l → at_offset (l ++ k) o = at_offset l o.
Proof.
  revert o. induction l as [|p l IH]; intros o Ho; cbn [at_offset app]; [cbn in Ho; lia|].
  rewrite total_cons in Ho. destruct (Z.ltb_spec o (len p)); [done|]. apply IH. lia.
Qed.
Lemma at_offset_in l o a d : at_offset l o = Some (a, d) → 0 <= o → a ∈ l ∧ 0 <= d < len a.
Proof.
  revert o. induction l as [|b l IH]; intros o E Ho; cbn in *; [done|]. destruct (Z.ltb_spec o (len b)).
  - injection E as <- <-. split; [left|lia].
  - destruct (IH _ E) as [? ?]; [lia|]. split; [by right|done].
Qed.
Lemma at_offset_lt l o x : (∀ a, a ∈ l → 0 < len a) → at_offset l o = Some x → o < total_by l.
Proof.
  revert o. induction l as [|b l IH]; intros o Hok E; cbn [at_offset] in *; [done|]. rewrite total_cons.
  assert (∀ a, a ∈ l → 0 < len a) as Hok' by (intros a ?; apply Hok; by right). pose proof (total_nonneg _ Hok').
  destruct (Z.ltb_spec o (len b)); [lia|]. apply IH in E; [lia|done].
Qed.
End at_offset.
Notation total_len := (total_by s_len).

(** ** The huge pages of the process

    [run n phys addr sz]: [n] pages in a row, in both address spaces. *)
Fixpoint run (n : nat) (phys addr sz : Z) : list rte_memseg :=
  match n with
  | O => []
  | S n => Seg phys addr sz :: run n (phys + sz) (addr + sz) sz
  end.
(** The pages a zone touches. *)
Definition zone_run (z : rte_memzone) : list rte_memseg :=
  let sz := z_hugepage_sz z in let off := z_addr z mod sz in
  run (Z.to_nat ((off + z_len z + (sz - 1)) / sz)) (z_phys z - off) (z_addr z - off) sz.

Definition page_ok (p : rte_memseg) : Prop :=
  0 < s_addr p ∧ 0 < s_len p ∧ s_addr p + s_len p < 2 ^ 64 ∧ 0 <= s_phys p ∧ s_phys p + s_len p < 2 ^ 64.
Definition apart (a l b m : Z) : Prop := a + l <= b ∨ b + m <= a.
(** [huge] is a list of huge pages that share no memory. *)
Record layout (huge : list rte_memseg) : Prop := {
  pages_ok : ∀ p, p ∈ huge → page_ok p;
  pages_apart : ∀ p q, p ∈ huge → q ∈ huge → p ≠ q →
    apart (s_addr p) (s_len p) (s_addr q) (s_len q) ∧ apart (s_phys p) (s_len p) (s_phys q) (s_len q);
  pages_few : Z.of_nat (length huge) <= HOSTSHMEM_MAX_HUGEPAGES;
  pages_total : total_len huge < 2 ^ 64 }.
(** A zone lies in pages of [huge], at the same distance from their start in both
    address spaces. *)
Record zone_in (huge : list rte_memseg) (z : rte_memzone) : Prop := {
  zone_pow2 : ∃ k, 0 <= k < 63 ∧ z_hugepage_sz z = 2 ^ k;
  zone_len : 0 < z_len z ∧ z_addr z + z_len z + z_hugepage_sz z < 2 ^ 64;
  zone_phys : z_phys z mod z_hugepage_sz z = z_addr z mod z_hugepage_sz z;
  zone_sub : zone_run z ⊆ huge }.

Lemma run_in p n phys addr sz : p ∈ run n phys addr sz ↔
  ∃ j, 0 <= j < Z.of_nat n ∧ p = Seg (phys + j * sz) (addr + j * sz) sz.
Proof.
  revert phys addr. induction n as [|n IH]; intros phys addr; cbn [run].
  - rewrite elem_of_nil. split; [done|]. intros (j & ? & _). lia.
  - rewrite elem_of_cons, IH. split.
    + intros [->|(j & Hj & ->)]; [exists 0; split; [lia|f_equal; lia]|exists (j + 1); split; [lia|f_equal; lia]].
    + intros (j & Hj & ->). destruct (decide (j = 0)) as [->|]; [left; f_equal; lia|right].
      exists (j - 1). split; [lia|f_equal; lia].
Qed.
Lemma run_length n phys addr sz : length (run n phys addr sz) = n.
Proof. revert phys addr. induction n; intros; cbn; [done|]. by f_equal. Qed.
Definition phys_lt (p q : rte_memseg) : Prop := s_phys p < s_phys q.
Lemma run_sorted n phys addr sz : 0 < sz → StronglySorted phys_lt (run n phys addr sz).
Proof.
  intros Hsz. revert phys addr. induction n as [|n IH]; intros phys addr; cbn; constructor; [apply IH|].
  apply Forall_forall. intros p (j & Hj & ->)%run_in. unfold phys_lt. cbn. nia.
Qed.

(** *** First pass *)
Lemma skip_pages_fresh ps i sz start phys len : start ≠ 0 → (∀ p, p ∈ ps → s_addr p ≠ start ∧ s_addr p ≠ 0) →
  skip_pages ps i sz start phys len = ((i + length ps)%nat, start, phys, len).
Proof.
  intros Hs. revert i. induction ps as [|p ps IH]; intros i Hps; cbn [skip_pages].
  - destruct (Z.eqb_spec start 0); [done|]. cbn. by rewrite Nat.add_0_r.
  - destruct (Hps p) as [H1 H2]; [left|]. apply Z.eqb_neq in H1 as ->. apply Z.eqb_neq in H2 as ->.
    rewrite IH by (intros; apply Hps; by right). cbn. by rewrite Nat.add_succ_r.
Qed.
Lemma skip_pages_app ps q i sz start phys len : (∀ p, p ∈ ps → s_addr p ≠ start ∧ s_addr p ≠ 0) → s_addr q = start →
  start ≠ 0 → u64 (start + sz) ≠ 0 →
  skip_pages (ps ++ [q]) i sz start phys len =
    ((i + length (ps ++ [q]))%nat, u64 (start + sz), u64 (phys + sz), u64 (len - sz)).
Proof.
  intros Hps Hq Hs Hs'. revert i. induction ps as [|p ps IH]; intros i; cbn [skip_pages app].
  - rewrite Hq, Z.eqb_refl. destruct (Z.eqb_spec (u64 (start + sz)) 0); [done|]. cbn. by rewrite Nat.add_1_r.
  - destruct (Hps p) as [H1 H2]; [left|]. apply Z.eqb_neq in H1 as ->. apply Z.eqb_neq in H2 as ->.
    rewrite IH by (intros; apply Hps; by right). cbn. by rewrite Nat.add_succ_r.
Qed.
Lemma fill_pages_run fuel n ps sz start phys : (n <= fuel)%nat → 0 < sz → 0 <= start → 0 <= phys →
  start + Z.of_nat n * sz < 2 ^ 64 → phys + Z.of_nat n * sz < 2 ^ 64 →
  fill_pages fuel ps (length ps) sz start phys (Z.of_nat n * sz) = (ps ++ run n phys start sz, 0).
Proof.
  intros Hn Hsz. revert n ps start phys Hn. induction fuel as [|f IH]; intros n ps start phys Hn H1 H2 H3 H4.
  - assert (n = 0%nat) as -> by lia. cbn. by rewrite app_nil_r.
  - destruct n as [|n]; [cbn; by rewrite app_nil_r|]. cbn [fill_pages run].
    destruct (Z.eqb_spec (Z.of_nat (S n) * sz) 0); [nia|].
    rewrite !u64_small by (unfold is_u64; nia). unfold set_page. rewrite decide_False, Nat.sub_diag by lia. cbn [replicate app].
    replace (S (length ps)) with (length (ps ++ [Seg phys start sz])) by (rewrite length_app; cbn; lia).
    replace (Z.of_nat (S n) * sz - sz) with (Z.of_nat n * sz) by nia.
    rewrite IH by nia. by rewrite <- app_assoc.
Qed.

Lemma filter_all {A} (P : A → Prop) `{∀ x, Decision (P x)} (l : list A) : (∀ x, x ∈ l → P x) → filter P l = l.
Proof.
  induction l as [|x l IH]; intros Hl; [done|]. rewrite filter_cons, decide_True by (apply Hl; left). f_equal.
  apply IH. intros y Hy. apply Hl. by right.
Qed.
Lemma filter_none {A} (P : A → Prop) `{∀ x, Decision (P x)} (l : list A) : (∀ x, x ∈ l → ¬ P x) → filter P l = [].
Proof. intros Hl. apply elem_of_nil_inv. intros x [? ?]%list_elem_of_filter. by apply (Hl x). Qed.

(** An entry in use. *)
Definition used (e : metadata_entry) : Prop := z_addr (mz e) ≠ 0.
#[export] Instance used_dec e : Decision (used e) := _.

Definition used_first (es : list metadata_entry) : Prop := es = filter used es ++ filter (λ e, ¬ used e) es.
Lemma used_first_app us zs : (∀ e, e ∈ us → used e) → (∀ e, e ∈ zs → ¬ used e) → used_first (us ++ zs).
Proof.
  intros Hu Hz. unfold used_first. rewrite !filter_app. rewrite (filter_all used us), (filter_none used zs) by done.
  rewrite (filter_none _ us), (filter_all _ zs) by naive_solver. by rewrite app_nil_r.
Qed.

Section pages.
Context (huge : list rte_memseg) (HL : layout huge).

(** The numbers [zone_pages] computes. *)
Record geometry (z : rte_memzone) (n : nat) (phys addr : Z) : Prop := {
  g_run : zone_run z = run n phys addr (z_hugepage_sz z);
  g_size : 0 < z_hugepage_sz z;
  g_some : (0 < n)%nat;
  g_addr : RTE_ALIGN_FLOOR u64 (z_addr z) (z_hugepage_sz z) = addr;
  g_phys : RTE_ALIGN_FLOOR u64 (z_phys z) (z_hugepage_sz z) = phys;
  g_len : RTE_ALIGN_CEIL u64 (u64 (z_len z + u64 (z_addr z - addr))) (z_hugepage_sz z) = Z.of_nat n * z_hugepage_sz z;
  g_first : addr <= z_addr z < addr + z_hugepage_sz z ∧ z_phys z - phys = z_addr z - addr;
  g_last : z_addr z + z_len z <= addr + Z.of_nat n * z_hugepage_sz z < z_addr z + z_len z + z_hugepage_sz z;
  g_bounds : 0 < addr ∧ addr + Z.of_nat n * z_hugepage_sz z < 2 ^ 64 ∧ 0 <= phys ∧ phys + Z.of_nat n * z_hugepage_sz z < 2 ^ 64 }.
Lemma zone_geometry z : zone_in huge z → ∃ n phys addr, geometry z n phys addr.
Proof.
  intros [(k & Hk & Hsz) [Hlen Hend] Hph Hsub]. pose proof (Z.pow_pos_nonneg 2 k ltac:(lia) ltac:(lia)) as Hpos.
  pose proof (Z.mod_pos_bound (z_addr z) (2 ^ k) Hpos). pose proof (Z.div_mod (z_addr z) (2 ^ k) ltac:(lia)).
  pose proof (Z.div_mod (z_phys z) (2 ^ k) ltac:(lia)). pose proof (Z.pow_le_mono_r 2 k 63 ltac:(lia) ltac:(lia)).
  rewrite Hsz in *. set (off := z_addr z mod 2 ^ k) in *. set (q := (off + z_len z + (2 ^ k - 1)) / 2 ^ k).
  pose proof (Z.div_mod (off + z_len z + (2 ^ k - 1)) (2 ^ k) ltac:(lia)) as Hq.
  pose proof (Z.mod_pos_bound (off + z_len z + (2 ^ k - 1)) (2 ^ k) Hpos). fold q in Hq. assert (0 < q) by nia.
  assert (zone_run z = run (Z.to_nat q) (z_phys z - off) (z_addr z - off) (2 ^ k)) as Hrun by (unfold zone_run; rewrite Hsz; done).
  assert (∀ j, 0 <= j < q → page_ok (Seg (z_phys z - off + j * 2 ^ k) (z_addr z - off + j * 2 ^ k) (2 ^ k))) as Hpage.
  { intros j Hj. apply (pages_ok _ HL), Hsub. rewrite Hrun. apply run_in. exists j. split; [lia|done]. }
  destruct (Hpage 0 ltac:(lia)) as (Ha & _ & _ & Hp & _), (Hpage (q - 1) ltac:(lia)) as (_ & _ & Ha' & _ & Hp'). cbn in *.
  assert (z_addr z - off = z_addr z / 2 ^ k * 2 ^ k) as Hfa by lia.
  assert (z_phys z - off = z_phys z / 2 ^ k * 2 ^ k) as Hfp by lia.
  assert (q * 2 ^ k = off + z_len z + (2 ^ k - 1) - (off + z_len z + (2 ^ k - 1)) mod 2 ^ k) as Hqk by lia.
  assert ((q - 1) * 2 ^ k = q * 2 ^ k - 2 ^ k) as Hq1 by lia. rewrite Hq1 in *.
  exists (Z.to_nat q), (z_phys z - off), (z_addr z - off). split; rewrite ?Hsz, ?Z2Nat.id by lia; try done; try lia.
  - rewrite Hfa. apply (align_floor_spec 64); lia.
  - rewrite Hfp. apply (align_floor_spec 64); lia.
  - rewrite (u64_small (_ - _)), u64_small by (unfold is_u64; lia). etrans; [apply (align_ceil_spec 64); lia|].
    unfold q. do 2 f_equal. lia.
Qed.

(** What the first pass keeps: pages of the process by physical address, all
    before [bound]. *)
Record collected (ps : list rte_memseg) (bound : Z) : Prop := {
  c_sub : ps ⊆ huge;
  c_sorted : StronglySorted phys_lt ps;
  c_bound : ∀ p, p ∈ ps → s_phys p < bound }.
Lemma sorted_nodup ps : StronglySorted phys_lt ps → NoDup ps.
Proof.
  induction 1 as [|p ps Hs IH Hp]; constructor; [|done]. intros Hin.
  apply Forall_forall with (x := p) in Hp; [|done]. unfold phys_lt in Hp. lia.
Qed.
Lemma collected_length ps b : collected ps b → (length ps <= length huge)%nat.
Proof. intros Hc. apply submseteq_length, NoDup_submseteq; [eapply sorted_nodup, Hc|apply Hc]. Qed.

(** The page [q] is the first of a zone after [ps]: it is the last of [ps] or
    comes after all of them. *)
Lemma first_page ps b q x : collected ps b → q ∈ huge → b <= x → x < s_phys q + s_len q →
  (∃ ps0, ps = ps0 ++ [q]) ∨ (∀ p, p ∈ ps → p ≠ q ∧ s_phys p < s_phys q).
Proof.
  intros Hc Hq Hx Hlt. destruct (decide (q ∈ ps)) as [Hin|Hin]; [left|right].
  - apply list_elem_of_split in Hin as (l1 & l2 & ->). destruct l2 as [|r l2]; [by exists l1|exfalso].
    destruct Hc as [Hsub Hsort Hbd]. apply StronglySorted_app in Hsort as (_ & _ & Hs).
    apply StronglySorted_inv in Hs as [_ Hs]. apply Forall_cons in Hs as [Hqr _]. unfold phys_lt in Hqr.
    assert (r ∈ l1 ++ q :: r :: l2) as Hr by set_solver. pose proof (Hbd _ Hr).
    destruct (pages_apart _ HL q r Hq (Hsub _ Hr)) as [_ [?|?]]; [intros ->; lia|lia|].
    pose proof (pages_ok _ HL r (Hsub _ Hr)) as (_ & ? & _). lia.
  - intros p Hp. assert (p ≠ q) as Hne by (intros ->; done). split; [done|]. pose proof (c_bound _ _ Hc _ Hp).
    destruct (pages_apart _ HL p q (c_sub _ _ Hc _ Hp) Hq Hne) as [_ [?|?]]; [|lia].
    pose proof (pages_ok _ HL p (c_sub _ _ Hc _ Hp)) as (_ & ? & _). lia.
Qed.

Lemma zone_first z n phys addr : zone_in huge z → geometry z n phys addr →
  Seg phys addr (z_hugepage_sz z) ∈ huge ∧ ∃ t, zone_run z = Seg phys addr (z_hugepage_sz z) :: t.
Proof.
  intros Hz G. destruct n as [|n]; [pose proof (g_some _ _ _ _ G); lia|]. pose proof (g_run _ _ _ _ G) as Hr.
  split; [|by eexists]. apply (zone_sub _ _ Hz). rewrite Hr. left.
Qed.
(** Two pages of the process with the same address are the same page. *)
Lemma same_page p q : p ∈ huge → q ∈ huge → s_addr p = s_addr q → p = q.
Proof.
  intros Hp Hq E. destruct (decide (p = q)) as [|Hne]; [done|]. exfalso.
  pose proof (pages_ok _ HL _ Hp) as (_ & ? & _). pose proof (pages_ok _ HL _ Hq) as (_ & ? & _).
  destruct (pages_apart _ HL p q Hp Hq Hne) as [[?|?] _]; lia.
Qed.

(** The pages after a zone: [ps] without the first page of the zone, if it was
    there, and then the pages of the zone. *)
Lemma collected_zone ps b z : collected ps b → zone_in huge z → b <= z_phys z →
  ∃ ps0, (ps = ps0 ∨ ps = ps0 ++ take 1 (zone_run z)) ∧ (∀ p, p ∈ ps0 → p ∉ take 1 (zone_run z)) ∧
    collected (ps0 ++ zone_run z) (z_phys z + z_len z).
Proof.
  intros Hc Hz Hb. destruct (zone_geometry z Hz) as (n & phys & addr & G). destruct (zone_first _ _ _ _ Hz G) as [Hq [t Ht]].
  destruct (g_first _ _ _ _ G), (g_last _ _ _ _ G). pose proof (zone_len _ _ Hz). pose proof (g_size _ _ _ _ G).
  assert (∀ ps0, ps0 ⊆ huge → StronglySorted phys_lt ps0 → (∀ p, p ∈ ps0 → s_phys p < phys) →
    collected (ps0 ++ zone_run z) (z_phys z + z_len z)) as Hall.
  { intros ps0 Hsub Hsort Hlt. rewrite (g_run _ _ _ _ G). split.
    - pose proof (zone_sub _ _ Hz). rewrite <- (g_run _ _ _ _ G). set_solver.
    - apply StronglySorted_app. split_and!; [|done|by apply run_sorted].
      intros p r Hp (j & ? & ->)%run_in. pose proof (Hlt _ Hp). unfold phys_lt. cbn. nia.
    - intros p [Hp|(j & ? & ->)%run_in]%elem_of_app; [pose proof (Hlt _ Hp); lia|]. cbn. nia. }
  destruct (first_page ps b _ (z_phys z) Hc Hq ltac:(lia) ltac:(cbn; lia)) as [[ps0 ->]|Hnew]; cbn in *.
  - exists ps0. rewrite Ht. destruct Hc as [Hsub [Hlt [Hsort _]]%StronglySorted_app _].
    assert (∀ p, p ∈ ps0 → s_phys p < phys) as Hlt' by (intros p Hp; apply (Hlt _ (Seg phys addr (z_hugepage_sz z))); [done|left]).
    split_and!; [by right| |rewrite <- Ht; apply Hall; [set_solver|done|done]].
    intros p Hp ->%list_elem_of_singleton. pose proof (Hlt' _ Hp). cbn in *. lia.
  - exists ps. rewrite Ht. split_and!; [by left| |rewrite <- Ht; apply Hall; [apply Hc|apply Hc|intros p Hp; apply (Hnew _ Hp)]].
    intros p Hp ->%list_elem_of_singleton. by destruct (Hnew _ Hp).
Qed.
Lemma zone_pages_collected ps b z : collected ps b → zone_in huge z → b <= z_phys z →
  ∃ ps0 ps', zone_pages ps z = Some ps' ∧ (ps = ps0 ∨ ps = ps0 ++ take 1 (zone_run z)) ∧
    ps' = ps0 ++ zone_run z ∧ collected ps' (z_phys z + z_len z).
Proof.
  intros Hc Hz Hb. destruct (collected_zone ps b z Hc Hz Hb) as (ps0 & Hps & Hnot & Hc').
  exists ps0, (ps0 ++ zone_run z). split; [|done].
  destruct (zone_geometry z Hz) as (n & phys & addr & G). destruct (zone_first _ _ _ _ Hz G) as [Hq [t Ht]].
  destruct (g_first _ _ _ _ G), (g_bounds _ _ _ _ G) as (? & ? & ? & ?). pose proof (g_size _ _ _ _ G). pose proof (g_some _ _ _ _ G).
  pose proof (collected_length _ _ Hc') as Hlen. pose proof (pages_few _ HL) as Hfew. rewrite length_app, (g_run _ _ _ _ G), run_length in Hlen.
  assert (∀ p, p ∈ ps0 → s_addr p ≠ addr ∧ s_addr p ≠ 0) as Hfresh.
  { intros p Hp. assert (p ∈ huge) as HpH by (apply (c_sub _ _ Hc'); set_solver). split.
    - intros E. apply (Hnot p Hp). rewrite Ht, (same_page p _ HpH Hq E). left.
    - pose proof (pages_ok _ HL p HpH) as (? & _). lia. }
  unfold zone_pages. rewrite (g_addr _ _ _ _ G), (g_phys _ _ _ _ G), (g_len _ _ _ _ G).
  rewrite (proj2 (Z.eqb_neq (z_addr z) 0)), (proj2 (Z.eqb_neq addr 0)), (proj2 (Z.eqb_neq (_ * _) 0)) by nia. cbn [orb].
  unfold HOSTSHMEM_MAX_HUGEPAGES in Hfew. destruct Hps as [->| ->].
  - rewrite skip_pages_fresh by (done || lia). cbn [plus]. unfold HOSTSHMEM_MAX_PAGES. rewrite (proj2 (Z.eqb_neq _ _)) by lia.
    rewrite fill_pages_run by lia. cbn. by rewrite (g_run _ _ _ _ G).
  - rewrite Ht. cbn [take]. destruct n as [|n]; [lia|]. rewrite (g_run _ _ _ _ G) in Ht. injection Ht as Ht.
    rewrite skip_pages_app by (try done; rewrite ?u64_small by (unfold is_u64; nia); lia). cbn [plus].
    unfold HOSTSHMEM_MAX_PAGES. rewrite length_app. cbn [length]. rewrite (proj2 (Z.eqb_neq _ _)) by lia.
    rewrite !u64_small by (unfold is_u64; nia). replace (Z.of_nat (S n) * _ - _) with (Z.of_nat n * z_hugepage_sz z) by nia.
    replace (length ps0 + 1)%nat with (length (ps0 ++ [Seg phys addr (z_hugepage_sz z)])) by (rewrite length_app; done).
    rewrite fill_pages_run by (rewrite ?length_app; cbn [length]; nia). cbn. by rewrite Ht, <- app_assoc.
Qed.

(** [l] is a contiguous part of [k]. *)
Definition infix {A} (l k : list A) : Prop := ∃ a b, k = a ++ l ++ b.
Definition zone_before (e f : metadata_entry) : Prop := z_phys (mz e) + z_len (mz e) <= z_phys (mz f).
Lemma collect_pages_zones es ps b : collected ps b → (∀ e, e ∈ es → zone_in huge (mz e) ∧ b <= z_phys (mz e)) →
  StronglySorted zone_before es →
  ∃ ps' b', collect_pages es ps = Some ps' ∧ collected ps' b' ∧ (ps `prefix_of` ps') ∧
    (∀ p, p ∈ ps' → p ∈ ps ∨ ∃ e, e ∈ es ∧ p ∈ zone_run (mz e)) ∧ ∀ e, e ∈ es → infix (zone_run (mz e)) ps'.
Proof.
  intros Hc Hes Hs. revert ps b Hc Hes. induction Hs as [|e es Hs IH He]; intros ps b Hc Hes; cbn.
  { exists ps, b. split_and!; [done|done|done|by left|]. intros e Hin. by apply elem_of_nil in Hin. }
  destruct (Hes e) as [Hz Hb]; [left|]. destruct (zone_pages_collected ps b _ Hc Hz Hb) as (ps0 & ps1 & -> & Hps & Hps1 & Hc1).
  cbn. destruct (IH ps1 _ Hc1) as (ps' & b' & Hcol & Hc' & Hpre & Hneed & Hinf).
  { intros f Hf. split; [apply Hes; by right|]. by apply Forall_forall with (x := f) in He. }
  exists ps', b'. split_and!; [done|done| | |].
  - etrans; [|done]. subst ps1. destruct Hps as [->| ->]; [by apply prefix_app_r|].
    rewrite <- (take_drop 1 (zone_run (mz e))) at 2. rewrite app_assoc. by apply prefix_app_r.
  - intros p Hp. apply Hneed in Hp as [Hp|(f & Hf & Hp)]; [|right; exists f; split; [by right|done]]. subst ps1.
    apply elem_of_app in Hp as [Hp|Hp]; [left; destruct Hps as [->| ->]; [done|apply elem_of_app; by left]|right; exists e; split; [left|done]].
  - intros f [->|Hf]%elem_of_cons; [|by apply Hinf]. destruct Hpre as [t ->]. subst ps1. exists ps0, t. by rewrite app_assoc.
Qed.
Lemma collect_pages_unused es ps : (∀ e, e ∈ es → z_addr (mz e) = 0) → collect_pages es ps = Some ps.
Proof.
  revert ps. induction es as [|e es IH]; intros ps Hes; cbn; [done|]. unfold zone_pages.
  rewrite (Hes e) by left. cbn. apply IH. intros f Hf. apply Hes. by right.
Qed.
Lemma collect_pages_app es fs ps : collect_pages (es ++ fs) ps = collect_pages es ps ≫= collect_pages fs.
Proof. revert ps. induction es as [|e es IH]; intros ps; cbn; [done|]. destruct (zone_pages ps (mz e)); cbn; [apply IH|done]. Qed.

(** The table: zones in pages of the process that share no memory, and unused
    entries. *)
Record table_ok (es : list metadata_entry) : Prop := {
  t_zones : ∀ e, e ∈ es → used e → zone_in huge (mz e);
  t_once : NoDup (filter used es);
  t_apart : ∀ e f, e ∈ es → f ∈ es → used e → used f → e ≠ f →
    apart (z_phys (mz e)) (z_len (mz e)) (z_phys (mz f)) (z_len (mz f)) }.
#[local] Instance table_ok_perm : Proper (Permutation ==> iff) table_ok.
Proof.
  intros es fs E. split; intros [Hz Ho Ha]; split.
  - intros e. rewrite <- E. apply Hz.
  - by rewrite <- E.
  - intros e f. rewrite <- E. apply Ha.
  - intros e. rewrite E. apply Hz.
  - by rewrite E.
  - intros e f. rewrite E. apply Ha.
Qed.

(** The order of the sorted table. *)
Lemma sorted_used_first es : StronglySorted (le entry_compare) es →
  used_first es.
Proof.
  unfold used_first. induction 1 as [|e es Hs IH He]; [done|]. rewrite !filter_cons. unfold used in *. destruct (decide (z_addr (mz e) ≠ 0)) as [Hu|Hu].
  - rewrite decide_False by naive_solver. cbn. by f_equal.
  - rewrite decide_True by done. assert (filter used es = []) as E.
    { apply filter_none. intros f Hf Huf. apply Forall_forall with (x := f) in He; [|done].
      apply entry_compare_le in He. unfold used in Huf. naive_solver. }
    unfold used in E. rewrite E in *. cbn in *. by f_equal.
Qed.
Lemma sorted_zones_before es : table_ok es → StronglySorted (le entry_compare) es → StronglySorted zone_before (filter used es).
Proof.
  intros [Hz Ho Ha] Hs. induction Hs as [|e es Hs IH He]; [constructor|]. rewrite filter_cons in *. case_decide as Hu; cycle 1.
  { apply IH; [intros; apply Hz; set_solver|done|intros; apply Ha; set_solver]. }
  apply NoDup_cons in Ho as [Hni Ho]. constructor; [apply IH; [intros; apply Hz; set_solver|done|intros; apply Ha; set_solver]|].
  apply Forall_forall. intros f Hf. pose proof Hf as [Huf Hf']%list_elem_of_filter. apply Forall_forall with (x := f) in He; [|done].
  apply entry_compare_le in He as [?|[_ He]]; [done|]. assert (e ≠ f) as Hne by (intros ->; done).
  destruct (zone_len _ _ (Hz f ltac:(by right) Huf)). destruct (Ha e f) as [?|?]; [left|by right|done|done|done|done|unfold zone_before; lia].
Qed.
Lemma collect_pages_ok es : table_ok es →
  ∃ ps, collect_pages (qsort entry_compare es) [] = Some ps ∧ ps ⊆ huge ∧ NoDup ps ∧
    (∀ p, p ∈ ps → ∃ e, e ∈ es ∧ used e ∧ p ∈ zone_run (mz e)) ∧ ∀ e, e ∈ es → used e → infix (zone_run (mz e)) ps.
Proof.
  intros Ht. pose proof (qsort_perm entry_compare es) as Hp.
  pose proof (qsort_sorted entry_compare entry_compare_total entry_compare_trans es) as Hs.
  assert (table_ok (qsort entry_compare es)) as Ht' by by rewrite Hp.
  set (qs := qsort entry_compare es) in *. pose proof (sorted_zones_before qs Ht' Hs) as Hb.
  destruct (collect_pages_zones (filter used qs) [] 0) as (ps & b & Hcol & Hc & _ & Hneed & Hinf); [|..].
  - split; [set_solver|constructor|]. intros p Hin. by apply elem_of_nil in Hin.
  - intros e [Hu He]%list_elem_of_filter. pose proof (t_zones _ Ht' e He Hu) as Hz. split; [done|].
    destruct (zone_geometry _ Hz) as (n & phys & addr & G). destruct (g_first _ _ _ _ G), (g_bounds _ _ _ _ G). lia.
  - done.
  - exists ps. split_and!; [|apply Hc|eapply sorted_nodup, Hc| |].
    + rewrite (sorted_used_first qs Hs), collect_pages_app, Hcol. cbn. apply collect_pages_unused.
      intros e [Hu _]%list_elem_of_filter. unfold used in Hu. destruct (Z.eq_dec (z_addr (mz e)) 0); naive_solver.
    + intros p Hin. apply Hneed in Hin as [Hin|(e & [Hu He]%list_elem_of_filter & Hin)]; [by apply elem_of_nil in Hin|].
      exists e. split_and!; [by rewrite <- Hp|done|done].
    + intros e He Hu. apply Hinf, list_elem_of_filter. split; [done|]. by rewrite Hp.
Qed.
End pages.

(** *** Second pass *)
Definition bigger_first (p q : rte_memseg) : Prop := s_len q <= s_len p.
Definition pages_used (ps : list rte_memseg) : Prop := ∀ p, p ∈ ps → s_addr p ≠ 0 ∧ 0 < s_len p.
Lemma find_biggest_spec ps j best : pages_used ps → 0 <= fst best →
  (find_biggest ps j best = best ∧ ∀ p, p ∈ ps → s_len p <= fst best) ∨
  ∃ l1 p l2, ps = l1 ++ p :: l2 ∧ find_biggest ps j best = (s_len p, (j + length l1)%nat) ∧ fst best < s_len p ∧
    (∀ q, q ∈ l1 → s_len q < s_len p) ∧ ∀ q, q ∈ l2 → s_len q <= s_len p.
Proof.
  revert j best. induction ps as [|p ps IH]; intros j best Hok Hb; cbn.
  { left. split; [done|]. intros p Hin. by apply elem_of_nil in Hin. }
  destruct (Hok p) as [Ha Hl]; [left|]. apply Z.eqb_neq in Ha as ->. assert (pages_used ps) as Hok' by (intros q ?; apply Hok; by right).
  destruct ((fst best =? 0) || (fst best <? s_len p)) eqn:E.
  - assert (fst best < s_len p) as Hlt by (apply orb_true_iff in E as [?|?]; lia). right.
    destruct (IH (S j) (s_len p, j) Hok') as [[-> Hle]|(l1 & q & l2 & -> & -> & Hq & H1 & H2)]; [cbn; lia|..]; cbn in *.
    + exists [], p, ps. rewrite Nat.add_0_r. split_and!; try done. intros q Hq. by apply elem_of_nil in Hq.
    + exists (p :: l1), q, l2. cbn. rewrite Nat.add_succ_r. split_and!; try done; [lia|]. intros r [->|Hr]%elem_of_cons; auto.
  - apply orb_false_iff in E as [E1%Z.eqb_neq E2%Z.ltb_ge].
    destruct (IH (S j) best Hok' Hb) as [[-> Hle]|(l1 & q & l2 & -> & -> & Hq & H1 & H2)]; cbn in *.
    + left. split; [done|]. intros r [->|Hr]%elem_of_cons; auto.
    + right. exists (p :: l1), q, l2. cbn. rewrite Nat.add_succ_r. split_and!; try done. intros r [->|Hr]%elem_of_cons; [lia|auto].
Qed.
Lemma sort_pages_step f ps : pages_used ps → ps ≠ [] → ∃ l1 p l2, ps = l1 ++ p :: l2 ∧
  sort_pages (S f) ps = p :: sort_pages f (l1 ++ l2) ∧
  (∀ q, q ∈ l1 → s_len q < s_len p) ∧ ∀ q, q ∈ l2 → s_len q <= s_len p.
Proof.
  intros Hok Hne. destruct (find_biggest_spec ps 0 (0, 0%nat) Hok) as [[_ Hle]|(l1 & p & l2 & -> & Hf & _ & H1 & H2)]; [done| |].
  - exfalso. destruct ps as [|p ps]; [done|]. pose proof (Hle p ltac:(left)). destruct (Hok p ltac:(left)). cbn in *. lia.
  - exists l1, p, l2. split_and!; try done. destruct (l1 ++ p :: l2) as [|x l] eqn:E; [by destruct l1|].
    destruct (Hok x ltac:(left)) as [Ha _]. cbn [sort_pages]. apply Z.eqb_neq in Ha as ->. rewrite Hf. cbn [snd plus]. rewrite <- E.
    rewrite list_lookup_middle, take_app_length, <- Nat.add_1_r, drop_app_add by (done || lia). done.
Qed.
(** The second pass is a stable sort. *)
Lemma sort_pages_ok fuel ps : (length ps <= fuel)%nat → pages_used ps →
  sort_pages fuel ps ≡ₚ ps ∧ StronglySorted bigger_first (sort_pages fuel ps) ∧
  ∀ s, filter (λ p, s_len p = s) (sort_pages fuel ps) = filter (λ p, s_len p = s) ps.
Proof.
  revert ps. induction fuel as [|f IH]; intros ps Hf Hok.
  { destruct ps; cbn in *; [|lia]. split_and!; [done|constructor|done]. }
  destruct (decide (ps = [])) as [->|Hne]; [cbn; split_and!; [done|constructor|done]|].
  destruct (sort_pages_step f ps Hok Hne) as (l1 & p & l2 & -> & -> & H1 & H2).
  destruct (IH (l1 ++ l2)) as (Hp & Hs & Hfil).
  { rewrite length_app in *. cbn in *. lia. } { intros q Hq. apply Hok. set_solver. }
  split_and!.
  - rewrite Hp. apply Permutation_middle.
  - constructor; [done|]. rewrite Hp. apply Forall_forall. intros q [Hq|Hq]%elem_of_app; unfold bigger_first; [|auto].
    pose proof (H1 q Hq). lia.
  - intros s. rewrite filter_cons, Hfil, !filter_app, filter_cons. case_decide as E; [|done].
    assert (filter (λ p, s_len p = s) l1 = []) as ->; [|done].
    apply filter_none. intros q Hq Hs'. pose proof (H1 q Hq). lia.
Qed.
Lemma bigger_first_split ps s : StronglySorted bigger_first ps →
  infix (filter (λ p, s_len p = s) ps) ps.
Proof.
  intros Hs. exists (filter (λ p, s < s_len p) ps), (filter (λ p, s_len p < s) ps). induction Hs as [|p ps Hs IH Hp]; [done|].
  rewrite !filter_cons. destruct (Z.lt_trichotomy (s_len p) s) as [Hlt|[Heq|Hgt]].
  - assert (∀ q, q ∈ ps → s_len q < s) as Hall.
    { intros q Hq. apply Forall_forall with (x := q) in Hp; [|done]. unfold bigger_first in Hp. lia. }
    rewrite !(decide_False (P := s < _)), !(decide_False (P := _ = s)), decide_True by lia.
    assert (filter (λ p, s < s_len p) ps = []) as E1 by (apply filter_none; intros q Hq; pose proof (Hall q Hq); lia).
    assert (filter (λ p, s_len p = s) ps = []) as E2 by (apply filter_none; intros q Hq; pose proof (Hall q Hq); lia).
    rewrite E1, E2 in *. cbn in *. by f_equal.
  - assert (∀ q, q ∈ ps → s_len q <= s) as Hall.
    { intros q Hq. apply Forall_forall with (x := q) in Hp; [|done]. unfold bigger_first in Hp. lia. }
    rewrite (decide_False (P := s < _)), (decide_True (P := _ = s)), decide_False by lia.
    assert (filter (λ p, s < s_len p) ps = []) as E1 by (apply filter_none; intros q Hq; pose proof (Hall q Hq); lia).
    rewrite E1 in *. cbn in *. by f_equal.
  - rewrite (decide_True (P := s < _)), (decide_False (P := _ = s)), decide_False by lia. cbn. by f_equal.
Qed.
(** Pages of one size in a row stay in a row. *)
Lemma sort_pages_infix fuel ps l s : (length ps <= fuel)%nat → pages_used ps → (∀ p, p ∈ l → s_len p = s) →
  infix l ps → infix l (sort_pages fuel ps).
Proof.
  intros Hf Hok Hl (a & b & ->). destruct (sort_pages_ok fuel _ Hf Hok) as (_ & Hs & Hfil).
  destruct (bigger_first_split _ s Hs) as (c & d & E). rewrite Hfil, !filter_app in E.
  rewrite (filter_all _ l Hl) in E. exists (c ++ filter (λ p, s_len p = s) a), (filter (λ p, s_len p = s) b ++ d).
  rewrite E. by rewrite <- !app_assoc.
Qed.

(** *** Third pass

    The guest maps the pages one after the other: the address, in the process,
    of byte [o] of the guest's memory. *)
Definition guest_at (ps : list rte_memseg) (o : Z) : option Z := '(p, d) ← at_offset s_len ps o; Some (s_addr p + d).
(** The guest finds the whole of a zone at its offset. *)
Definition placed (ps : list rte_memseg) (e : metadata_entry) : Prop :=
  0 <= offset e ∧ ∀ k, 0 <= k < z_len (mz e) → guest_at ps (offset e + k) = Some (z_addr (mz e) + k).

Lemma pages_used_len ps p : pages_used ps → p ∈ ps → 0 < s_len p.
Proof. intros Hok Hp. by destruct (Hok p Hp). Qed.
Lemma total_len_nonneg ps : pages_used ps → 0 <= total_len ps.
Proof. eauto using total_nonneg, pages_used_len. Qed.
Lemma guest_at_run n phys addr sz qs o : 0 < sz → 0 <= o < Z.of_nat n * sz →
  guest_at (run n phys addr sz ++ qs) o = Some (addr + o).
Proof.
  intros Hsz. unfold guest_at. revert phys addr o. induction n as [|n IH]; intros phys addr o Ho; [lia|]. cbn [run at_offset app s_len].
  destruct (Z.ltb_spec o sz); [done|]. rewrite IH by nia. f_equal. lia.
Qed.
Lemma find_offset_at ps q qs addr off : pages_used ps → 0 <= off → off + total_len ps + s_len q < 2 ^ 64 →
  (∀ p, p ∈ ps → 0 < s_addr p ∧ s_addr p + s_len p < 2 ^ 64 ∧ apart (s_addr p) (s_len p) addr 1) →
  0 < s_addr q → s_addr q <= addr < s_addr q + s_len q → s_addr q + s_len q < 2 ^ 64 →
  find_offset (ps ++ q :: qs) addr off = Some (off + total_len ps + (addr - s_addr q)).
Proof.
  intros Hok. revert off. induction ps as [|p ps IH]; intros off Ho Htot Hps Hq1 Hq2 Hq3; cbn [find_offset app].
  - cbn in *. rewrite (u64_small (_ + s_len q)) by (unfold is_u64; lia).
    rewrite (proj2 (Z.leb_le _ _)), (proj2 (Z.ltb_lt _ _)) by lia. cbn. rewrite !u64_small by (unfold is_u64; rewrite ?u64_small by (unfold is_u64; lia); lia).
    f_equal. lia.
  - destruct (Hps p ltac:(left)) as (Hp1 & Hp2 & Hp3), (Hok p ltac:(left)) as [_ Hp4]. unfold apart in Hp3.
    assert (pages_used ps) as Hok' by (intros r ?; apply Hok; by right). pose proof (total_len_nonneg _ Hok').
    rewrite total_cons in *. rewrite (u64_small (s_addr p + _)) by (unfold is_u64; lia).
    destruct (Z.leb_spec (s_addr p) addr), (Z.ltb_spec addr (s_addr p + s_len p)); cbn; try lia;
      (rewrite u64_small by (unfold is_u64; lia); rewrite IH; [f_equal; lia|done|lia|lia| |lia|lia|lia];
       intros r ?; apply Hps; by right).
Qed.

Section offsets.
Context (huge : list rte_memseg) (HL : layout huge).

Lemma layout_used ps : ps ⊆ huge → pages_used ps.
Proof. intros Hsub p Hp. destruct (pages_ok _ HL p (Hsub _ Hp)) as (? & ? & _). lia. Qed.
Lemma total_len_sub ps : ps ⊆ huge → NoDup ps → total_len ps < 2 ^ 64.
Proof.
  intros Hsub Hnd. destruct (submseteq_Permutation ps huge) as [k Hk]; [by apply NoDup_submseteq|].
  pose proof (pages_total _ HL) as Ht. rewrite Hk, total_app in Ht.
  assert (0 <= total_len k); [|lia]. apply total_len_nonneg, layout_used. intros p Hp. rewrite Hk. set_solver.
Qed.
Lemma zone_placed ps z : zone_in huge z → ps ⊆ huge → NoDup ps → infix (zone_run z) ps →
  ∃ o, find_offset ps (z_addr z) 0 = Some o ∧ 0 <= o ∧ ∀ k, 0 <= k < z_len z → guest_at ps (o + k) = Some (z_addr z + k).
Proof.
  intros Hz Hsub Hnd (a & b & Hps). destruct (zone_geometry huge HL z Hz) as (n & phys & addr & G).
  destruct (zone_first huge z n phys addr Hz G) as [Hq [t Ht]]. set (q := Seg phys addr (z_hugepage_sz z)) in *.
  destruct (g_first _ _ _ _ G), (g_last _ _ _ _ G), (pages_ok _ HL q Hq) as (Hq1 & Hq2 & Hq3 & _). cbn in Hq1, Hq2, Hq3.
  assert (a ⊆ huge) as Ha by set_solver. pose proof (total_len_nonneg a (layout_used a Ha)).
  pose proof (total_len_sub ps Hsub Hnd) as Htot. assert (pages_used b) as Hb by (apply layout_used; set_solver).
  pose proof (total_len_nonneg b Hb). exists (total_len a + (z_addr z - addr)). split; [|split; [lia|]].
  - rewrite Hps, Ht. cbn [app]. rewrite (find_offset_at a q (t ++ b) _ 0); [done|by apply layout_used|done| | |done|cbn; lia|cbn; lia].
    + rewrite Hps, Ht, total_app in Htot. cbn [app] in Htot. rewrite total_cons, total_app in Htot.
      assert (0 <= total_len t); [|cbn in *; lia]. apply total_len_nonneg, layout_used.
      intros p Hp. apply Hsub. rewrite Hps, Ht. set_solver.
    + intros p Hp. destruct (pages_ok _ HL p (Ha _ Hp)) as (? & ? & ? & _). split_and!; [done|done|].
      destruct (pages_apart _ HL p q (Ha _ Hp) Hq) as [[?|?] _]; unfold apart, q in *; cbn in *; [|lia|lia].
      intros ->. rewrite Hps, Ht in Hnd. apply NoDup_app in Hnd as (_ & Hno & _). apply (Hno _ Hp). set_solver.
  - intros k Hk. unfold guest_at. rewrite Hps, <- Z.add_assoc, at_offset_app_r by (lia || eauto using pages_used_len, layout_used).
    rewrite (g_run _ _ _ _ G). fold (guest_at (run n phys addr (z_hugepage_sz z) ++ b) (z_addr z - addr + k)).
    rewrite guest_at_run by lia. f_equal. lia.
Qed.
Lemma write_offsets_placed ps us zs : ps ⊆ huge → NoDup ps →
  (∀ e, e ∈ us → used e ∧ zone_in huge (mz e) ∧ infix (zone_run (mz e)) ps) → (∀ e, e ∈ zs → ¬ used e) →
  ∃ us', write_offsets ps (us ++ zs) = Some (us' ++ zs) ∧ mz <$> us' = mz <$> us ∧ ∀ e, e ∈ us' → placed ps e.
Proof.
  intros Hsub Hnd Hus Hzs. induction us as [|e us IH]; cbn [app write_offsets].
  - exists []. split_and!; [|done|intros e He; by apply elem_of_nil in He]. destruct zs as [|z zs]; [done|]. cbn.
    rewrite (proj2 (Z.eqb_eq _ _)); [done|]. destruct (Z.eq_dec (z_addr (mz z)) 0); [done|]. by destruct (Hzs z ltac:(left)).
  - destruct (Hus e ltac:(left)) as (Hu & Hz & Hinf). apply Z.eqb_neq in Hu as ->.
    destruct (zone_placed ps _ Hz Hsub Hnd Hinf) as (o & -> & Ho). cbn.
    destruct IH as (us' & -> & Hmz & Hpl); [intros f ?; apply Hus; by right|]. cbn.
    exists (Entry (mz e) o :: us'). split_and!; [done|cbn; by f_equal|].
    intros f [->|Hf]%elem_of_cons; [done|by apply Hpl].
Qed.
(** The pages of some zones. *)
Definition needed (zs : list rte_memzone) (p : rte_memseg) : Prop := ∃ z, z ∈ zs ∧ z_addr z ≠ 0 ∧ p ∈ zone_run z.
(** The first three passes. *)
Lemma passes_placed es : table_ok huge es →
  let qs := qsort entry_compare es in
  ∃ ps0 es', collect_pages qs [] = Some ps0 ∧ let ps := sort_pages max_pages ps0 in
    write_offsets ps qs = Some es' ∧ ps ⊆ huge ∧ NoDup ps ∧ mz <$> es' ≡ₚ mz <$> es ∧ used_first es' ∧
    (∀ p, p ∈ ps ↔ needed (mz <$> es) p) ∧ ∀ e, e ∈ es' → used e → placed ps e.
Proof.
  intros Ht qs. destruct (collect_pages_ok huge HL es Ht) as (ps0 & Hcol & Hsub & Hnd & Hneed & Hinf). exists ps0.
  pose proof (qsort_perm entry_compare es) as Hp. fold qs in Hp, Hcol.
  assert (length ps0 <= max_pages)%nat as Hlen.
  { rewrite max_pages_eq. pose proof (pages_few _ HL). pose proof (submseteq_length ps0 huge (NoDup_submseteq _ _ Hnd Hsub)). unfold HOSTSHMEM_MAX_HUGEPAGES, HOSTSHMEM_MAX_PAGES in *. lia. }
  destruct (sort_pages_ok _ _ Hlen (layout_used _ Hsub)) as (Hperm & _ & _). set (ps := sort_pages _ ps0) in *.
  assert (ps ⊆ huge) as Hsub' by (intros p; rewrite Hperm; apply Hsub). assert (NoDup ps) as Hnd' by by rewrite Hperm.
  pose proof (sorted_used_first qs (qsort_sorted _ entry_compare_total entry_compare_trans es)) as Hsplit.
  destruct (write_offsets_placed ps (filter used qs) (filter (λ e, ¬ used e) qs) Hsub' Hnd') as (us' & Hw & Hmz & Hpl).
  - intros e [Hu He]%list_elem_of_filter. assert (e ∈ es) as He' by by rewrite <- Hp. pose proof (t_zones _ _ Ht e He' Hu) as Hz.
    split_and!; [done|done|]. apply sort_pages_infix with (s := z_hugepage_sz (mz e)); [done|by apply layout_used| |by apply Hinf].
    intros p (j & _ & ->)%run_in. done.
  - intros e He. by apply list_elem_of_filter in He as [? _].
  - exists (us' ++ filter (λ e, ¬ used e) qs). rewrite <- Hsplit in Hw.
    split; [done|]. cbv zeta. split_and!; try done.
    + rewrite fmap_app, Hmz, <- fmap_app, <- Hsplit. by apply Permutation_map.
    + apply used_first_app; [|intros e He; by apply list_elem_of_filter in He as [? _]].
      intros e He. assert (mz e ∈ mz <$> filter used qs) as Hm by (rewrite <- Hmz; by apply list_elem_of_fmap_2).
      apply list_elem_of_fmap in Hm as (f & Hf & [Hu _]%list_elem_of_filter). unfold used. by rewrite Hf.
    + intros p. rewrite Hperm. split.
      * intros (e & He & Hu & Hin)%Hneed. exists (mz e). split; [by apply list_elem_of_fmap_2|done].
      * intros (z & (e & -> & He)%list_elem_of_fmap & Hu & Hin). destruct (Hinf e He Hu) as (a & b & ->). set_solver.
    + intros e [He|He]%elem_of_app Hu; [by apply Hpl|]. by apply list_elem_of_filter in He as [? _].
Qed.
End offsets.
