(* ===== verification/ShmFiles.v ===== *)
(** * Host shared memory: the files of the pages

    The fourth pass of [build_config] of
    [lib/librte_hostshmem/rte_hostshmem.c] and the function it finds the file
    of a page with, [get_hugefile_by_virt_addr], which reads
    [/proc/self/maps]. *)
From S2P Require Import Prelude CStr Align ShmPages.
From Stdlib Require Import Ascii.
Open Scope Z_scope.

Definition PATH_MAX : Z := 4096.

(** The outcome of a call: a result, the error [-1], or undefined behaviour. *)
Inductive res (A : Type) := Ok (a : A) | Fail | Undef.
Arguments Ok {_} _.
Arguments Fail {_}.
Arguments Undef {_}.
#[export] Instance res_ret : MRet res := @Ok.
#[export] Instance res_bind : MBind res := λ A B f m, match m with Ok a => f a | Fail => Fail | Undef => Undef end.
(** An [option] whose [None] is the error, and one whose [None] is undefined. *)
Definition or_fail {A} (o : option A) : res A := match o with Some a => Ok a | None => Fail end.
Definition or_undef {A} (o : option A) : res A := match o with Some a => Ok a | None => Undef end.

Lemma res_bind_ok {A B} (m : res A) (f : A → res B) a : m = Ok a → m ≫= f = f a.
Proof. by intros ->. Qed.
Lemma or_fail_ok {A} (o : option A) a : o = Some a → or_fail o = Ok a.
Proof. by intros ->. Qed.

(** ** [/proc/self/maps] *)

Definition newline : ascii := "010".

(** [GET_PAGEMAP_ADDR]: the number and the string after the delimiter;
    [strtoull] sets [errno] when the number does not fit. *)
Definition GET_PAGEMAP_ADDR (s : string) (dlm : ascii) : option (Z * string) :=
  let '(v, e) := strto_mag 16 s in
  match v, e with
  | Some (neg, v), String c r =>
      if (ULONG_MAX <? v) || negb (Ascii.eqb c dlm) then None else Some (if neg : bool then u64 (- v) else v, r)
  | None, String c r => if Ascii.eqb c dlm then Some (0, r) else None
  | _, EmptyString => None
  end.

(** A line either ends the search ([inr]: the start of the mapping and the path
    if it ends with a newline), or not ([inl]). *)
Definition maps_line (virt_addr : Z) (buf : string) : res (unit + Z * option string) :=
  '(start_addr, s) ← or_fail (GET_PAGEMAP_ADDR buf "-");
  if virt_addr <? start_addr then Ok (inl ()) else
  '(end_addr, s) ← or_fail (GET_PAGEMAP_ADDR s " ");
  if end_addr <=? virt_addr then Ok (inl ()) else
  match strchr "/" s with
  | None => Ok (inl ())
  | Some s => Ok (inr (start_addr, before newline s))
  end.
(** [f] is what [fgets] gives, [None] when the file does not open. The path
    goes to a field of [PATH_MAX] characters. *)
Fixpoint search_maps (virt_addr : Z) (f : list string) : res (string * Z) :=
  match f with
  | [] => Fail
  | buf :: f =>
      r ← maps_line virt_addr buf;
      match r with
      | inl () => search_maps virt_addr f
      | inr (_, None) => Fail
      | inr (start_addr, Some path) =>
          if strlen path <? PATH_MAX then Ok (path, u64 (virt_addr - start_addr)) else Undef
      end
  end.
Definition get_hugefile_by_virt_addr (f : option (list string)) (virt_addr : Z) : res (string * Z) :=
  match f with Some f => search_maps virt_addr f | None => Fail end.

(** ** Fourth pass

    A page that continues the file of the one before lengthens its entry. *)
Record memseg_cache_entry := Cached { filepath : string; c_offset : Z; c_len : Z }.
Definition zero_cache : memseg_cache_entry := Cached "" 0 0.
Definition continues (prev c : memseg_cache_entry) : bool :=
  strcmp_eq (filepath c) (filepath prev) && (u64 (c_offset prev + c_len prev) =? c_offset c).
(** [ms] is the array, [it] is [ms_iter], [prev] the place of the entry before. *)
Fixpoint build_cache (hugefile : Z → res (string * Z)) (ps : list rte_memseg) (it : nat) (prev : option nat)
    (ms : list memseg_cache_entry) : res (list memseg_cache_entry) :=
  match ps with
  | [] => Ok ms
  | p :: ps =>
      if s_addr p =? 0 then Ok ms else
      '(path, off) ← hugefile (s_addr p);
      let c := Cached path off (s_len p) in
      match (i ← prev; pe ← ms !! i; if continues pe c then Some (i, pe) else None) with
      | Some (i, pe) =>
          build_cache hugefile ps it prev
            (<[it := zero_cache]> (<[i := Cached (filepath pe) (c_offset pe) (u64 (c_len pe + s_len p))]> ms))
      | None => build_cache hugefile ps (S it) (Some it) (<[it := c]> ms)
      end
  end.

(** The table of pages for the other process has 32 entries: an entry past its
    end is undefined behaviour. The size and the socket of the array of pages
    are never set, so they are zero here. *)
Record hugepage_entry := HpEntry { hp_name : string; hp_phys : Z; hp_addr : Z; hp_len : Z; hp_hugepage_sz : Z; hp_socket : Z; hp_path : string }.
Definition zero_hp : hugepage_entry := HpEntry "" 0 0 0 0 0 "".
Fixpoint write_hugepages (ps : list rte_memseg) (i : nat) (ms : list memseg_cache_entry) (hp : list hugepage_entry) : res (list hugepage_entry) :=
  match ps with
  | [] => Ok hp
  | p :: ps =>
      hp ← (if s_addr p =? 0 then Ok hp
            else c ← or_undef (ms !! i);
                 or_undef (store hp (Z.of_nat i) (HpEntry ("hugepage_" +:+ fmt_d (Z.of_nat i)) (s_phys p) (s_addr p) (s_len p) 0 0 (filepath c))));
      write_hugepages ps (S i) ms hp
  end.

(** ** What the cache says of the files

    The files of the cache one after the other are the pages one after the
    other. *)
Definition file_at (ms : list memseg_cache_entry) (o : Z) : option (string * Z) :=
  '(c, d) ← at_offset c_len ms o; Some (filepath c, c_offset c + d).
Definition page_file_at (hugefile : Z → res (string * Z)) (ps : list rte_memseg) (o : Z) : option (string * Z) :=
  '(p, d) ← at_offset s_len ps o;
  match hugefile (s_addr p) with Ok (path, off) => Some (path, off + d) | _ => None end.
Notation total_cached := (total_by c_len).

Section cache.
Context (hugefile : Z → res (string * Z)).
(** The file of each page is found. *)
Definition found (p : rte_memseg) : Prop :=
  s_addr p ≠ 0 ∧ 0 < s_len p ∧ ∃ path off, hugefile (s_addr p) = Ok (path, off) ∧ 0 <= off ∧ off + s_len p < 2 ^ 64.
Definition entry_ok (c : memseg_cache_entry) : Prop := 0 < c_len c ∧ 0 <= c_offset c ∧ c_offset c + c_len c < 2 ^ 64.
(** The first entries [cs] of the cache stand for the pages [ps]. *)
Record covers (cs : list memseg_cache_entry) (ps : list rte_memseg) : Prop := {
  cov_ok : ∀ c, c ∈ cs → entry_ok c;
  cov_total : total_cached cs = total_len ps;
  cov_at : ∀ o, 0 <= o < total_len ps → file_at cs o = page_file_at hugefile ps o }.

Lemma file_at_snoc cs c o : (∀ c, c ∈ cs → entry_ok c) → 0 <= o < total_cached (cs ++ [c]) →
  file_at (cs ++ [c]) o = if o <? total_cached cs then file_at cs o else Some (filepath c, c_offset c + (o - total_cached cs)).
Proof.
  intros Hok Ho. unfold file_at. rewrite total_app, total_cons in Ho. change (total_cached []) with 0 in Ho.
  destruct (Z.ltb_spec o (total_cached cs)); [by rewrite at_offset_app_l by lia|].
  replace o with (total_cached cs + (o - total_cached cs)) at 1 by lia.
  rewrite at_offset_app_r; [|by intros a [? _]%Hok|lia]. cbn [at_offset].
  destruct (Z.ltb_spec (o - total_cached cs) (c_len c)); [done|lia].
Qed.
Lemma page_file_at_snoc ps p path off o : (∀ q, q ∈ ps → found q) → hugefile (s_addr p) = Ok (path, off) →
  0 <= o < total_len (ps ++ [p]) →
  page_file_at hugefile (ps ++ [p]) o = if o <? total_len ps then page_file_at hugefile ps o else Some (path, off + (o - total_len ps)).
Proof.
  intros Hok Hp Ho. unfold page_file_at. rewrite total_app, total_cons in Ho. change (total_len []) with 0 in Ho.
  destruct (Z.ltb_spec o (total_len ps)); [by rewrite at_offset_app_l by lia|].
  replace o with (total_len ps + (o - total_len ps)) at 1 by lia.
  rewrite at_offset_app_r; [|by intros a (_ & ? & _)%Hok|lia]. cbn [at_offset].
  destruct (Z.ltb_spec (o - total_len ps) (s_len p)); [|lia]. cbn. by rewrite Hp.
Qed.
(** A new entry. *)
Lemma covers_snoc cs ps p path off : covers cs ps → (∀ q, q ∈ ps → found q) → found p → hugefile (s_addr p) = Ok (path, off) →
  covers (cs ++ [Cached path off (s_len p)]) (ps ++ [p]).
Proof.
  intros [Hok Htot Hat] Hf (_ & Hl & path' & off' & Hh & ? & ?) Hp. assert (off' = off) as -> by congruence. split.
  - intros c [Hc| ->%list_elem_of_singleton]%elem_of_app; [by apply Hok|]. done.
  - by rewrite !total_app, Htot.
  - intros o Ho. rewrite (page_file_at_snoc _ _ path off) by done. rewrite file_at_snoc, Htot; [|done|].
    + destruct (Z.ltb_spec o (total_len ps)); [|done]. apply Hat. lia.
    + rewrite total_app, Htot. by rewrite total_app in Ho.
Qed.
(** A longer entry. *)
Lemma covers_longer cs pe ps p path off : covers (cs ++ [pe]) ps → (∀ q, q ∈ ps → found q) → found p →
  hugefile (s_addr p) = Ok (path, off) → continues pe (Cached path off (s_len p)) = true → total_len (ps ++ [p]) < 2 ^ 64 →
  covers (cs ++ [Cached (filepath pe) (c_offset pe) (u64 (c_len pe + s_len p))]) (ps ++ [p]).
Proof.
  intros [Hok Htot Hat] Hf (_ & Hl & path' & off' & Hh & ? & ?) Hp Hc Hlt. rewrite Hp in Hh. injection Hh as <- <-.
  destruct (Hok pe ltac:(set_solver)) as (? & ? & ?). apply andb_true_iff in Hc as [Hc1%String.eqb_eq Hc2%Z.eqb_eq]. cbn in *.
  rewrite u64_small in Hc2 by (unfold is_u64; lia). rewrite !total_app, !total_cons in *. change (total_cached []) with 0 in *. change (total_len []) with 0 in *.
  assert (0 <= total_cached cs) by (apply total_nonneg; intros c Hin; by destruct (Hok c ltac:(set_solver))).
  rewrite (u64_small (c_len pe + _)) by (unfold is_u64; lia). split.
  - intros c [Hin| ->%list_elem_of_singleton]%elem_of_app; [apply Hok; set_solver|]. unfold entry_ok. cbn. lia.
  - rewrite !total_app, !total_cons. cbn. lia.
  - intros o Ho. rewrite total_app, total_cons in Ho. change (total_len []) with 0 in Ho.
    rewrite (page_file_at_snoc _ _ path off), file_at_snoc; [|intros c ?; apply Hok; set_solver| |done|done|].
    2: { rewrite total_app, total_cons. cbn. lia. } 2: { rewrite total_app, total_cons. cbn. lia. }
    destruct (Z.ltb_spec o (total_len ps)).
    + rewrite <- Hat by lia. rewrite file_at_snoc; [done|intros c ?; apply Hok; set_solver|]. rewrite total_app, total_cons. cbn. lia.
    + destruct (Z.ltb_spec o (total_cached cs)); [lia|]. cbn. f_equal. f_equal; [congruence|lia].
Qed.

Definition last_place (cs : list memseg_cache_entry) : option nat :=
  match cs with [] => None | _ => Some (pred (length cs)) end.
Lemma last_place_snoc cs c : last_place (cs ++ [c]) = Some (length cs).
Proof. destruct cs; [done|]. cbn. rewrite length_app. cbn. f_equal. lia. Qed.
(** The array [ms] starts with [cs], which stands for the pages [ds]. *)
Record cached (ms cs : list memseg_cache_entry) (ds : list rte_memseg) : Prop := {
  ch_take : take (length cs) ms = cs;
  ch_covers : covers cs ds;
  ch_found : ∀ q, q ∈ ds → found q }.
Lemma cached_new ms cs ds p path off : cached ms cs ds → found p → hugefile (s_addr p) = Ok (path, off) → (length cs < length ms)%nat →
  let c := Cached path off (s_len p) in cached (<[length cs := c]> ms) (cs ++ [c]) (ds ++ [p]).
Proof.
  intros [Ht Hc Hf] Hp Hh Hlen c. split.
  - rewrite length_app. cbn. rewrite Nat.add_1_r. erewrite take_S_r by (apply list_lookup_insert_eq; lia).
    by rewrite take_insert_ge, Ht by lia.
  - by apply covers_snoc.
  - intros q [?| ->%list_elem_of_singleton]%elem_of_app; [by apply Hf|done].
Qed.
Lemma cached_longer ms cs pe ds p path off : cached ms (cs ++ [pe]) ds → found p → hugefile (s_addr p) = Ok (path, off) →
  (length (cs ++ [pe]) < length ms)%nat → continues pe (Cached path off (s_len p)) = true → total_len (ds ++ [p]) < 2 ^ 64 →
  let c := Cached (filepath pe) (c_offset pe) (u64 (c_len pe + s_len p)) in
  cached (<[length (cs ++ [pe]) := zero_cache]> (<[length cs := c]> ms)) (cs ++ [c]) (ds ++ [p]).
Proof.
  intros [Ht Hc Hf] Hp Hh Hlen Hcont Htot c. rewrite length_app in *. cbn [length] in *. split.
  - rewrite length_app. cbn [length]. rewrite take_insert_ge by lia. rewrite Nat.add_1_r in *.
    erewrite take_S_r by (apply list_lookup_insert_eq; lia). rewrite take_insert_ge by lia. f_equal.
    rewrite <- (Nat.min_l (length cs) (S (length cs))) at 1 by lia. rewrite <- take_take, Ht. apply take_app_length.
  - by eapply covers_longer.
  - intros q [?| ->%list_elem_of_singleton]%elem_of_app; [by apply Hf|done].
Qed.
Lemma cached_step ms cs ds p ps : cached ms cs ds → found p → (length cs < length ms)%nat → total_len (ds ++ [p]) < 2 ^ 64 →
  ∃ ms1 cs1, build_cache hugefile (p :: ps) (length cs) (last_place cs) ms = build_cache hugefile ps (length cs1) (last_place cs1) ms1 ∧
    cached ms1 cs1 (ds ++ [p]) ∧ length ms1 = length ms ∧ (length cs <= length cs1 <= S (length cs))%nat ∧
    ∀ j, (length cs1 <= j)%nat → ms !! j = Some zero_cache → ms1 !! j = Some zero_cache.
Proof.
  intros Hch Hp Hlen Htot. pose proof Hp as (Ha & Hl & path & off & Hh & _). apply Z.eqb_neq in Ha.
  assert (∀ P : Prop, ((∀ i pe, last_place cs = Some i → ms !! i = Some pe → continues pe (Cached path off (s_len p)) = false) → P) →
    (∀ cs0 pe, cs = cs0 ++ [pe] → ms !! length cs0 = Some pe → continues pe (Cached path off (s_len p)) = true → P) → P) as Hcases.
  { intros P Hno Hyes. destruct cs as [|pe cs0 _] using rev_ind; [by apply Hno|]. pose proof (ch_take _ _ _ Hch) as Ht.
    assert (ms !! length cs0 = Some pe) as Hpe.
    { rewrite <- (take_drop (length (cs0 ++ [pe])) ms), Ht, <- app_assoc. by apply list_lookup_middle. }
    destruct (continues pe (Cached path off (s_len p))) eqn:E; [by eapply Hyes|]. apply Hno. intros i pe' Hi. rewrite last_place_snoc in Hi.
    intros E2. congruence. }
  apply Hcases; clear Hcases.
  - intros Hno. pose proof (cached_new _ _ _ _ _ _ Hch Hp Hh Hlen) as Hch1. eexists _, _. split; [|split; [exact Hch1|]].
    + cbn [build_cache]. rewrite Ha, Hh. cbn. rewrite last_place_snoc, length_app, Nat.add_1_r.
      destruct (last_place cs) as [i|]; [|done]. cbn. destruct (ms !! i) as [pe|] eqn:Hi; [|done]. cbn. by rewrite (Hno i pe).
    + rewrite length_insert, length_app. cbn. split_and!; [done|lia|lia|]. intros j Hj Hz. by rewrite list_lookup_insert_ne by lia.
  - intros cs0 pe -> Hpe Hcont. pose proof (cached_longer _ _ _ _ _ _ _ Hch Hp Hh Hlen Hcont Htot) as Hch1.
    eexists _, _. split; [|split; [exact Hch1|]].
    + cbn [build_cache]. rewrite Ha, Hh. cbn. rewrite !last_place_snoc. cbn. rewrite Hpe. cbn. rewrite Hcont. by rewrite !length_app.
    + rewrite !length_insert, !length_app in *. cbn in *. split_and!; [done|lia|lia|]. intros j Hj Hz.
      destruct (decide (j = length cs0 + 1)%nat) as [->|]; [apply list_lookup_insert_eq; rewrite length_insert; lia|].
      by rewrite !list_lookup_insert_ne by lia.
Qed.
(** The cache after the fourth pass; entries that were zero stay so. *)
Lemma build_cache_covers ps ds ms cs : cached ms cs ds → (∀ p, p ∈ ps → found p) → total_len (ds ++ ps) < 2 ^ 64 →
  (length cs + length ps <= length ms)%nat →
  ∃ ms' cs', build_cache hugefile ps (length cs) (last_place cs) ms = Ok ms' ∧ cached ms' cs' (ds ++ ps) ∧ length ms' = length ms ∧
    (length cs <= length cs')%nat ∧ ∀ j, (length cs' <= j)%nat → ms !! j = Some zero_cache → ms' !! j = Some zero_cache.
Proof.
  revert ds ms cs. induction ps as [|p ps IH]; intros ds ms cs Hch Hps Htot Hlen.
  { exists ms, cs. rewrite app_nil_r. done. }
  rewrite cons_middle, app_assoc in Htot. cbn [length] in Hlen. destruct (cached_step ms cs ds p ps Hch) as (ms1 & cs1 & -> & Hch1 & Hl1 & Hle & Hz1).
  { apply Hps. left. } { lia. }
  { rewrite total_app in Htot. assert (0 <= total_len ps); [|lia]. apply total_nonneg. intros q Hq.
    by destruct (Hps q ltac:(by right)) as (_ & ? & _). }
  destruct (IH _ _ _ Hch1) as (ms' & cs' & Hb & Hch' & Hl' & Hle' & Hz'); [intros q ?; apply Hps; by right|done|lia|].
  exists ms', cs'. rewrite cons_middle, app_assoc. split_and!; [done|done|lia|lia|]. intros j Hj Hz. apply Hz', Hz1; [done|lia|done].
Qed.
Lemma cached_at ms cs ps o : cached ms cs ps → 0 <= o < total_len ps → file_at ms o = page_file_at hugefile ps o.
Proof.
  intros [Ht [_ Htot Hat] _] Ho. rewrite <- Hat by done. unfold file_at. rewrite <- (take_drop (length cs) ms), Ht.
  by rewrite at_offset_app_l by lia.
Qed.
Lemma build_cache_ok ps ms : (∀ p, p ∈ ps → found p) → total_len ps < 2 ^ 64 → (length ps <= length ms)%nat →
  ∃ ms' cs', build_cache hugefile ps 0 None ms = Ok ms' ∧ cached ms' cs' ps ∧ length ms' = length ms ∧
    ∀ j, (length cs' <= j)%nat → ms !! j = Some zero_cache → ms' !! j = Some zero_cache.
Proof.
  intros Hps Htot Hlen. destruct (build_cache_covers ps [] ms []) as (ms' & cs' & Hb & Hch & Hl & _ & Hz); [|done|done|done|by exists ms', cs'].
  split; [done|split; [|done|]|]; intros q Hq; try (by apply elem_of_nil in Hq). cbn in Hq. lia.
Qed.

(** When no two pages are in the same file, the cache has an entry for each. *)
Definition same_file (p q : rte_memseg) : Prop :=
  ∃ path off off', hugefile (s_addr p) = Ok (path, off) ∧ hugefile (s_addr q) = Ok (path, off').
Lemma build_cache_distinct ps it prev ms : (∀ p, p ∈ ps → found p) → NoDup ps → (∀ p q, p ∈ ps → q ∈ ps → same_file p q → p = q) →
  (∀ i pe p path off, prev = Some i → ms !! i = Some pe → p ∈ ps → hugefile (s_addr p) = Ok (path, off) → path ≠ filepath pe) →
  (it + length ps <= length ms)%nat →
  ∃ ms', build_cache hugefile ps it prev ms = Ok ms' ∧ (∀ j, (j < it)%nat → ms' !! j = ms !! j) ∧
    ∀ j p, ps !! j = Some p → ∃ path off, hugefile (s_addr p) = Ok (path, off) ∧ ms' !! (it + j)%nat = Some (Cached path off (s_len p)).
Proof.
  revert it prev ms. induction ps as [|p ps IH]; intros it prev ms Hf Hnd Hdist Hprev Hlen; cbn [length] in Hlen; [by exists ms|].
  destruct (Hf p ltac:(left)) as (Ha & _ & path & off & Hh & _). cbn [build_cache]. apply Z.eqb_neq in Ha as ->. rewrite Hh. cbn.
  assert ((i ← prev; pe ← ms !! i; if continues pe (Cached path off (s_len p)) then Some (i, pe) else None) = None) as ->.
  { destruct prev as [i|]; [|done]. cbn. destruct (ms !! i) as [pe|] eqn:Hi; [|done]. cbn. unfold continues. cbn.
    pose proof (Hprev i pe p path off eq_refl Hi ltac:(left) Hh) as Hne%String.eqb_neq. unfold strcmp_eq. by rewrite Hne. }
  apply NoDup_cons in Hnd as [Hni Hnd]. destruct (IH (S it) (Some it) (<[it := Cached path off (s_len p)]> ms)) as (ms' & Hb & Hlt & Hat).
  - intros q Hq. apply Hf. by right.
  - done.
  - intros q r Hq Hr. apply Hdist; by right.
  - intros i pe q path' off' [= <-] Hi Hq Hh' ->. rewrite list_lookup_insert_eq in Hi by lia. injection Hi as <-.
    assert (p = q) as -> by (apply Hdist; [left|by right|by exists path, off, off']). done.
  - rewrite length_insert. lia.
  - exists ms'. split_and!; [done|..].
    + intros j Hj. rewrite Hlt by lia. by rewrite list_lookup_insert_ne by lia.
    + intros [|j] q Hq; cbn in Hq.
      * injection Hq as <-. exists path, off. split; [done|]. rewrite Nat.add_0_r, Hlt by lia. by apply list_lookup_insert_eq; lia.
      * rewrite Nat.add_succ_r. by apply Hat.
Qed.
End cache.

(** The table of pages. *)
Definition page_entry (i : nat) (p : rte_memseg) (path : string) : hugepage_entry :=
  HpEntry ("hugepage_" +:+ fmt_d (Z.of_nat i)) (s_phys p) (s_addr p) (s_len p) 0 0 path.
Lemma write_hugepages_ok ps i ms hp : (∀ p, p ∈ ps → s_addr p ≠ 0) → (i + length ps <= length ms)%nat → (i + length ps <= length hp)%nat →
  ∃ hp', write_hugepages ps i ms hp = Ok hp' ∧ length hp' = length hp ∧
    (∀ j p, ps !! j = Some p → ∃ c, ms !! (i + j)%nat = Some c ∧ hp' !! (i + j)%nat = Some (page_entry (i + j) p (filepath c))) ∧
    ∀ j, (j < i ∨ i + length ps <= j)%nat → hp' !! j = hp !! j.
Proof.
  revert i hp. induction ps as [|p ps IH]; intros i hp Hps Hms Hhp; cbn [length write_hugepages] in *; [by exists hp|].
  pose proof (Hps p ltac:(left)) as Ha. apply Z.eqb_neq in Ha as ->.
  destruct (lookup_lt_is_Some_2 ms i) as [c Hc]; [lia|]. rewrite Hc. cbn. rewrite store_in by lia. cbn. rewrite Nat2Z.id.
  destruct (IH (S i) (<[i := page_entry i p (filepath c)]> hp)) as (hp' & Hw & Hl & Hat & Hout); [set_solver|lia|rewrite length_insert; lia|].
  exists hp'. rewrite length_insert in Hl. split_and!; [done|done|..].
  - intros [|j] q Hq; cbn in Hq.
    + injection Hq as <-. exists c. rewrite Nat.add_0_r. split; [done|]. rewrite Hout by lia. apply list_lookup_insert_eq. lia.
    + rewrite Nat.add_succ_r. by apply Hat.
  - intros j Hj. rewrite Hout by lia. by rewrite list_lookup_insert_ne by lia.
Qed.

(** ** Reading [/proc/self/maps]

    A line as the kernel prints it: the addresses, then the permissions, the
    offset, the device and the inode ([m_mid]), then the path. *)
Record mapping := Mapping { m_start : Z; m_end : Z; m_mid : string; m_path : option string }.
Definition maps_text (m : mapping) : string :=
  fmt_lx (m_start m) +:+ String "-" (fmt_lx (m_end m) +:+ String " " (m_mid m +:+ default "" (m_path m) +:+ String newline "")).
Record mapping_ok (m : mapping) : Prop := {
  mo_start : is_u64 (m_start m);
  mo_end : is_u64 (m_end m);
  mo_mid : lacks "/" (m_mid m) = true;
  mo_path : ∀ p, m_path m = Some p → (∃ p', p = String "/" p') ∧ lacks newline p = true ∧ strlen p < PATH_MAX }.
Lemma pagemap_addr_lx n c r : is_u64 n → digit_val c <? 16 = false → (code c =? 120) = false → (code c =? 88) = false →
  GET_PAGEMAP_ADDR (fmt_lx n +:+ String c r) c = Some (n, r).
Proof.
  intros Hn Hd Hx HX. unfold GET_PAGEMAP_ADDR. rewrite strto_mag_lx by done. rewrite Ascii.eqb_refl.
  destruct (Z.ltb_spec ULONG_MAX n); [unfold is_u64, ULONG_MAX in *; lia|]. done.
Qed.
(** The mapping of an address: the first one that has it and has a path. *)
Definition holds (v : Z) (m : mapping) : bool := (m_start m <=? v) && (v <? m_end m) && bool_decide (is_Some (m_path m)).
Lemma maps_line_spec v m : mapping_ok m →
  maps_line v (maps_text m) = if holds v m then Ok (inr (m_start m, m_path m)) else Ok (inl ()).
Proof.
  intros [Hs He Hmid Hpath]. unfold maps_line, maps_text, holds. rewrite pagemap_addr_lx by done. cbn [or_fail mbind res_bind].
  rewrite Z.ltb_antisym. destruct (m_start m <=? v); [|done]. cbn [negb andb].
  rewrite pagemap_addr_lx by done. cbn [or_fail mbind res_bind]. rewrite Z.leb_antisym. destruct (v <? m_end m); [|done]. cbn [negb andb].
  rewrite strchr_lacks by done. destruct (m_path m) as [p|]; [|done]. destruct (Hpath p eq_refl) as ((p' & ->) & Hnl & _). cbn [default].
  change (strchr "/" (id (String "/" p') +:+ String newline "")) with (Some (String "/" p' +:+ String newline "")).
  cbv beta iota. by rewrite (before_lacks newline (String "/" p') "" Hnl).
Qed.
Lemma hugefile_spec v ms : Forall mapping_ok ms →
  get_hugefile_by_virt_addr (Some (maps_text <$> ms)) v =
    match find (holds v) ms with
    | Some m => Ok (default "" (m_path m), u64 (v - m_start m))
    | None => Fail
    end.
Proof.
  induction 1 as [|m ms Hm Hms IH]; [done|]. cbn [get_hugefile_by_virt_addr fmap list_fmap search_maps find] in *.
  rewrite maps_line_spec by done. destruct (holds v m) eqn:E; [|done]. cbn [mbind res_bind].
  apply andb_true_iff in E as [_ [p Hp]%bool_decide_eq_true]. rewrite Hp. destruct (mo_path _ Hm p Hp) as (_ & _ & Hl).
  apply Z.ltb_lt in Hl as ->. done.
Qed.
