(* ===== verification/HostShmem.v ===== *)
(** * librte_hostshmem: sharing memory zones with other processes

    [lib/librte_hostshmem/rte_hostshmem.c]: up to 32 configurations, each a
    table of shared zones in a file ([metadata]), a table of the huge pages that
    hold them in another ([hp_metadata]) and the files of those pages
    ([memseg_cache]). Adding a zone, ring or mempool rebuilds all three
    ([build_config], whose passes are in ShmPages and ShmFiles). Creating and
    mapping files, [malloc] and [/proc/self/maps] are inputs. *)
From S2P Require Import Prelude CStr Align ShmPages ShmFiles.
Open Scope Z_scope.

Definition HOSTSHMEM_MAGIC : Z := 0x0BADC0DE.
Definition HOSTSHMEM_NAME_LEN : Z := 32.
Definition RTE_LIBRTE_HOSTSHMEM_MAX_ENTRIES : Z := 128.
Definition RTE_LIBRTE_HOSTSHMEM_MAX_METADATA_FILES : Z := 32.
Definition HOSTSHMEM_QEMU_CMDLINE_BUFSIZE : Z := 1024.

Record rte_hostshmem_metadata := Metadata { magic_number : Z; md_name : string; entry : list metadata_entry }.
#[export] Instance metadata_upd : Updatable rte_hostshmem_metadata := λ m, Metadata (magic_number m) (md_name m) (entry m).
Record hostshmem_hugepage_metadata := HpMetadata { hp_magic : Z; hp_md_name : string; hp_entries : list hugepage_entry }.
#[export] Instance hp_metadata_upd : Updatable hostshmem_hugepage_metadata := λ m, HpMetadata (hp_magic m) (hp_md_name m) (hp_entries m).
(** [None] is the null pointer. *)
Record hostshmem_config := Config {
  metadata : option rte_hostshmem_metadata; hp_metadata : option hostshmem_hugepage_metadata; memseg_cache : list memseg_cache_entry }.
#[export] Instance config_upd : Updatable hostshmem_config := λ c, Config (metadata c) (hp_metadata c) (memseg_cache c).
(** The configurations and the memory zones of the process, [mcfg->memzone]. *)
Record shmem := Shmem { global_config : list hostshmem_config; memzone : list rte_memzone }.
#[export] Instance shmem_upd : Updatable shmem := λ s, Shmem (global_config s) (memzone s).
Definition zero_config : hostshmem_config := Config None None (replicate max_pages zero_cache).

Fixpoint config_by_name (cs : list hostshmem_config) (i : nat) (nm : string) : option nat :=
  match cs with
  | [] => None
  | c :: cs =>
      match metadata c with
      | None => None
      | Some m => if strncmp_eq nm (md_name m) (Z.to_nat HOSTSHMEM_NAME_LEN) then Some i else config_by_name cs (S i) nm
      end
  end.
Definition get_config_by_name (cs : list hostshmem_config) (nm : string) : option nat := config_by_name cs 0 nm.

Definition overlap (s1 s2 : rte_memzone) : bool :=
  let start1 := z_addr s1 in let end1 := u64 (z_addr s1 + z_len s1) in
  let start2 := z_addr s2 in let end2 := u64 (z_addr s2 + z_len s2) in
  ((start2 <=? start1) && (start1 <? end2)) || ((start1 <=? start2) && (start2 <? end1)).

Fixpoint memzone_by_addr (zs : list rte_memzone) (i : nat) (addr : Z) : option nat :=
  match zs with
  | [] => None
  | z :: zs => if z_addr z =? addr then Some i else memzone_by_addr zs (S i) addr
  end.
Definition get_memzone_by_addr (zs : list rte_memzone) (addr : Z) : option nat := memzone_by_addr zs 0 addr.

(** ** [build_config]

    [maps] is [/proc/self/maps], [mem] whether the two [malloc] succeed. *)
Definition build_tables (maps : option (list string)) (es : list metadata_entry) (ms : list memseg_cache_entry) (hp : list hugepage_entry) :
    res (list metadata_entry * list memseg_cache_entry * list hugepage_entry) :=
  let e_local := qsort entry_compare es in
  ps ← or_fail (collect_pages e_local []);
  let ps := sort_pages max_pages ps in
  e_local ← or_fail (write_offsets ps e_local);
  ms_local ← build_cache (get_hugefile_by_virt_addr maps) ps 0 None ms;
  hp ← write_hugepages ps 0 ms_local hp;
  Ok (e_local, ms_local, hp).
Definition build_config (maps : option (list string)) (mem : bool) (cs : list hostshmem_config) (nm : string) : res (list hostshmem_config) :=
  i ← or_fail (get_config_by_name cs nm);
  c ← or_undef (cs !! i);
  m ← or_undef (metadata c);
  if negb mem then Fail else
  '(es, ms, hps) ← build_tables maps (entry m) (memseg_cache c) (match hp_metadata c with Some hp => hp_entries hp | None => [] end);
  Ok (<[i := Config (Some (m <| entry := es |>)) ((λ hp, hp <| hp_entries := hps |>) <$> hp_metadata c) ms]> cs).

(** ** Adding zones

    [None] is undefined behaviour; a zone is a place in [mcfg->memzone]. *)

(** The free entry, unless an entry before it overlaps. *)
Fixpoint free_entry (es : list metadata_entry) (i : nat) (z : rte_memzone) : option nat :=
  match es with
  | [] => None
  | e :: es =>
      if overlap z (mz e) then None
      else if z_addr (mz e) =? 0 then Some i
      else free_entry es (S i) z
  end.
Definition add_memzone_to_metadata (maps : option (list string)) (mem : bool) (st : shmem) (zi config : nat) : option (shmem * Z) :=
  z ← memzone st !! zi; c ← global_config st !! config; m ← metadata c;
  match free_entry (entry m) 0 z with
  | None => Some (st, -1)
  | Some i =>
      e ← entry m !! i;
      let m := m <| entry := <[i := Entry z (offset e)]> (entry m) |> in
      let cs := <[config := c <| metadata := Some m |>]> (global_config st) in
      match build_config maps mem cs (md_name m) with
      | Undef => None
      | Fail => Some (st <| global_config := cs |>, -1)
      | Ok cs => Some (Shmem cs (<[zi := z <| z_ioremap := z_phys z |>]> (memzone st)), 0)
      end
  end.
(** A ring, and a mempool with its ring, are given by their addresses. *)
Definition add_ring_to_metadata maps mem (st : shmem) (r : Z) (config : nat) : option (shmem * Z) :=
  match get_memzone_by_addr (memzone st) r with
  | None => Some (st, -1)
  | Some zi => add_memzone_to_metadata maps mem st zi config
  end.
Definition add_mempool_to_metadata maps mem (st : shmem) (mp mp_ring : Z) (config : nat) : option (shmem * Z) :=
  match get_memzone_by_addr (memzone st) mp with
  | None => Some (st, -1)
  | Some zi =>
      '(st, ret) ← add_memzone_to_metadata maps mem st zi config;
      if ret <? 0 then Some (st, -1) else add_ring_to_metadata maps mem st mp_ring config
  end.

(** [None] for a name, [0] for an address, is the null pointer. *)
Definition rte_hostshmem_metadata_add_ring maps mem (st : shmem) (r : Z) (nm : option string) : option (shmem * Z) :=
  match nm with
  | None => Some (st, -1)
  | Some nm =>
      if r =? 0 then Some (st, -1) else
      match get_config_by_name (global_config st) nm with
      | None => Some (st, -1)
      | Some config => add_ring_to_metadata maps mem st r config
      end
  end.
Definition rte_hostshmem_metadata_add_memzone maps mem (st : shmem) (zi : option nat) (nm : option string) : option (shmem * Z) :=
  match nm, zi with
  | Some nm, Some zi =>
      match get_config_by_name (global_config st) nm with
      | None => Some (st, -1)
      | Some config => add_memzone_to_metadata maps mem st zi config
      end
  | _, _ => Some (st, -1)
  end.
Definition rte_hostshmem_metadata_add_mempool maps mem (st : shmem) (mp mp_ring : Z) (nm : option string) : option (shmem * Z) :=
  match nm with
  | None => Some (st, -1)
  | Some nm =>
      if mp =? 0 then Some (st, -1) else
      match get_config_by_name (global_config st) nm with
      | None => Some (st, -1)
      | Some config => add_mempool_to_metadata maps mem st mp mp_ring config
      end
  end.

(** ** Creating a configuration

    [md] and [hp] are the contents of the two files, mapped, [None] when opening,
    locking, resizing or mapping the file fails. *)
Fixpoint unused_config (cs : list hostshmem_config) (i : nat) : option nat :=
  match cs with
  | [] => None
  | c :: cs => match metadata c with None => Some i | Some _ => unused_config cs (S i) end
  end.
Definition rte_hostshmem_metadata_create (md : option rte_hostshmem_metadata) (hp : option hostshmem_hugepage_metadata)
    (cs : list hostshmem_config) (nm : option string) : list hostshmem_config * Z :=
  match nm with
  | None => (cs, -1)
  | Some nm =>
      match unused_config cs 0 with
      | None => (cs, -1)
      | Some index =>
          let set f := alter f index cs in
          match md, hp with
          | None, _ => (cs, -1)
          | Some md, None => (set (λ c, Config (Some md) None (memseg_cache c)), -1)
          | Some _, Some _ =>
              let nm := snprintf HOSTSHMEM_NAME_LEN nm in
              (set (λ c, Config
                 (Some (Metadata HOSTSHMEM_MAGIC nm (replicate (Z.to_nat RTE_LIBRTE_HOSTSHMEM_MAX_ENTRIES) zero_entry)))
                 (Some (HpMetadata HOSTSHMEM_MAGIC nm (replicate (Z.to_nat HOSTSHMEM_MAX_HUGEPAGES) zero_hp)))
                 (memseg_cache c)), 0)
          end
      end
  end.

(** ** The primary application shares its memory

    The end of [init] of [pri_lvl1/init.c]: the zone of the port information, the
    pool of buffers and the rings of the clients. [Some None] is [rte_exit]. *)
Definition HOSTSHMEM_METADATA_NAME : string := "pp_hostshmem".
Fixpoint add_rings maps mem (st : shmem) (rings : list Z) : option (option shmem) :=
  match rings with
  | [] => Some (Some st)
  | rx_q :: rings =>
      '(st, ret) ← rte_hostshmem_metadata_add_ring maps mem st rx_q (Some HOSTSHMEM_METADATA_NAME);
      if ret <? 0 then Some None else add_rings maps mem st rings
  end.
Definition init_hostshmem maps mem md hp (st : shmem) (port_zone : nat) (pktmbuf_pool pool_ring : Z) (rings : list Z) : option (option shmem) :=
  let '(cs, ret) := rte_hostshmem_metadata_create md hp (global_config st) (Some HOSTSHMEM_METADATA_NAME) in
  if ret <? 0 then Some None else
  '(st, ret) ← rte_hostshmem_metadata_add_memzone maps mem (st <| global_config := cs |>) (Some port_zone) (Some HOSTSHMEM_METADATA_NAME);
  if negb (ret =? 0) then Some None else
  '(st, ret) ← rte_hostshmem_metadata_add_mempool maps mem st pktmbuf_pool pool_ring (Some HOSTSHMEM_METADATA_NAME);
  if negb (ret =? 0) then Some None else
  add_rings maps mem st rings.

(** ** What a configuration promises

    [huge] are the huge pages of the process. The file of every byte of a page is
    found, at consecutive places of one file. *)
Definition process_byte (maps : option (list string)) (v : Z) : option (string * Z) :=
  match get_hugefile_by_virt_addr maps v with Ok b => Some b | _ => None end.
Definition files_of (maps : option (list string)) (huge : list rte_memseg) : Prop :=
  ∀ p, p ∈ huge → ∃ path off, 0 <= off ∧ off + s_len p < 2 ^ 64 ∧
    ∀ d, 0 <= d < s_len p → get_hugefile_by_virt_addr maps (s_addr p + d) = Ok (path, off + d).
(** The zones in use are in pages of the process and share no addresses. *)
Definition zone_used (z : rte_memzone) : Prop := z_addr z ≠ 0.
#[export] Instance zone_used_dec z : Decision (zone_used z) := _.
Record zones_ok (huge : list rte_memseg) (zs : list rte_memzone) : Prop := {
  zo_zones : ∀ z, z ∈ zs → zone_used z → zone_in huge z;
  zo_unused : ∀ z, z ∈ zs → ¬ zone_used z → z_len z = 0;
  zo_once : NoDup (filter zone_used zs);
  zo_apart : ∀ y z, y ∈ zs → z ∈ zs → zone_used y → zone_used z → y ≠ z → apart (z_addr y) (z_len y) (z_addr z) (z_len z) }.
#[export] Instance zones_ok_perm huge : Proper (Permutation ==> impl) (zones_ok huge).
Proof.
  intros zs ys E [Hz Hu Ho Ha]. split.
  - intros z. rewrite <- E. apply Hz.
  - intros z. rewrite <- E. apply Hu.
  - by rewrite <- E.
  - intros y z. rewrite <- E. apply Ha.
Qed.
Record config_ok (huge : list rte_memseg) (c : hostshmem_config) (m : rte_hostshmem_metadata) (hp : hostshmem_hugepage_metadata) : Prop := {
  co_metadata : metadata c = Some m;
  co_hp : hp_metadata c = Some hp;
  co_cache : length (memseg_cache c) = max_pages;
  co_pages : length (hp_entries hp) = Z.to_nat HOSTSHMEM_MAX_HUGEPAGES;
  co_first : used_first (entry m);
  co_zones : zones_ok huge (mz <$> entry m) }.
(** The other side sees the zones: the byte of the files of the cache at the
    offset of a zone is the byte of the process at the address of the zone. *)
Definition shares (maps : option (list string)) (c : hostshmem_config) : Prop :=
  ∀ m e k, metadata c = Some m → e ∈ entry m → used e → 0 <= k < z_len (mz e) →
    ∃ b, process_byte maps (z_addr (mz e) + k) = Some b ∧ file_at (memseg_cache c) (offset e + k) = Some b.

(** The tables are those of [build_config] for the pages [ps], all of which are
    needed; the rest of the table of pages is unused. *)
Record built (huge : list rte_memseg) (maps : option (list string)) (c : hostshmem_config) (m : rte_hostshmem_metadata)
    (hp : hostshmem_hugepage_metadata) (ps : list rte_memseg) : Prop := {
  bu_sub : ps ⊆ huge;
  bu_once : NoDup ps;
  bu_needed : ∀ p, p ∈ ps ↔ needed (mz <$> entry m) p;
  bu_placed : ∀ e, e ∈ entry m → used e → placed ps e;
  bu_cache : ∃ ms, length ms = max_pages ∧ build_cache (get_hugefile_by_virt_addr maps) ps 0 None ms = Ok (memseg_cache c);
  bu_pages : ∀ j p, ps !! j = Some p → ∃ e, memseg_cache c !! j = Some e ∧ hp_entries hp !! j = Some (page_entry j p (filepath e));
  bu_rest : ∀ j h, (length ps <= j)%nat → hp_entries hp !! j = Some h → h = zero_hp }.

Section sharing.
Context (huge : list rte_memseg) (HL : layout huge) (maps : option (list string)) (HF : files_of maps huge).

(** A byte of a zone is in a page, at the same place in both address spaces. *)
Lemma zone_page z k : zone_in huge z → 0 <= k < z_len z → ∃ p, p ∈ zone_run z ∧
  s_addr p <= z_addr z + k < s_addr p + s_len p ∧ z_addr z - s_addr p = z_phys z - s_phys p.
Proof.
  intros Hz Hk. destruct (zone_geometry huge HL z Hz) as (n & phys & addr & G).
  destruct (g_first _ _ _ _ G), (g_last _ _ _ _ G). pose proof (g_size _ _ _ _ G) as Hsz. set (sz := z_hugepage_sz z) in *.
  pose proof (Z.div_mod (z_addr z + k - addr) sz ltac:(lia)) as Hd. pose proof (Z.mod_pos_bound (z_addr z + k - addr) sz Hsz).
  set (j := (z_addr z + k - addr) / sz) in *. assert (0 <= j) by (apply Z.div_pos; lia). assert (j < Z.of_nat n) by nia.
  exists (Seg (phys + j * sz) (addr + j * sz) sz). split; [|cbn; lia].
  rewrite (g_run _ _ _ _ G). apply run_in. by exists j.
Qed.
Lemma zone_byte z k : zone_in huge z → 0 <= k < z_len z → ∃ p, p ∈ huge ∧
  s_phys p <= z_phys z + k < s_phys p + s_len p ∧ z_addr z - s_addr p = z_phys z - s_phys p.
Proof.
  intros Hz Hk. destruct (zone_page z k Hz Hk) as (p & Hp & ? & ?). exists p. split; [by apply (zone_sub _ _ Hz)|lia].
Qed.
Lemma apart_phys z y : zone_in huge z → zone_in huge y → apart (z_addr z) (z_len z) (z_addr y) (z_len y) →
  apart (z_phys z) (z_len z) (z_phys y) (z_len y).
Proof.
  intros Hz Hy Ha. destruct (zone_len _ _ Hz), (zone_len _ _ Hy). unfold apart in *.
  destruct (Z_le_dec (z_phys z + z_len z) (z_phys y)); [by left|]. destruct (Z_le_dec (z_phys y + z_len y) (z_phys z)); [by right|exfalso].
  set (x := Z.max (z_phys z) (z_phys y)).
  destruct (zone_byte z (x - z_phys z) Hz) as (p & Hp & ? & ?); [lia|]. destruct (zone_byte y (x - z_phys y) Hy) as (q & Hq & ? & ?); [lia|].
  destruct (decide (p = q)) as [->|Hne]; [lia|]. destruct (pages_apart _ HL p q Hp Hq Hne) as [_ [?|?]]; lia.
Qed.
Lemma fmap_inj_in {A B} (g : A → B) (l : list A) x y : NoDup (g <$> l) → x ∈ l → y ∈ l → g x = g y → x = y.
Proof.
  induction l as [|a l IH]; cbn; intros Hnd Hx Hy E; [by apply elem_of_nil in Hx|]. apply NoDup_cons in Hnd as [Hni Hnd].
  apply elem_of_cons in Hx as [->|Hx], Hy as [->|Hy]; [done|exfalso..|by apply IH]; apply Hni.
  - rewrite E. by apply list_elem_of_fmap_2.
  - rewrite <- E. by apply list_elem_of_fmap_2.
Qed.
Lemma filter_shorter {A} (P : A → Prop) `{∀ x, Decision (P x)} (l : list A) : (length (filter P l) < length l)%nat → ∃ x, x ∈ l ∧ ¬ P x.
Proof.
  induction l as [|x l IH]; [cbn; lia|]. rewrite filter_cons. case_decide; cbn [length]; intros Hl; [|exists x; split; [left|done]].
  destruct IH as (y & ? & ?); [lia|]. exists y. split; [by right|done].
Qed.
Lemma filter_used_zones (es : list metadata_entry) : mz <$> filter used es = filter zone_used (mz <$> es).
Proof.
  induction es as [|e es IH]; [done|]. rewrite fmap_cons, !filter_cons, <- IH.
  destruct (decide (used e)) as [Hu|Hu]; [by rewrite decide_True by apply Hu|by rewrite decide_False by apply Hu].
Qed.
Lemma zones_table (es : list metadata_entry) : zones_ok huge (mz <$> es) → table_ok huge es.
Proof.
  intros [Hz _ Ho Ha]. rewrite <- filter_used_zones in Ho. split.
  - intros e He Hu. apply Hz; [by apply list_elem_of_fmap_2|done].
  - by apply NoDup_fmap_1 in Ho.
  - intros e f He Hf Hue Huf Hne. assert (mz e ≠ mz f) by (intros E; apply Hne, (fmap_inj_in _ _ _ _ Ho); [by apply list_elem_of_filter..|done]).
    apply apart_phys; [apply Hz|apply Hz|apply Ha]; try done; by apply list_elem_of_fmap_2.
Qed.

Lemma files_found p : p ∈ huge → found (get_hugefile_by_virt_addr maps) p.
Proof.
  intros Hp. destruct (pages_ok _ HL p Hp) as (? & ? & _), (HF p Hp) as (path & off & ? & ? & Hall). split_and!; [lia|done|].
  exists path, off. rewrite <- (Z.add_0_r (s_addr p)), Hall by lia. by rewrite Z.add_0_r.
Qed.
(** The file of a byte of the pages is the file of its address. *)
Lemma page_file_process ps o v : ps ⊆ huge → guest_at ps o = Some v → 0 <= o → ∃ b, process_byte maps v = Some b ∧
  page_file_at (get_hugefile_by_virt_addr maps) ps o = Some b.
Proof.
  intros Hsub Hg Ho. unfold guest_at, page_file_at in *. destruct (at_offset s_len ps o) as [[p d]|] eqn:E; [|done]. cbn in *. injection Hg as <-.
  destruct (at_offset_in _ _ _ _ _ E Ho) as [Hp Hd].
  destruct (HF p (Hsub _ Hp)) as (path & off & ? & ? & Hall). exists (path, off + d). unfold process_byte. rewrite Hall by done.
  pose proof (Hall 0) as Hall0. rewrite !Z.add_0_r in Hall0. rewrite Hall0 by lia. done.
Qed.

(** The passes together. *)
Lemma build_tables_eq es ms hp ps es' ms' hp' : (ps0 ← collect_pages (qsort entry_compare es) []; Some (sort_pages max_pages ps0)) = Some ps →
  write_offsets ps (qsort entry_compare es) = Some es' → build_cache (get_hugefile_by_virt_addr maps) ps 0 None ms = Ok ms' →
  write_hugepages ps 0 ms' hp = Ok hp' → build_tables maps es ms hp = Ok (es', ms', hp').
Proof.
  intros Hps Hw Hb Hh. apply bind_Some in Hps as (ps0 & Hcol & Hps). injection Hps as Hps. unfold build_tables.
  rewrite (res_bind_ok _ _ _ (or_fail_ok _ _ Hcol)). cbv zeta. rewrite Hps.
  by rewrite (res_bind_ok _ _ _ (or_fail_ok _ _ Hw)), (res_bind_ok _ _ _ Hb), (res_bind_ok _ _ _ Hh).
Qed.
Lemma few_pages ps : ps ⊆ huge → NoDup ps → (length ps <= Z.to_nat HOSTSHMEM_MAX_HUGEPAGES <= max_pages)%nat.
Proof.
  intros Hsub Hnd. pose proof (submseteq_length ps huge (NoDup_submseteq _ _ Hnd Hsub)). pose proof (pages_few _ HL).
  rewrite max_pages_eq. unfold HOSTSHMEM_MAX_HUGEPAGES, HOSTSHMEM_MAX_PAGES in *. lia.
Qed.
Lemma build_tables_ok (es : list metadata_entry) ms hp : zones_ok huge (mz <$> es) → length ms = max_pages → length hp = Z.to_nat HOSTSHMEM_MAX_HUGEPAGES →
  ∃ es' ms' hp' ps, build_tables maps es ms hp = Ok (es', ms', hp') ∧ length ms' = length ms ∧ length hp' = length hp ∧
    mz <$> es' ≡ₚ mz <$> es ∧ used_first es' ∧ ps ⊆ huge ∧ NoDup ps ∧ (∀ p, p ∈ ps ↔ needed (mz <$> es) p) ∧
    (∀ e, e ∈ es' → used e → placed ps e) ∧ build_cache (get_hugefile_by_virt_addr maps) ps 0 None ms = Ok ms' ∧
    (∀ j p, ps !! j = Some p → ∃ e, ms' !! j = Some e ∧ hp' !! j = Some (page_entry j p (filepath e))) ∧
    ∀ j, (length ps <= j)%nat → hp' !! j = hp !! j.
Proof.
  intros Hes Hms Hhp. destruct (passes_placed huge HL es (zones_table es Hes)) as (ps0 & es' & Hcol & Hrest). cbv zeta in Hrest.
  remember (sort_pages max_pages ps0) as ps eqn:Hps.
  destruct Hrest as (Hw & Hsub & Hnd & Hperm & Hfirst & Hneed & Hplaced). pose proof (few_pages ps Hsub Hnd) as Hfew.
  destruct (build_cache_ok (get_hugefile_by_virt_addr maps) ps ms) as (ms' & cs & Hb & Hch & Hl' & _).
  { intros p Hp. apply files_found, Hsub, Hp. }
  { by apply (total_len_sub huge HL). }
  { lia. }
  destruct (write_hugepages_ok ps 0 ms' hp) as (hp' & Hh & Hlhp & Hat & Hout); [|lia|lia|].
  { intros p Hp. by destruct (files_found p (Hsub _ Hp)). }
  exists es', ms', hp', ps. split; [apply (build_tables_eq es ms hp ps); [rewrite Hcol, Hps|..]; done|]. split_and!; try done.
  intros j Hj. apply Hout. by right.
Qed.
Lemma built_shares c m hp ps : metadata c = Some m → built huge maps c m hp ps → shares maps c.
Proof.
  intros Hm [Hsub Hnd _ Hpl (ms & Hms & Hb) _ _] m' e k Hm' He Hu Hk. assert (m' = m) as -> by congruence. destruct (Hpl e He Hu) as [Hoff Hg].
  destruct (page_file_process ps _ _ Hsub (Hg k Hk)) as (b & Hb' & Hpf); [lia|]. exists b. split; [done|].
  destruct (build_cache_ok (get_hugefile_by_virt_addr maps) ps ms) as (ms' & cs & Hb2 & Hch & _).
  { intros p Hp. apply files_found, Hsub, Hp. }
  { by apply (total_len_sub huge HL). }
  { pose proof (few_pages ps Hsub Hnd). lia. }
  assert (ms' = memseg_cache c) as -> by congruence. erewrite cached_at; [done|done|]. split; [lia|]. unfold page_file_at in Hpf.
  destruct (at_offset s_len ps (offset e + k)) as [x|] eqn:E; [|done].
  eapply at_offset_lt; [|done]. intros p Hp. by destruct (pages_ok _ HL p (Hsub _ Hp)) as (_ & ? & _).
Qed.

(** *** Adding a zone *)
Definition zone_fits (z : rte_memzone) : Prop := 0 < z_addr z ∧ 0 <= z_len z ∧ z_addr z + z_len z < 2 ^ 64.
Lemma zone_in_fits z : zone_in huge z → zone_fits z.
Proof.
  intros Hz. destruct (zone_geometry huge HL z Hz) as (n & phys & addr & G). destruct (g_first _ _ _ _ G), (g_bounds _ _ _ _ G), (zone_len _ _ Hz).
  pose proof (g_size _ _ _ _ G). unfold zone_fits. lia.
Qed.
Lemma overlap_apart z y : zone_fits z → 0 < z_len z → (zone_fits y ∧ 0 < z_len y) ∨ (z_addr y = 0 ∧ z_len y = 0) →
  overlap z y = false ↔ (zone_used y → apart (z_addr z) (z_len z) (z_addr y) (z_len y)).
Proof.
  unfold zone_fits, overlap, apart, zone_used. intros Hz Hl Hy. rewrite !u64_small by (unfold is_u64; lia).
  rewrite orb_false_iff, !andb_false_iff, !Z.leb_gt, !Z.ltb_ge. lia.
Qed.
(** The entry that is free: the first unused one, when no zone in use is in the
    way. *)
Lemma free_entry_first us e0 es z i : (∀ e, e ∈ us → used e ∧ overlap z (mz e) = false) → ¬ used e0 → overlap z (mz e0) = false →
  free_entry (us ++ e0 :: es) i z = Some (i + length us)%nat.
Proof.
  revert i. induction us as [|e us IH]; intros i Hus Hu Ho; cbn.
  - rewrite Ho, Nat.add_0_r. unfold used in Hu. by destruct (Z.eqb_spec (z_addr (mz e0)) 0).
  - destruct (Hus e ltac:(left)) as [Hue ->]. apply Z.eqb_neq in Hue as ->. rewrite IH; [by rewrite Nat.add_succ_r| |done|done].
    intros f Hf. apply Hus. by right.
Qed.
Lemma zones_ok_add us e0 zs z off : zones_ok huge (mz <$> us ++ e0 :: zs) → used_first (us ++ e0 :: zs) → (∀ e, e ∈ us → used e) → ¬ used e0 →
  zone_in huge z → (∀ e, e ∈ us → apart (z_addr z) (z_len z) (z_addr (mz e)) (z_len (mz e))) → (∀ e, e ∈ zs → ¬ used e) →
  zones_ok huge (mz <$> us ++ Entry z off :: zs) ∧ used_first (us ++ Entry z off :: zs).
Proof.
  intros [Hz Hn Ho Ha] Hfirst Hus Hu Hzin Hap Hzs. pose proof (zone_in_fits z Hzin) as Hfit. destruct (zone_len _ _ Hzin) as [Hlen _].
  assert (used (Entry z off)) as Huz by (unfold used, zone_fits in *; cbn; lia).
  rewrite fmap_app, fmap_cons in *. cbn [mz]. split.
  - assert (Permutation ((mz <$> us) ++ z :: (mz <$> zs)) (z :: (mz <$> us) ++ (mz <$> zs))) as -> by (symmetry; apply Permutation_middle).
    split.
    + intros y [->|Hy]%elem_of_cons Hyu; [done|]. apply Hz; [set_solver|done].
    + intros y [->|Hy]%elem_of_cons Hyu; [done|]. apply Hn; [set_solver|done].
    + rewrite filter_cons, decide_True by done. constructor; [|rewrite filter_app in *; rewrite filter_cons, decide_False in Ho by done; done].
      rewrite list_elem_of_filter. intros [_ [Hin|Hin]%elem_of_app]; apply list_elem_of_fmap in Hin as (e & -> & He).
      * pose proof (Hap e He). unfold apart in *. lia.
      * by apply (Hzs e He).
    + assert (∀ y, y ∈ (mz <$> us) ++ (mz <$> zs) → zone_used y → apart (z_addr z) (z_len z) (z_addr y) (z_len y)) as Hnew.
      { intros y [Hin|Hin]%elem_of_app Hyu; apply list_elem_of_fmap in Hin as (e & -> & He); [by apply Hap|by destruct (Hzs e He)]. }
      intros x y [->|Hx]%elem_of_cons [->|Hy]%elem_of_cons Hxu Hyu Hne; [done|by apply Hnew| |apply Ha; set_solver].
      destruct (Hnew x Hx Hxu); [by right|by left].
  - rewrite cons_middle, app_assoc. apply used_first_app; [|done]. intros e [?| ->%list_elem_of_singleton]%elem_of_app; [by apply Hus|done].
Qed.

Lemma config_by_name_update cs i j c c' nm : cs !! j = Some c → md_name <$> metadata c' = md_name <$> metadata c →
  config_by_name (<[j := c']> cs) i nm = config_by_name cs i nm.
Proof.
  revert i j. induction cs as [|d cs IH]; intros i j Hj Hn; [done|]. destruct j as [|j]; cbn in *.
  - injection Hj as ->. by destruct (metadata c') as [m'|], (metadata c) as [m|]; try done; cbn in *; simplify_eq; rewrite ?Hn.
  - destruct (metadata d); [|done]. case_match; [done|]. by apply IH.
Qed.
(** The free entry of a good table, and the table with a zone in it. *)
Lemma zones_ok_slot es z : zones_ok huge (mz <$> es) → used_first es → zone_in huge z → (∃ e, e ∈ es ∧ ¬ used e) →
  (∀ e, e ∈ es → used e → apart (z_addr z) (z_len z) (z_addr (mz e)) (z_len (mz e))) →
  ∃ i e0, free_entry es 0 z = Some i ∧ es !! i = Some e0 ∧ ∀ off,
    zones_ok huge (mz <$> <[i := Entry z off]> es) ∧ used_first (<[i := Entry z off]> es) ∧
    filter zone_used (mz <$> <[i := Entry z off]> es) ≡ₚ z :: filter zone_used (mz <$> es).
Proof.
  intros Hz Hfirst Hzin [e1 [He1 Hu1]] Hap. pose proof Hfirst as Hsplit. unfold used_first in Hsplit.
  remember (filter used es) as us. remember (filter (λ e, ¬ used e) es) as zs. destruct zs as [|e0 zs].
  { exfalso. apply (proj1 (elem_of_nil e1)). rewrite Heqzs. by apply list_elem_of_filter. }
  assert (∀ e, e ∈ us → used e) as Hus by (intros e; rewrite Hequs; by intros [? _]%list_elem_of_filter).
  assert (∀ e, e ∈ e0 :: zs → ¬ used e) as Hzs by (intros e; rewrite Heqzs; by intros [? _]%list_elem_of_filter).
  clear Hequs Heqzs. subst es. assert (∀ e, e ∈ us → apart (z_addr z) (z_len z) (z_addr (mz e)) (z_len (mz e))) as Hap' by (intros e ?; apply Hap; set_solver).
  destruct (zone_len _ _ Hzin) as [Hlen _]. pose proof (zone_in_fits z Hzin) as Hfit. exists (length us), e0. split_and!.
  - apply (free_entry_first us e0 zs z 0); [|apply Hzs; left|].
    + intros e He. split; [by apply Hus|]. pose proof (zo_zones _ _ Hz (mz e) ltac:(apply list_elem_of_fmap_2; set_solver) (Hus e He)) as Hze.
      apply overlap_apart; [done|done| |intros _; by apply Hap']. left. split; [by apply zone_in_fits|apply (zone_len _ _ Hze)].
    + assert (¬ used e0) as Hu0 by (apply Hzs; left). apply overlap_apart; [done|done| |by intros ?%Hu0]. right.
      split; [unfold used in Hu0; destruct (Z.eq_dec (z_addr (mz e0)) 0); [done|by destruct Hu0]|].
      apply (zo_unused _ _ Hz); [apply list_elem_of_fmap_2; set_solver|done].
  - by apply list_lookup_middle.
  - intros off. rewrite (insert_app_r_alt us _ (length us)), Nat.sub_diag by lia. cbn [insert list_insert].
    destruct (zones_ok_add us e0 zs z off Hz Hfirst Hus ltac:(apply Hzs; left) Hzin Hap') as [Hok Hf']; [intros e ?; apply Hzs; by right|].
    split_and!; [done|done|]. rewrite !fmap_app, !fmap_cons, !filter_app, !filter_cons. cbn [mz].
    rewrite decide_True, decide_False by (apply Hzs || (unfold zone_used, zone_fits in *; lia); left).
    symmetry. apply Permutation_middle.
Qed.
Lemma build_config_ok cs idx c m hp ps0 : cs !! idx = Some c → config_ok huge c m hp → get_config_by_name cs (md_name m) = Some idx →
  NoDup ps0 → (∀ p, p ∈ ps0 → needed (mz <$> entry m) p) → (∀ j h, (length ps0 <= j)%nat → hp_entries hp !! j = Some h → h = zero_hp) →
  ∃ c' m' hp' ps, build_config maps true cs (md_name m) = Ok (<[idx := c']> cs) ∧ config_ok huge c' m' hp' ∧ md_name m' = md_name m ∧
    mz <$> entry m' ≡ₚ mz <$> entry m ∧ built huge maps c' m' hp' ps.
Proof.
  intros Hc [Hm Hhp Hcache Hpages Hfirst Hzones] Hget Hnd0 Hneed0 Hrest0. unfold build_config.
  rewrite Hget. cbn [or_fail mbind res_bind]. rewrite Hc. cbn [or_undef mbind res_bind]. rewrite Hm. cbn [or_undef mbind res_bind negb].
  destruct (build_tables_ok (entry m) (memseg_cache c) (hp_entries hp) Hzones Hcache Hpages)
    as (es' & ms' & hps' & ps & Hb & Hl1 & Hl2 & Hperm & Hf' & Hsub & Hnd & Hneed & Hpl & Hbc & Hat & Hout).
  rewrite Hhp, (res_bind_ok _ _ _ Hb). eexists _, (Metadata (magic_number m) (md_name m) es'), (HpMetadata (hp_magic hp) (hp_md_name hp) hps'), ps.
  split; [reflexivity|]. split_and!; [|done|done|].
  - split; [done|done|by rewrite <- Hcache|by rewrite <- Hpages|done|]. eapply zones_ok_perm; [|done]. done.
  - split; [done|done| |done|by exists (memseg_cache c)|done|].
    + intros p. rewrite Hneed. unfold needed. cbn [entry]. split; intros (z & Hz & ?); exists z; (split; [|done]); [by rewrite Hperm|by rewrite <- Hperm].
    + intros j h Hj Hh. cbn in Hh. rewrite Hout in Hh by done. apply (Hrest0 j); [|done]. etrans; [|done].
      apply submseteq_length, NoDup_submseteq; [done|]. intros p Hp. by apply Hneed, Hneed0.
Qed.

(** The configuration at [idx] shares the zones [zs]. *)
Definition sharing (st : shmem) (idx : nat) (nm : string) (zs : list rte_memzone) : Prop :=
  ∃ c m hp ps, global_config st !! idx = Some c ∧ config_ok huge c m hp ∧ md_name m = nm ∧
    get_config_by_name (global_config st) nm = Some idx ∧ built huge maps c m hp ps ∧
    length (entry m) = Z.to_nat RTE_LIBRTE_HOSTSHMEM_MAX_ENTRIES ∧ filter zone_used (mz <$> entry m) ≡ₚ zs.
Definition mark (z : rte_memzone) : rte_memzone := z <| z_ioremap := z_phys z |>.
Lemma sharing_add st idx nm zs zi z : sharing st idx nm zs → memzone st !! zi = Some z → zone_in huge z →
  (∀ y, y ∈ zs → apart (z_addr z) (z_len z) (z_addr y) (z_len y)) → Z.of_nat (length zs) < RTE_LIBRTE_HOSTSHMEM_MAX_ENTRIES →
  ∃ st', add_memzone_to_metadata maps true st zi idx = Some (st', 0) ∧ sharing st' idx nm (z :: zs) ∧
    memzone st' = <[zi := mark z]> (memzone st).
Proof.
  intros (c & m & hp & ps & Hc & Hok & Hnm & Hget & Hbuilt & Hlen & Hzs) Hz Hzin Hap Hfew.
  destruct (zones_ok_slot (entry m) z (co_zones _ _ _ _ Hok) (co_first _ _ _ _ Hok) Hzin) as (i & e0 & Hfree & He0 & Hslot).
  { apply (filter_shorter used). rewrite <- (length_fmap mz (filter used _)), filter_used_zones, Hzs. lia. }
  { intros e He Hu. apply Hap. rewrite <- Hzs. apply list_elem_of_filter. split; [done|by apply list_elem_of_fmap_2]. }
  destruct (Hslot (offset e0)) as (Hok1 & Hfirst1 & Hperm1). clear Hslot.
  set (m1 := Metadata (magic_number m) (md_name m) (<[i := Entry z (offset e0)]> (entry m))) in *.
  set (c1 := Config (Some m1) (hp_metadata c) (memseg_cache c)) in *. set (cs1 := <[idx := c1]> (global_config st)).
  assert (config_ok huge c1 m1 hp) as Hcok by (split; [done|apply Hok..|done|done]).
  assert (cs1 !! idx = Some c1) as Hc1 by (apply list_lookup_insert_eq; by eapply lookup_lt_Some).
  assert (get_config_by_name cs1 (md_name m1) = Some idx) as Hget1.
  { unfold cs1, get_config_by_name. rewrite config_by_name_update with (c := c); [cbn; by rewrite Hnm|done|]. cbn. by rewrite (co_metadata _ _ _ _ Hok). }
  destruct (build_config_ok cs1 idx c1 m1 hp ps Hc1 Hcok Hget1) as (c2 & m2 & hp2 & ps2 & Hb & Hok2 & Hn2 & Hperm2 & Hsh2).
  { apply Hbuilt. }
  { intros p (y & Hy & Hu & Hin)%(bu_needed _ _ _ _ _ _ Hbuilt). exists y. split; [|done].
    assert (y ∈ filter zone_used (mz <$> entry m1)) as [_ ?]%list_elem_of_filter; [|done].
    cbn [entry m1]. rewrite Hperm1. apply elem_of_cons. right. by apply list_elem_of_filter. }
  { apply Hbuilt. }
  exists (Shmem (<[idx := c2]> cs1) (<[zi := mark z]> (memzone st))). split_and!; [| |done].
  - unfold add_memzone_to_metadata. rewrite Hz. cbn [mbind option_bind]. rewrite Hc. cbn [mbind option_bind]. rewrite (co_metadata _ _ _ _ Hok).
    cbn [mbind option_bind]. rewrite Hfree, He0. cbn [mbind option_bind].
    change (build_config maps true _ _) with (build_config maps true cs1 (md_name m1)). by rewrite Hb.
  - exists c2, m2, hp2, ps2. cbn. split_and!; [|done|by rewrite Hn2| |done| |].
    + apply list_lookup_insert_eq. by eapply lookup_lt_Some.
    + unfold get_config_by_name in *. rewrite config_by_name_update with (c := c1); [by rewrite <- Hnm|done|].
      rewrite (co_metadata _ _ _ _ Hok2). cbn. by rewrite Hn2.
    + rewrite <- (length_fmap mz), Hperm2, length_fmap. cbn. by rewrite length_insert.
    + rewrite Hperm2. cbn [entry m1]. by rewrite Hperm1, Hzs.
Qed.

(** *** Many zones

    [shared st0 st idx nm js]: from [st0], the zones at the places [js] have been
    added. *)
Definition zones_at (st : shmem) (js : list nat) : list rte_memzone := omap (λ i, memzone st !! i) js.
Record addable (st : shmem) (js : list nat) : Prop := {
  ad_zone : ∀ i, i ∈ js → ∃ z, memzone st !! i = Some z ∧ zone_in huge z;
  ad_once : NoDup js;
  ad_apart : ∀ i j y z, i ∈ js → j ∈ js → i ≠ j → memzone st !! i = Some y → memzone st !! j = Some z →
    apart (z_addr y) (z_len y) (z_addr z) (z_len z);
  ad_few : Z.of_nat (length js) <= RTE_LIBRTE_HOSTSHMEM_MAX_ENTRIES }.
Record shared (st0 st : shmem) (idx : nat) (nm : string) (js : list nat) : Prop := {
  sh_sharing : sharing st idx nm (zones_at st0 js);
  sh_rest : ∀ j, j ∉ js → memzone st !! j = memzone st0 !! j;
  sh_addr : z_addr <$> memzone st = z_addr <$> memzone st0 }.
Lemma addable_app st js ks : addable st (js ++ ks) → addable st ks.
Proof.
  clear HL maps HF. intros [Hz Hnd Hap Hfew]. apply NoDup_app in Hnd as (_ & _ & Hnd). rewrite length_app in Hfew. split; [set_solver|done| |lia].
  intros i j y z Hi Hj. apply Hap; set_solver.
Qed.
Lemma memzone_by_addr_eq zs ys i a : z_addr <$> zs = z_addr <$> ys → memzone_by_addr zs i a = memzone_by_addr ys i a.
Proof.
  revert ys i. induction zs as [|z zs IH]; intros [|y ys] i E; cbn in *; try done. injection E as E1 E2. rewrite E1. case_match; [done|by apply IH].
Qed.
Lemma zones_at_length st js : (length (zones_at st js) <= length js)%nat.
Proof. unfold zones_at. induction js as [|i js IH]; cbn; [done|]. case_match; cbn; lia. Qed.
Lemma shared_add st0 st idx nm i js : shared st0 st idx nm js → addable st0 (i :: js) →
  ∃ st', add_memzone_to_metadata maps true st i idx = Some (st', 0) ∧ shared st0 st' idx nm (i :: js).
Proof.
  intros [Hsh Hrest Haddr] [Hz Hnd Hap Hfew]. apply NoDup_cons in Hnd as [Hni Hnd]. destruct (Hz i ltac:(left)) as (z & Hzi & Hzin).
  pose proof (zones_at_length st0 js). cbn [length] in Hfew.
  destruct (sharing_add st idx nm (zones_at st0 js) i z Hsh) as (st' & Hadd & Hsh' & Hmz); [by rewrite Hrest|done| |lia|].
  - intros y Hy. apply list_elem_of_omap in Hy as (j & Hj & Hyj). apply (Hap i j); [left|by right|by intros ->|done|done].
  - exists st'. split; [done|]. split.
    + unfold zones_at in *. cbn. by rewrite Hzi.
    + intros j [Hj1 Hj2]%not_elem_of_cons. rewrite Hmz, list_lookup_insert_ne by done. by apply Hrest.
    + rewrite Hmz, list_fmap_insert, Haddr, list_insert_id; [done|]. rewrite list_lookup_fmap, Hzi. done.
Qed.
Lemma shared_add_ring st0 st idx nm i js r : shared st0 st idx nm js → addable st0 (i :: js) → get_memzone_by_addr (memzone st0) r = Some i →
  ∃ st', add_ring_to_metadata maps true st r idx = Some (st', 0) ∧ shared st0 st' idx nm (i :: js).
Proof.
  intros Hsh Had Hr. unfold add_ring_to_metadata, get_memzone_by_addr in *.
  rewrite (memzone_by_addr_eq _ _ _ _ (sh_addr _ _ _ _ _ Hsh)), Hr. by apply shared_add.
Qed.
Lemma shared_config st0 st idx nm js : shared st0 st idx nm js → get_config_by_name (global_config st) nm = Some idx.
Proof. by intros [(? & ? & ? & ? & ? & ? & ? & ? & ?) _ _]. Qed.

(** *** From the start *)
Lemma alter_insert_eq {A} (f : A → A) (l : list A) i x : l !! i = Some x → alter f i l = <[i := f x]> l.
Proof. revert i. induction l as [|y l IH]; intros [|i] Hx; cbn in *; simplify_eq; [done|]. f_equal. by apply IH. Qed.
Record unused_at (cs : list hostshmem_config) (nm : string) (idx : nat) : Prop := {
  un_before : ∀ c, c ∈ take idx cs → ∃ m, metadata c = Some m ∧ strncmp_eq nm (md_name m) (Z.to_nat HOSTSHMEM_NAME_LEN) = false;
  un_config : ∃ c, cs !! idx = Some c ∧ metadata c = None ∧ length (memseg_cache c) = max_pages }.
Lemma unused_config_at cs nm idx i : unused_at cs nm idx → unused_config cs i = Some (i + idx)%nat.
Proof.
  revert idx i. induction cs as [|d cs IH]; intros idx i [Hb (c & Hc & Hn & Hl)]; [done|]. destruct idx as [|idx]; cbn in *.
  - injection Hc as ->. by rewrite Hn, Nat.add_0_r.
  - destruct (Hb d ltac:(left)) as (m & -> & _). rewrite (IH idx (S i)); [by rewrite Nat.add_succ_r|].
    split; [intros e ?; apply Hb; by right|by exists c].
Qed.
Lemma config_by_name_at cs nm idx i c m : unused_at cs nm idx → metadata c = Some m → strncmp_eq nm (md_name m) (Z.to_nat HOSTSHMEM_NAME_LEN) = true →
  config_by_name (<[idx := c]> cs) i nm = Some (i + idx)%nat.
Proof.
  intros Hun Hm Hnm. revert idx i Hun. induction cs as [|d cs IH]; intros idx i [Hb (c0 & Hc & Hn & Hl)]; [done|]. destruct idx as [|idx].
  - change (<[0%nat := c]> (d :: cs)) with (c :: cs). cbn [config_by_name]. by rewrite Hm, Hnm, Nat.add_0_r.
  - change (<[S idx := c]> (d :: cs)) with (d :: <[idx := c]> cs). cbn [config_by_name]. cbn [take lookup list_lookup] in *.
    destruct (Hb d ltac:(left)) as (m' & -> & ->). rewrite IH; [by rewrite Nat.add_succ_r|]. split; [intros e ?; apply Hb; by right|by exists c0].
Qed.
Lemma zero_entries n : zones_ok huge (mz <$> replicate n zero_entry) ∧ used_first (replicate n zero_entry) ∧ filter zone_used (mz <$> replicate n zero_entry) = [].
Proof.
  assert (∀ z, z ∈ mz <$> replicate n zero_entry → z = zero_zone) as Hall.
  { intros z (e & -> & [-> _]%elem_of_replicate)%list_elem_of_fmap. done. }
  assert (filter zone_used (mz <$> replicate n zero_entry) = []) as Hnil by (apply filter_none; intros z ->%Hall Hu; by apply Hu).
  split_and!; [|apply (used_first_app []); [intros e He; by apply elem_of_nil in He|]|done].
  - split; [by intros z ->%Hall []|by intros z ->%Hall|rewrite Hnil; constructor|by intros y z ->%Hall _ []].
  - intros e [-> _]%elem_of_replicate Hu. by apply Hu.
Qed.
Lemma create_shared st nm idx md hp : unused_at (global_config st) nm idx → strlen nm < HOSTSHMEM_NAME_LEN →
  ∃ cs, rte_hostshmem_metadata_create (Some md) (Some hp) (global_config st) (Some nm) = (cs, 0) ∧
    shared st (st <| global_config := cs |>) idx nm [].
Proof.
  intros Hun Hlen. unfold rte_hostshmem_metadata_create. rewrite (unused_config_at _ nm idx) by done. rewrite Nat.add_0_l.
  rewrite snprintf_fits by done. eexists. split; [reflexivity|]. destruct (un_config _ _ _ Hun) as (c & Hc & Hn & Hl).
  set (f := λ c0 : hostshmem_config, _). rewrite (alter_insert_eq f _ _ _ Hc). unfold f. clear f.
  set (m := Metadata HOSTSHMEM_MAGIC nm _). set (hpm := HpMetadata HOSTSHMEM_MAGIC nm _). set (c1 := Config (Some m) (Some hpm) (memseg_cache c)).
  destruct (zero_entries (Z.to_nat RTE_LIBRTE_HOSTSHMEM_MAX_ENTRIES)) as (Hz & Hf & Hnil). split; [|done|done].
  exists c1, m, hpm, []. cbn [global_config alter_field]. split_and!.
  - apply list_lookup_insert_eq. by eapply lookup_lt_Some.
  - split; [done|done|done|by apply length_replicate|exact Hf|exact Hz].
  - done.
  - unfold get_config_by_name. rewrite (config_by_name_at _ nm idx 0 c1 m); [done|done|done|]. cbn. unfold strncmp_eq. by apply String.eqb_eq.
  - assert (∀ e, e ∈ entry m → e = zero_entry) as Hzero by (by intros e [-> _]%elem_of_replicate).
    split; [by intros p Hp%elem_of_nil|constructor| |by intros e ->%Hzero []|by exists (memseg_cache c)|done|].
    + intros p. split; [intros Hp; by apply elem_of_nil in Hp|]. by intros (z & (e & -> & ->%Hzero)%list_elem_of_fmap & [] & _).
    + intros j h _ Hh. by apply list_elem_of_lookup_2, elem_of_replicate in Hh as [-> _].
  - by apply length_replicate.
  - change (entry m) with (replicate (Z.to_nat RTE_LIBRTE_HOSTSHMEM_MAX_ENTRIES) zero_entry). by rewrite Hnil.
Qed.

Lemma add_rings_shared st0 st idx js rs ks : shared st0 st idx HOSTSHMEM_METADATA_NAME js → addable st0 (reverse ks ++ js) →
  Forall2 (λ r i, r ≠ 0 ∧ get_memzone_by_addr (memzone st0) r = Some i) rs ks →
  ∃ st', add_rings maps true st rs = Some (Some st') ∧ shared st0 st' idx HOSTSHMEM_METADATA_NAME (reverse ks ++ js).
Proof.
  intros Hsh Had Hrs. revert st js Hsh Had. induction Hrs as [|r i rs ks [Hr Hi] Hrs IH]; intros st js Hsh Had; [by exists st|].
  rewrite reverse_cons, <- app_assoc in *. cbn [app] in *. cbn [add_rings]. unfold rte_hostshmem_metadata_add_ring.
  rewrite (shared_config _ _ _ _ _ Hsh). apply Z.eqb_neq in Hr as ->.
  destruct (shared_add_ring st0 st idx _ i js r Hsh (addable_app _ (reverse ks) _ Had) Hi) as (st1 & -> & Hsh1). cbn. by apply IH.
Qed.
Lemma init_shared st idx port_zone pi pri pool pool_ring rings ris md hp : unused_at (global_config st) HOSTSHMEM_METADATA_NAME idx →
  addable st (reverse ris ++ [pri; pi; port_zone]) →
  pool ≠ 0 → get_memzone_by_addr (memzone st) pool = Some pi → get_memzone_by_addr (memzone st) pool_ring = Some pri →
  Forall2 (λ r i, r ≠ 0 ∧ get_memzone_by_addr (memzone st) r = Some i) rings ris →
  ∃ st', init_hostshmem maps true (Some md) (Some hp) st port_zone pool pool_ring rings = Some (Some st') ∧
    shared st st' idx HOSTSHMEM_METADATA_NAME (reverse ris ++ [pri; pi; port_zone]).
Proof.
  intros Hun Had Hpool Hpi Hpri Hrs. destruct (create_shared st _ idx md hp Hun eq_refl) as (cs & Hcr & Hsh0).
  pose proof (addable_app _ _ _ Had) as Had3. pose proof (addable_app _ [pri] _ Had3) as Had2. pose proof (addable_app _ [pi] _ Had2) as Had1.
  destruct (shared_add _ _ _ _ port_zone _ Hsh0 Had1) as (st1 & H1 & Hsh1).
  destruct (shared_add_ring _ _ _ _ pi _ pool Hsh1 Had2 Hpi) as (st2 & H2 & Hsh2).
  destruct (shared_add_ring _ _ _ _ pri _ pool_ring Hsh2 Had3 Hpri) as (st3 & H3 & Hsh3).
  destruct (add_rings_shared _ _ _ _ rings ris Hsh3 Had Hrs) as (st4 & H4 & Hsh4). exists st4. split; [|done].
  unfold init_hostshmem. rewrite Hcr. cbn [Z.ltb Z.compare]. unfold rte_hostshmem_metadata_add_memzone, rte_hostshmem_metadata_add_mempool.
  rewrite (shared_config _ _ _ _ _ Hsh0), H1. cbn. apply Z.eqb_neq in Hpool as ->.
  rewrite (shared_config _ _ _ _ _ Hsh1). unfold add_mempool_to_metadata. unfold add_ring_to_metadata in H2.
  destruct (get_memzone_by_addr (memzone st1) pool) as [i|]; [|done]. rewrite H2. cbn. rewrite H3. cbn. done.
Qed.
End sharing.

(** Pages in mapped files are found. *)
Lemma find_only {A} (f : A → bool) (l : list A) x : x ∈ l → f x = true → (∀ y, y ∈ l → f y = true → y = x) → find f l = Some x.
Proof.
  intros Hin Hx Hu. destruct (find f l) as [y|] eqn:E.
  - apply find_some in E as [Hy%list_elem_of_In Hf]. f_equal. by apply Hu.
  - apply list_elem_of_In in Hin. by rewrite (find_none _ _ E x Hin) in Hx.
Qed.
Lemma files_of_mappings ms huge : layout huge → Forall mapping_ok ms →
  (∀ v m m', m ∈ ms → m' ∈ ms → holds v m → holds v m' → m = m') →
  (∀ p, p ∈ huge → ∃ m, m ∈ ms ∧ is_Some (m_path m) ∧ m_start m <= s_addr p ∧ s_addr p + s_len p <= m_end m) →
  files_of (Some (maps_text <$> ms)) huge.
Proof.
  intros HL Hms Hdisj Hin p Hp. destruct (Hin p Hp) as (m & Hm & Hpath & Hs & He), (pages_ok _ HL p Hp) as (? & ? & ? & _).
  pose proof (proj1 (Forall_forall _ _) Hms m Hm) as Hok. destruct (mo_start _ Hok), (mo_end _ Hok).
  exists (default "" (m_path m)), (s_addr p - m_start m). split_and!; [lia|lia|]. intros d Hd. rewrite hugefile_spec by done.
  assert (holds (s_addr p + d) m) as Hh.
  { unfold holds. rewrite (proj2 (Z.leb_le _ _)), (proj2 (Z.ltb_lt _ _)) by lia. by apply bool_decide_pack. }
  rewrite (find_only _ _ m Hm); [|by apply Is_true_true|].
  - rewrite u64_small by (unfold is_u64; lia). f_equal. f_equal. lia.
  - intros m' Hm' Hh'%Is_true_true. by apply (Hdisj (s_addr p + d)).
Qed.

(** C23: When the primary application shares its memory, what it shares is what it
    has, if these conditions hold: [st] has an unused configuration [idx] and none
    of that name before; the huge pages [huge] of the process number at most 32
    (with more the code writes past its table); the port zone, the zones of the
    pool, its ring and the client rings are at most 128, lie in these pages and
    share no addresses; [maps] shows the file of each page. Then sharing succeeds, the
    zones of the configuration are exactly these, and every byte of each,
    found by its offset in the files of the cache, is the byte of the process at
    that address. *)
Theorem hostshmem_init_shares (huge : list rte_memseg) (maps : option (list string)) (st : shmem) (idx port_zone pi pri : nat)
    (pool pool_ring : Z) (rings : list Z) (ris : list nat) (md : rte_hostshmem_metadata) (hp : hostshmem_hugepage_metadata) :
  layout huge → files_of maps huge → unused_at (global_config st) HOSTSHMEM_METADATA_NAME idx →
  addable huge st (reverse ris ++ [pri; pi; port_zone]) →
  pool ≠ 0 → get_memzone_by_addr (memzone st) pool = Some pi → get_memzone_by_addr (memzone st) pool_ring = Some pri →
  Forall2 (λ r i, r ≠ 0 ∧ get_memzone_by_addr (memzone st) r = Some i) rings ris →
  ∃ st' c m, init_hostshmem maps true (Some md) (Some hp) st port_zone pool pool_ring rings = Some (Some st') ∧
    global_config st' !! idx = Some c ∧ metadata c = Some m ∧
    filter zone_used (mz <$> entry m) ≡ₚ zones_at st (reverse ris ++ [pri; pi; port_zone]) ∧
    ∀ e k, e ∈ entry m → used e → 0 <= k < z_len (mz e) →
      ∃ b, process_byte maps (z_addr (mz e) + k) = Some b ∧ file_at (memseg_cache c) (offset e + k) = Some b.
Proof.
  intros HL HF Hun Had Hpool Hpi Hpri Hrs.
  destruct (init_shared huge HL maps HF st idx port_zone pi pri pool pool_ring rings ris md hp) as (st' & Hi & [Hsh _ _]); try done.
  destruct Hsh as (c & m & hpm & ps & Hc & Hok & _ & _ & Hbuilt & _ & Hzs).
  exists st', c, m. pose proof (co_metadata _ _ _ _ Hok) as Hm. split_and!; try done.
  intros e k. by apply (built_shares huge HL maps HF c m hpm ps).
Qed.

(** Two huge pages in two files, with a zone that spans them. *)
Definition ex_huge : list rte_memseg := [Seg 0x40000000 0x7f0000000000 0x200000; Seg 0x40200000 0x7f0000200000 0x200000].
Definition ex_zone (nm : string) (off len : Z) : rte_memzone := Zone nm (0x40000000 + off) (0x7f0000000000 + off) len 0x200000 0 0.
Definition ex_zones : list rte_memzone :=
  [ex_zone "MProc_port_info" 0x40 64; ex_zone "MP_MProc_pktmbuf_pool" 0x10000 0x300000; ex_zone "RG_MP_MProc_pktmbuf_pool" 0x310000 0x1000;
   ex_zone "RG_MProc_Client_0_RX" 0x320000 0x400].
Definition ex_mappings : list mapping :=
  [Mapping 0x400000 0x452000 "r-xp 00000000 08:02 173521  " (Some "/usr/bin/pri");
   Mapping 0x7f0000000000 0x7f0000200000 "rw-s 00000000 00:0e 1  " (Some "/mnt/huge/rtemap_0");
   Mapping 0x7f0000200000 0x7f0000400000 "rw-s 00000000 00:0e 2  " (Some "/mnt/huge/rtemap_1");
   Mapping 0x7ffc00000000 0x7ffc00020000 "rw-p 00000000 00:00 0  [stack]" None].
Definition ex_shmem : shmem := Shmem (replicate 32 zero_config) ex_zones.
Lemma ex_layout : layout ex_huge.
Proof.
  split; [..|done|done].
  - intros p Hp. unfold ex_huge in Hp. rewrite !elem_of_cons, elem_of_nil in Hp. by destruct Hp as [->|[->|[]]].
  - intros p q Hp Hq Hne. unfold ex_huge in *. rewrite !elem_of_cons, elem_of_nil in Hp, Hq.
    destruct Hp as [->|[->|[]]], Hq as [->|[->|[]]]; try done; unfold apart; cbn; lia.
Qed.
Lemma ex_files : files_of (Some (maps_text <$> ex_mappings)) ex_huge.
Proof.
  apply files_of_mappings; [apply ex_layout|..].
  - apply Forall_forall. intros m Hm. unfold ex_mappings in Hm. rewrite !elem_of_cons, elem_of_nil in Hm.
    destruct Hm as [->|[->|[->|[->|[]]]]]; split; cbn; try (unfold is_u64; lia); try done; intros p [= <-]; split_and!; try done; by eexists.
  - intros v m m' Hm Hm'. unfold ex_mappings in *. rewrite !elem_of_cons, elem_of_nil in Hm, Hm'.
    rewrite !Is_true_true. unfold holds. rewrite !andb_true_iff, !Z.leb_le, !Z.ltb_lt.
    destruct Hm as [->|[->|[->|[->|[]]]]], Hm' as [->|[->|[->|[->|[]]]]]; cbn; intros [? _] [? _]; done || lia.
  - intros p Hp. unfold ex_huge in Hp. rewrite !elem_of_cons, elem_of_nil in Hp. destruct Hp as [->|[->|[]]].
    + exists (Mapping 0x7f0000000000 0x7f0000200000 "rw-s 00000000 00:0e 1  " (Some "/mnt/huge/rtemap_0")). by split_and!; [set_solver|..].
    + exists (Mapping 0x7f0000200000 0x7f0000400000 "rw-s 00000000 00:0e 2  " (Some "/mnt/huge/rtemap_1")). by split_and!; [set_solver|..].
Qed.
Definition ex_check (z : rte_memzone) : bool :=
  (z_hugepage_sz z =? 2 ^ 21) && (0 <? z_len z) && (z_addr z + z_len z + 2 ^ 21 <? 2 ^ 64) &&
  (z_phys z mod 2 ^ 21 =? z_addr z mod 2 ^ 21) && forallb (λ p, bool_decide (p ∈ ex_huge)) (zone_run z).
Lemma ex_zone_in z : ex_check z = true → zone_in ex_huge z.
Proof.
  unfold ex_check. rewrite !andb_true_iff, !Z.eqb_eq, !Z.ltb_lt. intros ((((Hsz & Hl) & He) & Hp) & Hall).
  rewrite <- Hsz in He, Hp. split; [by exists 21|done|done|].
  intros p Hin%list_elem_of_In. by apply (proj1 (forallb_forall _ _) Hall), bool_decide_eq_true in Hin.
Qed.
Lemma ex_addable : addable ex_huge ex_shmem (reverse [3%nat] ++ [2%nat; 1%nat; 0%nat]).
Proof.
  assert (∀ i, i ∈ reverse [3%nat] ++ [2%nat; 1%nat; 0%nat] → i = 0%nat ∨ i = 1%nat ∨ i = 2%nat ∨ i = 3%nat) as Hi by set_solver.
  split.
  - intros i [->|[->|[->| ->]]]%Hi; eexists; (split; [reflexivity|]); apply ex_zone_in; by vm_compute.
  - apply (bool_decide_unpack _). by vm_compute.
  - intros i j y z [->|[->|[->| ->]]]%Hi [->|[->|[->| ->]]]%Hi Hne [= <-] [= <-]; try done; unfold apart; cbn; lia.
  - done.
Qed.
Lemma hostshmem_init_shares_witness : ∃ st' c m,
  init_hostshmem (Some (maps_text <$> ex_mappings)) true (Some (Metadata 0 "" [])) (Some (HpMetadata 0 "" []))
    ex_shmem 0 0x7f0000010000 0x7f0000310000 [0x7f0000320000] = Some (Some st') ∧
  global_config st' !! 0%nat = Some c ∧ metadata c = Some m ∧
  filter zone_used (mz <$> entry m) ≡ₚ zones_at ex_shmem (reverse [3%nat] ++ [2%nat; 1%nat; 0%nat]) ∧
  ∀ e k, e ∈ entry m → used e → 0 <= k < z_len (mz e) →
    ∃ b, process_byte (Some (maps_text <$> ex_mappings)) (z_addr (mz e) + k) = Some b ∧ file_at (memseg_cache c) (offset e + k) = Some b.
Proof.
  apply (hostshmem_init_shares ex_huge (Some (maps_text <$> ex_mappings)) ex_shmem 0 0 1 2 0x7f0000010000 0x7f0000310000 [0x7f0000320000] [3%nat]).
  - apply ex_layout.
  - apply ex_files.
  - split; [intros c Hc; by apply elem_of_nil in Hc|]. exists zero_config. split_and!; [done|done|]. apply length_replicate.
  - apply ex_addable.
  - done.
  - done.
  - done.
  - by repeat constructor.
Defined.

(** ** Several pages in one file *)
Definition ex_one_file : list mapping := [Mapping 0x7f0000000000 0x7f0000800000 "rw-s 00000000 00:0e 1  " (Some "/mnt/huge/seg_0");
  Mapping 0x7f0000800000 0x7f0000a00000 "rw-s 00000000 00:0e 2  " (Some "/mnt/huge/seg_1")].
Definition ex_tables (zs : list rte_memzone) (ms : list memseg_cache_entry) :=
  build_tables (Some (maps_text <$> ex_one_file)) ((λ z, Entry z 0) <$> zs) ms (replicate 32 zero_hp).
(** The second page of a zone has no path in the table of pages: the path is
    looked up by page in a cache that has one entry for both. *)
Theorem one_file_no_path : ∃ es ms hp,
  ex_tables [ex_zone "RG_a" 0 0x300000] (replicate 8 zero_cache) = Ok (es, ms, hp) ∧
  hp_addr <$> hp !! 1%nat = Some 0x7f0000200000 ∧ hp_path <$> hp !! 1%nat = Some "".
Proof. eexists _, _, _. split; [vm_compute; reflexivity|]. split; reflexivity. Qed.
(** When a page joins two entries of the cache, the last entry stays behind: its
    file is there twice. *)
Theorem stale_cache_entry : ∃ es ms hp es' ms' hp',
  ex_tables [ex_zone "a" 0 64; ex_zone "c" 0x400000 64; ex_zone "d" 0x800000 64] (replicate 8 zero_cache) = Ok (es, ms, hp) ∧
  ex_tables [ex_zone "a" 0 64; ex_zone "b" 0x200000 64; ex_zone "c" 0x400000 64; ex_zone "d" 0x800000 64] ms = Ok (es', ms', hp') ∧
  take 4 ms' = [Cached "/mnt/huge/seg_0" 0 0x600000; Cached "/mnt/huge/seg_1" 0 0x200000; Cached "/mnt/huge/seg_1" 0 0x200000; zero_cache].
Proof. do 6 eexists. split; [vm_compute; reflexivity|]. split; [vm_compute; reflexivity|]. reflexivity. Qed.
