(* ===== verification/ShmCmdline.v ===== *)
(** * librte_hostshmem: the command line for QEMU

    [rte_hostshmem_metadata_cmdline_generate] of
    [lib/librte_hostshmem/rte_hostshmem.c]: the device of the guest is the files
    of the cache one after the other, [/dev/zero] up to a power of two, and the
    metadata file. *)
From S2P Require Import Prelude CStr Align ShmPages ShmFiles HostShmem.
Open Scope Z_scope.

(** [sizeof (struct rte_hostshmem_metadata)]: 128 entries of 96 bytes after 40. *)
Definition metadata_size : Z := 40 + RTE_LIBRTE_HOSTSHMEM_MAX_ENTRIES * 96.
Definition METADATA_SIZE_ALIGNED (pagesz : Z) : Z := RTE_ALIGN_CEIL u64 metadata_size pagesz.

(** [HOSTSHMEM_QEMU_CMD_FD_FMT] and [HOSTSHMEM_QEMU_CMD_LINE_HEADER_FMT]. *)
Definition cmd_fd (path : string) (off len : Z) : string := ":" +:+ path +:+ ":0x" +:+ fmt_lx off +:+ ":0x" +:+ fmt_lx len.
Definition cmd_header (size : Z) (cmdline : string) : string := "-device hostshmem,size=" +:+ pretty (Z.to_N size) +:+ "M,shm=fd" +:+ cmdline.

(** [snprintf(cmdline_ptr, remaining_len, ...)] and the test after it: the text
    in the buffer and [remaining_len], an [unsigned]. Once the text was longer
    than the space, [remaining_len] has wrapped and [cmdline_ptr] is past the
    buffer: to write there is undefined ([None]). [Some None] is "too long". *)
Definition append_fd (st : string * Z) (path : string) (off len : Z) : option (option (string * Z)) :=
  let '(text, remaining_len) := st in
  if HOSTSHMEM_QEMU_CMDLINE_BUFSIZE <? remaining_len then None else
  let t := cmd_fd path off len in
  let remaining_len' := u32 (remaining_len - strlen t) in
  Some (if remaining_len' =? 0 then None else Some (text +:+ snprintf remaining_len t, remaining_len')).
(** [n] is how many entries are left to 128. *)
Fixpoint append_cache (n : nat) (ms : list memseg_cache_entry) (st : string * Z) (shared_mem_size : Z) : option (option (string * Z * Z)) :=
  match n, ms with
  | S n, e :: ms =>
      if c_len e =? 0 then Some (Some (st, shared_mem_size)) else
      r ← append_fd st (filepath e) (c_offset e) (c_len e);
      match r with
      | None => Some None
      | Some st => append_cache n ms st (u64 (shared_mem_size + c_len e))
      end
  | _, _ => Some (Some (st, shared_mem_size))
  end.
(** [Some None] is [-1]; the result is the text in [buffer]. A null buffer or
    name is [None]. *)
Definition rte_hostshmem_metadata_cmdline_generate (pagesz : Z) (cs : list hostshmem_config) (buffer : bool) (size : Z) (nm : option string) :
    option (option string) :=
  match nm with
  | None => Some None
  | Some nm =>
      if negb buffer then Some None else
      match get_config_by_name cs nm with
      | None => Some None
      | Some i =>
          c ← cs !! i; m ← metadata c;
          let cfg_file_path := snprintf PATH_MAX ("/var/run/.dpdk_hostshmem_metadata_" +:+ md_name m) in
          r ← append_cache (Z.to_nat RTE_LIBRTE_HOSTSHMEM_MAX_ENTRIES) (memseg_cache c) ("", HOSTSHMEM_QEMU_CMDLINE_BUFSIZE) 0;
          match r with
          | None => Some None
          | Some (st, shared_mem_size) =>
              let total_size := rte_align64pow2 (u64 (shared_mem_size + METADATA_SIZE_ALIGNED pagesz)) in
              let zero_size := u64 (total_size - shared_mem_size - METADATA_SIZE_ALIGNED pagesz) in
              r ← append_fd st "/dev/zero" 0 zero_size;
              match r with
              | None => Some None
              | Some st =>
                  r ← append_fd st cfg_file_path 0 (METADATA_SIZE_ALIGNED pagesz);
                  match r with
                  | None => Some None
                  | Some (cmdline, remaining_len) =>
                      if size <? u64 (HOSTSHMEM_QEMU_CMDLINE_BUFSIZE - remaining_len) then Some None
                      else Some (Some (snprintf size (cmd_header (Z.shiftr total_size 20) cmdline)))
                  end
              end
          end
      end
  end.

(** ** What the command line says *)

(** The files of the device: path, place and length of each part. *)
Fixpoint cached_files (n : nat) (ms : list memseg_cache_entry) : list (string * Z * Z) :=
  match n, ms with
  | S n, e :: ms => if c_len e =? 0 then [] else (filepath e, c_offset e, c_len e) :: cached_files n ms
  | _, _ => []
  end.
Definition device_files (pagesz : Z) (nm : string) (ms : list memseg_cache_entry) : list (string * Z * Z) * Z :=
  let fs := cached_files (Z.to_nat RTE_LIBRTE_HOSTSHMEM_MAX_ENTRIES) ms in
  let shared := total_by snd fs in
  let total := rte_align64pow2 (shared + METADATA_SIZE_ALIGNED pagesz) in
  (fs ++ [("/dev/zero", 0, total - shared - METADATA_SIZE_ALIGNED pagesz);
          ("/var/run/.dpdk_hostshmem_metadata_" +:+ nm, 0, METADATA_SIZE_ALIGNED pagesz)], total).
Definition files_text (fs : list (string * Z * Z)) : string := foldr (λ '(p, o, l) t, cmd_fd p o l +:+ t) "" fs.

Definition written (text : string) : string * Z := (text, HOSTSHMEM_QEMU_CMDLINE_BUFSIZE - strlen text).
Lemma append_fd_fits text p o l : strlen (text +:+ cmd_fd p o l) < HOSTSHMEM_QEMU_CMDLINE_BUFSIZE →
  append_fd (written text) p o l = Some (Some (written (text +:+ cmd_fd p o l))).
Proof.
  unfold HOSTSHMEM_QEMU_CMDLINE_BUFSIZE, written, append_fd. rewrite strlen_app. intros Hlt.
  pose proof (strlen_nonneg text). pose proof (strlen_nonneg (cmd_fd p o l)). unfold HOSTSHMEM_QEMU_CMDLINE_BUFSIZE.
  destruct (Z.ltb_spec 1024 (1024 - strlen text)); [lia|]. rewrite u32_small by (unfold is_u32; lia).
  destruct (Z.eqb_spec (1024 - strlen text - strlen (cmd_fd p o l)) 0); [lia|]. rewrite snprintf_fits by lia.
  do 3 f_equal. lia.
Qed.
Lemma append_cache_fits n ms text shared : let fs := cached_files n ms in
  strlen (text +:+ files_text fs) < HOSTSHMEM_QEMU_CMDLINE_BUFSIZE → (∀ f, f ∈ fs → 0 < snd f) → 0 <= shared → shared + total_by snd fs < 2 ^ 64 →
  append_cache n ms (written text) shared = Some (Some (written (text +:+ files_text fs), shared + total_by snd fs)).
Proof.
  revert ms text shared. induction n as [|n IH]; intros ms text shared fs Hlt Hpos Hsh Htot.
  { unfold fs. cbn. by rewrite string_app_nil, Z.add_0_r. }
  destruct ms as [|e ms]; [unfold fs; cbn; by rewrite string_app_nil, Z.add_0_r|]. unfold fs in *. cbn [append_cache cached_files] in *.
  destruct (c_len e =? 0); [cbn; by rewrite string_app_nil, Z.add_0_r|].
  assert (∀ f, f ∈ cached_files n ms → 0 < snd f) as Hpos' by (intros f ?; apply Hpos; by right). pose proof (Hpos _ ltac:(left)) as He.
  pose proof (total_nonneg snd _ Hpos'). rewrite total_cons in *. cbn [snd] in *.
  change (files_text ((filepath e, c_offset e, c_len e) :: cached_files n ms)) with (cmd_fd (filepath e) (c_offset e) (c_len e) +:+ files_text (cached_files n ms)) in *.
  rewrite string_app_assoc in Hlt |- *. rewrite strlen_app in Hlt. pose proof (strlen_nonneg (files_text (cached_files n ms))).
  rewrite append_fd_fits by lia. cbn [mbind option_bind]. rewrite u64_small by (unfold is_u64; lia).
  rewrite IH; [|rewrite strlen_app; lia|done|lia|lia]. do 3 f_equal. lia.
Qed.

Lemma cached_files_pos n ms : (∀ e, e ∈ ms → 0 <= c_len e) → ∀ f, f ∈ cached_files n ms → 0 < snd f.
Proof.
  revert ms. induction n as [|n IH]; intros ms Hms f Hf; [by apply elem_of_nil in Hf|]. destruct ms as [|e ms]; cbn in Hf; [by apply elem_of_nil in Hf|].
  pose proof (Hms e ltac:(left)). destruct (Z.eqb_spec (c_len e) 0); [by apply elem_of_nil in Hf|].
  apply elem_of_cons in Hf as [->|Hf]; [cbn; lia|]. apply (IH ms); [|done]. intros e' ?. apply Hms. by right.
Qed.
Lemma files_text_app fs gs : files_text (fs ++ gs) = files_text fs +:+ files_text gs.
Proof.
  induction fs as [|[[p o] l] fs IH]; [done|]. cbn [app files_text foldr] in *. fold (files_text (fs ++ gs)) in *. rewrite IH. apply string_app_assoc.
Qed.

(** The command line is complete when it fits: a configuration that is found,
    with entries of some length in its cache, whose text is shorter than the 1024
    bytes of the local buffer and not longer than the caller's [size]. Then the
    text lists exactly the files of the cache, [/dev/zero] and the metadata file;
    their lengths add up to the size of the device, the smallest power of two
    that holds cache and metadata. *)
Theorem cmdline_correct (pagesz size : Z) (cs : list hostshmem_config) (nm : string) (i : nat) (c : hostshmem_config) (m : rte_hostshmem_metadata) :
  get_config_by_name cs nm = Some i → cs !! i = Some c → metadata c = Some m → strlen (md_name m) < HOSTSHMEM_NAME_LEN →
  0 < METADATA_SIZE_ALIGNED pagesz → (∀ e, e ∈ memseg_cache c → 0 <= c_len e) →
  let '(fs, total) := device_files pagesz (md_name m) (memseg_cache c) in
  let used := total_by snd (cached_files (Z.to_nat RTE_LIBRTE_HOSTSHMEM_MAX_ENTRIES) (memseg_cache c)) + METADATA_SIZE_ALIGNED pagesz in
  used <= 2 ^ 63 → strlen (files_text fs) < HOSTSHMEM_QEMU_CMDLINE_BUFSIZE → strlen (files_text fs) <= size →
  rte_hostshmem_metadata_cmdline_generate pagesz cs true size (Some nm) =
    Some (Some (snprintf size (cmd_header (Z.shiftr total 20) (files_text fs)))) ∧
  total_by snd fs = total ∧ ∃ k, total = 2 ^ k ∧ used <= total < 2 * used.
Proof.
  intros Hget Hc Hm Hname Hmeta Hlens. unfold device_files. set (ce := cached_files _ _). set (meta := METADATA_SIZE_ALIGNED pagesz) in *. cbv zeta.
  intros Hused Htext Hsize.
  assert (∀ f, f ∈ ce → 0 < snd f) as Hpos by (by apply cached_files_pos). pose proof (total_nonneg snd ce Hpos).
  destruct (align64pow2_spec (total_by snd ce + meta)) as (k & Hk & Htot & Hpow); [lia|]. set (total := rte_align64pow2 _) in *.
  pose proof (Z.pow_le_mono_r 2 k 63 ltac:(lia) ltac:(lia)).
  rewrite !files_text_app in *. cbn [files_text foldr] in *. rewrite string_app_nil in *. rewrite !strlen_app in Htext. split_and!.
  - unfold rte_hostshmem_metadata_cmdline_generate. rewrite Hget, Hc. cbn [negb mbind option_bind]. rewrite Hm. cbn [mbind option_bind].
    pose proof (strlen_nonneg (cmd_fd "/dev/zero" 0 (total - total_by snd ce - meta))).
    pose proof (strlen_nonneg (cmd_fd ("/var/run/.dpdk_hostshmem_metadata_" +:+ md_name m) 0 meta)).
    pose proof (append_cache_fits (Z.to_nat RTE_LIBRTE_HOSTSHMEM_MAX_ENTRIES) (memseg_cache c) "" 0) as Hcache. cbv zeta in Hcache. fold ce in Hcache.
    change ("" +:+ files_text ce) with (files_text ce) in Hcache. rewrite Z.add_0_l in Hcache. change (written "") with ("", HOSTSHMEM_QEMU_CMDLINE_BUFSIZE) in Hcache.
    rewrite Hcache by (done || lia). clear Hcache.
    cbn [mbind option_bind]. fold meta. rewrite !(u64_small (_ + _)) by (unfold is_u64; lia). fold total.
    rewrite (u64_small (_ - _)) by (unfold is_u64; lia). rewrite append_fd_fits by (rewrite !strlen_app; lia).
    cbn [mbind option_bind]. rewrite snprintf_fits
      by (rewrite strlen_app; unfold HOSTSHMEM_NAME_LEN, PATH_MAX in *; change (strlen "/var/run/.dpdk_hostshmem_metadata_") with 34; lia).
    rewrite append_fd_fits by (rewrite !strlen_app; lia). cbn [mbind option_bind written].
    rewrite <- string_app_assoc. destruct (Z.ltb_spec size (u64 (HOSTSHMEM_QEMU_CMDLINE_BUFSIZE - (HOSTSHMEM_QEMU_CMDLINE_BUFSIZE - strlen (files_text ce +:+
      cmd_fd "/dev/zero" 0 (total - total_by snd ce - meta) +:+ cmd_fd ("/var/run/.dpdk_hostshmem_metadata_" +:+ md_name m) 0 meta))))) as [Hlt|]; [|done].
    rewrite u64_small in Hlt; [lia|]. unfold is_u64, HOSTSHMEM_QEMU_CMDLINE_BUFSIZE in *. rewrite !strlen_app in *. pose proof (strlen_nonneg (files_text ce)). lia.
  - rewrite total_app, !total_cons. cbn. lia.
  - exists k. split; [done|lia].
Qed.

(** [n] huge pages of 2 MB, each in its own file, as in the default set-up. *)
Definition ex_cache (n : nat) : list memseg_cache_entry :=
  ((λ i, Cached ("/dev/hugepages/rtemap_" +:+ fmt_d (Z.of_nat i)) 0 0x200000) <$> seq 0 n) ++ [zero_cache].
Definition ex_config (n : nat) : list hostshmem_config := [Config (Some (Metadata HOSTSHMEM_MAGIC HOSTSHMEM_METADATA_NAME [])) None (ex_cache n)].
Lemma cmdline_correct_witness :
  rte_hostshmem_metadata_cmdline_generate 4096 (ex_config 2) true 4096 (Some HOSTSHMEM_METADATA_NAME) = Some (Some
    "-device hostshmem,size=8M,shm=fd:/dev/hugepages/rtemap_0:0x0:0x200000:/dev/hugepages/rtemap_1:0x0:0x200000:/dev/zero:0x0:0x3fc000:/var/run/.dpdk_hostshmem_metadata_pp_hostshmem:0x0:0x4000").
Proof.
  destruct (cmdline_correct 4096 4096 (ex_config 2) HOSTSHMEM_METADATA_NAME 0
    (Config (Some (Metadata HOSTSHMEM_MAGIC HOSTSHMEM_METADATA_NAME [])) None (ex_cache 2)) (Metadata HOSTSHMEM_MAGIC HOSTSHMEM_METADATA_NAME [])) as [H _].
  - reflexivity.
  - reflexivity.
  - reflexivity.
  - reflexivity.
  - reflexivity.
  - intros e He. apply list_elem_of_In in He. cbn in He. destruct He as [<-|[<-|[<-|[]]]]; cbn; lia.
  - vm_compute. discriminate.
  - vm_compute. reflexivity.
  - vm_compute. discriminate.
  - rewrite H. vm_compute. reflexivity.
Defined.

(** With 32 pages, as many as the table of pages takes, the text overflows the
    local buffer: writing past its end. *)
Theorem cmdline_overflow : rte_hostshmem_metadata_cmdline_generate 4096 (ex_config 32) true 4096 (Some HOSTSHMEM_METADATA_NAME) = None.
Proof. vm_compute. reflexivity. Qed.
