(* ===== verification/EalShmem.v ===== *)
(** * Attaching to the shared memory

    [lib/librte_eal/linuxapp/eal/eal_hostshmem.c]: a process started with the name
    of a configuration reads its two files, maps every huge page of the table at
    the address it has in the process that shares it ([map_hp_entries]), and
    registers the zones, pools and rings it finds
    ([rte_eal_hostshmem_obj_init]). The answers of the kernel are inputs. *)
From S2P Require Import Prelude CStr Align ShmPages ShmFiles HostShmem.
Open Scope Z_scope.

Definition RTE_MAX_MEMSEG : Z := 256.
Definition RTE_MAX_MEMZONE : Z := 2560.

(** ** Mapping the pages *)

(** An area of the address space, with the file it shows. *)
Record vm_area := Area { a_start : Z; a_len : Z; a_file : string; a_off : Z; a_shared : bool }.
(** [struct rte_memseg] in [mcfg->memseg]. *)
Record eal_memseg := EalSeg { es_phys : Z; es_addr : Z; es_ioremap : Z; es_len : Z; es_hugepage_sz : Z; es_socket : Z }.
Record attach := Attach { areas : list vm_area; memseg : list eal_memseg }.
#[export] Instance attach_upd : Updatable attach := λ a, Attach (areas a) (memseg a).

(** [munmap] of a range that no area crosses the ends of. *)
Definition munmap (st : attach) (addr len : Z) : attach :=
  st <| areas := filter (λ a, ¬ (addr <= a_start a ∧ a_start a + a_len a <= addr + len)) (areas st) |>.
Definition mmap (st : attach) (base len : Z) (file : string) (shared : bool) : attach :=
  st <| areas := Area base len file 0 shared :: areas st |>.
(** What the kernel answers for the [i]th page: where [/dev/zero] is mapped, whether
    the file opens, where the file is mapped; [None] is [MAP_FAILED]. *)
Definition answers : Type := option Z * bool * option Z.
Fixpoint map_pages (os : nat → hugepage_entry → answers) (hps : list hugepage_entry) (i : nat) (st : attach) : attach * Z :=
  match hps with
  | [] => (st, 0)
  | h :: hps =>
      if hp_addr h =? 0 then (st, 0) else
      let '(zero, opened, base) := os i h in
      match zero with
      | None => (st, -1)
      | Some b =>
          let st := mmap st b (hp_len h) "/dev/zero" false in
          if negb (b =? hp_addr h) || negb opened then (st, -1) else
          let st := munmap st (hp_addr h) (hp_len h) in
          match base with
          | None => (st, -1)
          | Some b =>
              let st := mmap st b (hp_len h) (hp_path h) true in
              if negb (b =? hp_addr h) then (st, -1) else
              let ms := EalSeg (hp_phys h) (hp_addr h) (hp_phys h) (hp_len h) (hp_hugepage_sz h) (hp_socket h) in
              map_pages os hps (S i) (st <| memseg := <[i := ms]> (memseg st) |>)
          end
      end
  end.
(** [None]: no configuration was read; [zero]: [/dev/zero] opens. *)
Definition map_hp_entries (os : nat → hugepage_entry → answers) (zero : bool) (config : option hostshmem_hugepage_metadata) (st : attach) : attach * Z :=
  match config with
  | None => (st, -1)
  | Some hp => if zero then map_pages os (hp_entries hp) 0 st else (st, -1)
  end.

(** ** Finding the objects *)

(** [mcfg->memzone] with the number in use, and the lists of pools and rings by
    address. [memzone_of] is the field [memzone] of the rings: an address in this
    process, written to the shared ring. [locked] is the lock of the lists. *)
Record eal := Eal {
  memzones : list rte_memzone; memzone_cnt : nat; mempool_list : list Z; ring_list : list Z; memzone_of : list (Z * nat); locked : bool }.
#[export] Instance eal_upd : Updatable eal := λ e, Eal (memzones e) (memzone_cnt e) (mempool_list e) (ring_list e) (memzone_of e) (locked e).

Fixpoint add_memzones (es : list metadata_entry) (st : eal) : eal * bool :=
  match es with
  | [] => (st, true)
  | e :: es =>
      if Z.of_nat (memzone_cnt st) =? RTE_MAX_MEMZONE then (st, false)
      else add_memzones es (st <| memzones := <[memzone_cnt st := mz e]> (memzones st) |> <| memzone_cnt := S (memzone_cnt st) |>)
  end.
Definition has_prefix (prefix : string) (z : rte_memzone) : bool := strncmp_eq (z_name z) prefix (String.length prefix).
(** [alloc] is whether the [n]th allocation of a list entry succeeds. *)
Fixpoint find_mempools (alloc : nat → bool) (n : nat) (zs : list rte_memzone) (st : eal) : nat * eal * bool :=
  match zs with
  | [] => (n, st, true)
  | z :: zs =>
      if negb (has_prefix "MP_" z) then find_mempools alloc n zs st
      else if negb (alloc n) then (n, st, false)
      else find_mempools alloc (S n) zs (st <| mempool_list := mempool_list st ++ [z_addr z] |>)
  end.
Fixpoint find_rings (alloc : nat → bool) (n i : nat) (zs : list rte_memzone) (st : eal) : eal * bool :=
  match zs with
  | [] => (st, true)
  | z :: zs =>
      if negb (has_prefix "RG_" z) then find_rings alloc n (S i) zs st
      else
        let st := st <| memzone_of := (z_addr z, i) :: memzone_of st |> in
        if negb (alloc n) then (st, false)
        else find_rings alloc (S n) (S i) zs (st <| ring_list := ring_list st ++ [z_addr z] |>)
  end.
(** [config] is [None] also in a secondary process. *)
Definition rte_eal_hostshmem_obj_init (alloc : nat → bool) (config : option rte_hostshmem_metadata) (st : eal) : eal * Z :=
  match config with
  | None => (st, 0)
  | Some m =>
      let '(st, ok) := add_memzones (entry m) st in
      if negb ok then (st, -1) else
      let st := st <| locked := true |> in
      let zs := take (memzone_cnt st) (memzones st) in
      let '(n, st, ok) := find_mempools alloc 0 zs st in
      if negb ok then (st, -1) else
      let '(st, ok) := find_rings alloc n 0 zs st in
      if negb ok then (st, -1) else (st <| locked := false |>, 0)
  end.

(** ** What the process sees *)
Definition in_area (v : Z) (a : vm_area) : bool := (a_start a <=? v) && (v <? a_start a + a_len a).
(** The file and the place in it of the byte at [v]. *)
Definition byte_at (st : attach) (v : Z) : option (string * Z) :=
  a ← find (in_area v) (areas st); if a_shared a then Some (a_file a, a_off a + (v - a_start a)) else None.

(** Every page of the sharing process is a file of its own. *)
Definition own_files (maps : option (list string)) (huge : list rte_memseg) : Prop :=
  (∀ p, p ∈ huge → ∃ path, ∀ d, 0 <= d < s_len p → get_hugefile_by_virt_addr maps (s_addr p + d) = Ok (path, d)) ∧
  ∀ p q, p ∈ huge → q ∈ huge → same_file (get_hugefile_by_virt_addr maps) p q → p = q.
Lemma own_files_of maps huge : layout huge → own_files maps huge → files_of maps huge.
Proof.
  intros HL [Hown _] p Hp. destruct (Hown p Hp) as [path Hall], (pages_ok _ HL p Hp) as (? & ? & ? & _).
  exists path, 0. split_and!; [done|lia|]. intros d Hd. by rewrite Hall.
Qed.

(** The kernel maps the pages where they are wanted: nothing else is there. *)
Definition room (huge : list rte_memseg) (st : attach) : Prop :=
  ∀ a p, a ∈ areas st → p ∈ huge → 0 < a_len a ∧ apart (a_start a) (a_len a) (s_addr p) (s_len p).
Definition grants (os : nat → hugepage_entry → answers) (huge : list rte_memseg) : Prop :=
  ∀ i h p, p ∈ huge → hp_addr h = s_addr p → os i h = (Some (hp_addr h), true, Some (hp_addr h)).

Section attach.
Context (huge : list rte_memseg) (HL : layout huge) (maps : option (list string)) (HO : own_files maps huge).

Definition page_area (p : rte_memseg) (a : vm_area) : Prop :=
  ∃ path, a = Area (s_addr p) (s_len p) path 0 true ∧ get_hugefile_by_virt_addr maps (s_addr p) = Ok (path, 0).
(** The pages [ds] are mapped, and what was there before still is. *)
Record attached (st0 st : attach) (ds : list rte_memseg) : Prop := {
  at_pages : ∀ p, p ∈ ds → ∃ a, a ∈ areas st ∧ page_area p a;
  at_only : ∀ a, a ∈ areas st → a ∈ areas st0 ∨ ∃ p, p ∈ ds ∧ page_area p a;
  at_rest : ∀ a, a ∈ areas st0 → a ∈ areas st }.

Lemma mmap_page st0 st ds p path : room huge st0 → attached st0 st ds → ds ⊆ huge → p ∈ huge → p ∉ ds →
  get_hugefile_by_virt_addr maps (s_addr p) = Ok (path, 0) →
  attached st0 (mmap (munmap (mmap st (s_addr p) (s_len p) "/dev/zero" false) (s_addr p) (s_len p)) (s_addr p) (s_len p) path true) (ds ++ [p]).
Proof.
  intros Hroom [Hp Ho Hr] Hds Hpin Hni Hh. destruct (pages_ok _ HL p Hpin) as (_ & Hlen & _).
  assert (∀ a, a ∈ areas st → ¬ (s_addr p <= a_start a ∧ a_start a + a_len a <= s_addr p + s_len p)) as Hkeep.
  { intros a Ha. destruct (Ho a Ha) as [Ha0|(q & Hq & path' & -> & _)].
    - destruct (Hroom a p Ha0 Hpin) as [? [?|?]]; lia.
    - cbn. destruct (pages_ok _ HL q (Hds _ Hq)) as (_ & ? & _).
      destruct (pages_apart _ HL q p (Hds _ Hq) Hpin) as [[?|?] _]; [by intros ->|lia|lia]. }
  assert (areas (munmap (mmap st (s_addr p) (s_len p) "/dev/zero" false) (s_addr p) (s_len p)) = areas st) as Heq.
  { cbn. rewrite decide_False by lia. by apply filter_all. }
  unfold mmap at 1. split; cbn [areas alter_field]; rewrite Heq.
  - intros q [Hq| ->%list_elem_of_singleton]%elem_of_app.
    + destruct (Hp q Hq) as (a & Ha & Hpa). exists a. split; [by right|done].
    + eexists. split; [left|]. by exists path.
  - intros a [->|Ha]%elem_of_cons; [right; exists p; split; [set_solver|by exists path]|].
    destruct (Ho a Ha) as [?|(q & ? & ?)]; [by left|right; exists q; split; [set_solver|done]].
  - intros a Ha. right. by apply Hr.
Qed.

Lemma map_pages_attached os st0 ps hps i st ds : room huge st0 → attached st0 st ds → NoDup (ds ++ ps) → ds ++ ps ⊆ huge →
  (∀ j p, ps !! j = Some p → ∃ path, get_hugefile_by_virt_addr maps (s_addr p) = Ok (path, 0) ∧ hps !! j = Some (page_entry (i + j) p path)) →
  (∀ j h, (length ps <= j)%nat → hps !! j = Some h → h = zero_hp) →
  grants os huge →
  ∃ st', map_pages os hps i st = (st', 0) ∧ attached st0 st' (ds ++ ps).
Proof.
  intros Hroom. revert hps i st ds. induction ps as [|p ps IH]; intros hps i st ds Hat Hnd Hsub Hpg Hz Hos.
  { exists st. rewrite app_nil_r. split; [|done]. destruct hps as [|h hps]; [done|]. cbn. by rewrite (Hz 0%nat h (Nat.le_0_l _) eq_refl). }
  destruct (Hpg 0%nat p eq_refl) as (path & Hh & Hp0). destruct hps as [|h hps]; [done|]. cbn in Hp0. injection Hp0 as ->.
  assert (p ∈ huge) as Hp by (apply Hsub; set_solver). destruct (pages_ok _ HL p Hp) as (Ha & _). cbn [map_pages page_entry hp_addr hp_len hp_path].
  rewrite (proj2 (Z.eqb_neq (s_addr p) 0)) by lia. erewrite (Hos i _ p Hp) by reflexivity. cbn [page_entry hp_addr]. rewrite !Z.eqb_refl. cbn [negb orb]. rewrite cons_middle, app_assoc in *.
  apply NoDup_app in Hnd as (Hnd1 & Hnd2 & Hnd3). pose proof Hnd1 as (_ & Hni & _)%NoDup_app.
  apply IH; [|apply NoDup_app; done|done|..].
  - destruct (mmap_page st0 st ds p path Hroom Hat) as [H1 H2 H3]; [set_solver|done|intros Hin; apply (Hni _ Hin); left|done|]. by split.
  - intros j q Hq. destruct (Hpg (S j) q Hq) as (path' & ? & ?). exists path'. by rewrite Nat.add_succ_r in *.
  - intros j h Hj Hjh. apply (Hz (S j)); [cbn; lia|done].
  - done.
Qed.
Lemma attached_byte st0 st ds p d : room huge st0 → attached st0 st ds → ds ⊆ huge → p ∈ ds → 0 <= d < s_len p →
  byte_at st (s_addr p + d) = process_byte maps (s_addr p + d) ∧ is_Some (byte_at st (s_addr p + d)).
Proof.
  intros Hroom [Hp Ho _] Hds Hpin Hd. destruct (Hp p Hpin) as (a & Ha & path & -> & Hh). destruct (proj1 HO p (Hds _ Hpin)) as [path' Hall].
  assert (path' = path) as ->. { pose proof (Hall 0 ltac:(lia)) as H0. rewrite Z.add_0_r in H0. congruence. }
  assert (byte_at st (s_addr p + d) = Some (path, d)) as ->.
  { unfold byte_at. rewrite (find_only _ _ _ Ha).
    - cbn. f_equal. f_equal. lia.
    - unfold in_area. cbn. rewrite (proj2 (Z.leb_le _ _)), (proj2 (Z.ltb_lt _ _)) by lia. done.
    - intros b Hb [?%Z.leb_le ?%Z.ltb_lt]%andb_true_iff. destruct (Ho b Hb) as [Hb0|(q & Hq & path'' & -> & Hh')].
      + destruct (Hroom b p Hb0 (Hds _ Hpin)) as [? [?|?]]; lia.
      + cbn in *. destruct (decide (q = p)) as [->|Hne]; [congruence|].
        destruct (pages_apart _ HL q p (Hds _ Hq) (Hds _ Hpin) Hne) as [[?|?] _]; lia. }
  split; [|by eexists]. unfold process_byte. by rewrite Hall.
Qed.
(** The table of a configuration, mapped elsewhere, shows the bytes of its zones. *)
Lemma map_hp_entries_shows os c m hp ps st0 : built huge maps c m hp ps → zones_ok huge (mz <$> entry m) → room huge st0 → grants os huge →
  ∃ st, map_hp_entries os true (Some hp) st0 = (st, 0) ∧ ∀ z k, z ∈ mz <$> entry m → zone_used z → 0 <= k < z_len z →
    byte_at st (z_addr z + k) = process_byte maps (z_addr z + k) ∧ is_Some (byte_at st (z_addr z + k)).
Proof.
  intros [Hsub Hnd Hneed _ (ms & Hms & Hb) Hpg Hz] Hzok Hroom Hgr.
  pose proof (own_files_of maps huge HL HO) as HF.
  destruct (build_cache_distinct (get_hugefile_by_virt_addr maps) ps 0 None ms) as (ms' & Hb' & _ & Hat).
  { intros p Hp. apply (files_found huge HL maps HF), Hsub, Hp. } { done. } { intros p q Hp Hq. apply (proj2 HO); by apply Hsub. } { done. }
  { pose proof (few_pages huge HL ps Hsub Hnd). lia. }
  assert (ms' = memseg_cache c) as -> by congruence.
  destruct (map_pages_attached os st0 ps (hp_entries hp) 0 st0 []) as (st & Hm & Hatt); [done| |done|done| |done|done|].
  { split; [by intros p Hp%elem_of_nil|by left|done]. }
  { intros j p Hj. destruct (Hpg j p Hj) as (e & He & Hhp), (Hat j p Hj) as (path & off & Hh & He'). exists path. cbn in He'.
    assert (e = Cached path off (s_len p)) as -> by congruence. split; [|done].
    destruct (proj1 HO p) as [path' Hall]; [apply Hsub; by eapply list_elem_of_lookup_2|]. destruct (pages_ok _ HL p) as (_ & ? & _); [apply Hsub; by eapply list_elem_of_lookup_2|].
    pose proof (Hall 0 ltac:(lia)) as H0. rewrite Z.add_0_r in H0. congruence. }
  exists st. split; [done|]. intros z k Hzin Hu Hk. destruct (zone_page huge HL z k (zo_zones _ _ Hzok z Hzin Hu) Hk) as (p & Hp & Hin).
  replace (z_addr z + k) with (s_addr p + (z_addr z + k - s_addr p)) by lia. apply (attached_byte st0 st ps); [done|done|done| |lia].
  apply Hneed. exists z. done.
Qed.
End attach.

(** *** The objects *)
Lemma add_memzones_ok es st : Z.of_nat (memzone_cnt st + length es) <= RTE_MAX_MEMZONE → Z.of_nat (length (memzones st)) = RTE_MAX_MEMZONE →
  ∃ zs, add_memzones es st = (st <| memzones := zs |> <| memzone_cnt := (memzone_cnt st + length es)%nat |>, true) ∧
    take (memzone_cnt st + length es) zs = take (memzone_cnt st) (memzones st) ++ (mz <$> es).
Proof.
  revert st. induction es as [|e es IH]; intros st Hcnt Hlen; cbn [add_memzones length fmap list_fmap] in *.
  { exists (memzones st). rewrite Nat.add_0_r, app_nil_r. by destruct st. }
  destruct (Z.eqb_spec (Z.of_nat (memzone_cnt st)) RTE_MAX_MEMZONE); [lia|].
  destruct (IH (st <| memzones := <[memzone_cnt st := mz e]> (memzones st) |> <| memzone_cnt := S (memzone_cnt st) |>)) as (zs & Hadd & Hzs).
  { cbn. lia. } { cbn. by rewrite length_insert. }
  exists zs. rewrite Hadd. cbn in *. rewrite <- Nat.add_succ_r in *. rewrite <- Nat.add_succ_comm in *. split; [done|].
  rewrite Hzs. erewrite take_S_r by (apply list_lookup_insert_eq; lia). rewrite take_insert_ge by lia. by rewrite <- app_assoc.
Qed.
Lemma find_mempools_ok n zs st : ∃ n', find_mempools (λ _, true) n zs st =
  (n', st <| mempool_list := mempool_list st ++ (z_addr <$> filter (λ z, has_prefix "MP_" z) zs) |>, true).
Proof.
  revert n st. induction zs as [|z zs IH]; intros n st; cbn [find_mempools].
  { exists n. cbn. rewrite app_nil_r. by destruct st. }
  rewrite filter_cons. destruct (has_prefix "MP_" z); cbn [negb].
  - rewrite decide_True by done. destruct (IH (S n) (st <| mempool_list := mempool_list st ++ [z_addr z] |>)) as [n' ->].
    exists n'. cbn. by rewrite <- app_assoc.
  - rewrite decide_False by (by intros []). apply IH.
Qed.
Lemma find_rings_ok n i zs st : ∃ mo, find_rings (λ _, true) n i zs st =
  (st <| ring_list := ring_list st ++ (z_addr <$> filter (λ z, has_prefix "RG_" z) zs) |> <| memzone_of := mo |>, true).
Proof.
  revert n i st. induction zs as [|z zs IH]; intros n i st; cbn [find_rings].
  { exists (memzone_of st). cbn. rewrite app_nil_r. by destruct st. }
  rewrite filter_cons. destruct (has_prefix "RG_" z); cbn [negb].
  - rewrite decide_True by done. match goal with |- ∃ _, find_rings _ _ _ _ ?s = _ => destruct (IH (S n) (S i) s) as [mo ->] end.
    exists mo. cbn. by rewrite <- app_assoc.
  - rewrite decide_False by (by intros []). apply IH.
Qed.
(** The zones of the configuration are there afterwards, with the pools and the
    rings among them, and the lock is free. *)
Lemma obj_init_ok m st : Z.of_nat (memzone_cnt st + length (entry m)) <= RTE_MAX_MEMZONE → Z.of_nat (length (memzones st)) = RTE_MAX_MEMZONE →
  ∃ st', rte_eal_hostshmem_obj_init (λ _, true) (Some m) st = (st', 0) ∧ locked st' = false ∧
    let zs := take (memzone_cnt st) (memzones st) ++ (mz <$> entry m) in
    take (memzone_cnt st') (memzones st') = zs ∧
    mempool_list st' = mempool_list st ++ (z_addr <$> filter (λ z, has_prefix "MP_" z) zs) ∧
    ring_list st' = ring_list st ++ (z_addr <$> filter (λ z, has_prefix "RG_" z) zs).
Proof.
  intros Hcnt Hlen. unfold rte_eal_hostshmem_obj_init. destruct (add_memzones_ok (entry m) st Hcnt Hlen) as (zs & -> & Hzs).
  cbn [negb memzone_cnt memzones alter_field]. rewrite Hzs. set (zl := take _ _ ++ _).
  match goal with |- context [find_mempools _ 0 zl ?s] => destruct (find_mempools_ok 0 zl s) as [n ->] end. cbn [negb].
  match goal with |- context [find_rings _ n 0 zl ?s] => destruct (find_rings_ok n 0 zl s) as [mo ->] end. cbn [negb].
  eexists. split; [reflexivity|]. cbn. by rewrite Hzs.
Qed.


Lemma ex_own_files : own_files (Some (maps_text <$> ex_mappings)) ex_huge.
Proof.
  assert (∀ p, p ∈ ex_huge → ∃ path, ∀ d, 0 <= d < s_len p → get_hugefile_by_virt_addr (Some (maps_text <$> ex_mappings)) (s_addr p + d) = Ok (path, d)) as Hall.
  { intros p Hp. destruct (ex_files p Hp) as (path & off & _ & _ & Hd). exists path.
    assert (off = 0) as ->; [|intros d Hd'; by rewrite Hd]. unfold ex_huge in Hp. rewrite !elem_of_cons, elem_of_nil in Hp.
    destruct Hp as [->|[->|[]]]; specialize (Hd 0 ltac:(cbn; lia)); rewrite !Z.add_0_r in Hd; vm_compute in Hd; congruence. }
  split; [exact Hall|]. clear Hall. intros p q Hp Hq (path & off & off' & H1 & H2). unfold ex_huge in Hp, Hq. rewrite !elem_of_cons, elem_of_nil in Hp, Hq.
  destruct Hp as [->|[->|[]]], Hq as [->|[->|[]]]; [reflexivity|exfalso..|reflexivity]; vm_compute in H1, H2; congruence.
Qed.
Definition ex_eal : eal := Eal (replicate (Z.to_nat RTE_MAX_MEMZONE) zero_zone) 0 [] [] [] false.

(** When there is no memory for an entry of the list of pools, the lock of the
    lists stays taken. *)
Theorem obj_init_keeps_lock : let m := Metadata HOSTSHMEM_MAGIC HOSTSHMEM_METADATA_NAME [Entry (ex_zone "MP_pool" 0 64) 0] in
  let r := rte_eal_hostshmem_obj_init (λ _, false) (Some m) (Eal (replicate 4 zero_zone) 0 [] [] [] false) in snd r = -1 ∧ locked (fst r) = true.
Proof. by vm_compute. Qed.
(** Unused entries become zones as well. *)
Theorem obj_init_unused_zones : let m := Metadata HOSTSHMEM_MAGIC HOSTSHMEM_METADATA_NAME (Entry (ex_zone "RG_a" 0 64) 0 :: replicate 127 zero_entry) in
  memzone_cnt (fst (rte_eal_hostshmem_obj_init (λ _, true) (Some m) (Eal (replicate 200 zero_zone) 0 [] [] [] false))) = 128%nat.
Proof. by vm_compute. Qed.
