(* ===== verification/Malloc.v ===== *)
(** * The heaps of the EAL: elements, free lists, allocation

    [lib/librte_eal/common/malloc_elem.c], [malloc_elem.h], [malloc_heap.c] and
    [malloc_heap.h]. A heap is made of memory segments; each segment is a
    sequence of elements, every one with a header in front of its data, closed
    by an end marker. [elems] holds the headers by address ([NULL] is 0);
    the free lists of [sys/queue.h] are the lists of the addresses linked in
    them. A definition is [None] where the code would follow a pointer to
    something that is not a header, or remove from a list an element that is on
    none. The spinlock of a heap makes its calls atomic: a call is one step. *)
From S2P Require Import Prelude Align.
Open Scope Z_scope.

(** ** Data *)

Definition NULL : Z := 0.
Definition RTE_CACHE_LINE_SIZE : Z := 64.
Definition RTE_HEAP_NUM_FREELISTS : Z := 13.
Definition RTE_MAX_NUMA_NODES : Z := 8.
Definition RTE_MAX_MEMSEG : Z := 256.
Definition SIZE_MAX : Z := 2 ^ 64 - 1.

(** [sizeof(struct malloc_elem)], a cache line; no trailer without [RTE_LIBRTE_MALLOC_DEBUG]. *)
Definition MALLOC_ELEM_HEADER_LEN : Z := 64.
Definition MALLOC_ELEM_TRAILER_LEN : Z := 0.
Definition MALLOC_ELEM_OVERHEAD : Z := MALLOC_ELEM_HEADER_LEN + MALLOC_ELEM_TRAILER_LEN.
Definition MIN_DATA_SIZE : Z := RTE_CACHE_LINE_SIZE.

Inductive elem_state := ELEM_FREE | ELEM_BUSY | ELEM_PAD.
#[export] Instance elem_state_eq_dec : EqDecision elem_state.
Proof. solve_decision. Defined.

(** [heap] and [ms] are the positions in [mcfg->malloc_heaps] and [mcfg->memseg]. *)
Record malloc_elem := Elem { heap : nat; prev : Z; ms : nat; state : elem_state; pad : Z; size : Z }.
#[export] Instance malloc_elem_upd : Updatable malloc_elem := λ e, Elem (heap e) (prev e) (ms e) (state e) (pad e) (size e).
#[export] Instance malloc_elem_eq_dec : EqDecision malloc_elem.
Proof. solve_decision. Defined.

Record malloc_heap := Heap { free_head : list (list Z); alloc_count : Z; total_size : Z }.
#[export] Instance malloc_heap_upd : Updatable malloc_heap := λ h, Heap (free_head h) (alloc_count h) (total_size h).

Record rte_memseg := Memseg { phys_addr : Z; addr : Z; len : Z; hugepage_sz : Z; socket_id : Z; ioremap_addr : Z }.

(** The part of the shared configuration that the allocator keeps, with the headers in memory. *)
Record mem := Mem { elems : gmap Z malloc_elem; malloc_heaps : list malloc_heap }.
#[export] Instance mem_upd : Updatable mem := λ m, Mem (elems m) (malloc_heaps m).

Definition zero_elem : malloc_elem := Elem 0 NULL 0 ELEM_FREE 0 0.
Definition set_elem (a : Z) (e : malloc_elem) (m : mem) : mem := m <| elems := <[a := e]> (elems m) |>.
Definition upd_elem (a : Z) (f : malloc_elem → malloc_elem) (m : mem) : option mem :=
  e ← elems m !! a; Some (set_elem a (f e) m).
Definition upd_heap (h : nat) (f : malloc_heap → malloc_heap) (m : mem) : option mem :=
  x ← malloc_heaps m !! h; Some (m <| malloc_heaps := <[h := f x]> (malloc_heaps m) |>).

(** [RTE_CACHE_LINE_ROUNDUP] on a [size_t]. *)
Definition RTE_CACHE_LINE_ROUNDUP (x : Z) : Z := u64 (RTE_CACHE_LINE_SIZE * (u64 (x + RTE_CACHE_LINE_SIZE - 1) / RTE_CACHE_LINE_SIZE)).
(** [RTE_ALIGN_FLOOR] of an [uintptr_t] to an [unsigned] alignment: [align - 1] is computed on 32 bits. *)
Definition align_floor (val align : Z) : Z := RTE_ALIGN_FLOOR u64 val (u32 (align - 1) + 1).

(** ** Elements: [malloc_elem.c] *)

Definition malloc_elem_init (elem : Z) (hp ms : nat) (size : Z) (m : mem) : mem :=
  set_elem elem (Elem hp NULL ms ELEM_FREE 0 size) m.

Definition malloc_elem_mkend (elem prev_free : Z) (m : mem) : option mem :=
  p ← elems m !! prev_free;
  let m := malloc_elem_init elem (heap p) (ms p) 0 m in
  upd_elem elem (λ e, e <| prev := prev_free |> <| state := ELEM_BUSY |>) m.

(** Where the header of a block of [size] bytes would start in element [e] at [elem]. *)
Definition elem_start_pt (elem : Z) (e : malloc_elem) (size_ align bound : Z) : Z :=
  let bmask := u64 (Z.lnot (u64 (bound - 1))) in
  let end_pt := u64 (elem + size e - MALLOC_ELEM_TRAILER_LEN) in
  let start new_data_start :=
    let new_elem_start := u64 (new_data_start - MALLOC_ELEM_HEADER_LEN) in
    if new_elem_start <? elem then NULL else new_elem_start in
  let new_data_start := align_floor (u64 (end_pt - size_)) align in
  if negb (Z.land new_data_start bmask =? Z.land (u64 (end_pt - 1)) bmask) then
    let end_pt := RTE_ALIGN_FLOOR u64 end_pt bound in
    let new_data_start := align_floor (u64 (end_pt - size_)) align in
    if negb (Z.land (u64 (end_pt - 1)) bmask =? Z.land new_data_start bmask) then NULL
    else start new_data_start
  else start new_data_start.

Definition malloc_elem_can_hold (elem : Z) (e : malloc_elem) (size align bound : Z) : bool :=
  negb (elem_start_pt elem e size align bound =? NULL).

Definition split_elem (elem split_pt : Z) (m : mem) : option mem :=
  e ← elems m !! elem;
  let next_elem := u64 (elem + size e) in
  let old_elem_size := u64 (split_pt - elem) in
  let new_elem_size := u64 (size e - old_elem_size) in
  let m := malloc_elem_init split_pt (heap e) (ms e) new_elem_size m in
  m ← upd_elem split_pt (λ e, e <| prev := elem |>) m;
  m ← upd_elem next_elem (λ e, e <| prev := split_pt |>) m;
  upd_elem elem (λ e, e <| size := old_elem_size |>) m.

Definition MALLOC_MINSIZE_LOG2 : Z := 8.
Definition MALLOC_LOG2_INCREMENT : Z := 2.
(** [__builtin_clzl] of a number that is not 0. *)
Definition clzl (x : Z) : Z := 63 - Z.log2 x.

Definition malloc_elem_free_list_index (size : Z) : Z :=
  if size <=? Z.shiftl 1 MALLOC_MINSIZE_LOG2 then 0 else
  let log2 := u64 (8 * 8 - clzl (size - 1)) in
  let index := u64 (log2 - MALLOC_MINSIZE_LOG2 + MALLOC_LOG2_INCREMENT - 1) / MALLOC_LOG2_INCREMENT in
  if index <=? RTE_HEAP_NUM_FREELISTS - 1 then index else RTE_HEAP_NUM_FREELISTS - 1.

Definition malloc_elem_free_list_insert (elem : Z) (m : mem) : option mem :=
  e ← elems m !! elem;
  let idx := malloc_elem_free_list_index (u64 (size e - MALLOC_ELEM_HEADER_LEN)) in
  m ← upd_elem elem (λ e, e <| state := ELEM_FREE |>) m;
  h ← malloc_heaps m !! heap e;
  l ← load (free_head h) idx;
  fl ← store (free_head h) idx (elem :: l);
  upd_heap (heap e) (λ h, h <| free_head := fl |>) m.

(** [LIST_REMOVE]: an element is only ever linked in a list of its own heap. *)
Definition elem_free_list_remove (elem : Z) (m : mem) : option mem :=
  e ← elems m !! elem;
  h ← malloc_heaps m !! heap e;
  if decide (Exists (λ l, elem ∈ l) (free_head h))
  then upd_heap (heap e) (λ h, h <| free_head := filter (λ x, x ≠ elem) <$> free_head h |>) m
  else None.

(** The padding header is written into memory that holds any data, or none yet. *)
Definition write_pad (new_elem pad_ size_ : Z) (m : mem) : mem :=
  set_elem new_elem ((default zero_elem (elems m !! new_elem)) <| pad := pad_ |> <| state := ELEM_PAD |> <| size := size_ |>) m.

Definition malloc_elem_alloc (elem size_ align bound : Z) (m : mem) : option (mem * Z) :=
  e ← elems m !! elem;
  let new_elem := elem_start_pt elem e size_ align bound in
  let old_elem_size := u64 (new_elem - elem) in
  let trailer_size := u64 (size e - old_elem_size - size_ - MALLOC_ELEM_OVERHEAD) in
  m ← elem_free_list_remove elem m;
  m ← (if trailer_size >? MALLOC_ELEM_OVERHEAD + MIN_DATA_SIZE then
         let new_free_elem := u64 (new_elem + u64 (size_ + MALLOC_ELEM_OVERHEAD)) in
         m ← split_elem elem new_free_elem m;
         malloc_elem_free_list_insert new_free_elem m
       else Some m);
  if old_elem_size <? MALLOC_ELEM_OVERHEAD + MIN_DATA_SIZE then
    m ← upd_elem elem (λ e, e <| state := ELEM_BUSY |> <| pad := u32 old_elem_size |>) m;
    e ← elems m !! elem;
    Some (if pad e >? 0 then write_pad new_elem (pad e) (u64 (size e - pad e)) m else m, new_elem)
  else
    m ← split_elem elem new_elem m;
    m ← upd_elem new_elem (λ e, e <| state := ELEM_BUSY |>) m;
    m ← malloc_elem_free_list_insert elem m;
    Some (m, new_elem).

Definition join_elem (elem1 elem2 : Z) (m : mem) : option mem :=
  e2 ← elems m !! elem2;
  let next := u64 (elem2 + size e2) in
  m ← upd_elem elem1 (λ e, e <| size := u64 (size e + size e2) |>) m;
  upd_elem next (λ e, e <| prev := elem1 |>) m.

(** The value returned, 0 or -1, with the memory. [elem->heap->alloc_count--] wraps at 0. *)
Definition malloc_elem_free (elem : Z) (m : mem) : option (mem * Z) :=
  if elem =? NULL then Some (m, -1) else
  e ← elems m !! elem;
  if negb (bool_decide (state e = ELEM_BUSY)) then Some (m, -1) else
  let next := u64 (elem + size e) in
  n ← elems m !! next;
  m ← (if bool_decide (state n = ELEM_FREE) then
         m ← elem_free_list_remove next m; join_elem elem next m
       else Some m);
  p ← (if prev e =? NULL then Some None else p ← elems m !! prev e; Some (Some p));
  m ← (if bool_decide (state <$> p = Some ELEM_FREE) then
         m ← elem_free_list_remove (prev e) m;
         m ← join_elem (prev e) elem m;
         malloc_elem_free_list_insert (prev e) m
       else
         m ← malloc_elem_free_list_insert elem m;
         upd_elem elem (λ e, e <| pad := 0 |>) m);
  m ← upd_heap (heap e) (λ h, h <| alloc_count := u32 (alloc_count h - 1) |>) m;
  Some (m, 0).

Definition malloc_elem_resize (elem size_ : Z) (m : mem) : option (mem * Z) :=
  e ← elems m !! elem;
  let new_size := u64 (size_ + MALLOC_ELEM_OVERHEAD) in
  let current_size := u64 (size e - pad e) in
  if new_size <=? current_size then Some (m, 0) else
  let next := u64 (elem + size e) in
  n ← elems m !! next;
  if negb (bool_decide (state n = ELEM_FREE)) then Some (m, -1) else
  if u64 (current_size + size n) <? new_size then Some (m, -1) else
  m ← elem_free_list_remove next m;
  m ← join_elem elem next m;
  e ← elems m !! elem;
  m ← (if u64 (size e - new_size) >=? MIN_DATA_SIZE + MALLOC_ELEM_OVERHEAD then
         let split_pt := RTE_ALIGN_CEIL u64 (u64 (elem + new_size)) RTE_CACHE_LINE_SIZE in
         m ← split_elem elem split_pt m;
         malloc_elem_free_list_insert split_pt m
       else Some m);
  Some (m, 0).

(** [malloc_elem.h]: the header of the block whose data starts at [data]. *)
Definition malloc_elem_from_data (data : Z) (m : mem) : option Z :=
  if data =? NULL then Some NULL else
  let elem := u64 (data - MALLOC_ELEM_HEADER_LEN) in
  if elem =? NULL then Some NULL else
  e ← elems m !! elem;
  Some (if bool_decide (state e = ELEM_PAD) then u64 (elem - pad e) else elem).

(** ** Heaps: [malloc_heap.c] *)

Definition RTE_MEMZONE_2MB : Z := 0x1.
Definition RTE_MEMZONE_1GB : Z := 0x2.
Definition RTE_MEMZONE_SIZE_HINT_ONLY : Z := 0x4.
Definition RTE_MEMZONE_16MB : Z := 0x100.
Definition RTE_MEMZONE_16GB : Z := 0x200.
Definition RTE_MEMZONE_256KB : Z := 0x10000.
Definition RTE_MEMZONE_256MB : Z := 0x20000.
Definition RTE_MEMZONE_512MB : Z := 0x40000.
Definition RTE_MEMZONE_4GB : Z := 0x80000.

Definition check_hugepage_sz (flags hugepage_sz : Z) : Z :=
  if Z.land flags (u32 (Z.lnot RTE_MEMZONE_SIZE_HINT_ONLY)) =? 0 then 1 else
  let check_flag :=
    if hugepage_sz =? 2 ^ 18 then RTE_MEMZONE_256KB else
    if hugepage_sz =? 2 ^ 21 then RTE_MEMZONE_2MB else
    if hugepage_sz =? 2 ^ 24 then RTE_MEMZONE_16MB else
    if hugepage_sz =? 2 ^ 28 then RTE_MEMZONE_256MB else
    if hugepage_sz =? 2 ^ 29 then RTE_MEMZONE_512MB else
    if hugepage_sz =? 2 ^ 30 then RTE_MEMZONE_1GB else
    if hugepage_sz =? 2 ^ 32 then RTE_MEMZONE_4GB else
    if hugepage_sz =? 2 ^ 34 then RTE_MEMZONE_16GB else 0 in
  Z.land check_flag flags.

Section heap.
(** [mcfg->memseg]. *)
Context (memseg : list rte_memseg).

Definition malloc_heap_add_memseg (hp i : nat) (s : rte_memseg) (m : mem) : option mem :=
  let start_elem := addr s in
  let end_elem := RTE_ALIGN_FLOOR u64 (u64 (addr s + u64 (len s - MALLOC_ELEM_OVERHEAD))) RTE_CACHE_LINE_SIZE in
  let elem_size := u64 (end_elem - start_elem) in
  let m := malloc_elem_init start_elem hp i elem_size m in
  m ← malloc_elem_mkend end_elem start_elem m;
  m ← malloc_elem_free_list_insert start_elem m;
  upd_heap hp (λ h, h <| total_size := u64 (total_size h + elem_size) |>) m.

(** One free list: the element that suits, or else the first that is large enough ([alt_elem]). *)
Fixpoint scan_list (m : mem) (size flags align bound : Z) (l : list Z) (alt_elem : Z) : option (Z * Z) :=
  match l with
  | [] => Some (NULL, alt_elem)
  | elem :: l =>
      e ← elems m !! elem;
      if malloc_elem_can_hold elem e size align bound then
        s ← memseg !! ms e;
        if negb (check_hugepage_sz flags (hugepage_sz s) =? 0) then Some (elem, alt_elem)
        else scan_list m size flags align bound l (if alt_elem =? NULL then elem else alt_elem)
      else scan_list m size flags align bound l alt_elem
  end.

Fixpoint scan_lists (m : mem) (size flags align bound : Z) (ls : list (list Z)) (alt_elem : Z) : option (Z * Z) :=
  match ls with
  | [] => Some (NULL, alt_elem)
  | l :: ls =>
      '(elem, alt_elem) ← scan_list m size flags align bound l alt_elem;
      if elem =? NULL then scan_lists m size flags align bound ls alt_elem else Some (elem, alt_elem)
  end.

(** The [size_t align] of the caller is handed on as an [unsigned]. *)
Definition find_suitable_element (h : malloc_heap) (m : mem) (size flags align bound : Z) : option Z :=
  let idx := malloc_elem_free_list_index size in
  '(elem, alt_elem) ← scan_lists m size flags (u32 align) bound (drop (Z.to_nat idx) (free_head h)) NULL;
  Some (if negb (elem =? NULL) then elem else
        if negb (alt_elem =? NULL) && negb (Z.land flags RTE_MEMZONE_SIZE_HINT_ONLY =? 0) then alt_elem else NULL).

(** The pointer returned, [NULL] when there is no room, with the memory. *)
Definition malloc_heap_alloc (hp : nat) (size flags align bound : Z) (m : mem) : option (mem * Z) :=
  let size := RTE_CACHE_LINE_ROUNDUP size in
  let align := RTE_CACHE_LINE_ROUNDUP align in
  h ← malloc_heaps m !! hp;
  elem ← find_suitable_element h m size flags align bound;
  if elem =? NULL then Some (m, NULL) else
  '(m, new_elem) ← malloc_elem_alloc elem size (u32 align) bound m;
  m ← upd_heap hp (λ h, h <| alloc_count := u32 (alloc_count h + 1) |>) m;
  Some (m, if new_elem =? NULL then NULL else u64 (new_elem + MALLOC_ELEM_HEADER_LEN)).

Record rte_malloc_socket_stats := Stats {
  heap_totalsz_bytes : Z; heap_freesz_bytes : Z; greatest_free_size : Z;
  free_count : Z; stat_alloc_count : Z; heap_allocsz_bytes : Z }.

(** The three running values of the loop over the free lists: count, bytes, greatest. *)
Fixpoint stat_list (m : mem) (l : list Z) (acc : Z * Z * Z) : option (Z * Z * Z) :=
  match l with
  | [] => Some acc
  | elem :: l =>
      e ← elems m !! elem;
      let '(free_count, bytes, greatest) := acc in
      stat_list m l (u32 (free_count + 1), u64 (bytes + size e), if size e >? greatest then size e else greatest)
  end.

Definition malloc_heap_get_stats (hp : nat) (m : mem) : option rte_malloc_socket_stats :=
  h ← malloc_heaps m !! hp;
  '(free_count, bytes, greatest) ← stat_list m (concat (free_head h)) (0, 0, 0);
  Some (Stats (total_size h) bytes greatest free_count (alloc_count h) (u64 (total_size h - bytes))).

(** The loop over [mcfg->memseg]: it ends at the first empty segment. *)
Fixpoint add_memsegs (segs : list rte_memseg) (i : nat) (m : mem) : option mem :=
  match segs with
  | [] => Some m
  | s :: segs =>
      if negb (len s >? 0) then Some m else
      if negb (ioremap_addr s =? 0) then add_memsegs segs (S i) m else
      _ ← load (malloc_heaps m) (socket_id s);
      m ← malloc_heap_add_memseg (Z.to_nat (socket_id s)) i s m;
      add_memsegs segs (S i) m
  end.

Definition rte_eal_malloc_heap_init (m : mem) : option mem := add_memsegs (take (Z.to_nat RTE_MAX_MEMSEG) memseg) 0 m.
End heap.

(** [mcfg] before the EAL is initialised: zeros. *)
Definition zero_heap : malloc_heap := Heap (replicate (Z.to_nat RTE_HEAP_NUM_FREELISTS) []) 0 0.
Definition no_mem : mem := Mem ∅ (replicate (Z.to_nat RTE_MAX_NUMA_NODES) zero_heap).
