(* ===== verification/MallocFit.v ===== *)
(** * Where a block fits

    [elem_start_pt] of [malloc_elem.c] finds the highest place of an element at
    which a block of a size, an alignment and a boundary fits, and the index of
    the free list is monotone in the size. *)
From S2P Require Import Prelude Align Malloc.
Open Scope Z_scope.

(** A block of [s] bytes at [d] fits in the [n] bytes from [a] on, its header in
    front of it: aligned to [al], and not across a multiple of [bd] unless that is 0. *)
Definition fits (a n s al bd d : Z) : Prop :=
  (al | d) ∧ a + MALLOC_ELEM_HEADER_LEN <= d ∧ d + s <= a + n ∧ (bd = 0 ∨ d / bd = (d + s - 1) / bd).

(** A request in range: the size and the alignment are whole cache lines, and
    the element is at an address above their sum, so that no subtraction wraps. *)
Record request (s al bd lim : Z) : Prop := {
  rq_size : 0 < s;
  rq_line : (64 | s);
  rq_align : ∃ k, 6 <= k <= 31 ∧ al = 2 ^ k;
  rq_bound : bd = 0 ∨ ∃ j, 0 <= j <= 63 ∧ bd = 2 ^ j;
  rq_low : s + al + bd + 64 <= lim }.

Lemma align_floor_eq x k : 0 <= k <= 31 → is_u64 x → align_floor x (2 ^ k) = x / 2 ^ k * 2 ^ k.
Proof.
  intros Hk Hx. pose proof (Z.pow_pos_nonneg 2 k ltac:(lia) ltac:(lia)). pose proof (Z.pow_le_mono_r 2 k 31 ltac:(lia) ltac:(lia)).
  unfold align_floor. rewrite u32_small by (unfold is_u32; lia). rewrite Z.sub_add. apply (align_floor_spec 64); [lia|done].
Qed.
Lemma floor_bounds x al : 0 < al → (al | x / al * al) ∧ x - al < x / al * al <= x.
Proof.
  intros Hal. split; [apply Z.divide_factor_r|]. pose proof (Z.div_mod x al ltac:(lia)). pose proof (Z.mod_pos_bound x al Hal). lia.
Qed.
Lemma floor_greatest x al d : 0 < al → (al | d) → d <= x → d <= x / al * al.
Proof.
  intros Hal [q ->] Hle. apply Z.mul_le_mono_nonneg_r; [lia|]. apply Z.div_le_lower_bound; lia.
Qed.
Lemma bmask_eq x bd : is_u64 x → (bd = 0 ∨ ∃ j, 0 <= j <= 63 ∧ bd = 2 ^ j) →
  Z.land x (u64 (Z.lnot (u64 (bd - 1)))) = if decide (bd = 0) then 0 else x / bd * bd.
Proof.
  intros Hx [->|(j & Hj & ->)]; [by rewrite decide_True, Z.land_0_r by done|].
  pose proof (Z.pow_pos_nonneg 2 j ltac:(lia) ltac:(lia)). rewrite decide_False by lia. apply (align_floor_spec 64); [lia|done].
Qed.
Lemma bfloor_eq x bd : is_u64 x → (∃ j, 0 <= j <= 63 ∧ bd = 2 ^ j) → RTE_ALIGN_FLOOR u64 x bd = x / bd * bd.
Proof. intros Hx (j & Hj & ->). apply (align_floor_spec 64); [lia|done]. Qed.

(** The result in terms of division. *)
Definition start_of (a end_pt s al : Z) : Z :=
  let d := (end_pt - s) / al * al in if d - 64 <? a then NULL else d - 64.
Definition start_spec (a n s al bd : Z) : Z :=
  let end_pt := a + n in
  let d := (end_pt - s) / al * al in
  if decide (bd = 0 ∨ d / bd = (end_pt - 1) / bd) then start_of a end_pt s al else
  let end_pt := end_pt / bd * bd in
  let d := (end_pt - s) / al * al in
  if decide (d / bd = (end_pt - 1) / bd) then start_of a end_pt s al else NULL.

Lemma start_pt_eq a e s al bd : request s al bd a → 64 <= size e → a + size e < 2 ^ 64 →
  elem_start_pt a e s al bd = start_spec a (size e) s al bd.
Proof.
  intros [Hs _ (k & Hk & ->) Hb Hlow] Hn Hmax. pose proof (Z.pow_pos_nonneg 2 k ltac:(lia) ltac:(lia)).
  assert (0 <= bd) by (destruct Hb as [->|(j & ? & ->)]; [done|apply Z.pow_nonneg; lia]).
  assert (Hfl : ∀ end_pt, a - bd <= end_pt → end_pt < 2 ^ 64 →
    u64 (end_pt - s) = end_pt - s ∧ align_floor (end_pt - s) (2 ^ k) = (end_pt - s) / 2 ^ k * 2 ^ k ∧ is_u64 ((end_pt - s) / 2 ^ k * 2 ^ k) ∧
    u64 ((end_pt - s) / 2 ^ k * 2 ^ k - 64) = (end_pt - s) / 2 ^ k * 2 ^ k - 64 ∧ u64 (end_pt - 1) = end_pt - 1).
  { intros end_pt ? ?. destruct (floor_bounds (end_pt - s) (2 ^ k)) as [_ ?]; [done|]. rewrite !u64_small, align_floor_eq by (unfold is_u64; lia). done || (split_and!; unfold is_u64; lia). }
  unfold elem_start_pt, start_spec, start_of, MALLOC_ELEM_TRAILER_LEN, MALLOC_ELEM_HEADER_LEN. rewrite Z.sub_0_r, (u64_small (a + size e)) by (unfold is_u64; lia).
  destruct (Hfl (a + size e)) as (-> & -> & Hd1 & -> & ->); [lia|lia|]. rewrite !bmask_eq by (done || unfold is_u64; lia).
  destruct (decide (bd = 0)) as [->|Hbd]; [by rewrite decide_True by tauto|]. destruct Hb as [|Hb]; [done|]. rewrite bfloor_eq by (done || unfold is_u64; lia).
  destruct (floor_bounds (a + size e) bd) as [_ Hfb]; [lia|]. destruct (Hfl ((a + size e) / bd * bd)) as (-> & -> & Hd2 & -> & ->); [lia|lia|].
  rewrite !bmask_eq by (eauto || unfold is_u64; lia). rewrite !decide_False by done.
  assert (∀ x y, (x * bd =? y * bd) = bool_decide (x = y)) as Heq.
  { intros x y. destruct (Z.eqb_spec (x * bd) (y * bd)) as [He|He]; symmetry; [apply bool_decide_true, (Z.mul_reg_r _ _ bd); lia|apply bool_decide_false; congruence]. }
  rewrite !Heq. repeat case_bool_decide; repeat case_decide; simpl; try done; tauto.
Qed.

Lemma start_of_fits a n end_pt s al : 0 < al → 64 <= a → end_pt <= a + n → start_of a end_pt s al ≠ NULL →
  ∃ d, d = (end_pt - s) / al * al ∧ start_of a end_pt s al = d - 64 ∧ (al | d) ∧ a + 64 <= d ∧ d + s <= end_pt.
Proof.
  intros Hal Ha He. unfold start_of. destruct (floor_bounds (end_pt - s) al Hal) as [Hd Hb]. destruct (Z.ltb_spec ((end_pt - s) / al * al - 64) a); [done|].
  intros _. eexists. split_and!; [done|done|done|lia|lia].
Qed.

(** A pointer that is returned is a place that fits. *)
Lemma start_spec_fits a n s al bd : request s al bd a → start_spec a n s al bd ≠ NULL →
  ∃ d, start_spec a n s al bd = d - MALLOC_ELEM_HEADER_LEN ∧ fits a n s al bd d.
Proof.
  intros [Hs _ (k & Hk & Hal) Hb Hlow]. pose proof (Z.pow_pos_nonneg 2 k ltac:(lia) ltac:(lia)). rewrite <- Hal in *.
  assert (0 <= bd) by (destruct Hb as [->|(j & ? & ->)]; [done|apply Z.pow_nonneg; lia]). unfold start_spec, fits, MALLOC_ELEM_HEADER_LEN.
  assert (Hnc : ∀ d end_pt, bd ≠ 0 → d + s <= end_pt → d / bd = (end_pt - 1) / bd → d / bd = (d + s - 1) / bd).
  { intros d end_pt ? ? Heq. pose proof (Z.div_le_mono d (d + s - 1) bd). pose proof (Z.div_le_mono (d + s - 1) (end_pt - 1) bd). lia. }
  case_decide as Hc1; [|case_decide as Hc2; [|done]]; intros HN.
  - destruct (start_of_fits a n (a + n) s al) as (d & Hd & -> & ? & ? & ?); [lia|lia|lia|done|]. exists d. split_and!; try done.
    destruct (decide (bd = 0)); [by left|right]. apply (Hnc _ (a + n)); [done|lia|]. destruct Hc1; [done|]. by rewrite Hd.
  - destruct (floor_bounds (a + n) bd) as [_ Hfb]; [lia|]. destruct (start_of_fits a n ((a + n) / bd * bd) s al) as (d & Hd & -> & ? & ? & ?); [lia|lia|lia|done|].
    exists d. split_and!; try done; [lia|]. right. apply (Hnc _ ((a + n) / bd * bd)); [lia|lia|]. by rewrite Hd.
Qed.

(** The numbers of a block of [bd] bytes. *)
Lemma block_div B bd x : 0 < bd → (bd | B) → B <= x < B + bd → x / bd = B / bd.
Proof.
  intros Hbd [q ->] Hx. rewrite Z.div_mul by lia. symmetry. apply (Z.div_unique_pos _ _ _ (x - q * bd)); lia.
Qed.
Lemma pow2_divide k j : 0 <= k → 0 <= j → 2 ^ k <= 2 ^ j → (2 ^ k | 2 ^ j).
Proof.
  intros Hk Hj Hle. apply (Z.pow_le_mono_r_iff 2) in Hle; [|lia|lia]. exists (2 ^ (j - k)). rewrite <- Z.pow_add_r by lia. f_equal. lia.
Qed.
(** A range that starts below [B] and does not cross a boundary ends below it. *)
Lemma no_cross d s bd B : 0 < bd → (bd | B) → 0 < s → d < B → d / bd = (d + s - 1) / bd → d + s <= B.
Proof.
  intros Hbd [q ->] Hs Hlt Heq. destruct (floor_bounds (d + s - 1) bd Hbd) as [_ ?]. assert (d / bd < q) by (apply Z.div_lt_upper_bound; lia).
  rewrite <- Heq in *. nia.
Qed.

(** [NULL] means that no place fits, when a boundary is at least the size and the alignment. *)
Lemma start_spec_complete a n s al bd d : request s al bd a → bd = 0 ∨ (al <= bd ∧ s <= bd) → fits a n s al bd d → start_spec a n s al bd ≠ NULL.
Proof.
  intros [Hs _ (k & Hk & Hal) Hb Hlow] Hbd (Hdal & Hlo & Hhi & Hcr). pose proof (Z.pow_pos_nonneg 2 k ltac:(lia) ltac:(lia)) as Hal0. rewrite <- Hal in Hal0.
  unfold MALLOC_ELEM_HEADER_LEN in Hlo. unfold start_spec, start_of, NULL. assert (0 <= bd) by (destruct Hb as [->|(j & ? & ->)]; [done|apply Z.pow_nonneg; lia]).
  pose proof (floor_greatest (a + n - s) al d Hal0 Hdal ltac:(lia)) as Hd1. case_decide as Hc1; [tests; lia|].
  destruct Hcr as [->|Hcr]; [tauto|]. destruct Hbd as [|[Habd Hsbd]]; [tauto|]. assert (Hbd0 : 0 < bd) by lia. assert (0 < a) by lia. clear Hlow.
  assert (Hdiv : (al | bd)) by (destruct Hb as [->|(j & Hj & ->)]; [done|]; rewrite Hal in *; apply pow2_divide; lia).
  destruct (floor_bounds (a + n) bd Hbd0) as [HBd HB]. destruct (floor_bounds (a + n - s) al Hal0) as [_ Hb1].
  set (d1 := (a + n - s) / al * al) in *. set (B := (a + n) / bd * bd) in *.
  assert (HdB : d < B).
  { destruct (decide (d < B)) as [|Hge]; [done|]. exfalso. apply Hc1. right. pose proof (floor_greatest (a + n - s) al B Hal0 ltac:(by transitivity bd) ltac:(lia)).
    transitivity (B / bd); [|symmetry]; apply block_div; done || lia. }
  apply (no_cross d s bd B) in HdB; [|done..]. pose proof (floor_greatest (B - s) al d Hal0 Hdal ltac:(lia)) as Hd2.
  case_decide as Hc2; [tests; lia|]. exfalso. apply Hc2. assert (HBb : (bd | B - bd)) by (apply Z.divide_sub_r; [done|reflexivity]).
  pose proof (floor_greatest (B - s) al (B - bd) Hal0 ltac:(by transitivity bd) ltac:(lia)). destruct (floor_bounds (B - s) al Hal0) as [_ ?].
  transitivity ((B - bd) / bd); [|symmetry]; apply block_div; done || lia.
Qed.

(** ** The index of the free list *)

Lemma free_list_index_range s : 0 <= malloc_elem_free_list_index s < 13.
Proof.
  unfold malloc_elem_free_list_index, RTE_HEAP_NUM_FREELISTS. tests; try lia.
  match goal with |- context [?x / _] => pose proof (Z.div_pos x MALLOC_LOG2_INCREMENT) as Hd end.
  destruct (u64_range (u64 (8 * 8 - clzl (s - 1)) - MALLOC_MINSIZE_LOG2 + MALLOC_LOG2_INCREMENT - 1)).
  unfold MALLOC_LOG2_INCREMENT in *. lia.
Qed.
Lemma free_list_index_eq s : 2 ^ 8 < s < 2 ^ 64 → malloc_elem_free_list_index s = Z.min ((Z.log2 (s - 1) - 6) / 2) 12.
Proof.
  intros Hs. unfold malloc_elem_free_list_index, clzl, RTE_HEAP_NUM_FREELISTS, MALLOC_LOG2_INCREMENT, MALLOC_MINSIZE_LOG2.
  destruct (Z.leb_spec s (Z.shiftl 1 8)); [change (Z.shiftl 1 8) with (2 ^ 8) in *; lia|].
  assert (8 <= Z.log2 (s - 1)) by (apply Z.log2_le_pow2; lia). assert (Z.log2 (s - 1) < 64) by (apply Z.log2_lt_pow2; lia).
  rewrite (u64_small (8 * 8 - _)) by (unfold is_u64; lia). rewrite u64_small by (unfold is_u64; lia).
  replace (8 * 8 - (63 - Z.log2 (s - 1)) - 8 + 2 - 1) with (Z.log2 (s - 1) - 6) by lia. tests; lia.
Qed.
(** List [i] and the ones before it hold the sizes up to [2^(8+2i)]. *)
Lemma free_list_index_le s i : 0 <= s < 2 ^ 64 → 0 <= i < 12 → malloc_elem_free_list_index s <= i ↔ s <= 2 ^ (8 + 2 * i).
Proof.
  intros Hs Hi. pose proof (Z.pow_le_mono_r 2 8 (8 + 2 * i) ltac:(lia) ltac:(lia)). destruct (decide (s <= 2 ^ 8)) as [Hle|Hgt].
  { unfold malloc_elem_free_list_index. destruct (Z.leb_spec s (Z.shiftl 1 MALLOC_MINSIZE_LOG2)) as [|Hlt]; [lia|]. change (Z.shiftl 1 _) with (2 ^ 8) in Hlt. lia. }
  rewrite free_list_index_eq by lia. transitivity (Z.log2 (s - 1) < 8 + 2 * i).
  - pose proof (Z.div_mod (Z.log2 (s - 1) - 6) 2). pose proof (Z.mod_pos_bound (Z.log2 (s - 1) - 6) 2). lia.
  - rewrite <- Z.log2_lt_pow2 by lia. lia.
Qed.
Lemma free_list_index_mono s s' : 0 <= s <= s' → s' < 2 ^ 64 → malloc_elem_free_list_index s <= malloc_elem_free_list_index s'.
Proof.
  intros Hs Hs'. destruct (decide (malloc_elem_free_list_index s' < 12)) as [Hlt|Hge].
  - pose proof (free_list_index_range s'). apply free_list_index_le; [lia|lia|]. transitivity s'; [lia|]. by apply free_list_index_le; [lia|lia|].
  - pose proof (free_list_index_range s). lia.
Qed.
