(* ===== verification/MallocInv.v ===== *)
(** * The structure of the heaps

    What the headers of a heap ([Malloc.v]) describe: each segment is a list of
    blocks that tile it, linked to each other by their sizes and [prev]
    pointers, and the free lists hold exactly the blocks that are linked.
    [inv0] says so of a memory and a list of segments. The primitive steps of
    [malloc_elem.c] (split, join, remove, insert, mark) are local rewrites of
    that list: each has one lemma, on a context [ctx] around the blocks it
    changes, from which the operations follow in [MallocCorrect.v]. *)
From S2P Require Import Prelude Align Malloc MallocFit.
Open Scope Z_scope.

(** ** Blocks and segments *)

Record blk := Blk { b_state : elem_state; b_pad : Z; b_size : Z; b_linked : bool }.

Definition geom (b : blk) : Prop := (64 | b_size b) ∧ (64 | b_pad b) ∧ 0 <= b_pad b ∧ b_pad b + 64 <= b_size b.

(** The header of block [b] at [a]; a busy block with padding has a second header in front of its data. *)
Definition header (E : gmap Z malloc_elem) (h i : nat) (p a : Z) (b : blk) : Prop :=
  E !! a = Some (Elem h p i (b_state b) (b_pad b) (b_size b)) ∧
  (b_state b = ELEM_BUSY → 0 < b_pad b → ∃ e, E !! (a + b_pad b) = Some e ∧ state e = ELEM_PAD ∧ pad e = b_pad b).

Fixpoint sz (bs : list blk) : Z := match bs with [] => 0 | b :: bs => b_size b + sz bs end.
(** The address of the last of the blocks from [a] on, [p] if there is none. *)
Fixpoint lastp (p a : Z) (bs : list blk) : Z := match bs with [] => p | b :: bs => lastp a (a + b_size b) bs end.
Fixpoint lseg (E : gmap Z malloc_elem) (h i : nat) (p a : Z) (bs : list blk) : Prop :=
  match bs with
  | [] => True
  | b :: bs => geom b ∧ header E h i p a b ∧ lseg E h i a (a + b_size b) bs
  end.
(** The blocks up to the end marker. *)
Definition chain (E : gmap Z malloc_elem) (h i : nat) (p a : Z) (bs : list blk) : Prop :=
  lseg E h i p a bs ∧ E !! (a + sz bs) = Some (Elem h (lastp p a bs) i ELEM_BUSY 0 0).
(** The linked blocks, with their addresses and sizes. *)
Fixpoint linked_of (a : Z) (bs : list blk) : list (Z * Z) :=
  match bs with
  | [] => []
  | b :: bs => (if b_linked b then [(a, b_size b)] else []) ++ linked_of (a + b_size b) bs
  end.

Record seg := Seg { s_heap : nat; s_ms : nat; s_base : Z; s_blks : list blk }.
Definition s_end (s : seg) : Z := s_base s + sz (s_blks s).
Record seg_ok (E : gmap Z malloc_elem) (s : seg) : Prop := {
  so_chain : chain E (s_heap s) (s_ms s) NULL (s_base s) (s_blks s);
  so_base : 0 < s_base s;
  so_align : (64 | s_base s);
  so_end : s_end s + 64 <= 2 ^ 64 }.

(** Segments with their end markers do not overlap. *)
Definition spans (segs : list seg) : list (Z * Z) := (λ s, (s_base s, s_end s)) <$> segs.
Fixpoint apart (ps : list (Z * Z)) : Prop :=
  match ps with
  | [] => True
  | p :: ps => Forall (λ q, p.2 + 64 <= q.1 ∨ q.2 + 64 <= p.1) ps ∧ apart ps
  end.

Definition linked (h : nat) (segs : list seg) : list (Z * Z) :=
  segs ≫= λ s, if decide (s_heap s = h) then linked_of (s_base s) (s_blks s) else [].
Definition idx_of (s : Z) : nat := Z.to_nat (malloc_elem_free_list_index (u64 (s - MALLOC_ELEM_HEADER_LEN))).
Definition lists_ok (fl : list (list Z)) (F : list (Z * Z)) : Prop :=
  length fl = 13%nat ∧ ∀ i l, fl !! i = Some l → l ≡ₚ (filter (λ p, idx_of p.2 = i) F).*1.

Record inv0 (m : mem) (segs : list seg) : Prop := {
  i_segs : Forall (seg_ok (elems m)) segs;
  i_apart : apart (spans segs);
  i_len : length (malloc_heaps m) = 8%nat;
  i_heap : Forall (λ s, (s_heap s < 8)%nat) segs;
  i_lists : ∀ h x, malloc_heaps m !! h = Some x → lists_ok (free_head x) (linked h segs) }.

(** ** Lists of blocks *)

Lemma sz_app l r : sz (l ++ r) = sz l + sz r.
Proof. induction l as [|b l IH]; simpl; lia. Qed.
Lemma lastp_app p a l r : lastp p a (l ++ r) = lastp (lastp p a l) (a + sz l) r.
Proof. revert p a. induction l as [|b l IH]; intros p a; simpl; [f_equal; lia|]. rewrite IH. f_equal. lia. Qed.
Lemma lseg_app E h i p a l r : lseg E h i p a (l ++ r) ↔ lseg E h i p a l ∧ lseg E h i (lastp p a l) (a + sz l) r.
Proof.
  revert p a. induction l as [|b l IH]; intros p a; simpl; [rewrite Z.add_0_r; tauto|].
  rewrite IH, Z.add_assoc. tauto.
Qed.
Lemma chain_app E h i p a l r : chain E h i p a (l ++ r) ↔ lseg E h i p a l ∧ chain E h i (lastp p a l) (a + sz l) r.
Proof. unfold chain. rewrite lseg_app, lastp_app, sz_app, Z.add_assoc. tauto. Qed.
Lemma linked_of_app a l r : linked_of a (l ++ r) = linked_of a l ++ linked_of (a + sz l) r.
Proof.
  revert a. induction l as [|b l IH]; intros a; simpl; [by rewrite Z.add_0_r|].
  rewrite IH, app_assoc, Z.add_assoc. done.
Qed.
Lemma lseg_sz E h i p a l : lseg E h i p a l → 0 <= sz l.
Proof. revert p a. induction l as [|b l IH]; simpl; [done|]. intros p a ([_ Hg] & _ & Hl). apply IH in Hl. lia. Qed.

(** A list of blocks only depends on the memory it covers. *)
Lemma header_frame E E' h i p a b : geom b → (∀ y, a <= y < a + b_size b → E' !! y = E !! y) → header E h i p a b → header E' h i p a b.
Proof.
  intros (_ & _ & ? & ?) Hf [H1 H2]. split; [rewrite Hf by lia; done|]. intros Hb Hp.
  destruct (H2 Hb Hp) as (e & He & ?). exists e. rewrite Hf by lia. done.
Qed.
Lemma lseg_frame E E' h i p a l : (∀ y, a <= y < a + sz l → E' !! y = E !! y) → lseg E h i p a l → lseg E' h i p a l.
Proof.
  revert p a. induction l as [|b l IH]; intros p a Hf; simpl in *; [done|]. intros (Hg & Hh & Hl).
  pose proof (lseg_sz _ _ _ _ _ _ Hl). destruct (id Hg) as (_ & _ & ? & ?).
  split_and!; [done|apply (header_frame E); [done|intros y ?; apply Hf; lia|done]|apply IH; [intros y ?; apply Hf; lia|done]].
Qed.

(** The first block or end marker of [r] gets a new [prev]. *)
Lemma chain_reprev E E' h i p p' a r : chain E h i p a r → E' !! a = (λ e, e <| prev := p' |>) <$> E !! a →
  (∀ y, a < y <= a + sz r → E' !! y = E !! y) → chain E' h i p' a r.
Proof.
  destruct r as [|b r]; unfold chain; simpl.
  { rewrite Z.add_0_r. intros [_ He] -> _. split; [done|]. by rewrite He. }
  intros [(Hg & [Hh Hpad] & Hl) He] Ha Hf. pose proof (lseg_sz _ _ _ _ _ _ Hl). destruct (id Hg) as (_ & _ & ? & ?).
  rewrite Hf by lia. split_and!; [done|split| |done].
  - by rewrite Ha, Hh.
  - intros Hb Hp. destruct (Hpad Hb Hp) as (e & ? & ?). exists e. rewrite Hf by lia. done.
  - apply (lseg_frame E); [intros y ?; apply Hf; lia|done].
Qed.

(** ** Free lists *)

#[export] Instance lists_ok_proper fl : Proper (Permutation ==> iff) (lists_ok fl).
Proof.
  assert (∀ F F', F ≡ₚ F' → lists_ok fl F → lists_ok fl F') as Hmono.
  { intros F F' HF [Hl H]. split; [done|]. intros i l Hi. rewrite (H i l Hi). by rewrite HF. }
  intros F F' HF. split; apply Hmono; [done|by symmetry].
Qed.

Lemma lists_insert fl F x s : lists_ok fl F → let idx := malloc_elem_free_list_index (u64 (s - MALLOC_ELEM_HEADER_LEN)) in
  ∃ l fl', load fl idx = Some l ∧ store fl idx (x :: l) = Some fl' ∧ lists_ok fl' ((x, s) :: F).
Proof.
  intros [Hlen H] idx. pose proof (free_list_index_range (u64 (s - MALLOC_ELEM_HEADER_LEN))) as Hr.
  destruct (load_in fl idx) as (l & Hl & Hi); [lia|]. exists l. eexists. split_and!; [done|by rewrite store_in by lia|].
  split; [by rewrite length_insert|]. intros i l' Hl'. destruct (decide (i = Z.to_nat idx)) as [->|Hne].
  - rewrite list_lookup_insert_eq in Hl' by lia. injection Hl' as <-.
    rewrite filter_cons_True by done. simpl. by rewrite (H _ _ Hi).
  - rewrite list_lookup_insert_ne in Hl' by done. rewrite filter_cons_False by (simpl; unfold idx_of; fold idx; congruence). by apply H.
Qed.

Lemma filter_Forall {A} (P : A → Prop) `{!∀ x, Decision (P x)} l : Forall P l → filter P l = l.
Proof. induction 1 as [|x l Hx _ IH]; [done|]. by rewrite filter_cons_True, IH. Qed.
Lemma filter_fst_ne (P : Z * Z → Prop) `{!∀ p, Decision (P p)} (F : list (Z * Z)) x : x ∉ F.*1 → filter (λ y, y ≠ x) (filter P F).*1 = (filter P F).*1.
Proof.
  intros Hx. apply filter_Forall. apply Forall_forall. intros y Hy ->. apply Hx.
  apply list_elem_of_fmap in Hy as (p & -> & Hp). apply list_elem_of_filter in Hp as [_ Hp]. apply list_elem_of_fmap. eauto.
Qed.

Lemma lists_remove fl F F' x s : lists_ok fl F → F ≡ₚ (x, s) :: F' → x ∉ F'.*1 →
  Exists (λ l, x ∈ l) fl ∧ lists_ok (filter (λ y, y ≠ x) <$> fl) F'.
Proof.
  intros Hok HF Hx. rewrite HF in Hok. destruct Hok as [Hlen H]. split.
  - destruct (lookup_lt_is_Some_2 fl (idx_of s)) as [l Hl].
    { unfold idx_of. pose proof (free_list_index_range (u64 (s - MALLOC_ELEM_HEADER_LEN))). lia. }
    apply Exists_exists. exists l. split; [by eapply list_elem_of_lookup_2|]. rewrite (H _ _ Hl), filter_cons_True by done. left.
  - split; [by rewrite length_fmap|]. intros i l' Hl'. apply list_lookup_fmap_Some in Hl' as (l & Hl' & Hl).
    rewrite Hl', (H _ _ Hl). destruct (decide (idx_of s = i)).
    + rewrite filter_cons_True by done. rewrite fmap_cons. rewrite filter_cons_False by (simpl; tauto). by rewrite filter_fst_ne.
    + rewrite filter_cons_False by done. by rewrite filter_fst_ne.
Qed.

(** ** Contexts

    A place in a list of segments: the blocks [c_l] before it and [c_r] after it
    in a segment, and the other segments. *)

Record ctx := Ctx { c_S1 : list seg; c_heap : nat; c_ms : nat; c_base : Z; c_l : list blk; c_r : list blk; c_S2 : list seg }.
Definition plug (C : ctx) (mid : list blk) : list seg := c_S1 C ++ Seg (c_heap C) (c_ms C) (c_base C) (c_l C ++ mid ++ c_r C) :: c_S2 C.
Definition here (C : ctx) : Z := c_base C + sz (c_l C).
Definition before (C : ctx) : Z := lastp NULL (c_base C) (c_l C).
Definition linked_here (C : ctx) (h : nat) (mid : list blk) : list (Z * Z) := if decide (c_heap C = h) then linked_of (here C) mid else [].
Definition rest (C : ctx) (n : Z) (h : nat) : list (Z * Z) :=
  linked h (c_S1 C) ++ (if decide (c_heap C = h) then linked_of (c_base C) (c_l C) ++ linked_of (here C + n) (c_r C) else []) ++ linked h (c_S2 C).
(** The context of what follows [l] at the same place, and of what precedes [r]. *)
Definition after (C : ctx) (l : list blk) : ctx := Ctx (c_S1 C) (c_heap C) (c_ms C) (c_base C) (c_l C ++ l) (c_r C) (c_S2 C).
Definition until (C : ctx) (r : list blk) : ctx := Ctx (c_S1 C) (c_heap C) (c_ms C) (c_base C) (c_l C) (r ++ c_r C) (c_S2 C).

Lemma plug_after C l mid : plug (after C l) mid = plug C (l ++ mid).
Proof. unfold plug, after. simpl. by rewrite <- !app_assoc. Qed.
Lemma plug_until C r mid : plug (until C r) mid = plug C (mid ++ r).
Proof. unfold plug, until. simpl. by rewrite <- !app_assoc. Qed.
Lemma here_after C l : here (after C l) = here C + sz l.
Proof. unfold here, after. simpl. rewrite sz_app. lia. Qed.
Lemma here_until C r : here (until C r) = here C.
Proof. done. Qed.
Lemma before_after C b : before (after C [b]) = here C.
Proof. unfold before, after, here. simpl. by rewrite lastp_app. Qed.

Lemma linked_app h S1 S2 : linked h (S1 ++ S2) = linked h S1 ++ linked h S2.
Proof. apply bind_app. Qed.
Lemma linked_cons h s S2 : linked h (s :: S2) = (if decide (s_heap s = h) then linked_of (s_base s) (s_blks s) else []) ++ linked h S2.
Proof. done. Qed.
Lemma linked_plug C mid h : linked h (plug C mid) ≡ₚ linked_here C h mid ++ rest C (sz mid) h.
Proof.
  unfold plug, rest, linked_here. rewrite linked_app, linked_cons. simpl. case_decide; [|done].
  rewrite !linked_of_app. fold (here C). solve_Permutation.
Qed.

Lemma linked_of_range E h i p a l x s : lseg E h i p a l → (x, s) ∈ linked_of a l → a <= x < a + sz l.
Proof.
  revert p a. induction l as [|b l IH]; intros p a; simpl; [intros _ Hx; by apply not_elem_of_nil in Hx|]. intros ((_ & _ & ? & ?) & _ & Hl) Hx.
  pose proof (lseg_sz _ _ _ _ _ _ Hl). apply elem_of_app in Hx as [Hx|Hx]; [|apply (IH _ _ Hl) in Hx; lia].
  destruct (b_linked b); [|by apply not_elem_of_nil in Hx]. apply list_elem_of_singleton in Hx. injection Hx as -> ->. lia.
Qed.
Lemma linked_of_nodup E h i p a l : lseg E h i p a l → NoDup (linked_of a l).*1.
Proof.
  revert p a. induction l as [|b l IH]; intros p a; simpl; [constructor|]. intros ((_ & _ & ? & ?) & _ & Hl).
  destruct (b_linked b); simpl; [|by eapply IH]. constructor; [|by eapply IH]. intros Hx.
  apply list_elem_of_fmap in Hx as ([x s] & -> & Hx). apply (linked_of_range _ _ _ _ _ _ _ _ Hl) in Hx. simpl in *. lia.
Qed.
Lemma linked_range E h segs x s : Forall (seg_ok E) segs → (x, s) ∈ linked h segs → Exists (λ p, p.1 <= x < p.2) (spans segs).
Proof.
  intros HS Hx. apply list_elem_of_bind in Hx as (g & Hx & Hg). rewrite Forall_forall in HS. pose proof (HS g Hg) as [[Hl _] _ _ _].
  case_decide; [|by apply not_elem_of_nil in Hx]. apply (linked_of_range _ _ _ _ _ _ _ _ Hl) in Hx.
  apply Exists_exists. exists (s_base g, s_end g). split; [apply list_elem_of_fmap; eauto|done].
Qed.
Lemma linked_nodup E h segs : Forall (seg_ok E) segs → apart (spans segs) → NoDup (linked h segs).*1.
Proof.
  intros HS. induction HS as [|g segs Hg HS IH]; [constructor|]. intros [Ha Hap].
  rewrite linked_cons, fmap_app. apply NoDup_app. split_and!; [| |by apply IH].
  - case_decide; [|constructor]. destruct Hg as [[Hl _] _ _ _]. by eapply linked_of_nodup.
  - intros x Hx Hy. apply list_elem_of_fmap in Hx as ([x1 s1] & -> & Hx), Hy as ([x2 s2] & Heq & Hy). simpl in Heq. subst x2.
    case_decide; [|by apply not_elem_of_nil in Hx]. destruct Hg as [[Hl _] _ _ _]. apply (linked_of_range _ _ _ _ _ _ _ _ Hl) in Hx.
    apply (linked_range E) in Hy; [|done]. apply Exists_exists in Hy as (q & Hq & Hy). rewrite Forall_forall in Ha.
    apply Ha in Hq. unfold s_end in *. simpl in *. lia.
Qed.

(** What the invariant says at a place. *)
Record at_place (m : mem) (C : ctx) (mid : list blk) : Prop := {
  ap_l : lseg (elems m) (c_heap C) (c_ms C) NULL (c_base C) (c_l C);
  ap_mid : lseg (elems m) (c_heap C) (c_ms C) (before C) (here C) mid;
  ap_r : chain (elems m) (c_heap C) (c_ms C) (lastp (before C) (here C) mid) (here C + sz mid) (c_r C);
  ap_base : 0 < c_base C <= here C;
  ap_align : (64 | here C);
  ap_end : here C + sz mid + sz (c_r C) + 64 <= 2 ^ 64;
  ap_heap : ∃ x, malloc_heaps m !! c_heap C = Some x }.

Lemma lseg_sz_div E h i p a l : lseg E h i p a l → (64 | sz l).
Proof.
  revert p a. induction l as [|b l IH]; simpl; [intros; apply Z.divide_0_r|]. intros p a ([Hd _] & _ & Hl).
  apply Z.divide_add_r; [done|by eapply IH].
Qed.
Lemma inv0_place m C mid : inv0 m (plug C mid) → at_place m C mid.
Proof.
  intros [HS _ Hlen Hh _]. apply Forall_app in HS as [_ HS]. apply Forall_cons in HS as [[Hc Hb Ha He] _]. simpl in *.
  apply Forall_app in Hh as [_ Hh]. apply Forall_cons in Hh as [Hh _]. simpl in Hh.
  apply chain_app in Hc as [Hl Hc]. apply chain_app in Hc as [Hm Hc]. unfold s_end in He. simpl in He. rewrite !sz_app in He.
  pose proof (lseg_sz _ _ _ _ _ _ Hl). split; try done; unfold here.
  - lia.
  - apply Z.divide_add_r; [done|by eapply lseg_sz_div].
  - lia.
  - apply lookup_lt_is_Some_2. lia.
Qed.

(** Only headers between [lo] and [hi] change, and no counter of a heap. *)
Definition counts (h : malloc_heap) : Z * Z := (alloc_count h, total_size h).
Definition within (lo hi : Z) (m m' : mem) : Prop :=
  (∀ y, y < lo ∨ hi < y → elems m' !! y = elems m !! y) ∧ counts <$> malloc_heaps m' = counts <$> malloc_heaps m.
Lemma within_refl lo hi m : within lo hi m m.
Proof. done. Qed.
Lemma within_trans lo hi m1 m2 m3 : within lo hi m1 m2 → within lo hi m2 m3 → within lo hi m1 m3.
Proof. intros [H1 H2] [H3 H4]. split; [intros y Hy; rewrite H3, H1 by done; done|by rewrite H4]. Qed.
Lemma within_mono lo hi lo' hi' m m' : within lo hi m m' → lo' <= lo → hi <= hi' → within lo' hi' m m'.
Proof. intros [H1 H2] ??. split; [intros y Hy; apply H1; lia|done]. Qed.

Lemma apart_mid ps1 p ps2 q : apart (ps1 ++ p :: ps2) → q ∈ ps1 ∨ q ∈ ps2 → p.2 + 64 <= q.1 ∨ q.2 + 64 <= p.1.
Proof.
  induction ps1 as [|q' ps1 IH]; simpl; intros [Ha Hap] Hq.
  - destruct Hq as [Hq|Hq]; [by apply not_elem_of_nil in Hq|]. rewrite Forall_forall in Ha. by apply Ha.
  - destruct Hq as [Hq|Hq]; [|apply IH; tauto]. apply elem_of_cons in Hq as [->|Hq]; [|apply IH; tauto].
    apply Forall_app in Ha as [_ Ha]. apply Forall_cons in Ha as [Ha _]. lia.
Qed.
Lemma seg_frame E E' s lo hi : seg_ok E s → hi + 64 <= s_base s ∨ s_end s + 64 <= lo →
  (∀ y, y < lo ∨ hi < y → E' !! y = E !! y) → seg_ok E' s.
Proof.
  intros [[Hl He] ? ? ?] Hd Hf. unfold s_end in *. pose proof (lseg_sz _ _ _ _ _ _ Hl). split; try done. split.
  - apply (lseg_frame E); [|done]. intros y ?. apply Hf. lia.
  - rewrite Hf by lia. done.
Qed.
Lemma spans_plug C mid mid' : sz mid' = sz mid → spans (plug C mid') = spans (plug C mid).
Proof. intros Hsz. unfold spans, plug. rewrite !fmap_app, !fmap_cons. unfold s_end. simpl. rewrite !sz_app, Hsz. done. Qed.

(** Rewriting the blocks at a place: they keep their total size, the next
    header gets the right [prev], and nothing else changes. *)
Lemma inv0_replace m m' C mid mid' : inv0 m (plug C mid) → sz mid' = sz mid →
  lseg (elems m') (c_heap C) (c_ms C) (before C) (here C) mid' →
  elems m' !! (here C + sz mid) = (λ e, e <| prev := lastp (before C) (here C) mid' |>) <$> elems m !! (here C + sz mid) →
  within (here C) (here C + sz mid) m m' →
  (∀ h x', malloc_heaps m' !! h = Some x' → ∃ x, malloc_heaps m !! h = Some x ∧
     (lists_ok (free_head x) (linked_here C h mid ++ rest C (sz mid) h) → lists_ok (free_head x') (linked_here C h mid' ++ rest C (sz mid) h))) →
  inv0 m' (plug C mid').
Proof.
  intros HI Hsz Hmid Hnext [Hf Hcnt] Hlists. pose proof (inv0_place _ _ _ HI) as [Pl Pm Pr Pb _ Pe _]. destruct HI as [HS HA Hlen Hh HL].
  split; [|by rewrite (spans_plug C mid mid')| | |].
  - pose proof (lseg_sz _ _ _ _ _ _ Pl). pose proof (lseg_sz _ _ _ _ _ _ Pm). pose proof (lseg_sz _ _ _ _ _ _ (proj1 Pr)).
    unfold plug, spans in *. rewrite fmap_app, fmap_cons in HA. apply Forall_app in HS as [HS1 HS2]. apply Forall_cons in HS2 as [[_ ? ? ?] HS2].
    assert (∀ s, seg_ok (elems m) s → s ∈ c_S1 C ∨ s ∈ c_S2 C → seg_ok (elems m') s) as Hother.
    { intros s Hs Hin. eapply seg_frame; [done| |done]. eapply (apart_mid _ _ _ (s_base s, s_end s)) in HA; [|destruct Hin; [left|right]; apply list_elem_of_fmap; eauto].
      unfold s_end, here in *. simpl in *. rewrite !sz_app in HA. lia. }
    rewrite Forall_forall in HS1, HS2. apply Forall_app. split; [|apply Forall_cons; split]; [apply Forall_forall; eauto| |apply Forall_forall; eauto].
    split; try done; unfold s_end, here in *; simpl in *; rewrite ?sz_app, ?Hsz in *; [|done].
    apply chain_app. split; [apply (lseg_frame (elems m)); [|done]; intros y ?; apply Hf; lia|]. apply chain_app. split; [done|].
    rewrite Hsz. eapply chain_reprev; [done|done|]. intros y ?. apply Hf. lia.
  - apply (f_equal length) in Hcnt. rewrite !length_fmap in Hcnt. lia.
  - unfold plug in *. apply Forall_app in Hh as [? Hh]. apply Forall_cons in Hh as [? ?]. apply Forall_app. split; [done|]. by constructor.
  - intros h x' Hx'. destruct (Hlists h x' Hx') as (x & Hx & Himp). rewrite linked_plug, Hsz. apply Himp. rewrite <- linked_plug. by apply HL.
Qed.

(** ** The primitive steps *)

Lemma chain_first E h i p a r : chain E h i p a r → ∃ e, E !! a = Some e ∧ prev e = p.
Proof.
  destruct r as [|b r]; unfold chain; simpl; [rewrite Z.add_0_r; intros [_ ?]; eauto|].
  intros [(_ & [? _] & _) _]. eauto.
Qed.
Lemma upd_elem_eq m a e f : elems m !! a = Some e → upd_elem a f m = Some (set_elem a (f e) m).
Proof. intros H. unfold upd_elem. by rewrite H. Qed.
Lemma elems_set a e m : elems (set_elem a e m) = <[a := e]> (elems m).
Proof. done. Qed.
Lemma upd_heap_eq m h x f : malloc_heaps m !! h = Some x → upd_heap h f m = Some (m <| malloc_heaps := <[h := f x]> (malloc_heaps m) |>).
Proof. intros H. unfold upd_heap. by rewrite H. Qed.
(** The free lists stay as they are and so does what is linked. *)
Lemma lists_same (C : ctx) (mid mid' : list blk) (n : Z) (hs : list malloc_heap) : (∀ h, linked_here C h mid' = linked_here C h mid) →
  ∀ h x', hs !! h = Some x' → ∃ x, hs !! h = Some x ∧
    (lists_ok (free_head x) (linked_here C h mid ++ rest C n h) → lists_ok (free_head x') (linked_here C h mid' ++ rest C n h)).
Proof. intros Heq h x Hx. exists x. split; [done|]. by rewrite Heq. Qed.

(** Lookups in a memory with a few headers written. *)
Ltac looks := repeat first [rewrite elems_set | rewrite lookup_insert_eq | rewrite lookup_insert_ne by lia].

Lemma split_elem_ok m C b s1 : inv0 m (plug C [b]) → b_linked b = false → (64 | s1) → b_pad b + 64 <= s1 → s1 + 64 <= b_size b →
  ∃ m', split_elem (here C) (here C + s1) m = Some m' ∧ within (here C) (here C + b_size b) m m' ∧
    inv0 m' (plug C [Blk (b_state b) (b_pad b) s1 false; Blk ELEM_FREE 0 (b_size b - s1) false]).
Proof.
  intros HI Hul Hd Hlo Hhi. pose proof (inv0_place _ _ _ HI) as [_ ((Hds & Hdp & Hp0 & _) & [Hh Hpad] & _) Pr Pb Pa Pe _]. simpl in *.
  rewrite Z.add_0_r in *. destruct (chain_first _ _ _ _ _ _ Pr) as (nx & Hnx & _). pose proof (lseg_sz _ _ _ _ _ _ (proj1 Pr)).
  unfold split_elem, malloc_elem_init. rewrite Hh. simpl. rewrite !u64_small by (unfold is_u64; lia).
  replace (here C + s1 - here C) with s1 by lia. rewrite (upd_elem_eq _ _ _ _ (lookup_insert_eq _ _ _)). simpl.
  rewrite (upd_elem_eq _ _ nx) by (looks; done). simpl. rewrite (upd_elem_eq _ (here C) (Elem (c_heap C) (before C) (c_ms C) (b_state b) (b_pad b) (b_size b))) by (looks; done).
  eexists. split; [done|]. assert (Hw : within (here C) (here C + b_size b) m (set_elem (here C) (Elem (c_heap C) (before C) (c_ms C) (b_state b) (b_pad b) s1)
    (set_elem (here C + b_size b) (nx <| prev := here C + s1 |>) (set_elem (here C + s1) (Elem (c_heap C) (here C) (c_ms C) ELEM_FREE 0 (b_size b - s1))
    (set_elem (here C + s1) (Elem (c_heap C) NULL (c_ms C) ELEM_FREE 0 (b_size b - s1)) m))))) by (split; [intros y Hy; looks; done|done]).
  split; [exact Hw|]. apply (inv0_replace m _ C [b]); [done|simpl; lia| | |by simpl; rewrite Z.add_0_r|].
  - simpl. unfold geom, header. simpl. split_and!; try done; try lia; try (looks; done).
    + intros Hb Hp. destruct (Hpad Hb Hp) as (e & ? & ?). exists e. looks. done.
    + by apply Z.divide_sub_r.
    + apply Z.divide_0_r.
  - simpl. rewrite Z.add_0_r. looks. by rewrite Hnx.
  - apply lists_same. intros h. unfold linked_here. simpl. by rewrite Hul.
Qed.

Lemma join_elem_ok m C b1 b2 : inv0 m (plug C [b1; b2]) → b_linked b1 = false → b_linked b2 = false →
  ∃ m', join_elem (here C) (here C + b_size b1) m = Some m' ∧ within (here C) (here C + (b_size b1 + b_size b2)) m m' ∧
    inv0 m' (plug C [Blk (b_state b1) (b_pad b1) (b_size b1 + b_size b2) false]).
Proof.
  intros HI Hul1 Hul2. pose proof (inv0_place _ _ _ HI) as [_ ((Hd1 & Hdp & Hp0 & Hg1) & [Hh1 Hpad] & (Hd2 & _ & Hp2 & Hg2) & [Hh2 _] & _) Pr Pb Pa Pe _]. simpl in *.
  rewrite Z.add_0_r in *. destruct (chain_first _ _ _ _ _ _ Pr) as (nx & Hnx & _). pose proof (lseg_sz _ _ _ _ _ _ (proj1 Pr)).
  rewrite Z.add_assoc in Hnx. unfold join_elem. rewrite Hh2. simpl. rewrite (u64_small (here C + _ + _)) by (unfold is_u64; lia).
  rewrite (upd_elem_eq _ _ _ _ Hh1). simpl. rewrite (upd_elem_eq _ _ nx) by (looks; done). simpl. rewrite u64_small by (unfold is_u64; lia).
  eexists. split; [done|]. match goal with |- within _ _ _ ?x ∧ _ => assert (Hw : within (here C) (here C + (b_size b1 + b_size b2)) m x) by (split; [intros y Hy; looks; done|done]) end.
  split; [exact Hw|]. apply (inv0_replace m _ C [b1; b2]); [done|simpl; lia| | |by simpl; rewrite Z.add_0_r|].
  - simpl. unfold geom, header. simpl. split_and!; try done; try lia; try (looks; done).
    + by apply Z.divide_add_r.
    + intros Hb Hp. destruct (Hpad Hb Hp) as (e & ? & ?). exists e. looks. done.
  - simpl. rewrite Z.add_0_r, Z.add_assoc. looks. by rewrite Hnx.
  - apply lists_same. intros h. unfold linked_here. simpl. by rewrite Hul1, Hul2.
Qed.

(** Changing the state and the padding of a header, not towards a padded block. *)
Lemma mark_ok m C b b' f : inv0 m (plug C [b]) → b_linked b' = b_linked b → b_size b' = b_size b → geom b' → (b_state b' = ELEM_BUSY → b_pad b' = 0) →
  (∀ p, f (Elem (c_heap C) p (c_ms C) (b_state b) (b_pad b) (b_size b)) = Elem (c_heap C) p (c_ms C) (b_state b') (b_pad b') (b_size b)) →
  ∃ m', upd_elem (here C) f m = Some m' ∧ within (here C) (here C + b_size b) m m' ∧ inv0 m' (plug C [b']).
Proof.
  intros HI Hl Hs Hg' Hp Hf. pose proof (inv0_place _ _ _ HI) as [_ ((_ & _ & ? & ?) & [Hh _] & _) Pr Pb Pa Pe _]. simpl in *.
  rewrite Z.add_0_r in *. destruct (chain_first _ _ _ _ _ _ Pr) as (nx & Hnx & Hpr). rewrite (upd_elem_eq _ _ _ _ Hh), Hf. eexists. split; [done|].
  match goal with |- within _ _ _ ?x ∧ _ => assert (Hw : within (here C) (here C + b_size b) m x) by (split; [intros y Hy; looks; done|done]) end.
  split; [exact Hw|]. apply (inv0_replace m _ C [b]); [done|simpl; lia| | |by simpl; rewrite Z.add_0_r|].
  - simpl. unfold header. rewrite Hs. split_and!; try done; [by looks|]. intros Hb ?. specialize (Hp Hb). lia.
  - simpl. rewrite Z.add_0_r. looks. rewrite Hnx. simpl. rewrite <- Hpr. by destruct nx.
  - apply lists_same. intros h. unfold linked_here. simpl. by rewrite Hl, Hs.
Qed.

Definition unlink (b : blk) : blk := Blk (b_state b) (b_pad b) (b_size b) false.

(** Replacing the free lists of the heap of [C]. *)
Lemma heap_replace m C b b' fl : inv0 m (plug C [b]) → b_size b' = b_size b →
  header (elems m) (c_heap C) (c_ms C) (before C) (here C) b' → geom b' →
  (∀ x, malloc_heaps m !! c_heap C = Some x → lists_ok (free_head x) (linked_of (here C) [b] ++ rest C (b_size b) (c_heap C)) →
    lists_ok fl (linked_of (here C) [b'] ++ rest C (b_size b) (c_heap C))) →
  ∃ m', upd_heap (c_heap C) (λ h, h <| free_head := fl |>) m = Some m' ∧ within (here C) (here C + b_size b) m m' ∧ inv0 m' (plug C [b']).
Proof.
  intros HI Hs Hh' Hg' Hfl. pose proof (inv0_place _ _ _ HI) as [_ (Hg & Hh & _) Pr Pb Pa Pe [x Hx]]. simpl in *.
  rewrite Z.add_0_r in *. destruct (chain_first _ _ _ _ _ _ Pr) as (nx & Hnx & Hpr). rewrite (upd_heap_eq _ _ _ _ Hx). eexists. split; [done|].
  match goal with |- within _ _ _ ?x ∧ _ => assert (Hw : within (here C) (here C + b_size b) m x) end.
  { split; [done|]. simpl. rewrite list_fmap_insert. apply list_insert_id. rewrite list_lookup_fmap, Hx. done. }
  split; [exact Hw|]. apply (inv0_replace m _ C [b]); [done|simpl; lia|done| |by simpl; rewrite Z.add_0_r|].
  - simpl. rewrite Z.add_0_r. rewrite Hnx. simpl. rewrite <- Hpr. by destruct nx.
  - intros h x'. simpl. unfold linked_here. destruct (decide (h = c_heap C)) as [->|Hne].
    + rewrite list_lookup_insert_eq by (eapply lookup_lt_Some; done). intros [= <-]. exists x. split; [done|]. rewrite !decide_True by done. simpl. rewrite Z.add_0_r. by apply Hfl.
    + rewrite list_lookup_insert_ne by done. intros Hx'. exists x'. rewrite !decide_False by done. done.
Qed.

Lemma remove_ok m C b : inv0 m (plug C [b]) → b_linked b = true →
  ∃ m', elem_free_list_remove (here C) m = Some m' ∧ within (here C) (here C + b_size b) m m' ∧ inv0 m' (plug C [unlink b]).
Proof.
  intros HI Hl. pose proof (inv0_place _ _ _ HI) as [_ (Hg & Hh & _) _ _ _ _ [x Hx]].
  pose proof (linked_nodup _ (c_heap C) _ (i_segs _ _ HI) (i_apart _ _ HI)) as Hnd. pose proof (i_lists _ _ HI _ _ Hx) as Hok. rewrite linked_plug in Hok, Hnd.
  unfold linked_here in Hok, Hnd. rewrite decide_True in Hok, Hnd by done. simpl in Hok, Hnd. rewrite Hl, !Z.add_0_r in *. simpl in Hnd. apply NoDup_cons in Hnd as [Hnin _].
  destruct (lists_remove _ _ _ _ _ Hok (Permutation_refl _) Hnin) as [Hex Hok'].
  unfold elem_free_list_remove. rewrite (proj1 Hh). simpl. rewrite Hx. simpl. rewrite decide_True by done.
  destruct (heap_replace m C b (unlink b) (filter (λ y, y ≠ here C) <$> free_head x)) as (m' & Hm' & Hw & HI'); [done|done|done|done| |].
  { intros x' Hx' _. simplify_eq. done. }
  exists m'. split; [|done]. rewrite (upd_heap_eq _ _ _ _ Hx) in Hm'. by rewrite (upd_heap_eq _ _ _ _ Hx).
Qed.

Lemma insert_ok m C b : inv0 m (plug C [b]) → b_linked b = false →
  ∃ m', malloc_elem_free_list_insert (here C) m = Some m' ∧ within (here C) (here C + b_size b) m m' ∧
    inv0 m' (plug C [Blk ELEM_FREE (b_pad b) (b_size b) true]).
Proof.
  intros HI Hl. pose proof (inv0_place _ _ _ HI) as [_ (Hg & Hh & _) _ _ _ _ _].
  destruct (mark_ok m C b (Blk ELEM_FREE (b_pad b) (b_size b) false) (λ e, e <| state := ELEM_FREE |>)) as (m1 & Hm1 & Hw1 & HI1); [done|done|done|done|done|done|].
  unfold malloc_elem_free_list_insert. rewrite (proj1 Hh). simpl. rewrite Hm1. simpl.
  pose proof (inv0_place _ _ _ HI1) as [_ (Hg1 & Hh1 & _) _ _ _ _ [x Hx]]. rewrite Hx. simpl.
  pose proof (i_lists _ _ HI1 _ _ Hx) as Hok. destruct (lists_insert _ _ (here C) (b_size b) Hok) as (l & fl & Hload & Hstore & Hok').
  rewrite Hload. simpl. rewrite Hstore. simpl.
  destruct (heap_replace m1 C (Blk ELEM_FREE (b_pad b) (b_size b) false) (Blk ELEM_FREE (b_pad b) (b_size b) true) fl) as (m2 & Hm2 & Hw2 & HI2); [done|done|done|done| |].
  { intros x' Hx' _. simplify_eq. rewrite linked_plug in Hok'. unfold linked_here in Hok'. rewrite decide_True in Hok' by done. simpl in Hok'. rewrite Z.add_0_r in Hok'. done. }
  exists m2. split_and!; [done|by eapply within_trans|done].
Qed.

(** Marking a block busy with [n] bytes of padding, as at the end of [malloc_elem_alloc]. *)
Lemma pad_ok m C b n : inv0 m (plug C [b]) → b_linked b = false → (64 | n) → 0 <= n < 2 ^ 32 → n + 64 <= b_size b →
  ∃ m1 e1, upd_elem (here C) (λ e, e <| state := ELEM_BUSY |> <| pad := u32 n |>) m = Some m1 ∧ elems m1 !! here C = Some e1 ∧ pad e1 = n ∧
    ∀ s, let m2 := if n >? 0 then write_pad (here C + n) n s m1 else m1 in
    within (here C) (here C + b_size b) m m2 ∧ inv0 m2 (plug C [Blk ELEM_BUSY n (b_size b) false]).
Proof.
  intros HI Hl Hd Hn Hs. pose proof (inv0_place _ _ _ HI) as [_ ((Hds & _ & ? & ?) & [Hh _] & _) Pr Pb Pa Pe _]. simpl in *.
  rewrite Z.add_0_r in *. destruct (chain_first _ _ _ _ _ _ Pr) as (nx & Hnx & Hpr). rewrite (upd_elem_eq _ _ _ _ Hh). simpl. rewrite u32_small by done.
  eexists _, _. split_and!; [done|by looks|done|]. intros s. match goal with |- within _ _ _ ?x ∧ _ => set (m2 := x) end.
  assert (Hw : within (here C) (here C + b_size b) m m2).
  { unfold m2, write_pad. destruct (Z.gtb_spec n 0); (split; [intros y Hy; looks; done|done]). }
  split; [exact Hw|]. apply (inv0_replace m _ C [b]); [done|simpl; lia| | |by simpl; rewrite Z.add_0_r|].
  - simpl. unfold geom, header, m2, write_pad. simpl. destruct (Z.gtb_spec n 0) as [Hgt|Hle]; split_and!; try done; try lia; try (looks; done).
    intros _ _. eexists. split; [by looks|done].
  - simpl. rewrite Z.add_0_r. unfold m2, write_pad. destruct (Z.gtb_spec n 0); looks; rewrite Hnx; simpl; rewrite <- Hpr; by destruct nx.
  - assert (malloc_heaps m2 = malloc_heaps m) as -> by (unfold m2, write_pad; by destruct (n >? 0)). apply lists_same.
    intros h. unfold linked_here. simpl. by rewrite Hl.
Qed.
