(* ===== verification/MallocOps.v ===== *)
(** * Allocation, release and resizing of elements

    What [malloc_elem_alloc], [malloc_elem_free] and [malloc_elem_resize] of
    [malloc_elem.c] do to the blocks of a segment ([MallocInv.v]): an allocation
    carves a block out of a free one, a release merges it with its free
    neighbours, a resize takes from the next block. *)
From S2P Require Import Prelude Align Malloc MallocFit MallocInv.
Open Scope Z_scope.

Ltac div64 := repeat first [assumption | apply Z.divide_0_r | (exists 1; reflexivity) | (exists 2; reflexivity) | apply Z.divide_sub_r | apply Z.divide_add_r].

(** ** Cutting the end off a block *)

Lemma split_insert_ok m C b u : inv0 m (plug C [b]) → b_linked b = false → (64 | u) → b_pad b + 64 <= u → u + 64 <= b_size b →
  ∃ m1 m', split_elem (here C) (here C + u) m = Some m1 ∧ malloc_elem_free_list_insert (here C + u) m1 = Some m' ∧
    within (here C) (here C + b_size b) m m' ∧
    inv0 m' (plug C [Blk (b_state b) (b_pad b) u false; Blk ELEM_FREE 0 (b_size b - u) true]).
Proof.
  intros HI Hl Hd Hlo Hhi. destruct (split_elem_ok m C b u) as (m1 & Hm1 & Hw1 & HI1); try done.
  set (b1 := Blk (b_state b) (b_pad b) u false) in *. set (b2 := Blk ELEM_FREE 0 (b_size b - u) false) in *.
  pose proof (inv0_place _ _ _ HI) as [_ ((_ & _ & ? & _) & _ & _) _ _ _ _ _].
  change [b1; b2] with ([b1] ++ [b2]) in HI1. rewrite <- plug_after in HI1. destruct (insert_ok m1 (after C [b1]) b2) as (m' & Hm' & Hw & HI'); [done|done|].
  rewrite here_after in *. simpl in *. rewrite Z.add_0_r in *. exists m1, m'. split_and!; [done|done| |by rewrite plug_after in HI'].
  eapply within_trans; [done|]. eapply within_mono; [done|lia|lia].
Qed.

(** ** Allocation *)

(** The free rest behind a block, when it is worth a block of its own. *)
Definition back (trailer : Z) : list blk := if trailer >? MALLOC_ELEM_OVERHEAD + MIN_DATA_SIZE then [Blk ELEM_FREE 0 trailer true] else [].
(** The blocks that replace a free block of [n] bytes at [a] when [s] bytes at [d] are taken. *)
Definition carve (a n s d : Z) : list blk :=
  let old := d - MALLOC_ELEM_HEADER_LEN - a in
  let bk := back (n - old - s - MALLOC_ELEM_OVERHEAD) in
  let used := n - sz bk in
  if old <? MALLOC_ELEM_OVERHEAD + MIN_DATA_SIZE then Blk ELEM_BUSY old used false :: bk
  else Blk ELEM_FREE 0 old true :: Blk ELEM_BUSY 0 (used - old) false :: bk.

Lemma back_sz t : sz (back t) = 0 ∨ 128 < t ∧ sz (back t) = t.
Proof. unfold back, MALLOC_ELEM_OVERHEAD, MALLOC_ELEM_HEADER_LEN, MALLOC_ELEM_TRAILER_LEN, MIN_DATA_SIZE, RTE_CACHE_LINE_SIZE. destruct (Z.gtb_spec t (64 + 0 + 64)); simpl; lia. Qed.
Lemma carve_sz a n s d : sz (carve a n s d) = n.
Proof. unfold carve. destruct (_ <? _); simpl; lia. Qed.

(** The step of [malloc_elem_alloc] that gives back the space after the block. *)
Lemma trim_ok m C n u : inv0 m (plug C [Blk ELEM_FREE 0 n false]) → (64 | u) → 64 <= u <= n →
  ∃ m', (if n - u >? MALLOC_ELEM_OVERHEAD + MIN_DATA_SIZE then m ← split_elem (here C) (here C + u) m; malloc_elem_free_list_insert (here C + u) m else Some m) = Some m' ∧
    within (here C) (here C + n) m m' ∧ inv0 m' (plug (until C (back (n - u))) [Blk ELEM_FREE 0 (n - sz (back (n - u))) false]).
Proof.
  intros HI Hd Hu. rewrite plug_until. unfold back. unfold MALLOC_ELEM_OVERHEAD, MALLOC_ELEM_HEADER_LEN, MALLOC_ELEM_TRAILER_LEN, MIN_DATA_SIZE, RTE_CACHE_LINE_SIZE.
  destruct (Z.gtb_spec (n - u) (64 + 0 + 64)).
  - destruct (split_insert_ok m C (Blk ELEM_FREE 0 n false) u) as (m1 & m' & -> & Hm' & Hw & HI'); simpl in *; [done|done|done|lia|lia|].
    exists m'. split_and!; [done|done|]. rewrite Z.add_0_r. by replace (n - (n - u)) with u by lia.
  - exists m. split_and!; [done|by apply within_refl|]. simpl. by rewrite Z.sub_0_r.
Qed.

(** The step that gives back the space before it. *)
Lemma front_ok m C n old s : inv0 m (plug C [Blk ELEM_FREE 0 n false]) → (64 | old) → 0 <= old → old + 64 + s <= n → 64 <= s → here C + n < 2 ^ 64 →
  ∃ m', (if old <? MALLOC_ELEM_OVERHEAD + MIN_DATA_SIZE then
           m ← upd_elem (here C) (λ e, e <| state := ELEM_BUSY |> <| pad := u32 old |>) m;
           e ← elems m !! here C;
           Some (if pad e >? 0 then write_pad (here C + old) (pad e) (u64 (size e - pad e)) m else m, here C + old)
         else
           m ← split_elem (here C) (here C + old) m;
           m ← upd_elem (here C + old) (λ e, e <| state := ELEM_BUSY |>) m;
           m ← malloc_elem_free_list_insert (here C) m;
           Some (m, here C + old)) = Some (m', here C + old) ∧
    within (here C) (here C + n) m m' ∧
    inv0 m' (plug C (if old <? MALLOC_ELEM_OVERHEAD + MIN_DATA_SIZE then [Blk ELEM_BUSY old n false] else [Blk ELEM_FREE 0 old true; Blk ELEM_BUSY 0 (n - old) false])).
Proof.
  intros HI Hd Hold Hfit Hs Hmax. pose proof (inv0_place _ _ _ HI) as [_ ((Hdn & _ & _ & _) & _ & _) _ _ Pa _ _]. simpl in Hdn.
  unfold MALLOC_ELEM_OVERHEAD, MALLOC_ELEM_HEADER_LEN, MALLOC_ELEM_TRAILER_LEN, MIN_DATA_SIZE, RTE_CACHE_LINE_SIZE. destruct (Z.ltb_spec old (64 + 0 + 64)).
  - destruct (pad_ok m C (Blk ELEM_FREE 0 n false) old) as (m1 & e1 & -> & He1 & Hp & Hpad); simpl; [done|done|done|lia|lia|].
    simpl. rewrite He1. simpl. rewrite Hp. destruct (Hpad (u64 (size e1 - old))) as [Hw HI']. eexists. split_and!; [done|done|done].
  - destruct (split_elem_ok m C (Blk ELEM_FREE 0 n false) old) as (m1 & Hm1 & Hw1 & HI1); simpl in *; [done|done|done|lia|lia|]. rewrite Hm1. simpl.
    set (b1 := Blk ELEM_FREE 0 old false) in *. set (b2 := Blk ELEM_FREE 0 (n - old) false) in *. change [b1; b2] with ([b1] ++ [b2]) in HI1. rewrite <- plug_after in HI1.
    destruct (mark_ok m1 (after C [b1]) b2 (Blk ELEM_BUSY 0 (n - old) false) (λ e, e <| state := ELEM_BUSY |>)) as (m2 & Hm2 & Hw2 & HI2); [done|done|done| |done|done|].
    { unfold geom. simpl. split_and!; [div64|div64|lia|lia]. }
    rewrite here_after in *. simpl in *. rewrite Z.add_0_r in *. rewrite Hm2. simpl. rewrite plug_after in HI2.
    set (b2' := Blk ELEM_BUSY 0 (n - old) false) in *. change ([b1] ++ [b2']) with ([b1] ++ [b2']) in HI2. rewrite <- plug_until in HI2.
    destruct (insert_ok m2 (until C [b2']) b1) as (m3 & Hm3 & Hw3 & HI3); [done|done|]. rewrite here_until in *. rewrite Hm3. simpl. rewrite plug_until in HI3.
    exists m3. split_and!; [done| |done]. simpl in *. eapply within_trans; [done|]. eapply within_trans; [eapply within_mono; [done|lia|lia]|]. eapply within_mono; [done|lia|lia].
Qed.

Lemma elem_alloc_ok m C n s al bd d : inv0 m (plug C [Blk ELEM_FREE 0 n true]) → request s al bd (here C) →
  start_spec (here C) n s al bd = d - MALLOC_ELEM_HEADER_LEN → fits (here C) n s al bd d →
  ∃ m', malloc_elem_alloc (here C) s al bd m = Some (m', d - MALLOC_ELEM_HEADER_LEN) ∧ within (here C) (here C + n) m m' ∧
    inv0 m' (plug C (carve (here C) n s d)).
Proof.
  intros HI Hrq Hst (Hal & Hlo & Hhi & _). pose proof (inv0_place _ _ _ HI) as [_ ((Hdn & _ & _ & Hn) & [Hh _] & _) Pr Pb Pa Pe _]. simpl in *. rewrite Z.add_0_r in *.
  pose proof (lseg_sz _ _ _ _ _ _ (proj1 Pr)). unfold malloc_elem_alloc. rewrite Hh. simpl. rewrite start_pt_eq by (simpl; done || lia). simpl. rewrite Hst.
  destruct Hrq as [Hs0 Hs (k & Hk & Hal2) _ Hlow]. assert (H64 : (64 | d)).
  { transitivity al; [|done]. rewrite Hal2. change 64 with (2 ^ 6). apply pow2_divide; [lia|lia|apply Z.pow_le_mono_r; lia]. }
  unfold carve, MALLOC_ELEM_HEADER_LEN in *. set (old := d - 64 - here C). assert (Hold : (64 | old)) by (unfold old; div64; done).
  assert (Hs64 : 64 <= s) by (apply Z.divide_pos_le; done). replace (d - 64) with (here C + old) by (unfold old; lia). rewrite (u64_small old) by (unfold is_u64, old; lia).
  destruct (remove_ok m C (Blk ELEM_FREE 0 n true)) as (m1 & -> & Hw1 & HI1); [done|done|]. unfold unlink in HI1. simpl in *.
  unfold MALLOC_ELEM_OVERHEAD, MALLOC_ELEM_HEADER_LEN, MALLOC_ELEM_TRAILER_LEN. rewrite (u64_small (n - old - s - _)), (u64_small (s + _)), (u64_small (here C + old + _)) by (unfold is_u64, old; lia).
  set (u := old + (s + (64 + 0))). replace (n - old - s - (64 + 0)) with (n - u) by (unfold u; lia). replace (here C + old + (s + (64 + 0))) with (here C + u) by (unfold u; lia).
  destruct (trim_ok m1 C n u) as (m2 & Hm2 & Hw2 & HI2); [done|unfold u; div64; exists 1; done|unfold u, old; lia|].
  unfold MALLOC_ELEM_OVERHEAD, MALLOC_ELEM_HEADER_LEN, MALLOC_ELEM_TRAILER_LEN in Hm2. rewrite Hm2. simpl.
  set (bk := back (n - u)) in *. assert (Hbk : 0 <= sz bk <= n - u) by (unfold bk; destruct (back_sz (n - u)) as [->|[? ->]]; unfold u, old; lia).
  destruct (front_ok m2 (until C bk) (n - sz bk) old s) as (m3 & Hm3 & Hw3 & HI3); [done|done|unfold old; lia|unfold u in *; lia|done|rewrite here_until; lia|].
  rewrite here_until in *. unfold MALLOC_ELEM_OVERHEAD, MALLOC_ELEM_HEADER_LEN, MALLOC_ELEM_TRAILER_LEN in *. exists m3. split_and!; [exact Hm3| |].
  - eapply within_trans; [done|]. eapply within_trans; [done|]. eapply within_mono; [done|lia|lia].
  - rewrite plug_until in HI3. by destruct (old <? 64 + 0 + MIN_DATA_SIZE).
Qed.

(** ** What the steps write *)

Lemma upd_elem_frame a f m m' y : upd_elem a f m = Some m' → y ≠ a → elems m' !! y = elems m !! y.
Proof. unfold upd_elem. intros H Hy. binds. subst m'. by rewrite elems_set, lookup_insert_ne. Qed.
Lemma upd_heap_frame h f m m' : upd_heap h f m = Some m' → elems m' = elems m.
Proof. unfold upd_heap. intros H. binds. by subst m'. Qed.
Lemma remove_frame a m m' : elem_free_list_remove a m = Some m' → elems m' = elems m.
Proof. unfold elem_free_list_remove. intros H. binds. case_decide; [|done]. by eapply upd_heap_frame. Qed.
Lemma insert_frame a m m' y : malloc_elem_free_list_insert a m = Some m' → y ≠ a → elems m' !! y = elems m !! y.
Proof. unfold malloc_elem_free_list_insert. intros H Hy. binds. erewrite upd_heap_frame by done. by eapply upd_elem_frame. Qed.
Lemma join_frame a1 a2 m m' : join_elem a1 a2 m = Some m' → ∃ e2, elems m !! a2 = Some e2 ∧ ∀ y, y ≠ a1 → y ≠ u64 (a2 + size e2) → elems m' !! y = elems m !! y.
Proof.
  unfold join_elem. intros H. apply bind_Some in H as (e2 & He2 & H). apply bind_Some in H as (m1 & H1 & H2). exists e2. split; [done|]. intros y Hy1 Hy2.
  rewrite (upd_elem_frame _ _ _ _ _ H2 Hy2). by eapply upd_elem_frame.
Qed.
Lemma split_frame a sp m m' : split_elem a sp m = Some m' → ∃ e, elems m !! a = Some e ∧ ∀ y, y ≠ a → y ≠ sp → y ≠ u64 (a + size e) → elems m' !! y = elems m !! y.
Proof.
  unfold split_elem, malloc_elem_init. intros H. apply bind_Some in H as (e & He & H). apply bind_Some in H as (m1 & H1 & H). apply bind_Some in H as (m2 & H2 & H).
  exists e. split; [done|]. intros y Hy1 Hy2 Hy3. rewrite (upd_elem_frame _ _ _ _ _ H Hy1), (upd_elem_frame _ _ _ _ _ H2 Hy3), (upd_elem_frame _ _ _ _ _ H1 Hy2).
  by rewrite elems_set, lookup_insert_ne.
Qed.

(** ** Release *)

Definition first_state (r : list blk) : elem_state := match r with [] => ELEM_BUSY | b :: _ => b_state b end.
Lemma chain_state E h i p a r : chain E h i p a r → ∃ e, E !! a = Some e ∧ state e = first_state r.
Proof.
  destruct r as [|b r]; unfold chain; simpl; [rewrite Z.add_0_r; intros [_ ?]; eauto|]. intros [(_ & [? _] & _) _]. eauto.
Qed.
Lemma before_snoc C l b : c_l C = l ++ [b] → before C = c_base C + sz l.
Proof. unfold before. intros ->. by rewrite lastp_app. Qed.
Definition last_state (l : list blk) : option elem_state := b_state <$> last l.
Lemma before_state m C mid : at_place m C mid →
  match last_state (c_l C) with
  | None => before C = NULL
  | Some st => before C ≠ NULL ∧ before C < here C ∧ ∃ e, elems m !! before C = Some e ∧ state e = st
  end.
Proof.
  intros [Pl _ _ Pb _ _ _]. unfold last_state. destruct (c_l C) as [|b l _] eqn:Hl using rev_ind; [by unfold before; rewrite Hl|].
  rewrite last_snoc. simpl. rewrite (before_snoc C l b Hl). apply lseg_app in Pl as [Pl ((_ & _ & ? & ?) & [Hh _] & _)].
  pose proof (lseg_sz _ _ _ _ _ _ Pl). unfold here, NULL. rewrite Hl, sz_app. simpl. split_and!; [lia|lia|]. eauto.
Qed.

Lemma absorb_next m C b post : inv0 m (plug C (b :: post)) → b_linked b = false →
  (post = [] ∧ first_state (c_r C) ≠ ELEM_FREE) ∨ (∃ n, post = [Blk ELEM_FREE 0 n true]) →
  ∃ n m', elems m !! (here C + b_size b) = Some n ∧
    (if bool_decide (state n = ELEM_FREE) then m ← elem_free_list_remove (here C + b_size b) m; join_elem (here C) (here C + b_size b) m else Some m) = Some m' ∧
    within (here C) (here C + sz (b :: post)) m m' ∧ (∀ y, here C < y < here C + sz (b :: post) → elems m' !! y = elems m !! y) ∧
    inv0 m' (plug C [Blk (b_state b) (b_pad b) (b_size b + sz post) false]).
Proof.
  intros HI Hl [[-> Hf]|(n & ->)].
  - pose proof (inv0_place _ _ _ HI) as [_ _ Pr _ _ _ _]. simpl in Pr. rewrite Z.add_0_r in Pr. destruct (chain_state _ _ _ _ _ _ Pr) as (e & He & Hst).
    exists e, m. rewrite bool_decide_false by congruence. split_and!; [done|done|by apply within_refl|done|]. simpl. rewrite Z.add_0_r. by destruct b; simpl in *; subst.
  - set (b2 := Blk ELEM_FREE 0 n true) in *. pose proof (inv0_place _ _ _ HI) as [_ ((_ & _ & ? & ?) & _ & (_ & _ & _ & ?) & [Hh _] & _) Pr [Pb Pb'] _ Pe _].
    pose proof (lseg_sz _ _ _ _ _ _ (proj1 Pr)). change [b; b2] with ([b] ++ [b2]) in HI. rewrite <- plug_after in HI. destruct (remove_ok m (after C [b]) b2) as (m1 & Hm1 & Hw1 & HI1); [done|done|].
    rewrite here_after in *. simpl in *. rewrite Z.add_0_r in *. eexists. rewrite Hh. simpl. rewrite Hm1. simpl. rewrite plug_after in HI1.
    destruct (join_elem_ok m1 C b (unlink b2)) as (m2 & Hm2 & Hw2 & HI2); [done|done|done|]. exists m2. split_and!; [done|done| | |done].
    + eapply within_trans; [|exact Hw2]. eapply within_mono; [done|lia|lia].
    + intros y Hy. destruct (join_frame _ _ _ _ Hm2) as (e2 & He2 & Hj). rewrite (remove_frame _ _ _ Hm1) in *. simplify_eq. simpl in *. apply Hj; [lia|].
      rewrite u64_small by (unfold is_u64; lia). lia.
Qed.

(** The second step: the block before it takes it over, or it goes on a free list itself. *)
Lemma absorb_prev m C pre b : inv0 m (plug C (pre ++ [b])) → b_linked b = false →
  (pre = [] ∧ last_state (c_l C) ≠ Some ELEM_FREE) ∨ (∃ n, pre = [Blk ELEM_FREE 0 n true]) →
  let elem := here C + sz pre in let pr := before (after C pre) in
  ∃ p m', (if pr =? NULL then Some None else p ← elems m !! pr; Some (Some p)) = Some p ∧
    (if bool_decide (state <$> p = Some ELEM_FREE) then
       m ← elem_free_list_remove pr m; m ← join_elem pr elem m; malloc_elem_free_list_insert pr m
     else m ← malloc_elem_free_list_insert elem m; upd_elem elem (λ e, e <| pad := 0 |>) m) = Some m' ∧
    within (here C) (here C + sz (pre ++ [b])) m m' ∧ inv0 m' (plug C [Blk ELEM_FREE 0 (sz pre + b_size b) true]).
Proof.
  intros HI Hl [[-> Hf]|(n & ->)] elem pr.
  - replace elem with (here C) by (unfold elem; simpl; lia). replace pr with (before C) by (unfold pr, before, after; simpl; by rewrite app_nil_r).
    pose proof (before_state _ _ _ (inv0_place _ _ _ HI)) as Hb. pose proof (inv0_place _ _ _ HI) as [_ ((Hd & _ & ? & ?) & _ & _) _ _ _ _ _].
    destruct (insert_ok m C b) as (m1 & Hm1 & Hw1 & HI1); [done|done|].
    destruct (mark_ok m1 C (Blk ELEM_FREE (b_pad b) (b_size b) true) (Blk ELEM_FREE 0 (b_size b) true) (λ e, e <| pad := 0 |>)) as (m2 & Hm2 & Hw2 & HI2); [done|done|done| |done|done|].
    { unfold geom. simpl. split_and!; [done|div64|lia|lia]. }
    destruct (last_state (c_l C)) as [st|]; [destruct Hb as (Hn & _ & e & He & Hst)|].
    + exists (Some e), m2. destruct (Z.eqb_spec (before C) NULL); [done|]. rewrite He. simpl. rewrite bool_decide_false by congruence. rewrite Hm1. simpl. rewrite Z.add_0_r.
      split_and!; [done|done|by eapply within_trans|done].
    + exists None, m2. rewrite Hb. simpl. rewrite Hm1. simpl. rewrite Z.add_0_r. split_and!; [done|done|by eapply within_trans|done].
  - set (b0 := Blk ELEM_FREE 0 n true) in *. assert (pr = here C) as -> by apply before_after. unfold elem. simpl. rewrite Z.add_0_r.
    pose proof (inv0_place _ _ _ HI) as [_ ((_ & _ & ? & ?) & [Hh _] & (_ & _ & ? & ?) & _ & _) _ Pb _ _ _]. destruct (Z.eqb_spec (here C) NULL) as [He|_]; [unfold NULL in He; lia|].
    rewrite Hh. simpl. eexists. rewrite <- plug_until in HI. destruct (remove_ok m (until C [b]) b0) as (m1 & Hm1 & Hw1 & HI1); [done|done|]. rewrite here_until in *.
    rewrite plug_until in HI1. destruct (join_elem_ok m1 C (unlink b0) b) as (m2 & Hm2 & Hw2 & HI2); [done|done|done|]. simpl in *.
    destruct (insert_ok m2 C (Blk ELEM_FREE 0 (n + b_size b) false)) as (m3 & Hm3 & Hw3 & HI3); [done|done|]. exists m3. rewrite Hm1. simpl. rewrite Hm2. simpl. rewrite Z.add_0_r in *.
    split_and!; [done|done| |done]. eapply within_trans; [eapply within_mono; [exact Hw1|lia|lia]|]. by eapply within_trans.
Qed.

(** A count of a heap changes. *)
Definition counted (h : nat) (f : Z → Z) (m m' : mem) : Prop :=
  counts <$> malloc_heaps m' = alter (λ c : Z * Z, (f c.1, c.2)) h (counts <$> malloc_heaps m).
Definition touched (lo hi : Z) (m m' : mem) : Prop := ∀ y, y < lo ∨ hi < y → elems m' !! y = elems m !! y.

Lemma count_ok m segs h f : inv0 m segs → (h < 8)%nat →
  ∃ m', upd_heap h (λ x, x <| alloc_count := f (alloc_count x) |>) m = Some m' ∧ inv0 m' segs ∧ elems m' = elems m ∧ counted h f m m'.
Proof.
  intros [HS HA Hlen Hh HL] Hlt. destruct (lookup_lt_is_Some_2 (malloc_heaps m) h) as [x Hx]; [lia|]. rewrite (upd_heap_eq _ _ _ _ Hx). eexists. split; [done|].
  split_and!; [split; try done|done|].
  - simpl. by rewrite length_insert.
  - intros h' x'. simpl. destruct (decide (h' = h)) as [->|]; [rewrite list_lookup_insert_eq by lia; intros [= <-]; simpl; by apply HL|].
    rewrite list_lookup_insert_ne by done. apply HL.
  - unfold counted. simpl. rewrite list_fmap_insert. apply list_eq. intros j. destruct (decide (j = h)) as [->|].
    + rewrite list_lookup_insert_eq by (rewrite length_fmap; lia). rewrite list_lookup_alter_eq, list_lookup_fmap, Hx. done.
    + by rewrite list_lookup_insert_ne, list_lookup_alter_ne by done.
Qed.

Lemma elem_free_ok m C pre b post : inv0 m (plug C (pre ++ b :: post)) → b_state b = ELEM_BUSY → b_linked b = false →
  (pre = [] ∧ last_state (c_l C) ≠ Some ELEM_FREE) ∨ (∃ n, pre = [Blk ELEM_FREE 0 n true]) →
  (post = [] ∧ first_state (c_r C) ≠ ELEM_FREE) ∨ (∃ n, post = [Blk ELEM_FREE 0 n true]) →
  let n := sz (pre ++ b :: post) in
  ∃ m', malloc_elem_free (here C + sz pre) m = Some (m', 0) ∧ touched (here C) (here C + n) m m' ∧ counted (c_heap C) (λ c, u32 (c - 1)) m m' ∧
    inv0 m' (plug C [Blk ELEM_FREE 0 n true]).
Proof.
  intros HI Hst Hl Hpre Hpost n. pose proof HI as HI0. rewrite <- plug_after in HI.
  destruct (absorb_next m (after C pre) b post) as (nx & m1 & Hnx & Hm1 & Hw1 & Hown & HI1); [done|done|done|]. rewrite plug_after in HI1. rewrite here_after in *.
  destruct (absorb_prev m1 C pre (Blk (b_state b) (b_pad b) (b_size b + sz post) false)) as (p & m2 & Hp & Hm2 & Hw2 & HI2); [done|done|done|].
  pose proof (inv0_place _ _ _ HI) as [_ ((_ & _ & ? & ?) & [Hh _] & Hlp) Pr [Pb Pb'] _ Pe _]. rewrite here_after in *. simpl in *. pose proof (lseg_sz _ _ _ _ _ _ (proj1 Pr)).
  pose proof (lseg_sz _ _ _ _ _ _ Hlp). assert (Hh8 : (c_heap C < 8)%nat).
  { pose proof (i_heap _ _ HI0) as Hh8. unfold plug in Hh8. apply Forall_app in Hh8 as [_ Hh8]. by apply Forall_cons in Hh8 as [? _]. }
  destruct (count_ok m2 _ (c_heap C) (λ c, u32 (c - 1)) HI2 Hh8) as (m3 & Hm3 & HI3 & HE & Hc3). exists m3. unfold malloc_elem_free.
  destruct (Z.eqb_spec (here C + sz pre) NULL) as [He|_]; [unfold NULL in He; lia|]. rewrite Hh. simpl. rewrite Hst. simpl. rewrite u64_small by (unfold is_u64; lia).
  rewrite Hnx. simpl. rewrite Hm1. simpl. rewrite Hp. simpl. rewrite Hm2. simpl. rewrite Hm3. simpl. unfold n. rewrite sz_app in Hw2 |- *. simpl in *. rewrite Z.add_0_r in *.
  assert (0 <= sz pre).
  { destruct Hpre as [[-> _]|(k & ->)]; simpl; [done|]. pose proof (inv0_place _ _ _ HI0) as [_ ((_ & _ & ? & ?) & _) _ _ _ _ _]. simpl in *. lia. }
  split_and!; [done| |unfold counted in *; rewrite Hc3; by rewrite (proj2 Hw2), (proj2 Hw1)|done].
  intros y Hy. rewrite HE. rewrite (proj1 Hw2) by lia. apply (proj1 Hw1). lia.
Qed.

(** ** Resizing *)

(** A busy block and the free block of [n2] bytes after it, when [s] bytes are asked for. *)
Definition grow (b : blk) (n2 s : Z) : list blk :=
  let new_size := s + MALLOC_ELEM_OVERHEAD in
  let total := b_size b + n2 in
  if total - new_size >=? MIN_DATA_SIZE + MALLOC_ELEM_OVERHEAD
  then [Blk (b_state b) (b_pad b) new_size false; Blk ELEM_FREE 0 (total - new_size) true]
  else [Blk (b_state b) (b_pad b) total false].
Lemma grow_sz b n2 s : sz (grow b n2 s) = b_size b + n2.
Proof. unfold grow. destruct (_ >=? _); simpl; lia. Qed.

(** The three outcomes: the block is large enough, it cannot grow, it grows. *)
Inductive resized (m : mem) (C : ctx) (b : blk) (post : list blk) (s : Z) : mem → Z → Prop :=
  | resize_enough : s + 64 <= b_size b - b_pad b → resized m C b post s m 0
  | resize_full : b_size b - b_pad b < s + 64 → (post = [] ∨ b_size b - b_pad b + sz post < s + 64) → resized m C b post s m (-1)
  | resize_grown m' : b_size b - b_pad b < s + 64 <= b_size b - b_pad b + sz post → within (here C) (here C + (b_size b + sz post)) m m' →
      (∀ y, here C < y < here C + b_size b → elems m' !! y = elems m !! y) → inv0 m' (plug C (grow b (sz post) s)) → resized m C b post s m' 0.

Lemma cut_ok m C b s : inv0 m (plug C [b]) → b_linked b = false → (64 | s) → b_pad b <= s → s + MALLOC_ELEM_OVERHEAD <= b_size b →
  ∃ m', (if u64 (b_size b - (s + MALLOC_ELEM_OVERHEAD)) >=? MIN_DATA_SIZE + MALLOC_ELEM_OVERHEAD then
           let split_pt := RTE_ALIGN_CEIL u64 (u64 (here C + (s + MALLOC_ELEM_OVERHEAD))) RTE_CACHE_LINE_SIZE in
           m ← split_elem (here C) split_pt m; malloc_elem_free_list_insert split_pt m
         else Some m) = Some m' ∧ within (here C) (here C + b_size b) m m' ∧
    (∀ y, here C < y < here C + (s + MALLOC_ELEM_OVERHEAD) → elems m' !! y = elems m !! y) ∧ inv0 m' (plug C (grow b 0 s)).
Proof.
  intros HI Hl Hd Hlo Hhi. pose proof (inv0_place _ _ _ HI) as [_ ((_ & _ & ? & ?) & [Hh _] & _) Pr [Pb Pb'] Pa Pe _]. simpl in *. pose proof (lseg_sz _ _ _ _ _ _ (proj1 Pr)).
  unfold grow, MALLOC_ELEM_OVERHEAD, MALLOC_ELEM_HEADER_LEN, MALLOC_ELEM_TRAILER_LEN, MIN_DATA_SIZE, RTE_CACHE_LINE_SIZE in *. rewrite (Z.add_0_r (b_size b)).
  rewrite (u64_small (b_size b - _)), (u64_small (here C + _)) by (unfold is_u64; lia). rewrite Z.geb_leb. destruct (Z.leb_spec (64 + (64 + 0)) (b_size b - (s + (64 + 0)))).
  - pose proof (align_ceil_bounds 64 6 (here C + (s + (64 + 0)))) as Hb. destruct Hb as [Hb Hm]; [lia|lia|lia|]. set (sp := RTE_ALIGN_CEIL _ _ _) in Hb, Hm. change (RTE_ALIGN_CEIL u64 _ 64) with sp.
    assert (sp = here C + (s + (64 + 0))) as ->.
    { destruct Pa as [p Hp], Hd as [q Hq]. apply Z.div_exact in Hm; [|done]. change (2 ^ 6) with 64 in *. lia. }
    destruct (split_insert_ok m C b (s + (64 + 0))) as (m1 & m' & Hm1 & Hm' & Hw & HI'); [done|done|div64|lia|lia|]. rewrite Hm1. exists m'. split_and!; [done|done| |done].
    intros y Hy. rewrite (insert_frame _ _ _ _ Hm') by lia. destruct (split_frame _ _ _ _ Hm1) as (e & He & Hf). simplify_eq. simpl in *. apply Hf; [lia|lia|].
    rewrite u64_small by (unfold is_u64; lia). lia.
  - exists m. split_and!; [done|by apply within_refl|done|]. by destruct b; simpl in *; subst.
Qed.

Lemma elem_resize_ok m C b post s : inv0 m (plug C (b :: post)) → b_linked b = false → b_pad b <= 64 → b_pad b + 128 <= b_size b →
  (post = [] ∧ first_state (c_r C) ≠ ELEM_FREE) ∨ (∃ n, post = [Blk ELEM_FREE 0 n true]) → (64 | s) → 0 <= s → s + 64 < 2 ^ 64 →
  ∃ m' r, malloc_elem_resize (here C) s m = Some (m', r) ∧ resized m C b post s m' r.
Proof.
  intros HI Hl Hp64 Hmin Hpost Hd Hs Hsm. pose proof (inv0_place _ _ _ HI) as [_ ((Hdb & Hdp & ? & ?) & [Hh _] & Hlp) Pr [Pb Pb'] _ Pe _]. simpl in *.
  pose proof (lseg_sz _ _ _ _ _ _ (proj1 Pr)). pose proof (lseg_sz _ _ _ _ _ _ Hlp). unfold malloc_elem_resize. rewrite Hh. simpl.
  change MALLOC_ELEM_OVERHEAD with 64. rewrite (u64_small (s + 64)), (u64_small (b_size b - b_pad b)), (u64_small (here C + b_size b)) by (unfold is_u64; lia).
  destruct (Z.leb_spec (s + 64) (b_size b - b_pad b)); [eexists _, _; split; [done|by apply resize_enough]|].
  destruct (absorb_next m C b post) as (nx & m1 & Hnx & Hm1 & Hw1 & Hown & HI1); [done|done|done|]. rewrite Hnx. simpl.
  destruct (decide (state nx = ELEM_FREE)) as [Hf|Hf].
  2: { rewrite bool_decide_false by done. simpl. eexists _, _. split; [done|]. apply resize_full; [lia|]. left. destruct Hpost as [[? _]|(n & ->)]; [done|].
       destruct Hlp as (_ & [Hn _] & _). simplify_eq. }
  rewrite bool_decide_true in Hm1 |- * by done. simpl. destruct Hpost as [[-> Hr]|(n & ->)].
  { exfalso. simpl in Pr. destruct (chain_state _ _ _ _ _ _ Pr) as (e & He & Hst). rewrite Z.add_0_r in He. simplify_eq. congruence. }
  destruct Hlp as ((_ & _ & _ & ?) & [Hn _] & _). simplify_eq. simpl in *. rewrite Z.add_0_r in *. rewrite u64_small by (unfold is_u64; lia).
  destruct (Z.ltb_spec (b_size b - b_pad b + n) (s + 64)); [eexists _, _; split; [done|by apply resize_full; simpl; lia]|].
  destruct (elem_free_list_remove (here C + b_size b) m) as [m0|]; [|done]. simpl in Hm1 |- *. rewrite Hm1. simpl.
  pose proof (inv0_place _ _ _ HI1) as [_ (_ & [Hh1 _] & _) _ _ _ _ _]. rewrite Hh1. simpl.
  destruct (cut_ok m1 C (Blk (b_state b) (b_pad b) (b_size b + n) false) s) as (m2 & Hm2 & Hw2 & Hown2 & HI2); [done|done|done|simpl; lia|change MALLOC_ELEM_OVERHEAD with 64; simpl; lia|].
  simpl in *. change MALLOC_ELEM_OVERHEAD with 64 in Hm2. rewrite Hm2. simpl. eexists _, _. split; [done|]. apply resize_grown; [simpl; lia| | |].
  - simpl. rewrite Z.add_0_r. by eapply within_trans.
  - intros y Hy. destruct Hd as [q Hq], Hdb as [q1 Hq1], Hdp as [q2 Hq2]. rewrite Hown2 by (change MALLOC_ELEM_OVERHEAD with 64; lia). apply Hown. lia.
  - simpl. unfold grow in *. simpl in *. rewrite !Z.add_0_r in *. done.
Qed.
