(* ===== verification/MallocHeap.v ===== *)
(** * The heaps as an allocator

    The invariant [inv] of the heaps between calls, the blocks that are handed
    out ([live]), the search for a free element, and what
    [malloc_heap_alloc], [malloc_elem_free], [malloc_elem_resize],
    [malloc_heap_get_stats] and [rte_eal_malloc_heap_init] of
    [malloc_heap.c] and [malloc_elem.c] do to them. *)
From S2P Require Import Prelude Align Malloc MallocFit MallocInv MallocOps.
Open Scope Z_scope.

(** ** The invariant *)

(** A block is free and on a list, or busy with at most one line of padding and at least one of data. *)
Definition block_ok (b : blk) : Prop :=
  (b_state b = ELEM_FREE ∧ b_linked b = true ∧ b_pad b = 0) ∨
  (b_state b = ELEM_BUSY ∧ b_linked b = false ∧ b_pad b <= 64 ∧ b_pad b + 128 <= b_size b).
(** No two free blocks are neighbours. *)
Fixpoint coalesced (bs : list blk) : Prop :=
  match bs with
  | [] => True
  | b :: r => (b_state b = ELEM_FREE → first_state r ≠ ELEM_FREE) ∧ coalesced r
  end.
Definition is_busy (b : blk) : bool := bool_decide (b_state b = ELEM_BUSY).
Definition nbusy (bs : list blk) : Z := Z.of_nat (length (filter (λ b, is_busy b) bs)).

(** Sums over the segments of a heap. *)
Definition heap_sum (f : list blk → Z) (h : nat) (segs : list seg) : Z :=
  foldr (λ s acc, (if decide (s_heap s = h) then f (s_blks s) else 0) + acc) 0 segs.

Record inv (m : mem) (segs : list seg) : Prop := {
  v_inv0 : inv0 m segs;
  v_blocks : Forall (λ s, Forall block_ok (s_blks s) ∧ coalesced (s_blks s)) segs;
  v_counts : ∀ h x, malloc_heaps m !! h = Some x → counts x = (u32 (heap_sum nbusy h segs), u64 (heap_sum sz h segs)) }.

(** The blocks handed out: where their data starts, and its size. *)
Fixpoint live_of (a : Z) (bs : list blk) : list (Z * Z) :=
  match bs with
  | [] => []
  | b :: bs => (if is_busy b then [(a + b_pad b + MALLOC_ELEM_HEADER_LEN, b_size b - b_pad b - MALLOC_ELEM_OVERHEAD)] else []) ++ live_of (a + b_size b) bs
  end.
Definition live (segs : list seg) : list (Z * Z) := segs ≫= λ s, live_of (s_base s) (s_blks s).
Definition live_rest (C : ctx) (n : Z) : list (Z * Z) :=
  live (c_S1 C) ++ (live_of (c_base C) (c_l C) ++ live_of (here C + n) (c_r C)) ++ live (c_S2 C).

Lemma coalesced_app l r : coalesced (l ++ r) ↔ coalesced l ∧ coalesced r ∧ (last_state l = Some ELEM_FREE → first_state r ≠ ELEM_FREE).
Proof.
  induction l as [|b l IH]; simpl; [by split; [intros; split_and!|intros (_ & ? & _)]|]. rewrite IH. unfold last_state. destruct l as [|b' l].
  - simpl. split; [intros (H1 & _ & H2 & _)|intros ((_ & _) & H2 & H3)]; split_and!; try done; [intros [= ?]; auto|intros H; apply H3; by rewrite H].
  - change (last (b :: b' :: l)) with (last (b' :: l)). simpl. tauto.
Qed.
Lemma nbusy_app l r : nbusy (l ++ r) = nbusy l + nbusy r.
Proof. unfold nbusy. rewrite filter_app, length_app. lia. Qed.
Lemma heap_sum_plug f C mid h : (∀ l r, f (l ++ r) = f l + f r) →
  heap_sum f h (plug C mid) = (if decide (c_heap C = h) then f mid else 0) + heap_sum f h (plug C []).
Proof.
  intros Happ. unfold plug. assert (∀ l r, heap_sum f h (l ++ r) = heap_sum f h l + heap_sum f h r) as Hs.
  { intros l r. induction l as [|s l IH]; simpl; [done|]. rewrite IH. lia. }
  rewrite !Hs. simpl. rewrite !Happ. case_decide; lia.
Qed.
Lemma live_of_app a l r : live_of a (l ++ r) = live_of a l ++ live_of (a + sz l) r.
Proof. revert a. induction l as [|b l IH]; intros a; simpl; [by rewrite Z.add_0_r|]. rewrite IH, app_assoc, Z.add_assoc. done. Qed.
Lemma live_plug C mid : live (plug C mid) ≡ₚ live_of (here C) mid ++ live_rest C (sz mid).
Proof.
  unfold live, plug, live_rest. rewrite bind_app. simpl. rewrite !live_of_app. fold (here C). unfold live. solve_Permutation.
Qed.

(** ** Rewriting blocks under [inv] *)

Lemma blocks_plug C mid : Forall (λ s, Forall block_ok (s_blks s) ∧ coalesced (s_blks s)) (plug C mid) ↔
  Forall (λ s, Forall block_ok (s_blks s) ∧ coalesced (s_blks s)) (c_S1 C ++ c_S2 C) ∧ Forall block_ok (c_l C) ∧ Forall block_ok mid ∧ Forall block_ok (c_r C) ∧
  coalesced (c_l C ++ mid ++ c_r C).
Proof. unfold plug. rewrite !Forall_app, Forall_cons. simpl. rewrite !Forall_app. tauto. Qed.

Lemma inv_replace m m' C mid mid' (d : Z) : inv m (plug C mid) → inv0 m' (plug C mid') → sz mid' = sz mid → Forall block_ok mid' → coalesced (c_l C ++ mid' ++ c_r C) →
  nbusy mid' = nbusy mid + d → counted (c_heap C) (λ c, u32 (c + d)) m m' → inv m' (plug C mid').
Proof.
  intros [HI Hb Hc] HI' Hsz Hbk Hco Hnb Hct. split; [done| |].
  - rewrite blocks_plug in Hb |- *. tauto.
  - intros h x' Hx'. unfold counted in Hct. assert (Hlk : (counts <$> malloc_heaps m') !! h = Some (counts x')) by by rewrite list_lookup_fmap, Hx'.
    rewrite Hct in Hlk. rewrite (heap_sum_plug _ C mid'), (heap_sum_plug sz C mid') by (apply nbusy_app || apply sz_app).
    assert (∃ x, malloc_heaps m !! h = Some x) as [x Hx].
    { destruct (decide (h = c_heap C)) as [->|]; [rewrite list_lookup_alter_eq in Hlk|rewrite list_lookup_alter_ne in Hlk by done];
        rewrite list_lookup_fmap in Hlk; (destruct (malloc_heaps m !! _); [eauto|done]). }
    specialize (Hc _ _ Hx). rewrite (heap_sum_plug _ C mid), (heap_sum_plug sz C mid) in Hc by (apply nbusy_app || apply sz_app).
    destruct (decide (h = c_heap C)) as [->|Hne].
    + rewrite list_lookup_alter_eq, list_lookup_fmap, Hx in Hlk. cbn [fmap option_fmap option_map] in Hlk. rewrite Hc in Hlk. apply (inj Some) in Hlk. rewrite <- Hlk. cbn [fst snd]. rewrite !decide_True by done. rewrite Hsz, Hnb. f_equal.
      rewrite u32_add_l. f_equal. lia.
    + rewrite list_lookup_alter_ne, list_lookup_fmap, Hx in Hlk by done. cbn [fmap option_fmap option_map] in Hlk. apply (inj Some) in Hlk. rewrite <- Hlk, Hc. by rewrite !decide_False by done.
Qed.

(** ** Finding blocks *)

Lemma linked_of_locate a bs x n : (x, n) ∈ linked_of a bs → ∃ l b r, bs = l ++ b :: r ∧ x = a + sz l ∧ n = b_size b ∧ b_linked b = true.
Proof.
  revert a. induction bs as [|b bs IH]; intros a; simpl; [intros Hx; by apply not_elem_of_nil in Hx|]. intros Hx. apply elem_of_app in Hx as [Hx|Hx].
  - destruct (b_linked b) eqn:Hl; [|by apply not_elem_of_nil in Hx]. apply list_elem_of_singleton in Hx. injection Hx as -> ->. exists [], b, bs. simpl. split_and!; [done|lia|done|done].
  - apply IH in Hx as (l & b' & r & -> & -> & -> & Hl). exists (b :: l), b', r. simpl. split_and!; [done|lia|done|done].
Qed.
Lemma live_of_locate a bs x n : (x, n) ∈ live_of a bs →
  ∃ l b r, bs = l ++ b :: r ∧ is_busy b = true ∧ x = a + sz l + b_pad b + MALLOC_ELEM_HEADER_LEN ∧ n = b_size b - b_pad b - MALLOC_ELEM_OVERHEAD.
Proof.
  revert a. induction bs as [|b bs IH]; intros a; simpl; [intros Hx; by apply not_elem_of_nil in Hx|]. intros Hx. apply elem_of_app in Hx as [Hx|Hx].
  - destruct (is_busy b) eqn:Hl; [|by apply not_elem_of_nil in Hx]. apply list_elem_of_singleton in Hx. injection Hx as -> ->. exists [], b, bs. simpl. split_and!; [done|done|lia|done].
  - apply IH in Hx as (l & b' & r & -> & Hl & -> & ->). exists (b :: l), b', r. simpl. split_and!; [done|done|lia|done].
Qed.

Lemma linked_locate m segs h a n : inv m segs → (a, n) ∈ linked h segs →
  ∃ C, segs = plug C [Blk ELEM_FREE 0 n true] ∧ here C = a ∧ c_heap C = h.
Proof.
  intros [_ Hb _] Hin. apply list_elem_of_bind in Hin as (s & Hx & Hs). apply list_elem_of_split in Hs as (S1 & S2 & ->). apply Forall_app in Hb as [_ Hb]. apply Forall_cons in Hb as [[Hb _] _].
  case_decide; [|by apply not_elem_of_nil in Hx]. apply linked_of_locate in Hx as (l & b & r & Hbs & -> & -> & Hl). rewrite Hbs in Hb. apply Forall_app in Hb as [_ Hb]. apply Forall_cons in Hb as [Hb _].
  exists (Ctx S1 (s_heap s) (s_ms s) (s_base s) l r S2). split_and!; [|done|done]. unfold plug. simpl. destruct Hb as [(H1 & _ & H2)|(_ & H1 & _)]; [|congruence].
  destruct s, b. simpl in *. by subst.
Qed.
Lemma live_locate segs p n : (p, n) ∈ live segs →
  ∃ C b, segs = plug C [b] ∧ b_state b = ELEM_BUSY ∧ p = here C + b_pad b + MALLOC_ELEM_HEADER_LEN ∧ n = b_size b - b_pad b - MALLOC_ELEM_OVERHEAD.
Proof.
  intros Hin. apply list_elem_of_bind in Hin as (s & Hx & Hs). apply list_elem_of_split in Hs as (S1 & S2 & ->).
  apply live_of_locate in Hx as (l & b & r & Hbs & Hl & -> & ->). exists (Ctx S1 (s_heap s) (s_ms s) (s_base s) l r S2), b.
  split_and!; [|by apply bool_decide_eq_true in Hl|done|done]. unfold plug. simpl. destruct s. simpl in *. by subst.
Qed.
Lemma linked_in_plug C n h : c_heap C = h → (here C, n) ∈ linked h (plug C [Blk ELEM_FREE 0 n true]).
Proof. intros <-. rewrite linked_plug. unfold linked_here. rewrite decide_True by done. simpl. left. Qed.
Lemma free_not_live C n : nbusy [Blk ELEM_FREE 0 n true] = 0 ∧ live_of (here C) [Blk ELEM_FREE 0 n true] = [].
Proof. done. Qed.

(** ** Blocks by address *)

Fixpoint blocks_of (a : Z) (bs : list blk) : list (Z * blk) := match bs with [] => [] | b :: bs => (a, b) :: blocks_of (a + b_size b) bs end.
Definition blocks (segs : list seg) : list (Z * blk) := segs ≫= λ s, blocks_of (s_base s) (s_blks s).
Lemma blocks_of_app a l r : blocks_of a (l ++ r) = blocks_of a l ++ blocks_of (a + sz l) r.
Proof. revert a. induction l as [|b l IH]; intros a; simpl; [by rewrite Z.add_0_r|]. rewrite IH, Z.add_assoc. done. Qed.
Lemma blocks_plug_perm C mid : blocks (plug C mid) ≡ₚ blocks_of (here C) mid ++ blocks (c_S1 C) ++ (blocks_of (c_base C) (c_l C) ++ blocks_of (here C + sz mid) (c_r C)) ++ blocks (c_S2 C).
Proof. unfold blocks, plug. rewrite bind_app. simpl. rewrite !blocks_of_app. fold (here C). solve_Permutation. Qed.
(** Blocks elsewhere stay when the blocks at a place are rewritten. *)
Lemma blocks_keep C mid mid' a b : sz mid' = sz mid → (a, b) ∈ blocks (plug C mid) → (a, b) ∉ blocks_of (here C) mid → (a, b) ∈ blocks (plug C mid').
Proof. intros Hsz. rewrite !blocks_plug_perm, Hsz, !elem_of_app. tauto. Qed.
Lemma blocks_of_split a bs x b : (x, b) ∈ blocks_of a bs → ∃ l r, bs = l ++ b :: r ∧ x = a + sz l.
Proof.
  revert a. induction bs as [|b' bs IH]; intros a; simpl; [by intros Hx%not_elem_of_nil|]. intros Hx. apply elem_of_cons in Hx as [[= -> ->]|Hx].
  - exists [], bs. simpl. split; [done|lia].
  - apply IH in Hx as (l & r & -> & ->). exists (b' :: l), r. simpl. split; [done|lia].
Qed.
Lemma blocks_locate segs a b : (a, b) ∈ blocks segs ↔ ∃ C, segs = plug C [b] ∧ here C = a.
Proof.
  split.
  - intros Hin. apply list_elem_of_bind in Hin as (s & Hx & Hs). apply list_elem_of_split in Hs as (S1 & S2 & ->). apply blocks_of_split in Hx as (l & r & Hbs & ->).
    exists (Ctx S1 (s_heap s) (s_ms s) (s_base s) l r S2). split; [|done]. unfold plug. simpl. destruct s. simpl in *. by subst.
  - intros (C & -> & <-). rewrite blocks_plug_perm. left.
Qed.
Lemma live_blocks segs p n : (p, n) ∈ live segs ↔
  ∃ a b, (a, b) ∈ blocks segs ∧ b_state b = ELEM_BUSY ∧ p = a + b_pad b + MALLOC_ELEM_HEADER_LEN ∧ n = b_size b - b_pad b - MALLOC_ELEM_OVERHEAD.
Proof.
  split.
  - intros Hin. destruct (live_locate _ _ _ Hin) as (C & b & -> & Hb & -> & ->). exists (here C), b. split_and!; try done. rewrite blocks_plug_perm. left.
  - intros (a & b & Hin & Hb & -> & ->). apply blocks_locate in Hin as (C & -> & <-). rewrite live_plug. simpl. unfold is_busy. rewrite Hb. left.
Qed.

(** The free neighbours of a block. *)
Lemma neighbours m C b : inv m (plug C [b]) → ∃ C' pre post, (∀ mid, plug C mid = plug C' (pre ++ mid ++ post)) ∧ here C = here C' + sz pre ∧ c_heap C' = c_heap C ∧
  ((pre = [] ∧ last_state (c_l C') ≠ Some ELEM_FREE) ∨ (∃ n, pre = [Blk ELEM_FREE 0 n true])) ∧
  ((post = [] ∧ first_state (c_r C') ≠ ELEM_FREE) ∨ (∃ n, post = [Blk ELEM_FREE 0 n true])) ∧
  last_state (c_l C') ≠ Some ELEM_FREE ∧ first_state (c_r C') ≠ ELEM_FREE.
Proof.
  intros [_ Hb _]. apply blocks_plug in Hb as (_ & Hl & _ & Hr & Hco). rewrite coalesced_app in Hco. destruct Hco as (Hcl & [_ Hcr] & _). simpl in Hcr.
  assert (∃ l pre, c_l C = l ++ pre ∧ ((pre = [] ∧ last_state l ≠ Some ELEM_FREE) ∨ (∃ n, pre = [Blk ELEM_FREE 0 n true])) ∧ last_state l ≠ Some ELEM_FREE) as (l & pre & Hl' & Hpre & Hls).
  { destruct (c_l C) as [|b0 l _] using rev_ind; [by exists [], []; split_and!; [|left|]|]. apply Forall_app in Hl as [_ Hl]. apply Forall_cons in Hl as [Hb0 _].
    rewrite coalesced_app in Hcl. destruct Hcl as (_ & _ & Hcl). simpl in Hcl. destruct Hb0 as [(H1 & H2 & H3)|(H1 & _)].
    - exists l, [b0]. split_and!; [done| |naive_solver]. right. exists (b_size b0). destruct b0. simpl in *. by subst.
    - exists (l ++ [b0]), []. unfold last_state. rewrite last_snoc, app_nil_r. simpl. rewrite H1. split_and!; [done|by left|done]. }
  assert (∃ r post, c_r C = post ++ r ∧ ((post = [] ∧ first_state r ≠ ELEM_FREE) ∨ (∃ n, post = [Blk ELEM_FREE 0 n true])) ∧ first_state r ≠ ELEM_FREE) as (r & post & Hr' & Hpost & Hrs).
  { destruct (c_r C) as [|b2 r]; [by exists [], []; split_and!; [|left|]|]. apply Forall_cons in Hr as [Hb2 _]. simpl in Hcr. destruct Hcr as [Hcr _]. destruct Hb2 as [(H1 & H2 & H3)|(H1 & _)].
    - exists r, [b2]. split_and!; [done| |auto]. right. exists (b_size b2). destruct b2. simpl in *. by subst.
    - exists (b2 :: r), []. simpl. rewrite H1. split_and!; [done|by left|done]. }
  exists (Ctx (c_S1 C) (c_heap C) (c_ms C) (c_base C) l r (c_S2 C)), pre, post. split_and!; try done.
  - intros mid. unfold plug. simpl. rewrite Hl', Hr', <- !app_assoc. done.
  - unfold here. rewrite Hl', sz_app. simpl. lia.
Qed.

(** ** Calls under the invariant *)

(** What never changes of the segments: their heap, their number and their place. *)
Definition layout (segs : list seg) : list (nat * nat * Z * Z) := (λ s, (s_heap s, s_ms s, s_base s, s_end s)) <$> segs.
Lemma layout_plug C mid mid' : sz mid' = sz mid → layout (plug C mid') = layout (plug C mid).
Proof. intros Hsz. unfold layout, plug. rewrite !fmap_app, !fmap_cons. unfold s_end. simpl. rewrite !sz_app, Hsz. done. Qed.

(** The data of the blocks that are handed out is as it was. *)
Definition keeps (segs : list seg) (m m' : mem) : Prop := ∀ p n y, (p, n) ∈ live segs → p <= y < p + n → elems m' !! y = elems m !! y.

Lemma live_of_range E h i p a l q k : lseg E h i p a l → (q, k) ∈ live_of a l → a + 64 <= q ∧ q + k <= a + sz l.
Proof.
  revert p a. induction l as [|b l IH]; intros p a; simpl; [intros _ Hx; by apply not_elem_of_nil in Hx|]. intros ((_ & _ & ? & ?) & _ & Hl) Hx.
  pose proof (lseg_sz _ _ _ _ _ _ Hl). apply elem_of_app in Hx as [Hx|Hx]; [|apply (IH _ _ Hl) in Hx; lia].
  destruct (is_busy b); [|by apply not_elem_of_nil in Hx]. apply list_elem_of_singleton in Hx. injection Hx as -> ->.
  unfold MALLOC_ELEM_OVERHEAD, MALLOC_ELEM_HEADER_LEN, MALLOC_ELEM_TRAILER_LEN. lia.
Qed.
Lemma live_range E segs q k : Forall (seg_ok E) segs → (q, k) ∈ live segs → ∃ s, s ∈ segs ∧ s_base s + 64 <= q ∧ q + k <= s_end s.
Proof.
  intros HS Hx. apply list_elem_of_bind in Hx as (s & Hx & Hs). rewrite Forall_forall in HS. pose proof (HS s Hs) as [[Hl _] _ _ _].
  apply (live_of_range _ _ _ _ _ _ _ _ Hl) in Hx. eauto.
Qed.
(** The other blocks are not at the place. *)
Lemma live_outside m C mid q k y : inv0 m (plug C mid) → (q, k) ∈ live_rest C (sz mid) → q <= y < q + k → y < here C ∨ here C + sz mid < y.
Proof.
  intros HI Hq Hy. pose proof (inv0_place _ _ _ HI) as [Pl Pm [Pr _] _ _ _ _]. destruct HI as [HS HA _ _ _].
  pose proof (lseg_sz _ _ _ _ _ _ Pl). pose proof (lseg_sz _ _ _ _ _ _ Pm). pose proof (lseg_sz _ _ _ _ _ _ Pr).
  unfold plug, spans in *. rewrite fmap_app, fmap_cons in HA. apply Forall_app in HS as [HS1 HS2]. apply Forall_cons in HS2 as [_ HS2].
  unfold live_rest in Hq. rewrite !elem_of_app in Hq.
  assert (∀ s, s ∈ c_S1 C ∨ s ∈ c_S2 C → s_base s + 64 <= q → q + k <= s_end s → y < here C ∨ here C + sz mid < y) as Hother.
  { intros s Hs ? ?. eapply (apart_mid _ _ _ (s_base s, s_end s)) in HA; [|destruct Hs; [left|right]; apply list_elem_of_fmap; eauto].
    unfold s_end, here in *. simpl in HA. rewrite !sz_app in HA. lia. }
  destruct Hq as [Hq|[[Hq|Hq]|Hq]].
  - destruct (live_range _ _ _ _ HS1 Hq) as (s & ? & ? & ?). eauto.
  - apply (live_of_range _ _ _ _ _ _ _ _ Pl) in Hq. unfold here. lia.
  - apply (live_of_range _ _ _ _ _ _ _ _ Pr) in Hq. unfold here in *. lia.
  - destruct (live_range _ _ _ _ HS2 Hq) as (s & ? & ? & ?). eauto.
Qed.

(** The header of a block from its data. *)
Lemma from_data_ok m C b : inv m (plug C [b]) → b_state b = ELEM_BUSY → malloc_elem_from_data (here C + b_pad b + MALLOC_ELEM_HEADER_LEN) m = Some (here C).
Proof.
  intros [HI _ _] Hb. pose proof (inv0_place _ _ _ HI) as [_ ((_ & _ & ? & ?) & [Hh Hpad] & _) Pr [Pb Pb'] _ Pe _]. simpl in *. pose proof (lseg_sz _ _ _ _ _ _ (proj1 Pr)).
  unfold malloc_elem_from_data, MALLOC_ELEM_HEADER_LEN, NULL. rewrite Z.add_simpl_r, u64_small by (unfold is_u64; lia). tests; try lia.
  destruct (decide (b_pad b = 0)) as [Hp|Hp].
  - rewrite Hp, Z.add_0_r, Hh. simpl. rewrite Hb. done.
  - destruct Hpad as (e & He & Hst & Hpd); [done|lia|]. rewrite He. simpl. rewrite Hst, Hpd. simpl. rewrite Z.add_simpl_r, u64_small by (unfold is_u64; lia). done.
Qed.

Lemma busy_ok b : block_ok b → b_state b = ELEM_BUSY → b_linked b = false ∧ b_pad b <= 64 ∧ b_pad b + 128 <= b_size b.
Proof. intros [(? & _)|(_ & ?)]; [congruence|done]. Qed.
Lemma inv_block m C b : inv m (plug C [b]) → block_ok b.
Proof. intros [_ Hb _]. apply blocks_plug in Hb as (_ & _ & Hb & _). by apply Forall_cons in Hb as [? _]. Qed.
Lemma busy_count b : b_state b = ELEM_BUSY → nbusy [b] = 1.
Proof. intros H. unfold nbusy, is_busy. rewrite filter_cons_True by (rewrite H; done). done. Qed.
Lemma free_count_0 bs : Forall (λ b, b_state b = ELEM_FREE) bs → nbusy bs = 0.
Proof.
  intros H. induction H as [|b bs Hb _ IH]; [done|]. unfold nbusy in *. rewrite filter_cons_False by (unfold is_busy; rewrite Hb; intros []). done.
Qed.
Lemma free_live a bs : Forall (λ b, b_state b = ELEM_FREE) bs → live_of a bs = [].
Proof. intros H. revert a. induction H as [|b bs Hb _ IH]; intros a; [done|]. simpl. unfold is_busy. rewrite Hb. by apply IH. Qed.

Lemma free_inv m segs p n : inv m segs → (p, n) ∈ live segs →
  ∃ elem m' segs', malloc_elem_from_data p m = Some elem ∧ malloc_elem_free elem m = Some (m', 0) ∧ inv m' segs' ∧
    layout segs' = layout segs ∧ live segs ≡ₚ (p, n) :: live segs' ∧ keeps segs' m m'.
Proof.
  intros HI Hin. apply live_locate in Hin as (C & b & -> & Hb & -> & ->). pose proof (from_data_ok _ _ _ HI Hb) as Hfd.
  destruct (busy_ok b (inv_block _ _ _ HI) Hb) as (Hul & Hp64 & Hmin). destruct (neighbours _ _ _ HI) as (C' & pre & post & Hplug & Hhere & Hheap & Hpre & Hpost & Hls & Hrs).
  pose proof HI as HI0. rewrite (Hplug [b]) in HI0. destruct (elem_free_ok m C' pre b post (v_inv0 _ _ HI0) Hb Hul Hpre Hpost) as (m' & Hm' & Ht & Hc & HI').
  rewrite <- Hhere in Hm'. set (N := sz (pre ++ b :: post)) in *. set (fb := Blk ELEM_FREE 0 N true) in *.
  assert (Hsz : sz [fb] = sz (pre ++ [b] ++ post)) by (simpl; unfold N; simpl; lia).
  assert (Fpre : Forall (λ b, b_state b = ELEM_FREE) pre) by (destruct Hpre as [[-> _]|(k & ->)]; repeat constructor).
  assert (Fpost : Forall (λ b, b_state b = ELEM_FREE) post) by (destruct Hpost as [[-> _]|(k & ->)]; repeat constructor).
  exists (here C), m', (plug C' [fb]). split_and!; [done|done| | | |].
  - eapply (inv_replace m m' C' _ _ (-1)); [exact HI0|done|done|by repeat constructor; left| | |done].
    + pose proof (v_blocks _ _ HI0) as Hbk. apply blocks_plug in Hbk as (_ & _ & _ & _ & Hco). rewrite coalesced_app in Hco. destruct Hco as (? & Hco & _).
      rewrite coalesced_app in Hco. destruct Hco as (_ & ? & _). rewrite coalesced_app. simpl. split_and!; try done.
    + rewrite !nbusy_app, (free_count_0 pre), (free_count_0 post), (free_count_0 [fb]), busy_count by (done || by repeat constructor). lia.
  - rewrite (Hplug [b]). by apply layout_plug.
  - rewrite (Hplug [b]), !live_plug, Hsz. rewrite !live_of_app, (free_live _ pre), (free_live _ post) by done. simpl.
    unfold is_busy. rewrite Hb. simpl. by rewrite Hhere.
  - intros q k y Hq Hy. apply Ht. rewrite live_plug in Hq. simpl in Hq. rewrite Z.add_0_r in Hq.
    eapply (live_outside m' C' [fb]) in Hy; [|done|by simpl; rewrite Z.add_0_r]. simpl in Hy. lia.
Qed.

Lemma counted_same h m m' : counts <$> malloc_heaps m' = counts <$> malloc_heaps m → (∀ c, c ∈ counts <$> malloc_heaps m → u32 (c.1) = c.1) → counted h (λ c, u32 (c + 0)) m m'.
Proof.
  intros Heq Hu. unfold counted. rewrite Heq. apply list_eq. intros j. destruct (decide (j = h)) as [->|]; [|by rewrite list_lookup_alter_ne].
  rewrite list_lookup_alter_eq. destruct ((counts <$> malloc_heaps m) !! h) as [[c t]|] eqn:Hj; [|done]. simpl. rewrite Z.add_0_r.
  apply list_elem_of_lookup_2, Hu in Hj. simpl in Hj. by rewrite Hj.
Qed.
Lemma counts_u32 m segs c : inv m segs → c ∈ counts <$> malloc_heaps m → u32 c.1 = c.1.
Proof.
  intros [_ _ Hc] Hin. apply list_elem_of_fmap in Hin as (x & -> & Hx). apply list_elem_of_lookup_1 in Hx as [h Hx]. rewrite (Hc _ _ Hx). apply u32_idemp.
Qed.

Lemma grow_facts b n2 s : geom b → (64 | s) → block_ok b → b_state b = ELEM_BUSY → b_size b - b_pad b < s + 64 <= b_size b - b_pad b + n2 →
  Forall block_ok (grow b n2 s) ∧ nbusy (grow b n2 s) = 1 ∧
  ∃ k tl, grow b n2 s = Blk ELEM_BUSY (b_pad b) (k + b_pad b + 64) false :: tl ∧ Forall (λ b, b_state b = ELEM_FREE) tl ∧ Forall block_ok tl ∧
    b_size b - b_pad b - 64 <= k ∧ s <= k + b_pad b ∧ (∀ r, coalesced r → first_state r ≠ ELEM_FREE → coalesced (tl ++ r)).
Proof.
  intros ([q1 Hq1] & [q2 Hq2] & Hp0 & _) [q3 Hq3] Hok Hb Hs. destruct (busy_ok b Hok Hb) as (Hul & Hp64 & Hmin). unfold grow. change MALLOC_ELEM_OVERHEAD with 64. change MIN_DATA_SIZE with 64. rewrite Z.geb_leb.
  destruct (Z.leb_spec (64 + 64) (b_size b + n2 - (s + 64))).
  - rewrite Hb. split_and!; [rewrite !Forall_cons; split_and!; [right; split_and!; simpl; done || lia|by left|done]|done|]. exists (s - b_pad b), [Blk ELEM_FREE 0 (b_size b + n2 - (s + 64)) true].
    split_and!; [do 2 f_equal; lia|by repeat constructor|by rewrite Forall_cons; split; [left|constructor]|lia|lia|by intros r Hr Hf].
  - rewrite Hb. split_and!; [rewrite Forall_cons; split; [right; split_and!; simpl; done || lia|done]|done|]. exists (b_size b + n2 - b_pad b - 64), [].
    split_and!; [do 2 f_equal; lia|done|done|lia|lia|done].
Qed.

(** A block that grows keeps its address; without padding it gets the size that was asked for. *)
Lemma resize_inv m segs p n s : inv m segs → (p, n) ∈ live segs → (64 | s) → 0 <= s → s + 64 < 2 ^ 64 →
  ∃ elem m' r segs' n', malloc_elem_from_data p m = Some elem ∧ 0 <= p - 64 - elem <= 64 ∧ malloc_elem_resize elem s m = Some (m', r) ∧ inv m' segs' ∧ layout segs' = layout segs ∧
    (∃ others, live segs ≡ₚ (p, n) :: others ∧ live segs' ≡ₚ (p, n') :: others) ∧ keeps segs m m' ∧
    ((r = 0 ∧ n <= n' ∧ s <= n' + (p - 64 - elem)) ∨ (r = -1 ∧ n < s ∧ m' = m ∧ segs' = segs ∧ n' = n)).
Proof.
  intros HI Hin Hd Hs Hsm. apply live_locate in Hin as (C & b & -> & Hb & -> & ->). pose proof (from_data_ok _ _ _ HI Hb) as Hfd. pose proof (inv_block _ _ _ HI) as Hok.
  destruct (busy_ok b Hok Hb) as (Hul & Hp64 & Hmin). destruct (neighbours _ _ _ HI) as (C' & pre & post & Hplug & Hhere & Hheap & Hpre & Hpost & Hls & Hrs).
  pose proof HI as HI0. rewrite (Hplug [b]) in HI0. rewrite <- plug_after in HI0. assert (Hh' : here (after C' pre) = here C) by (rewrite here_after; lia).
  destruct (elem_resize_ok m (after C' pre) b post s (v_inv0 _ _ HI0) Hul Hp64 Hmin) as (m' & r & Hm' & Hr); [done|done|done|done|]. rewrite Hh' in Hm'.
  set (D := after C' pre) in *. pose proof (inv0_place _ _ _ (v_inv0 _ _ HI0)) as [_ (Hgeom & _ & Hlp) Pr _ _ _ _]. simpl in Hlp, Pr. destruct (id Hgeom) as (_ & _ & ? & ?).
  pose proof (lseg_sz _ _ _ _ _ _ Hlp). assert (HP : plug C [b] = plug D (b :: post)) by (unfold D; rewrite plug_after; apply (Hplug [b])). rewrite HP in *.
  assert (Fpost : Forall (λ b, b_state b = ELEM_FREE) post) by (destruct Hpost as [[-> _]|(k & ->)]; repeat constructor).
  assert (Hlive : ∃ others, live (plug D (b :: post)) ≡ₚ (here C + b_pad b + 64, b_size b - b_pad b - 64) :: others ∧ others = live_rest D (sz (b :: post))).
  { eexists. split; [|done]. rewrite live_plug. simpl. rewrite (free_live _ post) by done. unfold is_busy. rewrite Hb. simpl. by rewrite Hh'. }
  destruct Hlive as (others & Hlive & Hoth). unfold MALLOC_ELEM_HEADER_LEN in *. change MALLOC_ELEM_OVERHEAD with 64 in *. exists (here C), m', r. destruct Hr as [Hle|Hlt Hno|m' Hsz Hw Hown HI'].
  - exists (plug D (b :: post)), (b_size b - b_pad b - 64). split_and!; [done|lia|lia|done|done|done|by exists others|done|left; lia].
  - exists (plug D (b :: post)), (b_size b - b_pad b - 64). split_and!; [done|lia|lia|done|done|done|by exists others|done|right; split_and!; [done|lia|done..]].
  - destruct (grow_facts b (sz post) s Hgeom Hd Hok Hb Hsz) as (Fok & Hnb & k & tl & Hg & Ftl & Oktl & Hk1 & Hk2 & Htl).
    assert (Hszg : sz (grow b (sz post) s) = sz (b :: post)) by (rewrite grow_sz; simpl; lia).
    exists (plug D (grow b (sz post) s)), k. split_and!; [done|lia|lia|done| |by apply layout_plug| | |].
    + eapply (inv_replace m m' D _ _ 0); [exact HI0|done|done|done| | |apply counted_same; [apply Hw|intros c; by eapply counts_u32]].
      * pose proof (v_blocks _ _ HI0) as Hbk. apply blocks_plug in Hbk as (_ & _ & _ & _ & Hco). rewrite coalesced_app in Hco. destruct Hco as (Hcl & Hco & _).
        change (b :: post) with ([b] ++ post) in Hco. rewrite <- app_assoc, !coalesced_app in Hco. destruct Hco as (_ & (_ & Hcr & _) & _).
        rewrite coalesced_app. split_and!; [done| |by rewrite Hg]. rewrite Hg. simpl. split; [done|]. by apply Htl.
      * rewrite Hnb. change (b :: post) with ([b] ++ post). rewrite nbusy_app, busy_count, (free_count_0 post) by done. done.
    + exists others. split; [done|]. rewrite live_plug, Hszg, <- Hoth, Hg. simpl. rewrite (free_live _ tl) by done. rewrite Hh'. change MALLOC_ELEM_OVERHEAD with 64. change MALLOC_ELEM_HEADER_LEN with 64. replace (k + b_pad b + 64 - b_pad b - 64) with k by lia. done.
    + intros q j y Hq Hy. rewrite Hlive, elem_of_cons in Hq. destruct Hq as [[= -> ->]|Hq].
      * apply Hown. rewrite Hh'. lia.
      * apply (proj1 Hw). rewrite Hoth in Hq. pose proof (live_outside m D (b :: post) q j y (v_inv0 _ _ HI0) Hq Hy). simpl in *. lia.
    + left. split_and!; [done|lia|lia].
Qed.
