(* ===== verification/MallocAlloc.v ===== *)
(** * Allocation from a heap

    The search through the free lists and [malloc_heap_alloc] of
    [malloc_heap.c]: a call returns a new block exactly if a free block of the
    heap has room for it, and the initial heaps that
    [rte_eal_malloc_heap_init] builds. *)
From S2P Require Import Prelude Align Malloc MallocFit MallocInv MallocOps MallocHeap.
Open Scope Z_scope.

(** ** Carving a block *)

Lemma carve_facts a n s al bd d : (64 | a) → (64 | n) → request s al bd a → fits a n s al bd d →
  Forall block_ok (carve a n s d) ∧ nbusy (carve a n s d) = 1 ∧ (∃ k, live_of a (carve a n s d) = [(d, k)] ∧ s <= k <= s + 128) ∧
  ∀ l r, coalesced l → coalesced r → last_state l ≠ Some ELEM_FREE → first_state r ≠ ELEM_FREE → coalesced (l ++ carve a n s d ++ r).
Proof.
  intros [q1 Hq1] [q2 Hq2] [Hs0 [q3 Hq3] (j & Hj & Hal) _ _] (Hdal & Hlo & Hhi & _). assert ((64 | d)) as [q4 Hq4].
  { transitivity al; [|done]. rewrite Hal. change 64 with (2 ^ 6). apply pow2_divide; [lia|lia|apply Z.pow_le_mono_r; lia]. }
  unfold carve. change MALLOC_ELEM_OVERHEAD with 64. unfold MALLOC_ELEM_HEADER_LEN in *. change MIN_DATA_SIZE with 64. set (old := d - 64 - a). set (t := n - old - s - 64).
  assert (Hbk : (back t = [] ∧ t <= 128) ∨ (back t = [Blk ELEM_FREE 0 t true] ∧ 128 < t)).
  { unfold back. change MALLOC_ELEM_OVERHEAD with 64. change MIN_DATA_SIZE with 64. destruct (Z.gtb_spec t (64 + 64)); [right|left]; (split; [done|lia]). }
  assert (∀ l r, coalesced l → coalesced r → last_state l ≠ Some ELEM_FREE → first_state r ≠ ELEM_FREE → coalesced (back t ++ r)) as Hbc.
  { intros l r _ Hr _ Hf. destruct Hbk as [[-> _]|[-> _]]; [done|]. by split. }
  destruct (Z.ltb_spec old (64 + 64)).
  - split_and!.
    + rewrite Forall_cons. split; [right; split_and!; simpl; try done; try (unfold old; lia); destruct Hbk as [[-> ?]|[-> ?]]; simpl; unfold t, old in *; lia|]. destruct Hbk as [[-> _]|[-> _]]; [done|]. rewrite Forall_cons. by split; [left|].
    + destruct Hbk as [[-> _]|[-> _]]; done.
    + exists (n - sz (back t) - old - 64). simpl. change MALLOC_ELEM_OVERHEAD with 64. change MALLOC_ELEM_HEADER_LEN with 64. split; [|destruct Hbk as [[-> ?]|[-> ?]]; simpl; unfold t, old in *; lia].
      replace (a + old + 64) with d by (unfold old; lia). by destruct Hbk as [[-> _]|[-> _]].
    + intros l r Hl Hr Hll Hfr. rewrite coalesced_app. split_and!; [done| |done]. simpl. split; [done|]. by apply (Hbc l).
  - split_and!.
    + rewrite !Forall_cons. split_and!; [by left|right; split_and!; simpl; try done; destruct Hbk as [[-> ?]|[-> ?]]; simpl; unfold t, old in *; lia|]. destruct Hbk as [[-> _]|[-> _]]; [done|]. rewrite Forall_cons. by split; [left|].
    + destruct Hbk as [[-> _]|[-> _]]; done.
    + exists (n - sz (back t) - old - 64). simpl. change MALLOC_ELEM_OVERHEAD with 64. change MALLOC_ELEM_HEADER_LEN with 64. split; [|destruct Hbk as [[-> ?]|[-> ?]]; simpl; unfold t, old in *; lia].
      replace (a + old + 0 + 64) with d by (unfold old; lia). rewrite Z.sub_0_r. by destruct Hbk as [[-> _]|[-> _]].
    + intros l r Hl Hr Hll Hfr. rewrite coalesced_app. split_and!; [done| |by intros ?]. simpl. split_and!; [done|done|]. by apply (Hbc l).
Qed.

Lemma alloc_at m C n s al bd d : inv m (plug C [Blk ELEM_FREE 0 n true]) → request s al bd (here C) →
  start_spec (here C) n s al bd = d - MALLOC_ELEM_HEADER_LEN → fits (here C) n s al bd d →
  ∃ m1 m' k, malloc_elem_alloc (here C) s al bd m = Some (m1, d - MALLOC_ELEM_HEADER_LEN) ∧
    upd_heap (c_heap C) (λ h, h <| alloc_count := u32 (alloc_count h + 1) |>) m1 = Some m' ∧
    let segs' := plug C (carve (here C) n s d) in
    inv m' segs' ∧ layout segs' = layout (plug C [Blk ELEM_FREE 0 n true]) ∧ live segs' ≡ₚ (d, k) :: live (plug C [Blk ELEM_FREE 0 n true]) ∧ s <= k <= s + 128 ∧
    keeps (plug C [Blk ELEM_FREE 0 n true]) m m'.
Proof.
  intros HI Hrq Hst Hfit. destruct (elem_alloc_ok m C n s al bd d (v_inv0 _ _ HI) Hrq Hst Hfit) as (m1 & Hm1 & Hw & HI1).
  pose proof (inv0_place _ _ _ (v_inv0 _ _ HI)) as [_ ((Hdn & _) & _ & _) _ _ Pa _ _]. simpl in Hdn.
  destruct (carve_facts _ _ _ _ _ _ Pa Hdn Hrq Hfit) as (Hok & Hnb & (k & Hk & Hks) & Hco).
  assert (Hh8 : (c_heap C < 8)%nat).
  { pose proof (i_heap _ _ HI1) as Hh8. unfold plug in Hh8. apply Forall_app in Hh8 as [_ Hh8]. by apply Forall_cons in Hh8 as [? _]. }
  destruct (count_ok m1 _ (c_heap C) (λ c, u32 (c + 1)) HI1 Hh8) as (m' & Hm' & HI' & HE & Hc). exists m1, m', k.
  assert (Hsz : sz (carve (here C) n s d) = sz [Blk ELEM_FREE 0 n true]) by (rewrite carve_sz; simpl; lia). split; [done|]. split; [done|]. cbv zeta. split_and!; [|by apply layout_plug| |lia|lia|].
  - eapply (inv_replace m m' C [Blk ELEM_FREE 0 n true]); [done|done|done|done| |rewrite Hnb; done|unfold counted in *; by rewrite Hc, (proj2 Hw)].
    pose proof (v_blocks _ _ HI) as Hbk. apply blocks_plug in Hbk as (_ & _ & _ & _ & Hcc). rewrite coalesced_app in Hcc. simpl in Hcc. destruct Hcc as (? & (Hcf & ?) & Hcl). apply Hco; [done|done| |by apply Hcf]. intros Hl. by apply Hcl.
  - rewrite !live_plug, Hsz, Hk. done.
  - intros q j y Hq Hy. rewrite HE. apply (proj1 Hw). rewrite live_plug in Hq. simpl in Hq. rewrite Z.add_0_r in Hq.
    pose proof (live_outside m C [Blk ELEM_FREE 0 n true] q j y (v_inv0 _ _ HI)) as Ho. simpl in Ho. rewrite Z.add_0_r in Ho. auto.
Qed.

(** ** The search *)

Section search.
Context (memseg : list rte_memseg) (m : mem) (s flags al bd : Z).

Definition hold (a : Z) : bool := match elems m !! a with Some e => malloc_elem_can_hold a e s al bd | None => false end.
(** The pages of segment [i] suit the flags. *)
Definition page_fits (i : nat) : bool := match memseg !! i with Some x => negb (check_hugepage_sz flags (hugepage_sz x) =? 0) | None => false end.
Definition hint : bool := negb (Z.land flags RTE_MEMZONE_SIZE_HINT_ONLY =? 0).
Definition page (a : Z) : bool := match elems m !! a with Some e => page_fits (ms e) | None => false end.
Definition listed (a : Z) : Prop := a ≠ NULL ∧ ∃ e x, elems m !! a = Some e ∧ memseg !! ms e = Some x.

Definition scanned (l : list Z) (alt r alt' : Z) : Prop :=
  (r ∈ l ∧ hold r = true ∧ page r = true) ∨
  (r = NULL ∧ (∀ a, a ∈ l → hold a = true → page a = false) ∧
   ((alt' = alt ∧ (alt ≠ NULL ∨ ∀ a, a ∈ l → hold a = false)) ∨ (alt' ∈ l ∧ hold alt' = true))).

Lemma scan_list_ok l alt : Forall listed l → ∃ r alt', scan_list memseg m s flags al bd l alt = Some (r, alt') ∧ scanned l alt r alt'.
Proof.
  intros Hl. revert alt. induction Hl as [|a l (Ha & e & x & He & Hx) Hl IH]; intros alt; simpl.
  - eexists _, _. split; [done|]. right. split_and!; [done|by intros a Ha%not_elem_of_nil|]. left. split; [done|]. right. by intros a Ha%not_elem_of_nil.
  - rewrite He. simpl. assert (Hh : hold a = malloc_elem_can_hold a e s al bd) by (unfold hold; by rewrite He).
    assert (Hp : page a = negb (check_hugepage_sz flags (hugepage_sz x) =? 0)) by (unfold page, page_fits; by rewrite He, Hx).
    rewrite <- Hh. destruct (hold a) eqn:Hha; [rewrite Hx; simpl; rewrite <- Hp; destruct (page a) eqn:Hpa|].
    + eexists _, _. split; [done|]. left. split_and!; [left|done|done].
    + destruct (IH (if alt =? NULL then a else alt)) as (r & alt' & -> & Hs). exists r, alt'. split; [done|]. destruct Hs as [(? & ? & ?)|(-> & Hno & Halt)]; [left; split_and!; [by right|done|done]|right].
      split_and!; [done|intros b Hb Hhb; apply elem_of_cons in Hb as [->|Hb]; [done|by apply Hno]|]. destruct (Z.eqb_spec alt NULL) as [Hn|Hn].
      * right. destruct Halt as [[-> _]|[? ?]]; [by split; [left|]|by split; [right|]].
      * destruct Halt as [[-> _]|[? ?]]; [left; by split; [|left]|right; by split; [right|]].
    + destruct (IH alt) as (r & alt' & -> & Hs). exists r, alt'. split; [done|]. destruct Hs as [(? & ? & ?)|(-> & Hno & Halt)]; [left; split_and!; [by right|done|done]|right].
      split_and!; [done|intros b Hb Hhb; apply elem_of_cons in Hb as [->|Hb]; [congruence|by apply Hno]|]. destruct Halt as [[-> Hor]|[? ?]]; [left|right; by split; [right|]].
      split; [done|]. destruct Hor as [|Hn]; [by left|right]. intros b Hb. apply elem_of_cons in Hb as [->|Hb]; [done|by apply Hn].
Qed.

Lemma scan_lists_ok ls alt : Forall (Forall listed) ls → ∃ r alt', scan_lists memseg m s flags al bd ls alt = Some (r, alt') ∧ scanned (concat ls) alt r alt'.
Proof.
  intros Hl. revert alt. induction Hl as [|l ls Hl Hls IH]; intros alt; simpl.
  - eexists _, _. split; [done|]. right. split_and!; [done|by intros a Ha%not_elem_of_nil|]. left. split; [done|]. right. by intros a Ha%not_elem_of_nil.
  - destruct (scan_list_ok l alt Hl) as (r & alt1 & -> & Hs). simpl. destruct Hs as [(Hr & ? & ?)|(-> & Hno & Halt)].
    + rewrite Forall_forall in Hl. destruct (Hl r Hr) as [Hn _]. destruct (Z.eqb_spec r NULL); [done|]. eexists _, _. split; [done|]. left. rewrite elem_of_app. tauto.
    + simpl. destruct (IH alt1) as (r & alt' & -> & Hs). exists r, alt'. split; [done|]. destruct Hs as [(? & ? & ?)|(-> & Hno' & Halt')]; [left; rewrite elem_of_app; tauto|right].
      split_and!; [done|intros a Ha; apply elem_of_app in Ha as [Ha|Ha]; auto|]. setoid_rewrite elem_of_app. destruct Halt' as [[-> Hor']|[? ?]]; [|tauto].
      destruct Halt as [[-> Hor]|[? ?]]; [left|tauto]. split; [done|]. destruct Hor as [|H1]; [tauto|]. destruct Hor' as [|H2]; [tauto|]. right. intros a [?|?]; auto.
Qed.

Lemma find_ok h : Forall (Forall listed) (free_head h) → u32 al = al →
  let cand := concat (drop (Z.to_nat (malloc_elem_free_list_index s)) (free_head h)) in
  ∃ r, find_suitable_element memseg h m s flags al bd = Some r ∧
    ((r = NULL ∧ ∀ a, a ∈ cand → hold a = true → page a = false ∧ hint = false) ∨
     (r ≠ NULL ∧ r ∈ cand ∧ hold r = true ∧ (page r = true ∨ hint = true))).
Proof.
  intros Hl Hal cand. unfold find_suitable_element. rewrite Hal. destruct (scan_lists_ok (drop (Z.to_nat (malloc_elem_free_list_index s)) (free_head h)) NULL) as (r & alt & -> & Hs); [by apply Forall_drop|].
  fold cand in Hs. simpl. fold hint. assert (Hnn : ∀ a, a ∈ cand → a ≠ NULL).
  { intros a Ha. apply elem_of_concat in Ha as (l & Hin & Ha). pose proof (Forall_drop _ (Z.to_nat (malloc_elem_free_list_index s)) _ Hl) as Hd.
    rewrite Forall_forall in Hd. specialize (Hd l Hin). rewrite Forall_forall in Hd. by apply Hd. }
  destruct Hs as [(Hr & Hh & Hp)|(-> & Hno & Halt)].
  - destruct (Z.eqb_spec r NULL); [by apply Hnn in Hr|]. eexists. split; [done|]. right. tauto.
  - simpl. destruct (Z.eqb_spec alt NULL) as [->|Hn]; simpl.
    + eexists. split; [done|]. left. split; [done|]. destruct Halt as [[_ [?|Hz]]|[Ha _]]; [done| |by apply Hnn in Ha]. intros a Ha Hha. rewrite Hz in Hha by done. done.
    + destruct Halt as [[? _]|[Ha Hha]]; [done|]. destruct hint eqn:Hhint; (eexists; split; [done|]); [right; split_and!; [by apply Hnn|done|done|by right]|left]. split; [done|]. intros b Hb Hhb. split; [by apply Hno|done].
Qed.
End search.

(** ** [malloc_heap_alloc] *)

(** A request that stays in range on these segments. *)
Record asks (size align bound : Z) (segs : list seg) : Prop := {
  as_size : 0 < size;
  as_align : ∃ k, 0 <= k <= 31 ∧ align = 2 ^ k;
  as_bound : bound = 0 ∨ ∃ j, 0 <= j <= 63 ∧ bound = 2 ^ j;
  as_low : Forall (λ s, size + align + bound + 192 <= s_base s < 2 ^ 64) segs;
  as_some : size + align < 2 ^ 63 }.
Definition mapped (memseg : list rte_memseg) (segs : list seg) : Prop := Forall (λ s, is_Some (memseg !! s_ms s)) segs.

Lemma roundup_size x : 0 < x < 2 ^ 63 → let r := RTE_CACHE_LINE_ROUNDUP x in x <= r < x + 64 ∧ (64 | r) ∧ 0 < r.
Proof.
  intros Hx r. unfold r, RTE_CACHE_LINE_ROUNDUP, RTE_CACHE_LINE_SIZE. rewrite (u64_small (x + 64 - 1)) by (unfold is_u64; lia).
  pose proof (Z.div_mod (x + 64 - 1) 64). pose proof (Z.mod_pos_bound (x + 64 - 1) 64). rewrite u64_small by (unfold is_u64; lia).
  split_and!; [lia|lia|by exists ((x + 64 - 1) / 64); lia|lia].
Qed.
Lemma roundup_align k : 0 <= k <= 31 → RTE_CACHE_LINE_ROUNDUP (2 ^ k) = 2 ^ (Z.max k 6).
Proof.
  intros Hk. destruct (Z.max_spec k 6) as [[Hlt ->]|[Hge ->]].
  - assert (k = 0 ∨ k = 1 ∨ k = 2 ∨ k = 3 ∨ k = 4 ∨ k = 5) as H by lia. destruct_or! H; subst k; reflexivity.
  - pose proof (Z.pow_le_mono_r 2 k 31 ltac:(lia) ltac:(lia)). pose proof (Z.pow_pos_nonneg 2 k ltac:(lia) ltac:(lia)).
    destruct (roundup_size (2 ^ k)) as (Hr & [q Hq] & _); [lia|]. destruct (pow2_divide 6 k) as [p Hp]; [lia|lia|apply Z.pow_le_mono_r; lia|]. change (2 ^ 6) with 64 in Hp. lia.
Qed.

Lemma asks_request size align bound segs s : asks size align bound segs → s ∈ segs →
  request (RTE_CACHE_LINE_ROUNDUP size) (RTE_CACHE_LINE_ROUNDUP align) bound (s_base s).
Proof.
  intros [Hs (k & Hk & ->) Hb Hlow Hm] Hin. rewrite Forall_forall in Hlow. specialize (Hlow s Hin). pose proof (Z.pow_pos_nonneg 2 k ltac:(lia) ltac:(lia)).
  destruct (roundup_size size) as (Hr & Hd & Hp); [lia|]. rewrite roundup_align by done.
  assert (2 ^ Z.max k 6 <= 2 ^ k + 64) by (destruct (Z.max_spec k 6) as [[? ->]|[? ->]]; simpl; lia).
  split; [done|done|by exists (Z.max k 6); split; [lia|]|done|lia].
Qed.
Lemma request_mono s al bd lim lim' : request s al bd lim → lim <= lim' → request s al bd lim'.
Proof. intros [? ? ? ? ?] ?. split; try done. lia. Qed.

Lemma plug_seg C mid : ∃ s, s ∈ plug C mid ∧ s_base s = c_base C ∧ s_ms s = c_ms C ∧ s_heap s = c_heap C.
Proof. eexists. split; [apply elem_of_app; right; left|done]. Qed.

(** The elements on the lists of a heap. *)
Lemma in_lists m segs h x a : inv m segs → malloc_heaps m !! h = Some x → a ∈ concat (free_head x) → ∃ n, (a, n) ∈ linked h segs.
Proof.
  intros [HI _ _] Hx Ha. destruct (i_lists _ _ HI _ _ Hx) as [_ Hl]. apply elem_of_concat in Ha as (l & Hin & Ha). apply list_elem_of_lookup_1 in Hin as [i Hi].
  rewrite (Hl _ _ Hi) in Ha. apply list_elem_of_fmap in Ha as ([a' n] & -> & Ha). apply list_elem_of_filter in Ha as [_ Ha]. eauto.
Qed.
Lemma on_list m segs h x a n (j : nat) : inv m segs → malloc_heaps m !! h = Some x → (a, n) ∈ linked h segs → (j <= idx_of n)%nat → a ∈ concat (drop j (free_head x)).
Proof.
  intros [HI _ _] Hx Ha Hj. destruct (i_lists _ _ HI _ _ Hx) as [Hlen Hl]. destruct (lookup_lt_is_Some_2 (free_head x) (idx_of n)) as [l Hi].
  { unfold idx_of. pose proof (free_list_index_range (u64 (n - MALLOC_ELEM_HEADER_LEN))). lia. }
  apply elem_of_concat. exists l. split; [apply list_elem_of_lookup_2 with (idx_of n - j)%nat; rewrite lookup_drop; by replace (j + (idx_of n - j))%nat with (idx_of n) by lia|].
  rewrite (Hl _ _ Hi). apply list_elem_of_fmap. exists (a, n). split; [done|]. by apply list_elem_of_filter.
Qed.

(** The header of a free block, and whether it can hold a request. *)
Lemma free_header m C n s al bd : inv m (plug C [Blk ELEM_FREE 0 n true]) → request s al bd (c_base C) →
  elems m !! here C = Some (Elem (c_heap C) (before C) (c_ms C) ELEM_FREE 0 n) ∧ here C ≠ NULL ∧ 64 <= n < 2 ^ 64 ∧
  hold m s al bd (here C) = negb (start_spec (here C) n s al bd =? NULL).
Proof.
  intros [HI _ _] Hrq. pose proof (inv0_place _ _ _ HI) as [_ ((_ & _ & _ & ?) & [Hh _] & _) Pr [Pb Pb'] _ Pe _]. simpl in *. pose proof (lseg_sz _ _ _ _ _ _ (proj1 Pr)).
  unfold NULL. split_and!; [done|lia|lia|lia|]. unfold hold, malloc_elem_can_hold. rewrite Hh, start_pt_eq; [done|by eapply request_mono|done|simpl; lia].
Qed.

Inductive alloc_outcome (memseg : list rte_memseg) (m : mem) (segs : list seg) (hp : nat) (s flags al bd : Z) : mem → Z → Prop :=
  | alloc_none :
      (bd = 0 ∨ al <= bd ∧ s <= bd → ∀ C n d, segs = plug C [Blk ELEM_FREE 0 n true] → c_heap C = hp →
        page_fits memseg flags (c_ms C) || hint flags = true → ~ fits (here C) n s al bd d) →
      alloc_outcome memseg m segs hp s flags al bd m NULL
  | alloc_some C n d k m' segs' :
      segs = plug C [Blk ELEM_FREE 0 n true] → c_heap C = hp → page_fits memseg flags (c_ms C) || hint flags = true → fits (here C) n s al bd d → d ≠ NULL →
      segs' = plug C (carve (here C) n s d) → inv m' segs' → layout segs' = layout segs → live segs' ≡ₚ (d, k) :: live segs → s <= k <= s + 128 → keeps segs m m' →
      alloc_outcome memseg m segs hp s flags al bd m' d.

Lemma heap_alloc_ok memseg m segs hp size flags align bound : inv m segs → (hp < 8)%nat → mapped memseg segs → asks size align bound segs →
  ∃ m' r, malloc_heap_alloc memseg hp size flags align bound m = Some (m', r) ∧
    alloc_outcome memseg m segs hp (RTE_CACHE_LINE_ROUNDUP size) flags (RTE_CACHE_LINE_ROUNDUP align) bound m' r.
Proof.
  intros HI Hhp Hmap Hask. unfold malloc_heap_alloc. set (s := RTE_CACHE_LINE_ROUNDUP size). set (al := RTE_CACHE_LINE_ROUNDUP align).
  assert (Hlen := i_len _ _ (v_inv0 _ _ HI)). destruct (lookup_lt_is_Some_2 (malloc_heaps m) hp) as [x Hx]; [lia|]. rewrite Hx. simpl.
  assert (Hal : u32 al = al).
  { destruct Hask as [_ (k & Hk & ->) _ _ _]. unfold al. rewrite roundup_align by done. apply u32_small. pose proof (Z.pow_le_mono_r 2 (Z.max k 6) 31 ltac:(lia) ltac:(lia)).
    pose proof (Z.pow_pos_nonneg 2 (Z.max k 6) ltac:(lia) ltac:(lia)). unfold is_u32. lia. }
  assert (Hrq : ∀ C mid, segs = plug C mid → request s al bound (c_base C)).
  { intros C mid ->. destruct (plug_seg C mid) as (sg & Hin & <- & _). by eapply asks_request. }
  assert (Hlisted : Forall (Forall (listed memseg m)) (free_head x)).
  { apply Forall_forall. intros l Hl. apply Forall_forall. intros a Ha. destruct (in_lists m segs hp x a HI Hx) as [n Hn]; [apply elem_of_concat; eauto|].
    destruct (linked_locate _ _ _ _ _ HI Hn) as (C & HC & <- & Hh). rewrite HC in HI. destruct (free_header _ _ _ _ _ _ HI (Hrq _ _ HC)) as (He & Hn0 & _).
    split; [done|]. destruct (plug_seg C [Blk ELEM_FREE 0 n true]) as (sg & Hin & _ & Hms & _). unfold mapped in Hmap. rewrite Forall_forall in Hmap. rewrite HC in Hmap.
    destruct (Hmap sg Hin) as [y Hy]. rewrite Hms in Hy. eauto. }
  destruct (find_ok memseg m s flags al bound x Hlisted Hal) as (r & Hr & Hres). rewrite Hr. simpl. destruct Hres as [[-> Hno]|(Hrn & Hin & Hh & Hp)].
  - eexists _, _. split; [done|]. apply alloc_none. intros Hbd C n d HC Hh Hp Hf. rewrite HC in HI. destruct (free_header _ _ _ _ _ _ HI (Hrq _ _ HC)) as (He & Hn0 & Hn & Hhold).
    destruct (Hrq _ _ HC) as [Hs0 _ _ _ Hlo]. destruct (Hno (here C)) as [Hpg Hht].
    + eapply on_list; [exact HI|done|by apply linked_in_plug|]. destruct Hf as (_ & Hf1 & Hf2 & _). unfold idx_of, MALLOC_ELEM_HEADER_LEN in *. apply Z2Nat.inj_le; [apply free_list_index_range|apply free_list_index_range|].
      rewrite u64_small by (unfold is_u64; lia). apply free_list_index_mono; lia.
    + rewrite Hhold. apply negb_true_iff, Z.eqb_neq. eapply start_spec_complete; [eapply request_mono; [by apply (Hrq _ _ HC)|]|done|done].
      pose proof (inv0_place _ _ _ (v_inv0 _ _ HI)) as [_ _ _ [_ Pb] _ _ _]. done.
    + unfold page in Hpg. rewrite He in Hpg. simpl in Hpg. rewrite Hpg, Hht in Hp. done.
  - destruct (Z.eqb_spec r NULL); [done|]. destruct (in_lists m segs hp x r HI Hx) as [n' Hn'].
    { apply elem_of_concat in Hin as (l & Hl & Ha). apply elem_of_concat. exists l. split; [|done]. apply list_elem_of_lookup_1 in Hl as [i Hi]. rewrite lookup_drop in Hi. by eapply list_elem_of_lookup_2. }
    destruct (linked_locate _ _ _ _ _ HI Hn') as (C & HC & Hhere & Hheap). pose proof HI as HI0. rewrite HC in HI0. destruct (free_header _ _ _ _ _ _ HI0 (Hrq _ _ HC)) as (He & Hn0 & Hn & Hhold).
    rewrite <- Hhere in *. assert (Hst : start_spec (here C) n' s al bound ≠ NULL) by (rewrite Hhold in Hh; apply negb_true_iff, Z.eqb_neq in Hh; done).
    pose proof (inv0_place _ _ _ (v_inv0 _ _ HI0)) as [_ _ Pr [Pb0 Pb] _ Pe _]. pose proof (lseg_sz _ _ _ _ _ _ (proj1 Pr)). simpl in Pe. assert (Hrq' : request s al bound (here C)) by (eapply request_mono; [by apply (Hrq _ _ HC)|done]).
    destruct (start_spec_fits _ _ _ _ _ Hrq' Hst) as (d & Hd & Hf). destruct (alloc_at m C n' s al bound d HI0 Hrq' Hd Hf) as (m1 & m' & k & Hm1 & Hm' & HI' & Hly & Hlv & Hk & Hkp).
    rewrite Hal, Hm1. simpl. rewrite <- Hheap. rewrite Hm'. simpl. destruct Hf as (Hf0 & Hf1 & Hf2 & Hf3). destruct Hrq' as [? _ _ _ ?]. unfold MALLOC_ELEM_HEADER_LEN, NULL in *. destruct (Z.eqb_spec (d - 64) 0); [lia|].
    rewrite Z.sub_add, u64_small by (unfold is_u64; lia). eexists _, _. split; [done|]. eapply (alloc_some _ _ _ _ _ _ _ _ C n' d k); try done; [|unfold NULL; lia|by rewrite Hly, HC|by rewrite HC|by rewrite HC].
    unfold page in Hp. rewrite He in Hp. simpl in Hp. apply orb_true_iff. done.
Qed.
