(* ===== verification/MallocInit.v ===== *)
(** * Building the heaps, and their statistics

    [malloc_heap_add_memseg] and [rte_eal_malloc_heap_init] of [malloc_heap.c]
    make one free block of every memory segment; [malloc_heap_get_stats] counts
    what is free. *)
From S2P Require Import Prelude Align Malloc MallocFit MallocInv MallocOps MallocHeap MallocAlloc.
Open Scope Z_scope.

(** ** Adding a segment *)

(** The bytes of a segment before the end marker. *)
Definition elem_bytes (s : rte_memseg) : Z := (addr s + len s - 64) / 64 * 64 - addr s.
Record memseg_ok (s : rte_memseg) : Prop := {
  mo_addr : 0 < addr s;
  mo_align : (64 | addr s);
  mo_len : 128 <= len s;
  mo_end : addr s + len s <= 2 ^ 64;
  mo_socket : 0 <= socket_id s < RTE_MAX_NUMA_NODES }.
Definition new_seg (i : nat) (s : rte_memseg) : seg := Seg (Z.to_nat (socket_id s)) i (addr s) [Blk ELEM_FREE 0 (elem_bytes s) true].

Lemma elem_bytes_ok s : memseg_ok s → 64 <= elem_bytes s ∧ (64 | elem_bytes s) ∧ addr s + elem_bytes s + 64 <= addr s + len s.
Proof.
  intros [? Ha ? ? _]. unfold elem_bytes. destruct (floor_bounds (addr s + len s - 64) 64) as [Hd Hb]; [lia|]. pose proof (floor_greatest (addr s + len s - 64) 64 (addr s + 64)) as Hg.
  split_and!; [|by apply Z.divide_sub_r|lia]. enough (addr s + 64 <= (addr s + len s - 64) / 64 * 64) by lia. apply Hg; [lia| |lia]. apply Z.divide_add_r; [done|by exists 1].
Qed.

Lemma fresh_segment m segs hp i a n : inv0 m segs → (hp < 8)%nat → 0 < a → (64 | a) → 64 <= n → (64 | n) → a + n + 64 <= 2 ^ 64 →
  Forall (λ q, a + n + 64 <= q.1 ∨ q.2 + 64 <= a) (spans segs) →
  let m1 := malloc_elem_init a hp i n m in
  ∃ m2, malloc_elem_mkend (a + n) a m1 = Some m2 ∧ inv0 m2 (plug (Ctx segs hp i a [] [] []) [Blk ELEM_FREE 0 n false]) ∧ malloc_heaps m2 = malloc_heaps m ∧
    ∀ y, y < a ∨ a + n < y → elems m2 !! y = elems m !! y.
Proof.
  intros [HS HA Hlen Hh HL] Hhp Ha Had Hn Hnd Hend Hdj m1. unfold m1, malloc_elem_mkend, malloc_elem_init. rewrite elems_set, lookup_insert_eq. simpl.
  rewrite (upd_elem_eq _ _ _ _ (lookup_insert_eq _ _ _)). eexists. split; [done|]. match goal with |- inv0 ?x _ ∧ _ => set (m2 := x) end.
  assert (Hf : ∀ y, y < a ∨ a + n < y → elems m2 !! y = elems m !! y) by (intros y Hy; unfold m2; looks; done). split_and!; [|done|done]. unfold plug. simpl. split.
  - apply Forall_app. split.
    + rewrite Forall_forall in HS. rewrite Forall_forall in Hdj. apply Forall_forall. intros s Hs. eapply (seg_frame (elems m) _ s a (a + n)); [by apply HS| |done].
      destruct (Hdj (s_base s, s_end s)); [apply list_elem_of_fmap; eauto|simpl in *; lia|simpl in *; lia].
    + apply Forall_singleton. split; simpl; try done; unfold s_end; simpl; [|lia]. unfold chain. simpl. unfold geom, header. simpl. rewrite !Z.add_0_r. unfold m2. split_and!; try done; try lia; [apply Z.divide_0_r|looks; done|looks; done].
  - unfold spans. rewrite fmap_app. simpl. clear -HA Hdj. unfold spans, s_end in *. induction segs as [|s segs IH]; simpl in *; [done|]. destruct HA as [HA1 HA2].
    apply Forall_cons in Hdj as [Hd1 Hd2]. split; [|by apply IH]. apply Forall_app. split; [done|]. apply Forall_singleton. simpl in *. lia.
  - done.
  - apply Forall_app. split; [done|]. by apply Forall_singleton.
  - intros h x Hx. rewrite linked_app. unfold linked at 2. simpl. case_decide; simpl; rewrite app_nil_r; by apply HL.
Qed.

Lemma heap_sum_snoc f h segs s : heap_sum f h (segs ++ [s]) = heap_sum f h segs + (if decide (s_heap s = h) then f (s_blks s) else 0).
Proof. induction segs as [|s' segs IH]; simpl; [lia|]. rewrite IH. lia. Qed.

(** The total of a heap grows by the new block. *)
Lemma total_ok m m3 segs hp i a n : inv m segs → (hp < 8)%nat → let segs' := segs ++ [Seg hp i a [Blk ELEM_FREE 0 n true]] in inv0 m3 segs' →
  counts <$> malloc_heaps m3 = counts <$> malloc_heaps m →
  ∃ m', upd_heap hp (λ h, h <| total_size := u64 (total_size h + n) |>) m3 = Some m' ∧ elems m' = elems m3 ∧ inv m' segs'.
Proof.
  intros HI Hhp segs' HI3 Hcnt. destruct (lookup_lt_is_Some_2 (malloc_heaps m3) hp) as [x Hx]; [rewrite (i_len _ _ HI3); lia|]. rewrite (upd_heap_eq _ _ _ _ Hx). eexists. split_and!; [done|done|]. split.
  - destruct HI3 as [H1 H2 H3 H4 H5]. split; try done; [simpl; by rewrite length_insert|]. intros h x' Hx'. simpl in Hx'.
    destruct (decide (h = hp)) as [->|]; [rewrite list_lookup_insert_eq in Hx' by lia; injection Hx' as <-; simpl; by apply H5|]. rewrite list_lookup_insert_ne in Hx' by done. by apply H5.
  - apply Forall_app. split; [apply HI|]. apply Forall_singleton. simpl. split; [|done]. rewrite Forall_cons. by split; [left|].
  - intros h x' Hx'. simpl in Hx'. unfold segs'. rewrite !heap_sum_snoc. simpl. assert (Hold : ∀ h x, malloc_heaps m3 !! h = Some x → counts x = (u32 (heap_sum nbusy h segs), u64 (heap_sum sz h segs))).
    { intros h' y Hy. assert ((counts <$> malloc_heaps m) !! h' = Some (counts y)) as Hl by (rewrite <- Hcnt, list_lookup_fmap, Hy; done).
      rewrite list_lookup_fmap in Hl. destruct (malloc_heaps m !! h') as [y'|] eqn:Hy'; [|done]. apply (inj Some) in Hl. rewrite <- Hl. by apply (v_counts _ _ HI). }
    destruct (decide (hp = h)) as [<-|Hne].
    + rewrite list_lookup_insert_eq in Hx' by (rewrite (i_len _ _ HI3); lia). injection Hx' as <-. specialize (Hold _ _ Hx). unfold counts in *. simpl. injection Hold as -> ->.
      change (nbusy [_]) with 0. f_equal; [by rewrite Z.add_0_r|]. rewrite Z.add_0_r. unfold u64. apply Zplus_mod_idemp_l.
    + rewrite list_lookup_insert_ne in Hx' by done. rewrite !Z.add_0_r. by apply Hold.
Qed.

Lemma add_memseg_ok m segs i s : inv m segs → memseg_ok s → Forall (λ q, addr s + len s <= q.1 ∨ q.2 + 64 <= addr s) (spans segs) →
  ∃ m', malloc_heap_add_memseg (Z.to_nat (socket_id s)) i s m = Some m' ∧ inv m' (segs ++ [new_seg i s]) ∧ keeps segs m m'.
Proof.
  intros HI Hs Hdj. destruct (elem_bytes_ok s Hs) as (Hn & Hnd & Hend). pose proof Hs as [Ha Had Hlen He Hsk]. unfold RTE_MAX_NUMA_NODES in Hsk. set (hp := Z.to_nat (socket_id s)).
  assert (Hhp : (hp < 8)%nat) by (unfold hp; lia). unfold malloc_heap_add_memseg. change MALLOC_ELEM_OVERHEAD with 64. rewrite (u64_small (len s - 64)), (u64_small (addr s + _)) by (unfold is_u64; lia).
  assert (RTE_ALIGN_FLOOR u64 (addr s + (len s - 64)) RTE_CACHE_LINE_SIZE = addr s + elem_bytes s) as ->.
  { pose proof (align_floor_spec 64 6 (addr s + (len s - 64))) as Hf. change (2 ^ 6) with 64 in Hf. transitivity ((addr s + (len s - 64)) / 64 * 64); [apply Hf; lia|]. unfold elem_bytes. replace (addr s + (len s - 64)) with (addr s + len s - 64) by lia. lia. }
  replace (addr s + elem_bytes s - addr s) with (elem_bytes s) by lia. rewrite (u64_small (elem_bytes s)) by (unfold is_u64; lia). set (n := elem_bytes s) in *.
  destruct (fresh_segment m segs hp i (addr s) n (v_inv0 _ _ HI)) as (m2 & -> & HI2 & Hhs & Hf2); [done|done|done|done|done|lia| |].
  { eapply Forall_impl; [exact Hdj|]. intros q. simpl. lia. }
  set (C := Ctx segs hp i (addr s) [] [] []) in *. assert (HC : here C = addr s) by (unfold here, C; simpl; lia).
  destruct (insert_ok m2 C (Blk ELEM_FREE 0 n false)) as (m3 & Hm3 & Hw3 & HI3); [done|done|]. rewrite HC in *. simpl. rewrite Hm3. simpl.
  assert (Hcnt : counts <$> malloc_heaps m3 = counts <$> malloc_heaps m) by (by rewrite (proj2 Hw3), Hhs).
  destruct (total_ok m m3 segs hp i (addr s) n HI Hhp HI3 Hcnt) as (m' & Hm' & HE & HI'). exists m'. split_and!; [done|done|].
  intros q k y Hq Hy. destruct (live_range _ _ _ _ (i_segs _ _ (v_inv0 _ _ HI)) Hq) as (g & Hg & Hg1 & Hg2). rewrite Forall_forall in Hdj.
  specialize (Hdj (s_base g, s_end g) ltac:(apply list_elem_of_fmap; eauto)). simpl in Hdj. rewrite HE, (proj1 Hw3), Hf2 by (simpl; lia). done.
Qed.

(** ** All segments *)

(** The segments that the loop takes: up to the first empty one, without those of other processes. *)
Fixpoint used (l : list rte_memseg) (i : nat) : list (nat * rte_memseg) :=
  match l with
  | [] => []
  | s :: l => if negb (len s >? 0) then [] else if negb (ioremap_addr s =? 0) then used l (S i) else (i, s) :: used l (S i)
  end.
Definition heap_segs (l : list (nat * rte_memseg)) : list seg := (λ p, new_seg p.1 p.2) <$> l.
(** Segments of memory do not overlap. *)
Fixpoint memsegs_apart (l : list rte_memseg) : Prop :=
  match l with
  | [] => True
  | s :: l => Forall (λ t, addr s + len s <= addr t ∨ addr t + len t <= addr s) l ∧ memsegs_apart l
  end.

Lemma empty_inv : inv no_mem [].
Proof.
  split; [split; [constructor|done|done|constructor|]|constructor|].
  - intros h x Hx. apply lookup_replicate in Hx as [-> _]. split; [done|]. intros i l Hi. apply lookup_replicate in Hi as [-> _]. done.
  - intros h x Hx. by apply lookup_replicate in Hx as [-> _].
Qed.

Lemma spans_heap_segs ps : Forall (λ p, memseg_ok p.2) ps → ∀ s, memseg_ok s → Forall (λ p, addr s + len s <= addr p.2 ∨ addr p.2 + len p.2 <= addr s) ps →
  Forall (λ q, addr s + len s <= q.1 ∨ q.2 + 64 <= addr s) (spans (heap_segs ps)).
Proof.
  intros Hok s Hs Hd. induction Hok as [|p ps Hp Hok IH]; [constructor|]. apply Forall_cons in Hd as [Hd1 Hd2]. simpl. apply Forall_cons. split; [|by apply IH].
  destruct (elem_bytes_ok _ Hp) as (_ & _ & ?). unfold s_end, new_seg. simpl. lia.
Qed.

Lemma add_memsegs_ok l i done_ m : inv m (heap_segs done_) → Forall (λ p, memseg_ok p.2) (done_ ++ used l i) → memsegs_apart ((done_ ++ used l i).*2) →
  ∃ m', add_memsegs l i m = Some m' ∧ inv m' (heap_segs (done_ ++ used l i)).
Proof.
  revert i done_ m. induction l as [|s l IH]; intros i done_ m HI Hok Hap; simpl in *; [exists m; by rewrite app_nil_r|].
  destruct (len s >? 0); simpl in *; [|exists m; by rewrite app_nil_r]. destruct (ioremap_addr s =? 0); simpl in *; [|by apply IH].
  pose proof Hok as Hok'. apply Forall_app in Hok as [Hok1 Hok2]. apply Forall_cons in Hok2 as [Hs Hok2]. simpl in Hs. pose proof Hs as [_ _ _ _ Hsk]. unfold RTE_MAX_NUMA_NODES in Hsk.
  destruct (load_in (malloc_heaps m) (socket_id s)) as (x & -> & _); [rewrite (i_len _ _ (v_inv0 _ _ HI)); lia|]. simpl.
  destruct (add_memseg_ok m (heap_segs done_) i s HI Hs) as (m1 & -> & HI1 & _).
  { apply spans_heap_segs; [done|done|]. rewrite fmap_app in Hap. clear -Hap. simpl in Hap. induction done_ as [|p ds IHd]; [constructor|]. simpl in Hap. destruct Hap as [Ha Hap].
    apply Forall_app in Ha as [_ Ha]. apply Forall_cons in Ha as [Ha _]. apply Forall_cons. split; [lia|by apply IHd]. }
  simpl. destruct (IH (S i) (done_ ++ [(i, s)]) m1) as (m' & Hm' & HI').
  - unfold heap_segs in *. by rewrite fmap_app.
  - by rewrite <- app_assoc.
  - by rewrite <- app_assoc.
  - exists m'. rewrite <- app_assoc in HI'. done.
Qed.

(** ** Statistics *)

Definition sum_sizes (l : list (Z * Z)) : Z := foldr (λ p acc, p.2 + acc) 0 l.
Definition max_size (l : list (Z * Z)) : Z := foldr (λ p acc, Z.max p.2 acc) 0 l.
#[export] Instance sum_sizes_perm : Proper (Permutation ==> eq) sum_sizes.
Proof. induction 1; simpl; lia. Qed.
#[export] Instance max_size_perm : Proper (Permutation ==> eq) max_size.
Proof. induction 1; simpl; lia. Qed.

Lemma stat_list_ok m l c b g : Forall (λ p, ∃ e, elems m !! p.1 = Some e ∧ size e = p.2) l → 0 <= g →
  stat_list m l.*1 (u32 c, u64 b, g) = Some (u32 (c + Z.of_nat (length l)), u64 (b + sum_sizes l), Z.max g (max_size l)).
Proof.
  intros Hl. revert c b g. induction Hl as [|[a n] l (e & He & Hn) Hl IH]; intros c b g Hg; simpl in *.
  - rewrite !Z.add_0_r, Z.max_l by done. done.
  - rewrite He. simpl. rewrite u32_add_l, Hn. assert (u64 (u64 b + n) = u64 (b + n)) as -> by (unfold u64; apply Zplus_mod_idemp_l).
    replace (if n >? g then n else g) with (Z.max g n) by (destruct (Z.gtb_spec n g); lia). rewrite IH by lia. f_equal. f_equal; [f_equal; f_equal|]; lia.
Qed.

Lemma filter_or {A} (P Q : A → Prop) `{!∀ x, Decision (P x), !∀ x, Decision (Q x)} (l : list A) : (∀ x, P x → ¬ Q x) →
  filter (λ x, P x ∨ Q x) l ≡ₚ filter P l ++ filter Q l.
Proof.
  intros Hd. induction l as [|x l IH]; [done|]. destruct (decide (P x)) as [HP|HP]; [|destruct (decide (Q x)) as [HQ|HQ]].
  - rewrite !(filter_cons_True _ x) by tauto. rewrite filter_cons_False by auto. simpl. by rewrite IH.
  - rewrite filter_cons_True by tauto. rewrite filter_cons_False by done. rewrite filter_cons_True by done. rewrite IH. by rewrite Permutation_middle.
  - rewrite !filter_cons_False by tauto. done.
Qed.
Lemma concat_filters (F : list (Z * Z)) fl k : (∀ i l, fl !! i = Some l → l ≡ₚ (filter (λ p, idx_of p.2 = (k + i)%nat) F).*1) →
  concat fl ≡ₚ (filter (λ p, (k <= idx_of p.2 < k + length fl)%nat) F).*1.
Proof.
  revert k. induction fl as [|l fl IH]; intros k H; simpl.
  - clear H. induction F as [|p F IHF]; [done|]. rewrite filter_cons_False by lia. done.
  - rewrite (H 0%nat l) by done. rewrite (IH (S k)) by (intros i l' Hi; replace (S k + i)%nat with (k + S i)%nat by lia; by apply H). rewrite <- fmap_app. apply fmap_Permutation.
    rewrite <- (filter_or (λ p, idx_of p.2 = (k + 0)%nat) (λ p, (S k <= idx_of p.2 < S k + length fl)%nat)) by lia.
    erewrite list_filter_iff; [reflexivity|]. intros p. simpl. lia.
Qed.
Lemma lists_concat fl F : lists_ok fl F → concat fl ≡ₚ F.*1.
Proof.
  intros [Hlen H]. rewrite (concat_filters F fl 0) by done. apply fmap_Permutation. rewrite filter_Forall; [done|]. apply Forall_forall. intros p _. rewrite Hlen.
  unfold idx_of. pose proof (free_list_index_range (u64 (p.2 - MALLOC_ELEM_HEADER_LEN))). lia.
Qed.

Lemma linked_lists m segs h x : inv m segs → malloc_heaps m !! h = Some x → ∃ l, concat (free_head x) = l.*1 ∧ l ≡ₚ linked h segs.
Proof.
  intros HI Hx. pose proof (lists_concat _ _ (i_lists _ _ (v_inv0 _ _ HI) _ _ Hx)) as Hp. destruct (Permutation_map_inv fst (linked h segs) Hp) as (l & Hl & Hp'). exists l. split; [done|by symmetry].
Qed.
Lemma linked_headers m segs h : inv m segs → Forall (λ p, ∃ e, elems m !! p.1 = Some e ∧ size e = p.2) (linked h segs).
Proof.
  intros HI. apply Forall_forall. intros [a n] Hin. destruct (linked_locate _ _ _ _ _ HI Hin) as (C & -> & <- & _).
  pose proof (inv0_place _ _ _ (v_inv0 _ _ HI)) as [_ (_ & [Hh _] & _) _ _ _ _ _]. eauto.
Qed.

(** The bytes of the busy blocks, headers and padding included. *)
Fixpoint busy_sz (bs : list blk) : Z := match bs with [] => 0 | b :: bs => (if is_busy b then b_size b else 0) + busy_sz bs end.
Lemma sz_linked_busy a bs : Forall block_ok bs → sz bs = sum_sizes (linked_of a bs) + busy_sz bs.
Proof.
  intros H. revert a. induction H as [|b bs Hb _ IH]; intros a; simpl; [done|]. rewrite (IH (a + b_size b)). unfold is_busy.
  destruct Hb as [(-> & -> & _)|(-> & -> & _)]; simpl; lia.
Qed.
Lemma sum_sizes_app l r : sum_sizes (l ++ r) = sum_sizes l + sum_sizes r.
Proof. induction l as [|p l IH]; simpl; [done|lia]. Qed.
Lemma heap_sum_split m segs h : inv m segs → heap_sum sz h segs = sum_sizes (linked h segs) + heap_sum busy_sz h segs.
Proof.
  intros [_ Hb _]. induction Hb as [|s segs [Hs _] _ IH]; [done|]. rewrite linked_cons, sum_sizes_app. simpl. rewrite IH. case_decide; [|simpl; lia].
  rewrite (sz_linked_busy (s_base s) (s_blks s) Hs). lia.
Qed.

(** The statistics of a heap are those of its blocks. *)
Lemma get_stats_ok m segs h : inv m segs → (h < 8)%nat →
  malloc_heap_get_stats h m = Some (Stats (u64 (heap_sum sz h segs)) (u64 (sum_sizes (linked h segs))) (max_size (linked h segs))
    (u32 (Z.of_nat (length (linked h segs)))) (u32 (heap_sum nbusy h segs)) (u64 (heap_sum busy_sz h segs))).
Proof.
  intros HI Hh. destruct (lookup_lt_is_Some_2 (malloc_heaps m) h) as [x Hx]; [rewrite (i_len _ _ (v_inv0 _ _ HI)); lia|]. unfold malloc_heap_get_stats. rewrite Hx. cbn [mbind option_bind].
  destruct (linked_lists _ _ _ _ HI Hx) as (l & -> & Hp). pose proof (stat_list_ok m l 0 0 0) as Hs. change (u32 0) with 0 in Hs. change (u64 0) with 0 in Hs.
  rewrite Hs; [|rewrite Hp; by apply linked_headers|done]. cbn [mbind option_bind]. pose proof (v_counts _ _ HI _ _ Hx) as Hc. unfold counts in Hc. injection Hc as -> ->. rewrite !Z.add_0_l, Hp.
  assert (0 <= max_size (linked h segs)) by (clear; induction (linked h segs); simpl; lia). rewrite Z.max_r by done. do 2 f_equal. rewrite (heap_sum_split m segs h HI).
  unfold u64. rewrite <- Zminus_mod. f_equal. lia.
Qed.

(** The statistics of a heap count its blocks exactly: all bytes, those of
    the free blocks with their number and the largest one, and the number and
    bytes of the allocated blocks. *)
Theorem heap_stats_exact m segs h : inv m segs → (h < 8)%nat →
  ∃ st, malloc_heap_get_stats h m = Some st ∧
    heap_totalsz_bytes st = u64 (heap_sum sz h segs) ∧ heap_freesz_bytes st = u64 (sum_sizes (linked h segs)) ∧ heap_allocsz_bytes st = u64 (heap_sum busy_sz h segs) ∧
    free_count st = u32 (Z.of_nat (length (linked h segs))) ∧ stat_alloc_count st = u32 (heap_sum nbusy h segs) ∧
    (∀ a n, (a, n) ∈ linked h segs → n <= greatest_free_size st) ∧ (greatest_free_size st = 0 ∨ ∃ a, (a, greatest_free_size st) ∈ linked h segs).
Proof.
  intros HI Hh. rewrite (get_stats_ok m segs h HI Hh). eexists. split; [done|]. cbn [heap_totalsz_bytes heap_freesz_bytes heap_allocsz_bytes free_count stat_alloc_count greatest_free_size]. split_and!; try done.
  - intros a n. induction (linked h segs) as [|q l IH]; [by intros H%not_elem_of_nil|]. intros Hin. simpl. apply elem_of_cons in Hin as [<-|Hin]; [simpl; lia|]. specialize (IH Hin). lia.
  - induction (linked h segs) as [|[a n] l IH]; [by left|]. simpl. destruct (Z.max_spec n (max_size l)) as [[_ ->]|[_ ->]]; [|right; exists a; left].
    destruct IH as [->|[b Hb]]; [by left|right; exists b; by right].
Qed.
