(* ===== verification/RteMalloc.v ===== *)
(** * The malloc library

    [lib/librte_eal/common/rte_malloc.c] on the heaps of [Malloc.v]. The memory
    of the process is the headers together with the bytes of the data; the two
    never overlap for a block that is handed out ([keeps]). *)
From S2P Require Import Prelude Align Malloc MallocFit MallocInv MallocOps MallocHeap MallocAlloc MallocInit.
Open Scope Z_scope.

Definition SOCKET_ID_ANY : Z := -1.

(** The end of a call: it returns, or [rte_panic] ends the process. *)
Inductive exit (A : Type) := Ret (a : A) | Panic.
Arguments Ret {A} a.
Arguments Panic {A}.

Record ram := Ram { hdrs : mem; bytes : gmap Z Z }.
#[export] Instance ram_upd : Updatable ram := λ r, Ram (hdrs r) (bytes r).

(** [memset] to 0 and [rte_memcpy] between areas that do not overlap, byte by byte. *)
Fixpoint memset0 (p : Z) (n : nat) (b : gmap Z Z) : gmap Z Z := match n with O => b | S n => memset0 (p + 1) n (<[p := 0]> b) end.
Fixpoint copy_from (b0 : gmap Z Z) (dst src : Z) (n : nat) (b : gmap Z Z) : gmap Z Z :=
  match n with O => b | S n => copy_from b0 (dst + 1) (src + 1) n (partial_alter (λ _, b0 !! src) dst b) end.
Definition memcpy (dst src : Z) (n : nat) (b : gmap Z Z) : gmap Z Z := copy_from b dst src n b.

Definition rte_is_power_of_2 (n : Z) : bool := negb (n =? 0) && (Z.land n (u32 (n - 1)) =? 0).
(** [RTE_CACHE_LINE_ROUNDUP] on an [unsigned]. *)
Definition roundup32 (x : Z) : Z := u32 (RTE_CACHE_LINE_SIZE * (u32 (x + RTE_CACHE_LINE_SIZE - 1) / RTE_CACHE_LINE_SIZE)).
(** [RTE_PTR_ALIGN] to an [unsigned] alignment. *)
Definition RTE_PTR_ALIGN (ptr align : Z) : Z := align_floor (u64 (ptr + u32 (align - 1))) align.

Section rte_malloc.
(** [mcfg->memseg], [rte_eal_has_hugepages()] and [rte_socket_id()] of the caller. *)
Context (memseg : list rte_memseg) (has_hugepages : bool) (rte_socket_id : Z).

Definition malloc_get_numa_socket : Z := if rte_socket_id =? u32 SOCKET_ID_ANY then 0 else rte_socket_id.

Definition rte_free (addr : Z) (m : mem) : option (exit mem) :=
  if addr =? NULL then Some (Ret m) else
  elem ← malloc_elem_from_data addr m;
  '(m, ret) ← malloc_elem_free elem m;
  Some (if ret <? 0 then Panic else Ret m).

(** A heap by its number, which must be in the array. *)
Definition heap_alloc (socket size flags align bound : Z) (m : mem) : option (mem * Z) :=
  _ ← load (malloc_heaps m) socket;
  malloc_heap_alloc memseg (Z.to_nat socket) size flags align bound m.

(** The loop over the other heaps. *)
Fixpoint try_heaps (hs : list Z) (socket size flags align bound : Z) (m : mem) : option (mem * Z) :=
  match hs with
  | [] => Some (m, NULL)
  | i :: hs =>
      if i =? socket then try_heaps hs socket size flags align bound m else
      '(m, ret) ← heap_alloc i size flags align bound m;
      if negb (ret =? NULL) then Some (m, ret) else try_heaps hs socket size flags align bound m
  end.
Definition all_heaps : list Z := seqZ 0 RTE_MAX_NUMA_NODES.

Definition rte_malloc_socket (size align socket_arg : Z) (m : mem) : option (mem * Z) :=
  if (size =? 0) || (negb (align =? 0) && negb (rte_is_power_of_2 align)) then Some (m, NULL) else
  let socket_arg := if negb has_hugepages then SOCKET_ID_ANY else socket_arg in
  let socket := if socket_arg =? SOCKET_ID_ANY then i32 malloc_get_numa_socket else socket_arg in
  if socket >=? RTE_MAX_NUMA_NODES then Some (m, NULL) else
  let align := if align =? 0 then 1 else align in
  '(m, ret) ← heap_alloc socket size 0 align 0 m;
  if negb (ret =? NULL) || negb (socket_arg =? SOCKET_ID_ANY) then Some (m, ret) else
  try_heaps all_heaps socket size 0 align 0 m.

Definition rte_malloc (size align : Z) (m : mem) : option (mem * Z) := rte_malloc_socket size align SOCKET_ID_ANY m.

Definition rte_zmalloc_socket (size align socket : Z) (r : ram) : option (ram * Z) :=
  '(m, ptr) ← rte_malloc_socket size align socket (hdrs r);
  Some (if negb (ptr =? NULL) then Ram m (memset0 ptr (Z.to_nat size) (bytes r)) else Ram m (bytes r), ptr).
Definition rte_zmalloc (size align : Z) (r : ram) : option (ram * Z) := rte_zmalloc_socket size align SOCKET_ID_ANY r.
Definition rte_calloc_socket (num size align socket : Z) (r : ram) : option (ram * Z) := rte_zmalloc_socket (u64 (num * size)) align socket r.
Definition rte_calloc (num size align : Z) (r : ram) : option (ram * Z) := rte_zmalloc (u64 (num * size)) align r.

Definition rte_realloc (ptr size_ align : Z) (r : ram) : option (exit (ram * Z)) :=
  if ptr =? NULL then x ← rte_malloc size_ align (hdrs r); Some (Ret (Ram (x.1) (bytes r), x.2)) else
  elem ← malloc_elem_from_data ptr (hdrs r);
  if elem =? NULL then Some Panic else
  let size_ := RTE_CACHE_LINE_ROUNDUP size_ in
  let align := roundup32 align in
  (* [&&]: without the right alignment there is no attempt to resize *)
  x ← (if RTE_PTR_ALIGN ptr align =? ptr then malloc_elem_resize elem size_ (hdrs r) else Some (hdrs r, -1));
  let '(m, ret) := x : mem * Z in
  if ret =? 0 then Some (Ret (Ram m (bytes r), ptr)) else
  '(m, new_ptr) ← rte_malloc size_ align m;
  if new_ptr =? NULL then Some (Ret (Ram m (bytes r), NULL)) else
  e ← elems m !! elem;
  let old_size := u32 (size e - MALLOC_ELEM_OVERHEAD) in
  let b := memcpy new_ptr ptr (Z.to_nat (if old_size <? size_ then old_size else size_)) (bytes r) in
  x ← rte_free ptr m;
  Some (match x with Ret m => Ret (Ram m b, new_ptr) | Panic => Panic end).

(** The value of [*size] where one is stored. *)
Definition rte_malloc_validate (ptr : Z) (m : mem) : option (Z * option Z) :=
  elem ← malloc_elem_from_data ptr m;
  if elem =? NULL then Some (-1, None) else
  e ← elems m !! elem;
  Some (0, Some (u64 (size e - pad e - MALLOC_ELEM_OVERHEAD))).

Definition rte_malloc_get_socket_stats (socket : Z) (m : mem) : option (Z * option rte_malloc_socket_stats) :=
  if (socket >=? RTE_MAX_NUMA_NODES) || (socket <? 0) then Some (-1, None) else
  st ← malloc_heap_get_stats (Z.to_nat socket) m; Some (0, Some st).

Definition rte_malloc_virt2phy (addr_ : Z) (m : mem) : option Z :=
  elem ← malloc_elem_from_data addr_ m;
  if elem =? NULL then Some 0 else
  e ← elems m !! elem;
  s ← memseg !! ms e;
  Some (u64 (phys_addr s + u64 (addr_ - addr s))).
End rte_malloc.

(** ** A new block *)

(** No free block of heap [hp] has a place for the request. *)
Definition no_room (memseg : list rte_memseg) (segs : list seg) (hp : nat) (s flags al bd : Z) : Prop :=
  ∀ C n d, segs = plug C [Blk ELEM_FREE 0 n true] → c_heap C = hp → page_fits memseg flags (c_ms C) || hint flags = true → ~ fits (here C) n s al bd d.

(** [d] is a new block of [k] bytes, and everything else is as before. *)
Record got (m : mem) (segs : list seg) (s al bd : Z) (m' : mem) (d : Z) (segs' : list seg) (k : Z) : Prop := {
  g_inv : inv m' segs';
  g_layout : layout segs' = layout segs;
  g_live : live segs' ≡ₚ (d, k) :: live segs;
  g_size : s <= k <= s + 128;
  g_align : (al | d);
  g_bound : bd = 0 ∨ d / bd = (d + s - 1) / bd;
  g_keeps : keeps segs m m';
  g_blocks : ∀ a b, (a, b) ∈ blocks segs → b_state b = ELEM_BUSY → (a, b) ∈ blocks segs' }.

(** The result of a call: nothing, for the reason [P], or a new block. *)
Definition answer (P : Prop) (m : mem) (segs : list seg) (s al bd : Z) (m' : mem) (r : Z) : Prop :=
  (r = NULL ∧ m' = m ∧ P) ∨ (r ≠ NULL ∧ ∃ segs' k, got m segs s al bd m' r segs' k).

Lemma outcome_answer memseg m segs hp s flags al bd m' r : alloc_outcome memseg m segs hp s flags al bd m' r → bd = 0 ∨ al <= bd ∧ s <= bd →
  answer (no_room memseg segs hp s flags al bd) m segs s al bd m' r.
Proof.
  intros [Hno|C n d k m2 segs' Hsegs Hh Hp (Hf1 & Hf2 & Hf3 & Hf4) Hd Hs' HI Hly Hlv Hk Hkp] Hbd; [left; split_and!; [done|done|exact (Hno Hbd)]|right]. split; [done|].
  exists segs', k. split; try done. intros a b Hab Hb. subst segs segs'. eapply blocks_keep; [|done|]; [rewrite carve_sz; simpl; lia|]. simpl. intros Hin.
  apply list_elem_of_singleton in Hin. injection Hin as -> ->. done.
Qed.

(** C20: For a request with a size above 0 and an alignment and a boundary that
    are powers of two (or no boundary), which together with 192 bytes are not
    above the address of any memory segment, the boundary being 0 or at least the
    rounded size and alignment, [malloc_heap_alloc] returns [NULL] exactly if no
    free block of the heap, on pages that the flags accept, has a place for the
    request with its alignment and boundary; otherwise it returns a new block of
    the rounded size or up to two cache lines more, aligned and not across the
    boundary, and leaves the data of all other blocks alone. *)
Theorem heap_alloc_exact memseg m segs hp size flags align bound : inv m segs → (hp < 8)%nat → mapped memseg segs → asks size align bound segs →
  let s := RTE_CACHE_LINE_ROUNDUP size in let al := RTE_CACHE_LINE_ROUNDUP align in bound = 0 ∨ al <= bound ∧ s <= bound →
  ∃ m' r, malloc_heap_alloc memseg hp size flags align bound m = Some (m', r) ∧ (r = NULL ↔ no_room memseg segs hp s flags al bound) ∧
    (r = NULL → m' = m) ∧ (r ≠ NULL → ∃ segs' k, got m segs s al bound m' r segs' k).
Proof.
  intros HI Hhp HM HA s al HB. destruct (heap_alloc_ok memseg m segs hp size flags align bound HI Hhp HM HA) as (m' & r & Hm & Ho). exists m', r. split; [done|].
  destruct (outcome_answer _ _ _ _ _ _ _ _ _ _ Ho HB) as [(-> & -> & Hn)|(Hr & segs' & k & Hg)]; [split_and!; done|]. split_and!; [|done|eauto]. split; [done|]. intros Hno. exfalso.
  destruct Ho as [_|C n d k' m2 segs2 Hs Hh Hp Hf _ _ _ _ _ _ _]; [done|]. by apply (Hno C n d).
Qed.

(** The arguments only matter relative to where the segments are. *)
Lemma asks_layout size align bound segs segs' : layout segs' = layout segs → asks size align bound segs → asks size align bound segs'.
Proof.
  intros Hl [H1 H2 H3 H4 H5]. split; try done. assert (s_base <$> segs' = s_base <$> segs) as Hb.
  { assert (∀ l, s_base <$> l = (λ q : nat * nat * Z * Z, q.1.2) <$> layout l) as Heq by (intros l; unfold layout; by rewrite <- list_fmap_compose). by rewrite !Heq, Hl. }
  assert (Forall (λ b, size + align + bound + 192 <= b < 2 ^ 64) (s_base <$> segs')) as HF by (rewrite Hb; by apply Forall_fmap). by apply Forall_fmap in HF.
Qed.
Lemma mapped_layout memseg segs segs' : layout segs' = layout segs → mapped memseg segs → mapped memseg segs'.
Proof.
  intros Hl Hm. unfold mapped in *. assert (s_ms <$> segs' = s_ms <$> segs) as Hb.
  { assert (∀ l, s_ms <$> l = (λ q : nat * nat * Z * Z, q.1.1.2) <$> layout l) as Heq by (intros l; unfold layout; by rewrite <- list_fmap_compose). by rewrite !Heq, Hl. }
  assert (Forall (λ b, is_Some (memseg !! b)) (s_ms <$> segs')) as HF by (rewrite Hb; by apply Forall_fmap). by rewrite Forall_fmap in HF.
Qed.

Section calls.
Context (memseg : list rte_memseg) (m : mem) (segs : list seg) (HI : inv m segs) (HM : mapped memseg segs).
Context (size flags align bound : Z) (HA : asks size align bound segs).
Let s := RTE_CACHE_LINE_ROUNDUP size.
Let al := RTE_CACHE_LINE_ROUNDUP align.
Context (HB : bound = 0 ∨ al <= bound ∧ s <= bound).

Lemma heap_alloc_answer i : 0 <= i < 8 → ∃ m' r, heap_alloc memseg i size flags align bound m = Some (m', r) ∧
  answer (no_room memseg segs (Z.to_nat i) s flags al bound) m segs s al bound m' r.
Proof.
  intros Hi. unfold heap_alloc. destruct (load_in (malloc_heaps m) i) as (x & -> & _); [rewrite (i_len _ _ (v_inv0 _ _ HI)); lia|]. simpl.
  destruct (heap_alloc_ok memseg m segs (Z.to_nat i) size flags align bound HI) as (m' & r & -> & Ho); [lia|done|done|]. exists m', r. split; [done|]. by apply outcome_answer.
Qed.
Lemma try_heaps_answer hs socket : Forall (λ i, 0 <= i < 8) hs → ∃ m' r, try_heaps memseg hs socket size flags align bound m = Some (m', r) ∧
  answer (∀ i, i ∈ hs → i ≠ socket → no_room memseg segs (Z.to_nat i) s flags al bound) m segs s al bound m' r.
Proof.
  intros Hhs. induction Hhs as [|i hs Hi Hhs IH]; simpl; [eexists _, _; split; [done|]; left; split_and!; [done|done|by intros i Hi%not_elem_of_nil]|].
  destruct (Z.eqb_spec i socket) as [->|Hne].
  - destruct IH as (m' & r & -> & Hr). exists m', r. split; [done|]. destruct Hr as [(-> & -> & Hr)|Hr]; [left|by right]. split_and!; [done|done|].
    intros j Hj ?. apply elem_of_cons in Hj as [->|Hj]; [done|by apply Hr].
  - destruct (heap_alloc_answer i Hi) as (m1 & r1 & -> & Hr1). simpl. destruct Hr1 as [(-> & -> & Hn)|[Hr1 Hg]].
    + simpl. destruct IH as (m' & r & -> & Hr). exists m', r. split; [done|]. destruct Hr as [(-> & -> & Hr)|Hr]; [left|by right]. split_and!; [done|done|].
      intros j Hj ?. apply elem_of_cons in Hj as [->|Hj]; [done|by apply Hr].
    + destruct (Z.eqb_spec r1 NULL); [done|]. simpl. eexists _, _. split; [done|]. by right.
Qed.
End calls.

Lemma is_power_of_2_spec x : 0 <= x < 2 ^ 32 → rte_is_power_of_2 x = true ↔ ∃ k, 0 <= k <= 31 ∧ x = 2 ^ k.
Proof.
  intros Hx. unfold rte_is_power_of_2. rewrite andb_true_iff, negb_true_iff, Z.eqb_neq, Z.eqb_eq. split.
  - intros [Hn H]. rewrite u32_small in H by (unfold is_u32; lia). rewrite Z.land_comm in H. destruct (land_pred_pow2 x) as (k & Hk & ->); [lia|done|]. exists k. split; [|done].
    split; [done|]. destruct Hx as [_ Hx]. apply Z.pow_lt_mono_r_iff in Hx; lia.
  - intros (k & Hk & ->). pose proof (Z.pow_pos_nonneg 2 k ltac:(lia) ltac:(lia)). split; [lia|]. rewrite u32_small by (unfold is_u32; lia). apply land_pred_pow2_0. lia.
Qed.

(** The alignment that a call asks for: 0 means any. *)
Definition align_of (align : Z) : Z := if align =? 0 then 1 else align.
Lemma malloc_answer memseg hugepages sock m segs size align arg : inv m segs → mapped memseg segs → asks size (align_of align) 0 segs → 0 <= align < 2 ^ 32 →
  let arg' := if negb hugepages then SOCKET_ID_ANY else arg in let socket := if arg' =? SOCKET_ID_ANY then i32 (malloc_get_numa_socket sock) else arg' in
  0 <= socket →
  ∃ m' r, rte_malloc_socket memseg hugepages sock size align arg m = Some (m', r) ∧
    answer (8 <= socket ∨ ∀ i, 0 <= i < 8 → arg' = SOCKET_ID_ANY ∨ i = arg' → no_room memseg segs (Z.to_nat i) (RTE_CACHE_LINE_ROUNDUP size) 0 (RTE_CACHE_LINE_ROUNDUP (align_of align)) 0)
      m segs (RTE_CACHE_LINE_ROUNDUP size) (RTE_CACHE_LINE_ROUNDUP (align_of align)) 0 m' r.
Proof.
  intros HI HM HA Hal arg' socket Hsk. unfold rte_malloc_socket. fold arg'. fold socket. fold (align_of align). assert (Hsz : size =? 0 = false) by (apply Z.eqb_neq; destruct HA; lia).
  assert (Hpow : negb (align =? 0) && negb (rte_is_power_of_2 align) = false).
  { destruct (Z.eqb_spec align 0) as [|Hn]; [done|]. simpl. apply negb_false_iff, is_power_of_2_spec; [done|]. destruct HA as [_ HA _ _ _]. unfold align_of in HA. by destruct (Z.eqb_spec align 0). }
  rewrite Hsz, Hpow. cbn [orb]. unfold RTE_MAX_NUMA_NODES. rewrite Z.geb_leb. destruct (Z.leb_spec 8 socket); [eexists _, _; split; [done|]; left; auto|].
  assert (Hb0 : ∀ x y : Z, 0 = 0 ∨ x <= 0 ∧ y <= 0) by (intros; by left). destruct (heap_alloc_answer memseg m segs HI HM size 0 (align_of align) 0 HA (Hb0 _ _) socket) as (m1 & r1 & -> & Hr1); [lia|]. cbn [mbind option_bind].
  destruct Hr1 as [(-> & -> & Hn)|[Hr1 Hg]]; [|destruct (Z.eqb_spec r1 NULL); [done|]; cbn [negb orb]; eexists _, _; split; [done|by right]]. cbn [negb orb Z.eqb NULL].
  destruct (Z.eqb_spec arg' SOCKET_ID_ANY) as [He|Hne]; cbn [negb orb].
  - destruct (try_heaps_answer memseg m segs HI HM size 0 (align_of align) 0 HA (Hb0 _ _) all_heaps socket) as (m' & r & -> & Hr).
    { apply Forall_forall. intros i Hi%elem_of_seqZ. unfold RTE_MAX_NUMA_NODES in Hi. lia. }
    exists m', r. split; [done|].
    destruct Hr as [(-> & -> & Hr)|Hr]; [left|by right]. split_and!; [done|done|]. right. intros i Hi _. destruct (decide (i = socket)) as [->|]; [done|]. apply Hr; [|done]. unfold all_heaps. apply elem_of_seqZ. unfold RTE_MAX_NUMA_NODES. lia.
  - eexists _, _. split; [done|]. left. split_and!; [done|done|]. right. intros i Hi [?| ->]; [done|]. unfold socket in *. by destruct (Z.eqb_spec arg' SOCKET_ID_ANY).
Qed.
