(* ===== verification/MallocSafe.v ===== *)
(** * What the malloc library promises

    A process that calls the library with the blocks it was given, and writes
    into them as it likes, always finds the heaps in order: the calls return,
    the blocks do not overlap, and freeing them gives all the memory back. *)
From S2P Require Import Prelude Align Malloc MallocFit MallocInv MallocOps MallocHeap MallocAlloc MallocInit RteMalloc.
Open Scope Z_scope.

(** ** Blocks handed out do not overlap *)

Definition clear_of (p q : Z * Z) : Prop := p.1 + p.2 <= q.1 ∨ q.1 + q.2 <= p.1.
Fixpoint disjoint_blocks (l : list (Z * Z)) : Prop := match l with [] => True | p :: l => Forall (clear_of p) l ∧ disjoint_blocks l end.
Lemma disjoint_app l r : disjoint_blocks (l ++ r) ↔ disjoint_blocks l ∧ disjoint_blocks r ∧ Forall (λ p, Forall (clear_of p) r) l.
Proof. induction l as [|p l IH]; simpl; [split; [intros; split_and!|]; tauto || done|]. rewrite Forall_app, IH, Forall_cons. tauto. Qed.
#[export] Instance disjoint_blocks_perm : Proper (Permutation ==> iff) disjoint_blocks.
Proof.
  assert (∀ l l', l ≡ₚ l' → disjoint_blocks l → disjoint_blocks l') as Hm.
  { induction 1 as [|x l l' Hp IH|x y l|]; simpl; [done| | |tauto].
    - intros [H1 H2]. split; [by rewrite <- Hp|by apply IH].
    - rewrite !Forall_cons. unfold clear_of. intuition lia. }
  intros l l' Hp. split; apply Hm; [done|by symmetry].
Qed.
Lemma disjoint_of_range a E h i p l : lseg E h i p a l → disjoint_blocks (live_of a l).
Proof.
  revert p a. induction l as [|b l IH]; intros p a; simpl; [done|]. intros ((_ & _ & ? & ?) & _ & Hl). destruct (is_busy b); simpl; [|by eapply IH].
  split; [|by eapply IH]. apply Forall_forall. intros [q k] Hq. apply (live_of_range _ _ _ _ _ _ _ _ Hl) in Hq. left. simpl. unfold MALLOC_ELEM_OVERHEAD, MALLOC_ELEM_HEADER_LEN, MALLOC_ELEM_TRAILER_LEN. lia.
Qed.
Lemma live_disjoint E segs : Forall (seg_ok E) segs → apart (spans segs) → disjoint_blocks (live segs).
Proof.
  intros HS. induction HS as [|s segs Hs HS IH]; [done|]. intros [Ha Hap]. change (live (s :: segs)) with (live_of (s_base s) (s_blks s) ++ live segs). rewrite disjoint_app. destruct Hs as [[Hl _] _ _ _].
  split_and!; [by eapply disjoint_of_range|by apply IH|]. apply Forall_forall. intros [p n] Hp. apply Forall_forall. intros [q k] Hq.
  apply (live_of_range _ _ _ _ _ _ _ _ Hl) in Hp. destruct (live_range _ _ _ _ HS Hq) as (t & Ht & Ht1 & Ht2). rewrite Forall_forall in Ha. specialize (Ha (s_base t, s_end t) ltac:(apply list_elem_of_fmap; eauto)).
  unfold clear_of, s_end in *. simpl in *. lia.
Qed.

(** Where a block is: in a segment, aligned to a cache line, at least one line long. *)
Lemma live_place m segs p n : inv m segs → (p, n) ∈ live segs → (64 | p) ∧ 64 <= n ∧ 0 < p ∧ ∃ s, s ∈ segs ∧ s_base s + 64 <= p ∧ p + n <= s_end s.
Proof.
  intros HI Hin. destruct (live_range _ _ _ _ (i_segs _ _ (v_inv0 _ _ HI)) Hin) as (s & Hs & H1 & H2). destruct (live_locate _ _ _ Hin) as (C & b & -> & Hb & -> & ->).
  destruct (busy_ok b (inv_block _ _ _ HI) Hb) as (_ & _ & Hmin). pose proof (inv0_place _ _ _ (v_inv0 _ _ HI)) as [_ ((_ & Hdp & ? & _) & _) _ [Pb Pb'] Pa _ _].
  unfold MALLOC_ELEM_OVERHEAD, MALLOC_ELEM_HEADER_LEN, MALLOC_ELEM_TRAILER_LEN in *. split_and!; [div64|lia|lia|eauto].
Qed.
Lemma live_nodup m segs : inv m segs → NoDup (live segs).*1.
Proof.
  intros HI. pose proof (live_disjoint _ _ (i_segs _ _ (v_inv0 _ _ HI)) (i_apart _ _ (v_inv0 _ _ HI))) as Hd.
  assert (Hp : Forall (λ p, 64 <= p.2) (live segs)) by (apply Forall_forall; intros [p n] Hin; by destruct (live_place _ _ _ _ HI Hin) as (_ & ? & _)).
  induction (live segs) as [|[p n] l IH]; simpl in *; [constructor|]. apply Forall_cons in Hp as [Hp1 Hp2]. destruct Hd as [Hd1 Hd2]. constructor; [|by apply IH].
  intros Hin. apply list_elem_of_fmap in Hin as ([q k] & Heq & Hin). rewrite Forall_forall in Hd1, Hp2. pose proof (Hd1 _ Hin). pose proof (Hp2 _ Hin). unfold clear_of in *. simpl in *. lia.
Qed.

(** ** The data of a block is the caller's *)

Lemma elem_write m segs p n a e : inv m segs → (p, n) ∈ live segs → p <= a < p + n → inv (set_elem a e m) segs.
Proof.
  intros HI Hin Ha. assert (Hlive := Hin). apply live_locate in Hin as (C & b & -> & Hb & -> & ->). destruct HI as [HI0 HB HC]. pose proof (inv0_place _ _ _ HI0) as [Pl ((Hd1 & Hd2 & ? & ?) & [Hh Hpad] & _) Pr _ _ _ _].
  pose proof (lseg_sz _ _ _ _ _ _ Pl). pose proof (lseg_sz _ _ _ _ _ _ (proj1 Pr)). simpl in *. rewrite Z.add_0_r in *. unfold MALLOC_ELEM_OVERHEAD, MALLOC_ELEM_HEADER_LEN, MALLOC_ELEM_TRAILER_LEN in *.
  split; [|done|done]. eapply (inv0_replace m _ C [b]); [done|done| | |by split; [intros y Hy; simpl in Hy; rewrite ?elems_set, lookup_insert_ne by lia|]|by apply lists_same].
  - simpl. split; [done|]. split; [split; [rewrite ?elems_set, lookup_insert_ne by lia; done|]|done]. intros Hbb Hp. destruct (Hpad Hbb Hp) as (x & Hx & ?). exists x. rewrite ?elems_set, lookup_insert_ne by lia. done.
  - simpl. rewrite Z.add_0_r, ?elems_set, lookup_insert_ne by lia. destruct (chain_first _ _ _ _ _ _ Pr) as (nx & Hnx & Hpr). rewrite Hnx. simpl. rewrite <- Hpr. by destruct nx.
Qed.

(** ** Free and realloc *)

Lemma rte_free_ok m segs p n : inv m segs → (p, n) ∈ live segs →
  ∃ m' segs', rte_free p m = Some (Ret m') ∧ inv m' segs' ∧ layout segs' = layout segs ∧ live segs ≡ₚ (p, n) :: live segs' ∧ keeps segs' m m'.
Proof.
  intros HI Hin. destruct (live_place _ _ _ _ HI Hin) as (_ & _ & Hp & _). destruct (free_inv _ _ _ _ HI Hin) as (elem & m' & segs' & Hfd & Hfree & HI' & Hly & Hlv & Hk).
  exists m', segs'. unfold rte_free, NULL. destruct (Z.eqb_spec p 0); [lia|]. rewrite Hfd. simpl. rewrite Hfree. done.
Qed.

Lemma validate_ok m segs p n : inv m segs → (p, n) ∈ live segs → rte_malloc_validate p m = Some (0, Some n).
Proof.
  intros HI Hin. apply live_locate in Hin as (C & b & -> & Hb & -> & ->). unfold rte_malloc_validate. rewrite (from_data_ok _ _ _ HI Hb). simpl.
  pose proof (inv0_place _ _ _ (v_inv0 _ _ HI)) as [_ ((_ & _ & ? & ?) & [Hh _] & _) Pr [Pb Pb'] _ Pe _]. pose proof (lseg_sz _ _ _ _ _ _ (proj1 Pr)). simpl in Pe.
  destruct (Z.eqb_spec (here C) NULL) as [Hn|_]; [unfold NULL in Hn; lia|]. rewrite Hh. simpl. unfold MALLOC_ELEM_OVERHEAD, MALLOC_ELEM_HEADER_LEN, MALLOC_ELEM_TRAILER_LEN. rewrite u64_small; [done|unfold is_u64; lia].
Qed.

(** ** Contents *)

Lemma copy_from_lookup b0 dst src n b y : copy_from b0 dst src n b !! y = if decide (dst <= y < dst + Z.of_nat n) then b0 !! (src + (y - dst)) else b !! y.
Proof.
  revert dst src b. induction n as [|n IH]; intros dst src b; simpl; [by rewrite decide_False by lia|]. rewrite IH. destruct (decide (y = dst)) as [->|Hne].
  - rewrite decide_False, decide_True by lia. rewrite lookup_partial_alter_eq. f_equal. lia.
  - rewrite lookup_partial_alter_ne by done. repeat case_decide; try lia; [f_equal; lia|done].
Qed.
Lemma memset0_lookup p n b y : memset0 p n b !! y = if decide (p <= y < p + Z.of_nat n) then Some 0 else b !! y.
Proof.
  revert p b. induction n as [|n IH]; intros p b; simpl; [by rewrite decide_False by lia|]. rewrite IH. destruct (decide (y = p)) as [->|Hne].
  - rewrite decide_False, decide_True by lia. by rewrite lookup_insert_eq.
  - rewrite lookup_insert_ne by done. repeat case_decide; try lia; done.
Qed.

(** The three ends of [rte_realloc] of a block of [n] bytes at [p]; [gap] is its padding. *)
Inductive realloced (segs : list seg) (r : ram) (p n size gap : Z) : ram → Z → Prop :=
  | re_in_place m' segs' n' others : inv m' segs' → layout segs' = layout segs → live segs ≡ₚ (p, n) :: others → live segs' ≡ₚ (p, n') :: others → keeps segs (hdrs r) m' →
      n <= n' → size <= n' + gap → realloced segs r p n size gap (Ram m' (bytes r)) p
  | re_no_room : realloced segs r p n size gap r NULL
  | re_moved m' segs' q k others : q ≠ NULL → inv m' segs' → layout segs' = layout segs → live segs ≡ₚ (p, n) :: others → live segs' ≡ₚ (q, k) :: others →
      (∀ p' n' y, (p', n') ∈ others → p' <= y < p' + n' → elems m' !! y = elems (hdrs r) !! y) → size <= k →
      realloced segs r p n size gap (Ram m' (memcpy q p (Z.to_nat (Z.min (u32 (n + gap)) size)) (bytes r))) q.

Lemma roundup_line x : (64 | RTE_CACHE_LINE_ROUNDUP x).
Proof.
  unfold RTE_CACHE_LINE_ROUNDUP, RTE_CACHE_LINE_SIZE. pose proof (u64_range (x + 64 - 1)) as Hr. unfold is_u64 in Hr. set (y := u64 (x + 64 - 1)) in *.
  pose proof (Z.div_mod y 64). pose proof (Z.mod_pos_bound y 64). rewrite u64_small by (unfold is_u64; lia). apply Z.divide_factor_l.
Qed.
Lemma block_header m segs a b : inv m segs → (a, b) ∈ blocks segs → 0 < a ∧ ∃ e, elems m !! a = Some e ∧ size e = b_size b.
Proof.
  intros HI Hab. apply blocks_locate in Hab as (C & -> & <-). pose proof (inv0_place _ _ _ (v_inv0 _ _ HI)) as [_ (_ & [Hh _] & _) _ [? ?] _ _ _]. split; [lia|]. eauto.
Qed.
Lemma block_from_data m segs a b : inv m segs → (a, b) ∈ blocks segs → b_state b = ELEM_BUSY → malloc_elem_from_data (a + b_pad b + MALLOC_ELEM_HEADER_LEN) m = Some a.
Proof. intros HI Hab Hb. apply blocks_locate in Hab as (C & -> & <-). by apply from_data_ok. Qed.

Section realloc.
Context (memseg : list rte_memseg) (hugepages : bool) (sock : Z).
Definition any_socket : Z := i32 (malloc_get_numa_socket sock).

(** The part of [rte_realloc] that moves the block. *)
Definition move (p elem s al : Z) (r : ram) : option (exit (ram * Z)) :=
  '(m, new_ptr) ← rte_malloc memseg hugepages sock s al (hdrs r);
  if new_ptr =? NULL then Some (Ret (Ram m (bytes r), NULL)) else
  e ← elems m !! elem;
  let old_size := u32 (size e - MALLOC_ELEM_OVERHEAD) in
  let b := memcpy new_ptr p (Z.to_nat (if old_size <? s then old_size else s)) (bytes r) in
  x ← rte_free p m;
  Some (match x with Ret m => Ret (Ram m b, new_ptr) | Panic => Panic end).

Lemma move_ok r segs a b p n s al : inv (hdrs r) segs → mapped memseg segs → (a, b) ∈ blocks segs → b_state b = ELEM_BUSY →
  p = a + b_pad b + MALLOC_ELEM_HEADER_LEN → n = b_size b - b_pad b - MALLOC_ELEM_OVERHEAD → 0 <= any_socket < 8 → 0 <= al < 2 ^ 32 → asks s (align_of al) 0 segs → (64 | s) →
  ∃ r' q, move p a s al r = Some (Ret (r', q)) ∧ realloced segs r p n s (b_pad b) r' q.
Proof.
  intros HI HM Hab Hb Hpe Hne Hsock Hal HA Hsd. assert (Hin : (p, n) ∈ live segs) by (apply live_blocks; exists a, b; done).
  apply elem_of_Permutation in Hin as [others Hl1]. unfold move, rte_malloc.
  destruct (malloc_answer memseg hugepages sock (hdrs r) segs s al SOCKET_ID_ANY HI HM HA Hal) as (m1 & q & -> & Hans); [destruct hugepages; apply Hsock|]. cbn [mbind option_bind].
  destruct Hans as [(-> & -> & _)|(Hq & segs1 & k & Hg)]; [eexists _, _; split; [done|]; destruct r; apply re_no_room|]. destruct (Z.eqb_spec q NULL); [done|]. destruct Hg as [HI1 Hly1 Hlv1 Hsz1 _ _ Hk1 Hbk].
  pose proof (Hbk _ _ Hab Hb) as Hab1. assert (Hin1 : (p, n) ∈ live segs1) by (apply live_blocks; exists a, b; done). destruct (block_header _ _ _ _ HI1 Hab1) as (_ & e & -> & He).
  cbn [mbind option_bind]. rewrite He. destruct (rte_free_ok _ _ _ _ HI1 Hin1) as (m2 & segs2 & -> & HI2 & Hly2 & Hlv2 & Hk2). cbn [mbind option_bind].
  eexists _, _. split; [done|]. replace (b_size b - MALLOC_ELEM_OVERHEAD) with (n + b_pad b) by lia.
  replace (if u32 (n + b_pad b) <? s then u32 (n + b_pad b) else s) with (Z.min (u32 (n + b_pad b)) s) by (tests; lia).
  assert (Hlv3 : live segs2 ≡ₚ (q, k) :: others).
  { rewrite Hlv1, Hl1, Permutation_swap in Hlv2. apply Permutation_cons_inv in Hlv2. by symmetry. }
  assert (Hrs : RTE_CACHE_LINE_ROUNDUP s = s).
  { destruct HA as [Hs0 (j & Hj & Hj2) _ _ Hs1]. pose proof (Z.pow_pos_nonneg 2 j). destruct (roundup_size s) as (Hr & [x1 Hx1] & _); [lia|]. destruct Hsd as [x2 Hx2]. lia. }
  eapply (re_moved _ _ _ _ _ _ m2 segs2 q k others); [done|done|by rewrite Hly2, Hly1|done|done| |lia].
  intros p' n1 y Hin' Hy. rewrite (Hk2 p' n1 y) by (done || rewrite Hlv3; by right). apply (Hk1 p' n1 y); [rewrite Hl1; by right|done].
Qed.

Lemma realloc_ok r segs p n size align : inv (hdrs r) segs → mapped memseg segs → (p, n) ∈ live segs → 0 <= any_socket < 8 →
  asks (RTE_CACHE_LINE_ROUNDUP size) (align_of (roundup32 align)) 0 segs →
  ∃ gap r' q, 0 <= gap <= 64 ∧ malloc_elem_from_data p (hdrs r) = Some (p - 64 - gap) ∧
    rte_realloc memseg hugepages sock p size align r = Some (Ret (r', q)) ∧ realloced segs r p n (RTE_CACHE_LINE_ROUNDUP size) gap r' q.
Proof.
  intros HI HM Hin Hsock HA. pose proof (roundup_line size) as Hsd. set (s := RTE_CACHE_LINE_ROUNDUP size) in *. set (al := roundup32 align) in *.
  assert (0 <= al < 2 ^ 32) as Hal by apply u32_range. assert (0 < s < 2 ^ 63) as Hs by (destruct HA as [? (k & Hk & Hp) _ _ ?]; pose proof (Z.pow_pos_nonneg 2 k); lia).
  destruct (resize_inv _ _ _ _ s HI Hin Hsd) as (elem & m' & ret & segs' & n' & Hfd & Hgap & Hrs & HI' & Hly & (others & Hl1 & Hl2) & Hk & Hres); [lia|lia|].
  destruct (live_place _ _ _ _ HI Hin) as (_ & _ & Hp & _). apply live_blocks in Hin as (a & b & Hab & Hb & Hpe & Hne).
  pose proof (block_from_data _ _ _ _ HI Hab Hb) as Hfd'. rewrite <- Hpe, Hfd in Hfd'. injection Hfd' as ->. destruct (block_header _ _ _ _ HI Hab) as [Ha0 _].
  assert (Hpad : b_pad b = p - 64 - a) by (rewrite Hpe; unfold MALLOC_ELEM_HEADER_LEN; lia).
  destruct (move_ok r segs a b p n s al HI HM Hab Hb Hpe Hne Hsock Hal HA Hsd) as (r1 & q1 & Hm1 & Hr1). exists (b_pad b).
  unfold rte_realloc. destruct (Z.eqb_spec p NULL) as [H0|_]; [unfold NULL in H0; lia|]. rewrite Hfd. cbn [mbind option_bind]. destruct (Z.eqb_spec a NULL) as [H0|_]; [unfold NULL in H0; lia|]. fold s. fold al.
  destruct (Z.eqb_spec (RTE_PTR_ALIGN p al) p).
  - rewrite Hrs. cbn [mbind option_bind]. destruct Hres as [(-> & Hn' & Hsz)|(-> & _ & -> & _ & _)].
    + cbn [Z.eqb]. eexists _, _. split_and!; [lia|lia|by f_equal; lia|done|]. eapply re_in_place; try done. lia.
    + cbn [Z.eqb]. exists r1, q1. split_and!; [lia|lia|by f_equal; lia|exact Hm1|done].
  - cbn [mbind option_bind Z.eqb]. exists r1, q1. split_and!; [lia|lia|by f_equal; lia|exact Hm1|done].
Qed.
End realloc.
