(* ===== verification/Memzone.v ===== *)
(** * Memory zones

    [lib/librte_eal/common/eal_common_memzone.c]: named pieces of the heaps of
    [Malloc.v]. The table of zones is in the configuration that the processes
    share; a zone with address [NULL] is a free entry. The write lock of
    [mcfg->mlock] makes a call one step. *)
From S2P Require Import Prelude CStr Align Malloc MallocFit MallocInv MallocOps MallocHeap MallocAlloc MallocInit RteMalloc MallocSafe.
Open Scope Z_scope.

Definition RTE_MAX_MEMZONE : Z := 2560.
Definition RTE_MEMZONE_NAMESIZE : Z := 32.
Definition RTE_CACHE_LINE_MASK : Z := 63.

Record rte_memzone := Mz {
  z_name : string; z_phys_addr : Z; z_addr : Z; z_ioremap_addr : Z; z_len : Z;
  z_hugepage_sz : Z; z_socket_id : Z; z_flags : Z; z_memseg_id : Z }.
(** An entry of the table that holds a zone. *)
Definition in_use (z : rte_memzone) : Prop := z_addr z ≠ NULL.
#[export] Instance in_use_dec z : Decision (in_use z).
Proof. unfold in_use. apply _. Defined.
Definition zero_memzone : rte_memzone := Mz "" 0 NULL 0 0 0 0 0 0.

Record mem_config := Cfg { heapmem : mem; memzone : list rte_memzone; memzone_cnt : Z }.
#[export] Instance mem_config_upd : Updatable mem_config := λ c, Cfg (heapmem c) (memzone c) (memzone_cnt c).

Section memzone.
Context (memseg : list rte_memseg) (has_hugepages : bool) (rte_socket_id : Z).

(** The position of the first zone in use with this name. *)
Fixpoint lookup_from (zs : list rte_memzone) (i : nat) (name : string) : option nat :=
  match zs with
  | [] => None
  | z :: zs => if negb (z_addr z =? NULL) && strncmp_eq name (z_name z) (Z.to_nat RTE_MEMZONE_NAMESIZE) then Some i else lookup_from zs (S i) name
  end.
Definition memzone_lookup_thread_unsafe (name : string) (c : mem_config) : option nat := lookup_from (memzone c) 0 name.
Definition rte_memzone_lookup (name : string) (c : mem_config) : option nat := memzone_lookup_thread_unsafe name c.

Fixpoint free_from (zs : list rte_memzone) (i : nat) : option nat :=
  match zs with
  | [] => None
  | z :: zs => if z_addr z =? NULL then Some i else free_from zs (S i)
  end.
Definition get_next_free_memzone (c : mem_config) : option nat := free_from (memzone c) 0.

(** The loop over the heaps: the greatest block so far and where it is. *)
Fixpoint max_free (hs : list Z) (socket : Z) (m : mem) (len s : Z) : option (Z * Z) :=
  match hs with
  | [] => Some (len, s)
  | i :: hs =>
      if negb (socket =? SOCKET_ID_ANY) && negb (socket =? i) then max_free hs socket m len s else
      stats ← malloc_heap_get_stats (Z.to_nat i) m;
      if greatest_free_size stats >? len then max_free hs socket m (greatest_free_size stats) i else max_free hs socket m len s
  end.
Definition find_heap_max_free_elem (s align : Z) (m : mem) : option (Z * Z) :=
  '(len, s) ← max_free all_heaps s m 0 s;
  Some (u64 (len - MALLOC_ELEM_OVERHEAD - align), s).

(** The position of the new zone, or [rte_errno]. *)
Definition memzone_reserve_aligned_thread_unsafe (name : string) (len_ socket_id_ flags align bound : Z) (c : mem_config) : option (mem_config * (nat + Z)) :=
  if memzone_cnt c >=? RTE_MAX_MEMZONE then Some (c, inr ENOSPC) else
  if bool_decide (memzone_lookup_thread_unsafe name c ≠ None) then Some (c, inr EEXIST) else
  if negb (align =? 0) && negb (rte_is_power_of_2 align) then Some (c, inr EINVAL) else
  let align := if align <? RTE_CACHE_LINE_SIZE then RTE_CACHE_LINE_SIZE else align in
  if len_ >? SIZE_MAX - RTE_CACHE_LINE_MASK then Some (c, inr EINVAL) else
  let len_ := Z.land (u64 (len_ + RTE_CACHE_LINE_MASK)) (u64 (Z.lnot RTE_CACHE_LINE_MASK)) in
  let requested_len := Z.max RTE_CACHE_LINE_SIZE len_ in
  if negb (bound =? 0) && ((requested_len >? bound) || negb (rte_is_power_of_2 bound)) then Some (c, inr EINVAL) else
  if negb (socket_id_ =? SOCKET_ID_ANY) && (socket_id_ >=? RTE_MAX_NUMA_NODES) then Some (c, inr EINVAL) else
  let socket_id_ := if negb has_hugepages then SOCKET_ID_ANY else socket_id_ in
  '(requested_len, socket_id_) ← (if len_ =? 0 then
      if negb (bound =? 0) then Some (bound, socket_id_) else find_heap_max_free_elem socket_id_ align (heapmem c)
    else Some (requested_len, socket_id_));
  let socket := if socket_id_ =? SOCKET_ID_ANY then i32 (malloc_get_numa_socket rte_socket_id) else socket_id_ in
  '(m, mz_addr) ← heap_alloc memseg socket requested_len flags align bound (heapmem c);
  '(m, mz_addr) ← (if (mz_addr =? NULL) && (socket_id_ =? SOCKET_ID_ANY) then try_heaps memseg all_heaps socket requested_len flags align bound m else Some (m, mz_addr));
  let c := c <| heapmem := m |> in
  if mz_addr =? NULL then Some (c, inr ENOMEM) else
  elem ← malloc_elem_from_data mz_addr m;
  match get_next_free_memzone c with
  | None => Some (c, inr ENOSPC)
  | Some i =>
      e ← elems m !! elem;
      s ← memseg !! ms e;
      phys ← rte_malloc_virt2phy memseg mz_addr m;
      let mz := Mz (snprintf RTE_MEMZONE_NAMESIZE name) phys mz_addr 0 (if requested_len =? 0 then size e else requested_len)
        (hugepage_sz s) (socket_id s) 0 (Z.of_nat (ms e)) in
      Some (c <| memzone_cnt := u32 (memzone_cnt c + 1) |> <| memzone := <[i := mz]> (memzone c) |>, inl i)
  end.

Definition rte_memzone_reserve_bounded := memzone_reserve_aligned_thread_unsafe.
Definition rte_memzone_reserve_aligned (name : string) (len socket_id flags align : Z) (c : mem_config) : option (mem_config * (nat + Z)) :=
  memzone_reserve_aligned_thread_unsafe name len socket_id flags align 0 c.
Definition rte_memzone_reserve (name : string) (len socket_id flags : Z) (c : mem_config) : option (mem_config * (nat + Z)) :=
  memzone_reserve_aligned_thread_unsafe name len socket_id flags RTE_CACHE_LINE_SIZE 0 c.

(** [mz] is the position of the zone, [None] for [NULL]. *)
Definition rte_memzone_free (mz : option nat) (c : mem_config) : option (exit (mem_config * Z)) :=
  match mz with
  | None => Some (Ret (c, - EINVAL))
  | Some idx =>
      z ← memzone c !! idx;
      let ret := if negb (z_ioremap_addr z =? 0) then - EINVAL else 0 in
      if z_addr z =? NULL then Some (Ret (c, - EINVAL)) else
      if memzone_cnt c =? 0 then Some Panic else
      let c := c <| memzone := <[idx := zero_memzone]> (memzone c) |> <| memzone_cnt := u32 (memzone_cnt c - 1) |> in
      x ← rte_free (z_addr z) (heapmem c);
      Some (match x with Ret m => Ret (c <| heapmem := m |>, ret) | Panic => Panic end)
  end.

(** The zones that [rte_memzone_dump] prints, and those that [rte_memzone_walk] visits. *)
Fixpoint rte_memzone_dump (zs : list rte_memzone) : list rte_memzone :=
  match zs with
  | [] => []
  | z :: zs => if z_addr z =? NULL then [] else z :: rte_memzone_dump zs
  end.
Definition rte_memzone_walk (c : mem_config) : list rte_memzone := filter in_use (memzone c).

Definition rte_eal_memzone_init (secondary : bool) (c : mem_config) : option mem_config :=
  if secondary then Some c else
  m ← rte_eal_malloc_heap_init memseg (heapmem c);
  Some (Cfg m (replicate (Z.to_nat RTE_MAX_MEMZONE) zero_memzone) 0).
End memzone.
