(* ===== verification/MemzoneSafe.v ===== *)
(** * What memory zones promise

    Every zone in the table of [Memzone.v] is a block of a heap of its own, at
    least as long as it says and at the physical address it says; names are
    unique; a reserved zone is found by its name in every process until it is
    freed. *)
From S2P Require Import Prelude CStr Align Malloc MallocFit MallocInv MallocOps MallocHeap MallocAlloc MallocInit RteMalloc MallocSafe Memzone.
Open Scope Z_scope.

Section zones.
Context (memseg : list rte_memseg) (hugepages : bool) (sock : Z).

(** ** The invariant *)

Record zone_ok (segs : list seg) (z : rte_memzone) : Prop := {
  zo_block : ∃ k, (z_addr z, k) ∈ live segs ∧ 0 < z_len z <= k;
  zo_name : strlen (z_name z) < RTE_MEMZONE_NAMESIZE;
  zo_local : z_ioremap_addr z = 0;
  zo_phys : ∃ s, memseg !! Z.to_nat (z_memseg_id z) = Some s ∧ z_phys_addr z = u64 (phys_addr s + u64 (z_addr z - addr s)) ∧
    z_hugepage_sz z = hugepage_sz s ∧ z_socket_id z = socket_id s }.
Record zinv (c : mem_config) (segs : list seg) : Prop := {
  zi_inv : inv (heapmem c) segs;
  zi_len : Z.of_nat (length (memzone c)) = RTE_MAX_MEMZONE;
  zi_cnt : memzone_cnt c = Z.of_nat (length (rte_memzone_walk c));
  zi_zone : ∀ i z, memzone c !! i = Some z → in_use z → zone_ok segs z;
  zi_apart : ∀ i j z z', memzone c !! i = Some z → memzone c !! j = Some z' → in_use z → in_use z' → z_addr z = z_addr z' ∨ z_name z = z_name z' → i = j }.

(** ** Looking for a name and for a free entry *)

Lemma strncmp_32 a b : strlen a < RTE_MEMZONE_NAMESIZE → strlen b < RTE_MEMZONE_NAMESIZE → strncmp_eq a b (Z.to_nat RTE_MEMZONE_NAMESIZE) = bool_decide (a = b).
Proof.
  unfold strncmp_eq, strlen, RTE_MEMZONE_NAMESIZE. intros Ha Hb. rewrite !substring_all by lia. destruct (String.eqb_spec a b); [by rewrite bool_decide_true|by rewrite bool_decide_false].
Qed.
Lemma lookup_from_spec zs i name : strlen name < RTE_MEMZONE_NAMESIZE → (∀ j z, zs !! j = Some z → in_use z → strlen (z_name z) < RTE_MEMZONE_NAMESIZE) →
  match lookup_from zs i name with
  | Some k => ∃ j z, k = (i + j)%nat ∧ zs !! j = Some z ∧ in_use z ∧ z_name z = name
  | None => ∀ j z, zs !! j = Some z → in_use z → z_name z ≠ name
  end.
Proof.
  intros Hn. revert i. induction zs as [|z zs IH]; intros i Hz; simpl; [done|]. unfold in_use in *. specialize (IH (S i) (λ j y Hj, Hz (S j) y Hj)).
  assert (Hrec : negb (z_addr z =? NULL) && strncmp_eq name (z_name z) (Z.to_nat RTE_MEMZONE_NAMESIZE) = bool_decide (in_use z ∧ z_name z = name)).
  { unfold in_use. destruct (Z.eqb_spec (z_addr z) NULL) as [He|He]; simpl; [by rewrite bool_decide_false by tauto|]. rewrite strncmp_32 by (exact Hn || exact (Hz 0%nat z eq_refl He)).
    apply bool_decide_ext. intuition congruence. }
  rewrite Hrec. case_bool_decide as Hc; [exists 0%nat, z; split_and!; [lia|done|apply Hc..]|]. destruct (lookup_from zs (S i) name) as [k|].
  - destruct IH as (j & y & -> & ? & ?). exists (S j), y. split_and!; [lia|tauto..].
  - intros [|j] y Hj Hu; simpl in Hj; [injection Hj as <-; intros He; by apply Hc|by apply (IH j)].
Qed.
Lemma free_from_spec zs i : match free_from zs i with
  | Some k => ∃ j z, k = (i + j)%nat ∧ zs !! j = Some z ∧ ¬ in_use z
  | None => Forall in_use zs
  end.
Proof.
  revert i. induction zs as [|z zs IH]; intros i; simpl; [done|]. unfold in_use in *. destruct (Z.eqb_spec (z_addr z) NULL); [exists 0%nat, z; split_and!; [lia|done|tauto]|].
  specialize (IH (S i)). destruct (free_from zs (S i)) as [k|]; [destruct IH as (j & y & -> & ? & ?); exists (S j), y; split_and!; [lia|tauto..]|by constructor].
Qed.
Lemma lookup_found c segs name i : zinv c segs → strlen name < RTE_MEMZONE_NAMESIZE →
  rte_memzone_lookup name c = Some i ↔ ∃ z, memzone c !! i = Some z ∧ in_use z ∧ z_name z = name.
Proof.
  intros HI Hn. pose proof (lookup_from_spec (memzone c) 0 name Hn (λ j z Hj Hu, zo_name _ _ (zi_zone _ _ HI j z Hj Hu))) as Hs.
  unfold rte_memzone_lookup, memzone_lookup_thread_unsafe. destruct (lookup_from (memzone c) 0 name) as [k|].
  - destruct Hs as (j & z & -> & Hj & Hu & Hz). simpl. split; [intros [= <-]; eauto|]. intros (z' & Hi & Hu' & Hz'). f_equal. eapply (zi_apart _ _ HI j i); try done. right. congruence.
  - split; [done|]. intros (z & Hi & Hu & Hz). by apply (Hs i z) in Hz.
Qed.

(** ** Changing one entry *)

Lemma walk_insert (zs : list rte_memzone) i z z' : zs !! i = Some z → in_use z → ¬ in_use z' →
  filter in_use zs ≡ₚ z :: filter in_use (<[i := z']> zs).
Proof.
  intros Hi Hz Hz'. rewrite insert_take_drop by (by eapply lookup_lt_Some). rewrite <- (take_drop_middle zs i z Hi) at 1. rewrite !filter_app.
  rewrite (filter_cons_True in_use z), (filter_cons_False in_use z') by done. by rewrite Permutation_middle.
Qed.
Lemma walk_add (zs : list rte_memzone) i z z' : zs !! i = Some z → ¬ in_use z → in_use z' → filter in_use (<[i := z']> zs) ≡ₚ z' :: filter in_use zs.
Proof.
  intros Hi Hz Hz'. rewrite (walk_insert (<[i := z']> zs) i z' z) by (done || apply list_lookup_insert_eq; by eapply lookup_lt_Some).
  rewrite list_insert_insert_eq. by rewrite (list_insert_id zs i z).
Qed.

(** A zone in a free entry, on a new block. *)
Lemma zinv_add c segs m' segs' i z0 z : zinv c segs → memzone c !! i = Some z0 → ¬ in_use z0 → inv m' segs' → (∃ k, live segs' ≡ₚ (z_addr z, k) :: live segs) →
  in_use z → zone_ok segs' z → (∀ j y, memzone c !! j = Some y → in_use y → z_name y ≠ z_name z) → memzone_cnt c < RTE_MAX_MEMZONE →
  zinv (Cfg m' (<[i := z]> (memzone c)) (u32 (memzone_cnt c + 1))) segs'.
Proof.
  intros HI Hi Hn0 HI' [k Hlk] Hu Hz Hnm Hcnt. destruct HI as [_ Hlen Hc Hzones Hap].
  assert (Hlt : (i < length (memzone c))%nat) by (by eapply lookup_lt_Some). pose proof (Permutation_length (walk_add (memzone c) i z0 z Hi Hn0 Hu)) as Hw. simpl in Hw.
  assert (Hnew : ∀ y, zone_ok segs y → z_addr y ≠ z_addr z).
  { intros y [(ky & Hky & _) _ _ _] He. pose proof (live_nodup _ _ HI') as Hnd. rewrite Hlk in Hnd. simpl in Hnd. apply NoDup_cons in Hnd as [Hnd _]. apply Hnd. apply list_elem_of_fmap. exists (z_addr y, ky). by rewrite He in *. }
  split; simpl; [done|by rewrite length_insert| | |].
  - unfold rte_memzone_walk in *. simpl. rewrite Hc in *. rewrite u32_small; [lia|]. unfold is_u32, RTE_MAX_MEMZONE in *. lia.
  - intros j y Hj Huy. destruct (decide (j = i)) as [->|]; [rewrite list_lookup_insert_eq in Hj by done; by injection Hj as <-|]. rewrite list_lookup_insert_ne in Hj by done.
    destruct (Hzones j y Hj Huy) as [(ky & Hky & ?) ? ? ?]. split; try done. exists ky. split; [rewrite Hlk; by right|done].
  - intros j1 j2 y1 y2 H1 H2 Hu1 Hu2 He. destruct (decide (j1 = i)) as [->|N1]; [rewrite list_lookup_insert_eq in H1 by done|rewrite list_lookup_insert_ne in H1 by done];
      (destruct (decide (j2 = i)) as [->|N2]; [rewrite list_lookup_insert_eq in H2 by done|rewrite list_lookup_insert_ne in H2 by done]).
    + done.
    + injection H1 as <-. exfalso. destruct He as [He|He]; [by apply (Hnew y2 (Hzones _ _ H2 Hu2))|by apply (Hnm _ _ H2 Hu2)].
    + injection H2 as <-. exfalso. destruct He as [He|He]; [by apply (Hnew y1 (Hzones _ _ H1 Hu1))|by apply (Hnm _ _ H1 Hu1)].
    + by eapply Hap.
Qed.
(** ** Reserving *)

(** The block for a zone: from one heap, or from any. *)
Lemma reserve_block m segs arg len flags al bound : inv m segs → mapped memseg segs → asks len al bound segs →
  bound = 0 ∨ RTE_CACHE_LINE_ROUNDUP al <= bound ∧ RTE_CACHE_LINE_ROUNDUP len <= bound →
  let socket := if arg =? SOCKET_ID_ANY then any_socket sock else arg in 0 <= socket < 8 →
  ∃ m1 r1 m' r, heap_alloc memseg socket len flags al bound m = Some (m1, r1) ∧
    (if (r1 =? NULL) && (arg =? SOCKET_ID_ANY) then try_heaps memseg all_heaps socket len flags al bound m1 else Some (m1, r1)) = Some (m', r) ∧
    answer (∀ i, 0 <= i < 8 → arg = SOCKET_ID_ANY ∨ i = arg → no_room memseg segs (Z.to_nat i) (RTE_CACHE_LINE_ROUNDUP len) flags (RTE_CACHE_LINE_ROUNDUP al) bound)
      m segs (RTE_CACHE_LINE_ROUNDUP len) (RTE_CACHE_LINE_ROUNDUP al) bound m' r.
Proof.
  intros HI HM HA HB socket Hsk. destruct (heap_alloc_answer memseg m segs HI HM len flags al bound HA HB socket Hsk) as (m1 & r1 & Hm1 & Hr1). exists m1, r1.
  destruct Hr1 as [(-> & -> & Hn)|[Hr1 Hg]]; [|exists m1, r1; destruct (Z.eqb_spec r1 NULL); [done|]; split_and!; [done|done|by right]]. cbn [Z.eqb NULL andb].
  unfold socket in *. destruct (Z.eqb_spec arg SOCKET_ID_ANY) as [He|Hne].
  - destruct (try_heaps_answer memseg m segs HI HM len flags al bound HA HB all_heaps (any_socket sock)) as (m' & r & Ht & Hr).
    { apply Forall_forall. intros i Hi%elem_of_seqZ. unfold RTE_MAX_NUMA_NODES in Hi. lia. }
    exists m', r. split_and!; [done|done|]. destruct Hr as [(-> & -> & Hr)|Hr]; [left|by right]. split_and!; [done|done|]. intros i Hi _. destruct (decide (i = any_socket sock)) as [->|]; [done|].
    apply Hr; [|done]. apply elem_of_seqZ. unfold RTE_MAX_NUMA_NODES. lia.
  - exists m, NULL. split_and!; [done|done|]. left. split_and!; [done|done|]. intros i Hi [?| ->]; done.
Qed.

(** The header of a new block, as the zone reads it. *)
Lemma zone_header m segs d k : inv m segs → mapped memseg segs → (d, k) ∈ live segs →
  ∃ elem e s, malloc_elem_from_data d m = Some elem ∧ elems m !! elem = Some e ∧ memseg !! ms e = Some s ∧ elem ≠ NULL ∧
    rte_malloc_virt2phy memseg d m = Some (u64 (phys_addr s + u64 (d - addr s))).
Proof.
  intros HI HM Hin. apply live_locate in Hin as (C & b & -> & Hb & -> & _). pose proof (from_data_ok _ _ _ HI Hb) as Hfd. destruct (plug_seg C [b]) as (sg & Hsg & _ & Hms & _).
  unfold mapped in HM. rewrite Forall_forall in HM. destruct (HM sg Hsg) as [s Hs]. rewrite Hms in Hs. pose proof (inv0_place _ _ _ (v_inv0 _ _ HI)) as [_ (_ & [Hh _] & _) _ [? ?] _ _ _].
  exists (here C), (Elem (c_heap C) (before C) (c_ms C) (b_state b) (b_pad b) (b_size b)), s. unfold rte_malloc_virt2phy. rewrite Hfd. cbn [mbind option_bind]. unfold NULL in *.
  split_and!; [done|done|done|lia|]. destruct (Z.eqb_spec (here C) 0); [lia|]. rewrite Hh. cbn [mbind option_bind Malloc.ms]. rewrite Hs. done.
Qed.

Definition zone_align (align : Z) : Z := if align <? RTE_CACHE_LINE_SIZE then RTE_CACHE_LINE_SIZE else align.
Definition zone_len (len : Z) : Z := (len + 63) / 64 * 64.

(** A request for a zone that stays in range. *)
Record zone_asks (name : string) (len arg align bound : Z) (segs : list seg) : Prop := {
  za_name : strlen name < RTE_MEMZONE_NAMESIZE;
  za_len : 0 < len <= SIZE_MAX - RTE_CACHE_LINE_MASK;
  za_align : align = 0 ∨ rte_is_power_of_2 align = true;
  za_ranges : is_u32 align ∧ is_u32 bound;
  za_asks : asks (zone_len len) (zone_align align) bound segs;
  za_bound : bound = 0 ∨ zone_align align <= bound ∧ zone_len len <= bound;
  za_socket : let a := if negb hugepages then SOCKET_ID_ANY else arg in arg < 8 ∧ 0 <= (if a =? SOCKET_ID_ANY then any_socket sock else a) < 8 }.

Inductive reserved (c : mem_config) (segs : list seg) (name : string) (len arg flags align bound : Z) : mem_config → nat + Z → Prop :=
  | rs_full : memzone_cnt c = RTE_MAX_MEMZONE → reserved c segs name len arg flags align bound c (inr ENOSPC)
  | rs_exists i : rte_memzone_lookup name c = Some i → reserved c segs name len arg flags align bound c (inr EEXIST)
  | rs_no_room : rte_memzone_lookup name c = None →
      (∀ i, 0 <= i < 8 → (if negb hugepages then SOCKET_ID_ANY else arg) = SOCKET_ID_ANY ∨ i = (if negb hugepages then SOCKET_ID_ANY else arg) →
        no_room memseg segs (Z.to_nat i) (zone_len len) flags (zone_align align) bound) →
      reserved c segs name len arg flags align bound c (inr ENOMEM)
  | rs_zone c' segs' i z k : rte_memzone_lookup name c = None → zinv c' segs' → layout segs' = layout segs → live segs' ≡ₚ (z_addr z, k) :: live segs →
      memzone c' = <[i := z]> (memzone c) → (∃ z0, memzone c !! i = Some z0 ∧ ¬ in_use z0) → in_use z → z_name z = name → z_len z = zone_len len → (zone_align align | z_addr z) →
      (bound = 0 ∨ z_addr z / bound = (z_addr z + z_len z - 1) / bound) → keeps segs (heapmem c) (heapmem c') →
      reserved c segs name len arg flags align bound c' (inl i).

Lemma zone_len_eq len : 0 < len <= SIZE_MAX - RTE_CACHE_LINE_MASK →
  Z.land (u64 (len + RTE_CACHE_LINE_MASK)) (u64 (Z.lnot RTE_CACHE_LINE_MASK)) = zone_len len ∧ 64 <= zone_len len ∧ (64 | zone_len len).
Proof.
  unfold SIZE_MAX, RTE_CACHE_LINE_MASK. intros Hl. unfold zone_len. pose proof (align_ceil_spec 64 6 len ltac:(lia) ltac:(lia) ltac:(lia)) as He. split; [exact He|].
  destruct (floor_bounds (len + 63) 64) as [Hd Hb]; [lia|]. split; [|done]. destruct Hd as [q Hq]. lia.
Qed.
Lemma roundup_id x : (64 | x) → 0 < x < 2 ^ 63 → RTE_CACHE_LINE_ROUNDUP x = x.
Proof. intros [q Hq] Hx. destruct (roundup_size x Hx) as (Hr & [q' Hq'] & _). lia. Qed.
Lemma zone_align_line align : align = 0 ∨ rte_is_power_of_2 align = true → is_u32 align → (64 | zone_align align) ∧ 0 < zone_align align < 2 ^ 32.
Proof.
  intros Ha Hu. unfold zone_align, RTE_CACHE_LINE_SIZE, is_u32 in *. destruct (Z.ltb_spec align 64); [split; [by exists 1|lia]|]. destruct Ha as [->|Ha]; [lia|]. split; [|lia].
  apply is_power_of_2_spec in Ha as (k & Hk & ->); [|lia]. change 64 with (2 ^ 6) in *. apply pow2_divide; lia.
Qed.

Lemma reserve_ok c segs name len arg flags align bound : zinv c segs → mapped memseg segs → zone_asks name len arg align bound segs →
  ∃ c' r, memzone_reserve_aligned_thread_unsafe memseg hugepages sock name len arg flags align bound c = Some (c', r) ∧ reserved c segs name len arg flags align bound c' r.
Proof.
  intros HI HM [Hn Hl Hal [Hau Hbu] HA HB [Harg Hsk]]. unfold memzone_reserve_aligned_thread_unsafe. assert (Hcnt := zi_cnt _ _ HI). rewrite Z.geb_leb.
  assert (Hle : (length (rte_memzone_walk c) <= length (memzone c))%nat) by apply length_filter. pose proof (zi_len _ _ HI) as Hzl.
  destruct (Z.leb_spec RTE_MAX_MEMZONE (memzone_cnt c)); [eexists _, _; split; [done|]; apply rs_full; lia|].
  destruct (memzone_lookup_thread_unsafe name c) as [i0|] eqn:Hlk; [rewrite bool_decide_true by done; eexists _, _; split; [done|by eapply rs_exists]|]. rewrite bool_decide_false by tauto.
  assert (negb (align =? 0) && negb (rte_is_power_of_2 align) = false) as -> by (destruct Hal as [->| ->]; [done|by rewrite andb_false_r]). fold (zone_align align).
  destruct (Z.gtb_spec len (SIZE_MAX - RTE_CACHE_LINE_MASK)); [lia|]. destruct (zone_len_eq len Hl) as (-> & Hz64 & Hzd). rewrite !(Z.max_r RTE_CACHE_LINE_SIZE (zone_len len)) by done.
  assert (negb (bound =? 0) && ((zone_len len >? bound) || negb (rte_is_power_of_2 bound)) = false) as ->.
  { destruct HB as [->|HB]; [done|]. destruct HA as [_ _ [->|(j & Hj & Hj2)] _ _]; [done|]. assert (rte_is_power_of_2 bound = true) as ->; [|destruct (Z.gtb_spec (zone_len len) bound); [lia|]; by rewrite andb_false_r].
    apply is_power_of_2_spec; [done|]. exists j. split; [|done]. split; [lia|]. unfold is_u32 in Hbu. rewrite Hj2 in Hbu. destruct Hbu as [_ Hbu]. apply Z.pow_lt_mono_r_iff in Hbu; lia. }
  assert (negb (arg =? SOCKET_ID_ANY) && (arg >=? RTE_MAX_NUMA_NODES) = false) as -> by (unfold RTE_MAX_NUMA_NODES; rewrite Z.geb_leb; destruct (Z.leb_spec 8 arg); [lia|by rewrite andb_false_r]).
  destruct (Z.eqb_spec (zone_len len) 0); [lia|]. cbn [mbind option_bind]. set (a := if negb hugepages then SOCKET_ID_ANY else arg) in *. fold (any_socket sock).
  destruct (zone_align_line align Hal Hau) as [Hald Halr]. assert (Hra : RTE_CACHE_LINE_ROUNDUP (zone_align align) = zone_align align) by (apply roundup_id; [done|lia]).
  assert (Hrl : RTE_CACHE_LINE_ROUNDUP (zone_len len) = zone_len len) by (apply roundup_id; [done|]; destruct HA; lia).
  destruct (reserve_block (heapmem c) segs a (zone_len len) flags (zone_align align) bound (zi_inv _ _ HI) HM HA) as (m1 & r1 & m' & r & -> & Hr & Hans); [by rewrite Hra, Hrl|done|]. cbn [mbind option_bind]. rewrite Hr. cbn [mbind option_bind].
  rewrite Hra, Hrl in Hans. destruct Hans as [(-> & -> & Hno)|(Hrn & segs' & k & Hg)]; [eexists _, _; split; [done|]; destruct c; by apply rs_no_room|]. destruct (Z.eqb_spec r NULL); [done|].
  destruct Hg as [HI1 Hly1 Hlv1 Hsz1 Hga Hgb Hk1 _]. destruct (zone_header m' segs' r k HI1 (mapped_layout _ _ _ Hly1 HM)) as (elem & e & s & -> & He & Hs & _ & Hphys); [rewrite Hlv1; left|]. cbn [mbind option_bind].
  unfold get_next_free_memzone. simpl. pose proof (free_from_spec (memzone c) 0) as Hf. destruct (free_from (memzone c) 0) as [i|].
  2: { exfalso. assert (Hall := filter_Forall in_use _ Hf). unfold rte_memzone_walk in *. rewrite Hall in *. lia. }
  destruct Hf as (j & z0 & -> & Hj & Hn0). simpl. rewrite He. cbn [mbind option_bind]. rewrite Hs. cbn [mbind option_bind]. rewrite Hphys. cbn [mbind option_bind]. destruct (Z.eqb_spec (zone_len len) 0); [lia|].
  rewrite (snprintf_fits RTE_MEMZONE_NAMESIZE name) by done.
  match goal with |- context [<[j := ?x]> (memzone c)] => set (z := x) end. eexists _, _. split; [done|]. eapply (rs_zone _ _ _ _ _ _ _ _ _ segs' j z k); try done; [|by exists z0].
  eapply zinv_add; try done; [by exists k| |].
  - split; simpl; [exists k; split; [rewrite Hlv1; left|lia]|done|done|]. rewrite Nat2Z.id. eauto.
  - intros j' y Hj' Hu Hy. simpl in Hy. pose proof (lookup_found c segs name j' HI Hn) as [_ Hf]. unfold rte_memzone_lookup in Hf. rewrite Hlk in Hf. discriminate Hf. eauto.
Qed.

(** ** Freeing *)

Lemma memzone_free_ok c segs i z : zinv c segs → memzone c !! i = Some z → in_use z →
  ∃ c' segs' k, rte_memzone_free (Some i) c = Some (Ret (c', 0)) ∧ zinv c' segs' ∧ layout segs' = layout segs ∧ memzone c' = <[i := zero_memzone]> (memzone c) ∧
    live segs ≡ₚ (z_addr z, k) :: live segs' ∧ keeps segs' (heapmem c) (heapmem c').
Proof.
  intros HI Hi Hu. destruct (zi_zone _ _ HI _ _ Hi Hu) as [(k & Hk & _) _ Hio _]. destruct (rte_free_ok _ _ _ _ (zi_inv _ _ HI) Hk) as (m' & segs' & Hfree & HI' & Hly & Hlv & Hkp).
  pose proof (Permutation_length (walk_insert (memzone c) i z zero_memzone Hi Hu (λ H, H eq_refl))) as Hw. simpl in Hw. pose proof HI as [_ Hlen Hc Hz Hap]. unfold rte_memzone_walk in Hc.
  assert (Hcr : 0 < memzone_cnt c <= RTE_MAX_MEMZONE) by (pose proof (length_filter in_use (memzone c)); lia). unfold RTE_MAX_MEMZONE in Hcr.
  unfold rte_memzone_free. rewrite Hi. cbn [mbind option_bind]. rewrite Hio. destruct (Z.eqb_spec (z_addr z) NULL); [done|]. destruct (Z.eqb_spec (memzone_cnt c) 0); [lia|].
  simpl. rewrite Hfree. cbn [mbind option_bind]. eexists _, segs', k. split; [done|]. split_and!; try done. assert (Hlt : (i < length (memzone c))%nat) by (by eapply lookup_lt_Some). split; simpl.
  - done.
  - by rewrite length_insert.
  - unfold rte_memzone_walk. simpl. rewrite u32_small by (unfold is_u32; lia). lia.
  - intros j y Hj Huy. destruct (decide (j = i)) as [->|Hne]; [rewrite list_lookup_insert_eq in Hj by done; injection Hj as <-; by destruct Huy|]. rewrite list_lookup_insert_ne in Hj by done.
    destruct (Hz _ _ Hj Huy) as [(ky & Hky & ?) ? ? ?]. split; try done. exists ky. split; [|done]. rewrite Hlv in Hky. apply elem_of_cons in Hky as [He|]; [|done].
    injection He as He _. exfalso. apply Hne. eapply (Hap j i); try done. by left.
  - intros j1 j2 y1 y2 H1 H2 Hu1 Hu2 He. destruct (decide (j1 = i)) as [->|N1]; [rewrite list_lookup_insert_eq in H1 by done; injection H1 as <-; by destruct Hu1|rewrite list_lookup_insert_ne in H1 by done].
    destruct (decide (j2 = i)) as [->|N2]; [rewrite list_lookup_insert_eq in H2 by done; injection H2 as <-; by destruct Hu2|rewrite list_lookup_insert_ne in H2 by done]. by eapply Hap.
Qed.
End zones.
