(* ===== verification/MemCalls.v ===== *)
(** * The memory of a process, over any sequence of calls

    The calls of [rte_malloc.c] and [eal_common_memzone.c] in any order, from the
    start of the EAL, between writes of the process into the blocks and zones it
    holds: every call returns, what is held never overlaps and nothing is lost
    ([memory_calls_safe]). The claims about the allocator and the zones are here
    too. *)
From S2P Require Import Prelude CStr Align Malloc MallocFit MallocInv MallocOps MallocHeap MallocAlloc MallocInit RteMalloc MallocSafe Memzone MemzoneSafe.
Open Scope Z_scope.

Section run.
Context (memseg : list rte_memseg) (hugepages : bool) (sock : Z).

(** The heaps after the start of the EAL. *)
Definition memsegs0 : list (nat * rte_memseg) := used (take (Z.to_nat RTE_MAX_MEMSEG) memseg) 0.
Definition segs0 : list seg := heap_segs memsegs0.
Record memsegs_ok : Prop := {
  ms_ok : Forall (λ p, memseg_ok p.2) memsegs0;
  ms_apart : memsegs_apart memsegs0.*2;
  ms_socket : 0 <= any_socket sock < 8 }.
Definition blank : mem_config := Cfg no_mem [] 0.

(** The size that the library reports for a block. *)
Definition usable (m : mem) (p : Z) : Z := match rte_malloc_validate p m with Some (_, Some n) => n | _ => 0 end.
Definition grant (m : mem) (p : Z) (L : list (Z * Z)) : list (Z * Z) := if p =? NULL then L else (p, usable m p) :: L.
Definition forget (p : Z) (L : list (Z * Z)) : list (Z * Z) := filter (λ x, x.1 ≠ p) L.

(** What the process holds: blocks and zones, with their sizes. *)
Definition zones_of (c : mem_config) : list (Z * Z) := (λ z, (z_addr z, z_len z)) <$> rte_memzone_walk c.
Definition held (c : mem_config) (L : list (Z * Z)) : list (Z * Z) := L ++ zones_of c.

(** The arguments of the calls: those the code refuses, and those of requests
    that are below the address of every memory segment ([asks]). Larger ones
    make the address arithmetic of the code wrap around. *)
Definition malloc_refused (size align : Z) : bool := (size =? 0) || (negb (align =? 0) && negb (rte_is_power_of_2 align)).
Definition malloc_args (size align arg : Z) : Prop :=
  malloc_refused size align = true ∨
  (asks size (align_of align) 0 segs0 ∧ 0 <= align < 2 ^ 32 ∧
   0 <= (let a := if negb hugepages then SOCKET_ID_ANY else arg in if a =? SOCKET_ID_ANY then any_socket sock else a)).
(** The arguments for which [rte_memzone_reserve] is documented to fail with
    [EINVAL]. *)
Definition zone_refused (len arg align bound : Z) : bool :=
  (negb (align =? 0) && negb (rte_is_power_of_2 align)) || (len >? SIZE_MAX - RTE_CACHE_LINE_MASK) ||
  (negb (bound =? 0) && ((Z.max RTE_CACHE_LINE_SIZE (zone_len len) >? bound) || negb (rte_is_power_of_2 bound))) ||
  (negb (arg =? SOCKET_ID_ANY) && (arg >=? RTE_MAX_NUMA_NODES)).
Definition reserve_args (name : string) (len arg align bound : Z) : Prop :=
  zone_asks hugepages sock name len arg align bound segs0 ∨ (0 <= len ∧ zone_refused len arg align bound = true).
Definition realloc_args (size align : Z) : Prop := asks (RTE_CACHE_LINE_ROUNDUP size) (align_of (roundup32 align)) 0 segs0.

Inductive run : mem_config → gmap Z Z → list (Z * Z) → Prop :=
  | run_init c b : rte_eal_memzone_init memseg false blank = Some c → run c b []
  | run_malloc c b L size align arg m' p : run c b L → malloc_args size align arg →
      rte_malloc_socket memseg hugepages sock size align arg (heapmem c) = Some (m', p) → run (c <| heapmem := m' |>) b (grant m' p L)
  | run_zmalloc c b L size align arg r' p : run c b L → malloc_args size align arg →
      rte_zmalloc_socket memseg hugepages sock size align arg (Ram (heapmem c) b) = Some (r', p) → run (c <| heapmem := hdrs r' |>) (bytes r') (grant (hdrs r') p L)
  | run_free c b L p n m' : run c b L → (p, n) ∈ L → rte_free p (heapmem c) = Some (Ret m') → run (c <| heapmem := m' |>) b (forget p L)
  | run_realloc c b L p n size align r' q : run c b L → (p, n) ∈ L → realloc_args size align →
      rte_realloc memseg hugepages sock p size align (Ram (heapmem c) b) = Some (Ret (r', q)) →
      run (c <| heapmem := hdrs r' |>) (bytes r') (if q =? NULL then L else grant (hdrs r') q (forget p L))
  | run_reserve c b L name len arg flags align bound c' r : run c b L → reserve_args name len arg align bound →
      memzone_reserve_aligned_thread_unsafe memseg hugepages sock name len arg flags align bound c = Some (c', r) → run c' b L
  | run_unreserve c b L i z c' ret : run c b L → memzone c !! i = Some z → in_use z → rte_memzone_free (Some i) c = Some (Ret (c', ret)) → run c' b L
  | run_write c b L p n a e v : run c b L → (p, n) ∈ held c L → p <= a < p + n → run (c <| heapmem := set_elem a e (heapmem c) |>) (<[a := v]> b) L.

(** ** The invariant *)

Record good (c : mem_config) (L : list (Z * Z)) (segs : list seg) : Prop := {
  gd_zinv : zinv memseg c segs;
  gd_layout : layout segs = layout segs0;
  gd_all : (live segs).*1 ≡ₚ (held c L).*1;
  gd_own : Forall (λ x, x ∈ live segs) L }.

Lemma mapped0 : mapped memseg segs0.
Proof.
  unfold mapped, segs0, heap_segs, memsegs0. rewrite Forall_fmap. assert (∀ l i, Forall (λ p, l !! (p.1 - i)%nat = Some p.2 ∧ (i <= p.1)%nat) (used l i)) as Hu.
  { intros l. induction l as [|s l IH]; intros i; simpl; [constructor|]. destruct (negb (len s >? 0)); [constructor|].
    assert (Forall (λ p, (s :: l) !! (p.1 - i)%nat = Some p.2 ∧ (i <= p.1)%nat) (used l (S i))) as Hl.
    { eapply Forall_impl; [apply IH|]. intros p [Hp Hle]. split; [|lia]. by replace (p.1 - i)%nat with (S (p.1 - S i)) by lia. }
    destruct (negb (ioremap_addr s =? 0)); [done|]. constructor; [|done]. simpl. rewrite Nat.sub_diag. split; [done|lia]. }
  eapply Forall_impl; [apply (Hu _ 0%nat)|]. intros [i s] [Hp _]. simpl in *. rewrite Nat.sub_0_r in Hp. apply lookup_take_Some in Hp as [Hp _]. eauto.
Qed.
Lemma good_mapped c L segs : good c L segs → mapped memseg segs.
Proof. intros Hg. eapply mapped_layout; [apply (gd_layout _ _ _ Hg)|apply mapped0]. Qed.
Lemma zone_asks_layout name len arg align bound segs : layout segs = layout segs0 → zone_asks hugepages sock name len arg align bound segs0 → zone_asks hugepages sock name len arg align bound segs.
Proof. intros Hl [? ? ? ? ? ? ?]. split; try done. by eapply asks_layout. Qed.

Lemma live_heap_segs ps : live (heap_segs ps) = [].
Proof. induction ps as [|p ps IH]; [done|]. change (live (heap_segs (p :: ps))) with ([] ++ live (heap_segs ps)). by rewrite IH. Qed.

Lemma good_init (HM : memsegs_ok) : ∃ c, rte_eal_memzone_init memseg false blank = Some c ∧ good c [] segs0.
Proof.
  destruct HM as [Hok Hap _]. unfold rte_eal_memzone_init, rte_eal_malloc_heap_init. cbn [heapmem blank]. destruct (add_memsegs_ok (take (Z.to_nat RTE_MAX_MEMSEG) memseg) 0 [] no_mem empty_inv Hok Hap) as (m & -> & HI).
  eexists. split; [done|]. assert (Hw : ∀ n, filter in_use (replicate n zero_memzone) = []) by (intros n; induction n as [|n IH]; [done|]; simpl; rewrite filter_cons_False; [done|intros H; by apply H]).
  assert (Hlive : live segs0 = []) by apply live_heap_segs.
  split; [split| | |constructor].
  - done.
  - cbn [memzone]. rewrite length_replicate. done.
  - unfold rte_memzone_walk. cbn [memzone memzone_cnt]. by rewrite Hw.
  - intros i z Hz Hu. cbn [memzone] in Hz. apply lookup_replicate in Hz as [-> _]. by destruct Hu.
  - intros i j z z' Hz _ Hu. cbn [memzone] in Hz. apply lookup_replicate in Hz as [-> _]. by destruct Hu.
  - done.
  - rewrite Hlive. unfold held, zones_of, rte_memzone_walk. cbn [memzone]. by rewrite Hw.
Qed.

Lemma held_nodup c L segs : good c L segs → NoDup (held c L).*1.
Proof. intros Hg. rewrite <- (gd_all _ _ _ Hg). eapply live_nodup, (zi_inv _ _ _ (gd_zinv _ _ _ Hg)). Qed.
Lemma forget_perm p n L : NoDup L.*1 → (p, n) ∈ L → L ≡ₚ (p, n) :: forget p L.
Proof.
  unfold forget. induction L as [|[q k] L IH]; intros Hnd Hin; [by apply not_elem_of_nil in Hin|]. simpl in Hnd. apply NoDup_cons in Hnd as [Hq Hnd].
  apply elem_of_cons in Hin as [[= <- <-]|Hin].
  - rewrite filter_cons_False by tauto. rewrite filter_Forall; [done|]. apply Forall_forall. intros x Hx He. apply Hq. apply list_elem_of_fmap. eauto.
  - rewrite filter_cons_True; [by rewrite Permutation_swap, <- IH|]. simpl. intros ->. apply Hq. apply list_elem_of_fmap. by exists (p, n).
Qed.
Lemma zinv_heap c segs m' segs' : zinv memseg c segs → inv m' segs' →
  (∀ i z k, memzone c !! i = Some z → in_use z → (z_addr z, k) ∈ live segs → (z_addr z, k) ∈ live segs') → zinv memseg (c <| heapmem := m' |>) segs'.
Proof.
  intros [_ Hl Hc Hz Ha] HI Hk. split; try done. intros i z Hi Hu. destruct (Hz i z Hi Hu) as [(k & Hin & Hkl) ? ? ?]. split; try done. exists k. eauto.
Qed.
Lemma zone_held c i z : memzone c !! i = Some z → in_use z → (z_addr z, z_len z) ∈ zones_of c.
Proof. intros Hi Hu. unfold zones_of, rte_memzone_walk. apply list_elem_of_fmap. exists z. split; [done|]. apply list_elem_of_filter. split; [done|]. by eapply list_elem_of_lookup_2. Qed.

(** A block more. *)
Lemma good_add c L segs m' segs' p k : good c L segs → inv m' segs' → layout segs' = layout segs → live segs' ≡ₚ (p, k) :: live segs → good (c <| heapmem := m' |>) ((p, k) :: L) segs'.
Proof.
  intros [Hz Hl Ha Ho] HI Hly Hlv. split; [eapply zinv_heap; [done|done|]; intros; rewrite Hlv; by right|by rewrite Hly|by rewrite Hlv; simpl; rewrite Ha|].
  constructor; [rewrite Hlv; left|]. eapply Forall_impl; [done|]. intros x Hx. rewrite Hlv. by right.
Qed.
(** A block of the process replaced by others. *)
Lemma good_swap c L segs m' segs' p n X others : good c L segs → (p, n) ∈ L → live segs ≡ₚ (p, n) :: others → inv m' segs' → layout segs' = layout segs → live segs' ≡ₚ X ++ others →
  good (c <| heapmem := m' |>) (X ++ forget p L) segs'.
Proof.
  intros Hg Hin Hlv HI Hly Hlv'. pose proof (held_nodup _ _ _ Hg) as Hnd. destruct Hg as [Hz Hl Ha Ho]. unfold held in Hnd. rewrite fmap_app in Hnd. apply NoDup_app in Hnd as (HndL & Hdis & _).
  pose proof (forget_perm p n L HndL Hin) as Hfp. split; [eapply zinv_heap; [done|done|]|by rewrite Hly| |].
  - intros i z k Hi Hu Hk. rewrite Hlv in Hk. rewrite Hlv', elem_of_app. right. apply elem_of_cons in Hk as [He|]; [|done]. injection He as He _. exfalso.
    apply (Hdis p); [apply list_elem_of_fmap; by exists (p, n)|]. apply list_elem_of_fmap. exists (z_addr z, z_len z). split; [done|by eapply zone_held].
  - rewrite Hlv', fmap_app. unfold held. change (zones_of _) with (zones_of c). rewrite <- app_assoc, fmap_app. apply Permutation_app_head. rewrite Hlv in Ha. unfold held in Ha. rewrite Hfp in Ha. simpl in Ha. by apply Permutation_cons_inv in Ha.
  - apply Forall_app. split; apply Forall_forall; intros x Hx; rewrite Hlv', elem_of_app; [by left|right]. apply list_elem_of_filter in Hx as [Hne Hx]. rewrite Forall_forall in Ho. specialize (Ho x Hx).
    rewrite Hlv in Ho. apply elem_of_cons in Ho as [->|]; [done|done].
Qed.
Lemma heapmem_id c : c <| heapmem := heapmem c |> = c.
Proof. by destruct c. Qed.

(** ** The calls *)

Lemma good_malloc c L segs size align arg : good c L segs → malloc_args size align arg →
  ∃ m' p, rte_malloc_socket memseg hugepages sock size align arg (heapmem c) = Some (m', p) ∧ (p ≠ NULL → size <= usable m' p ∧ (align_of align | p)) ∧
    ∃ segs', good (c <| heapmem := m' |>) (grant m' p L) segs'.
Proof.
  intros Hg [Href|(HA & Hal & Hsk)].
  { exists (heapmem c), NULL. unfold rte_malloc_socket. unfold malloc_refused in Href. rewrite Href. split_and!; [done|done|]. exists segs. by rewrite heapmem_id. }
  destruct (malloc_answer memseg hugepages sock (heapmem c) segs size align arg) as (m' & p & Hm & Hans); [apply (zi_inv _ _ _ (gd_zinv _ _ _ Hg))|by eapply good_mapped|eapply asks_layout; [apply (gd_layout _ _ _ Hg)|done]|done|exact Hsk|].
  exists m', p. split; [done|]. unfold grant. destruct Hans as [(-> & -> & _)|(Hp & segs' & k & [HI Hly Hlv Hsz Hga _ _ _])]; [split; [done|]; exists segs; by rewrite heapmem_id|].
  assert (Hus : usable m' p = k) by (unfold usable; rewrite (validate_ok m' segs' p k HI); [done|]; rewrite Hlv; left). rewrite Hus. destruct (Z.eqb_spec p NULL); [done|]. split.
  - intros _. destruct HA as [Hs (j & Hj & Hj2) _ _ Hlt]. pose proof (Z.pow_pos_nonneg 2 j ltac:(lia) ltac:(lia)). destruct (roundup_size size) as [? _]; [lia|]. split; [lia|]. transitivity (RTE_CACHE_LINE_ROUNDUP (align_of align)); [|done].
    rewrite Hj2, roundup_align by done. apply pow2_divide; [lia|lia|apply Z.pow_le_mono_r; lia].
  - exists segs'. by eapply good_add.
Qed.
Lemma good_free c L segs p n : good c L segs → (p, n) ∈ L → ∃ m' segs', rte_free p (heapmem c) = Some (Ret m') ∧ good (c <| heapmem := m' |>) (forget p L) segs'.
Proof.
  intros Hg Hin. assert (Hl : (p, n) ∈ live segs) by (pose proof (gd_own _ _ _ Hg) as Ho; rewrite Forall_forall in Ho; by apply Ho).
  destruct (rte_free_ok _ _ _ _ (zi_inv _ _ _ (gd_zinv _ _ _ Hg)) Hl) as (m' & segs' & Hm & HI & Hly & Hlv & _). exists m', segs'. split; [done|]. by eapply (good_swap c L segs m' segs' p n [] (live segs')).
Qed.
Lemma good_realloc c b L segs p n size align : 0 <= any_socket sock < 8 → good c L segs → (p, n) ∈ L → realloc_args size align →
  ∃ r' q, rte_realloc memseg hugepages sock p size align (Ram (heapmem c) b) = Some (Ret (r', q)) ∧
    ∃ segs', good (c <| heapmem := hdrs r' |>) (if q =? NULL then L else grant (hdrs r') q (forget p L)) segs'.
Proof.
  intros Hsk Hg Hin HA. assert (Hl : (p, n) ∈ live segs) by (pose proof (gd_own _ _ _ Hg) as Ho; rewrite Forall_forall in Ho; by apply Ho).
  destruct (realloc_ok memseg hugepages sock (Ram (heapmem c) b) segs p n size align) as (gap & r' & q & _ & _ & Hm & Hr); [apply (zi_inv _ _ _ (gd_zinv _ _ _ Hg))|by eapply good_mapped|done|done|eapply asks_layout; [apply (gd_layout _ _ _ Hg)|done]|].
  exists r', q. split; [done|]. destruct Hr as [m' segs' n' others HI Hly Hl1 Hl2 _ _ _| |m' segs' q k others Hq HI Hly Hl1 Hl2 _ _]; cbn [hdrs].
  - destruct (live_place _ _ p n' HI) as (_ & _ & Hp & _); [rewrite Hl2; left|]. unfold grant, NULL. destruct (Z.eqb_spec p 0); [lia|]. exists segs'.
    assert (Hus : usable m' p = n') by (unfold usable; rewrite (validate_ok m' segs' p n' HI); [done|]; rewrite Hl2; left). rewrite Hus. by eapply (good_swap c L segs m' segs' p n [(p, n')] others).
  - simpl. exists segs. by rewrite heapmem_id.
  - unfold grant. destruct (Z.eqb_spec q NULL); [done|]. exists segs'. assert (Hus : usable m' q = k) by (unfold usable; rewrite (validate_ok m' segs' q k HI); [done|]; rewrite Hl2; left).
    rewrite Hus. by eapply (good_swap c L segs m' segs' p n [(q, k)] others).
Qed.
Lemma good_reserve c L segs name len arg flags align bound : good c L segs → zone_asks hugepages sock name len arg align bound segs0 →
  ∃ c' r, memzone_reserve_aligned_thread_unsafe memseg hugepages sock name len arg flags align bound c = Some (c', r) ∧ (reserved memseg hugepages c segs name len arg flags align bound c' r) ∧ ∃ segs', good c' L segs'.
Proof.
  intros Hg Ha. destruct (reserve_ok memseg hugepages sock c segs name len arg flags align bound) as (c' & r & Hm & Hr); [apply (gd_zinv _ _ _ Hg)|by eapply good_mapped|eapply zone_asks_layout; [apply (gd_layout _ _ _ Hg)|done]|].
  exists c', r. split_and!; [done|done|]. destruct Hr as [| | |c' segs' i z k Hlk Hz Hly Hlv Hmz (z0 & Hz0 & Hn0) Hu Hnm Hlen Hal Hb Hk]; [by exists segs..|]. exists segs'. destruct Hg as [_ Hl Hall Ho].
  assert (Hw : rte_memzone_walk c' ≡ₚ z :: rte_memzone_walk c) by (unfold rte_memzone_walk; rewrite Hmz; by eapply walk_add). split; [done|by rewrite Hly| |].
  - rewrite Hlv. unfold held, zones_of in *. rewrite Hw. simpl. rewrite Hall, !fmap_app. simpl. by rewrite Permutation_middle.
  - eapply Forall_impl; [done|]. intros x Hx. rewrite Hlv. by right.
Qed.
Lemma zone_asks_accepted name len arg align bound : zone_asks hugepages sock name len arg align bound segs0 → zone_refused len arg align bound = false.
Proof.
  intros [_ Hl Hal [_ Hbu] HA HB [Harg _]]. unfold zone_refused. destruct (zone_len_eq len Hl) as (_ & Hz & _). rewrite !orb_false_iff. split_and!.
  - destruct Hal as [->| ->]; [done|by rewrite andb_false_r].
  - destruct (Z.gtb_spec len (SIZE_MAX - RTE_CACHE_LINE_MASK)); [lia|done].
  - unfold RTE_CACHE_LINE_SIZE. destruct HA as [_ _ Hp _ _]. rewrite Z.max_r by lia. destruct HB as [->|HB]; [done|]. destruct Hp as [->|(j & Hj & Hj2)]; [done|].
    destruct (Z.gtb_spec (zone_len len) bound); [lia|]. assert (rte_is_power_of_2 bound = true) as ->; [|by rewrite andb_false_r].
    apply is_power_of_2_spec; [done|]. exists j. split; [|done]. split; [lia|]. unfold is_u32 in Hbu. rewrite Hj2 in Hbu. destruct Hbu as [_ Hbu]. apply Z.pow_lt_mono_r_iff in Hbu; lia.
  - unfold RTE_MAX_NUMA_NODES. rewrite Z.geb_leb. destruct (Z.leb_spec 8 arg); [lia|by rewrite andb_false_r].
Qed.
(** A refused request changes nothing. *)
Lemma good_refused c name len arg flags align bound : 0 <= len → zone_refused len arg align bound = true →
  ∃ e, memzone_reserve_aligned_thread_unsafe memseg hugepages sock name len arg flags align bound c = Some (c, inr e) ∧
    ((e = ENOSPC ∧ RTE_MAX_MEMZONE <= memzone_cnt c) ∨ (e = EEXIST ∧ rte_memzone_lookup name c ≠ None) ∨ e = EINVAL).
Proof.
  intros Hlen Hr. unfold memzone_reserve_aligned_thread_unsafe. rewrite Z.geb_leb. destruct (Z.leb_spec RTE_MAX_MEMZONE (memzone_cnt c)); [eauto 6|].
  destruct (decide (memzone_lookup_thread_unsafe name c ≠ None)); [rewrite bool_decide_true by done; eauto 6|rewrite bool_decide_false by done].
  unfold zone_refused in Hr. destruct (negb (align =? 0) && negb (rte_is_power_of_2 align)); [eauto 6|]. destruct (Z.gtb_spec len (SIZE_MAX - RTE_CACHE_LINE_MASK)); [eauto 6|]. cbn [orb] in Hr.
  assert (Z.land (u64 (len + RTE_CACHE_LINE_MASK)) (u64 (Z.lnot RTE_CACHE_LINE_MASK)) = zone_len len) as ->.
  { destruct (decide (len = 0)) as [->|]; [reflexivity|]. apply zone_len_eq. lia. }
  destruct (negb (bound =? 0) && _); [eauto 6|]. cbn [orb] in Hr. rewrite Hr. eauto 6.
Qed.
Lemma good_unreserve c L segs i z : good c L segs → memzone c !! i = Some z → in_use z → ∃ c' segs', rte_memzone_free (Some i) c = Some (Ret (c', 0)) ∧ good c' L segs'.
Proof.
  intros Hg Hi Hu. destruct (memzone_free_ok memseg c segs i z (gd_zinv _ _ _ Hg) Hi Hu) as (c' & segs' & k & Hm & Hz & Hly & Hmz & Hlv & _). exists c', segs'. split; [done|].
  pose proof (held_nodup _ _ _ Hg) as Hnd. destruct Hg as [_ Hl Hall Ho]. unfold held in *. rewrite fmap_app in Hnd. apply NoDup_app in Hnd as (_ & Hdis & _).
  assert (Hw : rte_memzone_walk c ≡ₚ z :: rte_memzone_walk c') by (unfold rte_memzone_walk; rewrite Hmz; by eapply walk_insert; [..|intros H; by apply H]). split; [done|by rewrite Hly| |].
  - unfold held, zones_of in *. rewrite Hlv, Hw in Hall. rewrite !fmap_app in *. simpl in Hall. rewrite <- Permutation_middle in Hall. by apply Permutation_cons_inv in Hall.
  - apply Forall_forall. intros x Hx. rewrite Forall_forall in Ho. pose proof (Ho x Hx) as Hx'. rewrite Hlv in Hx'. apply elem_of_cons in Hx' as [->|]; [|done]. exfalso.
    apply (Hdis (z_addr z)); apply list_elem_of_fmap; [by exists (z_addr z, k)|]. exists (z_addr z, z_len z). split; [done|]. by eapply zone_held.
Qed.
Lemma held_live c L segs p n : good c L segs → (p, n) ∈ held c L → ∃ k, (p, k) ∈ live segs ∧ n <= k.
Proof.
  intros [Hz _ _ Ho] Hin. apply elem_of_app in Hin as [Hin|Hin]; [rewrite Forall_forall in Ho; exists n; split; [by apply Ho|done]|].
  apply list_elem_of_fmap in Hin as (z & Heq & Hin). injection Heq as -> ->. apply list_elem_of_filter in Hin as [Hu Hin]. apply list_elem_of_lookup_1 in Hin as [i Hi].
  destruct (zi_zone _ _ _ Hz i z Hi Hu) as [(k & Hk & ?) _ _ _]. exists k. split; [done|lia].
Qed.

Lemma run_good c b L : memsegs_ok → run c b L → ∃ segs, good c L segs.
Proof.
  intros HM. induction 1 as [c b Hi|c b L size align arg m' p _ [segs Hg] Ha Hm|c b L size align arg r' p _ [segs Hg] Ha Hm|c b L p n m' _ [segs Hg] Hin Hm
    |c b L p n size align r' q _ [segs Hg] Hin Ha Hm|c b L name len arg flags align bound c' r _ [segs Hg] Ha Hm|c b L i z c' ret _ [segs Hg] Hi Hu Hm|c b L p n a e v _ [segs Hg] Hin Ha].
  - destruct (good_init HM) as (c' & Hc' & Hg). simplify_eq. eauto.
  - destruct (good_malloc c L segs size align arg Hg Ha) as (m1 & p1 & Hm1 & _ & Hg1). simplify_eq. done.
  - destruct (good_malloc c L segs size align arg Hg Ha) as (m1 & p1 & Hm1 & _ & Hg1). unfold rte_zmalloc_socket in Hm. cbn [hdrs] in Hm. rewrite Hm1 in Hm. cbn [mbind option_bind] in Hm. injection Hm as <- <-. by destruct (negb (p1 =? NULL)).
  - destruct (good_free c L segs p n Hg Hin) as (m1 & segs' & Hm1 & Hg1). simplify_eq. eauto.
  - destruct (good_realloc c b L segs p n size align (ms_socket HM) Hg Hin Ha) as (r1 & q1 & Hm1 & Hg1). simplify_eq. done.
  - destruct Ha as [Ha|[Hl Ha]].
    + destruct (good_reserve c L segs name len arg flags align bound Hg Ha) as (c1 & r1 & Hm1 & _ & Hg1). simplify_eq. done.
    + destruct (good_refused c name len arg flags align bound Hl Ha) as (e & Hm1 & _). simplify_eq. eauto.
  - destruct (good_unreserve c L segs i z Hg Hi Hu) as (c1 & segs' & Hm1 & Hg1). simplify_eq. eauto.
  - destruct (held_live c L segs p n Hg Hin) as (k & Hk & Hle). exists segs. destruct Hg as [Hz Hl Hall Ho]. split; [|done|done|done].
    eapply zinv_heap; [done| |done]. eapply elem_write; [apply (zi_inv _ _ _ Hz)|done|lia].
Qed.

Lemma held_disjoint c L segs : good c L segs → disjoint_blocks (held c L).
Proof.
  intros Hg. pose proof (zi_inv _ _ _ (gd_zinv _ _ _ Hg)) as HI. pose proof (live_disjoint _ _ (i_segs _ _ (v_inv0 _ _ HI)) (i_apart _ _ (v_inv0 _ _ HI))) as Hd.
  assert (Hall : ∀ p n, (p, n) ∈ held c L → ∃ k, (p, k) ∈ live segs ∧ n <= k) by (intros p n; by eapply held_live). pose proof (held_nodup _ _ _ Hg) as Hnd.
  induction (held c L) as [|[p n] l IH]; [done|]. simpl in Hnd. apply NoDup_cons in Hnd as [Hp Hnd]. split; [|apply IH; [intros q k Hq; apply Hall; by right|done]].
  apply Forall_forall. intros [q k] Hq. destruct (Hall p n) as (kp & Hkp & Hlp); [left|]. destruct (Hall q k) as (kq & Hkq & Hlq); [by right|].
  assert (p ≠ q) as Hpq by (intros ->; apply Hp, list_elem_of_fmap; by exists (q, k)).
  apply elem_of_Permutation in Hkp as [l1 H1]. rewrite H1 in Hd, Hkq. apply elem_of_cons in Hkq as [[= -> ->]|Hkq]; [done|]. destruct Hd as [Hd _]. rewrite Forall_forall in Hd. specialize (Hd _ Hkq).
  unfold clear_of in *. simpl in *. lia.
Qed.
Lemma layout_seg segs s : layout segs = layout segs0 → s ∈ segs → ∃ p, p ∈ memsegs0 ∧ s_base s = addr p.2 ∧ s_end s = addr p.2 + elem_bytes p.2.
Proof.
  intros Hl Hs. assert ((s_heap s, s_ms s, s_base s, s_end s) ∈ layout segs0) as Hin by (rewrite <- Hl; apply list_elem_of_fmap; eauto). apply list_elem_of_fmap in Hin as (t & Heq & Ht).
  apply list_elem_of_fmap in Ht as (p & -> & Hp). exists p. split; [done|]. injection Heq as _ _ -> ->. unfold s_end, new_seg. simpl. lia.
Qed.

(** With nothing handed out, every segment is one free block again. *)
Lemma all_free_one bs : Forall block_ok bs → coalesced bs → live_of 0 bs = [] → bs = [] ∨ bs = [Blk ELEM_FREE 0 (sz bs) true].
Proof.
  intros Hok Hco Hlv. assert (Hf : ∀ a, live_of a bs = [] → Forall (λ b, b = Blk ELEM_FREE 0 (b_size b) true) bs).
  { clear Hco Hlv. induction Hok as [|b bs Hb _ IH]; intros a Hlv; [constructor|]. simpl in Hlv. unfold is_busy in Hlv. destruct Hb as [(H1 & H2 & H3)|(H1 & _)]; rewrite H1 in Hlv; simpl in Hlv; [|done].
    constructor; [destruct b; simpl in *; by subst|by eapply IH]. }
  specialize (Hf 0 Hlv). destruct bs as [|b1 [|b2 bs]]; [by left| |]; apply Forall_cons in Hf as [H1 Hf].
  - right. simpl. rewrite Z.add_0_r. by rewrite <- H1.
  - apply Forall_cons in Hf as [H2 _]. exfalso. destruct Hco as [Hc _]. apply Hc; [by rewrite H1|simpl; by rewrite H2].
Qed.
Lemma live_of_nil a b bs : live_of a bs = [] → live_of b bs = [].
Proof. revert a b. induction bs as [|x bs IH]; intros a b; simpl; [done|]. destruct (is_busy x); [done|]. apply IH. Qed.
Lemma nothing_live m segs segs1 : inv m segs → layout segs = layout segs1 → live segs = [] → (∀ s, s ∈ segs1 → ∃ n, 0 < n ∧ s_blks s = [Blk ELEM_FREE 0 n true]) → segs = segs1.
Proof.
  intros HI Hl Hlv H1. pose proof (v_blocks _ _ HI) as Hb. clear HI. revert segs1 Hl H1. induction Hb as [|s segs [Hs Hc] Hb IH]; intros segs1 Hl H1.
  - destruct segs1; [done|]. done.
  - destruct segs1 as [|s1 segs1]; [done|]. unfold layout in Hl. rewrite !fmap_cons in Hl. injection Hl as Hh Hm Hbs He Hl. change (live (s :: segs)) with (live_of (s_base s) (s_blks s) ++ live segs) in Hlv.
    apply app_eq_nil in Hlv as [Hl1 Hl2]. f_equal; [|apply IH; [done|done|intros x Hx; apply H1; by right]]. destruct (H1 s1) as (n & Hn & Hb1); [left|].
    unfold s_end in He. rewrite Hb1, Hbs in He. simpl in He. destruct (all_free_one (s_blks s) Hs Hc (live_of_nil _ _ _ Hl1)) as [Hbl|Hbl]; [rewrite Hbl in He; simpl in He; lia|].
    assert (sz (s_blks s) = n) as Hsz by lia. rewrite Hsz in Hbl. destruct s, s1. simpl in *. by subst.
Qed.
End run.

Lemma heap_segs_counts ps h : heap_sum nbusy h (heap_segs ps) = 0 ∧ heap_sum busy_sz h (heap_segs ps) = 0 ∧
  length (linked h (heap_segs ps)) = length (filter (λ p, Z.to_nat (socket_id p.2) = h) ps).
Proof.
  induction ps as [|p ps (IH1 & IH2 & IH3)]; [done|]. change (heap_segs (p :: ps)) with (new_seg p.1 p.2 :: heap_segs ps). rewrite linked_cons, length_app, IH3. simpl. rewrite IH1, IH2.
  destruct (decide (Z.to_nat (socket_id p.2) = h)); [rewrite filter_cons_True by done|rewrite filter_cons_False by done]; done.
Qed.

(** ** The claims *)

(** C5: In every state that calls of the malloc library and of the memory
    zones reach with the requests described below, and with writes of the process
    into what it holds in between, the blocks and zones that are held do not
    overlap, each lies inside one memory
    segment behind its header and on a cache line, and the next call returns:
    no wild access, no [rte_panic], whatever block or zone it is about. The
    requests ([malloc_args], [realloc_args], [reserve_args]) are those the code
    refuses for their arguments, and those with a size above 0 for which size,
    alignment, boundary and 192 bytes together are not above the address of any
    memory segment; the socket is [SOCKET_ID_ANY] or not negative, the name of a
    zone has fewer than 32 characters and its boundary is 0 or not below its
    alignment. Larger sizes make the code wrap around ([malloc_wild_block]). *)
Theorem memory_calls_safe memseg hugepages sock c b L : memsegs_ok memseg sock → run memseg hugepages sock c b L →
  disjoint_blocks (held c L) ∧
  (∀ p n, (p, n) ∈ held c L → (64 | p) ∧ ∃ i s, (i, s) ∈ memsegs0 memseg ∧ addr s + MALLOC_ELEM_HEADER_LEN <= p ∧ p + n + MALLOC_ELEM_HEADER_LEN <= addr s + len s) ∧
  (∀ size align arg, malloc_args memseg hugepages sock size align arg → ∃ m' p, rte_malloc_socket memseg hugepages sock size align arg (heapmem c) = Some (m', p) ∧
     (p ≠ NULL → size <= usable m' p ∧ (align_of align | p))) ∧
  (∀ p n, (p, n) ∈ L → ∃ m', rte_free p (heapmem c) = Some (Ret m')) ∧
  (∀ p n size align, (p, n) ∈ L → realloc_args memseg size align → ∃ x, rte_realloc memseg hugepages sock p size align (Ram (heapmem c) b) = Some (Ret x)) ∧
  (∀ name len arg flags align bound, reserve_args memseg hugepages sock name len arg align bound →
     ∃ x, memzone_reserve_aligned_thread_unsafe memseg hugepages sock name len arg flags align bound c = Some x) ∧
  (∀ i z, memzone c !! i = Some z → in_use z → ∃ c', rte_memzone_free (Some i) c = Some (Ret (c', 0))).
Proof.
  intros HM Hrun. destruct (run_good _ _ _ _ _ _ HM Hrun) as [segs Hg]. split_and!.
  - by eapply held_disjoint.
  - intros p n Hin. destruct (held_live _ _ _ _ _ _ Hg Hin) as (k & Hk & Hle). destruct (live_place _ _ _ _ (zi_inv _ _ _ (gd_zinv _ _ _ _ Hg)) Hk) as (Hd & _ & _ & s & Hs & H1 & H2). split; [done|].
    destruct (layout_seg _ _ _ (gd_layout _ _ _ _ Hg) Hs) as ([i t] & Ht & Hb & He). exists i, t. split; [done|]. pose proof (ms_ok _ _ HM) as Hok. rewrite Forall_forall in Hok.
    destruct (elem_bytes_ok t (Hok _ Ht)) as (_ & _ & ?). unfold MALLOC_ELEM_HEADER_LEN. simpl in *. lia.
  - intros size align arg Ha. destruct (good_malloc _ _ _ _ _ _ _ _ _ Hg Ha) as (m' & p & ? & ? & _). eauto.
  - intros p n Hin. destruct (good_free _ _ _ _ _ _ Hg Hin) as (m' & _ & ? & _). eauto.
  - intros p n size align Hin Ha. destruct (good_realloc _ hugepages _ _ b _ _ _ _ _ _ (ms_socket _ _ HM) Hg Hin Ha) as (r' & q & ? & _). eauto.
  - intros name len arg flags align bound [Ha|[Hl Ha]]; [destruct (good_reserve _ _ _ _ _ _ _ _ _ flags _ _ Hg Ha) as (c' & r & ? & _); eauto|].
    destruct (good_refused memseg hugepages sock c name len arg flags align bound Hl Ha) as (e & ? & _). eauto.
  - intros i z Hi Hu. destruct (good_unreserve _ _ _ _ _ _ Hg Hi Hu) as (c' & _ & ? & _). eauto.
Qed.

(** C21: No memory is lost and no fragmentation stays behind: whatever calls came
    before with requests that the code refuses for their arguments or that have
    a size above 0 and, with alignment, boundary and 192 bytes, are not above the
    address of any memory segment (sockets that are not negative, names of zones of
    fewer than 32 characters, boundaries 0 or not below the alignment), when all blocks and zones have been given back the statistics of
    every heap are those of its start, one free block per memory segment. *)
Theorem memory_all_returned memseg hugepages sock c b c0 (h : nat) : memsegs_ok memseg sock → run memseg hugepages sock c b [] → zones_of c = [] →
  rte_eal_memzone_init memseg false blank = Some c0 → (h < 8)%nat →
  malloc_heap_get_stats h (heapmem c) = malloc_heap_get_stats h (heapmem c0) ∧
  ∃ st, malloc_heap_get_stats h (heapmem c) = Some st ∧ stat_alloc_count st = 0 ∧ heap_allocsz_bytes st = 0 ∧
    free_count st = u32 (Z.of_nat (length (filter (λ p, Z.to_nat (socket_id p.2) = h) (memsegs0 memseg)))).
Proof.
  intros HM Hrun Hz Hc0 Hh. destruct (run_good _ _ _ _ _ _ HM Hrun) as [segs Hg]. destruct (good_init memseg sock HM) as (c1 & Hc1 & Hg0). simplify_eq.
  assert (Hall := gd_all _ _ _ _ Hg). unfold held in Hall. rewrite Hz in Hall. simpl in Hall. apply Permutation_nil_r in Hall. apply fmap_nil_inv in Hall.
  assert (segs = segs0 memseg) as ->.
  { eapply nothing_live; [apply (zi_inv _ _ _ (gd_zinv _ _ _ _ Hg))|apply (gd_layout _ _ _ _ Hg)|done|]. intros s Hs. apply list_elem_of_fmap in Hs as (p & -> & Hp). exists (elem_bytes p.2).
    pose proof (ms_ok _ _ HM) as Hok. rewrite Forall_forall in Hok. destruct (elem_bytes_ok p.2 (Hok _ Hp)) as (? & _ & _). split; [lia|done]. }
  rewrite !(get_stats_ok _ (segs0 memseg) h) by (done || eapply zi_inv, gd_zinv; done). split; [done|]. eexists. split; [done|]. cbn [stat_alloc_count heap_allocsz_bytes free_count].
  destruct (heap_segs_counts (memsegs0 memseg) h) as (H1 & H2 & H3). unfold segs0. by rewrite H1, H2, H3.
Qed.

(** ** An example: one segment of a page, a block and a zone *)

Definition ex_memseg : list rte_memseg := [Memseg (2 ^ 20) (2 ^ 40) 4096 (2 ^ 21) 0 0].
Definition ex_c0 : mem_config := default blank (rte_eal_memzone_init ex_memseg false blank).
Definition ex_malloc : mem * Z := default (no_mem, 0) (rte_malloc_socket ex_memseg true 0 1000 256 (-1) (heapmem ex_c0)).
Definition ex_c1 : mem_config := ex_c0 <| heapmem := fst ex_malloc |>.
Definition ex_L : list (Z * Z) := grant (fst ex_malloc) (snd ex_malloc) [].
Definition ex_reserve : mem_config * (nat + Z) := default (blank, inr 0) (memzone_reserve_aligned_thread_unsafe ex_memseg true 0 "RG_ring" 500 0 0 64 0 ex_c1).
Definition ex_c2 : mem_config := fst ex_reserve.

Lemma ex_memsegs_ok : memsegs_ok ex_memseg 0.
Proof. split; [repeat constructor; try (vm_compute; done); by exists (2 ^ 34)|by repeat constructor|done]. Qed.
Lemma ex_asks size k : 0 < size <= 10000 → 0 <= k <= 12 → asks size (2 ^ k) 0 (segs0 ex_memseg).
Proof.
  intros Hs Hk. pose proof (Z.pow_le_mono_r 2 k 12 ltac:(lia) ltac:(lia)). pose proof (Z.pow_pos_nonneg 2 k ltac:(lia) ltac:(lia)).
  split; [lia|exists k; split; [lia|done]|by left| |lia]. unfold segs0. repeat constructor; simpl; lia.
Qed.
Lemma ex_run0 b : run ex_memseg true 0 ex_c0 b [].
Proof. apply run_init. vm_compute. reflexivity. Qed.
Lemma ex_run1 b : run ex_memseg true 0 ex_c1 b ex_L.
Proof.
  eapply (run_malloc _ _ _ ex_c0 b [] 1000 256 (-1)); [apply ex_run0| |vm_compute; reflexivity]. right. split_and!; [|done|done|done]. apply (ex_asks 1000 8); lia.
Qed.
Lemma ex_zone_asks : zone_asks true 0 "RG_ring" 500 0 64 0 (segs0 ex_memseg).
Proof. split; [done|done|by right|done| |by left|done]. apply (ex_asks 512 6); lia. Qed.
Lemma ex_run2 b : run ex_memseg true 0 ex_c2 b ex_L.
Proof. eapply (run_reserve _ _ _ ex_c1 b ex_L "RG_ring" 500 0 0 64 0); [apply ex_run1|left; apply ex_zone_asks|vm_compute; reflexivity]. Qed.

Lemma memory_calls_safe_witness : held ex_c2 ex_L = [(2 ^ 40 + 2816, 1024); (2 ^ 40 + 2240, 512)] ∧ disjoint_blocks (held ex_c2 ex_L).
Proof. split; [vm_compute; reflexivity|]. destruct (memory_calls_safe ex_memseg true 0 ex_c2 ∅ ex_L ex_memsegs_ok (ex_run2 ∅)) as [H _]. exact H. Defined.

Definition ex_freed : mem := match rte_free (snd ex_malloc) (heapmem ex_c1) with Some (Ret m) => m | _ => no_mem end.
Lemma ex_run3 b : run ex_memseg true 0 (ex_c1 <| heapmem := ex_freed |>) b [].
Proof.
  assert (forget (snd ex_malloc) ex_L = []) as <- by (vm_compute; reflexivity). eapply (run_free _ _ _ ex_c1 b ex_L (snd ex_malloc) 1024); [apply ex_run1| |vm_compute; reflexivity].
  assert (ex_L = [(snd ex_malloc, 1024)]) as -> by (vm_compute; reflexivity). left.
Qed.
Lemma memory_all_returned_witness : malloc_heap_get_stats 0 ex_freed = malloc_heap_get_stats 0 (heapmem ex_c0).
Proof.
  destruct (memory_all_returned ex_memseg true 0 (ex_c1 <| heapmem := ex_freed |>) ∅ ex_c0 0 ex_memsegs_ok (ex_run3 ∅)) as [H _]; [vm_compute; reflexivity|vm_compute; reflexivity|lia|exact H].
Defined.

Lemma ex_inv0 : inv (heapmem ex_c0) (segs0 ex_memseg).
Proof.
  destruct (good_init ex_memseg 0 ex_memsegs_ok) as (c & Hc & Hg). assert (rte_eal_memzone_init ex_memseg false blank = Some ex_c0) as He by (vm_compute; reflexivity).
  rewrite He in Hc. apply (inj Some) in Hc. rewrite Hc. apply (zi_inv _ _ _ (gd_zinv _ _ _ _ Hg)).
Qed.
Lemma heap_alloc_exact_witness : ∃ m' r, malloc_heap_alloc ex_memseg 0 1000 0 256 2048 (heapmem ex_c0) = Some (m', r) ∧ (r = NULL → m' = heapmem ex_c0).
Proof.
  destruct (heap_alloc_exact ex_memseg (heapmem ex_c0) (segs0 ex_memseg) 0 1000 0 256 2048) as (m' & r & H1 & _ & H3 & _); [apply ex_inv0|lia|apply mapped0| |right; vm_compute; done|eauto].
  split; [lia|by exists 8|right; by exists 11| |lia]. unfold segs0. repeat constructor; simpl; lia.
Defined.

Lemma heap_stats_exact_witness : ∃ st, malloc_heap_get_stats 0 (heapmem ex_c0) = Some st ∧ heap_freesz_bytes st = 4032.
Proof.
  destruct (heap_stats_exact (heapmem ex_c0) (segs0 ex_memseg) 0) as (st & H1 & _ & H2 & _); [apply ex_inv0|lia|]. exists st. split; [done|]. rewrite H2. vm_compute. reflexivity.
Defined.

(** ** Zones by name *)

Lemma lookup_other memseg c segs c' segs' i z name : zinv memseg c segs → zinv memseg c' segs' → memzone c' = <[i := z]> (memzone c) → strlen name < RTE_MEMZONE_NAMESIZE →
  (∀ y, memzone c !! i = Some y → in_use y → z_name y ≠ name) → (in_use z → z_name z ≠ name) → rte_memzone_lookup name c' = rte_memzone_lookup name c.
Proof.
  intros HI HI' Hmz Hn Hold Hnew. destruct (rte_memzone_lookup name c) as [j|] eqn:Hc.
  - apply (lookup_found memseg c segs name j HI Hn) in Hc as (y & Hj & Hu & Hy). apply (lookup_found memseg c' segs' name j HI' Hn). exists y. split_and!; [|done|done]. rewrite Hmz.
    destruct (decide (j = i)) as [->|]; [by apply Hold in Hj|]. by rewrite list_lookup_insert_ne.
  - destruct (rte_memzone_lookup name c') as [j|] eqn:Hc'; [|done]. apply (lookup_found memseg c' segs' name j HI' Hn) in Hc' as (y & Hj & Hu & Hy). rewrite Hmz in Hj.
    apply list_lookup_insert_Some in Hj as [(-> & <- & _)|[Hne Hj]]; [by apply Hnew in Hu|].
    assert (rte_memzone_lookup name c = Some j) as He by (apply (lookup_found memseg c segs name j HI Hn); eauto). congruence.
Qed.

(** Freeing a zone frees its name, and no other. *)
Lemma free_by_name memseg c segs i z : zinv memseg c segs → memzone c !! i = Some z → in_use z →
  ∃ c2, rte_memzone_free (Some i) c = Some (Ret (c2, 0)) ∧ rte_memzone_lookup (z_name z) c2 = None ∧
    ∀ other, strlen other < RTE_MEMZONE_NAMESIZE → other ≠ z_name z → rte_memzone_lookup other c2 = rte_memzone_lookup other c.
Proof.
  intros HI Hi Hu. destruct (memzone_free_ok memseg c segs i z HI Hi Hu) as (c2 & segs2 & k2 & Hfree & HI2 & _ & Hmz2 & _). exists c2. split; [done|]. split.
  - pose proof (zo_name _ _ _ (zi_zone _ _ _ HI _ _ Hi Hu)) as Hn. destruct (rte_memzone_lookup (z_name z) c2) as [j|] eqn:Hj; [|done].
    apply (lookup_found memseg c2 segs2 _ j HI2 Hn) in Hj as (y & Hj & Huy & Hy). rewrite Hmz2 in Hj.
    apply list_lookup_insert_Some in Hj as [(_ & <- & _)|[Hne Hj]]; [by destruct Huy|]. exfalso. apply Hne. symmetry. eapply (zi_apart _ _ _ HI j i y z); try done. by right.
  - intros other Ho Hne. eapply (lookup_other memseg c segs c2 segs2 i zero_memzone); [done..| |intros []; done]. intros y Hy _. congruence.
Qed.


(** ** Resizing keeps the contents *)

(** C29: [rte_realloc] of a block of less than 4 GiB in a heap in order, to a
    size above 0 that with the alignment, a power of two once rounded up, and 192
    bytes is not above the address of any memory segment, returns; when it returns
    [NULL] nothing has changed, and otherwise the block it returns begins with
    the contents of the old one, up to the smaller of the two sizes, and has the
    size that was asked for unless the old block had padding. *)
Theorem realloc_contents memseg hugepages sock r segs p n size align : inv (hdrs r) segs → mapped memseg segs → 0 <= any_socket sock < 8 → (p, n) ∈ live segs → n + 64 < 2 ^ 32 →
  asks (RTE_CACHE_LINE_ROUNDUP size) (align_of (roundup32 align)) 0 segs → 0 < size < 2 ^ 63 →
  ∃ r' q, rte_realloc memseg hugepages sock p size align r = Some (Ret (r', q)) ∧ (q = NULL → r' = r) ∧
    (q ≠ NULL → (∀ j, 0 <= j < Z.min n size → bytes r' !! (q + j) = bytes r !! (p + j)) ∧
       (malloc_elem_from_data p (hdrs r) = Some (p - MALLOC_ELEM_HEADER_LEN) → size <= usable (hdrs r') q)).
Proof.
  intros HI HM Hsk Hin Hn32 HA Hsz. destruct (realloc_ok memseg hugepages sock r segs p n size align HI HM Hin Hsk HA) as (gap & r' & q & Hgap & Hfd & Hm & Hr). exists r', q. split; [done|].
  destruct (roundup_size size Hsz) as (Hrs & _ & _). destruct (live_place _ _ _ _ HI Hin) as (_ & Hn & Hp & _). assert (Huse : ∀ m segs p k, inv m segs → (p, k) ∈ live segs → usable m p = k) by (intros; unfold usable; by erewrite validate_ok).
  destruct Hr as [m' segs' n' others HI' _ Hl1 Hl2 _ Hnn Hsn| |m' segs' q k others Hq HI' _ Hl1 Hl2 _ Hk]; cbn [hdrs bytes]; (split; [intros He; first [done | unfold NULL in He; lia]|]); intros Hqn; [|done|].
  - split; [done|]. intros Hfd'. rewrite Hfd in Hfd'. injection Hfd' as He. unfold MALLOC_ELEM_HEADER_LEN in He. rewrite (Huse m' segs' p n') by (done || rewrite Hl2; left). lia.
  - split; [|intros _; rewrite (Huse m' segs' q k) by (done || rewrite Hl2; left); lia]. intros j Hj. unfold memcpy. rewrite copy_from_lookup, u32_small by (unfold is_u32; lia).
    rewrite decide_True by lia. f_equal. lia.
Qed.

Lemma realloc_contents_witness : ∃ r' q, rte_realloc ex_memseg true 0 (2 ^ 40 + 2816) 3000 256 (Ram (heapmem ex_c1) {[2 ^ 40 + 2816 := 7]}) = Some (Ret (r', q)) ∧ (q ≠ NULL → bytes r' !! (q + 0) = Some 7).
Proof.
  destruct (run_good ex_memseg true 0 ex_c1 ∅ ex_L ex_memsegs_ok (ex_run1 ∅)) as [segs Hg]. assert (Hin : (2 ^ 40 + 2816, 1024) ∈ live segs).
  { pose proof (gd_own _ _ _ _ Hg) as Ho. rewrite Forall_forall in Ho. apply Ho. assert (ex_L = [(2 ^ 40 + 2816, 1024)]) as -> by (vm_compute; reflexivity). left. }
  destruct (realloc_contents ex_memseg true 0 (Ram (heapmem ex_c1) {[2 ^ 40 + 2816 := 7]}) segs (2 ^ 40 + 2816) 1024 3000 256) as (r' & q & Hm & _ & Hq).
  - apply (zi_inv _ _ _ (gd_zinv _ _ _ _ Hg)).
  - by eapply good_mapped.
  - done.
  - done.
  - lia.
  - eapply asks_layout; [apply (gd_layout _ _ _ _ Hg)|]. apply (ex_asks 3008 8); lia.
  - lia.
  - exists r', q. split; [exact Hm|]. intros Hn. destruct (Hq Hn) as [Hb _]. rewrite Hb by lia. cbn [bytes]. rewrite Z.add_0_r. apply lookup_singleton_eq.
Defined.

(** ** Defects, at concrete inputs *)

(** A block with padding that grows in place is one cache line too short:
    [malloc_elem_resize] counts the padding as usable. The caller gets its old
    pointer back for 2000 bytes, and the next header starts 16 bytes before
    their end. *)
Definition pad_heap : option (mem * Z) :=
  '(m, a) ← rte_malloc ex_memseg true 0 2048 0 (heapmem ex_c0);
  '(m, p) ← rte_malloc ex_memseg true 0 1792 128 m;
  x ← rte_free a m;
  match x with Ret m => Some (m, p) | Panic => None end.
Theorem realloc_padded_short : ∃ m p r', pad_heap = Some (m, p) ∧ usable m p = 1792 ∧ rte_realloc ex_memseg true 0 p 2000 128 (Ram m ∅) = Some (Ret (r', p)) ∧ usable (hdrs r') p = 1984.
Proof. eexists _, _, _. split_and!; [vm_compute; reflexivity|vm_compute; reflexivity|vm_compute; reflexivity|vm_compute; reflexivity]. Qed.

(** A size in the last cache line of the range rounds up to 0, and a block of 0 bytes is returned for it. *)
Theorem malloc_huge_granted : ∃ m' p, rte_malloc ex_memseg true 0 (2 ^ 64 - 1) 0 (heapmem ex_c0) = Some (m', p) ∧ p ≠ NULL ∧ usable m' p = 0.
Proof. eexists _, _. split_and!; [vm_compute; reflexivity|done|vm_compute; reflexivity]. Qed.

(** A request above the address of the segment: the start of the new block is
    computed below 0 and wraps around to an address far behind the segment,
    where the code writes its header. *)
Definition big_memseg : list rte_memseg := [Memseg (2 ^ 20) (2 ^ 40) (2 ^ 31) (2 ^ 21) 0 0].
Definition big_c0 : mem_config := default blank (rte_eal_memzone_init big_memseg false blank).
Theorem malloc_wild_block :
  (λ '(m, p), (p, usable m p)) <$> rte_malloc big_memseg true 0 (2 ^ 63) 0 (heapmem big_c0) = Some (2 ^ 63 + 2 ^ 40 + 2 ^ 31 - 64, 2 ^ 63).
Proof. vm_compute. reflexivity. Qed.

(** The product of [rte_calloc] wraps: 2^61 + 1 elements of 8 bytes get one cache line. *)
Theorem calloc_wraps : ∃ r' p, rte_calloc ex_memseg true 0 (2 ^ 61 + 1) 8 0 (Ram (heapmem ex_c0) ∅) = Some (r', p) ∧ p ≠ NULL ∧ usable (hdrs r') p = 64.
Proof. eexists _, _. split_and!; [vm_compute; reflexivity|done|vm_compute; reflexivity]. Qed.

(** [rte_realloc] to size 0 does not free the block. *)
Theorem realloc_zero_keeps : ∃ r', rte_realloc ex_memseg true 0 (2 ^ 40 + 2816) 0 256 (Ram (heapmem ex_c1) ∅) = Some (Ret (r', 2 ^ 40 + 2816)) ∧ usable (hdrs r') (2 ^ 40 + 2816) = 1024.
Proof. eexists. split; [vm_compute; reflexivity|vm_compute; reflexivity]. Qed.

(** A name of 32 characters is stored without its end and not found again: it can be reserved twice. *)
Definition long_name : string := "RG_0123456789012345678901234567890".
Theorem long_name_twice : ∃ c1 c2, memzone_reserve_aligned_thread_unsafe ex_memseg true 0 long_name 64 0 0 64 0 ex_c0 = Some (c1, inl 0%nat) ∧
  memzone_reserve_aligned_thread_unsafe ex_memseg true 0 long_name 64 0 0 64 0 c1 = Some (c2, inl 1%nat) ∧ rte_memzone_lookup long_name c2 = None.
Proof. eexists _, _. split_and!; [vm_compute; reflexivity|vm_compute; reflexivity|vm_compute; reflexivity]. Qed.

(** After a zone is freed, [rte_memzone_dump] shows only the zones before it; [rte_memzone_walk] visits all. *)
Theorem dump_stops_at_hole : ∃ c1 c2, memzone_reserve_aligned_thread_unsafe ex_memseg true 0 "MP_pool" 64 0 0 64 0 ex_c2 = Some (c1, inl 1%nat) ∧
  rte_memzone_free (Some 0%nat) c1 = Some (Ret (c2, 0)) ∧ rte_memzone_dump (memzone c2) = [] ∧ z_name <$> rte_memzone_walk c2 = ["MP_pool"%string].
Proof. eexists _, _. split_and!; [vm_compute; reflexivity|vm_compute; reflexivity|vm_compute; reflexivity|vm_compute; reflexivity]. Qed.
