(* ===== verification/RingMemory.v ===== *)
(** * The rings of the clients in the memory of the process

    [rte_ring_create] of [lib/librte_ring/rte_ring.c] with the calls of the
    allocator that [RingReg.v] takes as inputs: the list entry from
    [rte_zmalloc], the ring in a memory zone. The zones that the allocator of
    [MemCalls.v] gives out are what [RingGroup.v] asks for, so the rings that
    the primary application makes for its clients are in areas of their own. *)
From S2P Require Import Prelude CStr BurstQueue Ring RingSpec RingReg RingGroup Platform Primary.
From S2P Require Import Align Malloc MallocFit MallocInv MallocOps MallocHeap MallocAlloc MallocInit RteMalloc MallocSafe Memzone MemzoneSafe MemCalls.
Open Scope Z_scope.

Definition RTE_RING_MZ_PREFIX : string := "RG_".
Definition sizeof_rte_tailq_entry : Z := 24.

Section ring_memory.
Context (memseg : list rte_memseg) (hugepages : bool) (sock : Z).

(** The calls of the allocator in [rte_ring_create]: whether there is a list entry, and the zone or the error. *)
Definition ring_memory (nm : string) (ring_size socket_id : Z) (c : mem_config) (b : gmap Z Z) : option (mem_config * gmap Z Z * (bool * (rte_memzone + Z))) :=
  '(r, te) ← rte_zmalloc memseg hugepages sock sizeof_rte_tailq_entry 0 (Ram (heapmem c) b);
  let c := c <| heapmem := hdrs r |> in
  if te =? NULL then Some (c, bytes r, (false, inr ENOMEM)) else
  let mz_name := snprintf RTE_MEMZONE_NAMESIZE (RTE_RING_MZ_PREFIX +:+ nm) in
  '(c, mz) ← rte_memzone_reserve memseg hugepages sock mz_name ring_size socket_id 0 c;
  match mz with
  | inl i => z ← Memzone.memzone c !! i; Some (c, bytes r, (true, inl z))
  | inr err => x ← rte_free te (heapmem c); match x with Ret m => Some (c <| heapmem := m |>, bytes r, (true, inr err)) | Panic => None end
  end.

(** Ring after ring, the memory for each; the loop of the caller ends at the first failure. *)
Fixpoint ring_memories (nm : Z → string) (ring_size socket_id : Z) (n : nat) (i : Z) (c : mem_config) (b : gmap Z Z)
    : option (mem_config * gmap Z Z * option (list rte_memzone)) :=
  match n with
  | O => Some (c, b, Some [])
  | S n =>
      '(c, b, (te, mz)) ← ring_memory (nm i) ring_size socket_id c b;
      match mz with
      | inl z => '(c, b, zs) ← ring_memories nm ring_size socket_id n (i + 1) c b; Some (c, b, match zs with Some zs => Some (z :: zs) | None => None end)
      | inr _ => Some (c, b, None)
      end
  end.

Definition te_args : Prop := malloc_args memseg hugepages sock sizeof_rte_tailq_entry 0 (-1).
Definition zone_args (nm : string) (ring_size socket_id : Z) : Prop := zone_asks hugepages sock (RTE_RING_MZ_PREFIX +:+ nm) ring_size socket_id RTE_CACHE_LINE_SIZE 0 (segs0 memseg).

(** One ring: its zone is new, and the zones there were stay. *)
Lemma ring_memory_ok nm ring_size socket_id c b L : memsegs_ok memseg sock → run memseg hugepages sock c b L → te_args → zone_args nm ring_size socket_id →
  ∃ c' b' te mz L', ring_memory nm ring_size socket_id c b = Some (c', b', (te, mz)) ∧ run memseg hugepages sock c' b' L' ∧
    match mz with
    | inl z => te = true ∧ (z_addr z, z_len z) ∈ zones_of c' ∧ z_len z = zone_len ring_size ∧ z_addr z ∉ (zones_of c).*1 ∧ (∀ x, x ∈ zones_of c → x ∈ zones_of c')
    | inr _ => True
    end.
Proof.
  intros HM Hrun Hte Hz. destruct (run_good _ _ _ _ _ _ HM Hrun) as [segs Hg]. destruct (good_malloc _ _ _ _ _ _ _ _ _ Hg Hte) as (m1 & te & Hm1 & _ & segs1 & Hg1).
  unfold ring_memory, rte_zmalloc. set (b1 := if negb (te =? NULL) then memset0 te (Z.to_nat sizeof_rte_tailq_entry) b else b).
  assert (Hzm : rte_zmalloc_socket memseg hugepages sock sizeof_rte_tailq_entry 0 SOCKET_ID_ANY (Ram (heapmem c) b) = Some (Ram m1 b1, te)).
  { unfold rte_zmalloc_socket. cbn [hdrs bytes]. unfold SOCKET_ID_ANY. rewrite Hm1. cbn [mbind option_bind]. unfold b1. by destruct (negb (te =? NULL)). }
  rewrite Hzm. cbn [mbind option_bind hdrs bytes]. pose proof (run_zmalloc _ _ _ _ _ _ _ _ _ _ _ Hrun Hte Hzm) as Hrun1. cbn [hdrs bytes] in Hrun1. set (c1 := c <| heapmem := m1 |>) in *.
  destruct (Z.eqb_spec te NULL) as [->|Hn]; [by eexists _, _, _, _, _; split_and!|].
  assert (Hnm : snprintf RTE_MEMZONE_NAMESIZE (RTE_RING_MZ_PREFIX +:+ nm) = RTE_RING_MZ_PREFIX +:+ nm) by (apply snprintf_fits, (za_name _ _ _ _ _ _ _ _ Hz)). rewrite Hnm. unfold rte_memzone_reserve.
  destruct (good_reserve _ _ _ _ _ _ _ _ _ 0 _ _ Hg1 Hz) as (c2 & r & Hm2 & Hr & segs2 & Hg2). rewrite Hm2. cbn [mbind option_bind]. pose proof (run_reserve _ _ _ _ _ _ _ _ _ _ _ _ _ _ Hrun1 (or_introl Hz) Hm2) as Hrun2.
  assert (Hfree : ∀ c', heapmem c' = m1 → c' = c1 → ∃ m', rte_free te (heapmem c') = Some (Ret m') ∧ run memseg hugepages sock (c' <| heapmem := m' |>) b1 (forget te (grant m1 te L))).
  { intros c' _ ->. assert (Hin : (te, usable m1 te) ∈ grant m1 te L) by (unfold grant; destruct (Z.eqb_spec te NULL); [done|left]).
    destruct (good_free _ _ _ _ _ _ Hg1 Hin) as (m' & _ & Hf & _). exists m'. split; [done|]. by eapply (run_free _ _ _ c1). }
  destruct Hr as [Hf|j Hf|Hf _|c2 segs3 i z k Hno HI' Hly Hlv Hmz (z0 & Hz0 & Hn0) Hu Hzn Hl Hal Hb Hk].
  1-3: destruct (Hfree c1 eq_refl eq_refl) as (m' & -> & Hrun'); cbn [mbind option_bind]; by eexists _, _, _, _, _; split_and!.
  rewrite Hmz, list_lookup_insert_eq by (by eapply lookup_lt_Some). cbn [mbind option_bind]. exists c2, b1, true, (inl z), (grant m1 te L). split_and!; [done|done|done| |done| |].
  - eapply (zone_held c2 i); [|done]. rewrite Hmz. apply list_lookup_insert_eq. by eapply lookup_lt_Some.
  - intros Hin. apply list_elem_of_fmap in Hin as ([a l] & Ha & Hin). simpl in Ha. subst a. pose proof (live_nodup _ _ (zi_inv _ _ _ HI')) as Hnd. rewrite Hlv in Hnd. simpl in Hnd. apply NoDup_cons in Hnd as [Hnd _].
    destruct (held_live _ _ _ _ (z_addr z) l Hg1) as (k' & Hk' & _); [apply elem_of_app; by right|]. apply Hnd. apply list_elem_of_fmap. by exists (z_addr z, k').
  - intros x Hx. unfold zones_of, rte_memzone_walk in *. rewrite Hmz. rewrite (walk_add (Memzone.memzone c1) i z0 z) by done. by right.
Qed.

Lemma ring_memories_ok nm ring_size socket_id n i c b L : memsegs_ok memseg sock → run memseg hugepages sock c b L → te_args →
  (∀ k, i <= k < i + Z.of_nat n → zone_args (nm k) ring_size socket_id) →
  ∃ c' b' ozs L', ring_memories nm ring_size socket_id n i c b = Some (c', b', ozs) ∧ run memseg hugepages sock c' b' L' ∧
    match ozs with
    | Some zs => length zs = n ∧ NoDup (z_addr <$> zs) ∧ Forall (λ z, (z_addr z, z_len z) ∈ zones_of c' ∧ z_len z = zone_len ring_size ∧ z_addr z ∉ (zones_of c).*1) zs ∧ (∀ x, x ∈ zones_of c → x ∈ zones_of c')
    | None => True
    end.
Proof.
  intros HM Hrun Hte. revert i c b L Hrun. induction n as [|n IH]; intros i c b L Hrun Hz; simpl.
  { exists c, b, (Some []), L. split_and!; [done|done|done|constructor|constructor|done]. }
  destruct (ring_memory_ok (nm i) ring_size socket_id c b L HM Hrun Hte) as (c1 & b1 & te & mz & L1 & -> & Hrun1 & Hmz); [apply Hz; lia|]. cbn [mbind option_bind].
  destruct mz as [z|err]; [|by exists c1, b1, None, L1]. destruct Hmz as (_ & Hin & Hlen & Hnew & Hkeep).
  destruct (IH (i + 1) c1 b1 L1 Hrun1) as (c' & b' & ozs & L' & -> & Hrun' & Hzs); [intros k Hk; apply Hz; lia|]. cbn [mbind option_bind]. destruct ozs as [zs|]; [|by exists c', b', None, L'].
  destruct Hzs as (Hl & Hnd & Hall & Hkeep'). exists c', b', (Some (z :: zs)), L'. split_and!; [done|done|simpl; by rewrite Hl| | |auto].
  - simpl. apply NoDup_cons. split; [|done]. intros Hd. apply list_elem_of_fmap in Hd as (y & Hy & Hyin). rewrite Forall_forall in Hall. destruct (Hall y Hyin) as (_ & _ & Hn). apply Hn. rewrite <- Hy.
    apply list_elem_of_fmap. by exists (z_addr z, z_len z).
  - constructor; [split_and!; [by apply Hkeep'|done|done]|]. eapply Forall_impl; [exact Hall|]. intros y (H1 & H2 & H3). split_and!; [done|done|]. intros Hd. apply H3.
    apply list_elem_of_fmap in Hd as (x & -> & Hx). apply list_elem_of_fmap. eauto.
Qed.
End ring_memory.

(** The zone of ring [k] as [RingReg.v] sees it: its address, and cells for the table. *)
Definition zone_fn {A} (cell : A) (zs : list rte_memzone) (k : Z) : RingReg.memzone A :=
  match zs !! Z.to_nat k with
  | Some z => RingReg.Memzone (z_addr z) (z_socket_id z) (replicate 128 cell)
  | None => RingReg.Memzone NULL 0 []
  end.
Lemma zone_fn_addrs {A} (cell : A) zs : addrs (zone_fn cell zs) 0 (length zs) = z_addr <$> zs.
Proof.
  apply list_eq. intros j. unfold addrs. rewrite !list_lookup_fmap. destruct (decide (j < length zs)%nat) as [Hj|Hj].
  - rewrite lookup_seqZ_lt by lia. destruct (lookup_lt_is_Some_2 zs j Hj) as [z Hz]. rewrite Hz. simpl. unfold addr_of, zone_fn. replace (Z.to_nat (0 + Z.of_nat j)) with j by lia. by rewrite Hz.
  - rewrite (lookup_ge_None_2 zs j) by lia. rewrite lookup_seqZ_ge by lia. done.
Qed.
Lemma zone_fn_ok {A} (cell : A) zs (e : ring_env A) : Z.of_nat (length zs) <= 1000 → NoDup (z_addr <$> zs) → (∀ z, z ∈ zs → z_addr z ∉ ring_list e) →
  (∀ k, 0 <= k < 0 + Z.of_nat (length zs) → named e (get_rx_queue_name k) = None) → zones_ok (zone_fn cell zs) get_rx_queue_name 7 1000 0 (length zs) e.
Proof.
  intros Hlen Hnd Hfar Hnew. assert (Hzone : ∀ k, 0 <= k < 0 + Z.of_nat (length zs) → ∃ z, zs !! Z.to_nat k = Some z ∧ zone_fn cell zs k = RingReg.Memzone (z_addr z) (z_socket_id z) (replicate 128 cell)).
  { intros k Hk. destruct (lookup_lt_is_Some_2 zs (Z.to_nat k)) as [z Hz1]; [lia|]. exists z. unfold zone_fn. by rewrite Hz1. }
  split; [lia|intros k Hk; destruct (Hzone k Hk) as (z & _ & ->); cbn [RingReg.mz_table]; by rewrite length_replicate| | |done].
  - intros k Hk Hin. destruct (Hzone k Hk) as (z & Hz1 & He). unfold addr_of in Hin. rewrite He in Hin. eapply Hfar; [by eapply list_elem_of_lookup_2|done].
  - intros k l Hk Hl1 He. destruct (Hzone k Hk) as (z & Hz1 & E1), (Hzone l Hl1) as (z' & Hz2 & E2). unfold addr_of in He. rewrite E1, E2 in He. simpl in He.
    assert (Z.to_nat k = Z.to_nat l); [|lia]. eapply (NoDup_lookup (z_addr <$> zs)); [done| |]; rewrite list_lookup_fmap; [by rewrite Hz1|by rewrite Hz2, He].
Qed.
Lemma shrink_disjoint l (f : Z * Z → Z) : disjoint_blocks l → Forall (λ x, f x <= x.2) l → disjoint_blocks ((λ x, (x.1, f x)) <$> l).
Proof.
  induction l as [|x l IH]; simpl; [done|]. intros [H1 H2] HF. apply Forall_cons in HF as [Hx HF]. split; [|by apply IH]. apply Forall_fmap. apply Forall_forall. intros y Hy. rewrite Forall_forall in H1, HF.
  specialize (H1 y Hy). specialize (HF y Hy). unfold clear_of in *. simpl. lia.
Qed.
Lemma disjoint_pick l zs : disjoint_blocks l → NoDup zs.*1 → (∀ x, x ∈ zs → x ∈ l) → disjoint_blocks zs.
Proof.
  intros Hd Hnd Hin. induction zs as [|x zs IH]; [done|]. simpl in Hnd. apply NoDup_cons in Hnd as [Hx Hnd]. split; [|apply IH; [done|intros y Hy; apply Hin; by right]].
  apply Forall_forall. intros y Hy. assert (x ∈ l) as Hxl by (apply Hin; left). assert (y ∈ l) as Hyl by (apply Hin; by right). apply elem_of_Permutation in Hxl as [l' Hp]. rewrite Hp in Hd, Hyl.
  apply elem_of_cons in Hyl as [->|Hyl]; [exfalso; apply Hx, list_elem_of_fmap; eauto|]. destruct Hd as [Hd _]. rewrite Forall_forall in Hd. by apply Hd.
Qed.

(** C26: The rings of the clients in the real memory: from any reachable state of
    the allocator, making the rings of up to 255 clients returns, and if there is
    memory for all of them, [init_shm_rings] creates one empty ring of 127
    places per client, each in its own zone, and the areas that
    [rte_ring_get_memsize] asks for do not overlap. *)
Theorem client_rings_memory {A} (cell : A) memseg hugepages sock c b L (n socket : Z) (e : ring_env A) : memsegs_ok memseg sock → run memseg hugepages sock c b L →
  let size := rte_ring_get_memsize CLIENT_QUEUE_RINGSIZE in
  0 <= n <= 255 → te_args memseg hugepages sock → (∀ k, 0 <= k < n → zone_args memseg hugepages sock (get_rx_queue_name k) size socket) →
  env_ok e → (∀ a, a ∈ ring_list e → a ∈ (zones_of c).*1) → (∀ k, 0 <= k < n → named e (get_rx_queue_name k) = None) →
  ∃ c' b' ozs L', ring_memories memseg hugepages sock get_rx_queue_name size socket (Z.to_nat n) 0 c b = Some (c', b', ozs) ∧ run memseg hugepages sock c' b' L' ∧
    ∀ zs, ozs = Some zs → disjoint_blocks ((λ z, (z_addr z, size)) <$> zs) ∧
      ∃ e1, init_shm_rings true true (granted (zone_fn cell zs)) n e = Some (inr (z_addr <$> zs, e1)) ∧ length zs = Z.to_nat n ∧
        ∀ i a, (z_addr <$> zs) !! i = Some a → named e1 (get_rx_queue_name (Z.of_nat i)) = Some a ∧ ∃ r, rings e1 !! a = Some r ∧ bq_rep r 127 [].
Proof.
  intros HM Hrun size Hn Hte Hz Hok Hrl Hnew. destruct (ring_memories_ok memseg hugepages sock get_rx_queue_name size socket (Z.to_nat n) 0 c b L HM Hrun Hte) as (c' & b' & ozs & L' & Hm & Hrun' & Hzs); [intros k Hk; apply Hz; lia|].
  exists c', b', ozs, L'. split_and!; [done|done|]. intros zs ->. destruct Hzs as (Hl & Hnd & Hall & _). destruct (run_good _ _ _ _ _ _ HM Hrun') as [segs Hg]. split.
  - pose proof (held_disjoint _ _ _ _ Hg) as Hd. unfold held in Hd. rewrite disjoint_app in Hd. destruct Hd as (_ & Hd & _). rewrite Forall_forall in Hall.
    pose proof (disjoint_pick _ ((λ z, (z_addr z, z_len z)) <$> zs) Hd) as Hp. rewrite <- list_fmap_compose in Hp. specialize (Hp Hnd). assert (Hzl : Forall (λ x : Z * Z, size <= x.2) ((λ z, (z_addr z, z_len z)) <$> zs)).
    { apply Forall_fmap, Forall_forall. intros z Hin. destruct (Hall z Hin) as (_ & Hlen & _). simpl. rewrite Hlen. unfold zone_len. destruct (floor_bounds (size + 63) 64); lia. }
    pose proof (shrink_disjoint _ (λ _, size) (Hp ltac:(intros x Hx; apply list_elem_of_fmap in Hx as (z & -> & Hin); apply (Hall z Hin))) Hzl) as Hs. by rewrite <- list_fmap_compose in Hs.
  - assert (Hzo : zones_ok (zone_fn cell zs) get_rx_queue_name 7 1000 0 (Z.to_nat n) e).
    { rewrite <- Hl. apply zone_fn_ok; [lia|done| |intros k Hk; apply Hnew; lia]. intros z Hin Ha. rewrite Forall_forall in Hall. destruct (Hall z Hin) as (_ & _ & Hno). by apply Hno, Hrl. }
    set (flags := Z.lor RING_F_SP_ENQ RING_F_SC_DEQ). destruct (create_all (zone_fn cell zs) _ 7 flags _ rx_queue_names ltac:(lia) (Z.to_nat n) 0 e Hok Hzo) as (e1 & E1 & Hok1 & Hh & _).
    exists e1. rewrite <- Hl in E1, Hh. rewrite zone_fn_addrs in E1. unfold init_shm_rings, shm_rings_from. cbn [negb]. change CLIENT_QUEUE_RINGSIZE with (2 ^ 7). fold flags. rewrite <- Hl, E1. cbn [mbind option_bind]. split_and!; [done|done|].
    intros i a Ha. rewrite <- (zone_fn_addrs cell zs) in Ha. by apply (addrs_ring (zone_fn cell zs) get_rx_queue_name 7 (length zs)).
Qed.

Lemma client_rings_memory_witness : ∃ c' b' zs, ring_memories ex_memseg true 0 get_rx_queue_name (rte_ring_get_memsize 128) 0 2 0 ex_c0 ∅ = Some (c', b', Some zs) ∧
  disjoint_blocks ((λ z, (z_addr z, rte_ring_get_memsize 128)) <$> zs).
Proof.
  destruct (client_rings_memory 0 ex_memseg true 0 ex_c0 ∅ [] 2 0 (RingEnv [] ∅ 0) ex_memsegs_ok (ex_run0 ∅)) as (c' & b' & ozs & L' & Hm & _ & Hd).
  - lia.
  - right; split_and!; [apply (ex_asks 24 0); lia|done|done|done].
  - intros k Hk. assert (k = 0 ∨ k = 1) as [->| ->] by lia; (split; [done|done|by right|done| |by left|done]; apply (ex_asks 1152 6); lia).
  - split; [apply NoDup_nil_2|intros a Ha; by apply elem_of_nil in Ha|intros a r Hr; simpl in Hr; by rewrite lookup_empty in Hr].
  - intros a Ha. by apply not_elem_of_nil in Ha.
  - done.
  - change (Z.to_nat 2) with 2%nat in Hm. destruct ozs as [zs|].
    + exists c', b', zs. split; [exact Hm|]. destruct (Hd zs eq_refl) as [H _]. exact H.
    + exfalso. apply (f_equal (λ x : option (mem_config * gmap Z Z * option (list rte_memzone)), match x with Some (_, None) => true | _ => false end)) in Hm. vm_compute in Hm. discriminate Hm.
Defined.
