(* ===== verification/Mbuf.v ===== *)
(** * Packet buffers

    [lib/librte_mbuf/rte_mbuf.h] and [rte_mbuf.c], as configured: the reference
    counts are atomic, and [RTE_MBUF_ASSERT] and the sanity checks inside the
    functions are compiled out. The buffers are a map from addresses, so that
    several pointers to one buffer, the chains of segments and the buffers that
    are attached to the data of another one are those of the code; their pools
    are those of [Mempool.v]. [None] is an access to an address with no buffer. *)
From S2P Require Import Prelude Align BurstQueue Ring RingSpec Mempool MempoolInit.
Open Scope Z_scope.

Definition NULL : Z := 0.
Definition RTE_PKTMBUF_HEADROOM : Z := 128.
Definition sizeof_rte_mbuf : Z := 128.
Definition sizeof_pktmbuf_pool_private : Z := 4.
Definition RTE_MBUF_PRIV_ALIGN : Z := 8.
Definition IND_ATTACHED_MBUF : Z := Z.shiftl 1 62.
Definition CTRL_MBUF_FLAG : Z := Z.shiftl 1 63.
Definition EOVERFLOW : Z := 75.

(** The unions [hash], [packet_type] and [tx_offload] are their whole words. *)
Record rte_mbuf := Mbuf {
  buf_addr : Z; buf_physaddr : Z; buf_len : Z; data_off : Z; refcnt : Z; nb_segs : Z; m_port : Z; ol_flags : Z; packet_type : Z; pkt_len : Z; data_len : Z; vlan_tci : Z;
  m_hash : Z; seqn : Z; vlan_tci_outer : Z; userdata : Z; m_pool : Z; m_next : Z; tx_offload : Z; priv_size : Z; timesync : Z; offload_ops : Z }.
#[export] Instance rte_mbuf_upd : Updatable rte_mbuf := λ m,
  Mbuf (buf_addr m) (buf_physaddr m) (buf_len m) (data_off m) (refcnt m) (nb_segs m) (m_port m) (ol_flags m) (packet_type m) (pkt_len m) (data_len m) (vlan_tci m)
    (m_hash m) (seqn m) (vlan_tci_outer m) (userdata m) (m_pool m) (m_next m) (tx_offload m) (priv_size m) (timesync m) (offload_ops m).
Definition zero_mbuf : rte_mbuf := Mbuf 0 0 0 0 0 0 0 0 0 0 0 0 0 0 0 0 NULL NULL 0 0 0 NULL.

(** The private data of a pool of buffers, and the pool with it. *)
Record rte_pktmbuf_pool_private := PoolPrivate { mbuf_data_room_size : Z; mbuf_priv_size : Z }.
Record mbuf_pool := MbufPool { mempool : pool; private : rte_pktmbuf_pool_private }.
#[export] Instance mbuf_pool_upd : Updatable mbuf_pool := λ p, MbufPool (mempool p) (private p).

Record world := World { mbufs : gmap Z rte_mbuf; pools : gmap Z mbuf_pool }.
#[export] Instance world_upd : Updatable world := λ w, World (mbufs w) (pools w).

Definition set_mbuf (a : Z) (m : rte_mbuf) (w : world) : world := w <| mbufs := <[a := m]> (mbufs w) |>.
Definition upd_mbuf (a : Z) (f : rte_mbuf → rte_mbuf) (w : world) : option world := m ← mbufs w !! a; Some (set_mbuf a (f m) w).

(** ** Reference counts *)

Definition rte_mbuf_refcnt_read (m : rte_mbuf) : Z := refcnt m.
Definition rte_mbuf_refcnt_set (m : rte_mbuf) (new_value : Z) : rte_mbuf := m <| refcnt := u16 new_value |>.
Definition rte_mbuf_refcnt_update (a value : Z) (w : world) : option (Z * world) :=
  m ← mbufs w !! a;
  if rte_mbuf_refcnt_read m =? 1 then Some (u16 (1 + value), set_mbuf a (rte_mbuf_refcnt_set m (1 + value)) w)
  else Some (u16 (refcnt m + value), set_mbuf a (m <| refcnt := u16 (refcnt m + value) |>) w).

Definition RTE_MBUF_INDIRECT (m : rte_mbuf) : bool := negb (Z.land (ol_flags m) IND_ATTACHED_MBUF =? 0).
Definition RTE_MBUF_DIRECT (m : rte_mbuf) : bool := negb (RTE_MBUF_INDIRECT m).
Definition rte_mbuf_from_indirect (mi : rte_mbuf) : Z := u64 (buf_addr mi - (sizeof_rte_mbuf + priv_size mi)).
Definition rte_pktmbuf_data_room_size (p : mbuf_pool) : Z := mbuf_data_room_size (private p).
Definition rte_pktmbuf_priv_size (p : mbuf_pool) : Z := mbuf_priv_size (private p).
Definition rte_mbuf_to_baddr (a : Z) (w : world) : option Z :=
  m ← mbufs w !! a; p ← pools w !! m_pool m; Some (u64 (a + sizeof_rte_mbuf + rte_pktmbuf_priv_size p)).
Definition rte_is_ctrlmbuf (m : rte_mbuf) : Z := c_bool (negb (Z.land (ol_flags m) CTRL_MBUF_FLAG =? 0)).

Section mbuf.
(** Whether the EAL has huge pages, the page table of the operating system, and the core of the caller. *)
Context (hugepages : bool) (rte_mem_virt2phy : Z → Z) (lcore : Z).

Definition rte_mempool_virt2phy (mp : pool) (elt : Z) : option Z :=
  if hugepages then
    let off := u64 (elt - elt_va_start mp) in
    pa ← load (elt_pa mp) (Z.shiftr off (pg_shift mp)); Some (u64 (pa + Z.land off (pg_mask mp)))
  else Some (rte_mem_virt2phy elt).

(** ** Pools of buffers *)

Definition rte_pktmbuf_pool_init (elt_size_ : Z) (opaque_arg : option rte_pktmbuf_pool_private) : rte_pktmbuf_pool_private :=
  match opaque_arg with
  | Some user_mbp_priv => user_mbp_priv
  | None => PoolPrivate (if elt_size_ >? sizeof_rte_mbuf then u16 (elt_size_ - sizeof_rte_mbuf) else 0) 0
  end.

(** The fields that tie a buffer to its own data, as [rte_pktmbuf_init] and [rte_pktmbuf_detach] set them. *)
Definition own_buffer (a : Z) (p : mbuf_pool) (m : rte_mbuf) : option rte_mbuf :=
  let mbuf_size := u32 (sizeof_rte_mbuf + rte_pktmbuf_priv_size p) in
  pa ← rte_mempool_virt2phy (mempool p) a;
  let m := m <| priv_size := rte_pktmbuf_priv_size p |> <| buf_addr := u64 (a + mbuf_size) |> <| buf_physaddr := u64 (pa + mbuf_size) |> <| buf_len := u16 (rte_pktmbuf_data_room_size p) |> in
  Some (m <| data_off := Z.min RTE_PKTMBUF_HEADROOM (buf_len m) |>).

(** [mp] is where the pool is, [p] what is there. *)
Definition rte_pktmbuf_init (mp : Z) (p : mbuf_pool) (a : Z) (bufs : gmap Z rte_mbuf) : option (gmap Z rte_mbuf) :=
  m ← own_buffer a p zero_mbuf;
  Some (<[a := m <| m_pool := mp |> <| nb_segs := 1 |> <| m_port := 0xff |>]> bufs).
Definition rte_ctrlmbuf_init (mp : Z) (p : mbuf_pool) (a : Z) (bufs : gmap Z rte_mbuf) : option (gmap Z rte_mbuf) :=
  bufs ← rte_pktmbuf_init mp p a bufs;
  m ← bufs !! a; Some (<[a := m <| ol_flags := Z.lor (ol_flags m) CTRL_MBUF_FLAG |>]> bufs).

(** What the callbacks of [rte_mempool_create] write: the private data of the
    pool at [mp] and its buffers, [None] after a wild access. *)
Record pool_memory := PoolMemory { pm_private : rte_pktmbuf_pool_private; pm_bufs : option (gmap Z rte_mbuf) }.
Definition pool_init_cb (opaque_arg : option rte_pktmbuf_pool_private) (p : pool) (st : pool_memory) : pool_memory :=
  PoolMemory (rte_pktmbuf_pool_init (elt_size p) opaque_arg) (pm_bufs st).
Definition mbuf_init_cb (mp : Z) (p : pool) (st : pool_memory) (obj idx : Z) : pool_memory :=
  PoolMemory (pm_private st) (bufs ← pm_bufs st; rte_pktmbuf_init mp (MbufPool p (pm_private st)) obj bufs).

(** [an] are the answers of the allocator for the pool, which will be at [mp]. *)
Definition rte_pktmbuf_pool_create (pl : platform) (e : mempool_env) (name : string) (n cache_size_ priv_size data_room_size : Z) (an : answers) (mp : Z) (bufs : gmap Z rte_mbuf)
    : option (option mbuf_pool * mempool_env * gmap Z rte_mbuf) :=
  if negb (RTE_ALIGN_CEIL i32 priv_size RTE_MBUF_PRIV_ALIGN =? priv_size) then Some (None, set_errno e EINVAL, bufs) else
  let elt_size_ := u32 (sizeof_rte_mbuf + priv_size + data_room_size) in
  '(p, e, st) ← rte_mempool_create pl e name n elt_size_ cache_size_ sizeof_pktmbuf_pool_private
    (Some (pool_init_cb (Some (PoolPrivate data_room_size priv_size)))) (Some (mbuf_init_cb mp)) (PoolMemory (PoolPrivate 0 0) (Some bufs)) 0 an;
  bufs ← pm_bufs st;
  Some (match p with Some p => Some (MbufPool p (pm_private st)) | None => None end, e, bufs).

(** ** Allocation and release *)

(** The new buffer, or [NULL]. *)
Definition __rte_mbuf_raw_alloc (mp : Z) (w : world) : option (Z * world) :=
  p ← pools w !! mp;
  '(ret, tbl, mp') ← rte_mempool_get (mempool p) lcore [NULL];
  let w := w <| pools := <[mp := p <| mempool := mp' |>]> (pools w) |> in
  if ret <? 0 then Some (NULL, w) else
  a ← load tbl 0;
  w ← upd_mbuf a (λ m, rte_mbuf_refcnt_set m 1) w;
  Some (a, w).
Definition __rte_mbuf_raw_free (a : Z) (w : world) : option world :=
  m ← mbufs w !! a; p ← pools w !! m_pool m;
  mp' ← rte_mempool_put (mempool p) lcore a;
  Some (w <| pools := <[m_pool m := p <| mempool := mp' |>]> (pools w) |>).

Definition rte_pktmbuf_reset (m : rte_mbuf) : rte_mbuf :=
  let m := m <| m_next := NULL |> <| pkt_len := 0 |> <| tx_offload := 0 |> <| vlan_tci := 0 |> <| vlan_tci_outer := 0 |> <| nb_segs := 1 |> <| m_port := 0xff |>
             <| ol_flags := 0 |> <| packet_type := 0 |> in
  m <| data_off := if RTE_PKTMBUF_HEADROOM <=? buf_len m then RTE_PKTMBUF_HEADROOM else buf_len m |> <| data_len := 0 |>.
Definition rte_pktmbuf_alloc (mp : Z) (w : world) : option (Z * world) :=
  '(a, w) ← __rte_mbuf_raw_alloc mp w;
  if a =? NULL then Some (NULL, w) else
  w ← upd_mbuf a rte_pktmbuf_reset w; Some (a, w).

(** The fields of [i] once it is attached to [m]. *)
Definition attached_to (m i : rte_mbuf) : rte_mbuf :=
  let i := i <| priv_size := priv_size m |> <| buf_physaddr := buf_physaddr m |> <| buf_addr := buf_addr m |> <| buf_len := buf_len m |>
             <| m_next := m_next m |> <| data_off := data_off m |> <| data_len := data_len m |> <| m_port := m_port m |> <| vlan_tci := vlan_tci m |>
             <| vlan_tci_outer := vlan_tci_outer m |> <| tx_offload := tx_offload m |> <| m_hash := m_hash m |> in
  i <| m_next := NULL |> <| pkt_len := data_len i |> <| nb_segs := 1 |> <| ol_flags := Z.lor (ol_flags m) IND_ATTACHED_MBUF |> <| packet_type := packet_type m |>.
Definition rte_pktmbuf_attach (mi a : Z) (w : world) : option world :=
  m ← mbufs w !! a;
  let md := if RTE_MBUF_DIRECT m then a else rte_mbuf_from_indirect m in
  '(_, w) ← rte_mbuf_refcnt_update md 1 w;
  m ← mbufs w !! a;
  upd_mbuf mi (attached_to m) w.
Definition rte_pktmbuf_detach (a : Z) (w : world) : option world :=
  m ← mbufs w !! a; p ← pools w !! m_pool m;
  m ← own_buffer a p m;
  Some (set_mbuf a (m <| data_len := 0 |> <| ol_flags := 0 |>) w).

(** The buffer, or [NULL] when it is still referenced. *)
Definition __rte_pktmbuf_prefree_seg (a : Z) (w : world) : option (Z * world) :=
  '(cnt, w) ← rte_mbuf_refcnt_update a (-1) w;
  if cnt =? 0 then
    m ← mbufs w !! a;
    if RTE_MBUF_INDIRECT m then
      let md := rte_mbuf_from_indirect m in
      w ← rte_pktmbuf_detach a w;
      '(cnt, w) ← rte_mbuf_refcnt_update md (-1) w;
      w ← (if cnt =? 0 then __rte_mbuf_raw_free md w else Some w);
      Some (a, w)
    else Some (a, w)
  else Some (NULL, w).
Definition rte_pktmbuf_free_seg (a : Z) (w : world) : option world :=
  '(a, w) ← __rte_pktmbuf_prefree_seg a w;
  if a =? NULL then Some w else
  w ← upd_mbuf a (λ m, m <| m_next := NULL |>) w;
  __rte_mbuf_raw_free a w.

(** The loops follow [m_next]: [fuel] bounds the segments. *)
Fixpoint free_loop (fuel : nat) (a : Z) (w : world) : option world :=
  if a =? NULL then Some w else
  match fuel with
  | O => None
  | S fuel =>
      m ← mbufs w !! a;
      w ← rte_pktmbuf_free_seg a w;
      free_loop fuel (m_next m) w
  end.
Definition rte_pktmbuf_free (fuel : nat) (a : Z) (w : world) : option world := free_loop fuel a w.

(** A round of the loop of [rte_pktmbuf_clone]: [prev] is the buffer whose
    [next] is written. The results are the last [prev] and [mi], the number of
    segments in eight bits, and whether the loop ended without a failure. *)
Fixpoint clone_loop (fuel : nat) (mp md mi prev nseg : Z) (w : world) : option (Z * Z * Z * world) :=
  match fuel with
  | O => None
  | S fuel =>
      let nseg := u8 (nseg + 1) in
      w ← rte_pktmbuf_attach mi md w;
      w ← upd_mbuf prev (λ m, m <| m_next := mi |>) w;
      let prev := mi in
      m ← mbufs w !! md;
      let md := m_next m in
      if md =? NULL then Some (mi, prev, nseg, w) else
      '(mi, w) ← rte_pktmbuf_alloc mp w;
      if mi =? NULL then Some (NULL, prev, nseg, w) else clone_loop fuel mp md mi prev nseg w
  end.
Definition rte_pktmbuf_clone (fuel : nat) (md mp : Z) (w : world) : option (Z * world) :=
  '(mc, w) ← rte_pktmbuf_alloc mp w;
  if mc =? NULL then Some (NULL, w) else
  m ← mbufs w !! md;
  let pktlen := pkt_len m in
  '(mi, prev, nseg, w) ← clone_loop fuel mp md mc mc 0 w;
  w ← upd_mbuf prev (λ m, m <| m_next := NULL |>) w;
  w ← upd_mbuf mc (λ m, m <| nb_segs := nseg |> <| pkt_len := pktlen |>) w;
  if mi =? NULL then w ← rte_pktmbuf_free fuel mc w; Some (NULL, w) else Some (mc, w).

Fixpoint rte_pktmbuf_refcnt_update (fuel : nat) (a v : Z) (w : world) : option world :=
  match fuel with
  | O => None
  | S fuel =>
      '(_, w) ← rte_mbuf_refcnt_update a v w;
      m ← mbufs w !! a;
      if m_next m =? NULL then Some w else rte_pktmbuf_refcnt_update fuel (m_next m) v w
  end.
End mbuf.

(** ** The data of a packet *)

Definition rte_pktmbuf_headroom (m : rte_mbuf) : Z := data_off m.
Definition rte_pktmbuf_tailroom (m : rte_mbuf) : Z := u16 (buf_len m - rte_pktmbuf_headroom m - data_len m).
Fixpoint rte_pktmbuf_lastseg (fuel : nat) (a : Z) (w : world) : option Z :=
  match fuel with
  | O => None
  | S fuel => m ← mbufs w !! a; if m_next m =? NULL then Some a else rte_pktmbuf_lastseg fuel (m_next m) w
  end.
Definition rte_pktmbuf_mtod_offset (m : rte_mbuf) (o : Z) : Z := u64 (buf_addr m + data_off m + o).
Definition rte_pktmbuf_is_contiguous (m : rte_mbuf) : Z := c_bool (nb_segs m =? 1).

(** A pointer to the new start of the data, or [NULL]. *)
Definition rte_pktmbuf_prepend (a len : Z) (w : world) : option (Z * world) :=
  m ← mbufs w !! a;
  if len >? rte_pktmbuf_headroom m then Some (NULL, w) else
  let m := m <| data_off := u16 (data_off m - len) |> <| data_len := u16 (data_len m + len) |> <| pkt_len := u32 (pkt_len m + len) |> in
  Some (u64 (buf_addr m + data_off m), set_mbuf a m w).
Definition rte_pktmbuf_append (fuel : nat) (a len : Z) (w : world) : option (Z * world) :=
  last ← rte_pktmbuf_lastseg fuel a w;
  m_last ← mbufs w !! last;
  if len >? rte_pktmbuf_tailroom m_last then Some (NULL, w) else
  let tail := u64 (buf_addr m_last + data_off m_last + data_len m_last) in
  let w := set_mbuf last (m_last <| data_len := u16 (data_len m_last + len) |>) w in
  w ← upd_mbuf a (λ m, m <| pkt_len := u32 (pkt_len m + len) |>) w;
  Some (tail, w).
Definition rte_pktmbuf_adj (a len : Z) (w : world) : option (Z * world) :=
  m ← mbufs w !! a;
  if len >? data_len m then Some (NULL, w) else
  let m := m <| data_len := u16 (data_len m - len) |> <| data_off := u16 (data_off m + len) |> <| pkt_len := u32 (pkt_len m - len) |> in
  Some (u64 (buf_addr m + data_off m), set_mbuf a m w).
Definition rte_pktmbuf_trim (fuel : nat) (a len : Z) (w : world) : option (Z * world) :=
  last ← rte_pktmbuf_lastseg fuel a w;
  m_last ← mbufs w !! last;
  if len >? data_len m_last then Some (-1, w) else
  let w := set_mbuf last (m_last <| data_len := u16 (data_len m_last - len) |>) w in
  w ← upd_mbuf a (λ m, m <| pkt_len := u32 (pkt_len m - len) |>) w;
  Some (0, w).

Definition rte_pktmbuf_chain (fuel : nat) (head tail : Z) (w : world) : option (Z * world) :=
  h ← mbufs w !! head; t ← mbufs w !! tail;
  if nb_segs h + nb_segs t >=? Z.shiftl 1 8 then Some (- EOVERFLOW, w) else
  cur_tail ← rte_pktmbuf_lastseg fuel head w;
  w ← upd_mbuf cur_tail (λ m, m <| m_next := tail |>) w;
  t ← mbufs w !! tail;
  w ← upd_mbuf head (λ h, h <| nb_segs := u8 (nb_segs h + nb_segs t) |> <| pkt_len := u32 (pkt_len h + pkt_len t) |>) w;
  w ← upd_mbuf tail (λ t, t <| pkt_len := data_len t |>) w;
  Some (0, w).

(** Whether [rte_mbuf_sanity_check] returns; if not it panics. *)
Fixpoint count_segs (fuel : nat) (a nb_segs : Z) (w : world) : option bool :=
  if (a =? NULL) || (nb_segs =? 0) then Some (nb_segs =? 0) else
  match fuel with
  | O => None
  | S fuel => m ← mbufs w !! a; count_segs fuel (m_next m) (nb_segs - 1) w
  end.
Definition rte_mbuf_sanity_check (fuel : nat) (a : Z) (is_header : bool) (w : world) : option bool :=
  if a =? NULL then Some false else
  m ← mbufs w !! a;
  if m_pool m =? NULL then Some false else
  if buf_physaddr m =? 0 then Some false else
  if buf_addr m =? NULL then Some false else
  let cnt := rte_mbuf_refcnt_read m in
  if (cnt =? 0) || (cnt =? 2 ^ 16 - 1) then Some false else
  if negb is_header then Some true else count_segs fuel a (nb_segs m) w.
