(* ===== verification/MbufInv.v ===== *)
(** * The reference counts of buffers

    An invariant of the buffers and their pools: the count of a buffer is the
    number of references to it, those of the application and those of the
    buffers attached to its data, and the buffers without references are the
    free objects of their pools. Each lemma is one elementary change. *)
From S2P Require Import Prelude BurstQueue Ring RingSpec Mempool MempoolInit Mbuf.
Open Scope Z_scope.

(** The references of the application to [a], and the buffers attached to it. *)
Definition own (R : list Z) (a : Z) : Z := Z.of_nat (length (filter (λ b, b = a) R)).
Definition attached (T : gmap Z Z) (a : Z) : Z := Z.of_nat (size (filter (λ p : Z * Z, p.2 = a) T)).

#[export] Instance own_perm : Proper (Permutation ==> eq ==> eq) own.
Proof. intros R R' HR a ? <-. unfold own. by rewrite HR. Qed.
Lemma own_cons_eq a R : own (a :: R) a = own R a + 1.
Proof. unfold own. rewrite filter_cons_True by done. simpl. lia. Qed.
Lemma own_cons_ne b a R : b ≠ a → own (b :: R) a = own R a.
Proof. intros. unfold own. by rewrite filter_cons_False. Qed.
Lemma own_nonneg R a : 0 <= own R a.
Proof. unfold own. lia. Qed.
Lemma own_in R a : 0 < own R a ↔ a ∈ R.
Proof.
  unfold own. split.
  - intros H. destruct (filter (λ b, b = a) R) as [|x l] eqn:E; [simpl in H; lia|]. assert (x ∈ filter (λ b, b = a) R) as [-> ?]%list_elem_of_filter by (rewrite E; left). done.
  - intros H. destruct (filter (λ b, b = a) R) as [|x l] eqn:E; [|simpl; lia]. exfalso. eapply not_elem_of_nil. rewrite <- E. by apply list_elem_of_filter.
Qed.
Lemma own_app R S a : own (R ++ S) a = own R a + own S a.
Proof. unfold own. rewrite filter_app, length_app. lia. Qed.
Lemma own_replicate n b a : own (replicate n b) a = if decide (b = a) then Z.of_nat n else 0.
Proof. induction n as [|n IH]; simpl; [by destruct (decide (b = a))|]. case_decide; [subst; rewrite own_cons_eq|rewrite own_cons_ne by done]; rewrite IH; lia. Qed.
Lemma attached_nonneg T a : 0 <= attached T a.
Proof. unfold attached. lia. Qed.
Lemma attached_insert T i d a : T !! i = None → attached (<[i := d]> T) a = attached T a + (if decide (d = a) then 1 else 0).
Proof.
  intros Hi. unfold attached. case_decide.
  - rewrite map_filter_insert_True by done. rewrite map_size_insert_None; [lia|]. apply map_lookup_filter_None. by left.
  - rewrite map_filter_insert_False, delete_id by done. lia.
Qed.
Lemma attached_delete T i d a : T !! i = Some d → attached T a = attached (delete i T) a + (if decide (d = a) then 1 else 0).
Proof. intros Hi. rewrite <- (insert_delete_id T i d Hi) at 1. apply attached_insert, lookup_delete_eq. Qed.
Lemma attached_0 T a : attached T a = 0 ↔ ∀ i, T !! i ≠ Some a.
Proof.
  unfold attached. split.
  - intros H i Hi. assert (filter (λ p : Z * Z, p.2 = a) T = ∅) as He by (apply map_size_empty_inv; lia). assert (filter (λ p : Z * Z, p.2 = a) T !! i = Some a) as Hf by (by apply map_lookup_filter_Some). by rewrite He in Hf.
  - intros H. assert (filter (λ p : Z * Z, p.2 = a) T = ∅) as ->; [|done]. apply map_empty. intros i. apply map_lookup_filter_None. right. intros x Hx Hxa. simpl in Hxa. subst x. by apply (H i).
Qed.
#[global] Opaque own attached.

(** Where the objects of a pool are. *)
Definition place (mp : pool) : Z * list Z * Z * Z := (elt_va_start mp, elt_pa mp, pg_shift mp, pg_mask mp).

Ltac paths := repeat first [match goal with H : context [if ?b then _ else _] |- _ => destruct b end | progress binds]; simplify_eq.
Lemma put_place (mp mp' : pool) lcore a : rte_mempool_put mp lcore a = Some mp' → place mp' = place mp.
Proof. unfold rte_mempool_put, rte_mempool_put_bulk, __mempool_put_bulk. intros H. paths; done. Qed.
Lemma get_place (mp mp' : pool) lcore tbl ret tbl' : rte_mempool_get mp lcore tbl = Some (ret, tbl', mp') → place mp' = place mp.
Proof. unfold rte_mempool_get, rte_mempool_get_bulk, __mempool_get_bulk, take_from_cache. intros H. paths; done. Qed.

Section inv.
Context (hugepages : bool) (rte_mem_virt2phy : Z → Z).
Notation virt2phy := (rte_mempool_virt2phy hugepages rte_mem_virt2phy).

(** A place for a buffer of the pool [p], and a buffer that has its own data. *)
Record home (a : Z) (p : mbuf_pool) : Prop := {
  h_addr : 0 < a ∧ a + sizeof_rte_mbuf + mbuf_priv_size (private p) + mbuf_data_room_size (private p) < 2 ^ 64;
  h_priv : is_u16 (mbuf_priv_size (private p));
  h_room : is_u16 (mbuf_data_room_size (private p));
  h_phys : is_Some (virt2phy (mempool p) a) }.
Record own_data (a : Z) (p : mbuf_pool) (m : rte_mbuf) : Prop := {
  od_addr : buf_addr m = a + sizeof_rte_mbuf + mbuf_priv_size (private p);
  od_priv : priv_size m = mbuf_priv_size (private p);
  od_len : buf_len m = mbuf_data_room_size (private p);
  od_phys : ∃ pa, virt2phy (mempool p) a = Some pa ∧ buf_physaddr m = u64 (pa + (sizeof_rte_mbuf + mbuf_priv_size (private p))) }.
Definition same_buffer (m m' : rte_mbuf) : Prop := buf_addr m = buf_addr m' ∧ priv_size m = priv_size m' ∧ buf_len m = buf_len m' ∧ buf_physaddr m = buf_physaddr m'.
Record in_bounds (m : rte_mbuf) : Prop := { b_off : 0 <= data_off m; b_len : 0 <= data_len m; b_end : data_off m + data_len m <= buf_len m; b_u16 : buf_len m < 2 ^ 16 }.

(** [R] are the references of the application, [T] says which buffer is
    attached to the data of which, [L] are the buffers on their way back into
    a pool or out of it. *)
Record ok (P : gmap Z mbuf_pool) (B : gmap Z rte_mbuf) (R : list Z) (T : gmap Z Z) (L : list Z) (a : Z) (m : rte_mbuf) : Prop := {
  o_pool : ∃ p, P !! m_pool m = Some p ∧ home a p ∧ (T !! a = None → own_data a p m);
  o_count : refcnt m = own R a + attached T a;
  o_max : refcnt m < 2 ^ 16;
  o_data : in_bounds m;
  o_kind : match T !! a with
    | None => RTE_MBUF_INDIRECT m = false
    | Some d => RTE_MBUF_INDIRECT m = true ∧ (a ∈ R ∨ a ∈ L) ∧ T !! d = None ∧ ∃ md, B !! d = Some md ∧ same_buffer m md
    end }.
Definition filled (mp : pool) (mpa : Z) (B : gmap Z rte_mbuf) (L : list Z) : Prop :=
  ∃ cap free objs, pool_rep mp cap free ∧ NoDup free ∧ (∀ a, a ∈ free ↔ a ∉ L ∧ ∃ m, B !! a = Some m ∧ m_pool m = mpa ∧ refcnt m = 0) ∧
    Z.of_nat (length objs) <= cap ∧ ∀ a m, B !! a = Some m → m_pool m = mpa → a ∈ objs.
Record inv (w : world) (R : list Z) (T : gmap Z Z) (L : list Z) : Prop := {
  i_ok : ∀ a m, mbufs w !! a = Some m → ok (pools w) (mbufs w) R T L a m;
  i_tgt : ∀ i d, T !! i = Some d → is_Some (mbufs w !! i);
  i_refs : ∀ a, a ∈ R → is_Some (mbufs w !! a);
  i_loose : NoDup L ∧ ∀ a, a ∈ L → ∃ m, mbufs w !! a = Some m ∧ refcnt m = 0;
  i_pool : ∀ mpa p, pools w !! mpa = Some p → filled (mempool p) mpa (mbufs w) L }.

#[export] Instance inv_perm w : Proper (Permutation ==> eq ==> eq ==> iff) (inv w).
Proof.
  assert (∀ R R' T L, R ≡ₚ R' → inv w R T L → inv w R' T L) as H; [|intros R R' HR T ? <- L ? <-; split; by apply H].
  intros R R' T L HR [Hok Ht Hr Hl Hp]. split; try done; [|intros a Ha; apply Hr; by rewrite HR]. intros a m Ha. destruct (Hok a m Ha) as [H1 H2 H3 H4 H5]. split; try done; [by rewrite <- HR|].
  destruct (T !! a); [|done]. by rewrite <- HR.
Qed.

(** The pool of another state of its objects. *)
Lemma place_virt2phy mp mp' a : place mp' = place mp → virt2phy mp' a = virt2phy mp a.
Proof. unfold place, rte_mempool_virt2phy. intros [= -> -> -> ->]. done. Qed.
Lemma home_place a p mp' : place mp' = place (mempool p) → home a p → home a (p <| mempool := mp' |>).
Proof. intros Hp [H1 H2 H3 H4]. split; try done. cbn. by rewrite (place_virt2phy (mempool p)). Qed.
Lemma own_data_place a p m mp' : place mp' = place (mempool p) → own_data a p m → own_data a (p <| mempool := mp' |>) m.
Proof. intros Hp [H1 H2 H3 (pa & H4 & H5)]. split; try done. exists pa. cbn. by rewrite (place_virt2phy (mempool p)). Qed.
Lemma ok_place P B R T L L' a m mpa p mp' : P !! mpa = Some p → place mp' = place (mempool p) → (a ∈ R ∨ a ∈ L → a ∈ R ∨ a ∈ L' ∨ T !! a = None) →
  ok P B R T L a m → ok (<[mpa := p <| mempool := mp' |>]> P) B R T L' a m.
Proof.
  intros Hp Hpl HL [(q & Hq & Hh & Ho) H2 H3 H4 H5]. split; try done.
  - destruct (decide (m_pool m = mpa)) as [<-|Hm]; [|exists q; by rewrite lookup_insert_ne by done]. assert (q = p) as -> by congruence. exists (p <| mempool := mp' |>). rewrite lookup_insert_eq.
    split_and!; [done|by apply home_place|intros; apply own_data_place; auto].
  - destruct (T !! a) as [d|] eqn:E; [|done]. destruct H5 as (? & HR & ? & ?). split_and!; try done. destruct (HL HR) as [|[|]]; auto; done.
Qed.

(** Replacing one buffer by a version of it with the same references. *)
Lemma ok_frame P B R T L a m b m' : ok P B R T L a m → b ≠ a → (∀ m0, B !! b = Some m0 → T !! a = Some b → same_buffer m0 m') → is_Some (B !! b) → ok P (<[b := m']> B) R T L a m.
Proof.
  intros [H1 H2 H3 H4 H5] Hne Hs [m0 Hb]. split; try done. destruct (T !! a) as [d|] eqn:E; [|done]. destruct H5 as (? & ? & ? & md & Hd & Hsb). split_and!; try done.
  destruct (decide (d = b)) as [->|]; [|exists md; by rewrite lookup_insert_ne by done]. assert (md = m0) as -> by congruence. exists m'. rewrite lookup_insert_eq. split; [done|]. destruct Hsb as (? & ? & ? & ?), (Hs m0 Hb eq_refl) as (? & ? & ? & ?). repeat split; congruence.
Qed.
Lemma filled_frame mp mpa B L b m m' L' : B !! b = Some m → m_pool m' = m_pool m → (∀ a, a ≠ b → a ∈ L' ↔ a ∈ L) → (refcnt m' = 0 ∧ b ∉ L' ↔ refcnt m = 0 ∧ b ∉ L) →
  filled mp mpa B L → filled mp mpa (<[b := m']> B) L'.
Proof.
  intros Hb Hmp HL Hz (cap & free & objs & Hrep & Hnd & Hfree & Hlen & Hobj). exists cap, free, objs. split_and!; try done.
  - intros a. rewrite Hfree. destruct (decide (a = b)) as [->|Hne].
    + rewrite lookup_insert_eq, Hb. split; intros (? & ? & [= <-] & ? & ?); (split; [tauto|]); eexists; (split; [done|]); split; try congruence; tauto.
    + rewrite lookup_insert_ne by done. by rewrite HL.
  - intros a x Ha Hx. destruct (decide (a = b)) as [->|Hne]; [rewrite lookup_insert_eq in Ha; simplify_eq; eapply Hobj; [done|congruence]|]. rewrite lookup_insert_ne in Ha by done. by eapply Hobj.
Qed.

Lemma mbufs_set a m w : mbufs (set_mbuf a m w) = <[a := m]> (mbufs w).
Proof. done. Qed.
Lemma pools_set a m w : pools (set_mbuf a m w) = pools w.
Proof. done. Qed.

(** One buffer is written; the references to the others stay, in sum. *)
Lemma buf_replace w R T L b m m' R' T' L' : inv w R T L → mbufs w !! b = Some m → m_pool m' = m_pool m → ok (pools w) (<[b := m']> (mbufs w)) R' T' L' b m' →
  (∀ a, a ≠ b → own R' a + attached T' a = own R a + attached T a ∧ T' !! a = T !! a ∧ (a ∈ L' ↔ a ∈ L) ∧ (T !! a ≠ None → a ∈ R → a ∈ R') ∧ (a ∈ R' → is_Some (mbufs w !! a))) →
  (∀ a, T !! a = Some b → a ≠ b → same_buffer m m' ∧ T' !! b = None) → (refcnt m' = 0 ∧ b ∉ L' ↔ refcnt m = 0 ∧ b ∉ L) → NoDup L' → (b ∈ L' → refcnt m' = 0) →
  inv (set_mbuf b m' w) R' T' L'.
Proof.
  intros [Hok Ht Hr [_ Hl] Hp] Hb Hmp Hnew Hoth Hsb Hz Hnd Hlb. assert (∀ a, is_Some (mbufs w !! a) → is_Some (<[b := m']> (mbufs w) !! a)) as Hdom.
  { intros a [x Hx]. destruct (decide (b = a)) as [->|]; [rewrite lookup_insert_eq|rewrite lookup_insert_ne by done]; eauto. }
  split; rewrite ?mbufs_set, ?pools_set.
  - intros a x Ha. destruct (decide (b = a)) as [->|Hne]; [rewrite lookup_insert_eq in Ha; by simplify_eq|]. rewrite lookup_insert_ne in Ha by done.
    destruct (Hoth a) as (Hsum & HT & HL & HR & _); [done|]. apply ok_frame; [|done|by intros m0 Hm0 HTa; simplify_eq; apply (Hsb a); [by rewrite <- HT|]|by eexists].
    destruct (Hok a x Ha) as [H1 H2 H3 H4 H5]. split; [by rewrite HT|by rewrite Hsum|done|done|]. rewrite HT. destruct (T !! a) as [d|] eqn:E; [|done]. destruct H5 as (? & HRL & Hd & Hmd). split_and!; try done.
    + rewrite HL. destruct HRL; [left; by apply HR|by right].
    + destruct (decide (d = b)) as [->|Hdb]; [by apply (Hsb a)|]. by destruct (Hoth d Hdb) as (_ & -> & _).
  - intros i d Hi. apply Hdom. destruct (decide (i = b)) as [->|Hne]; [by eexists|]. destruct (Hoth i Hne) as (_ & HT & _). eapply Ht. by rewrite <- HT.
  - intros a Ha. apply Hdom. destruct (decide (a = b)) as [->|Hne]; [by eexists|]. by apply (Hoth a Hne).
  - split; [done|]. intros a Ha. destruct (decide (b = a)) as [->|Hne]; [rewrite lookup_insert_eq; eauto|]. rewrite lookup_insert_ne by done. apply Hl. by apply (Hoth a).
  - intros mpa p Hpa. apply (filled_frame _ _ _ L _ m); [done|done| |done|by apply Hp]. intros a Hne. by destruct (Hoth a Hne) as (_ & _ & ? & _).
Qed.

(** Other fields, with the data in the buffer. *)
Record rewritten (m m' : rte_mbuf) : Prop := {
  rw_pool : m_pool m' = m_pool m; rw_refcnt : refcnt m' = refcnt m; rw_buffer : same_buffer m m'; rw_kind : RTE_MBUF_INDIRECT m' = RTE_MBUF_INDIRECT m; rw_data : in_bounds m' }.
Lemma buf_write w R T L b m m' : inv w R T L → mbufs w !! b = Some m → rewritten m m' → inv (set_mbuf b m' w) R T L.
Proof.
  intros HI Hb [Hmp Hrc Hsb Hk Hd]. destruct (i_ok _ _ _ _ HI b m Hb) as [(p & Hp & Hh & Ho) H2 H3 H4 H5]. apply (buf_replace w R T L b m); [done|done|done|split| | | | |].
  - exists p. rewrite Hmp. split_and!; [done|done|]. intros HT. destruct (Ho HT) as [? ? ? (pa & ? & ?)]. destruct Hsb as (? & ? & ? & ?). split; try congruence. exists pa. split; [done|congruence].
  - by rewrite Hrc.
  - by rewrite Hrc.
  - done.
  - rewrite Hk. destruct (T !! b) as [d|] eqn:E; [|done]. destruct H5 as (? & ? & HTd & md & Hd' & Hsb'). split_and!; try done. assert (b ≠ d) by congruence. exists md. rewrite lookup_insert_ne by done. split; [done|].
    destruct Hsb as (? & ? & ? & ?), Hsb' as (? & ? & ? & ?). repeat split; congruence.
  - intros a Hne. split_and!; try done. intros Ha. by apply (i_refs _ _ _ _ HI).
  - intros a Ha Hne. split; [done|]. destruct (T !! b) as [d|] eqn:E; [|done]. destruct (i_tgt _ _ _ _ HI a b Ha) as [x Hx]. destruct (i_ok _ _ _ _ HI a x Hx) as [_ _ _ _ Hk']. rewrite Ha in Hk'. destruct Hk' as (_ & _ & ? & _). congruence.
  - by rewrite Hrc.
  - apply (i_loose _ _ _ _ HI).
  - intros Hin. destruct (proj2 (i_loose _ _ _ _ HI) b Hin) as (x & Hx & ?). congruence.
Qed.

Lemma loose_zero w R T L a m : inv w R T L → mbufs w !! a = Some m → refcnt m ≠ 0 → a ∉ L.
Proof. intros HI Ha Hm Hin. destruct (proj2 (i_loose _ _ _ _ HI) a Hin) as (x & Hx & ?). congruence. Qed.
Lemma target_direct w R T L i d : inv w R T L → T !! i = Some d → T !! d = None ∧ i ≠ d.
Proof. intros HI Hi. destruct (i_tgt _ _ _ _ HI i d Hi) as [x Hx]. destruct (i_ok _ _ _ _ HI i x Hx) as [_ _ _ _ Hk]. rewrite Hi in Hk. destruct Hk as (_ & _ & ? & _). split; congruence. Qed.
Lemma indirect_unattached w R T L a d : inv w R T L → T !! a = Some d → attached T a = 0.
Proof. intros HI Ha. apply attached_0. intros i Hi. destruct (target_direct _ _ _ _ _ _ HI Hi). congruence. Qed.
Lemma is_indirect w R T L a m : inv w R T L → mbufs w !! a = Some m → RTE_MBUF_INDIRECT m = bool_decide (T !! a ≠ None).
Proof. intros HI Ha. destruct (i_ok _ _ _ _ HI a m Ha) as [_ _ _ _ Hk]. destruct (T !! a); [destruct Hk as [-> _]|rewrite Hk]; symmetry; [by apply bool_decide_eq_true|apply bool_decide_eq_false; tauto]. Qed.

(** A change of the count, with the references of the application. *)
Lemma inv_count w R R' T L L' a m c : inv w R T L → mbufs w !! a = Some m → c = own R' a + attached T a → c < 2 ^ 16 → (∀ b, b ≠ a → own R' b = own R b) →
  (T !! a ≠ None → a ∈ R' ∨ a ∈ L') → (∀ b, b ≠ a → b ∈ L' ↔ b ∈ L) → (c = 0 ∧ a ∉ L' ↔ refcnt m = 0 ∧ a ∉ L) → NoDup L' → (a ∈ L' → c = 0) →
  inv (set_mbuf a (m <| refcnt := c |>) w) R' T L'.
Proof.
  intros HI Ha Hc Hlt Hoth Hk HL Hz Hnd Hla. destruct (i_ok _ _ _ _ HI a m Ha) as [(p & Hp & Hh & Ho) H2 H3 H4 H5]. apply (buf_replace w R T L a m); [done|done|done|split| | |done|done|done].
  - exists p. split_and!; [done|done|]. intros HT. by destruct (Ho HT).
  - done.
  - done.
  - by destruct H4.
  - change (RTE_MBUF_INDIRECT (m <| refcnt := c |>)) with (RTE_MBUF_INDIRECT m). destruct (T !! a) as [d|] eqn:E; [|done]. destruct H5 as (? & ? & HTd & md & Hd & ?). split_and!; try done; [by apply Hk|].
    exists md. rewrite lookup_insert_ne by congruence. done.
  - intros b Hne. rewrite Hoth by done. split_and!; try done; [by apply HL|intros _; by rewrite <- !own_in, Hoth|]. intros Hb%own_in. rewrite Hoth in Hb by done. apply (i_refs _ _ _ _ HI). by apply own_in.
  - intros b Hb Hne. split; [done|]. by apply (target_direct _ _ _ _ _ _ HI Hb).
Qed.
Lemma refcnt_update_eq a v w m c : mbufs w !! a = Some m → is_u16 c → c = refcnt m + v → rte_mbuf_refcnt_update a v w = Some (c, set_mbuf a (m <| refcnt := c |>) w).
Proof.
  intros Ha Hc Hv. unfold rte_mbuf_refcnt_update, rte_mbuf_refcnt_read, rte_mbuf_refcnt_set. rewrite Ha. cbn [mbind option_bind]. destruct (Z.eqb_spec (refcnt m) 1) as [E|E]; [rewrite E in Hv|]; rewrite <- Hv, u16_small by done; done.
Qed.
Lemma refcnt_inc w R T L a m : inv w R T L → mbufs w !! a = Some m → 0 < refcnt m → refcnt m + 1 < 2 ^ 16 →
  let w' := set_mbuf a (m <| refcnt := refcnt m + 1 |>) w in rte_mbuf_refcnt_update a 1 w = Some (refcnt m + 1, w') ∧ inv w' (a :: R) T L.
Proof.
  intros HI Ha H0 H1. destruct (i_ok _ _ _ _ HI a m Ha) as [_ Hc _ _ _]. split; [apply refcnt_update_eq; [done|unfold is_u16; lia|done]|]. assert (a ∉ L) by (eapply loose_zero; [done|done|lia]).
  apply (inv_count w R (a :: R) T L L); try done; [rewrite own_cons_eq; lia|intros b ?; by rewrite own_cons_ne by done|intros _; left; left|lia|apply (i_loose _ _ _ _ HI)].
Qed.
Lemma refcnt_dec w R T L a m : inv w (a :: R) T L → mbufs w !! a = Some m →
  let w' := set_mbuf a (m <| refcnt := refcnt m - 1 |>) w in 0 < refcnt m ∧ rte_mbuf_refcnt_update a (-1) w = Some (refcnt m - 1, w') ∧ inv w' R T (if decide (refcnt m = 1) then a :: L else L).
Proof.
  intros HI Ha. destruct (i_ok _ _ _ _ HI a m Ha) as [_ Hc Hmax _ _]. rewrite own_cons_eq in Hc. pose proof (own_nonneg R a). pose proof (attached_nonneg T a). assert (a ∉ L) by (eapply loose_zero; [done|done|lia]).
  split_and!; [lia|apply refcnt_update_eq; [done|unfold is_u16; lia|lia]|]. apply (inv_count w (a :: R) R T L); try done; [lia|lia|intros b ?; by rewrite own_cons_ne by done| | | | |].
  - intros HT. destruct (T !! a) as [d|] eqn:E; [|done]. rewrite (indirect_unattached _ _ _ _ _ _ HI E) in Hc. case_decide; [right; left|]. left. apply own_in. lia.
  - intros b Hb. case_decide; [|done]. rewrite elem_of_cons. tauto.
  - case_decide; [|lia]. rewrite elem_of_cons. split; [|lia]. intros [_ Hn]. exfalso. apply Hn. by left.
  - destruct (i_loose _ _ _ _ HI). case_decide; [|done]. by constructor.
  - intros Hin. case_decide; [lia|done].
Qed.

Lemma inv_take w R T L a m : inv w R T (a :: L) → mbufs w !! a = Some m → T !! a = None → inv (set_mbuf a (m <| refcnt := 1 |>) w) (a :: R) T L.
Proof.
  intros HI Ha HT. destruct (i_loose _ _ _ _ HI) as [Hnd Hl]. apply NoDup_cons in Hnd as [Hni Hnd]. destruct (Hl a) as (x & Hx & Hz); [left|]. assert (x = m) as -> by congruence.
  destruct (i_ok _ _ _ _ HI a m Ha) as [_ Hc _ _ _]. pose proof (own_nonneg R a). pose proof (attached_nonneg T a).
  apply (inv_count w R (a :: R) T (a :: L)); try done; [rewrite own_cons_eq; lia|intros b ?; by rewrite own_cons_ne by done|intros b Hb; rewrite elem_of_cons; tauto|].
  split; [lia|]. intros [_ Hn]. exfalso. apply Hn. by left.
Qed.

(** Back to its own data. *)
Lemma detach_ok w R T L a m d : inv w R T (a :: L) → mbufs w !! a = Some m → T !! a = Some d →
  ∃ m', rte_pktmbuf_detach hugepages rte_mem_virt2phy a w = Some (set_mbuf a m' w) ∧ m_next m' = m_next m ∧ refcnt m' = refcnt m ∧ inv (set_mbuf a m' w) (d :: R) (delete a T) (a :: L).
Proof.
  intros HI Ha HT. destruct (target_direct _ _ _ _ _ _ HI HT) as [HTd Hne]. pose proof (indirect_unattached _ _ _ _ _ _ HI HT) as Hat. destruct (i_loose _ _ _ _ HI) as [Hnd Hl]. destruct (Hl a) as (x & Hx & Hz); [left|].
  assert (x = m) as -> by congruence. destruct (i_ok _ _ _ _ HI a m Ha) as [(p & Hp & [Hadr Hpr Hro [pa Hpa]] & _) Hc _ _ Hk]. rewrite HT in Hk. destruct Hk as (_ & _ & _ & md & Hmd & _). pose proof (own_nonneg R a) as Hown.
  unfold is_u16 in *. unfold rte_pktmbuf_detach, own_buffer. rewrite Ha. cbn [mbind option_bind]. rewrite Hp. cbn [mbind option_bind]. rewrite Hpa. cbn [mbind option_bind]. unfold rte_pktmbuf_priv_size, rte_pktmbuf_data_room_size. unfold sizeof_rte_mbuf in *.
  rewrite (u32_small (128 + _)) by (unfold is_u32; lia). rewrite (u64_small (a + _)) by (unfold is_u64; lia). rewrite u16_small by (unfold is_u16; lia). eexists. split; [done|]. split; [done|]. split; [done|].
  apply (buf_replace w R T (a :: L) a m); [done|done|done|split| | | |done|by intros].
  - exists p. split_and!; [done|by split|]. intros _. split; cbn; unfold sizeof_rte_mbuf; [lia|done|done|]. exists pa. done.
  - cbn. rewrite own_cons_ne by done. rewrite (attached_delete T a d a HT), decide_False in Hat, Hc by done. lia.
  - cbn. lia.
  - unfold RTE_PKTMBUF_HEADROOM. split; cbn; lia.
  - by rewrite lookup_delete_eq.
  - intros b Hb. rewrite (attached_delete T a d b HT), lookup_delete_ne by done. case_decide as Hdb; [subst b; rewrite own_cons_eq|rewrite own_cons_ne by done]; (split_and!; [lia|done|done|intros _ Hin; by right|]);
      (intros Hin; apply elem_of_cons in Hin as [He|Hin]; [subst; by eexists|by apply (i_refs _ _ _ _ HI)]).
  - intros b Hb _. destruct (target_direct _ _ _ _ _ _ HI Hb). congruence.
  - cbn. done.
Qed.

(** The buffer of an attached one. *)
Lemma from_indirect_ok w R T L a m d : inv w R T L → mbufs w !! a = Some m → T !! a = Some d → rte_mbuf_from_indirect m = d ∧ ∃ md, mbufs w !! d = Some md ∧ same_buffer m md.
Proof.
  intros HI Ha HT. destruct (i_ok _ _ _ _ HI a m Ha) as [_ _ _ _ Hk]. rewrite HT in Hk. destruct Hk as (_ & _ & HTd & md & Hd & Hsb). split; [|by exists md].
  destruct (i_ok _ _ _ _ HI d md Hd) as [(p & _ & [Hadr Hpr Hro _] & Ho) _ _ _ _]. unfold is_u16 in *. destruct (Ho HTd) as [Hba Hbp _ _]. destruct Hsb as (E1 & E2 & _). unfold rte_mbuf_from_indirect. rewrite E1, E2, Hba, Hbp. unfold sizeof_rte_mbuf in *.
  rewrite u64_small by (unfold is_u64; lia). lia.
Qed.

Lemma attached_indirect m i : RTE_MBUF_INDIRECT (attached_to m i) = true.
Proof.
  unfold RTE_MBUF_INDIRECT. cbn. apply negb_true_iff, Z.eqb_neq. intros H. apply (f_equal (λ x, Z.testbit x 62)) in H. by rewrite Z.land_spec, Z.lor_spec, Z.bits_0, orb_true_r in H.
Qed.
(** [mi], with its own data, to the data of [d]: a reference to [d] is now that of [mi]. *)
Lemma inv_attach w R T L mi i m d md : inv w (d :: R) T L → mbufs w !! mi = Some i → T !! mi = None → attached T mi = 0 → mi ∈ R → mi ≠ d → T !! d = None →
  mbufs w !! d = Some md → same_buffer m md → in_bounds m → inv (set_mbuf mi (attached_to m i) w) R (<[mi := d]> T) L.
Proof.
  intros HI Hi HT Hat HR Hne HTd Hd Hsb Hb. destruct (i_ok _ _ _ _ HI mi i Hi) as [(p & Hp & Hh & _) Hc Hmax _ _]. rewrite own_cons_ne in Hc by done. apply own_in in HR as HR'.
  apply (buf_replace w (d :: R) T L mi i); [done|done|done|split| | |done|apply (i_loose _ _ _ _ HI)|].
  - exists p. rewrite lookup_insert_eq. done.
  - cbn. rewrite attached_insert, decide_False by done. lia.
  - done.
  - by destruct Hb.
  - rewrite lookup_insert_eq. split_and!; [apply attached_indirect|by left|by rewrite lookup_insert_ne|]. exists md. rewrite lookup_insert_ne by done. split; [done|]. destruct Hsb as (? & ? & ? & ?). by repeat split.
  - intros b Hb'. rewrite attached_insert, lookup_insert_ne by done. case_decide as Hdb; [subst b; rewrite own_cons_eq|rewrite own_cons_ne by done]; (split_and!; [lia|done|done| |intros Hin; apply (i_refs _ _ _ _ HI); by right]).
    + by intros [].
    + intros _ Hin. by apply elem_of_cons in Hin as [->|].
  - intros b Hb' _. exfalso. by apply (proj1 (attached_0 T mi) Hat b).
  - intros Hin. exfalso. apply (loose_zero _ _ _ _ mi i HI Hi); [lia|done].
Qed.

(** ** The pools *)

Context (lcore : Z) (Hlcore : 0 <= lcore).

Lemma inv_pool w R T L L' mpa p mp' : inv w R T L → pools w !! mpa = Some p → place mp' = place (mempool p) → NoDup L' → (∀ a, a ∈ L' → ∃ m, mbufs w !! a = Some m ∧ refcnt m = 0) →
  (∀ a, a ∈ L → a ∈ L' ∨ T !! a = None) → filled mp' mpa (mbufs w) L' → (∀ mpb q, mpb ≠ mpa → filled q mpb (mbufs w) L → filled q mpb (mbufs w) L') →
  inv (w <| pools := <[mpa := p <| mempool := mp' |>]> (pools w) |>) R T L'.
Proof.
  intros [Hok Ht Hr _ Hp] Hpa Hpl Hnd Hl HL Hf Hfo. split; cbn; try done.
  - intros a m Ha. apply (ok_place _ _ _ _ L); [done|done| |by apply Hok]. intros [|Hin]; [by left|right; by apply HL].
  - intros mpb q Hq. destruct (decide (mpa = mpb)) as [->|Hne]; [rewrite lookup_insert_eq in Hq; by simplify_eq|]. rewrite lookup_insert_ne in Hq by done. apply Hfo; [done|by apply Hp].
Qed.
(** Buffers that enter or leave the pool [mpa] do not matter for the others. *)
Lemma filled_other mp mpa mpb B L a m : B !! a = Some m → m_pool m = mpa → mpb ≠ mpa → filled mp mpb B L ↔ filled mp mpb B (a :: L).
Proof.
  intros Ha Hm Hne. assert (∀ b, (b ∉ L ∧ ∃ x, B !! b = Some x ∧ m_pool x = mpb ∧ refcnt x = 0) ↔ (b ∉ a :: L ∧ ∃ x, B !! b = Some x ∧ m_pool x = mpb ∧ refcnt x = 0)) as E.
  { intros b. rewrite not_elem_of_cons. split; [|tauto]. intros (Hb & x & Hx & Hxp & ?). split; [|by exists x]. split; [|done]. intros ->. congruence. }
  split; intros (cap & free & objs & H1 & H2 & H3 & H4 & H5); exists cap, free, objs; (split_and!; [done|done| |done|done]); intros b; rewrite H3; [|symmetry]; apply E.
Qed.
Lemma raw_put w R T L a m : inv w R T (a :: L) → mbufs w !! a = Some m → T !! a = None →
  ∃ w', __rte_mbuf_raw_free lcore a w = Some w' ∧ mbufs w' = mbufs w ∧ inv w' R T L.
Proof.
  intros HI Ha HT. destruct (i_loose _ _ _ _ HI) as [Hnd Hl]. destruct (Hl a) as (x & Hx & Hz); [left|]. assert (x = m) as -> by congruence. apply NoDup_cons in Hnd as [Hni Hnd].
  destruct (i_ok _ _ _ _ HI a m Ha) as [(p & Hp & _) _ _ _ _]. destruct (i_pool _ _ _ _ HI _ _ Hp) as (cap & free & objs & Hrep & Hndf & Hfree & Hlen & Hobj).
  assert (Haf : a ∉ free) by (rewrite Hfree; intros [Hn _]; apply Hn; left). assert (Hsub : a :: free ⊆ objs).
  { intros b Hb. apply elem_of_cons in Hb as [->|Hb]; [by eapply Hobj|]. apply Hfree in Hb as (_ & y & Hy & ? & _). by eapply Hobj. }
  pose proof (submseteq_length _ _ (NoDup_submseteq (a :: free) objs ltac:(by constructor) Hsub)) as Hle. simpl in Hle.
  destruct (put_bulk_run (mempool p) cap free lcore [a] 1 (Z.land (mp_flags (mempool p)) MEMPOOL_F_SP_PUT =? 0) Hrep Hlcore) as (mp' & Hput & Hrep' & _); [simpl; lia|lia|].
  assert (Hput' : rte_mempool_put (mempool p) lcore a = Some mp') by exact Hput. unfold __rte_mbuf_raw_free. rewrite Ha. cbn [mbind option_bind]. rewrite Hp. cbn [mbind option_bind]. rewrite Hput'. cbn [mbind option_bind].
  eexists. split; [done|]. split; [done|]. apply (inv_pool w R T (a :: L)); [done|done|by eapply put_place|done|intros b Hb; apply Hl; by right|intros b Hb; apply elem_of_cons in Hb as [->|]; auto| |].
  - exists cap, (a :: free), objs. split_and!; [done|by constructor| |done|done]. intros b. rewrite elem_of_cons, Hfree, not_elem_of_cons. split; [|destruct (decide (b = a)); tauto].
    intros [->|[[_ ?] ?]]; [split; [done|]; by exists m|done].
  - intros mpb q Hne Hq. by eapply filled_other.
Qed.
Lemma free_direct w R T L a m : inv w R T L → mbufs w !! a = Some m → refcnt m = 0 → a ∉ L → T !! a = None.
Proof.
  intros HI Ha Hz HaL. destruct (i_ok _ _ _ _ HI a m Ha) as [_ Hc _ _ Hk]. pose proof (own_nonneg R a). pose proof (attached_nonneg T a). destruct (T !! a) as [d|]; [|done]. destruct Hk as (_ & [Hin%own_in|] & _); [lia|done].
Qed.
Lemma raw_get w R T L mpa p : inv w R T L → pools w !! mpa = Some p →
  ∃ ret tbl mp', rte_mempool_get (mempool p) lcore [NULL] = Some (ret, tbl, mp') ∧ let w' := w <| pools := <[mpa := p <| mempool := mp' |>]> (pools w) |> in
    ((ret < 0 ∧ inv w' R T L) ∨ (ret = 0 ∧ ∃ a m, tbl = [a] ∧ mbufs w !! a = Some m ∧ refcnt m = 0 ∧ T !! a = None ∧ inv w' R T (a :: L))).
Proof.
  intros HI Hp. destruct (i_loose _ _ _ _ HI) as [Hnd Hl]. destruct (i_pool _ _ _ _ HI _ _ Hp) as (cap & free & objs & Hrep & Hndf & Hfree & Hlen & Hobj).
  destruct (get_bulk_run (mempool p) cap free lcore [NULL] 1 (Z.land (mp_flags (mempool p)) MEMPOOL_F_SC_GET =? 0) Hrep Hlcore) as (ret & tbl & mp' & Hget & _ & Hgot); [simpl; lia|].
  assert (Hget' : rte_mempool_get (mempool p) lcore [NULL] = Some (ret, tbl, mp')) by exact Hget. exists ret, tbl, mp'. split; [done|]. pose proof (get_place _ _ _ _ _ _ Hget') as Hpl.
  destruct Hgot as [(-> & got & free' & Hg & -> & Hperm & Hrep')|(-> & -> & Hrep' & _)].
  - right. destruct got as [|a [|]]; [simpl in Hg; lia| |simpl in Hg; lia]. simpl in Hperm. rewrite Hperm in Hndf. apply NoDup_cons in Hndf as [Hni Hndf]. assert (a ∈ free) as Hin by (rewrite Hperm; left).
    apply Hfree in Hin as (HaL & m & Ha & Hm & Hz). split; [done|]. exists a, m. split_and!; [done|done|done|by eapply free_direct|]. apply (inv_pool w R T L); [done|done|done|by constructor| |intros b Hb; left; by right| |].
    + intros b Hb. apply elem_of_cons in Hb as [->|Hb]; [by exists m|by apply Hl].
    + exists cap, free', objs. split_and!; [done|done| |done|done]. intros b. rewrite not_elem_of_cons. assert (b ∈ free ↔ b = a ∨ b ∈ free') as E by (by rewrite Hperm, elem_of_cons). rewrite Hfree in E.
      destruct (decide (b = a)) as [->|]; [tauto|]. tauto.
    + intros mpb q Hne Hq. by apply (proj1 (filled_other q mpa mpb _ L a m Ha Hm Hne)).
  - left. split; [unfold ENOENT; lia|]. apply (inv_pool w R T L); [done|done|done|done|done|auto| |done]. by exists cap, free, objs.
Qed.
End inv.
