(* ===== verification/MbufOps.v ===== *)
(** * The operations on packets

    A packet is a chain of buffers. Allocation, release, cloning and reference
    counting of packets keep the invariant of [MbufInv.v], and what they leave
    of the other buffers. *)
From S2P Require Import Prelude BurstQueue Ring RingSpec Mempool MempoolInit Mbuf MbufInv.
Open Scope Z_scope.

(** Only the counts of the buffers in [R] may differ. *)
Definition kept (B B' : gmap Z rte_mbuf) (R : list Z) : Prop := ∀ b m, b ∈ R → B !! b = Some m → ∃ c, B' !! b = Some (m <| refcnt := c |>).
Lemma kept_refl B R : kept B B R.
Proof. intros b m _ Hb. exists (refcnt m). rewrite Hb. by destruct m. Qed.
Lemma kept_trans B1 B2 B3 R : kept B1 B2 R → kept B2 B3 R → kept B1 B3 R.
Proof. intros H1 H2 b m Hb Hm. destruct (H1 b m Hb Hm) as [c Hc]. destruct (H2 b _ Hb Hc) as [c' Hc']. by exists c'. Qed.
Lemma kept_sub B B' R R' : R' ⊆ R → kept B B' R → kept B B' R'.
Proof. intros HR H b m Hb. apply H. by apply HR. Qed.
Lemma kept_count B b m c R : B !! b = Some m → kept B (<[b := m <| refcnt := c |>]> B) R.
Proof. intros Hb a x _ Ha. destruct (decide (b = a)) as [->|]; [rewrite lookup_insert_eq; simplify_eq; eauto|]. rewrite lookup_insert_ne, Ha by done. exists (refcnt x). by destruct x. Qed.
Lemma kept_other B b m R : b ∉ R → kept B (<[b := m]> B) R.
Proof. intros Hb a x Ha Hx. rewrite lookup_insert_ne by congruence. exists (refcnt x). rewrite Hx. by destruct x. Qed.

(** The segments of a packet, linked by [m_next] and ending with [NULL]. *)
Fixpoint chain (B : gmap Z rte_mbuf) (p : list Z) : Prop :=
  match p with
  | [] => True
  | a :: p => a ≠ NULL ∧ (∃ m, B !! a = Some m ∧ m_next m = hd NULL p) ∧ chain B p
  end.
Lemma chain_kept B B' p R : kept B B' R → p ⊆ R → chain B p → chain B' p.
Proof.
  intros Hk. induction p as [|a p IH]; [done|]. intros Hs (Ha & (m & Hm & Hn) & Hp). simpl. split; [done|]. destruct (Hk a m) as [c Hc]; [apply Hs; left|done|]. split; [by eexists|]. apply IH; [|done]. intros x Hx. apply Hs. by right.
Qed.

Section ops.
Context (hugepages : bool) (rte_mem_virt2phy : Z → Z) (lcore : Z) (Hlcore : 0 <= lcore).
Notation inv := (inv hugepages rte_mem_virt2phy).

Lemma upd_mbuf_eq a m f w : mbufs w !! a = Some m → upd_mbuf a f w = Some (set_mbuf a (f m) w).
Proof. intros H. unfold upd_mbuf. by rewrite H. Qed.

Lemma raw_free_dom a w w' : __rte_mbuf_raw_free lcore a w = Some w' → dom (pools w') = dom (pools w).
Proof. unfold __rte_mbuf_raw_free. intros H. destruct (mbufs w !! a); [|done]. simpl in H. destruct (pools w !! _) eqn:E; [|done]. simpl in H. destruct (rte_mempool_put _ _ _); [|done]. simpl in H. simplify_eq. cbn. apply dom_insert_lookup_L. by eexists. Qed.

(** A buffer that has just been allocated. *)
Definition blank (m : rte_mbuf) : rte_mbuf := rte_pktmbuf_reset (m <| refcnt := 1 |>).
Lemma blank_rewritten m : in_bounds m → RTE_MBUF_INDIRECT m = false → rewritten (m <| refcnt := 1 |>) (blank m).
Proof.
  intros [H1 H2 H3 H4] Hk. split; [done|done|done|change (RTE_MBUF_INDIRECT (m <| refcnt := 1 |>)) with (RTE_MBUF_INDIRECT m); by rewrite Hk|]. unfold blank, rte_pktmbuf_reset, RTE_PKTMBUF_HEADROOM. split; cbn; [case_match; lia|lia| |done]. destruct (Z.leb_spec 128 (buf_len m)); lia.
Qed.
Lemma alloc_ok w R T mpa p : inv w R T [] → pools w !! mpa = Some p → ∃ a w', rte_pktmbuf_alloc lcore mpa w = Some (a, w') ∧ dom (pools w') = dom (pools w) ∧
  ((a = NULL ∧ mbufs w' = mbufs w ∧ inv w' R T []) ∨
   (a ≠ NULL ∧ ∃ m, mbufs w !! a = Some m ∧ refcnt m = 0 ∧ T !! a = None ∧ mbufs w' = <[a := blank m]> (mbufs w) ∧ inv w' (a :: R) T [])).
Proof.
  intros HI Hp. destruct (raw_get _ _ _ Hlcore _ _ _ _ _ _ HI Hp) as (ret & tbl & mp' & Hget & Hgot). unfold rte_pktmbuf_alloc, __rte_mbuf_raw_alloc. rewrite Hp. cbn [mbind option_bind]. rewrite Hget. cbn [mbind option_bind].
  set (w1 := w <| pools := _ |>) in *. assert (Hdom : dom (pools w1) = dom (pools w)) by (apply dom_insert_lookup_L; by eexists).
  destruct Hgot as [(Hret & HI1)|(-> & a & m & -> & Ha & Hz & HT & HI1)].
  - destruct (Z.ltb_spec ret 0); [|lia]. cbn. exists NULL, w1. split_and!; [done|done|]. by left.
  - change (0 <? 0) with false. change (load [a] 0) with (Some a). cbn [mbind option_bind]. assert (Ha1 : mbufs w1 !! a = Some m) by done. rewrite (upd_mbuf_eq _ _ _ _ Ha1). cbn [mbind option_bind]. unfold rte_mbuf_refcnt_set. rewrite u16_small by done.
    pose proof (inv_take _ _ _ _ _ _ _ _ HI1 Ha1 HT) as HI2. set (m1 := m <| refcnt := 1 |>) in *. assert (Ha2 : mbufs (set_mbuf a m1 w1) !! a = Some m1) by (rewrite mbufs_set; apply lookup_insert_eq).
    destruct (i_ok _ _ _ _ _ _ HI a m Ha) as [(q & _ & [Hadr _ _ _] & _) _ _ Hb Hk]. rewrite HT in Hk. destruct (Z.eqb_spec a NULL); [unfold NULL in *; lia|]. rewrite (upd_mbuf_eq _ _ _ _ Ha2). cbn [mbind option_bind]. eexists _, _. split; [done|]. split; [done|]. right. split; [done|].
    exists m. split_and!; [done|done|done|rewrite !mbufs_set; by rewrite insert_insert_eq|]. eapply buf_write; [done|done|]. by apply blank_rewritten.
Qed.

(** One segment less. *)
Lemma prefree_ok w R T a : inv w (a :: R) T [] → ∃ r w' T', __rte_pktmbuf_prefree_seg hugepages rte_mem_virt2phy lcore a w = Some (r, w') ∧ dom (pools w') = dom (pools w) ∧ kept (mbufs w) (mbufs w') R ∧
  ((r = NULL ∧ inv w' R T' []) ∨ (r = a ∧ a ∉ R ∧ T' !! a = None ∧ inv w' R T' [a])).
Proof.
  intros HI. destruct (i_refs _ _ _ _ _ _ HI a) as [m Ha]; [left|]. destruct (refcnt_dec _ _ _ _ _ _ _ _ HI Ha) as (Hpos & Hdec & HI1). unfold __rte_pktmbuf_prefree_seg. rewrite Hdec. cbn [mbind option_bind].
  set (m1 := m <| refcnt := refcnt m - 1 |>) in *. set (w1 := set_mbuf a m1 w) in *. assert (Hk1 : kept (mbufs w) (mbufs w1) R) by (by apply kept_count).
  destruct (Z.eqb_spec (refcnt m - 1) 0) as [Hz|Hz]; case_decide; try lia; [|exists NULL, w1, T; split_and!; try done; by left].
  assert (Ha1 : mbufs w1 !! a = Some m1) by apply lookup_insert_eq. rewrite Ha1. cbn [mbind option_bind]. rewrite (is_indirect _ _ _ _ _ _ _ _ HI1 Ha1).
  assert (HaR : a ∉ R). { destruct (i_ok _ _ _ _ _ _ HI a m Ha) as [_ Hc _ _ _]. rewrite own_cons_eq in Hc. pose proof (attached_nonneg T a). rewrite <- own_in. lia. }
  case_bool_decide as HT; [|exists a, w1, T; split_and!; try done; right; split_and!; try done; by destruct (T !! a); [destruct HT|]].
  destruct (T !! a) as [d|] eqn:E; [clear HT|done]. destruct (from_indirect_ok _ _ _ _ _ _ _ _ _ HI1 Ha1 E) as (-> & _). destruct (target_direct _ _ _ _ _ _ _ _ HI1 E) as [HTd Hne].
  destruct (detach_ok _ _ _ _ _ _ _ _ _ HI1 Ha1 E) as (m2 & Hdet & _ & Hz2 & HI2). rewrite Hdet. cbn [mbind option_bind]. set (w2 := set_mbuf a m2 w1) in *. assert (Hk2 : kept (mbufs w) (mbufs w2) R) by (eapply kept_trans; [done|by apply kept_other]).
  destruct (i_refs _ _ _ _ _ _ HI2 d) as [md Hd]; [left|]. destruct (refcnt_dec _ _ _ _ _ _ _ _ HI2 Hd) as (Hdpos & Hddec & HI3). rewrite Hddec. cbn [mbind option_bind]. set (w3 := set_mbuf d _ w2) in *.
  assert (Hk3 : kept (mbufs w) (mbufs w3) R) by (eapply kept_trans; [done|by apply kept_count]). assert (HTa : delete a T !! a = None) by apply lookup_delete_eq.
  destruct (Z.eqb_spec (refcnt md - 1) 0) as [Hdz|Hdz]; case_decide; try lia; [|exists a, w3, (delete a T); split_and!; try done; by right].
  assert (Hd3 : mbufs w3 !! d = Some (md <| refcnt := refcnt md - 1 |>)) by apply lookup_insert_eq. destruct (raw_put _ _ _ Hlcore _ _ _ _ _ _ HI3 Hd3) as (w4 & Hput & Hm4 & HI4); [by rewrite lookup_delete_ne|].
  rewrite Hput. cbn [mbind option_bind]. exists a, w4, (delete a T). split_and!; try done; [|by rewrite Hm4|by right]. rewrite (raw_free_dom _ _ _ Hput). done.
Qed.
Lemma free_seg_ok w R T a : inv w (a :: R) T [] → ∃ w' T', rte_pktmbuf_free_seg hugepages rte_mem_virt2phy lcore a w = Some w' ∧ dom (pools w') = dom (pools w) ∧ kept (mbufs w) (mbufs w') R ∧ inv w' R T' [].
Proof.
  intros HI. destruct (prefree_ok _ _ _ _ HI) as (r & w1 & T1 & Hpre & Hdom & Hk & Hr). unfold rte_pktmbuf_free_seg. rewrite Hpre. cbn [mbind option_bind]. destruct Hr as [(-> & HI1)|(-> & HaR & HT & HI1)]; [exists w1, T1; by rewrite Z.eqb_refl|].
  destruct (proj2 (i_loose _ _ _ _ _ _ HI1) a) as (m & Ha & Hz); [left|]. destruct (i_ok _ _ _ _ _ _ HI1 a m Ha) as [(q & _ & [Hadr _ _ _] & _) _ _ Hb _]. destruct (Z.eqb_spec a NULL); [unfold NULL in *; lia|]. rewrite (upd_mbuf_eq _ _ _ _ Ha). cbn [mbind option_bind].
  set (m' := m <| m_next := NULL |>). assert (HI2 : inv (set_mbuf a m' w1) R T1 [a]) by (eapply buf_write; [done|done|split; try done; by destruct Hb]).
  assert (Ha2 : mbufs (set_mbuf a m' w1) !! a = Some m') by apply lookup_insert_eq. destruct (raw_put _ _ _ Hlcore _ _ _ _ _ _ HI2 Ha2 HT) as (w2 & Hput & Hm2 & HI3). exists w2, T1. split; [done|]. split; [by rewrite (raw_free_dom _ _ _ Hput)|]. split; [|done].
  rewrite Hm2. eapply kept_trans; [done|]. by apply kept_other.
Qed.

(** The whole packet. *)
Lemma free_ok p : ∀ fuel w R T, inv w (p ++ R) T [] → chain (mbufs w) p → (length p <= fuel)%nat →
  ∃ w' T', rte_pktmbuf_free hugepages rte_mem_virt2phy lcore fuel (hd NULL p) w = Some w' ∧ dom (pools w') = dom (pools w) ∧ kept (mbufs w) (mbufs w') R ∧ inv w' R T' [].
Proof.
  unfold rte_pktmbuf_free. induction p as [|a p IH]; intros fuel w R T HI Hch Hf.
  - exists w, T. split_and!; [by destruct fuel|done|apply kept_refl|done].
  - destruct Hch as (Hnull & (m & Ha & Hnext) & Hch). destruct fuel as [|fuel]; [simpl in Hf; lia|]. simpl. destruct (Z.eqb_spec a NULL); [done|]. rewrite Ha. cbn [mbind option_bind].
    destruct (free_seg_ok _ _ _ _ HI) as (w1 & T1 & Hseg & Hdom & Hk & HI1). rewrite Hseg. cbn [mbind option_bind]. rewrite Hnext.
    destruct (IH fuel w1 R T1) as (w2 & T2 & Hrun & Hdom2 & Hk2 & HI2); [done|eapply chain_kept; [done| |done]; intros x Hx; apply elem_of_app; by left|simpl in Hf; lia|].
    exists w2, T2. split_and!; [done|by rewrite Hdom2|eapply kept_trans; [|done]; eapply kept_sub; [|done]; intros x Hx; apply elem_of_app; by right|done].
Qed.

(** ** Clones *)

(** All counts leave room for [n] more references. *)
Definition count_room (B : gmap Z rte_mbuf) (n : Z) : Prop := ∀ b m, B !! b = Some m → refcnt m + n < 2 ^ 16.

(** The buffer whose data a segment has. *)
Lemma data_owner w R T a m : inv w R T [] → mbufs w !! a = Some m → a ∈ R → let d := default a (T !! a) in
  (if RTE_MBUF_DIRECT m then a else rte_mbuf_from_indirect m) = d ∧ T !! d = None ∧ (d = a ∨ T !! a = Some d) ∧ ∃ md, mbufs w !! d = Some md ∧ same_buffer m md ∧ 0 < refcnt md.
Proof.
  intros HI Ha HaR. unfold RTE_MBUF_DIRECT. rewrite (is_indirect _ _ _ _ _ _ _ _ HI Ha). pose proof (own_nonneg R) as Hown. pose proof (attached_nonneg T) as Hatt. destruct (T !! a) as [x|] eqn:E; simpl.
  - destruct (from_indirect_ok _ _ _ _ _ _ _ _ _ HI Ha E) as (? & md & Hd & Hsb). destruct (target_direct _ _ _ _ _ _ _ _ HI E) as [? ?]. split_and!; [done|done|by right|]. exists md. split_and!; [done|done|].
    destruct (i_ok _ _ _ _ _ _ HI x md Hd) as [_ Hc _ _ _]. assert (attached T x ≠ 0) by (intros Hz; by apply (proj1 (attached_0 T x) Hz a)). specialize (Hown x). specialize (Hatt x). lia.
  - split_and!; [done|done|by left|]. exists m. split_and!; [done|done|]. destruct (i_ok _ _ _ _ _ _ HI a m Ha) as [_ Hc _ _ _]. apply own_in in HaR. specialize (Hatt a). lia.
Qed.
(** Attaching the new buffer [mi] to the segment [a]. *)
Lemma attach_ok w R T mi i a m : inv w (mi :: R) T [] → mbufs w !! mi = Some i → refcnt i = 1 → T !! mi = None → a ∈ R → mbufs w !! a = Some m → count_room (mbufs w) 1 →
  ∃ w' T', rte_pktmbuf_attach mi a w = Some w' ∧ pools w' = pools w ∧ inv w' (mi :: R) T' [] ∧ mi ∉ R ∧ kept (mbufs w) (mbufs w') R ∧
    mbufs w' !! mi = Some (attached_to m i) ∧ (∀ n, 0 <= n → count_room (mbufs w) (n + 1) → count_room (mbufs w') n).
Proof.
  intros HI Hi Hi1 HTi HaR Ha Hroom. pose proof (attached_nonneg T mi) as Hat. destruct (i_ok _ _ _ _ _ _ HI mi i Hi) as [_ Hci _ _ _]. rewrite own_cons_eq in Hci. pose proof (own_nonneg R mi) as Hown.
  assert (HmiR : mi ∉ R) by (rewrite <- own_in; lia). assert (Hami : a ≠ mi) by congruence. destruct (data_owner _ _ _ _ _ HI Ha ltac:(by right)) as (Hdd & HTd & Hda & md & Hd & Hsb & Hdpos). set (d := default a (T !! a)) in *. clearbody d.
  assert (Hdmi : d ≠ mi) by (intros ->; destruct Hda as [|E]; [congruence|]; apply (proj1 (attached_0 T mi) ltac:(lia) a E)). unfold rte_pktmbuf_attach. rewrite Ha. cbn [mbind option_bind]. rewrite Hdd.
  destruct (refcnt_inc _ _ _ _ _ _ _ _ HI Hd Hdpos (Hroom d md Hd)) as (Hinc & HI1). rewrite Hinc. cbn [mbind option_bind]. set (w1 := set_mbuf d _ w) in *.
  assert (Hk1 : kept (mbufs w) (mbufs w1) (mi :: R)) by (by apply kept_count). destruct (Hk1 a m) as [c Ha1]; [by right|done|]. rewrite Ha1. cbn [mbind option_bind].
  assert (Hi' : mbufs w1 !! mi = Some i) by (unfold w1; rewrite mbufs_set, lookup_insert_ne; done). rewrite (upd_mbuf_eq _ _ _ _ Hi'). eexists _, (<[mi := d]> T). split; [done|]. split; [done|].
  assert (Hd1 : mbufs w1 !! d = Some (md <| refcnt := refcnt md + 1 |>)) by apply lookup_insert_eq. split_and!; [|done| |apply lookup_insert_eq|].
  - apply (inv_attach _ _ w1 (mi :: R) T [] mi i _ d (md <| refcnt := refcnt md + 1 |>)); try done; [lia|left|]. destruct (i_ok _ _ _ _ _ _ HI a m Ha) as [_ _ _ Hb _]. by destruct Hb.
  - eapply kept_trans; [|by apply kept_other]. eapply kept_sub; [|exact Hk1]. by right.
  - intros n Hn Hr b x. rewrite mbufs_set. destruct (decide (mi = b)) as [->|]; [rewrite lookup_insert_eq; intros [= <-]; cbn; specialize (Hr b i Hi); lia|]. rewrite lookup_insert_ne by done. unfold w1. rewrite mbufs_set.
    destruct (decide (d = b)) as [->|]; [rewrite lookup_insert_eq; intros [= <-]; cbn; specialize (Hr b md Hd); lia|]. rewrite lookup_insert_ne by done. intros Hx. specialize (Hr b x Hx). lia.
Qed.
End ops.
