(* ===== verification/MbufClone.v ===== *)
(** * Clones of packets

    [rte_pktmbuf_clone] makes a packet of new buffers attached to the data of
    the segments of another one, or gives back what it has taken. *)
From S2P Require Import Prelude BurstQueue Ring RingSpec Mempool MempoolInit Mbuf MbufInv MbufOps.
Open Scope Z_scope.

(** A chain whose last [m_next] does not matter. *)
Fixpoint linked (B : gmap Z rte_mbuf) (p : list Z) : Prop :=
  match p with
  | [] => True
  | a :: p => a ≠ NULL ∧ (∃ m, B !! a = Some m ∧ (p = [] ∨ m_next m = hd NULL p)) ∧ linked B p
  end.
Lemma linked_ext B B' p : (∀ a m, a ∈ p → B !! a = Some m → ∃ m', B' !! a = Some m' ∧ m_next m' = m_next m) → linked B p → linked B' p.
Proof.
  intros HB. induction p as [|a p IH]; [done|]. intros (Ha & (m & Hm & Hn) & Hp). split; [done|]. destruct (HB a m) as (m' & Hm' & E); [left|done|]. split; [exists m'; by rewrite E|]. apply IH; [|done]. intros b x Hb. apply HB. by right.
Qed.
Lemma linked_last B l q m : q ∉ l → linked B (l ++ [q]) → linked (<[q := m]> B) (l ++ [q]).
Proof.
  intros Hq. induction l as [|a l IH]; simpl.
  - intros (? & _ & _). split_and!; [done| |done]. exists m. rewrite lookup_insert_eq. auto.
  - rewrite not_elem_of_cons in Hq. destruct Hq as [Hne Hq]. intros (? & (x & Hx & Hn) & Hl). split_and!; [done| |by apply IH]. exists x. by rewrite lookup_insert_ne.
Qed.
Lemma segs_linked_app B l q r : linked B (l ++ [q]) → linked B (q :: r) → linked B (l ++ q :: r).
Proof.
  intros Hl Hr. induction l as [|a l IH]; [done|]. simpl in *. destruct Hl as (? & (x & Hx & Hn) & Hl). split_and!; [done| |by apply IH]. exists x. split; [done|]. right. destruct Hn as [Hn|Hn]; [by destruct l|]. rewrite Hn. by destruct l.
Qed.
Lemma linked_chain B l q m : q ∉ l → linked B (l ++ [q]) → m_next m = NULL → chain (<[q := m]> B) (l ++ [q]).
Proof.
  intros Hq Hl Hm. induction l as [|a l IH]; simpl in *.
  - destruct Hl as (? & _). split_and!; [done| |done]. exists m. by rewrite lookup_insert_eq.
  - rewrite not_elem_of_cons in Hq. destruct Hl as (? & (x & Hx & Hn) & Hl). split_and!; [done| |apply IH; tauto]. exists x. rewrite lookup_insert_ne by tauto. split; [done|]. destruct Hn as [Hn|Hn]; [by destruct l|done].
Qed.
Lemma chain_linked B p : chain B p → linked B p.
Proof. induction p as [|a p IH]; [done|]. intros (? & (m & ? & ?) & ?). split_and!; [done|exists m; auto|by apply IH]. Qed.
Lemma chain_ext B B' p : (∀ a m, a ∈ p → B !! a = Some m → ∃ m', B' !! a = Some m' ∧ m_next m' = m_next m) → chain B p → chain B' p.
Proof.
  intros HB. induction p as [|a p IH]; [done|]. intros (Ha & (m & Hm & Hn) & Hp). split; [done|]. destruct (HB a m) as (m' & Hm' & E); [left|done|]. split; [exists m'; by rewrite E|]. apply IH; [|done]. intros b x Hb. apply HB. by right.
Qed.

(** The same bytes. *)
Definition same_data (m m' : rte_mbuf) : Prop := buf_addr m' = buf_addr m ∧ data_off m' = data_off m ∧ data_len m' = data_len m.
Definition kept_data (B B' : gmap Z rte_mbuf) (l : list Z) : Prop := ∀ a m, a ∈ l → B !! a = Some m → ∃ m', B' !! a = Some m' ∧ same_data m m'.
Lemma kept_kept_data B B' l : kept B B' l → kept_data B B' l.
Proof. intros H a m Ha Hm. destruct (H a m Ha Hm) as [c Hc]. by eexists. Qed.
Lemma kept_data_trans B1 B2 B3 l : kept_data B1 B2 l → kept_data B2 B3 l → kept_data B1 B3 l.
Proof. intros H1 H2 a m Ha Hm. destruct (H1 a m Ha Hm) as (m2 & Hm2 & ? & ? & ?). destruct (H2 a m2 Ha Hm2) as (m3 & Hm3 & ? & ? & ?). exists m3. split; [done|]. repeat split; congruence. Qed.
Lemma kept_data_sub B B' l l' : l' ⊆ l → kept_data B B' l → kept_data B B' l'.
Proof. intros Hl H a m Ha. apply H. by apply Hl. Qed.
Lemma kept_data_write B b m m' l : B !! b = Some m → same_data m m' → kept_data B (<[b := m']> B) l.
Proof. intros Hb Hs a x Ha Hx. destruct (decide (b = a)) as [->|]; [rewrite lookup_insert_eq; simplify_eq; eauto|]. rewrite lookup_insert_ne by done. by exists x. Qed.
(** The buffer [c] of the state [B'] has the data that [x] has in [B]. *)
Definition shows (B' B : gmap Z rte_mbuf) (c x : Z) : Prop := ∃ m' m, B' !! c = Some m' ∧ B !! x = Some m ∧ same_data m m'.
Lemma shows_through B B1 B2 B3 R cs xs : Forall2 (shows B2 B1) cs xs → kept B B1 R → chain B xs → xs ⊆ R → kept_data B2 B3 cs → Forall2 (shows B3 B) cs xs.
Proof.
  intros HF Hk. induction HF as [|c x cs xs (m2 & m1 & Hc & Hx & Hs) HF IH]; [done|]. intros (_ & (m & Hm & _) & Hch) Hsub Hkd. constructor.
  - destruct (Hk x m) as [q Hq]; [apply Hsub; left|done|]. assert (m1 = m <| refcnt := q |>) as -> by congruence. destruct (Hkd c m2) as (m3 & Hm3 & ? & ? & ?); [left|done|]. destruct Hs as (? & ? & ?). exists m3, m. split_and!; [done|done|]. repeat split; etrans; eauto.
  - apply IH; [done|intros z Hz; apply Hsub; by right|intros z y Hz; apply Hkd; by right].
Qed.

Section clone.
Context (hugepages : bool) (rte_mem_virt2phy : Z → Z) (lcore : Z) (Hlcore : 0 <= lcore).
Notation inv := (inv hugepages rte_mem_virt2phy).

Lemma next_written w R T a m n : inv w R T [] → mbufs w !! a = Some m → inv (set_mbuf a (m <| m_next := n |>) w) R T [].
Proof. intros HI Ha. destruct (i_ok _ _ _ _ _ _ HI a m Ha) as [_ _ _ Hb _]. eapply buf_write; [done|done|]. split; try done. by destruct Hb. Qed.

(** The first half of a round: the new buffer [mi] joins the clones [pre]. *)
Lemma clone_join w R T mi i pre prev x m : inv w (mi :: pre ++ R) T [] → mbufs w !! mi = Some i → mi ≠ NULL → refcnt i = 1 → T !! mi = None → x ∈ R → mbufs w !! x = Some m → count_room (mbufs w) 1 →
  linked (mbufs w) pre → NoDup pre → (∀ c, c ∈ pre → c ∉ R) → prev = default mi (last pre) →
  ∃ w1 w2 T', rte_pktmbuf_attach mi x w = Some w1 ∧ upd_mbuf prev (λ m, m <| m_next := mi |>) w1 = Some w2 ∧ pools w2 = pools w ∧ inv w2 (mi :: pre ++ R) T' [] ∧ mi ∉ pre ++ R ∧ kept (mbufs w) (mbufs w2) R ∧
    kept_data (mbufs w) (mbufs w2) pre ∧ linked (mbufs w2) (pre ++ [mi]) ∧ (∃ mc, mbufs w2 !! mi = Some mc ∧ same_data m mc) ∧ (∀ n, 0 <= n → count_room (mbufs w) (n + 1) → count_room (mbufs w2) n).
Proof.
  intros HI Hi Hnull Hi1 HTi HxR Hx Hroom Hlk Hnd Hfresh Hprev. destruct (attach_ok _ _ _ _ _ _ _ _ _ HI Hi Hi1 HTi ltac:(apply elem_of_app; by right) Hx Hroom) as (w1 & T1 & Hatt & Hp1 & HI1 & HmiN & Hk1 & Hmi1 & Hr1).
  assert (Hpr : prev = mi ∧ pre = [] ∨ ∃ l, pre = l ++ [prev]) by (destruct pre as [|c l _] using rev_ind; [by left|right; exists l; by rewrite Hprev, last_snoc]).
  assert (prev ∈ mi :: pre) as Hpin by (destruct Hpr as [[-> _]|[l ->]]; [left|right; apply elem_of_app; right; left]).
  destruct (i_refs _ _ _ _ _ _ HI1 prev) as [mq Hq]; [apply elem_of_cons in Hpin as [->|]; [left|right; apply elem_of_app; by left]|]. assert (HprevR : prev ∉ R).
  { apply elem_of_cons in Hpin as [->|Hin]; [|by apply Hfresh]. intros Hin. apply HmiN. apply elem_of_app. by right. }
  exists w1, (set_mbuf prev (mq <| m_next := mi |>) w1), T1. split_and!; [done|by rewrite (upd_mbuf_eq _ _ _ _ Hq)|done|by apply next_written|done| | | | |].
  - eapply kept_trans; [eapply kept_sub; [|done]; intros y Hy; apply elem_of_app; by right|]. by apply kept_other.
  - eapply kept_data_trans; [apply kept_kept_data; eapply kept_sub; [|done]; intros y Hy; apply elem_of_app; by left|]. by eapply kept_data_write.
  - rewrite mbufs_set. destruct Hpr as [[-> ->]|[l ->]].
    + simpl. split_and!; [done| |done]. eexists. rewrite lookup_insert_eq. auto.
    + rewrite not_elem_of_app in HmiN. destruct HmiN as [HmiN _]. assert (Hpm : prev ≠ mi) by (intros ->; apply HmiN, elem_of_app; right; left). apply NoDup_app in Hnd as (_ & Hdj & _). rewrite <- app_assoc. apply segs_linked_app.
      * apply linked_last; [intros Hin; apply (Hdj _ Hin); left|]. eapply linked_ext; [|done]. intros a y Ha Hy. destruct (Hk1 a y) as [c Hc]; [apply elem_of_app; by left|done|]. by eexists.
      * simpl. rewrite lookup_insert_eq, lookup_insert_ne by done. split_and!; [|eexists; eauto|done|eexists; eauto|done]. destruct (i_ok _ _ _ _ _ _ HI1 prev mq Hq) as [(q & _ & [Hadr _ _ _] & _) _ _ _ _]. unfold NULL. lia.
  - rewrite mbufs_set. destruct (decide (prev = mi)) as [->|]; [|rewrite lookup_insert_ne by done; by eexists]. assert (mq = attached_to m i) as -> by congruence. rewrite lookup_insert_eq. eexists. split; [reflexivity|]. by repeat split.
  - intros n Hn Hr. specialize (Hr1 n Hn Hr). intros b y. rewrite mbufs_set. destruct (decide (prev = b)) as [->|]; [rewrite lookup_insert_eq; intros [= <-]; by apply (Hr1 b mq)|]. rewrite lookup_insert_ne by done. apply Hr1.
Qed.

(** What the loop leaves: [cs] are the clones so far and [new] those of the loop. *)
Record cloned (w : world) (R : list Z) (pre : list Z) (mi x : Z) (ps : list Z) (nseg : Z) (ret : Z * Z * Z * world) (T' : gmap Z Z) (new : list Z) : Prop := {
  cl_inv : inv ret.2 (pre ++ mi :: new ++ R) T' [];
  cl_dom : dom (pools ret.2) = dom (pools w);
  cl_kept : kept (mbufs w) (mbufs ret.2) R;
  cl_pre : kept_data (mbufs w) (mbufs ret.2) pre;
  cl_linked : linked (mbufs ret.2) (pre ++ mi :: new);
  cl_last : last (pre ++ mi :: new) = Some ret.1.1.2;
  cl_fresh : NoDup (pre ++ mi :: new) ∧ ∀ c, c ∈ pre ++ mi :: new → c ∉ R;
  cl_count : ret.1.2 = u8 (nseg + 1 + Z.of_nat (length new)) ∧ (length new <= length ps)%nat;
  cl_data : ret.1.1.1 ≠ NULL → Forall2 (shows (mbufs ret.2) (mbufs w)) (mi :: new) (x :: ps) }.

(** When the loop ends with this buffer. *)
Lemma cloned_end w w' R T' pre mi x ps nseg mi' m : inv w' (mi :: pre ++ R) T' [] → dom (pools w') = dom (pools w) → kept (mbufs w) (mbufs w') R → kept_data (mbufs w) (mbufs w') pre → linked (mbufs w') (pre ++ [mi]) →
  mi ∉ pre ++ R → NoDup pre → (∀ c, c ∈ pre → c ∉ R) → mbufs w !! x = Some m → (∃ mc, mbufs w' !! mi = Some mc ∧ same_data m mc) → (mi' = NULL ∨ ps = []) → cloned w R pre mi x ps nseg (mi', mi, u8 (nseg + 1), w') T' [].
Proof.
  intros HI Hdom Hk Hp Hl Hn Hnd Hf Hx (mc & Hmc & Hs) Hps. rewrite not_elem_of_app in Hn. split; cbn; try done.
  - simpl. by rewrite <- Permutation_middle.
  - by rewrite last_snoc.
  - split; [apply NoDup_app; split_and!; [done| |apply NoDup_singleton]; intros c Hc Hin; apply list_elem_of_singleton in Hin as ->; tauto|]. intros c Hc. apply elem_of_app in Hc as [|Hin]; [by apply Hf|]. apply list_elem_of_singleton in Hin as ->. tauto.
  - split; [f_equal; lia|lia].
  - intros Hne. destruct Hps as [?| ->]; [done|]. constructor; [|constructor]. by exists mc, m.
Qed.
(** The rest of the loop, after a round with [mi]. *)
Lemma cloned_more w w3 R pre mi x c y ps nseg ret T' new m mc : cloned w3 R (pre ++ [mi]) c y ps (u8 (nseg + 1)) ret T' new → dom (pools w3) = dom (pools w) → kept (mbufs w) (mbufs w3) R → kept_data (mbufs w) (mbufs w3) pre →
  mbufs w !! x = Some m → mbufs w3 !! mi = Some mc → same_data m mc → chain (mbufs w) (y :: ps) → y :: ps ⊆ R → cloned w R pre mi x (y :: ps) nseg ret T' (c :: new).
Proof.
  intros [H1 H2 H3 H4 H5 H6 [H7 H7'] [H8 H8'] H9] Hdom Hk Hp Hx Hmc Hs Hch Hsub. rewrite <- app_assoc in *. split; try done.
  - by rewrite H2.
  - by eapply kept_trans.
  - eapply kept_data_trans; [done|]. eapply kept_data_sub; [|done]. intros z Hz. apply elem_of_app. by left.
  - rewrite H8. split; [|simpl; lia]. unfold u8. rewrite <- Z.add_assoc, Zplus_mod_idemp_l. f_equal. simpl. lia.
  - intros Hne. specialize (H9 Hne). constructor.
    + destruct (H4 mi mc) as (m' & Hm' & Hs'); [apply elem_of_app; right; left|done|]. exists m', m. split_and!; [done|done|]. destruct Hs as (? & ? & ?), Hs' as (? & ? & ?). repeat split; congruence.
    + eapply shows_through; [exact H9|done|done|done|]. by intros a z _ Hz; exists z.
Qed.
Lemma clone_loop_ok ps : ∀ fuel x w R T mi i pre prev nseg mpa, inv w (mi :: pre ++ R) T [] → mbufs w !! mi = Some i → mi ≠ NULL → refcnt i = 1 → T !! mi = None → chain (mbufs w) (x :: ps) → x :: ps ⊆ R →
  count_room (mbufs w) (Z.of_nat (length (x :: ps))) → linked (mbufs w) pre → NoDup pre → (∀ c, c ∈ pre → c ∉ R) → prev = default mi (last pre) → is_Some (pools w !! mpa) → (length ps < fuel)%nat →
  ∃ ret T' new, clone_loop lcore fuel mpa x mi prev nseg w = Some ret ∧ cloned w R pre mi x ps nseg ret T' new.
Proof.
  induction ps as [|y ps IH]; intros fuel x w R T mi i pre prev nseg mpa HI Hi Hnull Hi1 HTi Hch Hsub Hroom Hlk Hnd Hfresh Hprev Hpool Hfuel; (destruct fuel as [|fuel]; [simpl in Hfuel; lia|]); destruct Hch as (Hx0 & (m & Hx & Hnext) & Hch);
    assert (HxR : x ∈ R) by (apply Hsub; left); assert (Hroom1 : count_room (mbufs w) 1) by (intros b z Hb; specialize (Hroom b z Hb); simpl in Hroom; lia); (destruct (clone_join w R T mi i pre prev x m) as (w1 & w2 & T2 & Hatt & Hupd & Hp2 & HI2 & HmiN & Hk2 & Hpk2 & Hl2 & Hmc & Hr2); try done);
    (destruct (Hk2 x m HxR Hx) as [cx Hx2]); simpl; rewrite Hatt; cbn [mbind option_bind]; rewrite Hupd; cbn [mbind option_bind]; rewrite Hx2; cbn [mbind option_bind]; change (m_next (m <| refcnt := cx |>)) with (m_next m); rewrite Hnext.
  - cbn. eexists _, T2, []. split; [done|]. apply (cloned_end _ _ _ _ _ _ _ _ _ _ m); try done; [by rewrite Hp2|by right].
  - simpl. destruct Hch as (Hy0 & Hy & Hch). destruct (Z.eqb_spec y NULL); [done|]. destruct Hpool as [pl Hpl]. destruct (alloc_ok _ _ _ Hlcore w2 _ _ mpa pl HI2 ltac:(by rewrite Hp2)) as (c & w3 & Hal & Hdom3 & Hc). rewrite Hal. cbn [mbind option_bind].
    destruct Hc as [(-> & Hm3 & HI3)|(Hc0 & mo & Hmo & Hz & HTc & Hm3 & HI3)].
    { cbn. eexists _, T2, []. split; [done|]. apply (cloned_end _ _ _ _ _ _ _ _ _ _ m); try done; rewrite ?Hm3, ?Hdom3, ?Hp2; try done. by left. }
    destruct (Z.eqb_spec c NULL); [done|]. assert (HcN : c ∉ mi :: pre ++ R). { destruct (i_ok _ _ _ _ _ _ HI2 c mo Hmo) as [_ Hcnt _ _ _]. rewrite <- own_in. pose proof (attached_nonneg T2 c). lia. }
    assert (Hk3 : kept (mbufs w2) (mbufs w3) (mi :: pre ++ R)) by (rewrite Hm3; by apply kept_other). assert (HkR : kept (mbufs w) (mbufs w3) R) by (eapply kept_trans; [done|]; eapply kept_sub; [|done]; intros z Hz'; right; apply elem_of_app; by right).
    assert (Hsub' : y :: ps ⊆ R) by (intros z Hz'; apply Hsub; by right). destruct (IH fuel y w3 R T2 c (blank mo) (pre ++ [mi]) mi (u8 (nseg + 1)) mpa) as (ret & T' & new & Hrun & Hcl).
    { by rewrite <- (Permutation_cons_append pre mi). }
    { rewrite Hm3. apply lookup_insert_eq. }
    { done. }
    { done. }
    { done. }
    { eapply chain_kept; [exact HkR|done|]. by split. }
    { done. }
    { intros b z. rewrite Hm3. destruct (decide (c = b)) as [->|]; [rewrite lookup_insert_eq; intros [= <-]; cbn; specialize (Hroom mi i Hi); simpl in Hroom; simpl; lia|]. rewrite lookup_insert_ne by done. apply Hr2; [simpl; lia|].
      intros b' z' Hb'. specialize (Hroom b' z' Hb'). simpl in *. lia. }
    { eapply linked_ext; [|done]. intros a z Ha Hz'. destruct (Hk3 a z) as [q Hq]; [|done|by eexists]. apply elem_of_app in Ha as [Ha|Ha%list_elem_of_singleton]; [right; apply elem_of_app; by left|subst; left]. }
    { apply NoDup_app. split_and!; [done| |apply NoDup_singleton]. intros z Hz' Hin. apply list_elem_of_singleton in Hin as ->. apply HmiN, elem_of_app. by left. }
    { intros z Hz'. apply elem_of_app in Hz' as [Hz'|Hz'%list_elem_of_singleton]; [by apply Hfresh|subst]. intros Hin. apply HmiN, elem_of_app. by right. }
    { by rewrite last_snoc. }
    { apply elem_of_dom. rewrite Hdom3, Hp2. apply elem_of_dom. by eexists. }
    { simpl in Hfuel. lia. }
    destruct Hmc as (mc & Hmc & Hs). eexists ret, T', (c :: new). split; [done|]. apply (cloned_more w w3 _ _ _ _ _ _ _ _ _ _ _ m mc); try done.
    + by rewrite Hdom3, Hp2.
    + eapply kept_data_trans; [done|]. apply kept_kept_data. eapply kept_sub; [|done]. intros z Hz'. right. apply elem_of_app. by left.
    + rewrite Hm3, lookup_insert_ne; [done|]. intros ->. apply HcN. left.
Qed.

(** The lengths and the end of the chain. *)
Lemma clone_close w R T mc new prev nseg pktlen : inv w (mc :: new ++ R) T [] → linked (mbufs w) (mc :: new) → last (mc :: new) = Some prev → NoDup (mc :: new) → (∀ c, c ∈ mc :: new → c ∉ R) →
  ∃ w1 w2, upd_mbuf prev (λ m, m <| m_next := NULL |>) w = Some w1 ∧ upd_mbuf mc (λ m, m <| nb_segs := nseg |> <| pkt_len := pktlen |>) w1 = Some w2 ∧ pools w2 = pools w ∧ inv w2 (mc :: new ++ R) T [] ∧ kept (mbufs w) (mbufs w2) R ∧
    kept_data (mbufs w) (mbufs w2) (mc :: new) ∧ chain (mbufs w2) (mc :: new) ∧ ∃ m, mbufs w2 !! mc = Some m ∧ pkt_len m = pktlen ∧ nb_segs m = nseg.
Proof.
  intros HI Hl Hlast Hnd Hf. apply last_Some in Hlast as [l Hlast]. assert (Hin : prev ∈ mc :: new) by (rewrite Hlast; apply elem_of_app; right; left).
  destruct (i_refs _ _ _ _ _ _ HI prev) as [mq Hq]; [change (mc :: new ++ R) with ((mc :: new) ++ R); apply elem_of_app; by left|]. rewrite (upd_mbuf_eq _ _ _ _ Hq). set (w1 := set_mbuf prev _ w). pose proof (next_written _ _ _ _ _ NULL HI Hq) as HI1. fold w1 in HI1.
  assert (Hch : chain (mbufs w1) (mc :: new)). { rewrite Hlast in *. apply linked_chain; [|done|done]. apply NoDup_app in Hnd as (_ & Hd & _). intros Hp. apply (Hd _ Hp). left. }
  destruct Hch as (H0 & (m & Hm & Hn) & Hch). exists w1. rewrite (upd_mbuf_eq _ _ _ _ Hm). eexists. split_and!; [done|done|done| | | | |].
  - destruct (i_ok _ _ _ _ _ _ HI1 mc m Hm) as [_ _ _ Hb _]. eapply buf_write; [done|done|]. split; try done. by destruct Hb.
  - eapply kept_trans; apply kept_other; apply Hf; [done|left].
  - eapply kept_data_trans; by eapply kept_data_write.
  - apply (chain_ext (mbufs w1)); [|by split; [|split; [exists m|]]]. intros a x _ Hx. rewrite mbufs_set. destruct (decide (mc = a)) as [<-|]; [rewrite lookup_insert_eq|rewrite lookup_insert_ne by done; by exists x]. assert (x = m) as -> by congruence. by eexists.
  - rewrite mbufs_set, lookup_insert_eq. by eexists.
Qed.
Lemma clone_ok w R T x ps fuel mpa : inv w R T [] → chain (mbufs w) (x :: ps) → x :: ps ⊆ R → count_room (mbufs w) (Z.of_nat (length (x :: ps))) → is_Some (pools w !! mpa) → (length (x :: ps) <= fuel)%nat →
  ∃ mc w' T', rte_pktmbuf_clone hugepages rte_mem_virt2phy lcore fuel x mpa w = Some (mc, w') ∧ dom (pools w') = dom (pools w) ∧ kept (mbufs w) (mbufs w') R ∧
    ((mc = NULL ∧ inv w' R T' []) ∨ (mc ≠ NULL ∧ ∃ cs, inv w' (mc :: cs ++ R) T' [] ∧ chain (mbufs w') (mc :: cs) ∧ (∀ c, c ∈ mc :: cs → c ∉ R) ∧
      Forall2 (shows (mbufs w') (mbufs w)) (mc :: cs) (x :: ps) ∧
      ∃ m m', mbufs w !! x = Some m ∧ mbufs w' !! mc = Some m' ∧ pkt_len m' = pkt_len m ∧ nb_segs m' = u8 (Z.of_nat (length (x :: ps))))).
Proof.
  intros HI Hch Hsub Hroom [pl Hpl] Hfuel. destruct (alloc_ok _ _ _ Hlcore w R T mpa pl HI Hpl) as (mc & w1 & Hal & Hdom1 & Hc). unfold rte_pktmbuf_clone. rewrite Hal. cbn [mbind option_bind].
  destruct Hc as [(-> & Hm1 & HI1)|(Hc0 & mo & Hmo & Hz & HTc & Hm1 & HI1)]; [exists NULL, w1, T; rewrite Z.eqb_refl, Hm1; split_and!; try done; [apply kept_refl|by left]|]. destruct (Z.eqb_spec mc NULL); [done|].
  assert (HcN : mc ∉ R). { destruct (i_ok _ _ _ _ _ _ HI mc mo Hmo) as [_ Hcnt _ _ _]. rewrite <- own_in. pose proof (attached_nonneg T mc). lia. }
  assert (Hk1 : kept (mbufs w) (mbufs w1) R) by (rewrite Hm1; by apply kept_other). pose proof Hch as (_ & (m & Hx & _) & _). destruct (Hk1 x m) as [cx Hx1]; [apply Hsub; left|done|]. rewrite Hx1. cbn [mbind option_bind]. change (pkt_len (m <| refcnt := cx |>)) with (pkt_len m).
  destruct (clone_loop_ok ps fuel x w1 R T mc (blank mo) [] mc 0 mpa) as (ret & T2 & new & Hloop & [C1 C2 C3 _ C5 C6 [C7 C7'] [C8 C8'] C9]); try done.
  { rewrite Hm1. apply lookup_insert_eq. }
  { by eapply chain_kept. }
  { intros b z. rewrite Hm1. destruct (decide (mc = b)) as [->|]; [rewrite lookup_insert_eq; intros [= <-]; change (1 + Z.of_nat (length (x :: ps)) < 2 ^ 16)|by rewrite lookup_insert_ne by done; apply Hroom].
    destruct (i_ok _ _ _ _ _ _ HI x m Hx) as [_ Hcnt _ _ _]. assert (0 < own R x) by (apply own_in, Hsub; left). pose proof (attached_nonneg T x). specialize (Hroom x m Hx). lia. }
  { by apply NoDup_nil_2. }
  { by intros c Hin%not_elem_of_nil. }
  { apply elem_of_dom. rewrite Hdom1. apply elem_of_dom. by eexists. }
  rewrite Hloop. destruct ret as [[[mi' prev'] nseg'] w2]. cbn [mbind option_bind fst snd] in *. destruct (clone_close w2 R T2 mc new prev' nseg' (pkt_len m)) as (w3 & w4 & -> & Hu & Hp4 & HI4 & Hk4 & Hkd4 & Hch4 & mh & Hmh & Hpk & Hnb); try done.
  cbn [mbind option_bind]. rewrite Hu. cbn [mbind option_bind]. destruct (Z.eqb_spec mi' NULL) as [->|Hne].
  - destruct (free_ok _ _ _ Hlcore (mc :: new) fuel w4 R T2 HI4 Hch4) as (w5 & T5 & Hfree & Hdom5 & Hk5 & HI5); [simpl in *; lia|]. simpl in Hfree. rewrite Hfree. cbn [mbind option_bind]. exists NULL, w5, T5. split_and!; [done|by rewrite Hdom5, Hp4, C2, Hdom1| |by left].
    eapply kept_trans; [done|]. eapply kept_trans; [done|]. by eapply kept_trans.
  - exists mc, w4, T2. split_and!; [done|by rewrite Hp4, C2, Hdom1|eapply kept_trans; [done|]; by eapply kept_trans|]. right. split; [done|]. exists new. split_and!; try done.
    + eapply shows_through; [exact (C9 Hne)|done|done|done|done].
    + exists m, mh. split_and!; [done|done|done|]. rewrite Hnb, C8. f_equal. apply Forall2_length in C9; [|done]. simpl in *. lia.
Qed.
End clone.
