(* ===== verification/MbufData.v ===== *)
(** * The data of packets

    Making room at both ends of a packet, taking it away, chaining packets and
    adding references: the invariant of [MbufInv.v] holds, and the data stays
    inside the buffers. *)
From S2P Require Import Prelude BurstQueue Ring RingSpec Mempool MempoolInit Mbuf MbufInv MbufOps MbufClone.
Open Scope Z_scope.

Lemma chain_in B p a : chain B p → a ∈ p → ∃ m, B !! a = Some m.
Proof. induction p as [|b p IH]; [by intros _ H%not_elem_of_nil|]. intros (_ & (m & Hm & _) & Hp) Ha. apply elem_of_cons in Ha as [->|Ha]; [by eexists|by apply IH]. Qed.
Lemma lastseg_ok B w l q : ∀ fuel, mbufs w = B → chain B (l ++ [q]) → (length l < fuel)%nat → rte_pktmbuf_lastseg fuel (hd NULL (l ++ [q])) w = Some q.
Proof.
  intros fuel <-. revert fuel. induction l as [|a l IH]; intros fuel Hch Hf; (destruct fuel as [|fuel]; [simpl in Hf; lia|]); destruct Hch as (H0 & (m & Hm & Hn) & Hch); simpl; rewrite Hm; cbn [mbind option_bind]; rewrite Hn.
  - done.
  - destruct (Z.eqb_spec (hd NULL (l ++ [q])) NULL) as [E|_]; [|apply IH; [done|simpl in Hf; lia]]. exfalso. destruct l; simpl in *; tauto.
Qed.
(** A chain is not circular. *)
Lemma chain_next B p a q : chain B (p ++ a :: q) → ∃ m, B !! a = Some m ∧ m_next m = hd NULL q.
Proof. induction p as [|b p IH]; [by intros (_ & ? & _)|]. intros (_ & _ & H). by apply IH. Qed.
Lemma chain_suffix B p q : chain B (p ++ q) → chain B q.
Proof. induction p as [|b p IH]; [done|]. intros (_ & _ & H). by apply IH. Qed.
Lemma chain_hd B p q : chain B p → chain B q → hd NULL p = hd NULL q → p = q.
Proof.
  revert q. induction p as [|a p IH]; intros [|b q] Hp Hq E; simpl in *; subst; try done; [by destruct Hq|by destruct Hp|]. destruct Hp as (_ & (m & Hm & Hn) & Hp), Hq as (_ & (m' & Hm' & Hn') & Hq). f_equal. apply IH; [done|done|]. congruence.
Qed.
Lemma chain_nodup B p : chain B p → NoDup p.
Proof.
  induction p as [|a p IH]; intros Hch; [by apply NoDup_nil_2|]. apply NoDup_cons. split; [|apply IH; by destruct Hch as (_ & _ & ?)]. intros Hin. apply list_elem_of_split in Hin as (l & r & ->).
  assert (Hr : chain B (a :: r)) by (apply (chain_suffix B (a :: l)); done). pose proof (chain_hd B (a :: l ++ a :: r) (a :: r) Hch Hr eq_refl) as E. apply (f_equal length) in E. simpl in E. rewrite length_app in E. simpl in E. lia.
Qed.
Lemma segs_chain_app B B' l q r : chain B (l ++ [q]) → chain B r → r ≠ [] → (∀ a m, a ∈ l ++ r → B !! a = Some m → ∃ m', B' !! a = Some m' ∧ m_next m' = m_next m) →
  (∃ m', B' !! q = Some m' ∧ m_next m' = hd NULL r) → chain B' (l ++ q :: r).
Proof.
  intros Hl Hr Hne HB (m' & Hq & Hn). assert (chain B' (q :: r)) as Hqr. { split_and!; [|by exists m'|]; [by apply chain_suffix in Hl as (? & _)|]. eapply chain_ext; [|exact Hr]. intros a m Ha. apply HB. apply elem_of_app. by right. }
  induction l as [|a l IH]; [done|]. destruct Hl as (H0 & (m & Hm & Hnm) & Hl). simpl. split_and!; [done| |apply IH; [done|intros b x Hb; apply HB; simpl; by right]]. destruct (HB a m) as (x & Hx & E); [left|done|]. exists x. split; [done|]. rewrite E, Hnm. by destruct l.
Qed.

Section data.
Context (hugepages : bool) (rte_mem_virt2phy : Z → Z).
Notation inv := (inv hugepages rte_mem_virt2phy).

(** Another length and start of the data. *)
Definition moved (off len plen : Z) (m : rte_mbuf) : rte_mbuf := m <| data_off := off |> <| data_len := len |> <| pkt_len := plen |>.
Lemma moved_ok w R T a m off len plen : inv w R T [] → mbufs w !! a = Some m → 0 <= off → 0 <= len → off + len <= buf_len m → inv (set_mbuf a (moved off len plen m) w) R T [].
Proof. intros HI Ha H1 H2 H3. destruct (i_ok _ _ _ _ _ _ HI a m Ha) as [_ _ _ [] _]. eapply buf_write; [done|done|]. by split. Qed.
Lemma set_same a m w : mbufs w !! a = Some m → set_mbuf a m w = w.
Proof. intros H. unfold set_mbuf. destruct w as [B P]. cbn in *. by rewrite insert_id. Qed.
Lemma set_set a m m' w : set_mbuf a m (set_mbuf a m' w) = set_mbuf a m w.
Proof. unfold set_mbuf. destruct w as [B P]. cbn. by rewrite insert_insert_eq. Qed.
Lemma set_comm a b m m' w : a ≠ b → set_mbuf a m (set_mbuf b m' w) = set_mbuf b m' (set_mbuf a m w).
Proof. intros H. unfold set_mbuf. destruct w as [B P]. cbn. by rewrite insert_insert_ne. Qed.

Lemma buffer_end w R T a m : inv w R T [] → mbufs w !! a = Some m → 0 <= buf_addr m ∧ buf_addr m + buf_len m < 2 ^ 64.
Proof.
  intros HI Ha. destruct (i_ok _ _ _ _ _ _ HI a m Ha) as [(p & Hp & [Hadr Hpr Hro _] & Ho) _ _ _ Hk]. unfold is_u16, sizeof_rte_mbuf in *. destruct (T !! a) as [d|] eqn:E.
  - destruct Hk as (_ & _ & HTd & md & Hd & (-> & _ & -> & _)). destruct (i_ok _ _ _ _ _ _ HI d md Hd) as [(q & _ & [Hadr' Hpr' Hro' _] & Ho') _ _ _ _]. destruct (Ho' HTd) as [-> _ -> _]. unfold is_u16, sizeof_rte_mbuf in *. lia.
  - destruct (Ho eq_refl) as [-> _ -> _]. unfold sizeof_rte_mbuf. lia.
Qed.

Lemma prepend_ok w R T a m len : inv w R T [] → mbufs w !! a = Some m → is_u16 len → ∃ w', rte_pktmbuf_prepend a len w = Some (if data_off m <? len then NULL else buf_addr m + data_off m - len, w') ∧
  w' = (if data_off m <? len then w else set_mbuf a (moved (data_off m - len) (data_len m + len) (u32 (pkt_len m + len)) m) w) ∧ inv w' R T [].
Proof.
  intros HI Ha Hlen. unfold is_u16 in Hlen. pose proof (buffer_end _ _ _ _ _ HI Ha). destruct (i_ok _ _ _ _ _ _ HI a m Ha) as [_ _ _ [H1 H2 H3 H4] _]. unfold rte_pktmbuf_prepend, rte_pktmbuf_headroom. rewrite Ha. cbn [mbind option_bind]. rewrite Z.gtb_ltb.
  destruct (Z.ltb_spec (data_off m) len); [by eexists|]. rewrite !(u16_small (_ + _)), !(u16_small (_ - _)) by (unfold is_u16; lia). eexists. split; [|split; [done|]]; [|by apply moved_ok; [done|done|lia|lia|lia]].
  f_equal. f_equal. cbn. rewrite u64_small by (unfold is_u64; lia). lia.
Qed.
Lemma adj_ok w R T a m len : inv w R T [] → mbufs w !! a = Some m → is_u16 len → ∃ w', rte_pktmbuf_adj a len w = Some (if data_len m <? len then NULL else buf_addr m + data_off m + len, w') ∧
  w' = (if data_len m <? len then w else set_mbuf a (moved (data_off m + len) (data_len m - len) (u32 (pkt_len m - len)) m) w) ∧ inv w' R T [].
Proof.
  intros HI Ha Hlen. unfold is_u16 in Hlen. pose proof (buffer_end _ _ _ _ _ HI Ha). destruct (i_ok _ _ _ _ _ _ HI a m Ha) as [_ _ _ [H1 H2 H3 H4] _]. unfold rte_pktmbuf_adj. rewrite Ha. cbn [mbind option_bind]. rewrite Z.gtb_ltb.
  destruct (Z.ltb_spec (data_len m) len); [by eexists|]. rewrite !(u16_small (_ + _)), !(u16_small (_ - _)) by (unfold is_u16; lia). eexists. split; [|split; [done|]]; [|by apply moved_ok; [done|done|lia|lia|lia]].
  f_equal. f_equal. cbn. rewrite u64_small by (unfold is_u64; lia). lia.
Qed.

(** The end of the data: the last segment [q] has another length, and the head [a] another sum. *)
Definition cut (a q dl : Z) (f : Z → Z) (w : world) : option world :=
  mq ← mbufs w !! q; upd_mbuf a (λ m, m <| pkt_len := f (pkt_len m) |>) (set_mbuf q (mq <| data_len := dl |>) w).
Lemma shorten_ok w R T a q ma mq dl f : inv w R T [] → mbufs w !! a = Some ma → mbufs w !! q = Some mq → 0 <= dl → data_off mq + dl <= buf_len mq →
  ∃ w', cut a q dl f w = Some w' ∧ inv w' R T [] ∧ pools w' = pools w ∧ (∀ b m, mbufs w !! b = Some m → ∃ m', mbufs w' !! b = Some m' ∧ m_next m' = m_next m ∧ data_off m' = data_off m ∧ buf_addr m' = buf_addr m ∧ (b ≠ q → data_len m' = data_len m)) ∧
    (∃ mq', mbufs w' !! q = Some mq' ∧ data_len mq' = dl) ∧ (∃ ma', mbufs w' !! a = Some ma' ∧ pkt_len ma' = f (pkt_len ma)).
Proof.
  intros HI Ha Hq Hdl Hend. unfold cut. rewrite Hq. cbn [mbind option_bind]. pose proof (moved_ok w R T q mq (data_off mq) dl (pkt_len mq) HI Hq) as HI1. destruct (i_ok _ _ _ _ _ _ HI q mq Hq) as [_ _ _ [H1 H2 H3 H4] _]. specialize (HI1 H1 Hdl Hend).
  assert (moved (data_off mq) dl (pkt_len mq) mq = mq <| data_len := dl |>) as E by (by destruct mq). rewrite E in HI1. set (w1 := set_mbuf q _ w) in *.
  destruct (mbufs w1 !! a) as [m1|] eqn:E1; [|unfold w1 in E1; rewrite mbufs_set in E1; destruct (decide (q = a)) as [->|]; [by rewrite lookup_insert_eq in E1|rewrite lookup_insert_ne in E1 by done; congruence]].
  rewrite (upd_mbuf_eq _ _ _ _ E1). eexists. split; [done|]. destruct (i_ok _ _ _ _ _ _ HI1 a m1 E1) as [_ _ _ Hb _]. split; [eapply buf_write; [done|done|split; try done; by destruct Hb]|]. split; [done|].
  assert (Hm1 : (q = a ∧ m1 = mq <| data_len := dl |>) ∨ (q ≠ a ∧ m1 = ma)). { unfold w1 in E1. rewrite mbufs_set in E1. destruct (decide (q = a)) as [->|]; [left; rewrite lookup_insert_eq in E1|right; rewrite lookup_insert_ne in E1 by done]; (split; [done|congruence]). }
  rewrite mbufs_set. unfold w1. rewrite mbufs_set. destruct Hm1 as [[-> ->]|[Hne ->]].
  - rewrite insert_insert_eq, lookup_insert_eq. assert (ma = mq) as -> by congruence. split_and!; [|by eexists|by eexists]. intros b m Hm. destruct (decide (a = b)) as [->|]; [rewrite lookup_insert_eq; assert (m = mq) as -> by congruence; eexists; by split_and!|]. rewrite lookup_insert_ne by done. exists m. by split_and!.
  - rewrite lookup_insert_eq, lookup_insert_ne, lookup_insert_eq by done. split_and!; [|by eexists|by eexists]. intros b m Hm. destruct (decide (a = b)) as [->|]; [rewrite lookup_insert_eq; assert (m = ma) as -> by congruence; eexists; by split_and!|]. rewrite lookup_insert_ne by done.
    destruct (decide (q = b)) as [->|]; [rewrite lookup_insert_eq; assert (m = mq) as -> by congruence; eexists; by split_and!|]. rewrite lookup_insert_ne by done. exists m. by split_and!.
Qed.
Lemma cut_back w w' a q ma mq dl f g : mbufs w !! a = Some ma → mbufs w !! q = Some mq → cut a q dl f w = Some w' → g (f (pkt_len ma)) = pkt_len ma → cut a q (data_len mq) g w' = Some w.
Proof.
  intros Ha Hq Hcut Hg. unfold cut in *. rewrite Hq in Hcut. cbn [mbind option_bind] in Hcut. destruct (decide (q = a)) as [->|Hne].
  - assert (ma = mq) as -> by congruence. rewrite (upd_mbuf_eq a (mq <| data_len := dl |>)) in Hcut by apply lookup_insert_eq. injection Hcut as <-. rewrite set_set, mbufs_set, lookup_insert_eq. cbn [mbind option_bind]. rewrite set_set.
    erewrite upd_mbuf_eq by apply lookup_insert_eq. rewrite set_set. f_equal. cbn. rewrite Hg. rewrite <- (set_same _ _ _ Hq) at 2. by destruct mq.
  - rewrite (upd_mbuf_eq a ma) in Hcut by (by rewrite mbufs_set, lookup_insert_ne). injection Hcut as <-. rewrite !mbufs_set, lookup_insert_ne, lookup_insert_eq by done. cbn [mbind option_bind]. rewrite (set_comm q a), set_set by done.
    erewrite upd_mbuf_eq by apply lookup_insert_eq. rewrite set_set. f_equal. cbn. rewrite Hg. assert (mq <| data_len := dl |> <| data_len := data_len mq |> = mq) as -> by (by destruct mq). rewrite (set_same q mq w Hq). rewrite <- (set_same _ _ _ Ha) at 2. by destruct ma.
Qed.

Lemma append_eq w R T l q ma mq len fuel : inv w R T [] → chain (mbufs w) (l ++ [q]) → mbufs w !! hd NULL (l ++ [q]) = Some ma → mbufs w !! q = Some mq → is_u16 len → (length l < fuel)%nat →
  let room := buf_len mq - data_off mq - data_len mq in
  rte_pktmbuf_append fuel (hd NULL (l ++ [q])) len w = (if room <? len then Some (NULL, w) else w' ← cut (hd NULL (l ++ [q])) q (data_len mq + len) (λ x, u32 (x + len)) w; Some (buf_addr mq + data_off mq + data_len mq, w')).
Proof.
  intros HI Hch Ha Hq Hlen Hf room. unfold is_u16 in Hlen. unfold rte_pktmbuf_append. rewrite (lastseg_ok _ w l q fuel eq_refl Hch Hf). cbn [mbind option_bind]. rewrite Hq. cbn [mbind option_bind]. pose proof (buffer_end _ _ _ _ _ HI Hq).
  destruct (i_ok _ _ _ _ _ _ HI q mq Hq) as [_ _ _ [H1 H2 H3 H4] _]. unfold rte_pktmbuf_tailroom, rte_pktmbuf_headroom. rewrite (u16_small (_ - _)), Z.gtb_ltb by (unfold is_u16; lia). fold room. destruct (Z.ltb_spec room len); [done|]. unfold room in *.
  rewrite u16_small, u64_small by (unfold is_u16, is_u64; lia). unfold cut. rewrite Hq. done.
Qed.
Lemma trim_eq w R T l q ma mq len fuel : inv w R T [] → chain (mbufs w) (l ++ [q]) → mbufs w !! hd NULL (l ++ [q]) = Some ma → mbufs w !! q = Some mq → is_u16 len → (length l < fuel)%nat →
  rte_pktmbuf_trim fuel (hd NULL (l ++ [q])) len w = (if data_len mq <? len then Some (-1, w) else w' ← cut (hd NULL (l ++ [q])) q (data_len mq - len) (λ x, u32 (x - len)) w; Some (0, w')).
Proof.
  intros HI Hch Ha Hq Hlen Hf. unfold is_u16 in Hlen. unfold rte_pktmbuf_trim. rewrite (lastseg_ok _ w l q fuel eq_refl Hch Hf). cbn [mbind option_bind]. rewrite Hq. cbn [mbind option_bind].
  destruct (i_ok _ _ _ _ _ _ HI q mq Hq) as [_ _ _ [H1 H2 H3 H4] _]. rewrite Z.gtb_ltb. destruct (Z.ltb_spec (data_len mq) len); [done|]. rewrite u16_small by (unfold is_u16; lia). unfold cut. rewrite Hq. done.
Qed.

(** ** References to a packet *)
Lemma refcnt_add w R T a m n : inv w R T [] → mbufs w !! a = Some m → a ∈ R → refcnt m + Z.of_nat n < 2 ^ 16 →
  let w' := set_mbuf a (m <| refcnt := refcnt m + Z.of_nat n |>) w in rte_mbuf_refcnt_update a (Z.of_nat n) w = Some (refcnt m + Z.of_nat n, w') ∧ inv w' (replicate n a ++ R) T [].
Proof.
  intros HI Ha HaR Hmax. destruct (i_ok _ _ _ _ _ _ HI a m Ha) as [_ Hc _ _ _]. apply own_in in HaR as Hpos. pose proof (attached_nonneg T a). split; [apply refcnt_update_eq; [done|unfold is_u16; lia|done]|].
  apply (inv_count _ _ w R (replicate n a ++ R) T [] []); try done; [rewrite own_app, own_replicate, decide_True by done; lia|intros b ?; rewrite own_app, own_replicate, decide_False by done; lia|intros _; left; apply elem_of_app; by right|lia|by apply NoDup_nil_2|by intros ?%not_elem_of_nil].
Qed.
Lemma packet_refs p : ∀ fuel w R T n, inv w R T [] → chain (mbufs w) p → p ≠ [] → p ⊆ R → (∀ a m, a ∈ p → mbufs w !! a = Some m → refcnt m + Z.of_nat n < 2 ^ 16) → (length p <= fuel)%nat →
  ∃ w', rte_pktmbuf_refcnt_update fuel (hd NULL p) (Z.of_nat n) w = Some w' ∧ pools w' = pools w ∧ inv w' (concat (replicate n <$> p) ++ R) T [] ∧ ∀ R', kept (mbufs w) (mbufs w') R'.
Proof.
  induction p as [|a p IH]; intros fuel w R T n HI Hch Hne Hsub Hmax Hf; [done|]. pose proof (chain_nodup _ _ Hch) as Hnd. apply NoDup_cons in Hnd as [Hni _]. destruct Hch as (H0 & (m & Ha & Hn) & Hch). destruct fuel as [|fuel]; [simpl in Hf; lia|].
  destruct (refcnt_add w R T a m n HI Ha ltac:(apply Hsub; left) (Hmax a m ltac:(left) Ha)) as (Hu & HI1). cbn [rte_pktmbuf_refcnt_update hd]. rewrite Hu. cbn [mbind option_bind]. set (w1 := set_mbuf a _ w) in *. assert (Hk1 : ∀ R', kept (mbufs w) (mbufs w1) R') by (intros; by apply kept_count).
  assert (Ha1 : mbufs w1 !! a = Some (m <| refcnt := refcnt m + Z.of_nat n |>)) by apply lookup_insert_eq. rewrite Ha1. cbn [mbind option_bind]. change (m_next (m <| refcnt := refcnt m + Z.of_nat n |>)) with (m_next m). rewrite Hn. destruct p as [|b p].
  - simpl. rewrite app_nil_r. eexists. split; [done|]. by split_and!.
  - destruct (Z.eqb_spec (hd NULL (b :: p)) NULL) as [E|_]; [simpl in E; by destruct Hch|]. assert (Hsub' : b :: p ⊆ R) by (intros x Hx; apply Hsub; by right).
    destruct (IH fuel w1 (replicate n a ++ R) T n HI1) as (w' & Hrun & Hp' & HI' & Hk'); [by eapply chain_kept|done|intros x Hx; apply elem_of_app; right; by apply Hsub'| |simpl in *; lia|].
    + intros x y Hx Hy. unfold w1 in Hy. rewrite mbufs_set, lookup_insert_ne in Hy by congruence. apply (Hmax x); [by right|done].
    + exists w'. split_and!; [done|by rewrite Hp'| |intros; by eapply kept_trans]. rewrite fmap_cons. rewrite concat_cons, <- app_assoc. by rewrite (Permutation_app_swap_app (replicate n a)).
Qed.
Lemma replicas_perm {A} n (p : list A) : concat (replicate n <$> p) ≡ₚ concat (replicate n p).
Proof.
  induction n as [|n IH]; simpl; [by induction p|]. rewrite <- IH. clear IH. induction p as [|a p IH]; simpl; [done|]. rewrite IH. by rewrite (Permutation_app_swap_app (replicate n a)).
Qed.

(** ** Two packets into one *)
Lemma upd_meta w R T a f : inv w R T [] → is_Some (mbufs w !! a) → (∀ m, in_bounds m → rewritten m (f m)) →
  ∃ w', upd_mbuf a f w = Some w' ∧ pools w' = pools w ∧ inv w' R T [] ∧ ∀ b m, mbufs w !! b = Some m → mbufs w' !! b = Some (if decide (b = a) then f m else m).
Proof.
  intros HI [m Ha] Hf. rewrite (upd_mbuf_eq _ _ _ _ Ha). eexists. split; [done|]. destruct (i_ok _ _ _ _ _ _ HI a m Ha) as [_ _ _ Hb _]. split_and!; [done|eapply buf_write; [done|done|by apply Hf]|]. intros b x Hx. rewrite mbufs_set. case_decide as Hd.
  - subst. rewrite lookup_insert_eq. congruence.
  - by rewrite lookup_insert_ne.
Qed.
Lemma chain_pkt_ok w R T l q r fuel : inv w R T [] → chain (mbufs w) (l ++ [q]) → chain (mbufs w) r → r ≠ [] → q ∉ r → (length l < fuel)%nat →
  ∃ ret w', rte_pktmbuf_chain fuel (hd NULL (l ++ [q])) (hd NULL r) w = Some (ret, w') ∧ pools w' = pools w ∧ inv w' R T [] ∧
    ((ret = - EOVERFLOW ∧ w' = w) ∨ (ret = 0 ∧ chain (mbufs w') (l ++ q :: r) ∧ (∀ b m, b ≠ q → mbufs w !! b = Some m → ∃ m', mbufs w' !! b = Some m' ∧ m_next m' = m_next m) ∧
      ∃ mh mt mh', mbufs w !! hd NULL (l ++ [q]) = Some mh ∧ mbufs w !! hd NULL r = Some mt ∧ mbufs w' !! hd NULL (l ++ [q]) = Some mh' ∧ nb_segs mh' = u8 (nb_segs mh + nb_segs mt) ∧ nb_segs mh + nb_segs mt < 256)).
Proof.
  intros HI Hl Hr Hne Hqr Hf. assert (∃ mh, mbufs w !! hd NULL (l ++ [q]) = Some mh) as [mh Hh] by (eapply chain_in; [exact Hl|]; destruct l; left). assert (hd NULL r ∈ r) as Ht0 by (destruct r; [done|left]).
  destruct (chain_in _ _ _ Hr Ht0) as [mt Ht]. destruct (chain_next _ _ _ [] Hl) as (mq & Hq & _). set (hd_ := hd NULL (l ++ [q])) in *. set (t := hd NULL r) in *. assert (Hqt : t ≠ q) by congruence. unfold rte_pktmbuf_chain. rewrite Hh. cbn [mbind option_bind]. rewrite Ht. cbn [mbind option_bind].
  change (Z.shiftl 1 8) with 256. destruct (Z.geb_spec (nb_segs mh + nb_segs mt) 256); [exists (- EOVERFLOW), w; split_and!; try done; by left|]. pose proof (lastseg_ok _ w l q fuel eq_refl Hl Hf) as Hls. fold hd_ in Hls. rewrite Hls. cbn [mbind option_bind].
  destruct (upd_meta w R T q (λ m, m <| m_next := t |>) HI) as (w1 & -> & Hp1 & HI1 & HB1); [by eexists|intros m []; by split|]. cbn [mbind option_bind]. pose proof (HB1 t mt Ht) as Ht1. rewrite decide_False in Ht1 by done. rewrite Ht1. cbn [mbind option_bind].
  pose proof (HB1 hd_ mh Hh) as Hh1. destruct (upd_meta w1 R T hd_ (λ h, h <| nb_segs := u8 (nb_segs h + nb_segs mt) |> <| pkt_len := u32 (pkt_len h + pkt_len mt) |>) HI1) as (w2 & -> & Hp2 & HI2 & HB2); [by eexists|intros m []; by split|]. cbn [mbind option_bind].
  pose proof (HB2 t mt Ht1) as Ht2. destruct (upd_meta w2 R T t (λ t, t <| pkt_len := data_len t |>) HI2) as (w3 & -> & Hp3 & HI3 & HB3); [by eexists|intros m []; by split|]. cbn [mbind option_bind]. exists 0, w3. split_and!; [done|congruence|done|]. right. split; [done|].
  assert (Hnext : ∀ b m, mbufs w !! b = Some m → ∃ m', mbufs w3 !! b = Some m' ∧ m_next m' = if decide (b = q) then t else m_next m).
  { intros b m Hm. eexists. split; [apply HB3, HB2, HB1, Hm|]. by destruct (decide (b = t)), (decide (b = hd_)), (decide (b = q)). }
  split_and!.
  - apply (segs_chain_app (mbufs w)); [done|done|done| |destruct (Hnext q mq Hq) as (m' & ? & E); exists m'; by rewrite decide_True in E by done]. pose proof (chain_nodup _ _ Hl) as Hnd. apply NoDup_app in Hnd as (_ & Hdj & _).
    intros a m Ha Hm. destruct (Hnext a m Hm) as (m' & ? & E). exists m'. split; [done|]. rewrite decide_False in E; [done|]. intros ->. apply elem_of_app in Ha as [Ha|Ha]; [|done]. apply (Hdj _ Ha). left.
  - intros b m Hb Hm. destruct (Hnext b m Hm) as (m' & ? & E). exists m'. split; [done|]. rewrite E. by destruct (decide (b = q)).
  - exists mh, mt. eexists. split_and!; [done|done|apply HB3, HB2, Hh1| |lia]. by destruct (decide (hd_ = t)), (decide (hd_ = hd_)), (decide (hd_ = q)).
Qed.
End data.
