(* ===== verification/MbufCalls.v ===== *)
(** * Any calls on packets

    The calls of an application on the packets it holds, in any order and from
    any core: no buffer is lost, none is free and in use, and a clone has the
    data of the packet it was made of. *)
From S2P Require Import Prelude BurstQueue Ring RingSpec Mempool MempoolInit Mbuf MbufInv MbufOps MbufClone MbufData.
Open Scope Z_scope.

(** The buffers attached to others, read off the buffers. *)
Definition attachments (B : gmap Z rte_mbuf) : gmap Z Z := omap (λ m, if RTE_MBUF_INDIRECT m then Some (rte_mbuf_from_indirect m) else None) B.

(** The bytes of a packet, in the memory [mem]. *)
Definition seg_bytes (mem : Z → Z) (m : rte_mbuf) : list Z := (λ j, mem (buf_addr m + data_off m + j)) <$> seqZ 0 (data_len m).
Definition packet_bytes (mem : Z → Z) (B : gmap Z rte_mbuf) (p : list Z) : list Z := concat ((λ a, default [] (seg_bytes mem <$> (B !! a))) <$> p).

Section calls.
Context (hugepages : bool) (rte_mem_virt2phy : Z → Z).
Notation inv := (inv hugepages rte_mem_virt2phy).

(** All buffers in their pools. *)
Definition ready (w : world) : Prop := inv w [] ∅ [].

(** The application holds packets, the same one more than once if it added
    references. Only the holder of the last reference to the end of a packet
    chains something to it. *)
Inductive call (w : world) (held : list (list Z)) : world → list (list Z) → Prop :=
| call_alloc lcore mp a w' : 0 <= lcore → is_Some (pools w !! mp) → rte_pktmbuf_alloc lcore mp w = Some (a, w') → call w held w' (if a =? NULL then held else [a] :: held)
| call_free lcore p held' fuel w' : 0 <= lcore → held ≡ₚ p :: held' → (length p <= fuel)%nat → rte_pktmbuf_free hugepages rte_mem_virt2phy lcore fuel (hd NULL p) w = Some w' → call w held w' held'
| call_clone lcore p fuel mp mc cs w' : 0 <= lcore → p ∈ held → is_Some (pools w !! mp) → count_room (mbufs w) (Z.of_nat (length p)) → (length p <= fuel)%nat →
    rte_pktmbuf_clone hugepages rte_mem_virt2phy lcore fuel (hd NULL p) mp w = Some (mc, w') → (mc ≠ NULL → chain (mbufs w') (mc :: cs)) → call w held w' (if mc =? NULL then held else (mc :: cs) :: held)
| call_refs p n fuel w' : p ∈ held → (∀ a m, a ∈ p → mbufs w !! a = Some m → refcnt m + Z.of_nat n < 2 ^ 16) → (length p <= fuel)%nat →
    rte_pktmbuf_refcnt_update fuel (hd NULL p) (Z.of_nat n) w = Some w' → call w held w' (replicate n p ++ held)
| call_prepend p len r w' : p ∈ held → is_u16 len → rte_pktmbuf_prepend (hd NULL p) len w = Some (r, w') → call w held w' held
| call_adj p len r w' : p ∈ held → is_u16 len → rte_pktmbuf_adj (hd NULL p) len w = Some (r, w') → call w held w' held
| call_append p len fuel r w' : p ∈ held → is_u16 len → (length p <= fuel)%nat → rte_pktmbuf_append fuel (hd NULL p) len w = Some (r, w') → call w held w' held
| call_trim p len fuel r w' : p ∈ held → is_u16 len → (length p <= fuel)%nat → rte_pktmbuf_trim fuel (hd NULL p) len w = Some (r, w') → call w held w' held
| call_chain l q r held' fuel ret w' : held ≡ₚ (l ++ [q]) :: r :: held' → own (concat held) q = 1 → (length (l ++ [q]) <= fuel)%nat →
    rte_pktmbuf_chain fuel (hd NULL (l ++ [q])) (hd NULL r) w = Some (ret, w') → call w held w' (if ret =? 0 then (l ++ q :: r) :: held' else held)
| call_write p a m m' : p ∈ held → a ∈ p → mbufs w !! a = Some m → rewritten m m' → m_next m' = m_next m → call w held (set_mbuf a m' w) held.
Inductive reach (w0 : world) : world → list (list Z) → Prop :=
| reach_start : reach w0 w0 []
| reach_call w held w' held' : reach w0 w held → call w held w' held' → reach w0 w' held'.

Definition good (w : world) (held : list (list Z)) : Prop := ∃ T, inv w (concat held) T [] ∧ Forall (λ p, p ≠ [] ∧ chain (mbufs w) p) held.

#[export] Instance good_perm w : Proper (Permutation ==> iff) (good w).
Proof. intros h h' Hh. unfold good. split; intros (T & HI & HF); exists T; [rewrite <- Hh|rewrite Hh]; done. Qed.
Lemma in_concat (held : list (list Z)) p : p ∈ held → p ⊆ concat held.
Proof. intros Hp x Hx. apply elem_of_concat. by exists p. Qed.
Lemma good_packet w held p : good w held → p ∈ held → ∃ l q, p = l ++ [q] ∧ chain (mbufs w) (l ++ [q]) ∧ ∃ ma mq, mbufs w !! hd NULL (l ++ [q]) = Some ma ∧ mbufs w !! q = Some mq.
Proof.
  intros (T & HI & HF) Hp. rewrite Forall_forall in HF. destruct (HF p Hp) as [Hne Hch]. destruct p as [|q l _] using rev_ind; [done|]. exists l, q. split; [done|]. split; [done|]. destruct (chain_in _ _ q Hch) as [mq Hq]; [apply elem_of_app; right; left|].
  destruct (chain_in _ _ (hd NULL (l ++ [q])) Hch) as [ma Ha]; [destruct l; left|]. by exists ma, mq.
Qed.
(** Calls that leave the links of the packets alone. *)
Definition same_links (B B' : gmap Z rte_mbuf) (R : list Z) : Prop := ∀ a m, a ∈ R → B !! a = Some m → ∃ m', B' !! a = Some m' ∧ m_next m' = m_next m.
Lemma kept_links B B' R : kept B B' R → same_links B B' R.
Proof. intros Hk a m Ha Hm. destruct (Hk a m Ha Hm) as [c Hc]. by eexists. Qed.
Lemma good_links w w' held new T : good w held → same_links (mbufs w) (mbufs w') (concat held) → inv w' (concat new ++ concat held) T [] → Forall (λ p, p ≠ [] ∧ chain (mbufs w') p) new → good w' (new ++ held).
Proof.
  intros (T0 & _ & HF) Hl HI Hnew. exists T. split; [by rewrite concat_app|]. apply Forall_app. split; [done|]. apply Forall_forall. intros p Hp. rewrite Forall_forall in HF. destruct (HF p Hp) as [Hne Hch]. split; [done|].
  eapply chain_ext; [|done]. intros a m Ha. apply Hl. by apply (in_concat held p).
Qed.

(** ** Each call *)
Lemma good_alloc lcore mp w held : 0 <= lcore → good w held → is_Some (pools w !! mp) → ∃ a w', rte_pktmbuf_alloc lcore mp w = Some (a, w') ∧ good w' (if a =? NULL then held else [a] :: held).
Proof.
  intros Hc Hg [p Hp]. pose proof Hg as (T & HI & _). destruct (alloc_ok _ _ lcore Hc w _ _ mp p HI Hp) as (a & w' & Hal & _ & Ha). exists a, w'. split; [done|]. destruct Ha as [(-> & Hm & HI')|(Hn & m & Hm & Hz & HT & HB & HI')].
  - cbn. apply (good_links w w' held [] T); [done| |done|done]. rewrite Hm. intros b x _ Hx. by exists x.
  - destruct (Z.eqb_spec a NULL); [done|]. assert (HaR : a ∉ concat held). { destruct (i_ok _ _ _ _ _ _ HI a m Hm) as [_ Hcnt _ _ _]. rewrite <- own_in. pose proof (attached_nonneg T a). lia. }
    apply (good_links w w' held [[a]] T); [done|apply kept_links; rewrite HB; by apply kept_other|done|]. apply Forall_singleton. split; [done|]. simpl. split_and!; [done| |done]. exists (blank m). by rewrite HB, lookup_insert_eq.
Qed.
Lemma packets_free lcore w held p held' fuel : 0 <= lcore → good w held → held ≡ₚ p :: held' → (length p <= fuel)%nat →
  ∃ w', rte_pktmbuf_free hugepages rte_mem_virt2phy lcore fuel (hd NULL p) w = Some w' ∧ good w' held' ∧ kept (mbufs w) (mbufs w') (concat held').
Proof.
  intros Hc Hg Hh Hf. rewrite Hh in Hg. destruct Hg as (T & HI & HF). apply Forall_cons in HF as [[Hne Hch] HF]. destruct (free_ok _ _ lcore Hc p fuel w (concat held') T HI Hch Hf) as (w' & T' & Hfree & _ & Hk & HI').
  exists w'. split_and!; [done| |done]. exists T'. split; [done|]. apply Forall_forall. intros x Hx. rewrite Forall_forall in HF. destruct (HF x Hx) as [? Hcx]. split; [done|]. eapply chain_kept; [exact Hk|by apply in_concat|done].
Qed.
Lemma good_clone lcore w held p fuel mp : 0 <= lcore → good w held → p ∈ held → is_Some (pools w !! mp) → count_room (mbufs w) (Z.of_nat (length p)) → (length p <= fuel)%nat →
  ∃ mc w', rte_pktmbuf_clone hugepages rte_mem_virt2phy lcore fuel (hd NULL p) mp w = Some (mc, w') ∧ kept (mbufs w) (mbufs w') (concat held) ∧
    ((mc = NULL ∧ good w' held) ∨ (mc ≠ NULL ∧ ∃ cs, good w' ((mc :: cs) :: held) ∧ (∀ c, c ∈ mc :: cs → c ∉ concat held) ∧ Forall2 (shows (mbufs w') (mbufs w)) (mc :: cs) p ∧
      ∃ m m', mbufs w !! hd NULL p = Some m ∧ mbufs w' !! mc = Some m' ∧ pkt_len m' = pkt_len m ∧ nb_segs m' = u8 (Z.of_nat (length p)))).
Proof.
  intros Hc Hg Hp Hmp Hroom Hf. pose proof Hg as (T & HI & HF). rewrite Forall_forall in HF. destruct (HF p Hp) as [Hne Hch]. destruct p as [|x ps]; [done|].
  destruct (clone_ok _ _ lcore Hc w _ T x ps fuel mp HI Hch (in_concat _ _ Hp) Hroom Hmp Hf) as (mc & w' & T' & Hcl & _ & Hk & Hr). exists mc, w'. split_and!; [done|done|]. destruct Hr as [(-> & HI')|(Hn & cs & HI' & Hch' & Hfr & Hsh & Hh)]; [left|right]; (split; [done|]).
  - apply (good_links w w' held [] T'); [done|by apply kept_links|done|done].
  - exists cs. split_and!; [|done|done|done]. apply (good_links w w' held [mc :: cs] T'); [done|by apply kept_links|cbn [concat]; by rewrite app_nil_r|by apply Forall_singleton].
Qed.
Lemma good_refs w held p n fuel : good w held → p ∈ held → (∀ a m, a ∈ p → mbufs w !! a = Some m → refcnt m + Z.of_nat n < 2 ^ 16) → (length p <= fuel)%nat →
  ∃ w', rte_pktmbuf_refcnt_update fuel (hd NULL p) (Z.of_nat n) w = Some w' ∧ good w' (replicate n p ++ held).
Proof.
  intros Hg Hp Hmax Hf. pose proof Hg as (T & HI & HF). rewrite Forall_forall in HF. destruct (HF p Hp) as [Hne Hch]. destruct (packet_refs _ _ p fuel w _ T n HI Hch Hne (in_concat _ _ Hp) Hmax Hf) as (w' & Hu & _ & HI' & Hk). exists w'. split; [done|].
  apply (good_links w w' held (replicate n p) T); [done|apply kept_links, Hk|by rewrite <- replicas_perm|]. apply Forall_replicate. split; [done|]. by eapply chain_kept; [apply (Hk p)| |].
Qed.
Lemma good_keep w w' held T : good w held → inv w' (concat held) T [] → same_links (mbufs w) (mbufs w') (concat held) → good w' held.
Proof. intros Hg HI Hl. by apply (good_links w w' held [] T). Qed.
Lemma links_set w a m m' R : mbufs w !! a = Some m → m_next m' = m_next m → same_links (mbufs w) (mbufs (set_mbuf a m' w)) R.
Proof. intros Ha Hn b x _ Hx. rewrite mbufs_set. destruct (decide (a = b)) as [->|]; [rewrite lookup_insert_eq; eexists; split; [done|]; congruence|rewrite lookup_insert_ne by done; by exists x]. Qed.
Lemma links_refl B R : same_links B B R.
Proof. intros a m _ Hm. by exists m. Qed.

Lemma good_prepend w held p len ma : good w held → p ∈ held → is_u16 len → mbufs w !! hd NULL p = Some ma →
  ∃ w', rte_pktmbuf_prepend (hd NULL p) len w = Some (if data_off ma <? len then NULL else buf_addr ma + data_off ma - len, w') ∧ good w' held ∧
    w' = (if data_off ma <? len then w else set_mbuf (hd NULL p) (moved (data_off ma - len) (data_len ma + len) (u32 (pkt_len ma + len)) ma) w).
Proof.
  intros Hg Hp Hlen Ha. pose proof Hg as (T & HI & _). destruct (prepend_ok _ _ w _ T _ ma len HI Ha Hlen) as (w' & Hrun & Hw & HI'). exists w'. split_and!; [done| |done]. eapply good_keep; [done|done|]. rewrite Hw. destruct (data_off ma <? len); [apply links_refl|by eapply links_set].
Qed.
Lemma good_adj w held p len ma : good w held → p ∈ held → is_u16 len → mbufs w !! hd NULL p = Some ma →
  ∃ w', rte_pktmbuf_adj (hd NULL p) len w = Some (if data_len ma <? len then NULL else buf_addr ma + data_off ma + len, w') ∧ good w' held ∧
    w' = (if data_len ma <? len then w else set_mbuf (hd NULL p) (moved (data_off ma + len) (data_len ma - len) (u32 (pkt_len ma - len)) ma) w).
Proof.
  intros Hg Hp Hlen Ha. pose proof Hg as (T & HI & _). destruct (adj_ok _ _ w _ T _ ma len HI Ha Hlen) as (w' & Hrun & Hw & HI'). exists w'. split_and!; [done| |done]. eapply good_keep; [done|done|]. rewrite Hw. destruct (data_len ma <? len); [apply links_refl|by eapply links_set].
Qed.
Lemma good_cut w held a q ma mq dl f : good w held → mbufs w !! a = Some ma → mbufs w !! q = Some mq → 0 <= dl → data_off mq + dl <= buf_len mq → ∃ w', cut a q dl f w = Some w' ∧ good w' held.
Proof.
  intros Hg Ha Hq H1 H2. pose proof Hg as (T & HI & _). destruct (shorten_ok _ _ w _ T a q ma mq dl f HI Ha Hq H1 H2) as (w' & Hcut & HI' & _ & HB & _). exists w'. split; [done|]. eapply good_keep; [done|done|]. intros b m _ Hm. destruct (HB b m Hm) as (m' & ? & ? & _). by exists m'.
Qed.
Lemma good_append w held l q len fuel mq : good w held → l ++ [q] ∈ held → is_u16 len → (length (l ++ [q]) <= fuel)%nat → mbufs w !! q = Some mq → let room := buf_len mq - data_off mq - data_len mq in
  ∃ w', rte_pktmbuf_append fuel (hd NULL (l ++ [q])) len w = Some (if room <? len then NULL else buf_addr mq + data_off mq + data_len mq, w') ∧ good w' held ∧
    (if room <? len then w' = w else cut (hd NULL (l ++ [q])) q (data_len mq + len) (λ x, u32 (x + len)) w = Some w').
Proof.
  intros Hg Hp Hlen Hf Hq room. pose proof Hg as (T & HI & HF). rewrite Forall_forall in HF. destruct (HF _ Hp) as [_ Hch]. destruct (chain_in _ _ (hd NULL (l ++ [q])) Hch) as [ma Ha]; [destruct l; left|]. rewrite length_app in Hf. simpl in Hf.
  rewrite (append_eq _ _ w _ T l q ma mq len fuel HI Hch Ha Hq Hlen) by lia. fold room. destruct (i_ok _ _ _ _ _ _ HI q mq Hq) as [_ _ _ [H1 H2 H3 H4] _]. unfold is_u16 in Hlen. destruct (Z.ltb_spec room len); [by exists w|].
  destruct (good_cut w held (hd NULL (l ++ [q])) q ma mq (data_len mq + len) (λ x, u32 (x + len)) Hg Ha Hq) as (w' & Hcut & Hg'); [lia|lia|]. rewrite Hcut. cbn [mbind option_bind]. by exists w'.
Qed.
Lemma good_trim w held l q len fuel mq : good w held → l ++ [q] ∈ held → is_u16 len → (length (l ++ [q]) <= fuel)%nat → mbufs w !! q = Some mq →
  ∃ w', rte_pktmbuf_trim fuel (hd NULL (l ++ [q])) len w = Some (if data_len mq <? len then -1 else 0, w') ∧ good w' held ∧
    (if data_len mq <? len then w' = w else cut (hd NULL (l ++ [q])) q (data_len mq - len) (λ x, u32 (x - len)) w = Some w').
Proof.
  intros Hg Hp Hlen Hf Hq. pose proof Hg as (T & HI & HF). rewrite Forall_forall in HF. destruct (HF _ Hp) as [_ Hch]. destruct (chain_in _ _ (hd NULL (l ++ [q])) Hch) as [ma Ha]; [destruct l; left|]. rewrite length_app in Hf. simpl in Hf.
  rewrite (trim_eq _ _ w _ T l q ma mq len fuel HI Hch Ha Hq Hlen) by lia. destruct (i_ok _ _ _ _ _ _ HI q mq Hq) as [_ _ _ [H1 H2 H3 H4] _]. unfold is_u16 in Hlen. destruct (Z.ltb_spec (data_len mq) len); [by exists w|].
  destruct (good_cut w held (hd NULL (l ++ [q])) q ma mq (data_len mq - len) (λ x, u32 (x - len)) Hg Ha Hq) as (w' & Hcut & Hg'); [lia|lia|]. rewrite Hcut. cbn [mbind option_bind]. by exists w'.
Qed.
Lemma good_chain w held l q r held' fuel : good w held → held ≡ₚ (l ++ [q]) :: r :: held' → own (concat held) q = 1 → (length (l ++ [q]) <= fuel)%nat →
  ∃ ret w', rte_pktmbuf_chain fuel (hd NULL (l ++ [q])) (hd NULL r) w = Some (ret, w') ∧ (ret = 0 ∨ ret = - EOVERFLOW) ∧ good w' (if ret =? 0 then (l ++ q :: r) :: held' else held).
Proof.
  intros Hg Hh Hown Hf. pose proof Hg as Hg0. rewrite Hh in Hg. destruct Hg as (T & HI & HF). apply Forall_cons in HF as [[_ Hl] HF]. apply Forall_cons in HF as [[Hrn Hr] HF]. rewrite length_app in Hf. simpl in Hf.
  assert (Hq : q ∉ r ∧ q ∉ concat held'). { rewrite Hh in Hown. simpl in Hown. rewrite !own_app, own_cons_eq in Hown. pose proof (own_nonneg l q). pose proof (own_nonneg [] q). pose proof (own_nonneg r q). pose proof (own_nonneg (concat held') q). split; rewrite <- own_in; lia. }
  destruct Hq as [Hqr Hqh]. destruct (chain_pkt_ok _ _ w _ T l q r fuel HI Hl Hr Hrn Hqr) as (ret & w' & Hrun & _ & HI' & Hret); [lia|]. exists ret, w'. split; [done|]. destruct Hret as [(-> & ->)|(-> & Hch & Hlk & _)]; [split; [by right|done]|]. split; [by left|]. cbn [Z.eqb].
  exists T. split; [simpl in *; rewrite <- !app_assoc in *; done|]. constructor; [split; [by destruct l|done]|]. apply Forall_forall. intros p Hp. rewrite Forall_forall in HF. destruct (HF p Hp) as [? Hcp]. split; [done|]. eapply chain_ext; [|done].
  intros b m Hb. apply Hlk. intros ->. apply Hqh. by apply (in_concat held' p).
Qed.
Lemma call_good w held w' held' : good w held → call w held w' held' → good w' held'.
Proof.
  intros Hg Hcall. destruct Hcall as [lcore mp a w' Hc Hmp Hrun|lcore p held' fuel w' Hc Hh Hf Hrun|lcore p fuel mp mc cs w' Hc Hp Hmp Hroom Hf Hrun Hcs|p n fuel w' Hp Hmax Hf Hrun|p len r w' Hp Hlen Hrun|p len r w' Hp Hlen Hrun|p len fuel r w' Hp Hlen Hf Hrun|p len fuel r w' Hp Hlen Hf Hrun|l q r held' fuel ret w' Hh Hown Hf Hrun|p a m m' Hp Ha Hm Hrw Hn].
  - destruct (good_alloc lcore mp w held Hc Hg Hmp) as (a' & w1 & Hrun' & Hg'). rewrite Hrun in Hrun'. by simplify_eq.
  - destruct (packets_free lcore w held p held' fuel Hc Hg Hh Hf) as (w1 & Hrun' & Hg' & _). rewrite Hrun in Hrun'. by simplify_eq.
  - destruct (good_clone lcore w held p fuel mp Hc Hg Hp Hmp Hroom Hf) as (mc' & w1 & Hrun' & _ & Hr). assert (mc' = mc ∧ w1 = w') as [-> ->] by (split; congruence). destruct Hr as [(-> & Hg')|(Hn & cs' & Hg' & _)]; [done|]. destruct (Z.eqb_spec mc NULL); [done|]. pose proof Hg' as (T & _ & HF). apply Forall_cons in HF as [[_ Hch] _].
    by rewrite (chain_hd _ _ _ (Hcs Hn) Hch eq_refl).
  - destruct (good_refs w held p n fuel Hg Hp Hmax Hf) as (w1 & Hrun' & Hg'). rewrite Hrun in Hrun'. by simplify_eq.
  - destruct (good_packet w held p Hg Hp) as (l & q & -> & Hch & ma & mq & Ha & Hq). destruct (good_prepend w held _ len ma Hg Hp Hlen Ha) as (w1 & Hrun' & Hg' & _). rewrite Hrun in Hrun'. by simplify_eq.
  - destruct (good_packet w held p Hg Hp) as (l & q & -> & Hch & ma & mq & Ha & Hq). destruct (good_adj w held _ len ma Hg Hp Hlen Ha) as (w1 & Hrun' & Hg' & _). rewrite Hrun in Hrun'. by simplify_eq.
  - destruct (good_packet w held p Hg Hp) as (l & q & -> & Hch & ma & mq & Ha & Hq). destruct (good_append w held l q len fuel mq Hg Hp Hlen Hf Hq) as (w1 & Hrun' & Hg' & _). rewrite Hrun in Hrun'. by simplify_eq.
  - destruct (good_packet w held p Hg Hp) as (l & q & -> & Hch & ma & mq & Ha & Hq). destruct (good_trim w held l q len fuel mq Hg Hp Hlen Hf Hq) as (w1 & Hrun' & Hg' & _). rewrite Hrun in Hrun'. by simplify_eq.
  - destruct (good_chain w held l q r held' fuel Hg Hh Hown Hf) as (ret' & w1 & Hrun' & _ & Hg'). rewrite Hrun in Hrun'. by simplify_eq.
  - pose proof Hg as (T & HI & _). eapply good_keep; [done|eapply buf_write; [exact HI|done|done]|by eapply links_set].
Qed.
Lemma reach_good w0 w held : ready w0 → reach w0 w held → good w held.
Proof. intros H0. induction 1 as [|w held w' held' _ IH Hcall]; [exists ∅; by split|by eapply call_good]. Qed.

(** ** What the counts say *)

Lemma attachments_ok w R T : inv w R T [] → attachments (mbufs w) = T.
Proof.
  intros HI. apply map_eq. intros i. unfold attachments. rewrite lookup_omap. destruct (mbufs w !! i) as [m|] eqn:E; simpl.
  - rewrite (is_indirect _ _ _ _ _ _ _ _ HI E). case_bool_decide as HT; [|destruct (T !! i); [destruct HT; done|done]]. destruct (T !! i) as [d|] eqn:ET; [|done]. by destruct (from_indirect_ok _ _ _ _ _ _ _ _ _ HI E ET) as [-> _].
  - destruct (T !! i) as [d|] eqn:ET; [|done]. destruct (i_tgt _ _ _ _ _ _ HI i d ET) as [x Hx]. congruence.
Qed.
Lemma indirect_held w R T i d : inv w R T [] → T !! i = Some d → i ∈ R.
Proof. intros HI Hi. destruct (i_tgt _ _ _ _ _ _ HI i d Hi) as [m Hm]. destruct (i_ok _ _ _ _ _ _ HI i m Hm) as [_ _ _ _ Hk]. rewrite Hi in Hk. by destruct Hk as (_ & [?|?%not_elem_of_nil] & _). Qed.
Lemma restored w w' R T T' : inv w R T [] → inv w' R T' [] → kept (mbufs w) (mbufs w') R → ∀ a, a ∈ R → mbufs w' !! a = mbufs w !! a.
Proof.
  intros HI HI' Hk. assert (T' = T) as ->.
  { apply map_eq. intros i. destruct (decide (i ∈ R)) as [Hi|Hi]; [|destruct (T !! i) as [d|] eqn:E; [by eapply indirect_held in HI|]; destruct (T' !! i) as [d|] eqn:E'; [by eapply indirect_held in HI'|done]].
    destruct (i_refs _ _ _ _ _ _ HI i Hi) as [m Hm]. destruct (Hk i m Hi Hm) as [c Hc]. rewrite <- (attachments_ok _ _ _ HI), <- (attachments_ok _ _ _ HI'). unfold attachments. rewrite !lookup_omap, Hm, Hc. done. }
  intros a Ha. destruct (i_refs _ _ _ _ _ _ HI a Ha) as [m Hm]. destruct (Hk a m Ha Hm) as [c Hc]. rewrite Hc, Hm. f_equal. destruct (i_ok _ _ _ _ _ _ HI a m Hm) as [_ H1 _ _ _], (i_ok _ _ _ _ _ _ HI' a _ Hc) as [_ H2 _ _ _].
  cbn in H2. rewrite <- H1 in H2. rewrite H2. by destruct m.
Qed.
Lemma shows_bytes mem B B' cs p : Forall2 (shows B' B) cs p → packet_bytes mem B' cs = packet_bytes mem B p.
Proof. unfold packet_bytes. induction 1 as [|c x cs p (m' & m & Hc & Hx & H1 & H2 & H3) _ IH]; [done|]. rewrite !fmap_cons, !concat_cons, IH. f_equal. rewrite Hc, Hx. simpl. unfold seg_bytes. by rewrite H1, H2, H3. Qed.
End calls.

(** C8: In every state that calls on packets reach, from any cores and in any
    order, the count of a buffer is the number of references that the
    application holds to it plus the number of buffers attached to it; the
    free objects of a pool are exactly its buffers with the count 0; every
    buffer held has its data inside a buffer; each of the calls on what is held
    (allocating, freeing, cloning, adding references, prepending, appending,
    taking bytes off either end, chaining) returns; and once nothing is held
    every buffer is back in its pool with its own data. The callers keep counts
    below [2^16], which the code does not check, and only the holder of the last
    reference to the end of a packet chains something to it. *)
Theorem mbuf_calls_safe hugepages virt2phy w0 w held : ready hugepages virt2phy w0 → reach hugepages virt2phy w0 w held →
  (∀ a m, mbufs w !! a = Some m → refcnt m = own (concat held) a + attached (attachments (mbufs w)) a ∧ in_bounds m) ∧
  (∀ mpa p, pools w !! mpa = Some p → ∃ cap free, pool_rep (mempool p) cap free ∧ NoDup free ∧ ∀ a, a ∈ free ↔ ∃ m, mbufs w !! a = Some m ∧ m_pool m = mpa ∧ refcnt m = 0) ∧
  (∀ lcore mp, 0 <= lcore → is_Some (pools w !! mp) → is_Some (rte_pktmbuf_alloc lcore mp w)) ∧
  (∀ lcore p fuel, 0 <= lcore → p ∈ held → (length p <= fuel)%nat → is_Some (rte_pktmbuf_free hugepages virt2phy lcore fuel (hd NULL p) w)) ∧
  (∀ l q r held', held ≡ₚ (l ++ [q]) :: r :: held' → own (concat held) q = 1 → ∃ ret w', rte_pktmbuf_chain (length (l ++ [q])) (hd NULL (l ++ [q])) (hd NULL r) w = Some (ret, w') ∧
     (ret = 0 → chain (mbufs w') (l ++ q :: r))) ∧
  (∀ lcore p fuel mp, 0 <= lcore → p ∈ held → is_Some (pools w !! mp) → count_room (mbufs w) (Z.of_nat (length p)) → (length p <= fuel)%nat →
     is_Some (rte_pktmbuf_clone hugepages virt2phy lcore fuel (hd NULL p) mp w)) ∧
  (∀ p n fuel, p ∈ held → (∀ a m, a ∈ p → mbufs w !! a = Some m → refcnt m + Z.of_nat n < 2 ^ 16) → (length p <= fuel)%nat →
     is_Some (rte_pktmbuf_refcnt_update fuel (hd NULL p) (Z.of_nat n) w)) ∧
  (∀ p len fuel, p ∈ held → is_u16 len → (length p <= fuel)%nat →
     is_Some (rte_pktmbuf_prepend (hd NULL p) len w) ∧ is_Some (rte_pktmbuf_adj (hd NULL p) len w) ∧
     is_Some (rte_pktmbuf_append fuel (hd NULL p) len w) ∧ is_Some (rte_pktmbuf_trim fuel (hd NULL p) len w)) ∧
  (held = [] → ∀ a m, mbufs w !! a = Some m → refcnt m = 0 ∧ ∃ p, pools w !! m_pool m = Some p ∧ own_data hugepages virt2phy a p m).
Proof.
  intros H0 Hr. pose proof (reach_good _ _ _ _ _ H0 Hr) as Hg. pose proof Hg as (T & HI & HF). split_and!.
  - intros a m Ha. rewrite (attachments_ok _ _ _ _ _ HI). by destruct (i_ok _ _ _ _ _ _ HI a m Ha).
  - intros mpa p Hp. destruct (i_pool _ _ _ _ _ _ HI mpa p Hp) as (cap & free & objs & ? & ? & Hfree & _). exists cap, free. split_and!; [done|done|]. intros a. rewrite Hfree. split; [tauto|]. intros. split; [by apply not_elem_of_nil|done].
  - intros lcore mp Hc Hmp. destruct (good_alloc _ _ lcore mp w held Hc Hg Hmp) as (a & w' & -> & _). by eexists.
  - intros lcore p fuel Hc Hp Hf. apply list_elem_of_split in Hp as (h1 & h2 & ->). destruct (packets_free _ _ lcore w (h1 ++ p :: h2) p (h1 ++ h2) fuel Hc Hg) as (w' & -> & _); [by rewrite <- Permutation_middle|done|]. by eexists.
  - intros l q r held' Hh Hown. destruct (good_chain _ _ w held l q r held' (length (l ++ [q])) Hg Hh Hown) as (ret & w' & Hrun & _ & Hg'); [done|]. exists ret, w'. split; [done|]. intros ->. destruct Hg' as (_ & _ & HF'). apply Forall_cons in HF'. by apply HF'.
  - intros lcore p fuel mp Hc Hp Hmp Hroom Hf. destruct (good_clone _ _ lcore w held p fuel mp Hc Hg Hp Hmp Hroom Hf) as (mc & w' & -> & _). by eexists.
  - intros p n fuel Hp Hmax Hf. destruct (good_refs _ _ w held p n fuel Hg Hp Hmax Hf) as (w' & -> & _). by eexists.
  - intros p len fuel Hp Hlen Hf. destruct (good_packet _ _ w held p Hg Hp) as (l & q & -> & Hch & ma & mq & Ha & Hq).
    destruct (good_prepend _ _ w held _ len ma Hg Hp Hlen Ha) as (w1 & -> & _), (good_adj _ _ w held _ len ma Hg Hp Hlen Ha) as (w2 & -> & _).
    destruct (good_append _ _ w held l q len fuel mq Hg Hp Hlen Hf Hq) as (w3 & -> & _), (good_trim _ _ w held l q len fuel mq Hg Hp Hlen Hf Hq) as (w4 & -> & _). by split_and!; eexists.
  - intros -> a m Ha. destruct (i_ok _ _ _ _ _ _ HI a m Ha) as [(p & Hp & _ & Ho) Hc _ _ Hk]. assert (∀ i, T !! i = None) as HT. { intros i. destruct (T !! i) eqn:E; [|done]. apply (indirect_held _ _ _ _ _ _ _ HI) in E. by apply not_elem_of_nil in E. }
    assert (attached T a = 0) as Hat by (apply attached_0; intros i; by rewrite HT). split; [rewrite Hc, Hat; assert (¬ 0 < own [] a) by (rewrite own_in; apply not_elem_of_nil); pose proof (own_nonneg [] a); simpl; lia|]. exists p. split; [done|]. by apply Ho.
Qed.

(** C28: Cloning a packet returns; either there were too few buffers and the
    packets held are as before, or the clone is a packet of new buffers with
    the same bytes, whatever is in the memory, the same length and its number
    of segments, and freeing it leaves all buffers held as before. *)
Theorem mbuf_clone_shares hugepages virt2phy w0 w held lcore p fuel mp : ready hugepages virt2phy w0 → reach hugepages virt2phy w0 w held → 0 <= lcore → p ∈ held → is_Some (pools w !! mp) →
  count_room (mbufs w) (Z.of_nat (length p)) → (length p <= fuel)%nat →
  ∃ mc w', rte_pktmbuf_clone hugepages virt2phy lcore fuel (hd NULL p) mp w = Some (mc, w') ∧ (mc = NULL → ∀ a, a ∈ concat held → mbufs w' !! a = mbufs w !! a) ∧
    (mc ≠ NULL → ∃ cs, chain (mbufs w') (mc :: cs) ∧ reach hugepages virt2phy w0 w' ((mc :: cs) :: held) ∧ (∀ c, c ∈ mc :: cs → c ∉ concat held) ∧ (∀ mem, packet_bytes mem (mbufs w') (mc :: cs) = packet_bytes mem (mbufs w) p) ∧
      (∃ m m', mbufs w !! hd NULL p = Some m ∧ mbufs w' !! mc = Some m' ∧ pkt_len m' = pkt_len m ∧ nb_segs m' = u8 (Z.of_nat (length p))) ∧
      ∃ w'', rte_pktmbuf_free hugepages virt2phy lcore fuel mc w' = Some w'' ∧ ∀ a, a ∈ concat held → mbufs w'' !! a = mbufs w !! a).
Proof.
  intros H0 Hr Hc Hp Hmp Hroom Hf. pose proof (reach_good _ _ _ _ _ H0 Hr) as Hg. pose proof Hg as (T & HI & _). destruct (good_clone _ _ lcore w held p fuel mp Hc Hg Hp Hmp Hroom Hf) as (mc & w' & Hrun & Hk & Hres). exists mc, w'. split; [done|].
  destruct Hres as [(-> & (T' & HI' & _))|(Hn & cs & Hg' & Hfr & Hsh & Hhd)]; (split; [intros E; try done|intros E; try done]); [by eapply restored|]. exists cs. pose proof Hg' as (T1 & _ & HF). apply Forall_cons in HF as [[_ Hch] _].
  split_and!; [done| |done|intros mem; by apply shows_bytes|done|].
  - eapply reach_call; [done|]. pose proof (call_clone hugepages virt2phy w held lcore p fuel mp mc cs w' Hc Hp Hmp Hroom Hf Hrun (λ _, Hch)) as Hcall. by destruct (Z.eqb_spec mc NULL).
  - apply Forall2_length in Hsh as Hlen. destruct (packets_free _ _ lcore w' _ (mc :: cs) held fuel Hc Hg') as (w'' & Hfree & (T2 & HI2 & _) & Hk2); [done|lia|]. exists w''. split; [done|]. eapply restored; [done|done|]. eapply kept_trans; [done|]. done.
Qed.

(** C36: Room at the ends of a packet: [rte_pktmbuf_prepend] and
    [rte_pktmbuf_append] give the bytes right before and right after the data,
    inside the buffer of the first and the last segment, exactly if there is
    room for them, and otherwise change nothing; [rte_pktmbuf_adj] and
    [rte_pktmbuf_trim] undo them, and refuse to take more than a segment has. *)
Theorem mbuf_room hugepages virt2phy w0 w held l q ma mq len fuel : ready hugepages virt2phy w0 → reach hugepages virt2phy w0 w held → l ++ [q] ∈ held → is_u16 len → (length (l ++ [q]) <= fuel)%nat →
  let h := hd NULL (l ++ [q]) in mbufs w !! h = Some ma → mbufs w !! q = Some mq → is_u32 (pkt_len ma) → let room := buf_len mq - data_off mq - data_len mq in let tail := buf_addr mq + data_off mq + data_len mq in
  (∃ w', rte_pktmbuf_prepend h len w = Some (if data_off ma <? len then NULL else buf_addr ma + data_off ma - len, w') ∧ (data_off ma < len → w' = w) ∧
     (len <= data_off ma → buf_addr ma <= buf_addr ma + data_off ma - len ∧ rte_pktmbuf_adj h len w' = Some (buf_addr ma + data_off ma, w))) ∧
  (∃ w', rte_pktmbuf_append fuel h len w = Some (if room <? len then NULL else tail, w') ∧ (room < len → w' = w) ∧ (len <= room → tail + len <= buf_addr mq + buf_len mq ∧ rte_pktmbuf_trim fuel h len w' = Some (0, w))) ∧
  (data_len ma < len → rte_pktmbuf_adj h len w = Some (NULL, w)) ∧ (data_len mq < len → rte_pktmbuf_trim fuel h len w = Some (-1, w)).
Proof.
  intros H0 Hr Hp Hlen Hf h Ha Hq Hpk room tail. pose proof (reach_good _ _ _ _ _ H0 Hr) as Hg. pose proof Hg as (T & HI & HF). rewrite Forall_forall in HF. destruct (HF _ Hp) as [_ Hch].
  assert (Hback : u32 (u32 (pkt_len ma + len) - len) = pkt_len ma) by (rewrite u32_sub_l, Z.add_simpl_r; by apply u32_small). destruct (i_ok _ _ _ _ _ _ HI h ma Ha) as [_ _ _ [A1 A2 A3 A4] _]. destruct (i_ok _ _ _ _ _ _ HI q mq Hq) as [_ _ _ [Q1 Q2 Q3 Q4] _]. unfold is_u16 in Hlen. split_and!.
  - destruct (good_prepend _ _ w held (l ++ [q]) len ma Hg Hp Hlen Ha) as (w' & Hrun & Hg' & Hw). exists w'. split; [done|]. destruct (Z.ltb_spec (data_off ma) len) as [Hlt|Hge]; [split; [done|lia]|]. split; [lia|]. intros _. split; [lia|].
    destruct (good_adj _ _ w' held (l ++ [q]) len (moved (data_off ma - len) (data_len ma + len) (u32 (pkt_len ma + len)) ma) Hg' Hp Hlen) as (w2 & Hadj & _ & Hw2); [rewrite Hw; apply lookup_insert_eq|]. cbn in Hadj, Hw2. destruct (Z.ltb_spec (data_len ma + len) len); [lia|]. fold h in Hadj, Hw2, Hw.
    rewrite Hadj. f_equal. f_equal; [lia|]. rewrite Hw2, Hw, set_set, Hback. rewrite <- (set_same h ma w Ha) at 2. f_equal. replace (data_off ma - len + len) with (data_off ma) by lia. replace (data_len ma + len - len) with (data_len ma) by lia. by destruct ma.
  - destruct (good_append _ _ w held l q len fuel mq Hg Hp Hlen Hf Hq) as (w' & Hrun & Hg' & Hw). fold room in Hrun, Hw. exists w'. split; [done|]. destruct (Z.ltb_spec room len) as [Hlt|Hge]; [split; [done|lia]|]. split; [lia|]. intros _. split; [unfold tail, room in *; lia|].
    destruct (shorten_ok _ _ w _ T h q ma mq (data_len mq + len) (λ x, u32 (x + len)) HI Ha Hq) as (w1 & Hcut & _ & _ & _ & (mq' & Hq' & Hdl) & _); [lia|unfold room in *; lia|]. fold h in Hw. assert (w1 = w') as -> by congruence.
    destruct (good_trim _ _ w' held l q len fuel mq' Hg' Hp Hlen Hf Hq') as (w2 & Htrim & _ & Hw2). fold h in Htrim, Hw2. rewrite Hdl in Htrim, Hw2. destruct (Z.ltb_spec (data_len mq + len) len); [lia|]. rewrite Htrim. f_equal. f_equal.
    replace (data_len mq + len - len) with (data_len mq) in Hw2 by lia. rewrite (cut_back w w' h q ma mq _ _ (λ x, u32 (x - len)) Ha Hq Hcut Hback) in Hw2. congruence.
  - intros Hlt. destruct (good_adj _ _ w held (l ++ [q]) len ma Hg Hp Hlen Ha) as (w' & Hrun & _ & Hw). fold h in Hrun. destruct (Z.ltb_spec (data_len ma) len); [|lia]. by rewrite Hrun, Hw.
  - intros Hlt. destruct (good_trim _ _ w held l q len fuel mq Hg Hp Hlen Hf Hq) as (w' & Hrun & _ & Hw). fold h in Hrun. destruct (Z.ltb_spec (data_len mq) len); [|lia]. by rewrite Hrun, Hw.
Qed.
