(* ===== verification/MbufPool.v ===== *)
(** * New pools of buffers

    [rte_pktmbuf_init] and [rte_pktmbuf_pool_init] as the callbacks of
    [rte_mempool_create]: a new pool, made by [rte_pktmbuf_pool_create] or by
    the primary application, has all its buffers free with their own data, so
    that everything in [MbufCalls.v] holds from there. *)
From S2P Require Import Prelude Align BurstQueue Ring RingSpec RingReg Mempool MempoolInit EthDev Secondary Primary Mbuf MbufInv MbufOps MbufClone MbufData MbufCalls.
Open Scope Z_scope.

Section pool.
Context (rte_mem_virt2phy : Z → Z).
Notation virt2phy := (rte_mempool_virt2phy true rte_mem_virt2phy).
Notation inv := (inv true rte_mem_virt2phy).

(** A buffer after [rte_pktmbuf_init]. *)
Record fresh (mpa : Z) (p : mbuf_pool) (a : Z) (m : rte_mbuf) : Prop := {
  f_pool : m_pool m = mpa; f_count : refcnt m = 0; f_bounds : in_bounds m; f_direct : RTE_MBUF_INDIRECT m = false; f_own : own_data true rte_mem_virt2phy a p m;
  f_room : data_off m = Z.min RTE_PKTMBUF_HEADROOM (mbuf_data_room_size (private p)) ∧ data_len m = 0 ∧ m_next m = NULL }.
(** The buffers [B] with those of [objs] initialised. *)
Definition with_fresh (mpa : Z) (p : mbuf_pool) (B : gmap Z rte_mbuf) (objs : list Z) (B' : gmap Z rte_mbuf) : Prop :=
  (∀ a, a ∈ objs → ∃ m, B' !! a = Some m ∧ fresh mpa p a m) ∧ (∀ a, a ∉ objs → B' !! a = B !! a).

Lemma pktmbuf_init_ok mpa p a B l B' : home true rte_mem_virt2phy a p → with_fresh mpa p B l B' → ∃ B2, rte_pktmbuf_init true rte_mem_virt2phy mpa p a B' = Some B2 ∧ with_fresh mpa p B (l ++ [a]) B2.
Proof.
  intros [Hadr Hpr Hro [pa Hpa]] [Hf Ho]. unfold is_u16, sizeof_rte_mbuf in *. unfold rte_pktmbuf_init, own_buffer. rewrite Hpa. cbn [mbind option_bind]. unfold rte_pktmbuf_priv_size, rte_pktmbuf_data_room_size, sizeof_rte_mbuf.
  rewrite (u32_small (128 + _)), (u64_small (a + _)), (u16_small (mbuf_data_room_size _)) by (unfold is_u32, is_u64, is_u16; lia). eexists. split; [done|]. split.
  - intros b Hb. destruct (decide (a = b)) as [<-|Hne]; [|rewrite lookup_insert_ne by done; apply Hf; apply elem_of_app in Hb as [|Hb%list_elem_of_singleton]; [done|congruence]]. rewrite lookup_insert_eq. eexists. split; [done|].
    split; [done|done| |done| |done]; unfold RTE_PKTMBUF_HEADROOM; [split; cbn; lia|]. split; cbn; unfold sizeof_rte_mbuf; [lia|done|done|]. by exists pa.
  - intros b Hb. rewrite not_elem_of_app, list_elem_of_singleton in Hb. rewrite lookup_insert_ne by (intros ->; tauto). apply Ho. tauto.
Qed.

(** A pool more. *)
Lemma inv_new_pool w R T mpa p cap objs B' : inv w R T [] → pools w !! mpa = None → NoDup objs → (∀ a, a ∈ objs → mbufs w !! a = None) → with_fresh mpa p (mbufs w) objs B' →
  (∀ a, a ∈ objs → home true rte_mem_virt2phy a p) → pool_rep (mempool p) cap objs → Z.of_nat (length objs) <= cap → inv (World B' (<[mpa := p]> (pools w))) R T [].
Proof.
  intros HI Hno Hnd Hnew [Hf Ho] Hhome Hrep Hlen. assert (Hold : ∀ a m, mbufs w !! a = Some m → B' !! a = Some m ∧ a ∉ objs ∧ m_pool m ≠ mpa).
  { intros a m Ha. assert (a ∉ objs) by (intros Hin; specialize (Hnew a Hin); congruence). rewrite Ho by done. split_and!; [done|done|]. destruct (i_ok _ _ _ _ _ _ HI a m Ha) as [(q & Hq & _) _ _ _ _]. congruence. }
  assert (Hcase : ∀ a m, B' !! a = Some m → mbufs w !! a = Some m ∨ a ∈ objs ∧ fresh mpa p a m). { intros a m Ha. destruct (decide (a ∈ objs)) as [Hin|Hin]; [right; split; [done|]; destruct (Hf a Hin) as (x & ? & ?); congruence|left; by rewrite <- Ho]. }
  split; cbn [mbufs pools].
  - intros a m Ha. destruct (Hcase a m Ha) as [Hw|[Hin [F1 F2 F3 F4 F5 _]]].
    + destruct (i_ok _ _ _ _ _ _ HI a m Hw) as [(q & Hq & ? & ?) H2 H3 H4 H5]. split; try done; [exists q; rewrite lookup_insert_ne by (by apply not_eq_sym, (Hold a m)); done|]. destruct (T !! a) as [d|]; [|done]. destruct H5 as (? & ? & ? & md & Hd & ?). split_and!; try done. exists md. split; [|done]. by apply Hold.
    + assert (T !! a = None) as HT by (destruct (T !! a) as [d|] eqn:E; [|done]; destruct (i_tgt _ _ _ _ _ _ HI a d E) as [x Hx]; specialize (Hnew a Hin); congruence). split; [| |lia|done|by rewrite HT].
      * exists p. rewrite F1, lookup_insert_eq. split_and!; [done|by apply Hhome|done].
      * assert (¬ 0 < own R a) by (rewrite own_in; intros HR; destruct (i_refs _ _ _ _ _ _ HI a HR) as [x Hx]; specialize (Hnew a Hin); congruence). pose proof (own_nonneg R a). assert (attached T a = 0); [|lia]. apply attached_0. intros i Hi.
        destruct (i_tgt _ _ _ _ _ _ HI i a Hi) as [x Hx]. destruct (i_ok _ _ _ _ _ _ HI i x Hx) as [_ _ _ _ Hk]. rewrite Hi in Hk. destruct Hk as (_ & _ & _ & md & Hd & _). specialize (Hnew a Hin). congruence.
  - intros i d Hi. destruct (i_tgt _ _ _ _ _ _ HI i d Hi) as [x Hx]. exists x. by apply Hold.
  - intros a Ha. destruct (i_refs _ _ _ _ _ _ HI a Ha) as [x Hx]. exists x. by apply Hold.
  - split; [by apply NoDup_nil_2|]. by intros a Ha%not_elem_of_nil.
  - intros mpb q Hq. destruct (decide (mpa = mpb)) as [<-|Hne].
    + rewrite lookup_insert_eq in Hq. simplify_eq. exists cap, objs, objs. split_and!; [done|done| |done|].
      * intros a. split; [intros Hin; split; [apply not_elem_of_nil|]; destruct (Hf a Hin) as (m & ? & []); by exists m|]. intros (_ & m & Ha & Hm & _). destruct (Hcase a m Ha) as [Hw|[? _]]; [|done]. by apply Hold in Hw as (_ & _ & ?).
      * intros a m Ha Hm. destruct (Hcase a m Ha) as [Hw|[? _]]; [|done]. by apply Hold in Hw as (_ & _ & ?).
    + rewrite lookup_insert_ne in Hq by done. destruct (i_pool _ _ _ _ _ _ HI mpb q Hq) as (cap' & free & objs' & ? & ? & Hfree & ? & Hobj). exists cap', free, objs'. split_and!; [done|done| |done|].
      * intros a. rewrite Hfree. split; intros (? & m & Ha & Hm & ?); (split; [done|]); exists m; split_and!; try done; [by apply Hold|]. destruct (Hcase a m Ha) as [|[_ []]]; [done|congruence].
      * intros a m Ha Hm. destruct (Hcase a m Ha) as [Hw|[_ []]]; [by eapply Hobj|congruence].
Qed.

Lemma with_fresh_place mpa mp mp' pv B l B' : place mp' = place mp → with_fresh mpa (MbufPool mp pv) B l B' → with_fresh mpa (MbufPool mp' pv) B l B'.
Proof.
  intros Hp [H1 H2]. split; [|done]. intros a Ha. destruct (H1 a Ha) as (m & Hm & []). exists m. split; [done|]. split; try done. by apply (own_data_place true rte_mem_virt2phy a (MbufPool mp pv)).
Qed.
Lemma filling_place mp mp' n : filling (mp <| mp_size := n |>) mp' → place mp' = place mp.
Proof. unfold filling, place. intros ->. done. Qed.

(** Creation with the callbacks of the library. *)
Lemma pool_created pl e nm n esize csize flags an mz arg mpa B : create_ok pl n esize csize sizeof_pktmbuf_pool_private an mz →
  let pv := rte_pktmbuf_pool_init (RTE_ALIGN_CEIL u32 esize sizeof_uint64) arg in is_u16 (mbuf_priv_size pv) → is_u16 (mbuf_data_room_size pv) → sizeof_rte_mbuf + mbuf_priv_size pv + mbuf_data_room_size pv <= RTE_ALIGN_CEIL u32 esize sizeof_uint64 →
  ∃ mp e' B' cap objs base size phys,
    rte_mempool_create pl e nm n esize csize sizeof_pktmbuf_pool_private (Some (pool_init_cb arg)) (Some (mbuf_init_cb true rte_mem_virt2phy mpa)) (PoolMemory (PoolPrivate 0 0) (Some B)) flags an = Some (Some mp, e', PoolMemory pv (Some B')) ∧
    let p := MbufPool mp pv in pool_rep mp cap objs ∧ Z.of_nat (length objs) = n ∧ n <= cap ∧ NoDup objs ∧ with_fresh mpa p B objs B' ∧ (∀ a, a ∈ objs → home true rte_mem_virt2phy a p) ∧
    a_mz an size = Some (base, phys) ∧ (∀ o, o ∈ objs → base <= o ∧ o + esize <= base + size) ∧ (∀ o o', o ∈ objs → o' ∈ objs → o ≠ o' → o + esize <= o' ∨ o' + esize <= o).
Proof.
  intros Hok pv Hpr Hro Hfit. pose proof (cr_n _ _ _ _ _ _ _ Hok) as [Hn _].
  destruct (create_run pl e nm n esize csize sizeof_pktmbuf_pool_private (Some (pool_init_cb arg)) (Some (mbuf_init_cb true rte_mem_virt2phy mpa)) (PoolMemory (PoolPrivate 0 0) (Some B)) flags an mz Hok) as
    (sz & k & a & addr & mp & Hk & Hnk & -> & Ha & Htot & Ht & He & Hh & Htr & (base & size & phys & Ez & Hb & Hin & Hbs) & Hrep & Hsize & Hhd & Hel & Hel8 & Hu & Hva & (pa & Hpa) & Hpn & Hps & Hnm & rings' & ->).
  set (objs := (λ k, addr + Z.of_nat k * sz_total sz + sz_header sz) <$> seq 0 (Z.to_nat n)). assert (Hhome : ∀ mp' a, place mp' = place mp → a ∈ objs → home true rte_mem_virt2phy a (MbufPool mp' pv)).
  { intros mp' o Hpl Ho. apply list_elem_of_fmap in Ho as (j & -> & Hj). apply elem_of_seq in Hj. assert ((Z.of_nat j + 1) * sz_total sz <= n * sz_total sz) by (apply Z.mul_le_mono_nonneg_r; lia). assert (0 <= Z.of_nat j * sz_total sz) by (apply Z.mul_nonneg_nonneg; lia).
    rewrite <- Hel8 in Hfit. unfold sizeof_rte_mbuf in *. pose proof Hpr as Hpr'. pose proof Hro as Hro'. unfold is_u16 in Hpr', Hro'. split; cbn [private]; [unfold sizeof_rte_mbuf; lia|done|done|]. cbn [mempool]. rewrite (place_virt2phy _ _ mp) by done. unfold rte_mempool_virt2phy. rewrite Hva, Hpa, Hps. rewrite u64_small by (unfold is_u64; lia). rewrite Z.shiftr_div_pow2, Z.div_small by lia. by eexists. }
  pose (Φ := λ (st : pool_memory) (l : list Z), pm_private st = pv ∧ ∃ B', pm_bufs st = Some B' ∧ with_fresh mpa (MbufPool mp pv) B l B').
  destruct (populate_run (Some (mbuf_init_cb true rte_mem_virt2phy mpa)) Φ mp (pool_init_cb arg mp (PoolMemory (PoolPrivate 0 0) (Some B))) (2 ^ k - 1) n (sz_total sz) addr pa Hrep) as (mp' & st' & -> & Hr & HΦ & Hs & Hfill).
  { intros mp2 st l o i Hf Ho (Hpm & B1 & HB1 & Hw). rewrite Hhd in Ho. assert (Hpl : place mp2 = place mp) by (unfold filling, place in *; by rewrite Hf). unfold mbuf_init_cb. split; [done|]. cbn [pm_bufs]. rewrite HB1, Hpm. cbn [mbind option_bind].
    destruct (pktmbuf_init_ok mpa (MbufPool mp2 pv) o B l B1) as (B2 & -> & Hw2); [by apply Hhome|by eapply with_fresh_place|]. exists B2. split; [done|]. by eapply with_fresh_place. }
  { split; [cbn; by rewrite Hel, Hel8|]. exists B. split; [done|]. split; [by intros x Hx%not_elem_of_nil|done]. }
  1-9: first [lia | done].
  cbn [mbind option_bind]. rewrite Hhd in Hr, HΦ. fold objs in Hr, HΦ. destruct HΦ as (Hpm & B' & HB' & Hw). pose proof (filling_place _ _ _ Hfill) as Hpl. destruct (objs_layout addr sz esize n base size) as (Hlen & Hnd & Hinside & Happart); [lia|done|lia..|].
  eexists mp', _, B', (2 ^ k - 1), objs, base, size, phys. split; [destruct st'; simpl in *; by subst|]. split_and!; [exact Hr|done|lia|done|by eapply with_fresh_place|intros o Ho; by apply Hhome|done|done|done].
Qed.
End pool.

Lemma nothing_ready virt2phy : ready true virt2phy (World ∅ ∅).
Proof. split; cbn [mbufs pools]; [by intros|by intros|by intros a Ha%not_elem_of_nil|split; [by apply NoDup_nil_2|by intros a Ha%not_elem_of_nil]|by intros]. Qed.

(** A pool made with [rte_pktmbuf_pool_create] in memory that is not used yet joins the others. *)
Theorem pktmbuf_pool_ready virt2phy w pl e nm n csize priv room an mz mpa k : ready true virt2phy w → pools w !! mpa = None → priv = 8 * k → is_u16 priv → is_u16 room →
  create_ok pl n (sizeof_rte_mbuf + priv + room) csize sizeof_pktmbuf_pool_private an mz → (∀ size base phys a, a_mz an size = Some (base, phys) → is_Some (mbufs w !! a) → a < base ∨ base + size <= a) →
  ∃ p e' B', rte_pktmbuf_pool_create true virt2phy pl e nm n csize priv room an mpa (mbufs w) = Some (Some p, e', B') ∧ private p = PoolPrivate room priv ∧ ready true virt2phy (World B' (<[mpa := p]> (pools w))) ∧
    ∃ objs, NoDup objs ∧ Z.of_nat (length objs) = n ∧ ∀ a, a ∈ objs → ∃ m, B' !! a = Some m ∧ fresh virt2phy mpa p a m.
Proof.
  intros Hr Hno Hk Hpr Hro Hok Hnew. unfold is_u16 in Hpr, Hro. set (esize := sizeof_rte_mbuf + priv + room) in *. destruct (align_ceil_bounds 32 3 esize ltac:(lia)) as [Hel _]; [unfold esize, sizeof_rte_mbuf; lia|unfold esize, sizeof_rte_mbuf; lia|].
  change (RTE_ALIGN_CEIL (λ x, x mod 2 ^ 32) esize (2 ^ 3)) with (RTE_ALIGN_CEIL u32 esize sizeof_uint64) in Hel.
  destruct (pool_created virt2phy pl e nm n esize csize 0 an mz (Some (PoolPrivate room priv)) mpa (mbufs w) Hok) as (mp & e' & B' & cap & objs & base & size & phys & Hc & Hrep & Hlen & Hcap & Hnd & Hw & Hhome & Hz & Hin & _); [done|done|cbn [rte_pktmbuf_pool_init mbuf_priv_size mbuf_data_room_size]; fold esize; lia|].
  exists (MbufPool mp (PoolPrivate room priv)), e', B'. split_and!; [|done| |exists objs; split_and!; [done|done|apply Hw]].
  - unfold rte_pktmbuf_pool_create. assert (RTE_ALIGN_CEIL i32 priv RTE_MBUF_PRIV_ALIGN = priv) as ->.
    { unfold RTE_ALIGN_CEIL, RTE_ALIGN_FLOOR, RTE_MBUF_PRIV_ALIGN. change (i32 (8 - 1)) with 7. change (i32 (Z.lnot 7)) with (Z.lnot 7). rewrite i32_small by lia. change 7 with (Z.ones 3). rewrite <- Z.ldiff_land, Z.ldiff_ones_r, Z.shiftr_div_pow2, Z.shiftl_mul_pow2 by lia. change (2 ^ 3) with 8. change (Z.ones 3) with 7. subst priv.
      replace (8 * k + 7) with (7 + k * 8) by lia. rewrite Z.div_add by lia. change (7 / 8) with 0. lia. }
    rewrite Z.eqb_refl. cbn [negb]. rewrite u32_small by (unfold is_u32, sizeof_rte_mbuf; lia). fold esize. rewrite Hc. done.
  - eapply inv_new_pool; try done; [|lia]. intros a Ha. destruct (mbufs w !! a) as [m|] eqn:E; [|done]. destruct (Hin a Ha). destruct (Hnew size base phys a Hz ltac:(by eexists)); [lia|]. unfold esize, sizeof_rte_mbuf in *. lia.
Qed.

(** The packet pool of the primary application: with memory for it,
    [init_mbuf_pools] succeeds and gives 1536 buffers per client and per port,
    all of them free, each with 2176 bytes of data room of which 128 are in
    front of the data, not overlapping, and ready for all calls on packets. *)
Theorem primary_pool_ready virt2phy pl a e an mz mpa : let n := (num_clients a + num_ports (ports a)) * 1536 in 0 <= num_clients a → 0 <= num_ports (ports a) →
  create_ok pl n MBUF_SIZE MBUF_CACHE_SIZE sizeof_pktmbuf_pool_private an mz →
  ∃ mp e' B', let p := MbufPool mp (PoolPrivate 2176 0) in
    init_mbuf_pools true pl a (pool_init_cb None) (mbuf_init_cb true virt2phy mpa) (PoolMemory (PoolPrivate 0 0) (Some ∅)) an e = Some (inr (0, Some mp, e', PoolMemory (private p) (Some B'))) ∧
    ready true virt2phy (World B' {[ mpa := p ]}) ∧
    ∃ objs, NoDup objs ∧ Z.of_nat (length objs) = n ∧ (∀ o, o ∈ objs → ∃ m, B' !! o = Some m ∧ fresh virt2phy mpa p o m ∧ buf_addr m = o + 128 ∧ buf_len m = 2176 ∧ data_off m = 128) ∧
      (∀ o o', o ∈ objs → o' ∈ objs → o ≠ o' → o + 2304 <= o' ∨ o' + 2304 <= o).
Proof.
  intros n Hc Hp Hok. pose proof (cr_n _ _ _ _ _ _ _ Hok) as [Hn _].
  destruct (pool_created virt2phy pl e Secondary.PKTMBUF_POOL_NAME n MBUF_SIZE MBUF_CACHE_SIZE 0 an mz None mpa ∅ Hok) as (mp & e' & B' & cap & objs & base & size & phys & Hcr & Hrep & Hlen & Hcap & Hnd & Hw & Hhome & _ & _ & Hap); [done|done|done|].
  change (rte_pktmbuf_pool_init (RTE_ALIGN_CEIL u32 MBUF_SIZE sizeof_uint64) None) with (PoolPrivate 2176 0) in *. exists mp, e', B'. split; [|split].
  - unfold init_mbuf_pools. assert (u32 (num_clients a * MBUFS_PER_CLIENT + num_ports (ports a) * MBUFS_PER_PORT) = n) as -> by (unfold MBUFS_PER_CLIENT, MBUFS_PER_PORT; rewrite u32_small by (unfold is_u32; lia); lia).
    change EthDev.sizeof_pktmbuf_pool_private with sizeof_pktmbuf_pool_private. rewrite Hcr. done.
  - change {[ mpa := MbufPool mp (PoolPrivate 2176 0) ]} with (<[mpa := MbufPool mp (PoolPrivate 2176 0)]> (pools (World ∅ ∅))). eapply inv_new_pool; try done; [apply nothing_ready|lia].
  - exists objs. split_and!; [done|done| |done]. intros o Ho. destruct (proj1 Hw o Ho) as (m & Hm & Hfr). pose proof Hfr as [F1 _ _ _ [O1 _ O3 _] (F6 & _)]. exists m. split_and!; [done|exact Hfr| |done|done]. rewrite O1. unfold sizeof_rte_mbuf. cbn. lia.
Qed.

(** ** A pool of seven buffers *)
Definition ex_answers : answers := Answers true (inl (Memzone 65536 0 (replicate 2048 0))) true (λ _, Some (2 ^ 20, 2 ^ 30)).
Definition ex_args : pargs := Pargs no_ports 1 None 0.
Lemma primary_pool_ready_witness : ∃ mp e' st, init_mbuf_pools true demo_plat ex_args (pool_init_cb None) (mbuf_init_cb true (λ _, 0) 4096) (PoolMemory (PoolPrivate 0 0) (Some ∅)) ex_answers demo_env = Some (inr (0, Some mp, e', st)).
Proof.
  destruct (primary_pool_ready (λ _, 0) demo_plat ex_args demo_env ex_answers (Memzone 65536 0 (replicate 2048 0)) 4096) as (mp & e' & B' & H & _); [simpl; lia|simpl; lia| |by eexists _, _, _].
  split; [done|by vm_compute|split; [simpl; lia|vm_compute; discriminate]|unfold RTE_MEMPOOL_CACHE_MAX_SIZE, MBUF_SIZE, MBUF_CACHE_SIZE, Primary.sizeof_rte_mbuf, EthDev.RTE_PKTMBUF_HEADROOM, sizeof_pktmbuf_pool_private; lia|by vm_compute|].
  split; [done|]. intros size Hs. eexists _, _. split; [done|]. split; [lia|]. split; [done|]. lia.
Defined.

Definition ex_create := rte_pktmbuf_pool_create true (λ _, 0) demo_plat demo_env "demo" 7 2 0 2048 demo_answers 4096 ∅.
Definition ex_w : world := match ex_create with Some (Some p, _, B) => World B {[ 4096 := p ]} | _ => World ∅ ∅ end.
Lemma ex_create_ok : create_ok demo_plat 7 (sizeof_rte_mbuf + 0 + 2048) 2 sizeof_pktmbuf_pool_private demo_answers demo_mz.
Proof.
  split; [done|by vm_compute|split; [lia|vm_compute; discriminate]|unfold RTE_MEMPOOL_CACHE_MAX_SIZE, sizeof_rte_mbuf, sizeof_pktmbuf_pool_private; lia|by vm_compute|].
  split; [done|]. intros size Hs. eexists _, _. split; [done|]. split; [lia|]. split; [done|]. lia.
Qed.
Lemma ex_ready : ready true (λ _, 0) ex_w ∧ is_Some (pools ex_w !! 4096).
Proof.
  destruct (pktmbuf_pool_ready (λ _, 0) (World ∅ ∅) demo_plat demo_env "demo" 7 2 0 2048 demo_answers demo_mz 4096 0 (nothing_ready _)) as (p & e' & B' & H & _ & Hr & _); [done|done|done|done|apply ex_create_ok|by intros ? ? ? ? ? []|].
  cbn [mbufs pools] in H, Hr. unfold ex_w, ex_create. rewrite H. split; [done|]. cbn [pools]. rewrite lookup_singleton_eq. by eexists.
Qed.
(** One buffer allocated, with its data made 64 bytes long. *)
Definition ex_a : Z := match rte_pktmbuf_alloc 0 4096 ex_w with Some (a, _) => a | None => 0 end.
Definition ex_w1 : world := match rte_pktmbuf_alloc 0 4096 ex_w with Some (_, w) => w | None => ex_w end.
Lemma ex_reach1 : reach true (λ _, 0) ex_w ex_w1 [[ex_a]] ∧ ex_a ≠ NULL.
Proof.
  assert (ex_a ≠ NULL) as Hne by (vm_compute; discriminate). split; [|done]. destruct ex_ready as [Hr Hp]. pose proof (reach_good true (λ _, 0) ex_w ex_w [] Hr (reach_start true (λ _, 0) ex_w)) as Hg. destruct (good_alloc true (λ _, 0) 0 4096 ex_w [] ltac:(lia) Hg Hp) as (a & w' & Hal & _).
  assert (ex_a = a) as Ea by (unfold ex_a; rewrite Hal; reflexivity). assert (ex_w1 = w') as Ew by (unfold ex_w1; rewrite Hal; reflexivity). rewrite Ea in Hne |- *. rewrite Ew. apply (reach_call true (λ _, 0) ex_w ex_w [] w' [[a]]); [apply reach_start|]. pose proof (call_alloc true (λ _, 0) ex_w [] 0 4096 a w' ltac:(lia) Hp Hal) as Hcall. destruct (Z.eqb_spec a NULL) as [E|_]; [contradiction|exact Hcall].
Qed.
Lemma mbuf_calls_safe_witness : is_Some (rte_pktmbuf_free true (λ _, 0) 1 1 ex_a ex_w1).
Proof.
  destruct (mbuf_calls_safe true (λ _, 0) ex_w ex_w1 [[ex_a]] (proj1 ex_ready) (proj1 ex_reach1)) as (_ & _ & _ & Hfree & _). apply (Hfree 1 [ex_a] 1%nat); [lia|left|simpl; lia].
Defined.
Lemma ex_room : count_room (mbufs ex_w1) 1.
Proof. assert (bool_decide (map_Forall (λ _ m, refcnt m + 1 < 2 ^ 16) (mbufs ex_w1)) = true) as H by (vm_compute; reflexivity). apply bool_decide_eq_true in H. intros b m Hb. by apply (H b m). Qed.
Lemma ex_pool1 : is_Some (pools ex_w1 !! 4096).
Proof. apply (bool_decide_eq_true (is_Some (pools ex_w1 !! 4096))). vm_compute. reflexivity. Qed.
Lemma mbuf_clone_shares_witness : ∃ mc w' cs, rte_pktmbuf_clone true (λ _, 0) 1 1 ex_a 4096 ex_w1 = Some (mc, w') ∧ chain (mbufs w') (mc :: cs) ∧ ∃ w'', rte_pktmbuf_free true (λ _, 0) 1 1 mc w' = Some w'' ∧ mbufs w'' !! ex_a = mbufs ex_w1 !! ex_a.
Proof.
  destruct (mbuf_clone_shares true (λ _, 0) ex_w ex_w1 [[ex_a]] 1 [ex_a] 1 4096 (proj1 ex_ready) (proj1 ex_reach1)) as (mc & w' & Hrun & _ & Hok); [lia|left|apply ex_pool1|apply ex_room|simpl; lia|].
  assert (fst <$> rte_pktmbuf_clone true (λ _, 0) 1 1 ex_a 4096 ex_w1 ≠ Some NULL) as Hne by (vm_compute; discriminate). simpl in Hrun. rewrite Hrun in Hne. destruct Hok as (cs & Hch & _ & _ & _ & _ & w'' & Hfree & Hsame); [intros ->; by apply Hne|].
  exists mc, w', cs. split; [done|]. split; [done|]. exists w''. split; [done|]. apply Hsame. left.
Defined.
Lemma mbuf_room_witness : ∃ ma w', mbufs ex_w1 !! ex_a = Some ma ∧ rte_pktmbuf_prepend ex_a 14 ex_w1 = Some (buf_addr ma + 114, w') ∧ rte_pktmbuf_adj ex_a 14 w' = Some (buf_addr ma + 128, ex_w1).
Proof.
  assert ((λ m, (data_off m, pkt_len m)) <$> (mbufs ex_w1 !! ex_a) = Some (128, 0)) as H0 by (vm_compute; reflexivity). destruct (mbufs ex_w1 !! ex_a) as [ma|] eqn:Ha; [|discriminate]. injection H0 as Hoff Hpk.
  destruct (mbuf_room true (λ _, 0) ex_w ex_w1 [[ex_a]] [] ex_a ma ma 14 1 (proj1 ex_ready) (proj1 ex_reach1)) as ((w' & H1 & _ & H2) & _); [left|unfold is_u16; lia|simpl; lia|exact Ha|exact Ha|rewrite Hpk; unfold is_u32; lia|].
  rewrite Hoff in H1, H2. destruct H2 as [_ H2]; [lia|]. change (128 <? 14) with false in H1. cbn in H1, H2. replace (buf_addr ma + 128 - 14) with (buf_addr ma + 114) in H1 by lia. exists ma, w'. split; [reflexivity|]. split; [exact H1|exact H2].
Defined.

(** A buffer that is freed by the last buffer attached to it keeps its link: a
    packet of two segments is cloned and freed, then its clone is freed. *)
Definition link_kept : option (Z * Z) :=
  '(a, w) ← rte_pktmbuf_alloc 0 4096 ex_w; '(b, w) ← rte_pktmbuf_alloc 0 4096 w; '(_, w) ← rte_pktmbuf_chain 2 a b w; '(c, w) ← rte_pktmbuf_clone true (λ _, 0) 0 2 a 4096 w;
  w ← rte_pktmbuf_free true (λ _, 0) 0 2 a w; w ← rte_pktmbuf_free true (λ _, 0) 0 2 c w; m ← mbufs w !! a; Some (refcnt m, m_next m).
Theorem free_buffer_linked : ∃ next, link_kept = Some (0, next) ∧ next ≠ NULL.
Proof. eexists. split; [vm_compute; reflexivity|done]. Qed.
