(* ===== verification/MbufConc.v ===== *)
(** * Reference counts of several threads

    [rte_mbuf_refcnt_update] step by step: it reads the count, and if that is 1
    it stores the new value without an atomic operation, since then nobody else
    has a reference; otherwise it adds atomically. Threads hold references to
    one buffer, add some, hand them to each other through rings, and free
    their own with [__rte_pktmbuf_prefree_seg], which puts the buffer back into
    its pool when the update returns 0. *)
From S2P Require Import Prelude Mbuf.
Open Scope Z_scope.

(** A thread with [k] references: outside the function, or in it with the value
    to add after it has read 1, or another count. *)
Inductive pc := Idle (k : nat) | ReadOne (k : nat) (v : Z) | ReadMore (k : nat) (v : Z).
Definition holds (p : pc) : nat := match p with Idle k | ReadOne k _ | ReadMore k _ => k end.
Record shared := Shared { cnt : Z; threads : list pc; frees : nat }.
Definition refs (l : list pc) : nat := sum_list_with holds l.

(** The first instruction of the function. *)
Definition read_count (cnt_ v : Z) (k : nat) : pc := if cnt_ =? 1 then ReadOne k v else ReadMore k v.
(** Its second one: the count, and the value returned. *)
Definition write_count (cnt_ : Z) (p : pc) : option (Z * Z) :=
  match p with
  | Idle _ => None
  | ReadOne _ v => Some (u16 (1 + v), u16 (1 + v))
  | ReadMore _ v => Some (u16 (cnt_ + v), u16 (cnt_ + v))
  end.
(** Without another thread in between they are the function of [Mbuf.v]. *)
Lemma update_steps a v w m k : mbufs w !! a = Some m →
  rte_mbuf_refcnt_update a v w = '(c, r) ← write_count (refcnt m) (read_count (refcnt m) v k); Some (r, set_mbuf a (m <| refcnt := c |>) w).
Proof. intros Ha. unfold rte_mbuf_refcnt_update, read_count, rte_mbuf_refcnt_read, rte_mbuf_refcnt_set. rewrite Ha. cbn [mbind option_bind]. by destruct (refcnt m =? 1). Qed.
Definition added (p : pc) : Z := match p with Idle _ => 0 | ReadOne _ v | ReadMore _ v => v end.

Inductive step (s : shared) : shared → Prop :=
| step_read t k v : threads s !! t = Some (Idle k) → (1 <= k)%nat → -1 <= v → step s (Shared (cnt s) (<[t := read_count (cnt s) v k]> (threads s)) (frees s))
| step_write t p c r : threads s !! t = Some p → write_count (cnt s) p = Some (c, r) → Z.of_nat (refs (threads s)) + added p < 2 ^ 16 →
    step s (Shared c (<[t := Idle (Z.to_nat (Z.of_nat (holds p) + added p))]> (threads s)) (if (added p <? 0) && (r =? 0) then S (frees s) else frees s))
| step_hand t u k j : t ≠ u → threads s !! t = Some (Idle (S k)) → threads s !! u = Some (Idle j) → step s (Shared (cnt s) (<[u := Idle (S j)]> (<[t := Idle k]> (threads s))) (frees s)).

Lemma refs_insert l t p q : l !! t = Some p → (refs (<[t := q]> l) + holds p = refs l + holds q)%nat.
Proof. revert t. unfold refs. induction l as [|x l IH]; intros [|t] H; simpl in *; simplify_eq; [lia|]. specialize (IH t H). lia. Qed.
Lemma holds_le l t p : l !! t = Some p → (holds p <= refs l)%nat.
Proof. intros H. pose proof (refs_insert l t p (Idle 0) H). simpl in *. lia. Qed.

Definition busy_ok (n : nat) (p : pc) : Prop := match p with Idle _ => True | ReadOne k v => k = 1%nat ∧ n = 1%nat ∧ -1 <= v | ReadMore k v => (1 <= k)%nat ∧ -1 <= v end.
Record conc_inv (s : shared) : Prop := {
  ci_count : cnt s = Z.of_nat (refs (threads s));
  ci_max : cnt s < 2 ^ 16;
  ci_busy : ∀ t p, threads s !! t = Some p → busy_ok (refs (threads s)) p;
  ci_frees : frees s = if decide (refs (threads s) = 0%nat) then 1%nat else 0%nat }.

Lemma busy_insert l t p n : (∀ u q, l !! u = Some q → busy_ok (refs l) q) → busy_ok n p → (∀ u q, u ≠ t → l !! u = Some q → busy_ok (refs l) q → busy_ok n q) → ∀ u q, <[t := p]> l !! u = Some q → busy_ok n q.
Proof. intros Hb Hp Ho u q Hq. apply list_lookup_insert_Some in Hq as [(<- & <- & _)|(Hne & Hq)]; [done|]. eapply Ho; [by apply not_eq_sym|done|by eapply Hb]. Qed.
(** While a thread has read 1, all others hold nothing. *)
Lemma busy_other l t p u q n : l !! t = Some p → (1 <= holds p)%nat → u ≠ t → l !! u = Some q → busy_ok (refs l) q → busy_ok n q.
Proof.
  intros Ht Hp Hne Hu. destruct q as [k|k v|k v]; simpl; [done| |done]. intros (-> & Hn & _). exfalso. pose proof (refs_insert l u _ (Idle 0) Hu) as E. simpl in E. assert (<[u := Idle 0]> l !! t = Some p) as Ht' by (by rewrite list_lookup_insert_ne). pose proof (holds_le _ _ _ Ht'). lia.
Qed.
Lemma count_step_inv s s' : conc_inv s → step s s' → conc_inv s'.
Proof.
  intros [Hc Hm Hb Hf] Hs. destruct Hs as [t k v Ht Hk Hv|t p c r Ht Hw Hmax|t u k j Hne Ht Hu].
  - pose proof (holds_le _ _ _ Ht) as Hle. simpl in Hle. assert (E : refs (<[t := read_count (cnt s) v k]> (threads s)) = refs (threads s)) by (pose proof (refs_insert _ t _ (read_count (cnt s) v k) Ht) as E; unfold read_count in *; destruct (cnt s =? 1); simpl in *; lia).
    split; cbn [cnt threads frees]; rewrite ?E; [done|done| |done]. apply busy_insert; [done| |done]. unfold read_count. destruct (Z.eqb_spec (cnt s) 1); simpl; lia.
  - assert (Hh : (1 <= holds p)%nat ∧ -1 <= added p ∧ c = cnt s + added p ∧ r = c). { specialize (Hb t p Ht). pose proof (holds_le _ _ _ Ht) as Hle. destruct p as [k|k v|k v]; simpl in *; simplify_eq; rewrite u16_small by (unfold is_u16; lia); lia. }
    destruct Hh as (Hh & Hv & -> & ->). pose proof (refs_insert _ t _ (Idle (Z.to_nat (Z.of_nat (holds p) + added p))) Ht) as E. pose proof (holds_le _ _ _ Ht) as Hle. simpl in E. split; cbn [cnt threads frees]; [lia|lia| |].
    + apply busy_insert; [done|done|]. intros w q Hne Hq. apply (busy_other _ t p w q _ Ht Hh Hne Hq).
    + rewrite decide_False in Hf by lia. rewrite Hf. destruct (Z.ltb_spec (added p) 0), (Z.eqb_spec (cnt s + added p) 0); simpl; case_decide; lia.
  - pose proof (refs_insert _ t _ (Idle k) Ht) as E1. assert (Hu' : <[t := Idle k]> (threads s) !! u = Some (Idle j)) by (by rewrite list_lookup_insert_ne). pose proof (refs_insert _ u _ (Idle (S j)) Hu') as E2. simpl in E1, E2.
    split; cbn [cnt threads frees]; [lia|lia| |]; replace (refs (<[u := Idle (S j)]> (<[t := Idle k]> (threads s)))) with (refs (threads s)) by lia; [|done]. intros x q Hq. apply list_lookup_insert_Some in Hq as [(_ & <- & _)|(_ & Hq)]; [done|]. apply list_lookup_insert_Some in Hq as [(_ & <- & _)|(_ & Hq)]; [done|by eapply Hb].
Qed.

(** C37: However threads interleave the two instructions of
    [rte_mbuf_refcnt_update], handing references to each other in between, the
    count is the number of references they hold, the store without an atomic
    operation overwrites no update of another thread, and the buffer goes back
    to its pool exactly once, when the last reference is gone. *)
Theorem refcnt_last_frees c0 l0 s : c0 = Z.of_nat (refs l0) → 1 <= c0 < 2 ^ 16 → Forall (λ p, ∃ k, p = Idle k) l0 → rtc step (Shared c0 l0 0) s →
  cnt s = Z.of_nat (refs (threads s)) ∧ (frees s <= 1)%nat ∧ (frees s = 1%nat ↔ refs (threads s) = 0%nat) ∧
  (∀ t k v, threads s !! t = Some (ReadOne k v) → cnt s = 1 ∧ ∀ u q, u ≠ t → threads s !! u = Some q → q = Idle 0) ∧
  (∀ t p, threads s !! t = Some p → cnt s + added p < 2 ^ 16 → p = Idle (holds p) ∨ write_count (cnt s) p = Some (cnt s + added p, cnt s + added p)).
Proof.
  intros Hc0 H1 HI Hrun. assert (Hinv : conc_inv s).
  { remember (Shared c0 l0 0) as s0 eqn:E0. assert (conc_inv s0) as H0. { subst s0. split; cbn [cnt threads frees]; [done|lia| |by rewrite decide_False by lia]. intros t p Hp. rewrite Forall_forall in HI. destruct (HI p) as [k ->]; [by eapply list_elem_of_lookup_2|done]. }
    clear E0 Hc0 H1 HI. induction Hrun as [|x y z Hs _ IH]; [done|]. apply IH. by eapply count_step_inv. }
  destruct Hinv as [Hc Hm Hb Hf]. split_and!; [done|rewrite Hf; case_decide; lia|rewrite Hf; case_decide; lia| |].
  - intros t k v Ht. destruct (Hb _ _ Ht) as (-> & Hn & _). split; [lia|]. intros u q Hne Hq. pose proof (refs_insert _ _ _ (Idle 0) Ht) as E. simpl in E. assert (<[t := Idle 0]> (threads s) !! u = Some q) as Hq' by (by rewrite list_lookup_insert_ne).
    pose proof (holds_le _ _ _ Hq') as Hle. specialize (Hb _ _ Hq). destruct q as [j|j x|j x]; simpl in *; [f_equal; lia|lia|lia].
  - intros t p Hp Hlt. specialize (Hb t p Hp). pose proof (holds_le _ _ _ Hp) as Hle. destruct p as [k|k v|k v]; cbn [holds added write_count busy_ok] in *; [by left|right..].
    + rewrite u16_small by (unfold is_u16; lia). replace (1 + v) with (cnt s + v) by lia. done.
    + rewrite u16_small by (unfold is_u16; lia). done.
Qed.
(** Two holders free at the same time; the second one has read 1. *)
Lemma refcnt_last_frees_witness : ∃ s, rtc step (Shared 2 [Idle 1; Idle 1] 0) s ∧ frees s = 1%nat ∧ refs (threads s) = 0%nat.
Proof.
  assert (∃ s, rtc step (Shared 2 [Idle 1; Idle 1] 0) s ∧ refs (threads s) = 0%nat) as (s & Hrun & Hz).
  { eexists. split.
    - eapply rtc_l; [apply (step_read _ 0 1 (-1)); [done|lia|lia]|]. eapply rtc_l; [apply (step_write _ 0 (ReadMore 1 (-1)) 1 1); [done|done|simpl; lia]|].
      eapply rtc_l; [apply (step_read _ 1 1 (-1)); [done|lia|lia]|]. eapply rtc_l; [apply (step_write _ 1 (ReadOne 1 (-1)) 0 0); [done|done|simpl; lia]|]. apply rtc_refl.
    - done. }
  destruct (refcnt_last_frees 2 [Idle 1; Idle 1] s) as (_ & _ & H & _); [done|lia|by repeat (constructor; [by eexists|])|done|]. exists s. split; [done|]. split; [by apply H|done].
Defined.
