(* ===== verification/VirtQueue.v ===== *)
(** * Packets between the host and a guest

    [lib/librte_vhost/vhost_rxtx.c] and the inline functions of
    [rte_virtio_net.h]: [rte_vhost_enqueue_burst] copies packets into buffers
    the guest has made available, with and without mergeable buffers, and
    [rte_vhost_dequeue_burst] copies packets of the guest into new buffers of
    the host. Memory is a map from addresses to bytes, where an address that is
    not in the map is not mapped; the rings shared with the guest are at the
    addresses the queue has for them. One core works on a queue at a time, and
    the guest adds nothing to it during a call. *)
From S2P Require Import Prelude Ring Mempool MempoolInit Mbuf.
Open Scope Z_scope.

Definition VIRTIO_RXQ : Z := 0.
Definition VIRTIO_TXQ : Z := 1.
Definition VIRTIO_QNUM : Z := 2.
Definition MAX_PKT_BURST : Z := 32.
Definition BUF_VECTOR_MAX : Z := 256.
Definition VRING_DESC_F_NEXT : Z := 1.
Definition VRING_AVAIL_F_NO_INTERRUPT : Z := 1.
Definition VRING_USED_F_NO_NOTIFY : Z := 1.
Definition VIRTIO_NET_F_MRG_RXBUF : Z := 15.

(** ** The rings and the queues *)

Record vring_desc := VringDesc { d_addr : Z; d_len : Z; d_flags : Z; d_next : Z }.
Record vring_avail := VringAvail { av_flags : Z; av_idx : Z; av_ring : list Z }.
Record vring_used := VringUsed { us_flags : Z; us_idx : Z; us_ring : list (Z * Z) }.
#[export] Instance vring_used_upd : Updatable vring_used := λ u, VringUsed (us_flags u) (us_idx u) (us_ring u).
Record buf_vector := BufVector { bv_addr : Z; bv_len : Z; bv_desc_idx : Z }.

Record vhost_virtqueue := Virtqueue {
  desc : Z; avail : Z; used : Z; vq_size : Z; backend : Z; vhost_hlen : Z; last_used_idx : Z; last_used_idx_res : Z; callfd : Z; kickfd : Z; enabled : Z; buf_vec : list buf_vector }.
#[export] Instance vhost_virtqueue_upd : Updatable vhost_virtqueue := λ q,
  Virtqueue (desc q) (avail q) (used q) (vq_size q) (backend q) (vhost_hlen q) (last_used_idx q) (last_used_idx_res q) (callfd q) (kickfd q) (enabled q) (buf_vec q).

Record virtio_memory_regions := MemRegion { guest_phys_address : Z; guest_phys_address_end : Z; memory_size : Z; userspace_address : Z; address_offset : Z }.
Record virtio_memory := VirtioMemory { base_address : Z; mapped_address : Z; mapped_size : Z; regions : list virtio_memory_regions }.
(** [virtqueue] has the addresses of the queues, [mem] is NULL or the regions. *)
Record virtio_net := VirtioNet { mem : option virtio_memory; features : Z; protocol_features : Z; device_fh : Z; flags : Z; ifname : string; virt_qp_nb : Z; virtqueue : list Z }.
#[export] Instance virtio_net_upd : Updatable virtio_net := λ d,
  VirtioNet (mem d) (features d) (protocol_features d) (device_fh d) (flags d) (ifname d) (virt_qp_nb d) (virtqueue d).

(** The memory: bytes, the rings of the guest, the queues, the packet buffers,
    and the file descriptors the guest was notified with. *)
Record vworld := VWorld { bytes : gmap Z Z; descs : gmap Z (list vring_desc); avails : gmap Z vring_avail; useds : gmap Z vring_used; vqs : gmap Z vhost_virtqueue; pkts : world; kicks : list Z }.
#[export] Instance vworld_upd : Updatable vworld := λ w, VWorld (bytes w) (descs w) (avails w) (useds w) (vqs w) (pkts w) (kicks w).

(** ** Copying bytes *)

Definition range (a n : Z) : list Z := seqZ a n.
(** A byte from each source to each destination, in order. *)
Fixpoint move (ps : list (Z * Z)) (m : gmap Z Z) : option (gmap Z Z) :=
  match ps with
  | [] => Some m
  | (d, s) :: ps => b ← m !! s; _ ← m !! d; move ps (<[d := b]> m)
  end.
(** Overlapping ranges are not allowed. *)
Definition rte_memcpy (dst src n : Z) (m : gmap Z Z) : option (gmap Z Z) :=
  if (0 <? n) && (dst <? src + n) && (src <? dst + n) then None else move (zip (range dst n) (range src n)) m.
Fixpoint write_bytes (a : Z) (l : list Z) (m : gmap Z Z) : option (gmap Z Z) :=
  match l with
  | [] => Some m
  | b :: l => _ ← m !! a; write_bytes (a + 1) l (<[a := b]> m)
  end.

Definition has_next (d : vring_desc) : bool := negb (Z.land (d_flags d) VRING_DESC_F_NEXT =? 0).
Definition get_desc (vq : vhost_virtqueue) (i : Z) (w : vworld) : option vring_desc := ds ← descs w !! desc vq; load ds i.
Definition set_used (vq : vhost_virtqueue) (i id len : Z) (w : vworld) : option vworld :=
  u ← useds w !! used vq;
  r ← store (us_ring u) i (id, len);
  Some (w <| useds := <[used vq := u <| us_ring := r |>]> (useds w) |>).

Fixpoint find_region (guest_pa : Z) (l : list virtio_memory_regions) : Z :=
  match l with
  | [] => guest_pa
  | region :: l => if (guest_phys_address region <=? guest_pa) && (guest_pa <=? guest_phys_address_end region) then u64 (address_offset region + guest_pa) else find_region guest_pa l
  end.
(** [None] when the device has no memory table. *)
Definition gpa_to_vva (dev : virtio_net) (guest_pa : Z) : option Z := m ← mem dev; Some (find_region guest_pa (regions m)).

Definition is_valid_virt_queue_idx (idx is_tx qp_nb : Z) : bool := (Z.lxor is_tx (Z.land idx 1) =? 0) && (idx <? u32 (qp_nb * VIRTIO_QNUM)).

(** The queue of a device, which must exist. *)
Definition get_vq (dev : virtio_net) (queue_id : Z) (w : vworld) : option (Z * vhost_virtqueue) :=
  a ← load (virtqueue dev) queue_id; vq ← vqs w !! a; Some (a, vq).
Definition set_vq (a : Z) (vq : vhost_virtqueue) (w : vworld) : vworld := w <| vqs := <[a := vq]> (vqs w) |>.

Definition rte_vring_available_entries (dev : virtio_net) (queue_id : Z) (w : vworld) : option Z :=
  '(_, vq) ← get_vq dev queue_id w;
  if enabled vq =? 0 then Some 0 else
  av ← avails w !! avail vq; Some (u16 (av_idx av - last_used_idx_res vq)).

(** The [n] entries of the available ring from [idx] on. *)
Definition get_heads (vq : vhost_virtqueue) (idx n : Z) (w : vworld) : option (list Z) :=
  av ← avails w !! avail vq; mapM (λ i, load (av_ring av) (Z.land (idx + i) (vq_size vq - 1))) (seqZ 0 n).

(** [used->idx += n], and the notification of the guest. *)
Definition add_used (vq : vhost_virtqueue) (n : Z) (w : vworld) : option vworld :=
  u ← useds w !! used vq; Some (w <| useds := <[used vq := u <| us_idx := u16 (us_idx u + n) |>]> (useds w) |>).
Definition kick_guest (vq : vhost_virtqueue) (w : vworld) : option vworld :=
  av ← avails w !! avail vq;
  Some (if Z.land (av_flags av) VRING_AVAIL_F_NO_INTERRUPT =? 0 then w <| kicks := kicks w ++ [callfd vq] |> else w).

(** [struct virtio_net_hdr_mrg_rxbuf] with all fields but the last zero. *)
Definition hdr_bytes (num_buffers : Z) : list Z := replicate 10 0 ++ [num_buffers mod 256; num_buffers / 256].
Definition write_hdr (a num_buffers hlen : Z) (m : gmap Z Z) : option (gmap Z Z) :=
  if 12 <? hlen then None else write_bytes a (take (Z.to_nat hlen) (hdr_bytes num_buffers)) m.

Section rxtx.
Context (hugepages : bool) (rte_mem_virt2phy : Z → Z) (lcore : Z) (dev : virtio_net).

(** ** Packets to the guest, one descriptor chain each *)

(** The copy loop of a packet. [d] is the descriptor in use and [va] the address
    of its buffer, [a] the segment in use; the result says whether there was no
    room for the whole packet. *)
Fixpoint rx_copy (fuel : nat) (vq : vhost_virtqueue) (plen : Z) (d : vring_desc) (va a offset vb_offset dlen len_to_cpy total_copied : Z) (w : vworld) : option (bool * vworld) :=
  if negb (total_copied <? plen) then Some (false, w) else
  match fuel with
  | O => None
  | S fuel =>
      m ← mbufs (pkts w) !! a;
      by' ← rte_memcpy (u64 (va + vb_offset)) (rte_pktmbuf_mtod_offset m offset) len_to_cpy (bytes w);
      let w := w <| bytes := by' |> in
      let offset := u32 (offset + len_to_cpy) in
      let vb_offset := u32 (vb_offset + len_to_cpy) in
      let total_copied := u32 (total_copied + len_to_cpy) in
      if total_copied =? plen then Some (false, w) else
      '(a, offset, dlen) ← (if offset =? dlen then m' ← mbufs (pkts w) !! m_next m; Some (m_next m, 0, data_len m') else Some (a, offset, dlen));
      if vb_offset =? d_len d then
        if has_next d then
          d' ← get_desc vq (d_next d) w;
          va ← gpa_to_vva dev (d_addr d');
          rx_copy fuel vq plen d' va a offset 0 dlen (Z.min (u32 (dlen - offset)) (u32 (d_len d' - 0))) total_copied w
        else Some (true, w)
      else rx_copy fuel vq plen d va a offset vb_offset dlen (Z.min (u32 (dlen - offset)) (u32 (d_len d - vb_offset))) total_copied w
  end.

(** One packet, for the descriptor chain that starts with [head]; the entry
    [res_cur_idx] of the used ring gets it. *)
Definition rx_packet (fuel : nat) (vq : vhost_virtqueue) (head res_cur_idx buff : Z) (w : vworld) : option vworld :=
  d ← get_desc vq head w;
  buff_hdr_addr ← gpa_to_vva dev (d_addr d);
  '(d, buff_addr, vb_offset, hdr) ←
    (if has_next d && (d_len d =? vhost_hlen vq) then
       d' ← get_desc vq (d_next d) w; va ← gpa_to_vva dev (d_addr d'); Some (d', va, 0, false)
     else Some (d, buff_hdr_addr, vhost_hlen vq, true));
  m ← mbufs (pkts w) !! buff;
  let len_to_cpy := Z.min (data_len m) (if (hdr : bool) then u32 (d_len d - vhost_hlen vq) else d_len d) in
  '(uncompleted_pkt, w) ← rx_copy fuel vq (pkt_len m) d buff_addr buff 0 vb_offset (data_len m) len_to_cpy 0 w;
  let idx := Z.land res_cur_idx (vq_size vq - 1) in
  w ← set_used vq idx head (if (uncompleted_pkt : bool) then vhost_hlen vq else u32 (pkt_len m + vhost_hlen vq)) w;
  if (uncompleted_pkt : bool) then Some w else
  by' ← write_hdr buff_hdr_addr 0 (vhost_hlen vq) (bytes w);
  Some (w <| bytes := by' |>).

Fixpoint rx_loop (n : nat) (fuel : nat) (vq : vhost_virtqueue) (heads bufs : list Z) (packet_success res_cur_idx res_end_idx : Z) (w : vworld) : option vworld :=
  if res_cur_idx =? res_end_idx then Some w else
  match n with
  | O => None
  | S n =>
      head ← load heads packet_success;
      buff ← load bufs packet_success;
      w ← rx_packet fuel vq head res_cur_idx buff w;
      rx_loop n fuel vq heads bufs (packet_success + 1) (u16 (res_cur_idx + 1)) res_end_idx w
  end.

(** [fuel] is for the copy loop of each packet. On one core the reservation
    succeeds at once, and waiting for the turn of another core would not end. *)
Definition virtio_dev_rx (fuel : nat) (queue_id : Z) (bufs : list Z) (count : Z) (w : vworld) : option (Z * vworld) :=
  if negb (is_valid_virt_queue_idx queue_id 0 (virt_qp_nb dev)) then Some (0, w) else
  '(q, vq) ← get_vq dev queue_id w;
  if enabled vq =? 0 then Some (0, w) else
  let count := if count >? MAX_PKT_BURST then MAX_PKT_BURST else count in
  let res_base_idx := last_used_idx_res vq in
  av ← avails w !! avail vq;
  let free_entries := u16 (av_idx av - res_base_idx) in
  let count := if count >? free_entries then free_entries else count in
  if count =? 0 then Some (0, w) else
  let res_end_idx := u16 (res_base_idx + count) in
  let vq := vq <| last_used_idx_res := res_end_idx |> in
  let w := set_vq q vq w in
  heads ← get_heads vq res_base_idx count w;
  w ← rx_loop (Z.to_nat MAX_PKT_BURST) fuel vq heads bufs 0 res_base_idx res_end_idx w;
  if negb (last_used_idx vq =? res_base_idx) then None else
  w ← add_used vq count w;
  let w := set_vq q (vq <| last_used_idx := res_end_idx |>) w in
  w ← kick_guest vq w;
  Some (count, w).

(** ** Packets to the guest in mergeable buffers *)

(** The copy loop of [copy_from_mbuf_to_vring]. [vec] is what is left of
    [buf_vec], with the buffer in use first; [a] is the segment in use. The
    result is [entry_success]. *)
Definition used_entry (vq : vhost_virtqueue) (cur_idx entry_len : Z) (b : buf_vector) (w : vworld) : option vworld :=
  set_used vq (Z.land cur_idx (vq_size vq - 1)) (bv_desc_idx b) entry_len w.
(** The end of the buffer in use: if it is the last of its chain the entry is
    complete. The results are [cur_idx], [entry_success] and [entry_len]. *)
Definition end_of_buffer (vq : vhost_virtqueue) (cur_idx entry_success entry_len : Z) (b : buf_vector) (w : vworld) : option (Z * Z * Z * vworld) :=
  d ← get_desc vq (bv_desc_idx b) w;
  if has_next d then Some (cur_idx, entry_success, entry_len, w)
  else w ← used_entry vq cur_idx entry_len b w; Some (u16 (cur_idx + 1), u32 (entry_success + 1), 0, w).
Fixpoint merge_copy (fuel : nat) (vq : vhost_virtqueue) (vec_idx va vb_offset vb_avail a seg_offset seg_avail cpy_len cur_idx entry_success entry_len : Z) (w : vworld) : option (Z * vworld) :=
  if negb (0 <? cpy_len) then Some (entry_success, w) else
  match fuel with
  | O => None
  | S fuel =>
      m ← mbufs (pkts w) !! a;
      by' ← rte_memcpy (u64 (va + vb_offset)) (rte_pktmbuf_mtod_offset m seg_offset) cpy_len (bytes w);
      let w := w <| bytes := by' |> in
      let seg_offset := u32 (seg_offset + cpy_len) in
      let vb_offset := u32 (vb_offset + cpy_len) in
      let seg_avail := u32 (seg_avail - cpy_len) in
      let vb_avail := u32 (vb_avail - cpy_len) in
      let entry_len := u32 (entry_len + cpy_len) in
      b ← load (buf_vec vq) vec_idx;
      if negb (seg_avail =? 0) then
        '(cur_idx, entry_success, entry_len, w) ← end_of_buffer vq cur_idx entry_success entry_len b w;
        b ← load (buf_vec vq) (vec_idx + 1);
        va ← gpa_to_vva dev (bv_addr b);
        merge_copy fuel vq (vec_idx + 1) va 0 (bv_len b) a seg_offset seg_avail (Z.min (bv_len b) seg_avail) cur_idx entry_success entry_len w
      else
        let a := m_next m in
        if negb (a =? NULL) then
          '(vec_idx, va, vb_avail, vb_offset, cur_idx, entry_success, entry_len, w) ←
            (if vb_avail =? 0 then
               '(cur_idx, entry_success, entry_len, w) ← end_of_buffer vq cur_idx entry_success entry_len b w;
               b ← load (buf_vec vq) (vec_idx + 1);
               va ← gpa_to_vva dev (bv_addr b);
               Some (vec_idx + 1, va, bv_len b, 0, cur_idx, entry_success, entry_len, w)
             else Some (vec_idx, va, vb_avail, vb_offset, cur_idx, entry_success, entry_len, w));
          m ← mbufs (pkts w) !! a;
          merge_copy fuel vq vec_idx va vb_offset vb_avail a 0 (data_len m) (Z.min vb_avail (data_len m)) cur_idx entry_success entry_len w
        else
          w ← used_entry vq cur_idx entry_len b w;
          Some (u32 (entry_success + 1), w)
  end.
Definition copy_from_mbuf_to_vring (fuel : nat) (queue_id res_base_idx res_end_idx a : Z) (w : vworld) : option (Z * vworld) :=
  if a =? NULL then Some (0, w) else
  '(_, vq) ← get_vq dev queue_id w;
  b ← load (buf_vec vq) 0;
  va ← gpa_to_vva dev (bv_addr b);
  by' ← write_hdr va (u16 (res_end_idx - res_base_idx)) (vhost_hlen vq) (bytes w);
  let w := w <| bytes := by' |> in
  m ← mbufs (pkts w) !! a;
  let seg_avail := data_len m in
  let vb_offset := vhost_hlen vq in
  let vb_avail := u32 (bv_len b - vhost_hlen vq) in
  let entry_len := vhost_hlen vq in
  '(vec_idx, va, vb_offset, vb_avail, cur_idx, entry_success, entry_len, w) ←
    (if vb_avail =? 0 then
       '(cur_idx, entry_success, entry_len, w) ← end_of_buffer vq res_base_idx 0 entry_len b w;
       b ← load (buf_vec vq) 1;
       va ← gpa_to_vva dev (bv_addr b);
       Some (1, va, 0, bv_len b, cur_idx, entry_success, entry_len, w)
     else Some (0, va, vb_offset, vb_avail, res_base_idx, 0, entry_len, w));
  merge_copy fuel vq vec_idx va vb_offset vb_avail a 0 seg_avail (Z.min vb_avail seg_avail) cur_idx entry_success entry_len w.

(** The buffers of the chain of the entry [id] are appended to [buf_vec]. *)
Fixpoint secure_loop (fuel : nat) (vq : vhost_virtqueue) (idx len vec_id : Z) (vec : list buf_vector) (w : vworld) : option (Z * Z * list buf_vector) :=
  match fuel with
  | O => None
  | S fuel =>
      d ← get_desc vq idx w;
      let len := u32 (len + d_len d) in
      vec ← store vec vec_id (BufVector (d_addr d) (d_len d) idx);
      if has_next d then secure_loop fuel vq (d_next d) len (u32 (vec_id + 1)) vec w else Some (len, u32 (vec_id + 1), vec)
  end.
Definition update_secure_len (fuel : nat) (vq : vhost_virtqueue) (id secure_len vec_idx : Z) (vec : list buf_vector) (w : vworld) : option (Z * Z * list buf_vector) :=
  av ← avails w !! avail vq;
  idx ← load (av_ring av) (Z.land id (vq_size vq - 1));
  secure_loop fuel vq idx secure_len vec_idx vec w.

(** Entries are reserved until they have room for [plen] bytes; [inl] is the
    exit for lack of them. [n] is for the entries, [fuel] for each chain. *)
Fixpoint reserve_entries (n fuel : nat) (vq : vhost_virtqueue) (plen res_cur_idx secure_len vec_idx : Z) (vec : list buf_vector) (w : vworld) : option (list buf_vector + Z * list buf_vector) :=
  match n with
  | O => None
  | S n =>
      av ← avails w !! avail vq;
      if res_cur_idx =? av_idx av then Some (inl vec) else
      '(secure_len, vec_idx, vec) ← update_secure_len fuel vq res_cur_idx secure_len vec_idx vec w;
      let res_cur_idx := u16 (res_cur_idx + 1) in
      if plen >? secure_len then reserve_entries n fuel vq plen res_cur_idx secure_len vec_idx vec w else Some (inr (res_cur_idx, vec))
  end.

Fixpoint merge_loop (k n fuel : nat) (queue_id : Z) (bufs : list Z) (pkt_idx : Z) (w : vworld) : option (Z * vworld) :=
  match k with
  | O => Some (pkt_idx, w)
  | S k =>
      '(q, vq) ← get_vq dev queue_id w;
      a ← load bufs pkt_idx;
      m ← mbufs (pkts w) !! a;
      let plen := u32 (pkt_len m + vhost_hlen vq) in
      let res_base_idx := last_used_idx_res vq in
      r ← reserve_entries n fuel vq plen res_base_idx 0 0 (buf_vec vq) w;
      match r with
      | inl vec => Some (pkt_idx, set_vq q (vq <| buf_vec := vec |>) w)
      | inr (res_cur_idx, vec) =>
          let vq := vq <| buf_vec := vec |> <| last_used_idx_res := res_cur_idx |> in
          let w := set_vq q vq w in
          '(entry_success, w) ← copy_from_mbuf_to_vring fuel queue_id res_base_idx res_cur_idx a w;
          if negb (last_used_idx vq =? res_base_idx) then None else
          w ← add_used vq entry_success w;
          merge_loop k n fuel queue_id bufs (pkt_idx + 1) (set_vq q (vq <| last_used_idx := res_cur_idx |>) w)
      end
  end.
Definition virtio_dev_merge_rx (n fuel : nat) (queue_id : Z) (bufs : list Z) (count : Z) (w : vworld) : option (Z * vworld) :=
  if negb (is_valid_virt_queue_idx queue_id 0 (virt_qp_nb dev)) then Some (0, w) else
  '(_, vq) ← get_vq dev queue_id w;
  if enabled vq =? 0 then Some (0, w) else
  let count := Z.min MAX_PKT_BURST count in
  if count =? 0 then Some (0, w) else
  '(pkt_idx, w) ← merge_loop (Z.to_nat count) n fuel queue_id bufs 0 w;
  if pkt_idx =? 0 then Some (0, w) else
  w ← kick_guest vq w; Some (pkt_idx, w).

Definition rte_vhost_enqueue_burst (n fuel : nat) (queue_id : Z) (bufs : list Z) (count : Z) (w : vworld) : option (Z * vworld) :=
  if negb (Z.land (features dev) (Z.shiftl 1 VIRTIO_NET_F_MRG_RXBUF) =? 0) then virtio_dev_merge_rx n fuel queue_id bufs count w
  else virtio_dev_rx fuel queue_id bufs count w.

(** ** Packets from the guest *)

Definition upd_pkt (a : Z) (f : rte_mbuf → rte_mbuf) (w : vworld) : option vworld := p ← upd_mbuf a f (pkts w); Some (w <| pkts := p |>).
Definition alloc_pkt (mbuf_pool : Z) (w : vworld) : option (Z * vworld) := '(a, p) ← rte_pktmbuf_alloc lcore mbuf_pool (pkts w); Some (a, w <| pkts := p |>).

(** The segment [cur] is full: its length is set, and a new segment is linked
    to it, or the packet is given up, which is [None] inside. *)
Definition next_segment (fuel : nat) (mbuf_pool m cur seg_offset : Z) (w : vworld) : option (option Z * vworld) :=
  w ← upd_pkt cur (λ x, x <| data_len := u16 seg_offset |>) w;
  w ← upd_pkt m (λ x, x <| pkt_len := u32 (pkt_len x + seg_offset) |>) w;
  '(new, w) ← alloc_pkt mbuf_pool w;
  if new =? NULL then
    p ← rte_pktmbuf_free hugepages rte_mem_virt2phy lcore fuel m (pkts w); Some (None, w <| pkts := p |>)
  else w ← upd_pkt cur (λ x, x <| m_next := new |>) w; Some (Some new, w).
Definition seg_room (cur : Z) (w : vworld) : option Z := c ← mbufs (pkts w) !! cur; Some (u32 (buf_len c - RTE_PKTMBUF_HEADROOM)).

(** The copy loop: the result is the number of segments, or nothing after a
    failed allocation. [fuel] bounds the rounds, [segs_fuel] the segments of a
    packet that is given up. *)
Fixpoint tx_copy (fuel segs_fuel : nat) (vq : vhost_virtqueue) (mbuf_pool m : Z) (d : vring_desc) (va vb_offset vb_avail cur seg_offset seg_avail seg_num : Z) (w : vworld) : option (option Z * vworld) :=
  let cpy_len := Z.min vb_avail seg_avail in
  if cpy_len =? 0 then Some (Some seg_num, w) else
  match fuel with
  | O => None
  | S fuel =>
      c ← mbufs (pkts w) !! cur;
      by' ← rte_memcpy (rte_pktmbuf_mtod_offset c seg_offset) (u64 (va + vb_offset)) cpy_len (bytes w);
      let w := w <| bytes := by' |> in
      let seg_offset := u32 (seg_offset + cpy_len) in
      let vb_offset := u32 (vb_offset + cpy_len) in
      let vb_avail := u32 (vb_avail - cpy_len) in
      let seg_avail := u32 (seg_avail - cpy_len) in
      if negb (vb_avail =? 0) then
        '(new, w) ← next_segment segs_fuel mbuf_pool m cur seg_offset w;
        match new with
        | None => Some (None, w)
        | Some new => room ← seg_room new w; tx_copy fuel segs_fuel vq mbuf_pool m d va vb_offset vb_avail new 0 room (u32 (seg_num + 1)) w
        end
      else if has_next d then
        '(seg, w) ← (if seg_avail =? 0 then
            '(new, w) ← next_segment segs_fuel mbuf_pool m cur seg_offset w;
            match new with
            | None => Some (None, w)
            | Some new => room ← seg_room new w; Some (Some (new, 0, room, u32 (seg_num + 1)), w)
            end
          else Some (Some (cur, seg_offset, seg_avail, seg_num), w));
        match seg with
        | None => Some (None, w)
        | Some (cur, seg_offset, seg_avail, seg_num) =>
            d' ← get_desc vq (d_next d) w;
            va ← gpa_to_vva dev (d_addr d');
            tx_copy fuel segs_fuel vq mbuf_pool m d' va 0 (d_len d') cur seg_offset seg_avail seg_num w
        end
      else
        w ← upd_pkt cur (λ x, x <| data_len := u16 seg_offset |>) w;
        w ← upd_pkt m (λ x, x <| pkt_len := u32 (pkt_len x + seg_offset) |>) w;
        tx_copy fuel segs_fuel vq mbuf_pool m d va vb_offset 0 cur seg_offset seg_avail seg_num w
  end.

(** One packet of the chain [head]: the packet, or nothing without buffers. *)
Definition tx_packet (fuel : nat) (vq : vhost_virtqueue) (mbuf_pool head used_idx : Z) (w : vworld) : option (option Z * vworld) :=
  d ← get_desc vq head w;
  '(d, vb_offset, vb_avail) ←
    (if has_next d then d' ← get_desc vq (d_next d) w; Some (d', 0, d_len d')
     else Some (d, vhost_hlen vq, u32 (d_len d - vhost_hlen vq)));
  va ← gpa_to_vva dev (d_addr d);
  w ← set_used vq used_idx head 0 w;
  '(m, w) ← alloc_pkt mbuf_pool w;
  if m =? NULL then Some (None, w) else
  room ← seg_room m w;
  '(segs, w) ← tx_copy fuel fuel vq mbuf_pool m d va vb_offset vb_avail m 0 room 1 w;
  match segs with
  | None => Some (None, w)
  | Some seg_num => w ← upd_pkt m (λ x, x <| nb_segs := u8 seg_num |>) w; Some (Some m, w)
  end.
Fixpoint tx_loop (fuel : nat) (q mbuf_pool : Z) (heads : list Z) (w : vworld) : option (list Z * vworld) :=
  match heads with
  | [] => Some ([], w)
  | head :: heads =>
      vq ← vqs w !! q;
      '(m, w) ← tx_packet fuel vq mbuf_pool head (Z.land (last_used_idx vq) (vq_size vq - 1)) w;
      match m with
      | None => Some ([], w)
      | Some m =>
          '(l, w) ← tx_loop fuel q mbuf_pool heads (set_vq q (vq <| last_used_idx := u16 (last_used_idx vq + 1) |>) w);
          Some (m :: l, w)
      end
  end.

(** The packets received; [entry_success] is their number. *)
Definition rte_vhost_dequeue_burst (fuel : nat) (queue_id mbuf_pool count : Z) (w : vworld) : option (list Z * vworld) :=
  if negb (is_valid_virt_queue_idx queue_id 1 (virt_qp_nb dev)) then Some ([], w) else
  '(q, vq) ← get_vq dev queue_id w;
  if enabled vq =? 0 then Some ([], w) else
  av ← avails w !! avail vq;
  if last_used_idx vq =? av_idx av then Some ([], w) else
  let free_entries := u16 (av_idx av - last_used_idx vq) in
  let free_entries := Z.min (Z.min free_entries count) MAX_PKT_BURST in
  heads ← get_heads vq (last_used_idx vq) free_entries w;
  '(l, w) ← tx_loop fuel q mbuf_pool heads w;
  w ← add_used vq (Z.of_nat (length l)) w;
  w ← kick_guest vq w;
  Some (l, w).
End rxtx.
