(* ===== verification/VirtMem.v ===== *)
(** * The bytes of packets and of descriptor chains

    Copying between lists of addresses, the addresses of the buffers a chain of
    descriptors has and those of the segments of a packet, and the translation
    of guest addresses. *)
From S2P Require Import Prelude Ring Mempool MempoolInit Mbuf MbufInv MbufOps VirtQueue.
Open Scope Z_scope.

(** ** Lists of addresses *)

Lemma elem_of_range a n x : x ∈ range a n ↔ a <= x < a + n.
Proof. unfold range. rewrite elem_of_seqZ. lia. Qed.
Lemma range_length a n : length (range a n) = Z.to_nat n.
Proof. apply length_seqZ. Qed.
Lemma range_app a n m : 0 <= n → 0 <= m → range a (n + m) = range a n ++ range (a + n) m.
Proof. apply seqZ_app. Qed.
Lemma range_drop a n k : 0 <= k <= n → drop (Z.to_nat k) (range a n) = range (a + k) (n - k).
Proof. intros Hk. replace n with (k + (n - k)) at 1 by lia. rewrite range_app by lia. apply drop_app_length'. by rewrite range_length. Qed.
Lemma range_take a n k : 0 <= k <= n → take (Z.to_nat k) (range a n) = range a k.
Proof. intros Hk. replace n with (k + (n - k)) by lia. rewrite range_app by lia. apply take_app_length'. by rewrite range_length. Qed.
Lemma range_nil a n : n <= 0 → range a n = [].
Proof. intros. unfold range. by rewrite seqZ_nil by lia. Qed.
Lemma range_NoDup a n : NoDup (range a n).
Proof. apply NoDup_seqZ. Qed.

Lemma in_take {A} n (l : list A) x : x ∈ take n l → x ∈ l.
Proof. intros H. rewrite <- (take_drop n l). apply elem_of_app. by left. Qed.
Lemma in_drop {A} n (l : list A) x : x ∈ drop n l → x ∈ l.
Proof. intros H. rewrite <- (take_drop n l). apply elem_of_app. by right. Qed.

(** ** Copies *)

Lemma move_app ps qs m : move (ps ++ qs) m = move ps m ≫= move qs.
Proof. revert m. induction ps as [|[d s] ps IH]; intros m; [done|]. simpl. destruct (m !! s); [|done]. simpl. destruct (m !! d); [|done]. simpl. apply IH. Qed.

(** What a copy does. *)
Record moved (D S : list Z) (m m' : gmap Z Z) : Prop := {
  mv_to : ∀ i d s, D !! i = Some d → S !! i = Some s → m' !! d = m !! s;
  mv_other : ∀ x, x ∉ take (length S) D → m' !! x = m !! x;
  mv_dom : dom m' = dom m }.
Lemma move_run D S m : NoDup D → (∀ x, x ∈ D → x ∉ S) → (∀ x, x ∈ S → is_Some (m !! x)) → (∀ x, x ∈ D → is_Some (m !! x)) → ∃ m', move (zip D S) m = Some m' ∧ moved D S m m'.
Proof.
  revert S m. induction D as [|d D IH]; intros [|s S] m Hnd Hap HS HD; [by exists m..|].
  apply NoDup_cons in Hnd as [Hd Hnd]. destruct (HS s ltac:(left)) as [b Hb]. destruct (HD d ltac:(left)) as [c Hc].
  assert (Hs : s ≠ d ∧ d ∉ S) by (specialize (Hap d ltac:(left)); rewrite not_elem_of_cons in Hap; split; [intros ->; tauto|tauto]). destruct Hs as [Hsd HdS].
  destruct (IH S (<[d := b]> m) Hnd) as (m' & Hrun & [Hto Hoth Hdom]).
  { intros x Hx HxS. apply (Hap x); by right. }
  { intros x Hx. rewrite lookup_insert_ne by (by intros ->). apply HS. by right. }
  { intros x Hx. destruct (decide (d = x)) as [->|]; [rewrite lookup_insert_eq; by eexists|rewrite lookup_insert_ne by done; apply HD; by right]. }
  exists m'. cbn [zip zip_with move fst snd]. rewrite Hb, Hc. split; [done|]. split.
  - intros [|i] d' s' Hd' Hs'; cbn in Hd', Hs'; simplify_eq.
    + rewrite Hoth by (intros Hin; apply Hd; by eapply in_take). by rewrite lookup_insert_eq, Hb.
    + rewrite (Hto i d' s') by done. rewrite lookup_insert_ne; [done|]. intros ->. apply HdS. by eapply list_elem_of_lookup_2.
  - intros x Hx. cbn [length take] in Hx. apply not_elem_of_cons in Hx as [Hxd Hx]. rewrite Hoth by done. by rewrite lookup_insert_ne.
  - rewrite Hdom. apply dom_insert_lookup_L. by exists c.
Qed.

Lemma move_dom ps m m' : move ps m = Some m' → dom m' = dom m.
Proof. revert m. induction ps as [|[d s] ps IH]; intros m H; simpl in H; [by simplify_eq|]. binds. rewrite (IH _ H). apply dom_insert_lookup_L. by eexists. Qed.
Lemma move_other ps m m' x : move ps m = Some m' → x ∉ ps.*1 → m' !! x = m !! x.
Proof. revert m. induction ps as [|[d s] ps IH]; intros m H Hx; simpl in H, Hx; [by simplify_eq|]. binds. apply not_elem_of_cons in Hx as [? ?]. rewrite (IH _ H) by done. by rewrite lookup_insert_ne. Qed.

(** A call of [rte_memcpy] is the copy of a prefix. *)
Lemma memcpy_move dst src n m : (∀ x, x ∈ range dst n → x ∉ range src n) → rte_memcpy dst src n m = move (zip (range dst n) (range src n)) m.
Proof.
  intros Hap. unfold rte_memcpy. destruct (Z.ltb_spec 0 n); [|done]. destruct (Z.ltb_spec dst (src + n)); [|done]. destruct (Z.ltb_spec src (dst + n)); [|done]. exfalso.
  specialize (Hap (Z.max dst src)). rewrite !elem_of_range in Hap. lia.
Qed.
Lemma memcpy_prefix x y n m : 0 <= x → 0 <= y → 0 <= n → x + n <= 2 ^ 64 → y + n <= 2 ^ 64 → (∀ z, z ∈ range x n → z ∉ range y n) → rte_memcpy (u64 x) (u64 y) n m = move (zip (range x n) (range y n)) m.
Proof.
  intros. destruct (decide (n = 0)) as [->|]; [done|]. rewrite !u64_small by (unfold is_u64; lia). by apply memcpy_move.
Qed.
Lemma zip_take {A B} n (l : list A) (k : list B) : take n (zip l k) = zip (take n l) (take n k).
Proof. revert l k. induction n as [|n IH]; intros [|x l] [|y k]; [done..|]. simpl. f_equal. apply IH. Qed.
Lemma zip_drop {A B} n (l : list A) (k : list B) : drop n (zip l k) = zip (drop n l) (drop n k).
Proof. revert l k. induction n as [|n IH]; intros [|x l] [|y k]; try done; simpl; [by rewrite zip_with_nil_r|apply IH]. Qed.
Lemma move_split n D S m m' : move (zip D S) m = Some m' → ∃ m1, move (zip (take n D) (take n S)) m = Some m1 ∧ move (zip (drop n D) (drop n S)) m1 = Some m'.
Proof. intros H. rewrite <- (take_drop n (zip D S)), move_app, zip_take, zip_drop in H. apply bind_Some in H as (m1 & ? & ?). by exists m1. Qed.

Lemma write_bytes_run a l m : (∀ x, x ∈ range a (Z.of_nat (length l)) → is_Some (m !! x)) →
  ∃ m', write_bytes a l m = Some m' ∧ (∀ i b, l !! i = Some b → m' !! (a + Z.of_nat i) = Some b) ∧ (∀ x, x ∉ range a (Z.of_nat (length l)) → m' !! x = m !! x) ∧ dom m' = dom m.
Proof.
  revert a m. induction l as [|b l IH]; intros a m Hm; [by exists m|].
  destruct (Hm a) as [c Hc]; [apply elem_of_range; simpl; lia|]. destruct (IH (a + 1) (<[a := b]> m)) as (m' & Hrun & Hl & Hoth & Hdom).
  { intros x Hx%elem_of_range. rewrite lookup_insert_ne by lia. apply Hm, elem_of_range. simpl. lia. }
  exists m'. simpl. rewrite Hc. simpl. split_and!; [done| | |].
  - intros [|i] b' Hb; cbn in Hb; simplify_eq.
    + rewrite Z.add_0_r, Hoth by (rewrite elem_of_range; lia). by rewrite lookup_insert_eq.
    + replace (a + Z.of_nat (Datatypes.S i)) with (a + 1 + Z.of_nat i) by lia. by apply Hl.
  - intros x Hx. rewrite elem_of_range in Hx. simpl in Hx. rewrite Hoth by (rewrite elem_of_range; lia). rewrite lookup_insert_ne by lia. done.
  - rewrite Hdom. apply dom_insert_lookup_L. by exists c.
Qed.

(** ** The used ring *)

(** The entries [l], from index [idx] on. *)
Fixpoint put_used (sz idx : Z) (l r : list (Z * Z)) : list (Z * Z) :=
  match l with [] => r | e :: l => put_used sz (idx + 1) l (<[Z.to_nat (idx mod sz) := e]> r) end.
Lemma put_used_length sz idx l r : length (put_used sz idx l r) = length r.
Proof. revert idx r. induction l as [|e l IH]; intros; simpl; [done|]. by rewrite IH, length_insert. Qed.
Lemma put_used_other sz l : ∀ idx r j, (∀ i, (i < length l)%nat → j ≠ Z.to_nat ((idx + Z.of_nat i) mod sz)) → put_used sz idx l r !! j = r !! j.
Proof.
  induction l as [|e l IH]; intros idx r j Hj; simpl; [done|]. rewrite IH.
  - rewrite list_lookup_insert_ne; [done|]. specialize (Hj 0%nat ltac:(simpl; lia)). rewrite Z.add_0_r in Hj. done.
  - intros i Hi. specialize (Hj (S i) ltac:(simpl; lia)). by replace (idx + 1 + Z.of_nat i) with (idx + Z.of_nat (S i)) by lia.
Qed.
Lemma mod_near x y sz : 0 < sz → x mod sz = y mod sz → 0 <= y - x < sz → x = y.
Proof. intros Hs He Hd. assert ((y - x) mod sz = 0) as H0 by (rewrite Zminus_mod, He, Z.sub_diag; apply Z.mod_0_l; lia). rewrite Z.mod_small in H0 by done. lia. Qed.
Lemma put_used_at sz l : ∀ idx r i e, 0 < sz → length r = Z.to_nat sz → Z.of_nat (length l) <= sz → l !! i = Some e → put_used sz idx l r !! Z.to_nat ((idx + Z.of_nat i) mod sz) = Some e.
Proof.
  induction l as [|e' l IH]; intros idx r i e Hs Hr Hl Hi; [done|]. cbn [length] in Hl. destruct i as [|i]; cbn in Hi; simplify_eq; simpl.
  - rewrite Z.add_0_r. pose proof (Z.mod_pos_bound idx sz Hs). rewrite put_used_other; [apply list_lookup_insert_eq; lia|]. intros i Hi He. pose proof (Z.mod_pos_bound (idx + 1 + Z.of_nat i) sz Hs). apply Z2Nat.inj in He; [|lia..]. apply mod_near in He; lia.
  - replace (idx + Z.of_nat (S i)) with (idx + 1 + Z.of_nat i) by lia. apply IH; [done|by rewrite length_insert|lia|done].
Qed.
(** Indexes that wrap at 16 bits. *)
Lemma u16_mod_pow2 x k : 0 <= k <= 16 → u16 x mod 2 ^ k = x mod 2 ^ k.
Proof. intros Hk. unfold u16. apply Z.mod_mod_divide. exists (2 ^ (16 - k)). rewrite <- Z.pow_add_r by lia. f_equal; lia. Qed.
Lemma put_used_u16 k idx l r : 0 <= k <= 16 → put_used (2 ^ k) (u16 idx) l r = put_used (2 ^ k) idx l r.
Proof.
  intros Hk. assert (∀ x y r, x mod 2 ^ k = y mod 2 ^ k → put_used (2 ^ k) x l r = put_used (2 ^ k) y l r) as H; [|apply H, u16_mod_pow2; lia].
  induction l as [|e l IH]; intros x y r' Hxy; simpl; [done|]. rewrite Hxy. apply IH. by rewrite Zplus_mod, Hxy, <- Zplus_mod.
Qed.

(** ** Guest addresses *)

Definition in_region (g : Z) (r : virtio_memory_regions) : Prop := guest_phys_address r <= g < guest_phys_address r + memory_size r.
(** How the regions are set up when the guest sends its memory table, and
    regions with a gap between each other. *)
Definition region_ok (r : virtio_memory_regions) : Prop := guest_phys_address_end r = guest_phys_address r + memory_size r ∧ 0 <= guest_phys_address r ∧ 0 <= memory_size r.
Definition apart (r r' : virtio_memory_regions) : Prop := guest_phys_address_end r < guest_phys_address r' ∨ guest_phys_address_end r' < guest_phys_address r.

(** The host address of a guest address is where its region is mapped, when
    regions do not touch. *)
Theorem gpa_to_vva_correct dev mm r g : mem dev = Some mm → r ∈ regions mm → Forall region_ok (regions mm) → ForallOrdPairs apart (regions mm) → in_region g r → gpa_to_vva dev g = Some (u64 (address_offset r + g)).
Proof.
  intros Hm Hr Hok Hap Hg. unfold gpa_to_vva. rewrite Hm. cbn [mbind option_bind]. f_equal. clear Hm. revert Hr Hok Hap. induction (regions mm) as [|r' l IH]; intros Hr Hok Hap; [by apply not_elem_of_nil in Hr|].
  apply Forall_cons in Hok as [(He & _) Hok]. inversion Hap as [|? ? Hx Hl]; subst. simpl. apply elem_of_cons in Hr as [<-|Hr].
  - unfold in_region in Hg. rewrite (proj2 (Z.leb_le _ _)) by lia. rewrite (proj2 (Z.leb_le _ _)) by lia. done.
  - rewrite IH by done. rewrite Forall_forall in Hx, Hok. specialize (Hx r Hr). destruct (Hok r Hr) as [He' _]. unfold apart, in_region in *. destruct (Z.leb_spec (guest_phys_address r') g), (Z.leb_spec g (guest_phys_address_end r')); simpl; lia.
Qed.
(** Two regions that touch: the first byte of the second is taken for one of
    the first. *)
Definition ex_touching : virtio_memory := VirtioMemory 0 0 0 [MemRegion 0 4096 4096 0 (2 ^ 20); MemRegion 4096 8192 4096 4096 (2 ^ 30)].
Theorem gpa_touching_regions : in_region 4096 (MemRegion 4096 8192 4096 4096 (2 ^ 30)) ∧ find_region 4096 (regions ex_touching) = 2 ^ 20 + 4096 ∧ 2 ^ 20 + 4096 ≠ 2 ^ 30 + 4096.
Proof. split; [unfold in_region; simpl; lia|]. split; [reflexivity|lia]. Qed.

Section chains.
Context (mm : virtio_memory).

(** ** The chains of descriptors and of segments *)

Definition va (d : vring_desc) : Z := find_region (d_addr d) (regions mm).
(** The addresses of the buffer of a descriptor, and of a chain. *)
Definition area (d : vring_desc) : list Z := range (va d) (d_len d).
Definition areas (c : list vring_desc) : list Z := concat (area <$> c).
Record desc_ok (d : vring_desc) : Prop := { dk_len : is_u32 (d_len d); dk_va : 0 <= va d; dk_end : va d + d_len d <= 2 ^ 64 }.
(** The descriptors after [d]. *)
Fixpoint follows (t : list vring_desc) (d : vring_desc) (l : list vring_desc) : Prop :=
  match l with
  | [] => has_next d = false
  | d' :: l => has_next d = true ∧ load t (d_next d) = Some d' ∧ follows t d' l
  end.
(** The chain that starts with the descriptor [h] of the table. *)
Definition chain_of (t : list vring_desc) (h : Z) (c : list vring_desc) : Prop :=
  match c with [] => False | d :: l => load t h = Some d ∧ follows t d l end.

Definition seg_area (m : rte_mbuf) : list Z := range (buf_addr m + data_off m) (data_len m).
Record seg_ok (m : rte_mbuf) : Prop := { sk_len : is_u16 (data_len m); sk_addr : 0 <= buf_addr m + data_off m; sk_end : buf_addr m + data_off m + data_len m <= 2 ^ 64 }.
(** The segments [ms] of a packet at the addresses [p]. *)
Fixpoint packet_segs (B : gmap Z rte_mbuf) (p : list Z) (ms : list rte_mbuf) : Prop :=
  match p, ms with
  | [], [] => True
  | a :: p, m :: ms => B !! a = Some m ∧ a ≠ NULL ∧ m_next m = hd NULL p ∧ seg_ok m ∧ packet_segs B p ms
  | _, _ => False
  end.
Definition seg_areas (ms : list rte_mbuf) : list Z := concat (seg_area <$> ms).
Definition total_len (ms : list rte_mbuf) : Z := foldr (λ m n, data_len m + n) 0 ms.

Lemma area_length d : length (area d) = Z.to_nat (d_len d).
Proof. apply range_length. Qed.
Lemma seg_area_length m : length (seg_area m) = Z.to_nat (data_len m).
Proof. apply range_length. Qed.
Lemma seg_areas_length ms : Forall seg_ok ms → Z.of_nat (length (seg_areas ms)) = total_len ms.
Proof.
  induction 1 as [|m ms [Hl _ _] _ IH]; [done|]. unfold seg_areas in *. cbn [fmap list_fmap concat total_len foldr]. fold (total_len ms). rewrite length_app, seg_area_length. unfold is_u16 in Hl. lia.
Qed.
Lemma packet_segs_ok B p ms : packet_segs B p ms → Forall seg_ok ms.
Proof. revert ms. induction p as [|a p IH]; intros [|m ms] H; try done. destruct H as (_ & _ & _ & Hs & H). constructor; [done|by apply IH]. Qed.
Lemma packet_segs_chain B p ms : packet_segs B p ms → chain B p.
Proof. revert ms. induction p as [|a p IH]; intros [|m ms] H; try done. destruct H as (Ha & Hn & Hx & _ & H). simpl. split_and!; [done|by exists m|by eapply IH]. Qed.
Lemma packet_segs_length B p ms : packet_segs B p ms → length ms = length p.
Proof. revert ms. induction p as [|a p IH]; intros [|m ms] H; try done. destruct H as (_ & _ & _ & _ & H). simpl. f_equal. by apply IH. Qed.
End chains.

(** ** A queue in use *)

Record queue_ok (dev : virtio_net) (queue_id is_tx : Z) (w : vworld) (q : Z) (vq : vhost_virtqueue) (ds : list vring_desc) (av : vring_avail) (u : vring_used) (k : Z) : Prop := {
  qk_valid : is_valid_virt_queue_idx queue_id is_tx (virt_qp_nb dev) = true;
  qk_vq : get_vq dev queue_id w = Some (q, vq);
  qk_enabled : enabled vq ≠ 0;
  qk_descs : descs w !! desc vq = Some ds;
  qk_avail : avails w !! avail vq = Some av;
  qk_used : useds w !! used vq = Some u;
  qk_size : vq_size vq = 2 ^ k ∧ 0 <= k <= 15;
  qk_aring : length (av_ring av) = Z.to_nat (vq_size vq);
  qk_uring : length (us_ring u) = Z.to_nat (vq_size vq);
  qk_hlen : 0 <= vhost_hlen vq <= 12;
  qk_last : is_u16 (last_used_idx vq) }.

(** The entries of the available ring from [idx] on are [hs]. *)
Definition pending (av : vring_avail) (sz idx : Z) (hs : list Z) : Prop := ∀ i h, hs !! i = Some h → load (av_ring av) ((idx + Z.of_nat i) mod sz) = Some h.
Lemma get_heads_eq vq av idx hs k w : avails w !! avail vq = Some av → vq_size vq = 2 ^ k → 0 <= k → pending av (vq_size vq) idx hs → get_heads vq idx (Z.of_nat (length hs)) w = Some hs.
Proof.
  intros Ha Hsz Hk Hp. unfold get_heads. rewrite Ha. cbn [mbind option_bind]. apply mapM_Some. apply Forall2_same_length_lookup. split; [rewrite length_seqZ; lia|]. intros i x h Hx Hh. apply lookup_seqZ in Hx as [-> _]. rewrite Hsz, land_mask, <- Hsz by done. rewrite Z.add_0_l. by apply Hp.
Qed.

(** Who is notified. *)
Definition kicked (vq : vhost_virtqueue) (av : vring_avail) (w : vworld) : list Z := if Z.land (av_flags av) VRING_AVAIL_F_NO_INTERRUPT =? 0 then kicks w ++ [callfd vq] else kicks w.
Lemma kick_guest_eq vq av w : avails w !! avail vq = Some av → kick_guest vq w = Some (w <| kicks := kicked vq av w |>).
Proof. unfold kick_guest, kicked. intros ->. cbn [mbind option_bind]. by destruct (_ =? 0), w. Qed.
Lemma add_used_eq vq u n w : useds w !! used vq = Some u → add_used vq n w = Some (w <| useds := <[used vq := u <| us_idx := u16 (us_idx u + n) |>]> (useds w) |>).
Proof. unfold add_used. by intros ->. Qed.
