(* ===== verification/VirtRx.v ===== *)
(** * Packets to a guest

    [virtio_dev_rx]: each packet is copied, behind a header of zeros, into the
    buffers of one descriptor chain. *)
From S2P Require Import Prelude Ring Mempool MempoolInit Mbuf MbufInv MbufOps VirtQueue VirtMem.
Open Scope Z_scope.

Lemma bytes_twice w m1 m2 : (w <| bytes := m1 |>) <| bytes := m2 |> = w <| bytes := m2 |>.
Proof. done. Qed.

Section rx.
Context (dev : virtio_net) (mm : virtio_memory) (Hmem : mem dev = Some mm).
Notation va := (va mm).
Notation area := (area mm).
Notation areas := (areas mm).
Notation desc_ok := (desc_ok mm).

Lemma gpa_va d : gpa_to_vva dev (d_addr d) = Some (va d).
Proof. unfold gpa_to_vva. by rewrite Hmem. Qed.

Lemma get_desc_eq vq ds i w : descs w !! desc vq = Some ds → get_desc vq i w = load ds i.
Proof. unfold get_desc. by intros ->. Qed.

(** The copy loop, from the destinations [D] and sources [S] that are left. *)
Lemma rx_copy_run fuel : ∀ vq ds plen d l a p m ms offset vb_offset total w m',
  descs w !! desc vq = Some ds → follows ds d l → Forall desc_ok (d :: l) → packet_segs (mbufs (pkts w)) (a :: p) (m :: ms) → 0 <= offset <= data_len m → 0 <= vb_offset <= d_len d →
  let D := range (va d + vb_offset) (d_len d - vb_offset) ++ areas l in let S := range (buf_addr m + data_off m + offset) (data_len m - offset) ++ seg_areas ms in
  0 <= total → total + Z.of_nat (length S) = plen → is_u32 plen → (∀ x, x ∈ D → x ∉ S) → move (zip D S) (bytes w) = Some m' → (length l + length ms < fuel)%nat →
  rx_copy dev fuel vq plen d (va d) a offset vb_offset (data_len m) (Z.min (data_len m - offset) (d_len d - vb_offset)) total w = Some (bool_decide (length D < length S)%nat, w <| bytes := m' |>).
Proof.
  induction fuel as [|fuel IH]; intros vq ds plen d l a p m ms offset vb total w m' Hds Hf Hok Hps Hoff Hvb D S Ht Hlen Hpl Hap Hmv Hfuel; [lia|].
  pose proof Hok as Hok'. apply Forall_cons in Hok' as [[[? ?] ? ?] Hl]. pose proof Hps as (Ha & Hnn & Hnx & [[? ?] ? ?] & Hps'). cbn [rx_copy]. unfold is_u32 in Hpl.
  destruct (Z.ltb_spec total plen) as [Htl|Htl]; cbn [negb].
  2: { assert (S = []) as HS by (apply length_zero_iff_nil; lia). rewrite HS in Hmv |- *. rewrite zip_with_nil_r in Hmv. cbn in Hmv. injection Hmv as <-. rewrite bool_decide_false by (simpl; lia). by destruct w. }
  rewrite Ha. cbn [mbind option_bind]. set (n := Z.min (data_len m - offset) (d_len d - vb)) in *.
  assert (HnD : take (Z.to_nat n) D = range (va d + vb) n ∧ drop (Z.to_nat n) D = range (va d + (vb + n)) (d_len d - (vb + n)) ++ areas l).
  { unfold D. rewrite take_app_le, drop_app_le by (rewrite range_length; lia). rewrite range_take, range_drop by lia. split; [done|]. f_equal. f_equal; lia. }
  assert (HnS : take (Z.to_nat n) S = range (buf_addr m + data_off m + offset) n ∧ drop (Z.to_nat n) S = range (buf_addr m + data_off m + (offset + n)) (data_len m - (offset + n)) ++ seg_areas ms).
  { unfold S. rewrite take_app_le, drop_app_le by (rewrite range_length; lia). rewrite range_take, range_drop by lia. split; [done|]. f_equal. f_equal; lia. }
  destruct HnD as [HD1 HD2], HnS as [HS1 HS2]. destruct (move_split (Z.to_nat n) D S (bytes w) m' Hmv) as (m1 & Hm1 & Hm2). rewrite HD1, HS1 in Hm1. rewrite HD2, HS2 in Hm2.
  assert (Hap2 : ∀ x, x ∈ range (va d + (vb + n)) (d_len d - (vb + n)) ++ areas l → x ∉ range (buf_addr m + data_off m + (offset + n)) (data_len m - (offset + n)) ++ seg_areas ms).
  { rewrite <- HD2, <- HS2. intros x Hx Hx'. apply (Hap x); [by eapply in_drop|by eapply in_drop]. }
  assert (HlD : Z.of_nat (length D) = n + Z.of_nat (length (range (va d + (vb + n)) (d_len d - (vb + n)) ++ areas l))) by (rewrite <- HD2, length_drop; unfold D; rewrite length_app, range_length; lia).
  assert (HlS : Z.of_nat (length S) = n + Z.of_nat (length (range (buf_addr m + data_off m + (offset + n)) (data_len m - (offset + n)) ++ seg_areas ms))) by (rewrite <- HS2, length_drop; unfold S; rewrite length_app, range_length; lia).
  unfold rte_pktmbuf_mtod_offset. rewrite memcpy_prefix, Hm1; [|lia..|].
  2: { intros x Hx Hx'. rewrite <- HD1 in Hx. rewrite <- HS1 in Hx'. apply (Hap x); by eapply in_take. }
  cbn [mbind option_bind]. rewrite (u32_small (offset + n)), (u32_small (vb + n)), (u32_small (total + n)) by (unfold is_u32; lia).
  destruct (Z.eqb_spec (total + n) plen) as [He|He].
  { assert (range (buf_addr m + data_off m + (offset + n)) (data_len m - (offset + n)) ++ seg_areas ms = []) as HS by (apply length_zero_iff_nil; lia). rewrite HS in *. rewrite zip_with_nil_r in Hm2. cbn in Hm2. injection Hm2 as <-. rewrite bool_decide_false; [done|]. simpl in HlS. lia. }
  (* the segment in use from here on *)
  change (pkts (w <| bytes := m1 |>)) with (pkts w).
  set (seg := if offset + n =? data_len m then _ else _). assert (∃ a' p' x ms' off', seg = Some (a', off', data_len x) ∧ packet_segs (mbufs (pkts w)) (a' :: p') (x :: ms') ∧ 0 <= off' <= data_len x ∧
    range (buf_addr m + data_off m + (offset + n)) (data_len m - (offset + n)) ++ seg_areas ms = range (buf_addr x + data_off x + off') (data_len x - off') ++ seg_areas ms' ∧ ((offset + n = data_len m ∧ (length ms' < length ms)%nat) ∨ (offset + n ≠ data_len m ∧ length ms' = length ms))) as (a' & p' & x & ms' & off' & -> & Hps2 & Hoff' & HSe & Hms).
  { unfold seg. destruct (Z.eqb_spec (offset + n) (data_len m)) as [Hd|Hd].
    - rewrite (range_nil _ (data_len m - (offset + n))) in HlS |- * by lia. destruct p as [|b p], ms as [|y ms]; [simpl in HlS; lia|done..|]. pose proof Hps' as (Hb & _ & _ & [[? ?] _ _] & _). rewrite Hnx. cbn [hd]. rewrite Hb. cbn [mbind option_bind]. exists b, p, y, ms, 0. split; [done|]. split; [done|]. split; [lia|]. split; [|left; cbn [length]; lia].
      unfold seg_areas at 1. cbn [fmap list_fmap concat app]. unfold seg_area. by rewrite Z.add_0_r, Z.sub_0_r.
    - exists a, p, m, ms, (offset + n). split; [done|]. split; [done|]. split; [lia|]. split; [done|by right]. }
  cbn [mbind option_bind]. rewrite HSe in *. pose proof Hps2 as (_ & _ & _ & [[? ?] _ _] & _).
  destruct (Z.eqb_spec (vb + n) (d_len d)) as [Hv|Hv].
  - rewrite (range_nil _ (d_len d - (vb + n))) in Hm2, Hap2, HlD by lia. destruct l as [|d' l].
    + cbn in Hf. rewrite Hf. destruct (zip (_ ++ areas []) _) eqn:Ez in Hm2; [|done]. cbn in Hm2. injection Hm2 as <-. rewrite bool_decide_true; [done|]. unfold areas in HlD. simpl in HlD. lia.
    + destruct Hf as (Hn & Hd' & Hf). rewrite Hn. rewrite (get_desc_eq _ ds) by done. rewrite Hd'. cbn [mbind option_bind]. rewrite gpa_va. cbn [mbind option_bind]. pose proof Hl as Hl'. apply Forall_cons in Hl' as [[[? ?] ? ?] _].
      rewrite (u32_small (data_len x - off')), (u32_small (d_len d' - 0)) by (unfold is_u32; lia). assert (HDe : [] ++ areas (d' :: l) = range (va d' + 0) (d_len d' - 0) ++ areas l) by (unfold VirtMem.areas at 1; cbn [fmap list_fmap concat app]; unfold VirtMem.area; by rewrite Z.add_0_r, Z.sub_0_r).
      rewrite HDe in *. rewrite (IH vq ds plen d' l a' p' x ms' off' 0 (total + n) (w <| bytes := m1 |>) m'); try done; cbn [length] in Hfuel; try lia. rewrite bytes_twice. do 2 f_equal. apply bool_decide_ext. lia.
  - rewrite (u32_small (data_len x - off')), (u32_small (d_len d - (vb + n))) by (unfold is_u32; lia). rewrite (IH vq ds plen d l a' p' x ms' off' (vb + n) (total + n) (w <| bytes := m1 |>) m'); try done; try lia. rewrite bytes_twice. do 2 f_equal. apply bool_decide_ext. lia.
Qed.

(** What the guest finds in the buffers of a chain: a header, then the bytes
    of the packet, if there is room for both. *)
Definition room (c : list vring_desc) (hlen n : Z) : bool := bool_decide (hlen + n <= Z.of_nat (length (areas c))).
Record delivered (c : list vring_desc) (hdr : list Z) (S : list Z) (m m' : gmap Z Z) : Prop := {
  dl_hdr : room c (Z.of_nat (length hdr)) (Z.of_nat (length S)) = true → ∀ i x b, areas c !! i = Some x → hdr !! i = Some b → m' !! x = Some b;
  dl_data : ∀ i x s, areas c !! (length hdr + i)%nat = Some x → S !! i = Some s → m' !! x = m !! s }.

(** A chain with the header in its first descriptor, and a packet to be put there. *)
Record chain_ok (ds : list vring_desc) (hlen head : Z) (c : list vring_desc) (m : gmap Z Z) : Prop := {
  ck_chain : chain_of ds head c;
  ck_desc : Forall desc_ok c;
  ck_hlen : hlen <= d_len (hd (VringDesc 0 0 0 0) c);
  ck_mapped : ∀ x, x ∈ areas c → is_Some (m !! x);
  ck_NoDup : NoDup (areas c) }.
Record packet_ok (B : gmap Z rte_mbuf) (p : list Z) (ms : list rte_mbuf) (hlen : Z) (m : gmap Z Z) : Prop := {
  pk_ne : p ≠ [];
  pk_segs : packet_segs B p ms;
  pk_len : ∀ x, head ms = Some x → pkt_len x = total_len ms;
  pk_u32 : is_u32 (total_len ms + hlen);
  pk_mapped : ∀ x, x ∈ seg_areas ms → is_Some (m !! x) }.

Lemma areas_hd d l hlen : 0 <= hlen <= d_len d → areas (d :: l) = range (va d) hlen ++ (range (va d + hlen) (d_len d - hlen) ++ areas l).
Proof. intros. unfold VirtMem.areas. cbn [fmap list_fmap concat]. unfold VirtMem.area at 1. rewrite app_assoc, <- range_app by lia. do 2 f_equal. lia. Qed.
Lemma areas_cons d l : areas (d :: l) = range (va d) (d_len d) ++ areas l.
Proof. done. Qed.

(** The start of the data: behind the header, or in the next descriptor. *)
Lemma rx_start_run vq ds d l hlen w : descs w !! desc vq = Some ds → follows ds d l → hlen = vhost_hlen vq → 0 <= hlen <= d_len d → Forall desc_ok (d :: l) →
  ∃ e l' off h, (if has_next d && (d_len d =? hlen) then d' ← get_desc vq (d_next d) w; x ← gpa_to_vva dev (d_addr d'); Some (d', x, 0, false) else Some (d, va d, hlen, true)) = Some (e, va e, off, h) ∧
    follows ds e l' ∧ Forall desc_ok (e :: l') ∧ 0 <= off <= d_len e ∧ (if (h : bool) then u32 (d_len e - hlen) else d_len e) = d_len e - off ∧ range (va d + hlen) (d_len d - hlen) ++ areas l = range (va e + off) (d_len e - off) ++ areas l' ∧ (length l' <= length l)%nat.
Proof.
  intros Hds Hf -> Hh Hok. pose proof Hok as Hok'. apply Forall_cons in Hok' as [[[? ?] ? ?] Hok']. destruct (has_next d) eqn:Hn, (Z.eqb_spec (d_len d) (vhost_hlen vq)) as [He|He]; cbn [andb].
  1: { destruct l as [|d' l]; [simpl in Hf; congruence|]. destruct Hf as (_ & Hd' & Hf). rewrite (get_desc_eq _ ds) by done. rewrite Hd'. cbn [mbind option_bind]. rewrite gpa_va. cbn [mbind option_bind]. pose proof Hok' as Hok2. apply Forall_cons in Hok2 as [[[? ?] ? ?] _].
    exists d', l, 0, false. split; [done|]. split; [done|]. split; [done|]. split; [lia|]. split; [lia|]. split; [|simpl; lia]. rewrite (range_nil _ (d_len d - _)) by lia. rewrite areas_cons. by rewrite Z.add_0_r, Z.sub_0_r. }
  all: exists d, l, (vhost_hlen vq), true; rewrite u32_small by (unfold is_u32; lia); split_and!; try done; lia.
Qed.

Lemma rx_packet_run fuel vq ds u h idx p ms c w : let i := Z.land idx (vq_size vq - 1) in let hlen := vhost_hlen vq in let B := mbufs (pkts w) in
  descs w !! desc vq = Some ds → useds w !! used vq = Some u → 0 <= i < Z.of_nat (length (us_ring u)) → 0 <= hlen <= 12 →
  chain_ok ds hlen h c (bytes w) → packet_ok B p ms hlen (bytes w) → (∀ x, x ∈ areas c → x ∉ seg_areas ms) → (length c + length ms <= fuel)%nat →
  ∃ m', rx_packet dev fuel vq h idx (hd NULL p) w = Some (w <| bytes := m' |> <| useds := <[used vq := u <| us_ring := <[Z.to_nat i := (h, if room c hlen (total_len ms) then total_len ms + hlen else hlen)]> (us_ring u) |>]> (useds w) |>) ∧
    delivered c (take (Z.to_nat hlen) (hdr_bytes 0)) (seg_areas ms) (bytes w) m' ∧ (∀ x, x ∉ areas c → m' !! x = bytes w !! x) ∧ dom m' = dom (bytes w).
Proof.
  intros i hlen B Hds Hu Hi Hh [Hc Hd Hhl Hcm Hnd] [Hne Hps Hpl [_ Hlt] Hpm] Hap Hfuel. destruct c as [|d l]; [done|]. destruct Hc as [Hd0 Hf]. destruct p as [|a p], ms as [|m ms]; try done. cbn [hd] in *.
  pose proof (packet_segs_ok _ _ _ Hps) as Hsok. pose proof (seg_areas_length _ Hsok) as HlS. specialize (Hpl m eq_refl).
  unfold rx_packet. rewrite (get_desc_eq _ ds h) by done. rewrite Hd0. cbn [mbind option_bind]. rewrite gpa_va. cbn [mbind option_bind].
  destruct (rx_start_run vq ds d l (vhost_hlen vq) w Hds Hf eq_refl) as (e & l' & off & hb & -> & Hf' & Hok' & Hoff & Hrm & HDe & Hll); [lia|done|]. cbn [mbind option_bind]. pose proof Hps as (Ha & _ & _ & [[? ?] ? ?] & _). fold hlen in Hrm, HDe |- *. fold B. rewrite Ha. cbn [mbind option_bind]. rewrite Hrm.
  pose proof (areas_hd d l hlen ltac:(lia)) as HG. rewrite HDe in HG. set (D := range (va e + off) (d_len e - off) ++ areas l') in *.
  assert (HS : seg_areas (m :: ms) = range (buf_addr m + data_off m + 0) (data_len m - 0) ++ seg_areas ms) by (unfold seg_areas; cbn [fmap list_fmap concat]; unfold seg_area at 1; by rewrite Z.add_0_r, Z.sub_0_r).
  rewrite HG in Hap, Hcm, Hnd. apply NoDup_app in Hnd as (_ & HhD & HndD). destruct (move_run D (seg_areas (m :: ms)) (bytes w)) as (m1 & Hmv & [Hto Hoth Hdom]); [done|intros x Hx; apply Hap, elem_of_app; by right|done|intros x Hx; apply Hcm, elem_of_app; by right|].
  assert (Hl0 : 0 <= total_len (m :: ms)) by lia. pose proof Hfuel as Hfuel'. cbn [length] in Hfuel'. rewrite HS in Hmv, HlS.
  replace (Z.min (data_len m) (d_len e - off)) with (Z.min (data_len m - 0) (d_len e - off)) by lia. rewrite (rx_copy_run fuel vq ds (pkt_len m) e l' a p m ms 0 off 0 w m1); try done; try (unfold is_u32; lia); [|fold D; rewrite <- HS; intros x Hx; apply Hap, elem_of_app; by right].
  fold D. rewrite <- HS in HlS |- *. cbn [mbind option_bind].
  assert (HlG : length (areas (d :: l)) = (Z.to_nat hlen + length D)%nat) by (rewrite HG, length_app, range_length; done).
  assert (Hroom : room (d :: l) hlen (total_len (m :: ms)) = negb (bool_decide (length D < length (seg_areas (m :: ms)))%nat)). { unfold room. rewrite <- bool_decide_not. apply bool_decide_ext. rewrite HlG. lia. }
  assert (Hlh : length (take (Z.to_nat hlen) (hdr_bytes 0)) = Z.to_nat hlen) by (rewrite length_take; change (length (hdr_bytes 0)) with 12%nat; lia).
  unfold set_used. cbn [useds]. change (useds (w <| bytes := m1 |>)) with (useds w). rewrite Hu. cbn [mbind option_bind]. fold i. rewrite store_in by done. cbn [mbind option_bind].
  assert (Hdata : ∀ m2 : gmap Z Z, (∀ x, x ∈ D → m2 !! x = m1 !! x) → ∀ j x s, areas (d :: l) !! (length (take (Z.to_nat hlen) (hdr_bytes 0)) + j)%nat = Some x → seg_areas (m :: ms) !! j = Some s → m2 !! x = bytes w !! s).
  { intros m2 H2 j x s Hx Hs. rewrite Hlh, HG, lookup_app_r in Hx by (rewrite range_length; lia). rewrite range_length in Hx. replace (Z.to_nat hlen + j - Z.to_nat hlen)%nat with j in Hx by lia. rewrite H2 by (by eapply list_elem_of_lookup_2). by eapply Hto. }
  assert (Hout : ∀ x, x ∉ areas (d :: l) → m1 !! x = bytes w !! x). { intros x Hx. rewrite HG, not_elem_of_app in Hx. apply Hoth. intros Hin%in_take. tauto. }
  destruct (bool_decide_reflect (length D < length (seg_areas (m :: ms)))%nat) as [Hlt'|Hge]; rewrite Hroom; cbn [negb].
  - exists m1. split; [done|]. split; [|done]. split; [|by apply Hdata]. rewrite Hlh. replace (Z.of_nat (Z.to_nat hlen)) with hlen by lia. rewrite HlS, Hroom. done.
  - destruct (write_bytes_run (va d) (take (Z.to_nat hlen) (hdr_bytes 0)) m1) as (m2 & Hw & Hb & Hw2 & Hdm).
    { rewrite Hlh. replace (Z.of_nat (Z.to_nat hlen)) with hlen by lia. intros x Hx. apply elem_of_dom. rewrite Hdom. apply elem_of_dom, Hcm, elem_of_app. by left. }
    unfold write_hdr. destruct (Z.ltb_spec 12 hlen); [lia|]. cbn [bytes]. rewrite Hlh in Hw2. replace (Z.of_nat (Z.to_nat hlen)) with hlen in Hw2 by lia.
    exists m2. rewrite Hpl, u32_small by (unfold is_u32; lia). change (bytes (_ <| useds := _ |>)) with m1. rewrite Hw. split; [done|]. split; [split|split].
    + intros _ j x b Hx Hbj. rewrite HG, lookup_app_l in Hx by (apply lookup_lt_Some in Hbj; rewrite Hlh in Hbj; rewrite range_length; lia). apply lookup_seqZ in Hx as [-> _]. by apply Hb.
    + apply Hdata. intros x Hx. apply Hw2. intros Hin. by eapply HhD.
    + intros x Hx. rewrite Hw2; [by apply Hout|]. rewrite HG, not_elem_of_app in Hx. tauto.
    + by rewrite Hdm.
Qed.

(** ** A burst *)

(** A packet [p] with segments [ms], for the chain [c] that starts with [h]. *)
Record job := Job { j_head : Z; j_chain : list vring_desc; j_pkt : list Z; j_segs : list rte_mbuf }.
Definition hdr0 (vq : vhost_virtqueue) : list Z := take (Z.to_nat (vhost_hlen vq)) (hdr_bytes 0).
Definition used_elem (vq : vhost_virtqueue) (j : job) : Z * Z :=
  (j_head j, if room (j_chain j) (vhost_hlen vq) (total_len (j_segs j)) then total_len (j_segs j) + vhost_hlen vq else vhost_hlen vq).
Definition job_ok (ds : list vring_desc) (vq : vhost_virtqueue) (B : gmap Z rte_mbuf) (m : gmap Z Z) (j : job) : Prop :=
  chain_ok ds (vhost_hlen vq) (j_head j) (j_chain j) m ∧ packet_ok B (j_pkt j) (j_segs j) (vhost_hlen vq) m.
(** All buffers of the guest, and all data of the packets. *)
Definition targets (js : list job) : list Z := concat ((λ j, areas (j_chain j)) <$> js).
Definition sources (js : list job) : list Z := concat ((λ j, seg_areas (j_segs j)) <$> js).
Definition put_bytes (vq : vhost_virtqueue) (m' : gmap Z Z) (u : vring_used) (r : list (Z * Z)) (w : vworld) : vworld := w <| bytes := m' |> <| useds := <[used vq := u <| us_ring := r |>]> (useds w) |>.

Lemma job_ok_dom ds vq B m m' j : dom m' = dom m → job_ok ds vq B m j → job_ok ds vq B m' j.
Proof. intros Hd [[H1 H2 H3 H4 H5] [K1 K2 K3 K4 K5]]. split; split; try done; intros x Hx; apply elem_of_dom; rewrite Hd; apply elem_of_dom; auto. Qed.
Lemma delivered_frame c hdr S m m1 m' : delivered c hdr S m m1 → (∀ x, x ∈ areas c → m' !! x = m1 !! x) → delivered c hdr S m m'.
Proof. intros [H1 H2] Hx. split; [intros Hr i x b Hi Hb; rewrite Hx by (by eapply list_elem_of_lookup_2); by eapply H1|intros i x s Hi Hs; rewrite Hx by (by eapply list_elem_of_lookup_2); by eapply H2]. Qed.
Lemma delivered_source c hdr S m m1 m' : delivered c hdr S m1 m' → (∀ x, x ∈ S → m1 !! x = m !! x) → delivered c hdr S m m'.
Proof. intros [H1 H2] Hx. split; [done|]. intros i x s Hi Hs. rewrite <- Hx by (by eapply list_elem_of_lookup_2). by eapply H2. Qed.

Lemma rx_loop_run vq ds k heads bufs fuel js : ∀ n u idx pos w,
  descs w !! desc vq = Some ds → useds w !! used vq = Some u → vq_size vq = 2 ^ k → 0 <= k <= 15 → length (us_ring u) = Z.to_nat (vq_size vq) → 0 <= vhost_hlen vq <= 12 →
  Forall (job_ok ds vq (mbufs (pkts w)) (bytes w)) js → NoDup (targets js) → (∀ x, x ∈ targets js → x ∉ sources js) →
  (∀ i j, js !! i = Some j → load heads (pos + Z.of_nat i) = Some (j_head j) ∧ load bufs (pos + Z.of_nat i) = Some (hd NULL (j_pkt j)) ∧ (length (j_chain j) + length (j_segs j) <= fuel)%nat) →
  is_u16 idx → (length js <= n)%nat → Z.of_nat n < 2 ^ 16 →
  ∃ m', rx_loop dev n fuel vq heads bufs pos idx (u16 (idx + Z.of_nat (length js))) w = Some (put_bytes vq m' u (put_used (vq_size vq) idx (used_elem vq <$> js) (us_ring u)) w) ∧
    Forall (λ j, delivered (j_chain j) (hdr0 vq) (seg_areas (j_segs j)) (bytes w) m') js ∧ (∀ x, x ∉ targets js → m' !! x = bytes w !! x) ∧ dom m' = dom (bytes w).
Proof.
  induction js as [|j js IH]; intros n u idx pos w Hds Hu Hsz Hk Hul Hh Hjs Hnd Hap Hld Hidx Hn Hn16.
  { exists (bytes w). replace (idx + Z.of_nat (length [])) with idx by (simpl; lia). rewrite u16_small by done. cbn [fmap list_fmap put_used]. assert (rx_loop dev n fuel vq heads bufs pos idx idx w = Some w) as -> by (destruct n; simpl; by rewrite Z.eqb_refl). split; [|done]. f_equal. unfold put_bytes. destruct w, u. cbv [alter_field]. simpl in *. f_equal. symmetry. by apply insert_id. }
  cbn [length] in Hn |- *. destruct n as [|n]; [lia|]. cbn [rx_loop]. unfold is_u16 in Hidx.
  destruct (Z.eqb_spec idx (u16 (idx + Z.of_nat (S (length js))))) as [He|He].
  { exfalso. assert (idx mod 2 ^ 16 = (idx + Z.of_nat (S (length js))) mod 2 ^ 16) as He' by (rewrite Z.mod_small by lia; exact He). apply mod_near in He'; lia. }
  destruct (Hld 0%nat j eq_refl) as (Hh0 & Hb0 & Hf0). rewrite Z.add_0_r in Hh0, Hb0. rewrite Hh0, Hb0. cbn [mbind option_bind]. apply Forall_cons in Hjs as [[Hc Hp] Hjs].
  unfold targets, sources in Hnd, Hap. cbn [fmap list_fmap concat] in Hnd, Hap. apply NoDup_app in Hnd as (_ & Hdis & Hnd). assert (Hi : 0 <= Z.land idx (vq_size vq - 1) < Z.of_nat (length (us_ring u))). { rewrite Hsz, land_mask by lia. rewrite Hul, Hsz. pose proof (Z.pow_pos_nonneg 2 k). pose proof (Z.mod_pos_bound idx (2 ^ k)). lia. }
  destruct (rx_packet_run fuel vq ds u (j_head j) idx (j_pkt j) (j_segs j) (j_chain j) w Hds Hu Hi Hh Hc Hp) as (m1 & -> & Hdel & Hoth & Hdom); [|done|].
  { intros x Hx Hx'. apply (Hap x); apply elem_of_app; by left. }
  cbn [mbind option_bind]. rewrite Hsz, land_mask in * by lia. set (w1 := w <| bytes := m1 |> <| useds := _ |>). set (u1 := u <| us_ring := _ |>) in w1.
  replace (u16 (idx + Z.of_nat (S (length js)))) with (u16 (u16 (idx + 1) + Z.of_nat (length js))) by (unfold u16; rewrite Zplus_mod_idemp_l; f_equal; lia).
  destruct (IH n u1 (u16 (idx + 1)) (pos + 1) w1) as (m' & Hrun & Hdels & Hoth' & Hdom').
  1-13: try done.
  - unfold w1, u1. cbn. by rewrite lookup_insert_eq.
  - unfold u1. cbn. rewrite length_insert; congruence.
  - apply (Forall_impl _ _ _ Hjs). intros x Hx. by apply (job_ok_dom _ _ _ (bytes w)).
  - intros x Hx Hx'. apply (Hap x); apply elem_of_app; by right.
  - intros i j' Hj'. replace (pos + 1 + Z.of_nat i) with (pos + Z.of_nat (S i)) by lia. by apply (Hld (S i)).
  - apply u16_range.
  - lia.
  - lia.
  - exists m'. rewrite Hrun. rewrite put_used_u16 by lia. split_and!.
    + f_equal. unfold put_bytes, w1, u1. cbn. destruct w. cbv [alter_field]. simpl. by rewrite insert_insert_eq.
    + constructor.
      * eapply delivered_frame; [exact Hdel|]. intros x Hx. rewrite Hoth'; [done|]. by apply Hdis.
      * rewrite Forall_forall in Hdels |- *. intros j' Hj'. eapply delivered_source; [by apply Hdels|]. intros x Hx. apply Hoth. intros Hin. apply (Hap x); apply elem_of_app; [by left|right]. apply elem_of_concat. eexists. split; [|exact Hx]. apply list_elem_of_fmap. by exists j'.
    + intros x Hx. unfold targets in Hx. cbn [fmap list_fmap concat] in Hx. rewrite not_elem_of_app in Hx. rewrite Hoth' by tauto. apply Hoth. tauto.
    + by rewrite Hdom'.
Qed.
End rx.

(** The number of packets a burst takes: at most 32, and one for each entry the
    guest has made available. *)
Definition rx_burst_size (vq : vhost_virtqueue) (av : vring_avail) (count : Z) : Z := Z.min (Z.min count MAX_PKT_BURST) (u16 (av_idx av - last_used_idx_res vq)).

