(* ===== verification/VirtTx.v ===== *)
(** * Packets from a guest

    [rte_vhost_dequeue_burst]: the bytes of each descriptor chain, without the
    header, become a packet in new buffers of the pool. *)
From S2P Require Import Prelude BurstQueue Ring RingSpec Mempool MempoolInit Mbuf MbufInv MbufOps VirtQueue VirtMem.
Open Scope Z_scope.

(** ** Packets under construction *)

(** The packet at [p] has its data at the addresses [A]. *)
Definition built (B : gmap Z rte_mbuf) (p A : list Z) : Prop := ∃ ms, packet_segs B p ms ∧ seg_areas ms = A.

Lemma segs_frame B p ms a x : a ∉ p → packet_segs B p ms → packet_segs (<[a := x]> B) p ms.
Proof.
  revert ms. induction p as [|b p IH]; intros [|m ms] Ha H; try done. apply not_elem_of_cons in Ha as [Hab Ha]. destruct H as (Hb & ? & ? & ? & H). cbn. rewrite lookup_insert_ne by done. split_and!; try done. by apply IH.
Qed.
Lemma built_frame B p A a x : a ∉ p → built B p A → built (<[a := x]> B) p A.
Proof. intros Ha (ms & H & <-). exists ms. split; [by apply segs_frame|done]. Qed.
(** A change that is not one of the data. *)
Lemma built_same B p A a x x' : NoDup p → built B p A → B !! a = Some x → buf_addr x' = buf_addr x → data_off x' = data_off x → data_len x' = data_len x → m_next x' = m_next x → built (<[a := x']> B) p A.
Proof.
  intros Hnd (ms & H & <-) Ha Hb Ho Hl Hn. revert ms H. induction p as [|b p IH]; intros [|m ms] H; try done; [by exists []|]. apply NoDup_cons in Hnd as [Hbp Hnd]. destruct H as (Hm & Hnn & Hnx & Hs & H).
  assert (Hsa : seg_area x' = seg_area x) by (unfold seg_area; congruence). destruct (decide (a = b)) as [<-|Hne].
  - assert (m = x) as -> by congruence. exists (x' :: ms). split; [|unfold seg_areas; cbn [fmap list_fmap concat]; by rewrite Hsa]. cbn. rewrite lookup_insert_eq. split_and!; [done|done|congruence| |by apply segs_frame]. destruct Hs as [? ? ?]. split; congruence.
  - destruct (IH Hnd ms H) as (ms' & H' & He). exists (m :: ms'). split; [|unfold seg_areas in *; cbn [fmap list_fmap concat]; by rewrite He]. cbn. rewrite lookup_insert_ne by done. done.
Qed.
(** The last segment gets its data. *)
Lemma built_last B l a A c c' : a ∉ l → built B (l ++ [a]) A → B !! a = Some c → data_len c = 0 → m_next c' = m_next c → seg_ok c' → built (<[a := c']> B) (l ++ [a]) (A ++ seg_area c').
Proof.
  intros Hal (ms & H & <-) Ha Hl Hn Hs. revert ms H. induction l as [|b l IH]; intros [|m ms] H; try done.
  - destruct H as (Hm & Hnn & Hnx & _ & H). cbn in Hnx. assert (m = c) as -> by congruence. destruct ms; [|done]. exists [c']. split; [cbn; rewrite lookup_insert_eq; split_and!; try done; congruence|]. assert (seg_area c = []) as Hc by (unfold seg_area; by rewrite Hl). unfold seg_areas. cbn [fmap list_fmap concat]. by rewrite Hc, !app_nil_r.
  - apply not_elem_of_cons in Hal as [Hab Hal]. destruct H as (Hm & Hnn & Hnx & Hsm & H). destruct (IH Hal ms H) as (ms' & H' & He). exists (m :: ms'). split; [|unfold seg_areas in *; cbn [fmap list_fmap concat]; by rewrite He, app_assoc]. cbn [packet_segs app]. rewrite lookup_insert_ne by done. done.
Qed.
(** A new segment is linked to the last one. *)
Lemma built_snoc B l a b A c y : a ∉ l → b ∉ l ++ [a] → b ≠ NULL → built B (l ++ [a]) A → B !! a = Some c → B !! b = Some y → m_next y = NULL → data_len y = 0 → seg_ok y → built (<[a := c <| m_next := b |>]> B) ((l ++ [a]) ++ [b]) A.
Proof.
  intros Hal Hb Hbn (ms & H & <-) Ha Hy Hyn Hyl Hys. revert ms H. induction l as [|x l IH]; intros [|m ms] H; try done.
  - destruct H as (Hm & Hnn & Hnx & [Hs1 Hs2 Hs3] & H). assert (m = c) as -> by congruence. destruct ms; [|done]. exists [c <| m_next := b |>; y]. cbn in Hb. apply not_elem_of_cons in Hb as [Hba _]. split.
    + cbn. rewrite lookup_insert_eq, lookup_insert_ne by done. split_and!; try done.
    + assert (seg_area y = []) as Hc by (unfold seg_area; by rewrite Hyl). unfold seg_areas. cbn [fmap list_fmap concat]. by rewrite Hc.
  - apply not_elem_of_cons in Hal as [Hax Hal]. cbn [app] in Hb. apply not_elem_of_cons in Hb as [Hbx Hb]. destruct H as (Hm & Hnn & Hnx & Hsm & H). destruct (IH Hal Hb ms H) as (ms' & H' & He). exists (m :: ms'). split; [|unfold seg_areas in *; cbn [fmap list_fmap concat]; by rewrite He]. cbn [packet_segs app]. rewrite lookup_insert_ne by done. split_and!; try done. by destruct l.
Qed.
Lemma built_in B p A a : built B p A → a ∈ p → ∃ m, B !! a = Some m ∧ seg_ok m.
Proof. intros (ms & H & _). revert ms H. induction p as [|b p IH]; intros [|m ms] H Ha; try done; [by apply not_elem_of_nil in Ha|]. destruct H as (Hm & _ & _ & Hs & H). apply elem_of_cons in Ha as [->|Ha]; [by exists m|by eapply IH]. Qed.
Lemma built_chain B p A : built B p A → chain B p.
Proof. intros (ms & H & _). by eapply packet_segs_chain. Qed.

(** ** Where the buffers are *)

(** What of the buffers does not change as long as none is attached. *)
Definition lay (B : gmap Z rte_mbuf) : gmap Z (bool * Z * Z) := (λ x, (RTE_MBUF_INDIRECT x, buf_addr x, buf_len x)) <$> B.
Definition buffer (x : rte_mbuf) : list Z := range (buf_addr x) (buf_len x).
(** Buffers with their own data are apart from each other and from the guest's
    addresses [G], mapped, and have [r] bytes behind the headroom. *)
Record layout (r : Z) (B : gmap Z rte_mbuf) (m : gmap Z Z) (G : list Z) : Prop := {
  ly_mapped : ∀ a x y, B !! a = Some x → RTE_MBUF_INDIRECT x = false → y ∈ buffer x → is_Some (m !! y);
  ly_apart : ∀ a b x x' y, B !! a = Some x → B !! b = Some x' → RTE_MBUF_INDIRECT x = false → RTE_MBUF_INDIRECT x' = false → a ≠ b → y ∈ buffer x → y ∉ buffer x';
  ly_guest : ∀ a x y, B !! a = Some x → RTE_MBUF_INDIRECT x = false → y ∈ buffer x → y ∉ G;
  ly_room : ∀ a x, B !! a = Some x → RTE_MBUF_INDIRECT x = false → RTE_PKTMBUF_HEADROOM + r <= buf_len x ∧ 0 <= buf_addr x ∧ buf_addr x + buf_len x <= 2 ^ 64 }.
Lemma lay_insert B a x x' : B !! a = Some x → RTE_MBUF_INDIRECT x' = RTE_MBUF_INDIRECT x → buf_addr x' = buf_addr x → buf_len x' = buf_len x → lay (<[a := x']> B) = lay B.
Proof. intros Ha H1 H2 H3. unfold lay. rewrite fmap_insert, H1, H2, H3. apply insert_id. by rewrite lookup_fmap, Ha. Qed.
Lemma lay_at B B' a x : lay B' = lay B → B' !! a = Some x → ∃ y, B !! a = Some y ∧ RTE_MBUF_INDIRECT x = RTE_MBUF_INDIRECT y ∧ buf_addr x = buf_addr y ∧ buf_len x = buf_len y ∧ buffer x = buffer y.
Proof. intros Hl Ha. assert (lay B' !! a = lay B !! a) as He by (by rewrite Hl). unfold lay in He. rewrite !lookup_fmap, Ha in He. destruct (B !! a) as [y|]; [|done]. injection He as ? ? ?. exists y. unfold buffer. split_and!; congruence. Qed.
Lemma layout_lay r B B' m m' G : lay B' = lay B → dom m' = dom m → layout r B m G → layout r B' m' G.
Proof.
  intros Hl Hd [H1 H2 H3 H4]. split.
  - intros a x y Ha Hi Hy. destruct (lay_at _ _ a x Hl Ha) as (z & Hz & ? & ? & ? & Hb). rewrite Hb in Hy. apply elem_of_dom. rewrite Hd. apply elem_of_dom. apply (H1 a z y Hz); [congruence|done].
  - intros a b x x' y Ha Hb Hi Hi' Hne Hy. destruct (lay_at _ _ a x Hl Ha) as (z & Hz & ? & _ & _ & Hbz), (lay_at _ _ b x' Hl Hb) as (z' & Hz' & ? & _ & _ & ->). rewrite Hbz in Hy. apply (H2 a b z z' y Hz Hz'); congruence.
  - intros a x y Ha Hi Hy. destruct (lay_at _ _ a x Hl Ha) as (z & Hz & ? & ? & ? & Hb). rewrite Hb in Hy. apply (H3 a z y Hz); [congruence|done].
  - intros a x Ha Hi. destruct (lay_at _ _ a x Hl Ha) as (z & Hz & ? & -> & -> & _). apply (H4 a z Hz). congruence.
Qed.

(** The data of a packet lies in its buffers, each byte once. *)
Lemma built_buffer B p A x : built B p A → (∀ a m, a ∈ p → B !! a = Some m → in_bounds m) → x ∈ A → ∃ a m, a ∈ p ∧ B !! a = Some m ∧ x ∈ buffer m.
Proof.
  intros (ms & H & <-) Hb Hx. revert ms H Hx. induction p as [|a p IH]; intros [|m ms] H Hx; try done; [by apply not_elem_of_nil in Hx|]. destruct H as (Hm & _ & _ & _ & H). unfold seg_areas in Hx. cbn [fmap list_fmap concat] in Hx. apply elem_of_app in Hx as [Hx|Hx].
  - exists a, m. split; [left|]. split; [done|]. destruct (Hb a m ltac:(left) Hm) as [? ? ? ?]. unfold seg_area in Hx. unfold buffer. rewrite elem_of_range in *. lia.
  - destruct (IH) with (ms := ms) as (b & y & ? & ? & ?); [intros b y Hy; by apply Hb; right|done|done|]. exists b, y. split; [by right|done].
Qed.
Lemma built_NoDup r B p A m G : layout r B m G → built B p A → (∀ a x, a ∈ p → B !! a = Some x → in_bounds x ∧ RTE_MBUF_INDIRECT x = false) → NoDup p → NoDup A ∧ ∀ x, x ∈ A → x ∉ G.
Proof.
  intros HL Hbt Hb Hnd. split.
  - destruct Hbt as (ms & H & <-). revert ms H. induction p as [|a p IH]; intros [|y ms] H; try done; try apply NoDup_nil_2. apply NoDup_cons in Hnd as [Hap Hnd]. destruct H as (Hy & _ & _ & _ & H). unfold seg_areas. cbn [fmap list_fmap concat]. fold (seg_areas ms). apply NoDup_app. split; [apply range_NoDup|]. split; [|apply IH; [intros b z Hz; by apply Hb; right|done|done]].
    intros x Hx Hx'. destruct (Hb a y ltac:(left) Hy) as [[? ? ? ?] Hdy]. assert (Hxy : x ∈ buffer y) by (unfold seg_area in Hx; unfold buffer; rewrite elem_of_range in *; lia).
    destruct (built_buffer B p (seg_areas ms) x) as (b & z & Hbp & Hz & Hxz); [by exists ms|intros b z Hz; by apply Hb; right|done|]. destruct (Hb b z ltac:(by right) Hz) as [_ Hdz]. eapply (ly_apart _ _ _ _ HL a b y z x); try done. intros ->. done.
  - intros x Hx. destruct (built_buffer B p A x) as (a & y & Ha & Hy & Hxy); [done|intros a y Ha Hy; by apply (Hb a y)|done|]. eapply ly_guest; [done|exact Hy|by apply (Hb a y)|done].
Qed.

Section tx.
Context (hugepages : bool) (rte_mem_virt2phy : Z → Z) (lcore : Z) (Hlcore : 0 <= lcore) (dev : virtio_net) (mm : virtio_memory) (Hmem : mem dev = Some mm) (mp : Z) (DP : gset Z) (rm : Z) (Hrm : 0 < rm).
Notation inv := (inv hugepages rte_mem_virt2phy).
Notation bufs w := (mbufs (pkts w)).

(** The segments a packet of [n] bytes needs at most. *)
Definition needed (n : Z) : Z := Z.max 1 ((n + rm - 1) / rm).
(** [n] objects are taken. *)
Fixpoint gets (n : nat) (p : pool) : option pool :=
  match n with
  | O => Some p
  | S n => match rte_mempool_get p lcore [NULL] with Some (ret, _, p') => if ret <? 0 then None else gets n p' | None => None end
  end.
(** The packet [p] with its data at [A], and [E] written behind it: the bytes of
    [dn] have been copied there. [R] are the references of others, and the pool
    was [p0] before. *)
Record pstate (B0 : gmap Z rte_mbuf) (m0 : gmap Z Z) (p0 : pool) (R : list Z) (T : gmap Z Z) (w : vworld) (p A E dn : list Z) : Prop := {
  ps_inv : inv (pkts w) (p ++ R) T [];
  ps_pool : dom (pools (pkts w)) = DP ∧ ∃ pl, pools (pkts w) !! mp = Some pl ∧ gets (length p) p0 = Some (mempool pl);
  ps_built : built (bufs w) p A;
  ps_head : ∃ h, bufs w !! hd NULL p = Some h ∧ pkt_len h = Z.of_nat (length A);
  ps_new : NoDup p ∧ ∀ a, a ∈ p → a ∉ R ∧ T !! a = None;
  ps_lay : lay (bufs w) = lay B0;
  ps_kept : kept B0 (bufs w) R;
  ps_move : move (zip (A ++ E) dn) m0 = Some (bytes w);
  ps_len : length dn = length (A ++ E);
  ps_u32 : Z.of_nat (length dn) < 2 ^ 32 }.
Record building B0 m0 p0 R T w l cur c so A dn : Prop := {
  bd_state : pstate B0 m0 p0 R T w (l ++ [cur]) A (range (buf_addr c + RTE_PKTMBUF_HEADROOM) so) dn;
  bd_cur : bufs w !! cur = Some c;
  bd_blank : data_len c = 0 ∧ data_off c = RTE_PKTMBUF_HEADROOM;
  bd_so : 0 <= so <= buf_len c - RTE_PKTMBUF_HEADROOM;
  bd_count : Z.of_nat (length l) * rm <= Z.of_nat (length A) }.

Lemma gets_app k j p : gets (k + j) p = gets k p ≫= gets j.
Proof. revert p. induction k as [|k IH]; intros p; [done|]. cbn [plus gets]. destruct (rte_mempool_get p lcore [NULL]) as [[[ret ?] p']|]; [|done]. destruct (ret <? 0); [done|]. apply IH. Qed.
Lemma gets_le k j p : (j <= k)%nat → is_Some (gets k p) → is_Some (gets j p).
Proof. intros Hj H. replace k with (j + (k - j))%nat in H by lia. rewrite gets_app in H. destruct (gets j p); [by eexists|by destruct H]. Qed.
Lemma alloc_gets P R T pl a P' : inv P R T [] → pools P !! mp = Some pl → rte_pktmbuf_alloc lcore mp P = Some (a, P') →
  (a = NULL ∧ gets 1 (mempool pl) = None) ∨ (a ≠ NULL ∧ ∃ pl', pools P' !! mp = Some pl' ∧ gets 1 (mempool pl) = Some (mempool pl')).
Proof.
  intros HI Hp Hal. destruct (raw_get _ _ lcore Hlcore P R T [] mp pl HI Hp) as (ret & tbl & mp' & Hg & Hcase). unfold rte_pktmbuf_alloc, __rte_mbuf_raw_alloc in Hal. rewrite Hp in Hal. cbn [mbind option_bind] in Hal. rewrite Hg in Hal. cbn [mbind option_bind] in Hal. cbn [gets]. rewrite Hg.
  destruct Hcase as [[Hlt _]|(-> & b & m & -> & Hb & _ & _ & HI')].
  - rewrite (proj2 (Z.ltb_lt ret 0)) in Hal |- * by done. cbn in Hal. left. by simplify_eq.
  - cbn in Hal. unfold upd_mbuf in Hal. change (load [b] 0) with (Some b) in Hal. cbn in Hal. rewrite Hb in Hal. cbn in Hal. destruct (i_ok _ _ _ _ _ _ HI b m Hb) as [(q & _ & [[? _] _ _ _] & _) _ _ _ _]. destruct (Z.eqb_spec b NULL) as [->|Hne]; [unfold NULL in *; lia|]. rewrite lookup_insert_eq in Hal. cbn in Hal. simplify_eq. right. split; [done|]. exists (pl <| mempool := mp' |>). cbn. by rewrite lookup_insert_eq.
Qed.
Lemma needed_gt k n : 0 <= k → k * rm < n → k < needed n.
Proof. intros Hk Hn. unfold needed. assert (k + 1 <= (n + rm - 1) / rm); [|lia]. apply Z.div_le_lower_bound; lia. Qed.

Lemma seg_direct w R T a m : inv (pkts w) R T [] → bufs w !! a = Some m → T !! a = None → RTE_MBUF_INDIRECT m = false ∧ in_bounds m.
Proof. intros HI Ha HT. split; [rewrite (is_indirect _ _ _ _ _ _ _ _ HI Ha); by rewrite bool_decide_false by tauto|exact (o_data _ _ _ _ _ _ _ _ _ (i_ok _ _ _ _ _ _ HI a m Ha))]. Qed.

Lemma copy_step B0 m0 p0 G R T w l cur c so A dn x n : building B0 m0 p0 R T w l cur c so A dn → layout rm B0 m0 G → 0 <= n → so + n <= buf_len c - RTE_PKTMBUF_HEADROOM → 0 <= x → x + n <= 2 ^ 64 → Z.of_nat (length dn) + n < 2 ^ 32 →
  (∀ y, y ∈ range x n → y ∈ G ∧ is_Some (m0 !! y)) →
  ∃ by', rte_memcpy (rte_pktmbuf_mtod_offset c so) (u64 x) n (bytes w) = Some by' ∧ building B0 m0 p0 R T (w <| bytes := by' |>) l cur c (so + n) A (dn ++ range x n).
Proof.
  intros [[HI Hp Hbt Hh [Hnd Hnew] Hlay Hk Hmv Hln H32] Hc [Hc0 Hco] Hso Hcnt] HL Hn Hfit Hx Hx64 Hd32 Hsrc. destruct (Hnew cur) as [HcR HcT]; [apply elem_of_app; right; left|]. destruct (seg_direct w _ T cur c HI Hc HcT) as [Hdir [? ? ? ?]].
  assert (HL' : layout rm (bufs w) (bytes w) G) by (eapply layout_lay; [exact Hlay|by eapply move_dom|done]). destruct (ly_room _ _ _ _ HL' cur c Hc Hdir) as (Hroom & Hb0 & Hb64). unfold RTE_PKTMBUF_HEADROOM in *.
  assert (Hin : ∀ y, y ∈ range (buf_addr c + 128 + so) n → y ∈ buffer c) by (intros y; unfold buffer; rewrite !elem_of_range; lia).
  destruct (move_run (range (buf_addr c + 128 + so) n) (range x n) (bytes w)) as (by' & Hrun & _).
  { apply range_NoDup. }
  { intros y Hy Hy'. eapply (ly_guest _ _ _ _ HL' cur c y Hc Hdir); [by apply Hin|]. by apply Hsrc. }
  { intros y Hy. apply elem_of_dom. rewrite (move_dom _ _ _ Hmv). apply elem_of_dom. by apply Hsrc. }
  { intros y Hy. eapply (ly_mapped _ _ _ _ HL' cur c); [done|done|by apply Hin]. }
  exists by'. unfold rte_pktmbuf_mtod_offset. rewrite Hco, memcpy_prefix; [|lia..|intros y Hy Hy'; eapply (ly_guest _ _ _ _ HL' cur c y Hc Hdir); [by apply Hin|by apply Hsrc]]. split; [done|].
  split; [|done|done|unfold RTE_PKTMBUF_HEADROOM; lia|done]. split; try done; cbn.
  - unfold RTE_PKTMBUF_HEADROOM. rewrite range_app, app_assoc by lia. rewrite zip_with_app by done. by rewrite move_app, Hmv.
  - unfold RTE_PKTMBUF_HEADROOM. rewrite range_app, app_assoc by lia. rewrite length_app, Hln, (length_app (A ++ _)), !range_length. done.
  - rewrite length_app, range_length. lia.
Qed.

(** The other parts of the memory. *)
Definition rest_same (w w' : vworld) : Prop := w' = w <| bytes := bytes w' |> <| pkts := pkts w' |>.
(** Only buffers that were free are written. *)
Definition untouched (B0 : gmap Z rte_mbuf) (R : list Z) (m0 m : gmap Z Z) : Prop := ∀ x, (∀ a y, a ∉ R → B0 !! a = Some y → RTE_MBUF_INDIRECT y = false → x ∉ buffer y) → m !! x = m0 !! x.
(** A packet of [tot] bytes that was given up for lack of a buffer. *)
Record given_up (B0 : gmap Z rte_mbuf) (m0 : gmap Z Z) (p0 : pool) (tot : Z) (R : list Z) (w w' : vworld) : Prop := {
  gu_why : ∃ k, Z.of_nat k < needed tot ∧ gets (S k) p0 = None;
  gu_inv : ∃ T, inv (pkts w') R T [];
  gu_pool : dom (pools (pkts w')) = DP;
  gu_kept : kept B0 (bufs w') R;
  gu_bytes : untouched B0 R m0 (bytes w');
  gu_rest : rest_same w w' }.

Lemma upd_pkt_eq a m f w : bufs w !! a = Some m → upd_pkt a f w = Some (w <| pkts := set_mbuf a (f m) (pkts w) |>).
Proof. unfold upd_pkt, upd_mbuf. intros ->. done. Qed.
Lemma rest_same_trans w1 w2 w3 : rest_same w1 w2 → rest_same w2 w3 → rest_same w1 w3.
Proof. unfold rest_same. intros H1 H2. rewrite H2. rewrite H1. by destruct w1. Qed.

(** The segment in use gets its length, and the packet the new one. *)
Lemma finish_step B0 m0 p0 G R T w l cur c so A dn : building B0 m0 p0 R T w l cur c so A dn → layout rm B0 m0 G → let E := range (buf_addr c + RTE_PKTMBUF_HEADROOM) so in
  ∃ w1 w2 c2, upd_pkt cur (λ x, x <| data_len := u16 so |>) w = Some w1 ∧ upd_pkt (hd NULL (l ++ [cur])) (λ x, x <| pkt_len := u32 (pkt_len x + so) |>) w1 = Some w2 ∧
    pstate B0 m0 p0 R T w2 (l ++ [cur]) (A ++ E) [] dn ∧ rest_same w w2 ∧ bufs w2 !! cur = Some c2.
Proof.
  intros [Hst Hc [Hc0 Hco] Hso Hcnt] HL E. pose proof Hst as [HI _ Hbt (h & Hh & Hhl) [Hnd Hnew] Hlay _ Hmv Hln H32]. assert (Hcp : cur ∈ l ++ [cur]) by (apply elem_of_app; right; left). destruct (Hnew cur Hcp) as [HcR HcT].
  destruct (seg_direct w _ T cur c HI Hc HcT) as [Hdir [? ? ? ?]]. assert (HL' : layout rm (bufs w) (bytes w) G) by (eapply layout_lay; [exact Hlay|by eapply move_dom|done]). destruct (ly_room _ _ _ _ HL' cur c Hc Hdir) as (Hroom & Hb0 & Hb64).
  assert (HlE : Z.of_nat (length E) = so) by (unfold E; rewrite range_length; lia). rewrite length_app in Hln. fold E in Hln. unfold RTE_PKTMBUF_HEADROOM in *.
  assert (Hcl : cur ∉ l) by (apply NoDup_app in Hnd as (_ & Hd & _); intros Hin; apply (Hd cur Hin); left). set (c1 := c <| data_len := u16 so |>). assert (Hc1 : u16 so = so) by (apply u16_small; unfold is_u16; lia).
  rewrite (upd_pkt_eq cur c) by done. fold c1. set (w1 := w <| pkts := set_mbuf cur c1 (pkts w) |>). set (B1 := <[cur := c1]> (bufs w)). assert (Hh1 : ∃ h1, B1 !! hd NULL (l ++ [cur]) = Some h1 ∧ pkt_len h1 = pkt_len h).
  { unfold B1. destruct (decide (cur = hd NULL (l ++ [cur]))) as [He|He]; [rewrite <- He, lookup_insert_eq; exists c1; split; [done|]; rewrite <- He in Hh; assert (h = c) as -> by congruence; done|rewrite lookup_insert_ne by done; by exists h]. }
  destruct Hh1 as (h1 & Hh1 & Hhl1). set (h2 := h1 <| pkt_len := u32 (pkt_len h1 + so) |>).
  assert (Hhp : hd NULL (l ++ [cur]) ∈ l ++ [cur]) by (destruct l; left). assert (Hseg : seg_area c1 = E) by (unfold seg_area, E, c1; cbn; by rewrite Hco, Hc1).
  assert (Hbt1 : built B1 (l ++ [cur]) (A ++ E)). { rewrite <- Hseg. unfold B1. apply (built_last _ l cur A c c1); try done. split; unfold c1; cbn; rewrite ?Hc1; [unfold is_u16; lia|lia|lia]. }
  assert (HI1 : inv (pkts w1) ((l ++ [cur]) ++ R) T []). { unfold w1; cbn. apply (buf_write _ _ _ _ _ _ cur c c1); [done|done|]. split; try done. split; unfold c1; cbn; rewrite ?Hc1; lia. }
  destruct (Hnew (hd NULL (l ++ [cur])) Hhp) as [HhR HhT]. destruct (seg_direct w1 _ T _ h1 HI1 Hh1 HhT) as [_ Hib].
  eexists w1, _, (if decide (cur = hd NULL (l ++ [cur])) then h2 else c1). split; [done|]. rewrite (upd_pkt_eq (hd NULL (l ++ [cur])) h1) by exact Hh1. fold h2. split; [done|]. split; [|split; [done|]].
  - assert (Hl2 : pkt_len h2 = Z.of_nat (length (A ++ E))) by (unfold h2; cbn; rewrite Hhl1, Hhl, length_app; rewrite u32_small; [lia|unfold is_u32; lia]).
    destruct Hst as [_ Hp _ _ _ _ Hk _ _ _]. split; try done; cbn.
    + apply (buf_write _ _ _ _ _ _ _ h1 h2); [done|done|]. split; try done. destruct Hib. by split.
    + apply (built_same B1 _ _ _ h1 h2); done.
    + exists h2. split; [by rewrite lookup_insert_eq|done].
    + rewrite (lay_insert _ _ h1 h2) by done. rewrite (lay_insert _ cur c c1) by done. done.
    + eapply kept_trans; [done|]. eapply kept_trans; [by apply (kept_other _ cur c1)|]. by apply kept_other.
    + by rewrite app_nil_r.
    + rewrite app_nil_r, length_app. lia.
  - cbn. case_decide as He; [by rewrite <- He, lookup_insert_eq|by rewrite lookup_insert_ne, lookup_insert_eq by done].
Qed.

(** Bytes that are in no free buffer stay. *)
Lemma pstate_untouched B0 m0 p0 G R T w p A E dn : pstate B0 m0 p0 R T w p A E dn → layout rm B0 m0 G → (∀ x, x ∈ E → ∃ a y, a ∈ p ∧ bufs w !! a = Some y ∧ x ∈ buffer y) → untouched B0 R m0 (bytes w).
Proof.
  intros [HI _ Hbt _ [Hnd Hnew] Hlay _ Hmv _ _] HL HE x Hx. apply (move_other _ _ _ _ Hmv). intros Hin. apply list_elem_of_fmap in Hin as ([y s] & -> & Hin). apply elem_of_zip_l in Hin. cbn in Hx.
  assert (∃ a z, a ∈ p ∧ bufs w !! a = Some z ∧ y ∈ buffer z) as (a & z & Ha & Hz & Hy). { apply elem_of_app in Hin as [Hin|Hin]; [|by apply HE]. eapply built_buffer; [done| |done]. intros a m Ha Hm. destruct (Hnew a Ha) as [_ HT]. by apply (seg_direct w _ T a m HI Hm HT). }
  destruct (Hnew a Ha) as [HaR HT]. destruct (seg_direct w _ T a z HI Hz HT) as [Hd _]. destruct (lay_at _ _ a z Hlay Hz) as (z0 & Hz0 & Hi & _ & _ & Hbf). apply (Hx a z0 HaR Hz0); [congruence|by rewrite <- Hbf].
Qed.

(** A new buffer, which is linked to the last segment, or none, and the packet is freed. *)
Lemma alloc_step B0 m0 p0 G R T w l cur c A dn ff tot : pstate B0 m0 p0 R T w (l ++ [cur]) A [] dn → layout rm B0 m0 G → bufs w !! cur = Some c → (length (l ++ [cur]) <= ff)%nat → Z.of_nat (length (l ++ [cur])) * rm <= Z.of_nat (length A) < tot →
  ∃ a w1, alloc_pkt lcore mp w = Some (a, w1) ∧
    ((a = NULL ∧ ∃ P, rte_pktmbuf_free hugepages rte_mem_virt2phy lcore ff (hd NULL (l ++ [cur])) (pkts w1) = Some P ∧ given_up B0 m0 p0 tot R w (w1 <| pkts := P |>)) ∨
     (a ≠ NULL ∧ ∃ w2 y, upd_pkt cur (λ x, x <| m_next := a |>) w1 = Some w2 ∧ building B0 m0 p0 R T w2 (l ++ [cur]) a y 0 A dn ∧ rest_same w w2)).
Proof.
  intros Hst HL Hc Hff Hcnt. pose proof Hst as [HI [Hdp (pl & Hpl & Hgets)] Hbt (h & Hh & Hhl) [Hnd Hnew] Hlay Hk Hmv Hln H32]. destruct (alloc_ok _ _ lcore Hlcore (pkts w) _ T mp pl HI Hpl) as (a & P & Hal & Hdom & Hcase). unfold alloc_pkt. rewrite Hal. cbn [mbind option_bind].
  exists a, (w <| pkts := P |>). split; [done|]. rewrite Hdp in Hdom. pose proof (alloc_gets _ _ _ pl _ _ HI Hpl Hal) as Hga. destruct Hcase as [(-> & Hm & HI')|(Ha & m & Hm & Hz & HT & HB & HI')]; [left|right]; (split; [done|]).
  - destruct (free_ok _ _ lcore Hlcore (l ++ [cur]) ff P R T HI') as (P' & T' & Hfree & Hdom' & Hk' & HI2); [rewrite Hm; by eapply built_chain|done|]. exists P'. destruct Hga as [[_ Hga]|[? _]]; [|done]. assert (Hwhy : gets (S (length (l ++ [cur]))) p0 = None) by (rewrite <- Nat.add_1_r, gets_app, Hgets; exact Hga). split; [exact Hfree|]. split; [exists (length (l ++ [cur])); split; [apply needed_gt; lia|exact Hwhy]|cbn..]; [by exists T'|congruence|eapply kept_trans; [exact Hk|by rewrite <- Hm]| |done].
    eapply (pstate_untouched B0 m0 p0 G R T w); [done|done|]. by intros x Hx%not_elem_of_nil.
  - destruct Hga as [[? _]|(_ & pl' & Hpl' & Hga)]; [done|]. assert (HaR : a ∉ (l ++ [cur]) ++ R). { destruct (i_ok _ _ _ _ _ _ HI a m Hm) as [_ Hcn _ _ _]. rewrite <- own_in. pose proof (attached_nonneg T a). lia. } rewrite not_elem_of_app in HaR. destruct HaR as [Hap HaR].
    assert (Hcl : cur ∉ l) by (apply NoDup_app in Hnd as (_ & Hd & _); intros Hin; apply (Hd cur Hin); left). assert (Hac : a ≠ cur) by (intros ->; apply Hap, elem_of_app; right; left). destruct (seg_direct w _ T a m HI Hm HT) as [Hdir [? ? ? ?]].
    assert (HL' : layout rm (bufs w) (bytes w) G) by (eapply layout_lay; [exact Hlay|by eapply move_dom|done]). destruct (ly_room _ _ _ _ HL' a m Hm Hdir) as (Hroom & Hb0 & Hb64). unfold RTE_PKTMBUF_HEADROOM in *.
    assert (Hbl : data_off (blank m) = 128 ∧ buf_len (blank m) = buf_len m ∧ buf_addr (blank m) = buf_addr m). { unfold blank, rte_pktmbuf_reset. cbn. unfold RTE_PKTMBUF_HEADROOM. rewrite (proj2 (Z.leb_le 128 (buf_len m))) by lia. done. } destruct Hbl as (Hbo & Hbl & Hba).
    assert (HcB : mbufs P !! cur = Some c) by (by rewrite HB, lookup_insert_ne). eexists _, (blank m). split; [apply (upd_pkt_eq cur c); exact HcB|]. split; [|done]. set (c' := c <| m_next := a |>).
    destruct (Hnew cur) as [HcR HcT]; [apply elem_of_app; right; left|]. destruct (seg_direct w _ T cur c HI Hc HcT) as [Hdc [? ? ? ?]].
    assert (HIc : inv (set_mbuf cur c' P) (a :: (l ++ [cur]) ++ R) T []). { apply (buf_write _ _ _ _ _ _ cur c c'); [exact HI'|exact HcB|]. by split. }
    assert (Hbt1 : built (<[a := blank m]> (bufs w)) (l ++ [cur]) A) by (by apply built_frame). assert (Hdl : data_len (blank m) = 0 ∧ m_next (blank m) = NULL) by done. destruct Hdl as [Hdl Hdn].
    split; [| |by rewrite Hbo|rewrite Hbl; unfold RTE_PKTMBUF_HEADROOM; lia|lia].
    + split; cbn; try done; rewrite ?(range_nil _ 0), ?app_nil_r in * by lia; try done.
      * eapply inv_perm; [|reflexivity|reflexivity|exact HIc]. rewrite <- app_assoc. solve_Permutation.
      * split; [done|]. exists pl'. split; [done|]. rewrite length_app, gets_app, Hgets. exact Hga.
      * rewrite HB. apply (built_snoc _ l cur a A c (blank m)); try done; [by rewrite lookup_insert_ne|by rewrite lookup_insert_eq|]. split; rewrite ?Hdl, ?Hbo, ?Hba; [unfold is_u16; lia|lia|lia].
      * rewrite HB. assert (hd NULL ((l ++ [cur]) ++ [a]) = hd NULL (l ++ [cur])) as -> by (by destruct l). assert (hd NULL (l ++ [cur]) ∈ l ++ [cur]) as Hhp by (destruct l; left). assert (a ≠ hd NULL (l ++ [cur])) by (intros He; apply Hap; by rewrite He).
        destruct (decide (cur = hd NULL (l ++ [cur]))) as [He|He]; [rewrite <- He, lookup_insert_eq; exists c'; split; [done|]; rewrite <- He in Hh; assert (h = c) as -> by congruence; done|rewrite !lookup_insert_ne by done; by exists h].
      * split; [apply NoDup_app; split; [done|]; split; [|apply NoDup_singleton]; intros x Hx ->%list_elem_of_singleton; done|]. intros x Hx. apply elem_of_app in Hx as [Hx| ->%list_elem_of_singleton]; [by apply Hnew|done].
      * rewrite HB. rewrite (lay_insert _ cur c c') by (by rewrite ?lookup_insert_ne). rewrite (lay_insert _ a m (blank m)); try done.
      * eapply kept_trans; [exact Hk|]. rewrite HB. eapply kept_trans; [by apply (kept_other _ a)|]. by apply kept_other.
    + cbn. by rewrite HB, lookup_insert_ne, lookup_insert_eq.
Qed.
Lemma building_room B0 m0 p0 G R T w l cur c so A dn : building B0 m0 p0 R T w l cur c so A dn → layout rm B0 m0 G → RTE_PKTMBUF_HEADROOM + rm <= buf_len c < 2 ^ 16.
Proof.
  intros [[HI _ _ _ [_ Hnew] Hlay _ Hmv _ _] Hc _ _ _] HL. destruct (Hnew cur) as [_ HcT]; [apply elem_of_app; right; left|]. destruct (seg_direct w _ T cur c HI Hc HcT) as [Hd [? ? ? ?]].
  assert (HL' : layout rm (bufs w) (bytes w) G) by (eapply layout_lay; [exact Hlay|by eapply move_dom|done]). destruct (ly_room _ _ _ _ HL' cur c Hc Hd) as (? & _). done.
Qed.
Lemma next_segment_run B0 m0 p0 G R T w l cur c so A dn ff tot : building B0 m0 p0 R T w l cur c so A dn → layout rm B0 m0 G → so = buf_len c - RTE_PKTMBUF_HEADROOM → (length l < ff)%nat → Z.of_nat (length dn) < tot → let E := range (buf_addr c + RTE_PKTMBUF_HEADROOM) so in
  ∃ r w', next_segment hugepages rte_mem_virt2phy lcore ff mp (hd NULL (l ++ [cur])) cur so w = Some (r, w') ∧
    ((r = None ∧ given_up B0 m0 p0 tot R w w') ∨ (∃ a y, r = Some a ∧ building B0 m0 p0 R T w' (l ++ [cur]) a y 0 (A ++ E) dn ∧ rest_same w w')).
Proof.
  intros Hbd HL Hso Hff Htot E. pose proof (building_room _ _ _ _ _ _ _ _ _ _ _ _ _ Hbd HL) as Hroom. destruct (finish_step _ _ _ _ _ _ _ _ _ _ _ _ _ Hbd HL) as (w1 & w2 & c2 & H1 & H2 & Hst & Hrs & Hc2). fold E in Hst. unfold next_segment. rewrite H1. cbn [mbind option_bind]. rewrite H2. cbn [mbind option_bind].
  assert (HlE : length E = Z.to_nat so) by apply range_length. destruct (alloc_step B0 m0 p0 G R T w2 l cur c2 (A ++ E) dn ff tot Hst HL Hc2) as (a & w3 & Ha & Hcase); [rewrite length_app; simpl; lia|pose proof (bd_count _ _ _ _ _ _ _ _ _ _ _ _ Hbd); pose proof (ps_len _ _ _ _ _ _ _ _ _ _ Hst) as Hln; rewrite app_nil_r, length_app, HlE in Hln; rewrite !length_app, HlE; simpl; lia|].
  rewrite Ha. cbn [mbind option_bind]. destruct Hcase as [(-> & P & Hfree & [? ? Hd ? ? ?])|(Hn & w4 & y & Hup & Hbd' & Hrs')].
  - cbn [Z.eqb NULL]. rewrite Hfree. eexists None, _. split; [done|]. left. split; [done|]. split; try done. by eapply rest_same_trans.
  - destruct (Z.eqb_spec a NULL); [done|]. rewrite Hup. eexists (Some a), w4. split; [done|]. right. exists a, y. split; [done|]. split; [done|by eapply rest_same_trans].
Qed.

Lemma given_up_trans B0 m0 p0 tot R w w1 w' : rest_same w w1 → given_up B0 m0 p0 tot R w1 w' → given_up B0 m0 p0 tot R w w'.
Proof. intros Hr []. split; try done. by eapply rest_same_trans. Qed.
Lemma seg_room_eq a y w : bufs w !! a = Some y → RTE_PKTMBUF_HEADROOM + rm <= buf_len y < 2 ^ 16 → seg_room a w = Some (buf_len y - RTE_PKTMBUF_HEADROOM).
Proof. unfold seg_room, RTE_PKTMBUF_HEADROOM. intros -> ?. cbn [mbind option_bind]. rewrite u32_small; [done|]. unfold is_u32. lia. Qed.

Notation desc_ok := (desc_ok mm).
Notation va := (va mm).
Notation areas := (areas mm).

(** The copy loop: the packet has all bytes of the descriptors that were left. *)
Lemma tx_copy_run vq ds B0 m0 p0 G R T ff tot fuel : layout rm B0 m0 G → ∀ d l w segs cur c so A dn vb,
  building B0 m0 p0 R T w segs cur c so A dn → descs w !! desc vq = Some ds → follows ds d l → Forall desc_ok (d :: l) → Forall (λ d, 0 < d_len d) l → 0 <= vb < d_len d → so < buf_len c - RTE_PKTMBUF_HEADROOM →
  let rest := range (va d + vb) (d_len d - vb) ++ areas l in (∀ y, y ∈ rest → y ∈ G ∧ is_Some (m0 !! y)) → Z.of_nat (length dn + length rest) = tot → tot < 2 ^ 31 → (length rest <= fuel)%nat → (length dn + length rest < ff)%nat →
  ∃ r w', tx_copy hugepages rte_mem_virt2phy lcore dev fuel ff vq mp (hd NULL (segs ++ [cur])) d (va d) vb (d_len d - vb) cur so (buf_len c - RTE_PKTMBUF_HEADROOM - so) (Z.of_nat (length segs) + 1) w = Some (r, w') ∧
    ((r = None ∧ given_up B0 m0 p0 tot R w w') ∨ (∃ p A', r = Some (Z.of_nat (length p)) ∧ Z.of_nat (length p) <= needed tot ∧ hd NULL p = hd NULL (segs ++ [cur]) ∧ pstate B0 m0 p0 R T w' p A' [] (dn ++ rest) ∧ rest_same w w')).
Proof.
  intros HL. induction fuel as [|fuel IH]; intros d l w segs cur c so A dn vb Hbd Hds Hf Hok Hpos Hvb Hso rest Hsrc Htot H32 Hfuel Hff.
  { exfalso. unfold rest in Hfuel. rewrite length_app, range_length in Hfuel. lia. }
  pose proof Hbd as [Hst Hc [Hc0 Hco] Hso' Hcnt]. pose proof (ps_len _ _ _ _ _ _ _ _ _ _ Hst) as Hln. rewrite length_app, range_length in Hln. pose proof (building_room _ _ _ _ _ _ _ _ _ _ _ _ _ Hbd HL) as Hroom. pose proof Hok as Hok'. apply Forall_cons in Hok' as [[[? ?] ? ?] Hl].
  assert (Hsl : Z.of_nat (length segs) <= Z.of_nat (length A)) by (clear -Hcnt Hrm; nia). cbn [tx_copy]. unfold RTE_PKTMBUF_HEADROOM in *. set (n := Z.min (d_len d - vb) (buf_len c - 128 - so)). destruct (Z.eqb_spec n 0); [lia|]. rewrite Hc. cbn [mbind option_bind].
  assert (Hr1 : rest = range (va d + vb) n ++ (range (va d + (vb + n)) (d_len d - (vb + n)) ++ areas l)). { unfold rest. rewrite app_assoc. f_equal. replace (d_len d - vb) with (n + (d_len d - (vb + n))) by lia. rewrite range_app by lia. by rewrite Z.add_assoc. }
  set (rest1 := range (va d + (vb + n)) (d_len d - (vb + n)) ++ areas l) in *. assert (Hl1 : length rest = (Z.to_nat n + length rest1)%nat) by (rewrite Hr1, length_app, range_length; done).
  destruct (copy_step B0 m0 p0 G R T w segs cur c so A dn (va d + vb) n Hbd HL) as (by' & -> & Hbd1); [lia|unfold RTE_PKTMBUF_HEADROOM; lia|lia|lia|lia|intros y Hy; apply Hsrc; rewrite Hr1; apply elem_of_app; by left|].
  cbn [mbind option_bind]. set (w1 := w <| bytes := by' |>) in *. set (dn1 := dn ++ range (va d + vb) n) in *. assert (Hld : length dn1 = (length dn + Z.to_nat n)%nat) by (unfold dn1; rewrite length_app, range_length; done). assert (Hdr : dn ++ rest = dn1 ++ rest1) by (unfold dn1; by rewrite Hr1, app_assoc).
  assert (Hsrc1 : ∀ y, y ∈ rest1 → y ∈ G ∧ is_Some (m0 !! y)) by (intros y Hy; apply Hsrc; rewrite Hr1; apply elem_of_app; by right). rewrite Hdr.
  rewrite (u32_small (so + n)), (u32_small (vb + n)), (u32_small (d_len d - vb - n)), (u32_small (buf_len c - 128 - so - n)), (u32_small (Z.of_nat (length segs) + 1 + 1)) by (unfold is_u32; lia). assert (Hrs1 : rest_same w w1) by done.
  (* a new segment *)
  assert (Hnext : so + n = buf_len c - 128 → (0 < length rest1)%nat → ∃ r w', next_segment hugepages rte_mem_virt2phy lcore ff mp (hd NULL (segs ++ [cur])) cur (so + n) w1 = Some (r, w') ∧
    ((r = None ∧ given_up B0 m0 p0 tot R w w') ∨ (∃ a y, r = Some a ∧ building B0 m0 p0 R T w' (segs ++ [cur]) a y 0 (A ++ range (buf_addr c + 128) (so + n)) dn1 ∧ rest_same w w'))).
  { intros Hfull Hrest. destruct (next_segment_run B0 m0 p0 G R T w1 segs cur c (so + n) A dn1 ff tot Hbd1 HL) as (r & w' & Hrun & Hcase); [exact Hfull|lia|lia|]. exists r, w'. split; [exact Hrun|]. destruct Hcase as [[-> Hgu]|(a & y & -> & Hb & Hr)]; [left; split; [done|by eapply given_up_trans]|right; exists a, y; split; [done|]; split; [done|by eapply rest_same_trans]]. }
  (* after the next descriptor or segment *)
  assert (Hgo : ∀ d' l' w2 segs' cur' c' so' A' vb', building B0 m0 p0 R T w2 segs' cur' c' so' A' dn1 → rest_same w w2 → hd NULL (segs' ++ [cur']) = hd NULL (segs ++ [cur]) → follows ds d' l' → Forall desc_ok (d' :: l') → Forall (λ d, 0 < d_len d) l' → 0 <= vb' < d_len d' → so' < buf_len c' - 128 →
    rest1 = range (va d' + vb') (d_len d' - vb') ++ areas l' → ∃ r w', tx_copy hugepages rte_mem_virt2phy lcore dev fuel ff vq mp (hd NULL (segs ++ [cur])) d' (va d') vb' (d_len d' - vb') cur' so' (buf_len c' - 128 - so') (Z.of_nat (length segs') + 1) w2 = Some (r, w') ∧
    ((r = None ∧ given_up B0 m0 p0 tot R w w') ∨ (∃ p A', r = Some (Z.of_nat (length p)) ∧ Z.of_nat (length p) <= needed tot ∧ hd NULL p = hd NULL (segs ++ [cur]) ∧ pstate B0 m0 p0 R T w' p A' [] (dn1 ++ rest1) ∧ rest_same w w'))).
  { intros d' l' w2 segs' cur' c' so' A' vb' Hb2 Hr2 Hhd Hf2 Hok2 Hp2 Hvb2 Hso2 He. assert (Hds2 : descs w2 !! desc vq = Some ds) by (by rewrite Hr2). rewrite He in *. rewrite <- Hhd. destruct (IH d' l' w2 segs' cur' c' so' A' dn1 vb' Hb2 Hds2 Hf2 Hok2 Hp2 Hvb2 Hso2) as (r & w' & Hrun & Hcase); [done|lia|lia|lia|lia|].
    exists r, w'. split; [exact Hrun|]. destruct Hcase as [[-> Hgu]|(p & A2 & -> & Hnd & Hh & Hps & Hr)]; [left; split; [done|by eapply given_up_trans]|right; exists p, A2; split_and!; try done; by eapply rest_same_trans]. }
  assert (Hhd : ∀ a, hd NULL ((segs ++ [cur]) ++ [a]) = hd NULL (segs ++ [cur])) by (intros a; by destruct segs). assert (Hsn : Z.of_nat (length segs) + 1 + 1 = Z.of_nat (length (segs ++ [cur])) + 1) by (rewrite length_app; simpl; lia).
  destruct (Z.eqb_spec (d_len d - vb - n) 0) as [Hend|Hend]; cbn [negb].
  - assert (Hre0 : rest1 = areas l) by (unfold rest1; by rewrite range_nil by lia). clearbody rest1. subst rest1. destruct l as [|d' l].
    + cbn in Hf. rewrite Hf. destruct (finish_step _ _ _ _ _ _ _ _ _ _ _ _ _ Hbd1 HL) as (w2 & w3 & c2 & H1 & H2 & Hst3 & Hr3 & _). rewrite H1. cbn [mbind option_bind]. rewrite H2. cbn [mbind option_bind].
      assert (∀ x y z, tx_copy hugepages rte_mem_virt2phy lcore dev fuel ff vq mp (hd NULL (segs ++ [cur])) d (va d) x 0 cur y (buf_len c - 128 - so - n) z w3 = Some (Some z, w3)) as -> by (intros; destruct fuel; cbn [tx_copy]; by rewrite Z.min_l by lia).
      eexists _, w3. split; [done|]. right. exists (segs ++ [cur]), (A ++ range (buf_addr c + 128) (so + n)). split; [rewrite length_app; simpl; f_equal; lia|]. split; [rewrite length_app; simpl; assert (Z.of_nat (length segs) < needed tot) by (apply needed_gt; lia); lia|]. split; [done|]. unfold VirtMem.areas. cbn. rewrite app_nil_r. split; [exact Hst3|by eapply rest_same_trans].
    + destruct Hf as (Hn & Hd' & Hf). rewrite Hn. pose proof Hl as Hl'. apply Forall_cons in Hl' as [[[? ?] ? ?] _]. apply Forall_cons in Hpos as [Hp1 Hpos]. assert (Hre : areas (d' :: l) = range (va d' + 0) (d_len d' - 0) ++ areas l) by (unfold VirtMem.areas; cbn [fmap list_fmap concat app]; unfold VirtMem.area at 1; by rewrite Z.add_0_r, Z.sub_0_r).
      destruct (Z.eqb_spec (buf_len c - 128 - so - n) 0) as [Hfull|Hfull].
      * destruct (Hnext ltac:(lia)) as (r & w' & -> & Hcase); [rewrite Hre, length_app, range_length; lia|].  cbn [mbind option_bind]. destruct Hcase as [[-> Hgu]|(a & y & -> & Hb2 & Hr2)]; [by eexists None, w'; split; [done|left]|]. pose proof (building_room _ _ _ _ _ _ _ _ _ _ _ _ _ Hb2 HL) as Hroom2. rewrite (seg_room_eq a y w') by (done || by apply Hb2). cbn [mbind option_bind].
        unfold get_desc. rewrite Hr2. cbn [descs]. change (descs (_ <| pkts := _ |>)) with (descs w). rewrite Hds. cbn [mbind option_bind]. rewrite Hd'. cbn [mbind option_bind]. unfold gpa_to_vva. rewrite Hmem. cbn [mbind option_bind]. rewrite <- Hr2. fold (va d'). rewrite Hsn. unfold RTE_PKTMBUF_HEADROOM in *.
        destruct (Hgo d' l w' (segs ++ [cur]) a y 0 _ 0 Hb2 Hr2 (Hhd a) Hf Hl Hpos ltac:(lia) ltac:(lia) Hre) as (r & w2 & Hrun & Hc2). rewrite !Z.sub_0_r in Hrun. eauto.
      * cbn [mbind option_bind]. unfold get_desc. change (descs w1) with (descs w). rewrite Hds. cbn [mbind option_bind]. rewrite Hd'. cbn [mbind option_bind]. unfold gpa_to_vva. rewrite Hmem. cbn [mbind option_bind]. fold (va d').
        destruct (Hgo d' l w1 segs cur c (so + n) A 0 Hbd1 Hrs1 eq_refl Hf Hl Hpos ltac:(lia) ltac:(lia) Hre) as (r & w2 & Hrun & Hc2). rewrite Z.sub_0_r in Hrun. replace (buf_len c - 128 - so - n) with (buf_len c - 128 - (so + n)) by lia. eauto.
  - destruct (Hnext ltac:(lia)) as (r & w' & -> & Hcase); [unfold rest1; rewrite length_app, range_length; lia|]. cbn [mbind option_bind]. destruct Hcase as [[-> Hgu]|(a & y & -> & Hb2 & Hr2)]; [by eexists None, w'; split; [done|left]|]. pose proof (building_room _ _ _ _ _ _ _ _ _ _ _ _ _ Hb2 HL) as Hroom2. rewrite (seg_room_eq a y w') by (done || by apply Hb2). cbn [mbind option_bind]. unfold RTE_PKTMBUF_HEADROOM in *.
    destruct (Hgo d l w' (segs ++ [cur]) a y 0 _ (vb + n) Hb2 Hr2 (Hhd a) Hf Hok Hpos ltac:(lia) ltac:(lia) eq_refl) as (r & w2 & Hrun & Hc2). rewrite Hsn. replace (d_len d - vb - n) with (d_len d - (vb + n)) by lia. rewrite Z.sub_0_r in Hrun. eauto.
Qed.

(** The first segment. *)
Lemma alloc_first P0 R T pl w : inv (pkts w) R T [] → dom (pools (pkts w)) = DP → layout rm (bufs w) (bytes w) P0 → pools (pkts w) !! mp = Some pl →
  ∃ a w1, alloc_pkt lcore mp w = Some (a, w1) ∧ rest_same w w1 ∧
    ((a = NULL ∧ gets 1 (mempool pl) = None ∧ inv (pkts w1) R T [] ∧ bufs w1 = bufs w ∧ bytes w1 = bytes w ∧ dom (pools (pkts w1)) = DP) ∨ (a ≠ NULL ∧ ∃ y, building (bufs w) (bytes w) (mempool pl) R T w1 [] a y 0 [] [])).
Proof.
  intros HI Hdp HL Hpl. destruct (alloc_ok _ _ lcore Hlcore (pkts w) _ T mp pl HI Hpl) as (a & P & Hal & Hdom & Hcase). unfold alloc_pkt. rewrite Hal. cbn [mbind option_bind]. rewrite Hdp in Hdom. pose proof (alloc_gets _ _ _ pl _ _ HI Hpl Hal) as Hga.
  exists a, (w <| pkts := P |>). split; [done|]. split; [done|]. destruct Hcase as [(-> & Hm & HI')|(Ha & m & Hm & Hz & HT & HB & HI')]; [left|right]; (split; [done|]).
  - destruct Hga as [[_ Hga]|[? _]]; [|done]. done.
  - destruct Hga as [[? _]|(_ & pl' & Hpl' & Hga)]; [done|]. assert (HaR : a ∉ R). { destruct (i_ok _ _ _ _ _ _ HI a m Hm) as [_ Hcn _ _ _]. rewrite <- own_in. pose proof (attached_nonneg T a). lia. }
    destruct (seg_direct w _ T a m HI Hm HT) as [Hdir [? ? ? ?]]. destruct (ly_room _ _ _ _ HL a m Hm Hdir) as (Hroom & Hb0 & Hb64). unfold RTE_PKTMBUF_HEADROOM in *.
    assert (Hbl : data_off (blank m) = 128 ∧ buf_len (blank m) = buf_len m ∧ buf_addr (blank m) = buf_addr m). { unfold blank, rte_pktmbuf_reset. cbn. unfold RTE_PKTMBUF_HEADROOM. rewrite (proj2 (Z.leb_le 128 (buf_len m))) by lia. done. } destruct Hbl as (Hbo & Hbl & Hba).
    assert (Hdl : data_len (blank m) = 0 ∧ m_next (blank m) = NULL) by done. destruct Hdl as [Hdl Hdn]. exists (blank m). split; [|cbn; by rewrite HB, lookup_insert_eq|by rewrite Hbo|rewrite Hbl; unfold RTE_PKTMBUF_HEADROOM; lia|simpl; lia]. rewrite range_nil by lia. split; cbn; try done.
    + by split; [|exists pl'].
    + exists [blank m]. split; [|unfold seg_areas, seg_area; cbn [fmap list_fmap concat]; by rewrite Hdl]. cbn [packet_segs]. rewrite HB, lookup_insert_eq. split_and!; try done. split; rewrite ?Hdl, ?Hbo, ?Hba; [unfold is_u16; lia|lia|lia].
    + exists (blank m). by rewrite HB, lookup_insert_eq.
    + split; [apply NoDup_singleton|]. by intros x ->%list_elem_of_singleton.
    + rewrite HB. by apply (lay_insert _ a m).
    + rewrite HB. by apply kept_other.
Qed.

(** The bytes of a chain that belong to the packet. *)
Definition payload (hlen : Z) (c : list vring_desc) : list Z := match c with [] => [] | [d] => range (va d + hlen) (d_len d - hlen) | _ :: l => areas l end.
Record tx_chain_ok (ds : list vring_desc) (hlen head : Z) (c : list vring_desc) (m : gmap Z Z) (G : list Z) : Prop := {
  tc_chain : chain_of ds head c;
  tc_desc : Forall desc_ok c;
  tc_len : match c with [] => True | [d] => hlen <= d_len d | _ :: l => Forall (λ d, 0 < d_len d) l end;
  tc_total : Z.of_nat (length (payload hlen c)) < 2 ^ 31;
  tc_mapped : ∀ y, y ∈ payload hlen c → y ∈ G ∧ is_Some (m !! y) }.

Lemma pstate_head B0 m0 p0 R T w p A dn h h' : pstate B0 m0 p0 R T w p A [] dn → p ≠ [] → bufs w !! hd NULL p = Some h → rewritten h h' → buf_addr h' = buf_addr h → data_off h' = data_off h → data_len h' = data_len h → m_next h' = m_next h → pkt_len h' = pkt_len h →
  pstate B0 m0 p0 R T (w <| pkts := set_mbuf (hd NULL p) h' (pkts w) |>) p A [] dn.
Proof.
  intros [HI Hp Hbt (h0 & Hh0 & Hl0) [Hnd Hnew] Hlay Hk Hmv Hln H32] Hne Hh Hrw E1 E2 E3 E4 E5. assert (Hin : hd NULL p ∈ p) by (destruct p; [done|left]). pose proof Hrw as [? ? (? & ? & ? & ?) ? ?]. assert (h0 = h) as -> by congruence. split; try done; cbn.
  - by apply (buf_write _ _ _ _ _ _ _ h h').
  - by apply (built_same _ _ _ _ h h').
  - exists h'. rewrite lookup_insert_eq. split; [done|congruence].
  - rewrite <- Hlay. by apply (lay_insert _ _ h).
  - eapply kept_trans; [done|]. apply kept_other. by apply Hnew.
Qed.

Lemma tx_packet_run G R T vq ds u h i c pl fuel w : inv (pkts w) R T [] → dom (pools (pkts w)) = DP → layout rm (bufs w) (bytes w) G → pools (pkts w) !! mp = Some pl → descs w !! desc vq = Some ds → useds w !! used vq = Some u → 0 <= i < Z.of_nat (length (us_ring u)) → 0 <= vhost_hlen vq <= 12 →
  tx_chain_ok ds (vhost_hlen vq) h c (bytes w) G → let src := payload (vhost_hlen vq) c in (length src + 1 < fuel)%nat → let w1 := w <| useds := <[used vq := u <| us_ring := <[Z.to_nat i := (h, 0)]> (us_ring u) |>]> (useds w) |> in
  ∃ r w', tx_packet hugepages rte_mem_virt2phy lcore dev fuel vq mp h i w = Some (r, w') ∧
    ((r = None ∧ given_up (bufs w) (bytes w) (mempool pl) (Z.of_nat (length src)) R w1 w') ∨
     (∃ p A hm, r = Some (hd NULL p) ∧ p ≠ [] ∧ Z.of_nat (length p) <= needed (Z.of_nat (length src)) ∧ pstate (bufs w) (bytes w) (mempool pl) R T w' p A [] src ∧ rest_same w1 w' ∧ bufs w' !! hd NULL p = Some hm ∧ nb_segs hm = u8 (Z.of_nat (length p)))).
Proof.
  intros HI Hdp HL Hpl Hds Hu Hi Hh [Hch Hok Hlen H31 Hsrc] src Hfuel w1. destruct c as [|d l]; [done|]. destruct Hch as [Hd Hf]. unfold tx_packet. unfold get_desc. rewrite Hds. cbn [mbind option_bind]. rewrite Hd. cbn [mbind option_bind].
  assert (Hstart : ∃ e l' vb, (if has_next d then load ds (d_next d) ≫= λ d', Some (d', 0, d_len d') else Some (d, vhost_hlen vq, u32 (d_len d - vhost_hlen vq))) = Some (e, vb, d_len e - vb) ∧ follows ds e l' ∧ Forall desc_ok (e :: l') ∧ Forall (λ d, 0 < d_len d) l' ∧ 0 <= vb <= d_len e ∧ src = range (va e + vb) (d_len e - vb) ++ areas l' ∧ (l' ≠ [] → vb < d_len e)).
  { pose proof Hok as Hok'. apply Forall_cons in Hok' as [[[? ?] ? ?] Hl]. destruct l as [|d' l].
    - cbn in Hf. rewrite Hf. exists d, [], (vhost_hlen vq). rewrite u32_small by (unfold is_u32; lia). split_and!; try done; [lia|]. unfold src, payload, VirtMem.areas. cbn. by rewrite app_nil_r.
    - destruct Hf as (Hn & Hd' & Hf). rewrite Hn, Hd'. cbn [mbind option_bind]. apply Forall_cons in Hlen as [? Hlen]. exists d', l, 0. rewrite Z.sub_0_r. split_and!; try done; [lia|]. unfold src, payload. rewrite Z.add_0_r. done. }
  destruct Hstart as (e & l' & vb & -> & Hf' & Hok' & Hpos & Hvb & Hse & Hne). cbn [mbind option_bind]. unfold gpa_to_vva. rewrite Hmem. cbn [mbind option_bind]. fold (va e). unfold set_used. rewrite Hu. cbn [mbind option_bind]. rewrite store_in by done. cbn [mbind option_bind]. fold w1.
  destruct (alloc_first G R T pl w1 HI Hdp HL Hpl) as (a & w2 & -> & Hr2 & Hcase). cbn [mbind option_bind]. destruct Hcase as [(-> & Hga & HI2 & HB2 & Hby & Hdp2)|(Ha & y & Hbd)].
  - eexists None, w2. split; [done|]. left. split; [done|]. split; [exists 0%nat; split; [unfold needed; lia|exact Hga]|by exists T|done|rewrite HB2; apply kept_refl|intros x _; by rewrite Hby|done].
  - destruct (Z.eqb_spec a NULL); [done|]. pose proof (building_room _ _ _ _ _ _ _ _ _ _ _ _ _ Hbd HL) as Hroom. rewrite (seg_room_eq a y w2) by (done || by apply Hbd). cbn [mbind option_bind]. pose proof Hbd as [Hst Hy _ _ _]. cbn [app] in Hst. rewrite range_nil in Hst by lia.
    assert (∃ r w3, tx_copy hugepages rte_mem_virt2phy lcore dev fuel fuel vq mp a e (va e) vb (d_len e - vb) a 0 (buf_len y - RTE_PKTMBUF_HEADROOM) 1 w2 = Some (r, w3) ∧ ((r = None ∧ given_up (bufs w) (bytes w) (mempool pl) (Z.of_nat (length src)) R w1 w3) ∨
      (∃ p A', r = Some (Z.of_nat (length p)) ∧ Z.of_nat (length p) <= needed (Z.of_nat (length src)) ∧ hd NULL p = a ∧ pstate (bufs w) (bytes w) (mempool pl) R T w3 p A' [] src ∧ rest_same w1 w3))) as (r & w3 & -> & Hres).
    { destruct (decide (vb = d_len e)) as [->|Hvb2].
      - destruct l' as [|]; [|specialize (Hne ltac:(done)); lia]. rewrite Z.sub_diag in *. exists (Some 1), w2. split; [destruct fuel; [lia|]; cbn [tx_copy]; rewrite Z.min_l by lia; done|]. right. exists [a], []. assert (src = []) as -> by (rewrite Hse; unfold VirtMem.areas; by rewrite range_nil by lia). split_and!; try done. unfold needed. simpl. lia.
      - assert (Hds2 : descs w2 !! desc vq = Some ds) by (by rewrite Hr2). destruct (tx_copy_run vq ds _ _ _ G R T fuel (Z.of_nat (length src)) fuel HL e l' w2 [] a y 0 [] [] vb Hbd Hds2 Hf' Hok' Hpos ltac:(lia) ltac:(lia)) as (r & w3 & Hrun & Hres); [rewrite <- Hse; exact Hsrc|by rewrite <- Hse|exact H31|rewrite <- Hse; lia|rewrite <- Hse; simpl; lia|].
        rewrite Z.sub_0_r in Hrun. exists r, w3. split; [exact Hrun|]. rewrite <- Hse in Hres. destruct Hres as [[-> Hgu]|(p & A' & -> & Hp1 & Hp2 & Hps & Hr3)]; [left; split; [done|by eapply given_up_trans]|right; exists p, A'; split_and!; try done; by eapply rest_same_trans]. }
    cbn [mbind option_bind]. destruct Hres as [[-> Hgu]|(p & A' & -> & Hp1 & <- & Hps & Hr3)]; [eexists None, w3; split; [done|]; by left|].
    pose proof (ps_head _ _ _ _ _ _ _ _ _ _ Hps) as (hm & Hhm & _). rewrite (upd_pkt_eq _ hm) by done. cbn [mbind option_bind]. eexists _, _. split; [done|]. right. assert (Hpne : p ≠ []) by (intros ->; done). exists p, A', (hm <| nb_segs := u8 (Z.of_nat (length p)) |>). split_and!; try done; [|by eapply (rest_same_trans _ w3)|cbn; by rewrite lookup_insert_eq].
    eapply pstate_head; try done. destruct (ps_new _ _ _ _ _ _ _ _ _ _ Hps) as [_ Hnew]. destruct (Hnew (hd NULL p)) as [_ HT]; [destruct p; [done|left]|]. destruct (seg_direct w3 _ T _ hm (ps_inv _ _ _ _ _ _ _ _ _ _ Hps) Hhm HT) as [_ []]. by split.
Qed.
End tx.
