(* ===== verification/VirtDeq.v ===== *)
(** * Bursts of packets from a guest

    [rte_vhost_dequeue_burst]: the chains the guest has made available become
    packets, in order, as long as the pool has buffers. *)
From S2P Require Import Prelude BurstQueue Ring RingSpec Mempool MempoolInit Mbuf MbufInv MbufOps MbufCalls VirtQueue VirtMem VirtTx.
Open Scope Z_scope.

Definition bytes_at (m : gmap Z Z) (A bs : list Z) : Prop := Forall2 (λ a b, m !! a = Some b) A bs.
(** The packet [p] has the bytes [bs], and says so. *)
Definition packet_is (B : gmap Z rte_mbuf) (m : gmap Z Z) (p bs : list Z) : Prop :=
  ∃ A h, p ≠ [] ∧ built B p A ∧ bytes_at m A bs ∧ B !! hd NULL p = Some h ∧ pkt_len h = Z.of_nat (length bs) ∧ nb_segs h = u8 (Z.of_nat (length p)).
(** A chain that starts with [t_head], and its bytes. *)
Record tjob := TJob { t_head : Z; t_chain : list vring_desc; t_bytes : list Z }.

Lemma bytes_at_ext m m' A bs : (∀ x, x ∈ A → m' !! x = m !! x) → bytes_at m A bs → bytes_at m' A bs.
Proof. intros He H. unfold bytes_at in *. revert He. induction H as [|a b A bs Hab H IH]; intros He; constructor; [rewrite He; [done|left]|]. apply IH. intros x Hx. apply He. by right. Qed.
Lemma built_kept B B' R p A : kept B B' R → p ⊆ R → built B p A → built B' p A.
Proof.
  intros Hk Hp (ms & H & <-). revert ms H. induction p as [|a p IH]; intros [|m ms] H; try done; [by exists []|]. destruct H as (Ha & Hn & Hx & Hs & H). destruct (Hk a m) as [c Hc]; [apply Hp; left|done|]. destruct (IH ltac:(set_solver) ms H) as (ms' & H' & He).
  exists (m <| refcnt := c |> :: ms'). split; [|unfold seg_areas in *; cbn [fmap list_fmap concat]; by rewrite He]. cbn [packet_segs]. split_and!; try done. destruct Hs. by split.
Qed.

Section burst.
Context (hugepages : bool) (rte_mem_virt2phy : Z → Z) (lcore : Z) (Hlcore : 0 <= lcore) (dev : virtio_net) (mm : virtio_memory) (Hmem : mem dev = Some mm) (mp : Z) (DP : gset Z) (rm : Z) (Hrm : 0 < rm).
Notation inv := (inv hugepages rte_mem_virt2phy).
Notation bufs w := (mbufs (pkts w)).
Notation pstate := (pstate hugepages rte_mem_virt2phy lcore mp DP).
Notation payload := (payload mm).

Definition tjob_ok (ds : list vring_desc) (hlen : Z) (G : list Z) (m : gmap Z Z) (j : tjob) : Prop :=
  tx_chain_ok mm ds hlen (t_head j) (t_chain j) m G ∧ bytes_at m (payload hlen (t_chain j)) (t_bytes j).
(** The segments a burst needs at most. *)
Definition all_needed (js : list tjob) : nat := foldr (λ j n, (Z.to_nat (needed rm (Z.of_nat (length (t_bytes j)))) + n)%nat) 0%nat js.

(** The data of a packet that is held stays, and so does the guest's memory. *)
Lemma guest_untouched G B R m m' x : layout rm B m G → untouched B R m m' → x ∈ G → m' !! x = m !! x.
Proof. intros HL Hu Hx. apply Hu. intros a y _ Hy Hd Hin. by apply (ly_guest _ _ _ _ HL a y x Hy Hd). Qed.
Lemma packet_stays G P P' R T m m' p bs : inv P R T [] → layout rm (mbufs P) m G → p ⊆ R → (∀ a, a ∈ p → T !! a = None) → kept (mbufs P) (mbufs P') R → untouched (mbufs P) R m m' → packet_is (mbufs P) m p bs → packet_is (mbufs P') m' p bs.
Proof.
  intros HI HL Hp HT Hk Hu (A & h & Hne & Hbt & Hbs & Hh & Hl & Hn). assert (Hin : hd NULL p ∈ p) by (destruct p; [done|left]). destruct (Hk _ h (Hp _ Hin) Hh) as [c Hc]. exists A, (h <| refcnt := c |>). split_and!; try done; [by eapply built_kept|]. eapply bytes_at_ext; [|done].
  intros x Hx. apply Hu. intros b y HbR Hy Hdy Hxy. destruct (built_buffer _ p A x Hbt) as (a & z & Ha & Hz & Hxz); [|done|].
  - intros a z Ha Hz. by apply (i_ok _ _ _ _ _ _ HI a z).
  - assert (RTE_MBUF_INDIRECT z = false) as Hdz by (rewrite (is_indirect _ _ _ _ _ _ _ _ HI Hz), bool_decide_false; [done|]; rewrite (HT a Ha); tauto). apply (ly_apart _ _ _ _ HL a b z y x Hz Hy Hdz Hdy); [|done|done]. intros ->. apply HbR, Hp, Ha.
Qed.

(** A finished packet has the bytes of its chain. *)
Lemma pstate_packet G R T w0 w p0 p A src bs hm : layout rm (bufs w0) (bytes w0) G → pstate (bufs w0) (bytes w0) p0 R T w p A [] src → p ≠ [] → (∀ x, x ∈ src → x ∈ G ∧ is_Some (bytes w0 !! x)) → bytes_at (bytes w0) src bs →
  bufs w !! hd NULL p = Some hm → nb_segs hm = u8 (Z.of_nat (length p)) → packet_is (bufs w) (bytes w) p bs.
Proof.
  intros HL [HI _ Hbt (h & Hh & Hl) [Hnd Hnew] Hlay _ Hmv Hln _] Hne Hsrc Hbs Hhm Hns. rewrite app_nil_r in *. assert (h = hm) as -> by congruence. assert (HL' : layout rm (bufs w) (bytes w) G) by (eapply layout_lay; [exact Hlay|by eapply move_dom|done]).
  destruct (built_NoDup _ _ _ _ _ _ HL' Hbt) as [HndA HAG]; [|done|].
  { intros a x Ha Hx. destruct (Hnew a Ha) as [_ HT]. split; [by apply (i_ok _ _ _ _ _ _ HI a x)|]. rewrite (is_indirect _ _ _ _ _ _ _ _ HI Hx), bool_decide_false; [done|]. rewrite HT. tauto. }
  destruct (move_run A src (bytes w0) HndA) as (m' & Hmv' & [Hto _ _]); [intros x Hx Hx'; by apply (HAG x), Hsrc|intros x Hx; by apply Hsrc| |].
  { intros x Hx. destruct (built_buffer _ p A x Hbt) as (a & z & Ha & Hz & Hxz); [intros a z Ha Hz; by apply (i_ok _ _ _ _ _ _ HI a z)|done|]. apply elem_of_dom. rewrite <- (move_dom _ _ _ Hmv). apply elem_of_dom. apply (ly_mapped _ _ _ _ HL' a z x Hz); [|done]. destruct (Hnew a Ha) as [_ HT]. rewrite (is_indirect _ _ _ _ _ _ _ _ HI Hz), bool_decide_false; [done|]. rewrite HT. tauto. }
  assert (m' = bytes w) as -> by congruence. assert (Hlb : length src = length bs) by (by eapply Forall2_length). exists A, hm. split_and!; try done; [|lia]. apply Forall2_same_length_lookup. split; [lia|]. intros i a b Ha Hb.
  destruct (lookup_lt_is_Some_2 src i) as [s Hs]; [apply lookup_lt_Some in Hb; lia|]. rewrite (Hto i a s Ha Hs). by eapply Forall2_lookup_lr in Hbs.
Qed.

Lemma tjob_stays ds hlen G B R m m' j : layout rm B m G → untouched B R m m' → dom m' = dom m → tjob_ok ds hlen G m j → tjob_ok ds hlen G m' j.
Proof.
  intros HL Hu Hd [[H1 H2 H3 H4 H5] Hb]. split; [split; try done|].
  - intros y Hy. destruct (H5 y Hy) as [? Hm]. split; [done|]. apply elem_of_dom. rewrite Hd. by apply elem_of_dom.
  - eapply bytes_at_ext; [|done]. intros x Hx. eapply guest_untouched; [done|done|]. by apply H5.
Qed.
Lemma untouched_trans w w1 m1 m2 p R : lay (bufs w1) = lay (bufs w) → untouched (bufs w) R (bytes w) m1 → untouched (bufs w1) (p ++ R) m1 m2 → untouched (bufs w) R (bytes w) m2.
Proof.
  intros Hl H1 H2 x Hx. rewrite H2; [by apply H1|]. intros a y Ha Hy Hd. destruct (lay_at _ _ a y Hl Hy) as (z & Hz & Hi & _ & _ & ->). apply (Hx a z); [set_solver|done|congruence].
Qed.

(** What the loop leaves behind: the packets [ps] of a prefix of the chains. *)
Record burst_done (js : list tjob) (q : Z) (vq : vhost_virtqueue) (u : vring_used) (pl : mbuf_pool) (R : list Z) (w w' : vworld) (ps : list (list Z)) : Prop := {
  bu_len : (length ps <= length js)%nat;
  bu_inv : ∃ T', inv (pkts w') (concat ps ++ R) T' [];
  bu_packets : Forall2 (packet_is (bufs w') (bytes w')) ps (t_bytes <$> take (length ps) js);
  bu_new : ∀ a, a ∈ concat ps → a ∉ R;
  bu_kept : kept (bufs w) (bufs w') R;
  bu_bytes : untouched (bufs w) R (bytes w) (bytes w');
  bu_all : is_Some (gets lcore (all_needed js) (mempool pl)) → length ps = length js;
  bu_pools : dom (pools (pkts w')) = DP;
  bu_vq : vqs w' = <[q := vq <| last_used_idx := u16 (last_used_idx vq + Z.of_nat (length ps)) |>]> (vqs w);
  bu_used : useds w' = <[used vq := u <| us_ring := put_used (vq_size vq) (last_used_idx vq) ((λ j, (t_head j, 0)) <$> take (S (length ps)) js) (us_ring u) |>]> (useds w);
  bu_rest : descs w' = descs w ∧ avails w' = avails w ∧ kicks w' = kicks w }.

Lemma tx_loop_run ds k G fuel q js : ∀ w R T vq u pl, inv (pkts w) R T [] → dom (pools (pkts w)) = DP → layout rm (bufs w) (bytes w) G → pools (pkts w) !! mp = Some pl → vqs w !! q = Some vq → descs w !! desc vq = Some ds → useds w !! used vq = Some u →
  vq_size vq = 2 ^ k → 0 <= k <= 15 → length (us_ring u) = Z.to_nat (vq_size vq) → 0 <= vhost_hlen vq <= 12 → is_u16 (last_used_idx vq) → Forall (tjob_ok ds (vhost_hlen vq) G (bytes w)) js → Forall (λ j, (length (t_bytes j) + 1 < fuel)%nat) js →
  ∃ ps w', tx_loop hugepages rte_mem_virt2phy lcore dev fuel q mp (t_head <$> js) w = Some (hd NULL <$> ps, w') ∧ burst_done js q vq u pl R w w' ps.
Proof.
  induction js as [|j js IH]; intros w R T vq u pl HI Hdp HL Hpl Hvq Hds Hu Hsz Hk Hul Hh H16 Hjs Hfuel.
  { exists [], w. split; [done|]. split; try done; [by exists T|by intros a Ha%not_elem_of_nil|apply kept_refl| |].
    - rewrite Z.add_0_r, u16_small by done. symmetry. apply insert_id. rewrite Hvq. by destruct vq.
    - symmetry. apply insert_id. rewrite Hu. by destruct u. }
  cbn [fmap list_fmap tx_loop]. rewrite Hvq. cbn [mbind option_bind]. apply Forall_cons in Hjs as [[Hc Hb] Hjs]. apply Forall_cons in Hfuel as [Hf Hfuel]. assert (Hlb : length (payload (vhost_hlen vq) (t_chain j)) = length (t_bytes j)) by (by eapply Forall2_length).
  rewrite Hsz, land_mask by lia. assert (Hi : 0 <= last_used_idx vq mod 2 ^ k < Z.of_nat (length (us_ring u))). { rewrite Hul, Hsz. pose proof (Z.pow_pos_nonneg 2 k). pose proof (Z.mod_pos_bound (last_used_idx vq) (2 ^ k)). lia. }
  destruct (tx_packet_run hugepages rte_mem_virt2phy lcore Hlcore dev mm Hmem mp DP rm Hrm G R T vq ds u (t_head j) _ (t_chain j) pl fuel w HI Hdp HL Hpl Hds Hu Hi Hh Hc ltac:(lia)) as (r & w1 & -> & Hcase). cbn [mbind option_bind].
  set (u1 := u <| us_ring := <[Z.to_nat (last_used_idx vq mod 2 ^ k) := (t_head j, 0)]> (us_ring u) |>) in *. destruct Hcase as [[-> [(kk & Hkn & Hkg) HT Hdp1 Hk1 Hu1 Hr1]]|(p & A & hm & -> & Hpne & Hpn & Hps & Hr1 & Hhm & Hns)].
  - exists [], w1. split; [done|]. split; try done; [simpl; lia|by intros a Ha%not_elem_of_nil| | |rewrite Hr1; cbn; by rewrite Hsz|by rewrite Hr1].
    + intros Hall. exfalso. rewrite Hlb in Hkn. destruct (gets_le lcore (all_needed (j :: js)) (S kk) (mempool pl)) as [x Hx]; [|done|congruence]. unfold all_needed; cbn [foldr]. lia.
    + rewrite Hr1. cbn. rewrite Z.add_0_r, u16_small by done. symmetry. apply insert_id. rewrite Hvq. by destruct vq.
  - set (w2 := set_vq q (vq <| last_used_idx := u16 (last_used_idx vq + 1) |>) w1). set (vq2 := vq <| last_used_idx := u16 (last_used_idx vq + 1) |>) in *. pose proof Hps as [HI1 [Hdp1 (pl1 & Hpl1 & Hg1)] _ _ [_ Hnew] Hlay1 Hk1 Hmv1 _ _]. pose proof (pstate_packet _ _ _ _ _ _ _ _ _ _ _ HL Hps Hpne (tc_mapped _ _ _ _ _ _ _ Hc) Hb Hhm Hns) as Hpk.
    assert (Hunt : untouched (bufs w) R (bytes w) (bytes w1)). { eapply pstate_untouched; [exact Hps|exact HL|]. by intros x Hx%not_elem_of_nil. } assert (HL2 : layout rm (bufs w2) (bytes w2) G) by (eapply layout_lay; [exact Hlay1|by eapply move_dom|exact HL]).
    destruct (IH w2 (p ++ R) T vq2 u1 pl1 HI1 Hdp1 HL2 Hpl1) as (ps & w' & Hrun & [B1 [T' B2] B3 B4 B5 B6 B7 B8 B9 B10 B11]).
    { unfold w2. cbn. by rewrite lookup_insert_eq. }
    { unfold w2. cbn. by rewrite Hr1. }
    { unfold w2. cbn. rewrite Hr1. cbn. by rewrite lookup_insert_eq. }
    { done. } { done. } { unfold u1. cbn. by rewrite length_insert. } { done. } { apply u16_range. }
    { rewrite Forall_forall in Hjs |- *. intros x Hx. apply (tjob_stays ds (vhost_hlen vq) G (bufs w) R (bytes w)); [done|done|by eapply move_dom|by apply Hjs]. } { done. }
    rewrite Hrun. cbn [mbind option_bind]. exists (p :: ps), w'. split; [done|]. split; try done.
    + simpl. lia.
    + exists T'. eapply inv_perm; [|reflexivity|reflexivity|exact B2]. cbn [concat]. solve_Permutation.
    + cbn [length take fmap list_fmap]. constructor; [|exact B3]. apply (packet_stays G (pkts w1) (pkts w') (p ++ R) T (bytes w1)); try done; [set_solver|]. intros a Ha. by apply Hnew.
    + intros a Ha. cbn [concat] in Ha. apply elem_of_app in Ha as [Ha|Ha]; [by apply Hnew|]. specialize (B4 a Ha). set_solver.
    + eapply kept_trans; [exact Hk1|]. eapply kept_sub; [|exact B5]. set_solver.
    + eapply (untouched_trans w w2 (bytes w1) _ p); [exact Hlay1|exact Hunt|exact B6].
    + intros Hall. simpl. f_equal. apply B7. rewrite Hlb in Hpn. destruct (gets_le lcore (all_needed (j :: js)) (length p + all_needed js) (mempool pl)) as [x Hx]; [unfold all_needed at 2; cbn [foldr]; fold (all_needed js); lia|exact Hall|]. rewrite gets_app, Hg1 in Hx. by exists x.
    + rewrite B9. unfold w2, vq2. cbn. rewrite Hr1. cbn. rewrite insert_insert_eq. replace (u16 (u16 (last_used_idx vq + 1) + Z.of_nat (length ps))) with (u16 (last_used_idx vq + Z.of_nat (S (length ps)))); [done|]. unfold u16. rewrite Zplus_mod_idemp_l. f_equal. lia.
    + rewrite B10. unfold w2, vq2, u1. cbn. rewrite Hr1. cbn. rewrite insert_insert_eq, Hsz. by rewrite put_used_u16 by lia.
    + destruct B11 as (-> & -> & ->). unfold w2. cbn. by rewrite Hr1.
Qed.
End burst.

(** How many chains a burst takes. *)
Definition tx_burst_size (vq : vhost_virtqueue) (av : vring_avail) (count : Z) : Z := Z.min (Z.min (u16 (av_idx av - last_used_idx vq)) count) MAX_PKT_BURST.

(** C10: When the next chains of the guest lie in its memory with less than 2 GiB
    of data each, and are either one descriptor that is at least as long as the
    header or a header followed by descriptors that are not empty,
    [rte_vhost_dequeue_burst] turns [min(count, 32, available)] of them into
    packets, in order: each packet has exactly the bytes
    the chain has behind its header, however they are spread over descriptors
    and segments, and its lengths and links say so. If the pool has enough
    buffers all of them are received, else a prefix, and no buffer is lost. The
    indexes and the used ring advance by the packets received, and the memory of
    the guest and all packets held before stay as they were. *)
Theorem dequeue_burst_receives hugepages virt2phy lcore dev mm mp rm fuel queue_id q vq ds av u k pl held js count w : mem dev = Some mm → queue_ok dev queue_id 1 w q vq ds av u k → 0 <= lcore → 0 < rm → 0 <= count →
  good hugepages virt2phy (pkts w) held → pools (pkts w) !! mp = Some pl → let G := concat ((λ j, payload mm (vhost_hlen vq) (t_chain j)) <$> js) in layout rm (mbufs (pkts w)) (bytes w) G →
  let n := tx_burst_size vq av count in Z.of_nat (length js) = n → n <= vq_size vq → pending av (vq_size vq) (last_used_idx vq) (t_head <$> js) →
  Forall (tjob_ok mm ds (vhost_hlen vq) G (bytes w)) js → Forall (λ j, (length (t_bytes j) + 1 < fuel)%nat) js →
  (last_used_idx vq = av_idx av → rte_vhost_dequeue_burst hugepages virt2phy lcore dev fuel queue_id mp count w = Some ([], w)) ∧
  (last_used_idx vq ≠ av_idx av → ∃ ps w', rte_vhost_dequeue_burst hugepages virt2phy lcore dev fuel queue_id mp count w = Some (hd NULL <$> ps, w') ∧ let j := Z.of_nat (length ps) in
    j <= n ∧ (is_Some (gets lcore (all_needed rm js) (mempool pl)) → j = n) ∧ Forall2 (packet_is (mbufs (pkts w')) (bytes w')) ps (t_bytes <$> take (length ps) js) ∧
    good hugepages virt2phy (pkts w') (ps ++ held) ∧ kept (mbufs (pkts w)) (mbufs (pkts w')) (concat held) ∧ untouched (mbufs (pkts w)) (concat held) (bytes w) (bytes w') ∧
    vqs w' = <[q := vq <| last_used_idx := u16 (last_used_idx vq + j) |>]> (vqs w) ∧ kicks w' = kicked vq av w ∧
    ∃ u', useds w' = <[used vq := u']> (useds w) ∧ us_idx u' = u16 (us_idx u + j) ∧ ∀ i x, (i < length ps)%nat → js !! i = Some x → us_ring u' !! Z.to_nat ((last_used_idx vq + Z.of_nat i) mod vq_size vq) = Some (t_head x, 0)).
Proof.
  intros Hmem [Hv Hvq Hen Hds Hav Hu [Hsz Hk] Har Hur Hh Hlu] Hlc Hrm Hc0 Hgood Hpl G HL n Hn Hnsz Hpend Hjs Hfuel. unfold rte_vhost_dequeue_burst. rewrite Hv, Hvq. cbn [negb mbind option_bind]. destruct (Z.eqb_spec (enabled vq) 0); [done|]. rewrite Hav. cbn [mbind option_bind].
  destruct (Z.eqb_spec (last_used_idx vq) (av_idx av)) as [He|He]; (split; [try done|try done]). intros _. cbv zeta. change (Z.min (Z.min (u16 (av_idx av - last_used_idx vq)) count) MAX_PKT_BURST) with n. assert (get_heads vq (last_used_idx vq) n w = Some (t_head <$> js)) as ->.
  { rewrite <- Hn, <- (length_fmap t_head js). apply (get_heads_eq vq av _ _ k); [done|done|lia|done]. }
  cbn [mbind option_bind].
  pose proof Hgood as (T & HI & HF). assert (Hq : vqs w !! q = Some vq) by (unfold get_vq in Hvq; binds; simplify_eq; by subst).
  destruct (tx_loop_run hugepages virt2phy lcore Hlc dev mm Hmem mp (dom (pools (pkts w))) rm Hrm ds k G fuel q js w (concat held) T vq u pl HI eq_refl HL Hpl Hq Hds Hu Hsz Hk Hur Hh Hlu Hjs Hfuel) as (ps & w1 & -> & [B1 [T' B2] B3 B4 B5 B6 B7 B8 B9 B10 (B11 & B12 & B13)]).
  cbn [mbind option_bind]. erewrite add_used_eq by (rewrite B10; apply lookup_insert_eq). cbn [mbind option_bind]. erewrite kick_guest_eq by (cbn; rewrite B12; exact Hav). cbn [mbind option_bind]. rewrite length_fmap.
  exists ps. eexists. split; [done|]. cbv zeta. cbn. split; [lia|]. split; [intros Hall; specialize (B7 Hall); lia|]. split; [exact B3|]. split.
  { apply (good_links _ _ (pkts w) (pkts w1) held ps T'); [done|by apply kept_links|exact B2|]. rewrite Forall_forall. intros p Hp. apply list_elem_of_lookup in Hp as [i Hi]. destruct (Forall2_lookup_l _ _ _ _ _ B3 Hi) as (bs & _ & A & h & Hne & Hbt & _). split; [done|by eapply built_chain]. }
  split; [exact B5|]. split; [exact B6|]. split; [exact B9|]. split; [unfold kicked; cbn; by rewrite B13|]. eexists. rewrite B10, insert_insert_eq. split; [done|]. cbn. split; [done|]. intros i x Hi Hx. rewrite Hsz. apply put_used_at; [apply Z.pow_pos_nonneg; lia|by rewrite <- Hsz|rewrite length_fmap, length_take; lia|]. rewrite list_lookup_fmap, lookup_take_lt, Hx by lia. done.
Qed.
