(* ===== verification/VirtMrg.v ===== *)
(** * Packets to a guest in mergeable buffers

    [virtio_dev_merge_rx]: a packet goes into as many entries of the available
    ring as it needs, and the header in front of it says how many. The theorems
    are about entries of one descriptor each, which is what drivers offer. *)
From S2P Require Import Prelude Ring Mempool MempoolInit Mbuf MbufInv MbufOps VirtQueue VirtMem VirtRx.
Open Scope Z_scope.

(** An entry of the available ring: a descriptor and its index. *)
Record entry := Entry { e_id : Z; e_desc : vring_desc }.
(** The entries for [n] bytes and those that are left, if there are enough. *)
Fixpoint split_room (n : Z) (es : list entry) : option (list entry * list entry) :=
  match es with
  | [] => None
  | e :: es => if n <=? d_len (e_desc e) then Some ([e], es) else '(l, r) ← split_room (n - d_len (e_desc e)) es; Some (e :: l, r)
  end.
(** What the used ring says of the entries [e :: l] for [n] more bytes, when [el]
    bytes of the first are used and [f] are free. *)
Fixpoint merge_used (el f : Z) (e : entry) (l : list entry) (n : Z) : list (Z * Z) :=
  match l with
  | [] => [(e_id e, el + n)]
  | e' :: l => (e_id e, el + f) :: merge_used 0 (d_len (e_desc e')) e' l (n - f)
  end.
Lemma merge_used_length el f e l n : length (merge_used el f e l n) = S (length l).
Proof. revert el f e n. induction l as [|e' l IH]; intros; simpl; [done|]. by rewrite IH. Qed.
Lemma split_room_app n es l r : split_room n es = Some (l, r) → es = l ++ r ∧ l ≠ [].
Proof.
  revert n l. induction es as [|e es IH]; intros n l H; simpl in H; [done|]. destruct (n <=? _); [by simplify_eq|]. binds. simplify_eq. match goal with H' : split_room _ _ = Some _ |- _ => destruct (IH _ _ H') as [-> _] end. done.
Qed.

Section merge.
Context (dev : virtio_net) (mm : virtio_memory) (Hmem : mem dev = Some mm).
Notation va := (va mm).
Notation areas := (areas mm).
Notation desc_ok := (desc_ok mm).
Notation earea e := (range (va (e_desc e)) (d_len (e_desc e))).

Record entry_ok (ds : list vring_desc) (e : entry) : Prop := {
  eo_load : load ds (e_id e) = Some (e_desc e);
  eo_single : has_next (e_desc e) = false;
  eo_desc : desc_ok (e_desc e);
  eo_len : 0 < d_len (e_desc e) }.
Definition entry_vec (e : entry) : buf_vector := BufVector (d_addr (e_desc e)) (d_len (e_desc e)) (e_id e).
Definition eareas (es : list entry) : list Z := areas (e_desc <$> es).
Definition total_room (es : list entry) : Z := foldr (λ e n, d_len (e_desc e) + n) 0 es.

Lemma eareas_length ds es : Forall (entry_ok ds) es → Z.of_nat (length (eareas es)) = total_room es.
Proof. induction 1 as [|e es [_ _ _ ?] _ IH]; [done|]. unfold eareas in *. cbn [fmap list_fmap total_room foldr]. rewrite areas_cons, length_app, range_length. fold (total_room es). lia. Qed.

(** The end of a buffer, and the used entry it gets. *)
Lemma end_of_buffer_run vq ds u k e cur es el w : descs w !! desc vq = Some ds → useds w !! used vq = Some u → entry_ok ds e → vq_size vq = 2 ^ k → 0 <= k <= 15 → length (us_ring u) = Z.to_nat (vq_size vq) → 0 <= es < 2 ^ 16 →
  end_of_buffer vq cur es el (entry_vec e) w = Some (u16 (cur + 1), es + 1, 0, w <| useds := <[used vq := u <| us_ring := put_used (vq_size vq) cur [(e_id e, el)] (us_ring u) |>]> (useds w) |>).
Proof.
  intros Hds Hu [Hl Hs _ _] Hsz Hk Hul Hes. unfold end_of_buffer, used_entry, set_used. cbn [entry_vec bv_desc_idx]. rewrite (get_desc_eq _ ds) by done. rewrite Hl. cbn [mbind option_bind]. rewrite Hs, Hu. cbn [mbind option_bind]. rewrite Hsz, land_mask by lia.
  pose proof (Z.pow_pos_nonneg 2 k). pose proof (Z.mod_pos_bound cur (2 ^ k)). rewrite store_in by (rewrite Hul, Hsz; lia). cbn [mbind option_bind]. rewrite u32_small by (unfold is_u32; lia). done.
Qed.
Lemma used_entry_run vq u k e cur el w : useds w !! used vq = Some u → vq_size vq = 2 ^ k → 0 <= k <= 15 → length (us_ring u) = Z.to_nat (vq_size vq) →
  used_entry vq cur el (entry_vec e) w = Some (w <| useds := <[used vq := u <| us_ring := put_used (vq_size vq) cur [(e_id e, el)] (us_ring u) |>]> (useds w) |>).
Proof.
  intros Hu Hsz Hk Hul. unfold used_entry, set_used. cbn [entry_vec bv_desc_idx]. rewrite Hu. cbn [mbind option_bind]. rewrite Hsz, land_mask by lia. pose proof (Z.pow_pos_nonneg 2 k). pose proof (Z.mod_pos_bound cur (2 ^ k)). rewrite store_in by (rewrite Hul, Hsz; lia). done.
Qed.
Lemma put_used_app sz idx l1 l2 r : put_used sz idx (l1 ++ l2) r = put_used sz (idx + Z.of_nat (length l1)) l2 (put_used sz idx l1 r).
Proof. revert idx r. induction l1 as [|e l1 IH]; intros; simpl; [by rewrite Z.add_0_r|]. rewrite IH. f_equal. lia. Qed.

(** The entries [l] after one with [f] free bytes are needed, and enough, for [n] bytes. *)
Fixpoint tight (f : Z) (l : list entry) (n : Z) : Prop := match l with [] => n <= f | e :: l => f < n ∧ tight (d_len (e_desc e)) l (n - f) end.
Lemma tight_sub f l n c : tight f l n → tight (f - c) l (n - c).
Proof. destruct l; simpl; [lia|]. intros [? H]. split; [lia|]. by replace (n - c - (f - c)) with (n - f) by lia. Qed.
Lemma merge_used_sub el f e l n c : merge_used (el + c) (f - c) e l (n - c) = merge_used el f e l n.
Proof. destruct l; simpl; [do 2 f_equal; lia|]. replace (n - c - (f - c)) with (n - f) by lia. do 2 f_equal; lia. Qed.

Definition put_state (vq : vhost_virtqueue) (m' : gmap Z Z) (u : vring_used) (cur : Z) (l : list (Z * Z)) (w : vworld) : vworld := w <| bytes := m' |> <| useds := <[used vq := u <| us_ring := put_used (vq_size vq) cur l (us_ring u) |>]> (useds w) |>.

Lemma merge_copy_run fuel : ∀ vq ds k u e l i vb a p m ms so cur es el w m',
  descs w !! desc vq = Some ds → useds w !! used vq = Some u → vq_size vq = 2 ^ k → 0 <= k <= 15 → length (us_ring u) = Z.to_nat (vq_size vq) → 0 <= es → es + Z.of_nat (length (e :: l)) <= 2 ^ 16 →
  0 <= i → (∀ j x, (e :: l) !! j = Some x → load (buf_vec vq) (i + Z.of_nat j) = Some (entry_vec x)) → Forall (entry_ok ds) (e :: l) → packet_segs (mbufs (pkts w)) (a :: p) (m :: ms) → Forall (λ x, 0 < data_len x) (m :: ms) →
  let f := d_len (e_desc e) - vb in 0 <= vb → 0 < f → 0 <= so < data_len m →
  let D := range (va (e_desc e) + vb) f ++ eareas l in let S := range (buf_addr m + data_off m + so) (data_len m - so) ++ seg_areas ms in let n := Z.of_nat (length S) in
  tight f l n → 0 <= el → el + n < 2 ^ 32 → (∀ x, x ∈ D → x ∉ S) → move (zip D S) (bytes w) = Some m' → (length l + length ms < fuel)%nat →
  merge_copy dev fuel vq i (va (e_desc e)) vb f a so (data_len m - so) (Z.min f (data_len m - so)) cur es el w = Some (es + Z.of_nat (length (e :: l)), put_state vq m' u cur (merge_used el f e l n) w).
Proof.
  induction fuel as [|fuel IH]; intros vq ds k u e l i vb a p m ms so cur es el w m' Hds Hu Hsz Hk Hul Hes Hes2 Hi Hvec Hok Hps Hpos f Hvb Hf0 Hso D S n Ht Hel Hel2 Hap Hmv Hfuel; [lia|].
  pose proof Hok as Hok'. apply Forall_cons in Hok' as [Heo Hl]. pose proof Heo as [_ _ [[? ?] ? ?] _]. pose proof Hps as (Ha & Hnn & Hnx & [[? ?] ? ?] & Hps'). apply Forall_cons in Hpos as [_ Hpos]. cbn [merge_copy]. set (c := Z.min f (data_len m - so)). destruct (Z.ltb_spec 0 c); [|lia]. cbn [negb]. rewrite Ha. cbn [mbind option_bind].
  assert (HnD : take (Z.to_nat c) D = range (va (e_desc e) + vb) c ∧ drop (Z.to_nat c) D = range (va (e_desc e) + (vb + c)) (f - c) ++ eareas l).
  { unfold D. rewrite take_app_le, drop_app_le by (rewrite range_length; lia). rewrite range_take, range_drop by lia. split; [done|]. do 2 f_equal. lia. }
  assert (HnS : take (Z.to_nat c) S = range (buf_addr m + data_off m + so) c ∧ drop (Z.to_nat c) S = range (buf_addr m + data_off m + (so + c)) (data_len m - (so + c)) ++ seg_areas ms).
  { unfold S. rewrite take_app_le, drop_app_le by (rewrite range_length; lia). rewrite range_take, range_drop by lia. split; [done|]. f_equal. f_equal; lia. }
  destruct HnD as [HD1 HD2], HnS as [HS1 HS2]. destruct (move_split (Z.to_nat c) D S (bytes w) m' Hmv) as (m1 & Hm1 & Hm2). rewrite HD1, HS1 in Hm1. rewrite HD2, HS2 in Hm2.
  assert (Hap2 : ∀ x, x ∈ range (va (e_desc e) + (vb + c)) (f - c) ++ eareas l → x ∉ range (buf_addr m + data_off m + (so + c)) (data_len m - (so + c)) ++ seg_areas ms) by (rewrite <- HD2, <- HS2; intros x Hx Hx'; apply (Hap x); by eapply in_drop).
  assert (HlS : n = c + Z.of_nat (length (range (buf_addr m + data_off m + (so + c)) (data_len m - (so + c)) ++ seg_areas ms))) by (rewrite <- HS2, length_drop; unfold n, S; rewrite length_app, range_length; lia). unfold rte_pktmbuf_mtod_offset.
  rewrite memcpy_prefix, Hm1; [|lia..|intros x Hx Hx'; rewrite <- HD1 in Hx; rewrite <- HS1 in Hx'; apply (Hap x); by eapply in_take]. cbn [mbind option_bind]. rewrite (u32_small (so + c)), (u32_small (vb + c)), (u32_small (data_len m - so - c)), (u32_small (f - c)), (u32_small (el + c)) by (unfold is_u32; lia).
  pose proof (Hvec 0%nat e eq_refl) as Hv0. rewrite Z.add_0_r in Hv0. rewrite Hv0. cbn [mbind option_bind]. set (w1 := w <| bytes := m1 |>).
  (* the buffer is full: on to the next entry, at any place of the packet *)
  assert (Hnext : ∀ e' l' a' p' x ms' so' t, l = e' :: l' → c = f → packet_segs (mbufs (pkts w)) (a' :: p') (x :: ms') → Forall (λ x, 0 < data_len x) (x :: ms') → 0 <= so' < data_len x → range (buf_addr m + data_off m + (so + c)) (data_len m - (so + c)) ++ seg_areas ms = range (buf_addr x + data_off x + so') (data_len x - so') ++ seg_areas ms' → (length l' + length ms' < fuel)%nat → t = data_len x - so' →
    (x0 ← end_of_buffer vq cur es (el + c) (entry_vec e) w1; let '(cur', es', el', w2) := x0 in b ← load (buf_vec vq) (i + 1); va' ← gpa_to_vva dev (bv_addr b); merge_copy dev fuel vq (i + 1) va' 0 (bv_len b) a' so' t (Z.min (bv_len b) t) cur' es' el' w2) = Some (es + Z.of_nat (length (e :: l)), put_state vq m' u cur (merge_used el f e l n) w)).
  { intros e' l' a' p' x ms' so' t -> Hcf Hps2 Hpos2 Hso2 HSe Hfu ->. rewrite (end_of_buffer_run vq ds u k) by (done || (simpl in Hes2; lia)). cbn [mbind option_bind]. pose proof (Hvec 1%nat e' eq_refl) as Hv1. change (Z.of_nat 1) with 1 in Hv1. rewrite Hv1. cbn [mbind option_bind entry_vec bv_addr bv_len]. rewrite (gpa_va dev mm Hmem). cbn [mbind option_bind]. simpl in Ht. destruct Ht as [_ Ht]. pose proof Hl as Hl'. apply Forall_cons in Hl' as [[_ _ _ ?] _].
    set (w2 := w1 <| useds := _ |>). set (u2 := u <| us_ring := _ |>) in w2. rewrite HSe in Hm2, Hap2, HlS. rewrite (range_nil _ (f - c)) in Hm2, Hap2 by lia. assert (HDe : [] ++ eareas (e' :: l') = range (va (e_desc e') + 0) (d_len (e_desc e') - 0) ++ eareas l') by (unfold eareas; cbn [fmap list_fmap app]; rewrite areas_cons; by rewrite Z.add_0_r, Z.sub_0_r). rewrite HDe in Hm2, Hap2. assert (Hn' : n - f = Z.of_nat (length (range (buf_addr x + data_off x + so') (data_len x - so') ++ seg_areas ms'))) by lia. rewrite Hn' in Ht.
    pose proof (IH vq ds k u2 e' l' (i + 1) 0 a' p' x ms' so' (u16 (cur + 1)) (es + 1) 0 w2 m') as IHc. rewrite Z.sub_0_r in IHc, Hm2, Hap2. cbv zeta in IHc. rewrite IHc; clear IHc; try done; try lia.
    - f_equal. f_equal; [cbn [length]; lia|]. unfold put_state, w2, w1, u2. cbn [merge_used length put_used]. cbn. rewrite insert_insert_eq, Hsz, put_used_u16 by lia. rewrite <- Hn'. replace (el + c) with (el + f) by lia. by destruct w.
    - unfold w2. cbn. by rewrite lookup_insert_eq.
    - unfold u2. cbn. by rewrite length_insert.
    - cbn [length] in Hes2 |- *. lia.
    - intros j y Hj. replace (i + 1 + Z.of_nat j) with (i + Z.of_nat (Datatypes.S j)) by lia. by apply Hvec. }
  destruct (Z.eqb_spec (data_len m - so - c) 0) as [Hend|Hend]; cbn [negb].
  - rewrite (range_nil _ (data_len m - (so + c))) in Hm2, Hap2, HlS, Hnext by lia. cbn [app] in Hm2, Hap2, HlS, Hnext. destruct p as [|b p], ms as [|y ms]; try done.
    + cbn in Hnx. rewrite Hnx. cbn [Z.eqb NULL negb]. cbn in HlS. destruct l as [|e' l]; [|simpl in Ht; lia]. rewrite (used_entry_run vq u k) by done. cbn [mbind option_bind]. rewrite u32_small by (unfold is_u32; simpl in Hes2; lia). assert (m1 = m') as -> by (unfold seg_areas in Hm2; cbn in Hm2; rewrite zip_with_nil_r in Hm2; cbn in Hm2; congruence).
      unfold put_state, w1. cbn [merge_used length]. by replace (el + n) with (el + c) by lia.
    + pose proof Hps' as (Hb & Hbn & _ & [[? ?] _ _] & _). cbn [hd] in Hnx. rewrite Hnx. destruct (Z.eqb_spec b NULL); [done|]. cbn [negb]. pose proof Hpos as Hpos'. apply Forall_cons in Hpos' as [? _]. assert (HSe : seg_areas (y :: ms) = range (buf_addr y + data_off y + 0) (data_len y - 0) ++ seg_areas ms) by (unfold seg_areas; cbn [fmap list_fmap concat]; unfold seg_area; by rewrite Z.add_0_r, Z.sub_0_r).
      assert (0 < Z.of_nat (length (seg_areas (y :: ms)))) by (rewrite HSe, length_app, range_length; lia). destruct (Z.eqb_spec (f - c) 0) as [Hfull|Hfull].
      * destruct l as [|e' l]; [simpl in Ht; lia|]. specialize (Hnext e' l b p y ms 0 (data_len y) eq_refl ltac:(lia) Hps' Hpos ltac:(lia) HSe ltac:(cbn [length] in Hfuel; lia) ltac:(lia)). rewrite (end_of_buffer_run vq ds u k) in Hnext |- * by (done || (simpl in Hes2; lia)). cbn [mbind option_bind] in Hnext |- *. pose proof (Hvec 1%nat e' eq_refl) as Hv1. change (Z.of_nat 1) with 1 in Hv1. rewrite Hv1 in Hnext |- *. cbn [mbind option_bind entry_vec bv_addr bv_len] in Hnext |- *. rewrite (gpa_va dev mm Hmem) in Hnext |- *. cbn [mbind option_bind] in Hnext |- *.
        change (mbufs (pkts (w1 <| useds := _ |>))) with (mbufs (pkts w)). rewrite Hb. exact Hnext.
      * cbn [mbind option_bind]. change (mbufs (pkts w1)) with (mbufs (pkts w)). rewrite Hb. cbn [mbind option_bind]. rewrite HSe in Hm2, Hap2, HlS. pose proof (IH vq ds k u e l i (vb + c) b p y ms 0 cur es (el + c) w1 m') as IHc. cbv zeta in IHc. replace (d_len (e_desc e) - (vb + c)) with (f - c) in IHc by lia. rewrite Z.sub_0_r in IHc, Hm2, Hap2, HlS. assert (Hnc : n - c = Z.of_nat (length (range (buf_addr y + data_off y + 0) (data_len y) ++ seg_areas ms))) by lia. rewrite <- Hnc in IHc.
        rewrite IHc; clear IHc; try done; try lia; [by rewrite merge_used_sub|by apply tight_sub|cbn [length] in Hfuel; lia].
  - assert (Hcf : c = f) by lia. destruct l as [|e' l]; [exfalso; simpl in Ht; rewrite HlS, length_app, range_length in Ht; lia|]. specialize (Hnext e' l a p m ms (so + c) (data_len m - so - c) eq_refl Hcf Hps ltac:(by constructor; [lia|]) ltac:(lia) eq_refl ltac:(cbn [length] in Hfuel; lia) ltac:(lia)). exact Hnext.
Qed.

(** One packet [p] into the entries [es], which are in [buf_vec]. *)
Definition mrg_used (hlen : Z) (es : list entry) (n : Z) : list (Z * Z) := match es with [] => [] | e :: l => merge_used hlen (d_len (e_desc e) - hlen) e l n end.
Record merge_ok (ds : list vring_desc) (hlen : Z) (es : list entry) (B : gmap Z rte_mbuf) (p : list Z) (ms : list rte_mbuf) (m : gmap Z Z) : Prop := {
  mo_entries : Forall (entry_ok ds) es;
  mo_hlen : match es with [] => False | e :: l => hlen <= d_len (e_desc e) ∧ tight (d_len (e_desc e) - hlen) l (total_len ms) end;
  mo_packet : packet_ok B p ms hlen m;
  mo_segs : Forall (λ x, 0 < data_len x) ms;
  mo_mapped : ∀ x, x ∈ eareas es → is_Some (m !! x);
  mo_NoDup : NoDup (eareas es);
  mo_apart : ∀ x, x ∈ eareas es → x ∉ seg_areas ms }.

Lemma copy_from_mbuf_run fuel queue_id q vq ds k u es p ms base w : let hlen := vhost_hlen vq in let c := Z.of_nat (length es) in get_vq dev queue_id w = Some (q, vq) → descs w !! desc vq = Some ds → useds w !! used vq = Some u → vq_size vq = 2 ^ k → 0 <= k <= 15 → length (us_ring u) = Z.to_nat (vq_size vq) →
  0 <= hlen <= 12 → c < 2 ^ 16 → (∀ j x, es !! j = Some x → load (buf_vec vq) (Z.of_nat j) = Some (entry_vec x)) → merge_ok ds hlen es (mbufs (pkts w)) p ms (bytes w) → (length es + length ms <= fuel)%nat →
  ∃ m', copy_from_mbuf_to_vring dev fuel queue_id base (u16 (base + c)) (hd NULL p) w = Some (c, put_state vq m' u base (mrg_used hlen es (total_len ms)) w) ∧
    delivered mm (e_desc <$> es) (take (Z.to_nat hlen) (hdr_bytes c)) (seg_areas ms) (bytes w) m' ∧ (∀ x, x ∉ eareas es → m' !! x = bytes w !! x) ∧ dom m' = dom (bytes w).
Proof.
  intros hlen c Hvq Hds Hu Hsz Hk Hul Hh Hc Hvec [Hes Hhl [Hne Hps Hpl [_ Hlt] Hpm] Hpos Hcm Hnd Hap] Hfuel. destruct es as [|e l]; [done|]. destruct Hhl as [Hhl Ht]. destruct p as [|a p], ms as [|m ms]; try done. cbn [hd]. pose proof (packet_segs_ok _ _ _ Hps) as Hsok. pose proof (seg_areas_length _ Hsok) as HlS. set (n := total_len (m :: ms)) in *.
  pose proof Hps as (Ha & Hnn & _ & [[? ?] ? ?] & _). pose proof Hpos as Hpos'. apply Forall_cons in Hpos' as [Hm0 _]. pose proof Hes as Hes'. apply Forall_cons in Hes' as [Heo Hl]. pose proof Heo as [_ _ [[? ?] ? ?] He0]. unfold copy_from_mbuf_to_vring. destruct (Z.eqb_spec a NULL); [done|]. rewrite Hvq. cbn [mbind option_bind].
  pose proof (Hvec 0%nat e eq_refl) as Hv0. change (Z.of_nat 0) with 0 in Hv0. rewrite Hv0. cbn [mbind option_bind entry_vec bv_addr bv_len]. rewrite (gpa_va dev mm Hmem). cbn [mbind option_bind]. assert (u16 (u16 (base + c) - base) = c) as ->. { unfold u16. rewrite Zminus_mod_idemp_l. replace (base + c - base) with c by lia. apply Z.mod_small. lia. }
  pose proof (areas_hd mm (e_desc e) (e_desc <$> l) hlen ltac:(lia)) as HG. change (areas (e_desc e :: (e_desc <$> l))) with (eareas (e :: l)) in HG. change (areas (e_desc <$> l)) with (eareas l) in HG. set (D := range (va (e_desc e) + hlen) (d_len (e_desc e) - hlen) ++ eareas l) in *.
  assert (Hlh : length (take (Z.to_nat hlen) (hdr_bytes c)) = Z.to_nat hlen) by (rewrite length_take; change (length (hdr_bytes c)) with 12%nat; lia). rewrite HG in Hap, Hcm, Hnd. apply NoDup_app in Hnd as (_ & HhD & HndD).
  destruct (write_bytes_run (va (e_desc e)) (take (Z.to_nat hlen) (hdr_bytes c)) (bytes w)) as (m1 & Hw & Hb & Hw2 & Hdm). { rewrite Hlh. replace (Z.of_nat (Z.to_nat hlen)) with hlen by lia. intros x Hx. apply Hcm, elem_of_app. by left. }
  rewrite Hlh in Hw2. replace (Z.of_nat (Z.to_nat hlen)) with hlen in Hw2 by lia. unfold write_hdr. fold hlen. destruct (Z.ltb_spec 12 hlen); [lia|]. rewrite Hw. cbn [mbind option_bind]. set (w1 := w <| bytes := m1 |>). change (mbufs (pkts w1)) with (mbufs (pkts w)). rewrite Ha. cbn [mbind option_bind].
  destruct (move_run D (seg_areas (m :: ms)) m1) as (m' & Hmv & [Hto Hoth Hdom]); [done|intros x Hx; apply Hap, elem_of_app; by right|intros x Hx; apply elem_of_dom; rewrite Hdm; by apply elem_of_dom, Hpm|intros x Hx; apply elem_of_dom; rewrite Hdm; apply elem_of_dom, Hcm, elem_of_app; by right|].
  assert (HS : seg_areas (m :: ms) = range (buf_addr m + data_off m + 0) (data_len m - 0) ++ seg_areas ms) by (unfold seg_areas; cbn [fmap list_fmap concat]; unfold seg_area at 1; by rewrite Z.add_0_r, Z.sub_0_r). rewrite (u32_small (d_len (e_desc e) - hlen)) by (unfold is_u32; lia).
  assert (Hn0 : 0 < n) by (rewrite <- HlS, HS, length_app, range_length; lia). exists m'. split; [|split].
  - cbn [mrg_used]. destruct (Z.eqb_spec (d_len (e_desc e) - hlen) 0) as [Hfull|Hfull].
    + destruct l as [|e' l]; [simpl in Ht; lia|]. rewrite (end_of_buffer_run vq ds u k) by (done || lia). cbn [mbind option_bind]. pose proof (Hvec 1%nat e' eq_refl) as Hv1. change (Z.of_nat 1) with 1 in Hv1. rewrite Hv1. cbn [mbind option_bind entry_vec bv_addr bv_len]. rewrite (gpa_va dev mm Hmem). cbn [mbind option_bind]. pose proof Hl as Hl'. apply Forall_cons in Hl' as [[_ _ _ ?] _]. destruct Ht as [_ Ht].
      set (w2 := w1 <| useds := _ |>). set (u2 := u <| us_ring := _ |>) in w2. pose proof (merge_copy_run fuel vq ds k u2 e' l 1 0 a p m ms 0 (u16 (base + 1)) 1 0 w2 m') as Hrun. cbv zeta in Hrun. rewrite <- HS, HlS in Hrun. rewrite !Z.sub_0_r in Hrun. change (0 + 1) with 1.
      assert (HDe : D = range (va (e_desc e') + 0) (d_len (e_desc e')) ++ eareas l) by (unfold D; rewrite range_nil by lia; unfold eareas; cbn [fmap list_fmap app]; rewrite areas_cons; by rewrite Z.add_0_r). rewrite <- HDe in Hrun. rewrite Hrun; clear Hrun; try done; try lia.
      * f_equal. f_equal; [unfold c; cbn [length]; lia|]. unfold put_state, w2, w1, u2. cbn [merge_used put_used]. cbn. rewrite insert_insert_eq, Hsz, put_used_u16 by lia. replace (hlen + (d_len (e_desc e) - hlen)) with hlen by lia. rewrite Hfull. rewrite Z.sub_0_r. by destruct w.
      * unfold w2. cbn. by rewrite lookup_insert_eq.
      * unfold u2. cbn. by rewrite length_insert.
      * unfold c in Hc. cbn [length] in Hc |- *. lia.
      * intros j y Hj. replace (1 + Z.of_nat j) with (Z.of_nat (S j)) by lia. by apply Hvec.
      * by replace (n - (d_len (e_desc e) - hlen)) with n in Ht by lia.
      * intros x Hx. apply Hap, elem_of_app. by right.
      * cbn [length] in Hfuel. lia.
    + cbn [mbind option_bind]. pose proof (merge_copy_run fuel vq ds k u e l 0 hlen a p m ms 0 base 0 hlen w1 m') as Hrun. cbv zeta in Hrun. rewrite <- HS, HlS in Hrun. rewrite !Z.sub_0_r in Hrun. fold D in Hrun. rewrite Hrun; clear Hrun; try done; try lia.
      * intros x Hx. apply Hap, elem_of_app. by right.
      * cbn [length] in Hfuel. lia.
  - split.
    + intros _ j x b Hx Hbj. change (areas (e_desc <$> e :: l)) with (eareas (e :: l)) in Hx. assert (Hjl : (j < Z.to_nat hlen)%nat) by (apply lookup_lt_Some in Hbj; lia). rewrite HG, lookup_app_l in Hx by (rewrite range_length; lia). pose proof Hx as Hx'. apply lookup_seqZ in Hx as [-> _]. rewrite Hoth; [by apply Hb|]. intros Hin%in_take. eapply HhD; [by eapply list_elem_of_lookup_2|done].
    + intros j x y Hx Hy. change (areas (e_desc <$> e :: l)) with (eareas (e :: l)) in Hx. rewrite Hlh, HG, lookup_app_r in Hx by (rewrite range_length; lia). rewrite range_length in Hx. replace (Z.to_nat hlen + j - Z.to_nat hlen)%nat with j in Hx by lia. rewrite (Hto j x y Hx Hy). apply Hw2. intros Hin. apply (Hap y); [apply elem_of_app; by left|by eapply list_elem_of_lookup_2].
  - split; [|by rewrite Hdom]. intros x Hx. rewrite HG, not_elem_of_app in Hx. rewrite Hoth; [apply Hw2; tauto|]. intros Hin%in_take. tauto.
Qed.

(** ** The reservation of entries *)

Lemma pending_tail av k cur h hs : 0 <= k <= 15 → pending av (2 ^ k) cur (h :: hs) → load (av_ring av) (cur mod 2 ^ k) = Some h ∧ pending av (2 ^ k) (u16 (cur + 1)) hs.
Proof.
  intros Hk Hp. split; [specialize (Hp 0%nat h eq_refl); by rewrite Z.add_0_r in Hp|]. intros i x Hi. specialize (Hp (S i) x Hi). rewrite Zplus_mod, u16_mod_pow2, <- Zplus_mod by lia. by replace (cur + 1 + Z.of_nat i) with (cur + Z.of_nat (S i)) by lia.
Qed.
Lemma pending_drop av k hs hs' : ∀ cur, 0 <= k <= 15 → pending av (2 ^ k) cur (hs ++ hs') → pending av (2 ^ k) (u16 (cur + Z.of_nat (length hs))) hs'.
Proof.
  intros cur Hk Hp i x Hi. specialize (Hp (length hs + i)%nat x). rewrite Zplus_mod, u16_mod_pow2, <- Zplus_mod by lia. replace (cur + Z.of_nat (length hs) + Z.of_nat i) with (cur + Z.of_nat (length hs + i)) by lia. apply Hp. rewrite lookup_app_r by lia. by replace (length hs + i - length hs)%nat with i by lia.
Qed.
Lemma secure_run fuel vq ds av k e cur len i vec w : avails w !! avail vq = Some av → descs w !! desc vq = Some ds → vq_size vq = 2 ^ k → 0 <= k <= 15 → load (av_ring av) (cur mod 2 ^ k) = Some (e_id e) → entry_ok ds e → 0 <= i < Z.of_nat (length vec) → Z.of_nat (length vec) < 2 ^ 32 → 0 <= len → len + d_len (e_desc e) < 2 ^ 32 →
  update_secure_len (S fuel) vq cur len i vec w = Some (len + d_len (e_desc e), i + 1, <[Z.to_nat i := entry_vec e]> vec).
Proof.
  intros Hav Hds Hsz Hk Hh [Hl Hs _ ?] Hi Hv Hlen Hlt. unfold update_secure_len. rewrite Hav. cbn [mbind option_bind]. rewrite Hsz, land_mask, Hh by lia. cbn [mbind option_bind secure_loop]. rewrite (get_desc_eq _ ds), Hl by done. cbn [mbind option_bind]. rewrite store_in by done. cbn [mbind option_bind]. rewrite Hs. rewrite !u32_small by (unfold is_u32; lia). done.
Qed.
Lemma reserve_run fuel vq ds av k plen es w : avails w !! avail vq = Some av → descs w !! desc vq = Some ds → vq_size vq = 2 ^ k → 0 <= k <= 15 → Forall (entry_ok ds) es → ∀ n cur secure i vec,
  pending av (2 ^ k) cur (e_id <$> es) → is_u16 cur → av_idx av = u16 (cur + Z.of_nat (length es)) → Z.of_nat (length es) < 2 ^ 16 → 0 <= secure → secure + total_room es < 2 ^ 32 → 0 <= i → i + Z.of_nat (length es) <= Z.of_nat (length vec) → Z.of_nat (length vec) < 2 ^ 32 → (length es < n)%nat →
  ∃ vec', length vec' = length vec ∧ (∀ j, 0 <= j < i → load vec' j = load vec j) ∧
    reserve_entries n (S fuel) vq plen cur secure i vec w = Some (match split_room (plen - secure) es with None => inl vec' | Some (l, _) => inr (u16 (cur + Z.of_nat (length l)), vec') end) ∧
    (∀ l r j x, split_room (plen - secure) es = Some (l, r) → l !! j = Some x → load vec' (i + Z.of_nat j) = Some (entry_vec x)).
Proof.
  intros Hav Hds Hsz Hk Hes. induction es as [|e es IH]; intros n cur secure i vec Hp Hcur Hidx Hlen Hsec Hroom Hi Hiv Hv Hn; (destruct n as [|n]; [lia|]); cbn [reserve_entries]; rewrite Hav; cbn [mbind option_bind].
  - exists vec. rewrite Hidx. cbn [length]. rewrite Z.add_0_r, u16_small, Z.eqb_refl by done. done.
  - apply Forall_cons in Hes as [He Hes]. pose proof He as [_ _ _ Hpos]. cbn [fmap list_fmap] in Hp. apply (pending_tail av k cur) in Hp as [Hh Hp]; [|done]. cbn [length] in Hidx, Hlen, Hiv, Hn. cbn [total_room foldr] in Hroom. fold (total_room es) in Hroom. assert (Hr0 : 0 <= total_room es). { clear -Hes. induction Hes as [|x l [_ _ _ ?] _ IH]; cbn; [done|]. fold (total_room l). lia. }
    unfold is_u16 in Hcur. destruct (Z.eqb_spec cur (av_idx av)) as [E|E]. { exfalso. rewrite Hidx in E. assert (cur mod 2 ^ 16 = (cur + Z.of_nat (S (length es))) mod 2 ^ 16) as E' by (rewrite (Z.mod_small cur) by lia; exact E). apply mod_near in E'; lia. }
    rewrite (secure_run fuel vq ds av k e) by (done || lia). cbn [mbind option_bind split_room]. rewrite Z.gtb_ltb. destruct (Z.ltb_spec (secure + d_len (e_desc e)) plen) as [Hlt|Hge].
    + rewrite (proj2 (Z.leb_gt (plen - secure) (d_len (e_desc e)))) by lia. destruct (IH Hes n (u16 (cur + 1)) (secure + d_len (e_desc e)) (i + 1) (<[Z.to_nat i := entry_vec e]> vec)) as (vec' & Hvl & Hvk & Hrun & Hvn); try done; try lia; [apply u16_range| |by rewrite length_insert; lia|by rewrite length_insert|].
      { rewrite Hidx. unfold u16. rewrite Zplus_mod_idemp_l. f_equal. lia. }
      rewrite length_insert in Hvl. exists vec'. split; [done|]. assert (Hvi : ∀ j, 0 <= j < i → load (<[Z.to_nat i := entry_vec e]> vec) j = load vec j). { intros j Hj. unfold load. rewrite !decide_True by lia. by rewrite list_lookup_insert_ne by lia. }
      split; [intros j Hj; rewrite Hvk by lia; by apply Hvi|]. replace (plen - (secure + d_len (e_desc e))) with (plen - secure - d_len (e_desc e)) in * by lia. rewrite Hrun. split.
      * destruct (split_room (plen - secure - d_len (e_desc e)) es) as [[l r]|]; cbn; [|done]. do 3 f_equal. unfold u16. rewrite Zplus_mod_idemp_l. f_equal. lia.
      * intros l r j x Hs Hj. destruct (split_room (plen - secure - d_len (e_desc e)) es) as [[l1 r1]|] eqn:Es; cbn in Hs; simplify_eq. destruct j as [|j]; cbn in Hj; simplify_eq.
        -- rewrite Z.add_0_r, Hvk by lia. unfold load. rewrite decide_True by lia. apply list_lookup_insert_eq. lia.
        -- replace (i + Z.of_nat (S j)) with (i + 1 + Z.of_nat j) by lia. by eapply Hvn.
    + rewrite (proj2 (Z.leb_le (plen - secure) (d_len (e_desc e)))) by lia. exists (<[Z.to_nat i := entry_vec e]> vec). rewrite length_insert. split; [done|]. split; [intros j Hj; unfold load; rewrite !decide_True by lia; by rewrite list_lookup_insert_ne by lia|]. split; [done|]. intros l r [|j] x Hs Hj; simplify_eq/=. rewrite Z.add_0_r. unfold load. rewrite decide_True by lia. apply list_lookup_insert_eq. lia.
Qed.
Lemma split_room_tight m es l r : split_room m es = Some (l, r) → match l with [] => False | e :: l' => tight (d_len (e_desc e)) l' m end.
Proof.
  revert m l. induction es as [|e es IH]; intros m l H; simpl in H; [done|]. destruct (Z.leb_spec m (d_len (e_desc e))); [by simplify_eq|]. binds. simplify_eq. match goal with H' : split_room _ _ = Some _ |- _ => specialize (IH _ _ H') end. by destruct l0.
Qed.

(** ** A burst *)

Record mjob := MJob { g_pkt : list Z; g_segs : list rte_mbuf; g_entries : list entry }.
(** Which packet goes into which entries. *)
Fixpoint plan (hlen : Z) (ps : list (list Z * list rte_mbuf)) (es : list entry) : list mjob :=
  match ps with
  | [] => []
  | (p, ms) :: ps => match split_room (total_len ms + hlen) es with None => [] | Some (l, r) => MJob p ms l :: plan hlen ps r end
  end.
Definition plan_entries (js : list mjob) : list entry := concat (g_entries <$> js).
Definition plan_used (hlen : Z) (js : list mjob) : list (Z * Z) := concat ((λ j, mrg_used hlen (g_entries j) (total_len (g_segs j))) <$> js).
Definition mrg_hdr (vq : vhost_virtqueue) (j : mjob) : list Z := take (Z.to_nat (vhost_hlen vq)) (hdr_bytes (Z.of_nat (length (g_entries j)))).

Lemma plan_prefix hlen ps es : ∃ r, es = plan_entries (plan hlen ps es) ++ r.
Proof. revert es. induction ps as [|[p ms] ps IH]; intros es; [by exists es|]. cbn [plan]. destruct (split_room _ es) as [[l r]|] eqn:E; [|by exists es]. destruct (split_room_app _ _ _ _ E) as [-> _]. destruct (IH r) as [r' Hr]. exists r'. unfold plan_entries in *. cbn [fmap list_fmap concat g_entries]. rewrite <- app_assoc, <- Hr. done. Qed.
Lemma plan_in hlen ps es j : j ∈ plan hlen ps es → ∃ pp, pp ∈ ps ∧ pp.2 = g_segs j.
Proof.
  revert es. induction ps as [|[p ms] ps IH]; intros es Hj; [by apply not_elem_of_nil in Hj|]. cbn [plan] in Hj. destruct (split_room _ es) as [[l r]|]; [|by apply not_elem_of_nil in Hj].
  apply elem_of_cons in Hj as [->|Hj]; [exists (p, ms); split; [left|done]|]. destruct (IH _ Hj) as (pp & ? & ?). exists pp. split; [by right|done].
Qed.
Lemma mrg_used_length hlen es n : length (mrg_used hlen es n) = length es.
Proof. destruct es; [done|]. apply merge_used_length. Qed.
Lemma plan_used_length hlen js : length (plan_used hlen js) = length (plan_entries js).
Proof. induction js as [|j js IH]; [done|]. unfold plan_used, plan_entries in *. cbn [fmap list_fmap concat]. by rewrite !length_app, mrg_used_length, IH. Qed.
Lemma eareas_app es es' : eareas (es ++ es') = eareas es ++ eareas es'.
Proof. unfold eareas, VirtMem.areas. by rewrite !fmap_app, concat_app. Qed.

(** A packet without empty segments. *)
Definition full_packet (B : gmap Z rte_mbuf) (hlen : Z) (m : gmap Z Z) (p : list Z * list rte_mbuf) : Prop := packet_ok B p.1 p.2 hlen m ∧ Forall (λ x, 0 < data_len x) p.2.
Definition psources (ps : list (list Z * list rte_mbuf)) : list Z := concat ((λ p, seg_areas p.2) <$> ps).
Lemma full_packet_dom B hlen m m' p : dom m' = dom m → full_packet B hlen m p → full_packet B hlen m' p.
Proof. intros Hd [[K1 K2 K3 K4 K5] H]. split; [split; try done; intros x Hx; apply elem_of_dom; rewrite Hd; apply elem_of_dom; auto|done]. Qed.

(** The queue after the burst: [e] is both indexes. *)
Definition moved_on (vec : list buf_vector) (e : Z) (vq : vhost_virtqueue) : vhost_virtqueue := vq <| buf_vec := vec |> <| last_used_idx_res := e |> <| last_used_idx := e |>.
Record merged (js : list mjob) (q : Z) (vq : vhost_virtqueue) (u : vring_used) (w w' : vworld) : Prop := {
  mg_del : Forall (λ j, delivered mm (e_desc <$> g_entries j) (mrg_hdr vq j) (seg_areas (g_segs j)) (bytes w) (bytes w')) js;
  mg_other : ∀ x, x ∉ eareas (plan_entries js) → bytes w' !! x = bytes w !! x;
  mg_dom : dom (bytes w') = dom (bytes w);
  mg_vq : ∃ vec, length vec = length (buf_vec vq) ∧ vqs w' = <[q := moved_on vec (u16 (last_used_idx vq + Z.of_nat (length (plan_entries js)))) vq]> (vqs w);
  mg_used : useds w' = <[used vq := u <| us_ring := put_used (vq_size vq) (last_used_idx vq) (plan_used (vhost_hlen vq) js) (us_ring u) |> <| us_idx := u16 (us_idx u + Z.of_nat (length (plan_entries js))) |>]> (useds w);
  mg_rest : pkts w' = pkts w ∧ descs w' = descs w ∧ avails w' = avails w ∧ kicks w' = kicks w }.

Lemma merge_loop_run queue_id q n fuel bufs ps : ∀ vq ds av u k es pos w, load (virtqueue dev) queue_id = Some q → vqs w !! q = Some vq → descs w !! desc vq = Some ds → avails w !! avail vq = Some av → useds w !! used vq = Some u → vq_size vq = 2 ^ k → 0 <= k <= 15 → length (us_ring u) = Z.to_nat (vq_size vq) →
  0 <= vhost_hlen vq <= 12 → last_used_idx_res vq = last_used_idx vq → is_u16 (last_used_idx vq) → is_u16 (us_idx u) → pending av (2 ^ k) (last_used_idx vq) (e_id <$> es) → av_idx av = u16 (last_used_idx vq + Z.of_nat (length es)) → Z.of_nat (length es) < 2 ^ 16 → (length es <= length (buf_vec vq))%nat → Z.of_nat (length (buf_vec vq)) < 2 ^ 32 → (length es < n)%nat →
  Forall (entry_ok ds) es → Forall (λ e, vhost_hlen vq <= d_len (e_desc e)) es → total_room es < 2 ^ 32 → NoDup (eareas es) → (∀ x, x ∈ eareas es → is_Some (bytes w !! x) ∧ x ∉ psources ps) → Forall (full_packet (mbufs (pkts w)) (vhost_hlen vq) (bytes w)) ps →
  (∀ i p, ps !! i = Some p → load bufs (pos + Z.of_nat i) = Some (hd NULL p.1) ∧ (length es + length p.2 <= fuel)%nat) → (0 < fuel)%nat →
  let js := plan (vhost_hlen vq) ps es in ∃ w', merge_loop dev (length ps) n fuel queue_id bufs pos w = Some (pos + Z.of_nat (length js), w') ∧ merged js q vq u w w'.
Proof.
  induction ps as [|[p ms] ps IH]; intros vq ds av u k es pos w Hq Hvq Hds Hav Hu Hsz Hk Hul Hh Hres H16 Hu16 Hp Hidx Hes16 Hvl Hv32 Hn Hes Hhl Hroom Hnd Hap Hps Hb Hfu js.
  { exists w. cbn. rewrite Z.add_0_r. split; [done|]. split; try done; cbn; rewrite ?Z.add_0_r.
    - exists (buf_vec vq). split; [done|]. rewrite u16_small by done. symmetry. apply insert_id. rewrite Hvq. unfold moved_on. destruct vq. cbn in *. by subst.
    - rewrite u16_small by done. symmetry. apply insert_id. rewrite Hu. by destruct u. }
  destruct fuel as [|fuel]; [lia|]. cbn [length merge_loop]. unfold get_vq at 1. rewrite Hq. cbn [mbind option_bind]. rewrite Hvq. cbn [mbind option_bind]. destruct (Hb 0%nat (p, ms) eq_refl) as [Hb0 Hf0]. rewrite Z.add_0_r in Hb0. rewrite Hb0. cbn [mbind option_bind fst snd] in *.
  apply Forall_cons in Hps as [Hfp Hps]. pose proof Hfp as [Hpk Hseg]. cbn [fst snd] in Hpk, Hseg. pose proof Hpk as [Hpne Hsg Hpl [Hl0 Hl32] Hpm]. destruct p as [|a p]; [done|]. destruct ms as [|m ms]; [done|]. pose proof Hsg as (Ha & _). cbn [hd]. rewrite Ha. cbn [mbind option_bind]. specialize (Hpl m eq_refl). rewrite Hpl, u32_small by (unfold is_u32; lia). rewrite Hres.
  assert (Htl : 0 <= total_len (m :: ms)) by (rewrite <- (seg_areas_length _ (packet_segs_ok _ _ _ Hsg)); lia).
  destruct (reserve_run fuel vq ds av k (total_len (m :: ms) + vhost_hlen vq) es w Hav Hds Hsz Hk Hes n (last_used_idx vq) 0 0 (buf_vec vq)) as (vec & Hvec & _ & -> & Hld); try done; try lia. rewrite Z.sub_0_r in *. cbn [mbind option_bind]. unfold js. cbn [plan]. destruct (split_room (total_len (m :: ms) + vhost_hlen vq) es) as [[l r]|] eqn:Esp.
  2: { eexists. cbn [length]. rewrite Z.add_0_r. split; [done|]. split; try done; cbn; rewrite ?Z.add_0_r.
    - exists vec. split; [done|]. rewrite u16_small by done. f_equal. unfold moved_on. destruct vq. cbn in *. by subst.
    - rewrite u16_small by done. symmetry. apply insert_id. rewrite Hu. by destruct u. }
  destruct (split_room_app _ _ _ _ Esp) as [-> Hlne]. pose proof (split_room_tight _ _ _ _ Esp) as Htight. rewrite fmap_app in Hp. rewrite eareas_app in Hnd, Hap. apply NoDup_app in Hnd as (Hndl & Hdis & Hndr). apply Forall_app in Hes as [Hel Her]. apply Forall_app in Hhl as [Hhll Hhlr]. rewrite length_app in Hidx, Hes16, Hvl, Hn, Hf0.
  set (e := u16 (last_used_idx vq + Z.of_nat (length l))). set (vq1 := vq <| buf_vec := vec |> <| last_used_idx_res := e |>). set (w1 := set_vq q vq1 w). assert (Hgv : get_vq dev queue_id w1 = Some (q, vq1)). { unfold get_vq. rewrite Hq. cbn. by rewrite lookup_insert_eq. }
  destruct (copy_from_mbuf_run (S fuel) queue_id q vq1 ds k u l (a :: p) (m :: ms) (last_used_idx vq) w1 Hgv Hds Hu Hsz Hk Hul Hh) as (m' & Hrun & Hdel & Hoth & Hdom).
  { lia. } { intros j x Hj. by apply (Hld l r j x eq_refl). }
  { split; try done; [destruct l as [|e0 l]; [done|]|intros x Hx; apply Hap, elem_of_app; by left|]. - apply Forall_cons in Hhll as [? _]. split; [done|]. apply (tight_sub _ _ _ (vhost_hlen vq)) in Htight. by replace (total_len (m :: ms) + vhost_hlen vq - vhost_hlen vq) with (total_len (m :: ms)) in Htight by lia.
    - intros x Hx Hx'. destruct (Hap x) as [_ Hns]; [apply elem_of_app; by left|]. apply Hns. apply elem_of_app. by left. }
  { lia. }
  cbn [hd] in Hrun. fold e in Hrun. rewrite Hrun. cbn [mbind option_bind]. change (last_used_idx vq1) with (last_used_idx vq). rewrite Z.eqb_refl. cbn [negb]. erewrite add_used_eq by (unfold put_state; cbn; apply lookup_insert_eq). cbn [mbind option_bind].
  match goal with |- context [merge_loop _ _ _ _ _ _ _ ?x] => set (w2 := x) end. set (vq2 := vq1 <| last_used_idx := e |>) in *. set (u1 := u <| us_ring := put_used (vq_size vq1) (last_used_idx vq) (mrg_used (vhost_hlen vq1) l (total_len (m :: ms))) (us_ring u) |>) in *. set (u2 := u1 <| us_idx := u16 (us_idx u1 + Z.of_nat (length l)) |>) in *.
  destruct (IH vq2 ds av u2 k r (pos + 1) w2 Hq) as (w' & Hrun2 & [D1 D2 D3 (vec2 & D4 & D5) D6 (D7 & D8 & D9 & D10)]); try done; try lia.
  { unfold w2. cbn. by rewrite lookup_insert_eq. }
  { unfold w2. cbn. by rewrite lookup_insert_eq. }
  { unfold u2, u1. cbn. by rewrite put_used_length. }
  { apply u16_range. } { apply u16_range. }
  { unfold vq2. cbn. unfold e. rewrite <- (length_fmap e_id l). by apply (pending_drop av k (e_id <$> l)). }
  { unfold vq2, e. cbn. rewrite Hidx. unfold u16. rewrite Zplus_mod_idemp_l. f_equal. lia. }
  { unfold vq2, vq1. cbn. lia. } { unfold vq2, vq1. cbn. lia. }
  { assert (0 <= total_room l) by (rewrite <- (eareas_length ds l Hel); lia). assert (total_room (l ++ r) = total_room l + total_room r); [|lia]. clear. induction l as [|x l IHl]; [done|]. cbn [app total_room foldr]. fold (total_room l) (total_room (l ++ r)). lia. }
  { intros x Hx. destruct (Hap x) as [Hm Hns]; [apply elem_of_app; by right|]. split; [|intros Hin; apply Hns; apply elem_of_app; by right]. unfold w2. cbn. apply elem_of_dom. rewrite Hdom. by apply elem_of_dom. }
  { rewrite Forall_forall in Hps |- *. intros x Hx. by apply (full_packet_dom _ _ (bytes w)); [|apply Hps]. }
  { intros i x Hi. replace (pos + 1 + Z.of_nat i) with (pos + Z.of_nat (S i)) by lia. destruct (Hb (S i) x Hi) as [? Hfx]. split; [done|]. rewrite length_app in Hfx. lia. }
  change (vhost_hlen vq2) with (vhost_hlen vq) in *. set (js' := plan (vhost_hlen vq) ps r) in *. exists w'. split; [rewrite Hrun2; cbn [length]; do 2 f_equal; lia|].
  assert (Hpe : plan_entries (MJob (a :: p) (m :: ms) l :: js') = l ++ plan_entries js') by done. destruct (plan_prefix (vhost_hlen vq) ps r) as [r' Hr']. fold js' in Hr'. assert (Hsub : ∀ x, x ∈ eareas (plan_entries js') → x ∈ eareas r) by (intros x Hx; rewrite Hr', eareas_app; apply elem_of_app; by left). split; rewrite ?Hpe.
  - constructor.
    + cbn [g_entries g_segs]. eapply delivered_frame; [exact Hdel|]. intros x Hx. apply D2. intros Hin. by apply (Hdis x Hx), Hsub.
    + rewrite Forall_forall in D1 |- *. intros j Hj. eapply delivered_source; [by apply D1|]. intros x Hx. apply Hoth. intros Hin. destruct (Hap x) as [_ Hns]; [apply elem_of_app; by left|]. apply Hns. apply elem_of_app. right.
      destruct (plan_in _ _ _ _ Hj) as (pp & Hpp & Hpe2).
      apply elem_of_concat. exists (seg_areas pp.2). split; [apply list_elem_of_fmap; by exists pp|by rewrite Hpe2].
  - intros x Hx. rewrite eareas_app, not_elem_of_app in Hx. rewrite D2 by tauto. apply Hoth. tauto.
  - rewrite D3. exact Hdom.
  - exists vec2. split; [rewrite D4; exact Hvec|]. rewrite D5. unfold w2. cbn. rewrite !insert_insert_eq. f_equal. unfold moved_on, vq2, vq1. cbn. assert (u16 (e + Z.of_nat (length (plan_entries js'))) = u16 (last_used_idx vq + Z.of_nat (length (l ++ plan_entries js')))) as ->; [|done]. unfold e, u16. rewrite Zplus_mod_idemp_l, length_app. f_equal. lia.
  - assert (Hpu : plan_used (vhost_hlen vq) (MJob (a :: p) (m :: ms) l :: js') = mrg_used (vhost_hlen vq) l (total_len (m :: ms)) ++ plan_used (vhost_hlen vq) js') by done. rewrite Hpu. rewrite D6. unfold w2. cbn. rewrite !insert_insert_eq. f_equal. unfold u2, u1. cbn. unfold e. rewrite Hsz, put_used_u16, (put_used_app _ _ (mrg_used _ _ _)), mrg_used_length by lia. assert (u16 (u16 (us_idx u + Z.of_nat (length l)) + Z.of_nat (length (plan_entries js'))) = u16 (us_idx u + Z.of_nat (length (l ++ plan_entries js')))) as ->; [|done]. unfold u16. rewrite Zplus_mod_idemp_l, length_app. f_equal. lia.
  - rewrite D7, D8, D9, D10. done.
Qed.
End merge.

(** C14: With mergeable buffers, and at most 256 available entries, each of one
    descriptor of the guest's memory with room for the header, and packets
    without empty segments, [virtio_dev_merge_rx] puts packet after packet into
    the fewest entries of the available ring that have room for it, until the
    packets (at most 32) or the entries are used up: the first buffer starts with
    a header that has the number of entries, and the rest has exactly the bytes of
    the packet; the used ring has every entry with the bytes in it, the indexes
    stay together, and no other byte changes. *)
Theorem merge_burst_delivers dev mm queue_id q vq ds av u k es n fuel bufs ps count w : mem dev = Some mm → queue_ok dev queue_id 0 w q vq ds av u k → last_used_idx_res vq = last_used_idx vq → is_u16 (us_idx u) → 0 <= count → length ps = Z.to_nat (Z.min MAX_PKT_BURST count) →
  pending av (vq_size vq) (last_used_idx vq) (e_id <$> es) → av_idx av = u16 (last_used_idx vq + Z.of_nat (length es)) → Z.of_nat (length es) <= vq_size vq → Z.of_nat (length es) <= BUF_VECTOR_MAX → Z.of_nat (length (buf_vec vq)) = BUF_VECTOR_MAX → (length es < n)%nat → (0 < fuel)%nat →
  Forall (entry_ok mm ds) es → Forall (λ e, vhost_hlen vq <= d_len (e_desc e)) es → total_room es < 2 ^ 32 → NoDup (eareas mm es) → (∀ x, x ∈ eareas mm es → is_Some (bytes w !! x) ∧ x ∉ psources ps) → Forall (full_packet (mbufs (pkts w)) (vhost_hlen vq) (bytes w)) ps →
  (∀ i p, ps !! i = Some p → bufs !! i = Some (hd NULL p.1) ∧ (length es + length p.2 <= fuel)%nat) →
  let js := plan (vhost_hlen vq) ps es in let l := plan_entries js in let e := u16 (last_used_idx vq + Z.of_nat (length l)) in
  ∃ w', virtio_dev_merge_rx dev n fuel queue_id bufs count w = Some (Z.of_nat (length js), w') ∧
    Forall (λ j, delivered mm (e_desc <$> g_entries j) (mrg_hdr vq j) (seg_areas (g_segs j)) (bytes w) (bytes w')) js ∧ (∀ x, x ∉ eareas mm l → bytes w' !! x = bytes w !! x) ∧
    (∃ vec, vqs w' = <[q := moved_on vec e vq]> (vqs w)) ∧ kicks w' = (if decide (js = []) then kicks w else kicked vq av w) ∧ pkts w' = pkts w ∧ descs w' = descs w ∧ avails w' = avails w ∧
    ∃ u', useds w' = <[used vq := u']> (useds w) ∧ us_idx u' = u16 (us_idx u + Z.of_nat (length l)) ∧ ∀ i x, plan_used (vhost_hlen vq) js !! i = Some x → us_ring u' !! Z.to_nat ((last_used_idx vq + Z.of_nat i) mod vq_size vq) = Some x.
Proof.
  intros Hmem [Hv Hvq Hen Hds Hav Hu [Hsz Hk] Har Hur Hh Hlu] Hres Hu16 Hc0 Hps Hp Hidx Hes Hes256 Hbv Hn Hfu Heo Hhl Hroom Hnd Hap Hfp Hb js l e. unfold virtio_dev_merge_rx. rewrite Hv, Hvq. cbn [negb mbind option_bind]. destruct (Z.eqb_spec (enabled vq) 0); [done|].
  assert (Hsz15 : 2 ^ k <= 2 ^ 15) by (apply Z.pow_le_mono_r; lia). unfold BUF_VECTOR_MAX, MAX_PKT_BURST in *. assert (Hq : load (virtqueue dev) queue_id = Some q ∧ vqs w !! q = Some vq) by (unfold get_vq in Hvq; binds; simplify_eq; by subst). destruct Hq as [Hq1 Hq2].
  destruct (merge_loop_run dev mm Hmem queue_id q n fuel bufs ps vq ds av u k es 0 w) as (w1 & Hrun & [D1 D2 D3 (vec & D4 & D5) D6 (D7 & D8 & D9 & D10)]); try done; try lia; [by rewrite <- Hsz|intros i p Hi; rewrite Z.add_0_l, load_nat; by apply Hb|]. fold js in Hrun, D1, D2, D5, D6. rewrite Z.add_0_l in Hrun.
  assert (Hlast : ∀ w2, useds w2 = useds w1 → ∃ u', useds w2 = <[used vq := u']> (useds w) ∧ us_idx u' = u16 (us_idx u + Z.of_nat (length l)) ∧ ∀ i x, plan_used (vhost_hlen vq) js !! i = Some x → us_ring u' !! Z.to_nat ((last_used_idx vq + Z.of_nat i) mod vq_size vq) = Some x).
  { intros w2 ->. rewrite D6. eexists. split; [done|]. cbn. split; [done|]. intros i x Hx. rewrite Hsz. apply put_used_at; [apply Z.pow_pos_nonneg; lia|by rewrite <- Hsz| |done]. rewrite plan_used_length. destruct (plan_prefix (vhost_hlen vq) ps es) as [r Hr]. assert (length es = (length l + length r)%nat) by (rewrite Hr at 1; rewrite length_app; done). unfold l, js in *. lia. }
  destruct (Z.eqb_spec (Z.min 32 count) 0) as [E0|E0].
  { assert (ps = []) as -> by (apply length_zero_iff_nil; lia). cbn in Hrun. injection Hrun as <-. exists w. split; [done|]. split; [done|]. split; [done|]. split; [by exists vec|]. split; [done|]. split; [done|]. split; [done|]. split; [done|]. by apply Hlast. }
  rewrite <- Hps, Hrun. cbn [mbind option_bind]. destruct (Z.eqb_spec (Z.of_nat (length js)) 0) as [Ej|Ej].
  - assert (Hj : js = []) by (apply length_zero_iff_nil; lia). exists w1. split; [by rewrite Hj|]. rewrite decide_True by done. split; [done|]. split; [done|]. split; [by exists vec|]. split; [done|]. split; [done|]. split; [done|]. split; [done|]. by apply Hlast.
  - rewrite decide_False by (intros Hj; rewrite Hj in Ej; done). rewrite (kick_guest_eq vq av) by (by rewrite D9). cbn [mbind option_bind]. eexists. split; [done|]. cbn. split; [done|]. split; [done|]. split; [by exists vec|]. split; [unfold kicked; by rewrite D10|]. split; [done|]. split; [done|]. split; [done|]. by apply Hlast.
Qed.
