(* ===== verification/VirtCheck.v ===== *)
(** * The calls of the vhost library at concrete queues

    Witnesses of the theorems on bursts, and inputs at which the code does not do
    what it should. *)
From S2P Require Import Prelude Align BurstQueue Ring RingSpec RingReg Mempool MempoolInit Mbuf MbufInv MbufOps MbufCalls MbufPool VirtQueue VirtMem VirtRx VirtTx VirtDeq VirtMrg.
Open Scope Z_scope.

(** One region of guest memory, at 2^32 on the host. *)
Definition ex_region : virtio_memory_regions := MemRegion 0 65536 65536 0 (2 ^ 32).
Definition ex_mem : virtio_memory := VirtioMemory 0 (2 ^ 32) 65536 [ex_region].
Definition ex_dev (features : Z) : virtio_net := VirtioNet (Some ex_mem) features 0 0 1 "" 1 [4096; 8192].
Definition fill (a n : Z) : list (Z * Z) := (λ x, (x, x mod 251)) <$> range a n.
Definition ex_vq (hlen : Z) : vhost_virtqueue := Virtqueue 1 2 3 4 0 hlen 0 0 77 (-1) 1 (replicate 256 (BufVector 0 0 0)).
Definition ex_queue (ds : list vring_desc) (ring : list Z) (idx hlen : Z) (b : list (Z * Z)) (B : world) : vworld :=
  VWorld (list_to_map b) {[ 1 := ds ]} {[ 2 := VringAvail 0 idx ring ]} {[ 3 := VringUsed 0 0 (replicate 4 (0, 0)) ]} {[ 4096 := ex_vq hlen; 8192 := ex_vq hlen ]} B [].

Definition ex_used : vring_used := VringUsed 0 0 (replicate 4 (0, 0)).
Lemma ex_queue_ok fs ds ring idx hlen b B tx : length ring = 4%nat → 0 <= hlen <= 12 → queue_ok (ex_dev fs) (c_bool tx) (c_bool tx) (ex_queue ds ring idx hlen b B) (if tx then 8192 else 4096) (ex_vq hlen) ds (VringAvail 0 idx ring) ex_used 2.
Proof. intros Hr Hh. destruct tx; split; try done; cbn; try lia. Qed.

(** A packet of two segments. *)
Definition ex_seg (addr len next : Z) : rte_mbuf := Mbuf addr 0 64 8 1 2 0 0 0 13 len 0 0 0 0 0 0 next 0 0 0 0.
Definition ex_segs : list rte_mbuf := [ex_seg 1128 6 2000; ex_seg 2128 7 NULL].
Definition ex_pkts : world := World {[ 1000 := ex_seg 1128 6 2000; 2000 := ex_seg 2128 7 NULL ]} ∅.
Definition ex_bytes : list (Z * Z) := fill (2 ^ 32) 256 ++ fill 1128 64 ++ fill 2128 64.

Lemma ex_packet w hlen : pkts w = ex_pkts → bytes w = list_to_map ex_bytes → 0 <= hlen <= 12 → packet_ok (mbufs (pkts w)) [1000; 2000] ex_segs hlen (bytes w).
Proof.
  intros -> -> Hh. split; [done| |by intros x [= <-]|unfold is_u32; simpl; lia|].
  - unfold ex_segs. cbn [packet_segs hd]. split_and!; try done; split; cbn; unfold is_u16; lia.
  - assert (bool_decide (Forall (λ x, is_Some ((list_to_map ex_bytes : gmap Z Z) !! x)) (seg_areas ex_segs)) = true) as H by (vm_compute; reflexivity). apply bool_decide_eq_true in H. by rewrite Forall_forall in H.
Qed.
Lemma mapped_dec (m : gmap Z Z) l : bool_decide (Forall (λ x, is_Some (m !! x)) l) = true → ∀ x, x ∈ l → is_Some (m !! x).
Proof. intros H. apply bool_decide_eq_true in H. by rewrite Forall_forall in H. Qed.
Lemma apart_dec (l k : list Z) : bool_decide (Forall (λ x, x ∉ k) l) = true → ∀ x, x ∈ l → x ∉ k.
Proof. intros H. apply bool_decide_eq_true in H. by rewrite Forall_forall in H. Qed.

(** ** One chain per packet *)

Definition rx_descs : list vring_desc := [VringDesc 0 10 1 1; VringDesc 64 8 1 2; VringDesc 128 32 0 0].
Definition rx_w : vworld := ex_queue rx_descs [0; 0; 0; 0] 1 10 ex_bytes ex_pkts.
Definition rx_job : job := Job 0 rx_descs [1000; 2000] ex_segs.

(** ** Mergeable buffers *)

Definition mrg_descs : list vring_desc := [VringDesc 0 16 0 0; VringDesc 64 16 0 0; VringDesc 128 16 0 0].
Definition mrg_w : vworld := ex_queue mrg_descs [2; 0; 1; 0] 3 12 ex_bytes ex_pkts.
Definition mrg_entries : list entry := [Entry 2 (VringDesc 128 16 0 0); Entry 0 (VringDesc 0 16 0 0); Entry 1 (VringDesc 64 16 0 0)].
Definition mrg_dev : virtio_net := ex_dev (Z.shiftl 1 VIRTIO_NET_F_MRG_RXBUF).
(** The packet needs two of the three entries. *)
Lemma merge_burst_delivers_witness : ∃ w' u', rte_vhost_enqueue_burst mrg_dev 8 8 0 [1000] 1 mrg_w = Some (1, w') ∧ useds w' !! 3 = Some u' ∧ us_idx u' = 2 ∧ us_ring u' !! 0%nat = Some (2, 16) ∧ us_ring u' !! 1%nat = Some (0, 9).
Proof.
  destruct (merge_burst_delivers mrg_dev ex_mem 0 4096 (ex_vq 12) mrg_descs (VringAvail 0 3 [2; 0; 1; 0]) ex_used 2 mrg_entries 8 8 [1000] [([1000; 2000], ex_segs)] 1 mrg_w) as (w' & Hrun & _ & _ & _ & _ & _ & _ & _ & u' & Hu & Hi & Hr).
  - reflexivity.
  - by apply (ex_queue_ok _ _ _ _ _ _ _ false).
  - reflexivity.
  - unfold is_u16. simpl. lia.
  - lia.
  - reflexivity.
  - intros [|[|[|i]]] h Hi; simplify_eq/=; reflexivity.
  - reflexivity.
  - cbn. lia.
  - cbn. unfold BUF_VECTOR_MAX. lia.
  - reflexivity.
  - simpl. lia.
  - lia.
  - repeat constructor; vm_compute; congruence.
  - repeat constructor; vm_compute; congruence.
  - vm_compute. reflexivity.
  - apply (bool_decide_eq_true (NoDup (eareas ex_mem mrg_entries))). vm_compute. reflexivity.
  - intros x Hx. split; [revert x Hx; apply mapped_dec; vm_compute; reflexivity|revert x Hx; apply apart_dec; vm_compute; reflexivity].
  - apply Forall_singleton. split; [by apply ex_packet|]. repeat constructor.
  - intros [|i] p Hp; simplify_eq/=. split; [done|simpl; lia].
  - exists w', u'. split; [exact Hrun|]. split; [rewrite Hu; apply lookup_insert_eq|]. split; [exact Hi|]. split; [exact (Hr 0%nat (2, 16) eq_refl)|exact (Hr 1%nat (0, 9) eq_refl)].
Defined.

(** ** Packets from the guest *)

(** A pool of seven buffers with 16 bytes behind the headroom. *)
Definition vt_create := rte_pktmbuf_pool_create true (λ _, 0) demo_plat demo_env "demo" 7 2 0 144 demo_answers 4096 ∅.
Definition vt_pkts : world := match vt_create with Some (Some p, _, B) => World B {[ 4096 := p ]} | _ => World ∅ ∅ end.
Lemma vt_ready : good true (λ _, 0) vt_pkts [].
Proof.
  destruct (pktmbuf_pool_ready (λ _, 0) (World ∅ ∅) demo_plat demo_env "demo" 7 2 0 144 demo_answers demo_mz 4096 0 (nothing_ready _)) as (p & e' & B' & H & _ & Hr & _); [done|done|done|done| |by intros ? ? ? ? ? []|].
  - split; [done|by vm_compute|split; [lia|vm_compute; discriminate]|unfold RTE_MEMPOOL_CACHE_MAX_SIZE, sizeof_rte_mbuf, sizeof_pktmbuf_pool_private; lia|by vm_compute|]. split; [done|]. intros size Hs. eexists _, _. split; [done|]. split; [lia|]. split; [done|]. lia.
  - cbn [mbufs pools] in H, Hr. exists ∅. unfold vt_pkts, vt_create. rewrite H. split; [exact Hr|done].
Qed.
Definition vt_buffers : list (Z * Z) := concat ((λ '(_, x), fill (buf_addr x) (buf_len x)) <$> map_to_list (mbufs vt_pkts)).
Definition tx_descs : list vring_desc := [VringDesc 0 12 1 1; VringDesc 64 9 1 2; VringDesc 128 14 0 0].
Definition tx_w : vworld := ex_queue tx_descs [0; 0; 0; 0] 1 12 (fill (2 ^ 32) 256 ++ vt_buffers) vt_pkts.
Definition tx_job : tjob := TJob 0 tx_descs ((λ x, (2 ^ 32 + x) mod 251) <$> (range 64 9 ++ range 128 14)).
(** A layout of a finite set of buffers can be computed. *)
Lemma layout_dec rm (B : gmap Z rte_mbuf) (m : gmap Z Z) G :
  bool_decide (map_Forall (λ _ x, RTE_PKTMBUF_HEADROOM + rm <= buf_len x ∧ 0 <= buf_addr x ∧ buf_addr x + buf_len x <= 2 ^ 64 ∧ Forall (λ y, is_Some (m !! y)) (buffer x) ∧ Forall (λ y, y < buf_addr x ∨ buf_addr x + buf_len x <= y) G) B) = true →
  bool_decide (map_Forall (λ a x, map_Forall (λ b x', a = b ∨ buf_addr x + buf_len x <= buf_addr x' ∨ buf_addr x' + buf_len x' <= buf_addr x) B) B) = true → layout rm B m G.
Proof.
  intros H1 H2. apply bool_decide_eq_true in H1, H2. split.
  - intros a x y Ha _ Hy. destruct (H1 a x Ha) as (_ & _ & _ & Hm & _). rewrite Forall_forall in Hm. by apply Hm.
  - intros a b x x' y Ha Hb _ _ Hne Hy Hy'. destruct (H2 a x Ha b x' Hb) as [?|[?|?]]; [done|..]; unfold buffer in *; rewrite elem_of_range in *; lia.
  - intros a x y Ha _ Hy Hg. destruct (H1 a x Ha) as (_ & _ & _ & _ & Hm). rewrite Forall_forall in Hm. destruct (Hm y Hg); unfold buffer in *; rewrite elem_of_range in *; lia.
  - intros a x Ha _. destruct (H1 a x Ha) as (? & ? & ? & _). done.
Qed.
(** 23 bytes in two descriptors become a packet of two segments. *)
Lemma dequeue_burst_receives_witness : ∃ p w', rte_vhost_dequeue_burst true (λ _, 0) 0 (ex_dev 0) 64 1 4096 32 tx_w = Some ([hd NULL p], w') ∧ packet_is (mbufs (pkts w')) (bytes w') p (t_bytes tx_job).
Proof.
  assert (∃ pl, pools (pkts tx_w) !! 4096 = Some pl ∧ is_Some (gets 0 (all_needed 16 [tx_job]) (mempool pl))) as (pl & Hpl & Hgets).
  { assert (bool_decide (is_Some (pools vt_pkts !! 4096 ≫= λ pl, gets 0 (all_needed 16 [tx_job]) (mempool pl))) = true) as H by (vm_compute; reflexivity). apply bool_decide_eq_true in H. change (pkts tx_w) with vt_pkts. destruct (pools vt_pkts !! 4096) as [pl|]; [|by destruct H]. exists pl. split; [done|exact H]. }
  destruct (dequeue_burst_receives true (λ _, 0) 0 (ex_dev 0) ex_mem 4096 16 64 1 8192 (ex_vq 12) tx_descs (VringAvail 0 1 [0; 0; 0; 0]) ex_used 2 pl [] [tx_job] 32 tx_w) as [_ Hmain].
  - reflexivity.
  - apply (ex_queue_ok 0 tx_descs [0; 0; 0; 0] 1 12 (fill (2 ^ 32) 256 ++ vt_buffers) vt_pkts true); [reflexivity|lia].
  - lia.
  - lia.
  - lia.
  - exact vt_ready.
  - exact Hpl.
  - apply layout_dec; vm_compute; reflexivity.
  - reflexivity.
  - vm_compute. discriminate.
  - clear. intros [|i] h Hi; simplify_eq/=. reflexivity.
  - clear. apply Forall_singleton. split.
    + split; [split; [reflexivity|by cbn]|repeat constructor; vm_compute; congruence|repeat constructor; vm_compute; congruence|by vm_compute|]. intros y Hy. split; [cbn [fmap list_fmap concat]; rewrite app_nil_r; exact Hy|]. revert y Hy. apply mapped_dec. vm_compute. reflexivity.
    + apply (bool_decide_eq_true (Forall2 _ _ _)). vm_compute. reflexivity.
  - clear. apply Forall_singleton. apply Nat.ltb_lt. vm_compute. reflexivity.
  - destruct Hmain as (ps & w' & Hrun & _ & Hall & Hpk & _); [vm_compute; discriminate|]. specialize (Hall Hgets). destruct ps as [|p [|]]; [vm_compute in Hall; discriminate| |cbn [length] in Hall; change (tx_burst_size (ex_vq 12) (VringAvail 0 1 [0; 0; 0; 0]) 32) with 1 in Hall; lia]. exists p, w'. split; [exact Hrun|]. exact (proj1 (Forall2_cons_1 _ _ _ _ _ Hpk)).
Defined.

(** ** Where the code goes wrong *)

Definition used0 (w : vworld) : option (Z * (Z * Z)) := u ← useds w !! 3; e ← us_ring u !! 0%nat; Some (us_idx u, e).
(** An entry that is a chain of two descriptors: the used ring gets the index of
    its last descriptor instead of that of its head. *)
Definition mrg_chain_w : vworld := ex_queue [VringDesc 0 16 1 1; VringDesc 64 16 0 0] [0; 0; 0; 0] 1 12 ex_bytes ex_pkts.
Definition mrg_used (r : option (Z * vworld)) : option (Z * (Z * (Z * Z)) * Z) := '(n, w) ← r; u ← used0 w; q ← vqs w !! 4096; Some (n, u, last_used_idx q).
Theorem merge_chain_id : mrg_used (virtio_dev_merge_rx mrg_dev 8 8 0 [1000] 1 mrg_chain_w) = Some (1, (1, (1, 25)), 1).
Proof. vm_compute. reflexivity. Qed.
(** A packet that starts with an empty segment: it counts as sent, the entry is
    reserved for good, but nothing is copied and the guest is not told of it. *)
Definition empty_seg_pkts : world := World {[ 1000 := ex_seg 1128 0 2000; 2000 := ex_seg 2128 13 NULL ]} ∅.
Definition empty_seg_w : vworld := ex_queue mrg_descs [2; 0; 1; 0] 3 12 ex_bytes empty_seg_pkts.
Theorem merge_empty_segment : mrg_used (virtio_dev_merge_rx mrg_dev 8 8 0 [1000] 1 empty_seg_w) = Some (1, (0, (0, 0)), 2).
Proof. vm_compute. reflexivity. Qed.
(** A chain of 257 descriptors, which a queue of 512 allows, runs over the end of
    [buf_vec]: with one more entry in it the same call returns. *)
Definition long_chain : list vring_desc := (λ i, VringDesc 0 1 (if i <? 256 then 1 else 0) (i + 1)) <$> seqZ 0 257.
Definition long_vq : vhost_virtqueue := (ex_vq 12) <| vq_size := 512 |>.
Definition long_w : vworld := ex_queue long_chain (replicate 512 0) 1 12 [] ex_pkts.
Definition secured (r : option (Z * Z * list buf_vector)) : option (Z * Z) := fst <$> r.
Theorem secure_len_overruns : Z.of_nat (length (buf_vec long_vq)) = BUF_VECTOR_MAX ∧ secured (update_secure_len 1000 long_vq 0 0 0 (buf_vec long_vq) long_w) = None ∧
  secured (update_secure_len 1000 long_vq 0 0 0 (buf_vec long_vq ++ [BufVector 0 0 0]) long_w) = Some (257, 257).
Proof. split_and!; vm_compute; reflexivity. Qed.
(** A descriptor without bytes in a chain from the guest ends the packet, and the
    bytes in front of it are not counted. *)
Definition gap_w : vworld := ex_queue [VringDesc 0 12 1 1; VringDesc 64 9 1 2; VringDesc 96 0 1 3; VringDesc 128 14 0 0] [0; 0; 0; 0] 1 12 (fill (2 ^ 32) 256 ++ vt_buffers) vt_pkts.
Definition first_lengths (r : option (list Z * vworld)) : option (nat * Z * Z) := '(l, w) ← r; a ← l !! 0%nat; m ← mbufs (pkts w) !! a; Some (length l, pkt_len m, data_len m).
Theorem dequeue_empty_descriptor : first_lengths (rte_vhost_dequeue_burst true (λ _, 0) 0 (ex_dev 0) 64 1 4096 32 gap_w) = Some (1%nat, 0, 0).
Proof. vm_compute. reflexivity. Qed.
(** A single descriptor shorter than the header: the length wraps around, and
    the copy runs out of the memory of the guest. *)
Definition short_w : vworld := ex_queue [VringDesc 0 4 0 0] [0; 0; 0; 0] 1 12 (fill (2 ^ 32) 16 ++ vt_buffers) vt_pkts.
Theorem dequeue_short_descriptor : rte_vhost_dequeue_burst true (λ _, 0) 0 (ex_dev 0) 64 1 4096 32 short_w = None.
Proof. vm_compute. reflexivity. Qed.
(** An address in no region is used as an address of the host: its memory gets
    into a packet. *)
Definition host_w : vworld := ex_queue [VringDesc 70000 16 0 0] [0; 0; 0; 0] 1 12 (fill (2 ^ 32) 256 ++ fill 70000 16 ++ vt_buffers) vt_pkts.
Definition first_bytes (r : option (list Z * vworld)) : option (list Z) := '(l, w) ← r; a ← l !! 0%nat; m ← mbufs (pkts w) !! a; mapM (λ x, bytes w !! x) (seg_area m).
Theorem dequeue_reads_host : first_bytes (rte_vhost_dequeue_burst true (λ _, 0) 0 (ex_dev 0) 64 1 4096 32 host_w) = Some ((λ x, x mod 251) <$> range 70012 4) ∧ ∀ r, r ∈ regions ex_mem → ¬ in_region 70000 r.
Proof. split; [vm_compute; reflexivity|]. intros r ->%list_elem_of_singleton. unfold in_region. simpl. lia. Qed.
