(* ===== verification/VirtDev.v ===== *)
(** * The devices of the vhost library

    [lib/librte_vhost/virtio-net.c]: the linked list of devices with their
    handles, the queues of a device, and the functions the messages of a guest
    call. A structure behind a pointer is in a map from addresses. The
    application is told of devices by the callbacks [notify_ops]; they are a
    class here, with the contract [rte_virtio_net.h] states for them as laws.
    What an allocation returns is an argument, with 0 for NULL. The library is
    compiled without [RTE_LIBRTE_VHOST_NUMA], so that [numa_realloc] returns its
    argument. *)
From S2P Require Import Prelude CStr Ring Mempool MempoolInit Mbuf VirtQueue.
Open Scope Z_scope.

Definition VIRTIO_DEV_RUNNING : Z := 1.
Definition VIRTIO_DEV_STOPPED : Z := -1.
Definition VHOST_USER_F_PROTOCOL_FEATURES : Z := 30.
Definition VIRTIO_F_VERSION_1 : Z := 32.
Definition VIRTIO_NET_F_CTRL_VQ : Z := 17.
Definition VIRTIO_NET_F_CTRL_RX : Z := 18.
Definition VHOST_F_LOG_ALL : Z := 26.
(** Whether the headers of the kernel have [VIRTIO_NET_F_MQ] (bit 22). *)
Definition VHOST_MAX_QUEUE_PAIRS (kernel_mq : bool) : Z := if kernel_mq then 32768 else 1.
Definition VHOST_SUPPORTS_MQ (kernel_mq : bool) : Z := if kernel_mq then Z.shiftl 1 22 else 0.
Definition VHOST_SUPPORTED_FEATURES (kernel_mq : bool) : Z :=
  Z.lor (Z.shiftl 1 VIRTIO_NET_F_MRG_RXBUF) (Z.lor (Z.shiftl 1 VIRTIO_NET_F_CTRL_VQ) (Z.lor (Z.shiftl 1 VIRTIO_NET_F_CTRL_RX)
    (Z.lor (VHOST_SUPPORTS_MQ kernel_mq) (Z.lor (Z.shiftl 1 VIRTIO_F_VERSION_1) (Z.lor (Z.shiftl 1 VHOST_F_LOG_ALL) (Z.shiftl 1 VHOST_USER_F_PROTOCOL_FEATURES)))))).
Definition IF_NAME_SZ : Z := 4096.
Definition sizeof_vhost_virtqueue : Z := 4288.

Record vhost_vring_state := VringState { st_index : Z; st_num : Z }.
Record vhost_vring_addr := VringAddr { ad_index : Z; desc_user_addr : Z; used_user_addr : Z; avail_user_addr : Z }.
Record vhost_vring_file := VringFile { fl_index : Z; fl_fd : Z }.

(** An entry of the list of devices, the mappings of its memory, and the state:
    the list, the entries, the queues, the mappings (which the code keeps behind
    the memory table), the features offered, the descriptors closed and the
    ranges unmapped so far, and the state of the application. *)
Record virtio_net_config_ll := ConfigLl { ll_dev : virtio_net; ll_next : Z }.
#[export] Instance config_ll_upd : Updatable virtio_net_config_ll := λ n, ConfigLl (ll_dev n) (ll_next n).
Record orig_region_map := OrigRegion { or_fd : Z; or_mapped_address : Z; or_mapped_size : Z; or_blksz : Z }.
Record vstate (App : Type) := VState {
  ll_root : Z; lls : gmap Z virtio_net_config_ll; dvqs : gmap Z vhost_virtqueue; origs : gmap Z (list orig_region_map);
  VHOST_FEATURES : Z; closed : list Z; unmapped : list (Z * Z); app : App }.
Arguments VState {App}.
Arguments ll_root {App}.
Arguments lls {App}.
Arguments dvqs {App}.
Arguments origs {App}.
Arguments VHOST_FEATURES {App}.
Arguments closed {App}.
Arguments unmapped {App}.
Arguments app {App}.
#[export] Instance vstate_upd App : Updatable (vstate App) := λ s, VState (ll_root s) (lls s) (dvqs s) (origs s) (VHOST_FEATURES s) (closed s) (unmapped s) (app s).

(** The callbacks of the application; each gets the device and its address, and
    may change the device. *)
Class notify_ops (App : Type) := NotifyOps {
  cb_new_device : Z → virtio_net → App → option (Z * virtio_net * App);
  cb_destroy_device : Z → virtio_net → App → option (virtio_net * App);
  cb_vring_state_changed : option (Z → Z → Z → App → option App) }.

Definition DM (App R : Type) : Type := vstate App → option (R * vstate App).
#[export] Instance DM_ret App : MRet (DM App) := λ R x s, Some (x, s).
#[export] Instance DM_bind App : MBind (DM App) := λ R T k m s, match m s with Some (x, s') => k x s' | None => None end.

Section devices.
Context {App : Type} {ops : notify_ops App}.
Implicit Types s : vstate App.

Definition reads {R} (f : vstate App → option R) : DM App R := λ s, x ← f s; Some (x, s).
Definition writes (f : vstate App → vstate App) : DM App unit := λ s, Some (tt, f s).
Definition get_dev (a : Z) : DM App virtio_net := reads (λ s, ll_dev <$> lls s !! a).
Definition put_dev (a : Z) (d : virtio_net) : DM App unit := λ s, n ← lls s !! a; Some (tt, s <| lls := <[a := n <| ll_dev := d |>]> (lls s) |>).
(** The queue behind a pointer, and [dev->virtqueue[i]]. *)
Definition get_q (q : Z) : DM App vhost_virtqueue := reads (λ s, dvqs s !! q).
Definition put_q (q : Z) (v : vhost_virtqueue) : DM App unit := λ s, _ ← dvqs s !! q; Some (tt, s <| dvqs := <[q := v]> (dvqs s) |>).
Definition virtqueue_at (a i : Z) : DM App Z := d ← get_dev a; reads (λ _, load (virtqueue d) i).
Definition close (fd : Z) : DM App unit := writes (λ s, s <| closed := closed s ++ [fd] |>).
Definition munmap (a size : Z) : DM App unit := writes (λ s, s <| unmapped := unmapped s ++ [(a, size)] |>).

(** [for (i = 0; i < n; i++)] *)
Fixpoint for_from (n : nat) (i : Z) (f : Z → DM App unit) : DM App unit :=
  match n with
  | O => mret tt
  | S n => _ ← f i; for_from n (i + 1) f
  end.
Definition for_pairs (a : Z) (f : Z → DM App unit) : DM App unit := d ← get_dev a; for_from (Z.to_nat (virt_qp_nb d)) 0 f.

Fixpoint find_qva (qemu_va : Z) (l : list virtio_memory_regions) : Z :=
  match l with
  | [] => 0
  | region :: l =>
      if (userspace_address region <=? qemu_va) && (qemu_va <=? u64 (userspace_address region + memory_size region))
      then u64 (qemu_va + guest_phys_address region + address_offset region - userspace_address region) else find_qva qemu_va l
  end.
Definition qva_to_vva (d : virtio_net) (qemu_va : Z) : DM App Z := reads (λ _, m ← mem d; Some (find_qva qemu_va (regions m))).

(** ** The list of devices

    The address of an entry is that of its device; the fuel is the number of
    entries. *)
Fixpoint find_ll (fuel : nat) (fh a : Z) (l : gmap Z virtio_net_config_ll) : option Z :=
  if a =? NULL then Some NULL else
  match fuel with
  | O => None
  | S fuel => n ← l !! a; if device_fh (ll_dev n) =? fh then Some a else find_ll fuel fh (ll_next n) l
  end.
Definition get_config_ll_entry (fh : Z) : DM App Z := reads (λ s, find_ll (size (lls s)) fh (ll_root s) (lls s)).
Definition get_device (fh : Z) : DM App Z := get_config_ll_entry fh.

(** The entry behind which the handles have a gap, or the last one. *)
Fixpoint find_gap (fuel : nat) (a : Z) (l : gmap Z virtio_net_config_ll) : option Z :=
  n ← l !! a;
  if ll_next n =? NULL then Some a else
  n' ← l !! ll_next n;
  if device_fh (ll_dev n) =? u64 (device_fh (ll_dev n') - 1) then
    match fuel with
    | O => None
    | S fuel => find_gap fuel (ll_next n) l
    end
  else Some a.
Definition set_fh (n : virtio_net_config_ll) (fh : Z) : virtio_net_config_ll := n <| ll_dev := (ll_dev n) <| device_fh := fh |> |>.
Definition add_config_ll_entry (new : Z) : DM App unit := λ s,
  let a := ll_root s in
  m ← lls s !! new;
  if a =? NULL then Some (tt, s <| ll_root := new |> <| lls := <[new := set_fh m 0]> (lls s) |>) else
  n ← lls s !! a;
  if negb (device_fh (ll_dev n) =? 0) then Some (tt, s <| ll_root := new |> <| lls := <[new := (set_fh m 0) <| ll_next := a |>]> (lls s) |>) else
  p ← find_gap (size (lls s)) a (lls s);
  n ← lls s !! p;
  let l := <[new := (set_fh m (u64 (device_fh (ll_dev n) + 1))) <| ll_next := ll_next n |>]> (lls s) in
  Some (tt, s <| lls := <[p := n <| ll_next := new |>]> l |>).

(** ** Removing a device *)

Definition cleanup_vq (q destroy : Z) : DM App unit :=
  v ← get_q q;
  _ ← (if (0 <=? callfd v) && negb (destroy =? 0) then close (callfd v) else mret tt);
  if 0 <=? kickfd v then close (kickfd v) else mret tt.
Definition free_mem (a : Z) : DM App unit := d ← get_dev a; _ ← put_dev a (d <| mem := None |>); writes (λ s, s <| origs := delete a (origs s) |>).
Definition cleanup_device (a destroy : Z) : DM App unit :=
  d ← get_dev a;
  _ ← match mem d with Some m => _ ← munmap (mapped_address m) (mapped_size m); free_mem a | None => mret tt end;
  for_pairs a (λ i,
    q ← virtqueue_at a (u32 (i * VIRTIO_QNUM + VIRTIO_RXQ)); _ ← cleanup_vq q destroy;
    q ← virtqueue_at a (u32 (i * VIRTIO_QNUM + VIRTIO_TXQ)); cleanup_vq q destroy).
(** The two queues of a pair are in one block. *)
Definition free_pair (q : Z) : DM App unit := if q =? NULL then mret tt else writes (λ s, s <| dvqs := delete q (delete (q + sizeof_vhost_virtqueue) (dvqs s)) |>).
Definition free_device (a : Z) : DM App unit :=
  _ ← for_pairs a (λ i, q ← virtqueue_at a (u32 (i * VIRTIO_QNUM)); free_pair q);
  writes (λ s, s <| lls := delete a (lls s) |>).
Definition next_of (a : Z) : DM App Z := reads (λ s, ll_next <$> lls s !! a).
Definition rm_config_ll_entry (a last : Z) : DM App Z :=
  root ← reads (λ s, Some (ll_root s));
  if a =? root then
    nx ← next_of a;
    _ ← writes (λ s, s <| ll_root := nx |>); _ ← cleanup_device a 1; _ ← free_device a;
    reads (λ s, Some (ll_root s))
  else if negb (last =? NULL) then
    nx ← next_of a;
    _ ← (λ s, n ← lls s !! last; Some (tt, s <| lls := <[last := n <| ll_next := nx |>]> (lls s) |>));
    _ ← cleanup_device a 1; _ ← free_device a;
    next_of last
  else _ ← cleanup_device a 1; _ ← free_device a; mret NULL.

(** ** Queues *)

Definition empty_queue (qp_idx : Z) : vhost_virtqueue :=
  Virtqueue NULL NULL NULL 0 (u32 (-1)) 0 0 0 (-1) (-1) (if qp_idx =? 0 then 1 else 0) (replicate 256 (BufVector 0 0 0)).
Definition init_vring_queue (q qp_idx : Z) : DM App unit := put_q q (empty_queue qp_idx).
Definition init_vring_queue_pair (a qp_idx : Z) : DM App unit :=
  let base_idx := u32 (qp_idx * VIRTIO_QNUM) in
  q ← virtqueue_at a (u32 (base_idx + VIRTIO_RXQ)); _ ← init_vring_queue q qp_idx;
  q ← virtqueue_at a (u32 (base_idx + VIRTIO_TXQ)); init_vring_queue q qp_idx.
Definition reset_vring_queue (q qp_idx : Z) : DM App unit :=
  v ← get_q q; _ ← init_vring_queue q qp_idx; w ← get_q q; put_q q (w <| callfd := callfd v |>).
Definition reset_vring_queue_pair (a qp_idx : Z) : DM App unit :=
  let base_idx := u32 (qp_idx * VIRTIO_QNUM) in
  q ← virtqueue_at a (u32 (base_idx + VIRTIO_RXQ)); _ ← reset_vring_queue q qp_idx;
  q ← virtqueue_at a (u32 (base_idx + VIRTIO_TXQ)); reset_vring_queue q qp_idx.
(** [block] is what [rte_malloc] returns for the pair. *)
Definition alloc_vring_queue_pair (block a qp_idx : Z) : DM App Z :=
  let virt_rx_q_idx := u32 (qp_idx * VIRTIO_QNUM + VIRTIO_RXQ) in
  let virt_tx_q_idx := u32 (qp_idx * VIRTIO_QNUM + VIRTIO_TXQ) in
  if block =? NULL then mret (-1) else
  _ ← writes (λ s, s <| dvqs := <[block := empty_queue 0]> (<[block + sizeof_vhost_virtqueue := empty_queue 0]> (dvqs s)) |>);
  d ← get_dev a;
  l ← reads (λ _, store (virtqueue d) virt_rx_q_idx block);
  l ← reads (λ _, store l virt_tx_q_idx (block + sizeof_vhost_virtqueue));
  _ ← put_dev a (d <| virtqueue := l |>);
  _ ← init_vring_queue_pair a qp_idx;
  d ← get_dev a;
  _ ← put_dev a (d <| virt_qp_nb := u32 (virt_qp_nb d + 1) |>);
  mret 0.
Definition reset_device (a : Z) : DM App unit :=
  d ← get_dev a;
  _ ← put_dev a (d <| features := 0 |> <| protocol_features := 0 |> <| flags := 0 |>);
  for_pairs a (reset_vring_queue_pair a).

(** ** The callbacks *)

Definition notify_new_device (a : Z) : DM App Z := λ s,
  n ← lls s !! a; '(ret, d, x) ← cb_new_device a (ll_dev n) (app s); Some (ret, s <| lls := <[a := n <| ll_dev := d |>]> (lls s) |> <| app := x |>).
Definition notify_destroy_device (a : Z) : DM App unit := λ s,
  n ← lls s !! a; '(d, x) ← cb_destroy_device a (ll_dev n) (app s); Some (tt, s <| lls := <[a := n <| ll_dev := d |>]> (lls s) |> <| app := x |>).
Definition running (d : virtio_net) : bool := negb (Z.land (flags d) VIRTIO_DEV_RUNNING =? 0).
Definition stop_if_running (a : Z) : DM App unit := d ← get_dev a; if running d then notify_destroy_device a else mret tt.

(** ** Devices *)

Definition zero_device (kernel_mq : bool) : virtio_net := VirtioNet None 0 0 0 0 "" 0 (replicate (Z.to_nat (VHOST_MAX_QUEUE_PAIRS kernel_mq * 2)) NULL).
Definition new_device (kernel_mq : bool) (block : Z) : DM App Z :=
  if block =? NULL then mret (-1) else
  _ ← writes (λ s, s <| lls := <[block := ConfigLl (zero_device kernel_mq) NULL]> (lls s) |>);
  _ ← add_config_ll_entry block;
  d ← get_dev block; mret (i32 (device_fh d)).

Fixpoint destroy_loop (fuel : nat) (target cur last : Z) : DM App unit :=
  if cur =? NULL then mret tt else
  match fuel with
  | O => λ _, None
  | S fuel =>
      if cur =? target then
        _ ← stop_if_running cur;
        nx ← rm_config_ll_entry cur last;
        destroy_loop fuel target nx last
      else nx ← next_of cur; destroy_loop fuel target nx cur
  end.
Definition destroy_device (fh : Z) : DM App unit :=
  target ← get_config_ll_entry fh;
  n ← reads (λ s, Some (size (lls s)));
  root ← reads (λ s, Some (ll_root s));
  destroy_loop n target root NULL.

(** [strncpy(dst, src, n)] on the text before the first NUL. *)
Definition strncpy (dst src : string) (n : Z) : string :=
  if strlen src <? n then src else (String.substring 0 (Z.to_nat n) src +:+ String.substring (Z.to_nat n) (String.length dst) dst)%string.
Definition set_ifname (fh : Z) (if_name : string) (if_len : Z) : DM App unit :=
  a ← get_device fh;
  if a =? NULL then mret tt else
  let len := if if_len >? IF_NAME_SZ then IF_NAME_SZ else if_len in
  d ← get_dev a; put_dev a (d <| ifname := strncpy (ifname d) if_name len |>).

Definition set_owner (fh : Z) : DM App Z := a ← get_device fh; if a =? NULL then mret (-1) else mret 0.
Definition reset_owner (fh : Z) : DM App Z :=
  a ← get_device fh;
  if a =? NULL then mret (-1) else
  _ ← stop_if_running a; _ ← cleanup_device a 0; _ ← reset_device a; mret 0.

(** The features, if there is a device. *)
Definition get_features (fh : Z) : DM App (option Z) :=
  a ← get_device fh; if a =? NULL then mret None else reads (λ s, Some (Some (VHOST_FEATURES s))).
Definition header_len (features : Z) : Z :=
  if negb (Z.land features (Z.lor (Z.shiftl 1 VIRTIO_NET_F_MRG_RXBUF) (Z.shiftl 1 VIRTIO_F_VERSION_1)) =? 0) then 12 else 10.
Definition set_hlen (a i hlen : Z) : DM App unit := q ← virtqueue_at a i; v ← get_q q; put_q q (v <| vhost_hlen := hlen |>).
Definition set_features (fh pu : Z) : DM App Z :=
  a ← get_device fh;
  if a =? NULL then mret (-1) else
  offered ← reads (λ s, Some (VHOST_FEATURES s));
  if negb (Z.land pu (u64 (Z.lnot offered)) =? 0) then mret (-1) else
  d ← get_dev a;
  _ ← put_dev a (d <| features := pu |>);
  let vhost_hlen := header_len pu in
  _ ← for_pairs a (λ i, let base_idx := u16 (i * VIRTIO_QNUM) in _ ← set_hlen a (base_idx + VIRTIO_RXQ) vhost_hlen; set_hlen a (base_idx + VIRTIO_TXQ) vhost_hlen);
  mret 0.

Definition upd_queue (a i : Z) (f : vhost_virtqueue → vhost_virtqueue) : DM App unit := q ← virtqueue_at a i; v ← get_q q; put_q q (f v).
Definition set_vring_num (fh : Z) (state : vhost_vring_state) : DM App Z :=
  a ← get_device fh;
  if a =? NULL then mret (-1) else
  _ ← upd_queue a (st_index state) (λ v, v <| vq_size := st_num state |>); mret 0.
Definition set_vring_addr (fh : Z) (addr : vhost_vring_addr) : DM App Z :=
  a ← get_device fh;
  if a =? NULL then mret (-1) else
  d ← get_dev a;
  let i := ad_index addr in
  x ← qva_to_vva d (desc_user_addr addr);
  _ ← upd_queue a i (λ v, v <| desc := x |>);
  if x =? 0 then mret (-1) else
  x ← qva_to_vva d (avail_user_addr addr);
  _ ← upd_queue a i (λ v, v <| avail := x |>);
  if x =? 0 then mret (-1) else
  x ← qva_to_vva d (used_user_addr addr);
  _ ← upd_queue a i (λ v, v <| used := x |>);
  if x =? 0 then mret (-1) else mret 0.
Definition set_vring_base (fh : Z) (state : vhost_vring_state) : DM App Z :=
  a ← get_device fh;
  if a =? NULL then mret (-1) else
  _ ← upd_queue a (st_index state) (λ v, v <| last_used_idx := u16 (st_num state) |>);
  _ ← upd_queue a (st_index state) (λ v, v <| last_used_idx_res := u16 (st_num state) |>); mret 0.
(** The state that is sent back, if there is a device. *)
Definition get_vring_base (fh index : Z) : DM App (option vhost_vring_state) :=
  a ← get_device fh;
  if a =? NULL then mret None else
  q ← virtqueue_at a index; v ← get_q q; mret (Some (VringState index (last_used_idx v))).
Definition set_vring_call (block fh : Z) (file : vhost_vring_file) : DM App Z :=
  let cur_qp_idx := fl_index file / VIRTIO_QNUM in
  a ← get_device fh;
  if a =? NULL then mret (-1) else
  d ← get_dev a;
  ret ← (if cur_qp_idx + 1 >? virt_qp_nb d then alloc_vring_queue_pair block a cur_qp_idx else mret 0);
  if ret <? 0 then mret (-1) else
  q ← virtqueue_at a (fl_index file); v ← get_q q;
  _ ← (if 0 <=? callfd v then close (callfd v) else mret tt);
  _ ← put_q q (v <| callfd := fl_fd file |>); mret 0.
Definition set_vring_kick (fh : Z) (file : vhost_vring_file) : DM App Z :=
  a ← get_device fh;
  if a =? NULL then mret (-1) else
  q ← virtqueue_at a (fl_index file); v ← get_q q;
  _ ← (if 0 <=? kickfd v then close (kickfd v) else mret tt);
  _ ← put_q q (v <| kickfd := fl_fd file |>); mret 0.
Definition set_backend (fh : Z) (file : vhost_vring_file) : DM App Z :=
  a ← get_device fh;
  if a =? NULL then mret (-1) else
  _ ← upd_queue a (fl_index file) (λ v, v <| backend := u32 (fl_fd file) |>);
  d ← get_dev a;
  if negb (running d) then
    q ← virtqueue_at a VIRTIO_TXQ; tx ← get_q q;
    if negb (i32 (backend tx) =? VIRTIO_DEV_STOPPED) then
      q ← virtqueue_at a VIRTIO_RXQ; rx ← get_q q;
      if negb (i32 (backend rx) =? VIRTIO_DEV_STOPPED) then notify_new_device a else mret 0
    else mret 0
  else if fl_fd file =? VIRTIO_DEV_STOPPED then _ ← notify_destroy_device a; mret 0 else mret 0.

(** ** The interface of applications *)

Definition rte_vhost_feature_get : DM App Z := reads (λ s, Some (VHOST_FEATURES s)).
Definition rte_vhost_feature_disable (feature_mask : Z) : DM App Z :=
  _ ← writes (λ s, s <| VHOST_FEATURES := Z.land (VHOST_FEATURES s) (u64 (Z.lnot feature_mask)) |>); mret 0.
Definition rte_vhost_feature_enable (kernel_mq : bool) (feature_mask : Z) : DM App Z :=
  if Z.land feature_mask (VHOST_SUPPORTED_FEATURES kernel_mq) =? feature_mask then
    _ ← writes (λ s, s <| VHOST_FEATURES := Z.lor (VHOST_FEATURES s) feature_mask |>); mret 0
  else mret (-1).
End devices.

(** [used->flags = VRING_USED_F_NO_NOTIFY] *)
Definition rte_vhost_enable_guest_notification (dev : virtio_net) (queue_id enable : Z) (w : vworld) : option (Z * vworld) :=
  if negb (enable =? 0) then Some (-1, w) else
  '(_, vq) ← get_vq dev queue_id w;
  u ← useds w !! used vq;
  Some (0, w <| useds := <[used vq := u <| us_flags := VRING_USED_F_NO_NOTIFY |>]> (useds w) |>).
