(* ===== verification/VirtUser.v ===== *)
(** * The messages of a guest to the vhost library

    [lib/librte_vhost/vhost_user/virtio-net-user.c] and the messages of
    [vhost-net-user.c]: qemu sends the table of the memory of the guest, the
    addresses of its rings and the descriptors to notify with, and the library
    tells the application when the device is ready. What a call of the system
    returns is an input: the bytes and descriptors received, the addresses
    [mmap] gives, the block sizes of files, and the results of allocations. *)
From S2P Require Import Prelude CStr Align Ring Mempool MempoolInit Mbuf VirtQueue VirtDev.
Open Scope Z_scope.

Inductive VhostUserRequest :=
  | VHOST_USER_NONE | VHOST_USER_GET_FEATURES | VHOST_USER_SET_FEATURES | VHOST_USER_SET_OWNER | VHOST_USER_RESET_OWNER
  | VHOST_USER_SET_MEM_TABLE | VHOST_USER_SET_LOG_BASE | VHOST_USER_SET_LOG_FD | VHOST_USER_SET_VRING_NUM | VHOST_USER_SET_VRING_ADDR
  | VHOST_USER_SET_VRING_BASE | VHOST_USER_GET_VRING_BASE | VHOST_USER_SET_VRING_KICK | VHOST_USER_SET_VRING_CALL
  | VHOST_USER_SET_VRING_ERR | VHOST_USER_GET_PROTOCOL_FEATURES | VHOST_USER_SET_PROTOCOL_FEATURES | VHOST_USER_GET_QUEUE_NUM
  | VHOST_USER_SET_VRING_ENABLE.
(** In the order of their numbers. *)
Definition requests : list VhostUserRequest :=
  [VHOST_USER_NONE; VHOST_USER_GET_FEATURES; VHOST_USER_SET_FEATURES; VHOST_USER_SET_OWNER; VHOST_USER_RESET_OWNER;
   VHOST_USER_SET_MEM_TABLE; VHOST_USER_SET_LOG_BASE; VHOST_USER_SET_LOG_FD; VHOST_USER_SET_VRING_NUM; VHOST_USER_SET_VRING_ADDR;
   VHOST_USER_SET_VRING_BASE; VHOST_USER_GET_VRING_BASE; VHOST_USER_SET_VRING_KICK; VHOST_USER_SET_VRING_CALL;
   VHOST_USER_SET_VRING_ERR; VHOST_USER_GET_PROTOCOL_FEATURES; VHOST_USER_SET_PROTOCOL_FEATURES; VHOST_USER_GET_QUEUE_NUM;
   VHOST_USER_SET_VRING_ENABLE].

Definition VHOST_USER_VERSION_MASK : Z := 3.
Definition VHOST_USER_REPLY_MASK : Z := 4.
Definition VHOST_USER_VERSION : Z := 1.
Definition VHOST_USER_VRING_IDX_MASK : Z := 255.
Definition VHOST_USER_VRING_NOFD_MASK : Z := 256.
Definition VHOST_USER_PROTOCOL_FEATURES : Z := 1.
Definition VHOST_MEMORY_MAX_NREGIONS : Z := 8.
Definition MAP_FAILED : Z := 2 ^ 64 - 1.
Definition sizeof_payload : Z := 264.

Record VhostUserMemoryRegion := UserRegion { r_guest_phys_addr : Z; r_memory_size : Z; r_userspace_addr : Z; r_mmap_offset : Z }.
(** [fds] and the regions are arrays of eight; the payload is a union, of which
    the four views are given. *)
Record VhostUserMsg := UserMsg {
  request : Z; msg_flags : Z; msg_size : Z; p_u64 : Z; p_state : vhost_vring_state; p_addr : vhost_vring_addr;
  p_nregions : Z; p_regions : list VhostUserMemoryRegion; fds : list Z }.
#[export] Instance VhostUserMsg_upd : Updatable VhostUserMsg := λ m,
  UserMsg (request m) (msg_flags m) (msg_size m) (p_u64 m) (p_state m) (p_addr m) (p_nregions m) (p_regions m) (fds m).

(** What the system answers while a message is handled: the block [rte_malloc]
    returns, whether [calloc] succeeds, what [mmap] returns for each region, and
    the block size of a file. *)
Record answers := Answers { an_block : Z; an_calloc : bool; an_mmap : Z → Z; an_blksz : Z → Z }.

Section user.
Context {App : Type} {ops : notify_ops App} (an : answers) (kernel_mq : bool).
Implicit Types s : vstate App.

(** ** The memory of the guest *)

Definition unmap_region (o : orig_region_map) : DM App unit := _ ← munmap (or_mapped_address o) (or_mapped_size o); close (or_fd o).
Fixpoint unmap_all (l : list orig_region_map) : DM App unit :=
  match l with
  | [] => mret tt
  | o :: l => _ ← unmap_region o; unmap_all l
  end.
Definition free_mem_region (a : Z) : DM App unit :=
  if a =? NULL then mret tt else
  d ← get_dev a;
  match mem d with
  | None => mret tt
  | Some _ => l ← reads (λ s, origs s !! a); unmap_all (filter (λ o, or_mapped_address o ≠ 0) l)
  end.

(** The loop over the regions: the table and the mappings so far, and whether
    it came to the end. *)
Fixpoint map_regions (n : nat) (idx : Z) (msg : VhostUserMsg) (m : virtio_memory) (os : list orig_region_map) : option (bool * virtio_memory * list orig_region_map) :=
  match n with
  | O => Some (true, m, os)
  | S n =>
      r ← load (p_regions msg) idx;
      fd ← load (fds msg) idx;
      let gpa := r_guest_phys_addr r in
      let alignment := an_blksz an fd in
      let mapped_size := RTE_ALIGN_CEIL u64 (u64 (r_memory_size r + r_mmap_offset r)) alignment in
      let mapped_address := an_mmap an idx in
      if mapped_address =? MAP_FAILED then Some (false, m, os) else
      let os := os ++ [OrigRegion fd mapped_address mapped_size alignment] in
      let address_offset := u64 (u64 (mapped_address + r_mmap_offset r) - gpa) in
      let l := regions m ++ [MemRegion gpa (u64 (gpa + r_memory_size r)) (r_memory_size r) (r_userspace_addr r) address_offset] in
      let m := if gpa =? 0 then VirtioMemory (r_userspace_addr r) address_offset (VirtQueue.mapped_size m) l
               else VirtioMemory (base_address m) (VirtQueue.mapped_address m) (VirtQueue.mapped_size m) l in
      map_regions n (idx + 1) msg m os
  end.
Definition user_set_mem_table (fh : Z) (msg : VhostUserMsg) : DM App Z :=
  a ← get_device fh;
  if a =? NULL then mret (-1) else
  _ ← stop_if_running a;
  d ← get_dev a;
  _ ← match mem d with Some _ => _ ← free_mem_region a; free_mem a | None => mret tt end;
  if negb (an_calloc an) then mret (-1) else
  '(ok, m, os) ← reads (λ _, map_regions (Z.to_nat (p_nregions msg)) 0 msg (VirtioMemory 0 0 0 []) []);
  if (ok : bool) then
    d ← get_dev a; _ ← put_dev a (d <| mem := Some m |>);
    _ ← writes (λ s, s <| origs := <[a := os]> (origs s) |>); mret 0
  else _ ← unmap_all (reverse os); mret (-1).

(** ** The queues *)

Definition vq_is_ready (q : Z) : DM App bool :=
  if q =? NULL then mret false else
  v ← get_q q; mret (negb (desc v =? NULL) && negb (kickfd v =? -1) && negb (callfd v =? -1)).
Fixpoint pairs_ready (n : nat) (i a : Z) : DM App bool :=
  match n with
  | O => mret true
  | S n =>
      rvq ← virtqueue_at a (u32 (i * VIRTIO_QNUM + VIRTIO_RXQ));
      tvq ← virtqueue_at a (u32 (i * VIRTIO_QNUM + VIRTIO_TXQ));
      r ← vq_is_ready rvq;
      if negb r then mret false else
      t ← vq_is_ready tvq;
      if negb t then mret false else pairs_ready n (i + 1) a
  end.
Definition virtio_is_ready (a : Z) : DM App bool := d ← get_dev a; pairs_ready (Z.to_nat (virt_qp_nb d)) 0 a.

(** The index and the descriptor in a message of a queue. *)
Definition vring_file (msg : VhostUserMsg) : option vhost_vring_file :=
  let index := Z.land (p_u64 msg) VHOST_USER_VRING_IDX_MASK in
  if negb (Z.land (p_u64 msg) VHOST_USER_VRING_NOFD_MASK =? 0) then Some (VringFile index (-1)) else fd ← load (fds msg) 0; Some (VringFile index fd).
Definition user_set_vring_call (fh : Z) (msg : VhostUserMsg) : DM App unit :=
  file ← reads (λ _, vring_file msg); _ ← set_vring_call (an_block an) fh file; mret tt.
Definition user_set_vring_kick (fh : Z) (msg : VhostUserMsg) : DM App unit :=
  a ← get_device fh;
  file ← reads (λ _, vring_file msg);
  _ ← set_vring_kick fh file;
  ready ← virtio_is_ready a;
  d ← get_dev a;
  if (ready : bool) && negb (running d) then _ ← notify_new_device a; mret tt else mret tt.
(** The state of the reply: unchanged without a device. *)
Definition user_get_vring_base (fh : Z) (state : vhost_vring_state) : DM App vhost_vring_state :=
  a ← get_device fh;
  if a =? NULL then mret state else
  _ ← stop_if_running a;
  r ← get_vring_base fh (st_index state);
  let state := default state r in
  q ← virtqueue_at a (st_index state); v ← get_q q;
  _ ← (if 0 <=? kickfd v then _ ← close (kickfd v); put_q q (v <| kickfd := -1 |>) else mret tt);
  mret state.
Definition user_set_vring_enable (fh : Z) (state : vhost_vring_state) : DM App Z :=
  a ← get_device fh;
  let enable := i32 (st_num state) in
  _ ← match cb_vring_state_changed with
      | Some f => λ s, x ← f a (u16 (st_index state)) enable (app s); Some (tt, s <| app := x |>)
      | None => mret tt
      end;
  _ ← upd_queue a (st_index state) (λ v, v <| enabled := enable |>); mret 0.
Definition user_destroy_device (fh : Z) : DM App unit :=
  a ← get_device fh;
  if a =? NULL then mret tt else
  _ ← stop_if_running a;
  d ← get_dev a;
  match mem d with Some _ => _ ← free_mem_region a; free_mem a | None => mret tt end.
Definition user_set_protocol_features (fh protocol_features : Z) : DM App unit :=
  a ← get_device fh;
  if (a =? NULL) || negb (Z.land protocol_features (u64 (Z.lnot VHOST_USER_PROTOCOL_FEATURES)) =? 0) then mret tt else
  d ← get_dev a; put_dev a (d <| VirtQueue.protocol_features := protocol_features |>).

(** ** Messages *)

(** What is received: the result of [recvmsg] and whether it cut the message,
    the message, and the result of [read]. *)
Record received := Received { rv_recvmsg : Z; rv_truncated : bool; rv_msg : VhostUserMsg; rv_read : Z }.
Definition read_fd_message (r : received) : Z := if rv_recvmsg r <=? 0 then rv_recvmsg r else if rv_truncated r then -1 else rv_recvmsg r.
Definition read_vhost_message (r : received) : Z :=
  let ret := read_fd_message r in
  if ret <=? 0 then ret else
  let size := msg_size (rv_msg r) in
  if size =? 0 then ret else
  if size >? sizeof_payload then -1 else
  let ret := rv_read r in
  if ret <=? 0 then ret else if negb (ret =? i32 size) then -1 else ret.

(** The message as it is sent. *)
Definition send_vhost_message (msg : VhostUserMsg) : VhostUserMsg :=
  msg <| msg_flags := Z.lor (Z.lor (Z.land (msg_flags msg) (u32 (Z.lnot VHOST_USER_VERSION_MASK))) VHOST_USER_VERSION) VHOST_USER_REPLY_MASK |>.
Definition reply_u64 (msg : VhostUserMsg) (x : Z) : VhostUserMsg := send_vhost_message (msg <| p_u64 := x |> <| msg_size := 8 |>).
Definition silent (m : DM App unit) : DM App (option VhostUserMsg) := _ ← m; mret None.
Definition silent_ret (m : DM App Z) : DM App (option VhostUserMsg) := _ ← m; mret None.

(** The switch: the reply, if there is one. *)
Definition handle_request (req : VhostUserRequest) (fh : Z) (msg : VhostUserMsg) : DM App (option VhostUserMsg) :=
  match req with
  | VHOST_USER_GET_FEATURES => r ← get_features fh; features ← reads (λ _, r); mret (Some (reply_u64 msg features))
  | VHOST_USER_SET_FEATURES => silent_ret (set_features fh (p_u64 msg))
  | VHOST_USER_GET_PROTOCOL_FEATURES => mret (Some (reply_u64 msg VHOST_USER_PROTOCOL_FEATURES))
  | VHOST_USER_SET_PROTOCOL_FEATURES => silent (user_set_protocol_features fh (p_u64 msg))
  | VHOST_USER_SET_OWNER => silent_ret (set_owner fh)
  | VHOST_USER_RESET_OWNER => silent_ret (reset_owner fh)
  | VHOST_USER_SET_MEM_TABLE => silent_ret (user_set_mem_table fh msg)
  | VHOST_USER_SET_LOG_BASE => mret None
  | VHOST_USER_SET_LOG_FD => silent (fd ← reads (λ _, load (fds msg) 0); close fd)
  | VHOST_USER_SET_VRING_NUM => silent_ret (set_vring_num fh (p_state msg))
  | VHOST_USER_SET_VRING_ADDR => silent_ret (set_vring_addr fh (p_addr msg))
  | VHOST_USER_SET_VRING_BASE => silent_ret (set_vring_base fh (p_state msg))
  | VHOST_USER_GET_VRING_BASE => st ← user_get_vring_base fh (p_state msg); mret (Some (send_vhost_message (msg <| p_state := st |> <| msg_size := 8 |>)))
  | VHOST_USER_SET_VRING_KICK => silent (user_set_vring_kick fh msg)
  | VHOST_USER_SET_VRING_CALL => silent (user_set_vring_call fh msg)
  | VHOST_USER_SET_VRING_ERR => silent (if Z.land (p_u64 msg) VHOST_USER_VRING_NOFD_MASK =? 0 then fd ← reads (λ _, load (fds msg) 0); close fd else mret tt)
  | VHOST_USER_GET_QUEUE_NUM => mret (Some (reply_u64 msg (VHOST_MAX_QUEUE_PAIRS kernel_mq)))
  | VHOST_USER_SET_VRING_ENABLE => silent_ret (user_set_vring_enable fh (p_state msg))
  | VHOST_USER_NONE => mret None
  end.
(** The request of a message that was read whole. *)
Definition received_request (r : received) : option VhostUserRequest := if read_vhost_message r <=? 0 then None else load requests (request (rv_msg r)).
(** Whether the connection is to be removed, and the reply. *)
Definition vserver_message_handler (connfd fh : Z) (r : received) : DM App (bool * option VhostUserMsg) :=
  match received_request r with
  | None => _ ← close connfd; _ ← user_destroy_device fh; _ ← destroy_device fh; mret (true, None)
  | Some req => reply ← handle_request req fh (rv_msg r); mret (false, reply)
  end.

(** The device of a new connection, which gets the path of the socket. *)
Definition new_connection (path : string) : DM App Z :=
  fh ← new_device kernel_mq (an_block an);
  if fh =? -1 then mret (-1) else _ ← set_ifname fh path (Z.min (strlen path) IF_NAME_SZ); mret fh.
End user.
