(* ===== verification/VirtAbs.v ===== *)
(** * Devices without pointers

    The state of the vhost library as its clients see it: for each device its
    structure, the contents of its queues and its mappings. [x_list] are the
    addresses on the list of devices, in order, and [x_loose] those that are not
    on it, while a device is added or removed. [abs] relates the
    structures behind pointers of [VirtDev.v] to it, and the lemmas say what the
    accesses the handlers are made of do to it. *)
From S2P Require Import Prelude CStr Ring Mempool MempoolInit Mbuf VirtQueue VirtDev.
Open Scope Z_scope.

Record dview := DView { v_dev : virtio_net; v_qs : list vhost_virtqueue; v_maps : list orig_region_map }.
#[export] Instance dview_upd : Updatable dview := λ v, DView (v_dev v) (v_qs v) (v_maps v).

Record xstate (App : Type) := XState { x_list : list Z; x_loose : list Z; x_devs : gmap Z dview; x_features : Z; x_closed : list Z; x_unmapped : list (Z * Z); x_app : App }.
Arguments XState {App}.
Arguments x_list {App}.
Arguments x_loose {App}.
Arguments x_devs {App}.
Arguments x_features {App}.
Arguments x_closed {App}.
Arguments x_unmapped {App}.
Arguments x_app {App}.
#[export] Instance xstate_upd App : Updatable (xstate App) := λ x, XState (x_list x) (x_loose x) (x_devs x) (x_features x) (x_closed x) (x_unmapped x) (x_app x).

(** The pointers to the queues of a device. *)
Definition qptrs (d : virtio_net) : list Z := take (Z.to_nat (2 * virt_qp_nb d)) (virtqueue d).

Fixpoint ll_chain (l : gmap Z virtio_net_config_ll) (a : Z) (as_ : list Z) : Prop :=
  match as_ with
  | [] => a = NULL
  | b :: as_ => a = b ∧ ∃ n, l !! b = Some n ∧ ll_chain l (ll_next n) as_
  end.

(** Room for [m] pairs; the two queues of a pair are next to each other. *)
Record dev_wf (m : Z) (d : virtio_net) : Prop := {
  dw_len : Z.of_nat (length (virtqueue d)) = 2 * m; dw_nb : 0 <= virt_qp_nb d <= m; dw_m : m <= 32768;
  dw_pair : ∀ i q, (Z.of_nat i < virt_qp_nb d) → virtqueue d !! (2 * i)%nat = Some q → virtqueue d !! (2 * i + 1)%nat = Some (q + sizeof_vhost_virtqueue) }.

Section abs.
Context {App : Type} {ops : notify_ops App} (m : Z).
Implicit Types (s : vstate App) (x : xstate App).

Definition queues_of s (d : virtio_net) : option (list vhost_virtqueue) := mapM (λ q, dvqs s !! q) (qptrs d).
Definition view s (a : Z) : option dview := n ← lls s !! a; qs ← queues_of s (ll_dev n); Some (DView (ll_dev n) qs (default [] (origs s !! a))).
(** Queue [i] of the device [a] is at [q]. *)
Definition slot s (a : Z) (i : nat) (q : Z) : Prop := ∃ n, lls s !! a = Some n ∧ qptrs (ll_dev n) !! i = Some q.

Record abs s x : Prop := {
  ab_chain : ll_chain (lls s) (ll_root s) (x_list x);
  ab_nodup : NoDup (x_list x ++ x_loose x);
  ab_dom : ∀ a, a ∈ x_list x ++ x_loose x ↔ is_Some (lls s !! a);
  ab_null : lls s !! NULL = None ∧ dvqs s !! NULL = None;
  ab_wf : ∀ a n, lls s !! a = Some n → dev_wf m (ll_dev n) ∧ is_Some (queues_of s (ll_dev n));
  ab_devs : ∀ a, x_devs x !! a = view s a;
  ab_inj : ∀ a i b j q, slot s a i q → slot s b j q → a = b ∧ i = j;
  ab_own : ∀ q, is_Some (dvqs s !! q) → ∃ a i, slot s a i q;
  ab_maps : ∀ a, is_Some (origs s !! a) ↔ ∃ n, lls s !! a = Some n ∧ is_Some (mem (ll_dev n));
  ab_rest : VHOST_FEATURES s = x_features x ∧ closed s = x_closed x ∧ unmapped s = x_unmapped x ∧ app s = x_app x }.

(** [m] returns a result and a state with properties. *)
Definition returns {R} (p : DM App R) s (Q : R → vstate App → Prop) : Prop := ∃ r s', p s = Some (r, s') ∧ Q r s'.
Lemma returns_bind {R T} (p : DM App R) (k : R → DM App T) s (Q : T → vstate App → Prop) : returns p s (λ r s', returns (k r) s' Q) → returns (p ≫= k) s Q.
Proof. intros (r & s' & Hp & r' & s'' & Hk & HQ). exists r', s''. split; [|done]. unfold mbind, DM_bind. by rewrite Hp. Qed.
Lemma returns_then {R T V} (p : DM App R) (k : R → DM App T) (rest : DM App V) s (Q : V → vstate App → Prop) : returns (p ≫= k) s (λ _ s', returns rest s' Q) → returns (p ≫= λ r, k r ≫= λ _, rest) s Q.
Proof. intros (t & s1 & Hrun & Hk). unfold returns, mbind, DM_bind in *. destruct (p s) as [[r s2]|]; [|done]. rewrite Hrun. exact Hk. Qed.
Lemma returns_ret {R} (r : R) s (Q : R → vstate App → Prop) : Q r s → returns (mret r) s Q.
Proof. intros H. by exists r, s. Qed.
Lemma returns_reads {R} (f : vstate App → option R) r s (Q : R → vstate App → Prop) : f s = Some r → Q r s → returns (reads f) s Q.
Proof. intros H HQ. exists r, s. unfold reads. by rewrite H. Qed.
Lemma returns_writes (f : vstate App → vstate App) s (Q : unit → vstate App → Prop) : Q tt (f s) → returns (writes f) s Q.
Proof. intros H. by exists tt, (f s). Qed.
Lemma returns_mono {R} (p : DM App R) s (Q Q' : R → vstate App → Prop) : returns p s Q → (∀ r s', Q r s' → Q' r s') → returns p s Q'.
Proof. intros (r & s' & Hp & HQ) H. exists r, s'. auto. Qed.

(** ** What [abs] gives *)

Lemma view_Some s a v : view s a = Some v ↔ ∃ n qs, lls s !! a = Some n ∧ queues_of s (ll_dev n) = Some qs ∧ v = DView (ll_dev n) qs (default [] (origs s !! a)).
Proof.
  unfold view. split.
  - intros H. binds. subst. eauto.
  - intros (n & qs & -> & Hq & ->). cbn [mbind option_bind]. rewrite Hq. done.
Qed.
Lemma abs_view s x a v : abs s x → x_devs x !! a = Some v → ∃ n qs, lls s !! a = Some n ∧ queues_of s (ll_dev n) = Some qs ∧ v = DView (ll_dev n) qs (default [] (origs s !! a)).
Proof. intros H Hv. rewrite (ab_devs _ _ H) in Hv. by apply view_Some. Qed.
Lemma abs_wf s x a v : abs s x → x_devs x !! a = Some v → dev_wf m (v_dev v).
Proof. intros H Hv. destruct (abs_view _ _ _ _ H Hv) as (n & qs & Hn & _ & ->). apply (ab_wf _ _ H _ _ Hn). Qed.
Lemma abs_in s x a v : abs s x → x_devs x !! a = Some v → a ∈ x_list x ++ x_loose x ∧ a ≠ NULL.
Proof.
  intros H Hv. destruct (abs_view _ _ _ _ H Hv) as (n & qs & Hn & _ & _). split; [apply (ab_dom _ _ H); eauto|]. intros ->. destruct (ab_null _ _ H) as [H0 _]. congruence.
Qed.
Lemma abs_elem s x a : abs s x → a ∈ x_list x ++ x_loose x → is_Some (x_devs x !! a).
Proof.
  intros H Ha. apply (ab_dom _ _ H) in Ha as [n Hn]. rewrite (ab_devs _ _ H). destruct (ab_wf _ _ H _ _ Hn) as [_ [qs Hqs]]. exists (DView (ll_dev n) qs (default [] (origs s !! a))). apply view_Some. eauto.
Qed.

Lemma qptrs_length d : dev_wf m d → Z.of_nat (length (qptrs d)) = 2 * virt_qp_nb d.
Proof. intros [Hl Hn _ _]. unfold qptrs. rewrite length_take. lia. Qed.
Lemma queues_length s d qs : queues_of s d = Some qs → length qs = length (qptrs d).
Proof. intros H. symmetry. by eapply length_mapM. Qed.
Lemma view_queues s x a v : abs s x → x_devs x !! a = Some v → Z.of_nat (length (v_qs v)) = 2 * virt_qp_nb (v_dev v).
Proof. intros H Hv. pose proof (abs_wf _ _ _ _ H Hv) as Hw. destruct (abs_view _ _ _ _ H Hv) as (n & qs & Hn & Hq & ->). cbn in *. rewrite (queues_length _ _ _ Hq). by apply qptrs_length. Qed.
Lemma slot_queue s x a v i u : abs s x → x_devs x !! a = Some v → v_qs v !! i = Some u → ∃ q, slot s a i q ∧ dvqs s !! q = Some u ∧ load (virtqueue (v_dev v)) (Z.of_nat i) = Some q.
Proof.
  intros H Hv Hu. destruct (abs_view _ _ _ _ H Hv) as (n & qs & Hn & Hq & ->). cbn in Hu. unfold queues_of in Hq. rewrite mapM_Some in Hq. destruct (Forall2_lookup_r _ _ _ _ _ Hq Hu) as (q & Hqi & Hqu).
  exists q. split; [by exists n|]. split; [done|]. rewrite load_nat. cbn. unfold qptrs in Hqi. apply lookup_take_Some in Hqi. tauto.
Qed.

(** ** Changes of one device *)

Definition xdev (a : Z) (v : dview) x : xstate App := x <| x_devs := <[a := v]> (x_devs x) |>.
Lemma mapM_insert_ne {A} (M : gmap Z A) q u l : q ∉ l → mapM (λ p, <[q := u]> M !! p) l = mapM (λ p, M !! p) l.
Proof.
  intros Hq. induction l as [|p l IH]; [done|]. rewrite not_elem_of_cons in Hq. cbn. rewrite lookup_insert_ne by (intros ->; tauto). rewrite IH by tauto. done.
Qed.
Lemma mapM_insert_at {A} (M : gmap Z A) q u l i us : NoDup l → l !! i = Some q → mapM (λ p, M !! p) l = Some us → mapM (λ p, <[q := u]> M !! p) l = Some (<[i := u]> us).
Proof.
  revert i us. induction l as [|p l IH]; intros i us Hnd Hi Hl; [done|]. rewrite NoDup_cons in Hnd. destruct Hnd as [Hp Hnd]. cbn in Hl. apply bind_Some in Hl as (u0 & Hu0 & Hl). apply bind_Some in Hl as (us' & Hus' & [= <-]). destruct i as [|i]; cbn in Hi.
  - injection Hi as ->. cbn. rewrite lookup_insert_eq. cbn. rewrite mapM_insert_ne by done. by rewrite Hus'.
  - cbn. rewrite lookup_insert_ne; [|intros ->; apply Hp; by eapply list_elem_of_lookup_2]. rewrite Hu0. cbn. by rewrite (IH i us').
Qed.
Lemma slot_nodup s x a n : abs s x → lls s !! a = Some n → NoDup (qptrs (ll_dev n)).
Proof. intros H Hn. apply NoDup_alt. intros i j q Hi Hj. destruct (ab_inj _ _ H a i a j q) as [_ ?]; [by exists n..|done]. Qed.

Lemma abs_set_q s x a v i q u : abs s x → x_devs x !! a = Some v → slot s a i q → (i < length (v_qs v))%nat →
  abs (s <| dvqs := <[q := u]> (dvqs s) |>) (xdev a (v <| v_qs := <[i := u]> (v_qs v) |>) x).
Proof.
  intros H Hv Hs Hi. destruct (abs_view _ _ _ _ H Hv) as (n & qs & Hn & Hq & ->). pose proof H as [H1 H2 H3 H4 H5 H6 H7 H8 H9 H10]. assert (Hqi : qptrs (ll_dev n) !! i = Some q) by (destruct Hs as (n' & Hn' & ?); congruence).
  assert (Hmine : mapM (λ p, <[q := u]> (dvqs s) !! p) (qptrs (ll_dev n)) = Some (<[i := u]> qs)) by (apply mapM_insert_at; [by eapply slot_nodup|done|exact Hq]).
  assert (Hother : ∀ b n', b ≠ a → lls s !! b = Some n' → mapM (λ p, <[q := u]> (dvqs s) !! p) (qptrs (ll_dev n')) = queues_of s (ll_dev n')).
  { intros b n' Hb Hn'. apply mapM_insert_ne. intros Hin. apply list_elem_of_lookup in Hin as [j Hj]. destruct (H7 a i b j q Hs) as [? _]; [by exists n'|]. congruence. }
  split; cbn; try done.
  - split; [tauto|]. rewrite lookup_insert_ne; [tauto|]. intros ->. destruct (lookup_lt_is_Some_2 qs i Hi) as [u0 Hu0]. destruct (slot_queue _ _ _ _ i u0 H Hv Hu0) as (q0 & (n0 & Hn0 & Hq0) & Hd & _). assert (q0 = NULL) as -> by congruence. destruct H4. congruence.
  - intros b n' Hn'. destruct (H5 _ _ Hn') as [Hw Hqs]. split; [done|]. unfold queues_of. cbn. destruct (decide (b = a)) as [->|Hne]; [simplify_eq; by rewrite Hmine|]. by rewrite (Hother b n').
  - intros b. destruct (decide (b = a)) as [->|Hne].
    + rewrite lookup_insert_eq. symmetry. apply view_Some. exists n, (<[i := u]> qs). split; [done|]. split; [exact Hmine|done].
    + rewrite lookup_insert_ne, H6 by done. unfold view. cbn. destruct (lls s !! b) as [n'|] eqn:Hn'; [|done]. cbn. unfold queues_of at 2. cbn. by rewrite (Hother b n').
  - intros q' [u' Hu']. destruct (decide (q' = q)) as [->|Hne]; [by exists a, i|]. rewrite lookup_insert_ne in Hu' by done. apply H8. eauto.
Qed.
Lemma ll_chain_insert l a n n' r as_ : l !! a = Some n → ll_next n' = ll_next n → ll_chain l r as_ → ll_chain (<[a := n']> l) r as_.
Proof.
  intros Hn Hnx. revert r. induction as_ as [|b as_ IH]; intros r; cbn; [done|]. intros (-> & n1 & Hn1 & Hc). split; [done|]. destruct (decide (b = a)) as [->|Hne].
  - simplify_eq. exists n'. rewrite lookup_insert_eq, Hnx. split; [done|]. by apply IH.
  - exists n1. rewrite lookup_insert_ne by done. split; [done|]. by apply IH.
Qed.
(** A device with the same queues, and the mappings that belong to it. *)
Lemma abs_put s x a n v d (oo : option (list orig_region_map)) : abs s x → x_devs x !! a = Some v → lls s !! a = Some n → virtqueue d = virtqueue (v_dev v) → virt_qp_nb d = virt_qp_nb (v_dev v) → (is_Some (mem d) ↔ is_Some oo) →
  abs (s <| lls := <[a := n <| ll_dev := d |>]> (lls s) |> <| origs := partial_alter (λ _, oo) a (origs s) |>) (xdev a (v <| v_dev := d |> <| v_maps := default [] oo |>) x).
Proof.
  intros H Hv Hn Hq Hnb Hm. destruct (abs_view _ _ _ _ H Hv) as (n' & qs & Hn' & Hqs & ->). simplify_eq. cbn in *. pose proof H as [H1 H2 H3 H4 H5 H6 H7 H8 H9 H10].
  assert (Hp : qptrs d = qptrs (ll_dev n)) by (unfold qptrs; by rewrite Hq, Hnb).
  assert (Hslot : ∀ b j q, slot (s <| lls := <[a := n <| ll_dev := d |>]> (lls s) |> <| origs := partial_alter (λ _, oo) a (origs s) |>) b j q ↔ slot s b j q).
  { intros b j q. unfold slot. cbn. destruct (decide (b = a)) as [->|Hne]; [rewrite lookup_insert_eq, Hn|by rewrite lookup_insert_ne]. split; intros (? & [= <-] & Hj); eexists; (split; [done|]); cbn in *; congruence. }
  split; cbn; try done.
  - by eapply ll_chain_insert.
  - intros b. rewrite H3. destruct (decide (b = a)) as [->|Hne]; [rewrite lookup_insert_eq, Hn; by split|by rewrite lookup_insert_ne].
  - destruct H4. split; [|done]. rewrite lookup_insert_ne; [done|]. intros ->. congruence.
  - intros b n' Hn'. destruct (decide (b = a)) as [->|Hne]; [|rewrite lookup_insert_ne in Hn' by done; exact (H5 _ _ Hn')]. rewrite lookup_insert_eq in Hn'. injection Hn' as <-. cbn. destruct (H5 _ _ Hn) as [[Hl Hb Hmm Hpr] Hqq].
    split; [|unfold queues_of in *; cbn; by rewrite Hp]. split; [by rewrite Hq|by rewrite Hnb|done|]. intros i q. rewrite Hnb, Hq. apply Hpr.
  - intros b. destruct (decide (b = a)) as [->|Hne].
    + rewrite lookup_insert_eq. symmetry. apply view_Some. exists (n <| ll_dev := d |>), qs. cbn. rewrite lookup_insert_eq, lookup_partial_alter_eq. split; [done|]. split; [unfold queues_of in *; cbn; by rewrite Hp|done].
    + rewrite lookup_insert_ne, H6 by done. unfold view. cbn. by rewrite lookup_insert_ne, lookup_partial_alter_ne.
  - intros b i b' j q Hb Hb'. apply Hslot in Hb, Hb'. by eapply H7.
  - intros q Hq'. destruct (H8 q Hq') as (b & i & Hb). exists b, i. by apply Hslot.
  - intros b. destruct (decide (b = a)) as [->|Hne]; [rewrite lookup_partial_alter_eq, lookup_insert_eq|rewrite lookup_partial_alter_ne, lookup_insert_ne by done; apply H9]. rewrite <- Hm. split; [intros Hs; eexists; split; [done|exact Hs]|intros (? & [= <-] & Hs); exact Hs].
Qed.
Lemma abs_set_dev s x a n v d : abs s x → x_devs x !! a = Some v → lls s !! a = Some n → virtqueue d = virtqueue (v_dev v) → virt_qp_nb d = virt_qp_nb (v_dev v) → (is_Some (mem d) ↔ is_Some (mem (v_dev v))) →
  abs (s <| lls := <[a := n <| ll_dev := d |>]> (lls s) |>) (xdev a (v <| v_dev := d |>) x).
Proof.
  intros H Hv Hn Hq Hnb Hm. destruct (abs_view _ _ _ _ H Hv) as (n' & qs & Hn' & Hqs & Ev). assert (Hd : v_dev v = ll_dev n) by (rewrite Ev; cbn; congruence).
  assert (Hoo : is_Some (mem d) ↔ is_Some (origs s !! a)).
  { rewrite Hm, Hd. rewrite (ab_maps _ _ H). split; [by exists n|]. intros (? & ? & ?). by simplify_eq. }
  pose proof (abs_put s x a n v d (origs s !! a) H Hv Hn Hq Hnb Hoo) as Hp. rewrite partial_alter_self in Hp. rewrite Ev in Hp |- *. exact Hp.
Qed.

(** ** Rules *)

Lemma get_dev_rule s x a v (Q : virtio_net → vstate App → Prop) : abs s x → x_devs x !! a = Some v → Q (v_dev v) s → returns (get_dev a) s Q.
Proof. intros H Hv HQ. destruct (abs_view _ _ _ _ H Hv) as (n & qs & Hn & _ & ->). apply (returns_reads _ (ll_dev n)); [|done]. by rewrite Hn. Qed.
Lemma put_dev_rule s x a v d (Q : unit → vstate App → Prop) : abs s x → x_devs x !! a = Some v → virtqueue d = virtqueue (v_dev v) → virt_qp_nb d = virt_qp_nb (v_dev v) → (is_Some (mem d) ↔ is_Some (mem (v_dev v))) →
  (∀ s', abs s' (xdev a (v <| v_dev := d |>) x) → Q tt s') → returns (put_dev a d) s Q.
Proof. intros H Hv H1 H2 H3 HQ. destruct (abs_view _ _ _ _ H Hv) as (n & qs & Hn & _). eexists tt, _. unfold put_dev. rewrite Hn. cbn. split; [done|]. apply HQ. by apply abs_set_dev. Qed.
Lemma virtqueue_rule s x a v i u (Q : Z → vstate App → Prop) : abs s x → x_devs x !! a = Some v → v_qs v !! i = Some u → (∀ q, q ≠ NULL → slot s a i q → dvqs s !! q = Some u → Q q s) → returns (virtqueue_at a (Z.of_nat i)) s Q.
Proof.
  intros H Hv Hu HQ. destruct (slot_queue _ _ _ _ _ _ H Hv Hu) as (q & Hs & Hd & Hl). apply returns_bind. eapply get_dev_rule; [done..|]. apply (returns_reads _ q); [done|]. apply HQ; [|done..]. intros ->. destruct (ab_null _ _ H). congruence.
Qed.
Lemma get_q_rule s q u (Q : vhost_virtqueue → vstate App → Prop) : dvqs s !! q = Some u → Q u s → returns (get_q q) s Q.
Proof. intros H HQ. by apply (returns_reads _ u). Qed.
Lemma put_q_rule s x a v i q u0 u (Q : unit → vstate App → Prop) : abs s x → x_devs x !! a = Some v → slot s a i q → v_qs v !! i = Some u0 → dvqs s !! q = Some u0 →
  (∀ s', abs s' (xdev a (v <| v_qs := <[i := u]> (v_qs v) |>) x) → slot s' a i q → dvqs s' !! q = Some u → Q tt s') → returns (put_q q u) s Q.
Proof.
  intros H Hv Hs Hu Hd HQ. eexists tt, _. unfold put_q. rewrite Hd. cbn. split; [done|]. apply HQ; [|exact Hs|cbn; apply lookup_insert_eq]. eapply abs_set_q; try done. by eapply lookup_lt_Some.
Qed.
Lemma upd_queue_rule s x a v i u f (Q : unit → vstate App → Prop) : abs s x → x_devs x !! a = Some v → 0 <= i → v_qs v !! Z.to_nat i = Some u →
  (∀ s', abs s' (xdev a (v <| v_qs := <[Z.to_nat i := f u]> (v_qs v) |>) x) → Q tt s') → returns (upd_queue a i f) s Q.
Proof.
  intros H Hv Hi Hu HQ. unfold upd_queue. rewrite <- (Z2Nat.id i Hi) at 1. apply returns_bind. eapply virtqueue_rule; [done..|]. intros q _ Hs Hd. apply returns_bind. eapply get_q_rule; [done|]. eapply put_q_rule; [done..|]. intros s' Hs' _ _. by apply HQ.
Qed.

Definition xclose (fd : Z) x : xstate App := x <| x_closed := x_closed x ++ [fd] |>.
Definition xunmap (r : Z * Z) x : xstate App := x <| x_unmapped := x_unmapped x ++ [r] |>.
Lemma close_rule s x fd (Q : unit → vstate App → Prop) : abs s x → (∀ s', abs s' (xclose fd x) → lls s' = lls s → dvqs s' = dvqs s → origs s' = origs s → Q tt s') → returns (close fd) s Q.
Proof. intros [H1 H2 H3 H4 H5 H6 H7 H8 H9 (H10 & H11 & H12 & H13)] HQ. apply returns_writes. apply HQ; try done. split; cbn; try done. by rewrite H11. Qed.
Lemma munmap_rule s x a n (Q : unit → vstate App → Prop) : abs s x → (∀ s', abs s' (xunmap (a, n) x) → Q tt s') → returns (munmap a n) s Q.
Proof. intros [H1 H2 H3 H4 H5 H6 H7 H8 H9 (H10 & H11 & H12 & H13)] HQ. apply returns_writes. apply HQ. split; cbn; try done. by rewrite H12. Qed.

Lemma free_mem_rule s x a v (Q : unit → vstate App → Prop) : abs s x → x_devs x !! a = Some v → (∀ s', abs s' (xdev a (v <| v_dev := (v_dev v) <| mem := None |> |> <| v_maps := [] |>) x) → Q tt s') → returns (free_mem a) s Q.
Proof.
  intros H Hv HQ. destruct (abs_view _ _ _ _ H Hv) as (n & qs & Hn & Hqs & Ev). eexists tt, _. unfold free_mem, mbind, DM_bind, get_dev, reads, put_dev, writes. rewrite Hn. cbn. rewrite Hn. cbn. split; [done|]. apply HQ.
  assert (v_dev v = ll_dev n) as <- by by rewrite Ev. apply (abs_put s x a n v ((v_dev v) <| mem := None |>) None H Hv Hn); [done..|cbn; split; by intros [? ?]].
Qed.
Lemma set_mem_rule s x a v mm os (Q : Z → vstate App → Prop) : abs s x → x_devs x !! a = Some v → (∀ s', abs s' (xdev a (v <| v_dev := (v_dev v) <| mem := Some mm |> |> <| v_maps := os |>) x) → Q 0 s') →
  returns (d ← get_dev a; _ ← put_dev a (d <| mem := Some mm |>); _ ← writes (λ s, s <| origs := <[a := os]> (origs s) |>); mret 0) s Q.
Proof.
  intros H Hv HQ. destruct (abs_view _ _ _ _ H Hv) as (n & qs & Hn & Hqs & Ev). eexists 0, _. unfold mbind, DM_bind, get_dev, reads, put_dev, writes, mret, DM_ret. rewrite Hn. cbn. rewrite Hn. cbn. split; [done|]. apply HQ.
  assert (v_dev v = ll_dev n) as <- by by rewrite Ev. apply (abs_put s x a n v ((v_dev v) <| mem := Some mm |>) (Some os) H Hv Hn); [done..|by split; eexists].
Qed.
End abs.
