(* ===== verification/VirtList.v ===== *)
(** * The list of devices

    The linked list of [virtio-net.c] against the addresses in order: finding a
    device by its handle, adding one with the least free handle, and taking one
    off the list. *)
From S2P Require Import Prelude CStr Ring Mempool MempoolInit Mbuf VirtQueue VirtDev VirtAbs.
From Stdlib Require Import Sorted.
Open Scope Z_scope.

(** The least number from [k] on that is not in a sorted list. *)
Fixpoint gap (k : Z) (hs : list Z) : Z :=
  match hs with
  | [] => k
  | h :: hs => if h =? k then gap (k + 1) hs else k
  end.

Section list_.
Context {App : Type} {ops : notify_ops App} (m : Z).
Implicit Types (s : vstate App) (x : xstate App).

(** The handle of a device, the device of a handle. *)
Definition fh_of x (a : Z) : Z := match x_devs x !! a with Some v => device_fh (v_dev v) | None => 0 end.
Definition by_handle x (fh : Z) : option Z := snd <$> list_find (λ a, fh_of x a = fh) (x_list x).
Definition handles x : list Z := fh_of x <$> x_list x.
(** Handles are in order, and fit an [int]. *)
Record handles_ok x : Prop := { ho_sorted : StronglySorted Z.lt (handles x); ho_range : Forall (λ h, 0 <= h < 2 ^ 31 - 1) (handles x) }.

Lemma fh_node s x a n : abs m s x → lls s !! a = Some n → fh_of x a = device_fh (ll_dev n).
Proof. intros H Hn. unfold fh_of. destruct (ab_wf _ _ _ H _ _ Hn) as [_ [qs Hqs]]. rewrite (ab_devs _ _ _ H). unfold view. rewrite Hn. cbn [mbind option_bind]. rewrite Hqs. done. Qed.
Lemma node_not_null s x a n : abs m s x → lls s !! a = Some n → a ≠ NULL.
Proof. intros H Hn ->. destruct (ab_null _ _ _ H). congruence. Qed.
Lemma lls_size s x : abs m s x → (length (x_list x) <= size (lls s))%nat.
Proof.
  intros H. pose proof (ab_nodup _ _ _ H) as Hnd. apply NoDup_app in Hnd as (Hnd & _ & _). rewrite <- size_dom, <- (size_list_to_set (C := gset Z) _ Hnd). apply subseteq_size. intros a Ha. apply elem_of_list_to_set in Ha. apply elem_of_dom. apply (ab_dom _ _ _ H). apply elem_of_app. by left.
Qed.

Lemma find_ll_chain s x fh as_ : abs m s x → ∀ r fuel, ll_chain (lls s) r as_ → (length as_ <= fuel)%nat → find_ll fuel fh r (lls s) = Some (default NULL (snd <$> list_find (λ a, fh_of x a = fh) as_)).
Proof.
  intros H. induction as_ as [|a as_ IH]; intros r fuel Hc Hf; cbn in Hc.
  - subst r. by destruct fuel.
  - destruct Hc as (-> & n & Hn & Hc). destruct fuel as [|fuel]; [cbn in Hf; lia|]. cbn. destruct (Z.eqb_spec a NULL) as [->|_]; [by destruct (node_not_null _ _ _ _ H Hn)|]. rewrite Hn. cbn. rewrite <- (fh_node _ _ _ _ H Hn). case_decide as Hd; destruct (Z.eqb_spec (fh_of x a) fh); try done.
    cbn in Hf. rewrite (IH _ fuel Hc) by lia. destruct (list_find (λ a, fh_of x a = fh) as_) as [[]|]; done.
Qed.
Lemma get_device_rule s x fh (Q : Z → vstate App → Prop) : abs m s x → Q (default NULL (by_handle x fh)) s → returns (get_device fh) s Q.
Proof. intros H HQ. eapply returns_reads; [|exact HQ]. eapply find_ll_chain; [done|apply (ab_chain _ _ _ H)|by apply lls_size]. Qed.
Lemma by_handle_Some x fh a : by_handle x fh = Some a → a ∈ x_list x ∧ fh_of x a = fh.
Proof. unfold by_handle. intros H. apply fmap_Some in H as ([i b] & H & ->). apply list_find_Some in H as (Hi & Hb & _). split; [by eapply list_elem_of_lookup_2|done]. Qed.
Lemma by_handle_None x fh : by_handle x fh = None → fh ∉ handles x.
Proof. unfold by_handle. intros H Hin. apply fmap_None, list_find_None in H. rewrite Forall_forall in H. apply list_elem_of_fmap in Hin as (a & -> & Ha). by eapply H. Qed.
Lemma sorted_inj x a b : StronglySorted Z.lt (handles x) → a ∈ x_list x → b ∈ x_list x → fh_of x a = fh_of x b → a = b.
Proof.
  unfold handles. intros Hs Ha Hb Hab. induction (x_list x) as [|c l IH]; [set_solver|]. cbn in Hs. apply StronglySorted_inv in Hs as [Hs Hall]. rewrite Forall_fmap, Forall_forall in Hall. apply elem_of_cons in Ha, Hb. destruct Ha as [->|Ha], Hb as [->|Hb]; [done| | |by apply IH].
  - specialize (Hall b Hb). cbn in Hall. lia.
  - specialize (Hall a Ha). cbn in Hall. lia.
Qed.
Lemma by_handle_in x a : handles_ok x → a ∈ x_list x → by_handle x (fh_of x a) = Some a.
Proof.
  intros [Hs _] Ha. destruct (by_handle x (fh_of x a)) as [b|] eqn:Hb.
  - apply by_handle_Some in Hb as [Hb Hf]. f_equal. by apply (sorted_inj x b a).
  - apply by_handle_None in Hb. exfalso. apply Hb. apply list_elem_of_fmap. eauto.
Qed.

(** ** The least free handle *)

Lemma gap_bounds k hs : k <= gap k hs <= k + Z.of_nat (length hs).
Proof. revert k. induction hs as [|h hs IH]; intros k; cbn; [lia|]. destruct (h =? k); [specialize (IH (k + 1))|]; lia. Qed.
Lemma gap_spec k hs : StronglySorted Z.lt hs → Forall (λ h, k <= h) hs → gap k hs ∉ hs ∧ ∀ j, k <= j < gap k hs → j ∈ hs.
Proof.
  revert k. induction hs as [|h hs IH]; intros k Hs Hall; cbn; [split; [set_solver|lia]|]. apply StronglySorted_inv in Hs as [Hs Hh]. apply Forall_cons in Hall as [Hk Hall]. destruct (Z.eqb_spec h k) as [->|Hne].
  - destruct (IH (k + 1) Hs) as [H1 H2]; [eapply Forall_impl; [exact Hh|cbn; lia]|]. pose proof (gap_bounds (k + 1) hs). split; [rewrite not_elem_of_cons; split; [lia|done]|]. intros j Hj. rewrite elem_of_cons. destruct (decide (j = k)); [by left|]. right. apply H2. lia.
  - split; [|lia]. rewrite not_elem_of_cons. split; [lia|]. intros Hin. rewrite Forall_forall in Hh. specialize (Hh k Hin). lia.
Qed.

(** ** Links *)

(** The same devices on another list. *)
Lemma abs_relink s x r L l lo : abs m s x → (∀ a, ll_dev <$> L !! a = ll_dev <$> lls s !! a) → ll_chain L r l → l ++ lo ≡ₚ x_list x ++ x_loose x →
  abs m (s <| ll_root := r |> <| lls := L |>) (x <| x_list := l |> <| x_loose := lo |>).
Proof.
  intros [H1 H2 H3 H4 H5 H6 H7 H8 H9 H10] HL Hc Hl. assert (Hto : ∀ a n, L !! a = Some n → ∃ n', lls s !! a = Some n' ∧ ll_dev n' = ll_dev n).
  { intros a n Hn. specialize (HL a). rewrite Hn in HL. destruct (lls s !! a) as [n'|]; [|done]. exists n'. split; [done|]. cbn in HL. congruence. }
  assert (Hfrom : ∀ a n, lls s !! a = Some n → ∃ n', L !! a = Some n' ∧ ll_dev n' = ll_dev n).
  { intros a n Hn. specialize (HL a). rewrite Hn in HL. destruct (L !! a) as [n'|]; [|done]. exists n'. split; [done|]. cbn in HL. congruence. }
  assert (Hslot : ∀ a i q, slot (s <| ll_root := r |> <| lls := L |>) a i q ↔ slot s a i q).
  { intros a i q. unfold slot. cbn. split; intros (n & Hn & Hi); [destruct (Hto _ _ Hn) as (n' & Hn' & E)|destruct (Hfrom _ _ Hn) as (n' & Hn' & E)]; exists n'; by rewrite E. }
  split; cbn; try done.
  - by rewrite Hl.
  - intros a. rewrite Hl, H3. split; intros [n Hn]; [destruct (Hfrom _ _ Hn) as (n' & -> & _)|destruct (Hto _ _ Hn) as (n' & -> & _)]; eauto.
  - destruct H4 as [H4 ?]. split; [|done]. specialize (HL NULL). rewrite H4 in HL. by destruct (L !! NULL).
  - intros a n Hn. destruct (Hto _ _ Hn) as (n' & Hn' & <-). exact (H5 _ _ Hn').
  - intros a. rewrite H6. unfold view. cbn. specialize (HL a). destruct (L !! a) as [n'|], (lls s !! a) as [n|]; try done. cbn in *. injection HL as HL. rewrite HL. done.
  - intros a i b j q Ha Hb. apply Hslot in Ha, Hb. by eapply H7.
  - intros q Hq. destruct (H8 q Hq) as (a & i & Ha). exists a, i. by apply Hslot.
  - intros a. rewrite H9. split; intros (n & Hn & Hm); [destruct (Hfrom _ _ Hn) as (n' & Hn' & E)|destruct (Hto _ _ Hn) as (n' & Hn' & E)]; exists n'; by rewrite E.
Qed.
Lemma ll_chain_ne l a n r as_ : a ∉ as_ → ll_chain l r as_ ↔ ll_chain (<[a := n]> l) r as_.
Proof. revert r. induction as_ as [|b as_ IH]; intros r; cbn; [done|]. rewrite not_elem_of_cons. intros [Hb Ha]. by setoid_rewrite (IH _ Ha); rewrite lookup_insert_ne. Qed.
Lemma ll_chain_app l r l1 l2 : ll_chain l r (l1 ++ l2) ↔ ∃ r', (∀ l3, ll_chain l r' l3 → ll_chain l r (l1 ++ l3)) ∧ ll_chain l r' l2.
Proof.
  split.
  - revert r. induction l1 as [|a l1 IH]; intros r; cbn; [intros H; by exists r|]. intros (-> & n & Hn & Hc). destruct (IH _ Hc) as (r' & H1 & H2). exists r'. split; [|done]. intros l3 H3. split; [done|]. exists n. auto.
  - intros (r' & H1 & H2). auto.
Qed.
(** A new device without queues. *)
Lemma abs_alloc s x a d nx : abs m s x → a ≠ NULL → lls s !! a = None → dev_wf m d → virt_qp_nb d = 0 → mem d = None →
  abs m (s <| lls := <[a := ConfigLl d nx]> (lls s) |>) (x <| x_loose := a :: x_loose x |> <| x_devs := <[a := DView d [] []]> (x_devs x) |>).
Proof.
  intros [H1 H2 H3 H4 H5 H6 H7 H8 H9 H10] Ha Hn Hw Hnb Hm. assert (Hq : qptrs d = []) by (unfold qptrs; by rewrite Hnb). assert (Hni : a ∉ x_list x ++ x_loose x) by (rewrite H3, Hn; by intros []).
  assert (Ho : origs s !! a = None). { apply eq_None_not_Some. rewrite H9, Hn. by intros (? & ? & _). }
  assert (Hslot : ∀ b i q, slot (s <| lls := <[a := ConfigLl d nx]> (lls s) |>) b i q ↔ slot s b i q).
  { intros b i q. unfold slot. cbn. destruct (decide (b = a)) as [->|Hne]; [rewrite lookup_insert_eq, Hn|by rewrite lookup_insert_ne]. split; intros (n & [= <-] & Hi). cbn in Hi. by rewrite Hq in Hi. }
  split; cbn; try done.
  - apply ll_chain_ne; [set_solver|done].
  - by rewrite <- Permutation_middle, NoDup_cons.
  - intros b. rewrite <- Permutation_middle, elem_of_cons, H3. destruct (decide (b = a)) as [->|Hne]; [rewrite lookup_insert_eq; naive_solver|rewrite lookup_insert_ne by done; naive_solver].
  - by rewrite lookup_insert_ne.
  - intros b n Hb. destruct (decide (b = a)) as [->|Hne]; [|rewrite lookup_insert_ne in Hb by done; exact (H5 _ _ Hb)]. rewrite lookup_insert_eq in Hb. injection Hb as <-. cbn. split; [done|]. unfold queues_of. rewrite Hq. by eexists.
  - intros b. destruct (decide (b = a)) as [->|Hne].
    + rewrite lookup_insert_eq. symmetry. apply view_Some. exists (ConfigLl d nx), []. cbn. rewrite lookup_insert_eq, Ho. unfold queues_of. cbn. by rewrite Hq.
    + rewrite lookup_insert_ne, H6 by done. unfold view. cbn. by rewrite lookup_insert_ne.
  - intros b i b' j q Hb Hb'. apply Hslot in Hb, Hb'. by eapply H7.
  - intros q Hq'. destruct (H8 q Hq') as (b & i & Hb). exists b, i. by apply Hslot.
  - intros b. rewrite H9. destruct (decide (b = a)) as [->|Hne]; [rewrite lookup_insert_eq, Hn|by rewrite lookup_insert_ne]. split; intros (n & [= <-] & Hs). cbn in Hs. rewrite Hm in Hs. by destruct Hs.
Qed.

(** ** Adding a device *)

Lemma find_gap_chain s x as_ : abs m s x → ∀ a fuel, ll_chain (lls s) a (a :: as_) → StronglySorted Z.lt (fh_of x <$> a :: as_) → Forall (λ h, 0 <= h < 2 ^ 31 - 1) (fh_of x <$> a :: as_) → (length as_ <= fuel)%nat →
  ∃ l1 p l2, a :: as_ = l1 ++ p :: l2 ∧ find_gap fuel a (lls s) = Some p ∧ gap (fh_of x a) (fh_of x <$> a :: as_) = fh_of x p + 1.
Proof.
  intros H. induction as_ as [|b as_ IH]; intros a fuel (_ & n & Hn & Hc) Hs Hr Hf.
  - cbn in Hc. exists [], a, []. split; [done|]. split; [destruct fuel; cbn; rewrite Hn; cbn; by rewrite Hc|cbn; by rewrite Z.eqb_refl].
  - pose proof Hc as (Hb & n' & Hn' & Hc'). cbn in Hs, Hr. apply StronglySorted_inv in Hs as [Hs Hlt]. apply Forall_cons in Hr as [Hra Hr]. pose proof Hr as Hr'. apply Forall_cons in Hr' as [Hrb _]. apply Forall_cons in Hlt as [Hab _]. cbn in Hf.
    assert (Eu : u64 (fh_of x b - 1) = fh_of x b - 1) by (apply u64_small; split; lia). destruct fuel as [|fuel]; [lia|]. cbn [find_gap]. rewrite Hn. cbn [mbind option_bind]. rewrite Hb. destruct (Z.eqb_spec b NULL) as [->|_]; [by destruct (node_not_null _ _ _ _ H Hn')|]. rewrite Hn'. cbn [mbind option_bind]. rewrite <- (fh_node _ _ _ _ H Hn), <- (fh_node _ _ _ _ H Hn'), Eu. cbn [gap fmap list_fmap]. rewrite Z.eqb_refl. destruct (Z.eqb_spec (fh_of x a) (fh_of x b - 1)) as [E|E].
    + destruct (IH b fuel) as (l1 & p & l2 & E1 & E2 & E3); [by rewrite Hb in Hc|done|done|lia|]. exists (a :: l1), p, l2. split; [cbn; by rewrite E1|]. split; [done|]. rewrite <- E3. by replace (fh_of x a + 1) with (fh_of x b) by lia.
    + exists [], a, (b :: as_). split; [done|]. split; [done|]. destruct (Z.eqb_spec (fh_of x b) (fh_of x a + 1)); [lia|done].
Qed.
Lemma sorted_insert (l1 l2 : list Z) p h : StronglySorted Z.lt (l1 ++ p :: l2) → h = p + 1 → h ∉ l2 → StronglySorted Z.lt (l1 ++ p :: h :: l2).
Proof.
  intros Hs -> Hn. induction l1 as [|c l1 IH]; cbn in *; apply StronglySorted_inv in Hs as [Hs Hall].
  - assert (Hl : Forall (Z.lt (p + 1)) l2). { rewrite Forall_forall in Hall |- *. intros y Hy. specialize (Hall y Hy). assert (y ≠ p + 1) by (intros ->; done). lia. }
    constructor; [by constructor|]. constructor; [lia|done].
  - constructor; [by apply IH|]. rewrite Forall_app, Forall_cons in Hall. destruct Hall as (? & ? & ?). rewrite Forall_app, !Forall_cons. split_and!; try done; lia.
Qed.

Lemma ll_chain_link l r l1 p np l2 a na : ll_chain l r (l1 ++ p :: l2) → NoDup (l1 ++ p :: l2) → a ∉ l1 ++ p :: l2 → l !! p = Some np → ll_next na = ll_next np →
  ll_chain (<[p := np <| ll_next := a |>]> (<[a := na]> l)) r (l1 ++ p :: a :: l2).
Proof.
  intros Hc Hnd Ha Hp Hnx. revert r Hc Hnd Ha. induction l1 as [|c l1 IH]; intros r; cbn; rewrite NoDup_cons, not_elem_of_cons.
  - intros (-> & n & Hn & Hc) [Hpl _] [Hap Hal]. simplify_eq. split; [done|]. eexists. rewrite lookup_insert_eq. split; [done|]. cbn. split; [done|]. exists na. rewrite lookup_insert_ne, lookup_insert_eq, Hnx by done. split; [done|]. by apply ll_chain_ne, ll_chain_ne.
  - intros (-> & n & Hn & Hc) [Hcl Hnd] [Hac Hal]. split; [done|]. exists n. rewrite !lookup_insert_ne; [|done|set_solver]. split; [done|]. by apply IH.
Qed.

Definition xadd (a : Z) (v : dview) (l : list Z) x : xstate App := x <| x_list := l |> <| x_loose := [] |> <| x_devs := <[a := v]> (x_devs x) |>.
Lemma handles_xadd x a v l1 l2 : a ∉ l1 ++ l2 → handles (xadd a v (l1 ++ a :: l2) x) = (fh_of x <$> l1) ++ device_fh (v_dev v) :: (fh_of x <$> l2).
Proof.
  intros Ha. unfold handles. cbn. rewrite fmap_app, fmap_cons. assert (∀ l : list Z, a ∉ l → fh_of (xadd a v (l1 ++ a :: l2) x) <$> l = fh_of x <$> l) as E.
  { intros l Hl. apply list_fmap_ext. intros i b Hb. apply list_elem_of_lookup_2 in Hb. unfold fh_of. cbn. rewrite lookup_insert_ne; [done|]. intros ->. done. }
  rewrite !E by set_solver. unfold fh_of at 2. cbn. by rewrite lookup_insert_eq.
Qed.
(** The device [a] with the handle [h] goes between [l1] and [l2]. *)
Lemma abs_added s x a v n h l1 l2 r L : abs m s x → x_loose x = [a] → x_devs x !! a = Some v → lls s !! a = Some n → x_list x = l1 ++ l2 → handles_ok x → 0 <= h < 2 ^ 31 - 1 → StronglySorted Z.lt ((fh_of x <$> l1) ++ h :: (fh_of x <$> l2)) →
  (∀ c, ll_dev <$> L !! c = ll_dev <$> <[a := set_fh n h]> (lls s) !! c) → ll_chain L r (l1 ++ a :: l2) →
  let x' := xadd a (v <| v_dev := (v_dev v) <| device_fh := h |> |>) (l1 ++ a :: l2) x in abs m (s <| ll_root := r |> <| lls := L |>) x' ∧ handles_ok x'.
Proof.
  intros H Hlo Hv Hn El [Hs Hr] Hh Hsort HL Hc x'. destruct (abs_view _ _ _ _ _ H Hv) as (n0 & qs & Hn0 & _ & Ev). assert (Hd : ll_dev n = v_dev v) by (rewrite Ev; cbn; congruence). clear n0 qs Hn0 Ev.
  pose proof (abs_set_dev m s x a n v ((v_dev v) <| device_fh := h |>) H Hv Hn ltac:(done) ltac:(done) ltac:(done)) as H1. assert (n <| ll_dev := (v_dev v) <| device_fh := h |> |> = set_fh n h) as E by (unfold set_fh; by rewrite Hd). assert (abs m (s <| lls := <[a := set_fh n h]> (lls s) |>) (xdev a (v <| v_dev := (v_dev v) <| device_fh := h |> |>) x)) as H2 by (rewrite <- E; exact H1). clear H1. split.
  - apply (abs_relink _ _ r L (l1 ++ a :: l2) []) in H2; [exact H2|exact HL|exact Hc|]. cbn. rewrite El, Hlo, app_nil_r. rewrite <- Permutation_middle. apply Permutation_cons_append.
  - pose proof (ab_nodup _ _ _ H) as Hnd. rewrite Hlo, El in Hnd. apply NoDup_app in Hnd as (_ & Hd' & _). unfold x'. split; rewrite handles_xadd by (intros Hin; eapply Hd'; [done|set_solver]); [done|]. unfold handles in Hr. rewrite El, fmap_app, Forall_app in Hr. rewrite Forall_app, Forall_cons. cbn. tauto.
Qed.

Lemma add_rule s x a v n : abs m s x → x_loose x = [a] → x_devs x !! a = Some v → lls s !! a = Some n → ll_next n = NULL → handles_ok x → Z.of_nat (length (x_list x)) < 2 ^ 31 - 2 →
  let h := gap 0 (handles x) in let v' := v <| v_dev := (v_dev v) <| device_fh := h |> |> in
  returns (add_config_ll_entry a) s (λ _ s', ∃ l, l ≡ₚ a :: x_list x ∧ abs m s' (xadd a v' l x) ∧ handles_ok (xadd a v' l x)).
Proof.
  intros H Hlo Hv Hn Hnx Hok Hlen h v'. pose proof Hok as [Hs Hr]. pose proof (ab_nodup _ _ _ H) as Hnd. rewrite Hlo in Hnd. apply NoDup_app in Hnd as (Hnd & Hna & _). assert (a ∉ x_list x) as Ha by (intros Hin; eapply Hna; [done|set_solver]). clear Hna.
  assert (Hgap : h ∉ handles x ∧ 0 <= h < 2 ^ 31 - 1).
  { split; [apply gap_spec; [done|eapply Forall_impl; [exact Hr|cbn; lia]]|]. pose proof (gap_bounds 0 (handles x)) as Hb. fold h in Hb. assert (length (handles x) = length (x_list x)) as E by apply length_fmap. lia. }
  assert (Hconc : ∀ l1 l2 r L, x_list x = l1 ++ l2 → StronglySorted Z.lt ((fh_of x <$> l1) ++ h :: (fh_of x <$> l2)) → (∀ c, ll_dev <$> L !! c = ll_dev <$> <[a := set_fh n h]> (lls s) !! c) → ll_chain L r (l1 ++ a :: l2) →
    ∃ l, l ≡ₚ a :: x_list x ∧ abs m (s <| ll_root := r |> <| lls := L |>) (xadd a v' l x) ∧ handles_ok (xadd a v' l x)).
  { intros l1 l2 r L El Hsort HL Hc. exists (l1 ++ a :: l2). split; [rewrite El; by rewrite Permutation_middle|]. apply (abs_added s x a v n h l1 l2 r L); try done. apply Hgap. }
  pose proof (ab_chain _ _ _ H) as Hc. unfold add_config_ll_entry, returns. cbv zeta. rewrite Hn. cbn [mbind option_bind]. destruct (x_list x) as [|b as_] eqn:El.
  - cbn in Hc. rewrite Hc, Z.eqb_refl. assert (h = 0) as E0 by (unfold h, handles; by rewrite El). eexists tt, _. split; [done|]. rewrite E0 in Hconc. apply (Hconc [] []); [done|repeat constructor|done|]. cbn. split; [done|]. eexists. rewrite lookup_insert_eq. by split.
  - pose proof Hc as (Hrt & nb & Hnb & Hcb). rewrite Hrt in Hc |- *. destruct (Z.eqb_spec b NULL) as [->|_]; [by destruct (node_not_null _ _ _ _ H Hnb)|]. rewrite Hnb. cbn [mbind option_bind]. rewrite <- (fh_node _ _ _ _ H Hnb). unfold handles in Hs, Hr, Hgap. rewrite El in Hs, Hr, Hgap. destruct (Z.eqb_spec (fh_of x b) 0) as [Eb|Eb]; cbn [negb].
    + destruct (find_gap_chain s x as_ H b (size (lls s))) as (l1 & p & l2 & E1 & E2 & E3); [done|done|done|pose proof (lls_size s x H) as Hsz; rewrite El in Hsz; cbn in Hsz; lia|].
      rewrite E2. cbn [mbind option_bind]. destruct (proj1 (ab_dom _ _ _ H p)) as [np Hnp]; [rewrite El, E1; set_solver|]. rewrite Hnp. cbn [mbind option_bind]. rewrite <- (fh_node _ _ _ _ H Hnp).
      assert (Eh : fh_of x p + 1 = h) by (rewrite <- E3, Eb; unfold h, handles; by rewrite El). assert (u64 (fh_of x p + 1) = h) as -> by (rewrite Eh; apply u64_small; split; lia). eexists tt, _. split; [done|]. assert (s = s <| ll_root := ll_root s |>) as -> by by destruct s.
      apply (Hconc (l1 ++ [p]) l2 (ll_root s)).
      * by rewrite <- app_assoc.
      * rewrite fmap_app, <- app_assoc. cbn. rewrite E1, fmap_app in Hs, Hgap. apply sorted_insert; [done|done|]. cbn in Hgap. set_solver.
      * intros c. destruct (decide (c = p)) as [->|Hcp]; [rewrite lookup_insert_eq, lookup_insert_ne, Hnp by (intros ->; rewrite E1 in Ha; set_solver); done|]. rewrite (lookup_insert_ne _ p) by done. destruct (decide (c = a)) as [->|Hca]; [by rewrite !lookup_insert_eq|by rewrite !lookup_insert_ne].
      * rewrite <- app_assoc. cbn. apply ll_chain_link; [|rewrite <- E1; done|rewrite <- E1; done|done|done]. rewrite <- E1, Hrt. exact Hc.
    + assert (h = 0) as E0. { unfold h, handles. rewrite El. cbn. by destruct (Z.eqb_spec (fh_of x b) 0). } rewrite E0 in Hconc. eexists tt, _. split; [done|]. apply (Hconc [] (b :: as_)).
      * done.
      * cbn. constructor; [done|]. rewrite E0 in Hgap. rewrite Forall_forall in Hr |- *. intros y Hy. specialize (Hr y Hy). assert (y ≠ 0) by (intros ->; tauto). lia.
      * intros c. destruct (decide (c = a)) as [->|Hca]; [by rewrite !lookup_insert_eq|by rewrite !lookup_insert_ne].
      * split; [done|]. eexists. rewrite lookup_insert_eq. split; [done|]. rewrite (ll_chain_ne _ a ((set_fh n 0) <| ll_next := b |>)) in Hc by done. exact Hc.
Qed.
End list_.
