(* ===== verification/VirtPairs.v ===== *)
(** * Devices and queue pairs come and go

    What making and freeing a device, and making a pair of queues, do to the
    devices without pointers of [VirtAbs.v]. *)
From S2P Require Import Prelude CStr Ring Mempool MempoolInit Mbuf VirtQueue VirtDev VirtAbs VirtList.
From Stdlib Require Import Sorted.
Open Scope Z_scope.

Section pairs.
Context {App : Type} {ops : notify_ops App} (m : Z).
Implicit Types (s : vstate App) (x : xstate App).

(** ** A new device *)

Lemma zero_device_wf kernel_mq h : m = VHOST_MAX_QUEUE_PAIRS kernel_mq → dev_wf m ((zero_device kernel_mq) <| device_fh := h |>).
Proof. intros ->. split; cbn [virtqueue virt_qp_nb zero_device alter_field]; [rewrite length_replicate; destruct kernel_mq; cbn [VHOST_MAX_QUEUE_PAIRS]; lia|destruct kernel_mq; cbn; lia|destruct kernel_mq; cbn; lia|cbn; lia]. Qed.
Lemma new_device_rule kernel_mq s x block : m = VHOST_MAX_QUEUE_PAIRS kernel_mq → abs m s x → handles_ok x → x_loose x = [] → block ≠ NULL → lls s !! block = None → Z.of_nat (length (x_list x)) < 2 ^ 31 - 2 →
  let h := gap 0 (handles x) in let v := DView ((zero_device kernel_mq) <| device_fh := h |>) [] [] in
  returns (new_device kernel_mq block) s (λ r s', r = h ∧ ∃ l, l ≡ₚ block :: x_list x ∧ abs m s' (xadd block v l x) ∧ handles_ok (xadd block v l x)).
Proof.
  intros Hm H Hok Hlo Hb Hn Hlen h v. unfold new_device. destruct (Z.eqb_spec block NULL); [done|]. apply returns_bind, returns_writes.
  pose proof (abs_alloc m s x block (zero_device kernel_mq) NULL H Hb Hn (zero_device_wf kernel_mq 0 Hm) eq_refl eq_refl) as H1. set (x1 := x <| x_loose := block :: x_loose x |> <| x_devs := <[block := DView (zero_device kernel_mq) [] []]> (x_devs x) |>) in H1.
  assert (Hni : block ∉ x_list x). { intros Hin. destruct (proj1 (ab_dom _ _ _ H block)) as [? ?]; [set_solver|congruence]. }
  assert (Eh : handles x1 = handles x). { apply list_fmap_ext. intros i c Hc. apply list_elem_of_lookup_2 in Hc. unfold fh_of, x1. cbn. rewrite lookup_insert_ne; [done|]. intros ->. done. }
  apply returns_bind. eapply returns_mono.
  { eapply (add_rule m _ x1 block (DView (zero_device kernel_mq) [] []) (ConfigLl (zero_device kernel_mq) NULL) H1); [cbn; by rewrite Hlo|cbn; apply lookup_insert_eq|cbn; apply lookup_insert_eq|done|split; rewrite Eh; apply Hok|exact Hlen]. }
  intros _ s' (l & Hl & Ha & Ho). rewrite Eh in Ha, Ho. fold h in Ha, Ho. assert (xadd block ((DView (zero_device kernel_mq) [] []) <| v_dev := (zero_device kernel_mq) <| device_fh := h |> |>) l x1 = xadd block v l x) as E by (unfold xadd, x1, v; cbn; by rewrite insert_insert_eq).
  change (v_dev (DView (zero_device kernel_mq) [] [])) with (zero_device kernel_mq) in Ha, Ho. rewrite E in Ha, Ho. apply returns_bind. eapply get_dev_rule; [exact Ha|cbn; apply lookup_insert_eq|]. apply returns_ret. split; [|by exists l]. cbn. apply i32_small.
  pose proof (gap_bounds 0 (handles x)) as Hg. fold h in Hg. assert (length (handles x) = length (x_list x)) by apply length_fmap. lia.
Qed.

(** ** A new pair of queues *)

Definition with_pair (d : virtio_net) (b : Z) : virtio_net :=
  d <| virtqueue := <[Z.to_nat (2 * virt_qp_nb d + 1) := b + sizeof_vhost_virtqueue]> (<[Z.to_nat (2 * virt_qp_nb d) := b]> (virtqueue d)) |> <| virt_qp_nb := virt_qp_nb d + 1 |>.
Lemma qptrs_with_pair d b : dev_wf m d → virt_qp_nb d < m → qptrs (with_pair d b) = qptrs d ++ [b; b + sizeof_vhost_virtqueue].
Proof.
  intros [Hl Hnb _ _] Hm. unfold qptrs, with_pair. cbn. set (k := Z.to_nat (2 * virt_qp_nb d)). replace (Z.to_nat (2 * (virt_qp_nb d + 1))) with (k + 2)%nat by lia. replace (Z.to_nat (2 * virt_qp_nb d + 1)) with (S k) by lia.
  rewrite <- (take_drop k (virtqueue d)) at 1. assert (Hk : length (take k (virtqueue d)) = k) by (rewrite length_take; lia). rewrite !(insert_app_r_alt _ _ k) by lia. rewrite !insert_app_r_alt by lia. rewrite Hk, Nat.sub_diag. replace (S k - k)%nat with 1%nat by lia.
  destruct (drop k (virtqueue d)) as [|y [|z l]] eqn:E; [apply (f_equal length) in E; rewrite length_drop in E; cbn in E; lia..|]. cbn. rewrite take_app_ge by lia. rewrite Hk. replace (k + 2 - k)%nat with 2%nat by lia. done.
Qed.
Lemma with_pair_wf d b : dev_wf m d → virt_qp_nb d < m → dev_wf m (with_pair d b).
Proof.
  intros [Hl Hnb Hmm Hp] Hm. unfold with_pair. split; cbn; [by rewrite !length_insert|lia|done|]. intros i q Hi Hq. replace (i + (i + 0))%nat with (2 * i)%nat in * by lia. destruct (decide (Z.of_nat i = virt_qp_nb d)) as [E|E].
  - replace (Z.to_nat (2 * virt_qp_nb d + 1)) with (2 * i + 1)%nat in * by lia. replace (Z.to_nat (2 * virt_qp_nb d)) with (2 * i)%nat in * by lia. rewrite list_lookup_insert_ne, list_lookup_insert_eq in Hq by lia. rewrite list_lookup_insert_eq by (rewrite length_insert; lia). congruence.
  - rewrite !list_lookup_insert_ne in Hq |- * by lia. apply Hp; [lia|done].
Qed.
Lemma abs_pair s x a n v b u : abs m s x → x_devs x !! a = Some v → lls s !! a = Some n → virt_qp_nb (v_dev v) < m → b ≠ NULL → b + sizeof_vhost_virtqueue ≠ NULL → dvqs s !! b = None → dvqs s !! (b + sizeof_vhost_virtqueue) = None →
  abs m (s <| dvqs := <[b + sizeof_vhost_virtqueue := u]> (<[b := u]> (dvqs s)) |> <| lls := <[a := n <| ll_dev := with_pair (v_dev v) b |>]> (lls s) |>) (xdev a (v <| v_dev := with_pair (v_dev v) b |> <| v_qs := v_qs v ++ [u; u] |>) x).
Proof.
  intros H Hv Hn Hm Hb Hb' Hf Hf'. pose proof (abs_wf _ _ _ _ _ H Hv) as Hw. destruct (abs_view _ _ _ _ _ H Hv) as (n' & qs & Hn' & Hqs & ->). simplify_eq. cbn in *. set (b' := b + sizeof_vhost_virtqueue) in *. pose proof (qptrs_with_pair _ b Hw Hm) as Hp. fold b' in Hp. pose proof H as [H1 H2 H3 H4 H5 H6 H7 H8 H9 H10].
  assert (Hbb : b ≠ b') by (unfold b', sizeof_vhost_virtqueue; lia).
  assert (Hfree : ∀ c i q, slot s c i q → q ≠ b ∧ q ≠ b'). { intros c i q (nc & Hnc & Hi). destruct (H5 _ _ Hnc) as [_ [qc Hqc]]. unfold queues_of in Hqc. rewrite mapM_Some in Hqc. destruct (Forall2_lookup_l _ _ _ _ _ Hqc Hi) as (uq & _ & Huq). split; intros ->; congruence. }
  assert (Hold : ∀ c nc, lls s !! c = Some nc → mapM (λ q, <[b' := u]> (<[b := u]> (dvqs s)) !! q) (qptrs (ll_dev nc)) = queues_of s (ll_dev nc)).
  { intros c nc Hnc. rewrite !mapM_insert_ne; [done|..]; intros Hin; apply list_elem_of_lookup in Hin as [i Hi]; destruct (Hfree c i _ (ex_intro _ nc (conj Hnc Hi))); done. }
  assert (Hmine : mapM (λ q, <[b' := u]> (<[b := u]> (dvqs s)) !! q) (qptrs (with_pair (ll_dev n) b)) = Some (qs ++ [u; u])).
  { rewrite Hp. apply mapM_Some, Forall2_app; [apply mapM_Some; rewrite (Hold a n Hn); exact Hqs|]. repeat constructor; [rewrite (lookup_insert_ne _ b' b) by done|]; apply lookup_insert_eq. }
  assert (Hslot : ∀ c i q, slot (s <| dvqs := <[b' := u]> (<[b := u]> (dvqs s)) |> <| lls := <[a := n <| ll_dev := with_pair (ll_dev n) b |>]> (lls s) |>) c i q ↔ slot s c i q ∨ (c = a ∧ [b; b'] !! (i - length (qptrs (ll_dev n)))%nat = Some q ∧ (length (qptrs (ll_dev n)) <= i)%nat)).
  { intros c i q. unfold slot. cbn. destruct (decide (c = a)) as [->|Hne].
    - rewrite lookup_insert_eq. split.
      + intros (? & [= <-] & Hi). cbn in Hi. rewrite Hp in Hi. apply lookup_app_Some in Hi as [Hi|[? Hi]]; [left; by exists n|by right].
      + intros [(? & ? & Hi)|(_ & Hi & Hl)]; simplify_eq; eexists; (split; [done|]); cbn; rewrite Hp; [by apply lookup_app_l_Some|by rewrite lookup_app_r].
    - rewrite lookup_insert_ne by done. split; [by left|]. intros [?|[? _]]; done. }
  split; cbn; try done.
  - by eapply ll_chain_insert.
  - intros c. rewrite H3. destruct (decide (c = a)) as [->|Hne]; [rewrite lookup_insert_eq, Hn; by split|by rewrite lookup_insert_ne].
  - destruct H4 as [H4a H4b]. split; [rewrite lookup_insert_ne; [done|congruence]|by rewrite !lookup_insert_ne].
  - intros c nc Hnc. destruct (decide (c = a)) as [->|Hne].
    + rewrite lookup_insert_eq in Hnc. injection Hnc as <-. cbn. split; [by apply with_pair_wf|]. unfold queues_of. cbn. by rewrite Hmine.
    + rewrite lookup_insert_ne in Hnc by done. destruct (H5 _ _ Hnc) as [? ?]. split; [done|]. unfold queues_of at 1. cbn. by rewrite (Hold c nc).
  - intros c. destruct (decide (c = a)) as [->|Hne].
    + rewrite lookup_insert_eq. symmetry. apply view_Some. eexists _, (qs ++ [u; u]). cbn. rewrite lookup_insert_eq. split; [done|]. split; [exact Hmine|done].
    + rewrite lookup_insert_ne, H6 by done. unfold view. cbn. rewrite lookup_insert_ne by done. destruct (lls s !! c) as [nc|] eqn:Hnc; [|done]. cbn. unfold queues_of at 2. cbn. by rewrite (Hold c nc).
  - intros c i c' j q Hc Hc'. apply Hslot in Hc, Hc'. destruct Hc as [Hc|(-> & Hi & Hli)], Hc' as [Hc'|(-> & Hj & Hlj)]; [by eapply H7|..].
    + destruct (Hfree _ _ _ Hc). apply list_elem_of_lookup_2 in Hj. set_solver.
    + destruct (Hfree _ _ _ Hc'). apply list_elem_of_lookup_2 in Hi. set_solver.
    + split; [done|]. assert (i - length (qptrs (ll_dev n)) = j - length (qptrs (ll_dev n)))%nat; [|lia]. eapply (NoDup_lookup [b; b']); [|done..]. repeat constructor; set_solver.
  - intros q Hq. destruct (decide (q = b)) as [->|Hq1]; [exists a, (length (qptrs (ll_dev n))); apply Hslot; right; by rewrite Nat.sub_diag|]. destruct (decide (q = b')) as [->|Hq2].
    + exists a, (S (length (qptrs (ll_dev n)))). apply Hslot. right. split; [done|]. split; [|lia]. by replace (S (length (qptrs (ll_dev n))) - length (qptrs (ll_dev n)))%nat with 1%nat by lia.
    + rewrite !lookup_insert_ne in Hq by done. destruct (H8 q Hq) as (c & i & Hc). exists c, i. apply Hslot. by left.
  - intros c. rewrite H9. destruct (decide (c = a)) as [->|Hne]; [rewrite lookup_insert_eq, Hn|by rewrite lookup_insert_ne]. split; intros (? & [= <-] & ?); eexists; (split; [done|]); done.
Qed.
Lemma alloc_pair_rule s x a v b (Q : Z → vstate App → Prop) : abs m s x → x_devs x !! a = Some v → virt_qp_nb (v_dev v) < m → b + sizeof_vhost_virtqueue ≠ NULL → dvqs s !! b = None → dvqs s !! (b + sizeof_vhost_virtqueue) = None →
  let u := empty_queue (virt_qp_nb (v_dev v)) in (b = NULL → Q (-1) s) → (b ≠ NULL → ∀ s', abs m s' (xdev a (v <| v_dev := with_pair (v_dev v) b |> <| v_qs := v_qs v ++ [u; u] |>) x) → Q 0 s') → returns (alloc_vring_queue_pair b a (virt_qp_nb (v_dev v))) s Q.
Proof.
  intros H Hv Hm Hb' Hf Hf' u H0 HQ. unfold alloc_vring_queue_pair. destruct (Z.eqb_spec b NULL) as [E|E]; [by apply returns_ret, H0|]. specialize (HQ E). destruct (abs_view _ _ _ _ _ H Hv) as (n & qs & Hn & _ & Ev). assert (Hd : v_dev v = ll_dev n) by by rewrite Ev. destruct (abs_wf _ _ _ _ _ H Hv) as [Hl Hnb Hmm _]. clear Ev qs.
  set (nb := virt_qp_nb (v_dev v)) in *. assert (E0 : u32 (nb * VIRTIO_QNUM) = 2 * nb) by (unfold VIRTIO_QNUM; rewrite u32_small; [lia|split; lia]).
  assert (E1 : u32 (2 * nb + VIRTIO_RXQ) = 2 * nb ∧ u32 (2 * nb + VIRTIO_TXQ) = 2 * nb + 1 ∧ u32 (nb * VIRTIO_QNUM + VIRTIO_RXQ) = 2 * nb ∧ u32 (nb * VIRTIO_QNUM + VIRTIO_TXQ) = 2 * nb + 1 ∧ u32 (nb + 1) = nb + 1).
  { unfold VIRTIO_QNUM, VIRTIO_RXQ, VIRTIO_TXQ. rewrite !u32_small by (split; lia). lia. } destruct E1 as (E1 & E2 & E3 & E4 & E5).
  set (b' := b + sizeof_vhost_virtqueue) in *. assert (Hbb : b ≠ b') by (unfold b', sizeof_vhost_virtqueue; lia). set (l' := <[Z.to_nat (2 * nb + 1) := b']> (<[Z.to_nat (2 * nb) := b]> (virtqueue (v_dev v)))).
  set (n1 := n <| ll_dev := (ll_dev n) <| virtqueue := l' |> |>). assert (L1 : load l' (2 * nb) = Some b) by (unfold l', load; rewrite decide_True, list_lookup_insert_ne, list_lookup_insert_eq by lia; done). assert (L2 : load l' (2 * nb + 1) = Some b') by (unfold l', load; rewrite decide_True, list_lookup_insert_eq by (rewrite ?length_insert; lia); done).
  eexists 0, _. unfold init_vring_queue_pair, init_vring_queue, virtqueue_at, get_dev, put_dev, put_q, reads, writes, mbind, DM_bind, mret, DM_ret. cbv beta zeta. rewrite E0, E1, E2, E3, E4. cbn. rewrite Hn. cbn. rewrite <- Hd. rewrite (store_in _ (2 * nb)) by lia. cbn. rewrite (store_in _ (2 * nb + 1)) by (rewrite ?length_insert; lia). cbn. fold b' l'. rewrite Hn. cbn.
  rewrite !lookup_insert_eq. cbn. rewrite L1. cbn. rewrite !lookup_insert_eq. cbn. rewrite !lookup_insert_eq. cbn. rewrite L2. cbn. rewrite (lookup_insert_ne _ b b'), (lookup_insert_ne _ b b'), lookup_insert_eq by done. cbn. rewrite !lookup_insert_eq. cbn. rewrite !lookup_insert_eq. cbn. fold nb. rewrite E5. split; [done|].
  pose proof (abs_pair s x a n v b u H Hv Hn Hm E Hb' Hf Hf') as Ha. apply HQ. fold b' in Ha. unfold with_pair in Ha. cbn in Ha. fold nb b' l' in Ha.
  match goal with |- abs m ?t _ => match type of Ha with abs m ?t' _ => replace t with t'; [exact Ha|] end end. rewrite !insert_insert_eq. unfold u. cbv [alter_field]. f_equal. apply map_eq. intros q. cbn [dvqs lls ll_root origs VHOST_FEATURES closed unmapped app]. rewrite !lookup_insert. repeat case_decide; congruence.
Qed.

(** ** Loops over the pairs *)

Lemma for_from_rule (f : Z → DM App unit) (I : nat → vstate App → Prop) n s (Q : unit → vstate App → Prop) k : I k s → (∀ j s', (k <= j < k + n)%nat → I j s' → returns (f (Z.of_nat j)) s' (λ _, I (S j))) → (∀ s', I (k + n)%nat s' → Q tt s') → returns (for_from n (Z.of_nat k) f) s Q.
Proof.
  revert k s. induction n as [|n IH]; intros k s H0 Hstep HQ; cbn.
  - apply returns_ret, HQ. by rewrite Nat.add_0_r.
  - apply returns_bind. eapply returns_mono; [apply Hstep; [lia|done]|]. intros [] s' Hs'. cbv beta in Hs' |- *. replace (Z.of_nat k + 1) with (Z.of_nat (S k)) by lia. apply IH; [done|intros j s'' Hj; apply Hstep; lia|]. intros s'' H. apply HQ. by replace (k + S n)%nat with (S k + n)%nat by lia.
Qed.
Lemma for_pairs_rule s x a v (f : Z → DM App unit) (I : nat → vstate App → Prop) (Q : unit → vstate App → Prop) : abs m s x → x_devs x !! a = Some v → I 0%nat s → (∀ j s', Z.of_nat j < virt_qp_nb (v_dev v) → I j s' → returns (f (Z.of_nat j)) s' (λ _, I (S j))) → (∀ s', I (Z.to_nat (virt_qp_nb (v_dev v))) s' → Q tt s') → returns (for_pairs a f) s Q.
Proof.
  intros H Hv H0 Hstep HQ. unfold for_pairs. apply returns_bind. eapply get_dev_rule; [done..|]. destruct (abs_wf _ _ _ _ _ H Hv) as [_ Hnb _ _]. apply (for_from_rule f I _ s Q 0); [done|intros j s' Hj; apply Hstep; lia|done].
Qed.
(** The indexes of a pair. *)
Lemma pair_index s x a v j : abs m s x → x_devs x !! a = Some v → Z.of_nat j < virt_qp_nb (v_dev v) →
  u32 (Z.of_nat j * VIRTIO_QNUM + VIRTIO_RXQ) = Z.of_nat (2 * j) ∧ u32 (Z.of_nat j * VIRTIO_QNUM + VIRTIO_TXQ) = Z.of_nat (2 * j + 1) ∧ u32 (Z.of_nat j * VIRTIO_QNUM) = Z.of_nat (2 * j) ∧ u16 (Z.of_nat j * VIRTIO_QNUM) = Z.of_nat (2 * j) ∧
  ∃ r t, v_qs v !! (2 * j)%nat = Some r ∧ v_qs v !! (2 * j + 1)%nat = Some t.
Proof.
  intros H Hv Hj. pose proof (view_queues _ _ _ _ _ H Hv) as Hl. destruct (abs_wf _ _ _ _ _ H Hv) as [_ Hnb Hm _]. unfold VIRTIO_QNUM, VIRTIO_RXQ, VIRTIO_TXQ. rewrite !u32_small, u16_small by (split; lia). split_and!; [lia..|]. destruct (lookup_lt_is_Some_2 (v_qs v) (2 * j)) as [r Hr]; [lia|]. destruct (lookup_lt_is_Some_2 (v_qs v) (2 * j + 1)) as [t Ht]; [lia|]. eauto.
Qed.
Lemma take_pair {A} (l : list A) j r t : l !! (2 * j)%nat = Some r → l !! (2 * j + 1)%nat = Some t → take (2 * S j) l = take (2 * j) l ++ [r; t].
Proof. intros Hr Ht. replace (2 * S j)%nat with (S (S (2 * j))) by lia. erewrite take_S_r by (by replace (S (2 * j)) with (2 * j + 1)%nat by lia). erewrite take_S_r by done. by rewrite <- app_assoc. Qed.

(** ** Cleaning up *)

Definition vq_fds (destroy : Z) (u : vhost_virtqueue) : list Z := (if (0 <=? callfd u) && negb (destroy =? 0) then [callfd u] else []) ++ (if 0 <=? kickfd u then [kickfd u] else []).
Definition xcloses (l : list Z) x : xstate App := x <| x_closed := x_closed x ++ l |>.
Lemma xcloses_app l1 l2 x : xcloses l2 (xcloses l1 x) = xcloses (l1 ++ l2) x.
Proof. unfold xcloses. cbn. by rewrite <- app_assoc. Qed.
Lemma xcloses_nil x : xcloses [] x = x.
Proof. unfold xcloses. destruct x. cbv [alter_field]. cbn. by rewrite app_nil_r. Qed.
Lemma cleanup_vq_rule s x q u destroy (Q : unit → vstate App → Prop) : abs m s x → dvqs s !! q = Some u → (∀ s', abs m s' (xcloses (vq_fds destroy u) x) → Q tt s') → returns (cleanup_vq q destroy) s Q.
Proof.
  intros H Hu HQ. unfold cleanup_vq, vq_fds in *. apply returns_bind. eapply get_q_rule; [done|]. apply returns_bind. destruct ((0 <=? callfd u) && negb (destroy =? 0)); [eapply close_rule; [done|]; intros s1 H1 _ _ _|apply returns_ret].
  - destruct (0 <=? kickfd u); [eapply close_rule; [done|]; intros s2 H2 _ _ _; apply HQ; unfold xclose, xcloses in *; cbn in *; by rewrite <- app_assoc in H2|apply returns_ret; by apply HQ].
  - destruct (0 <=? kickfd u); [eapply close_rule; [done|]; intros s2 H2 _ _ _; by apply HQ|]. apply returns_ret. apply HQ. cbn. by rewrite xcloses_nil.
Qed.
Lemma cleanup_queues_rule s x a v destroy (Q : unit → vstate App → Prop) : abs m s x → x_devs x !! a = Some v → (∀ s', abs m s' (xcloses (concat (vq_fds destroy <$> v_qs v)) x) → Q tt s') →
  returns (for_pairs a (λ i, q ← virtqueue_at a (u32 (i * VIRTIO_QNUM + VIRTIO_RXQ)); _ ← cleanup_vq q destroy; q ← virtqueue_at a (u32 (i * VIRTIO_QNUM + VIRTIO_TXQ)); cleanup_vq q destroy)) s Q.
Proof.
  intros H Hv HQ. pose proof (view_queues _ _ _ _ _ H Hv) as Hl. apply (for_pairs_rule s x a v _ (λ k s', abs m s' (xcloses (concat (vq_fds destroy <$> take (2 * k) (v_qs v))) x))); [done|done|cbn; by rewrite xcloses_nil| |].
  - intros j s' Hj Hs'. destruct (pair_index _ _ _ _ _ H Hv Hj) as (-> & -> & _ & _ & r & t & Hr & Ht). apply returns_bind. eapply virtqueue_rule; [exact Hs'|exact Hv|done|]. intros q _ _ Hq. apply returns_bind. eapply cleanup_vq_rule; [exact Hs'|done|]. intros s1 H1. apply returns_bind. eapply virtqueue_rule; [exact H1|exact Hv|done|]. intros q' _ _ Hq'. eapply cleanup_vq_rule; [exact H1|done|]. intros s2 H2. rewrite !xcloses_app in H2. rewrite (take_pair _ _ r t), fmap_app, concat_app by done. cbn [fmap list_fmap concat]. rewrite app_nil_r. exact H2.
  - intros s' Hs'. apply HQ. rewrite take_ge in Hs' by lia. done.
Qed.
Definition cleaned (a destroy : Z) (v : dview) x : xstate App :=
  xcloses (concat (vq_fds destroy <$> v_qs v)) (match mem (v_dev v) with
    | Some mm => xdev a (v <| v_dev := (v_dev v) <| mem := None |> |> <| v_maps := [] |>) (xunmap (VirtQueue.mapped_address mm, VirtQueue.mapped_size mm) x)
    | None => x end).
Lemma cleanup_device_rule s x a v destroy (Q : unit → vstate App → Prop) : abs m s x → x_devs x !! a = Some v → (∀ s', abs m s' (cleaned a destroy v x) → Q tt s') → returns (cleanup_device a destroy) s Q.
Proof.
  intros H Hv HQ. unfold cleanup_device. apply returns_bind. eapply get_dev_rule; [done..|]. unfold cleaned in HQ. destruct (mem (v_dev v)) as [mm|]; apply returns_bind.
  - apply returns_bind. eapply munmap_rule; [done|]. intros s1 H1. eapply free_mem_rule; [exact H1|exact Hv|]. intros s2 H2. eapply cleanup_queues_rule; [exact H2|cbn; apply lookup_insert_eq|]. exact HQ.
  - apply returns_ret. eapply cleanup_queues_rule; [done..|]. exact HQ.
Qed.

(** ** Freeing a device *)

Lemma ll_chain_delete l a r as_ : a ∉ as_ → ll_chain l r as_ → ll_chain (delete a l) r as_.
Proof. revert r. induction as_ as [|b as_ IH]; intros r; cbn; [done|]. rewrite not_elem_of_cons. intros [Hb Ha] (-> & n & Hn & Hc). split; [done|]. exists n. rewrite lookup_delete_ne by done. auto. Qed.
Lemma mapM_ext_in {A B} (f g : A → option B) l : (∀ y, y ∈ l → f y = g y) → mapM f l = mapM g l.
Proof. induction l as [|y l IH]; intros H; [done|]. cbn. rewrite H by set_solver. rewrite IH; [done|]. intros z Hz. apply H. set_solver. Qed.
Lemma abs_free s x a n v lo D : abs m s x → x_devs x !! a = Some v → lls s !! a = Some n → x_loose x = a :: lo → mem (v_dev v) = None → (∀ q, D !! q = if decide (q ∈ qptrs (v_dev v)) then None else dvqs s !! q) →
  abs m (s <| dvqs := D |> <| lls := delete a (lls s) |>) (x <| x_loose := lo |> <| x_devs := delete a (x_devs x) |>).
Proof.
  intros H Hv Hn Hlo Hm HD. destruct (abs_view _ _ _ _ _ H Hv) as (n' & qs & Hn' & Hqs & ->). simplify_eq. cbn in Hm, HD. pose proof H as [H1 H2 H3 H4 H5 H6 H7 H8 H9 H10]. rewrite Hlo in H2, H3. setoid_rewrite <- Permutation_middle in H3. rewrite <- Permutation_middle, NoDup_cons in H2. destruct H2 as [Ha H2].
  assert (Hqs' : ∀ b nb, b ≠ a → lls s !! b = Some nb → mapM (λ q, D !! q) (qptrs (ll_dev nb)) = queues_of s (ll_dev nb)).
  { intros b nb Hne Hnb. apply mapM_ext_in. intros q Hq. rewrite HD. case_decide as Hq'; [|done]. apply list_elem_of_lookup in Hq as [i Hi], Hq' as [j Hj]. destruct (H7 b i a j q); [by exists nb|by exists n|]. done. }
  assert (Hslot : ∀ b i q, slot (s <| dvqs := D |> <| lls := delete a (lls s) |>) b i q ↔ b ≠ a ∧ slot s b i q).
  { intros b i q. unfold slot. cbn. destruct (decide (b = a)) as [->|Hne]; [rewrite lookup_delete_eq; split; [by intros (? & ? & _)|by intros []]|rewrite lookup_delete_ne by done; naive_solver]. }
  split; cbn; try done.
  - apply ll_chain_delete; [set_solver|done].
  - intros b. specialize (H3 b). rewrite elem_of_cons in H3. destruct (decide (b = a)) as [->|Hne]; [rewrite lookup_delete_eq; split; [done|by intros []]|rewrite lookup_delete_ne by done; tauto].
  - rewrite HD. destruct H4 as [H4 H4']. split; [apply lookup_delete_None; by right|]. by case_decide.
  - intros b nb Hb. apply lookup_delete_Some in Hb as [Hne Hb]. destruct (H5 _ _ Hb) as [? ?]. split; [done|]. unfold queues_of at 1. cbn. by rewrite (Hqs' b nb).
  - intros b. destruct (decide (b = a)) as [->|Hne]; [rewrite lookup_delete_eq; unfold view; cbn; by rewrite lookup_delete_eq|]. rewrite lookup_delete_ne, H6 by done. unfold view. cbn. rewrite lookup_delete_ne by done. destruct (lls s !! b) as [nb|] eqn:Hnb; [|done]. cbn. unfold queues_of at 2. cbn. by rewrite (Hqs' b nb).
  - intros b i b' j q Hb Hb'. apply Hslot in Hb as [_ Hb], Hb' as [_ Hb']. by eapply H7.
  - intros q [u Hu]. rewrite HD in Hu. case_decide as Hq; [done|]. destruct (H8 q) as (b & i & Hb); [by eexists|]. exists b, i. apply Hslot. split; [|done]. intros ->. destruct Hb as (nb & Hnb & Hi). simplify_eq. apply Hq. by eapply list_elem_of_lookup_2.
  - intros b. rewrite H9. destruct (decide (b = a)) as [->|Hne]; [rewrite lookup_delete_eq|by rewrite lookup_delete_ne]. split; [intros (? & ? & Hs); simplify_eq; rewrite Hm in Hs; by destruct Hs|by intros (? & ? & _)].
Qed.
(** The queues from pair [i] on are freed. *)
Lemma free_pairs_run a n x k : ∀ i s D0, abs m (s <| dvqs := D0 |>) x → lls s !! a = Some n → Z.of_nat (i + k) = virt_qp_nb (ll_dev n) →
  ∃ D, for_from k (Z.of_nat i) (λ i, q ← virtqueue_at a (u32 (i * VIRTIO_QNUM)); free_pair q) s = Some (tt, s <| dvqs := D |>) ∧ ∀ q, D !! q = if decide (q ∈ drop (2 * i) (qptrs (ll_dev n))) then None else dvqs s !! q.
Proof.
  induction k as [|k IH]; intros i s D0 H Hn Hi.
  - exists (dvqs s). split; [cbn; unfold mret, DM_ret; by destruct s|]. intros q. destruct (ab_wf _ _ _ H a n Hn) as [Hw _]. pose proof (qptrs_length _ _ Hw). rewrite decide_False; [done|]. rewrite drop_ge by lia. set_solver.
  - destruct (ab_wf _ _ _ H a n Hn) as [Hw [qs Hqs]]. pose proof (qptrs_length _ _ Hw) as Hl. pose proof Hw as [Hlen Hnb Hm Hp]. destruct (lookup_lt_is_Some_2 (qptrs (ll_dev n)) (2 * i)) as [q Hq]; [lia|]. pose proof Hq as Hq2. unfold qptrs in Hq2. apply lookup_take_Some in Hq2 as [Hq2 _].
    assert (Hq3 : qptrs (ll_dev n) !! (2 * i + 1)%nat = Some (q + sizeof_vhost_virtqueue)). { unfold qptrs. rewrite lookup_take_lt by lia. apply Hp; [lia|done]. }
    assert (q ≠ NULL) as Hq0. { intros ->. unfold queues_of in Hqs. rewrite mapM_Some in Hqs. destruct (Forall2_lookup_l _ _ _ _ _ Hqs Hq) as (u & _ & Hu). destruct (ab_null _ _ _ H). congruence. }
    cbn [for_from]. assert (u32 (Z.of_nat i * VIRTIO_QNUM) = Z.of_nat (2 * i)) as E by (unfold VIRTIO_QNUM; rewrite u32_small by (split; lia); lia).
    destruct (IH (S i) (s <| dvqs := delete q (delete (q + sizeof_vhost_virtqueue) (dvqs s)) |>) D0) as (D & Hrun & HD); [exact H|exact Hn|lia|]. exists D. split.
    + unfold mbind at 1, DM_bind at 1. rewrite E. unfold virtqueue_at, get_dev, reads, mbind, DM_bind. rewrite Hn. cbn [fmap option_fmap option_map option_bind mbind]. rewrite load_nat, Hq2. cbn [option_bind mbind]. unfold free_pair. destruct (Z.eqb_spec q NULL); [done|]. unfold writes. replace (Z.of_nat i + 1) with (Z.of_nat (S i)) by lia. exact Hrun.
    + intros p. rewrite HD. assert (Ed : drop (2 * i) (qptrs (ll_dev n)) = q :: (q + sizeof_vhost_virtqueue) :: drop (2 * S i) (qptrs (ll_dev n))). { rewrite (drop_S _ _ _ Hq). f_equal. replace (S (2 * i)) with (2 * i + 1)%nat by lia. rewrite (drop_S _ _ _ Hq3). f_equal. f_equal. lia. }
      rewrite Ed. cbn [dvqs alter_field]. rewrite !lookup_delete. repeat case_decide; set_solver.
Qed.
Lemma free_device_rule s x a v lo (Q : unit → vstate App → Prop) : abs m s x → x_devs x !! a = Some v → x_loose x = a :: lo → mem (v_dev v) = None → (∀ s', abs m s' (x <| x_loose := lo |> <| x_devs := delete a (x_devs x) |>) → Q tt s') → returns (free_device a) s Q.
Proof.
  intros H Hv Hlo Hm HQ. destruct (abs_view _ _ _ _ _ H Hv) as (n & qs & Hn & _ & Ev). assert (Hd : v_dev v = ll_dev n) by by rewrite Ev. destruct (abs_wf _ _ _ _ _ H Hv) as [_ Hnb _ _]. rewrite Hd in Hnb. unfold free_device. apply returns_bind. unfold for_pairs. apply returns_bind. eapply get_dev_rule; [done..|]. rewrite Hd.
  destruct (free_pairs_run a n x (Z.to_nat (virt_qp_nb (ll_dev n))) 0 s (dvqs s)) as (D & Hrun & HD); [by destruct s|done|lia|]. exists tt, (s <| dvqs := D |>). split; [exact Hrun|]. apply returns_writes. apply HQ. apply (abs_free s x a n v lo D); try done. intros q. rewrite HD, Hd. done.
Qed.
End pairs.
