(* ===== verification/VirtRemove.v ===== *)
(** * The callbacks of the application, and removing a device

    The contract of the callbacks ([rte_virtio_net.h]: [new_device] sets
    [VIRTIO_DEV_RUNNING], [destroy_device] clears it) as laws, and what
    [destroy_device] of [virtio-net.c] does under it. *)
From S2P Require Import Prelude CStr Ring Mempool MempoolInit Mbuf VirtQueue VirtDev VirtAbs VirtList VirtPairs.
From Stdlib Require Import Sorted.
Open Scope Z_scope.

Definition started_flags (d : virtio_net) : virtio_net := d <| flags := Z.lor (flags d) VIRTIO_DEV_RUNNING |>.
Definition stopped_flags (d : virtio_net) : virtio_net := d <| flags := Z.land (flags d) (Z.lnot VIRTIO_DEV_RUNNING) |>.
Lemma running_started d : running (started_flags d) = true.
Proof. unfold running, started_flags, VIRTIO_DEV_RUNNING. cbn [flags alter_field]. destruct (Z.eqb_spec (Z.land (Z.lor (flags d) 1) 1) 0) as [E|]; [|done]. apply (f_equal (λ z, Z.testbit z 0)) in E. rewrite Z.land_spec, Z.lor_spec in E. by destruct (Z.testbit (flags d) 0). Qed.
Lemma running_stopped d : running (stopped_flags d) = false.
Proof. unfold running, stopped_flags, VIRTIO_DEV_RUNNING. cbn [flags alter_field]. rewrite <- Z.land_assoc. change (Z.land (Z.lnot 1) 1) with 0. by rewrite Z.land_0_r. Qed.

(** [app_ok ap R]: in the state [ap] the application has the devices [R]. *)
Class notify_laws {App : Type} (ops : notify_ops App) (app_ok : App → gset Z → Prop) : Prop := {
  nl_new a d ap R : app_ok ap R → a ∉ R → ∃ r d' ap', cb_new_device a d ap = Some (r, d', ap') ∧
    ((r = 0 ∧ d' = started_flags d ∧ app_ok ap' ({[a]} ∪ R)) ∨ (r ≠ 0 ∧ d' = d ∧ app_ok ap' R));
  nl_destroy a d ap R : app_ok ap R → a ∈ R → ∃ ap', cb_destroy_device a d ap = Some (stopped_flags d, ap') ∧ app_ok ap' (R ∖ {[a]});
  nl_state f a i e ap R : cb_vring_state_changed = Some f → app_ok ap R → ∃ ap', f a i e ap = Some ap' ∧ app_ok ap' R }.

Section remove.
Context {App : Type} {ops : notify_ops App} {app_ok : App → gset Z → Prop} {laws : notify_laws ops app_ok} (m : Z).
Implicit Types (s : vstate App) (x : xstate App).

(** The devices that run. *)
Definition run_set (D : gmap Z dview) : gset Z := dom (filter (λ p, running (v_dev p.2) = true) D).
Lemma elem_of_run_set D a : a ∈ run_set D ↔ ∃ v, D !! a = Some v ∧ running (v_dev v) = true.
Proof. unfold run_set. rewrite elem_of_dom. split; [intros [v Hv]; apply map_lookup_filter_Some in Hv; by exists v|]. intros (v & Hv & Hr). exists v. by apply map_lookup_filter_Some. Qed.
Lemma run_set_insert D a v : run_set (<[a := v]> D) = if running (v_dev v) then {[a]} ∪ run_set D else run_set D ∖ {[a]}.
Proof.
  apply set_eq. intros b. rewrite elem_of_run_set. destruct (decide (b = a)) as [->|Hne].
  - rewrite lookup_insert_eq. destruct (running (v_dev v)) eqn:E; [set_solver|]. split; [intros (? & [= <-] & ?); congruence|set_solver].
  - rewrite lookup_insert_ne, <- elem_of_run_set by done. destruct (running (v_dev v)); set_solver.
Qed.
Lemma run_set_delete D a : run_set (delete a D) = run_set D ∖ {[a]}.
Proof. apply set_eq. intros b. rewrite elem_of_difference, !elem_of_run_set. destruct (decide (b = a)) as [->|Hne]; [rewrite lookup_delete_eq; set_solver|rewrite lookup_delete_ne by done; set_solver]. Qed.
Definition app_fine x : Prop := app_ok (x_app x) (run_set (x_devs x)).
Definition stop_view (v : dview) : dview := if running (v_dev v) then v <| v_dev := stopped_flags (v_dev v) |> else v.
Lemma stop_view_stopped v : running (v_dev (stop_view v)) = false.
Proof. unfold stop_view. destruct (running (v_dev v)) eqn:E; [apply running_stopped|done]. Qed.
Definition xapp (ap : App) x : xstate App := x <| x_app := ap |>.
Lemma abs_app s x ap : abs m s x → abs m (s <| app := ap |>) (xapp ap x).
Proof. intros [H1 H2 H3 H4 H5 H6 H7 H8 H9 (? & ? & ? & ?)]. by split. Qed.
Lemma xdev_id a v x : x_devs x !! a = Some v → xdev a v x = x.
Proof. intros H. unfold xdev. rewrite insert_id by done. by destruct x. Qed.

Lemma stop_rule s x a v (Q : unit → vstate App → Prop) : abs m s x → app_fine x → x_devs x !! a = Some v →
  (∀ s' ap, abs m s' (xapp ap (xdev a (stop_view v) x)) → app_fine (xapp ap (xdev a (stop_view v) x)) → Q tt s') → returns (stop_if_running a) s Q.
Proof.
  intros H Hf Hv HQ. unfold stop_if_running. apply returns_bind. eapply get_dev_rule; [done..|]. unfold stop_view in HQ. destruct (running (v_dev v)) eqn:Hr.
  - destruct (abs_view _ _ _ _ _ H Hv) as (n & qs & Hn & _ & Ev). assert (Hd : v_dev v = ll_dev n) by by rewrite Ev. destruct (ab_rest _ _ _ H) as (_ & _ & _ & Happ).
    destruct (nl_destroy a (v_dev v) (x_app x) (run_set (x_devs x)) Hf) as (ap & Hcb & Hok); [apply elem_of_run_set; eauto|]. eexists tt, _. split; [unfold notify_destroy_device; rewrite Hn; cbn [mbind option_bind]; rewrite Happ, <- Hd, Hcb; done|]. apply (HQ _ ap).
    + apply abs_app. by apply abs_set_dev.
    + unfold app_fine. cbn. rewrite run_set_insert. cbn. by rewrite running_stopped.
  - apply returns_ret. apply (HQ s (x_app x)); rewrite xdev_id by done; by destruct x.
Qed.

(** ** Off the list *)

Lemma ll_chain_unlink l r l1 p np a na l2 : ll_chain l r (l1 ++ p :: a :: l2) → NoDup (l1 ++ p :: a :: l2) → l !! p = Some np → l !! a = Some na → ll_chain (<[p := np <| ll_next := ll_next na |>]> l) r (l1 ++ p :: l2).
Proof.
  intros Hc Hnd Hp Ha. revert r Hc Hnd. induction l1 as [|c l1 IH]; intros r; cbn; rewrite NoDup_cons.
  - intros (-> & n & Hn & _ & n' & Hn' & Hc) [Hpl _]. simplify_eq. split; [done|]. eexists. rewrite lookup_insert_eq. split; [done|]. cbn. apply ll_chain_ne; [set_solver|done].
  - intros (-> & n & Hn & Hc) [Hcl Hnd]. split; [done|]. exists n. rewrite lookup_insert_ne by set_solver. split; [done|]. by apply IH.
Qed.
Definition unlinked (a : Z) (l : list Z) x : xstate App := x <| x_list := l |> <| x_loose := [a] |>.
Definition removed (a : Z) (v : dview) (l : list Z) x : xstate App := (cleaned a 1 v (unlinked a l x)) <| x_loose := [] |> <| x_devs := delete a (x_devs x) |>.
Lemma removed_list a v l x : x_list (removed a v l x) = l.
Proof. unfold removed, cleaned. by destruct (mem (v_dev v)). Qed.
Lemma clean_free_rule s x a v l (Q : unit → vstate App → Prop) : abs m s (unlinked a l x) → x_devs x !! a = Some v → (∀ s', abs m s' (removed a v l x) → Q tt s') → returns (_ ← cleanup_device a 1; free_device a) s Q.
Proof.
  intros H Hv HQ. apply returns_bind. eapply cleanup_device_rule; [exact H|exact Hv|]. intros s1 H1. unfold removed, cleaned in *. cbn in Hv. destruct (mem (v_dev v)) as [mm|] eqn:Hm.
  - eapply free_device_rule; [exact H1|cbn; apply lookup_insert_eq|done|done|]. intros s2 H2. apply HQ. cbn in H2 |- *. rewrite delete_insert_eq in H2. exact H2.
  - eapply free_device_rule; [exact H1|exact Hv|done|done|]. exact HQ.
Qed.
Lemma rm_rule s x a v l1 l2 : abs m s x → x_loose x = [] → x_list x = l1 ++ a :: l2 → x_devs x !! a = Some v →
  returns (rm_config_ll_entry a (default NULL (last l1))) s (λ nx s', abs m s' (removed a v (l1 ++ l2) x) ∧ ll_chain (lls s') nx l2).
Proof.
  intros H Hlo El Hv. pose proof (ab_chain _ _ _ H) as Hc. pose proof (ab_nodup _ _ _ H) as Hnd. rewrite Hlo, app_nil_r, El in Hnd. rewrite El in Hc. destruct (abs_view _ _ _ _ _ H Hv) as (n & qs & Hn & _ & _). unfold rm_config_ll_entry. apply returns_bind. eapply returns_reads; [done|].
  destruct l1 as [|p l1 _] using rev_ind.
  - cbn in Hc. destruct Hc as (Hr & n' & Hn' & Hc). assert (n' = n) as -> by congruence. rewrite Hr, Z.eqb_refl. apply returns_bind. eapply returns_reads; [by rewrite Hn|]. apply returns_bind, returns_writes.
    assert (abs m (s <| ll_root := ll_next n |>) (unlinked a l2 x)) as H1.
    { apply (abs_relink m s x (ll_next n) (lls s) l2 [a] H) in Hc; [|done|rewrite El, Hlo; cbn; rewrite app_nil_r; by rewrite Permutation_app_comm]. destruct s. exact Hc. }
    apply returns_then. eapply clean_free_rule; [exact H1|exact Hv|]. intros s2 H2. eapply returns_reads; [done|]. split; [done|]. pose proof (ab_chain _ _ _ H2) as Hc2. by rewrite removed_list in Hc2.
  - rewrite last_snoc. change (default NULL (Some p)) with p. rewrite <- app_assoc in El, Hc, Hnd. cbn in El, Hc, Hnd. assert (p ≠ NULL ∧ ∃ np, lls s !! p = Some np) as (Hp0 & np & Hnp). { assert (p ∈ x_list x ++ x_loose x) as Hin by (rewrite El; set_solver). apply (ab_dom _ _ _ H) in Hin as [np Hnp]. split; [by eapply node_not_null|eauto]. }
    assert (a ≠ ll_root s) as Hra. { apply NoDup_app in Hnd as (_ & Hnd & Hnd'). intros E. destruct l1 as [|c l1]; cbn in Hc; destruct Hc as (Hr & _); [subst p; apply NoDup_cons in Hnd' as [Hx _]; apply Hx; rewrite E; set_solver|]. subst c. apply (Hnd (ll_root s)); [set_solver|rewrite E; set_solver]. }
    destruct (Z.eqb_spec a (ll_root s)); [done|]. destruct (Z.eqb_spec p NULL); [done|]. cbn [negb]. apply returns_bind. eapply returns_reads; [by rewrite Hn|]. apply returns_bind. eexists tt, _. split; [rewrite Hnp; done|].
    pose proof (ll_chain_unlink _ _ _ _ _ _ _ _ Hc Hnd Hnp Hn) as Hc'. assert (abs m (s <| lls := <[p := np <| ll_next := ll_next n |>]> (lls s) |>) (unlinked a (l1 ++ p :: l2) x)) as H1.
    { apply (abs_relink m s x (ll_root s) _ (l1 ++ p :: l2) [a] H) in Hc'; [destruct s; exact Hc'| |].
      - intros c. destruct (decide (c = p)) as [->|Hne]; [by rewrite lookup_insert_eq, Hnp|by rewrite lookup_insert_ne].
      - rewrite El, Hlo, app_nil_r. rewrite <- app_assoc. cbn. apply Permutation_app_head. constructor. rewrite (Permutation_app_comm l2 [a]). done. }
    apply returns_then. eapply clean_free_rule; [exact H1|exact Hv|]. intros s2 H2. pose proof (ab_chain _ _ _ H2) as Hc2. rewrite removed_list in Hc2. rewrite <- app_assoc. cbn [app]. apply ll_chain_app in Hc2 as (r' & _ & -> & n2 & Hn2 & Hc2). eapply returns_reads; [by rewrite Hn2|]. split; [done|]. exact Hc2.
Qed.
Lemma destroy_walk s target l1 : ∀ fuel cur lst l2, ll_chain (lls s) cur (l1 ++ l2) → (∀ b, b ∈ l1 → b ≠ target ∧ b ≠ NULL) →
  ∃ cur', ll_chain (lls s) cur' l2 ∧ destroy_loop (length l1 + fuel) target cur lst s = destroy_loop fuel target cur' (default lst (last l1)) s.
Proof.
  induction l1 as [|b l1 IH]; intros fuel cur lst l2 Hc Hb; [by exists cur|]. cbn in Hc. destruct Hc as (-> & n & Hn & Hc). destruct (Hb b) as [Hbt Hb0]; [set_solver|]. destruct (IH fuel (ll_next n) b l2 Hc) as (cur' & Hc' & E); [set_solver|]. exists cur'. split; [done|]. cbn [length Nat.add destroy_loop].
  destruct (Z.eqb_spec b NULL); [done|]. destruct (Z.eqb_spec b target); [done|]. unfold next_of, reads, mbind at 1, DM_bind. rewrite Hn. cbn [fmap option_fmap option_map mbind option_bind]. rewrite E. f_equal. rewrite last_cons. by destruct (last l1).
Qed.
Lemma destroy_end s target fuel cur lst l : ll_chain (lls s) cur l → (∀ b, b ∈ l → b ≠ target ∧ b ≠ NULL) → (length l <= fuel)%nat → destroy_loop fuel target cur lst s = Some (tt, s).
Proof.
  intros Hc Hb Hf. replace fuel with (length l + (fuel - length l))%nat by lia. rewrite <- (app_nil_r l) in Hc. destruct (destroy_walk s target l (fuel - length l) cur lst [] Hc Hb) as (cur' & -> & ->). destruct (fuel - length l)%nat; done.
Qed.
Lemma list_not_null s x b : abs m s x → b ∈ x_list x → b ≠ NULL.
Proof. intros H Hb. destruct (proj1 (ab_dom _ _ _ H b)) as [n Hn]; [set_solver|]. by eapply node_not_null. Qed.
Definition gone (a : Z) (v : dview) (l : list Z) (ap : App) x : xstate App := removed a (stop_view v) l (xapp ap (xdev a (stop_view v) x)).
Lemma gone_app a v l ap x : x_app (gone a v l ap x) = ap.
Proof. unfold gone, removed, cleaned. by destruct (mem (v_dev (stop_view v))). Qed.
Lemma gone_devs a v l ap x : x_devs (gone a v l ap x) = delete a (x_devs x).
Proof. unfold gone, removed, cleaned. cbn. by rewrite delete_insert_eq. Qed.
Lemma destroy_rule s x fh a v (Q : unit → vstate App → Prop) : abs m s x → x_loose x = [] → app_fine x → by_handle x fh = Some a → x_devs x !! a = Some v →
  (∀ s' l1 l2 ap, x_list x = l1 ++ a :: l2 → abs m s' (gone a v (l1 ++ l2) ap x) → app_fine (gone a v (l1 ++ l2) ap x) → Q tt s') → returns (destroy_device fh) s Q.
Proof.
  intros H Hlo Hf Hb Hv HQ. unfold destroy_device. apply returns_bind. eapply get_device_rule; [done|]. rewrite Hb. change (default NULL (Some a)) with a. apply returns_bind. eapply returns_reads; [done|]. apply returns_bind. eapply returns_reads; [done|].
  apply by_handle_Some in Hb as [Ha _]. apply list_elem_of_split in Ha as (l1 & l2 & El). pose proof (ab_chain _ _ _ H) as Hc. pose proof (ab_nodup _ _ _ H) as Hnd. rewrite Hlo, app_nil_r, El in Hnd. apply NoDup_app in Hnd as (_ & Hd1 & Hd2). apply NoDup_cons in Hd2 as [Hd2 _]. rewrite El in Hc.
  assert (Hsz : (length l1 + S (length l2) <= size (lls s))%nat) by (pose proof (lls_size m s x H) as Hs; rewrite El, length_app in Hs; exact Hs). replace (size (lls s)) with (length l1 + S (size (lls s) - length l1 - 1))%nat by lia. set (f := (size (lls s) - length l1 - 1)%nat). assert (Hf2 : (length l2 <= f)%nat) by lia.
  destruct (destroy_walk s a l1 (S f) (ll_root s) NULL (a :: l2) Hc) as (cur' & Hc' & E). { intros b Hb. split; [intros ->; eapply Hd1; [done|set_solver]|eapply list_not_null; [done|rewrite El; set_solver]]. }
  unfold returns. rewrite E. destruct Hc' as (-> & n & Hn & _). cbn [destroy_loop]. destruct (Z.eqb_spec a NULL) as [->|_]; [by destruct (node_not_null _ _ _ _ _ H Hn)|]. rewrite Z.eqb_refl. apply returns_bind. eapply stop_rule; [done..|]. intros s1 ap H1 Hf1. apply returns_bind. eapply returns_mono; [eapply (rm_rule s1 _ a (stop_view v) l1 l2 H1); [done|exact El|cbn; apply lookup_insert_eq]|]. intros nx s2 [H2 Hc2]. cbv beta. exists tt, s2. split.
  - eapply destroy_end; [exact Hc2| |done]. intros b Hb. split; [intros ->; done|]. eapply list_not_null; [exact H2|]. rewrite removed_list. set_solver.
  - eapply HQ; [exact El|exact H2|]. unfold app_fine in *. cbn in Hf1. rewrite gone_app, gone_devs, run_set_delete. rewrite run_set_insert, stop_view_stopped in Hf1. exact Hf1.
Qed.
Lemma destroy_none s x fh : abs m s x → by_handle x fh = None → destroy_device fh s = Some (tt, s).
Proof.
  intros H Hb. unfold destroy_device, get_config_ll_entry, reads, mbind, DM_bind. rewrite (find_ll_chain m s x fh (x_list x) H _ _ (ab_chain _ _ _ H) (lls_size m s x H)). unfold by_handle in Hb. rewrite Hb. cbn [default mbind option_bind].
  eapply destroy_end; [exact (ab_chain _ _ _ H)| |by eapply lls_size]. intros b Hin. split; by eapply list_not_null.
Qed.
End remove.
