(* ===== verification/VirtStep.v ===== *)
(** * What a message does to its device

    The handlers of [virtio-net.c] and [virtio-net-user.c] on the devices without
    pointers: [at_] is the state in which the device [a] is [v], and since the
    message came the descriptors [c] were closed, the ranges [u] unmapped, and
    the application went to [ap]. *)
From S2P Require Import Prelude CStr Align Ring Mempool MempoolInit Mbuf VirtQueue VirtDev VirtUser VirtAbs VirtList VirtPairs VirtRemove.
Open Scope Z_scope.

Section step.
Context {App : Type} {ops : notify_ops App} {app_ok : App → gset Z → Prop} {laws : notify_laws ops app_ok} (m : Z).
Implicit Types (s : vstate App) (v : dview).
Context (an : answers) (kernel_mq : bool) (x : xstate App) (a fh : Z).
Hypothesis Hdev : by_handle x fh = Some a.

Definition xeff v (c : list Z) (u : list (Z * Z)) (ap : App) : xstate App :=
  x <| x_devs := <[a := v]> (x_devs x) |> <| x_closed := x_closed x ++ c |> <| x_unmapped := x_unmapped x ++ u |> <| x_app := ap |>.
(** The second part is what the application knows; the first keeps the handle. *)
Record at_ s v (c : list Z) (u : list (Z * Z)) (ap : App) : Prop := {
  at_abs : abs m s (xeff v c u ap); at_app : app_ok ap (run_set (<[a := v]> (x_devs x))); at_fh : device_fh (v_dev v) = fh }.

Lemma at_start s v : abs m s x → app_fine (app_ok := app_ok) x → x_devs x !! a = Some v → at_ s v [] [] (x_app x).
Proof.
  intros H Hf Hv. assert (xeff v [] [] (x_app x) = x) as E by (unfold xeff; rewrite insert_id, !app_nil_r by done; by destruct x). split; [by rewrite E|by rewrite insert_id|]. apply by_handle_Some in Hdev as [_ Hfh]. unfold fh_of in Hfh. by rewrite Hv in Hfh.
Qed.
Lemma at_lookup v c u ap : x_devs (xeff v c u ap) !! a = Some v.
Proof. apply lookup_insert_eq. Qed.
Lemma at_handle s v c u ap : at_ s v c u ap → by_handle (xeff v c u ap) fh = Some a.
Proof.
  intros [_ _ Hfh]. pose proof Hdev as Hd. unfold by_handle in *. erewrite list_find_ext; [exact Hd|]. intros b. cbn. unfold fh_of. cbn. destruct (decide (b = a)) as [->|Hne]; [|by rewrite lookup_insert_ne]. rewrite lookup_insert_eq, Hfh. apply by_handle_Some in Hdev as [_ Hfa]. unfold fh_of in Hfa. by rewrite Hfa.
Qed.
Lemma xeff_dev v v' c u ap : xdev a v' (xeff v c u ap) = xeff v' c u ap.
Proof. unfold xdev, xeff. cbv [alter_field]. cbn. by rewrite insert_insert_eq. Qed.

Lemma run_set_put v v' : running (v_dev v') = running (v_dev v) → run_set (<[a := v']> (x_devs x)) = run_set (<[a := v]> (x_devs x)).
Proof. intros E. by rewrite !run_set_insert, E. Qed.

(** ** Rules *)

Notation post R := (R → vstate App → Prop).
Lemma at_device s v c u ap (Q : post Z) : at_ s v c u ap → Q a s → returns (get_device fh) s Q.
Proof. intros H HQ. eapply get_device_rule; [apply H|]. by rewrite (at_handle _ _ _ _ _ H). Qed.
Lemma at_not_null s v c u ap : at_ s v c u ap → (a =? NULL) = false.
Proof. intros H. apply Z.eqb_neq. eapply abs_in; [apply H|apply at_lookup]. Qed.
Lemma at_get s v c u ap (Q : post virtio_net) : at_ s v c u ap → Q (v_dev v) s → returns (get_dev a) s Q.
Proof. intros H HQ. eapply get_dev_rule; [apply H|apply at_lookup|done]. Qed.
Lemma at_put s v c u ap d (Q : post unit) : at_ s v c u ap → virtqueue d = virtqueue (v_dev v) → virt_qp_nb d = virt_qp_nb (v_dev v) → (is_Some (mem d) ↔ is_Some (mem (v_dev v))) → device_fh d = device_fh (v_dev v) → running d = running (v_dev v) →
  (∀ s', at_ s' (v <| v_dev := d |>) c u ap → Q tt s') → returns (put_dev a d) s Q.
Proof.
  intros [H Ha Hf] H1 H2 H3 H4 H5 HQ. eapply put_dev_rule; [exact H|apply at_lookup|done..|]. intros s' H'. rewrite xeff_dev in H'. apply HQ. split; [done| |cbn; congruence]. by rewrite (run_set_put v).
Qed.
Lemma at_qs s v c u ap qs : at_ s v c u ap → ∀ s', abs m s' (xeff (v <| v_qs := qs |>) c u ap) → at_ s' (v <| v_qs := qs |>) c u ap.
Proof. intros [H Ha Hf] s' H'. split; [done| |done]. by rewrite (run_set_put v). Qed.
Lemma at_upd s v c u ap i q f (Q : post unit) : at_ s v c u ap → 0 <= i → v_qs v !! Z.to_nat i = Some q → (∀ s', at_ s' (v <| v_qs := <[Z.to_nat i := f q]> (v_qs v) |>) c u ap → Q tt s') → returns (upd_queue a i f) s Q.
Proof. intros H Hi Hq HQ. eapply upd_queue_rule; [apply H|apply at_lookup|done..|]. intros s' H'. rewrite xeff_dev in H'. apply HQ. by eapply at_qs. Qed.
(** A queue is read, and perhaps written. *)
Lemma at_queue s v c u ap i q (Q : post Z) : at_ s v c u ap → 0 <= i → v_qs v !! Z.to_nat i = Some q → (∀ p, p ≠ NULL → slot s a (Z.to_nat i) p → dvqs s !! p = Some q → Q p s) → returns (virtqueue_at a i) s Q.
Proof. intros H Hi Hq HQ. rewrite <- (Z2Nat.id i Hi) at 1. eapply virtqueue_rule; [apply H|apply at_lookup|done|done]. Qed.
Lemma at_put_q s v c u ap i p q q' (Q : post unit) : at_ s v c u ap → slot s a i p → v_qs v !! i = Some q → dvqs s !! p = Some q → (∀ s', at_ s' (v <| v_qs := <[i := q']> (v_qs v) |>) c u ap → Q tt s') → returns (put_q p q') s Q.
Proof. intros H Hs Hq Hp HQ. eapply put_q_rule; [apply H|apply at_lookup|done..|]. intros s' H' _ _. rewrite xeff_dev in H'. apply HQ. by eapply at_qs. Qed.
Lemma at_close s v c u ap fd (Q : post unit) : at_ s v c u ap → (∀ s', at_ s' v (c ++ [fd]) u ap → lls s' = lls s → dvqs s' = dvqs s → Q tt s') → returns (close fd) s Q.
Proof. intros [H Ha Hf] HQ. eapply close_rule; [exact H|]. intros s' H' E1 E2 _. apply HQ; [|done..]. split; [|done..]. unfold xclose, xeff in *. cbn in *. by rewrite <- app_assoc in H'. Qed.
Lemma at_munmap s v c u ap r n (Q : post unit) : at_ s v c u ap → (∀ s', at_ s' v c (u ++ [(r, n)]) ap → Q tt s') → returns (munmap r n) s Q.
Proof. intros [H Ha Hf] HQ. eapply munmap_rule; [exact H|]. intros s' H'. apply HQ. split; [|done..]. unfold xunmap, xeff in *. cbn in *. by rewrite <- app_assoc in H'. Qed.
Lemma at_stop s v c u ap (Q : post unit) : at_ s v c u ap → (∀ s' ap', at_ s' (stop_view v) c u ap' → Q tt s') → returns (stop_if_running a) s Q.
Proof.
  intros [H Ha Hf] HQ. eapply stop_rule; [exact H|exact Ha|apply at_lookup|]. intros s' ap' H' Hf'. rewrite xeff_dev in H', Hf'. apply (HQ s' ap'). split; [exact H'|exact Hf'|]. unfold stop_view. by destruct (running (v_dev v)).
Qed.
Lemma at_mem s v c u ap mo maps s' : at_ s v c u ap → abs m s' (xdev a (v <| v_dev := (v_dev v) <| mem := mo |> |> <| v_maps := maps |>) (xeff v c u ap)) → at_ s' (v <| v_dev := (v_dev v) <| mem := mo |> |> <| v_maps := maps |>) c u ap.
Proof. intros [H Ha Hf] H'. rewrite xeff_dev in H'. split; [done| |done]. by rewrite (run_set_put v). Qed.
Lemma at_start_device s v c u ap (Q : post Z) : at_ s v c u ap → running (v_dev v) = false → (∀ r s' ap' v', at_ s' v' c u ap' → (r = 0 ∧ v' = v <| v_dev := started_flags (v_dev v) |>) ∨ (r ≠ 0 ∧ v' = v) → Q r s') → returns (notify_new_device a) s Q.
Proof.
  intros [H Ha Hf] Hr HQ. destruct (abs_view _ _ _ _ _ H (at_lookup _ _ _ _)) as (n & qs & Hn & _ & Ev). assert (Hd : v_dev v = ll_dev n) by by rewrite Ev. destruct (ab_rest _ _ _ H) as (_ & _ & _ & Happ). cbn in Happ.
  destruct (nl_new a (v_dev v) ap _ Ha) as (r & d' & ap' & Hcb & Hcase). { rewrite run_set_insert, Hr. set_solver. }
  exists r, (s <| lls := <[a := n <| ll_dev := d' |>]> (lls s) |> <| app := ap' |>). split; [unfold notify_new_device; rewrite Hn; cbn [mbind option_bind]; rewrite Happ, <- Hd, Hcb; done|].
  assert (Hrest : virtqueue d' = virtqueue (v_dev v) ∧ virt_qp_nb d' = virt_qp_nb (v_dev v) ∧ mem d' = mem (v_dev v) ∧ device_fh d' = device_fh (v_dev v)) by (destruct Hcase as [(_ & -> & _)|(_ & -> & _)]; done). destruct Hrest as (E1 & E2 & E3 & E4).
  pose proof (abs_set_dev m s _ a n v d' H (at_lookup _ _ _ _) Hn E1 E2) as H1. rewrite E3 in H1. specialize (H1 ltac:(done)). rewrite xeff_dev in H1. apply (abs_app m _ _ ap') in H1. apply (HQ r _ ap' (v <| v_dev := d' |>)).
  - split; [exact H1| |cbn; congruence]. rewrite run_set_insert in Ha |- *. rewrite Hr in Ha. cbn [v_dev alter_field]. destruct Hcase as [(_ & -> & Hok)|(_ & -> & Hok)]; [rewrite running_started|rewrite Hr]; rewrite run_set_insert, Hr in Hok; [|done]. replace ({[a]} ∪ run_set (x_devs x)) with ({[a]} ∪ run_set (x_devs x) ∖ {[a]}); [done|]. apply set_eq. intros b. destruct (decide (b = a)); set_solver.
  - destruct Hcase as [(-> & -> & _)|(? & -> & _)]; [by left|right]. split; [done|]. by destruct v.
Qed.
End step.
