(* ===== verification/VirtHandle.v ===== *)
(** * The messages as functions on devices

    [handled] says what each message does: the new state of its device, the
    descriptors closed, the ranges unmapped and the reply. [request_handled] is
    that the handlers do this, for messages that name queues the device has. *)
From S2P Require Import Prelude CStr Align Ring Mempool MempoolInit Mbuf VirtQueue VirtDev VirtUser VirtAbs VirtList VirtPairs VirtRemove VirtStep.
Open Scope Z_scope.

Definition on_queue (i : Z) (f : vhost_virtqueue → vhost_virtqueue) (v : dview) : dview := v <| v_qs := alter f (Z.to_nat i) (v_qs v) |>.
Definition freed_view (v : dview) : dview := v <| v_dev := (v_dev v) <| mem := None |> |> <| v_maps := [] |>.
(** The mappings that are undone, as descriptors and as ranges. *)
Definition undone (v : dview) : list orig_region_map := if mem (v_dev v) then filter (λ o, or_mapped_address o ≠ 0) (v_maps v) else [].
Definition map_fds (l : list orig_region_map) : list Z := or_fd <$> l.
Definition map_ranges (l : list orig_region_map) : list (Z * Z) := (λ o, (or_mapped_address o, or_mapped_size o)) <$> l.

Definition effect : Type := dview * list Z * list (Z * Z).
Definition just (v : dview) : effect := (v, [], []).

Definition features_view (offered pu : Z) (v : dview) : dview :=
  if negb (Z.land pu (u64 (Z.lnot offered)) =? 0) then v
  else v <| v_dev := (v_dev v) <| features := pu |> |> <| v_qs := (λ u, u <| vhost_hlen := header_len pu |>) <$> v_qs v |>.
Definition mem_view (an : answers) (msg : VhostUserMsg) (v : dview) : effect :=
  let w := freed_view (stop_view v) in
  let l := undone v in
  if negb (an_calloc an) then (w, map_fds l, map_ranges l) else
  match map_regions an (Z.to_nat (p_nregions msg)) 0 msg (VirtioMemory 0 0 0 []) [] with
  | Some (true, mm, os) => (w <| v_dev := (v_dev w) <| mem := Some mm |> |> <| v_maps := os |>, map_fds l, map_ranges l)
  | Some (false, _, os) => (w, map_fds (l ++ reverse os), map_ranges (l ++ reverse os))
  | None => (w, map_fds l, map_ranges l)
  end.
Definition reset_queue (i : nat) (u : vhost_virtqueue) : vhost_virtqueue := (empty_queue (Z.of_nat i / 2)) <| callfd := callfd u |>.
Definition reset_view (v : dview) : effect :=
  let w := freed_view (stop_view v) in
  (w <| v_dev := (v_dev w) <| features := 0 |> <| VirtQueue.protocol_features := 0 |> <| flags := 0 |> |> <| v_qs := imap reset_queue (v_qs v) |>,
   concat (vq_fds 0 <$> v_qs v), match mem (v_dev v) with Some mm => [(VirtQueue.mapped_address mm, VirtQueue.mapped_size mm)] | None => [] end).
Definition addr_view (addr : vhost_vring_addr) (v : dview) : dview :=
  let va (a : Z) := match mem (v_dev v) with Some mm => find_qva a (regions mm) | None => 0 end in
  let i := ad_index addr in
  let v := on_queue i (λ q, q <| desc := va (desc_user_addr addr) |>) v in
  if va (desc_user_addr addr) =? 0 then v else
  let v := on_queue i (λ q, q <| avail := va (avail_user_addr addr) |>) v in
  if va (avail_user_addr addr) =? 0 then v else on_queue i (λ q, q <| used := va (used_user_addr addr) |>) v.
Definition fd_of (fd : Z) : list Z := if 0 <=? fd then [fd] else [].
Definition queue_fd (get : vhost_virtqueue → Z) (i : Z) (v : dview) : list Z := match v_qs v !! Z.to_nat i with Some q => fd_of (get q) | None => [] end.
Definition base_view (i : Z) (v : dview) : effect :=
  let w := stop_view v in
  (on_queue i (λ q, q <| kickfd := if 0 <=? kickfd q then -1 else kickfd q |>) w, queue_fd kickfd i v, []).
Definition add_pair (b : Z) (v : dview) : dview :=
  let u := empty_queue (virt_qp_nb (v_dev v)) in v <| v_dev := with_pair (v_dev v) b |> <| v_qs := v_qs v ++ [u; u] |>.
Definition call_view (b : Z) (file : vhost_vring_file) (v : dview) : effect :=
  let i := fl_index file in
  let call v := (on_queue i (λ q, q <| callfd := fl_fd file |>) v, queue_fd callfd i v, []) in
  if i / 2 + 1 >? virt_qp_nb (v_dev v) then if b =? NULL then just v else call (add_pair b v) else call v.
Definition kick_view (file : vhost_vring_file) (v : dview) : effect :=
  (on_queue (fl_index file) (λ q, q <| kickfd := fl_fd file |>) v, queue_fd kickfd (fl_index file) v, []).
Definition queue_ready (q : vhost_virtqueue) : bool := negb (desc q =? NULL) && negb (kickfd q =? -1) && negb (callfd q =? -1).
Definition all_ready (v : dview) : bool := forallb queue_ready (v_qs v).
Definition msg_file (msg : VhostUserMsg) : vhost_vring_file := default (VringFile 0 0) (vring_file msg).
Definition first_fd (msg : VhostUserMsg) : Z := default 0 (load (fds msg) 0).

(** The effect of a message; a kick may also start the device. *)
Definition effect_of (an : answers) (offered : Z) (req : VhostUserRequest) (msg : VhostUserMsg) (v : dview) : effect :=
  match req with
  | VHOST_USER_SET_FEATURES => just (features_view offered (p_u64 msg) v)
  | VHOST_USER_SET_PROTOCOL_FEATURES => just (if negb (Z.land (p_u64 msg) (u64 (Z.lnot VHOST_USER_PROTOCOL_FEATURES)) =? 0) then v else v <| v_dev := (v_dev v) <| VirtQueue.protocol_features := p_u64 msg |> |>)
  | VHOST_USER_RESET_OWNER => reset_view v
  | VHOST_USER_SET_MEM_TABLE => mem_view an msg v
  | VHOST_USER_SET_LOG_FD => (v, [first_fd msg], [])
  | VHOST_USER_SET_VRING_ERR => (v, if Z.land (p_u64 msg) VHOST_USER_VRING_NOFD_MASK =? 0 then [first_fd msg] else [], [])
  | VHOST_USER_SET_VRING_NUM => just (on_queue (st_index (p_state msg)) (λ q, q <| vq_size := st_num (p_state msg) |>) v)
  | VHOST_USER_SET_VRING_ADDR => just (addr_view (p_addr msg) v)
  | VHOST_USER_SET_VRING_BASE => just (on_queue (st_index (p_state msg)) (λ q, q <| last_used_idx := u16 (st_num (p_state msg)) |> <| last_used_idx_res := u16 (st_num (p_state msg)) |>) v)
  | VHOST_USER_GET_VRING_BASE => base_view (st_index (p_state msg)) v
  | VHOST_USER_SET_VRING_KICK => kick_view (msg_file msg) v
  | VHOST_USER_SET_VRING_CALL => call_view (an_block an) (msg_file msg) v
  | VHOST_USER_SET_VRING_ENABLE => just (on_queue (st_index (p_state msg)) (λ q, q <| enabled := i32 (st_num (p_state msg)) |>) v)
  | _ => just v
  end.
Definition reply_of (kernel_mq : bool) (offered : Z) (req : VhostUserRequest) (msg : VhostUserMsg) (v : dview) : option VhostUserMsg :=
  match req with
  | VHOST_USER_GET_FEATURES => Some (reply_u64 msg offered)
  | VHOST_USER_GET_PROTOCOL_FEATURES => Some (reply_u64 msg VHOST_USER_PROTOCOL_FEATURES)
  | VHOST_USER_GET_QUEUE_NUM => Some (reply_u64 msg (VHOST_MAX_QUEUE_PAIRS kernel_mq))
  | VHOST_USER_GET_VRING_BASE =>
      let i := st_index (p_state msg) in
      Some (send_vhost_message (msg <| p_state := VringState i (match v_qs v !! Z.to_nat i with Some q => last_used_idx q | None => 0 end) |> <| msg_size := 8 |>))
  | _ => None
  end.
Definition started_view (v : dview) : dview := v <| v_dev := started_flags (v_dev v) |>.
Definition handled (an : answers) (offered : Z) (req : VhostUserRequest) (msg : VhostUserMsg) (v : dview) (e : effect) : Prop :=
  let '(w, c, u) := effect_of an offered req msg v in
  e = (w, c, u) ∨ (req = VHOST_USER_SET_VRING_KICK ∧ running (v_dev w) = false ∧ all_ready w = true ∧ e = (started_view w, c, u)).

(** What a message may ask of a device. *)
Definition has_queue (v : dview) (i : Z) : Prop := 0 <= i < 2 * virt_qp_nb (v_dev v).
Definition msg_ok (m : Z) (req : VhostUserRequest) (msg : VhostUserMsg) (v : dview) : Prop :=
  length (fds msg) = 8%nat ∧
  match req with
  | VHOST_USER_SET_MEM_TABLE => 0 <= p_nregions msg <= VHOST_MEMORY_MAX_NREGIONS ∧ length (p_regions msg) = 8%nat
  | VHOST_USER_SET_VRING_NUM | VHOST_USER_SET_VRING_BASE | VHOST_USER_GET_VRING_BASE | VHOST_USER_SET_VRING_ENABLE => has_queue v (st_index (p_state msg))
  | VHOST_USER_SET_VRING_ADDR => has_queue v (ad_index (p_addr msg)) ∧ is_Some (mem (v_dev v))
  | VHOST_USER_SET_VRING_KICK => has_queue v (fl_index (msg_file msg))
  | VHOST_USER_SET_VRING_CALL => fl_index (msg_file msg) / 2 <= virt_qp_nb (v_dev v) ∧ fl_index (msg_file msg) / 2 < m
  | _ => True
  end.
(** The block for a pair is new memory. *)
Definition fresh_block {App} (s : vstate App) (b : Z) : Prop := dvqs s !! b = None ∧ dvqs s !! (b + sizeof_vhost_virtqueue) = None ∧ b + sizeof_vhost_virtqueue ≠ NULL.

Section handle.
Context {App : Type} {ops : notify_ops App} {app_ok : App → gset Z → Prop} {laws : notify_laws ops app_ok} (m : Z).
Implicit Types (s : vstate App) (v : dview).
Context (an : answers) (kernel_mq : bool) (x : xstate App) (a fh : Z).
Hypothesis Hdev : by_handle x fh = Some a.
Notation at_ := (at_ (app_ok := app_ok) m x a fh).
Notation post R := (R → vstate App → Prop).
(** The call ends with the effect [e], counted from [v], [c], [u]. *)
Definition ends (c : list Z) (u : list (Z * Z)) (e : effect) s : Prop := ∃ ap, at_ s e.1.1 (c ++ e.1.2) (u ++ e.2) ap.
Lemma ends_just s v c u ap : at_ s v c u ap → ends c u (just v) s.
Proof. intros H. exists ap. by rewrite !app_nil_r. Qed.

Lemma insert_alter (l : list vhost_virtqueue) i q f : l !! i = Some q → <[i := f q]> l = alter f i l.
Proof. intros H. apply list_eq. intros j. destruct (decide (j = i)) as [->|Hne]; [rewrite list_lookup_insert_eq, list_lookup_alter_eq, H by (by eapply lookup_lt_Some); done|by rewrite list_lookup_insert_ne, list_lookup_alter_ne]. Qed.
Lemma has_queue_lookup s v c u ap i : at_ s v c u ap → has_queue v i → ∃ q, v_qs v !! Z.to_nat i = Some q.
Proof. intros H Hi. apply lookup_lt_is_Some_2. pose proof (view_queues m _ _ _ _ (at_abs _ _ _ _ _ _ _ _ _ H) (at_lookup _ _ _ _ _ _)). unfold has_queue in Hi. lia. Qed.
Lemma at_on_queue s v c u ap i f (Q : post unit) : at_ s v c u ap → has_queue v i → (∀ s', at_ s' (on_queue i f v) c u ap → Q tt s') → returns (upd_queue a i f) s Q.
Proof.
  intros H Hi HQ. destruct (has_queue_lookup _ _ _ _ _ _ H Hi) as [q Hq]. eapply at_upd; [done|apply Hi|done|]. intros s' H'. apply HQ. unfold on_queue. by rewrite <- (insert_alter _ _ q).
Qed.
Lemma on_queue_has v i j f : has_queue (on_queue i f v) j ↔ has_queue v j.
Proof. done. Qed.
Lemma on_queue_twice i f g v : on_queue i g (on_queue i f v) = on_queue i (λ q, g (f q)) v.
Proof. unfold on_queue. cbv [alter_field]. cbn. f_equal. apply list_eq. intros j. destruct (decide (j = Z.to_nat i)) as [->|Hne]; [rewrite !list_lookup_alter_eq; by destruct (v_qs v !! Z.to_nat i)|by rewrite !list_lookup_alter_ne]. Qed.
(** Every handler starts by looking the device up. *)
Lemma find_first {R} s v c u ap (k : Z → DM App R) (Q : post R) : at_ s v c u ap → returns (k a) s Q → returns (a ← get_device fh; k a) s Q.
Proof. intros H HQ. apply returns_bind. eapply at_device; [done..|]. done. Qed.

Lemma set_vring_num_rule s v c u ap st (Q : post Z) : at_ s v c u ap → has_queue v (st_index st) → (∀ s', ends c u (just (on_queue (st_index st) (λ q, q <| vq_size := st_num st |>) v)) s' → Q 0 s') → returns (set_vring_num fh st) s Q.
Proof.
  intros H Hi HQ. unfold set_vring_num. eapply find_first; [done|]. rewrite (at_not_null _ _ _ _ _ _ _ _ _ H). apply returns_bind. eapply at_on_queue; [done..|]. intros s' H'. apply returns_ret, HQ. by eapply ends_just.
Qed.
Lemma set_vring_base_rule s v c u ap st (Q : post Z) : at_ s v c u ap → has_queue v (st_index st) →
  (∀ s', ends c u (just (on_queue (st_index st) (λ q, q <| last_used_idx := u16 (st_num st) |> <| last_used_idx_res := u16 (st_num st) |>) v)) s' → Q 0 s') → returns (set_vring_base fh st) s Q.
Proof.
  intros H Hi HQ. unfold set_vring_base. eapply find_first; [done|]. rewrite (at_not_null _ _ _ _ _ _ _ _ _ H). apply returns_bind. eapply at_on_queue; [done..|]. intros s1 H1. apply returns_bind. eapply at_on_queue; [done|by apply on_queue_has|]. intros s' H'. apply returns_ret, HQ. rewrite on_queue_twice in H'. by eapply ends_just.
Qed.
Lemma set_vring_addr_rule s v c u ap addr (Q : post Z) : at_ s v c u ap → has_queue v (ad_index addr) → is_Some (mem (v_dev v)) → (∀ r s', ends c u (just (addr_view addr v)) s' → Q r s') → returns (set_vring_addr fh addr) s Q.
Proof.
  intros H Hi [mm Hm] HQ. unfold set_vring_addr. eapply find_first; [done|]. rewrite (at_not_null _ _ _ _ _ _ _ _ _ H). apply returns_bind. eapply at_get; [done|]. unfold addr_view in HQ. rewrite Hm in HQ. cbv zeta in HQ |- *.
  apply returns_bind. eapply returns_reads; [by rewrite Hm|]. apply returns_bind. eapply at_on_queue; [done..|]. intros s1 H1. destruct (find_qva (desc_user_addr addr) (regions mm) =? 0); [apply returns_ret, HQ; by eapply ends_just|].
  apply returns_bind. eapply returns_reads; [by rewrite Hm|]. apply returns_bind. eapply at_on_queue; [done|by apply on_queue_has|]. intros s2 H2. destruct (find_qva (avail_user_addr addr) (regions mm) =? 0); [apply returns_ret, HQ; by eapply ends_just|].
  apply returns_bind. eapply returns_reads; [by rewrite Hm|]. apply returns_bind. eapply at_on_queue; [done|by apply on_queue_has, on_queue_has|]. intros s3 H3. destruct (find_qva (used_user_addr addr) (regions mm) =? 0); apply returns_ret, HQ; by eapply ends_just.
Qed.
Lemma set_vring_enable_rule s v c u ap st (Q : post Z) : at_ s v c u ap → has_queue v (st_index st) → (∀ s', ends c u (just (on_queue (st_index st) (λ q, q <| enabled := i32 (st_num st) |>) v)) s' → Q 0 s') → returns (user_set_vring_enable fh st) s Q.
Proof.
  intros H Hi HQ. unfold user_set_vring_enable. eapply find_first; [done|]. cbv zeta. apply returns_bind. assert (Hdone : ∀ s1 ap', at_ s1 v c u ap' → returns (_ ← upd_queue a (st_index st) (λ q, q <| enabled := i32 (st_num st) |>); mret 0) s1 Q).
  { intros s1 ap' H1. apply returns_bind. eapply at_on_queue; [done..|]. intros s' H'. apply returns_ret, HQ. by eapply ends_just. }
  destruct cb_vring_state_changed as [f|] eqn:Ecb; [|apply returns_ret; by eapply Hdone]. destruct H as [H Ha Hf]. destruct (nl_state f a (u16 (st_index st)) (i32 (st_num st)) ap _ Ecb Ha) as (ap' & Hcb & Ha'). destruct (ab_rest _ _ _ H) as (_ & _ & _ & Happ). cbn in Happ.
  exists tt, (s <| app := ap' |>). split; [by rewrite Happ, Hcb|]. apply (Hdone _ ap'). split; [|done..]. apply (abs_app m _ _ ap' H).
Qed.
Lemma set_protocol_rule s v c u ap p (Q : post unit) : at_ s v c u ap → (∀ s', ends c u (just (if negb (Z.land p (u64 (Z.lnot VHOST_USER_PROTOCOL_FEATURES)) =? 0) then v else v <| v_dev := (v_dev v) <| VirtQueue.protocol_features := p |> |>)) s' → Q tt s') → returns (user_set_protocol_features fh p) s Q.
Proof.
  intros H HQ. unfold user_set_protocol_features. eapply find_first; [done|]. rewrite (at_not_null _ _ _ _ _ _ _ _ _ H). cbn [orb]. destruct (negb _); [apply returns_ret, HQ; by eapply ends_just|]. apply returns_bind. eapply at_get; [done|]. eapply at_put; [done..|]. intros s' H'. apply HQ. by eapply ends_just.
Qed.

(** ** Descriptors of queues *)

Lemma vring_file_ok msg : length (fds msg) = 8%nat → vring_file msg = Some (msg_file msg) ∧ 0 <= fl_index (msg_file msg).
Proof.
  intros Hl. assert (Hn : 0 <= Z.land (p_u64 msg) VHOST_USER_VRING_IDX_MASK) by (apply Z.land_nonneg; by right). unfold msg_file, vring_file. destruct (negb _); [done|]. destruct (fds msg) as [|fd l]; [done|]. done.
Qed.
Lemma swap_fd_rule s v c u ap i p q (get : vhost_virtqueue → Z) q' (Q : post unit) : at_ s v c u ap → slot s a (Z.to_nat i) p → v_qs v !! Z.to_nat i = Some q → dvqs s !! p = Some q → (∀ s', at_ s' (on_queue i (λ _, q') v) (c ++ fd_of (get q)) u ap → Q tt s') →
  returns (_ ← (if 0 <=? get q then close (get q) else mret tt); put_q p q') s Q.
Proof.
  intros H Hs Hq Hp HQ. apply returns_bind. unfold fd_of in HQ. assert (Hput : ∀ c' s', at_ s' v c' u ap → lls s' = lls s → dvqs s' = dvqs s → (∀ s2, at_ s2 (on_queue i (λ _, q') v) c' u ap → Q tt s2) → returns (put_q p q') s' Q).
  { intros c' s' H' El Ed HQ'. eapply at_put_q; [done| |done|by rewrite Ed|]. { unfold slot in *. by rewrite El. } intros s2 H2. apply HQ'. unfold on_queue. by rewrite <- (insert_alter _ _ q). }
  destruct (0 <=? get q).
  - eapply at_close; [done|]. intros s' H' El Ed. by apply (Hput (c ++ [get q])).
  - apply returns_ret. apply (Hput c); try done. by rewrite app_nil_r in HQ.
Qed.
Lemma on_queue_const i q q' f v : v_qs v !! Z.to_nat i = Some q → q' = f q → on_queue i (λ _, q') v = on_queue i f v.
Proof. intros Hq ->. unfold on_queue. cbv [alter_field]. cbn. f_equal. apply list_eq. intros j. destruct (decide (j = Z.to_nat i)) as [->|Hne]; [by rewrite !list_lookup_alter_eq, Hq|by rewrite !list_lookup_alter_ne]. Qed.
Lemma set_vring_kick_rule s v c u ap file (Q : post Z) : at_ s v c u ap → has_queue v (fl_index file) → (∀ s' ap', at_ s' (kick_view file v).1.1 (c ++ (kick_view file v).1.2) u ap' → Q 0 s') → returns (set_vring_kick fh file) s Q.
Proof.
  intros H Hi HQ. destruct (has_queue_lookup _ _ _ _ _ _ H Hi) as [q Hq]. unfold set_vring_kick. eapply find_first; [done|]. rewrite (at_not_null _ _ _ _ _ _ _ _ _ H). apply returns_bind. eapply at_queue; [done|apply Hi|done|]. intros p _ Hs Hp. apply returns_bind. eapply get_q_rule; [done|].
  apply returns_then. eapply (swap_fd_rule s v c u ap (fl_index file) p q kickfd); [done..|]. intros s' H'. apply returns_ret, (HQ s' ap). unfold kick_view, queue_fd. cbn. rewrite Hq. by rewrite <- (on_queue_const _ q (q <| kickfd := fl_fd file |>)).
Qed.
Lemma pairs_ready_rule n : ∀ i s v c u ap, at_ s v c u ap → Z.of_nat (i + n) = virt_qp_nb (v_dev v) → pairs_ready n (Z.of_nat i) a s = Some (forallb queue_ready (drop (2 * i) (v_qs v)), s).
Proof.
  induction n as [|n IH]; intros i s v c u ap H Hn.
  - pose proof (view_queues m _ _ _ _ (at_abs _ _ _ _ _ _ _ _ _ H) (at_lookup _ _ _ _ _ _)) as Hl. rewrite drop_ge by lia. done.
  - destruct (pair_index m _ _ _ _ i (at_abs _ _ _ _ _ _ _ _ _ H) (at_lookup _ _ _ _ _ _)) as (E1 & E2 & _ & _ & r & t & Hr & Ht); [lia|]. assert (Hd : drop (2 * i) (v_qs v) = r :: t :: drop (2 * S i) (v_qs v)).
    { rewrite (drop_S _ _ _ Hr). replace (S (2 * i)) with (2 * i + 1)%nat by lia. rewrite (drop_S _ _ _ Ht). do 2 f_equal. f_equal. lia. }
    assert (Hval : returns (pairs_ready (S n) (Z.of_nat i) a) s (λ b s', s' = s ∧ b = forallb queue_ready (drop (2 * i) (v_qs v)))); [|destruct Hval as (b & s' & -> & -> & ->); done]. rewrite Hd. cbn [pairs_ready]. rewrite E1, E2.
    apply returns_bind. eapply at_queue; [done|lia|by rewrite Nat2Z.id|]. intros p Hp0 _ Hp. apply returns_bind. eapply at_queue; [done|lia|by rewrite Nat2Z.id|]. intros p' Hp0' _ Hp'. apply returns_bind. unfold vq_is_ready at 1. destruct (Z.eqb_spec p NULL); [done|]. apply returns_bind. eapply get_q_rule; [done|]. apply returns_ret. cbn [forallb]. fold (queue_ready r). destruct (queue_ready r); cbn [negb andb]; [|by apply returns_ret].
    apply returns_bind. unfold vq_is_ready at 1. destruct (Z.eqb_spec p' NULL); [done|]. apply returns_bind. eapply get_q_rule; [done|]. apply returns_ret. fold (queue_ready t). destruct (queue_ready t); cbn [negb andb]; [|by apply returns_ret]. replace (Z.of_nat i + 1) with (Z.of_nat (S i)) by lia. eexists _, _. split; [eapply IH; [done|lia]|done].
Qed.
Lemma virtio_is_ready_rule s v c u ap (Q : post bool) : at_ s v c u ap → Q (all_ready v) s → returns (virtio_is_ready a) s Q.
Proof.
  intros H HQ. unfold virtio_is_ready. apply returns_bind. eapply at_get; [done|]. destruct (abs_wf m _ _ _ _ (at_abs _ _ _ _ _ _ _ _ _ H) (at_lookup _ _ _ _ _ _)) as [_ Hnb _ _]. eexists _, _. split; [eapply (pairs_ready_rule _ 0); [done|lia]|done].
Qed.
Lemma kick_rule s v c u ap msg (Q : post unit) : at_ s v c u ap → length (fds msg) = 8%nat → has_queue v (fl_index (msg_file msg)) →
  (∀ s' e, ends c u e s' → (let '(w, c', u') := kick_view (msg_file msg) v in e = (w, c', u') ∨ (running (v_dev w) = false ∧ all_ready w = true ∧ e = (started_view w, c', u'))) → Q tt s') → returns (user_set_vring_kick fh msg) s Q.
Proof.
  intros H Hl Hi HQ. destruct (vring_file_ok msg Hl) as [Hf _]. unfold user_set_vring_kick. eapply find_first; [done|]. apply returns_bind. eapply returns_reads; [done|]. apply returns_bind. eapply set_vring_kick_rule; [done..|]. intros s1 ap1 H1. set (w := (kick_view (msg_file msg) v).1.1) in *. set (c' := (kick_view (msg_file msg) v).1.2) in *. assert (Ek : kick_view (msg_file msg) v = (w, c', [])) by done. rewrite Ek in HQ.
  apply returns_bind. eapply virtio_is_ready_rule; [done|]. apply returns_bind. eapply at_get; [done|]. assert (Hend : ends c u (w, c', []) s1) by (exists ap1; cbn; by rewrite app_nil_r).
  destruct (all_ready w) eqn:Er; cbn [andb]; [|apply returns_ret; eapply HQ; [exact Hend|by left]]. destruct (running (v_dev w)) eqn:Ew; cbn [negb]; [apply returns_ret; eapply HQ; [exact Hend|by left]|].
  apply returns_bind. eapply at_start_device; [exact Hdev|exact H1|done|]. intros r s' ap' v' H' Hcase. apply returns_ret. destruct Hcase as [[-> ->]|[_ ->]].
  - eapply (HQ s' (started_view w, c', [])); [exists ap'; cbn; by rewrite app_nil_r|by right].
  - eapply (HQ s' (w, c', [])); [exists ap'; cbn; by rewrite app_nil_r|by left].
Qed.
Lemma at_alloc s v c u ap b (Q : post Z) : at_ s v c u ap → virt_qp_nb (v_dev v) < m → fresh_block s b → (b = NULL → Q (-1) s) → (b ≠ NULL → ∀ s', at_ s' (add_pair b v) c u ap → Q 0 s') → returns (alloc_vring_queue_pair b a (virt_qp_nb (v_dev v))) s Q.
Proof.
  intros [H Ha Hf] Hm (Hf1 & Hf2 & Hf3) H0 HQ. eapply (alloc_pair_rule m s _ a v b _ H (at_lookup _ _ _ _ _ _)); [done..|]. intros Hb s' H'. rewrite xeff_dev in H'. apply HQ; [done|]. split; [exact H'| |done]. by rewrite (run_set_put x a v).
Qed.
Lemma on_callfd_rule s v c u ap file (Q : post Z) : at_ s v c u ap → has_queue v (fl_index file) → (∀ s', ends c u (on_queue (fl_index file) (λ q, q <| callfd := fl_fd file |>) v, queue_fd callfd (fl_index file) v, []) s' → Q 0 s') →
  returns (q ← virtqueue_at a (fl_index file); v ← get_q q; _ ← (if 0 <=? callfd v then close (callfd v) else mret tt); _ ← put_q q (v <| callfd := fl_fd file |>); mret 0) s Q.
Proof.
  intros H Hi HQ. destruct (has_queue_lookup _ _ _ _ _ _ H Hi) as [q Hq]. apply returns_bind. eapply at_queue; [done|apply Hi|done|]. intros p _ Hs Hp. apply returns_bind. eapply get_q_rule; [done|].
  apply returns_then. eapply (swap_fd_rule s v c u ap (fl_index file) p q callfd); [done..|]. intros s' H'. apply returns_ret, HQ. exists ap. unfold queue_fd. cbn. rewrite Hq, app_nil_r. by rewrite <- (on_queue_const _ q (q <| callfd := fl_fd file |>)).
Qed.
Lemma call_rule s v c u ap file (Q : post Z) : at_ s v c u ap → 0 <= fl_index file → fl_index file / 2 <= virt_qp_nb (v_dev v) → fl_index file / 2 < m → fresh_block s (an_block an) → (∀ r s', ends c u (call_view (an_block an) file v) s' → Q r s') → returns (set_vring_call (an_block an) fh file) s Q.
Proof.
  intros H Hi Hnb Hm Hfr HQ. pose proof (Z.div_mod (fl_index file) 2 ltac:(lia)) as Hdm. pose proof (Z.mod_pos_bound (fl_index file) 2 ltac:(lia)) as Hmb. unfold set_vring_call. unfold call_view in HQ. change VIRTIO_QNUM with 2. cbv zeta in HQ |- *. eapply find_first; [done|]. rewrite (at_not_null _ _ _ _ _ _ _ _ _ H). apply returns_bind. eapply at_get; [done|]. apply returns_bind. rewrite Z.gtb_ltb in *. destruct (Z.ltb_spec (virt_qp_nb (v_dev v)) (fl_index file / 2 + 1)) as [Hlt|Hge].
  - replace (fl_index file / 2) with (virt_qp_nb (v_dev v)) by lia. eapply at_alloc; [done|lia|done|..].
    + intros Eb. rewrite Eb in HQ. cbn [Z.ltb Z.compare]. apply returns_ret, HQ. by eapply ends_just.
    + intros Eb s1 H1. cbn [Z.ltb Z.compare]. destruct (Z.eqb_spec (an_block an) NULL); [done|]. eapply on_callfd_rule; [exact H1|unfold has_queue; cbn; lia|]. intros s' H'. by eapply HQ.
  - apply returns_ret. cbn [Z.ltb Z.compare]. eapply on_callfd_rule; [done|split; lia|]. intros s' H'. by eapply HQ.
Qed.
Lemma get_vring_base_rule s v c u ap st (Q : post vhost_vring_state) : at_ s v c u ap → has_queue v (st_index st) →
  (∀ s', ends c u (base_view (st_index st) v) s' → Q (VringState (st_index st) (match v_qs v !! Z.to_nat (st_index st) with Some q => last_used_idx q | None => 0 end)) s') → returns (user_get_vring_base fh st) s Q.
Proof.
  intros H Hi HQ. unfold user_get_vring_base. eapply find_first; [done|]. rewrite (at_not_null _ _ _ _ _ _ _ _ _ H). apply returns_bind. eapply at_stop; [done..|]. intros s1 ap1 H1. assert (Eq : v_qs (stop_view v) = v_qs v) by (unfold stop_view; by destruct (running (v_dev v))). assert (Hi1 : has_queue (stop_view v) (st_index st)) by (unfold stop_view; by destruct (running (v_dev v))).
  destruct (has_queue_lookup _ _ _ _ _ _ H1 Hi1) as [q Hq]. rewrite <- Eq in HQ. rewrite Hq in HQ. apply returns_bind. unfold get_vring_base. eapply find_first; [done|]. rewrite (at_not_null _ _ _ _ _ _ _ _ _ H1). apply returns_bind. eapply at_queue; [done|apply Hi1|done|]. intros p _ Hs Hp. apply returns_bind. eapply get_q_rule; [done|]. apply returns_ret. change (default st (Some (VringState (st_index st) (last_used_idx q)))) with (VringState (st_index st) (last_used_idx q)). cbv zeta. cbn [st_index].
  apply returns_bind. eapply at_queue; [done|apply Hi1|done|]. intros p' _ Hs' Hp'. apply returns_bind. eapply get_q_rule; [done|]. apply returns_bind. unfold base_view, queue_fd in HQ. rewrite <- Eq, Hq in HQ. unfold fd_of in HQ. destruct (0 <=? kickfd q) eqn:Ek.
  - apply returns_bind. eapply at_close; [exact H1|]. intros s2 H2 El Ed. eapply at_put_q; [exact H2|unfold slot in *; by rewrite El|exact Hq|by rewrite Ed|]. intros s3 H3. apply returns_ret, HQ. exists ap1. cbn. rewrite app_nil_r. rewrite <- (on_queue_const _ q (q <| kickfd := -1 |>)); [|done|by rewrite Ek]. unfold on_queue. by rewrite <- (insert_alter _ _ q).
  - apply returns_ret, returns_ret, HQ. exists ap1. cbn. rewrite !app_nil_r. rewrite <- (on_queue_const _ q q); [|done|rewrite Ek; by destruct q]. unfold on_queue. rewrite <- (insert_alter _ _ q (λ _, q)), list_insert_id by done. by destruct (stop_view v).
Qed.

(** ** All queues *)

Lemma insert_pair {A} (l1 l2 : list A) j r t r' t' : length l1 = (2 * j)%nat → <[(2 * j + 1)%nat := t']> (<[(2 * j)%nat := r']> (l1 ++ r :: t :: l2)) = l1 ++ r' :: t' :: l2.
Proof. intros Hl. rewrite insert_app_r_alt by lia. rewrite insert_app_r_alt by lia. replace (2 * j - length l1)%nat with 0%nat by lia. replace (2 * j + 1 - length l1)%nat with 1%nat by lia. done. Qed.
Lemma pairs_update_rule s v c u ap (body : Z → DM App unit) (f : nat → vhost_virtqueue → vhost_virtqueue) (Q : post unit) : at_ s v c u ap →
  (∀ j s' w r t, at_ s' w c u ap → Z.of_nat j < virt_qp_nb (v_dev w) → v_qs w !! (2 * j)%nat = Some r → v_qs w !! (2 * j + 1)%nat = Some t →
    returns (body (Z.of_nat j)) s' (λ _ s2, at_ s2 (w <| v_qs := <[(2 * j + 1)%nat := f (2 * j + 1)%nat t]> (<[(2 * j)%nat := f (2 * j)%nat r]> (v_qs w)) |>) c u ap)) →
  (∀ s', at_ s' (v <| v_qs := imap f (v_qs v) |>) c u ap → Q tt s') → returns (for_pairs a body) s Q.
Proof.
  intros H Hbody HQ. pose proof (view_queues m _ _ _ _ (at_abs _ _ _ _ _ _ _ _ _ H) (at_lookup _ _ _ _ _ _)) as Hl. apply (for_pairs_rule m s _ a v _ (λ k s', at_ s' (v <| v_qs := imap f (take (2 * k) (v_qs v)) ++ drop (2 * k) (v_qs v) |>) c u ap) _ (at_abs _ _ _ _ _ _ _ _ _ H) (at_lookup _ _ _ _ _ _)).
  - cbn. rewrite drop_0. by destruct v.
  - intros j s' Hj Hs'. destruct (pair_index m _ _ _ _ j (at_abs _ _ _ _ _ _ _ _ _ H) (at_lookup _ _ _ _ _ _) Hj) as (_ & _ & _ & _ & r & t & Hr & Ht).
    assert (Hd : drop (2 * j) (v_qs v) = r :: t :: drop (2 * S j) (v_qs v)). { rewrite (drop_S _ _ _ Hr). replace (S (2 * j)) with (2 * j + 1)%nat by lia. rewrite (drop_S _ _ _ Ht). do 2 f_equal. f_equal. lia. }
    assert (Hlt : length (imap f (take (2 * j) (v_qs v))) = (2 * j)%nat) by (rewrite length_imap, length_take; lia). rewrite Hd in Hs'.
    eapply returns_mono; [apply (Hbody j s' _ r t Hs' Hj)|].
    + cbn [v_qs alter_field]. rewrite lookup_app_r by lia. by replace (2 * j - length (imap f (take (2 * j) (v_qs v))))%nat with 0%nat by lia.
    + cbn [v_qs alter_field]. rewrite lookup_app_r by lia. by replace (2 * j + 1 - length (imap f (take (2 * j) (v_qs v))))%nat with 1%nat by lia.
    + intros [] s2 H2. cbv beta in H2. cbn [v_qs alter_field] in H2. rewrite insert_pair in H2 by done. rewrite (take_pair _ _ r t Hr Ht), imap_app, <- app_assoc. cbn [imap app]. rewrite length_take, Nat.min_l by lia. replace (2 * j + 0)%nat with (2 * j)%nat by lia. exact H2.
  - intros s' Hs'. cbv beta in Hs'. rewrite take_ge, drop_ge, app_nil_r in Hs' by lia. by apply HQ.
Qed.
Lemma set_features_rule s v c u ap pu (Q : post Z) : at_ s v c u ap → (∀ r s', ends c u (just (features_view (x_features x) pu v)) s' → Q r s') → returns (set_features fh pu) s Q.
Proof.
  intros H HQ. unfold set_features. eapply find_first; [done|]. rewrite (at_not_null _ _ _ _ _ _ _ _ _ H). apply returns_bind. eapply returns_reads; [done|]. destruct (ab_rest _ _ _ (at_abs _ _ _ _ _ _ _ _ _ H)) as (Hfe & _). cbn in Hfe. rewrite Hfe. unfold features_view in HQ. destruct (negb _); [apply returns_ret, (HQ (-1)); by eapply ends_just|].
  apply returns_bind. eapply at_get; [done|]. apply returns_bind. eapply at_put; [done..|]. intros s1 H1. apply returns_bind. eapply (pairs_update_rule _ _ c u ap _ (λ _ q, q <| vhost_hlen := header_len pu |>) _ H1).
  - intros j s' w r t Hw Hj Hr Ht. destruct (pair_index m _ _ _ _ j (at_abs _ _ _ _ _ _ _ _ _ Hw) (at_lookup _ _ _ _ _ _) Hj) as (_ & _ & _ & E & _). cbv zeta. rewrite E. unfold VIRTIO_RXQ, VIRTIO_TXQ. apply returns_bind. eapply (at_upd m x a fh _ _ _ _ _ _ _ (λ q, q <| vhost_hlen := header_len pu |>)); [exact Hw|lia|rewrite Z.add_0_r, Nat2Z.id; exact Hr|]. intros s2 H2. rewrite Z.add_0_r, Nat2Z.id in H2.
    eapply (at_upd m x a fh _ _ _ _ _ _ _ (λ q, q <| vhost_hlen := header_len pu |>)); [exact H2|lia| |]. { replace (Z.to_nat (Z.of_nat (2 * j) + 1)) with (2 * j + 1)%nat by lia. cbn [v_qs alter_field]. rewrite list_lookup_insert_ne by lia. exact Ht. } intros s3 H3. replace (Z.to_nat (Z.of_nat (2 * j) + 1)) with (2 * j + 1)%nat in H3 by lia. exact H3.
  - intros s' H'. apply returns_ret, HQ. eapply ends_just. assert (imap (λ _ q, q <| vhost_hlen := header_len pu |>) (v_qs v) = (λ q, q <| vhost_hlen := header_len pu |>) <$> v_qs v) as Ei by (clear; induction (v_qs v); [done|cbn; by f_equal]). cbn [v_qs alter_field] in H'. rewrite Ei in H'. exact H'.
Qed.
Lemma reset_device_rule s v c u ap (Q : post unit) : at_ s v c u ap → running (v_dev v) = false →
  (∀ s', at_ s' (v <| v_dev := (v_dev v) <| features := 0 |> <| VirtQueue.protocol_features := 0 |> <| flags := 0 |> |> <| v_qs := imap reset_queue (v_qs v) |>) c u ap → Q tt s') → returns (reset_device a) s Q.
Proof.
  intros H Hr HQ. unfold reset_device. apply returns_bind. eapply at_get; [done|]. apply returns_bind. eapply at_put; [done..|]. intros s1 H1. eapply (pairs_update_rule _ _ c u ap _ reset_queue _ H1); [|exact HQ].
  assert (Hone : ∀ s' w (i : nat) q k, at_ s' w c u ap → v_qs w !! i = Some q → k = Z.of_nat i / 2 → returns (p ← virtqueue_at a (Z.of_nat i); reset_vring_queue p k) s' (λ _ s2, at_ s2 (w <| v_qs := <[i := reset_queue i q]> (v_qs w) |>) c u ap)).
  { intros s' w i q k Hw Hq ->. apply returns_bind. eapply at_queue; [exact Hw|lia|by rewrite Nat2Z.id|]. intros p _ Hs Hp. rewrite Nat2Z.id in Hs. unfold reset_vring_queue, init_vring_queue. apply returns_bind. eapply get_q_rule; [done|]. apply returns_bind.
    eapply put_q_rule; [apply Hw|apply at_lookup|exact Hs|exact Hq|exact Hp|]. intros s2 H2 Hs2 Hp2. rewrite xeff_dev in H2. apply (at_qs _ _ _ _ _ _ _ _ _ _ Hw) in H2. apply returns_bind. eapply get_q_rule; [exact Hp2|]. eapply at_put_q; [exact H2|exact Hs2|cbn; apply list_lookup_insert_eq; by eapply lookup_lt_Some|exact Hp2|]. intros s3 H3. cbn [v_qs alter_field] in H3. rewrite list_insert_insert_eq in H3. exact H3. }
  intros j s' w r t Hw Hj Hrr Htt. destruct (pair_index m _ _ _ _ j (at_abs _ _ _ _ _ _ _ _ _ Hw) (at_lookup _ _ _ _ _ _) Hj) as (_ & _ & E & _ & _). unfold reset_vring_queue_pair. rewrite E. unfold VIRTIO_RXQ, VIRTIO_TXQ. destruct (abs_wf m _ _ _ _ (at_abs _ _ _ _ _ _ _ _ _ Hw) (at_lookup _ _ _ _ _ _)) as [_ Hnb Hmm _]. rewrite !u32_small by (split; lia). rewrite Z.add_0_r. replace (Z.of_nat (2 * j) + 1) with (Z.of_nat (2 * j + 1)) by lia.
  apply returns_then. eapply returns_mono; [eapply (Hone s' w (2 * j)%nat r (Z.of_nat j) Hw Hrr); rewrite Nat2Z.inj_mul, Z.mul_comm, Z.div_mul by lia; done|]. intros [] s2 H2.
  apply (Hone s2 _ (2 * j + 1)%nat t (Z.of_nat j) H2); [cbn [v_qs alter_field]; rewrite list_lookup_insert_ne by lia; exact Htt|]. replace (Z.of_nat (2 * j + 1)) with (Z.of_nat j * 2 + 1) by lia. rewrite Z.div_add_l by lia. change (1 / 2) with 0. lia.
Qed.

(** ** The memory of the guest *)

Lemma at_origs s v c u ap : at_ s v c u ap → origs s !! a = if mem (v_dev v) then Some (v_maps v) else None.
Proof.
  intros [H _ _]. destruct (abs_view m _ _ _ _ H (at_lookup _ _ _ _ _ _)) as (n & qs & Hn & _ & Ev). pose proof (ab_maps _ _ _ H a) as Hm. rewrite Ev. cbn. destruct (mem (ll_dev n)) as [mm|] eqn:E.
  - destruct (proj2 Hm) as [os Hos]; [exists n; rewrite E; by split|]. by rewrite Hos.
  - apply eq_None_not_Some. intros Hs. apply Hm in Hs as (n' & Hn' & Hs). simplify_eq. rewrite E in Hs. by destruct Hs.
Qed.
Lemma at_no_mem s v c u ap : at_ s v c u ap → mem (v_dev v) = None → freed_view v = v.
Proof.
  intros H Hm. pose proof (at_origs _ _ _ _ _ H) as Ho. rewrite Hm in Ho. destruct H as [H _ _]. destruct (abs_view m _ _ _ _ H (at_lookup _ _ _ _ _ _)) as (n & qs & Hn & _ & Ev). rewrite Ho in Ev. rewrite Ev in Hm |- *. unfold freed_view. cbn in *. cbv [alter_field]. cbn. rewrite <- Hm. by destruct (ll_dev n).
Qed.
Lemma at_cleanup s v c u ap destroy (Q : post unit) : at_ s v c u ap →
  (∀ s', at_ s' (freed_view v) (c ++ concat (vq_fds destroy <$> v_qs v)) (u ++ match mem (v_dev v) with Some mm => [(VirtQueue.mapped_address mm, VirtQueue.mapped_size mm)] | None => [] end) ap → Q tt s') → returns (cleanup_device a destroy) s Q.
Proof.
  intros H HQ. pose proof H as [H1 Ha Hf]. eapply cleanup_device_rule; [exact H1|apply at_lookup|]. intros s' H'. apply HQ. unfold cleaned in H'. destruct (mem (v_dev v)) as [mm|] eqn:Hm.
  - split; [|by rewrite (run_set_put x a v)|done]. unfold xcloses, xdev, xunmap, xeff in *. cbn in *. rewrite insert_insert_eq, <- !app_assoc in H'. exact H'.
  - rewrite (at_no_mem _ _ _ _ _ H Hm), app_nil_r. split; [|done..]. unfold xcloses, xeff in *. cbn in *. rewrite <- app_assoc in H'. exact H'.
Qed.
Lemma at_unmap_all l : ∀ s v c u ap (Q : post unit), at_ s v c u ap → (∀ s', at_ s' v (c ++ map_fds l) (u ++ map_ranges l) ap → Q tt s') → returns (unmap_all l) s Q.
Proof.
  induction l as [|o l IH]; intros s v c u ap Q H HQ; cbn [unmap_all].
  - apply returns_ret, HQ. cbn. by rewrite !app_nil_r.
  - apply returns_bind. unfold unmap_region. apply returns_bind. eapply at_munmap; [done|]. intros s1 H1. eapply at_close; [done|]. intros s2 H2 _ _. eapply IH; [exact H2|]. intros s' H'. apply HQ. cbn. by rewrite <- !app_assoc in H'.
Qed.
Lemma undone_stop v : undone (stop_view v) = undone v.
Proof. unfold undone, stop_view. by destruct (running (v_dev v)). Qed.
Lemma at_free s v c u ap (Q : post unit) : at_ s v c u ap → (∀ s', at_ s' (freed_view v) (c ++ map_fds (undone v)) (u ++ map_ranges (undone v)) ap → Q tt s') →
  returns (match mem (v_dev v) with Some _ => _ ← free_mem_region a; free_mem a | None => mret tt end) s Q.
Proof.
  intros H HQ. pose proof (at_origs _ _ _ _ _ H) as Ho. unfold undone in HQ. destruct (mem (v_dev v)) as [mm|] eqn:Hm; [|apply returns_ret, HQ; rewrite (at_no_mem _ _ _ _ _ H Hm); cbn; by rewrite !app_nil_r].
  apply returns_bind. unfold free_mem_region. rewrite (at_not_null _ _ _ _ _ _ _ _ _ H). apply returns_bind. eapply at_get; [done|]. rewrite Hm. apply returns_bind. eapply returns_reads; [exact Ho|]. eapply at_unmap_all; [done|]. intros s1 H1. eapply free_mem_rule; [apply H1|apply at_lookup|]. intros s' H'. apply HQ. by eapply at_mem.
Qed.
Lemma user_destroy_rule s v c u ap (Q : post unit) : at_ s v c u ap → (∀ s' ap', at_ s' (freed_view (stop_view v)) (c ++ map_fds (undone v)) (u ++ map_ranges (undone v)) ap' → Q tt s') → returns (user_destroy_device fh) s Q.
Proof.
  intros H HQ. unfold user_destroy_device. eapply find_first; [done|]. rewrite (at_not_null _ _ _ _ _ _ _ _ _ H). apply returns_bind. eapply at_stop; [done..|]. intros s1 ap1 H1. apply returns_bind. eapply at_get; [done|]. eapply at_free; [done|]. intros s' H'. rewrite undone_stop in H'. by eapply HQ.
Qed.
Lemma map_regions_total msg n : ∀ idx mm os, length (p_regions msg) = 8%nat → length (fds msg) = 8%nat → 0 <= idx → idx + Z.of_nat n <= 8 → is_Some (map_regions an n idx msg mm os).
Proof.
  induction n as [|n IH]; intros idx mm os H1 H2 Hi Hn; [by eexists|]. cbn [map_regions]. unfold load. rewrite !decide_True by done. destruct (lookup_lt_is_Some_2 (p_regions msg) (Z.to_nat idx)) as [r ->]; [lia|]. destruct (lookup_lt_is_Some_2 (fds msg) (Z.to_nat idx)) as [fd ->]; [lia|]. cbn [mbind option_bind]. destruct (an_mmap an idx =? MAP_FAILED); [by eexists|]. apply IH; (done || lia).
Qed.
Lemma mem_table_rule s v c u ap msg (Q : post Z) : at_ s v c u ap → length (fds msg) = 8%nat → length (p_regions msg) = 8%nat → 0 <= p_nregions msg <= VHOST_MEMORY_MAX_NREGIONS → (∀ r s', ends c u (mem_view an msg v) s' → Q r s') → returns (user_set_mem_table an fh msg) s Q.
Proof.
  intros H Hl Hr Hn HQ. unfold user_set_mem_table. eapply find_first; [done|]. rewrite (at_not_null _ _ _ _ _ _ _ _ _ H). apply returns_bind. eapply at_stop; [done..|]. intros s1 ap1 H1. apply returns_bind. eapply at_get; [done|]. apply returns_bind. eapply at_free; [done|]. intros s2 H2. rewrite undone_stop in H2. unfold mem_view in HQ. cbv zeta in HQ. destruct (an_calloc an); cbn [negb] in *; [|apply returns_ret, HQ; by exists ap1].
  unfold VHOST_MEMORY_MAX_NREGIONS in Hn. destruct (map_regions_total msg (Z.to_nat (p_nregions msg)) 0 (VirtioMemory 0 0 0 []) []) as [[[ok mm] os] E]; [done..|lia|]. rewrite E in HQ. apply returns_bind. eapply returns_reads; [exact E|]. destruct ok.
  - eapply set_mem_rule; [apply H2|apply at_lookup|]. intros s' H'. apply HQ. exists ap1. cbn [fst snd]. by eapply at_mem.
  - apply returns_bind. eapply at_unmap_all; [exact H2|]. intros s' H'. apply returns_ret, HQ. exists ap1. cbn [fst snd]. unfold map_fds, map_ranges in *. rewrite !fmap_app. rewrite <- !app_assoc in H'. exact H'.
Qed.
Lemma reset_owner_rule s v c u ap (Q : post Z) : at_ s v c u ap → (∀ s', ends c u (reset_view v) s' → Q 0 s') → returns (reset_owner fh) s Q.
Proof.
  intros H HQ. unfold reset_owner. eapply find_first; [done|]. rewrite (at_not_null _ _ _ _ _ _ _ _ _ H). apply returns_bind. eapply at_stop; [done..|]. intros s1 ap1 H1. apply returns_bind. eapply at_cleanup; [done|]. intros s2 H2. apply returns_bind. eapply reset_device_rule; [exact H2|exact (stop_view_stopped v)|]. intros s3 H3. apply returns_ret, HQ. exists ap1. unfold reset_view. cbn [fst snd].
  assert (E : v_qs (stop_view v) = v_qs v ∧ mem (v_dev (stop_view v)) = mem (v_dev v)) by (unfold stop_view; by destruct (running (v_dev v))). destruct E as [E1 E2]. rewrite E1, E2 in H3. cbn [v_qs freed_view alter_field] in H3. rewrite E1 in H3. exact H3.
Qed.

(** ** Every message *)

Lemma request_handled s v req msg : abs m s x → app_fine (app_ok := app_ok) x → x_devs x !! a = Some v → msg_ok m req msg v → fresh_block s (an_block an) →
  returns (handle_request an kernel_mq req fh msg) s (λ r s', r = reply_of kernel_mq (x_features x) req msg v ∧ ∃ e, handled an (x_features x) req msg v e ∧ ends [] [] e s').
Proof.
  intros H Hf Hv [Hl Hok] Hfr. pose proof (at_start m x a fh Hdev s v H Hf Hv) as Hat. assert (Hj : ∀ s' w, at_ s' w [] [] (x_app x) → ends [] [] (just w) s') by (intros s' w Hw; by eapply ends_just). assert (Hfd : load (fds msg) 0 = Some (first_fd msg)) by (unfold first_fd; by destruct (fds msg)). unfold handled, silent, silent_ret.
  destruct req; cbn [handle_request effect_of reply_of] in *; try (apply returns_ret; split; [done|]; eexists; split; [by left|]; by apply Hj).
  - apply returns_bind. unfold get_features. eapply find_first; [done|]. rewrite (at_not_null _ _ _ _ _ _ _ _ _ Hat). eapply returns_reads; [done|]. destruct (ab_rest _ _ _ H) as (-> & _). apply returns_bind. eapply returns_reads; [done|]. apply returns_ret. split; [done|]. eexists. split; [by left|]. by apply Hj.
  - apply returns_bind. eapply set_features_rule; [done|]. intros r s' H'. apply returns_ret. split; [done|]. eexists. split; [by left|done].
  - apply returns_bind. unfold set_owner. eapply find_first; [done|]. rewrite (at_not_null _ _ _ _ _ _ _ _ _ Hat). apply returns_ret, returns_ret. split; [done|]. eexists. split; [by left|]. by apply Hj.
  - apply returns_bind. eapply reset_owner_rule; [done|]. intros s' H'. apply returns_ret. split; [done|]. unfold reset_view in *. cbv zeta in *. eexists. split; [by left|done].
  - destruct Hok as [Hn Hr]. apply returns_bind. eapply mem_table_rule; [done..|]. intros r s' H'. apply returns_ret. split; [done|]. revert H'. destruct (mem_view an msg v) as [[w c] u]. intros H'. eexists. split; [by left|done].
  - apply returns_bind, returns_bind. eapply returns_reads; [done|]. eapply at_close; [done|]. intros s' H' _ _. apply returns_ret. split; [done|]. eexists. split; [by left|]. by exists (x_app x).
  - apply returns_bind. eapply set_vring_num_rule; [done..|]. intros s' H'. apply returns_ret. split; [done|]. eexists. split; [by left|done].
  - destruct Hok as [Hi Hm]. apply returns_bind. eapply set_vring_addr_rule; [done..|]. intros r s' H'. apply returns_ret. split; [done|]. eexists. split; [by left|done].
  - apply returns_bind. eapply set_vring_base_rule; [done..|]. intros s' H'. apply returns_ret. split; [done|]. eexists. split; [by left|done].
  - apply returns_bind. eapply get_vring_base_rule; [done..|]. intros s' H'. apply returns_ret. split; [done|]. unfold base_view in *. cbv zeta in *. eexists. split; [by left|done].
  - apply returns_bind. eapply kick_rule; [done..|]. intros s' e H' Hcase. apply returns_ret. split; [done|]. exists e. split; [|done]. destruct (kick_view (msg_file msg) v) as [[w c] u]. destruct Hcase as [->|(H1 & H2 & ->)]; [by left|by right].
  - destruct Hok as [Hi Hm]. destruct (vring_file_ok msg Hl) as [Hvf Hge]. apply returns_bind. unfold user_set_vring_call. apply returns_bind. eapply returns_reads; [done|]. apply returns_bind. eapply call_rule; [done..|]. intros r s' H'. apply returns_ret, returns_ret. split; [done|]. revert H'. destruct (call_view (an_block an) (msg_file msg) v) as [[w c] u]. intros H'. eexists. split; [by left|done].
  - apply returns_bind. destruct (Z.land (p_u64 msg) VHOST_USER_VRING_NOFD_MASK =? 0).
    + apply returns_bind. eapply returns_reads; [done|]. eapply at_close; [done|]. intros s' H' _ _. apply returns_ret. split; [done|]. eexists. split; [by left|]. by exists (x_app x).
    + apply returns_ret, returns_ret. split; [done|]. eexists. split; [by left|]. by apply Hj.
  - apply returns_bind. eapply set_protocol_rule; [done|]. intros s' H'. apply returns_ret. split; [done|]. eexists. split; [by left|done].
  - apply returns_bind. eapply set_vring_enable_rule; [done..|]. intros s' H'. apply returns_ret. split; [done|]. eexists. split; [by left|done].
Qed.
End handle.
