(* ===== verification/VirtLife.v ===== *)
(** * The life of vhost devices

    Any sequence of connections, messages and disconnections: the structures
    stay sound, descriptors are neither lost nor closed twice, and the memory of
    a guest stays mapped while the application uses it. *)
From S2P Require Import Prelude CStr Align Ring Mempool MempoolInit Mbuf VirtQueue VirtDev VirtUser VirtAbs VirtList VirtPairs VirtRemove VirtStep VirtHandle.
From Stdlib Require Import Sorted.
Open Scope Z_scope.

(** A connection to the socket at a path, a message (or the end) of the
    connection [connfd] of the device [fh], and the application's choice of the
    features to offer. *)
Inductive event :=
  | Connect (an : answers) (path : string)
  | Receive (an : answers) (connfd fh : Z) (r : received)
  | Disable (feature_mask : Z)
  | Enable (feature_mask : Z).

Section life.
Context {App : Type} {ops : notify_ops App} {app_ok : App → gset Z → Prop} {laws : notify_laws ops app_ok} (kernel_mq : bool).
Implicit Types (s : vstate App) (x : xstate App).
Let m := VHOST_MAX_QUEUE_PAIRS kernel_mq.

Definition run_event (ev : event) : DM App unit :=
  match ev with
  | Connect an path => _ ← new_connection an kernel_mq path; mret tt
  | Receive an connfd fh r => _ ← vserver_message_handler an kernel_mq connfd fh r; mret tt
  | Disable mask => _ ← rte_vhost_feature_disable mask; mret tt
  | Enable mask => _ ← rte_vhost_feature_enable kernel_mq mask; mret tt
  end.
(** What an event may rely on: allocations give new memory, a connection has a
    device, and messages name queues the device has. *)
Definition event_ok s (ev : event) : Prop :=
  match ev with
  | Connect an _ => lls s !! an_block an = None ∧ Z.of_nat (size (lls s)) < 2 ^ 31 - 2
  | Receive an _ fh r => ∃ a v, get_device fh s = Some (a, s) ∧ view s a = Some v ∧ ∀ req, received_request r = Some req → msg_ok m req (rv_msg r) v ∧ fresh_block s (an_block an)
  | Disable _ | Enable _ => True
  end.
Definition initial (ap : App) (offered : Z) : vstate App := VState NULL ∅ ∅ ∅ offered [] [] ap.
(** Between events the application may do what keeps the devices it has. *)
Inductive reach : vstate App → Prop :=
  | reach_init ap offered : app_ok ap ∅ → reach (initial ap offered)
  | reach_step s ev s' : reach s → event_ok s ev → run_event ev s = Some (tt, s') → reach s'
  | reach_app s ap : reach s → (∀ R, app_ok (app s) R → app_ok ap R) → reach (s <| app := ap |>).

(** What holds: the state represents devices with handles of their own, and the
    application has exactly those that run. *)
Record sound s x : Prop := { so_abs : abs m s x; so_handles : handles_ok x; so_loose : x_loose x = []; so_app : app_fine (app_ok := app_ok) x }.

Lemma sound_initial ap offered : app_ok ap ∅ → sound (initial ap offered) (XState [] [] ∅ offered [] [] ap).
Proof.
  intros H. split; [|split; constructor|done|].
  - split; cbn; try done; try (intros; set_solver).
    + constructor.
    + intros a. rewrite lookup_empty. split; [set_solver|by intros []].
    + intros a i b j q (n & Hn & _). done.
    + by intros q [].
    + intros a. rewrite lookup_empty. split; [by intros []|by intros (n & Hn & _)].
  - unfold app_fine. cbn. unfold run_set. by rewrite map_filter_empty, dom_empty_L.
Qed.
Lemma sound_features s x f : sound s x → sound (s <| VHOST_FEATURES := f |>) (x <| x_features := f |>).
Proof. intros [[H1 H2 H3 H4 H5 H6 H7 H8 H9 (? & ? & ? & ?)] Hh Hlo Hf]. split; [by split|split; apply Hh|done|exact Hf]. Qed.
Lemma sound_app s x ap : sound s x → (∀ R, app_ok (app s) R → app_ok ap R) → sound (s <| app := ap |>) (xapp ap x).
Proof.
  intros [H Hh Hlo Hf] Hap. destruct (ab_rest _ _ _ H) as (_ & _ & _ & E). split; [by apply abs_app|split; apply Hh|done|]. unfold app_fine in *. cbn. apply Hap. by rewrite E.
Qed.
Lemma found s x a fh : sound s x → get_device fh s = Some (a, s) → a ≠ NULL → by_handle x fh = Some a.
Proof.
  intros H Hg Ha. destruct (get_device_rule m s x fh (λ r _, r = default NULL (by_handle x fh)) (so_abs _ _ H) eq_refl) as (r & s' & Hrun & ->). rewrite Hg in Hrun. injection Hrun as E _. subst a. destruct (by_handle x fh); done.
Qed.
Lemma handles_xeff x a fh s v c u ap : by_handle x fh = Some a → VirtStep.at_ (app_ok := app_ok) m x a fh s v c u ap → handles (xeff x a v c u ap) = handles x.
Proof.
  intros Hb [_ _ Hf]. apply list_fmap_ext. intros i b Hi. unfold fh_of, xeff. cbn. destruct (decide (b = a)) as [->|Hne]; [|by rewrite lookup_insert_ne]. rewrite lookup_insert_eq, Hf. apply by_handle_Some in Hb as [_ Hb]. by rewrite <- Hb.
Qed.
Lemma sound_at x a fh s v c u ap : handles_ok x → x_loose x = [] → by_handle x fh = Some a → VirtStep.at_ (app_ok := app_ok) m x a fh s v c u ap → sound s (xeff x a v c u ap).
Proof. intros [H1 H2] Hlo Hb Hat. pose proof (handles_xeff _ _ _ _ _ _ _ _ Hb Hat) as E. destruct Hat as [H Ha _]. split; [done|split; by rewrite E|done|exact Ha]. Qed.

(** ** One event *)

Lemma message_step s x an connfd fh r a v req : sound s x → by_handle x fh = Some a → x_devs x !! a = Some v → received_request r = Some req → msg_ok m req (rv_msg r) v → fresh_block s (an_block an) →
  ∃ s' e ap, vserver_message_handler an kernel_mq connfd fh r s = Some ((false, reply_of kernel_mq (x_features x) req (rv_msg r) v), s') ∧ handled an (x_features x) req (rv_msg r) v e ∧ sound s' (xeff x a e.1.1 e.1.2 e.2 ap).
Proof.
  intros [H Hh Hlo Hf] Hb Hv Hr Hok Hfr. destruct (request_handled m an kernel_mq x a fh Hb s v req (rv_msg r) H Hf Hv Hok Hfr) as (rep & s' & Hrun & -> & e & He & ap & Hat). exists s', e, ap. unfold vserver_message_handler, mbind, DM_bind. rewrite Hr, Hrun. split; [done|]. split; [done|]. by eapply sound_at.
Qed.
Lemma sublist_sorted (l1 l2 : list Z) a : StronglySorted Z.lt (l1 ++ a :: l2) → StronglySorted Z.lt (l1 ++ l2).
Proof. induction l1 as [|b l1 IH]; cbn; intros H; apply StronglySorted_inv in H as [H Hall]; [done|]. constructor; [by apply IH|]. rewrite Forall_app, Forall_cons in Hall. rewrite Forall_app. tauto. Qed.
Lemma gone_handles x a v l1 l2 ap : x_list x = l1 ++ a :: l2 → NoDup (x_list x) → handles_ok x → handles_ok (gone a v (l1 ++ l2) ap x).
Proof.
  intros El Hnd [Hs Hr]. assert (E : handles (gone a v (l1 ++ l2) ap x) = (fh_of x <$> l1) ++ (fh_of x <$> l2)).
  { unfold handles. assert (x_list (gone a v (l1 ++ l2) ap x) = l1 ++ l2) as -> by (unfold gone; apply removed_list). rewrite <- fmap_app. apply list_fmap_ext. intros i b Hi. apply list_elem_of_lookup_2 in Hi. unfold fh_of. rewrite gone_devs, lookup_delete_ne; [done|]. intros ->. rewrite El, <- Permutation_middle in Hnd. apply NoDup_cons in Hnd as [? _]. done. }
  unfold handles in Hs, Hr. rewrite El, fmap_app in Hs, Hr. rewrite fmap_cons in Hs, Hr. split; rewrite E; [by eapply sublist_sorted|]. rewrite Forall_app, Forall_cons in Hr. rewrite Forall_app. tauto.
Qed.
(** What the end of a connection closes: its socket and all the device had. *)
Definition view_fds (v : dview) : list Z := concat (vq_fds 1 <$> v_qs v).
Lemma leave_step s x an connfd fh r a v : sound s x → by_handle x fh = Some a → x_devs x !! a = Some v → received_request r = None →
  ∃ s' x', vserver_message_handler an kernel_mq connfd fh r s = Some ((true, None), s') ∧ sound s' x' ∧ x_devs x' = delete a (x_devs x) ∧ x_closed x' = x_closed x ++ connfd :: map_fds (undone v) ++ view_fds v ∧ x_unmapped x' = x_unmapped x ++ map_ranges (undone v) ∧
    ∃ l1 l2, x_list x = l1 ++ a :: l2 ∧ x_list x' = l1 ++ l2.
Proof.
  intros [H Hh Hlo Hf] Hb Hv Hr. pose proof (at_start m x a fh Hb s v H Hf Hv) as Hat. set (w := freed_view (stop_view v)).
  assert (Hw : stop_view w = w ∧ v_qs w = v_qs v ∧ mem (v_dev w) = None). { unfold stop_view at 1. assert (running (v_dev w) = false) as -> by exact (stop_view_stopped v). split; [done|]. split; [|done]. cbn. unfold stop_view. by destruct (running (v_dev v)). } destruct Hw as (Hw1 & Hw2 & Hw3).
  assert (returns (vserver_message_handler an kernel_mq connfd fh r) s (λ rp s', rp = (true, None) ∧ ∃ x', sound s' x' ∧ x_devs x' = delete a (x_devs x) ∧ x_closed x' = x_closed x ++ connfd :: map_fds (undone v) ++ view_fds v ∧ x_unmapped x' = x_unmapped x ++ map_ranges (undone v) ∧ ∃ l1 l2, x_list x = l1 ++ a :: l2 ∧ x_list x' = l1 ++ l2)) as Hret; [|destruct Hret as (rp & s' & Hrun & -> & x' & HQ); by exists s', x'].
  unfold vserver_message_handler. rewrite Hr. apply returns_bind. eapply at_close; [done|]. intros s1 H1 _ _. apply returns_bind. eapply user_destroy_rule; [done..|]. intros s2 ap2 H2. fold w in H2. apply returns_bind. pose proof (sound_at _ _ _ _ _ _ _ _ Hh Hlo Hb H2) as H3. set (x2 := xeff x a w (([] ++ [connfd]) ++ map_fds (undone v)) ([] ++ map_ranges (undone v)) ap2) in *.
  eapply (destroy_rule m s2 x2 fh a w); [apply H3|apply H3|apply H3|eapply at_handle; [exact Hb|exact H2]|apply at_lookup|]. intros s' l1 l2 ap El H4 Hf4. apply returns_ret. split; [done|]. exists (gone a w (l1 ++ l2) ap x2).
  assert (Hg : gone a w (l1 ++ l2) ap x2 = (xcloses (view_fds v) (unlinked a (l1 ++ l2) (xapp ap (xdev a w x2)))) <| x_loose := [] |> <| x_devs := delete a (<[a := w]> (x_devs x2)) |>) by (unfold gone, removed, cleaned, view_fds; rewrite Hw1, Hw3, Hw2; done).
  split; [split; [done| |by rewrite Hg|done]|]. { apply gone_handles; [exact El| |apply H3]. pose proof (ab_nodup _ _ _ (so_abs _ _ H3)) as Hnd. by apply NoDup_app in Hnd as (? & _). }
  split; [rewrite gone_devs; cbn; by rewrite delete_insert_eq|]. rewrite Hg. cbn. split; [by rewrite <- !app_assoc|]. split; [done|]. exists l1, l2. split; [exact El|done].
Qed.
Lemma connect_step s x an path : sound s x → lls s !! an_block an = None → Z.of_nat (size (lls s)) < 2 ^ 31 - 2 →
  (an_block an = NULL → new_connection an kernel_mq path s = Some (-1, s)) ∧
  (an_block an ≠ NULL → let h := gap 0 (handles x) in let d := (zero_device kernel_mq) <| device_fh := h |> <| ifname := strncpy "" path (Z.min (strlen path) IF_NAME_SZ) |> in
    ∃ s' x', new_connection an kernel_mq path s = Some (h, s') ∧ sound s' x' ∧ x_devs x' = <[an_block an := DView d [] []]> (x_devs x) ∧ x_list x' ≡ₚ an_block an :: x_list x ∧ x_closed x' = x_closed x ∧ x_unmapped x' = x_unmapped x).
Proof.
  intros [H Hh Hlo Hf] Hn Hlen. split; [intros E; unfold new_connection, new_device, mbind, DM_bind; by rewrite E|]. intros Hb h d. pose proof (lls_size m s x H) as Hsz.
  assert (Hret : returns (new_connection an kernel_mq path) s (λ r s', r = h ∧ ∃ x', sound s' x' ∧ x_devs x' = <[an_block an := DView d [] []]> (x_devs x) ∧ x_list x' ≡ₚ an_block an :: x_list x ∧ x_closed x' = x_closed x ∧ x_unmapped x' = x_unmapped x)); [|destruct Hret as (r & s' & Hrun & -> & x' & HQ); by exists s', x'].
  unfold new_connection. apply returns_bind. eapply returns_mono; [apply (new_device_rule m kernel_mq s x (an_block an)); [done..|lia]|]. intros r s1 (-> & l & Hl & H1 & Hh1). fold h in H1, Hh1 |- *. set (v := DView ((zero_device kernel_mq) <| device_fh := h |>) [] []) in *. set (x1 := xadd (an_block an) v l x) in *.
  pose proof (gap_bounds 0 (handles x)) as Hg. fold h in Hg. destruct (Z.eqb_spec h (-1)); [lia|].
  assert (Hna : an_block an ∉ x_list x). { intros Hin. destruct (proj1 (ab_dom _ _ _ H (an_block an))) as [? ?]; [set_solver|congruence]. }
  assert (Hf1 : app_fine (app_ok := app_ok) x1). { unfold app_fine, x1. cbn. rewrite run_set_insert. cbn. replace (run_set (x_devs x) ∖ {[an_block an]}) with (run_set (x_devs x)); [exact Hf|]. apply set_eq. intros b. rewrite elem_of_difference, not_elem_of_singleton. split; [|tauto]. intros Hbr. split; [done|]. intros ->. apply elem_of_run_set in Hbr as (v' & Hv' & _). destruct (abs_in _ _ _ _ _ H Hv') as [Hin _]. rewrite Hlo, app_nil_r in Hin. done. }
  assert (Hb1 : by_handle x1 h = Some (an_block an)). { assert (fh_of x1 (an_block an) = h) as Efh by (unfold fh_of, x1; cbn; by rewrite lookup_insert_eq). pose proof (by_handle_in x1 (an_block an) Hh1) as Hbh. rewrite Efh in Hbh. apply Hbh. cbn. rewrite Hl. set_solver. }
  pose proof (at_start m x1 (an_block an) h Hb1 s1 v H1 Hf1 (lookup_insert_eq _ _ _)) as Hat. apply returns_bind. unfold set_ifname. eapply find_first; [done..|]. rewrite (at_not_null _ _ _ _ _ _ _ _ _ Hat). cbv zeta. replace (Z.min (strlen path) IF_NAME_SZ >? IF_NAME_SZ) with false by (symmetry; rewrite Z.gtb_ltb; apply Z.ltb_ge; lia).
  apply returns_bind. eapply at_get; [done|]. eapply at_put; [done..|]. intros s' H'. apply returns_ret. split; [done|]. eexists. split; [eapply sound_at; [exact Hh1|done|exact Hb1|exact H']|]. unfold x1. cbn. rewrite !insert_insert_eq, !app_nil_r. done.
Qed.
Lemma event_step s x ev : sound s x → event_ok s ev → ∃ s' x', run_event ev s = Some (tt, s') ∧ sound s' x'.
Proof.
  intros H Hok. destruct ev as [an path|an connfd fh r|mask|mask]; cbn in Hok |- *; unfold mbind, DM_bind.
  - destruct Hok as [Hn Hlen]. destruct (connect_step s x an path H Hn Hlen) as [Hc0 Hc1]. destruct (decide (an_block an = NULL)) as [E|E]; [rewrite (Hc0 E); by exists s, x|]. destruct (Hc1 E) as (s' & x' & -> & H' & _). by exists s', x'.
  - destruct Hok as (a & v & Hg & Hvw & Hreq). rewrite <- (ab_devs _ _ _ (so_abs _ _ H)) in Hvw. destruct (abs_in _ _ _ _ _ (so_abs _ _ H) Hvw) as [_ Ha]. pose proof (found _ _ _ _ H Hg Ha) as Hb. destruct (received_request r) as [req|] eqn:Er.
    + destruct (Hreq req eq_refl) as [Hmsg Hfr]. destruct (message_step s x an connfd fh r a v req H Hb Hvw Er Hmsg Hfr) as (s' & e & ap & -> & _ & H'). by eexists _, _.
    + destruct (leave_step s x an connfd fh r a v H Hb Hvw Er) as (s' & x' & -> & H' & _). by eexists _, _.
  - eexists _, _. split; [done|]. by apply sound_features.
  - unfold rte_vhost_feature_enable. destruct (_ =? _); eexists _, _; (split; [done|]); [by apply sound_features|done].
Qed.
Lemma reach_sound s : reach s → ∃ x, sound s x.
Proof. induction 1 as [ap offered Hap|s ev s' _ [x Hx] Hok Hrun|s ap _ [x Hx] Hap]; [by eexists; apply sound_initial| |by eexists; apply sound_app]. destruct (event_step s x ev Hx Hok) as (s2 & x' & Hrun' & H'). rewrite Hrun in Hrun'. injection Hrun' as <-. by exists x'. Qed.

(** ** Handles *)

Lemma by_handle_iff x k b : handles_ok x → by_handle x k = Some b ↔ b ∈ x_list x ∧ fh_of x b = k.
Proof. intros Hh. split; [apply by_handle_Some|]. intros [Hb <-]. by apply by_handle_in. Qed.
Lemma get_device_eq s x k : sound s x → get_device k s = Some (default NULL (by_handle x k), s).
Proof. intros H. destruct (get_device_rule m s x k (λ r s', r = default NULL (by_handle x k) ∧ s' = s) (so_abs _ _ H)) as (r & s' & -> & -> & ->); done. Qed.
Lemma by_handle_same x x' k : handles_ok x → handles_ok x' → (∀ b, b ∈ x_list x ∧ fh_of x b = k ↔ b ∈ x_list x' ∧ fh_of x' b = k) → by_handle x' k = by_handle x k.
Proof.
  intros H H' E. destruct (by_handle x k) as [b|] eqn:Eb; [by apply by_handle_iff, E, by_handle_iff|]. destruct (by_handle x' k) as [b|] eqn:Eb'; [|done]. apply (by_handle_iff x' k b H'), E, (by_handle_iff x k b H) in Eb'. congruence.
Qed.

(** C17: Handles of devices: a connection gets the least handle that is free, and
    with it exactly its new device is found; when a connection ends its handle
    finds nothing any more. Neither changes what any other handle finds. *)
Theorem vhost_device_handles s : reach s →
  (∀ an path, event_ok s (Connect an path) → an_block an ≠ NULL → ∃ h s', new_connection an kernel_mq path s = Some (h, s') ∧ 0 <= h ∧ get_device h s = Some (NULL, s) ∧ get_device h s' = Some (an_block an, s') ∧
    (∀ k, 0 <= k < h → ∃ b, b ≠ NULL ∧ get_device k s = Some (b, s)) ∧ (∀ k, k ≠ h → ∃ b, get_device k s = Some (b, s) ∧ get_device k s' = Some (b, s'))) ∧
  (∀ an connfd fh r, event_ok s (Receive an connfd fh r) → received_request r = None → ∃ s', vserver_message_handler an kernel_mq connfd fh r s = Some ((true, None), s') ∧ get_device fh s' = Some (NULL, s') ∧
    (∀ k, k ≠ fh → ∃ b, get_device k s = Some (b, s) ∧ get_device k s' = Some (b, s'))).
Proof.
  intros Hr. destruct (reach_sound s Hr) as [x H]. pose proof (so_handles _ _ H) as Hh. split.
  - intros an path [Hn Hlen] Hb. destruct (connect_step s x an path H Hn Hlen) as [_ Hc]. destruct (Hc Hb) as (s' & x' & Hrun & H' & Ed & El & _). clear Hc. set (h := gap 0 (handles x)) in *. pose proof (so_handles _ _ H') as Hh'. exists h, s'. split; [done|]. split; [pose proof (gap_bounds 0 (handles x)); unfold h; lia|].
    destruct (gap_spec 0 (handles x)) as [Hg1 Hg2]; [apply Hh|eapply Forall_impl; [apply Hh|cbn; lia]|]. fold h in Hg1, Hg2.
    assert (Hna : an_block an ∉ x_list x) by (intros Hin; destruct (proj1 (ab_dom _ _ _ (so_abs _ _ H) (an_block an))) as [? ?]; [set_solver|congruence]).
    assert (Hfh : ∀ b, fh_of x' b = if decide (b = an_block an) then h else fh_of x b). { intros b. unfold fh_of. rewrite Ed. case_decide as E; [subst; by rewrite lookup_insert_eq|by rewrite lookup_insert_ne]. }
    setoid_rewrite (get_device_eq s x _ H). setoid_rewrite (get_device_eq s' x' _ H'). split_and!.
    + destruct (by_handle x h) as [b|] eqn:Eb; [|done]. apply by_handle_iff in Eb as [Hbl Hbf]; [|done]. exfalso. apply Hg1. apply list_elem_of_fmap. eauto.
    + rewrite (proj2 (by_handle_iff x' h (an_block an) Hh')); [done|]. split; [rewrite El; set_solver|]. rewrite Hfh. by rewrite decide_True.
    + intros k Hk. apply Hg2 in Hk. apply list_elem_of_fmap in Hk as (b & -> & Hbl). exists b. split; [by eapply list_not_null; [apply H|]|]. by rewrite by_handle_in.
    + intros k Hk. eexists. split; [done|]. rewrite (by_handle_same x x' k); [done|done|done|]. intros b. rewrite El, elem_of_cons, Hfh. case_decide as E; [subst b|]; naive_solver.
  - intros an connfd fh r (a & v & Hg & Hvw & _) Er. rewrite <- (ab_devs _ _ _ (so_abs _ _ H)) in Hvw. destruct (abs_in _ _ _ _ _ (so_abs _ _ H) Hvw) as [_ Ha]. pose proof (found _ _ _ _ H Hg Ha) as Hb. destruct (leave_step s x an connfd fh r a v H Hb Hvw Er) as (s' & x' & Hrun & H' & Ed & _ & _ & l1 & l2 & El & El').
    pose proof (so_handles _ _ H') as Hh'. exists s'. split; [done|]. apply by_handle_iff in Hb as [Hal Haf]; [|done]. assert (Hnd : a ∉ l1 ++ l2). { pose proof (ab_nodup _ _ _ (so_abs _ _ H)) as Hnd. apply NoDup_app in Hnd as (Hnd & _). rewrite El, <- Permutation_middle in Hnd. by apply NoDup_cons in Hnd as [? _]. }
    assert (Hfh : ∀ b, b ≠ a → fh_of x' b = fh_of x b) by (intros b Hne; unfold fh_of; by rewrite Ed, lookup_delete_ne).
    setoid_rewrite (get_device_eq s x _ H). setoid_rewrite (get_device_eq s' x' _ H'). split.
    + destruct (by_handle x' fh) as [b|] eqn:Eb; [|done]. apply by_handle_iff in Eb as [Hbl Hbf]; [|done]. rewrite El' in Hbl. assert (b ≠ a) as Hne by (intros ->; done). rewrite Hfh in Hbf by done. exfalso. apply Hne. apply (sorted_inj x b a (ho_sorted _ Hh)); [rewrite El; set_solver|done|congruence].
    + intros k Hk. eexists. split; [done|]. rewrite (by_handle_same x x' k); [done|done|done|]. intros b. rewrite El, El'. split.
      * intros [Hbl Hbf]. assert (b ≠ a) as Hne by (intros ->; congruence). rewrite Hfh by done. split; [set_solver|done].
      * intros [Hbl Hbf]. assert (b ≠ a) as Hne by (intros ->; done). rewrite Hfh in Hbf by done. split; [set_solver|done].
Qed.

(** C11: Whatever connections, well-formed messages and disconnections came
    before, in any order and for any number of devices, the next one is handled
    without a wild access, and the structures are sound: the list has the devices
    in the order of their handles, each queue belongs to one device and lies where
    the device says, mappings exist exactly for devices with a memory table, and
    the application has been given exactly the devices that are marked as
    running. A message is well formed ([msg_ok]) if it names queues the device
    has (a call descriptor may name those of the next pair, which it makes), a
    table of at most eight regions, and rings only once there is a table; the
    code does not check this. *)
Theorem vhost_sessions_safe s ev : reach s → event_ok s ev → ∃ x, sound s x ∧ ∃ s' x', run_event ev s = Some (tt, s') ∧ sound s' x'.
Proof. intros Hr Hok. destruct (reach_sound s Hr) as [x H]. exists x. split; [done|]. by eapply event_step. Qed.
End life.
