(* ===== verification/VirtFds.v ===== *)
(** * What messages leave behind

    File descriptors are neither lost nor closed twice. *)
From S2P Require Import Prelude CStr Align Ring Mempool MempoolInit Mbuf VirtQueue VirtDev VirtUser VirtAbs VirtList VirtPairs VirtRemove VirtStep VirtHandle VirtLife.
Open Scope Z_scope.

(** The descriptors a device holds, and those that come with a message. *)
Definition held (v : dview) : list Z := view_fds v ++ map_fds (undone v).
Definition with_fd (msg : VhostUserMsg) : list Z := if Z.land (p_u64 msg) VHOST_USER_VRING_NOFD_MASK =? 0 then [first_fd msg] else [].
Definition msg_fds (req : VhostUserRequest) (msg : VhostUserMsg) : list Z :=
  match req with
  | VHOST_USER_SET_VRING_CALL | VHOST_USER_SET_VRING_KICK | VHOST_USER_SET_VRING_ERR => with_fd msg
  | VHOST_USER_SET_LOG_FD => [first_fd msg]
  | VHOST_USER_SET_MEM_TABLE => take (Z.to_nat (p_nregions msg)) (fds msg)
  | _ => []
  end.
(** The system calls of the message succeed, and the owner is not reset while
    memory is mapped. *)
Definition succeeds (an : answers) (req : VhostUserRequest) (msg : VhostUserMsg) (v : dview) : Prop :=
  match req with
  | VHOST_USER_SET_MEM_TABLE => an_calloc an = true ∧ ∀ i, an_mmap an i ≠ MAP_FAILED ∧ an_mmap an i ≠ 0
  | VHOST_USER_SET_VRING_CALL => an_block an ≠ NULL ∧ 0 <= first_fd msg
  | VHOST_USER_SET_VRING_KICK => 0 <= first_fd msg
  | VHOST_USER_RESET_OWNER => mem (v_dev v) = None
  | _ => True
  end.

Lemma queue_fds_alter (l : list vhost_virtqueue) i q f : l !! i = Some q → concat (vq_fds 1 <$> alter f i l) ++ vq_fds 1 q ≡ₚ concat (vq_fds 1 <$> l) ++ vq_fds 1 (f q).
Proof.
  revert i. induction l as [|p l IH]; intros i Hi; [done|]. destruct i as [|i]; cbn in Hi |- *.
  - injection Hi as ->. rewrite <- !app_assoc. rewrite (Permutation_app_comm (concat _) (vq_fds 1 q)), (Permutation_app_comm (concat _) (vq_fds 1 (f q))). rewrite !app_assoc. apply Permutation_app_tail, Permutation_app_comm.
  - rewrite <- !app_assoc. apply Permutation_app_head. by apply IH.
Qed.
Lemma queue_fds_same (l : list vhost_virtqueue) i f : (∀ q, vq_fds 1 (f q) = vq_fds 1 q) → concat (vq_fds 1 <$> alter f i l) = concat (vq_fds 1 <$> l).
Proof. intros Hf. revert i. induction l as [|p l IH]; intros i; [done|]. destruct i as [|i]; cbn; [by rewrite Hf|by rewrite IH]. Qed.
Lemma fds_of_call q fd : vq_fds 1 (q <| callfd := fd |>) = fd_of fd ++ fd_of (kickfd q).
Proof. unfold vq_fds, fd_of. cbn. by rewrite andb_true_r. Qed.
Lemma fds_of_kick q fd : vq_fds 1 (q <| kickfd := fd |>) = fd_of (callfd q) ++ fd_of fd.
Proof. unfold vq_fds, fd_of. cbn. by rewrite andb_true_r. Qed.
Lemma fds_of q : vq_fds 1 q = fd_of (callfd q) ++ fd_of (kickfd q).
Proof. unfold vq_fds, fd_of. by rewrite andb_true_r. Qed.
Lemma held_on_queue i f v : (∀ q, vq_fds 1 (f q) = vq_fds 1 q) → held (on_queue i f v) = held v.
Proof. intros Hf. unfold held, view_fds. cbn. by rewrite queue_fds_same. Qed.
Lemma held_stop v : held (stop_view v) = held v.
Proof. unfold held. rewrite undone_stop. unfold stop_view. by destruct (running (v_dev v)). Qed.

(** A descriptor of a queue is replaced: the old one is closed. *)
Lemma held_swap i v q get fd f : v_qs v !! Z.to_nat i = Some q → (∀ q, vq_fds 1 (f q) ++ fd_of (get q) ≡ₚ vq_fds 1 q ++ fd_of fd) → held (on_queue i f v) ++ queue_fd get i v ≡ₚ held v ++ fd_of fd.
Proof.
  intros Hq Hf. unfold held, queue_fd. rewrite Hq. change (undone (on_queue i f v)) with (undone v). unfold view_fds. cbn. pose proof (queue_fds_alter (v_qs v) _ q f Hq) as H. specialize (Hf q).
  apply (Permutation_app_inv_r (vq_fds 1 q)). set (A := concat (vq_fds 1 <$> alter f (Z.to_nat i) (v_qs v))) in *. set (B := concat (vq_fds 1 <$> v_qs v)) in *. set (M := map_fds (undone v)).
  transitivity ((A ++ vq_fds 1 q) ++ M ++ fd_of (get q)); [solve_Permutation|]. rewrite H. transitivity (B ++ M ++ (vq_fds 1 (f q) ++ fd_of (get q))); [solve_Permutation|]. rewrite Hf. solve_Permutation.
Qed.
Lemma held_reset v : mem (v_dev v) = None → held (reset_view v).1.1 ++ (reset_view v).1.2 ≡ₚ held v.
Proof.
  intros Hm. unfold held, reset_view, undone, view_fds. cbn. rewrite Hm. cbn. rewrite !app_nil_r. assert (∀ k, concat (vq_fds 1 <$> imap (λ i, reset_queue (k + i)) (v_qs v)) ++ concat (vq_fds 0 <$> v_qs v) ≡ₚ concat (vq_fds 1 <$> v_qs v)) as H; [|exact (H 0%nat)].
  induction (v_qs v) as [|q l IH]; intros k; [done|]. cbn [imap fmap list_fmap concat]. specialize (IH (S k)). rewrite (imap_ext _ (λ i, reset_queue (S k + i))) by (intros i u _; cbn; by replace (k + S i)%nat with (S (k + i)) by lia).
  set (A := concat (vq_fds 1 <$> imap (λ i, reset_queue (S k + i)) l)) in *. rewrite (fds_of q). assert (vq_fds 1 (reset_queue (k + 0) q) = fd_of (callfd q)) as -> by (unfold reset_queue; rewrite fds_of_call; cbn; by rewrite app_nil_r). assert (vq_fds 0 q = fd_of (kickfd q)) as -> by (unfold vq_fds; by rewrite andb_false_r). rewrite <- IH. solve_Permutation.
Qed.

Lemma map_regions_fds an msg n : (∀ i, an_mmap an i ≠ MAP_FAILED ∧ an_mmap an i ≠ 0) → length (p_regions msg) = 8%nat → length (fds msg) = 8%nat → ∀ i mm os, (i + n <= 8)%nat → ∃ mm' os', map_regions an n (Z.of_nat i) msg mm os = Some (true, mm', os ++ os') ∧ map_fds os' = take n (drop i (fds msg)) ∧ Forall (λ o, or_mapped_address o ≠ 0) os'.
Proof.
  intros Hmm Hr Hf. induction n as [|n IH]; intros i mm os Hi; [exists mm, []; rewrite app_nil_r; by repeat constructor|]. cbn [map_regions]. rewrite !load_nat. destruct (lookup_lt_is_Some_2 (p_regions msg) i) as [r ->]; [lia|]. destruct (lookup_lt_is_Some_2 (fds msg) i) as [fd Hfd]; [lia|]. rewrite Hfd. cbn [mbind option_bind]. destruct (Hmm (Z.of_nat i)) as [H1 H2]. destruct (Z.eqb_spec (an_mmap an (Z.of_nat i)) MAP_FAILED); [done|]. cbv zeta. replace (Z.of_nat i + 1) with (Z.of_nat (S i)) by lia.
  edestruct (IH (S i)) as (mm' & os' & Hrun & Hfds & Hall); [lia|]. eexists mm', (_ :: os'). rewrite Hrun. rewrite <- app_assoc. cbn [app]. split; [done|]. split; [|by constructor]. rewrite (drop_S _ _ _ Hfd). cbn. by f_equal.
Qed.
Lemma filter_every {A} (P : A → Prop) `{∀ y, Decision (P y)} (l : list A) : Forall P l → filter P l = l.
Proof. induction 1 as [|y l Hy _ IH]; [done|]. rewrite filter_cons, decide_True, IH; done. Qed.
Lemma held_mem an msg v : an_calloc an = true → (∀ i, an_mmap an i ≠ MAP_FAILED ∧ an_mmap an i ≠ 0) → length (p_regions msg) = 8%nat → length (fds msg) = 8%nat → 0 <= p_nregions msg <= 8 →
  held (mem_view an msg v).1.1 ++ (mem_view an msg v).1.2 ≡ₚ held v ++ take (Z.to_nat (p_nregions msg)) (fds msg).
Proof.
  intros Hc Hmm Hr Hf Hn. destruct (map_regions_fds an msg (Z.to_nat (p_nregions msg)) Hmm Hr Hf 0 (VirtioMemory 0 0 0 []) []) as (mm & os & Hrun & Hfds & Hall); [lia|]. unfold mem_view. rewrite Hc. cbn [negb]. change (Z.of_nat 0) with 0 in Hrun. rewrite Hrun. cbn [app fst snd]. rewrite drop_0 in Hfds. rewrite <- Hfds.
  unfold held at 1. unfold undone at 1. cbn. rewrite (filter_every _ os Hall). assert (view_fds ((freed_view (stop_view v)) <| v_dev := (v_dev (freed_view (stop_view v))) <| mem := Some mm |> |> <| v_maps := os |>) = view_fds v) as E by (unfold view_fds, stop_view; cbn; by destruct (running (v_dev v))). cbn in E. rewrite E. unfold held. solve_Permutation.
Qed.
Lemma file_fd msg : length (fds msg) = 8%nat → 0 <= first_fd msg → fd_of (fl_fd (msg_file msg)) = with_fd msg.
Proof.
  intros Hl Hge. unfold msg_file, vring_file, with_fd, first_fd in *. destruct (fds msg) as [|fd l]; [done|]. change (load (fd :: l) 0) with (Some fd) in *. destruct (Z.land (p_u64 msg) VHOST_USER_VRING_NOFD_MASK =? 0); cbn; [|done]. cbn in Hge. unfold fd_of. by rewrite (proj2 (Z.leb_le _ _) Hge).
Qed.
Lemma held_add_pair b v : held (add_pair b v) = held v.
Proof.
  unfold held, view_fds. cbn. rewrite fmap_app, concat_app. cbn. rewrite app_nil_r. change (undone (add_pair b v)) with (undone v). done.
Qed.
Lemma held_started v : held (started_view v) = held v.
Proof. done. Qed.

Lemma effect_fds m an offered req msg v w c u : Z.of_nat (length (v_qs v)) = 2 * virt_qp_nb (v_dev v) → msg_ok m req msg v → succeeds an req msg v → handled an offered req msg v (w, c, u) → held w ++ c ≡ₚ held v ++ msg_fds req msg.
Proof.
  intros Hlen [Hl Hok] Hs He. unfold handled in He. assert (Hq : ∀ i, has_queue v i → ∃ q, v_qs v !! Z.to_nat i = Some q) by (intros i Hi; apply lookup_lt_is_Some_2; unfold has_queue in Hi; lia).
  assert (Heff : held (effect_of an offered req msg v).1.1 ++ (effect_of an offered req msg v).1.2 ≡ₚ held v ++ msg_fds req msg); [|destruct (effect_of an offered req msg v) as [[w' c'] u']; destruct He as [[= -> -> ->]|(_ & _ & _ & [= -> -> ->])]; [done|by rewrite held_started]].
  assert (Hcall : ∀ v' i q, v_qs v' !! Z.to_nat i = Some q → i = fl_index (msg_file msg) → 0 <= first_fd msg → held (on_queue i (λ q, q <| callfd := fl_fd (msg_file msg) |>) v') ++ queue_fd callfd i v' ≡ₚ held v' ++ with_fd msg).
  { intros v' i q Hq' _ Hge. rewrite <- (file_fd msg Hl Hge). eapply held_swap; [done|]. intros q'. rewrite fds_of_call, fds_of. solve_Permutation. }
  destruct req; cbn [effect_of msg_fds just fst snd succeeds] in *; rewrite ?app_nil_r; try done.
  - unfold features_view. destruct (negb _); [done|]. unfold held, view_fds. cbn. rewrite <- list_fmap_compose. done.
  - apply held_reset, Hs.
  - destruct Hok as [Hn Hr], Hs as [Hc Hmm]. by apply held_mem.
  - rewrite held_on_queue; done.
  - unfold addr_view. cbv zeta. destruct (_ =? 0); [by rewrite held_on_queue|]. destruct (_ =? 0); rewrite !held_on_queue by done; done.
  - rewrite held_on_queue; done.
  - destruct (Hq _ Hok) as [q Hqi]. unfold base_view. cbn [fst snd]. assert (queue_fd kickfd (st_index (p_state msg)) v = queue_fd kickfd (st_index (p_state msg)) (stop_view v)) as -> by (unfold stop_view; by destruct (running (v_dev v))). rewrite <- (held_stop v). rewrite <- (app_nil_r (held (stop_view v))). change [] with (fd_of (-1)). eapply held_swap; [unfold stop_view; destruct (running (v_dev v)); exact Hqi|]. intros q'. rewrite fds_of_kick, fds_of. unfold fd_of. destruct (0 <=? kickfd q') eqn:E; cbn; rewrite ?E; rewrite ?app_nil_r; done.
  - destruct (Hq _ Hok) as [q Hqi]. unfold kick_view. cbn [fst snd]. rewrite <- (file_fd msg Hl Hs). eapply held_swap; [done|]. intros q'. rewrite fds_of_kick, fds_of. solve_Permutation.
  - destruct Hok as [Hi Hm], Hs as [Hb Hge]. destruct (vring_file_ok msg Hl) as [_ Hi0]. pose proof (Z.div_mod (fl_index (msg_file msg)) 2 ltac:(lia)) as Hdm. pose proof (Z.mod_pos_bound (fl_index (msg_file msg)) 2 ltac:(lia)) as Hmb. unfold call_view. rewrite Z.gtb_ltb. destruct (Z.ltb_spec (virt_qp_nb (v_dev v)) (fl_index (msg_file msg) / 2 + 1)) as [Hlt|Hge'].
    + destruct (Z.eqb_spec (an_block an) NULL); [done|]. cbn [fst snd]. destruct (lookup_lt_is_Some_2 (v_qs (add_pair (an_block an) v)) (Z.to_nat (fl_index (msg_file msg)))) as [q Hqi]; [cbn; rewrite length_app; cbn; lia|]. rewrite (Hcall _ _ q Hqi eq_refl Hge). by rewrite held_add_pair.
    + cbn [fst snd]. destruct (Hq (fl_index (msg_file msg))) as [q Hqi]; [split; lia|]. by rewrite (Hcall _ _ q Hqi eq_refl Hge).
  - destruct (negb _); done.
  - rewrite held_on_queue; done.
Qed.

Section fds.
Context {App : Type} {ops : notify_ops App} {app_ok : App → gset Z → Prop} {laws : notify_laws ops app_ok} (kernel_mq : bool).
Implicit Types s : vstate App.
Notation reach := (reach (app_ok := app_ok) kernel_mq).

Lemma receive_step s an connfd fh r a v : reach s → event_ok kernel_mq s (Receive an connfd fh r) → get_device fh s = Some (a, s) → view s a = Some v →
  ∃ x, sound (app_ok := app_ok) kernel_mq s x ∧ by_handle x fh = Some a ∧ x_devs x !! a = Some v ∧ ∀ req, received_request r = Some req → msg_ok (VHOST_MAX_QUEUE_PAIRS kernel_mq) req (rv_msg r) v ∧ fresh_block s (an_block an).
Proof.
  intros Hr (a' & v' & Hg' & Hv' & Hreq) Hg Hv. rewrite Hg in Hg'. injection Hg' as <-. rewrite Hv in Hv'. injection Hv' as <-. destruct (reach_sound kernel_mq s Hr) as [x H]. exists x. split; [done|]. assert (Hx : x_devs x !! a = Some v) by by rewrite (ab_devs _ _ _ (so_abs _ _ _ H)). destruct (abs_in _ _ _ _ _ (so_abs _ _ _ H) Hx) as [_ Ha]. split; [by eapply found|]. done.
Qed.

(** C13: For well-formed messages ([msg_ok]) whose system calls succeed, and but
    for a reset of the owner while memory is mapped, no descriptor is lost and
    none is closed twice: after a message, what was closed and what the device holds (the eventfds of its queues, the files
    of its memory) is what was closed and held before and what came with the
    message, as multisets; the end of the connection closes its socket and all
    the device held, and the device is gone. Other devices do not change. *)
Theorem vhost_fds_accounted s an connfd fh r a v : reach s → event_ok kernel_mq s (Receive an connfd fh r) → get_device fh s = Some (a, s) → view s a = Some v →
  ∃ rep s', vserver_message_handler an kernel_mq connfd fh r s = Some (rep, s') ∧ (∀ b, b ≠ a → view s' b = view s b) ∧
    match received_request r with
    | None => rep.1 = true ∧ view s' a = None ∧ closed s' ≡ₚ closed s ++ connfd :: held v
    | Some req => rep.1 = false ∧ ∃ w, view s' a = Some w ∧ (succeeds an req (rv_msg r) v → closed s' ++ held w ≡ₚ closed s ++ held v ++ msg_fds req (rv_msg r))
    end.
Proof.
  intros Hr Hok Hg Hv. destruct (receive_step _ _ _ _ _ _ _ Hr Hok Hg Hv) as (x & H & Hb & Hx & Hreq). destruct (ab_rest _ _ _ (so_abs _ _ _ H)) as (_ & Hcl & _). destruct (received_request r) as [req|] eqn:Er.
  - destruct (Hreq req eq_refl) as [Hmsg Hfr]. destruct (message_step kernel_mq s x an connfd fh r a v req H Hb Hx Er Hmsg Hfr) as (s' & [[w c] u] & ap & Hrun & He & H'). cbn in H'. destruct (ab_rest _ _ _ (so_abs _ _ _ H')) as (_ & Hcl' & _). cbn in Hcl'. eexists _, s'. split; [done|]. split.
    { intros b Hb'. rewrite <- (ab_devs _ _ _ (so_abs _ _ _ H)), <- (ab_devs _ _ _ (so_abs _ _ _ H')). cbn. by rewrite lookup_insert_ne. }
    split; [done|]. exists w. split; [rewrite <- (ab_devs _ _ _ (so_abs _ _ _ H')); cbn; by rewrite lookup_insert_eq|]. intros Hs. rewrite Hcl, Hcl'. rewrite <- !app_assoc. apply Permutation_app_head. rewrite (Permutation_app_comm c). eapply effect_fds; [|done..]. by eapply view_queues; [apply H|].
  - destruct (leave_step kernel_mq s x an connfd fh r a v H Hb Hx Er) as (s' & x' & Hrun & H' & Ed & Ec & _). destruct (ab_rest _ _ _ (so_abs _ _ _ H')) as (_ & Hcl' & _). eexists _, s'. split; [done|]. split.
    { intros b Hb'. rewrite <- (ab_devs _ _ _ (so_abs _ _ _ H)), <- (ab_devs _ _ _ (so_abs _ _ _ H')), Ed. by rewrite lookup_delete_ne. }
    split; [done|]. split; [rewrite <- (ab_devs _ _ _ (so_abs _ _ _ H')), Ed; apply lookup_delete_eq|]. rewrite Hcl, Hcl', Ec. unfold held. solve_Permutation.
Qed.
End fds.
