(* ===== verification/VirtPmd.v ===== *)
(** * The vhost library and its driver together

    The poll-mode driver of [rte_eth_vhost.c] (file [Vhost]) is the application
    of the vhost library (file [VirtDev]): its [new_device] and [destroy_device]
    are the callbacks, and they obey the contract. So for any sequence of
    connections, messages and disconnections, the device a port sends to and
    receives from is one the library has and has started. *)
From S2P Require Import Prelude CStr Align Ring EthTable Vhost Mempool MempoolInit Mbuf VirtQueue VirtDev VirtUser VirtAbs VirtList VirtPairs VirtRemove VirtStep VirtHandle VirtLife.
Open Scope Z_scope.

(** The driver keeps the fields of a device it uses in [Vhost.devices]; name
    and flags are the library's, and [priv] is the driver's own. *)
Definition owner (w : Vhost.vhost) (a : Z) : option Z := v ← Vhost.devices w !! a; Vhost.priv v.
Definition see (a : Z) (d : virtio_net) (w : Vhost.vhost) : Vhost.vhost := Vhost.with_virtio w a (Vhost.Virtio (ifname d) (flags d) (owner w a)).
Definition seen (a : Z) (d : virtio_net) (w : Vhost.vhost) : virtio_net := d <| flags := default (flags d) (Vhost.vflags <$> Vhost.devices w !! a) |>.
#[export] Instance vhost_pmd : notify_ops Vhost.vhost := {|
  cb_new_device a d w := '(ret, w') ← Vhost.new_device (Some a) (see a d w); Some (ret, seen a d w', w');
  cb_destroy_device a d w := '(_, w') ← Vhost.destroy_device (Some a) (see a d w); Some (seen a d w', w');
  cb_vring_state_changed := None |}.

Lemma owner_see w a d b : owner (see a d w) b = owner w b.
Proof. unfold owner at 1, see, Vhost.with_virtio. cbn. destruct (decide (b = a)) as [->|Hne]; [by rewrite lookup_insert_eq|by rewrite lookup_insert_ne]. Qed.
Lemma owner_with w a v b : owner (Vhost.with_virtio w a v) b = if decide (b = a) then Vhost.priv v else owner w b.
Proof. unfold owner, Vhost.with_virtio. cbn. case_decide as E; [subst; by rewrite lookup_insert_eq|by rewrite lookup_insert_ne]. Qed.

(** The ports are as [Vhost.serves] says, none is in a burst, and a port with a
    device has one of [R], which knows the port. *)
Record pmd_ok (w : Vhost.vhost) (R : gset Z) : Prop := {
  po_ok : Vhost.vhost_ok w;
  po_ports : ∀ i, Z.of_nat i ∈ Vhost.internals_list w → ∃ dev rq tq, Vhost.serves w i dev rq tq ∧ Vhost.rx_executing rq = 0 ∧ Vhost.tx_executing tq = 0 ∧
    ∀ a, dev = Some a → a ∈ R ∧ owner w a = Some (Z.of_nat i);
  po_run : ∀ a, a ∈ R → ∃ i, Z.of_nat i ∈ Vhost.internals_list w ∧ owner w a = Some (Z.of_nat i);
  po_idle : ∀ a, a ∉ R → owner w a = None }.

Lemma port_frame w w' j d x int : rte_eth_devices (Vhost.veth w') !! j = rte_eth_devices (Vhost.veth w) !! j → Vhost.vhost_port w j d x int → Vhost.vhost_port w' j d x int.
Proof. intros E []. split; try done. congruence. Qed.
Lemma serves_frame w w' j dev rq tq : rte_eth_devices (Vhost.veth w') !! j = rte_eth_devices (Vhost.veth w) !! j → Vhost.serves w j dev rq tq → Vhost.serves w' j dev rq tq.
Proof. intros E (d & x & int & H & HS). exists d, x, int. split; [by eapply port_frame|done]. Qed.
Lemma pmd_ok_see w R a d : pmd_ok w R → pmd_ok (see a d w) R.
Proof.
  intros [H1 H2 H3 H4]. split; [by apply (Vhost.vhost_ok_ext w)| | |].
  - intros i Hi. destruct (H2 i Hi) as (dev & rq & tq & Hs & ? & ? & Ho). exists dev, rq, tq. split_and!; [by apply (serves_frame w)|done..|]. intros b ->. rewrite owner_see. by apply Ho.
  - intros b Hb. setoid_rewrite owner_see. by apply H3.
  - intros b Hb. rewrite owner_see. by apply H4.
Qed.
Lemma serves_quiet w i d x int dev rq tq : Vhost.vhost_port w i d x int → Vhost.serves w i dev rq tq → Vhost.rx_executing rq = 0 → Vhost.tx_executing tq = 0 → Vhost.quiet int.
Proof. intros H (d' & x' & int' & H' & Hr & Ht & _) E1 E2. destruct (Vhost.port_unique _ _ _ _ _ _ _ _ H H') as (_ & _ & ->). split; intros q Hq; congruence. Qed.
Lemma listed_port w i : Vhost.vhost_ok w → Z.of_nat i ∈ Vhost.internals_list w → ∃ d x int, Vhost.vhost_port w i d x int.
Proof. intros H Hi. destruct (Vhost.vo_list _ H _ Hi) as (j & d & x & int & E & Hp). apply Nat2Z.inj in E as ->. eauto. Qed.

(** After a callback changed port [i] and the device [a]. *)
Lemma pmd_ok_change w w' R R' i a d x x' int int' v' dev' rq' tq' : pmd_ok w R → Z.of_nat i ∈ Vhost.internals_list w → Vhost.vhost_port w i d x int →
  name x' = name x → port_id x' = port_id x → dev_private x' = Some int' → Vhost.dev_name int' = Vhost.dev_name int → Vhost.queues_ok int' →
  w' = Vhost.with_virtio (Vhost.set_port w i d x') a v' →
  Vhost.serves w' i dev' rq' tq' → Vhost.rx_executing rq' = 0 → Vhost.tx_executing tq' = 0 →
  (dev' = None ∨ dev' = Some a) → (∀ b, b ≠ a → b ∈ R' ↔ b ∈ R) → (a ∈ R ↔ owner w a = Some (Z.of_nat i)) →
  (a ∈ R' ∧ dev' = Some a ∧ Vhost.priv v' = Some (Z.of_nat i) ∨ a ∉ R' ∧ dev' = None ∧ Vhost.priv v' = None) → pmd_ok w' R'.
Proof.
  intros [H1 H2 H3 H4] Hi H Hn Hp Hx Hdn Hq -> Hs Hrq Htq Hdev HR Ha HR'. destruct (Vhost.callback_port w i d x int x' int' a v' H1 H Hn Hp Hx Hdn Hq) as (Hok & _ & _ & Hoth). split; [done| | |].
  - intros j Hj. destruct (decide (j = i)) as [->|Hne].
    + exists dev', rq', tq'. split_and!; [done..|]. intros b ->. destruct Hdev as [?|[= ->]]; [done|]. rewrite owner_with, decide_True by done. destruct HR' as [(? & _ & ?)|(_ & ? & _)]; [by split|done].
    + destruct (H2 j Hj) as (dev & rq & tq & Hsj & ? & ? & Ho). exists dev, rq, tq. split_and!; [by eapply serves_frame; [apply Hoth|]|done..|]. intros b ->. destruct (Ho b eq_refl) as [Hb Hob]. rewrite owner_with. case_decide as E.
      * subst b. apply Ha in Hb. rewrite Hob in Hb. injection Hb as E. by apply Nat2Z.inj in E.
      * split; [by apply HR|done].
  - intros b Hb. setoid_rewrite owner_with. case_decide as E; [subst b; exists i; by destruct HR' as [(? & _ & ?)|(? & _)]|]. apply H3. by apply HR.
  - intros b Hb. rewrite owner_with. case_decide as E; [subst b; by destruct HR' as [(? & _)|(_ & _ & ?)]|]. apply H4. by rewrite <- HR.
Qed.
Lemma seen_with a d w v : seen a d (Vhost.with_virtio w a v) = d <| flags := Vhost.vflags v |>.
Proof. unfold seen, Vhost.with_virtio. cbn. by rewrite lookup_insert_eq. Qed.

Lemma pmd_new a d w R : pmd_ok w R → a ∉ R → ∃ r d' w', cb_new_device a d w = Some (r, d', w') ∧ ((r = 0 ∧ d' = started_flags d ∧ pmd_ok w' ({[a]} ∪ R)) ∨ (r ≠ 0 ∧ d' = d ∧ pmd_ok w' R)).
Proof.
  intros H Ha. pose proof (pmd_ok_see w R a d H) as H0. set (w0 := see a d w) in *. pose proof (po_ok _ _ H0) as Hok. set (v := Vhost.Virtio (ifname d) (flags d) (owner w a)).
  assert (Hv : Vhost.devices w0 !! a = Some v) by apply lookup_insert_eq. cbn [cb_new_device vhost_pmd]. fold w0.
  destruct (head (filter (Vhost.has_iface w0 (Vhost.ifname v)) (Vhost.internals_list w0))) as [p|] eqn:Hf.
  - destruct (Vhost.head_filter_port _ _ _ Hok Hf) as (i & dd & x & int & -> & Hp & _). pose proof Hf as Hin. apply head_Some_elem_of, list_elem_of_filter in Hin as [_ Hin]. pose proof (Vhost.vp_queues _ _ _ _ _ Hp) as Hq. destruct (Vhost.port_queues int Hq) as (rq & tq & Hr & Ht).
    rewrite (Vhost.new_device_run w0 a v i dd x int Hok Hv Hf Hp). cbn [mbind option_bind]. eexists _, _, _. split; [done|]. left. rewrite seen_with. split; [done|]. split; [done|].
    destruct (po_ports _ _ H0 i Hin) as (dev & rq0 & tq0 & Hs & E1 & E2 & _). pose proof (serves_quiet _ _ _ _ _ _ _ _ Hp Hs E1 E2) as [Q1 Q2].
    destruct (Vhost.callback_port w0 i dd x int (Vhost.connected a x int) ((Vhost.all_queues (Vhost.attach a) int) <| Vhost.xfer := 1 |>) a (v <| Vhost.vflags := Z.lor (Vhost.vflags v) Vhost.VIRTIO_DEV_RUNNING |> <| Vhost.priv := Some (Z.of_nat i) |>) Hok Hp) as (_ & _ & Hp' & _); try done; [by apply Vhost.all_queues_ok|].
    eapply (pmd_ok_change w0 _ R ({[a]} ∪ R) i a dd x (Vhost.connected a x int) int); [done..|by apply Vhost.all_queues_ok|done|by eapply Vhost.serves_connected|cbn; by apply Q1|cbn; by apply Q2|by right|set_solver| |left; split; [set_solver|done]].
    split; [done|]. intros E. by rewrite (po_idle _ _ H0 a Ha) in E.
  - assert (Vhost.new_device (Some a) w0 = Some (-1, w0)) as ->. { unfold Vhost.new_device. erewrite Vhost.vbind by (unfold Vhost.get_virtio; by rewrite Hv). erewrite Vhost.vbind by (by apply Vhost.find_resource_run). by rewrite Hf. }
    cbn [mbind option_bind]. eexists _, _, _. split; [done|]. right. split; [done|]. split; [|done]. unfold seen. rewrite Hv. by destruct d.
Qed.
Lemma pmd_destroy a d w R : pmd_ok w R → a ∈ R → ∃ w', cb_destroy_device a d w = Some (stopped_flags d, w') ∧ pmd_ok w' (R ∖ {[a]}).
Proof.
  intros H Ha. pose proof (pmd_ok_see w R a d H) as H0. set (w0 := see a d w) in *. pose proof (po_ok _ _ H0) as Hok. set (v := Vhost.Virtio (ifname d) (flags d) (owner w a)).
  assert (Hv : Vhost.devices w0 !! a = Some v) by apply lookup_insert_eq. cbn [cb_destroy_device vhost_pmd]. fold w0. destruct (po_run _ _ H0 a Ha) as (i & Hin & Ho). destruct (listed_port w0 i Hok Hin) as (dd & x & int & Hp).
  assert (Hpr : Vhost.priv v = Some (Z.of_nat i)) by (unfold owner in Ho; by rewrite Hv in Ho). pose proof (Vhost.vp_queues _ _ _ _ _ Hp) as Hq. destruct (Vhost.port_queues int Hq) as (rq & tq & Hr & Ht).
  destruct (po_ports _ _ H0 i Hin) as (dev & rq0 & tq0 & Hs & E1 & E2 & _). pose proof (serves_quiet _ _ _ _ _ _ _ _ Hp Hs E1 E2) as HQ. destruct (Vhost.quiet_zero int Hq HQ) as [Z1 Z2]. destruct HQ as [Q1 Q2].
  rewrite (Vhost.destroy_device_run w0 a v i dd x int Hv Hpr Hp Z1 Z2). cbn [mbind option_bind]. eexists. rewrite seen_with. split; [done|].
  destruct (Vhost.callback_port w0 i dd x int (Vhost.disconnected x int) ((Vhost.all_queues Vhost.detach int) <| Vhost.xfer := 0 |>) a (v <| Vhost.priv := None |> <| Vhost.vflags := Z.land (Vhost.vflags v) (Z.lnot Vhost.VIRTIO_DEV_RUNNING) |>) Hok Hp) as (_ & _ & Hp' & _); try done; [by apply Vhost.all_queues_ok|].
  eapply (pmd_ok_change w0 _ R (R ∖ {[a]}) i a dd x (Vhost.disconnected x int) int); [done..|by apply Vhost.all_queues_ok|done|by eapply Vhost.serves_disconnected|cbn; by apply Q1|cbn; by apply Q2|by left|set_solver| |right; split; [set_solver|done]].
  done.
Qed.
#[export] Instance vhost_pmd_laws : notify_laws vhost_pmd pmd_ok.
Proof. split; [intros; by apply pmd_new|intros; by apply pmd_destroy|done]. Qed.

(** ** Ports made meanwhile *)

Lemma fresh_serves rxq txq pool nm iface index w i : Vhost.fresh_port rxq txq (λ q, q <| Vhost.mb_pool := pool |>) nm iface index w i →
  Vhost.serves w i None (Vhost.zero_queue <| Vhost.mb_pool := pool |>) (Vhost.zero_queue <| Vhost.mb_pool := pool |>).
Proof. intros (d & x & int & H & _ & _ & _ & Hx & Hl & _ & _ & _ & Hr & Ht). exists d, x, int. by split_and!. Qed.
Lemma pmd_ok_create w w' R : pmd_ok w R → Vhost.vhost_ok w' → Vhost.devices w' = Vhost.devices w →
  (∀ j, Z.of_nat j ∈ Vhost.internals_list w → rte_eth_devices (Vhost.veth w') !! j = rte_eth_devices (Vhost.veth w) !! j) →
  (Vhost.internals_list w' = Vhost.internals_list w ∨ ∃ i q, Vhost.internals_list w' = Vhost.internals_list w ++ [Z.of_nat i] ∧ Vhost.serves w' i None q q ∧ Vhost.rx_executing q = 0 ∧ Vhost.tx_executing q = 0) → pmd_ok w' R.
Proof.
  intros [H1 H2 H3 H4] Hok Hd Hfr Hl. assert (Ho : ∀ b, owner w' b = owner w b) by (intros b; unfold owner; by rewrite Hd). assert (Hsub : ∀ p, p ∈ Vhost.internals_list w → p ∈ Vhost.internals_list w') by (intros p Hp; destruct Hl as [->|(i & q & -> & _)]; set_solver). split; [done| | |].
  - intros j Hj. destruct (decide (Z.of_nat j ∈ Vhost.internals_list w)) as [Hin|Hni].
    + destruct (H2 j Hin) as (dev & rq & tq & Hs & ? & ? & HR). exists dev, rq, tq. split_and!; [by apply (serves_frame w); [apply Hfr|]|done..|]. intros a ->. rewrite Ho. by apply HR.
    + destruct Hl as [E|(i & q & E & Hs & ? & ?)]; [by rewrite E in Hj|]. rewrite E in Hj. apply elem_of_app in Hj as [?|Hj]; [done|]. apply list_elem_of_singleton, Nat2Z.inj in Hj as ->. by exists None, q, q.
  - intros a Ha. destruct (H3 a Ha) as (i & Hi & E). exists i. rewrite Ho. auto.
  - intros a Ha. rewrite Ho. by apply H4.
Qed.
Lemma pmd_from_vhost register nm index iface numa pool mem w R : pmd_ok w R → strlen nm < RTE_ETH_NAME_MAX_LEN → ∃ ret w', Vhost.rte_eth_from_vhost register nm index iface numa pool mem w = Some (ret, w') ∧ pmd_ok w' R.
Proof.
  intros H Hnm. unfold Vhost.rte_eth_from_vhost, Vhost.rte_eth_from_vhost_create. set (before := [Vhost.BRxQueues; Vhost.BTxQueues]). destruct (Vhost.all_allocated before mem) eqn:Ha.
  - destruct (Vhost.vhost_create_run register pool before (Some [Some (Vhost.RxVhost 0)]) (Some [Some (Vhost.TxVhost 0)]) (λ q, q <| Vhost.mb_pool := pool |>) nm iface index numa mem w (po_ok _ _ H) Hnm Ha) as (ret & live & w' & E & Hok & Hd & Hfr & Hm).
    erewrite Vhost.vbind by exact E. cbv beta iota. exists (if 0 <=? ret then if register iface <? 0 then register iface else ret else ret), w'. split; [by destruct (0 <=? ret); [destruct (register iface <? 0)|]|]. eapply pmd_ok_create; [done..|].
    destruct (fst (spec_allocate _ nm)) as [i|]; [|left; apply Hm]. destruct Hm as [_ Hm]. destruct (mem Vhost.BDevName && mem Vhost.BIfaceName); [|left; apply Hm]. destruct Hm as (_ & El & _ & Hfp). right. eexists i, _. split; [done|]. split; [by eapply fresh_serves|done].
  - destruct (Vhost.create_no_memory register pool before (Some [Some (Vhost.RxVhost 0)]) (Some [Some (Vhost.TxVhost 0)]) (λ q, q <| Vhost.mb_pool := pool |>) nm iface index numa mem w Ha) as (live & E & _).
    erewrite Vhost.vbind by exact E. by exists (-1), w.
Qed.

Notation pmd_reach := (reach (app_ok := pmd_ok)).
(** C12: Ports never use a device that is gone: after any sequence of
    connections, well-formed messages ([msg_ok]), disconnections and ports made
    in between, a port of
    the driver is either down, and its bursts do not enter the vhost library, or
    both its queues move packets to and from a device that the library has on
    its list, that is marked as running and that knows the port. Making a port
    for another socket and the next event lead to such a state again. *)
Theorem vhost_ports_live kernel_mq s : pmd_reach kernel_mq s →
  (∀ i, Z.of_nat i ∈ Vhost.internals_list (app s) → ∃ dev rq tq, Vhost.serves (app s) i dev rq tq ∧
    ∀ a, dev = Some a → ∃ n, lls s !! a = Some n ∧ running (ll_dev n) = true ∧ get_device (device_fh (ll_dev n)) s = Some (a, s) ∧ owner (app s) a = Some (Z.of_nat i)) ∧
  (∀ register nm index iface numa pool mem, strlen nm < RTE_ETH_NAME_MAX_LEN → ∃ ret w', Vhost.rte_eth_from_vhost register nm index iface numa pool mem (app s) = Some (ret, w') ∧ pmd_reach kernel_mq (s <| app := w' |>)) ∧
  (∀ ev, event_ok kernel_mq s ev → ∃ s', run_event kernel_mq ev s = Some (tt, s') ∧ pmd_reach kernel_mq s').
Proof.
  intros Hr. destruct (reach_sound kernel_mq s Hr) as [x H]. destruct (ab_rest _ _ _ (so_abs _ _ _ H)) as (_ & _ & _ & Eap). assert (Hpo : pmd_ok (app s) (run_set (x_devs x))) by (rewrite Eap; apply (so_app _ _ _ H)). split_and!.
  - intros i Hi. destruct (po_ports _ _ Hpo i Hi) as (dev & rq & tq & Hs & _ & _ & Hd). exists dev, rq, tq. split; [done|]. intros a ->. destruct (Hd a eq_refl) as [Ha Ho]. apply elem_of_run_set in Ha as (v & Hv & Hrun). destruct (abs_view _ _ _ _ _ (so_abs _ _ _ H) Hv) as (n & qs & Hn & _ & Ev). assert (E : v_dev v = ll_dev n) by by rewrite Ev.
    exists n. rewrite <- E. split_and!; [done|done| |done]. rewrite (get_device_eq kernel_mq s x) by done. destruct (abs_in _ _ _ _ _ (so_abs _ _ _ H) Hv) as [Hin _]. rewrite (so_loose _ _ _ H), app_nil_r in Hin. pose proof (by_handle_in x a (so_handles _ _ _ H) Hin) as Hb. unfold fh_of in Hb. rewrite Hv in Hb. cbn in Hb. by rewrite Hb.
  - intros register nm index iface numa pool mem Hnm. destruct (pmd_from_vhost register nm index iface numa pool mem _ _ Hpo Hnm) as (ret & w' & E & _). exists ret, w'. split; [done|]. apply reach_app; [done|]. intros R HR. destruct (pmd_from_vhost register nm index iface numa pool mem _ _ HR Hnm) as (ret' & w2 & E' & Hok'). rewrite E in E'. by injection E' as <- <-.
  - intros ev Hev. destruct (event_step kernel_mq s x ev H Hev) as (s' & x' & Hrun & _). exists s'. split; [done|]. by eapply reach_step.
Qed.
