(* ===== verification/VirtSession.v ===== *)
(** * Sessions of guests, run

    A guest of the vhost driver connects, sends its memory and its rings, runs
    and leaves; and the messages that the vhost library does not check. *)
From S2P Require Import Prelude CStr Align Ring EthTable Vhost Mempool MempoolInit Mbuf VirtQueue VirtDev VirtUser VirtAbs VirtList VirtPairs VirtRemove VirtStep VirtHandle VirtLife VirtFds VirtPmd.
Open Scope Z_scope.

(** ** Checking events *)

#[export] Instance has_queue_dec v i : Decision (has_queue v i).
Proof. unfold has_queue. apply _. Defined.
#[export] Instance msg_ok_dec m req msg v : Decision (msg_ok m req msg v).
Proof. unfold msg_ok. apply and_dec; [apply _|]. destruct req; apply _. Defined.

Section check.
Context {App : Type} {ops : notify_ops App} {app_ok : App → gset Z → Prop} (kernel_mq : bool).
Implicit Types s : vstate App.

#[export] Instance fresh_block_dec s b : Decision (fresh_block s b).
Proof. unfold fresh_block. repeat apply and_dec; try apply not_dec; try apply option_eq_None_dec; apply _. Defined.
Definition event_okb s (ev : event) : bool :=
  match ev with
  | Connect an _ => match lls s !! an_block an with None => Z.of_nat (size (lls s)) <? 2 ^ 31 - 2 | Some _ => false end
  | Receive an _ fh r =>
      match get_device fh s with
      | Some (a, _) =>
          match view s a, received_request r with
          | Some v, Some req => bool_decide (msg_ok (VHOST_MAX_QUEUE_PAIRS kernel_mq) req (rv_msg r) v) && bool_decide (fresh_block s (an_block an))
          | Some _, None => true
          | None, _ => false
          end
      | None => false
      end
  | Disable _ | Enable _ => true
  end.
Lemma event_okb_sound s ev : event_okb s ev = true → event_ok kernel_mq s ev.
Proof.
  unfold event_okb, event_ok. destruct ev as [an path|an connfd fh r|mask|mask]; [| |done..].
  - destruct (lls s !! an_block an); [done|]. intros H. apply Z.ltb_lt in H. done.
  - unfold get_device, get_config_ll_entry, reads. destruct (find_ll _ _ _ _) as [a|]; [|done]. cbn. destruct (view s a) as [v|] eqn:Hv; [|done]. intros H. exists a, v. split; [done|]. split; [done|]. intros req Hr. rewrite Hr in H. apply andb_true_iff in H as [H1%bool_decide_eq_true H2%bool_decide_eq_true]. done.
Qed.
Lemma get_device_is s fh a : fst <$> get_device fh s = Some a → get_device fh s = Some (a, s).
Proof. unfold get_device, get_config_ll_entry, reads. destruct (find_ll _ _ _ _); cbn; [by intros [= ->]|done]. Qed.
Fixpoint run_events (evs : list event) s : option (vstate App) :=
  match evs with
  | [] => Some s
  | ev :: evs => if event_okb s ev then match run_event kernel_mq ev s with Some (_, s') => run_events evs s' | None => None end else None
  end.
Lemma run_events_reach evs s s' : reach (app_ok := app_ok) kernel_mq s → run_events evs s = Some s' → reach (app_ok := app_ok) kernel_mq s'.
Proof.
  revert s. induction evs as [|ev evs IH]; intros s Hr; cbn; [by intros [= <-]|]. destruct (event_okb s ev) eqn:E; [|done]. apply event_okb_sound in E. destruct (run_event kernel_mq ev s) as [[[] s1]|] eqn:Hrun; [|done]. apply IH. by eapply reach_step.
Qed.
End check.

(** ** A session *)

Definition no_answers : answers := Answers 0 true (λ _, 0) (λ _, 4096).
Definition block_answer (b : Z) : answers := Answers b true (λ _, 0) (λ _, 4096).
(** The eight descriptors of a message, the first of which are given. *)
Definition eight (l : list Z) : list Z := l ++ replicate (8 - length l) 0.
Definition empty_regions : list VhostUserMemoryRegion := replicate 8 (UserRegion 0 0 0 0).
Definition message (req size u64 : Z) (st : vhost_vring_state) (ad : vhost_vring_addr) (nregions : Z) (rs : list VhostUserMemoryRegion) (l : list Z) : received :=
  Received 12 false (UserMsg req 1 size u64 st ad nregions rs (eight l)) size.
Definition u64_message (req x : Z) (l : list Z) : received := message req 8 x (VringState 0 0) (VringAddr 0 0 0 0) 0 empty_regions l.
Definition state_message (req i n : Z) : received := message req 8 0 (VringState i n) (VringAddr 0 0 0 0) 0 empty_regions [].
Definition addr_message (i d u a : Z) : received := message 9 40 0 (VringState 0 0) (VringAddr i d u a) 0 empty_regions [].
(** One region of 1 MB, at 0 of the guest and at 2 MB of qemu. *)
Definition table_message (fd : Z) : received :=
  message 5 40 0 (VringState 0 0) (VringAddr 0 0 0 0) 1 (UserRegion 0 1048576 2097152 0 :: replicate 7 (UserRegion 0 0 0 0)) [fd].
Definition hang_up : received := Received 0 false (UserMsg 0 0 0 0 (VringState 0 0) (VringAddr 0 0 0 0) 0 [] []) 0.

Definition demo_socket : string := "/tmp/sock0".
Definition offered_features : Z := VHOST_SUPPORTED_FEATURES false.
Definition demo_start : vstate Vhost.vhost := initial Vhost.demo_vhost offered_features.
Lemma demo_start_reach : pmd_reach false demo_start.
Proof.
  apply reach_init. split; [apply Vhost.demo_vhost_ok|set_solver|set_solver|]. intros a _. unfold owner, Vhost.demo_vhost. cbn [Vhost.devices]. destruct (decide (a = 7)) as [->|]; [done|]. by rewrite lookup_singleton_ne.
Qed.
(** With a port for the socket. *)
Definition demo_idle : vstate Vhost.vhost := demo_start <| app := Vhost.demo_port_world |>.
Lemma demo_idle_reach : pmd_reach false demo_idle.
Proof.
  apply reach_app; [apply demo_start_reach|]. intros R HR. destruct (pmd_from_vhost (λ _, 0) "eth_vhost0" 0 demo_socket 0 (Some 3) (λ _, true) _ _ HR) as (ret & w' & E & H); [done|]. unfold Vhost.demo_port_world. change (app demo_start) with Vhost.demo_vhost in E. unfold demo_socket in E. by rewrite E.
Qed.

Definition connect (b : Z) : event := Connect (block_answer b) demo_socket.
Definition receive (connfd fh : Z) (r : received) : event := Receive no_answers connfd fh r.
(** What qemu sends until the device runs. *)
Definition demo_setup (connfd fh b : Z) : list event :=
  [receive connfd fh (u64_message 3 0 []);
   Receive (block_answer b) connfd fh (u64_message 13 0 [10 * connfd]); receive connfd fh (u64_message 13 1 [10 * connfd + 1]);
   receive connfd fh (u64_message 2 (Z.shiftl 1 VIRTIO_NET_F_MRG_RXBUF) []);
   Receive (Answers 0 true (λ _, 16777216) (λ _, 4096)) connfd fh (table_message (10 * connfd + 2));
   receive connfd fh (state_message 8 0 256); receive connfd fh (state_message 10 0 0); receive connfd fh (addr_message 0 2097152 2105344 2101248);
   receive connfd fh (u64_message 12 0 [10 * connfd + 3]);
   receive connfd fh (state_message 8 1 256); receive connfd fh (state_message 10 1 0); receive connfd fh (addr_message 1 2117632 2125824 2121728);
   receive connfd fh (u64_message 12 1 [10 * connfd + 4])].
Definition after (evs : list event) : vstate Vhost.vhost := default demo_idle (run_events false evs demo_idle).
Lemma session_reach evs : (if run_events false evs demo_idle then true else false) = true → pmd_reach false (after evs).
Proof. unfold after. destruct (run_events false evs demo_idle) as [s|] eqn:E; [|done]. intros _. eapply run_events_reach; [apply demo_idle_reach|exact E]. Qed.
Definition one_guest : list event := connect 1000 :: demo_setup 40 0 20000.
Definition shown (fh : Z) (s : vstate Vhost.vhost) : option (Z * bool * list Z * list Z) :=
  match get_device fh s with
  | Some (a, _) => v ← view s a; Some (a, running (v_dev v), held v, closed s)
  | None => None
  end.
Example one_guest_runs : shown 0 (after one_guest) = Some (1000, true, [400; 403; 401; 404; 402], []).
Proof. vm_compute. done. Qed.

#[local] Opaque after.
Lemma after_ok evs ev : event_okb false (after evs) ev = true → event_ok false (after evs) ev.
Proof. apply event_okb_sound. Qed.
Lemma vhost_device_handles_witness :
  (∃ s', new_connection (block_answer 3000) false demo_socket (after one_guest) = Some (1, s')) ∧
  ∃ s', vserver_message_handler no_answers false 40 0 hang_up (after one_guest) = Some ((true, None), s') ∧ get_device 0 s' = Some (NULL, s').
Proof.
  destruct (vhost_device_handles false (after one_guest)) as [H1 H2]; [apply session_reach; vm_compute; reflexivity|]. split.
  - destruct (H1 (block_answer 3000) demo_socket) as (h & s' & E & H0 & Hf & _ & Hall & _); [apply (after_ok _ (Connect (block_answer 3000) demo_socket)); vm_compute; reflexivity|discriminate|]. exists s'. rewrite E. do 2 f_equal.
    assert (h = 1); [|by subst]. destruct (decide (h = 0)) as [->|]; [exfalso; apply (f_equal (option_map fst)) in Hf; vm_compute in Hf; discriminate Hf|]. destruct (decide (h = 1)) as [->|]; [done|]. destruct (Hall 1) as (b & Hb & E1); [lia|]. exfalso. apply (f_equal (option_map fst)) in E1. vm_compute in E1. injection E1 as E1. exact (Hb (eq_sym E1)).
  - destruct (H2 no_answers 40 0 hang_up) as (s' & E & Hg & _); [apply (after_ok _ (receive 40 0 hang_up)); vm_compute; reflexivity|reflexivity|]. exists s'. split; [exact E|exact Hg].
Defined.
Lemma vhost_sessions_safe_witness : ∃ s', run_event false (receive 40 0 hang_up) (after one_guest) = Some (tt, s').
Proof.
  destruct (vhost_sessions_safe false (after one_guest) (receive 40 0 hang_up)) as (_ & _ & s' & _ & E & _); [apply session_reach; vm_compute; reflexivity|apply after_ok; vm_compute; reflexivity|]. exists s'. exact E.
Defined.
Definition starting : list event := take 13 one_guest.
Definition last_kick : received := u64_message 12 1 [404].
Definition starting_view : dview := default (DView (zero_device false) [] []) (view (after starting) 1000).
Lemma vhost_fds_accounted_witness : ∃ rep s' w, vserver_message_handler no_answers false 40 0 last_kick (after starting) = Some (rep, s') ∧ view s' 1000 = Some w ∧ closed s' ++ held w ≡ₚ [400; 403; 401; 402; 404].
Proof.
  destruct (vhost_fds_accounted false (after starting) no_answers 40 0 last_kick 1000 starting_view) as (rep & s' & E & _ & H); [apply session_reach; vm_compute; reflexivity|apply (after_ok _ (receive 40 0 last_kick)); vm_compute; reflexivity|apply get_device_is; vm_compute; reflexivity|vm_compute; reflexivity|].
  change (received_request last_kick) with (Some VHOST_USER_SET_VRING_KICK) in H. destruct H as (_ & w & Hw & Hc). exists rep, s', w. split; [exact E|]. split; [exact Hw|]. rewrite (Hc ltac:(discriminate)). vm_compute. reflexivity.
Defined.
Lemma vhost_ports_live_witness : ∃ dev rq tq, Vhost.serves (app (after one_guest)) 0 dev rq tq ∧ ∀ a, dev = Some a → ∃ n, lls (after one_guest) !! a = Some n ∧ running (ll_dev n) = true.
Proof.
  destruct (vhost_ports_live false (after one_guest)) as (H & _); [apply session_reach; vm_compute; reflexivity|]. destruct (H 0%nat) as (dev & rq & tq & Hs & Hd); [vm_compute; apply elem_of_cons; left; reflexivity|]. exists dev, rq, tq. split; [exact Hs|]. intros a ->. destruct (Hd a eq_refl) as (n & Hn & Hr & _). exists n. split; [exact Hn|exact Hr].
Defined.

(** ** What the library does not check *)

(** A reset of the owner frees the table of mappings and unmaps zero bytes: the
    memory stays mapped and its file open, and neither is known any more. *)
Theorem reset_owner_leaks_memory : let s := after (one_guest ++ [receive 40 0 (u64_message 4 0 [])]) in
  shown 0 s = Some (1000, false, [400; 401], [403; 404]) ∧ unmapped s = [(16777216, 0)] ∧ origs s !! 1000 = None.
Proof. vm_compute. split_and!; reflexivity. Qed.

(** When a region cannot be mapped its descriptor, and those of the regions
    after it, stay open; the device has no memory, and the next kick gives it
    to the application. *)
Definition failing_table : event :=
  Receive (Answers 0 true (λ i, if i =? 0 then 33554432 else MAP_FAILED) (λ _, 4096)) 40 0
    (message 5 72 0 (VringState 0 0) (VringAddr 0 0 0 0) 2 (UserRegion 0 1048576 2097152 0 :: UserRegion 1048576 1048576 3145728 0 :: replicate 6 (UserRegion 0 0 0 0)) [50; 51]).
Theorem failed_table_leaks_and_runs : let s := after (one_guest ++ [failing_table; receive 40 0 (u64_message 12 1 [52])]) in
  shown 0 s = Some (1000, true, [400; 403; 401; 52], [402; 50; 404]) ∧ (mem ∘ v_dev <$> view s 1000) = Some None.
Proof. vm_compute. split; reflexivity. Qed.

(** A new table does not touch the rings: after another kick the device runs
    with rings in the memory that was unmapped. *)
Definition new_table : event := Receive (Answers 0 true (λ _, 33554432) (λ _, 4096)) 40 0 (table_message 50).
Theorem stale_rings_run : let s := after (one_guest ++ [new_table; receive 40 0 (u64_message 12 1 [51])]) in
  (running ∘ v_dev <$> view s 1000) = Some true ∧ unmapped s = [(16777216, 1048576)] ∧
  (fmap or_mapped_address ∘ v_maps <$> view s 1000) = Some [33554432] ∧ (fmap desc ∘ v_qs <$> view s 1000) = Some [16777216; 16797696].
Proof. vm_compute. split_and!; reflexivity. Qed.

(** A kick without a descriptor (the guest polls) is like none: the device never
    runs. *)
Theorem poll_mode_never_runs : let s := after (take 13 one_guest ++ [receive 40 0 (u64_message 12 257 [])]) in shown 0 s = Some (1000, false, [400; 403; 401; 402], []).
Proof. vm_compute. reflexivity. Qed.

(** Indices of queues, the number of regions and the table itself are used
    unchecked: outside the array, beyond the eight regions, and through [NULL]. *)
Definition connected_guest : list event := [connect 1000; Receive (block_answer 20000) 40 0 (u64_message 13 0 [10])].
Theorem messages_unchecked : let run ev := option_map (λ _, tt) (run_event false ev (after connected_guest)) in
  shown 0 (after connected_guest) = Some (1000, false, [10], []) ∧
  run (receive 40 0 (state_message 8 2 256)) = None ∧ run (receive 40 0 (state_message 18 65535 1)) = None ∧
  run (receive 40 0 (addr_message 0 2097152 2105344 2101248)) = None ∧
  run (receive 40 0 (message 5 8 0 (VringState 0 0) (VringAddr 0 0 0 0) 9 (replicate 8 (UserRegion 0 0 0 0)) [50])) = None ∧
  run (Receive (block_answer 30000) 40 0 (u64_message 13 4 [11])) = None.
Proof. vm_compute. split_and!; reflexivity. Qed.

(** A pair that is not the next one is counted as if it were: with only queues 2
    and 3, one pair is counted, and the features are set through a [NULL] queue. *)
Theorem pair_out_of_order : let run evs := run_events true evs demo_idle in
  let called := (s ← run [connect 1000]; '(_, s) ← run_event true (Receive (block_answer 20000) 40 0 (u64_message 13 2 [10])) s; Some s) in
  (s ← called; n ← lls s !! 1000; Some (virt_qp_nb (ll_dev n), take 4 (virtqueue (ll_dev n)))) = Some (1, [NULL; NULL; 20000; 24288]) ∧
  (s ← called; option_map (λ _, tt) (run_event true (receive 40 0 (u64_message 2 0 [])) s)) = None.
Proof. split; vm_compute; reflexivity. Qed.

(** A pair made after the features were agreed on has no header length. *)
Theorem late_pair_no_header : let s := after [connect 1000; receive 40 0 (u64_message 2 (Z.shiftl 1 VIRTIO_NET_F_MRG_RXBUF) []); Receive (block_answer 20000) 40 0 (u64_message 13 0 [10])] in
  (fmap vhost_hlen ∘ v_qs <$> view s 1000) = Some [0; 0] ∧ (features ∘ v_dev <$> view s 1000) = Some (Z.shiftl 1 VIRTIO_NET_F_MRG_RXBUF).
Proof. vm_compute. split; reflexivity. Qed.

(** A second guest on a socket takes its port, and when the first one leaves the
    port goes down although the second one runs. *)
Definition port_state (s : vstate Vhost.vhost) : option (Z * list (option Z)) :=
  int ← Vhost.internal_of (app s) 0; Some (Vhost.xfer int, Vhost.device <$> take 1 (Vhost.rx_vhost_queues int)).
Theorem second_guest_cut_off : let two := one_guest ++ connect 3000 :: demo_setup 41 1 40000 in
  port_state (after one_guest) = Some (1, [Some 1000]) ∧ port_state (after two) = Some (1, [Some 3000]) ∧
  let s := after (two ++ [receive 40 0 hang_up]) in port_state s = Some (0, [None]) ∧ option_map (λ v, running (v_dev v)) (view s 3000) = Some true.
Proof. vm_compute. split_and!; reflexivity. Qed.
