(* ===== verification/VirtFdset.v ===== *)
(** * The event loop of the vhost library

    [vhost_user/fd_man.c] and the servers of [vhost-net-user.c]: a table of
    descriptors with callbacks, the session thread that waits for events on them
    and calls the callbacks, and the calls by which applications add and remove
    sockets from other threads meanwhile. *)
From S2P Require Import Prelude CStr Ring.
Open Scope Z_scope.

Definition MAX_FDS : Z := 1024.
Definition FD_SETSIZE : Z := 1024.
Definition MAX_VHOST_SERVER : Z := 1024.

(** The two callbacks that are registered: [vserver_new_vq_conn] for a socket
    and [vserver_message_handler] for a connection. *)
Inductive fd_cb := CbConnection | CbMessage.
Record fdentry := FdEntry { fe_fd : Z; rcb : option fd_cb; wcb : option fd_cb; dat : Z; busy : Z }.
#[export] Instance fdentry_upd : Updatable fdentry := λ e, FdEntry (fe_fd e) (rcb e) (wcb e) (dat e) (busy e).
Record fdset := FdSet { fd : list fdentry; num : Z }.
#[export] Instance fdset_upd : Updatable fdset := λ s, FdSet (fd s) (num s).
(** A socket that is listened to: its context, path (if it was copied) and
    descriptor. *)
Record vhost_server := VhostServer { sv_ctx : Z; path : option string; listenfd : Z }.

(** ** The table *)

Fixpoint find_fd (l : list fdentry) (i x : Z) : Z :=
  match l with
  | [] => -1
  | e :: l => if fe_fd e =? x then i else find_fd l (i + 1) x
  end.
Definition fdset_find_fd (s : fdset) (x : Z) : Z := find_fd (fd s) 0 x.
Definition fdset_find_free_slot (s : fdset) : Z := fdset_find_fd s (-1).
Definition upd_entry (i : Z) (f : fdentry → fdentry) (s : fdset) : fdset := s <| fd := alter f (Z.to_nat i) (fd s) |>.
Definition fdset_add_fd (s : fdset) (idx x : Z) (r w : option fd_cb) (d : Z) : fdset :=
  if idx >=? MAX_FDS then s else upd_entry idx (λ e, e <| fe_fd := x |> <| rcb := r |> <| wcb := w |> <| dat := d |>) s.
Definition fdset_add (s : fdset) (x : Z) (r w : option fd_cb) (d : Z) : Z * fdset :=
  if x =? -1 then (-1, s) else
  let i := fdset_find_free_slot s in
  if i =? -1 then (-2, s) else (0, (fdset_add_fd s i x r w d) <| num := num s + 1 |>).
Definition empty_slot (i : Z) (s : fdset) : fdset := (upd_entry i (λ e, e <| fe_fd := -1 |> <| rcb := None |> <| wcb := None |>) s) <| num := num s - 1 |>.
(** One round of the loop of [fdset_del]: whether it goes on. *)
Definition fdset_del_round (s : fdset) (x : Z) : bool * fdset :=
  let i := fdset_find_fd s x in
  if i =? -1 then (false, s) else
  match fd s !! Z.to_nat i with
  | Some e => if busy e =? 0 then (false, empty_slot i s) else (true, s)
  | None => (false, s)
  end.
Definition fdset_del_slot (s : fdset) (index : Z) : fdset := if (index <? 0) || (index >=? MAX_FDS) then s else empty_slot index s.
Definition fdset_init : fdset := FdSet (replicate (Z.to_nat MAX_FDS) (FdEntry (-1) None None 0 0)) 0.

(** [FD_SET] writes outside the set for a descriptor that is too large. *)
Definition FD_SET (x : Z) (l : gset Z) : option (gset Z) := if (0 <=? x) && (x <? FD_SETSIZE) then Some ({[x]} ∪ l) else None.
Definition set_if (c : option fd_cb) (x : Z) (l : gset Z) : option (gset Z) := match c with Some _ => FD_SET x l | None => Some l end.
Fixpoint fill (l : list fdentry) (r w : gset Z) (maxfds : Z) : option (Z * gset Z * gset Z) :=
  match l with
  | [] => Some (maxfds, r, w)
  | e :: l =>
      if fe_fd e =? -1 then fill l r w maxfds else
      r ← set_if (rcb e) (fe_fd e) r;
      w ← set_if (wcb e) (fe_fd e) w;
      let added := bool_decide (is_Some (rcb e)) || bool_decide (is_Some (wcb e)) in
      fill l r w (if added then if fe_fd e <? maxfds then maxfds else fe_fd e else maxfds)
  end.
Definition fdset_fill (s : fdset) : option (Z * gset Z * gset Z) := fill (fd s) ∅ ∅ (-1).

(** ** The servers *)

(** The index of the server of a path; [None] where a path was not copied. *)
Fixpoint find_server (l : list vhost_server) (p : string) : option (option nat) :=
  match l with
  | [] => Some None
  | v :: l => q ← path v; if String.eqb q p then Some (Some 0%nat) else r ← find_server l p; Some (option_map S r)
  end.
(** [server[i] = server[count]; server[count] = NULL] *)
Definition remove_server (i : nat) (l : list vhost_server) : list vhost_server :=
  match last l with
  | Some v => take (length l - 1) (<[i := v]> l)
  | None => l
  end.

(** ** The threads

    A step is a critical section of [fd_mutex], or what a thread does between
    two. The application's calls hold [server_mutex], so that there is one at a
    time. [PDel] is the loop of [fdset_del]; [SCall] is a callback that runs with
    a descriptor and a context. *)
Inductive app_pc := PIdle | PAdd (v : vhost_server) | PDel (i : nat) | PClose (i : nat).
Inductive ses_pc := SFill | SSelect (rfds : gset Z) | SScan (i : Z) (rfds : gset Z) | SCall (i : Z) (cb : fd_cb) (x d : Z) (rfds : gset Z)
  | SBusy (i : Z) (remove : bool) (rfds : gset Z) | SDel (i : Z) (rfds : gset Z).
(** The table, the servers, the two threads, the open descriptors, and the
    contexts that were allocated and freed so far. *)
Record sys := Sys { fs : fdset; server : list vhost_server; app_at : app_pc; ses_at : ses_pc; opened : gset Z; made : gset Z; freed : gset Z }.
#[export] Instance sys_upd : Updatable sys := λ s, Sys (fs s) (server s) (app_at s) (ses_at s) (opened s) (made s) (freed s).

Inductive move :=
  | Register (p : string) (copied : bool) (x d : Z) | Add | Unregister (p : string) | Del | Close
  | Fill | Select (ready : gset Z) | Expire | Take | Message | HangUp | Refuse | Accept (x d : Z) | Clear | Remove | Again.

(** A new descriptor is one that is not open; [reuse] says whether it may be one
    that is still in the table. *)
Definition new_fd (reuse : bool) (x : Z) (s : sys) : bool :=
  (0 <=? x) && bool_decide (x ∉ opened s) && (reuse || (fdset_find_fd (fs s) x =? -1)).
Definition new_ctx (d : Z) (s : sys) : bool := bool_decide (d ∉ made s).
Definition do_app (reuse : bool) (m : move) (s : sys) : option sys :=
  match m, app_at s with
  | Register p copied x d, PIdle =>
      if (Z.of_nat (length (server s)) =? MAX_VHOST_SERVER) || negb (new_fd reuse x s) || negb (new_ctx d s) then None else
      Some (s <| app_at := PAdd (VhostServer d (if copied then Some p else None) x) |> <| opened := {[x]} ∪ opened s |> <| made := {[d]} ∪ made s |>)
  | Add, PAdd v => Some (s <| fs := (fdset_add (fs s) (listenfd v) (Some CbConnection) None (sv_ctx v)).2 |> <| server := server s ++ [v] |> <| app_at := PIdle |>)
  | Unregister p, PIdle => r ← find_server (server s) p; Some (s <| app_at := match r with Some i => PDel i | None => PIdle end |>)
  | Del, PDel i =>
      v ← server s !! i;
      let '(again, f) := fdset_del_round (fs s) (listenfd v) in
      Some (s <| fs := f |> <| app_at := if again then PDel i else PClose i |>)
  | Close, PClose i =>
      v ← server s !! i;
      Some (s <| opened := opened s ∖ {[listenfd v]} |> <| freed := {[sv_ctx v]} ∪ freed s |> <| server := remove_server i (server s) |> <| app_at := PIdle |>)
  | _, _ => None
  end.
Definition do_session (reuse : bool) (m : move) (s : sys) : option sys :=
  match m, ses_at s with
  | Fill, SFill => '(_, r, _) ← fdset_fill (fs s); Some (s <| ses_at := SSelect r |>)
  | Expire, SSelect _ => Some (s <| ses_at := SFill |>)
  | Select ready, SSelect r => if bool_decide (ready ⊆ r) then Some (s <| ses_at := SScan 0 ready |>) else None
  | Again, SScan i _ => if i =? MAX_FDS then Some (s <| ses_at := SFill |>) else None
  | Take, SScan i r =>
      if i =? MAX_FDS then None else
      e ← fd (fs s) !! Z.to_nat i;
      let at' := match rcb e with
        | Some cb => if (0 <=? fe_fd e) && bool_decide (fe_fd e ∈ r) then SCall i cb (fe_fd e) (dat e) r else SBusy i false r
        | None => SBusy i false r
        end in
      Some (s <| fs := upd_entry i (λ e, e <| busy := 1 |>) (fs s) |> <| ses_at := at' |>)
  | Message, SCall i CbMessage _ _ r => Some (s <| ses_at := SBusy i false r |>)
  | HangUp, SCall i CbMessage x d r => Some (s <| opened := opened s ∖ {[x]} |> <| freed := {[d]} ∪ freed s |> <| ses_at := SBusy i true r |>)
  | Refuse, SCall i CbConnection _ _ r => Some (s <| ses_at := SBusy i false r |>)
  | Accept x d, SCall i CbConnection _ _ r =>
      if negb (new_fd true x s) || negb (new_ctx d s) then None else
      Some (s <| fs := (fdset_add (fs s) x (Some CbMessage) None d).2 |> <| opened := {[x]} ∪ opened s |> <| made := {[d]} ∪ made s |> <| ses_at := SBusy i false r |>)
  | Clear, SBusy i rm r => Some (s <| fs := upd_entry i (λ e, e <| busy := 0 |>) (fs s) |> <| ses_at := if rm then SDel i r else SScan (i + 1) r |>)
  | Remove, SDel i r => Some (s <| fs := fdset_del_slot (fs s) i |> <| ses_at := SScan (i + 1) r |>)
  | _, _ => None
  end.
Definition do_move (reuse : bool) (m : move) (s : sys) : option sys := match do_app reuse m s with Some s' => Some s' | None => do_session reuse m s end.
Definition start : sys := Sys fdset_init [] PIdle SFill ∅ ∅ ∅.
Definition step (reuse : bool) (s s' : sys) : Prop := ∃ m, do_move reuse m s = Some s'.

(** ** The table by slots

    What a slot holds, if it is in use: descriptor, callback and context. *)
Definition slot_of (e : fdentry) : option (Z * fd_cb * Z) := if fe_fd e =? -1 then None else cb ← rcb e; Some (fe_fd e, cb, dat e).
Definition slots (f : fdset) (i : nat) : option (Z * fd_cb * Z) := e ← fd f !! i; slot_of e.
Definition entry_ok (e : fdentry) : Prop := fe_fd e ≠ -1 → is_Some (rcb e).
Definition table_ok (f : fdset) : Prop := Z.of_nat (length (fd f)) = MAX_FDS ∧ Forall entry_ok (fd f).

Lemma slots_Some f i x cb d : slots f i = Some (x, cb, d) ↔ ∃ e, fd f !! i = Some e ∧ fe_fd e = x ∧ x ≠ -1 ∧ rcb e = Some cb ∧ dat e = d.
Proof.
  unfold slots, slot_of. destruct (fd f !! i) as [e|]; cbn; [|split; [done|by intros (? & ? & _)]]. destruct (Z.eqb_spec (fe_fd e) (-1)) as [E|E].
  - split; [done|]. intros (e' & [= <-] & Ex & Hx & _). congruence.
  - destruct (rcb e) as [c|] eqn:Er; cbn; [|split; [done|]; intros (e' & [= <-] & _ & _ & Hr & _); congruence]. split; [intros [= <- <- <-]; by exists e|]. intros (e' & [= <-] & <- & _ & Hr & <-). rewrite Er in Hr. by injection Hr as ->.
Qed.
Lemma find_fd_spec l i x : (find_fd l i x = -1 ∧ ∀ e, e ∈ l → fe_fd e ≠ x) ∨ ∃ k e, find_fd l i x = i + Z.of_nat k ∧ l !! k = Some e ∧ fe_fd e = x.
Proof.
  revert i. induction l as [|e l IH]; intros i; cbn; [left; split; [done|set_solver]|]. destruct (Z.eqb_spec (fe_fd e) x) as [E|E]; [right; exists 0%nat, e; split; [lia|done]|].
  destruct (IH (i + 1)) as [[H1 H2]|(k & e' & H1 & H2 & H3)]; [left; split; [done|set_solver]|right]. exists (S k), e'. split; [lia|done].
Qed.
Lemma upd_slots f i g k : slots (upd_entry i g f) k = if decide (k = Z.to_nat i) then e ← fd f !! k; slot_of (g e) else slots f k.
Proof. unfold slots, upd_entry. cbn. case_decide as E; [subst; rewrite list_lookup_alter_eq; by destruct (fd f !! Z.to_nat i)|by rewrite list_lookup_alter_ne]. Qed.
Lemma upd_table f i g : table_ok f → (∀ e, entry_ok e → entry_ok (g e)) → table_ok (upd_entry i g f).
Proof. intros [H1 H2] Hg. split; cbn; [by rewrite length_alter|]. rewrite Forall_lookup in H2 |- *. intros k e He. destruct (decide (k = Z.to_nat i)) as [->|Hne]; [|rewrite list_lookup_alter_ne in He by done; eauto]. rewrite list_lookup_alter_eq in He. destruct (fd f !! Z.to_nat i) as [e0|] eqn:E; [|done]. injection He as <-. eauto. Qed.
Lemma upd_busy_slots f i b k : slots (upd_entry i (λ e, e <| busy := b |>) f) k = slots f k.
Proof. rewrite upd_slots. case_decide; [|done]. unfold slots. by destruct (fd f !! k). Qed.
Lemma upd_busy_table f i b : table_ok f → table_ok (upd_entry i (λ e, e <| busy := b |>) f).
Proof. intros H. by apply upd_table. Qed.

Lemma find_none f x : table_ok f → fdset_find_fd f x = -1 → x ≠ -1 → ∀ i cb d, slots f i ≠ Some (x, cb, d).
Proof.
  intros [Hl _] H Hx i cb d Hs. apply slots_Some in Hs as (e & He & Ee & _). destruct (find_fd_spec (fd f) 0 x) as [[_ Hn]|(k & e' & Hk & _)]; [apply list_elem_of_lookup_2 in He; by apply (Hn e)|]. unfold fdset_find_fd in H. lia.
Qed.
(** A descriptor that is added takes a free slot, or there is none. *)
Lemma add_slots f x cb d : table_ok f → 0 <= x → let f' := (fdset_add f x (Some cb) None d).2 in table_ok f' ∧
  ((∀ k, slots f' k = slots f k) ∨ ∃ i, slots f i = None ∧ ∀ k, slots f' k = if decide (k = i) then Some (x, cb, d) else slots f k).
Proof.
  intros H Hx. unfold fdset_add. destruct (Z.eqb_spec x (-1)); [lia|]. unfold fdset_find_free_slot, fdset_find_fd. destruct (find_fd_spec (fd f) 0 (-1)) as [[-> _]|(k & e & -> & Hk & Ee)]; [split; [done|by left]|].
  destruct (Z.eqb_spec (0 + Z.of_nat k) (-1)); [lia|]. cbn [snd]. assert (Hkl : Z.of_nat k < MAX_FDS) by (destruct H as [<- _]; apply lookup_lt_Some in Hk; lia). unfold fdset_add_fd. rewrite Z.geb_leb. destruct (Z.leb_spec MAX_FDS (0 + Z.of_nat k)); [lia|]. split.
  - apply (upd_table f); [done|]. intros e' _ _. by exists cb.
  - right. exists k. split; [unfold slots; rewrite Hk; cbn; unfold slot_of; by rewrite Ee|]. intros j. pose proof (upd_slots f (0 + Z.of_nat k) (λ e0, e0 <| fe_fd := x |> <| rcb := Some cb |> <| wcb := None |> <| dat := d |>) j) as E. etransitivity; [exact E|]. replace (Z.to_nat (0 + Z.of_nat k)) with k by lia. destruct (decide (j = k)) as [->|]; [|reflexivity]. rewrite Hk. cbn. unfold slot_of. cbn. by destruct (Z.eqb_spec x (-1)).
Qed.
Lemma empty_slots f i : table_ok f → table_ok (empty_slot i f) ∧ ∀ k, slots (empty_slot i f) k = if decide (k = Z.to_nat i) then None else slots f k.
Proof.
  intros H. split; [apply (upd_table f); [done|]; intros e _ Hne; by destruct Hne|]. intros k. pose proof (upd_slots f i (λ e, e <| fe_fd := -1 |> <| rcb := None |> <| wcb := None |>) k) as E. etransitivity; [exact E|]. case_decide; [|done]. by destruct (fd f !! k).
Qed.
(** A round of the deletion: the descriptor is in no slot afterwards, if no two
    slots have it, or it is in a slot that is busy. *)
Lemma del_slots f x again f' : table_ok f → 0 <= x → (∀ i j s s', slots f i = Some s → slots f j = Some s' → s.1.1 = s'.1.1 → i = j) → fdset_del_round f x = (again, f') →
  table_ok f' ∧ if again then f' = f ∧ ∃ i e, fd f !! i = Some e ∧ fe_fd e = x ∧ busy e ≠ 0 else (∀ i cb d, slots f' i ≠ Some (x, cb, d)) ∧
    ((∀ k, slots f' k = slots f k) ∨ ∃ i e, fd f !! i = Some e ∧ fe_fd e = x ∧ busy e = 0 ∧ ∀ k, slots f' k = if decide (k = i) then None else slots f k).
Proof.
  intros H Hx Hd. unfold fdset_del_round, fdset_find_fd. destruct (find_fd_spec (fd f) 0 x) as [[E Hn]|(k & e & -> & Hk & Ee)].
  - rewrite E. cbn. intros [= <- <-]. split; [done|]. split; [|by left]. apply find_none; [done..|lia].
  - destruct (Z.eqb_spec (0 + Z.of_nat k) (-1)); [lia|]. replace (Z.to_nat (0 + Z.of_nat k)) with k by lia. rewrite Hk. destruct (Z.eqb_spec (busy e) 0) as [Hb|Hb]; intros [= <- <-]; [|split; [done|]; split; [done|]; by exists k, e].
    destruct (empty_slots f (0 + Z.of_nat k) H) as [Ht Hs]. replace (Z.to_nat (0 + Z.of_nat k)) with k in Hs by lia. split; [done|]. split; [|right; exists k, e; done]. intros i cb d. rewrite Hs. case_decide as Eik; [done|]. intros Hi. apply Eik. destruct H as [_ Hall]. rewrite Forall_lookup in Hall. destruct (Hall k e Hk) as [c Hc]; [lia|].
    apply (Hd i k _ (x, c, dat e) Hi); [|done]. apply slots_Some. exists e. split_and!; [done..|lia|done|done].
Qed.
