(* ===== verification/VirtEvents.v ===== *)
(** * Callbacks and contexts of the event loop

    The session thread of the vhost library and the calls that add and remove
    sockets, interleaved: a callback never runs with a context that was freed,
    and a removal waits for callbacks only. *)
From S2P Require Import Prelude CStr Ring VirtFdset.
Open Scope Z_scope.

(** ** Entries and their flags *)

Lemma add_keeps f x r w d k e : fd f !! k = Some e → fe_fd e ≠ -1 → fd (fdset_add f x r w d).2 !! k = Some e.
Proof.
  intros Hk He. unfold fdset_add. destruct (x =? -1); [done|]. unfold fdset_find_free_slot, fdset_find_fd. destruct (find_fd_spec (fd f) 0 (-1)) as [[-> _]|(j & e' & -> & Hj & Ee)]; [done|]. destruct (_ =? -1); [done|]. cbn [snd]. unfold fdset_add_fd. destruct (_ >=? _); [done|].
  change (alter (λ e0, e0 <| fe_fd := x |> <| rcb := r |> <| wcb := w |> <| dat := d |>) (Z.to_nat (0 + Z.of_nat j)) (fd f) !! k = Some e). rewrite list_lookup_alter_ne; [done|]. intros E. replace (Z.to_nat (0 + Z.of_nat j)) with j in E by lia. subst j. congruence.
Qed.
Lemma del_keeps f x b f' k e : fdset_del_round f x = (b, f') → fd f !! k = Some e → busy e ≠ 0 → fd f' !! k = Some e.
Proof.
  unfold fdset_del_round. destruct (_ =? -1); [by intros [= _ <-]|]. destruct (fd f !! Z.to_nat (fdset_find_fd f x)) as [e'|] eqn:E; [|by intros [= _ <-]]. destruct (Z.eqb_spec (busy e') 0) as [Hb|]; intros [= _ <-] Hk He; [|done].
  change (alter (λ e0, e0 <| fe_fd := -1 |> <| rcb := None |> <| wcb := None |>) (Z.to_nat (fdset_find_fd f x)) (fd f) !! k = Some e). rewrite list_lookup_alter_ne; [done|]. intros <-. congruence.
Qed.
Definition same_busy (f f' : fdset) : Prop := ∀ k e', fd f' !! k = Some e' → ∃ e, fd f !! k = Some e ∧ busy e' = busy e.
Lemma same_busy_refl f : same_busy f f.
Proof. intros k e' H. by exists e'. Qed.
Lemma upd_same_busy f i g n : (∀ e, busy (g e) = busy e) → same_busy f ((upd_entry i g f) <| num := n |>).
Proof. intros Hg k e' H. change (alter g (Z.to_nat i) (fd f) !! k = Some e') in H. destruct (decide (k = Z.to_nat i)) as [->|Hne]; [|rewrite list_lookup_alter_ne in H by done; by exists e']. rewrite list_lookup_alter_eq in H. destruct (fd f !! Z.to_nat i) as [e|]; [|done]. injection H as <-. by exists e. Qed.
Lemma add_same_busy f x r w d : same_busy f (fdset_add f x r w d).2.
Proof. unfold fdset_add. destruct (x =? -1); [apply same_busy_refl|]. destruct (_ =? -1); [apply same_busy_refl|]. cbn [snd]. unfold fdset_add_fd. destruct (_ >=? _); [apply (same_busy_refl f)|]. by apply upd_same_busy. Qed.
Lemma empty_same_busy f i : same_busy f (empty_slot i f).
Proof. by apply upd_same_busy. Qed.
Lemma del_same_busy f x b f' : fdset_del_round f x = (b, f') → same_busy f f'.
Proof. unfold fdset_del_round. destruct (_ =? -1); [intros [= _ <-]; apply same_busy_refl|]. destruct (fd f !! _) as [e|]; [|intros [= _ <-]; apply same_busy_refl]. destruct (_ =? 0); intros [= _ <-]; [apply empty_same_busy|apply same_busy_refl]. Qed.

Lemma remove_server_perm i v l : l !! i = Some v → v :: remove_server i l ≡ₚ l.
Proof.
  intros Hi. unfold remove_server. destruct (last l) as [z|] eqn:Hz; [|by destruct l using rev_ind; [|rewrite last_snoc in Hz]]. apply last_Some in Hz as [l' ->]. rewrite length_app. cbn [length]. replace (length l' + 1 - 1)%nat with (length l') by lia.
  destruct (decide (i = length l')) as [->|Hne].
  - rewrite lookup_app_r, Nat.sub_diag in Hi by lia. injection Hi as <-. rewrite insert_app_r_alt, take_app_le, take_ge by lia. by rewrite Permutation_cons_append.
  - assert (i < length l')%nat by (apply lookup_lt_Some in Hi; rewrite length_app in Hi; cbn in Hi; lia). rewrite lookup_app_l in Hi by done. rewrite insert_app_l by done. rewrite take_app_le, take_ge by (rewrite length_insert; lia). rewrite insert_take_drop by done. transitivity ((take i l' ++ v :: drop (S i) l') ++ [z]); [solve_Permutation|by rewrite take_drop_middle].
Qed.

(** ** The invariant *)

Definition pending (p : app_pc) : list vhost_server := match p with PAdd v => [v] | _ => [] end.
(** The slot of a connection that was closed and is still in the table. *)
Definition stale (p : ses_pc) : option nat := match p with SBusy i true _ | SDel i _ => Some (Z.to_nat i) | _ => None end.
Record owned (sl : nat → option (Z * fd_cb * Z)) (srv : list vhost_server) (ap : app_pc) (op mk fr : gset Z) (st : option nat) : Prop := {
  ow_fd : ∀ i j s s', sl i = Some s → sl j = Some s' → s.1.1 = s'.1.1 → i = j;
  ow_dat : ∀ i j s s', sl i = Some s → sl j = Some s' → s.2 = s'.2 → i = j;
  ow_slot : ∀ i x cb d, sl i = Some (x, cb, d) → 0 <= x ∧ d ∈ mk ∧ (st = Some i → cb = CbMessage ∧ x ∉ op) ∧ (st ≠ Some i → x ∈ op ∧ d ∉ fr);
  ow_conn : ∀ i x d, sl i = Some (x, CbConnection, d) → ∃ k v, srv !! k = Some v ∧ sv_ctx v = d ∧ listenfd v = x ∧ ap ≠ PClose k;
  ow_msg : ∀ i x d v, sl i = Some (x, CbMessage, d) → v ∈ srv ++ pending ap → sv_ctx v ≠ d ∧ listenfd v ≠ x;
  ow_ctx : NoDup (sv_ctx <$> srv ++ pending ap);
  ow_lfd : NoDup (listenfd <$> srv ++ pending ap);
  ow_known : ∀ v, v ∈ srv ++ pending ap → 0 <= listenfd v ∧ listenfd v ∈ op ∧ sv_ctx v ∈ mk ∧ sv_ctx v ∉ fr;
  ow_app : match ap with PDel k | PClose k => is_Some (srv !! k) | _ => True end;
  ow_stale : match st with Some i => is_Some (sl i) | None => True end;
  ow_freed : fr ⊆ mk }.

Lemma owned_ext sl sl' srv ap op mk fr st : (∀ k, sl' k = sl k) → owned sl srv ap op mk fr st → owned sl' srv ap op mk fr st.
Proof. intros E []. split; try done; try (intros *; rewrite ?E; eauto). destruct st; [by rewrite E|done]. Qed.
Lemma ctx_inj srv ap k k' v v' : NoDup (sv_ctx <$> srv ++ pending ap) → srv !! k = Some v → srv !! k' = Some v' → sv_ctx v = sv_ctx v' → k = k'.
Proof. intros Hnd Hk Hk' E. eapply NoDup_lookup; [exact Hnd|..]; rewrite list_lookup_fmap, lookup_app_l by (by eapply lookup_lt_Some); [by rewrite Hk|rewrite Hk'; cbn; by rewrite E]. Qed.
(** What a server that is being removed, or is not yet in the table, is not. *)
Lemma closing_free sl srv k v op mk fr st i x cb d : owned sl srv (PClose k) op mk fr st → srv !! k = Some v → sl i = Some (x, cb, d) → sv_ctx v ≠ d ∧ listenfd v ≠ x.
Proof.
  intros H Hv Hs. destruct cb; [|eapply ow_msg; [done..|]; cbn; rewrite app_nil_r; by eapply list_elem_of_lookup_2]. destruct (ow_conn _ _ _ _ _ _ _ H _ _ _ Hs) as (k' & v' & Hv' & <- & <- & Hne). split; intros E; apply Hne; f_equal.
  - by eapply ctx_inj; [apply H|..].
  - pose proof (ow_lfd _ _ _ _ _ _ _ H) as Hnd. cbn in Hnd. rewrite app_nil_r in Hnd. eapply NoDup_lookup; [exact Hnd|rewrite list_lookup_fmap, Hv; cbn; by rewrite E|by rewrite list_lookup_fmap, Hv'].
Qed.
Lemma adding_free sl srv v op mk fr st i x cb d : owned sl srv (PAdd v) op mk fr st → sl i = Some (x, cb, d) → sv_ctx v ≠ d ∧ listenfd v ≠ x.
Proof.
  intros H Hs. destruct cb; [|eapply ow_msg; [done..|]; set_solver]. destruct (ow_conn _ _ _ _ _ _ _ H _ _ _ Hs) as (k' & v' & Hv' & <- & <- & _). apply list_elem_of_lookup_2 in Hv'. pose proof (ow_ctx _ _ _ _ _ _ _ H) as H1. pose proof (ow_lfd _ _ _ _ _ _ _ H) as H2. cbn in H1, H2. rewrite fmap_app, NoDup_app in H1, H2. destruct H1 as (_ & H1 & _), H2 as (_ & H2 & _).
  split; intros E; [apply (H1 (sv_ctx v'))|apply (H2 (listenfd v'))]; try (apply list_elem_of_fmap; by exists v'); cbn; rewrite <- E; set_solver.
Qed.

(** ** What the steps do to it *)

Lemma owned_register sl srv op mk fr st p x d : owned sl srv PIdle op mk fr st → 0 <= x → x ∉ op → d ∉ mk → (∀ i cb c, sl i ≠ Some (x, cb, c)) → owned sl srv (PAdd (VhostServer d p x)) ({[x]} ∪ op) ({[d]} ∪ mk) fr st.
Proof.
  intros H Hx Hxo Hd Hsl. assert (Hk : ∀ v, v ∈ srv → 0 <= listenfd v ∧ listenfd v ∈ op ∧ sv_ctx v ∈ mk ∧ sv_ctx v ∉ fr) by (intros v Hv; apply H; set_solver). split; try apply H; cbn [pending].
  - intros i y cb c Hi. destruct (ow_slot _ _ _ _ _ _ _ H _ _ _ _ Hi) as (H1 & H2 & H3 & H4). split_and!; [done|set_solver| |set_solver]. intros Hst. destruct (H3 Hst) as [-> Hy]. split; [done|]. assert (y ≠ x) by (intros ->; by eapply Hsl). set_solver.
  - intros i y c Hi. destruct (ow_conn _ _ _ _ _ _ _ H _ _ _ Hi) as (k & v & ? & ? & ? & _). by exists k, v.
  - intros i y c v Hi [Hv|Hv]%elem_of_app; [eapply H; [done|]; set_solver|]. apply list_elem_of_singleton in Hv as ->. cbn. split; [|intros ->; by eapply Hsl]. intros ->. destruct (ow_slot _ _ _ _ _ _ _ H _ _ _ _ Hi) as (_ & ? & _). done.
  - rewrite fmap_app. apply NoDup_app. split_and!; [pose proof (ow_ctx _ _ _ _ _ _ _ H) as Hn; by rewrite app_nil_r in Hn| |apply NoDup_singleton]. intros y (v & -> & Hv)%list_elem_of_fmap E%list_elem_of_singleton. cbn in E. destruct (Hk v Hv) as (_ & _ & ? & _). congruence.
  - rewrite fmap_app. apply NoDup_app. split_and!; [pose proof (ow_lfd _ _ _ _ _ _ _ H) as Hn; by rewrite app_nil_r in Hn| |apply NoDup_singleton]. intros y (v & -> & Hv)%list_elem_of_fmap E%list_elem_of_singleton. cbn in E. destruct (Hk v Hv) as (_ & ? & _). congruence.
  - intros v [Hv|Hv]%elem_of_app; [destruct (Hk v Hv) as (? & ? & ? & ?); set_solver|]. apply list_elem_of_singleton in Hv as ->. cbn. pose proof (ow_freed _ _ _ _ _ _ _ H). set_solver.
  - pose proof (ow_freed _ _ _ _ _ _ _ H). set_solver.
Qed.
(** A slot that was free is in use. *)
Lemma owned_use sl sl' srv ap op mk fr st i x cb d : owned sl srv ap op mk fr st → sl i = None → (∀ k, sl' k = if decide (k = i) then Some (x, cb, d) else sl k) →
  (∀ j y c e, sl j = Some (y, c, e) → e ≠ d ∧ y ≠ x) → 0 <= x → x ∈ op → d ∈ mk → d ∉ fr →
  match cb with CbConnection => ∃ k v, srv !! k = Some v ∧ sv_ctx v = d ∧ listenfd v = x ∧ ap ≠ PClose k | CbMessage => ∀ v, v ∈ srv ++ pending ap → sv_ctx v ≠ d ∧ listenfd v ≠ x end → owned sl' srv ap op mk fr st.
Proof.
  intros H Hi Hsl Hne Hx Hxo Hd Hdf Hcb. assert (Hst : st ≠ Some i) by (intros ->; pose proof (ow_stale _ _ _ _ _ _ _ H) as [? ?]; congruence). split; try apply H.
  - intros j k s s'. rewrite !Hsl. do 2 case_decide; subst; [done| | |apply H]; intros [= <-] Hs E || intros Hs [= <-] E; exfalso; [destruct s' as [[y c] e]|destruct s as [[y c] e]]; destruct (Hne _ _ _ _ Hs); cbn in *; congruence.
  - intros j k s s'. rewrite !Hsl. do 2 case_decide; subst; [done| | |apply H]; intros [= <-] Hs E || intros Hs [= <-] E; exfalso; [destruct s' as [[y c] e]|destruct s as [[y c] e]]; destruct (Hne _ _ _ _ Hs); cbn in *; congruence.
  - intros j y c e. rewrite Hsl. case_decide; [|apply H]. subst. by intros [= <- <- <-].
  - intros j y c. rewrite Hsl. case_decide; [|apply H]. by intros [= <- -> <-].
  - intros j y c v. rewrite Hsl. case_decide; [|apply H]. intros [= <- -> <-]. by apply Hcb.
  - destruct st as [j|]; [|done]. rewrite Hsl, decide_False by congruence. apply (ow_stale _ _ _ _ _ _ _ H).
Qed.
(** A slot that is free. *)
Lemma owned_free sl sl' srv ap op mk fr st i : owned sl srv ap op mk fr st → st ≠ Some i → (∀ k, sl' k = if decide (k = i) then None else sl k) → owned sl' srv ap op mk fr st.
Proof.
  intros H Hst Hsl. split; try apply H; try (intros *; rewrite !Hsl; repeat case_decide; try done; apply H). destruct st as [j|]; [|done]. rewrite Hsl, decide_False by congruence. apply (ow_stale _ _ _ _ _ _ _ H).
Qed.
Lemma owned_removed sl sl' srv ap op mk fr i : owned sl srv ap op mk fr (Some i) → (∀ k, sl' k = if decide (k = i) then None else sl k) → owned sl' srv ap op mk fr None.
Proof.
  intros H Hsl. split; try apply H; try done; try (intros *; rewrite !Hsl; repeat case_decide; try done; apply H). intros j x cb d. rewrite Hsl. case_decide; [done|]. intros Hj. destruct (ow_slot _ _ _ _ _ _ _ H _ _ _ _ Hj) as (? & ? & _ & H4). split_and!; [done..|]. intros _. apply H4. congruence.
Qed.
Lemma owned_added sl srv v op mk fr st : owned sl srv (PAdd v) op mk fr st → owned sl (srv ++ [v]) PIdle op mk fr st.
Proof.
  intros H. split; try apply H; cbn [pending]; rewrite ?app_nil_r; try apply H; try done.
  - intros i x d Hi. destruct (ow_conn _ _ _ _ _ _ _ H _ _ _ Hi) as (k & w & Hk & ? & ? & _). exists k, w. split_and!; try done. by apply lookup_app_l_Some.
Qed.
Lemma owned_close sl srv k v op mk fr st : owned sl srv (PClose k) op mk fr st → srv !! k = Some v → owned sl (remove_server k srv) PIdle (op ∖ {[listenfd v]}) mk ({[sv_ctx v]} ∪ fr) st.
Proof.
  intros H Hk. pose proof (remove_server_perm k v srv Hk) as Hp. pose proof (ow_ctx _ _ _ _ _ _ _ H) as Hc. pose proof (ow_lfd _ _ _ _ _ _ _ H) as Hl. cbn [pending] in Hc, Hl. rewrite app_nil_r, <- Hp in Hc, Hl. cbn in Hc, Hl. apply NoDup_cons in Hc as [Hc1 Hc2], Hl as [Hl1 Hl2].
  assert (Hin : ∀ w, w ∈ remove_server k srv → w ∈ srv ∧ sv_ctx w ≠ sv_ctx v ∧ listenfd w ≠ listenfd v). { intros w Hw. split; [rewrite <- Hp; set_solver|]. split; intros E; [apply Hc1|apply Hl1]; apply list_elem_of_fmap; by exists w. }
  assert (Hkn : ∀ w, w ∈ srv → w ∈ srv ++ pending (PClose k)) by set_solver. split; try apply H; cbn [pending]; rewrite ?app_nil_r; try done.
  - intros i x cb d Hi. destruct (ow_slot _ _ _ _ _ _ _ H _ _ _ _ Hi) as (? & ? & H3 & H4). destruct (closing_free _ _ _ _ _ _ _ _ _ _ _ _ H Hk Hi). split_and!; [done..|set_solver|]. intros Hst. destruct (H4 Hst). set_solver.
  - intros i x d Hi. destruct (ow_conn _ _ _ _ _ _ _ H _ _ _ Hi) as (k' & w & Hk' & E1 & E2 & Hne). assert (Hw : w ∈ remove_server k srv). { pose proof (list_elem_of_lookup_2 _ _ _ Hk') as Hw. rewrite <- Hp in Hw. apply elem_of_cons in Hw as [->|Hw]; [|done]. exfalso. apply Hne. f_equal. by eapply ctx_inj; [apply H|..]. } apply list_elem_of_lookup_1 in Hw as [k2 Hk2]. by exists k2, w.
  - intros i x d w Hi. rewrite ?app_nil_r. intros Hw. eapply (ow_msg _ _ _ _ _ _ _ H); [done|]. apply Hkn, Hin, Hw.
  - intros w. rewrite ?app_nil_r. intros Hw. destruct (Hin w Hw) as (Hws & ? & ?). destruct (ow_known _ _ _ _ _ _ _ H w (Hkn _ Hws)) as (? & ? & ? & ?). set_solver.
  - destruct (ow_known _ _ _ _ _ _ _ H v) as (_ & _ & ? & _); [apply Hkn; by eapply list_elem_of_lookup_2|]. pose proof (ow_freed _ _ _ _ _ _ _ H). set_solver.
Qed.
Lemma owned_hang_up sl srv ap op mk fr i x d : owned sl srv ap op mk fr None → sl i = Some (x, CbMessage, d) → owned sl srv ap (op ∖ {[x]}) mk ({[d]} ∪ fr) (Some i).
Proof.
  intros H Hi. destruct (ow_slot _ _ _ _ _ _ _ H _ _ _ _ Hi) as (_ & Hd & _ & _). split; try apply H; [| | |].
  - intros j y cb c Hj. destruct (ow_slot _ _ _ _ _ _ _ H _ _ _ _ Hj) as (? & ? & _ & H4). split_and!; [done..| |].
    + intros [= ->]. rewrite Hi in Hj. injection Hj as <- <- <-. set_solver.
    + intros Hne. destruct (H4 ltac:(done)). assert (y ≠ x) by (intros ->; apply Hne; f_equal; by eapply (ow_fd _ _ _ _ _ _ _ H)). assert (c ≠ d) by (intros ->; apply Hne; f_equal; by eapply (ow_dat _ _ _ _ _ _ _ H)). set_solver.
  - intros v Hv. destruct (ow_known _ _ _ _ _ _ _ H v Hv) as (? & ? & ? & ?). destruct (ow_msg _ _ _ _ _ _ _ H _ _ _ _ Hi Hv). set_solver.
  - by rewrite Hi.
  - pose proof (ow_freed _ _ _ _ _ _ _ H). set_solver.
Qed.

(** A flag is up only where the session thread is, and a callback that runs has
    its slot. *)
Definition ses_ok (f : fdset) (p : ses_pc) : Prop :=
  (∀ k e, fd f !! k = Some e → busy e ≠ 0 → match p with SCall i _ _ _ _ | SBusy i _ _ => k = Z.to_nat i | _ => False end) ∧
  match p with
  | SScan i _ => 0 <= i <= MAX_FDS
  | SCall i cb x d _ => 0 <= i < MAX_FDS ∧ ∃ e, fd f !! Z.to_nat i = Some e ∧ busy e = 1 ∧ slot_of e = Some (x, cb, d)
  | SBusy i _ _ | SDel i _ => 0 <= i < MAX_FDS
  | _ => True
  end.
Definition inv (s : sys) : Prop := table_ok (fs s) ∧ owned (slots (fs s)) (server s) (app_at s) (opened s) (made s) (freed s) (stale (ses_at s)) ∧ ses_ok (fs s) (ses_at s).

Lemma slot_used e s : slot_of e = Some s → fe_fd e ≠ -1.
Proof. unfold slot_of. by destruct (Z.eqb_spec (fe_fd e) (-1)). Qed.
Lemma ses_keep f f' p : same_busy f f' → (∀ k e, fd f !! k = Some e → busy e ≠ 0 → fe_fd e ≠ -1 → fd f' !! k = Some e) → ses_ok f p → ses_ok f' p.
Proof.
  intros Hb Hk [H1 H2]. split; [intros k e He Hbe; destruct (Hb k e He) as (e0 & He0 & E); apply (H1 k e0 He0); congruence|]. destruct p as [| | |i cb x d r| |]; try done. destruct H2 as (? & e & He & Hbe & Hs). split; [done|]. exists e. split; [|done]. apply Hk; [done|lia|by eapply slot_used].
Qed.
Lemma add_inv f srv srv' ap ap' op mk fr st x cb d : table_ok f → owned (slots f) srv' ap' op mk fr st → 0 <= x → x ∈ op → d ∈ mk → d ∉ fr → (∀ j y c e, slots f j = Some (y, c, e) → e ≠ d ∧ y ≠ x) →
  match cb with CbConnection => ∃ k v, srv' !! k = Some v ∧ sv_ctx v = d ∧ listenfd v = x ∧ ap' ≠ PClose k | CbMessage => ∀ v, v ∈ srv' ++ pending ap' → sv_ctx v ≠ d ∧ listenfd v ≠ x end → srv = srv' → ap = ap' →
  let f' := (fdset_add f x (Some cb) None d).2 in table_ok f' ∧ owned (slots f') srv ap op mk fr st.
Proof.
  intros Ht H Hx Hxo Hd Hdf Hne Hcb -> ->. destruct (add_slots f x cb d Ht Hx) as [Ht' [Hs|(i & Hi & Hs)]]; (split; [done|]); [by eapply owned_ext|by eapply owned_use].
Qed.
Lemma app_step m s s' : inv s → do_app false m s = Some s' → inv s'.
Proof.
  intros (Ht & H & Hs) Hm. destruct m, (app_at s) as [|v|k|k] eqn:Ea; cbn [do_app] in Hm; rewrite ?Ea in Hm; try done.
  - destruct (_ || _) eqn:Eg in Hm; [done|]. apply orb_false_iff in Eg as [Eg Hc%negb_false_iff]. apply orb_false_iff in Eg as [_ Hn%negb_false_iff]. injection Hm as <-. unfold new_fd in Hn. apply andb_true_iff in Hn as [[Hx Hxo%bool_decide_eq_true]%andb_true_iff Hf]. apply Z.leb_le in Hx. apply Z.eqb_eq in Hf. apply bool_decide_eq_true in Hc.
    split; [done|]. split; [|done]. cbn. apply owned_register; [done..|]. apply find_none; [done..|lia].
  - injection Hm as <-. destruct (ow_known _ _ _ _ _ _ _ H v) as (? & ? & ? & ?); [set_solver|]. pose proof (owned_added _ _ _ _ _ _ _ H) as H'.
    destruct (add_inv (fs s) (server s ++ [v]) (server s ++ [v]) PIdle PIdle (opened s) (made s) (freed s) (stale (ses_at s)) (listenfd v) CbConnection (sv_ctx v)) as [Ht' Ho']; try done.
    + intros j y c e Hj. destruct (adding_free _ _ _ _ _ _ _ _ _ _ _ H Hj). by split.
    + exists (length (server s)), v. split_and!; try done. by apply list_lookup_middle.
    + split; [exact Ht'|]. split; [exact Ho'|]. cbn. eapply ses_keep; [apply add_same_busy| |exact Hs]. intros k e Hk _ He. by apply add_keeps.
  - destruct (find_server (server s) p) as [r|] eqn:Er; [|done]. injection Hm as <-. split; [done|]. split; [|done]. cbn. assert (Hr : ∀ l p r, find_server l p = Some r → match r with Some i => is_Some (l !! i) | None => True end).
    { clear. induction l as [|v l IH]; intros p r; cbn; [by intros [= <-]|]. destruct (path v) as [q|]; cbn; [|done]. destruct (String.eqb q p); [intros [= <-]; by eexists|]. destruct (find_server l p) as [r'|] eqn:E; cbn; [|done]. intros [= <-]. specialize (IH p r' E). by destruct r'. }
    specialize (Hr _ _ _ Er). destruct H. destruct r as [i|]; split; try done. intros j x d Hj. destruct (ow_conn0 _ _ _ Hj) as (k & v & ? & ? & ? & _). by exists k, v.
  - destruct (ow_app _ _ _ _ _ _ _ H) as [v Hv]. rewrite Hv in Hm. cbn in Hm. destruct (fdset_del_round (fs s) (listenfd v)) as [again f] eqn:Ed. injection Hm as <-. assert (Hin : v ∈ server s ++ pending (PDel k)) by (cbn; rewrite app_nil_r; by eapply list_elem_of_lookup_2). destruct (ow_known _ _ _ _ _ _ _ H v Hin) as (Hl0 & Hlo & _).
    destruct (del_slots (fs s) (listenfd v) again f Ht Hl0 (ow_fd _ _ _ _ _ _ _ H) Ed) as [Ht' Hd]. split; [exact Ht'|]. split; [|eapply ses_keep; [by eapply del_same_busy| |exact Hs]; intros j e Hj Hbe _; by eapply del_keeps].
    cbn. destruct again; [by destruct Hd as [-> _]|]. destruct Hd as [Hno Hd]. assert (Ho : owned (slots f) (server s) (PDel k) (opened s) (made s) (freed s) (stale (ses_at s))).
    { destruct Hd as [Hsame|(i & e & He & Ee & _ & Hsl)]; [by eapply owned_ext|]. eapply owned_free; [exact H| |exact Hsl]. intros Est. pose proof (ow_stale _ _ _ _ _ _ _ H) as Hst. rewrite Est in Hst. destruct Hst as [[[y c] d] Hi]. destruct (ow_slot _ _ _ _ _ _ _ H _ _ _ _ Hi) as (_ & _ & Hst & _). destruct (Hst Est) as [_ Hy]. apply slots_Some in Hi as (e' & He' & Ee' & _). congruence. }
    destruct Ho. split; try done. intros j x d Hj. destruct (ow_conn0 _ _ _ Hj) as (k' & w & Hw & ? & Ex & _). exists k', w. split_and!; try done. intros [= <-]. rewrite Hv in Hw. injection Hw as <-. subst x. by eapply Hno.
  - destruct (ow_app _ _ _ _ _ _ _ H) as [v Hv]. rewrite Hv in Hm. injection Hm as <-. split; [done|]. split; [|done]. by apply owned_close.
Qed.
Lemma busy_lookup f i b k : fd (upd_entry i (λ e, e <| busy := b |>) f) !! k = if decide (k = Z.to_nat i) then (λ e, e <| busy := b |>) <$> fd f !! k else fd f !! k.
Proof. unfold upd_entry. cbn. case_decide as E; [subst; by rewrite list_lookup_alter_eq|by rewrite list_lookup_alter_ne]. Qed.
(** The session thread goes on with no flag up. *)
Lemma ses_idle f p q : ses_ok f p → match p with SCall _ _ _ _ _ | SBusy _ _ _ => False | _ => True end → match q with SFill | SSelect _ => True | SScan i _ => 0 <= i <= MAX_FDS | _ => False end → ses_ok f q.
Proof. intros [H1 H2] Hp Hq. split; [intros k e Hk Hb; specialize (H1 k e Hk Hb); by destruct p|by destruct q]. Qed.
Lemma called_slot f i cb x d r : ses_ok f (SCall i cb x d r) → slots f (Z.to_nat i) = Some (x, cb, d).
Proof. intros (_ & _ & e & He & _ & Hs). unfold slots. by rewrite He. Qed.
Lemma take_ses f i r e : 0 <= i < MAX_FDS → ses_ok f (SScan i r) → fd f !! Z.to_nat i = Some e →
  ses_ok (upd_entry i (λ e, e <| busy := 1 |>) f) (match rcb e with Some cb => if (0 <=? fe_fd e) && bool_decide (fe_fd e ∈ r) then SCall i cb (fe_fd e) (dat e) r else SBusy i false r | None => SBusy i false r end).
Proof.
  intros Hi [H1 _] He. assert (Hb : ∀ k e', fd (upd_entry i (λ e, e <| busy := 1 |>) f) !! k = Some e' → busy e' ≠ 0 → k = Z.to_nat i). { intros k e'. rewrite busy_lookup. case_decide; [done|]. intros Hk Hbe. by destruct (H1 k e' Hk Hbe). }
  destruct (rcb e) as [cb|] eqn:Er; [|by split]. destruct (Z.leb_spec 0 (fe_fd e)); [|by split]. destruct (bool_decide _); [|by split]. split; [done|]. split; [done|]. exists (e <| busy := 1 |>). rewrite busy_lookup, decide_True, He by done. split; [done|]. split; [done|]. unfold slot_of. cbn. destruct (Z.eqb_spec (fe_fd e) (-1)); [lia|]. by rewrite Er.
Qed.
Lemma clear_ses f i rm r : ses_ok f (SBusy i rm r) → ses_ok (upd_entry i (λ e, e <| busy := 0 |>) f) (if rm then SDel i r else SScan (i + 1) r).
Proof.
  intros [H1 H2]. split; [|destruct rm; lia]. intros k e. rewrite busy_lookup. case_decide as E; [destruct (fd f !! k); [intros [= <-]; by cbn|done]|]. intros Hk Hb. specialize (H1 k e Hk Hb). done.
Qed.
Lemma session_step m s s' : inv s → do_session false m s = Some s' → inv s'.
Proof.
  intros (Ht & H & Hs) Hm. destruct m, (ses_at s) as [|r|i r|i cb x' d' r|i rm r|i r] eqn:Es; cbn [do_session] in Hm; rewrite ?Es in Hm; try done; try (first [destruct cb; [done|]|destruct cb; [|done]]).
  - destruct (fdset_fill (fs s)) as [[[mx r] w]|]; [|done]. injection Hm as <-. split; [done|]. split; [done|]. by eapply ses_idle.
  - destruct (bool_decide _); [|done]. injection Hm as <-. split; [done|]. split; [done|]. eapply ses_idle; [exact Hs|done|done].
  - injection Hm as <-. split; [done|]. split; [done|]. by eapply ses_idle.
  - destruct (Z.eqb_spec i MAX_FDS); [done|]. destruct (fd (fs s) !! Z.to_nat i) as [e|] eqn:He; [|done]. cbn in Hm. injection Hm as <-. split; [by apply upd_busy_table|]. split; [|apply take_ses; [destruct Hs; lia|done|done]]. cbn. eapply owned_ext; [intros k; apply upd_busy_slots|]. destruct (rcb e); [destruct (_ && _)|]; done.
  - injection Hm as <-. split; [done|]. split; [done|]. destruct Hs as (? & ? & _). by split.
  - injection Hm as <-. split; [done|]. split; [|destruct Hs as (? & ? & _); by split]. cbn. apply owned_hang_up; [done|]. by eapply called_slot.
  - injection Hm as <-. split; [done|]. split; [done|]. destruct Hs as (? & ? & _). by split.
  - destruct (_ || _) eqn:Eg in Hm; [done|]. apply orb_false_iff in Eg as [Hn%negb_false_iff Hc%negb_false_iff]. injection Hm as <-. unfold new_fd in Hn. apply andb_true_iff in Hn as [[Hx Hxo%bool_decide_eq_true]%andb_true_iff _]. apply Z.leb_le in Hx. apply bool_decide_eq_true in Hc. pose proof (ow_freed _ _ _ _ _ _ _ H) as Hfr. cbn [stale] in H.
    assert (H' : owned (slots (fs s)) (server s) (app_at s) ({[x]} ∪ opened s) ({[d]} ∪ made s) (freed s) None).
    { destruct H. split; try done; [|intros v Hv; destruct (ow_known0 v Hv) as (? & ? & ? & ?); set_solver|set_solver]. intros j y c e Hj. destruct (ow_slot0 _ _ _ _ Hj) as (? & ? & _ & H4). destruct H4; [done|]. split_and!; [done|set_solver|done|set_solver]. }
    edestruct (add_inv (fs s) (server s) (server s) (app_at s) (app_at s) ({[x]} ∪ opened s) ({[d]} ∪ made s) (freed s) None x CbMessage d) as [Ht' Ho']; [done|exact H'|done|set_solver|set_solver|set_solver| | |done|done|].
    + intros j y c e Hj. destruct (ow_slot _ _ _ _ _ _ _ H _ _ _ _ Hj) as (_ & He & _ & H4). destruct H4 as [Hy _]; [done|]. split; congruence.
    + intros v Hv. destruct (ow_known _ _ _ _ _ _ _ H v Hv) as (_ & ? & ? & _). split; congruence.
    + split; [exact Ht'|]. split; [exact Ho'|]. cbn. assert (Hk : ses_ok (fdset_add (fs s) x (Some CbMessage) None d).2 (SCall i CbConnection x' d' r)) by (eapply ses_keep; [apply add_same_busy| |exact Hs]; intros k e Hk _ He; by apply add_keeps). destruct Hk as (? & ? & _). by split.
  - injection Hm as <-. split; [by apply upd_busy_table|]. split; [|by apply clear_ses]. cbn. eapply owned_ext; [intros k; apply upd_busy_slots|]. by destruct rm.
  - injection Hm as <-. pose proof Hs as [_ Hi]. cbn in Hi. assert (fdset_del_slot (fs s) i = empty_slot i (fs s)) as E. { unfold fdset_del_slot. destruct (Z.ltb_spec i 0); [lia|]. rewrite Z.geb_leb. by destruct (Z.leb_spec MAX_FDS i); [lia|]. } destruct (empty_slots (fs s) i Ht) as [Ht' Hsl].
    split; [cbn; by rewrite E|]. split; [cbn; rewrite E; by eapply owned_removed|]. cbn. rewrite E. eapply ses_idle; [eapply ses_keep; [apply empty_same_busy| |exact Hs]|done|cbn; lia]. intros k e Hk Hb _. by destruct (proj1 Hs k e Hk Hb).
  - destruct (i =? MAX_FDS); [|done]. injection Hm as <-. split; [done|]. split; [done|]. by eapply ses_idle.
Qed.
Lemma owned_empty sl : (∀ k, sl k = None) → owned sl [] PIdle ∅ ∅ ∅ None.
Proof. intros Hn. split; cbn; try (intros *; rewrite ?Hn; done); try (intros; set_solver); constructor. Qed.
Lemma start_inv : inv start.
Proof.
  assert (Hr : ∀ k e, fd fdset_init !! k = Some e → e = FdEntry (-1) None None 0 0) by (intros k e Hk; apply (lookup_replicate (Z.to_nat MAX_FDS)) in Hk; apply Hk). assert (Hn : ∀ k, slots fdset_init k = None) by (intros k; unfold slots; destruct (fd fdset_init !! k) as [e|] eqn:E; [|done]; by rewrite (Hr _ _ E)). split; [|split].
  - split; [vm_compute; reflexivity|]. apply Forall_lookup. intros k e ->%Hr Hne. by destruct Hne.
  - by apply owned_empty.
  - split; [|done]. intros k e ->%Hr Hb. by destruct Hb.
Qed.
Lemma reach_inv s : rtc (step false) start s → inv s.
Proof.
  intros H. pose proof start_inv as Hi. revert Hi. induction H as [|a b c [m Hm] _ IH]; intros Ha; [done|]. apply IH. unfold do_move in Hm. destruct (do_app false m a) as [a'|] eqn:E; [injection Hm as <-; by eapply app_step|by eapply session_step].
Qed.

(** C15: As long as the system gives out the number of a closed descriptor again
    only when it is not in the table any more, a callback of the event loop never
    runs with a context that was freed or a descriptor that was closed, however
    the calls that add and remove sockets
    fall between the steps of the session thread: a removal that has left its
    loop finds neither descriptor nor context of its socket in the table, and one
    that must go on waits for a callback of that very socket. *)
Theorem fdset_contexts_safe s : rtc (step false) start s →
  (∀ i cb x d r, ses_at s = SCall i cb x d r → d ∉ freed s ∧ x ∈ opened s ∧ (cb = CbConnection → ∃ v, v ∈ server s ∧ sv_ctx v = d ∧ listenfd v = x)) ∧
  (∀ k, app_at s = PDel k → ∃ v s', server s !! k = Some v ∧ do_move false Del s = Some s' ∧
    (app_at s' = PClose k ∨ ∃ i e, fd (fs s) !! Z.to_nat i = Some e ∧ fe_fd e = listenfd v ∧ match ses_at s with SCall j _ _ _ _ | SBusy j _ _ => j = i | _ => False end)) ∧
  (∀ k, app_at s = PClose k → ∃ v, server s !! k = Some v ∧ ∀ i x cb d, slots (fs s) i = Some (x, cb, d) → sv_ctx v ≠ d ∧ listenfd v ≠ x).
Proof.
  intros Hr. apply reach_inv in Hr as (Ht & H & Hs). split_and!.
  - intros i cb x d r Es. rewrite Es in H, Hs. pose proof (called_slot _ _ _ _ _ _ Hs) as Hc. destruct (ow_slot _ _ _ _ _ _ _ H _ _ _ _ Hc) as (_ & _ & _ & H4). destruct H4 as [? ?]; [done|]. split_and!; [done..|]. intros ->. destruct (ow_conn _ _ _ _ _ _ _ H _ _ _ Hc) as (k & v & Hv & ? & ? & _). exists v. split; [by eapply list_elem_of_lookup_2|done].
  - intros k Ea. rewrite Ea in H. destruct (ow_app _ _ _ _ _ _ _ H) as [v Hv]. unfold do_move. cbn [do_app]. rewrite Ea, Hv. cbn [mbind option_bind]. destruct (fdset_del_round (fs s) (listenfd v)) as [again f] eqn:Ed. eexists v, _. split; [done|]. split; [done|]. cbn. destruct again; [right|by left].
    destruct (ow_known _ _ _ _ _ _ _ H v) as (Hl0 & _); [cbn; rewrite app_nil_r; by eapply list_elem_of_lookup_2|]. destruct (del_slots (fs s) (listenfd v) true f Ht Hl0 (ow_fd _ _ _ _ _ _ _ H) Ed) as (_ & _ & i & e & He & Ee & Hb). exists (Z.of_nat i), e. rewrite Nat2Z.id. split; [done|]. split; [done|]. destruct Hs as [H1 H2]. specialize (H1 i e He Hb). destruct (ses_at s); try done; lia.
  - intros k Ea. rewrite Ea in H. destruct (ow_app _ _ _ _ _ _ _ H) as [v Hv]. exists v. split; [done|]. intros i x cb d Hi. by eapply closing_free.
Qed.

(** ** Examples *)

Fixpoint do_moves (reuse : bool) (ms : list move) (s : sys) : option sys :=
  match ms with
  | [] => Some s
  | m :: ms => match do_move reuse m s with Some s' => do_moves reuse ms s' | None => None end
  end.
Definition at_end (reuse : bool) (ms : list move) : sys := default start (do_moves reuse ms start).
Lemma moves_reach reuse ms s : (if do_moves reuse ms s is Some _ then true else false) = true → rtc (step reuse) s (default s (do_moves reuse ms s)).
Proof.
  revert s. induction ms as [|m ms IH]; intros s; cbn; [done|]. destruct (do_move reuse m s) as [s1|] eqn:E; [|done]. intros H. specialize (IH s1 H). destruct (do_moves reuse ms s1); [|done]. eapply rtc_l; [by exists m|done].
Qed.
(** The scan goes on over [n] slots that are not ready. *)
Definition pass (n : nat) : list move := concat (replicate n [Take; Clear]).
Definition one_connection : list move := [Register "/tmp/sock0" true 10 100; Add; Fill; Select {[10]}; Take; Accept 11 200; Clear] ++ pass 1023 ++ [Again; Fill; Select {[11]}; Take; Clear; Take].
Definition called (s : sys) : option (Z * Z * bool) := match ses_at s with SCall i _ _ d _ => Some (i, d, bool_decide (d ∈ freed s)) | _ => None end.
Lemma fdset_contexts_safe_witness : called (at_end false one_connection) = Some (1, 200, false) ∧ 200 ∉ freed (at_end false one_connection).
Proof.
  split; [vm_compute; reflexivity|]. destruct (fdset_contexts_safe (at_end false one_connection)) as (H & _); [apply (moves_reach false one_connection start); vm_compute; reflexivity|]. apply (H 1 CbMessage 11 200 {[11]}). vm_compute. reflexivity.
Defined.
(** The number of a connection that was closed in its callback is given to a new
    socket, which is removed again before the slot of the connection is: the
    removal empties that slot instead, frees the socket and leaves it in the
    table; its callback then runs with the context that was freed. *)
Definition reused_number : list move := one_connection ++ [HangUp; Register "/tmp/sock1" true 11 300; Add; Unregister "/tmp/sock1"; Del; Clear; Del; Close; Remove; Take].
Theorem reused_number_freed_context : rtc (step true) start (at_end true reused_number) ∧ called (at_end true reused_number) = Some (2, 300, true).
Proof. split; [apply (moves_reach true reused_number start)|]; vm_compute; reflexivity. Qed.
(** A descriptor of 1024 or more is set outside the [fd_set]. *)
Theorem large_descriptor_overruns : do_moves false [Register "/tmp/sock0" true 1024 100; Add; Fill] start = None.
Proof. vm_compute. reflexivity. Qed.
(** A path that could not be copied is compared with all the same. *)
Theorem missing_path_compared : do_moves false [Register "/tmp/sock0" false 10 100; Add; Unregister "/tmp/sock1"] start = None.
Proof. vm_compute. reflexivity. Qed.
